(* ===== verification/_CoqProject ===== *)
-Q . S2P
Prelude.v
Pic.v
PicSpec.v
PicProps.v
LazyFlags.v
Cpu.v
Arith8.v
Arith16.v
Arith32.v
Arith64.v
Alu.v
AluRefine.v
AluMore.v
Shift8.v
Shift16.v
Shift32.v
Shift64.v
ShiftSpec.v
ShiftRefine.v
WideInt.v
Mult.v
MultRefine.v
ScalarArith.v
Bit.v
Bit16.v
Bit32.v
Bit64.v
BitSpec.v
BitRefine.v
BitMore.v
Bmi.v
BmiSpec.v
BmiRefine.v
Bcd.v
Tlb.v
Paging.v
PagingSpec.v
PagingRefine.v
PagingAd.v
TlbProps.v
TlbSound.v
TlbTrace.v
Access.v
AccessSpec.v
AccessRefine.v
AccessTrace.v
Segment.v
SegmentProps.v
StackProps.v
VirtualTrace.v
Machine.v
MachineRun.v
Memory.v
MemoryProps.v
MemoryBus.v
Blocks.v
PcSystem.v
PcSystemInv.v
PcSystemProps.v
TimerSchedule.v
Timers.v
Pit82c54.v
PitRun.v
PitRate.v
PitTerminal.v
PitSquare.v
PitInv.v
PitChip.v
Pit.v
PitDevice.v
PitIrq.v
Lapic.v
LapicProps.v
LapicBus.v
Ioapic.v
IoapicProps.v
Dma.v
DmaRequests.v
DmaTransfer.v
DmaProps.v
