(* ===== verification/Prelude.v ===== *)
(** * Verified components of the Bochs PC emulator: root file and prelude

    The program (src/bochs) is a PC in software: x86 processors (cpu/) that run
    guest code over a physical memory (memory/), devices (iodev/) that are
    reached through ports and memory, and a clock with timers (pc_system.cc)
    that advances by instructions executed and calls devices when their time has
    come.  A device asks for attention by raising a line of the interrupt
    controllers; the controllers signal the processor, which acknowledges and
    gets a vector.  This library models the parts below as executable
    definitions, each operation translated with its guards and early returns, and
    proves what they promise.

    ** Configuration

    The definitions are the code under the options of config.h: BX_CPU_LEVEL 6,
    x86-64, VMX 2, no SVM, no AVX, no protection keys, no CET, no memory types,
    40 physical and 48 linear address bits, alignment checks, MONITOR/MWAIT, one
    A20 mask, no debugger and no instrumentation.  Guests of VMX are not
    modelled, so conditions on guest mode are false.

    ** Conventions

    Machine integers are Z with their wrap-around written out ([wrap n], [u8],
    [u16], [u32], [u64] and [signed n] of this file; [fits n x] says that [x] is
    an n-bit value).  A C++ object is a Record, and its methods are functions on
    it; methods that call each other's objects work on a record that holds both.
    Exceptions and faults are values: a step gives [Ok] with the new state, or
    [Fault] with the exception and the state at that point.  Fields are updated
    with [r <| f := v |>].  Host calls that the modelled parts do not read back
    (speaker, log messages, registrations) are logs or are left out, as the
    file says.

    ** Files, parts and sources

    - Prelude: wrap-around, record update, lists, automation.
    - The interrupt controllers.  Pic (iodev/pic.cc): both 8259s, with the line
      to the processor and the lines passed on to the I/O APIC through the class
      [IrqForward]; PicSpec and PicProps.  Lapic (cpu/apic.cc): the local APICs and
      their bus; LapicProps, LapicBus.  Ioapic (iodev/ioapic.cc) delivers to the
      APIC bus, acknowledges the 8259s for ExtINT and implements [IrqForward];
      IoapicProps is about all three together.
    - The integer instructions.  LazyFlags (cpu/lazy_flags.h): flags kept as
      result and carry-out vector.  Cpu: registers, instruction fields, effective
      addresses and the handler monad; memory is the class [VirtualMemory].
      Arith8 to Arith64 (arith*.cc, logical*.cc), Shift8 to Shift64 (shift*.cc), Mult
      (mult*.cc) over WideInt (wide_int.cc), Bit to Bit64 (bit*.cc), Bmi (bmi*.cc) and
      ScalarArith, Bcd (bcd.cc) have one definition per handler.  Alu, ShiftSpec,
      BitSpec, BmiSpec hold the specification of an instruction as a function of
      operands and flags; the *Refine and *More files the proofs.
    - The memory path of the processor.  Tlb (cpu/tlb.h), Paging (cpu/paging.cc,
      crregs.h): page walks, faults, accessed and dirty bits, TLB fills and flushes,
      over the class [PhysicalMemory].  PagingSpec: the architecture's walk.
      PagingRefine, PagingAd, TlbProps, TlbSound, TlbTrace: the proofs.  Access
      (access2.cc, paging.cc): linear accesses, their fast path through host
      pointers (class [HostMemory]).  AccessSpec, AccessRefine, AccessTrace.
      PagingSpec and AccessSpec end with a flat memory that implements the classes,
      with concrete page tables to run; Tlb begins with masks as bit fields.
    - Segments.  Segment (access.cc, access.h, cpu.h, stack.cc): segment checks with
      the access bits they leave in the descriptor cache, virtual accesses, and the
      stack cache through which pushes and pops reach memory.  SegmentProps,
      StackProps, VirtualTrace.
    - The whole.  Machine: the memory path as an instance of [VirtualMemory], and
      reference memory without TLBs, caches and host pointers as another one;
      instructions run alike on both.  MachineRun: programs.
    - Physical memory.  Memory (memory/memory.cc, misc_mem.cc, cpu/mwait.cc): physical
      and DMA accesses, ROM, shadow areas, flash chip, SMRAM, device handlers,
      monitored lines, host pointers.  MemoryProps makes it an instance of
      [PhysicalMemory] and [HostMemory] with their laws; MemoryBus is about traffic
      of processors and DMA, and ends with executions that go wrong.  Blocks (the
      table of RAM blocks, swapping to a file) justifies the fixed table of Memory.
    - Time.  PcSystem (pc_system.cc): timer table, countdown, events; PcSystemInv,
      PcSystemProps, TimerSchedule, Timers.  Pit82c54 (iodev/pit82c54.cc): the
      interval timer chip, with single clocks and the event-driven jumps; PitRun,
      PitInv and one file per mode (PitRate, PitTerminal, PitSquare), PitChip.
      Pit (iodev/pit.cc): the timer device over the class [IrqLines], which the 8259s
      implement; PitDevice, PitIrq.
    - Dma (iodev/dma.cc): both 8237s with the HRQ line; device handlers and memory
      are arguments.  DmaRequests, DmaTransfer, DmaProps.

    ** What the theorems show

    - Interrupts: servicing an 8259 signals the request with the highest priority,
      releases its pin when nothing is left, and does nothing else; they keep
      their invariant under every operation; neither they nor the local APICs lose a
      request, but for writes to the interrupt enables of the extended APIC that
      reach a waiting request; a line raised at the I/O APIC reaches the processor
      its entry names; the composed system keeps all the invariants.
    - Instructions: every handler computes the specification of its instruction, at
      every operand size, in register and memory form, and faults leave registers
      and flags as they were; lazy flags are the flags of the operation; wide
      products are exact; decimal adjusts give decimal digits; gather and scatter are
      inverse.
    - Memory path: the page walks refine the architecture's walk; no run of
      translations, and no run of linear accesses, can tell the processor with its
      TLBs, host pointers and split operands from one that walks the tables for every
      operand, as long as changed tables are followed by INVLPG or a flush.
      Nor can a run of virtual accesses, pushes, pops and segment loads tell the
      cached segment checks and the stack cache from complete checks.
    - Programs: a run of integer instructions by the handlers, on the memory path,
      is the run of their specifications on reference memory, faults included.
    - Physical memory: a host pointer reads and writes what physical accesses do,
      as long as it is held and nobody changes the mapping of its page or arms a
      monitor on it (the code leaves the flush to the callers); ROM changes only when BIOS writes are enabled; guest RAM
      is a flat array whatever is swapped out, and its allocation on demand cannot
      be told from a table given from the start.
    - Time: timers run when they are due, periodic ones at every period, and ticking
      terminates; the interval timer's jumps are single clocks, the modes give their
      wave forms (mode 3 for even counts), a read-back gives what was latched; the
      device does not drift in modes 2 and 3, and
      the edges of OUT are the calls on IRQ 0.
    - DMA: unmasked requests hold HRQ until the cascade request is withdrawn or a
      transfer ends over their heads; a block transfer to a device that may pause
      moves exactly its bytes and ends with the terminal count.
    - Errors: where the code does not do what it means to, a theorem or an execution
      shows it (a spurious interrupt inside one priority class, lost interrupts of
      the I/O APIC, DMA lengths: for every state; odd square waves, stranded
      requests: on concrete runs); the findings of the manifest list these and the smaller ones.

    ** Interfaces

    [VirtualMemory] (Cpu) is what instruction handlers need of memory: reads, writes
    and read-modify-writes that can fault.  [PhysicalMemory] (Paging) with its laws
    [PhysicalMemoryOk] is what page walks need, [HostMemory] (Access) with
    [HostMemoryOk] what the fast paths need of pointers into guest memory; the
    physical memory of Memory implements both.
    [IrqLines] (Pit) and [IrqForward] (Pic) connect devices and interrupt
    controllers; timer handlers (PcSystem) and DMA devices (Dma) are arguments with
    named hypotheses.  Every hypothesis is met by an instance or by a concrete
    function in a witness.

    ** Fuel and bounds

    Loops over bits, channels, pins or table levels run as long as their range.
    Where a loop of the code is bounded by data, the definition takes fuel, and a
    round uses up at least one unit of what the fuel counts: clocks in
    [clock_multiple_counter], ticks in [pass_ticks], bytes in the page loops of
    Dma, shifts of 128 bits in the wide division.  The theorems about them state
    the result (the jump is the single clocks, the block is transferred, the
    quotient is exact), so a loop cut short by its fuel would refute them.  [tickn]
    of PcSystem gives an option, and [tickn_terminates] shows that [n + 1] rounds
    suffice for [n] ticks.  Timer arithmetic is proved below [LIMIT], 2^62
    ticks, so that 64-bit clocks do not wrap.

    ** Not modelled

    - The decoder: tables of opcodes without logic beyond the lookup.
    - The stamps that tell when decoded code is stale, as the cache of decoded code
      is not modelled; file access in load_ROM and in the swap file's errors.
    - Segment and gate descriptors, task switches, control register instructions,
      exceptions' delivery and the processor's main loop: programs here are lists of
      decoded instructions, which end at the first exception.
    - Floating point (SoftFloat is third-party code), MMX, SSE and AVX; VMX and SVM.
    - The other devices: keyboard, serial, disks, display, network, sound and USB
      mostly move data to and from the host.  Disk images, user interfaces, the
      debugger, configuration and plugins are host code.
    - Guest code in the tree: BIOS, VGA BIOS, the tutorial kernels and xv6.
    - Save and restore of device state, log messages, debugger dumps. *)

From Stdlib Require Import ZArith Lia List Bool.
Import ListNotations.
Open Scope Z_scope.

(** ** Functional record update

    [r <| f := v |>] is [r] with its field [f] replaced by [v].  A record type
    opts in by declaring an [Eta] instance, the eta-expansion of its
    constructor; the setter of a field is computed from it. *)
Class Eta (R : Type) := eta : R -> R.

Class SetField {R T : Type} (proj : R -> T) := set_field : T -> R -> R.
Arguments set_field {R T} proj {_} _ _ /.

Ltac build_setter R T proj :=
  let e := constr:(_ : Eta R) in
  exact (fun (field_val : T) (record_val : R) =>
    ltac:(let b := eval hnf in (e record_val) in
          match eval pattern (proj record_val) in b with
          | ?f _ => let b' := eval cbv beta in (f field_val) in exact b'
          end)).

#[export] Hint Extern 0 (@SetField ?R ?T ?proj) =>
  build_setter R T proj : typeclass_instances.

Declare Scope bochs_scope.
Delimit Scope bochs_scope with bochs.
Notation "r <| p := v |>" := (set_field p v r)
  (at level 1, left associativity, p constr at level 9, v at level 99,
   format "r <| p  :=  v |>") : bochs_scope.
Open Scope bochs_scope.

(** Case analysis on the boolean tests of the code. *)
Ltac case_bool :=
  match goal with
  | |- context [if ?b then _ else _] => let E := fresh "E" in destruct b eqn:E
  end.

Ltac bool_hyps :=
  repeat match goal with
  | H : _ && _ = true |- _ => apply andb_true_iff in H; destruct H
  | H : _ || _ = false |- _ => apply orb_false_iff in H; destruct H
  | H : negb _ = true |- _ => apply negb_true_iff in H
  | H : negb _ = false |- _ => apply negb_false_iff in H
  | H : (_ =? _) = true |- _ => apply Z.eqb_eq in H
  | H : (_ =? _) = false |- _ => apply Z.eqb_neq in H
  | H : (_ <? _) = true |- _ => apply Z.ltb_lt in H
  | H : (_ <? _) = false |- _ => apply Z.ltb_ge in H
  | H : (_ <=? _) = true |- _ => apply Z.leb_le in H
  | H : (_ <=? _) = false |- _ => apply Z.leb_gt in H
  end.

(** Succeeds on integer literals. *)
Ltac pos_cst p :=
  lazymatch p with xH => idtac | xO ?q => pos_cst q | xI ?q => pos_cst q end.
Ltac Zcst z :=
  lazymatch z with Z0 => idtac | Zpos ?p => pos_cst p | Zneg ?p => pos_cst p end.

(** ** Machine integers *)

(** [wrap n x] is the value an n-bit unsigned object holds after [x] is
    stored in it. *)
Definition wrap (n x : Z) : Z := x mod 2 ^ n.

Abbreviation u8 := (wrap 8).
Abbreviation u16 := (wrap 16).
Abbreviation u32 := (wrap 32).
Abbreviation u64 := (wrap 64).

(** A value that fits an n-bit unsigned object. *)
Definition fits (n x : Z) : Prop := 0 <= x < 2 ^ n.

Lemma wrap_fits n x : 0 <= n -> fits n (wrap n x).
Proof. intros Hn. apply Z.mod_pos_bound. lia. Qed.

Lemma wrap_id n x : fits n x -> wrap n x = x.
Proof. apply Z.mod_small. Qed.

Lemma wrap_wrap n x : 0 <= n -> wrap n (wrap n x) = wrap n x.
Proof. intros. apply wrap_id, wrap_fits; assumption. Qed.

Lemma wrap_bit n x i :
  0 <= n -> Z.testbit (wrap n x) i = (i <? n) && Z.testbit x i.
Proof.
  intros Hn. unfold wrap. destruct (Z.ltb_spec i n) as [H|H]; simpl.
  - destruct (Z.lt_ge_cases i 0).
    + now rewrite !Z.testbit_neg_r by lia.
    + now rewrite Z.mod_pow2_bits_low by lia.
  - now rewrite Z.mod_pow2_bits_high by lia.
Qed.

Lemma fits_testbit n x i : 0 <= n -> fits n x -> n <= i -> Z.testbit x i = false.
Proof.
  intros Hn Hx Hi. rewrite <- (wrap_id n x Hx), wrap_bit by lia.
  destruct (Z.ltb_spec i n); [lia | reflexivity].
Qed.

Lemma fits_bits n x :
  0 <= n -> 0 <= x -> (forall i, n <= i -> Z.testbit x i = false) -> fits n x.
Proof.
  intros Hn Hx H. assert (E : wrap n x = x).
  { apply Z.bits_inj'. intros i Hi. rewrite wrap_bit by lia.
    destruct (Z.ltb_spec i n); simpl; [reflexivity | symmetry; apply H; lia]. }
  rewrite <- E. apply wrap_fits; lia.
Qed.

Lemma fits_le n m x : n <= m -> fits n x -> fits m x.
Proof.
  unfold fits. intros. assert (2 ^ n <= 2 ^ m) by (apply Z.pow_le_mono_r; lia). lia.
Qed.

Lemma fits_land_l n x y : 0 <= n -> fits n x -> fits n (Z.land x y).
Proof.
  intros Hn Hx. apply fits_bits; [lia | |].
  - apply Z.land_nonneg. left. destruct Hx; assumption.
  - intros i Hi. rewrite Z.land_spec, (fits_testbit n x i) by assumption. reflexivity.
Qed.

Lemma fits_land_r n x y : 0 <= n -> fits n y -> fits n (Z.land x y).
Proof. intros. rewrite Z.land_comm. apply fits_land_l; assumption. Qed.

Lemma fits_lor n x y : 0 <= n -> fits n x -> fits n y -> fits n (Z.lor x y).
Proof.
  intros Hn Hx Hy. apply fits_bits; [lia | |].
  - apply Z.lor_nonneg. destruct Hx, Hy; auto.
  - intros i Hi.
    rewrite Z.lor_spec, (fits_testbit n x i), (fits_testbit n y i) by assumption.
    reflexivity.
Qed.

Lemma fits_lxor n x y : 0 <= n -> fits n x -> fits n y -> fits n (Z.lxor x y).
Proof.
  intros Hn Hx Hy. apply fits_bits; [lia | |].
  - apply Z.lxor_nonneg. destruct Hx, Hy; split; auto.
  - intros i Hi.
    rewrite Z.lxor_spec, (fits_testbit n x i), (fits_testbit n y i) by assumption.
    reflexivity.
Qed.

Lemma fits_pow2 n i : 0 <= i < n -> fits n (2 ^ i).
Proof.
  intros. split; [apply Z.pow_nonneg; lia | apply Z.pow_lt_mono_r; lia].
Qed.

(** The signed reading of an n-bit object, and its sign extension to 64 bits. *)
Definition signed (n x : Z) : Z :=
  let y := wrap n x in if y <? 2 ^ (n - 1) then y else y - 2 ^ n.

Definition sext (n x : Z) : Z := u64 (signed n x).

Lemma signed_range n x : 0 < n -> - 2 ^ (n - 1) <= signed n x < 2 ^ (n - 1).
Proof.
  intros Hn. unfold signed. pose proof (wrap_fits n x ltac:(lia)) as [H1 H2].
  assert (E : 2 ^ n = 2 * 2 ^ (n - 1)).
  { rewrite <- Z.pow_succ_r by lia. f_equal. lia. }
  destruct (Z.ltb_spec (wrap n x) (2 ^ (n - 1))); lia.
Qed.

Lemma wrap_signed n x : 0 < n -> wrap n (signed n x) = wrap n x.
Proof.
  intros Hn. unfold signed. destruct (_ <? _).
  - apply wrap_wrap; lia.
  - unfold wrap. rewrite Zminus_mod, Z_mod_same_full, Z.sub_0_r, !Zmod_mod. reflexivity.
Qed.

Lemma signed_wrap n x : 0 <= n -> signed n (wrap n x) = signed n x.
Proof. intros. unfold signed. rewrite wrap_wrap by lia. reflexivity. Qed.

Lemma wrap_wrap_le n m x : 0 <= n <= m -> wrap n (wrap m x) = wrap n x.
Proof.
  intros. apply Z.bits_inj'. intros i Hi. rewrite !wrap_bit by lia.
  destruct (Z.ltb_spec i n), (Z.ltb_spec i m); simpl; auto; lia.
Qed.

Lemma wrap_add n x y : wrap n (wrap n x + wrap n y) = wrap n (x + y).
Proof. unfold wrap. symmetry. apply Zplus_mod. Qed.

Lemma wrap_add_l n x y : wrap n (wrap n x + y) = wrap n (x + y).
Proof. unfold wrap. apply Zplus_mod_idemp_l. Qed.

Lemma wrap_add_r n x y : wrap n (x + wrap n y) = wrap n (x + y).
Proof. unfold wrap. apply Zplus_mod_idemp_r. Qed.

Lemma wrap_sub_l n x y : wrap n (wrap n x - y) = wrap n (x - y).
Proof. unfold wrap. apply Zminus_mod_idemp_l. Qed.

Lemma wrap_sub_r n x y : wrap n (x - wrap n y) = wrap n (x - y).
Proof. unfold wrap. apply Zminus_mod_idemp_r. Qed.

Lemma wrap_add3 n x y c : wrap n (wrap n x + wrap n y + c) = wrap n (x + y + c).
Proof. rewrite <- wrap_add_l, wrap_add, wrap_add_l. reflexivity. Qed.

Lemma wrap_sub3 n x y c : wrap n (wrap n x - wrap n y - c) = wrap n (x - y - c).
Proof.
  rewrite <- wrap_sub_l, (wrap_sub_l n x), wrap_sub_r, wrap_sub_l. reflexivity.
Qed.

(** The top bit of the signed reading is the sign. *)
Lemma testbit_top n x : 0 < n -> Z.testbit x (n - 1) = (2 ^ (n - 1) <=? wrap n x).
Proof.
  intros Hn. pose proof (wrap_fits n x ltac:(lia)) as [H1 H2].
  assert (E : 2 ^ n = 2 * 2 ^ (n - 1)).
  { rewrite <- Z.pow_succ_r by lia. f_equal. lia. }
  assert (B : Z.testbit x (n - 1) = Z.testbit (wrap n x) (n - 1)).
  { rewrite wrap_bit by lia. destruct (Z.ltb_spec (n - 1) n); [reflexivity | lia]. }
  rewrite B. pose proof (Z.pow_pos_nonneg 2 (n - 1) ltac:(lia) ltac:(lia)).
  destruct (Z.leb_spec (2 ^ (n - 1)) (wrap n x)) as [L|L].
  - apply Z.testbit_true; [lia|].
    replace (wrap n x / 2 ^ (n - 1)) with 1; [reflexivity|].
    apply Z.div_unique with (wrap n x - 2 ^ (n - 1)); lia.
  - apply Z.testbit_false; [lia|]. rewrite Z.div_small by lia. reflexivity.
Qed.

Lemma signed_neg n x : 0 < n -> (signed n x <? 0) = Z.testbit x (n - 1).
Proof.
  intros Hn. rewrite testbit_top by lia. unfold signed.
  pose proof (wrap_fits n x ltac:(lia)) as [H1 H2].
  destruct (Z.ltb_spec (wrap n x) (2 ^ (n - 1))), (Z.leb_spec (2 ^ (n - 1)) (wrap n x)); try lia.
Qed.

Lemma sext_fits n x : fits 64 (sext n x).
Proof. apply wrap_fits; lia. Qed.

(** Bit [i] of a sign-extended value: the value's bit, or its sign above. *)
Lemma signed_bit n x i :
  0 < n -> 0 <= i -> Z.testbit (signed n x) i = Z.testbit x (if i <? n then i else n - 1).
Proof.
  intros Hn Hi. destruct (Z.ltb_spec i n) as [L|L].
  - transitivity (Z.testbit (wrap n (signed n x)) i).
    + rewrite wrap_bit by lia. destruct (Z.ltb_spec i n); [reflexivity|lia].
    + rewrite wrap_signed, wrap_bit by lia. destruct (Z.ltb_spec i n); [reflexivity|lia].
  - rewrite <- signed_neg by lia. pose proof (signed_range n x Hn).
    assert (2 ^ (n - 1) <= 2 ^ i) by (apply Z.pow_le_mono_r; lia).
    destruct (Z.ltb_spec (signed n x) 0) as [S|S].
    + apply Z.testbit_true; [lia|].
      replace (signed n x / 2 ^ i) with (-1); [reflexivity|].
      apply Z.div_unique with (signed n x + 2 ^ i); lia.
    + apply Z.testbit_false; [lia|]. rewrite Z.div_small by lia. reflexivity.
Qed.

(** ** Single bits: [1 << i], set, clear, test *)

Definition bitmask (i : Z) : Z := Z.shiftl 1 i.
Definition set_bit (x i : Z) : Z := Z.lor x (bitmask i).
Definition clear_bit (x i : Z) : Z := Z.land x (Z.lnot (bitmask i)).

Lemma bitmask_pow2 i : 0 <= i -> bitmask i = 2 ^ i.
Proof. intros. unfold bitmask. rewrite Z.shiftl_1_l. reflexivity. Qed.

Lemma bitmask_testbit i j : 0 <= i -> Z.testbit (bitmask i) j = (i =? j).
Proof. intros. rewrite bitmask_pow2 by lia. apply Z.pow2_bits_eqb. lia. Qed.

Lemma set_bit_testbit x i j :
  0 <= i -> Z.testbit (set_bit x i) j = Z.testbit x j || (i =? j).
Proof. intros. unfold set_bit. rewrite Z.lor_spec, bitmask_testbit; auto. Qed.

Lemma clear_bit_testbit x i j :
  0 <= i -> Z.testbit (clear_bit x i) j = Z.testbit x j && negb (i =? j).
Proof.
  intros. unfold clear_bit. destruct (Z.lt_ge_cases j 0).
  - rewrite !Z.testbit_neg_r by lia. reflexivity.
  - rewrite Z.land_spec, Z.lnot_spec, bitmask_testbit by lia. reflexivity.
Qed.

Lemma set_bit_fits n x i : 0 <= i < n -> fits n x -> fits n (set_bit x i).
Proof.
  intros. unfold set_bit. rewrite bitmask_pow2 by lia.
  apply fits_lor; auto using fits_pow2; lia.
Qed.

Lemma clear_bit_fits n x i : 0 <= n -> fits n x -> fits n (clear_bit x i).
Proof. intros. unfold clear_bit. apply fits_land_l; auto. Qed.

(** [x & (1 << i)] is non-zero exactly when bit [i] of [x] is set. *)
Lemma land_bitmask_zero x i :
  0 <= i -> (Z.land x (bitmask i) =? 0) = negb (Z.testbit x i).
Proof.
  intros Hi. destruct (Z.testbit x i) eqn:E; simpl.
  - apply Z.eqb_neq. intros H.
    assert (Z.testbit (Z.land x (bitmask i)) i = false) by (rewrite H; apply Z.testbit_0_l).
    rewrite Z.land_spec, bitmask_testbit, E, Z.eqb_refl in *; auto. discriminate.
  - apply Z.eqb_eq. apply Z.bits_inj'. intros j Hj.
    rewrite Z.land_spec, bitmask_testbit, Z.testbit_0_l by lia.
    destruct (Z.eqb_spec i j); subst; [rewrite E; reflexivity | apply andb_false_r].
Qed.

(** [(x >> i) & 1] is bit [i] of [x]. *)
Lemma shiftr_land_1 x i : 0 <= i -> Z.land (Z.shiftr x i) 1 = Z.b2z (Z.testbit x i).
Proof.
  intros Hi. change 1 with (Z.ones 1). rewrite Z.land_ones by lia.
  change (2 ^ 1) with 2. rewrite Z.shiftr_div_pow2 by lia.
  symmetry. apply Z.testbit_spec'. lia.
Qed.

(** Concatenation: [(hi << n) | lo]. *)
Lemma lor_shiftl_add n hi lo :
  0 <= n -> fits n lo -> Z.lor (Z.shiftl hi n) lo = 2 ^ n * hi + lo.
Proof.
  intros Hn Hl. assert (D : Z.land (Z.shiftl hi n) lo = 0).
  { apply Z.bits_inj'. intros i Hi. rewrite Z.land_spec, Z.shiftl_spec, Z.testbit_0_l by lia.
    destruct (Z.lt_ge_cases i n).
    - rewrite (Z.testbit_neg_r hi) by lia. reflexivity.
    - rewrite (fits_testbit n lo i) by assumption. apply andb_false_r. }
  rewrite <- Z.lxor_lor, <- Z.add_nocarry_lxor, Z.shiftl_mul_pow2 by assumption. lia.
Qed.

Lemma nonzero_has_bit x : 0 <= x -> x <> 0 -> exists i, 0 <= i /\ Z.testbit x i = true.
Proof.
  intros. exists (Z.log2 x). split; [apply Z.log2_nonneg | apply Z.bit_log2; lia].
Qed.

Lemma land_lnot_testbit x y i :
  0 <= i -> Z.testbit (Z.land x (Z.lnot y)) i = Z.testbit x i && negb (Z.testbit y i).
Proof. intros. rewrite Z.land_spec, Z.lnot_spec by lia. reflexivity. Qed.

(** ** Finite checks: [forall 0 <= x < n] by evaluation *)

Definition zrange (n : nat) : list Z := map Z.of_nat (seq 0 n).

Lemma zrange_in n x : In x (zrange n) <-> 0 <= x < Z.of_nat n.
Proof.
  unfold zrange. rewrite in_map_iff. split.
  - intros (k & <- & Hk). apply in_seq in Hk. lia.
  - intros H. exists (Z.to_nat x). split; [lia|]. apply in_seq. lia.
Qed.

Lemma zrange_forall n (P : Z -> bool) :
  forallb P (zrange n) = true -> forall x, 0 <= x < Z.of_nat n -> P x = true.
Proof. rewrite forallb_forall. intros H x Hx. apply H, zrange_in, Hx. Qed.

(** ** Arrays: functions updated at an index *)

Definition upd (f : Z -> Z) (k v : Z) : Z -> Z := fun j => if j =? k then v else f j.

Lemma upd_eq f k v : upd f k v k = v.
Proof. unfold upd. rewrite Z.eqb_refl. reflexivity. Qed.

Lemma upd_neq f k v j : j <> k -> upd f k v j = f j.
Proof. intros N. unfold upd. apply Z.eqb_neq in N. rewrite N. reflexivity. Qed.

(** ** Iteration *)

Lemma iter_add {A} (f : A -> A) n m x :
  Nat.iter (n + m) f x = Nat.iter n f (Nat.iter m f x).
Proof. induction n; simpl; congruence. Qed.

Lemma iter_succ_r {A} (f : A -> A) n x : Nat.iter (S n) f x = Nat.iter n f (f x).
Proof. replace (S n) with (n + 1)%nat by lia. rewrite iter_add. reflexivity. Qed.

Lemma iter_ind {A} (P : A -> Prop) (f : A -> A) n x :
  P x -> (forall y, P y -> P (f y)) -> P (Nat.iter n f x).
Proof. intros Hx Hf. induction n; simpl; auto. Qed.

(** Lemmas that discharge the routine range side conditions. *)
Create HintDb bits discriminated.
#[export] Hint Resolve wrap_fits fits_land_l fits_land_r fits_lor fits_lxor
  fits_pow2 set_bit_fits clear_bit_fits : bits.
