(* ===== verification/Pic.v ===== *)
(** * The cascaded 8259 interrupt controllers (iodev/pic.h, iodev/pic.cc)

    The state of [bx_pic_c] is the pair of [bx_pic_t] structs.  Two things
    outside the class are part of the modelled machine: the INTR line of the
    boot processor, which BX_RAISE_INTR and BX_CLEAR_INTR drive, and the panics
    that were reported (BX_PANIC logs and, unless the configured action stops
    the simulator, returns; the model continues after it, as the code does). *)

From Stdlib Require Import ZArith Lia List Bool.
From S2P Require Import Prelude.
Import ListNotations.
Open Scope Z_scope.

(** ** State *)

(** [bx_pic_t::init] *)
Record pic_init_t := PicInit {
  in_init : bool;
  requires_4 : bool;
  byte_expected : Z;
}.

Record bx_pic_t := Pic {
  master : bool;
  interrupt_offset : Z;   (* programmable interrupt vector offset *)
  sfnm : Z;
  buffered_mode : Z;
  master_slave : Z;
  auto_eoi : Z;
  imr : Z;                (* 1 = masked *)
  isr : Z;
  irr : Z;
  read_reg_select : Z;    (* 0 = IRR, 1 = ISR *)
  irq : Z;                (* current IRQ number *)
  lowest_priority : Z;
  INT : bool;             (* INT request pin of the PIC *)
  IRQ_in : Z;             (* IRQ pins of the PIC *)
  init : pic_init_t;
  special_mask : bool;
  polled : bool;
  rotate_on_autoeoi : bool;
  edge_level : Z;         (* 0 = edge, 1 = level *)
}.

#[export] Instance pic_init_eta : Eta pic_init_t := fun r =>
  PicInit (in_init r) (requires_4 r) (byte_expected r).

#[export] Instance bx_pic_eta : Eta bx_pic_t := fun r =>
  Pic (master r) (interrupt_offset r) (sfnm r) (buffered_mode r)
    (master_slave r) (auto_eoi r) (imr r) (isr r) (irr r) (read_reg_select r)
    (irq r) (lowest_priority r) (INT r) (IRQ_in r) (init r) (special_mask r)
    (polled r) (rotate_on_autoeoi r) (edge_level r).

(** The BX_PANIC calls of the file. *)
Inductive pic_panic :=
| PanicReadAddress (address : Z)
| PanicSingleMode (m : bool)
| PanicLevelMode (m : bool)
| PanicSlaveLine
| PanicSlaveId (id : Z)
| PanicNot8086Mode (m : bool)
| PanicBadInitCommand (m : bool)
| PanicWritePort (address value : Z)
| PanicPicService.

(** [bx_pic_c::s], the processor's INTR line and the panic log. *)
Record bx_pic_c := PicSys {
  master_pic : bx_pic_t;
  slave_pic : bx_pic_t;
  intr : bool;
  panics : list pic_panic;
}.

#[export] Instance bx_pic_c_eta : Eta bx_pic_c := fun r =>
  PicSys (master_pic r) (slave_pic r) (intr r) (panics r).

(** A [bx_pic_t *] argument is a pointer to one of the two structs. *)
Inductive pic_ptr := Master | Slave.

Definition deref (p : pic_ptr) (s : bx_pic_c) : bx_pic_t :=
  match p with Master => master_pic s | Slave => slave_pic s end.

Definition store (p : pic_ptr) (v : bx_pic_t) (s : bx_pic_c) : bx_pic_c :=
  match p with
  | Master => s <| master_pic := v |>
  | Slave => s <| slave_pic := v |>
  end.

Definition BX_RAISE_INTR (s : bx_pic_c) : bx_pic_c := s <| intr := true |>.
Definition BX_CLEAR_INTR (s : bx_pic_c) : bx_pic_c := s <| intr := false |>.
Definition BX_PANIC (e : pic_panic) (s : bx_pic_c) : bx_pic_c :=
  s <| panics := panics s ++ [e] |>.

(** ** Initial state: [bx_pic_c::init] *)

Definition pic_init (m : bool) (offset : Z) : bx_pic_t := {|
  master := m;
  interrupt_offset := offset;
  sfnm := 0;
  buffered_mode := 0;
  master_slave := Z.b2z m;
  auto_eoi := 0;
  imr := 0xFF;
  isr := 0x00;
  irr := 0x00;
  read_reg_select := 0;
  irq := 0;
  lowest_priority := 7;
  INT := false;
  IRQ_in := 0;
  init := {| in_init := false; requires_4 := false; byte_expected := 0 |};
  special_mask := false;
  polled := false;
  rotate_on_autoeoi := false;
  edge_level := 0;
|}.

Definition pic_c_init : bx_pic_c := {|
  master_pic := pic_init true 0x08;
  slave_pic := pic_init false 0x70;
  intr := false;
  panics := [];
|}.

(** ** The priority rotation shared by the loops *)

(** [irq++; if (irq > 7) irq = 0;] *)
Definition next_irq (i : Z) : Z := if i + 1 >? 7 then 0 else i + 1.

(** [do { if (cond(irq)) stop at irq; irq = next_irq(irq); } while (irq != stop);]
    The fuel is the number of interrupt lines: see [scan_irq_fuel]. *)
Fixpoint scan_irq (fuel : nat) (cond : Z -> bool) (i stop : Z) : option Z :=
  match fuel with
  | O => None
  | S fuel' =>
      if cond i then Some i
      else if next_irq i =? stop then None
      else scan_irq fuel' cond (next_irq i) stop
  end.

(** [while ((isr & (1 << max_irq)) == 0) max_irq = next_irq(max_irq);] *)
Fixpoint skip_clear (fuel : nat) (isr_ i : Z) : Z :=
  match fuel with
  | O => i
  | S fuel' =>
      if Z.land isr_ (bitmask i) =? 0 then skip_clear fuel' isr_ (next_irq i) else i
  end.

(** ** [clear_highest_interrupt] *)
Definition clear_highest_interrupt (p : pic_ptr) (s : bx_pic_c) : bx_pic_c :=
  let pic := deref p s in
  let highest_priority := next_irq (lowest_priority pic) in
  match scan_irq 8 (fun i => negb (Z.land (isr pic) (bitmask i) =? 0))
          highest_priority highest_priority with
  | Some i => store p (pic <| isr := clear_bit (isr pic) i |>) s
  | None => s
  end.

(** ** [pic_service]

    The function and [raise_irq], [lower_irq] call each other: servicing the
    slave drives line 2 of the master.  The body takes the calls it makes to
    line 2 as arguments; servicing the master makes none. *)
Definition pic_service_body (raise2 lower2 : bx_pic_c -> bx_pic_c)
    (p : pic_ptr) (s : bx_pic_c) : bx_pic_c :=
  let pic := deref p s in
  let highest_priority := next_irq (lowest_priority pic) in
  let isr_ := isr pic in
  (* None: the early return of the normal mode *)
  let max_irq :=
    if special_mask pic then Some highest_priority
    else if negb (isr_ =? 0) then
      let max_irq := skip_clear 8 isr_ highest_priority in
      if max_irq =? highest_priority then None else Some max_irq
    else Some highest_priority in
  match max_irq with
  | None => s
  | Some max_irq =>
    let s := if negb (special_mask pic) && negb (isr_ =? 0) && (max_irq >? 7)
             then BX_PANIC PanicPicService s else s in
    let unmasked_requests := Z.land (irr pic) (Z.lnot (imr pic)) in
    if negb (unmasked_requests =? 0) then
      let selectable i :=
        negb (special_mask pic && negb (Z.land (Z.shiftr isr_ i) 0x01 =? 0)) &&
        (negb (INT pic) && negb (Z.land unmasked_requests (bitmask i) =? 0)) in
      match scan_irq 8 selectable highest_priority max_irq with
      | Some i =>
          let s := store p (pic <| INT := true |> <| irq := i |>) s in
          if master pic then BX_RAISE_INTR s else raise2 s
      | None => s
      end
    else if INT pic then
      let s := if master pic then BX_CLEAR_INTR s else lower2 s in
      store p ((deref p s) <| INT := false |>) s
    else s
  end.

(** The part of [lower_irq] and [raise_irq] after the call is forwarded to the
    I/O APIC; [service] is the [pic_service] they call. *)
Definition lower_irq_pins (irq_no : Z) (s : bx_pic_c) : bx_pic_c :=
  let lower p :=
    let pic := deref p s in
    let mask := Z.land irq_no 7 in
    if negb (Z.land (IRQ_in pic) (bitmask mask) =? 0) then
      store p (pic <| IRQ_in := clear_bit (IRQ_in pic) mask |>
                   <| irr := clear_bit (irr pic) mask |>) s
    else s in
  if irq_no <=? 7 then lower Master
  else if (irq_no >? 7) && (irq_no <=? 15) then lower Slave
  else s.

Definition raise_irq_pins (service : pic_ptr -> bx_pic_c -> bx_pic_c)
    (irq_no : Z) (s : bx_pic_c) : bx_pic_c :=
  let raise p :=
    let pic := deref p s in
    let mask := Z.land irq_no 7 in
    if Z.land (IRQ_in pic) (bitmask mask) =? 0 then
      service p (store p (pic <| IRQ_in := set_bit (IRQ_in pic) mask |>
                              <| irr := set_bit (irr pic) mask |>) s)
    else s in
  if irq_no <=? 7 then raise Master
  else if (irq_no >? 7) && (irq_no <=? 15) then raise Slave
  else s.

(** [master] of the struct [p] points to is [true] for the master only (see
    [pic_wf]), so servicing the master never takes the [raise_irq(2)] branch. *)
Definition service_master : bx_pic_c -> bx_pic_c :=
  pic_service_body (fun s => s) (fun s => s) Master.

Definition pic_service (p : pic_ptr) : bx_pic_c -> bx_pic_c :=
  match p with
  | Master => service_master
  | Slave =>
      pic_service_body (raise_irq_pins (fun _ => service_master) 2)
                       (lower_irq_pins 2) Slave
  end.

(** ** [IAC]: the CPU acknowledges the interrupt *)

(** The acknowledge of one controller: level-triggered requests stay in the
    IRR, automatic EOI leaves the ISR alone (lines 603-610 for the master and
    624-631 for the slave). *)
Definition acknowledge (pic : bx_pic_t) : bx_pic_t :=
  let pic := if Z.land (edge_level pic) (bitmask (irq pic)) =? 0
             then pic <| irr := clear_bit (irr pic) (irq pic) |> else pic in
  if auto_eoi pic =? 0 then pic <| isr := set_bit (isr pic) (irq pic) |>
  else if rotate_on_autoeoi pic then pic <| lowest_priority := irq pic |>
  else pic.

Definition IAC (s : bx_pic_c) : Z * bx_pic_c :=
  let s := BX_CLEAR_INTR s in
  let s := s <| master_pic := (master_pic s) <| INT := false |> |> in
  let m := master_pic s in
  if Z.land (irr m) (Z.lnot (imr m)) =? 0 then
    (u8 (interrupt_offset m + 7), s)                    (* spurious interrupt *)
  else
    let m := acknowledge m in
    let s := s <| master_pic := m |> in
    if negb (irq m =? 2) then
      (u8 (irq m + interrupt_offset m), pic_service Master s)
    else
      let s := s <| slave_pic := (slave_pic s) <| INT := false |> |>
                 <| master_pic := m <| IRQ_in := clear_bit (IRQ_in m) 2 |> |> in
      let sl := slave_pic s in
      if Z.land (irr sl) (Z.lnot (imr sl)) =? 0 then
        (u8 (interrupt_offset sl + 7), s)               (* spurious interrupt *)
      else
        let vector := u8 (irq sl + interrupt_offset sl) in
        let s := pic_service Slave (s <| slave_pic := acknowledge sl |>) in
        (vector, pic_service Master s).

(** ** Port reads *)

Definition poll_result (io_len : Z) (pic : bx_pic_t) : Z :=
  if io_len =? 1 then irq pic else Z.lor (Z.shiftl (irq pic) 8) (irq pic).

(** A read in polled mode is an interrupt acknowledge. *)
Definition polled_read (p : pic_ptr) (io_len : Z) (s : bx_pic_c) : Z * bx_pic_c :=
  let s := clear_highest_interrupt p s in
  let s := store p ((deref p s) <| polled := false |>) s in
  let s := pic_service p s in
  (poll_result io_len (deref p s), s).

Definition read (address io_len : Z) (s : bx_pic_c) : Z * bx_pic_c :=
  if ((address =? 0x20) || (address =? 0x21)) && polled (master_pic s) then
    polled_read Master io_len s
  else if ((address =? 0xa0) || (address =? 0xa1)) && polled (slave_pic s) then
    polled_read Slave io_len s
  else if address =? 0x20 then
    ((if negb (read_reg_select (master_pic s) =? 0) then isr (master_pic s)
      else irr (master_pic s)), s)
  else if address =? 0x21 then (imr (master_pic s), s)
  else if address =? 0xA0 then
    ((if negb (read_reg_select (slave_pic s) =? 0) then isr (slave_pic s)
      else irr (slave_pic s)), s)
  else if address =? 0xA1 then (imr (slave_pic s), s)
  else (0, BX_PANIC (PanicReadAddress address) s).

(** ** Port writes *)

(** Initialization command word 1. *)
Definition write_icw1 (p : pic_ptr) (value : Z) (s : bx_pic_c) : bx_pic_c :=
  let m := master (deref p s) in
  let s := if negb (Z.land value 0x02 =? 0) then BX_PANIC (PanicSingleMode m) s else s in
  let s := if negb (Z.land value 0x08 =? 0) then BX_PANIC (PanicLevelMode m) s else s in
  let pic := deref p s in
  let s := store p
    (pic <| init := {| in_init := true;
                       requires_4 := negb (Z.land value 0x01 =? 0);
                       byte_expected := 2 |} |>
         <| imr := 0x00 |>
         <| isr := 0x00 |>
         <| irr := 0x00 |>
         <| lowest_priority := 7 |>
         <| auto_eoi := 0 |>
         <| rotate_on_autoeoi := false |>
         <| INT := false |>) s in
  if m then BX_CLEAR_INTR s
  else s <| master_pic := (master_pic s) <| IRQ_in := clear_bit (IRQ_in (master_pic s)) 2 |> |>.

(** Operation command word 3. *)
Definition write_ocw3 (p : pic_ptr) (value : Z) (s : bx_pic_c) : bx_pic_c :=
  let special := Z.shiftr (Z.land value 0x60) 5 in
  let poll := Z.shiftr (Z.land value 0x04) 2 in
  let read_op := Z.land value 0x03 in
  if negb (poll =? 0) then store p ((deref p s) <| polled := true |>) s
  else
    let s := if read_op =? 0x02 then store p ((deref p s) <| read_reg_select := 0 |>) s
             else if read_op =? 0x03 then store p ((deref p s) <| read_reg_select := 1 |>) s
             else s in
    if special =? 0x02 then store p ((deref p s) <| special_mask := false |>) s
    else if special =? 0x03 then
      pic_service p (store p ((deref p s) <| special_mask := true |>) s)
    else s.

Definition between (lo hi x : Z) : bool := (lo <=? x) && (x <=? hi).

(** Operation command word 2. *)
Definition write_ocw2 (p : pic_ptr) (address value : Z) (s : bx_pic_c) : bx_pic_c :=
  if (value =? 0x00) || (value =? 0x80) then
    store p ((deref p s) <| rotate_on_autoeoi := negb (value =? 0) |>) s
  else if (value =? 0xA0) || (value =? 0x20) then
    let s := clear_highest_interrupt p s in
    let s := if value =? 0xA0
             then store p ((deref p s) <| lowest_priority := next_irq (lowest_priority (deref p s)) |>) s
             else s in
    pic_service p s
  else if value =? 0x40 then s
  else if between 0x60 0x67 value then
    pic_service p (store p ((deref p s) <| isr := clear_bit (isr (deref p s)) (value - 0x60) |>) s)
  else if between 0xC0 0xC7 value then
    store p ((deref p s) <| lowest_priority := value - 0xC0 |>) s
  else if between 0xE0 0xE7 value then
    pic_service p
      (store p ((deref p s) <| isr := clear_bit (isr (deref p s)) (value - 0xE0) |>
                            <| lowest_priority := value - 0xE0 |>) s)
  else if value =? 0x02 then s
  else BX_PANIC (PanicWritePort (u8 address) (u8 value)) s.

(** Initialization command words 2 to 4, by the byte the chip expects. *)
Definition write_icw (p : pic_ptr) (value : Z) (s : bx_pic_c) : bx_pic_c :=
  let pic := deref p s in
  let m := master pic in
  let ini := init pic in
  if byte_expected ini =? 2 then
    store p (pic <| interrupt_offset := Z.land value 0xf8 |>
                 <| init := ini <| byte_expected := 3 |> |>) s
  else if byte_expected ini =? 3 then
    let s := if m then
               (if value =? 0x04 then s else BX_PANIC PanicSlaveLine s)
             else if Z.land value 0x07 =? 0x02 then s
             else BX_PANIC (PanicSlaveId (Z.land value 0x07)) s in
    if requires_4 ini
    then store p (pic <| init := ini <| byte_expected := 4 |> |>) s
    else store p (pic <| init := ini <| in_init := false |> |>) s
  else if byte_expected ini =? 4 then
    let pic := pic <| auto_eoi := if negb (Z.land value 0x02 =? 0) then 1 else 0 |> in
    let s := if negb (Z.land value 0x01 =? 0) then s else BX_PANIC (PanicNot8086Mode m) s in
    store p (pic <| init := ini <| in_init := false |> |>) s
  else BX_PANIC (PanicBadInitCommand m) s.

Definition write_target (address : Z) : pic_ptr :=
  if Z.land address 0xA0 =? 0x20 then Master else Slave.

Definition write (address value : Z) (s : bx_pic_c) : bx_pic_c :=
  let p := write_target address in
  if Z.land address 1 =? 0 then
    if negb (Z.land value 0x10 =? 0) then write_icw1 p value s
    else if Z.land value 0x18 =? 0x08 then write_ocw3 p value s
    else write_ocw2 p address value s
  else if in_init (init (deref p s)) then write_icw p value s
  else pic_service p (store p ((deref p s) <| imr := u8 value |>) s).

(** ** [set_mode] *)
Definition set_mode (ma_sl : bool) (mode : Z) (s : bx_pic_c) : bx_pic_c :=
  if ma_sl then store Master ((master_pic s) <| edge_level := mode |>) s
  else store Slave ((slave_pic s) <| edge_level := mode |>) s.

(** ** Interrupt lines and the I/O APIC

    Line changes are forwarded to the I/O APIC before the 8259s see them.  The
    I/O APIC may call [IAC] back (a redirection entry in ExtINT mode), so its
    operation acts on both states.  [IrqForward] is what pic.cc uses of it. *)
Class IrqForward (B : Type) := {
  ioapic_present : B -> bool;
  ioapic_set_irq_level : Z -> bool -> bx_pic_c * B -> bx_pic_c * B;
}.

Section Lines.
Context {B : Type} `{IrqForward B}.

Definition forward (irq_no : Z) (level : bool) (w : bx_pic_c * B) : bx_pic_c * B :=
  if ioapic_present (snd w) && negb (irq_no =? 2)
  then ioapic_set_irq_level irq_no level w else w.

Definition lower_irq (irq_no : Z) (w : bx_pic_c * B) : bx_pic_c * B :=
  let (s, b) := forward irq_no false w in (lower_irq_pins irq_no s, b).

Definition raise_irq (irq_no : Z) (w : bx_pic_c * B) : bx_pic_c * B :=
  let (s, b) := forward irq_no true w in (raise_irq_pins pic_service irq_no s, b).

End Lines.

(** A machine without an I/O APIC. *)
#[export] Instance no_ioapic : IrqForward unit := {|
  ioapic_present := fun _ => false;
  ioapic_set_irq_level := fun _ _ w => w;
|}.
