(* ===== verification/PicSpec.v ===== *)
(** * Correctness of the interrupt controllers

    The abstract view of a controller is its set of eligible requests ordered
    by rotating priority; the theorems relate [pic_service], [IAC], the EOI
    commands and the port handlers of Pic.v to it. *)

From Stdlib Require Import ZArith Lia List Bool.
From S2P Require Import Prelude Pic.
Import ListNotations.
Open Scope Z_scope.

(** ** The rotation *)

(** The line [k] places after line [s]. *)
Definition pos (s k : Z) : Z := (s + k) mod 8.

(** How far line [i] is from the highest priority when [lp] is the lowest. *)
Definition rank (lp i : Z) : Z := (i - lp - 1) mod 8.

Ltac modlia := Z.to_euclidean_division_equations; lia.

Lemma pos_range s k : 0 <= pos s k < 8.
Proof. unfold pos. modlia. Qed.

Lemma pos_0 s : 0 <= s < 8 -> pos s 0 = s.
Proof. unfold pos. intros. modlia. Qed.

Lemma pos_8 s : 0 <= s < 8 -> pos s 8 = s.
Proof. unfold pos. intros. modlia. Qed.

Lemma next_irq_pos s k : next_irq (pos s k) = pos s (k + 1).
Proof.
  unfold next_irq, pos. rewrite Z.gtb_ltb. destruct (Z.ltb_spec 7 ((s + k) mod 8 + 1)); modlia.
Qed.

Lemma next_irq_range i : 0 <= i < 8 -> 0 <= next_irq i < 8.
Proof. intros. rewrite <- (pos_0 i), next_irq_pos by lia. apply pos_range. Qed.

Lemma rank_range lp i : 0 <= rank lp i < 8.
Proof. unfold rank. modlia. Qed.

Lemma pos_rank lp i : 0 <= lp < 8 -> 0 <= i < 8 -> pos (next_irq lp) (rank lp i) = i.
Proof.
  intros. rewrite <- (pos_0 lp), next_irq_pos by lia. rewrite pos_0 by lia.
  unfold pos, rank. modlia.
Qed.

Lemma rank_pos lp k : 0 <= lp < 8 -> 0 <= k < 8 -> rank lp (pos (next_irq lp) k) = k.
Proof.
  intros. rewrite <- (pos_0 lp), next_irq_pos by lia. rewrite pos_0 by lia.
  unfold pos, rank. modlia.
Qed.

Lemma scan_irq_pos cond s : forall fuel k len,
  0 <= k < len -> len <= 8 -> len - k <= Z.of_nat fuel ->
  match scan_irq fuel cond (pos s k) (pos s len) with
  | Some i => exists j, k <= j < len /\ i = pos s j /\ cond i = true /\
                        forall j', k <= j' < j -> cond (pos s j') = false
  | None => forall j, k <= j < len -> cond (pos s j) = false
  end.
Proof.
  induction fuel as [|fuel IH]; intros k len Hk Hlen Hf; [lia|]. simpl.
  destruct (cond (pos s k)) eqn:E.
  - exists k. repeat split; auto; lia.
  - rewrite next_irq_pos. destruct (Z.eqb_spec (pos s (k + 1)) (pos s len)) as [H|H].
    + assert (len = k + 1) by (unfold pos in H; modlia). subst.
      intros j Hj. replace j with k by lia. assumption.
    + assert (k + 1 <> len) by congruence. specialize (IH (k + 1) len).
      destruct (scan_irq _ _ _ _) as [i|].
      * destruct IH as (j & Hj & -> & Hc & Hmin); try lia.
        exists j. repeat split; auto; try lia. intros j' Hj'.
        destruct (Z.eq_dec j' k); [subst; assumption | apply Hmin; lia].
      * intros j Hj. destruct (Z.eq_dec j k); [subst; assumption | apply IH; lia].
Qed.

(** The scan from the highest priority down to rank [len], in terms of ranks. *)
Lemma scan_irq_rank cond lp stop len :
  0 <= lp < 8 -> 0 < len <= 8 -> stop = pos (next_irq lp) len ->
  match scan_irq 8 cond (next_irq lp) stop with
  | Some i => 0 <= i < 8 /\ rank lp i < len /\ cond i = true /\
              forall j, 0 <= j < 8 -> rank lp j < rank lp i -> cond j = false
  | None => forall j, 0 <= j < 8 -> rank lp j < len -> cond j = false
  end.
Proof.
  intros Hlp Hlen ->. pose proof (next_irq_range lp Hlp) as Hs.
  pose proof (scan_irq_pos cond (next_irq lp) 8 0 len) as H.
  rewrite pos_0 in H by assumption.
  destruct (scan_irq _ _ _ _) as [i|].
  - destruct H as (j & Hj & -> & Hc & Hmin); try lia.
    pose proof (pos_range (next_irq lp) j). rewrite rank_pos by lia.
    repeat split; auto; try lia.
    intros j' Hj' Hr. rewrite <- (pos_rank lp j') by lia. apply Hmin.
    pose proof (rank_range lp j'). lia.
  - intros j Hj Hr. rewrite <- (pos_rank lp j) by lia. apply H; try lia.
    pose proof (rank_range lp j). lia.
Qed.

(** The loops of the code terminate: eight steps visit every line, so more fuel
    changes nothing. *)
Lemma scan_irq_fuel cond s fuel len :
  0 < len <= 8 -> (8 <= fuel)%nat -> 0 <= s < 8 ->
  scan_irq fuel cond s (pos s len) = scan_irq 8 cond s (pos s len).
Proof.
  intros Hlen Hf Hs.
  pose proof (scan_irq_pos cond s fuel 0 len) as H1.
  pose proof (scan_irq_pos cond s 8 0 len) as H2.
  rewrite pos_0 in H1, H2 by assumption.
  destruct (scan_irq fuel _ _ _) as [i|], (scan_irq 8 _ _ _) as [i'|].
  - destruct H1 as (j & ? & -> & Hc & Hm); try lia.
    destruct H2 as (j' & ? & -> & Hc' & Hm'); try lia.
    destruct (Z.lt_trichotomy j j') as [L|[L|L]]; [|now subst|].
    + rewrite Hm' in Hc by lia. discriminate.
    + rewrite Hm in Hc' by lia. discriminate.
  - destruct H1 as (j & ? & -> & Hc & _); try lia. rewrite H2 in Hc by lia. discriminate.
  - destruct H2 as (j & ? & -> & Hc & _); try lia. rewrite H1 in Hc by lia. discriminate.
  - reflexivity.
Qed.

Lemma skip_clear_pos isr_ s : forall fuel k,
  0 <= k -> 
  (exists j, k <= j < k + Z.of_nat fuel /\ Z.testbit isr_ (pos s j) = true) ->
  exists j, k <= j < k + Z.of_nat fuel /\ skip_clear fuel isr_ (pos s k) = pos s j /\
    Z.testbit isr_ (pos s j) = true /\
    forall j', k <= j' < j -> Z.testbit isr_ (pos s j') = false.
Proof.
  induction fuel as [|fuel IH]; intros k Hk (j & Hj & Hb); [lia|].
  cbn [skip_clear]. pose proof (pos_range s k).
  rewrite land_bitmask_zero by lia. destruct (Z.testbit isr_ (pos s k)) eqn:E; cbn [negb].
  - exists k. repeat split; auto; lia.
  - rewrite next_irq_pos. destruct (IH (k + 1)) as (j0 & ? & Hs & Hb0 & Hmin); try lia.
    { exists j. split; [|assumption]. assert (j <> k) by congruence. lia. }
    exists j0. repeat split; auto; try lia.
    intros j' Hj'. destruct (Z.eq_dec j' k); [subst; assumption | apply Hmin; lia].
Qed.

(** The scan of the ISR finds the in-service line of highest priority. *)
Lemma skip_clear_rank isr_ lp :
  0 <= lp < 8 -> fits 8 isr_ -> isr_ <> 0 ->
  let m := skip_clear 8 isr_ (next_irq lp) in
  0 <= m < 8 /\ Z.testbit isr_ m = true /\
  forall j, 0 <= j < 8 -> Z.testbit isr_ j = true -> rank lp m <= rank lp j.
Proof.
  intros Hlp Hf Hz. pose proof (next_irq_range lp Hlp) as Hs.
  destruct (nonzero_has_bit isr_) as (i & Hi & Hb); [destruct Hf; lia | assumption |].
  assert (i < 8).
  { destruct (Z.lt_ge_cases i 8); auto. rewrite (fits_testbit 8) in Hb; auto; lia. }
  rewrite <- (pos_0 (next_irq lp)) by assumption.
  destruct (skip_clear_pos isr_ (next_irq lp) 8 0) as (j & Hj & -> & Hbj & Hmin); [lia| |].
  { exists (rank lp i). rewrite pos_rank by lia. pose proof (rank_range lp i). split; [lia|auto]. }
  pose proof (pos_range (next_irq lp) j). repeat split; auto; try lia.
  intros j' Hj' Hb'. rewrite rank_pos by lia.
  destruct (Z.le_gt_cases j (rank lp j')) as [|Hlt]; [assumption|].
  pose proof (rank_range lp j'). specialize (Hmin (rank lp j')).
  rewrite pos_rank, Hb' in Hmin by lia. discriminate Hmin. lia.
Qed.

(** ** Well-formed controllers and the machine invariant *)

Record pic_wf (m : bool) (p : bx_pic_t) : Prop := {
  wf_master : master p = m;
  wf_offset : fits 8 (interrupt_offset p);
  wf_imr : fits 8 (imr p);
  wf_isr : fits 8 (isr p);
  wf_irr : fits 8 (irr p);
  wf_IRQ_in : fits 8 (IRQ_in p);
  wf_irq : 0 <= irq p < 8;
  wf_lowest : 0 <= lowest_priority p < 8;
}.

(** The processor's INTR line follows the master's INT pin, and the slave's INT
    pin is wired to line 2 of the master. *)
Record pic_inv (s : bx_pic_c) : Prop := {
  inv_master : pic_wf true (master_pic s);
  inv_slave : pic_wf false (slave_pic s);
  inv_intr : intr s = INT (master_pic s);
  inv_cascade : INT (slave_pic s) = Z.testbit (IRQ_in (master_pic s)) 2;
}.

#[export] Hint Resolve wf_offset wf_imr wf_isr wf_irr wf_IRQ_in wf_irq wf_lowest
  inv_master inv_slave : bits.

(** ** The abstract view of one controller *)

(** An unmasked request. *)
Definition requested (p : bx_pic_t) (i : Z) : bool :=
  Z.testbit (irr p) i && negb (Z.testbit (imr p) i).

(** A request the in-service interrupts do not hold back: in special mask mode
    only its own line does, in fully nested mode every line of equal or higher
    priority does. *)
Definition eligible (p : bx_pic_t) (i : Z) : Prop :=
  0 <= i < 8 /\ requested p i = true /\
  if special_mask p then Z.testbit (isr p) i = false
  else forall j, 0 <= j < 8 -> Z.testbit (isr p) j = true ->
       rank (lowest_priority p) i < rank (lowest_priority p) j.

(** Eligibility is decidable. *)
Definition eligibleb (p : bx_pic_t) (i : Z) : bool :=
  (0 <=? i) && (i <? 8) && requested p i &&
  (if special_mask p then negb (Z.testbit (isr p) i)
   else forallb (fun j => negb (Z.testbit (isr p) j) ||
          (rank (lowest_priority p) i <? rank (lowest_priority p) j)) (zrange 8)).

Lemma eligibleb_spec p i : eligibleb p i = true <-> eligible p i.
Proof.
  unfold eligibleb, eligible. rewrite !andb_true_iff, Z.leb_le, Z.ltb_lt.
  destruct (special_mask p).
  - rewrite negb_true_iff. tauto.
  - rewrite forallb_forall. split; intros [H1 H2]; (split; [tauto|]).
    + split; [tauto|]. intros j Hj Hb. specialize (H2 j (proj2 (zrange_in 8 j) Hj)).
      rewrite Hb in H2. cbn in H2. apply Z.ltb_lt. assumption.
    + destruct H2 as [_ H2]. intros j Hj. apply zrange_in in Hj. destruct (Z.testbit (isr p) j) eqn:Hb; [|reflexivity].
      cbn. apply Z.ltb_lt, H2; [exact Hj | exact Hb].
Qed.

(** The eligible request of highest priority. *)
Definition best (p : bx_pic_t) (i : Z) : Prop :=
  eligible p i /\
  forall j, eligible p j -> rank (lowest_priority p) i <= rank (lowest_priority p) j.

(** The requests a mask byte leaves, as [pic_service] computes them. *)
Definition unmasked (p : bx_pic_t) : Z := Z.land (irr p) (Z.lnot (imr p)).

Lemma unmasked_testbit p i : 0 <= i -> Z.testbit (unmasked p) i = requested p i.
Proof. intros. unfold unmasked. rewrite land_lnot_testbit by lia. reflexivity. Qed.

Lemma unmasked_fits m p : pic_wf m p -> fits 8 (unmasked p).
Proof. intros W. apply fits_land_l; [lia | apply (wf_irr m p W)]. Qed.

Lemma unmasked_zero m p :
  pic_wf m p -> unmasked p = 0 <-> forall i, 0 <= i < 8 -> requested p i = false.
Proof.
  intros W. split; intros H.
  - intros i Hi. rewrite <- unmasked_testbit, H by lia. apply Z.testbit_0_l.
  - apply Z.bits_inj'. intros i Hi. rewrite Z.testbit_0_l.
    destruct (Z.lt_ge_cases i 8).
    + rewrite unmasked_testbit by lia. apply H. lia.
    + apply (fits_testbit 8); [lia | apply (unmasked_fits m); assumption | lia].
Qed.

(** The highest-priority line is in service and shuts out everything else. *)
Definition blocked (p : bx_pic_t) : bool :=
  negb (special_mask p) && Z.testbit (isr p) (next_irq (lowest_priority p)).

Lemma rank_next lp : 0 <= lp < 8 -> rank lp (next_irq lp) = 0.
Proof. intros. rewrite <- (pos_0 (next_irq lp)) by (apply next_irq_range; lia). apply rank_pos; lia. Qed.

Lemma blocked_not_eligible m p i : pic_wf m p -> blocked p = true -> ~ eligible p i.
Proof.
  intros W Hb (Hi & _ & He). unfold blocked in Hb.
  apply andb_true_iff in Hb. destruct Hb as [Hsp Hb]. apply negb_true_iff in Hsp.
  rewrite Hsp in He. pose proof (wf_lowest m p W).
  specialize (He _ (next_irq_range (lowest_priority p) ltac:(lia)) Hb).
  rewrite rank_next in He by lia. pose proof (rank_range (lowest_priority p) i). lia.
Qed.

(** ** What [pic_service] does, case by case *)

(** The line to scan up to; [None] is the early return. *)
Definition service_limit (p : bx_pic_t) : option Z :=
  let hp := next_irq (lowest_priority p) in
  if special_mask p then Some hp
  else if negb (isr p =? 0) then
    if skip_clear 8 (isr p) hp =? hp then None else Some (skip_clear 8 (isr p) hp)
  else Some hp.

Lemma service_limit_None m p :
  pic_wf m p -> service_limit p = None <-> blocked p = true.
Proof.
  intros W. unfold service_limit, blocked. destruct (special_mask p); cbn [negb andb].
  { split; discriminate. }
  pose proof (wf_lowest m p W) as Hl. pose proof (next_irq_range _ Hl) as Hn.
  destruct (Z.eqb_spec (isr p) 0) as [E|E]; cbn [negb].
  { rewrite E, Z.testbit_0_l. split; discriminate. }
  destruct (skip_clear_rank (isr p) _ Hl (wf_isr m p W) E) as (Hm & Hb & Hmin).
  destruct (Z.eqb_spec (skip_clear 8 (isr p) (next_irq (lowest_priority p)))
              (next_irq (lowest_priority p))) as [E'|E'].
  - rewrite E' in Hb. split; auto.
  - split; [discriminate|]. intros Hh. exfalso. apply E'.
    specialize (Hmin _ Hn Hh). rewrite rank_next in Hmin by lia.
    pose proof (rank_range (lowest_priority p) (skip_clear 8 (isr p) (next_irq (lowest_priority p)))).
    rewrite <- (pos_rank (lowest_priority p) (skip_clear 8 (isr p) (next_irq (lowest_priority p)))) by lia.
    replace (rank (lowest_priority p) (skip_clear 8 (isr p) (next_irq (lowest_priority p)))) with 0 by lia.
    apply pos_0. lia.
Qed.

(** In fully nested mode the limit is the in-service line of highest priority:
    the lines above it are those no in-service line holds back. *)
Lemma service_limit_Some m p stop :
  pic_wf m p -> service_limit p = Some stop ->
  exists len, 0 < len <= 8 /\ stop = pos (next_irq (lowest_priority p)) len /\ 0 <= stop < 8 /\
    forall i, 0 <= i < 8 ->
      (rank (lowest_priority p) i < len <->
       special_mask p = true \/
       forall j, 0 <= j < 8 -> Z.testbit (isr p) j = true ->
         rank (lowest_priority p) i < rank (lowest_priority p) j).
Proof.
  intros W. pose proof (wf_lowest m p W) as Hl. pose proof (next_irq_range _ Hl) as Hn.
  unfold service_limit. destruct (special_mask p).
  { intros [= <-]. exists 8. rewrite pos_8 by lia. repeat split; auto; try lia.
    intros _. pose proof (rank_range (lowest_priority p) i). lia. }
  destruct (Z.eqb_spec (isr p) 0) as [E|E]; cbn [negb].
  { intros [= <-]. exists 8. rewrite pos_8 by lia. repeat split; auto; try lia.
    - intros _. right. intros j _. rewrite E, Z.testbit_0_l. discriminate.
    - intros _. pose proof (rank_range (lowest_priority p) i). lia. }
  destruct (skip_clear_rank (isr p) _ Hl (wf_isr m p W) E) as (Hm & Hb & Hmin).
  set (k := skip_clear 8 (isr p) (next_irq (lowest_priority p))) in *.
  destruct (Z.eqb_spec k (next_irq (lowest_priority p))) as [E'|E']; [discriminate|].
  intros [= <-]. exists (rank (lowest_priority p) k).
  pose proof (rank_range (lowest_priority p) k).
  assert (rank (lowest_priority p) k <> 0).
  { intros H0. apply E'. rewrite <- (pos_rank (lowest_priority p) k), H0 by lia. apply pos_0; lia. }
  rewrite pos_rank by lia. repeat split; auto; try lia.
  - intros Hr. right. intros j Hj Hbj. specialize (Hmin j Hj Hbj). lia.
  - intros [|Hr]; [discriminate|]. apply Hr; auto.
Qed.

Definition selectable (p : bx_pic_t) (i : Z) : bool :=
  negb (special_mask p && negb (Z.land (Z.shiftr (isr p) i) 0x01 =? 0)) &&
  (negb (INT p) && negb (Z.land (unmasked p) (bitmask i) =? 0)).

Lemma selectable_spec p i :
  0 <= i -> selectable p i =
  negb (INT p) && requested p i && negb (special_mask p && Z.testbit (isr p) i).
Proof.
  intros. unfold selectable. rewrite shiftr_land_1, land_bitmask_zero, unmasked_testbit by lia.
  destruct (special_mask p), (INT p), (requested p i), (Z.testbit (isr p) i); reflexivity.
Qed.

(** [pic_service] as a choice between four outcomes. *)
Definition service_select (p : bx_pic_t) : option Z :=
  match service_limit p with
  | None => None
  | Some stop => scan_irq 8 (selectable p) (next_irq (lowest_priority p)) stop
  end.

Lemma service_select_best m p :
  pic_wf m p -> INT p = false ->
  match service_select p with
  | Some i => best p i
  | None => forall i, ~ eligible p i
  end.
Proof.
  intros W HI. unfold service_select. pose proof (wf_lowest m p W) as Hl.
  destruct (service_limit p) as [stop|] eqn:E.
  2: { apply (service_limit_None m) in E; auto. intros i. eapply blocked_not_eligible; eauto. }
  destruct (service_limit_Some m p stop W E) as (len & Hlen & Hstop & _ & Hiff).
  assert (Helig : forall i, eligible p i <->
            0 <= i < 8 /\ rank (lowest_priority p) i < len /\ selectable p i = true).
  { intros i. unfold eligible. split.
    - intros (Hi & Hr & Hs). rewrite selectable_spec, HI, Hr, Hiff by lia. cbn.
      destruct (special_mask p); [rewrite Hs|]; auto.
    - intros (Hi & Hr & Hs). rewrite selectable_spec, HI in Hs by lia. apply Hiff in Hr; [|lia].
      cbn in Hs. apply andb_true_iff in Hs. destruct Hs as [Hr' Hs].
      destruct (special_mask p); cbn in *; [|destruct Hr; [discriminate|auto]].
      apply negb_true_iff in Hs. auto. }
  pose proof (scan_irq_rank (selectable p) _ _ _ Hl Hlen Hstop) as Hscan.
  destruct (scan_irq _ _ _ _) as [i|].
  - destruct Hscan as (Hi & Hr & Hc & Hmin). split.
    + apply Helig. auto.
    + intros j Hj. apply Helig in Hj. destruct Hj as (Hj & _ & Hc').
      destruct (Z.le_gt_cases (rank (lowest_priority p) i) (rank (lowest_priority p) j)); auto.
      rewrite Hmin in Hc' by lia. discriminate.
  - intros i Hi. apply Helig in Hi. destruct Hi as (Hi & Hr & Hc).
    rewrite Hscan in Hc by assumption. discriminate.
Qed.

Lemma scan_irq_none cond lp stop len :
  0 <= lp < 8 -> 0 < len <= 8 -> stop = pos (next_irq lp) len ->
  (forall i, 0 <= i < 8 -> cond i = false) -> scan_irq 8 cond (next_irq lp) stop = None.
Proof.
  intros Hlp Hlen Hs Hc. pose proof (scan_irq_rank cond lp stop len Hlp Hlen Hs) as H.
  destruct (scan_irq _ _ _ _); [|reflexivity].
  destruct H as (Hi & _ & Ht & _). rewrite Hc in Ht by assumption. discriminate.
Qed.

(** Raising and dropping the INT pin. *)
Definition signal (raise2 : bx_pic_c -> bx_pic_c) (p : pic_ptr) (i : Z) (s : bx_pic_c) : bx_pic_c :=
  let s' := store p ((deref p s) <| INT := true |> <| irq := i |>) s in
  if master (deref p s) then BX_RAISE_INTR s' else raise2 s'.

Definition deassert (lower2 : bx_pic_c -> bx_pic_c) (p : pic_ptr) (s : bx_pic_c) : bx_pic_c :=
  let s' := if master (deref p s) then BX_CLEAR_INTR s else lower2 s in
  store p ((deref p s') <| INT := false |>) s'.

Lemma pic_service_body_cases m raise2 lower2 p s :
  pic_wf m (deref p s) ->
  pic_service_body raise2 lower2 p s =
  if INT (deref p s) then
    if (unmasked (deref p s) =? 0) && negb (blocked (deref p s)) then deassert lower2 p s else s
  else
    match service_select (deref p s) with
    | Some i => signal raise2 p i s
    | None => s
    end.
Proof.
  intros W. set (pic := deref p s) in *.
  pose proof (service_limit_None m pic W) as HN.
  unfold pic_service_body. fold pic. cbv zeta.
  change (if special_mask pic then Some (next_irq (lowest_priority pic)) else _)
    with (service_limit pic).
  change (fun i => negb (special_mask pic && negb (Z.land (Z.shiftr (isr pic) i) 0x01 =? 0)) && _)
    with (selectable pic).
  change (Z.land (irr pic) (Z.lnot (imr pic))) with (unmasked pic).
  unfold service_select.
  destruct (service_limit pic) as [stop|] eqn:EL.
  2: { destruct HN as [HN _]. rewrite HN by reflexivity. rewrite andb_false_r.
       destruct (INT pic); reflexivity. }
  assert (HB : blocked pic = false).
  { destruct (blocked pic); [|reflexivity]. destruct HN as [_ HN]. discriminate HN; reflexivity. }
  rewrite HB, andb_true_r.
  destruct (service_limit_Some m pic stop W EL) as (len & Hlen & Hstop & Hr & _).
  replace (stop >? 7) with false by (symmetry; rewrite Z.gtb_ltb; apply Z.ltb_ge; lia).
  rewrite !andb_false_r.
  assert (Hsel : INT pic = true \/ unmasked pic = 0 ->
                 scan_irq 8 (selectable pic) (next_irq (lowest_priority pic)) stop = None).
  { intros H. apply (scan_irq_none _ _ _ len); auto; [apply (wf_lowest m pic W)|].
    intros i Hi. rewrite selectable_spec by lia. destruct H as [->|H]; [reflexivity|].
    rewrite (proj1 (unmasked_zero m pic W) H) by lia. destruct (INT pic); reflexivity. }
  destruct (Z.eqb_spec (unmasked pic) 0) as [E|E]; cbn [negb].
  - destruct (INT pic) eqn:EI; [reflexivity|]. rewrite Hsel; auto.
  - destruct (INT pic) eqn:EI; [rewrite Hsel by auto; reflexivity|].
    destruct (scan_irq _ _ _ _); reflexivity.
Qed.

(** ** Preservation of the invariant *)

(** Compute the fields of updated records. *)
Ltac psimpl :=
  cbn [set_field store deref BX_RAISE_INTR BX_CLEAR_INTR BX_PANIC master interrupt_offset sfnm buffered_mode master_slave auto_eoi imr isr irr
       read_reg_select irq lowest_priority INT IRQ_in init special_mask polled
       rotate_on_autoeoi edge_level master_pic slave_pic intr panics
       in_init requires_4 byte_expected] in *.

(** An update of a controller that leaves its role, pins and the wiring alone. *)
Lemma store_inv p v s :
  pic_inv s -> pic_wf (match p with Master => true | Slave => false end) v ->
  INT v = INT (deref p s) -> IRQ_in v = IRQ_in (deref p s) ->
  pic_inv (store p v s).
Proof.
  intros [Hm Hs Hi Hc] W HI HQ. destruct p; split; psimpl; auto; congruence.
Qed.

Lemma deref_wf p s :
  pic_inv s -> pic_wf (match p with Master => true | Slave => false end) (deref p s).
Proof. destruct p; intros []; assumption. Qed.
#[export] Hint Resolve deref_wf : bits.

Lemma deref_store p v s : deref p (store p v s) = v.
Proof. destruct p; reflexivity. Qed.

Lemma store_store p v v' s : store p v (store p v' s) = store p v s.
Proof. destruct p; reflexivity. Qed.

(** Well-formedness of an updated controller, field by field. *)
Ltac pic_wf_tac W :=
  destruct W; split; psimpl; auto with bits;
  try (apply set_bit_fits; [lia | assumption]);
  try (apply clear_bit_fits; [lia | assumption]);
  try (unfold fits; lia); try lia.

Lemma wf_signal m p i : pic_wf m p -> 0 <= i < 8 -> pic_wf m (p <| INT := true |> <| irq := i |>).
Proof. intros W Hi. pic_wf_tac W. Qed.

Lemma wf_INT m p b : pic_wf m p -> pic_wf m (p <| INT := b |>).
Proof. intros W. pic_wf_tac W. Qed.

Lemma wf_pins_up m p i :
  pic_wf m p -> 0 <= i < 8 ->
  pic_wf m (p <| IRQ_in := set_bit (IRQ_in p) i |> <| irr := set_bit (irr p) i |>).
Proof. intros W Hi. pic_wf_tac W. Qed.

Lemma wf_pins_down m p i :
  pic_wf m p ->
  pic_wf m (p <| IRQ_in := clear_bit (IRQ_in p) i |> <| irr := clear_bit (irr p) i |>).
Proof. intros W. pic_wf_tac W. Qed.

Lemma wf_acknowledge m p : pic_wf m p -> pic_wf m (acknowledge p).
Proof.
  intros W. unfold acknowledge.
  destruct (Z.land (edge_level p) (bitmask (irq p)) =? 0); psimpl;
    (case_bool; [|case_bool]; pic_wf_tac W).
Qed.

#[export] Hint Resolve wf_signal wf_INT wf_pins_up wf_pins_down wf_acknowledge : bits.

Lemma select_range m p i : pic_wf m p -> INT p = false -> service_select p = Some i -> 0 <= i < 8.
Proof.
  intros W HI E. pose proof (service_select_best m p W HI) as H. rewrite E in H.
  destruct H as [[Hi _] _]. assumption.
Qed.


(** What servicing the master can do to the machine. *)
Lemma service_master_eq s :
  pic_wf true (master_pic s) ->
  service_master s =
  if INT (master_pic s) then
    if (unmasked (master_pic s) =? 0) && negb (blocked (master_pic s))
    then s <| intr := false |> <| master_pic := (master_pic s) <| INT := false |> |> else s
  else match service_select (master_pic s) with
       | Some i => s <| master_pic := (master_pic s) <| INT := true |> <| irq := i |> |>
                     <| intr := true |>
       | None => s
       end.
Proof.
  intros W. unfold service_master. rewrite (pic_service_body_cases true) by assumption.
  unfold signal, deassert. cbn [deref]. rewrite (wf_master _ _ W). reflexivity.
Qed.

Lemma service_master_inv s : pic_inv s -> pic_inv (service_master s).
Proof.
  intros [Wm Ws Hi Hc]. rewrite service_master_eq by assumption.
  destruct (INT (master_pic s)) eqn:EI.
  - case_bool; [|split; auto; congruence]. split; psimpl; auto.
    apply (wf_INT true _ false Wm).
  - destruct (service_select (master_pic s)) as [i|] eqn:ES; [|split; auto; congruence].
    split; psimpl; auto. apply (wf_signal true _ i Wm), (select_range true _ i Wm EI ES).
Qed.

(** Line 2 of the master, seen from the slave. *)
Lemma raise2_eq s :
  Z.testbit (IRQ_in (master_pic s)) 2 = false ->
  raise_irq_pins (fun _ => service_master) 2 s =
  service_master (s <| master_pic := (master_pic s)
     <| IRQ_in := set_bit (IRQ_in (master_pic s)) 2 |>
     <| irr := set_bit (irr (master_pic s)) 2 |> |>).
Proof.
  intros H. unfold raise_irq_pins. cbn [deref store].
  change (Z.land 2 7) with 2. rewrite land_bitmask_zero, H by lia. reflexivity.
Qed.

Lemma lower2_eq s :
  Z.testbit (IRQ_in (master_pic s)) 2 = true ->
  lower_irq_pins 2 s =
  s <| master_pic := (master_pic s)
     <| IRQ_in := clear_bit (IRQ_in (master_pic s)) 2 |>
     <| irr := clear_bit (irr (master_pic s)) 2 |> |>.
Proof.
  intros H. unfold lower_irq_pins. cbn [deref store].
  change (Z.land 2 7) with 2. rewrite land_bitmask_zero, H by lia. reflexivity.
Qed.

(** Servicing the slave either leaves the machine alone, raises the cascade line
    for its best request, or drops the cascade line. *)
Lemma pic_service_slave_eq s :
  pic_inv s ->
  pic_service Slave s =
  if INT (slave_pic s) then
    if (unmasked (slave_pic s) =? 0) && negb (blocked (slave_pic s)) then
      s <| master_pic := (master_pic s)
             <| IRQ_in := clear_bit (IRQ_in (master_pic s)) 2 |>
             <| irr := clear_bit (irr (master_pic s)) 2 |> |>
        <| slave_pic := (slave_pic s) <| INT := false |> |>
    else s
  else
    match service_select (slave_pic s) with
    | Some i => service_master
        (s <| slave_pic := (slave_pic s) <| INT := true |> <| irq := i |> |>
           <| master_pic := (master_pic s)
                <| IRQ_in := set_bit (IRQ_in (master_pic s)) 2 |>
                <| irr := set_bit (irr (master_pic s)) 2 |> |>)
    | None => s
    end.
Proof.
  intros [Wm Ws Hi Hc]. cbn [pic_service].
  rewrite (pic_service_body_cases false) by assumption.
  unfold signal, deassert. cbn [deref]. rewrite (wf_master _ _ Ws).
  destruct (INT (slave_pic s)) eqn:EI.
  - case_bool; [|reflexivity]. rewrite lower2_eq by (symmetry; assumption). reflexivity.
  - destruct (service_select _); [|reflexivity].
    rewrite raise2_eq by (symmetry; assumption). reflexivity.
Qed.

Lemma cascade_up s i :
  pic_inv s -> 0 <= i < 8 -> 
  pic_inv (s <| slave_pic := (slave_pic s) <| INT := true |> <| irq := i |> |>
             <| master_pic := (master_pic s)
                <| IRQ_in := set_bit (IRQ_in (master_pic s)) 2 |>
                <| irr := set_bit (irr (master_pic s)) 2 |> |>).
Proof.
  intros [Wm Ws Hi Hc] Hr. split; psimpl; auto.
  - apply (wf_pins_up true _ 2 Wm). lia.
  - apply (wf_signal false _ i Ws Hr).
  - rewrite set_bit_testbit, Z.eqb_refl, orb_true_r by lia. reflexivity.
Qed.

Lemma cascade_down s :
  pic_inv s ->
  pic_inv (s <| master_pic := (master_pic s)
             <| IRQ_in := clear_bit (IRQ_in (master_pic s)) 2 |>
             <| irr := clear_bit (irr (master_pic s)) 2 |> |>
        <| slave_pic := (slave_pic s) <| INT := false |> |>).
Proof.
  intros [Wm Ws Hi Hc]. split; psimpl; auto.
  - apply (wf_pins_down true _ 2 Wm).
  - apply (wf_INT false _ false Ws).
  - rewrite clear_bit_testbit, Z.eqb_refl, andb_false_r by lia. reflexivity.
Qed.

Lemma pic_service_inv p s : pic_inv s -> pic_inv (pic_service p s).
Proof.
  destruct p; intros I; [apply service_master_inv; assumption|].
  rewrite pic_service_slave_eq by assumption.
  destruct (INT (slave_pic s)) eqn:EI.
  - case_bool; [apply cascade_down|]; assumption.
  - destruct (service_select (slave_pic s)) eqn:ES; [|assumption].
    apply service_master_inv, cascade_up; [assumption|].
    exact (select_range false _ _ (inv_slave s I) EI ES).
Qed.
#[export] Hint Resolve pic_service_inv store_inv : bits.

Lemma clear_highest_inv p s : pic_inv s -> pic_inv (clear_highest_interrupt p s).
Proof.
  intros I. unfold clear_highest_interrupt. destruct (scan_irq _ _ _ _); [|assumption].
  apply store_inv; auto. pose proof (deref_wf p s I) as W. pic_wf_tac W.
Qed.
#[export] Hint Resolve clear_highest_inv : bits.

Lemma panic_inv e s : pic_inv s -> pic_inv (BX_PANIC e s).
Proof. intros []. split; assumption. Qed.
#[export] Hint Resolve panic_inv : bits.

(** The line number within its controller. *)
Lemma land_7 n : Z.land n 7 = n mod 8.
Proof. exact (Z.land_ones n 3 ltac:(lia)). Qed.

Lemma lower_irq_pins_inv n s : pic_inv s -> 0 <= n -> n <> 2 -> pic_inv (lower_irq_pins n s).
Proof.
  intros I Hn H2. unfold lower_irq_pins.
  destruct (Z.leb_spec n 7) as [H7|H7]; cbn [deref].
  - replace (Z.land n 7) with n by (rewrite land_7; modlia).
    case_bool; [|assumption]. destruct I as [Wm Ws Hi Hc]. split; psimpl; auto.
    + apply (wf_pins_down true _ n Wm).
    + rewrite clear_bit_testbit by lia. destruct (Z.eqb_spec n 2); [contradiction|].
      rewrite andb_true_r. assumption.
  - case_bool; [|assumption]. case_bool; [|assumption].
    destruct I as [Wm Ws Hi Hc]. split; psimpl; auto.
    apply (wf_pins_down false _ _ Ws).
Qed.

Lemma raise_irq_pins_inv n s :
  pic_inv s -> 0 <= n -> n <> 2 -> pic_inv (raise_irq_pins pic_service n s).
Proof.
  intros I Hn H2. unfold raise_irq_pins.
  assert (H7' : 0 <= Z.land n 7 < 8) by (rewrite land_7; modlia).
  destruct (Z.leb_spec n 7) as [H7|H7]; cbn [deref].
  - replace (Z.land n 7) with n in * by (rewrite land_7; modlia).
    case_bool; [|assumption]. apply pic_service_inv.
    destruct I as [Wm Ws Hi Hc]. split; psimpl; auto.
    + apply (wf_pins_up true _ n Wm). lia.
    + rewrite set_bit_testbit by lia. destruct (Z.eqb_spec n 2); [contradiction|].
      rewrite orb_false_r. assumption.
  - case_bool; [|assumption]. case_bool; [|assumption]. apply pic_service_inv.
    destruct I as [Wm Ws Hi Hc]. split; psimpl; auto.
    apply (wf_pins_up false _ _ Ws). assumption.
Qed.

Lemma acknowledge_frame p :
  INT (acknowledge p) = INT p /\ IRQ_in (acknowledge p) = IRQ_in p /\
  irq (acknowledge p) = irq p /\ imr (acknowledge p) = imr p /\
  interrupt_offset (acknowledge p) = interrupt_offset p.
Proof.
  unfold acknowledge. repeat case_bool; psimpl; auto 6.
Qed.

Lemma u8_fits x : fits 8 (u8 x).
Proof. apply wrap_fits. lia. Qed.

Lemma IAC_inv s : pic_inv s -> pic_inv (snd (IAC s)) /\ fits 8 (fst (IAC s)).
Proof.
  intros I. destruct I as [Wm Ws Hi Hc]. unfold IAC. cbv zeta.
  set (s1 := set_field master_pic _ (BX_CLEAR_INTR s)).
  assert (I1 : pic_inv s1).
  { split; subst s1; psimpl; auto. apply (wf_INT true _ false Wm). }
  case_bool; [split; [assumption|apply u8_fits]|].
  destruct (acknowledge_frame (master_pic s1)) as (EI & EQ & Ei & _ & _).
  assert (I2 : pic_inv (s1 <| master_pic := acknowledge (master_pic s1) |>)).
  { apply (store_inv Master); auto. apply wf_acknowledge, I1. }
  case_bool; cbn [fst snd].
  { split; [apply pic_service_inv; assumption | apply u8_fits]. }
  set (s2 := s1 <| master_pic := acknowledge (master_pic s1) |>) in *.
  set (s3 := set_field master_pic _ (set_field slave_pic _ s2)).
  assert (I3 : pic_inv s3).
  { destruct I2 as [Wm2 Ws2 Hi2 Hc2]. split; subst s3 s2; psimpl; auto.
    - pic_wf_tac Wm2.
    - apply (wf_INT false _ false Ws2).
    - rewrite clear_bit_testbit, Z.eqb_refl, andb_false_r by lia. reflexivity. }
  case_bool; cbn [fst snd]; [split; [assumption|apply u8_fits]|].
  split; [|apply u8_fits]. do 2 apply pic_service_inv.
  destruct (acknowledge_frame (slave_pic s3)) as (EI3 & EQ3 & _).
  apply (store_inv Slave); auto. apply wf_acknowledge, I3.
Qed.

Lemma read_inv address io_len s : pic_inv s -> pic_inv (snd (read address io_len s)).
Proof.
  intros I. unfold read, polled_read.
  assert (P : forall p, pic_inv (pic_service p (store p ((deref p (clear_highest_interrupt p s))
            <| polled := false |>) (clear_highest_interrupt p s)))).
  { intros p. apply pic_service_inv, store_inv; auto using clear_highest_inv.
    pose proof (deref_wf p _ (clear_highest_inv p s I)) as W. pic_wf_tac W. }
  repeat (case_bool; [cbn [snd]; auto; try apply P|]).
  apply panic_inv. assumption.
Qed.

(** The invariant of an update of one controller that only touches its registers. *)
Ltac store_inv_tac :=
  apply store_inv; auto with bits;
  match goal with
  | I : pic_inv ?s |- pic_wf _ _ =>
      let W := fresh "W" in
      match goal with |- context [deref ?p s] =>
        pose proof (deref_wf p s I) as W; pic_wf_tac W end
  end.

Lemma panic_if_inv (b : bool) e s : pic_inv s -> pic_inv (if b then BX_PANIC e s else s).
Proof. intros. destruct b; auto with bits. Qed.

Lemma write_icw1_inv p value s : pic_inv s -> pic_inv (write_icw1 p value s).
Proof.
  intros I. unfold write_icw1.
  set (s1 := if negb (Z.land value 2 =? 0) then _ else _).
  assert (I1 : pic_inv s1) by (apply panic_if_inv; assumption).
  set (s2 := if negb (Z.land value 8 =? 0) then _ else _).
  assert (I2 : pic_inv s2) by (apply panic_if_inv; assumption).
  rewrite (wf_master _ _ (deref_wf p s I)).
  clearbody s2. clear s1 I1 I. destruct I2 as [Wm Ws Hi Hc].
  destruct p; split; psimpl; auto.
  - pic_wf_tac Wm.
  - pic_wf_tac Wm.
  - pic_wf_tac Ws.
  - rewrite clear_bit_testbit, Z.eqb_refl, andb_false_r by lia. reflexivity.
Qed.

Lemma write_ocw3_inv p value s : pic_inv s -> pic_inv (write_ocw3 p value s).
Proof.
  intros I. unfold write_ocw3. case_bool; [store_inv_tac|].
  set (s1 := if Z.land value 3 =? 2 then _ else _).
  assert (I1 : pic_inv s1) by (subst s1; repeat case_bool; auto; store_inv_tac).
  clearbody s1. case_bool; [store_inv_tac|].
  case_bool; [apply pic_service_inv; store_inv_tac | assumption].
Qed.

Lemma between_spec lo hi x : between lo hi x = true -> lo <= x <= hi.
Proof. unfold between. intros H. bool_hyps. lia. Qed.

Ltac between_hyp :=
  match goal with H : between _ _ _ = true |- _ => apply between_spec in H end.

Lemma write_ocw2_inv p address value s : pic_inv s -> pic_inv (write_ocw2 p address value s).
Proof.
  intros I. unfold write_ocw2.
  case_bool; [store_inv_tac|].
  case_bool.
  { pose proof (clear_highest_inv p s I) as I1. apply pic_service_inv.
    case_bool; [|assumption].
    apply store_inv; auto. pose proof (deref_wf p _ I1) as W.
    pose proof (next_irq_range _ (wf_lowest _ _ W)). pic_wf_tac W. }
  case_bool; [assumption|].
  case_bool; [apply pic_service_inv; store_inv_tac|].
  case_bool; [between_hyp; store_inv_tac|].
  case_bool; [between_hyp; apply pic_service_inv; store_inv_tac|].
  case_bool; [assumption | apply panic_inv; assumption].
Qed.

Lemma write_icw_inv p value s : pic_inv s -> pic_inv (write_icw p value s).
Proof.
  intros I. unfold write_icw. cbv zeta.
  assert (Hv : fits 8 (Z.land value 0xf8)) by (apply fits_land_r; unfold fits; lia).
  case_bool; [store_inv_tac|].
  case_bool.
  { set (s1 := if master _ then _ else _).
    assert (I1 : pic_inv s1) by (subst s1; repeat case_bool; auto with bits).
    assert (D : deref p s1 = deref p s) by (subst s1; destruct p; repeat case_bool; reflexivity).
    rewrite <- D. clearbody s1. case_bool; store_inv_tac. }
  case_bool; [|auto with bits].
  set (s1 := if negb (Z.land value 1 =? 0) then _ else _).
  assert (I1 : pic_inv s1) by (subst s1; repeat case_bool; auto with bits).
  assert (D : deref p s1 = deref p s) by (subst s1; destruct p; repeat case_bool; reflexivity).
  rewrite <- D. clearbody s1. case_bool; store_inv_tac.
Qed.

Lemma write_inv address value s : pic_inv s -> pic_inv (write address value s).
Proof.
  intros I. unfold write. case_bool.
  - case_bool; [apply write_icw1_inv; assumption|].
    case_bool; [apply write_ocw3_inv | apply write_ocw2_inv]; assumption.
  - case_bool; [apply write_icw_inv; assumption|].
    apply pic_service_inv. pose proof (u8_fits value). store_inv_tac.
Qed.

Lemma set_mode_inv ma_sl mode s : pic_inv s -> pic_inv (set_mode ma_sl mode s).
Proof.
  intros I. destruct ma_sl; [apply (store_inv Master) | apply (store_inv Slave)]; auto;
  destruct I as [Wm Ws _ _]; [pic_wf_tac Wm | pic_wf_tac Ws].
Qed.

Lemma init_inv : pic_inv pic_c_init.
Proof. split; [split; cbn; unfold fits; lia .. | |]; reflexivity. Qed.

(** ** Reachable states

    The operations the rest of the simulator performs on the 8259s; lines are
    raised and lowered by the devices, which never drive the cascade line. *)
Section Reachable.
Context {B : Type} `{IrqForward B}.

Inductive pic_op :=
| OpRead (address io_len : Z)
| OpWrite (address value : Z)
| OpRaise (n : Z)
| OpLower (n : Z)
| OpSetMode (ma_sl : bool) (mode : Z)
| OpIAC.

Definition exec (op : pic_op) (w : bx_pic_c * B) : bx_pic_c * B :=
  match op with
  | OpRead address io_len => (snd (read address io_len (fst w)), snd w)
  | OpWrite address value => (write address value (fst w), snd w)
  | OpRaise n => raise_irq n w
  | OpLower n => lower_irq n w
  | OpSetMode ma_sl mode => (set_mode ma_sl mode (fst w), snd w)
  | OpIAC => (snd (IAC (fst w)), snd w)
  end.

Definition op_ok (op : pic_op) : Prop :=
  match op with
  | OpRaise n | OpLower n => 0 <= n /\ n <> 2
  | _ => True
  end.

Inductive pic_reachable (b0 : B) : bx_pic_c * B -> Prop :=
| reach_init : pic_reachable b0 (pic_c_init, b0)
| reach_step w op : pic_reachable b0 w -> op_ok op -> pic_reachable b0 (exec op w).

(** What the 8259s need of the I/O APIC: it touches them only through
    operations that keep their invariant ([IAC] is the one it uses). *)
Class IrqForwardOk : Prop := {
  forward_inv n level w :
    pic_inv (fst w) -> pic_inv (fst (ioapic_set_irq_level n level w));
}.

Context `{IrqForwardOk}.

Lemma forward_pic_inv n level w : pic_inv (fst w) -> pic_inv (fst (forward n level w)).
Proof. intros I. unfold forward. case_bool; [apply forward_inv|]; assumption. Qed.

Lemma exec_inv op w : op_ok op -> pic_inv (fst w) -> pic_inv (fst (exec op w)).
Proof.
  destruct op; cbn [op_ok exec fst]; intros Hop I.
  - apply read_inv; assumption.
  - apply write_inv; assumption.
  - unfold raise_irq. pose proof (forward_pic_inv n true w I).
    destruct (forward n true w). apply raise_irq_pins_inv; tauto.
  - unfold lower_irq. pose proof (forward_pic_inv n false w I).
    destruct (forward n false w). apply lower_irq_pins_inv; tauto.
  - apply set_mode_inv; assumption.
  - apply IAC_inv; assumption.
Qed.

(** C3: in every state the machine can reach, whatever the guest writes and the
    devices do, the registers stay in their ranges, the processor's INTR line is
    the master's INT pin, and the slave's INT pin is the level of the master's
    input 2. *)
Theorem pic_reachable_invariant b0 w : pic_reachable b0 w -> pic_inv (fst w).
Proof.
  induction 1 as [|w op _ IH Hop]; [apply init_inv | apply exec_inv; assumption].
Qed.

End Reachable.

#[export] Instance no_ioapic_ok : IrqForwardOk (B := unit).
Proof. split. intros n level w I. exact I. Qed.

(** ** Frame facts *)

Lemma service_master_slave s :
  pic_wf true (master_pic s) -> slave_pic (service_master s) = slave_pic s.
Proof.
  intros W. rewrite service_master_eq by assumption.
  case_bool; [case_bool; reflexivity | destruct (service_select _); reflexivity].
Qed.

(** [pic_service] only drives the INT pins, the current IRQ numbers and line 2. *)
Lemma service_master_regs s :
  pic_wf true (master_pic s) ->
  let m := master_pic s in let m' := master_pic (service_master s) in
  imr m' = imr m /\ isr m' = isr m /\ irr m' = irr m /\ IRQ_in m' = IRQ_in m /\
  lowest_priority m' = lowest_priority m /\ interrupt_offset m' = interrupt_offset m /\
  special_mask m' = special_mask m.
Proof.
  intros W. rewrite service_master_eq by assumption. cbv zeta.
  case_bool; [case_bool | destruct (service_select _)]; psimpl; auto 7.
Qed.

(** ** Priority resolution *)

(** The controller signals line [i]: its INT pin goes high for that line.  The
    master's pin is the processor's INTR line; the slave's is line 2 of the
    master, which latches the request and is serviced in turn. *)
Definition signalled (p : pic_ptr) (i : Z) (s : bx_pic_c) : bx_pic_c :=
  match p with
  | Master => s <| master_pic := (master_pic s) <| INT := true |> <| irq := i |> |> <| intr := true |>
  | Slave =>
      service_master
        (s <| slave_pic := (slave_pic s) <| INT := true |> <| irq := i |> |>
           <| master_pic := (master_pic s)
                <| IRQ_in := set_bit (IRQ_in (master_pic s)) 2 |>
                <| irr := set_bit (irr (master_pic s)) 2 |> |>)
  end.

(** The controller drops its INT pin, and with it the line the pin drives. *)
Definition released (p : pic_ptr) (s : bx_pic_c) : bx_pic_c :=
  match p with
  | Master => s <| master_pic := (master_pic s) <| INT := false |> |> <| intr := false |>
  | Slave =>
      s <| slave_pic := (slave_pic s) <| INT := false |> |>
        <| master_pic := (master_pic s)
             <| IRQ_in := clear_bit (IRQ_in (master_pic s)) 2 |>
             <| irr := clear_bit (irr (master_pic s)) 2 |> |>
  end.

Lemma pic_service_eq p s :
  pic_inv s ->
  pic_service p s =
  if INT (deref p s) then
    if (unmasked (deref p s) =? 0) && negb (blocked (deref p s)) then released p s else s
  else match service_select (deref p s) with Some i => signalled p i s | None => s end.
Proof.
  intros I. destruct p; cbn [deref].
  - change (pic_service Master s) with (service_master s).
    rewrite service_master_eq by apply I. reflexivity.
  - rewrite pic_service_slave_eq by assumption. reflexivity.
Qed.

(** C2: the functional specification of [pic_service], for either controller in
    any consistent state and with its INT pin at either level.  With the pin
    low, the controller signals the eligible request of highest rotating
    priority, and does nothing when there is none; [best] picks that request by
    the priority order alone.  With the pin high the line already signalled
    stands, whatever else is requested: the pin is released exactly when no
    unmasked request is left and the line of highest priority is not itself in
    service (the early return of normal mode). *)
Theorem pic_service_selects p s :
  pic_inv s ->
  let c := deref p s in
  if INT c then
    ((forall i, 0 <= i < 8 -> requested c i = false) /\ blocked c = false /\
     pic_service p s = released p s) \/
    (((exists i, 0 <= i < 8 /\ requested c i = true) \/ blocked c = true) /\
     pic_service p s = s)
  else
    (exists i, best c i /\ pic_service p s = signalled p i s) \/
    ((forall i, ~ eligible c i) /\ pic_service p s = s).
Proof.
  intros I c. pose proof (deref_wf p s I) as W. rewrite pic_service_eq by assumption. fold c in W |- *.
  destruct (INT c) eqn:HI.
  - pose proof (unmasked_zero _ c W) as HZ. pose proof (unmasked_fits _ c W) as HF.
    destruct (Z.eqb_spec (unmasked c) 0) as [E|E]; cbn [andb].
    + destruct (blocked c); cbn [negb]; [right; auto | left].
      split; [apply HZ; assumption | auto].
    + right. split; [left | reflexivity].
      destruct (nonzero_has_bit (unmasked c)) as (i & Hi & Hb); [destruct HF; lia | assumption |].
      exists i. rewrite <- unmasked_testbit by lia. split; [|assumption].
      destruct (Z.lt_ge_cases i 8); [lia|]. rewrite (fits_testbit 8) in Hb; [discriminate | auto; lia..].
  - pose proof (service_select_best _ _ W HI) as Hb.
    destruct (service_select c) as [i|]; [left; exists i | right]; auto.
Qed.

Lemma pic_reachable_invariant_witness : pic_inv (snd (IAC (write 0x21 0x00 pic_c_init))).
Proof.
  apply (pic_reachable_invariant tt (snd (IAC (write 0x21 0x00 pic_c_init)), tt)).
  apply (reach_step tt (write 0x21 0x00 pic_c_init, tt) OpIAC); [|exact Logic.I].
  apply (reach_step tt (pic_c_init, tt) (OpWrite 0x21 0x00)); [apply reach_init | exact Logic.I].
Defined.

Lemma pic_service_selects_witness :
  let s := pic_c_init <| master_pic := (master_pic pic_c_init) <| irr := 0x06 |> <| imr := 0 |> |> in
  ((exists i, best (master_pic s) i /\ pic_service Master s = signalled Master i s) \/
   ((forall i, ~ eligible (master_pic s) i) /\ pic_service Master s = s)) /\
  pic_service Master s = signalled Master 1 s.
Proof.
  split; [|reflexivity].
  refine (pic_service_selects Master
    (pic_c_init <| master_pic := (master_pic pic_c_init) <| irr := 0x06 |> <| imr := 0 |> |>) _).
  split; try reflexivity; [|apply init_inv]. split; cbn; unfold fits; lia || reflexivity.
Defined.

(** ** No request is lost *)

(** INT is high whenever a request is eligible. *)
Definition served (p : bx_pic_t) : Prop := INT p = false -> forall i, ~ eligible p i.
Definition pic_served (s : bx_pic_c) : Prop := served (master_pic s) /\ served (slave_pic s).

Lemma eligible_mono p p' i :
  imr p' = imr p -> isr p' = isr p -> lowest_priority p' = lowest_priority p ->
  special_mask p' = special_mask p ->
  (0 <= i -> Z.testbit (irr p') i = true -> Z.testbit (irr p) i = true) ->
  eligible p' i -> eligible p i.
Proof.
  unfold eligible, requested. intros -> -> -> -> Hirr (Hi & Hr & He).
  apply andb_true_iff in Hr. destruct Hr as [Hr1 Hr2]. rewrite Hirr, Hr2 by (lia || auto). auto.
Qed.

Lemma served_mono p p' :
  served p -> INT p' = INT p -> imr p' = imr p -> isr p' = isr p ->
  lowest_priority p' = lowest_priority p -> special_mask p' = special_mask p ->
  (forall i, 0 <= i -> Z.testbit (irr p') i = true -> Z.testbit (irr p) i = true) -> served p'.
Proof.
  intros S E ? ? ? ? Hirr HI i He. apply (S ltac:(congruence) i).
  apply (eligible_mono p p'); auto.
Qed.

Lemma nothing_requested m p : pic_wf m p -> unmasked p = 0 -> forall i, ~ eligible p i.
Proof.
  intros W H i (Hi & Hr & _). rewrite (proj1 (unmasked_zero m p W) H i Hi) in Hr. discriminate.
Qed.

(** Requests of an idle register file. *)
Lemma irr_zero_not_eligible p i : irr p = 0 -> ~ eligible p i.
Proof. intros H (_ & Hr & _). unfold requested in Hr. rewrite H, Z.testbit_0_l in Hr. discriminate. Qed.

Lemma service_master_served s :
  pic_wf true (master_pic s) -> served (master_pic (service_master s)).
Proof.
  intros W. rewrite service_master_eq by assumption.
  destruct (INT (master_pic s)) eqn:EI.
  - case_bool; psimpl; [|intros H; congruence]. intros _ i He.
    apply andb_true_iff in E. destruct E as [E _]. apply Z.eqb_eq in E.
    apply (nothing_requested _ _ W E i). exact He.
  - pose proof (service_select_best _ _ W EI) as Hb.
    destruct (service_select _); psimpl; [intros H; discriminate | intros _; assumption].
Qed.

Lemma clear_bit_mono x n i :
  0 <= n -> Z.testbit (clear_bit x n) i = true -> Z.testbit x i = true.
Proof. intros Hn. rewrite clear_bit_testbit by lia. intros H. apply andb_true_iff in H. tauto. Qed.

(** After [pic_service] the serviced controller is served; the other one stays
    served. *)
Lemma pic_service_self p s : pic_inv s -> served (deref p (pic_service p s)).
Proof.
  intros I. pose proof (inv_master s I) as Wm. pose proof (inv_slave s I) as Ws.
  destruct p; [apply service_master_served; assumption|]. rewrite pic_service_slave_eq by assumption.
  destruct (INT (slave_pic s)) eqn:EI.
  - case_bool; psimpl; [|intros H; congruence]. intros _ i He.
    apply andb_true_iff in E. destruct E as [E _]. apply Z.eqb_eq in E.
    apply (nothing_requested _ _ Ws E i). exact He.
  - pose proof (service_select_best _ _ Ws EI) as Hb.
    destruct (service_select _) as [i|]; [|intros _; assumption].
    cbn [deref]. rewrite service_master_slave; [intros H; discriminate|].
    apply (wf_pins_up true _ 2 Wm). lia.
Qed.

Lemma pic_service_other p s :
  pic_inv s ->
  served (match p with Master => slave_pic s | Slave => master_pic s end) ->
  served (match p with Master => slave_pic (pic_service p s) | Slave => master_pic (pic_service p s) end).
Proof.
  intros I S. pose proof (inv_master s I) as Wm.
  destruct p; [cbn [pic_service]; rewrite service_master_slave; assumption|].
  rewrite pic_service_slave_eq by assumption. case_bool.
  - case_bool; [|assumption]. psimpl.
    apply (served_mono (master_pic s)); auto. intros i _. apply clear_bit_mono. lia.
  - destruct (service_select _); [|assumption].
    apply service_master_served, (wf_pins_up true _ 2 Wm). lia.
Qed.

Lemma pic_service_served p s :
  pic_inv s ->
  served (match p with Master => slave_pic s | Slave => master_pic s end) ->
  pic_served (pic_service p s).
Proof.
  intros I S. pose proof (pic_service_self p s I). pose proof (pic_service_other p s I S).
  destruct p; split; assumption.
Qed.

(** An update of a controller that does not touch what makes requests eligible. *)
Lemma store_served p v s :
  pic_served s ->
  (served (deref p s) -> served v) -> pic_served (store p v s).
Proof. intros [Hm Hs] Hv. destruct p; split; cbn in *; auto. Qed.

Lemma deref_served p s : pic_served s -> served (deref p s).
Proof. intros [Hm Hs]. destruct p; assumption. Qed.

Ltac same_served := let H := fresh in intros H; apply (served_mono _ _ H); reflexivity || auto.

(** Servicing after an arbitrary change to one controller's registers. *)
Lemma service_store_served p v s :
  pic_inv (store p v s) -> pic_served s -> pic_served (pic_service p (store p v s)).
Proof.
  intros I [Hm Hs]. apply pic_service_served; [assumption|]. destruct p; assumption.
Qed.

Lemma panic_served (b : bool) e s : pic_served s -> pic_served (if b then BX_PANIC e s else s).
Proof. intros []. destruct b; split; assumption. Qed.

Lemma polled_read_served p io_len s :
  pic_inv s -> pic_served s -> pic_served (snd (polled_read p io_len s)).
Proof.
  intros I S. unfold polled_read. cbn [snd].
  pose proof (clear_highest_inv p s I) as I1.
  apply pic_service_served.
  - apply store_inv; auto. pose proof (deref_wf p _ I1) as W. pic_wf_tac W.
  - destruct S as [Hm Hs]. unfold clear_highest_interrupt.
    destruct p; destruct (scan_irq _ _ _ _); assumption.
Qed.

Lemma read_served address io_len s :
  pic_inv s -> pic_served s -> pic_served (snd (read address io_len s)).
Proof.
  intros I S. unfold read.
  repeat (case_bool; [cbn [snd]; auto using polled_read_served|]).
  apply (panic_served true). assumption.
Qed.

Lemma lower_irq_pins_served n s : 0 <= n -> pic_served s -> pic_served (lower_irq_pins n s).
Proof.
  intros Hn S. unfold lower_irq_pins.
  assert (0 <= Z.land n 7) by (rewrite land_7; modlia).
  assert (L : forall p, pic_served
     (if negb (Z.land (IRQ_in (deref p s)) (bitmask (Z.land n 7)) =? 0)
      then store p ((deref p s) <| IRQ_in := clear_bit (IRQ_in (deref p s)) (Z.land n 7) |>
                                <| irr := clear_bit (irr (deref p s)) (Z.land n 7) |>) s else s)).
  { intros p. case_bool; [|assumption]. apply store_served; [assumption|]. intros Sp.
    apply (served_mono (deref p s)); auto. intros i _. apply clear_bit_mono. assumption. }
  case_bool; [apply (L Master)|]. case_bool; [apply (L Slave)|assumption].
Qed.

Lemma raise_irq_pins_served n s :
  pic_inv s -> 0 <= n -> n <> 2 -> pic_served s ->
  pic_served (raise_irq_pins pic_service n s).
Proof.
  intros I Hn H2 S. pose proof (raise_irq_pins_inv n s I Hn H2) as I'. clear I'.
  assert (H7' : 0 <= Z.land n 7 < 8) by (rewrite land_7; modlia).
  unfold raise_irq_pins. destruct (Z.leb_spec n 7) as [H7|H7]; cbn [deref].
  - replace (Z.land n 7) with n in * by (rewrite land_7; modlia).
    case_bool; [|assumption]. apply service_store_served; [|assumption].
    destruct I as [Wm Ws Hi Hc]. split; psimpl; auto.
    + apply (wf_pins_up true _ n Wm). lia.
    + rewrite set_bit_testbit by lia. destruct (Z.eqb_spec n 2); [contradiction|].
      rewrite orb_false_r. assumption.
  - case_bool; [|assumption]. case_bool; [|assumption].
    apply service_store_served; [|assumption].
    destruct I as [Wm Ws Hi Hc]. split; psimpl; auto.
    apply (wf_pins_up false _ _ Ws). assumption.
Qed.

(** A slave request that vanished before the acknowledge. *)
Definition slave_spurious (s : bx_pic_c) : bool :=
  negb (unmasked (master_pic s) =? 0) && (irq (master_pic s) =? 2) &&
  (unmasked (slave_pic s) =? 0).

Lemma IAC_served s :
  pic_inv s -> pic_served s -> slave_spurious s = false -> pic_served (snd (IAC s)).
Proof.
  intros I [Sm Ss] Hsp. pose proof I as [Wm Ws Hi Hc]. unfold IAC. cbv zeta.
  set (s1 := set_field master_pic _ (BX_CLEAR_INTR s)).
  assert (W1 : pic_wf true (master_pic s1)) by (apply (wf_INT true _ false Wm)).
  destruct (acknowledge_frame (master_pic s1)) as (_ & _ & Ei & _ & _).
  change (Z.land (irr (master_pic s1)) (Z.lnot (imr (master_pic s1)))) with (unmasked (master_pic s)).
  destruct (Z.eqb_spec (unmasked (master_pic s)) 0) as [E|E]; cbn [snd].
  { split; [|assumption]. intros _ i He. apply (nothing_requested _ _ Wm E i). exact He. }
  rewrite Ei. change (irq (master_pic s1)) with (irq (master_pic s)).
  assert (Wa : pic_wf true (acknowledge (master_pic s1))) by (apply wf_acknowledge; assumption).
  destruct (Z.eqb_spec (irq (master_pic s)) 2) as [E2|E2]; cbn [negb snd].
  2: { split; [apply service_master_served; assumption|].
       cbn [pic_service]. rewrite service_master_slave by assumption. assumption. }
  set (s3 := set_field master_pic _ (set_field slave_pic _ _)).
  change (Z.land (irr (slave_pic s3)) (Z.lnot (imr (slave_pic s3)))) with (unmasked (slave_pic s)).
  unfold slave_spurious in Hsp. rewrite E2 in Hsp.
  destruct (Z.eqb_spec (unmasked (master_pic s)) 0); [contradiction|].
  destruct (Z.eqb_spec (unmasked (slave_pic s)) 0); [discriminate|]. cbn [snd].
  assert (W3 : pic_wf false (slave_pic s3)) by (apply (wf_INT false _ false Ws)).
  assert (I4 : pic_inv (s3 <| slave_pic := acknowledge (slave_pic s3) |>)).
  { destruct (acknowledge_frame (slave_pic s3)) as (EI & _).
    split; cbn [master_pic slave_pic set_field intr].
    - subst s3. psimpl. pic_wf_tac Wa.
    - apply wf_acknowledge. assumption.
    - destruct (acknowledge_frame (master_pic s1)) as (EI1 & _).
      subst s3. psimpl. rewrite EI1. reflexivity.
    - rewrite EI. subst s3. psimpl.
      rewrite clear_bit_testbit, Z.eqb_refl, andb_false_r by lia. reflexivity. }
  apply pic_service_served; [apply pic_service_inv; assumption|].
  exact (pic_service_self Slave _ I4).
Qed.

(** The set-priority commands, which reorder the lines without servicing. *)
Definition set_priority_command (address value : Z) : bool :=
  (Z.land address 1 =? 0) && between 0xC0 0xC7 value.

Lemma write_icw1_served p value s :
  pic_inv s -> pic_served s -> pic_served (write_icw1 p value s).
Proof.
  intros I S. unfold write_icw1. cbv zeta.
  set (s1 := if negb (Z.land value 2 =? 0) then _ else _).
  assert (S1 : pic_served s1) by (apply panic_served; assumption).
  set (s2 := if negb (Z.land value 8 =? 0) then _ else _).
  assert (S2 : pic_served s2) by (apply panic_served; assumption).
  clearbody s2. clear s1 S1. destruct S2 as [Hm Hs].
  rewrite (wf_master _ _ (deref_wf p s I)).
  destruct p; split; psimpl; try assumption;
    try (intros _ i; apply irr_zero_not_eligible; reflexivity).
Qed.

Lemma write_ocw3_served p value s :
  pic_inv s -> pic_served s -> pic_served (write_ocw3 p value s).
Proof.
  intros I S. unfold write_ocw3. case_bool; [apply store_served; [assumption|same_served]|].
  set (s1 := if Z.land value 3 =? 2 then _ else _).
  assert (S1 : pic_served s1)
    by (subst s1; repeat case_bool; auto; (apply store_served; [assumption|same_served])).
  assert (I1 : pic_inv s1) by (subst s1; repeat case_bool; auto; store_inv_tac).
  clearbody s1. case_bool.
  - apply store_served; [assumption|]. intros Sp HI i (Hi & Hr & He). apply (Sp HI i).
    repeat split; auto; try lia. cbn in He.
    destruct (special_mask (deref p s1)); [|assumption].
    destruct (Z.testbit (isr (deref p s1)) i) eqn:Eb; [|reflexivity].
    specialize (He i Hi Eb). lia.
  - case_bool; [|assumption]. apply service_store_served; [store_inv_tac | assumption].
Qed.

Lemma clear_highest_served_other p s :
  pic_served s ->
  served (match p with Master => slave_pic (clear_highest_interrupt p s)
                     | Slave => master_pic (clear_highest_interrupt p s) end).
Proof.
  intros [Hm Hs]. unfold clear_highest_interrupt.
  destruct p; destruct (scan_irq _ _ _ _); assumption.
Qed.

Lemma write_ocw2_served p address value s :
  pic_inv s -> pic_served s -> between 0xC0 0xC7 value = false ->
  pic_served (write_ocw2 p address value s).
Proof.
  intros I S HC. unfold write_ocw2. rewrite HC.
  case_bool; [apply store_served; [assumption|same_served]|].
  case_bool.
  { pose proof (clear_highest_inv p s I) as I1.
    pose proof (clear_highest_served_other p s S) as S1. case_bool.
    - apply pic_service_served; [|destruct p; assumption].
      apply store_inv; auto. pose proof (deref_wf p _ I1) as W.
      pose proof (next_irq_range _ (wf_lowest _ _ W)). pic_wf_tac W.
    - apply pic_service_served; assumption. }
  case_bool; [assumption|].
  case_bool; [apply service_store_served; [store_inv_tac|assumption]|].
  case_bool; [between_hyp; apply service_store_served; [store_inv_tac|assumption]|].
  case_bool; [assumption | apply (panic_served true); assumption].
Qed.

Lemma write_icw_served p value s : pic_served s -> pic_served (write_icw p value s).
Proof.
  intros S. unfold write_icw. cbv zeta.
  case_bool; [apply store_served; [assumption|same_served]|].
  case_bool.
  { set (s1 := if master _ then _ else _).
    assert (S1 : pic_served s1)
      by (subst s1; repeat case_bool; auto; apply (panic_served true); assumption).
    assert (D : deref p s1 = deref p s) by (subst s1; destruct p; repeat case_bool; reflexivity).
    rewrite <- D. clearbody s1. case_bool; (apply store_served; [assumption|same_served]). }
  case_bool; [|apply (panic_served true); assumption].
  set (s1 := if negb (Z.land value 1 =? 0) then _ else _).
  assert (S1 : pic_served s1)
    by (subst s1; repeat case_bool; auto; apply (panic_served true); assumption).
  assert (D : deref p s1 = deref p s) by (subst s1; destruct p; repeat case_bool; reflexivity).
  rewrite <- D. clearbody s1. case_bool; (apply store_served; [assumption|same_served]).
Qed.

Lemma write_served address value s :
  pic_inv s -> pic_served s -> set_priority_command address value = false ->
  pic_served (write address value s).
Proof.
  intros I S HC. unfold write. unfold set_priority_command in HC. case_bool.
  - case_bool; [apply write_icw1_served; assumption|].
    case_bool; [apply write_ocw3_served | apply write_ocw2_served]; assumption.
  - case_bool; [apply write_icw_served; assumption|].
    apply service_store_served; [|assumption]. pose proof (u8_fits value). store_inv_tac.
Qed.

(** The two operations after which an eligible request may wait for the next
    service: the set-priority command, and an acknowledge that finds the slave's
    request gone (it returns before [pic_service] runs). *)
Definition skips_service (op : pic_op) (s : bx_pic_c) : bool :=
  match op with
  | OpWrite address value => set_priority_command address value
  | OpIAC => slave_spurious s
  | _ => false
  end.

(** C7: apart from those two operations, no operation of a machine without an
    I/O APIC leaves an eligible request without its INT pin raised. *)
Theorem pic_no_lost_request op (w : bx_pic_c * unit) :
  op_ok op -> pic_inv (fst w) -> pic_served (fst w) -> skips_service op (fst w) = false ->
  pic_served (fst (exec op w)).
Proof.
  destruct w as [s []].
  destruct op; cbn [op_ok skips_service exec fst snd]; intros Hop I S Hsk.
  - apply read_served; assumption.
  - apply write_served; assumption.
  - exact (raise_irq_pins_served n s I (proj1 Hop) (proj2 Hop) S).
  - exact (lower_irq_pins_served n s (proj1 Hop) S).
  - destruct S. destruct ma_sl; (apply (store_served Master) || apply (store_served Slave));
      (split; assumption) || same_served.
  - apply IAC_served; assumption.
Qed.

Lemma init_served : pic_served pic_c_init.
Proof. split; intros _ i; apply irr_zero_not_eligible; reflexivity. Qed.

Lemma pic_no_lost_request_witness :
  pic_served (fst (exec (OpRaise 1) (write 0x21 0x00 pic_c_init, tt))).
Proof.
  apply (pic_no_lost_request (OpRaise 1) (write 0x21 0x00 pic_c_init, tt)).
  - cbn. lia.
  - apply write_inv, init_inv.
  - apply write_served; [apply init_inv | apply init_served | reflexivity].
  - reflexivity.
Defined.

(** Servicing never changes the in-service register of the controller. *)
Lemma pic_service_isr p s : pic_inv s -> isr (deref p (pic_service p s)) = isr (deref p s).
Proof.
  intros I. destruct p; cbn [deref].
  - apply (service_master_regs s (inv_master s I)).
  - rewrite pic_service_slave_eq by assumption. case_bool; [case_bool; reflexivity|].
    destruct (service_select _); [|reflexivity].
    rewrite service_master_slave; [reflexivity|].
    apply (wf_pins_up true _ 2 (inv_master s I)). lia.
Qed.
