(* ===== verification/PicProps.v ===== *)
(** * Acknowledge, end-of-interrupt and delivery on the 8259s

    Functional behaviour of the operations a guest and the CPU perform, built
    on the service and invariant lemmas of PicSpec.v. *)

From Stdlib Require Import ZArith Lia List Bool.
From S2P Require Import Prelude Pic PicSpec.
Import ListNotations.
Open Scope Z_scope.

(** ** The acknowledge cycle *)

Lemma acknowledge_regs p :
  0 <= irq p ->
  isr (acknowledge p) = (if auto_eoi p =? 0 then set_bit (isr p) (irq p) else isr p) /\
  irr (acknowledge p) =
    (if Z.testbit (edge_level p) (irq p) then irr p else clear_bit (irr p) (irq p)).
Proof.
  intros H. unfold acknowledge. rewrite land_bitmask_zero by assumption.
  destruct (Z.testbit (edge_level p) (irq p)); cbn [negb]; psimpl;
    repeat case_bool; psimpl; auto.
Qed.

(** The INT pin plays no part in the acknowledge. *)
Lemma acknowledge_INT p b :
  acknowledge (p <| INT := b |>) = (acknowledge p) <| INT := b |>.
Proof.
  unfold acknowledge. psimpl.
  destruct (Z.land (edge_level p) (bitmask (irq p)) =? 0), (auto_eoi p =? 0) eqn:E,
    (rotate_on_autoeoi p) eqn:E'; psimpl; rewrite ?E, ?E'; reflexivity.
Qed.

(** The acknowledge of a line of the master, up to the service that ends it. *)
Lemma IAC_direct s :
  unmasked (master_pic s) <> 0 -> irq (master_pic s) <> 2 ->
  IAC s =
    (u8 (irq (master_pic s) + interrupt_offset (master_pic s)),
     service_master
       {| master_pic := (acknowledge (master_pic s)) <| INT := false |>;
          slave_pic := slave_pic s; intr := false; panics := panics s |}).
Proof.
  intros Hu H2. rewrite <- acknowledge_INT.
  destruct (acknowledge_frame ((master_pic s) <| INT := false |>)) as (_ & _ & Ei & _ & Eo).
  unfold IAC. psimpl. change (Z.land (irr (master_pic s)) _) with (unmasked (master_pic s)).
  destruct (Z.eqb_spec (unmasked (master_pic s)) 0); [contradiction|].
  rewrite Ei, Eo. destruct (Z.eqb_spec (irq (master_pic s)) 2); [contradiction|]. reflexivity.
Qed.

(** Acknowledging an interrupt of the master (any line but the cascade)
    yields its vector, sets its in-service bit unless automatic EOI is on, and
    consumes the request of an edge-triggered line; the slave is not touched. *)
Theorem IAC_master s :
  pic_inv s -> unmasked (master_pic s) <> 0 -> irq (master_pic s) <> 2 ->
  let m := master_pic s in let m' := master_pic (snd (IAC s)) in
  fst (IAC s) = u8 (irq m + interrupt_offset m) /\
  isr m' = (if auto_eoi m =? 0 then set_bit (isr m) (irq m) else isr m) /\
  irr m' = (if Z.testbit (edge_level m) (irq m) then irr m else clear_bit (irr m) (irq m)) /\
  slave_pic (snd (IAC s)) = slave_pic s.
Proof.
  intros I Hu H2. pose proof (inv_master s I) as W. cbv zeta.
  rewrite IAC_direct by assumption. cbn [fst snd].
  set (s2 := PicSys _ _ _ _).
  assert (W2 : pic_wf true (master_pic s2)) by (apply wf_INT, wf_acknowledge; assumption).
  destruct (service_master_regs s2 W2) as (_ & Hisr & Hirr & _).
  destruct (acknowledge_regs (master_pic s) (proj1 (wf_irq _ _ W))) as [Es Er].
  rewrite Hisr, Hirr, service_master_slave by assumption.
  subst s2. psimpl. auto.
Qed.

Lemma IAC_master_witness :
  fst (IAC (raise_irq_pins pic_service 4 (write 0x21 0x00 pic_c_init))) = 0x0C.
Proof.
  assert (I : pic_inv (raise_irq_pins pic_service 4 (write 0x21 0x00 pic_c_init)))
    by (apply raise_irq_pins_inv; [apply write_inv, init_inv | lia | lia]).
  exact (proj1 (IAC_master _ I ltac:(vm_compute; discriminate) ltac:(vm_compute; discriminate))).
Defined.

(** The acknowledge of the cascade line, up to the two services that end it. *)
Lemma IAC_cascade s :
  unmasked (master_pic s) <> 0 -> irq (master_pic s) = 2 -> unmasked (slave_pic s) <> 0 ->
  let m := (acknowledge (master_pic s)) <| INT := false |>
             <| IRQ_in := clear_bit (IRQ_in (master_pic s)) 2 |> in
  IAC s =
    (u8 (irq (slave_pic s) + interrupt_offset (slave_pic s)),
     service_master (pic_service Slave
       {| master_pic := m; slave_pic := (acknowledge (slave_pic s)) <| INT := false |>;
          intr := false; panics := panics s |})).
Proof.
  intros Hu H2 Hs. cbv zeta. rewrite <- !acknowledge_INT.
  destruct (acknowledge_frame ((master_pic s) <| INT := false |>)) as (_ & EQ & Ei & _ & _).
  unfold IAC. psimpl. change (Z.land (irr (master_pic s)) _) with (unmasked (master_pic s)).
  destruct (Z.eqb_spec (unmasked (master_pic s)) 0); [contradiction|].
  rewrite Ei, EQ, H2. cbn [negb Z.eqb Pos.eqb].
  change (Z.land (irr (slave_pic s)) _) with (unmasked (slave_pic s)).
  destruct (Z.eqb_spec (unmasked (slave_pic s)) 0); [contradiction|]. reflexivity.
Qed.

(** ** End of interrupt *)

(** The non-specific EOI command clears exactly the in-service bit of highest
    rotating priority, whatever else is pending. *)
Theorem eoi_clears_highest p address s :
  pic_inv s -> isr (deref p s) <> 0 ->
  exists i, 0 <= i < 8 /\ Z.testbit (isr (deref p s)) i = true /\
    (forall j, 0 <= j < 8 -> Z.testbit (isr (deref p s)) j = true ->
       rank (lowest_priority (deref p s)) i <= rank (lowest_priority (deref p s)) j) /\
    isr (deref p (write_ocw2 p address 0x20 s)) = clear_bit (isr (deref p s)) i.
Proof.
  intros I Hz. pose proof (deref_wf p s I) as W. pose proof (wf_lowest _ _ W) as Hl.
  set (lp := lowest_priority (deref p s)) in *.
  pose proof (scan_irq_rank (fun i => negb (Z.land (isr (deref p s)) (bitmask i) =? 0)) lp
    (next_irq lp) 8 Hl ltac:(lia)) as Hscan.
  rewrite pos_8 in Hscan by (apply next_irq_range; lia). specialize (Hscan eq_refl).
  change (write_ocw2 p address 32 s) with (pic_service p (clear_highest_interrupt p s)).
  unfold clear_highest_interrupt. fold lp.
  destruct (scan_irq _ _ _ _) as [i|].
  - destruct Hscan as (Hi & _ & Hc & Hmin). rewrite land_bitmask_zero, negb_involutive in Hc by lia.
    exists i. repeat split; auto; try lia.
    + intros j Hj Hb. destruct (Z.le_gt_cases (rank lp i) (rank lp j)) as [|Hlt]; [assumption|].
      specialize (Hmin j Hj Hlt). rewrite land_bitmask_zero, Hb in Hmin by lia. discriminate.
    + assert (I1 : pic_inv (store p ((deref p s) <| isr := clear_bit (isr (deref p s)) i |>) s)).
      { apply store_inv; auto. pic_wf_tac W. }
      rewrite (pic_service_isr p _ I1), deref_store. reflexivity.
  - exfalso. destruct (nonzero_has_bit (isr (deref p s))) as (i & Hi & Hb); [|assumption|].
    { apply (wf_isr _ _ W). }
    destruct (Z.lt_ge_cases i 8).
    + specialize (Hscan i ltac:(lia)). rewrite land_bitmask_zero, Hb in Hscan by lia.
      pose proof (rank_range lp i). discriminate Hscan. lia.
    + rewrite (fits_testbit 8) in Hb; [discriminate | lia | apply (wf_isr _ _ W) | lia].
Qed.

(** ** Delivery of one interrupt *)

(** No request pending and no interrupt in service. *)
Record idle (s : bx_pic_c) : Prop := {
  idle_inv : pic_inv s;
  idle_isr_m : isr (master_pic s) = 0;
  idle_isr_s : isr (slave_pic s) = 0;
  idle_irr_m : irr (master_pic s) = 0;
  idle_irr_s : irr (slave_pic s) = 0;
  idle_INT_m : INT (master_pic s) = false;
  idle_INT_s : INT (slave_pic s) = false;
}.

(** Input [n] of the pair is low and not masked (for the slave's inputs, line 2
    of the master has to be unmasked too). *)
Definition line_ready (n : Z) (s : bx_pic_c) : Prop :=
  if n <? 8 then
    Z.testbit (IRQ_in (master_pic s)) n = false /\ Z.testbit (imr (master_pic s)) n = false
  else
    Z.testbit (IRQ_in (slave_pic s)) (n - 8) = false /\
    Z.testbit (imr (slave_pic s)) (n - 8) = false /\ Z.testbit (imr (master_pic s)) 2 = false.

Lemma sole_request m p n :
  pic_wf m p -> INT p = false -> isr p = 0 -> irr p = bitmask n ->
  Z.testbit (imr p) n = false -> 0 <= n < 8 ->
  service_select p = Some n /\ unmasked p <> 0.
Proof.
  intros W HI Hisr Hirr Himr Hn.
  assert (Hreq : forall i, 0 <= i -> requested p i = (n =? i)).
  { intros i Hi. unfold requested. rewrite Hirr, bitmask_testbit by lia.
    destruct (Z.eqb_spec n i); [subst; rewrite Himr|]; reflexivity. }
  assert (He : eligible p n).
  { repeat split; try lia; [rewrite Hreq, Z.eqb_refl by lia; reflexivity|].
    destruct (special_mask p); rewrite Hisr; [apply Z.testbit_0_l|].
    intros j _. rewrite Z.testbit_0_l. discriminate. }
  pose proof (service_select_best m p W HI) as Hb. split.
  - destruct (service_select p) as [i|]; [|exfalso; exact (Hb n He)].
    destruct Hb as [(Hi & Hr & _) _]. rewrite Hreq in Hr by lia. apply Z.eqb_eq in Hr. congruence.
  - intros Hz. rewrite (unmasked_zero m p W) in Hz. specialize (Hz n Hn).
    rewrite Hreq, Z.eqb_refl in Hz by lia. discriminate.
Qed.

Lemma set_bit_0 n : 0 <= n -> set_bit 0 n = bitmask n.
Proof. reflexivity. Qed.

Lemma service_master_signal s i :
  pic_wf true (master_pic s) -> INT (master_pic s) = false ->
  service_select (master_pic s) = Some i ->
  service_master s = s <| master_pic := (master_pic s) <| INT := true |> <| irq := i |> |>
                       <| intr := true |>.
Proof. intros W HI Hs. rewrite service_master_eq, HI, Hs by assumption. reflexivity. Qed.

Lemma raise_master n s :
  idle s -> 0 <= n < 8 -> line_ready n s ->
  let m := (master_pic s) <| IRQ_in := set_bit (IRQ_in (master_pic s)) n |>
             <| irr := bitmask n |> <| INT := true |> <| irq := n |> in
  raise_irq_pins pic_service n s = s <| master_pic := m |> <| intr := true |> /\
  unmasked m <> 0.
Proof.
  intros Id Hn. unfold line_ready. destruct (Z.ltb_spec n 8); [|lia]. intros [Hp Him]. cbv zeta.
  pose proof (inv_master s (idle_inv s Id)) as W.
  pose proof (wf_pins_up true _ n W Hn) as Wp. rewrite (idle_irr_m s Id), set_bit_0 in Wp by lia.
  destruct (sole_request true _ n Wp (idle_INT_m s Id) (idle_isr_m s Id) eq_refl Him Hn) as [Hsel Hu].
  split; [|exact Hu].
  unfold raise_irq_pins. replace (Z.land n 7) with n by (rewrite land_7; modlia).
  destruct (Z.leb_spec n 7); [|lia]. cbn [deref pic_service].
  rewrite land_bitmask_zero, Hp, (idle_irr_m s Id), set_bit_0 by lia. cbn [negb].
  etransitivity; [apply (service_master_signal _ n)|reflexivity];
    [exact Wp | exact (idle_INT_m s Id) | exact Hsel].
Qed.

Lemma raise_slave n s :
  idle s -> 8 <= n < 16 -> line_ready n s ->
  let sl := (slave_pic s) <| IRQ_in := set_bit (IRQ_in (slave_pic s)) (n - 8) |>
             <| irr := bitmask (n - 8) |> <| INT := true |> <| irq := n - 8 |> in
  let m := (master_pic s) <| IRQ_in := set_bit (IRQ_in (master_pic s)) 2 |>
             <| irr := bitmask 2 |> <| INT := true |> <| irq := 2 |> in
  raise_irq_pins pic_service n s = s <| slave_pic := sl |> <| master_pic := m |> <| intr := true |> /\
  unmasked sl <> 0 /\ unmasked m <> 0.
Proof.
  intros Id Hn. unfold line_ready. destruct (Z.ltb_spec n 8); [lia|].
  intros (Hp & Him & Him2). cbv zeta.
  pose proof (idle_inv s Id) as I.
  assert (H8 : 0 <= n - 8 < 8) by lia.
  pose proof (wf_pins_up false _ (n - 8) (inv_slave s I) H8) as Ws.
  rewrite (idle_irr_s s Id), set_bit_0 in Ws by lia.
  destruct (sole_request false _ (n - 8) Ws (idle_INT_s s Id) (idle_isr_s s Id) eq_refl Him H8)
    as [Hsel Hu].
  pose proof (wf_pins_up true _ 2 (inv_master s I) ltac:(lia)) as Wm.
  rewrite (idle_irr_m s Id), set_bit_0 in Wm by lia.
  destruct (sole_request true _ 2 Wm (idle_INT_m s Id) (idle_isr_m s Id) eq_refl Him2 ltac:(lia))
    as [Hsel2 Hu2].
  split; [|split; assumption].
  unfold raise_irq_pins. replace (Z.land n 7) with (n - 8) by (rewrite land_7; modlia).
  destruct (Z.leb_spec n 7); [lia|]. destruct (Z.gtb_spec n 7); [|lia].
  destruct (Z.leb_spec n 15); [|lia]. cbn [deref andb].
  rewrite land_bitmask_zero, Hp, (idle_irr_s s Id), set_bit_0 by lia. cbn [negb].
  rewrite pic_service_slave_eq.
  2: { destruct I as [Wm' Ws' Hi Hc]. split; auto. }
  cbn [store slave_pic set_field].
  replace (INT _) with false by (symmetry; exact (idle_INT_s s Id)).
  replace (service_select _) with (Some (n - 8)) by (symmetry; exact Hsel).
  cbn [master_pic]. rewrite (idle_irr_m s Id), set_bit_0 by lia.
  etransitivity; [apply (service_master_signal _ 2)|reflexivity];
    [exact Wm | exact (idle_INT_m s Id) | exact Hsel2].
Qed.

(** The vector of input [n] of the pair. *)
Definition line_vector (n : Z) (s : bx_pic_c) : Z :=
  if n <? 8 then u8 (n + interrupt_offset (master_pic s))
  else u8 (n - 8 + interrupt_offset (slave_pic s)).

(** C20: raising a ready line on idle controllers asserts INTR, and the acknowledge
    that follows returns the vector programmed for that line, through the
    cascade for lines 8 to 15. *)
Theorem interrupt_delivery n s :
  idle s -> 0 <= n < 16 -> n <> 2 -> line_ready n s ->
  let s1 := raise_irq_pins pic_service n s in
  intr s1 = true /\ fst (IAC s1) = line_vector n s.
Proof.
  intros Id Hn H2 Hr. cbv zeta. unfold line_vector. destruct (Z.ltb_spec n 8).
  - destruct (raise_master n s Id ltac:(lia) Hr) as [-> Hu].
    rewrite IAC_direct; [split; reflexivity | exact Hu | exact H2].
  - destruct (raise_slave n s Id ltac:(lia) Hr) as (-> & Hu & Hu2).
    rewrite IAC_cascade; [split; reflexivity | exact Hu2 | reflexivity | exact Hu].
Qed.

Lemma interrupt_delivery_witness :
  let s := write 0xA1 0x00 (write 0x21 0x00 pic_c_init) in
  intr (raise_irq_pins pic_service 14 s) = true /\
  fst (IAC (raise_irq_pins pic_service 14 s)) = 0x76.
Proof.
  apply (interrupt_delivery 14 (write 0xA1 0x00 (write 0x21 0x00 pic_c_init))).
  - split; try reflexivity. do 2 apply write_inv. apply init_inv.
  - lia.
  - lia.
  - repeat split; reflexivity.
Defined.

(** ** Initialization *)

(** The standard initialization sequence of the guest (ICW1 to ICW4, cascade,
    edge triggered, 8086 mode, normal EOI) leaves the controller with the
    requested vector base, every register cleared, nothing signalled and no
    panic, whatever its state was. *)
Theorem icw_sequence p base s :
  pic_inv s ->
  let cmd := match p with Master => 0x20 | Slave => 0xA0 end in
  let icw3 := match p with Master => 0x04 | Slave => 0x02 end in
  let s' := write (cmd + 1) 0x01 (write (cmd + 1) icw3 (write (cmd + 1) base (write cmd 0x11 s))) in
  let c := deref p s' in
  panics s' = panics s /\ in_init (init c) = false /\
  interrupt_offset c = Z.land base 0xf8 /\
  imr c = 0 /\ isr c = 0 /\ irr c = 0 /\ INT c = false /\ auto_eoi c = 0 /\
  lowest_priority c = 7 /\ (p = Master -> intr s' = false) /\
  deref (match p with Master => Slave | Slave => Master end) s' =
  match p with
  | Master => slave_pic s
  | Slave => (master_pic s) <| IRQ_in := clear_bit (IRQ_in (master_pic s)) 2 |>
  end.
Proof.
  intros I. pose proof (wf_master _ _ (inv_master s I)) as Hm.
  pose proof (wf_master _ _ (inv_slave s I)) as Hs.
  destruct s as [[] [] ? ?]. cbn in Hm, Hs. subst.
  destruct p; vm_compute; repeat split; auto; discriminate.
Qed.

Lemma icw_sequence_witness :
  let s' := write (0x20 + 1) 0x01 (write (0x20 + 1) 0x04
              (write (0x20 + 1) 0x20 (write 0x20 0x11 pic_c_init))) in
  interrupt_offset (deref Master s') = Z.land 0x20 0xf8.
Proof.
  pose proof (icw_sequence Master 0x20 pic_c_init init_inv) as H. cbv zeta in *.
  destruct H as (_ & _ & H & _). exact H.
Defined.

Lemma eoi_clears_highest_witness :
  exists i, isr (master_pic (write_ocw2 Master 0x20 0x20
    (pic_c_init <| master_pic := (master_pic pic_c_init) <| isr := 0x88 |> |>))) = clear_bit 0x88 i.
Proof.
  destruct (eoi_clears_highest Master 0x20
    (pic_c_init <| master_pic := (master_pic pic_c_init) <| isr := 0x88 |> |>)) as (i & _ & _ & _ & H).
  - split; try reflexivity; [|apply init_inv].
    split; cbn; unfold fits; lia || reflexivity.
  - discriminate.
  - exists i. exact H.
Defined.

(** ** Two behaviours of the acknowledge the hardware does not have *)

Definition run (ops : list pic_op) : bx_pic_c * unit :=
  fold_left (fun w op => exec op w) ops (pic_c_init, tt).

Lemma run_reachable ops :
  Forall op_ok ops -> pic_reachable tt (run ops).
Proof.
  unfold run. generalize (reach_init (B := unit) tt). generalize (pic_c_init, tt).
  induction ops as [|op ops IH]; intros w Hw Hops; [exact Hw|].
  inversion Hops; subst. apply IH; [apply reach_step|]; assumption.
Qed.

(** [IAC] answers for the line latched when INT was raised, and does not look
    at the requests again: from a reachable state in which line 5 is masked and
    line 6 is the only request, the CPU receives the vector of line 5, and its
    in-service bit is set. *)
Theorem IAC_acknowledges_masked_line :
  exists w, pic_reachable tt w /\
    (forall i, 0 <= i < 8 -> requested (master_pic (fst w)) i = (i =? 6)) /\
    fst (IAC (fst w)) = u8 (5 + interrupt_offset (master_pic (fst w))) /\
    Z.testbit (isr (master_pic (snd (IAC (fst w))))) 5 = true.
Proof.
  exists (run [OpWrite 0x21 0x00; OpRaise 5; OpRaise 6; OpWrite 0x21 0x20]).
  split; [apply run_reachable; repeat constructor; cbn; lia|].
  split; [|split; vm_compute; reflexivity].
  intros i Hi. assert (i = 0 \/ i = 1 \/ i = 2 \/ i = 3 \/ i = 4 \/ i = 5 \/ i = 6 \/ i = 7) by lia.
  intuition (subst; vm_compute; reflexivity).
Qed.

(** When the slave's request has vanished, [IAC] returns the spurious vector of
    the slave without servicing the master: from a reachable state with line 1
    of the master pending, the acknowledge leaves line 1 eligible and INTR low. *)
Theorem IAC_strands_master_request :
  exists w, pic_reachable tt w /\ pic_served (fst w) /\
    fst (IAC (fst w)) = 0x77 /\
    eligible (master_pic (snd (IAC (fst w)))) 1 /\ intr (snd (IAC (fst w))) = false.
Proof.
  exists (run [OpWrite 0x21 0x00; OpWrite 0xA1 0x00; OpRaise 9; OpRaise 1; OpLower 9]).
  split; [apply run_reachable; repeat constructor; cbn; lia|].
  split; [split; intros H; vm_compute in H; discriminate|].
  split; [vm_compute; reflexivity|]. split; [|vm_compute; reflexivity].
  apply eligibleb_spec. vm_compute. reflexivity.
Qed.
