(* ===== verification/LazyFlags.v ===== *)
(** * Lazy arithmetic flags (cpu/lazy_flags.h, cpu/flag_ctrl_pro.cc)

    The CPU does not keep OF, SF, ZF, AF, PF and CF: an arithmetic instruction
    stores its sign-extended result and a vector of carries, and each flag is
    computed from them when it is read.  [lazy_flags] is the abstraction: the
    six flags an entry stands for. *)

From Stdlib Require Import ZArith Lia List Bool.
From S2P Require Import Prelude.
Import ListNotations.
Open Scope Z_scope.

Definition BX_LF_SIGN_BIT := 63.

Definition LF_BIT_SD := 0.
Definition LF_BIT_AF := 3.
Definition LF_BIT_PDB := 8.
Definition LF_BIT_CF := 31.
Definition LF_BIT_PO := 30.

Definition LF_MASK_SD := Z.shiftl 0x01 LF_BIT_SD.
Definition LF_MASK_AF := Z.shiftl 0x01 LF_BIT_AF.
Definition LF_MASK_PDB := Z.shiftl 0xFF LF_BIT_PDB.
Definition LF_MASK_CF := Z.shiftl 0x01 LF_BIT_CF.
Definition LF_MASK_PO := Z.shiftl 0x01 LF_BIT_PO.

(** [~mask] of a 32-bit constant: the complement is zero-extended when it meets
    a 64-bit operand. *)
Definition not32 (m : Z) : Z := u32 (Z.lnot m).

(** ** State: [struct bx_lazyflags_entry], two 64-bit [bx_address] fields *)
Record bx_lazyflags_entry := LazyFlags {
  result : Z;
  auxbits : Z;
}.

#[export] Instance bx_lazyflags_eta : Eta bx_lazyflags_entry := fun r =>
  LazyFlags (result r) (auxbits r).

(** ** Carry vectors *)

Definition ADD_COUT_VEC (op1 op2 result : Z) : Z :=
  Z.lor (Z.land op1 op2) (Z.land (Z.lor op1 op2) (Z.lnot result)).

Definition SUB_COUT_VEC (op1 op2 result : Z) : Z :=
  Z.lor (Z.land (Z.lnot op1) op2) (Z.land (Z.lxor (Z.lnot op1) op2) result).

(** ** Setting the flags from a result *)

(** The auxiliary bits of a carry vector, by operand size. *)
Definition lf_temp (size lf_carries : Z) : Z :=
  let temp := Z.lor (Z.land lf_carries LF_MASK_AF)
                    (Z.shiftl (Z.shiftr lf_carries (size - 2)) LF_BIT_PO) in
  let temp := if size =? 32
              then Z.land lf_carries (not32 (Z.lor LF_MASK_PDB LF_MASK_SD)) else temp in
  let temp := if size =? 16
              then Z.lor (Z.land lf_carries LF_MASK_AF) (Z.shiftl lf_carries 16) else temp in
  if size =? 8
  then Z.lor (Z.land lf_carries LF_MASK_AF) (Z.shiftl lf_carries 24) else temp.

Definition SET_FLAGS_OSZAPC_SIZE (size lf_carries lf_result : Z) : bx_lazyflags_entry := {|
  result := sext size lf_result;
  auxbits := u32 (lf_temp size lf_carries);
|}.

Definition SET_FLAGS_OSZAP_SIZE (size lf_carries lf_result : Z)
    (e : bx_lazyflags_entry) : bx_lazyflags_entry :=
  let temp := lf_temp size lf_carries in
  let delta_c := Z.land (Z.lxor (auxbits e) temp) LF_MASK_CF in
  let delta_c := Z.lxor delta_c (Z.shiftr delta_c 1) in
  {| result := sext size lf_result;
     auxbits := u32 (Z.lxor temp delta_c) |}.

(** [SET_FLAGS_OSZAPC_ADD_8], [_16], [_32] and [_64] are the instances of the
    size argument, and so on. *)
Definition SET_FLAGS_OSZAPC_LOGIC (size res : Z) : bx_lazyflags_entry :=
  SET_FLAGS_OSZAPC_SIZE size 0 res.

Definition SET_FLAGS_OSZAPC_ADD (size op1 op2 sum : Z) : bx_lazyflags_entry :=
  SET_FLAGS_OSZAPC_SIZE size (ADD_COUT_VEC op1 op2 sum) sum.

Definition SET_FLAGS_OSZAPC_SUB (size op1 op2 diff : Z) : bx_lazyflags_entry :=
  SET_FLAGS_OSZAPC_SIZE size (SUB_COUT_VEC op1 op2 diff) diff.

Definition SET_FLAGS_OSZAP_ADD (size op1 op2 sum : Z) :=
  SET_FLAGS_OSZAP_SIZE size (ADD_COUT_VEC op1 op2 sum) sum.

Definition SET_FLAGS_OSZAP_SUB (size op1 op2 diff : Z) :=
  SET_FLAGS_OSZAP_SIZE size (SUB_COUT_VEC op1 op2 diff) diff.

(** ** Reading and setting single flags *)

Definition getB_OF (e : bx_lazyflags_entry) : Z :=
  Z.land (Z.shiftr (u64 (auxbits e + Z.shiftl 1 LF_BIT_PO)) LF_BIT_CF) 1.

Definition get_OF (e : bx_lazyflags_entry) : Z :=
  Z.land (u64 (auxbits e + Z.shiftl 1 LF_BIT_PO)) (Z.shiftl 1 LF_BIT_CF).

Definition getB_SF (e : bx_lazyflags_entry) : Z :=
  Z.land (Z.lxor (Z.shiftr (result e) BX_LF_SIGN_BIT) (Z.shiftr (auxbits e) LF_BIT_SD)) 1.

Definition get_SF := getB_SF.

Definition getB_ZF (e : bx_lazyflags_entry) : Z := Z.b2z (0 =? result e).

Definition get_ZF := getB_ZF.

Definition getB_AF (e : bx_lazyflags_entry) : Z :=
  Z.land (Z.shiftr (auxbits e) LF_BIT_AF) 1.

Definition get_AF (e : bx_lazyflags_entry) : Z := Z.land (auxbits e) LF_MASK_AF.

Definition getB_PF (e : bx_lazyflags_entry) : Z :=
  let temp := Z.land 255 (result e) in
  let temp := Z.lxor temp (Z.land 255 (Z.shiftr (auxbits e) LF_BIT_PDB)) in
  let temp := Z.land (Z.lxor temp (Z.shiftr temp 4)) 0x0F in
  Z.land (Z.shiftr 0x9669 temp) 1.

Definition get_PF := getB_PF.

Definition getB_CF (e : bx_lazyflags_entry) : Z :=
  Z.land (Z.shiftr (auxbits e) LF_BIT_CF) 1.

Definition get_CF (e : bx_lazyflags_entry) : Z := Z.land (auxbits e) LF_MASK_CF.

(** A flag stored in a C++ [bool]. *)
Definition to_bool (x : Z) : bool := negb (x =? 0).

Definition set_flags_OxxxxC (new_of new_cf : Z) (e : bx_lazyflags_entry) : bx_lazyflags_entry :=
  let temp_po := Z.lxor new_of new_cf in
  let a := Z.land (auxbits e) (not32 (Z.lor LF_MASK_PO LF_MASK_CF)) in
  e <| auxbits := Z.lor a (Z.lor (u32 (Z.shiftl temp_po LF_BIT_PO))
                                 (u32 (Z.shiftl new_cf LF_BIT_CF))) |>.

Definition assert_flags_OxxxxC := set_flags_OxxxxC 1 1.

Definition set_OF (val : bool) (e : bx_lazyflags_entry) : bx_lazyflags_entry :=
  set_flags_OxxxxC (Z.b2z val) (Z.b2z (to_bool (getB_CF e))) e.
Definition clear_OF (e : bx_lazyflags_entry) : bx_lazyflags_entry :=
  set_flags_OxxxxC 0 (Z.b2z (to_bool (getB_CF e))) e.
Definition assert_OF (e : bx_lazyflags_entry) : bx_lazyflags_entry :=
  set_flags_OxxxxC 1 (getB_CF e) e.

Definition set_SF (val : bool) (e : bx_lazyflags_entry) : bx_lazyflags_entry :=
  let temp_sf := to_bool (getB_SF e) in
  e <| auxbits := Z.lxor (auxbits e)
         (Z.shiftl (Z.lxor (Z.b2z temp_sf) (Z.b2z val)) LF_BIT_SD) |>.
Definition clear_SF := set_SF false.
Definition assert_SF := set_SF true.

Definition clear_ZF (e : bx_lazyflags_entry) : bx_lazyflags_entry :=
  e <| result := Z.lor (result e) (Z.shiftl 1 8) |>.

Definition assert_ZF (e : bx_lazyflags_entry) : bx_lazyflags_entry :=
  let e := e <| auxbits := Z.lxor (auxbits e)
      (Z.shiftl (Z.land (Z.shiftr (result e) BX_LF_SIGN_BIT) 1) LF_BIT_SD) |> in
  let temp_pdb := Z.land 255 (result e) in
  let e := e <| auxbits := Z.lxor (auxbits e) (u32 (Z.shiftl temp_pdb LF_BIT_PDB)) |> in
  e <| result := 0 |>.

Definition set_ZF (val : bool) (e : bx_lazyflags_entry) : bx_lazyflags_entry :=
  if val then assert_ZF e else clear_ZF e.

Definition clear_AF (e : bx_lazyflags_entry) : bx_lazyflags_entry :=
  e <| auxbits := Z.land (auxbits e) (not32 LF_MASK_AF) |>.
Definition assert_AF (e : bx_lazyflags_entry) : bx_lazyflags_entry :=
  e <| auxbits := Z.lor (auxbits e) LF_MASK_AF |>.
Definition set_AF (val : bool) (e : bx_lazyflags_entry) : bx_lazyflags_entry :=
  let e := e <| auxbits := Z.land (auxbits e) (not32 LF_MASK_AF) |> in
  e <| auxbits := Z.lor (auxbits e) (Z.shiftl (Z.b2z val) LF_BIT_AF) |>.

Definition set_PF (val : bool) (e : bx_lazyflags_entry) : bx_lazyflags_entry :=
  let temp_pdb := Z.lxor (Z.land 255 (result e)) (Z.b2z (negb val)) in
  let e := e <| auxbits := Z.land (auxbits e) (not32 LF_MASK_PDB) |> in
  e <| auxbits := Z.lor (auxbits e) (u32 (Z.shiftl temp_pdb LF_BIT_PDB)) |>.
Definition clear_PF := set_PF false.
Definition assert_PF := set_PF true.

Definition set_CF (val : bool) (e : bx_lazyflags_entry) : bx_lazyflags_entry :=
  set_flags_OxxxxC (Z.b2z (to_bool (getB_OF e))) (Z.b2z val) e.
Definition clear_CF (e : bx_lazyflags_entry) : bx_lazyflags_entry :=
  set_flags_OxxxxC (Z.b2z (to_bool (getB_OF e))) 0 e.
Definition assert_CF (e : bx_lazyflags_entry) : bx_lazyflags_entry :=
  set_flags_OxxxxC (Z.b2z (to_bool (getB_OF e))) 1 e.

(** [SET_FLAGS_OSZAxC_LOGIC_SIZE]: a logic result that keeps PF. *)
Definition SET_FLAGS_OSZAxC_LOGIC (size lf_result : Z) (e : bx_lazyflags_entry) :=
  let saved_PF := to_bool (getB_PF e) in
  set_PF saved_PF (SET_FLAGS_OSZAPC_SIZE size 0 lf_result).

(** ** The EFLAGS image *)

Definition EFlagsCFMask := Z.shiftl 1 0.
Definition EFlagsPFMask := Z.shiftl 1 2.
Definition EFlagsAFMask := Z.shiftl 1 4.
Definition EFlagsZFMask := Z.shiftl 1 6.
Definition EFlagsSFMask := Z.shiftl 1 7.
Definition EFlagsOFMask := Z.shiftl 1 11.

Definition EFlagsOSZAPCMask :=
  Z.lor (Z.lor (Z.lor (Z.lor (Z.lor EFlagsCFMask EFlagsPFMask) EFlagsAFMask)
    EFlagsZFMask) EFlagsSFMask) EFlagsOFMask.

Definition setEFlagsOSZAPC (flags32 : Z) (e : bx_lazyflags_entry) : bx_lazyflags_entry :=
  let e := set_OF (to_bool (Z.land 1 (Z.shiftr flags32 11))) e in
  let e := set_SF (to_bool (Z.land 1 (Z.shiftr flags32 7))) e in
  let e := set_ZF (to_bool (Z.land 1 (Z.shiftr flags32 6))) e in
  let e := set_AF (to_bool (Z.land 1 (Z.shiftr flags32 4))) e in
  let e := set_PF (to_bool (Z.land 1 (Z.shiftr flags32 2))) e in
  set_CF (to_bool (Z.land 1 (Z.shiftr flags32 0))) e.

Definition clearEFlagsOSZAPC : bx_lazyflags_entry := SET_FLAGS_OSZAPC_LOGIC 32 1.

(** [force_flags]: the new value of the [eflags] register. *)
Definition force_flags (eflags : Z) (e : bx_lazyflags_entry) : Z :=
  let newflags := getB_CF e in
  let newflags := Z.lor newflags (Z.shiftl (getB_PF e) 2) in
  let newflags := Z.lor newflags (Z.shiftl (getB_AF e) 4) in
  let newflags := Z.lor newflags (Z.shiftl (getB_ZF e) 6) in
  let newflags := Z.lor newflags (Z.shiftl (getB_SF e) 7) in
  let newflags := Z.lor newflags (Z.shiftl (getB_OF e) 11) in
  Z.lor (Z.land eflags (not32 EFlagsOSZAPCMask)) (Z.land newflags EFlagsOSZAPCMask).

(** ** The six flags an entry stands for *)

Record flags := Flags {
  OF : bool; SF : bool; ZF : bool; AF : bool; PF : bool; CF : bool;
}.

#[export] Instance flags_eta : Eta flags := fun r =>
  Flags (OF r) (SF r) (ZF r) (AF r) (PF r) (CF r).

Definition lazy_flags (e : bx_lazyflags_entry) : flags := {|
  OF := to_bool (getB_OF e);
  SF := to_bool (getB_SF e);
  ZF := to_bool (getB_ZF e);
  AF := to_bool (getB_AF e);
  PF := to_bool (getB_PF e);
  CF := to_bool (getB_CF e);
|}.

(** The result is a [bx_address], and only the low half of the auxiliary word
    is ever used. *)
Definition lf_ok (e : bx_lazyflags_entry) : Prop :=
  fits 64 (result e) /\ fits 32 (auxbits e).

(** Parity of the low byte: [parity8 x] is the exclusive or of its bits. *)
Definition parity8 (x : Z) : bool :=
  fold_right xorb false (map (Z.testbit x) (zrange 8)).

Lemma to_bool_b2z b : to_bool (Z.b2z b) = b.
Proof. destruct b; reflexivity. Qed.

Lemma land_1_b2z x : Z.land x 1 = Z.b2z (Z.testbit x 0).
Proof. rewrite <- (shiftr_land_1 x 0) by lia. rewrite Z.shiftr_0_r. reflexivity. Qed.

Lemma parity8_lxor x y : parity8 (Z.lxor x y) = xorb (parity8 x) (parity8 y).
Proof.
  unfold parity8. induction (zrange 8) as [|i l IH]; simpl; [reflexivity|].
  rewrite IH, Z.lxor_spec. set (a := fold_right _ _ _). set (b := fold_right _ _ (map (Z.testbit y) l)).
  destruct (Z.testbit x i), (Z.testbit y i), a, b; reflexivity.
Qed.

Lemma parity8_ext x y :
  (forall i, 0 <= i < 8 -> Z.testbit x i = Z.testbit y i) -> parity8 x = parity8 y.
Proof.
  intros H. unfold parity8. f_equal. apply map_ext_in.
  intros i Hi. apply H. apply zrange_in in Hi. lia.
Qed.

Lemma land_255_bit x i : 0 <= i -> Z.testbit (Z.land 255 x) i = (i <? 8) && Z.testbit x i.
Proof.
  intros Hi. rewrite Z.land_spec. change 255 with (Z.ones 8).
  rewrite Z.testbit_ones_nonneg by lia. reflexivity.
Qed.

Lemma parity8_land x : parity8 (Z.land 255 x) = parity8 x.
Proof.
  apply parity8_ext. intros i Hi. rewrite land_255_bit by lia.
  destruct (Z.ltb_spec i 8); [reflexivity | lia].
Qed.

Lemma parity_table t :
  0 <= t < 256 ->
  Z.land (Z.shiftr 0x9669 (Z.land (Z.lxor t (Z.shiftr t 4)) 0x0F)) 1 =
  Z.b2z (negb (parity8 t)).
Proof.
  intros Ht. apply Z.eqb_eq. revert t Ht. apply (zrange_forall 256).
  vm_compute. reflexivity.
Qed.

(** Each getter as a test of bits. *)
Lemma getB_CF_bit e : getB_CF e = Z.b2z (Z.testbit (auxbits e) 31).
Proof. apply shiftr_land_1. unfold LF_BIT_CF. lia. Qed.

Lemma getB_AF_bit e : getB_AF e = Z.b2z (Z.testbit (auxbits e) 3).
Proof. apply shiftr_land_1. unfold LF_BIT_AF. lia. Qed.

Lemma getB_SF_bit e :
  getB_SF e = Z.b2z (xorb (Z.testbit (result e) 63) (Z.testbit (auxbits e) 0)).
Proof.
  unfold getB_SF, LF_BIT_SD, BX_LF_SIGN_BIT. rewrite land_1_b2z, Z.lxor_spec.
  rewrite !Z.shiftr_spec by lia. reflexivity.
Qed.

Lemma getB_PF_bit e :
  getB_PF e = Z.b2z (negb (xorb (parity8 (result e)) (parity8 (Z.shiftr (auxbits e) 8)))).
Proof.
  unfold getB_PF, LF_BIT_PDB. rewrite parity_table.
  - rewrite parity8_lxor, !parity8_land. reflexivity.
  - assert (F : fits 8 255) by (split; [discriminate | reflexivity]).
    apply (fits_lxor 8 _ _); try (apply (fits_land_l 8 255 _); [discriminate | exact F]).
    discriminate.
Qed.

Lemma testbit_div x n : 0 <= n -> Z.b2z (Z.testbit x n) = (x / 2 ^ n) mod 2.
Proof. intros. apply Z.testbit_spec'. lia. Qed.

Lemma getB_OF_bit e :
  lf_ok e ->
  getB_OF e = Z.b2z (xorb (Z.testbit (auxbits e) 31) (Z.testbit (auxbits e) 30)).
Proof.
  intros [_ Ha]. unfold getB_OF, LF_BIT_PO, LF_BIT_CF.
  rewrite shiftr_land_1 by lia. f_equal.
  change (Z.shiftl 1 30) with (2 ^ 30). unfold fits in Ha.
  rewrite wrap_id by (unfold fits; lia).
  set (a := auxbits e) in *.
  assert (E1 : Z.testbit a 31 = (2 ^ 31 <=? a)).
  { change 31 with (32 - 1) at 1. rewrite testbit_top, wrap_id by (unfold fits; lia). reflexivity. }
  assert (E2 : Z.testbit a 30 = (2 ^ 30 <=? a mod 2 ^ 31)) by (apply (testbit_top 31); lia).
  assert (E3 : Z.testbit (a + 2 ^ 30) 31 = (2 ^ 31 <=? (a + 2 ^ 30) mod 2 ^ 32))
    by (apply (testbit_top 32); lia).
  rewrite E1, E2, E3. clear E1 E2 E3.
  pose proof (Z.div_mod a (2 ^ 31) ltac:(lia)). pose proof (Z.mod_pos_bound a (2 ^ 31) ltac:(lia)).
  pose proof (Z.div_mod (a + 2 ^ 30) (2 ^ 32) ltac:(lia)).
  pose proof (Z.mod_pos_bound (a + 2 ^ 30) (2 ^ 32) ltac:(lia)).
  set (q := a / 2 ^ 31) in *. set (r := a mod 2 ^ 31) in *.
  set (q' := (a + 2 ^ 30) / 2 ^ 32) in *. set (r' := (a + 2 ^ 30) mod 2 ^ 32) in *.
  clearbody q r q' r'.
  destruct (Z.leb_spec (2 ^ 31) a), (Z.leb_spec (2 ^ 30) r), (Z.leb_spec (2 ^ 31) r'); simpl; lia.
Qed.

(** ** Setters: each changes its own flag and no other *)

Inductive flag_name := F_OF | F_SF | F_ZF | F_AF | F_PF | F_CF.

Definition set_flag (f : flag_name) (v : bool) : bx_lazyflags_entry -> bx_lazyflags_entry :=
  match f with
  | F_OF => set_OF v | F_SF => set_SF v | F_ZF => set_ZF v
  | F_AF => set_AF v | F_PF => set_PF v | F_CF => set_CF v
  end.

Definition clear_flag (f : flag_name) : bx_lazyflags_entry -> bx_lazyflags_entry :=
  match f with
  | F_OF => clear_OF | F_SF => clear_SF | F_ZF => clear_ZF
  | F_AF => clear_AF | F_PF => clear_PF | F_CF => clear_CF
  end.

Definition assert_flag (f : flag_name) : bx_lazyflags_entry -> bx_lazyflags_entry :=
  match f with
  | F_OF => assert_OF | F_SF => assert_SF | F_ZF => assert_ZF
  | F_AF => assert_AF | F_PF => assert_PF | F_CF => assert_CF
  end.

Definition upd_flag (f : flag_name) (v : bool) (s : flags) : flags :=
  match f with
  | F_OF => s <| OF := v |> | F_SF => s <| SF := v |> | F_ZF => s <| ZF := v |>
  | F_AF => s <| AF := v |> | F_PF => s <| PF := v |> | F_CF => s <| CF := v |>
  end.

(** The flags of an entry as a function of its bits. *)
Definition entry_flags (e : bx_lazyflags_entry) : flags := {|
  OF := xorb (Z.testbit (auxbits e) 31) (Z.testbit (auxbits e) 30);
  SF := xorb (Z.testbit (result e) 63) (Z.testbit (auxbits e) 0);
  ZF := 0 =? result e;
  AF := Z.testbit (auxbits e) 3;
  PF := negb (xorb (parity8 (result e)) (parity8 (Z.shiftr (auxbits e) 8)));
  CF := Z.testbit (auxbits e) 31;
|}.

Lemma lazy_flags_bits e : lf_ok e -> lazy_flags e = entry_flags e.
Proof.
  intros H. unfold lazy_flags, entry_flags, getB_ZF.
  rewrite getB_OF_bit, getB_SF_bit, getB_AF_bit, getB_PF_bit, getB_CF_bit by assumption.
  rewrite !to_bool_b2z. reflexivity.
Qed.

(** Bits of the masked words. *)
Lemma not32_bit m i : 0 <= i -> Z.testbit (not32 m) i = (i <? 32) && negb (Z.testbit m i).
Proof. intros. unfold not32. rewrite wrap_bit, Z.lnot_spec by lia. reflexivity. Qed.

Lemma not32_fits m : fits 32 (not32 m).
Proof. apply wrap_fits; lia. Qed.

Lemma shiftl_b2z_bit b k i :
  0 <= k -> 0 <= i -> Z.testbit (Z.shiftl (Z.b2z b) k) i = (i =? k) && b.
Proof.
  intros. rewrite Z.shiftl_spec by lia. destruct (Z.eqb_spec i k) as [->|N].
  - rewrite Z.sub_diag. destruct b; reflexivity.
  - destruct (Z.lt_ge_cases i k); [rewrite Z.testbit_neg_r by lia; reflexivity|].
    destruct b; simpl Z.b2z; [|apply Z.testbit_0_l].
    change 1 with (2 ^ 0). rewrite Z.pow2_bits_false by lia. reflexivity.
Qed.

Lemma b2z_shiftl_fits b k n : 0 <= k < n -> fits n (Z.shiftl (Z.b2z b) k).
Proof.
  intros. rewrite Z.shiftl_mul_pow2 by lia. pose proof (fits_pow2 n k ltac:(lia)) as [? ?].
  destruct b; simpl Z.b2z; split; lia.
Qed.

Lemma land_not_bit x m i :
  0 <= i < 32 -> Z.testbit (Z.land x (not32 m)) i = Z.testbit x i && negb (Z.testbit m i).
Proof.
  intros. rewrite Z.land_spec, not32_bit by lia.
  destruct (Z.ltb_spec i 32); [reflexivity | lia].
Qed.

(** Bit masks at a concrete bit, and case analysis on the bit number. *)
Ltac const_bit := repeat match goal with
  | |- context [Z.testbit ?m ?i] => let b := eval vm_compute in (Z.testbit m i) in
      match b with true => idtac | false => idtac end; change (Z.testbit m i) with b
  end.

Lemma OxxxxC_bits o c e i :
  0 <= i < 32 ->
  Z.testbit (auxbits (set_flags_OxxxxC (Z.b2z o) (Z.b2z c) e)) i =
  if i =? 31 then c else if i =? 30 then xorb o c else Z.testbit (auxbits e) i.
Proof.
  intros Hi. unfold set_flags_OxxxxC, set_field. cbn [auxbits].
  replace (Z.lxor (Z.b2z o) (Z.b2z c)) with (Z.b2z (xorb o c)) by (destruct o, c; reflexivity).
  unfold LF_MASK_PO, LF_MASK_CF, LF_BIT_PO, LF_BIT_CF.
  rewrite !wrap_id by (apply b2z_shiftl_fits; lia).
  rewrite !Z.lor_spec, !shiftl_b2z_bit, land_not_bit by lia.
  rewrite Z.lor_spec, !(bitmask_testbit) by lia.
  rewrite !(Z.eqb_sym _ i).
  destruct (Z.eqb_spec i 31), (Z.eqb_spec i 30); subst; simpl;
    rewrite ?andb_true_r, ?andb_false_r, ?orb_false_r; simpl; auto; discriminate.
Qed.

Lemma OxxxxC_ok o c e : lf_ok e -> lf_ok (set_flags_OxxxxC o c e).
Proof.
  intros [H1 H2]. split; [exact H1|]. unfold set_flags_OxxxxC, set_field. cbn [auxbits].
  apply fits_lor; [lia| apply fits_land_l; [lia | exact H2] |].
  apply fits_lor; [lia| |]; apply wrap_fits; lia.
Qed.

Lemma parity8_pdb_ext a b :
  (forall i, 8 <= i < 16 -> Z.testbit a i = Z.testbit b i) ->
  parity8 (Z.shiftr a 8) = parity8 (Z.shiftr b 8).
Proof.
  intros H. apply parity8_ext. intros i Hi. rewrite !Z.shiftr_spec by lia.
  apply H. lia.
Qed.

Ltac flag_simpl := cbn [OF SF ZF AF PF CF auxbits result andb orb xorb negb].

Ltac eval_eqb := repeat match goal with
  | |- context [?a =? ?b] => Zcst a; Zcst b;
      let v := eval vm_compute in (a =? b) in change (a =? b) with v; cbv iota
  | |- context [?a <? ?b] => Zcst a; Zcst b;
      let v := eval vm_compute in (a <? b) in change (a <? b) with v; cbv iota
  end.

Lemma OxxxxC_flags o c e :
  entry_flags (set_flags_OxxxxC (Z.b2z o) (Z.b2z c) e) =
  (entry_flags e) <| OF := o |> <| CF := c |>.
Proof.
  unfold entry_flags. rewrite !OxxxxC_bits by lia. eval_eqb.
  unfold set_field. flag_simpl. f_equal.
  - destruct o, c; reflexivity.
  - f_equal. f_equal. apply parity8_pdb_ext. intros i Hi.
    pose proof (OxxxxC_bits o c e i ltac:(lia)) as Hb.
    destruct (Z.eqb_spec i 31), (Z.eqb_spec i 30); try lia; exact Hb.
Qed.

Lemma set_SF_flags v e :
  lf_ok e -> entry_flags (set_SF v e) = (entry_flags e) <| SF := v |>.
Proof.
  intros He. unfold set_SF. rewrite getB_SF_bit, to_bool_b2z.
  set (s := xorb _ _). unfold LF_BIT_SD.
  replace (Z.lxor (Z.b2z s) (Z.b2z v)) with (Z.b2z (xorb s v)) by (destruct s, v; reflexivity).
  unfold entry_flags, set_field. cbn [auxbits result].
  rewrite !Z.lxor_spec, !shiftl_b2z_bit by lia. eval_eqb. flag_simpl.
  rewrite !xorb_false_r. f_equal.
  - subst s. destruct (Z.testbit (result e) 63), (Z.testbit (auxbits e) 0), v; reflexivity.
  - f_equal. f_equal. apply parity8_pdb_ext. intros i Hi.
    rewrite Z.lxor_spec, shiftl_b2z_bit by lia.
    destruct (Z.eqb_spec i 0); [lia | apply xorb_false_r].
Qed.

Lemma set_AF_flags v e : entry_flags (set_AF v e) = (entry_flags e) <| AF := v |>.
Proof.
  unfold set_AF, entry_flags, set_field. cbn [auxbits result]. unfold LF_MASK_AF, LF_BIT_AF.
  rewrite !Z.lor_spec, !shiftl_b2z_bit, !land_not_bit by lia. const_bit. eval_eqb. flag_simpl.
  rewrite !andb_true_r, !orb_false_r, !andb_false_r. flag_simpl. f_equal. f_equal. f_equal.
  apply parity8_pdb_ext. intros i Hi.
  rewrite Z.lor_spec, shiftl_b2z_bit, land_not_bit by lia.
  change (Z.shiftl 1 3) with (bitmask 3). rewrite bitmask_testbit by lia.
  destruct (Z.eqb_spec i 3), (Z.eqb_spec 3 i); try lia. flag_simpl.
  rewrite andb_true_r, orb_false_r. reflexivity.
Qed.

Lemma pdb_shift_bit x i : 0 <= x < 256 -> 0 <= i ->
  Z.testbit (u32 (Z.shiftl x 8)) i = (8 <=? i) && (i <? 16) && Z.testbit x (i - 8).
Proof.
  intros Hx Hi. rewrite wrap_bit, Z.shiftl_spec by lia.
  destruct (Z.leb_spec 8 i) as [L|L]; flag_simpl.
  - destruct (Z.ltb_spec i 16), (Z.ltb_spec i 32); flag_simpl; try reflexivity; try lia.
    apply (fits_testbit 8); [lia | exact Hx | lia].
  - rewrite (Z.testbit_neg_r x) by lia. apply andb_false_r.
Qed.

Lemma land_255_range x : 0 <= Z.land 255 x < 256.
Proof. apply (fits_land_l 8 255 x); [lia|]. unfold fits. lia. Qed.

Lemma parity8_pdb x : parity8 (Z.shiftr (u32 (Z.shiftl (Z.land 255 x) 8)) 8) = parity8 x.
Proof.
  apply parity8_ext. intros i Hi.
  rewrite Z.shiftr_spec, pdb_shift_bit, land_255_bit by (apply land_255_range || lia).
  replace (i + 8 - 8) with i by lia.
  destruct (Z.leb_spec 8 (i + 8)), (Z.ltb_spec (i + 8) 16), (Z.ltb_spec i 8); try lia.
  reflexivity.
Qed.

Lemma shiftr_lxor_8 a b : Z.shiftr (Z.lxor a b) 8 = Z.lxor (Z.shiftr a 8) (Z.shiftr b 8).
Proof. apply Z.shiftr_lxor. Qed.

Lemma pf_pdb_range r v : 0 <= Z.lxor (Z.land 255 r) (Z.b2z v) < 256.
Proof.
  apply (fits_lxor 8 _ _); [lia | apply land_255_range |].
  unfold fits. destruct v; simpl; lia.
Qed.

Lemma set_PF_bit v e i :
  0 <= i < 32 ->
  Z.testbit (auxbits (set_PF v e)) i =
  if (8 <=? i) && (i <? 16)
  then xorb (Z.testbit (result e) (i - 8)) ((i =? 8) && negb v)
  else Z.testbit (auxbits e) i.
Proof.
  intros Hi. unfold set_PF, set_field, LF_MASK_PDB, LF_BIT_PDB. flag_simpl.
  rewrite Z.lor_spec, land_not_bit, pdb_shift_bit by (apply pf_pdb_range || lia).
  rewrite Z.shiftl_spec by lia. change 0xFF with (Z.ones 8).
  destruct (Z.leb_spec 8 i) as [L|L]; [|rewrite (Z.testbit_neg_r _ (i - 8)) by lia].
  2:{ flag_simpl. rewrite andb_true_r, orb_false_r. reflexivity. }
  rewrite Z.testbit_ones_nonneg by lia.
  destruct (Z.ltb_spec i 16) as [U|U], (Z.ltb_spec (i - 8) 8); try lia; flag_simpl;
    rewrite ?andb_true_r, ?andb_false_r, ?orb_false_r; [|reflexivity].
  rewrite Z.lxor_spec, land_255_bit by lia. destruct (Z.ltb_spec (i - 8) 8); [|lia].
  flag_simpl. f_equal.
  rewrite <- (Z.shiftl_0_r (Z.b2z (negb v))), shiftl_b2z_bit by lia.
  destruct (Z.eqb_spec (i - 8) 0), (Z.eqb_spec i 8); try lia; reflexivity.
Qed.

Lemma set_PF_flags v e : entry_flags (set_PF v e) = (entry_flags e) <| PF := v |>.
Proof.
  unfold entry_flags. rewrite !set_PF_bit by lia. eval_eqb. unfold set_field. flag_simpl.
  f_equal. replace (parity8 (Z.shiftr (auxbits (set_PF v e)) 8))
    with (xorb (parity8 (result e)) (negb v)).
  - change (result (set_PF v e)) with (result e). destruct (parity8 (result e)), v; reflexivity.
  - transitivity (xorb (parity8 (result e)) (parity8 (Z.b2z (negb v)))).
    { destruct v; reflexivity. }
    rewrite <- parity8_lxor. apply parity8_ext. intros i Hi.
    rewrite Z.shiftr_spec, set_PF_bit, Z.lxor_spec by lia.
    destruct (Z.leb_spec 8 (i + 8)), (Z.ltb_spec (i + 8) 16); try lia. flag_simpl.
    replace (i + 8 - 8) with i by lia. f_equal.
    rewrite <- (Z.shiftl_0_r (Z.b2z (negb v))), shiftl_b2z_bit by lia.
    destruct (Z.eqb_spec i 0), (Z.eqb_spec (i + 8) 8); try lia; reflexivity.
Qed.

Lemma lor_zero_l a b : 0 <= a -> 0 < b -> (0 =? Z.lor a b) = false.
Proof.
  intros Ha Hb. apply Z.eqb_neq. intros H. symmetry in H. apply Z.lor_eq_0_iff in H. lia.
Qed.

Lemma clear_ZF_flags e : lf_ok e -> entry_flags (clear_ZF e) = (entry_flags e) <| ZF := false |>.
Proof.
  intros [[H1 H1'] H2]. unfold clear_ZF, entry_flags, set_field. flag_simpl.
  rewrite lor_zero_l by (try exact H1; reflexivity).
  rewrite Z.lor_spec. const_bit. rewrite orb_false_r. f_equal. f_equal. f_equal.
  apply parity8_ext. intros i Hi. rewrite Z.lor_spec.
  change (Z.shiftl 1 8) with (bitmask 8). rewrite bitmask_testbit by lia.
  destruct (Z.eqb_spec 8 i); [lia | apply orb_false_r].
Qed.

Lemma assert_ZF_bit e i :
  0 <= i ->
  Z.testbit (auxbits (assert_ZF e)) i =
  xorb (xorb (Z.testbit (auxbits e) i) ((i =? 0) && Z.testbit (result e) 63))
       (Z.testbit (u32 (Z.shiftl (Z.land 255 (result e)) 8)) i).
Proof.
  intros Hi. unfold assert_ZF, set_field, LF_BIT_SD, LF_BIT_PDB, BX_LF_SIGN_BIT. flag_simpl.
  rewrite shiftr_land_1, !Z.lxor_spec, shiftl_b2z_bit by lia. reflexivity.
Qed.

Lemma assert_ZF_flags e : entry_flags (assert_ZF e) = (entry_flags e) <| ZF := true |>.
Proof.
  unfold entry_flags. rewrite !assert_ZF_bit by lia.
  rewrite !pdb_shift_bit by (apply land_255_range || lia). eval_eqb.
  unfold set_field. flag_simpl. change (result (assert_ZF e)) with 0.
  rewrite !xorb_false_r. f_equal.
  - change (Z.testbit 0 63) with false. rewrite xorb_false_l. apply xorb_comm.
  - change (parity8 0) with false. rewrite xorb_false_l. f_equal.
    rewrite <- (parity8_pdb (result e)), xorb_comm, <- parity8_lxor, <- shiftr_lxor_8.
    apply parity8_pdb_ext.
    intros i Hi. rewrite assert_ZF_bit, Z.lxor_spec by lia.
    destruct (Z.eqb_spec i 0); [lia|]. flag_simpl. rewrite xorb_false_r. reflexivity.
Qed.

Lemma set_SF_ok v e : lf_ok e -> lf_ok (set_SF v e).
Proof.
  intros [H1 H2]. split; [exact H1|]. unfold set_SF, set_field. flag_simpl.
  set (s := to_bool _).
  replace (Z.lxor (Z.b2z s) (Z.b2z v)) with (Z.b2z (xorb s v)) by (destruct s, v; reflexivity).
  apply fits_lxor; [lia | exact H2 | apply b2z_shiftl_fits; unfold LF_BIT_SD; lia].
Qed.

Lemma set_ZF_ok v e : lf_ok e -> lf_ok (set_ZF v e).
Proof.
  intros [H1 H2]. destruct v; unfold set_ZF, assert_ZF, clear_ZF, set_field; split; flag_simpl.
  - unfold fits. lia.
  - repeat apply fits_lxor; try lia; try exact H2; [|apply wrap_fits; lia].
    unfold BX_LF_SIGN_BIT. rewrite shiftr_land_1 by lia.
    apply b2z_shiftl_fits. unfold LF_BIT_SD. lia.
  - apply fits_lor; [lia | exact H1 | unfold fits; cbn; lia].
  - exact H2.
Qed.

Lemma set_AF_ok v e : lf_ok e -> lf_ok (set_AF v e).
Proof.
  intros [H1 H2]. split; [exact H1|]. unfold set_AF, set_field. flag_simpl.
  apply fits_lor; [lia | apply fits_land_l; [lia | exact H2] |].
  apply b2z_shiftl_fits. unfold LF_BIT_AF. lia.
Qed.

Lemma set_PF_ok v e : lf_ok e -> lf_ok (set_PF v e).
Proof.
  intros [H1 H2]. split; [exact H1|]. unfold set_PF, set_field. flag_simpl.
  apply fits_lor; [lia | apply fits_land_l; [lia | exact H2] | apply wrap_fits; lia].
Qed.

Lemma set_flag_ok f v e : lf_ok e -> lf_ok (set_flag f v e).
Proof.
  intros He. destruct f; cbn [set_flag]; unfold set_OF, set_CF;
    auto using OxxxxC_ok, set_SF_ok, set_ZF_ok, set_AF_ok, set_PF_ok.
Qed.

Lemma set_flag_flags f v e :
  lf_ok e -> lazy_flags (set_flag f v e) = upd_flag f v (lazy_flags e).
Proof.
  intros He. rewrite !lazy_flags_bits by auto using set_flag_ok.
  destruct f; cbn [set_flag upd_flag].
  - unfold set_OF. rewrite OxxxxC_flags, getB_CF_bit, to_bool_b2z. reflexivity.
  - apply set_SF_flags; assumption.
  - destruct v; [apply assert_ZF_flags | apply clear_ZF_flags; assumption].
  - apply set_AF_flags.
  - apply set_PF_flags.
  - unfold set_CF. rewrite OxxxxC_flags, getB_OF_bit, to_bool_b2z by assumption. reflexivity.
Qed.

Lemma b2z_to_bool_getB_CF e : Z.b2z (to_bool (getB_CF e)) = getB_CF e.
Proof. rewrite getB_CF_bit, to_bool_b2z. reflexivity. Qed.

Lemma clear_flag_set f e : lf_ok e -> clear_flag f e = set_flag f false e.
Proof.
  intros He. destruct f; try reflexivity. cbn [clear_flag set_flag].
  unfold set_AF, clear_AF, set_field. flag_simpl. change (Z.shiftl (Z.b2z false) LF_BIT_AF) with 0.
  rewrite Z.lor_0_r. reflexivity.
Qed.

Lemma assert_flag_set f e : lf_ok e -> assert_flag f e = set_flag f true e.
Proof.
  intros [H1 H2]. destruct f; try reflexivity.
  - cbn [assert_flag set_flag]. unfold assert_OF, set_OF. rewrite b2z_to_bool_getB_CF. reflexivity.
  - cbn [assert_flag set_flag]. unfold assert_AF, set_AF, set_field. flag_simpl. f_equal.
    unfold LF_MASK_AF, LF_BIT_AF. change (Z.shiftl (Z.b2z true) 3) with (Z.shiftl 1 3).
    apply Z.bits_inj'. intros i Hi. rewrite !Z.lor_spec.
    change (Z.shiftl 1 3) with (bitmask 3). rewrite bitmask_testbit by lia.
    destruct (Z.lt_ge_cases i 32) as [L|G].
    + rewrite land_not_bit, bitmask_testbit by lia.
      destruct (3 =? i); simpl; rewrite ?andb_true_r, ?orb_true_r, ?orb_false_r; reflexivity.
    + rewrite Z.land_spec, not32_bit, (fits_testbit 32 _ i) by (assumption || lia).
      reflexivity.
Qed.

(** Every setter, clear and assert of a lazy flag changes that flag to the
    given value and none of the five others, and keeps the entry well formed. *)
Theorem lazy_flag_update f v e :
  lf_ok e ->
  lf_ok (set_flag f v e) /\
  lazy_flags (set_flag f v e) = upd_flag f v (lazy_flags e) /\
  lazy_flags (clear_flag f e) = upd_flag f false (lazy_flags e) /\
  lazy_flags (assert_flag f e) = upd_flag f true (lazy_flags e).
Proof.
  intros He. rewrite clear_flag_set, assert_flag_set, !set_flag_flags by assumption.
  auto using set_flag_ok.
Qed.

Lemma lazy_flag_update_witness :
  let e := LazyFlags 0x80 0xC0000008 in
  lf_ok e /\ lazy_flags (set_ZF true e) = Flags false false true true false true.
Proof.
  assert (H : lf_ok (LazyFlags 0x80 0xC0000008)) by (unfold lf_ok, fits; cbn; lia).
  split; [exact H|].
  destruct (lazy_flag_update F_ZF true _ H) as (_ & E & _). exact E.
Defined.

(** ** The flags an instruction must produce *)

(** Operand sizes of the arithmetic instructions. *)
Definition osize (n : Z) : Prop := n = 8 \/ n = 16 \/ n = 32 \/ n = 64.

(** [v], an exact mathematical result, has no n-bit signed representation. *)
Definition signed_overflow (n v : Z) : bool := (v <? - 2 ^ (n - 1)) || (2 ^ (n - 1) <=? v).

Definition result_flags (n r : Z) (ov af cf : bool) : flags := {|
  OF := ov;
  SF := signed n r <? 0;
  ZF := wrap n r =? 0;
  AF := af;
  PF := negb (parity8 r);
  CF := cf;
|}.

(** [a + b + c] on n-bit operands with a carry [c]. *)
Definition add_flags (n a b c : Z) : flags :=
  result_flags n (a + b + c)
    (signed_overflow n (signed n a + signed n b + c))
    (16 <=? a mod 16 + b mod 16 + c)
    (2 ^ n <=? a + b + c).

(** [a - b - c] on n-bit operands with a borrow [c]. *)
Definition sub_flags (n a b c : Z) : flags :=
  result_flags n (a - b - c)
    (signed_overflow n (signed n a - signed n b - c))
    (a mod 16 <? b mod 16 + c)
    (a <? b + c).

(** ** Carry vectors are carries *)

Lemma mod_split a i :
  0 <= i -> a mod 2 ^ (i + 1) = a mod 2 ^ i + 2 ^ i * Z.b2z (Z.testbit a i).
Proof.
  intros Hi. rewrite Z.pow_add_r, Z.testbit_spec' by lia. change (2 ^ 1) with 2.
  rewrite Z.rem_mul_r by (try apply Z.pow_nonzero; lia). lia.
Qed.

(** Sum of the operands' low parts and the carry, one bit at a time. *)
Lemma testbit_add a b c i :
  0 <= i -> 0 <= c <= 1 ->
  Z.testbit (a + b + c) i =
  xorb (xorb (Z.testbit a i) (Z.testbit b i)) (2 ^ i <=? a mod 2 ^ i + b mod 2 ^ i + c).
Proof.
  intros Hi Hc. pose proof (mod_split a i Hi) as Ha. pose proof (mod_split b i Hi) as Hb.
  pose proof (Z.pow_pos_nonneg 2 i ltac:(lia) ltac:(lia)) as HM.
  assert (E : 2 ^ (i + 1) = 2 * 2 ^ i) by (rewrite Z.pow_add_r by lia; lia).
  pose proof (Z.mod_pos_bound a (2 ^ i) HM). pose proof (Z.mod_pos_bound b (2 ^ i) HM).
  replace i with (i + 1 - 1) at 1 by lia. rewrite testbit_top by lia.
  replace (i + 1 - 1) with i by lia. unfold wrap.
  pose proof (Z.div_mod a (2 ^ (i + 1)) ltac:(lia)) as Da.
  pose proof (Z.div_mod b (2 ^ (i + 1)) ltac:(lia)) as Db.
  rewrite Ha in Da. rewrite Hb in Db. rewrite E in *.
  set (M := 2 ^ i) in *. clearbody M.
  set (A := a mod M) in *. set (B := b mod M) in *. clearbody A B.
  set (qa := a / (2 * M)) in *. set (qb := b / (2 * M)) in *. clearbody qa qb.
  assert (Em : forall q r, 0 <= r < 2 * M -> (2 * M * q + r) mod (2 * M) = r).
  { intros q r Hr. symmetry. apply Z.mod_unique with q; lia. }
  destruct (Z.testbit a i), (Z.testbit b i), (Z.leb_spec M (A + B + c)); simpl Z.b2z in *; simpl xorb.
  - replace (a + b + c) with (2 * M * (qa + qb + 1) + (A + B + c)) by nia. rewrite Em by lia.
    apply Z.leb_le. lia.
  - replace (a + b + c) with (2 * M * (qa + qb + 1) + (A + B + c)) by nia. rewrite Em by lia.
    apply Z.leb_gt. lia.
  - replace (a + b + c) with (2 * M * (qa + qb + 1) + (A + B + c - M)) by nia. rewrite Em by lia.
    apply Z.leb_gt. lia.
  - replace (a + b + c) with (2 * M * (qa + qb) + (A + B + c + M)) by nia. rewrite Em by lia.
    apply Z.leb_le. lia.
  - replace (a + b + c) with (2 * M * (qa + qb + 1) + (A + B + c - M)) by nia. rewrite Em by lia.
    apply Z.leb_gt. lia.
  - replace (a + b + c) with (2 * M * (qa + qb) + (A + B + c + M)) by nia. rewrite Em by lia.
    apply Z.leb_le. lia.
  - replace (a + b + c) with (2 * M * (qa + qb) + (A + B + c)) by nia. rewrite Em by lia.
    apply Z.leb_le. lia.
  - replace (a + b + c) with (2 * M * (qa + qb) + (A + B + c)) by nia. rewrite Em by lia.
    apply Z.leb_gt. lia.
Qed.

Lemma ADD_COUT_VEC_bit a b c r i :
  0 <= i -> 0 <= c <= 1 -> Z.testbit r i = Z.testbit (a + b + c) i ->
  Z.testbit (ADD_COUT_VEC a b r) i =
  (2 ^ (i + 1) <=? a mod 2 ^ (i + 1) + b mod 2 ^ (i + 1) + c).
Proof.
  intros Hi Hc Hr. unfold ADD_COUT_VEC.
  rewrite Z.lor_spec, !Z.land_spec, Z.lor_spec, Z.lnot_spec, Hr, testbit_add by lia.
  rewrite !mod_split by lia. rewrite Z.pow_add_r by lia. change (2 ^ 1) with 2.
  pose proof (Z.pow_pos_nonneg 2 i ltac:(lia) ltac:(lia)) as HM.
  pose proof (Z.mod_pos_bound a (2 ^ i) HM). pose proof (Z.mod_pos_bound b (2 ^ i) HM).
  set (M := 2 ^ i) in *. clearbody M. set (A := a mod M) in *. set (B := b mod M) in *. clearbody A B.
  destruct (Z.testbit a i), (Z.testbit b i), (Z.leb_spec M (A + B + c)); simpl;
    symmetry; (apply Z.leb_le || apply Z.leb_gt); lia.
Qed.

(** A subtraction [a - b - c] is the addition [r + b + c = a]: the borrow out of
    bit [i] is the carry out of that addition. *)
Lemma SUB_COUT_VEC_bit a b c r i :
  0 <= i -> 0 <= c <= 1 -> Z.testbit r i = Z.testbit (a - b - c) i ->
  Z.testbit (SUB_COUT_VEC a b r) i = (a mod 2 ^ (i + 1) <? b mod 2 ^ (i + 1) + c).
Proof.
  intros Hi Hc Hr. unfold SUB_COUT_VEC.
  rewrite Z.lor_spec, !Z.land_spec, Z.lxor_spec, Z.lnot_spec, Hr by lia.
  set (d := a - b - c) in *. pose proof (testbit_add d b c i Hi Hc) as Ea.
  replace (d + b + c) with a in Ea by (unfold d; lia).
  assert (K : (2 ^ (i + 1) <=? d mod 2 ^ (i + 1) + b mod 2 ^ (i + 1) + c) =
              (a mod 2 ^ (i + 1) <? b mod 2 ^ (i + 1) + c)).
  { pose proof (Z.pow_pos_nonneg 2 (i + 1) ltac:(lia) ltac:(lia)) as HN.
    assert (Am : a mod 2 ^ (i + 1) = (d mod 2 ^ (i + 1) + b mod 2 ^ (i + 1) + c) mod 2 ^ (i + 1)).
    { rewrite <- Zplus_mod_idemp_l, <- Zplus_mod, Zplus_mod_idemp_l. f_equal. unfold d. lia. }
    rewrite Am. set (N := 2 ^ (i + 1)) in *.
    pose proof (Z.mod_pos_bound d N HN). pose proof (Z.mod_pos_bound b N HN).
    destruct (Z.leb_spec N (d mod N + b mod N + c)) as [L|L]; symmetry.
    - apply Z.ltb_lt.
      rewrite <- (Z.mod_unique (d mod N + b mod N + c) N 1 (d mod N + b mod N + c - N)) by lia.
      lia.
    - apply Z.ltb_ge. rewrite (Z.mod_small (_ + _ + c)) by lia. lia. }
  rewrite <- K. rewrite !mod_split by lia. rewrite Z.pow_add_r by lia. change (2 ^ 1) with 2.
  pose proof (Z.pow_pos_nonneg 2 i ltac:(lia) ltac:(lia)) as HM.
  pose proof (Z.mod_pos_bound d (2 ^ i) HM). pose proof (Z.mod_pos_bound b (2 ^ i) HM).
  set (M := 2 ^ i) in *. clearbody M. clear K.
  set (D := d mod M) in *. set (B := b mod M) in *. clearbody D B. rewrite Ea.
  destruct (Z.testbit d i), (Z.testbit b i), (Z.leb_spec M (D + B + c)); simpl;
    symmetry; (apply Z.leb_le || apply Z.leb_gt); lia.
Qed.

(** ** The entry built from a carry vector *)

Lemma lf_temp_bit n cv i :
  osize n -> 0 <= i < 32 -> (i = 31 \/ i = 30 \/ i = 3 \/ i = 0 \/ 8 <= i < 16) ->
  Z.testbit (u32 (lf_temp n cv)) i =
  if i =? 31 then Z.testbit cv (n - 1)
  else if i =? 30 then Z.testbit cv (n - 2)
  else if i =? 3 then Z.testbit cv 3 else false.
Proof.
  intros Hn Hi Hc. rewrite wrap_bit by lia.
  assert (HA : Z.testbit (Z.land cv LF_MASK_AF) i = (i =? 3) && Z.testbit cv i).
  { rewrite Z.land_spec. change LF_MASK_AF with (bitmask 3).
    rewrite bitmask_testbit, Z.eqb_sym by lia. apply andb_comm. }
  assert (HS : forall k, 0 <= k -> i < k \/ k <= i ->
    Z.testbit (Z.shiftl cv k) i = if i <? k then false else Z.testbit cv (i - k)).
  { intros k Hk _. rewrite Z.shiftl_spec by lia. destruct (Z.ltb_spec i k); [|reflexivity].
    apply Z.testbit_neg_r. lia. }
  assert (H32 : Z.testbit (Z.land cv (not32 (Z.lor LF_MASK_PDB LF_MASK_SD))) i =
    Z.testbit cv i && negb ((i =? 0) || ((8 <=? i) && (i <? 16)))).
  { rewrite land_not_bit, Z.lor_spec by lia. unfold LF_MASK_PDB, LF_BIT_PDB.
    change LF_MASK_SD with (bitmask 0). change 0xFF with (Z.ones 8).
    rewrite bitmask_testbit, Z.shiftl_spec, Z.eqb_sym, orb_comm by lia. f_equal. f_equal. f_equal.
    destruct (Z.leb_spec 8 i); [|apply Z.testbit_neg_r; lia].
    rewrite Z.testbit_ones_nonneg by lia.
    destruct (Z.ltb_spec (i - 8) 8), (Z.ltb_spec i 16); try lia; reflexivity. }
  assert (H64 : Z.testbit (Z.shiftl (Z.shiftr cv 62) 30) i =
    if i <? 30 then false else Z.testbit cv (i - 30 + 62)).
  { rewrite Z.shiftl_spec by lia. destruct (Z.ltb_spec i 30); [apply Z.testbit_neg_r; lia|].
    rewrite Z.shiftr_spec by lia. reflexivity. }
  destruct (Z.ltb_spec i 32); [|lia]. flag_simpl.
  destruct Hn as [-> | [-> | [-> | ->]]]; unfold lf_temp, LF_BIT_PO; eval_eqb.
  - rewrite Z.lor_spec, HA, HS by lia.
    destruct Hc as [-> | [-> | [-> | [-> | Hc]]]]; try (cbn; rewrite ?orb_false_r; reflexivity).
    destruct (Z.eqb_spec i 3), (Z.eqb_spec i 31), (Z.eqb_spec i 30), (Z.ltb_spec i 24); lia || reflexivity.
  - rewrite Z.lor_spec, HA, HS by lia.
    destruct Hc as [-> | [-> | [-> | [-> | Hc]]]]; try (cbn; rewrite ?orb_false_r; reflexivity).
    destruct (Z.eqb_spec i 3), (Z.eqb_spec i 31), (Z.eqb_spec i 30), (Z.ltb_spec i 16); lia || reflexivity.
  - rewrite H32.
    destruct Hc as [-> | [-> | [-> | [-> | Hc]]]]; eval_eqb; flag_simpl;
      rewrite ?andb_true_r, ?andb_false_r; try reflexivity.
    destruct (Z.eqb_spec i 3), (Z.eqb_spec i 31), (Z.eqb_spec i 30), (Z.eqb_spec i 0),
      (Z.leb_spec 8 i), (Z.ltb_spec i 16);
      lia || apply andb_false_r.
  - rewrite Z.lor_spec, HA. change (64 - 2) with 62. rewrite H64 by lia.
    destruct Hc as [-> | [-> | [-> | [-> | Hc]]]]; try (cbn; rewrite ?orb_false_r; reflexivity).
    destruct (Z.eqb_spec i 3), (Z.eqb_spec i 31), (Z.eqb_spec i 30), (Z.ltb_spec i 30); lia || reflexivity.
Qed.

Lemma osize_pos n : osize n -> 8 <= n <= 64.
Proof. unfold osize. lia. Qed.

Lemma SIZE_ok n cv r : lf_ok (SET_FLAGS_OSZAPC_SIZE n cv r).
Proof. split; [apply sext_fits | apply wrap_fits; lia]. Qed.

Lemma parity8_sext n r : 8 <= n <= 64 -> parity8 (sext n r) = parity8 r.
Proof.
  intros Hn. apply parity8_ext. intros i Hi. unfold sext. rewrite wrap_bit, signed_bit by lia.
  destruct (Z.ltb_spec i 64), (Z.ltb_spec i n); try lia. reflexivity.
Qed.

Lemma sext_zero n r : 8 <= n <= 64 -> (0 =? sext n r) = (wrap n r =? 0).
Proof.
  intros Hn. destruct (Z.eqb_spec (wrap n r) 0) as [E|E].
  - unfold sext, signed. rewrite E. assert (0 < 2 ^ (n - 1)) by (apply Z.pow_pos_nonneg; lia).
    destruct (Z.ltb_spec 0 (2 ^ (n - 1))); [reflexivity | lia].
  - apply Z.eqb_neq. intros H. apply E.
    rewrite <- (wrap_signed n r), <- (wrap_wrap_le n 64) by lia. fold (sext n r).
    rewrite <- H. reflexivity.
Qed.

Lemma sext_sign n r : 8 <= n <= 64 -> Z.testbit (sext n r) 63 = (signed n r <? 0).
Proof.
  intros Hn. unfold sext. rewrite wrap_bit, signed_bit, signed_neg by lia. eval_eqb. flag_simpl.
  f_equal. destruct (Z.ltb_spec 63 n); lia.
Qed.

Lemma pdb_zero a : (forall i, 8 <= i < 16 -> Z.testbit a i = false) ->
  parity8 (Z.shiftr a 8) = false.
Proof.
  intros H. rewrite (parity8_pdb_ext a 0); [reflexivity|].
  intros i Hi. rewrite H by lia. symmetry. apply Z.testbit_0_l.
Qed.

Lemma SIZE_flags n cv r :
  osize n ->
  lazy_flags (SET_FLAGS_OSZAPC_SIZE n cv r) =
  result_flags n r (xorb (Z.testbit cv (n - 1)) (Z.testbit cv (n - 2)))
    (Z.testbit cv 3) (Z.testbit cv (n - 1)).
Proof.
  intros Hn. rewrite lazy_flags_bits by exact (SIZE_ok n cv r). pose proof (osize_pos n Hn).
  unfold entry_flags, SET_FLAGS_OSZAPC_SIZE. cbn [result auxbits].
  rewrite !lf_temp_bit by (assumption || lia). eval_eqb.
  rewrite sext_sign, sext_zero, parity8_sext, pdb_zero by
    (try lia; intros i Hi; rewrite lf_temp_bit by (assumption || lia);
     destruct (Z.eqb_spec i 31), (Z.eqb_spec i 30), (Z.eqb_spec i 3); try lia; reflexivity).
  rewrite !xorb_false_r. reflexivity.
Qed.

(** The C++ operand type is at least as wide as the operand. *)
Lemma result_flags_wrap n w v ov af cf :
  8 <= n <= w -> result_flags n (wrap w v) ov af cf = result_flags n v ov af cf.
Proof.
  intros H. unfold result_flags. f_equal.
  - rewrite <- (signed_wrap n (wrap w v)), wrap_wrap_le, signed_wrap by lia. reflexivity.
  - rewrite wrap_wrap_le by lia. reflexivity.
  - f_equal. apply parity8_ext. intros i Hi. rewrite wrap_bit by lia.
    destruct (Z.ltb_spec i w); [reflexivity | lia].
Qed.

Lemma signed_of_fits n a :
  0 < n -> fits n a -> signed n a = a - 2 ^ n * Z.b2z (Z.testbit a (n - 1)).
Proof.
  intros Hn Ha. rewrite testbit_top, !wrap_id by (assumption || lia).
  unfold signed. rewrite wrap_id by assumption.
  destruct (Z.ltb_spec a (2 ^ (n - 1))), (Z.leb_spec (2 ^ (n - 1)) a); simpl Z.b2z; lia.
Qed.

(** Overflow is the exclusive or of the carries into and out of the sign. *)
Lemma add_overflow n a b c :
  8 <= n -> fits n a -> fits n b -> 0 <= c <= 1 ->
  xorb (2 ^ n <=? a + b + c)
       (2 ^ (n - 1) <=? a mod 2 ^ (n - 1) + b mod 2 ^ (n - 1) + c) =
  signed_overflow n (signed n a + signed n b + c).
Proof.
  intros Hn Ha Hb Hc. rewrite !signed_of_fits by (assumption || lia).
  pose proof (mod_split a (n - 1) ltac:(lia)) as Ea.
  pose proof (mod_split b (n - 1) ltac:(lia)) as Eb.
  replace (n - 1 + 1) with n in * by lia.
  rewrite Z.mod_small in Ea, Eb by assumption. unfold signed_overflow.
  assert (E : 2 ^ n = 2 * 2 ^ (n - 1)) by (rewrite <- Z.pow_succ_r by lia; f_equal; lia).
  pose proof (Z.pow_pos_nonneg 2 (n - 1) ltac:(lia) ltac:(lia)) as HM.
  pose proof (Z.mod_pos_bound a _ HM). pose proof (Z.mod_pos_bound b _ HM).
  unfold fits in *. rewrite E in *. set (M := 2 ^ (n - 1)) in *.
  set (A := a mod M) in *. set (B := b mod M) in *. clearbody A B M.
  destruct (Z.testbit a (n - 1)), (Z.testbit b (n - 1)); simpl Z.b2z in *;
  destruct (Z.leb_spec (2 * M) (a + b + c)), (Z.leb_spec M (A + B + c)); try lia; simpl xorb;
  symmetry; (apply orb_true_iff || apply orb_false_iff);
  rewrite ?Z.ltb_lt, ?Z.leb_le, ?Z.ltb_ge, ?Z.leb_gt; lia.
Qed.

Lemma sub_overflow n a b c :
  8 <= n -> fits n a -> fits n b -> 0 <= c <= 1 ->
  xorb (a <? b + c) (a mod 2 ^ (n - 1) <? b mod 2 ^ (n - 1) + c) =
  signed_overflow n (signed n a - signed n b - c).
Proof.
  intros Hn Ha Hb Hc. rewrite !signed_of_fits by (assumption || lia).
  pose proof (mod_split a (n - 1) ltac:(lia)) as Ea.
  pose proof (mod_split b (n - 1) ltac:(lia)) as Eb.
  replace (n - 1 + 1) with n in * by lia.
  rewrite Z.mod_small in Ea, Eb by assumption. unfold signed_overflow.
  assert (E : 2 ^ n = 2 * 2 ^ (n - 1)) by (rewrite <- Z.pow_succ_r by lia; f_equal; lia).
  pose proof (Z.pow_pos_nonneg 2 (n - 1) ltac:(lia) ltac:(lia)) as HM.
  pose proof (Z.mod_pos_bound a _ HM). pose proof (Z.mod_pos_bound b _ HM).
  unfold fits in *. rewrite E in *. set (M := 2 ^ (n - 1)) in *.
  set (A := a mod M) in *. set (B := b mod M) in *. clearbody A B M.
  destruct (Z.testbit a (n - 1)), (Z.testbit b (n - 1)); simpl Z.b2z in *;
  destruct (Z.ltb_spec a (b + c)), (Z.ltb_spec A (B + c)); try lia; simpl xorb;
  symmetry; (apply orb_true_iff || apply orb_false_iff);
  rewrite ?Z.ltb_lt, ?Z.leb_le, ?Z.ltb_ge, ?Z.leb_gt; lia.
Qed.

(** Only the low [n] bits of the operands and of the result matter: the C++
    code computes in a wider type and leaves anything above. *)
Section AddSub.
Context (n a b r : Z) (c : bool).
Hypothesis Hn : osize n.

Let Hn' : 8 <= n <= 64 := osize_pos n Hn.
Let Hc : 0 <= Z.b2z c <= 1.
Proof. destruct c; simpl; lia. Qed.

Lemma low_bit x y i : wrap n x = wrap n y -> 0 <= i < n -> Z.testbit x i = Z.testbit y i.
Proof.
  intros E Hi. pose proof (f_equal (fun z => Z.testbit z i) E) as B. cbv beta in B.
  rewrite !wrap_bit in B by lia. destruct (Z.ltb_spec i n); [exact B | lia].
Qed.

Lemma mod_wrap x i : 0 <= i < n -> x mod 2 ^ (i + 1) = wrap n x mod 2 ^ (i + 1).
Proof. intros Hi. symmetry. apply (wrap_wrap_le (i + 1) n). lia. Qed.

Lemma ADD_flags :
  wrap n r = wrap n (a + b + Z.b2z c) ->
  lazy_flags (SET_FLAGS_OSZAPC_ADD n a b r) = add_flags n (wrap n a) (wrap n b) (Z.b2z c).
Proof.
  intros Hr. unfold SET_FLAGS_OSZAPC_ADD. rewrite SIZE_flags by exact Hn.
  rewrite !(ADD_COUT_VEC_bit a b (Z.b2z c)) by (exact Hc || lia || (apply low_bit; [exact Hr | lia])).
  rewrite !(mod_wrap a), !(mod_wrap b) by lia.
  replace (n - 1 + 1) with n by lia. replace (n - 2 + 1) with (n - 1) by lia.
  pose proof (wrap_fits n a ltac:(lia)) as Fa. pose proof (wrap_fits n b ltac:(lia)) as Fb.
  rewrite (Z.mod_small (wrap n a) (2 ^ n)), (Z.mod_small (wrap n b) (2 ^ n)) by assumption.
  rewrite add_overflow by (assumption || lia). unfold add_flags.
  rewrite <- (result_flags_wrap n n r), Hr, <- (result_flags_wrap n n (wrap n a + _ + _)) by lia.
  rewrite wrap_add3. reflexivity.
Qed.

Lemma SUB_flags :
  wrap n r = wrap n (a - b - Z.b2z c) ->
  lazy_flags (SET_FLAGS_OSZAPC_SUB n a b r) = sub_flags n (wrap n a) (wrap n b) (Z.b2z c).
Proof.
  intros Hr. unfold SET_FLAGS_OSZAPC_SUB. rewrite SIZE_flags by exact Hn.
  rewrite !(SUB_COUT_VEC_bit a b (Z.b2z c)) by (exact Hc || lia || (apply low_bit; [exact Hr | lia])).
  rewrite !(mod_wrap a), !(mod_wrap b) by lia.
  replace (n - 1 + 1) with n by lia. replace (n - 2 + 1) with (n - 1) by lia.
  pose proof (wrap_fits n a ltac:(lia)) as Fa. pose proof (wrap_fits n b ltac:(lia)) as Fb.
  rewrite (Z.mod_small (wrap n a) (2 ^ n)), (Z.mod_small (wrap n b) (2 ^ n)) by assumption.
  rewrite sub_overflow by (assumption || lia). unfold sub_flags.
  rewrite <- (result_flags_wrap n n r), Hr, <- (result_flags_wrap n n (wrap n a - _ - _)) by lia.
  rewrite wrap_sub3. reflexivity.
Qed.

End AddSub.

(** C19: for operand sizes 8, 16, 32 and 64, an addition with carry (ADD, ADC)
    leaves the six architectural flags of the exact sum of the operands,
    whatever the bits above the operand size hold. *)
Theorem SET_FLAGS_OSZAPC_ADD_correct n a b c r :
  osize n -> wrap n r = wrap n (a + b + Z.b2z c) ->
  lazy_flags (SET_FLAGS_OSZAPC_ADD n a b r) = add_flags n (wrap n a) (wrap n b) (Z.b2z c).
Proof. intros. apply ADD_flags; assumption. Qed.

Lemma SET_FLAGS_OSZAPC_ADD_correct_witness :
  lazy_flags (SET_FLAGS_OSZAPC_ADD 8 0x7F 0x80 (u32 (0x7F + 0x80 + 1))) =
  Flags false false true true true true.
Proof.
  transitivity (add_flags 8 0x7F 0x80 1); [|vm_compute; reflexivity].
  apply (SET_FLAGS_OSZAPC_ADD_correct 8 0x7F 0x80 true);
    [unfold osize; lia | vm_compute; reflexivity].
Defined.

(** A subtraction with borrow (SUB, SBB, CMP, NEG) leaves the flags of the
    exact difference, for every operand size. *)
Theorem SET_FLAGS_OSZAPC_SUB_correct n a b c r :
  osize n -> wrap n r = wrap n (a - b - Z.b2z c) ->
  lazy_flags (SET_FLAGS_OSZAPC_SUB n a b r) = sub_flags n (wrap n a) (wrap n b) (Z.b2z c).
Proof. intros. apply SUB_flags; assumption. Qed.

Lemma SET_FLAGS_OSZAPC_SUB_correct_witness :
  lazy_flags (SET_FLAGS_OSZAPC_SUB 16 0x8000 1 (u32 (0x8000 - 1 - 0))) =
  Flags true false false true true false.
Proof.
  transitivity (sub_flags 16 0x8000 1 0); [|vm_compute; reflexivity].
  apply (SET_FLAGS_OSZAPC_SUB_correct 16 0x8000 1 false);
    [unfold osize; lia | vm_compute; reflexivity].
Defined.

(** ** INC, DEC: the carry survives *)

Lemma land_bit_b2z x k : 0 <= k -> Z.land x (Z.shiftl 1 k) = Z.shiftl (Z.b2z (Z.testbit x k)) k.
Proof.
  intros Hk. apply Z.bits_inj'. intros i Hi. rewrite Z.land_spec, shiftl_b2z_bit by lia.
  change (Z.shiftl 1 k) with (bitmask k). rewrite bitmask_testbit, Z.eqb_sym by lia.
  destruct (Z.eqb_spec i k) as [->|]; [apply andb_true_r | apply andb_false_r].
Qed.

(** What [delta_c] does: the stored carry takes the old value, and the partial
    overflow absorbs the difference. *)
Lemma OSZAP_bit n cv r e i :
  0 <= i < 32 ->
  Z.testbit (auxbits (SET_FLAGS_OSZAP_SIZE n cv r e)) i =
  let d := xorb (Z.testbit (auxbits e) 31) (Z.testbit (lf_temp n cv) 31) in
  xorb (Z.testbit (u32 (lf_temp n cv)) i) (((i =? 31) || (i =? 30)) && d).
Proof.
  intros Hi. cbv zeta. unfold SET_FLAGS_OSZAP_SIZE. cbn [auxbits].
  unfold LF_MASK_CF, LF_BIT_CF. rewrite !wrap_bit, land_bit_b2z by lia.
  destruct (Z.ltb_spec i 32); [|lia]. flag_simpl.
  rewrite !Z.lxor_spec, Z.shiftr_spec, !shiftl_b2z_bit by lia. f_equal.
  set (d := xorb (Z.testbit (auxbits e) 31) _).
  destruct (Z.eqb_spec i 31), (Z.eqb_spec i 30), (Z.eqb_spec (i + 1) 31); try lia;
    destruct d; reflexivity.
Qed.

Lemma OSZAP_ok n cv r e : lf_ok (SET_FLAGS_OSZAP_SIZE n cv r e).
Proof. split; [apply sext_fits | apply wrap_fits; lia]. Qed.

Lemma OSZAP_flags n cv r e :
  osize n -> lf_ok e ->
  lazy_flags (SET_FLAGS_OSZAP_SIZE n cv r e) =
  (lazy_flags (SET_FLAGS_OSZAPC_SIZE n cv r)) <| CF := CF (lazy_flags e) |>.
Proof.
  intros Hn He. rewrite !lazy_flags_bits by (exact (OSZAP_ok n cv r e) || exact (SIZE_ok n cv r) || exact He).
  unfold entry_flags. rewrite !OSZAP_bit by lia. cbv zeta. eval_eqb.
  unfold set_field. flag_simpl. unfold SET_FLAGS_OSZAPC_SIZE, SET_FLAGS_OSZAP_SIZE. cbn [auxbits result].
  rewrite !wrap_bit by lia. eval_eqb. flag_simpl. rewrite !xorb_false_r.
  f_equal.
  - destruct (Z.testbit (auxbits e) 31), (Z.testbit (lf_temp n cv) 31),
      (Z.testbit (lf_temp n cv) 30); reflexivity.
  - f_equal. f_equal. apply parity8_pdb_ext. intros i Hi.
    pose proof (OSZAP_bit n cv r e i ltac:(lia)) as E. cbv zeta in E.
    unfold SET_FLAGS_OSZAP_SIZE in E. cbn [auxbits] in E. rewrite E.
    destruct (Z.eqb_spec i 31), (Z.eqb_spec i 30); try lia. apply xorb_false_r.
  - destruct (Z.testbit (auxbits e) 31), (Z.testbit (lf_temp n cv) 31); reflexivity.
Qed.

Lemma LOGIC_flags n r :
  osize n -> lazy_flags (SET_FLAGS_OSZAPC_LOGIC n r) = result_flags n r false false false.
Proof.
  intros Hn. unfold SET_FLAGS_OSZAPC_LOGIC. rewrite SIZE_flags, !Z.testbit_0_l by assumption.
  reflexivity.
Qed.

(** Adding 1 is adding 0 with a carry, which is how INC is coded. *)
Lemma add_flags_one n a : 8 <= n -> add_flags n a 0 1 = add_flags n a 1 0.
Proof.
  intros Hn. unfold add_flags. rewrite !Z.add_0_r.
  assert (E : signed n 1 = 1 /\ signed n 0 = 0).
  { assert (2 ^ 7 <= 2 ^ (n - 1)) by (apply Z.pow_le_mono_r; lia).
    assert (fits n 1 /\ fits n 0) as [F1 F0].
    { assert (2 ^ 8 <= 2 ^ n) by (apply Z.pow_le_mono_r; lia). split; split; lia. }
    unfold signed. rewrite (wrap_id n 1 F1), (wrap_id n 0 F0).
    destruct (Z.ltb_spec 1 (2 ^ (n - 1))), (Z.ltb_spec 0 (2 ^ (n - 1))); lia. }
  destruct E as [-> ->]. rewrite Z.add_0_r. reflexivity.
Qed.

Lemma sub_flags_one n a : 8 <= n -> sub_flags n a 0 1 = sub_flags n a 1 0.
Proof.
  intros Hn. unfold sub_flags. rewrite !Z.add_0_l, !Z.sub_0_r, !Z.add_0_r.
  assert (E : signed n 1 = 1 /\ signed n 0 = 0).
  { assert (2 ^ 7 <= 2 ^ (n - 1)) by (apply Z.pow_le_mono_r; lia).
    assert (fits n 1 /\ fits n 0) as [F1 F0].
    { assert (2 ^ 8 <= 2 ^ n) by (apply Z.pow_le_mono_r; lia). split; split; lia. }
    unfold signed. rewrite (wrap_id n 1 F1), (wrap_id n 0 F0).
    destruct (Z.ltb_spec 1 (2 ^ (n - 1))), (Z.ltb_spec 0 (2 ^ (n - 1))); lia. }
  destruct E as [-> ->]. rewrite Z.sub_0_r. reflexivity.
Qed.

Section IncDec.
Context (n a r : Z) (e : bx_lazyflags_entry).
Hypothesis Hn : osize n.
Hypothesis He : lf_ok e.

Lemma INC_flags :
  wrap n r = wrap n (a + 1) ->
  lazy_flags (SET_FLAGS_OSZAP_ADD n a 0 r e) =
  (add_flags n (wrap n a) 1 0) <| CF := CF (lazy_flags e) |>.
Proof.
  intros Hr. unfold SET_FLAGS_OSZAP_ADD. rewrite OSZAP_flags by assumption.
  change (SET_FLAGS_OSZAPC_SIZE n (ADD_COUT_VEC a 0 r) r) with (SET_FLAGS_OSZAPC_ADD n a 0 r).
  rewrite (ADD_flags n a 0 r true) by (simpl Z.b2z; rewrite ?Z.add_0_r; assumption).
  rewrite <- add_flags_one by (apply osize_pos in Hn; lia). reflexivity.
Qed.

Lemma DEC_flags :
  wrap n r = wrap n (a - 1) ->
  lazy_flags (SET_FLAGS_OSZAP_SUB n a 0 r e) =
  (sub_flags n (wrap n a) 1 0) <| CF := CF (lazy_flags e) |>.
Proof.
  intros Hr. unfold SET_FLAGS_OSZAP_SUB. rewrite OSZAP_flags by assumption.
  change (SET_FLAGS_OSZAPC_SIZE n (SUB_COUT_VEC a 0 r) r) with (SET_FLAGS_OSZAPC_SUB n a 0 r).
  rewrite (SUB_flags n a 0 r true) by (simpl Z.b2z; rewrite ?Z.sub_0_r; assumption).
  rewrite <- sub_flags_one by (apply osize_pos in Hn; lia). reflexivity.
Qed.

End IncDec.

(** INC and DEC set OF, SF, ZF, AF and PF from the exact result and keep the
    carry that was there, although the lazy encoding stores OF relative to the
    carry. *)
Theorem SET_FLAGS_OSZAP_keeps_CF n a e :
  osize n -> lf_ok e ->
  lazy_flags (SET_FLAGS_OSZAP_ADD n a 0 (a + 1) e) =
    (add_flags n (wrap n a) 1 0) <| CF := CF (lazy_flags e) |> /\
  lazy_flags (SET_FLAGS_OSZAP_SUB n a 0 (a - 1) e) =
    (sub_flags n (wrap n a) 1 0) <| CF := CF (lazy_flags e) |>.
Proof. intros Hn He. split; [apply INC_flags | apply DEC_flags]; auto. Qed.

Lemma SET_FLAGS_OSZAP_keeps_CF_witness :
  lazy_flags (SET_FLAGS_OSZAP_ADD 32 0x7FFFFFFF 0 0x80000000 (LazyFlags 1 0xC0000000)) =
  Flags true true false true true true.
Proof.
  assert (H : lf_ok (LazyFlags 1 0xC0000000)) by (unfold lf_ok, fits; cbn; lia).
  destruct (SET_FLAGS_OSZAP_keeps_CF 32 0x7FFFFFFF (LazyFlags 1 0xC0000000)) as [E _];
    [unfold osize; lia | exact H |].
  etransitivity; [exact E | vm_compute; reflexivity].
Defined.

(** ** EFLAGS *)

Definition eflags_flags (x : Z) : flags := {|
  OF := Z.testbit x 11; SF := Z.testbit x 7; ZF := Z.testbit x 6;
  AF := Z.testbit x 4; PF := Z.testbit x 2; CF := Z.testbit x 0;
|}.

Lemma flag_arg x k : 0 <= k -> to_bool (Z.land 1 (Z.shiftr x k)) = Z.testbit x k.
Proof. intros. rewrite Z.land_comm, shiftr_land_1, to_bool_b2z by lia. reflexivity. Qed.

Lemma setEFlagsOSZAPC_set x e :
  setEFlagsOSZAPC x e =
  set_flag F_CF (Z.testbit x 0) (set_flag F_PF (Z.testbit x 2) (set_flag F_AF (Z.testbit x 4)
    (set_flag F_ZF (Z.testbit x 6) (set_flag F_SF (Z.testbit x 7) (set_flag F_OF (Z.testbit x 11) e))))).
Proof. unfold setEFlagsOSZAPC. rewrite !flag_arg by lia. reflexivity. Qed.

Lemma setEFlagsOSZAPC_ok x e : lf_ok e -> lf_ok (setEFlagsOSZAPC x e).
Proof. intros. rewrite setEFlagsOSZAPC_set. auto 10 using set_flag_ok. Qed.

Lemma setEFlagsOSZAPC_flags x e :
  lf_ok e -> lazy_flags (setEFlagsOSZAPC x e) = eflags_flags x.
Proof.
  intros He. rewrite setEFlagsOSZAPC_set, !set_flag_flags by auto 10 using set_flag_ok.
  reflexivity.
Qed.

Lemma OSZAPCMask_bit i : 0 <= i < 32 ->
  Z.testbit EFlagsOSZAPCMask i =
  (i =? 0) || (i =? 2) || (i =? 4) || (i =? 6) || (i =? 7) || (i =? 11).
Proof.
  intros Hi. apply eqb_prop. revert i Hi. apply (zrange_forall 32). vm_compute. reflexivity.
Qed.

Lemma force_flags_bit x e i :
  lf_ok e -> 0 <= i < 32 ->
  Z.testbit (force_flags x e) i =
  if i =? 0 then CF (lazy_flags e) else if i =? 2 then PF (lazy_flags e)
  else if i =? 4 then AF (lazy_flags e) else if i =? 6 then ZF (lazy_flags e)
  else if i =? 7 then SF (lazy_flags e) else if i =? 11 then OF (lazy_flags e)
  else Z.testbit x i.
Proof.
  intros He Hi. unfold force_flags. rewrite lazy_flags_bits by exact He. flag_simpl.
  rewrite getB_CF_bit, getB_PF_bit, getB_AF_bit, getB_SF_bit, getB_OF_bit by exact He.
  unfold getB_ZF, entry_flags. flag_simpl.
  set (cf := Z.testbit (auxbits e) 31). set (pf := negb _). set (af := Z.testbit (auxbits e) 3).
  set (zf := 0 =? result e). set (sf := xorb (Z.testbit (result e) 63) _). set (ov := xorb cf _).
  rewrite <- (Z.shiftl_0_r (Z.b2z cf)).
  rewrite Z.lor_spec, land_not_bit, Z.land_spec, !Z.lor_spec, !shiftl_b2z_bit by lia.
  clearbody cf pf af zf sf ov.
  pose proof (OSZAPCMask_bit i Hi) as M.
  repeat match goal with |- context [i =? ?k] =>
    destruct (Z.eqb_spec i k) as [->|];
      [const_bit; eval_eqb; flag_simpl; rewrite ?andb_false_r, ?andb_true_r, ?orb_false_r;
       reflexivity |] end.
  flag_simpl. rewrite orb_false_r.
  rewrite M. flag_simpl. rewrite ?andb_false_r, ?andb_true_r, ?orb_false_r. reflexivity.
Qed.

(** POPF-style loading of the six flags followed by PUSHF-style reading gives
    back the loaded bits, with all other EFLAGS bits untouched. *)
Theorem eflags_roundtrip x eflags e i :
  lf_ok e -> 0 <= i < 32 ->
  Z.testbit (force_flags eflags (setEFlagsOSZAPC x e)) i =
  if Z.testbit EFlagsOSZAPCMask i then Z.testbit x i else Z.testbit eflags i.
Proof.
  intros He Hi. rewrite force_flags_bit, setEFlagsOSZAPC_flags by auto using setEFlagsOSZAPC_ok.
  unfold eflags_flags. flag_simpl.
  rewrite OSZAPCMask_bit by exact Hi.
  repeat match goal with |- context [i =? ?k] =>
    destruct (Z.eqb_spec i k) as [->|]; [reflexivity|] end.
  reflexivity.
Qed.

Lemma eflags_roundtrip_witness :
  Z.testbit (force_flags 0x202 (setEFlagsOSZAPC 0x8D5 clearEFlagsOSZAPC)) 6 = true.
Proof.
  assert (H : lf_ok clearEFlagsOSZAPC) by exact (SIZE_ok 32 0 1).
  etransitivity; [apply (eflags_roundtrip 0x8D5 0x202 clearEFlagsOSZAPC 6 H); lia | reflexivity].
Defined.
