(* ===== verification/Cpu.v ===== *)
(** * CPU core state for the integer instructions (cpu/cpu.h, decoder/instr.h)

    The general registers, the lazy flags, the segment bases and the memory the
    instruction handlers see; the register access macros; effective address
    computation; and the monad the handlers are written in: a handler either
    returns or leaves through [exception()], which longjmps to the CPU loop.

    The state is parameterised by the type that holds the flags: the code's lazy
    entry, or the six flags themselves in the reference semantics ([Alu]). *)

From Stdlib Require Import ZArith Lia List Bool.
From S2P Require Import Prelude LazyFlags.
Import ListNotations.
Open Scope Z_scope.

(** ** Decoded instructions: the fields of [bxInstruction_c] handlers use *)
Record bxInstruction_c := Instr {
  ia_opcode : Z;
  metaInfo1 : Z;     (* bit 0 as32, bit 1 as64, bit 5 extend8bit *)
  dst : Z;
  src : Z;           (* src1 *)
  src2 : Z;
  seg : Z;
  sibBase : Z;
  sibIndex : Z;
  sibScale : Z;
  Id : Z;            (* modRMForm.Id; Iw and Ib are its low part *)
  displ32u : Z;
}.

Definition Iw (i : bxInstruction_c) : Z := u16 (Id i).
Definition Ib (i : bxInstruction_c) : Z := u8 (Id i).
Definition displ32s (i : bxInstruction_c) : Z := signed 32 (displ32u i).
Definition as64L (i : bxInstruction_c) : Z := Z.land (metaInfo1 i) (Z.shiftl 1 1).
Definition asize (i : bxInstruction_c) : Z := Z.land (metaInfo1 i) 0x3.
Definition extend8bitL (i : bxInstruction_c) : Z := Z.land (metaInfo1 i) (Z.shiftl 1 5).

Definition bx_asize_mask (asize : Z) : Z :=
  if asize =? 0 then 0xffff
  else if asize =? 1 then 0xffffffff
  else 0xffffffffffffffff.

Definition asize_mask (i : bxInstruction_c) : Z := bx_asize_mask (asize i).

(** ** Exceptions and memory *)

(** The arguments of [exception(vector, error_code)]. *)
Record exn := Exn { exn_vector : Z; exn_error_code : Z }.

(** What the handlers use of the memory access functions (cpu/access.h,
    cpu/access2.cc): sizes are in bytes.  An access either faults or gives the
    value; both can change the state behind it (the TLB, page table bits).
    [write_RMW] completes the last [read_RMW], so it cannot fault. *)
Class VirtualMemory (M : Type) := {
  vm_read : Z -> Z -> Z -> M -> (exn + Z) * M;          (* size, segment, offset *)
  vm_write : Z -> Z -> Z -> Z -> M -> (exn + unit) * M; (* ..., value *)
  vm_read_RMW : Z -> Z -> Z -> M -> (exn + Z) * M;
  vm_read_linear : Z -> Z -> Z -> M -> (exn + Z) * M;   (* size, segment, linear address *)
  vm_write_linear : Z -> Z -> Z -> Z -> M -> (exn + unit) * M;
  vm_read_RMW_linear : Z -> Z -> Z -> M -> (exn + Z) * M;
  vm_write_RMW : Z -> Z -> M -> M;                      (* size, value *)
  (* 16 bytes at an aligned linear address: the high and the low half *)
  vm_read_RMW_dqword : Z -> Z -> M -> (exn + (Z * Z)) * M;
  vm_write_RMW_dqword : Z -> Z -> M -> M;
}.

(** The values read have the size of the access. *)
Class VirtualMemoryOk (M : Type) `{VirtualMemory M} := {
  vm_read_fits n s a m v m' : 0 <= n -> vm_read n s a m = (inr v, m') -> fits (8 * n) v;
  vm_read_RMW_fits n s a m v m' : 0 <= n -> vm_read_RMW n s a m = (inr v, m') -> fits (8 * n) v;
  vm_read_linear_fits n s a m v m' : 0 <= n -> vm_read_linear n s a m = (inr v, m') -> fits (8 * n) v;
  vm_read_RMW_linear_fits n s a m v m' :
    0 <= n -> vm_read_RMW_linear n s a m = (inr v, m') -> fits (8 * n) v;
  vm_read_RMW_dqword_fits s a m hi lo m' :
    vm_read_RMW_dqword s a m = (inr (hi, lo), m') -> fits 64 hi /\ fits 64 lo;
}.

(** ** Processor state *)

Definition BX_64BIT_REG_RAX := 0.
Definition BX_64BIT_REG_RCX := 1.
Definition BX_64BIT_REG_RDX := 2.
Definition BX_64BIT_REG_RBX := 3.
Definition BX_SEG_REG_FS := 4.

Record bx_cpu (F M : Type) := Cpu {
  gen_reg : Z -> Z;      (* 64-bit general registers *)
  seg_base : Z -> Z;     (* sregs[seg].cache.u.segment.base *)
  oszapc : F;
  vmem : M;
}.
Arguments Cpu {F M}.
Arguments gen_reg {F M}.
Arguments seg_base {F M}.
Arguments oszapc {F M}.
Arguments vmem {F M}.

#[export] Instance bx_cpu_eta {F M} : Eta (bx_cpu F M) := fun r =>
  Cpu (gen_reg r) (seg_base r) (oszapc r) (vmem r).

(** A handler's run: it returns, or an exception is raised in the given state. *)
Inductive outcome (S A : Type) :=
| Ok (a : A) (s : S)
| Fault (e : exn) (s : S).
Arguments Ok {S A}.
Arguments Fault {S A}.

Definition cpu (F M A : Type) : Type := bx_cpu F M -> outcome (bx_cpu F M) A.

Definition ret {F M A} (a : A) : cpu F M A := fun s => Ok a s.

Definition bind {F M A B} (m : cpu F M A) (k : A -> cpu F M B) : cpu F M B :=
  fun s => match m s with Ok a s' => k a s' | Fault e s' => Fault e s' end.

Notation "x <- m ;; k" := (bind m (fun x => k))
  (at level 61, m at next level, right associativity) : bochs_scope.
Notation "m ;;; k" := (bind m (fun _ => k))
  (at level 61, right associativity) : bochs_scope.

(** [exception(vector, error_code)] does not return: it longjmps. *)
Definition exception {F M A} (vector error_code : Z) : cpu F M A :=
  fun s => Fault (Exn vector error_code) s.

Definition BX_DE_EXCEPTION := 0.

(** [BX_NEXT_INSTR(i)] returns to the CPU loop. *)
Definition BX_NEXT_INSTR {F M} : cpu F M unit := ret tt.

(** ** Bit fields of a register *)

Definition get_field (pos n x : Z) : Z := wrap n (Z.shiftr x pos).
Definition put_field (pos n v x : Z) : Z :=
  Z.lor (Z.ldiff x (Z.shiftl (Z.ones n) pos)) (Z.shiftl (wrap n v) pos).

Section Registers.
Context {F M : Type}.
Abbreviation cpu := (cpu F M).

Definition read_gpr (index : Z) : cpu Z := fun s => Ok (gen_reg s index) s.
Definition write_gpr (index val : Z) : cpu unit :=
  fun s => Ok tt (s <| gen_reg := upd (gen_reg s) index val |>).

Definition BX_READ_64BIT_REG (index : Z) : cpu Z := read_gpr index.
Definition BX_READ_32BIT_REG (index : Z) : cpu Z :=
  r <- read_gpr index ;; ret (get_field 0 32 r).
Definition BX_READ_16BIT_REG (index : Z) : cpu Z :=
  r <- read_gpr index ;; ret (get_field 0 16 r).
Definition BX_READ_8BIT_REGL (index : Z) : cpu Z :=
  r <- read_gpr index ;; ret (get_field 0 8 r).
Definition BX_READ_8BIT_REGx (index extended : Z) : cpu Z :=
  if (Z.land index 4 =? 0) || negb (extended =? 0)
  then r <- read_gpr index ;; ret (get_field 0 8 r)
  else r <- read_gpr (index - 4) ;; ret (get_field 8 8 r).

Definition BX_WRITE_64BIT_REG (index val : Z) : cpu unit := write_gpr index (u64 val).
Definition BX_WRITE_32BIT_REGZ (index val : Z) : cpu unit := write_gpr index (u32 val).
(** [gen_reg[index].dword.erx = val] *)
Definition BX_WRITE_32BIT_REG (index val : Z) : cpu unit :=
  r <- read_gpr index ;; write_gpr index (put_field 0 32 val r).
Definition BX_WRITE_16BIT_REG (index val : Z) : cpu unit :=
  r <- read_gpr index ;; write_gpr index (put_field 0 16 val r).
Definition BX_WRITE_8BIT_REGx (index extended val : Z) : cpu unit :=
  if (Z.land index 4 =? 0) || negb (extended =? 0)
  then r <- read_gpr index ;; write_gpr index (put_field 0 8 val r)
  else r <- read_gpr (index - 4) ;; write_gpr (index - 4) (put_field 8 8 val r).
Definition BX_CLEAR_64BIT_HIGH (index : Z) : cpu unit :=
  r <- read_gpr index ;; write_gpr index (put_field 32 32 0 r).

Definition AL : cpu Z := BX_READ_8BIT_REGL BX_64BIT_REG_RAX.
Definition CL : cpu Z := BX_READ_8BIT_REGL BX_64BIT_REG_RCX.
Definition AX : cpu Z := BX_READ_16BIT_REG BX_64BIT_REG_RAX.
Definition DX : cpu Z := BX_READ_16BIT_REG BX_64BIT_REG_RDX.
Definition EAX : cpu Z := BX_READ_32BIT_REG BX_64BIT_REG_RAX.
Definition ECX : cpu Z := BX_READ_32BIT_REG BX_64BIT_REG_RCX.
Definition EDX : cpu Z := BX_READ_32BIT_REG BX_64BIT_REG_RDX.
Definition EBX : cpu Z := BX_READ_32BIT_REG BX_64BIT_REG_RBX.
Definition RAX : cpu Z := BX_READ_64BIT_REG BX_64BIT_REG_RAX.
Definition RCX : cpu Z := BX_READ_64BIT_REG BX_64BIT_REG_RCX.
Definition RBX : cpu Z := BX_READ_64BIT_REG BX_64BIT_REG_RBX.
Definition RDX : cpu Z := BX_READ_64BIT_REG BX_64BIT_REG_RDX.

Definition set_AL (val : Z) : cpu unit :=
  r <- read_gpr BX_64BIT_REG_RAX ;; write_gpr BX_64BIT_REG_RAX (put_field 0 8 val r).
Definition set_AH (val : Z) : cpu unit :=
  r <- read_gpr BX_64BIT_REG_RAX ;; write_gpr BX_64BIT_REG_RAX (put_field 8 8 val r).
Definition set_AX (val : Z) : cpu unit := BX_WRITE_16BIT_REG BX_64BIT_REG_RAX val.
Definition set_DX (val : Z) : cpu unit := BX_WRITE_16BIT_REG BX_64BIT_REG_RDX val.
Definition set_RAX (val : Z) : cpu unit := BX_WRITE_64BIT_REG BX_64BIT_REG_RAX val.
Definition set_RDX (val : Z) : cpu unit := BX_WRITE_64BIT_REG BX_64BIT_REG_RDX val.

(** ** Effective addresses *)

Definition BxResolve64 (i : bxInstruction_c) : cpu Z :=
  base <- BX_READ_64BIT_REG (sibBase i) ;;
  let eaddr := u64 (base + displ32s i) in
  if negb (sibIndex i =? 4) then
    index <- BX_READ_64BIT_REG (sibIndex i) ;;
    ret (u64 (eaddr + u64 (Z.shiftl index (sibScale i))))
  else ret eaddr.

Definition BxResolve32 (i : bxInstruction_c) : cpu Z :=
  base <- BX_READ_32BIT_REG (sibBase i) ;;
  let eaddr := u32 (base + displ32s i) in
  eaddr <- (if negb (sibIndex i =? 4) then
              index <- BX_READ_32BIT_REG (sibIndex i) ;;
              ret (u32 (eaddr + u32 (Z.shiftl index (sibScale i))))
            else ret eaddr) ;;
  ret (u32 (Z.land eaddr (asize_mask i))).

Definition BX_CPU_RESOLVE_ADDR (i : bxInstruction_c) : cpu Z :=
  if negb (as64L i =? 0) then BxResolve64 i else BxResolve32 i.
Definition BX_CPU_RESOLVE_ADDR_64 := BX_CPU_RESOLVE_ADDR.

Definition get_laddr64 (seg offset : Z) : cpu Z := fun s =>
  Ok (if seg <? BX_SEG_REG_FS then offset else u64 (seg_base s seg + offset)) s.

(** ** Memory accesses *)

Context `{VirtualMemory M}.

Definition access {A} (f : M -> (exn + A) * M) : cpu A := fun s =>
  match f (vmem s) with
  | (inr a, m) => Ok a (s <| vmem := m |>)
  | (inl e, m) => Fault e (s <| vmem := m |>)
  end.

Definition read_virtual_byte (seg offset : Z) : cpu Z := access (vm_read 1 seg offset).
Definition read_virtual_word (seg offset : Z) : cpu Z := access (vm_read 2 seg offset).
Definition read_virtual_dword (seg offset : Z) : cpu Z := access (vm_read 4 seg offset).
Definition read_RMW_virtual_byte (seg offset : Z) : cpu Z := access (vm_read_RMW 1 seg offset).
Definition read_RMW_virtual_word (seg offset : Z) : cpu Z := access (vm_read_RMW 2 seg offset).
Definition read_RMW_virtual_dword (seg offset : Z) : cpu Z := access (vm_read_RMW 4 seg offset).
Definition read_RMW_virtual_qword (seg offset : Z) : cpu Z := access (vm_read_RMW 8 seg offset).
Definition read_linear_qword (seg laddr : Z) : cpu Z := access (vm_read_linear 8 seg laddr).
Definition read_RMW_linear_qword (seg laddr : Z) : cpu Z :=
  access (vm_read_RMW_linear 8 seg laddr).

(** The value is converted to the parameter's width. *)
Definition write_virtual_byte (seg offset data : Z) : cpu unit := access (vm_write 1 seg offset (u8 data)).
Definition write_virtual_word (seg offset data : Z) : cpu unit := access (vm_write 2 seg offset (u16 data)).
Definition write_virtual_dword (seg offset data : Z) : cpu unit := access (vm_write 4 seg offset (u32 data)).
Definition write_linear_qword (seg laddr data : Z) : cpu unit := access (vm_write_linear 8 seg laddr (u64 data)).

Definition write_RMW (n val : Z) : cpu unit := fun s =>
  Ok tt (s <| vmem := vm_write_RMW n val (vmem s) |>).
(** The argument is converted to the parameter's width. *)
Definition write_RMW_linear_byte (val : Z) : cpu unit := write_RMW 1 (u8 val).
Definition write_RMW_linear_word (val : Z) : cpu unit := write_RMW 2 (u16 val).
Definition write_RMW_linear_dword (val : Z) : cpu unit := write_RMW 4 (u32 val).
Definition write_RMW_linear_qword (val : Z) : cpu unit := write_RMW 8 (u64 val).

Definition read_RMW_linear_dqword_aligned_64 (seg laddr : Z) : cpu (Z * Z) :=
  access (vm_read_RMW_dqword seg laddr).
Definition write_RMW_linear_dqword (hi lo : Z) : cpu unit := fun s =>
  Ok tt (s <| vmem := vm_write_RMW_dqword hi lo (vmem s) |>).

End Registers.

(** ** Flags: the CPU methods on the lazy entry *)

Section LazyState.
Context {M : Type}.
Abbreviation cpu := (cpu bx_lazyflags_entry M).

Definition get_lazy {A} (f : bx_lazyflags_entry -> A) : cpu A := fun s => Ok (f (oszapc s)) s.
Definition modify_lazy (f : bx_lazyflags_entry -> bx_lazyflags_entry) : cpu unit :=
  fun s => Ok tt (s <| oszapc := f (oszapc s) |>).
Definition put_lazy (e : bx_lazyflags_entry) : cpu unit := modify_lazy (fun _ => e).

Definition cpu_getB_CF : cpu Z := get_lazy getB_CF.
Definition cpu_clear_ZF : cpu unit := modify_lazy clear_ZF.
Definition cpu_assert_ZF : cpu unit := modify_lazy assert_ZF.

End LazyState.

(** ** A flat memory

    A memory without segmentation or paging, whose accesses never fault: the
    interface can be implemented, and concrete runs can be evaluated. *)
Record flat := Flat { flat_bytes : Z -> Z; flat_pending : Z }.

Fixpoint flat_load (n : nat) (b : Z -> Z) (a : Z) : Z :=
  match n with O => 0 | S n' => u8 (b a) + 256 * flat_load n' b (a + 1) end.

Fixpoint flat_store (n : nat) (a v : Z) (b : Z -> Z) : Z -> Z :=
  match n with O => b | S n' => flat_store n' (a + 1) (v / 256) (upd b a (u8 v)) end.

Definition flat_read (n _seg a : Z) (m : flat) : (exn + Z) * flat :=
  (inr (flat_load (Z.to_nat n) (flat_bytes m) a), Flat (flat_bytes m) a).

Definition flat_write (n _seg a v : Z) (m : flat) : (exn + unit) * flat :=
  (inr tt, Flat (flat_store (Z.to_nat n) a v (flat_bytes m)) a).

#[export] Instance flat_memory : VirtualMemory flat := {|
  vm_read := flat_read;
  vm_write := flat_write;
  vm_read_RMW := flat_read;
  vm_read_linear := flat_read;
  vm_write_linear := flat_write;
  vm_read_RMW_linear := flat_read;
  vm_write_RMW := fun n v m =>
    Flat (flat_store (Z.to_nat n) (flat_pending m) v (flat_bytes m)) (flat_pending m);
  vm_read_RMW_dqword := fun _ a m =>
    (inr (flat_load 8 (flat_bytes m) (a + 8), flat_load 8 (flat_bytes m) a), Flat (flat_bytes m) a);
  vm_write_RMW_dqword := fun hi lo m =>
    let a := flat_pending m in
    Flat (flat_store 8 (a + 8) hi (flat_store 8 a lo (flat_bytes m))) a;
|}.

Lemma flat_load_fits n b a : fits (8 * Z.of_nat n) (flat_load n b a).
Proof.
  revert a. induction n as [|n IH]; intros a.
  - unfold fits. simpl. lia.
  - cbn [flat_load]. specialize (IH (a + 1)). pose proof (wrap_fits 8 (b a) ltac:(lia)) as H8.
    unfold fits in *. change (2 ^ 8) with 256 in H8.
    replace (8 * Z.of_nat (S n)) with (8 + 8 * Z.of_nat n) by lia.
    rewrite Z.pow_add_r by lia. change (2 ^ 8) with 256. lia.
Qed.

Lemma flat_read_fits n s a m v m' :
  0 <= n -> flat_read n s a m = (inr v, m') -> fits (8 * n) v.
Proof.
  unfold flat_read. intros Hn E. injection E as <- _.
  pose proof (flat_load_fits (Z.to_nat n) (flat_bytes m) a) as F.
  rewrite Z2Nat.id in F by lia. exact F.
Qed.

#[export] Instance flat_memory_ok : VirtualMemoryOk flat.
Proof.
  constructor; try exact flat_read_fits.
  intros s a m hi lo m' E. cbn [vm_read_RMW_dqword flat_memory] in E. injection E as <- <- _.
  split; apply (flat_load_fits 8).
Qed.
