(* ===== verification/Arith8.v ===== *)
(** * 8-bit arithmetic and logic instructions (cpu/arith8.cc, cpu/logical8.cc)

    One definition per instruction handler, in the order of the files.  The
    suffix M is the form with a memory operand, R the register form. *)

From Stdlib Require Import ZArith Lia List Bool.
From S2P Require Import Prelude LazyFlags Cpu.
Open Scope Z_scope.

Section Handlers.
Context {M : Type} `{VirtualMemory M}.
Abbreviation cpu := (cpu bx_lazyflags_entry M).

(** ** cpu/arith8.cc *)

Definition ADD_EbGbM (i : bxInstruction_c) : cpu unit :=
  eaddr <- BX_CPU_RESOLVE_ADDR i ;;
  op1 <- read_RMW_virtual_byte (seg i) eaddr ;;
  op2 <- BX_READ_8BIT_REGx (src i) (extend8bitL i) ;;
  let sum := u32 (op1 + op2) in
  write_RMW_linear_byte sum ;;;
  put_lazy (SET_FLAGS_OSZAPC_ADD 8 op1 op2 sum) ;;;
  BX_NEXT_INSTR.

Definition ADD_GbEbR (i : bxInstruction_c) : cpu unit :=
  op1 <- BX_READ_8BIT_REGx (dst i) (extend8bitL i) ;;
  op2 <- BX_READ_8BIT_REGx (src i) (extend8bitL i) ;;
  let sum := u32 (op1 + op2) in
  BX_WRITE_8BIT_REGx (dst i) (extend8bitL i) sum ;;;
  put_lazy (SET_FLAGS_OSZAPC_ADD 8 op1 op2 sum) ;;;
  BX_NEXT_INSTR.

Definition ADD_GbEbM (i : bxInstruction_c) : cpu unit :=
  eaddr <- BX_CPU_RESOLVE_ADDR i ;;
  op1 <- BX_READ_8BIT_REGx (dst i) (extend8bitL i) ;;
  op2 <- read_virtual_byte (seg i) eaddr ;;
  let sum := u32 (op1 + op2) in
  BX_WRITE_8BIT_REGx (dst i) (extend8bitL i) sum ;;;
  put_lazy (SET_FLAGS_OSZAPC_ADD 8 op1 op2 sum) ;;;
  BX_NEXT_INSTR.

Definition ADC_EbGbM (i : bxInstruction_c) : cpu unit :=
  eaddr <- BX_CPU_RESOLVE_ADDR i ;;
  op1 <- read_RMW_virtual_byte (seg i) eaddr ;;
  op2 <- BX_READ_8BIT_REGx (src i) (extend8bitL i) ;;
  cf_in <- cpu_getB_CF ;;
  let sum := u32 ((op1 + op2) + cf_in) in
  write_RMW_linear_byte sum ;;;
  put_lazy (SET_FLAGS_OSZAPC_ADD 8 op1 op2 sum) ;;;
  BX_NEXT_INSTR.

Definition ADC_GbEbR (i : bxInstruction_c) : cpu unit :=
  op1 <- BX_READ_8BIT_REGx (dst i) (extend8bitL i) ;;
  op2 <- BX_READ_8BIT_REGx (src i) (extend8bitL i) ;;
  cf_in <- cpu_getB_CF ;;
  let sum := u32 ((op1 + op2) + cf_in) in
  BX_WRITE_8BIT_REGx (dst i) (extend8bitL i) sum ;;;
  put_lazy (SET_FLAGS_OSZAPC_ADD 8 op1 op2 sum) ;;;
  BX_NEXT_INSTR.

Definition ADC_GbEbM (i : bxInstruction_c) : cpu unit :=
  eaddr <- BX_CPU_RESOLVE_ADDR i ;;
  op1 <- BX_READ_8BIT_REGx (dst i) (extend8bitL i) ;;
  op2 <- read_virtual_byte (seg i) eaddr ;;
  cf_in <- cpu_getB_CF ;;
  let sum := u32 ((op1 + op2) + cf_in) in
  BX_WRITE_8BIT_REGx (dst i) (extend8bitL i) sum ;;;
  put_lazy (SET_FLAGS_OSZAPC_ADD 8 op1 op2 sum) ;;;
  BX_NEXT_INSTR.

Definition SBB_EbGbM (i : bxInstruction_c) : cpu unit :=
  eaddr <- BX_CPU_RESOLVE_ADDR i ;;
  op1_8 <- read_RMW_virtual_byte (seg i) eaddr ;;
  op2_8 <- BX_READ_8BIT_REGx (src i) (extend8bitL i) ;;
  cf_in <- cpu_getB_CF ;;
  let diff_8 := u32 (op1_8 - (op2_8 + cf_in)) in
  write_RMW_linear_byte diff_8 ;;;
  put_lazy (SET_FLAGS_OSZAPC_SUB 8 op1_8 op2_8 diff_8) ;;;
  BX_NEXT_INSTR.

Definition SBB_GbEbR (i : bxInstruction_c) : cpu unit :=
  op1_8 <- BX_READ_8BIT_REGx (dst i) (extend8bitL i) ;;
  op2_8 <- BX_READ_8BIT_REGx (src i) (extend8bitL i) ;;
  cf_in <- cpu_getB_CF ;;
  let diff_8 := u32 (op1_8 - (op2_8 + cf_in)) in
  BX_WRITE_8BIT_REGx (dst i) (extend8bitL i) diff_8 ;;;
  put_lazy (SET_FLAGS_OSZAPC_SUB 8 op1_8 op2_8 diff_8) ;;;
  BX_NEXT_INSTR.

Definition SBB_GbEbM (i : bxInstruction_c) : cpu unit :=
  eaddr <- BX_CPU_RESOLVE_ADDR i ;;
  op1_8 <- BX_READ_8BIT_REGx (dst i) (extend8bitL i) ;;
  op2_8 <- read_virtual_byte (seg i) eaddr ;;
  cf_in <- cpu_getB_CF ;;
  let diff_8 := u32 (op1_8 - (op2_8 + cf_in)) in
  BX_WRITE_8BIT_REGx (dst i) (extend8bitL i) diff_8 ;;;
  put_lazy (SET_FLAGS_OSZAPC_SUB 8 op1_8 op2_8 diff_8) ;;;
  BX_NEXT_INSTR.

Definition SBB_EbIbM (i : bxInstruction_c) : cpu unit :=
  eaddr <- BX_CPU_RESOLVE_ADDR i ;;
  op1_8 <- read_RMW_virtual_byte (seg i) eaddr ;;
  let op2_8 := Ib i in
  cf_in <- cpu_getB_CF ;;
  let diff_8 := u32 (op1_8 - (op2_8 + cf_in)) in
  write_RMW_linear_byte diff_8 ;;;
  put_lazy (SET_FLAGS_OSZAPC_SUB 8 op1_8 op2_8 diff_8) ;;;
  BX_NEXT_INSTR.

Definition SBB_EbIbR (i : bxInstruction_c) : cpu unit :=
  op1_8 <- BX_READ_8BIT_REGx (dst i) (extend8bitL i) ;;
  let op2_8 := Ib i in
  cf_in <- cpu_getB_CF ;;
  let diff_8 := u32 (op1_8 - (op2_8 + cf_in)) in
  BX_WRITE_8BIT_REGx (dst i) (extend8bitL i) diff_8 ;;;
  put_lazy (SET_FLAGS_OSZAPC_SUB 8 op1_8 op2_8 diff_8) ;;;
  BX_NEXT_INSTR.

Definition SUB_EbGbM (i : bxInstruction_c) : cpu unit :=
  eaddr <- BX_CPU_RESOLVE_ADDR i ;;
  op1_8 <- read_RMW_virtual_byte (seg i) eaddr ;;
  op2_8 <- BX_READ_8BIT_REGx (src i) (extend8bitL i) ;;
  let diff_8 := u32 (op1_8 - op2_8) in
  write_RMW_linear_byte diff_8 ;;;
  put_lazy (SET_FLAGS_OSZAPC_SUB 8 op1_8 op2_8 diff_8) ;;;
  BX_NEXT_INSTR.

Definition SUB_GbEbR (i : bxInstruction_c) : cpu unit :=
  op1_8 <- BX_READ_8BIT_REGx (dst i) (extend8bitL i) ;;
  op2_8 <- BX_READ_8BIT_REGx (src i) (extend8bitL i) ;;
  let diff_8 := u32 (op1_8 - op2_8) in
  BX_WRITE_8BIT_REGx (dst i) (extend8bitL i) diff_8 ;;;
  put_lazy (SET_FLAGS_OSZAPC_SUB 8 op1_8 op2_8 diff_8) ;;;
  BX_NEXT_INSTR.

Definition SUB_GbEbM (i : bxInstruction_c) : cpu unit :=
  eaddr <- BX_CPU_RESOLVE_ADDR i ;;
  op1_8 <- BX_READ_8BIT_REGx (dst i) (extend8bitL i) ;;
  op2_8 <- read_virtual_byte (seg i) eaddr ;;
  let diff_8 := u32 (op1_8 - op2_8) in
  BX_WRITE_8BIT_REGx (dst i) (extend8bitL i) diff_8 ;;;
  put_lazy (SET_FLAGS_OSZAPC_SUB 8 op1_8 op2_8 diff_8) ;;;
  BX_NEXT_INSTR.

Definition CMP_EbGbM (i : bxInstruction_c) : cpu unit :=
  eaddr <- BX_CPU_RESOLVE_ADDR i ;;
  op1_8 <- read_virtual_byte (seg i) eaddr ;;
  op2_8 <- BX_READ_8BIT_REGx (src i) (extend8bitL i) ;;
  let diff_8 := u32 (op1_8 - op2_8) in
  put_lazy (SET_FLAGS_OSZAPC_SUB 8 op1_8 op2_8 diff_8) ;;;
  BX_NEXT_INSTR.

Definition CMP_GbEbR (i : bxInstruction_c) : cpu unit :=
  op1_8 <- BX_READ_8BIT_REGx (dst i) (extend8bitL i) ;;
  op2_8 <- BX_READ_8BIT_REGx (src i) (extend8bitL i) ;;
  let diff_8 := u32 (op1_8 - op2_8) in
  put_lazy (SET_FLAGS_OSZAPC_SUB 8 op1_8 op2_8 diff_8) ;;;
  BX_NEXT_INSTR.

Definition CMP_GbEbM (i : bxInstruction_c) : cpu unit :=
  eaddr <- BX_CPU_RESOLVE_ADDR i ;;
  op1_8 <- BX_READ_8BIT_REGx (dst i) (extend8bitL i) ;;
  op2_8 <- read_virtual_byte (seg i) eaddr ;;
  let diff_8 := u32 (op1_8 - op2_8) in
  put_lazy (SET_FLAGS_OSZAPC_SUB 8 op1_8 op2_8 diff_8) ;;;
  BX_NEXT_INSTR.

Definition XADD_EbGbM (i : bxInstruction_c) : cpu unit :=
  eaddr <- BX_CPU_RESOLVE_ADDR i ;;
  op1 <- read_RMW_virtual_byte (seg i) eaddr ;;
  op2 <- BX_READ_8BIT_REGx (src i) (extend8bitL i) ;;
  let sum := u32 (op1 + op2) in
  write_RMW_linear_byte sum ;;;
  BX_WRITE_8BIT_REGx (src i) (extend8bitL i) op1 ;;;
  put_lazy (SET_FLAGS_OSZAPC_ADD 8 op1 op2 sum) ;;;
  BX_NEXT_INSTR.

Definition XADD_EbGbR (i : bxInstruction_c) : cpu unit :=
  op1 <- BX_READ_8BIT_REGx (dst i) (extend8bitL i) ;;
  op2 <- BX_READ_8BIT_REGx (src i) (extend8bitL i) ;;
  let sum := u32 (op1 + op2) in
  BX_WRITE_8BIT_REGx (src i) (extend8bitL i) op1 ;;;
  BX_WRITE_8BIT_REGx (dst i) (extend8bitL i) sum ;;;
  put_lazy (SET_FLAGS_OSZAPC_ADD 8 op1 op2 sum) ;;;
  BX_NEXT_INSTR.

Definition ADD_EbIbM (i : bxInstruction_c) : cpu unit :=
  eaddr <- BX_CPU_RESOLVE_ADDR i ;;
  op1 <- read_RMW_virtual_byte (seg i) eaddr ;;
  let op2 := Ib i in
  let sum := u32 (op1 + op2) in
  write_RMW_linear_byte sum ;;;
  put_lazy (SET_FLAGS_OSZAPC_ADD 8 op1 op2 sum) ;;;
  BX_NEXT_INSTR.

Definition ADD_EbIbR (i : bxInstruction_c) : cpu unit :=
  op1 <- BX_READ_8BIT_REGx (dst i) (extend8bitL i) ;;
  let op2 := Ib i in
  let sum := u32 (op1 + op2) in
  BX_WRITE_8BIT_REGx (dst i) (extend8bitL i) sum ;;;
  put_lazy (SET_FLAGS_OSZAPC_ADD 8 op1 op2 sum) ;;;
  BX_NEXT_INSTR.

Definition ADC_EbIbM (i : bxInstruction_c) : cpu unit :=
  eaddr <- BX_CPU_RESOLVE_ADDR i ;;
  op1 <- read_RMW_virtual_byte (seg i) eaddr ;;
  let op2 := Ib i in
  cf_in <- cpu_getB_CF ;;
  let sum := u32 ((op1 + op2) + cf_in) in
  write_RMW_linear_byte sum ;;;
  put_lazy (SET_FLAGS_OSZAPC_ADD 8 op1 op2 sum) ;;;
  BX_NEXT_INSTR.

Definition ADC_EbIbR (i : bxInstruction_c) : cpu unit :=
  op1 <- BX_READ_8BIT_REGx (dst i) (extend8bitL i) ;;
  let op2 := Ib i in
  cf_in <- cpu_getB_CF ;;
  let sum := u32 ((op1 + op2) + cf_in) in
  BX_WRITE_8BIT_REGx (dst i) (extend8bitL i) sum ;;;
  put_lazy (SET_FLAGS_OSZAPC_ADD 8 op1 op2 sum) ;;;
  BX_NEXT_INSTR.

Definition SUB_EbIbM (i : bxInstruction_c) : cpu unit :=
  eaddr <- BX_CPU_RESOLVE_ADDR i ;;
  op1_8 <- read_RMW_virtual_byte (seg i) eaddr ;;
  let op2_8 := Ib i in
  let diff_8 := u32 (op1_8 - op2_8) in
  write_RMW_linear_byte diff_8 ;;;
  put_lazy (SET_FLAGS_OSZAPC_SUB 8 op1_8 op2_8 diff_8) ;;;
  BX_NEXT_INSTR.

Definition SUB_EbIbR (i : bxInstruction_c) : cpu unit :=
  op1_8 <- BX_READ_8BIT_REGx (dst i) (extend8bitL i) ;;
  let op2_8 := Ib i in
  let diff_8 := u32 (op1_8 - op2_8) in
  BX_WRITE_8BIT_REGx (dst i) (extend8bitL i) diff_8 ;;;
  put_lazy (SET_FLAGS_OSZAPC_SUB 8 op1_8 op2_8 diff_8) ;;;
  BX_NEXT_INSTR.

Definition CMP_EbIbM (i : bxInstruction_c) : cpu unit :=
  eaddr <- BX_CPU_RESOLVE_ADDR i ;;
  op1_8 <- read_virtual_byte (seg i) eaddr ;;
  let op2_8 := Ib i in
  let diff_8 := u32 (op1_8 - op2_8) in
  put_lazy (SET_FLAGS_OSZAPC_SUB 8 op1_8 op2_8 diff_8) ;;;
  BX_NEXT_INSTR.

Definition CMP_EbIbR (i : bxInstruction_c) : cpu unit :=
  op1_8 <- BX_READ_8BIT_REGx (dst i) (extend8bitL i) ;;
  let op2_8 := Ib i in
  let diff_8 := u32 (op1_8 - op2_8) in
  put_lazy (SET_FLAGS_OSZAPC_SUB 8 op1_8 op2_8 diff_8) ;;;
  BX_NEXT_INSTR.

Definition NEG_EbM (i : bxInstruction_c) : cpu unit :=
  eaddr <- BX_CPU_RESOLVE_ADDR i ;;
  op1_8 <- read_RMW_virtual_byte (seg i) eaddr ;;
  let op1_8 := u32 (- (signed 8 op1_8)) in
  write_RMW_linear_byte op1_8 ;;;
  put_lazy (SET_FLAGS_OSZAPC_SUB 8 0 (u32 (0 - op1_8)) op1_8) ;;;
  BX_NEXT_INSTR.

Definition NEG_EbR (i : bxInstruction_c) : cpu unit :=
  op1_8 <- BX_READ_8BIT_REGx (dst i) (extend8bitL i) ;;
  let op1_8 := u32 (- (signed 8 op1_8)) in
  BX_WRITE_8BIT_REGx (dst i) (extend8bitL i) op1_8 ;;;
  put_lazy (SET_FLAGS_OSZAPC_SUB 8 0 (u32 (0 - op1_8)) op1_8) ;;;
  BX_NEXT_INSTR.

Definition INC_EbM (i : bxInstruction_c) : cpu unit :=
  eaddr <- BX_CPU_RESOLVE_ADDR i ;;
  op1_8 <- read_RMW_virtual_byte (seg i) eaddr ;;
  let op1_8 := u32 (op1_8 + 1) in
  write_RMW_linear_byte op1_8 ;;;
  modify_lazy (SET_FLAGS_OSZAP_ADD 8 (u32 (op1_8 - 1)) 0 op1_8) ;;;
  BX_NEXT_INSTR.

Definition INC_EbR (i : bxInstruction_c) : cpu unit :=
  op1_8 <- BX_READ_8BIT_REGx (dst i) (extend8bitL i) ;;
  let op1_8 := u32 (op1_8 + 1) in
  BX_WRITE_8BIT_REGx (dst i) (extend8bitL i) op1_8 ;;;
  modify_lazy (SET_FLAGS_OSZAP_ADD 8 (u32 (op1_8 - 1)) 0 op1_8) ;;;
  BX_NEXT_INSTR.

Definition DEC_EbM (i : bxInstruction_c) : cpu unit :=
  eaddr <- BX_CPU_RESOLVE_ADDR i ;;
  op1_8 <- read_RMW_virtual_byte (seg i) eaddr ;;
  let op1_8 := u32 (op1_8 - 1) in
  write_RMW_linear_byte op1_8 ;;;
  modify_lazy (SET_FLAGS_OSZAP_SUB 8 (u32 (op1_8 + 1)) 0 op1_8) ;;;
  BX_NEXT_INSTR.

Definition DEC_EbR (i : bxInstruction_c) : cpu unit :=
  op1_8 <- BX_READ_8BIT_REGx (dst i) (extend8bitL i) ;;
  let op1_8 := u32 (op1_8 - 1) in
  BX_WRITE_8BIT_REGx (dst i) (extend8bitL i) op1_8 ;;;
  modify_lazy (SET_FLAGS_OSZAP_SUB 8 (u32 (op1_8 + 1)) 0 op1_8) ;;;
  BX_NEXT_INSTR.

Definition CMPXCHG_EbGbM (i : bxInstruction_c) : cpu unit :=
  eaddr <- BX_CPU_RESOLVE_ADDR i ;;
  op1_8 <- read_RMW_virtual_byte (seg i) eaddr ;;
  al <- AL ;;
  let diff_8 := u32 (al - op1_8) in
  al <- AL ;;
  put_lazy (SET_FLAGS_OSZAPC_SUB 8 al op1_8 diff_8) ;;;
  if diff_8 =? 0 then
    op2_8 <- BX_READ_8BIT_REGx (src i) (extend8bitL i) ;;
    write_RMW_linear_byte op2_8 ;;;
    BX_NEXT_INSTR
  else
    write_RMW_linear_byte op1_8 ;;;
    set_AL op1_8 ;;;
    BX_NEXT_INSTR.

Definition CMPXCHG_EbGbR (i : bxInstruction_c) : cpu unit :=
  op1_8 <- BX_READ_8BIT_REGx (dst i) (extend8bitL i) ;;
  al <- AL ;;
  let diff_8 := u32 (al - op1_8) in
  al <- AL ;;
  put_lazy (SET_FLAGS_OSZAPC_SUB 8 al op1_8 diff_8) ;;;
  if diff_8 =? 0 then
    op2_8 <- BX_READ_8BIT_REGx (src i) (extend8bitL i) ;;
    BX_WRITE_8BIT_REGx (dst i) (extend8bitL i) op2_8 ;;;
    BX_NEXT_INSTR
  else
    set_AL op1_8 ;;;
    BX_NEXT_INSTR.

(** ** cpu/logical8.cc *)

Definition XOR_EbGbM (i : bxInstruction_c) : cpu unit :=
  eaddr <- BX_CPU_RESOLVE_ADDR i ;;
  op1 <- read_RMW_virtual_byte (seg i) eaddr ;;
  op2 <- BX_READ_8BIT_REGx (src i) (extend8bitL i) ;;
  let op1 := u8 (Z.lxor op1 op2) in
  write_RMW_linear_byte op1 ;;;
  put_lazy (SET_FLAGS_OSZAPC_LOGIC 8 op1) ;;;
  BX_NEXT_INSTR.

Definition XOR_GbEbR (i : bxInstruction_c) : cpu unit :=
  op1 <- BX_READ_8BIT_REGx (dst i) (extend8bitL i) ;;
  op2 <- BX_READ_8BIT_REGx (src i) (extend8bitL i) ;;
  let op1 := u8 (Z.lxor op1 op2) in
  BX_WRITE_8BIT_REGx (dst i) (extend8bitL i) op1 ;;;
  put_lazy (SET_FLAGS_OSZAPC_LOGIC 8 op1) ;;;
  BX_NEXT_INSTR.

Definition XOR_GbEbM (i : bxInstruction_c) : cpu unit :=
  eaddr <- BX_CPU_RESOLVE_ADDR i ;;
  op1 <- BX_READ_8BIT_REGx (dst i) (extend8bitL i) ;;
  op2 <- read_virtual_byte (seg i) eaddr ;;
  let op1 := u8 (Z.lxor op1 op2) in
  BX_WRITE_8BIT_REGx (dst i) (extend8bitL i) op1 ;;;
  put_lazy (SET_FLAGS_OSZAPC_LOGIC 8 op1) ;;;
  BX_NEXT_INSTR.

Definition XOR_EbIbM (i : bxInstruction_c) : cpu unit :=
  let op2 := Ib i in
  eaddr <- BX_CPU_RESOLVE_ADDR i ;;
  op1 <- read_RMW_virtual_byte (seg i) eaddr ;;
  let op1 := u8 (Z.lxor op1 op2) in
  write_RMW_linear_byte op1 ;;;
  put_lazy (SET_FLAGS_OSZAPC_LOGIC 8 op1) ;;;
  BX_NEXT_INSTR.

Definition XOR_EbIbR (i : bxInstruction_c) : cpu unit :=
  let op2 := Ib i in
  op1 <- BX_READ_8BIT_REGx (dst i) (extend8bitL i) ;;
  let op1 := u8 (Z.lxor op1 op2) in
  BX_WRITE_8BIT_REGx (dst i) (extend8bitL i) op1 ;;;
  put_lazy (SET_FLAGS_OSZAPC_LOGIC 8 op1) ;;;
  BX_NEXT_INSTR.

Definition OR_EbIbM (i : bxInstruction_c) : cpu unit :=
  let op2 := Ib i in
  eaddr <- BX_CPU_RESOLVE_ADDR i ;;
  op1 <- read_RMW_virtual_byte (seg i) eaddr ;;
  let op1 := u8 (Z.lor op1 op2) in
  write_RMW_linear_byte op1 ;;;
  put_lazy (SET_FLAGS_OSZAPC_LOGIC 8 op1) ;;;
  BX_NEXT_INSTR.

Definition OR_EbIbR (i : bxInstruction_c) : cpu unit :=
  let op2 := Ib i in
  op1 <- BX_READ_8BIT_REGx (dst i) (extend8bitL i) ;;
  let op1 := u8 (Z.lor op1 op2) in
  BX_WRITE_8BIT_REGx (dst i) (extend8bitL i) op1 ;;;
  put_lazy (SET_FLAGS_OSZAPC_LOGIC 8 op1) ;;;
  BX_NEXT_INSTR.

Definition NOT_EbM (i : bxInstruction_c) : cpu unit :=
  eaddr <- BX_CPU_RESOLVE_ADDR i ;;
  op1_8 <- read_RMW_virtual_byte (seg i) eaddr ;;
  let op1_8 := u8 (Z.lnot op1_8) in
  write_RMW_linear_byte op1_8 ;;;
  BX_NEXT_INSTR.

Definition NOT_EbR (i : bxInstruction_c) : cpu unit :=
  op1_8 <- BX_READ_8BIT_REGx (dst i) (extend8bitL i) ;;
  let op1_8 := u8 (Z.lnot op1_8) in
  BX_WRITE_8BIT_REGx (dst i) (extend8bitL i) op1_8 ;;;
  BX_NEXT_INSTR.

Definition OR_EbGbM (i : bxInstruction_c) : cpu unit :=
  eaddr <- BX_CPU_RESOLVE_ADDR i ;;
  op1 <- read_RMW_virtual_byte (seg i) eaddr ;;
  op2 <- BX_READ_8BIT_REGx (src i) (extend8bitL i) ;;
  let op1 := u8 (Z.lor op1 op2) in
  write_RMW_linear_byte op1 ;;;
  put_lazy (SET_FLAGS_OSZAPC_LOGIC 8 op1) ;;;
  BX_NEXT_INSTR.

Definition OR_GbEbR (i : bxInstruction_c) : cpu unit :=
  op1 <- BX_READ_8BIT_REGx (dst i) (extend8bitL i) ;;
  op2 <- BX_READ_8BIT_REGx (src i) (extend8bitL i) ;;
  let op1 := u8 (Z.lor op1 op2) in
  BX_WRITE_8BIT_REGx (dst i) (extend8bitL i) op1 ;;;
  put_lazy (SET_FLAGS_OSZAPC_LOGIC 8 op1) ;;;
  BX_NEXT_INSTR.

Definition OR_GbEbM (i : bxInstruction_c) : cpu unit :=
  eaddr <- BX_CPU_RESOLVE_ADDR i ;;
  op1 <- BX_READ_8BIT_REGx (dst i) (extend8bitL i) ;;
  op2 <- read_virtual_byte (seg i) eaddr ;;
  let op1 := u8 (Z.lor op1 op2) in
  BX_WRITE_8BIT_REGx (dst i) (extend8bitL i) op1 ;;;
  put_lazy (SET_FLAGS_OSZAPC_LOGIC 8 op1) ;;;
  BX_NEXT_INSTR.

Definition AND_EbGbM (i : bxInstruction_c) : cpu unit :=
  eaddr <- BX_CPU_RESOLVE_ADDR i ;;
  op1 <- read_RMW_virtual_byte (seg i) eaddr ;;
  op2 <- BX_READ_8BIT_REGx (src i) (extend8bitL i) ;;
  let op1 := Z.land op1 op2 in
  write_RMW_linear_byte op1 ;;;
  put_lazy (SET_FLAGS_OSZAPC_LOGIC 8 op1) ;;;
  BX_NEXT_INSTR.

Definition AND_GbEbR (i : bxInstruction_c) : cpu unit :=
  op1 <- BX_READ_8BIT_REGx (dst i) (extend8bitL i) ;;
  op2 <- BX_READ_8BIT_REGx (src i) (extend8bitL i) ;;
  let op1 := Z.land op1 op2 in
  BX_WRITE_8BIT_REGx (dst i) (extend8bitL i) op1 ;;;
  put_lazy (SET_FLAGS_OSZAPC_LOGIC 8 op1) ;;;
  BX_NEXT_INSTR.

Definition AND_GbEbM (i : bxInstruction_c) : cpu unit :=
  eaddr <- BX_CPU_RESOLVE_ADDR i ;;
  op1 <- BX_READ_8BIT_REGx (dst i) (extend8bitL i) ;;
  op2 <- read_virtual_byte (seg i) eaddr ;;
  let op1 := Z.land op1 op2 in
  BX_WRITE_8BIT_REGx (dst i) (extend8bitL i) op1 ;;;
  put_lazy (SET_FLAGS_OSZAPC_LOGIC 8 op1) ;;;
  BX_NEXT_INSTR.

Definition AND_EbIbM (i : bxInstruction_c) : cpu unit :=
  let op2 := Ib i in
  eaddr <- BX_CPU_RESOLVE_ADDR i ;;
  op1 <- read_RMW_virtual_byte (seg i) eaddr ;;
  let op1 := Z.land op1 op2 in
  write_RMW_linear_byte op1 ;;;
  put_lazy (SET_FLAGS_OSZAPC_LOGIC 8 op1) ;;;
  BX_NEXT_INSTR.

Definition AND_EbIbR (i : bxInstruction_c) : cpu unit :=
  let op2 := Ib i in
  op1 <- BX_READ_8BIT_REGx (dst i) (extend8bitL i) ;;
  let op1 := Z.land op1 op2 in
  BX_WRITE_8BIT_REGx (dst i) (extend8bitL i) op1 ;;;
  put_lazy (SET_FLAGS_OSZAPC_LOGIC 8 op1) ;;;
  BX_NEXT_INSTR.

Definition TEST_EbGbR (i : bxInstruction_c) : cpu unit :=
  op1 <- BX_READ_8BIT_REGx (dst i) (extend8bitL i) ;;
  op2 <- BX_READ_8BIT_REGx (src i) (extend8bitL i) ;;
  let op1 := Z.land op1 op2 in
  put_lazy (SET_FLAGS_OSZAPC_LOGIC 8 op1) ;;;
  BX_NEXT_INSTR.

Definition TEST_EbGbM (i : bxInstruction_c) : cpu unit :=
  eaddr <- BX_CPU_RESOLVE_ADDR i ;;
  op1 <- read_virtual_byte (seg i) eaddr ;;
  op2 <- BX_READ_8BIT_REGx (src i) (extend8bitL i) ;;
  let op1 := Z.land op1 op2 in
  put_lazy (SET_FLAGS_OSZAPC_LOGIC 8 op1) ;;;
  BX_NEXT_INSTR.

Definition TEST_EbIbR (i : bxInstruction_c) : cpu unit :=
  op1 <- BX_READ_8BIT_REGx (dst i) (extend8bitL i) ;;
  let op1 := Z.land op1 (Ib i) in
  put_lazy (SET_FLAGS_OSZAPC_LOGIC 8 op1) ;;;
  BX_NEXT_INSTR.

Definition TEST_EbIbM (i : bxInstruction_c) : cpu unit :=
  eaddr <- BX_CPU_RESOLVE_ADDR i ;;
  op1 <- read_virtual_byte (seg i) eaddr ;;
  let op1 := Z.land op1 (Ib i) in
  put_lazy (SET_FLAGS_OSZAPC_LOGIC 8 op1) ;;;
  BX_NEXT_INSTR.

End Handlers.
