(* ===== verification/Arith16.v ===== *)
(** * 16-bit arithmetic and logic instructions (cpu/arith16.cc, cpu/logical16.cc)

    One definition per instruction handler, in the order of the files.  The
    suffix M is the form with a memory operand, R the register form. *)

From Stdlib Require Import ZArith Lia List Bool.
From S2P Require Import Prelude LazyFlags Cpu.
Open Scope Z_scope.

Section Handlers.
Context {M : Type} `{VirtualMemory M}.
Abbreviation cpu := (cpu bx_lazyflags_entry M).

(** ** cpu/arith16.cc *)

Definition INC_EwR (i : bxInstruction_c) : cpu unit :=
  rx <- BX_READ_16BIT_REG (dst i) ;;
  let rx := u16 (rx + 1) in
  BX_WRITE_16BIT_REG (dst i) rx ;;;
  modify_lazy (SET_FLAGS_OSZAP_ADD 16 (u32 (rx - 1)) 0 rx) ;;;
  BX_NEXT_INSTR.

Definition DEC_EwR (i : bxInstruction_c) : cpu unit :=
  rx <- BX_READ_16BIT_REG (dst i) ;;
  let rx := u16 (rx - 1) in
  BX_WRITE_16BIT_REG (dst i) rx ;;;
  modify_lazy (SET_FLAGS_OSZAP_SUB 16 (u32 (rx + 1)) 0 rx) ;;;
  BX_NEXT_INSTR.

Definition ADD_EwGwM (i : bxInstruction_c) : cpu unit :=
  eaddr <- BX_CPU_RESOLVE_ADDR i ;;
  op1_16 <- read_RMW_virtual_word (seg i) eaddr ;;
  op2_16 <- BX_READ_16BIT_REG (src i) ;;
  let sum_16 := u32 (op1_16 + op2_16) in
  write_RMW_linear_word sum_16 ;;;
  put_lazy (SET_FLAGS_OSZAPC_ADD 16 op1_16 op2_16 sum_16) ;;;
  BX_NEXT_INSTR.

Definition ADD_GwEwR (i : bxInstruction_c) : cpu unit :=
  op1_16 <- BX_READ_16BIT_REG (dst i) ;;
  op2_16 <- BX_READ_16BIT_REG (src i) ;;
  let sum_16 := u32 (op1_16 + op2_16) in
  BX_WRITE_16BIT_REG (dst i) sum_16 ;;;
  put_lazy (SET_FLAGS_OSZAPC_ADD 16 op1_16 op2_16 sum_16) ;;;
  BX_NEXT_INSTR.

Definition ADD_GwEwM (i : bxInstruction_c) : cpu unit :=
  eaddr <- BX_CPU_RESOLVE_ADDR i ;;
  op1_16 <- BX_READ_16BIT_REG (dst i) ;;
  op2_16 <- read_virtual_word (seg i) eaddr ;;
  let sum_16 := u32 (op1_16 + op2_16) in
  BX_WRITE_16BIT_REG (dst i) sum_16 ;;;
  put_lazy (SET_FLAGS_OSZAPC_ADD 16 op1_16 op2_16 sum_16) ;;;
  BX_NEXT_INSTR.

Definition ADC_EwGwM (i : bxInstruction_c) : cpu unit :=
  eaddr <- BX_CPU_RESOLVE_ADDR i ;;
  op1_16 <- read_RMW_virtual_word (seg i) eaddr ;;
  op2_16 <- BX_READ_16BIT_REG (src i) ;;
  cf_in <- cpu_getB_CF ;;
  let sum_16 := u32 ((op1_16 + op2_16) + cf_in) in
  write_RMW_linear_word sum_16 ;;;
  put_lazy (SET_FLAGS_OSZAPC_ADD 16 op1_16 op2_16 sum_16) ;;;
  BX_NEXT_INSTR.

Definition ADC_GwEwR (i : bxInstruction_c) : cpu unit :=
  op1_16 <- BX_READ_16BIT_REG (dst i) ;;
  op2_16 <- BX_READ_16BIT_REG (src i) ;;
  cf_in <- cpu_getB_CF ;;
  let sum_16 := u32 ((op1_16 + op2_16) + cf_in) in
  BX_WRITE_16BIT_REG (dst i) sum_16 ;;;
  put_lazy (SET_FLAGS_OSZAPC_ADD 16 op1_16 op2_16 sum_16) ;;;
  BX_NEXT_INSTR.

Definition ADC_GwEwM (i : bxInstruction_c) : cpu unit :=
  eaddr <- BX_CPU_RESOLVE_ADDR i ;;
  op1_16 <- BX_READ_16BIT_REG (dst i) ;;
  op2_16 <- read_virtual_word (seg i) eaddr ;;
  cf_in <- cpu_getB_CF ;;
  let sum_16 := u32 ((op1_16 + op2_16) + cf_in) in
  BX_WRITE_16BIT_REG (dst i) sum_16 ;;;
  put_lazy (SET_FLAGS_OSZAPC_ADD 16 op1_16 op2_16 sum_16) ;;;
  BX_NEXT_INSTR.

Definition SBB_EwGwM (i : bxInstruction_c) : cpu unit :=
  eaddr <- BX_CPU_RESOLVE_ADDR i ;;
  op1_16 <- read_RMW_virtual_word (seg i) eaddr ;;
  op2_16 <- BX_READ_16BIT_REG (src i) ;;
  cf_in <- cpu_getB_CF ;;
  let diff_16 := u32 (op1_16 - (op2_16 + cf_in)) in
  write_RMW_linear_word diff_16 ;;;
  put_lazy (SET_FLAGS_OSZAPC_SUB 16 op1_16 op2_16 diff_16) ;;;
  BX_NEXT_INSTR.

Definition SBB_GwEwR (i : bxInstruction_c) : cpu unit :=
  op1_16 <- BX_READ_16BIT_REG (dst i) ;;
  op2_16 <- BX_READ_16BIT_REG (src i) ;;
  cf_in <- cpu_getB_CF ;;
  let diff_16 := u32 (op1_16 - (op2_16 + cf_in)) in
  BX_WRITE_16BIT_REG (dst i) diff_16 ;;;
  put_lazy (SET_FLAGS_OSZAPC_SUB 16 op1_16 op2_16 diff_16) ;;;
  BX_NEXT_INSTR.

Definition SBB_GwEwM (i : bxInstruction_c) : cpu unit :=
  eaddr <- BX_CPU_RESOLVE_ADDR i ;;
  op1_16 <- BX_READ_16BIT_REG (dst i) ;;
  op2_16 <- read_virtual_word (seg i) eaddr ;;
  cf_in <- cpu_getB_CF ;;
  let diff_16 := u32 (op1_16 - (op2_16 + cf_in)) in
  BX_WRITE_16BIT_REG (dst i) diff_16 ;;;
  put_lazy (SET_FLAGS_OSZAPC_SUB 16 op1_16 op2_16 diff_16) ;;;
  BX_NEXT_INSTR.

Definition SBB_EwIwM (i : bxInstruction_c) : cpu unit :=
  eaddr <- BX_CPU_RESOLVE_ADDR i ;;
  op1_16 <- read_RMW_virtual_word (seg i) eaddr ;;
  let op2_16 := Iw i in
  cf_in <- cpu_getB_CF ;;
  let diff_16 := u32 (op1_16 - (op2_16 + cf_in)) in
  write_RMW_linear_word diff_16 ;;;
  put_lazy (SET_FLAGS_OSZAPC_SUB 16 op1_16 op2_16 diff_16) ;;;
  BX_NEXT_INSTR.

Definition SBB_EwIwR (i : bxInstruction_c) : cpu unit :=
  op1_16 <- BX_READ_16BIT_REG (dst i) ;;
  let op2_16 := Iw i in
  cf_in <- cpu_getB_CF ;;
  let diff_16 := u32 (op1_16 - (op2_16 + cf_in)) in
  BX_WRITE_16BIT_REG (dst i) diff_16 ;;;
  put_lazy (SET_FLAGS_OSZAPC_SUB 16 op1_16 op2_16 diff_16) ;;;
  BX_NEXT_INSTR.

Definition SUB_EwGwM (i : bxInstruction_c) : cpu unit :=
  eaddr <- BX_CPU_RESOLVE_ADDR i ;;
  op1_16 <- read_RMW_virtual_word (seg i) eaddr ;;
  op2_16 <- BX_READ_16BIT_REG (src i) ;;
  let diff_16 := u32 (op1_16 - op2_16) in
  write_RMW_linear_word diff_16 ;;;
  put_lazy (SET_FLAGS_OSZAPC_SUB 16 op1_16 op2_16 diff_16) ;;;
  BX_NEXT_INSTR.

Definition SUB_GwEwR (i : bxInstruction_c) : cpu unit :=
  op1_16 <- BX_READ_16BIT_REG (dst i) ;;
  op2_16 <- BX_READ_16BIT_REG (src i) ;;
  let diff_16 := u32 (op1_16 - op2_16) in
  BX_WRITE_16BIT_REG (dst i) diff_16 ;;;
  put_lazy (SET_FLAGS_OSZAPC_SUB 16 op1_16 op2_16 diff_16) ;;;
  BX_NEXT_INSTR.

Definition SUB_GwEwM (i : bxInstruction_c) : cpu unit :=
  eaddr <- BX_CPU_RESOLVE_ADDR i ;;
  op1_16 <- BX_READ_16BIT_REG (dst i) ;;
  op2_16 <- read_virtual_word (seg i) eaddr ;;
  let diff_16 := u32 (op1_16 - op2_16) in
  BX_WRITE_16BIT_REG (dst i) diff_16 ;;;
  put_lazy (SET_FLAGS_OSZAPC_SUB 16 op1_16 op2_16 diff_16) ;;;
  BX_NEXT_INSTR.

Definition CMP_EwGwM (i : bxInstruction_c) : cpu unit :=
  eaddr <- BX_CPU_RESOLVE_ADDR i ;;
  op1_16 <- read_virtual_word (seg i) eaddr ;;
  op2_16 <- BX_READ_16BIT_REG (src i) ;;
  let diff_16 := u32 (op1_16 - op2_16) in
  put_lazy (SET_FLAGS_OSZAPC_SUB 16 op1_16 op2_16 diff_16) ;;;
  BX_NEXT_INSTR.

Definition CMP_GwEwR (i : bxInstruction_c) : cpu unit :=
  op1_16 <- BX_READ_16BIT_REG (dst i) ;;
  op2_16 <- BX_READ_16BIT_REG (src i) ;;
  let diff_16 := u32 (op1_16 - op2_16) in
  put_lazy (SET_FLAGS_OSZAPC_SUB 16 op1_16 op2_16 diff_16) ;;;
  BX_NEXT_INSTR.

Definition CMP_GwEwM (i : bxInstruction_c) : cpu unit :=
  eaddr <- BX_CPU_RESOLVE_ADDR i ;;
  op1_16 <- BX_READ_16BIT_REG (dst i) ;;
  op2_16 <- read_virtual_word (seg i) eaddr ;;
  let diff_16 := u32 (op1_16 - op2_16) in
  put_lazy (SET_FLAGS_OSZAPC_SUB 16 op1_16 op2_16 diff_16) ;;;
  BX_NEXT_INSTR.

Definition CBW (i : bxInstruction_c) : cpu unit :=
  al <- AL ;;
  set_AX (signed 8 al) ;;;
  BX_NEXT_INSTR.

Definition CWD (i : bxInstruction_c) : cpu unit :=
  ax <- AX ;;
  if negb ((Z.land ax 0x8000) =? 0) then
    set_DX 0xFFFF ;;;
    BX_NEXT_INSTR
  else
    set_DX 0x0000 ;;;
    BX_NEXT_INSTR.

Definition XADD_EwGwM (i : bxInstruction_c) : cpu unit :=
  eaddr <- BX_CPU_RESOLVE_ADDR i ;;
  op1_16 <- read_RMW_virtual_word (seg i) eaddr ;;
  op2_16 <- BX_READ_16BIT_REG (src i) ;;
  let sum_16 := u32 (op1_16 + op2_16) in
  write_RMW_linear_word sum_16 ;;;
  BX_WRITE_16BIT_REG (src i) op1_16 ;;;
  put_lazy (SET_FLAGS_OSZAPC_ADD 16 op1_16 op2_16 sum_16) ;;;
  BX_NEXT_INSTR.

Definition XADD_EwGwR (i : bxInstruction_c) : cpu unit :=
  op1_16 <- BX_READ_16BIT_REG (dst i) ;;
  op2_16 <- BX_READ_16BIT_REG (src i) ;;
  let sum_16 := u32 (op1_16 + op2_16) in
  BX_WRITE_16BIT_REG (src i) op1_16 ;;;
  BX_WRITE_16BIT_REG (dst i) sum_16 ;;;
  put_lazy (SET_FLAGS_OSZAPC_ADD 16 op1_16 op2_16 sum_16) ;;;
  BX_NEXT_INSTR.

Definition ADD_EwIwM (i : bxInstruction_c) : cpu unit :=
  eaddr <- BX_CPU_RESOLVE_ADDR i ;;
  op1_16 <- read_RMW_virtual_word (seg i) eaddr ;;
  let op2_16 := Iw i in
  let sum_16 := u32 (op1_16 + op2_16) in
  write_RMW_linear_word sum_16 ;;;
  put_lazy (SET_FLAGS_OSZAPC_ADD 16 op1_16 op2_16 sum_16) ;;;
  BX_NEXT_INSTR.

Definition ADD_EwIwR (i : bxInstruction_c) : cpu unit :=
  op1_16 <- BX_READ_16BIT_REG (dst i) ;;
  let op2_16 := Iw i in
  let sum_16 := u32 (op1_16 + op2_16) in
  BX_WRITE_16BIT_REG (dst i) sum_16 ;;;
  put_lazy (SET_FLAGS_OSZAPC_ADD 16 op1_16 op2_16 sum_16) ;;;
  BX_NEXT_INSTR.

Definition ADC_EwIwM (i : bxInstruction_c) : cpu unit :=
  eaddr <- BX_CPU_RESOLVE_ADDR i ;;
  op1_16 <- read_RMW_virtual_word (seg i) eaddr ;;
  let op2_16 := Iw i in
  cf_in <- cpu_getB_CF ;;
  let sum_16 := u32 ((op1_16 + op2_16) + cf_in) in
  write_RMW_linear_word sum_16 ;;;
  put_lazy (SET_FLAGS_OSZAPC_ADD 16 op1_16 op2_16 sum_16) ;;;
  BX_NEXT_INSTR.

Definition ADC_EwIwR (i : bxInstruction_c) : cpu unit :=
  op1_16 <- BX_READ_16BIT_REG (dst i) ;;
  let op2_16 := Iw i in
  cf_in <- cpu_getB_CF ;;
  let sum_16 := u32 ((op1_16 + op2_16) + cf_in) in
  BX_WRITE_16BIT_REG (dst i) sum_16 ;;;
  put_lazy (SET_FLAGS_OSZAPC_ADD 16 op1_16 op2_16 sum_16) ;;;
  BX_NEXT_INSTR.

Definition SUB_EwIwM (i : bxInstruction_c) : cpu unit :=
  eaddr <- BX_CPU_RESOLVE_ADDR i ;;
  op1_16 <- read_RMW_virtual_word (seg i) eaddr ;;
  let op2_16 := Iw i in
  let diff_16 := u32 (op1_16 - op2_16) in
  write_RMW_linear_word diff_16 ;;;
  put_lazy (SET_FLAGS_OSZAPC_SUB 16 op1_16 op2_16 diff_16) ;;;
  BX_NEXT_INSTR.

Definition SUB_EwIwR (i : bxInstruction_c) : cpu unit :=
  op1_16 <- BX_READ_16BIT_REG (dst i) ;;
  let op2_16 := Iw i in
  let diff_16 := u32 (op1_16 - op2_16) in
  BX_WRITE_16BIT_REG (dst i) diff_16 ;;;
  put_lazy (SET_FLAGS_OSZAPC_SUB 16 op1_16 op2_16 diff_16) ;;;
  BX_NEXT_INSTR.

Definition CMP_EwIwM (i : bxInstruction_c) : cpu unit :=
  eaddr <- BX_CPU_RESOLVE_ADDR i ;;
  op1_16 <- read_virtual_word (seg i) eaddr ;;
  let op2_16 := Iw i in
  let diff_16 := u32 (op1_16 - op2_16) in
  put_lazy (SET_FLAGS_OSZAPC_SUB 16 op1_16 op2_16 diff_16) ;;;
  BX_NEXT_INSTR.

Definition CMP_EwIwR (i : bxInstruction_c) : cpu unit :=
  op1_16 <- BX_READ_16BIT_REG (dst i) ;;
  let op2_16 := Iw i in
  let diff_16 := u32 (op1_16 - op2_16) in
  put_lazy (SET_FLAGS_OSZAPC_SUB 16 op1_16 op2_16 diff_16) ;;;
  BX_NEXT_INSTR.

Definition NEG_EwM (i : bxInstruction_c) : cpu unit :=
  eaddr <- BX_CPU_RESOLVE_ADDR i ;;
  op1_16 <- read_RMW_virtual_word (seg i) eaddr ;;
  let op1_16 := u32 (0 - (signed 32 (signed 16 op1_16))) in
  write_RMW_linear_word op1_16 ;;;
  put_lazy (SET_FLAGS_OSZAPC_SUB 16 0 (u32 (0 - op1_16)) op1_16) ;;;
  BX_NEXT_INSTR.

Definition NEG_EwR (i : bxInstruction_c) : cpu unit :=
  op1_16 <- BX_READ_16BIT_REG (dst i) ;;
  let op1_16 := u32 (0 - (signed 32 (signed 16 op1_16))) in
  BX_WRITE_16BIT_REG (dst i) op1_16 ;;;
  put_lazy (SET_FLAGS_OSZAPC_SUB 16 0 (u32 (0 - op1_16)) op1_16) ;;;
  BX_NEXT_INSTR.

Definition INC_EwM (i : bxInstruction_c) : cpu unit :=
  eaddr <- BX_CPU_RESOLVE_ADDR i ;;
  op1_16 <- read_RMW_virtual_word (seg i) eaddr ;;
  let op1_16 := u32 (op1_16 + 1) in
  write_RMW_linear_word op1_16 ;;;
  modify_lazy (SET_FLAGS_OSZAP_ADD 16 (u32 (op1_16 - 1)) 0 op1_16) ;;;
  BX_NEXT_INSTR.

Definition DEC_EwM (i : bxInstruction_c) : cpu unit :=
  eaddr <- BX_CPU_RESOLVE_ADDR i ;;
  op1_16 <- read_RMW_virtual_word (seg i) eaddr ;;
  let op1_16 := u32 (op1_16 - 1) in
  write_RMW_linear_word op1_16 ;;;
  modify_lazy (SET_FLAGS_OSZAP_SUB 16 (u32 (op1_16 + 1)) 0 op1_16) ;;;
  BX_NEXT_INSTR.

Definition CMPXCHG_EwGwM (i : bxInstruction_c) : cpu unit :=
  eaddr <- BX_CPU_RESOLVE_ADDR i ;;
  op1_16 <- read_RMW_virtual_word (seg i) eaddr ;;
  ax <- AX ;;
  let diff_16 := u16 (ax - op1_16) in
  ax <- AX ;;
  put_lazy (SET_FLAGS_OSZAPC_SUB 16 ax op1_16 diff_16) ;;;
  if diff_16 =? 0 then
    t1 <- BX_READ_16BIT_REG (src i) ;;
    write_RMW_linear_word t1 ;;;
    BX_NEXT_INSTR
  else
    write_RMW_linear_word op1_16 ;;;
    set_AX op1_16 ;;;
    BX_NEXT_INSTR.

Definition CMPXCHG_EwGwR (i : bxInstruction_c) : cpu unit :=
  op1_16 <- BX_READ_16BIT_REG (dst i) ;;
  ax <- AX ;;
  let diff_16 := u16 (ax - op1_16) in
  ax <- AX ;;
  put_lazy (SET_FLAGS_OSZAPC_SUB 16 ax op1_16 diff_16) ;;;
  if diff_16 =? 0 then
    t1 <- BX_READ_16BIT_REG (src i) ;;
    BX_WRITE_16BIT_REG (dst i) t1 ;;;
    BX_NEXT_INSTR
  else
    set_AX op1_16 ;;;
    BX_NEXT_INSTR.

(** ** cpu/logical16.cc *)

Definition ZERO_IDIOM_GwR (i : bxInstruction_c) : cpu unit :=
  BX_WRITE_16BIT_REG (dst i) 0 ;;;
  put_lazy (SET_FLAGS_OSZAPC_LOGIC 16 0) ;;;
  BX_NEXT_INSTR.

Definition XOR_EwGwM (i : bxInstruction_c) : cpu unit :=
  eaddr <- BX_CPU_RESOLVE_ADDR i ;;
  op1_16 <- read_RMW_virtual_word (seg i) eaddr ;;
  op2_16 <- BX_READ_16BIT_REG (src i) ;;
  let op1_16 := u16 (Z.lxor op1_16 op2_16) in
  write_RMW_linear_word op1_16 ;;;
  put_lazy (SET_FLAGS_OSZAPC_LOGIC 16 op1_16) ;;;
  BX_NEXT_INSTR.

Definition XOR_GwEwR (i : bxInstruction_c) : cpu unit :=
  op1_16 <- BX_READ_16BIT_REG (dst i) ;;
  op2_16 <- BX_READ_16BIT_REG (src i) ;;
  let op1_16 := u16 (Z.lxor op1_16 op2_16) in
  BX_WRITE_16BIT_REG (dst i) op1_16 ;;;
  put_lazy (SET_FLAGS_OSZAPC_LOGIC 16 op1_16) ;;;
  BX_NEXT_INSTR.

Definition XOR_GwEwM (i : bxInstruction_c) : cpu unit :=
  eaddr <- BX_CPU_RESOLVE_ADDR i ;;
  op1_16 <- BX_READ_16BIT_REG (dst i) ;;
  op2_16 <- read_virtual_word (seg i) eaddr ;;
  let op1_16 := u16 (Z.lxor op1_16 op2_16) in
  BX_WRITE_16BIT_REG (dst i) op1_16 ;;;
  put_lazy (SET_FLAGS_OSZAPC_LOGIC 16 op1_16) ;;;
  BX_NEXT_INSTR.

Definition XOR_EwIwM (i : bxInstruction_c) : cpu unit :=
  eaddr <- BX_CPU_RESOLVE_ADDR i ;;
  op1_16 <- read_RMW_virtual_word (seg i) eaddr ;;
  let op1_16 := u16 (Z.lxor op1_16 (Iw i)) in
  write_RMW_linear_word op1_16 ;;;
  put_lazy (SET_FLAGS_OSZAPC_LOGIC 16 op1_16) ;;;
  BX_NEXT_INSTR.

Definition XOR_EwIwR (i : bxInstruction_c) : cpu unit :=
  op1_16 <- BX_READ_16BIT_REG (dst i) ;;
  let op1_16 := u16 (Z.lxor op1_16 (Iw i)) in
  BX_WRITE_16BIT_REG (dst i) op1_16 ;;;
  put_lazy (SET_FLAGS_OSZAPC_LOGIC 16 op1_16) ;;;
  BX_NEXT_INSTR.

Definition OR_EwIwM (i : bxInstruction_c) : cpu unit :=
  eaddr <- BX_CPU_RESOLVE_ADDR i ;;
  op1_16 <- read_RMW_virtual_word (seg i) eaddr ;;
  let op1_16 := u16 (Z.lor op1_16 (Iw i)) in
  write_RMW_linear_word op1_16 ;;;
  put_lazy (SET_FLAGS_OSZAPC_LOGIC 16 op1_16) ;;;
  BX_NEXT_INSTR.

Definition OR_EwIwR (i : bxInstruction_c) : cpu unit :=
  op1_16 <- BX_READ_16BIT_REG (dst i) ;;
  let op1_16 := u16 (Z.lor op1_16 (Iw i)) in
  BX_WRITE_16BIT_REG (dst i) op1_16 ;;;
  put_lazy (SET_FLAGS_OSZAPC_LOGIC 16 op1_16) ;;;
  BX_NEXT_INSTR.

Definition NOT_EwM (i : bxInstruction_c) : cpu unit :=
  eaddr <- BX_CPU_RESOLVE_ADDR i ;;
  op1_16 <- read_RMW_virtual_word (seg i) eaddr ;;
  let op1_16 := u16 (Z.lnot op1_16) in
  write_RMW_linear_word op1_16 ;;;
  BX_NEXT_INSTR.

Definition NOT_EwR (i : bxInstruction_c) : cpu unit :=
  op1_16 <- BX_READ_16BIT_REG (dst i) ;;
  let op1_16 := u16 (Z.lnot op1_16) in
  BX_WRITE_16BIT_REG (dst i) op1_16 ;;;
  BX_NEXT_INSTR.

Definition OR_EwGwM (i : bxInstruction_c) : cpu unit :=
  eaddr <- BX_CPU_RESOLVE_ADDR i ;;
  op1_16 <- read_RMW_virtual_word (seg i) eaddr ;;
  op2_16 <- BX_READ_16BIT_REG (src i) ;;
  let op1_16 := u16 (Z.lor op1_16 op2_16) in
  write_RMW_linear_word op1_16 ;;;
  put_lazy (SET_FLAGS_OSZAPC_LOGIC 16 op1_16) ;;;
  BX_NEXT_INSTR.

Definition OR_GwEwR (i : bxInstruction_c) : cpu unit :=
  op1_16 <- BX_READ_16BIT_REG (dst i) ;;
  op2_16 <- BX_READ_16BIT_REG (src i) ;;
  let op1_16 := u16 (Z.lor op1_16 op2_16) in
  BX_WRITE_16BIT_REG (dst i) op1_16 ;;;
  put_lazy (SET_FLAGS_OSZAPC_LOGIC 16 op1_16) ;;;
  BX_NEXT_INSTR.

Definition OR_GwEwM (i : bxInstruction_c) : cpu unit :=
  eaddr <- BX_CPU_RESOLVE_ADDR i ;;
  op1_16 <- BX_READ_16BIT_REG (dst i) ;;
  op2_16 <- read_virtual_word (seg i) eaddr ;;
  let op1_16 := u16 (Z.lor op1_16 op2_16) in
  BX_WRITE_16BIT_REG (dst i) op1_16 ;;;
  put_lazy (SET_FLAGS_OSZAPC_LOGIC 16 op1_16) ;;;
  BX_NEXT_INSTR.

Definition AND_EwGwM (i : bxInstruction_c) : cpu unit :=
  eaddr <- BX_CPU_RESOLVE_ADDR i ;;
  op1_16 <- read_RMW_virtual_word (seg i) eaddr ;;
  op2_16 <- BX_READ_16BIT_REG (src i) ;;
  let op1_16 := Z.land op1_16 op2_16 in
  write_RMW_linear_word op1_16 ;;;
  put_lazy (SET_FLAGS_OSZAPC_LOGIC 16 op1_16) ;;;
  BX_NEXT_INSTR.

Definition AND_GwEwR (i : bxInstruction_c) : cpu unit :=
  op1_16 <- BX_READ_16BIT_REG (dst i) ;;
  op2_16 <- BX_READ_16BIT_REG (src i) ;;
  let op1_16 := Z.land op1_16 op2_16 in
  BX_WRITE_16BIT_REG (dst i) op1_16 ;;;
  put_lazy (SET_FLAGS_OSZAPC_LOGIC 16 op1_16) ;;;
  BX_NEXT_INSTR.

Definition AND_GwEwM (i : bxInstruction_c) : cpu unit :=
  eaddr <- BX_CPU_RESOLVE_ADDR i ;;
  op1_16 <- BX_READ_16BIT_REG (dst i) ;;
  op2_16 <- read_virtual_word (seg i) eaddr ;;
  let op1_16 := Z.land op1_16 op2_16 in
  BX_WRITE_16BIT_REG (dst i) op1_16 ;;;
  put_lazy (SET_FLAGS_OSZAPC_LOGIC 16 op1_16) ;;;
  BX_NEXT_INSTR.

Definition AND_EwIwM (i : bxInstruction_c) : cpu unit :=
  eaddr <- BX_CPU_RESOLVE_ADDR i ;;
  op1_16 <- read_RMW_virtual_word (seg i) eaddr ;;
  let op1_16 := Z.land op1_16 (Iw i) in
  write_RMW_linear_word op1_16 ;;;
  put_lazy (SET_FLAGS_OSZAPC_LOGIC 16 op1_16) ;;;
  BX_NEXT_INSTR.

Definition AND_EwIwR (i : bxInstruction_c) : cpu unit :=
  op1_16 <- BX_READ_16BIT_REG (dst i) ;;
  let op1_16 := Z.land op1_16 (Iw i) in
  BX_WRITE_16BIT_REG (dst i) op1_16 ;;;
  put_lazy (SET_FLAGS_OSZAPC_LOGIC 16 op1_16) ;;;
  BX_NEXT_INSTR.

Definition TEST_EwGwR (i : bxInstruction_c) : cpu unit :=
  op1_16 <- BX_READ_16BIT_REG (dst i) ;;
  op2_16 <- BX_READ_16BIT_REG (src i) ;;
  let op1_16 := Z.land op1_16 op2_16 in
  put_lazy (SET_FLAGS_OSZAPC_LOGIC 16 op1_16) ;;;
  BX_NEXT_INSTR.

Definition TEST_EwGwM (i : bxInstruction_c) : cpu unit :=
  eaddr <- BX_CPU_RESOLVE_ADDR i ;;
  op1_16 <- read_virtual_word (seg i) eaddr ;;
  op2_16 <- BX_READ_16BIT_REG (src i) ;;
  let op1_16 := Z.land op1_16 op2_16 in
  put_lazy (SET_FLAGS_OSZAPC_LOGIC 16 op1_16) ;;;
  BX_NEXT_INSTR.

Definition TEST_EwIwR (i : bxInstruction_c) : cpu unit :=
  op1_16 <- BX_READ_16BIT_REG (dst i) ;;
  let op1_16 := Z.land op1_16 (Iw i) in
  put_lazy (SET_FLAGS_OSZAPC_LOGIC 16 op1_16) ;;;
  BX_NEXT_INSTR.

Definition TEST_EwIwM (i : bxInstruction_c) : cpu unit :=
  eaddr <- BX_CPU_RESOLVE_ADDR i ;;
  op1_16 <- read_virtual_word (seg i) eaddr ;;
  let op1_16 := Z.land op1_16 (Iw i) in
  put_lazy (SET_FLAGS_OSZAPC_LOGIC 16 op1_16) ;;;
  BX_NEXT_INSTR.

End Handlers.
