(* ===== verification/Arith32.v ===== *)
(** * 32-bit arithmetic and logic instructions (cpu/arith32.cc, cpu/logical32.cc)

    One definition per instruction handler, in the order of the files.  The
    suffix M is the form with a memory operand, R the register form. *)

From Stdlib Require Import ZArith Lia List Bool.
From S2P Require Import Prelude LazyFlags Cpu.
Open Scope Z_scope.

Section Handlers.
Context {M : Type} `{VirtualMemory M}.
Abbreviation cpu := (cpu bx_lazyflags_entry M).

(** ** cpu/arith32.cc *)

Definition INC_EdR (i : bxInstruction_c) : cpu unit :=
  erx <- BX_READ_32BIT_REG (dst i) ;;
  let erx := u32 (erx + 1) in
  BX_WRITE_32BIT_REG (dst i) erx ;;;
  modify_lazy (SET_FLAGS_OSZAP_ADD 32 (u32 (erx - 1)) 0 erx) ;;;
  BX_CLEAR_64BIT_HIGH (dst i) ;;;
  BX_NEXT_INSTR.

Definition DEC_EdR (i : bxInstruction_c) : cpu unit :=
  erx <- BX_READ_32BIT_REG (dst i) ;;
  let erx := u32 (erx - 1) in
  BX_WRITE_32BIT_REG (dst i) erx ;;;
  modify_lazy (SET_FLAGS_OSZAP_SUB 32 (u32 (erx + 1)) 0 erx) ;;;
  BX_CLEAR_64BIT_HIGH (dst i) ;;;
  BX_NEXT_INSTR.

Definition ADD_EdGdM (i : bxInstruction_c) : cpu unit :=
  eaddr <- BX_CPU_RESOLVE_ADDR i ;;
  op1_32 <- read_RMW_virtual_dword (seg i) eaddr ;;
  op2_32 <- BX_READ_32BIT_REG (src i) ;;
  let sum_32 := u32 (op1_32 + op2_32) in
  write_RMW_linear_dword sum_32 ;;;
  put_lazy (SET_FLAGS_OSZAPC_ADD 32 op1_32 op2_32 sum_32) ;;;
  BX_NEXT_INSTR.

Definition ADD_GdEdR (i : bxInstruction_c) : cpu unit :=
  op1_32 <- BX_READ_32BIT_REG (dst i) ;;
  op2_32 <- BX_READ_32BIT_REG (src i) ;;
  let sum_32 := u32 (op1_32 + op2_32) in
  BX_WRITE_32BIT_REGZ (dst i) sum_32 ;;;
  put_lazy (SET_FLAGS_OSZAPC_ADD 32 op1_32 op2_32 sum_32) ;;;
  BX_NEXT_INSTR.

Definition ADD_GdEdM (i : bxInstruction_c) : cpu unit :=
  eaddr <- BX_CPU_RESOLVE_ADDR i ;;
  op1_32 <- BX_READ_32BIT_REG (dst i) ;;
  op2_32 <- read_virtual_dword (seg i) eaddr ;;
  let sum_32 := u32 (op1_32 + op2_32) in
  BX_WRITE_32BIT_REGZ (dst i) sum_32 ;;;
  put_lazy (SET_FLAGS_OSZAPC_ADD 32 op1_32 op2_32 sum_32) ;;;
  BX_NEXT_INSTR.

Definition ADC_EdGdM (i : bxInstruction_c) : cpu unit :=
  temp_CF <- cpu_getB_CF ;;
  eaddr <- BX_CPU_RESOLVE_ADDR i ;;
  op1_32 <- read_RMW_virtual_dword (seg i) eaddr ;;
  op2_32 <- BX_READ_32BIT_REG (src i) ;;
  let sum_32 := u32 ((op1_32 + op2_32) + temp_CF) in
  write_RMW_linear_dword sum_32 ;;;
  put_lazy (SET_FLAGS_OSZAPC_ADD 32 op1_32 op2_32 sum_32) ;;;
  BX_NEXT_INSTR.

Definition ADC_GdEdR (i : bxInstruction_c) : cpu unit :=
  temp_CF <- cpu_getB_CF ;;
  op1_32 <- BX_READ_32BIT_REG (dst i) ;;
  op2_32 <- BX_READ_32BIT_REG (src i) ;;
  let sum_32 := u32 ((op1_32 + op2_32) + temp_CF) in
  BX_WRITE_32BIT_REGZ (dst i) sum_32 ;;;
  put_lazy (SET_FLAGS_OSZAPC_ADD 32 op1_32 op2_32 sum_32) ;;;
  BX_NEXT_INSTR.

Definition ADC_GdEdM (i : bxInstruction_c) : cpu unit :=
  temp_CF <- cpu_getB_CF ;;
  eaddr <- BX_CPU_RESOLVE_ADDR i ;;
  op1_32 <- BX_READ_32BIT_REG (dst i) ;;
  op2_32 <- read_virtual_dword (seg i) eaddr ;;
  let sum_32 := u32 ((op1_32 + op2_32) + temp_CF) in
  BX_WRITE_32BIT_REGZ (dst i) sum_32 ;;;
  put_lazy (SET_FLAGS_OSZAPC_ADD 32 op1_32 op2_32 sum_32) ;;;
  BX_NEXT_INSTR.

Definition SBB_EdGdM (i : bxInstruction_c) : cpu unit :=
  temp_CF <- cpu_getB_CF ;;
  eaddr <- BX_CPU_RESOLVE_ADDR i ;;
  op1_32 <- read_RMW_virtual_dword (seg i) eaddr ;;
  op2_32 <- BX_READ_32BIT_REG (src i) ;;
  let diff_32 := u32 (op1_32 - (op2_32 + temp_CF)) in
  write_RMW_linear_dword diff_32 ;;;
  put_lazy (SET_FLAGS_OSZAPC_SUB 32 op1_32 op2_32 diff_32) ;;;
  BX_NEXT_INSTR.

Definition SBB_GdEdR (i : bxInstruction_c) : cpu unit :=
  temp_CF <- cpu_getB_CF ;;
  op1_32 <- BX_READ_32BIT_REG (dst i) ;;
  op2_32 <- BX_READ_32BIT_REG (src i) ;;
  let diff_32 := u32 (op1_32 - (op2_32 + temp_CF)) in
  BX_WRITE_32BIT_REGZ (dst i) diff_32 ;;;
  put_lazy (SET_FLAGS_OSZAPC_SUB 32 op1_32 op2_32 diff_32) ;;;
  BX_NEXT_INSTR.

Definition SBB_GdEdM (i : bxInstruction_c) : cpu unit :=
  temp_CF <- cpu_getB_CF ;;
  eaddr <- BX_CPU_RESOLVE_ADDR i ;;
  op1_32 <- BX_READ_32BIT_REG (dst i) ;;
  op2_32 <- read_virtual_dword (seg i) eaddr ;;
  let diff_32 := u32 (op1_32 - (op2_32 + temp_CF)) in
  BX_WRITE_32BIT_REGZ (dst i) diff_32 ;;;
  put_lazy (SET_FLAGS_OSZAPC_SUB 32 op1_32 op2_32 diff_32) ;;;
  BX_NEXT_INSTR.

Definition SBB_EdIdM (i : bxInstruction_c) : cpu unit :=
  let op2_32 := Id i in
  temp_CF <- cpu_getB_CF ;;
  eaddr <- BX_CPU_RESOLVE_ADDR i ;;
  op1_32 <- read_RMW_virtual_dword (seg i) eaddr ;;
  let diff_32 := u32 (op1_32 - (op2_32 + temp_CF)) in
  write_RMW_linear_dword diff_32 ;;;
  put_lazy (SET_FLAGS_OSZAPC_SUB 32 op1_32 op2_32 diff_32) ;;;
  BX_NEXT_INSTR.

Definition SBB_EdIdR (i : bxInstruction_c) : cpu unit :=
  let op2_32 := Id i in
  temp_CF <- cpu_getB_CF ;;
  op1_32 <- BX_READ_32BIT_REG (dst i) ;;
  let diff_32 := u32 (op1_32 - (op2_32 + temp_CF)) in
  BX_WRITE_32BIT_REGZ (dst i) diff_32 ;;;
  put_lazy (SET_FLAGS_OSZAPC_SUB 32 op1_32 op2_32 diff_32) ;;;
  BX_NEXT_INSTR.

Definition SUB_EdGdM (i : bxInstruction_c) : cpu unit :=
  eaddr <- BX_CPU_RESOLVE_ADDR i ;;
  op1_32 <- read_RMW_virtual_dword (seg i) eaddr ;;
  op2_32 <- BX_READ_32BIT_REG (src i) ;;
  let diff_32 := u32 (op1_32 - op2_32) in
  write_RMW_linear_dword diff_32 ;;;
  put_lazy (SET_FLAGS_OSZAPC_SUB 32 op1_32 op2_32 diff_32) ;;;
  BX_NEXT_INSTR.

Definition SUB_GdEdR (i : bxInstruction_c) : cpu unit :=
  op1_32 <- BX_READ_32BIT_REG (dst i) ;;
  op2_32 <- BX_READ_32BIT_REG (src i) ;;
  let diff_32 := u32 (op1_32 - op2_32) in
  BX_WRITE_32BIT_REGZ (dst i) diff_32 ;;;
  put_lazy (SET_FLAGS_OSZAPC_SUB 32 op1_32 op2_32 diff_32) ;;;
  BX_NEXT_INSTR.

Definition SUB_GdEdM (i : bxInstruction_c) : cpu unit :=
  eaddr <- BX_CPU_RESOLVE_ADDR i ;;
  op1_32 <- BX_READ_32BIT_REG (dst i) ;;
  op2_32 <- read_virtual_dword (seg i) eaddr ;;
  let diff_32 := u32 (op1_32 - op2_32) in
  BX_WRITE_32BIT_REGZ (dst i) diff_32 ;;;
  put_lazy (SET_FLAGS_OSZAPC_SUB 32 op1_32 op2_32 diff_32) ;;;
  BX_NEXT_INSTR.

Definition CMP_EdGdM (i : bxInstruction_c) : cpu unit :=
  eaddr <- BX_CPU_RESOLVE_ADDR i ;;
  op1_32 <- read_virtual_dword (seg i) eaddr ;;
  op2_32 <- BX_READ_32BIT_REG (src i) ;;
  let diff_32 := u32 (op1_32 - op2_32) in
  put_lazy (SET_FLAGS_OSZAPC_SUB 32 op1_32 op2_32 diff_32) ;;;
  BX_NEXT_INSTR.

Definition CMP_GdEdR (i : bxInstruction_c) : cpu unit :=
  op1_32 <- BX_READ_32BIT_REG (dst i) ;;
  op2_32 <- BX_READ_32BIT_REG (src i) ;;
  let diff_32 := u32 (op1_32 - op2_32) in
  put_lazy (SET_FLAGS_OSZAPC_SUB 32 op1_32 op2_32 diff_32) ;;;
  BX_NEXT_INSTR.

Definition CMP_GdEdM (i : bxInstruction_c) : cpu unit :=
  eaddr <- BX_CPU_RESOLVE_ADDR i ;;
  op1_32 <- BX_READ_32BIT_REG (dst i) ;;
  op2_32 <- read_virtual_dword (seg i) eaddr ;;
  let diff_32 := u32 (op1_32 - op2_32) in
  put_lazy (SET_FLAGS_OSZAPC_SUB 32 op1_32 op2_32 diff_32) ;;;
  BX_NEXT_INSTR.

Definition CWDE (i : bxInstruction_c) : cpu unit :=
  ax <- AX ;;
  let tmp := u32 (signed 16 ax) in
  set_RAX tmp ;;;
  BX_NEXT_INSTR.

Definition CDQ (i : bxInstruction_c) : cpu unit :=
  eax <- EAX ;;
  if negb ((Z.land eax 0x80000000) =? 0) then
    set_RDX 0xFFFFFFFF ;;;
    BX_NEXT_INSTR
  else
    set_RDX 0x00000000 ;;;
    BX_NEXT_INSTR.

Definition XADD_EdGdM (i : bxInstruction_c) : cpu unit :=
  eaddr <- BX_CPU_RESOLVE_ADDR i ;;
  op1_32 <- read_RMW_virtual_dword (seg i) eaddr ;;
  op2_32 <- BX_READ_32BIT_REG (src i) ;;
  let sum_32 := u32 (op1_32 + op2_32) in
  write_RMW_linear_dword sum_32 ;;;
  BX_WRITE_32BIT_REGZ (src i) op1_32 ;;;
  put_lazy (SET_FLAGS_OSZAPC_ADD 32 op1_32 op2_32 sum_32) ;;;
  BX_NEXT_INSTR.

Definition XADD_EdGdR (i : bxInstruction_c) : cpu unit :=
  op1_32 <- BX_READ_32BIT_REG (dst i) ;;
  op2_32 <- BX_READ_32BIT_REG (src i) ;;
  let sum_32 := u32 (op1_32 + op2_32) in
  BX_WRITE_32BIT_REGZ (src i) op1_32 ;;;
  BX_WRITE_32BIT_REGZ (dst i) sum_32 ;;;
  put_lazy (SET_FLAGS_OSZAPC_ADD 32 op1_32 op2_32 sum_32) ;;;
  BX_NEXT_INSTR.

Definition ADD_EdIdM (i : bxInstruction_c) : cpu unit :=
  eaddr <- BX_CPU_RESOLVE_ADDR i ;;
  op1_32 <- read_RMW_virtual_dword (seg i) eaddr ;;
  let op2_32 := Id i in
  let sum_32 := u32 (op1_32 + op2_32) in
  write_RMW_linear_dword sum_32 ;;;
  put_lazy (SET_FLAGS_OSZAPC_ADD 32 op1_32 op2_32 sum_32) ;;;
  BX_NEXT_INSTR.

Definition ADD_EdIdR (i : bxInstruction_c) : cpu unit :=
  op1_32 <- BX_READ_32BIT_REG (dst i) ;;
  let op2_32 := Id i in
  let sum_32 := u32 (op1_32 + op2_32) in
  BX_WRITE_32BIT_REGZ (dst i) sum_32 ;;;
  put_lazy (SET_FLAGS_OSZAPC_ADD 32 op1_32 op2_32 sum_32) ;;;
  BX_NEXT_INSTR.

Definition ADC_EdIdM (i : bxInstruction_c) : cpu unit :=
  let op2_32 := Id i in
  temp_CF <- cpu_getB_CF ;;
  eaddr <- BX_CPU_RESOLVE_ADDR i ;;
  op1_32 <- read_RMW_virtual_dword (seg i) eaddr ;;
  let sum_32 := u32 ((op1_32 + op2_32) + temp_CF) in
  write_RMW_linear_dword sum_32 ;;;
  put_lazy (SET_FLAGS_OSZAPC_ADD 32 op1_32 op2_32 sum_32) ;;;
  BX_NEXT_INSTR.

Definition ADC_EdIdR (i : bxInstruction_c) : cpu unit :=
  let op2_32 := Id i in
  temp_CF <- cpu_getB_CF ;;
  op1_32 <- BX_READ_32BIT_REG (dst i) ;;
  let sum_32 := u32 ((op1_32 + op2_32) + temp_CF) in
  BX_WRITE_32BIT_REGZ (dst i) sum_32 ;;;
  put_lazy (SET_FLAGS_OSZAPC_ADD 32 op1_32 op2_32 sum_32) ;;;
  BX_NEXT_INSTR.

Definition SUB_EdIdM (i : bxInstruction_c) : cpu unit :=
  let op2_32 := Id i in
  eaddr <- BX_CPU_RESOLVE_ADDR i ;;
  op1_32 <- read_RMW_virtual_dword (seg i) eaddr ;;
  let diff_32 := u32 (op1_32 - op2_32) in
  write_RMW_linear_dword diff_32 ;;;
  put_lazy (SET_FLAGS_OSZAPC_SUB 32 op1_32 op2_32 diff_32) ;;;
  BX_NEXT_INSTR.

Definition SUB_EdIdR (i : bxInstruction_c) : cpu unit :=
  let op2_32 := Id i in
  op1_32 <- BX_READ_32BIT_REG (dst i) ;;
  let diff_32 := u32 (op1_32 - op2_32) in
  BX_WRITE_32BIT_REGZ (dst i) diff_32 ;;;
  put_lazy (SET_FLAGS_OSZAPC_SUB 32 op1_32 op2_32 diff_32) ;;;
  BX_NEXT_INSTR.

Definition CMP_EdIdM (i : bxInstruction_c) : cpu unit :=
  eaddr <- BX_CPU_RESOLVE_ADDR i ;;
  op1_32 <- read_virtual_dword (seg i) eaddr ;;
  let op2_32 := Id i in
  let diff_32 := u32 (op1_32 - op2_32) in
  put_lazy (SET_FLAGS_OSZAPC_SUB 32 op1_32 op2_32 diff_32) ;;;
  BX_NEXT_INSTR.

Definition CMP_EdIdR (i : bxInstruction_c) : cpu unit :=
  op1_32 <- BX_READ_32BIT_REG (dst i) ;;
  let op2_32 := Id i in
  let diff_32 := u32 (op1_32 - op2_32) in
  put_lazy (SET_FLAGS_OSZAPC_SUB 32 op1_32 op2_32 diff_32) ;;;
  BX_NEXT_INSTR.

Definition NEG_EdM (i : bxInstruction_c) : cpu unit :=
  eaddr <- BX_CPU_RESOLVE_ADDR i ;;
  op1_32 <- read_RMW_virtual_dword (seg i) eaddr ;;
  let op1_32 := u32 (- (signed 32 op1_32)) in
  write_RMW_linear_dword op1_32 ;;;
  put_lazy (SET_FLAGS_OSZAPC_SUB 32 0 (u32 (0 - op1_32)) op1_32) ;;;
  BX_NEXT_INSTR.

Definition NEG_EdR (i : bxInstruction_c) : cpu unit :=
  op1_32 <- BX_READ_32BIT_REG (dst i) ;;
  let op1_32 := u32 (- (signed 32 op1_32)) in
  BX_WRITE_32BIT_REGZ (dst i) op1_32 ;;;
  put_lazy (SET_FLAGS_OSZAPC_SUB 32 0 (u32 (0 - op1_32)) op1_32) ;;;
  BX_NEXT_INSTR.

Definition INC_EdM (i : bxInstruction_c) : cpu unit :=
  eaddr <- BX_CPU_RESOLVE_ADDR i ;;
  op1_32 <- read_RMW_virtual_dword (seg i) eaddr ;;
  let op1_32 := u32 (op1_32 + 1) in
  write_RMW_linear_dword op1_32 ;;;
  modify_lazy (SET_FLAGS_OSZAP_ADD 32 (u32 (op1_32 - 1)) 0 op1_32) ;;;
  BX_NEXT_INSTR.

Definition DEC_EdM (i : bxInstruction_c) : cpu unit :=
  eaddr <- BX_CPU_RESOLVE_ADDR i ;;
  op1_32 <- read_RMW_virtual_dword (seg i) eaddr ;;
  let op1_32 := u32 (op1_32 - 1) in
  write_RMW_linear_dword op1_32 ;;;
  modify_lazy (SET_FLAGS_OSZAP_SUB 32 (u32 (op1_32 + 1)) 0 op1_32) ;;;
  BX_NEXT_INSTR.

Definition CMPXCHG_EdGdM (i : bxInstruction_c) : cpu unit :=
  eaddr <- BX_CPU_RESOLVE_ADDR i ;;
  op1_32 <- read_RMW_virtual_dword (seg i) eaddr ;;
  eax <- EAX ;;
  let diff_32 := u32 (eax - op1_32) in
  eax <- EAX ;;
  put_lazy (SET_FLAGS_OSZAPC_SUB 32 eax op1_32 diff_32) ;;;
  if diff_32 =? 0 then
    t1 <- BX_READ_32BIT_REG (src i) ;;
    write_RMW_linear_dword t1 ;;;
    BX_NEXT_INSTR
  else
    write_RMW_linear_dword op1_32 ;;;
    set_RAX op1_32 ;;;
    BX_NEXT_INSTR.

Definition CMPXCHG_EdGdR (i : bxInstruction_c) : cpu unit :=
  op1_32 <- BX_READ_32BIT_REG (dst i) ;;
  eax <- EAX ;;
  let diff_32 := u32 (eax - op1_32) in
  eax <- EAX ;;
  put_lazy (SET_FLAGS_OSZAPC_SUB 32 eax op1_32 diff_32) ;;;
  if diff_32 =? 0 then
    t1 <- BX_READ_32BIT_REG (src i) ;;
    BX_WRITE_32BIT_REGZ (dst i) t1 ;;;
    BX_NEXT_INSTR
  else
    set_RAX op1_32 ;;;
    BX_NEXT_INSTR.

Definition CMPXCHG8B (i : bxInstruction_c) : cpu unit :=
  eaddr <- BX_CPU_RESOLVE_ADDR i ;;
  op1_64 <- read_RMW_virtual_qword (seg i) eaddr ;;
  edx <- EDX ;;
  eax <- EAX ;;
  let op2_64 := u64 (Z.lor (Z.shiftl edx 32) eax) in
  if op1_64 =? op2_64 then
    ecx <- ECX ;;
    ebx <- EBX ;;
    let op2_64 := u64 (Z.lor (Z.shiftl ecx 32) ebx) in
    write_RMW_linear_qword op2_64 ;;;
    cpu_assert_ZF ;;;
    BX_NEXT_INSTR
  else
    write_RMW_linear_qword op1_64 ;;;
    set_RAX (u32 op1_64) ;;;
    set_RDX (u32 (Z.shiftr op1_64 32)) ;;;
    cpu_clear_ZF ;;;
    BX_NEXT_INSTR.

(** ** cpu/logical32.cc *)

Definition ZERO_IDIOM_GdR (i : bxInstruction_c) : cpu unit :=
  BX_WRITE_32BIT_REGZ (dst i) 0 ;;;
  put_lazy (SET_FLAGS_OSZAPC_LOGIC 32 0) ;;;
  BX_NEXT_INSTR.

Definition XOR_EdGdM (i : bxInstruction_c) : cpu unit :=
  eaddr <- BX_CPU_RESOLVE_ADDR i ;;
  op1_32 <- read_RMW_virtual_dword (seg i) eaddr ;;
  op2_32 <- BX_READ_32BIT_REG (src i) ;;
  let op1_32 := Z.lxor op1_32 op2_32 in
  write_RMW_linear_dword op1_32 ;;;
  put_lazy (SET_FLAGS_OSZAPC_LOGIC 32 op1_32) ;;;
  BX_NEXT_INSTR.

Definition XOR_GdEdR (i : bxInstruction_c) : cpu unit :=
  op1_32 <- BX_READ_32BIT_REG (dst i) ;;
  op2_32 <- BX_READ_32BIT_REG (src i) ;;
  let op1_32 := Z.lxor op1_32 op2_32 in
  BX_WRITE_32BIT_REGZ (dst i) op1_32 ;;;
  put_lazy (SET_FLAGS_OSZAPC_LOGIC 32 op1_32) ;;;
  BX_NEXT_INSTR.

Definition XOR_GdEdM (i : bxInstruction_c) : cpu unit :=
  eaddr <- BX_CPU_RESOLVE_ADDR i ;;
  op1_32 <- BX_READ_32BIT_REG (dst i) ;;
  op2_32 <- read_virtual_dword (seg i) eaddr ;;
  let op1_32 := Z.lxor op1_32 op2_32 in
  BX_WRITE_32BIT_REGZ (dst i) op1_32 ;;;
  put_lazy (SET_FLAGS_OSZAPC_LOGIC 32 op1_32) ;;;
  BX_NEXT_INSTR.

Definition XOR_EdIdM (i : bxInstruction_c) : cpu unit :=
  eaddr <- BX_CPU_RESOLVE_ADDR i ;;
  op1_32 <- read_RMW_virtual_dword (seg i) eaddr ;;
  let op1_32 := Z.lxor op1_32 (Id i) in
  write_RMW_linear_dword op1_32 ;;;
  put_lazy (SET_FLAGS_OSZAPC_LOGIC 32 op1_32) ;;;
  BX_NEXT_INSTR.

Definition XOR_EdIdR (i : bxInstruction_c) : cpu unit :=
  op1_32 <- BX_READ_32BIT_REG (dst i) ;;
  let op1_32 := Z.lxor op1_32 (Id i) in
  BX_WRITE_32BIT_REGZ (dst i) op1_32 ;;;
  put_lazy (SET_FLAGS_OSZAPC_LOGIC 32 op1_32) ;;;
  BX_NEXT_INSTR.

Definition OR_EdIdM (i : bxInstruction_c) : cpu unit :=
  eaddr <- BX_CPU_RESOLVE_ADDR i ;;
  op1_32 <- read_RMW_virtual_dword (seg i) eaddr ;;
  let op1_32 := Z.lor op1_32 (Id i) in
  write_RMW_linear_dword op1_32 ;;;
  put_lazy (SET_FLAGS_OSZAPC_LOGIC 32 op1_32) ;;;
  BX_NEXT_INSTR.

Definition OR_EdIdR (i : bxInstruction_c) : cpu unit :=
  op1_32 <- BX_READ_32BIT_REG (dst i) ;;
  let op1_32 := Z.lor op1_32 (Id i) in
  BX_WRITE_32BIT_REGZ (dst i) op1_32 ;;;
  put_lazy (SET_FLAGS_OSZAPC_LOGIC 32 op1_32) ;;;
  BX_NEXT_INSTR.

Definition NOT_EdM (i : bxInstruction_c) : cpu unit :=
  eaddr <- BX_CPU_RESOLVE_ADDR i ;;
  op1_32 <- read_RMW_virtual_dword (seg i) eaddr ;;
  let op1_32 := u32 (Z.lnot op1_32) in
  write_RMW_linear_dword op1_32 ;;;
  BX_NEXT_INSTR.

Definition NOT_EdR (i : bxInstruction_c) : cpu unit :=
  op1_32 <- BX_READ_32BIT_REG (dst i) ;;
  let op1_32 := u32 (Z.lnot op1_32) in
  BX_WRITE_32BIT_REGZ (dst i) op1_32 ;;;
  BX_NEXT_INSTR.

Definition OR_EdGdM (i : bxInstruction_c) : cpu unit :=
  eaddr <- BX_CPU_RESOLVE_ADDR i ;;
  op1_32 <- read_RMW_virtual_dword (seg i) eaddr ;;
  op2_32 <- BX_READ_32BIT_REG (src i) ;;
  let op1_32 := Z.lor op1_32 op2_32 in
  write_RMW_linear_dword op1_32 ;;;
  put_lazy (SET_FLAGS_OSZAPC_LOGIC 32 op1_32) ;;;
  BX_NEXT_INSTR.

Definition OR_GdEdR (i : bxInstruction_c) : cpu unit :=
  op1_32 <- BX_READ_32BIT_REG (dst i) ;;
  op2_32 <- BX_READ_32BIT_REG (src i) ;;
  let op1_32 := Z.lor op1_32 op2_32 in
  BX_WRITE_32BIT_REGZ (dst i) op1_32 ;;;
  put_lazy (SET_FLAGS_OSZAPC_LOGIC 32 op1_32) ;;;
  BX_NEXT_INSTR.

Definition OR_GdEdM (i : bxInstruction_c) : cpu unit :=
  eaddr <- BX_CPU_RESOLVE_ADDR i ;;
  op1_32 <- BX_READ_32BIT_REG (dst i) ;;
  op2_32 <- read_virtual_dword (seg i) eaddr ;;
  let op1_32 := Z.lor op1_32 op2_32 in
  BX_WRITE_32BIT_REGZ (dst i) op1_32 ;;;
  put_lazy (SET_FLAGS_OSZAPC_LOGIC 32 op1_32) ;;;
  BX_NEXT_INSTR.

Definition AND_EdGdM (i : bxInstruction_c) : cpu unit :=
  eaddr <- BX_CPU_RESOLVE_ADDR i ;;
  op1_32 <- read_RMW_virtual_dword (seg i) eaddr ;;
  op2_32 <- BX_READ_32BIT_REG (src i) ;;
  let op1_32 := Z.land op1_32 op2_32 in
  write_RMW_linear_dword op1_32 ;;;
  put_lazy (SET_FLAGS_OSZAPC_LOGIC 32 op1_32) ;;;
  BX_NEXT_INSTR.

Definition AND_GdEdR (i : bxInstruction_c) : cpu unit :=
  op1_32 <- BX_READ_32BIT_REG (dst i) ;;
  op2_32 <- BX_READ_32BIT_REG (src i) ;;
  let op1_32 := Z.land op1_32 op2_32 in
  BX_WRITE_32BIT_REGZ (dst i) op1_32 ;;;
  put_lazy (SET_FLAGS_OSZAPC_LOGIC 32 op1_32) ;;;
  BX_NEXT_INSTR.

Definition AND_GdEdM (i : bxInstruction_c) : cpu unit :=
  eaddr <- BX_CPU_RESOLVE_ADDR i ;;
  op1_32 <- BX_READ_32BIT_REG (dst i) ;;
  op2_32 <- read_virtual_dword (seg i) eaddr ;;
  let op1_32 := Z.land op1_32 op2_32 in
  BX_WRITE_32BIT_REGZ (dst i) op1_32 ;;;
  put_lazy (SET_FLAGS_OSZAPC_LOGIC 32 op1_32) ;;;
  BX_NEXT_INSTR.

Definition AND_EdIdM (i : bxInstruction_c) : cpu unit :=
  eaddr <- BX_CPU_RESOLVE_ADDR i ;;
  op1_32 <- read_RMW_virtual_dword (seg i) eaddr ;;
  let op1_32 := Z.land op1_32 (Id i) in
  write_RMW_linear_dword op1_32 ;;;
  put_lazy (SET_FLAGS_OSZAPC_LOGIC 32 op1_32) ;;;
  BX_NEXT_INSTR.

Definition AND_EdIdR (i : bxInstruction_c) : cpu unit :=
  op1_32 <- BX_READ_32BIT_REG (dst i) ;;
  let op1_32 := Z.land op1_32 (Id i) in
  BX_WRITE_32BIT_REGZ (dst i) op1_32 ;;;
  put_lazy (SET_FLAGS_OSZAPC_LOGIC 32 op1_32) ;;;
  BX_NEXT_INSTR.

Definition TEST_EdGdR (i : bxInstruction_c) : cpu unit :=
  op1_32 <- BX_READ_32BIT_REG (dst i) ;;
  op2_32 <- BX_READ_32BIT_REG (src i) ;;
  let op1_32 := Z.land op1_32 op2_32 in
  put_lazy (SET_FLAGS_OSZAPC_LOGIC 32 op1_32) ;;;
  BX_NEXT_INSTR.

Definition TEST_EdGdM (i : bxInstruction_c) : cpu unit :=
  eaddr <- BX_CPU_RESOLVE_ADDR i ;;
  op1_32 <- read_virtual_dword (seg i) eaddr ;;
  op2_32 <- BX_READ_32BIT_REG (src i) ;;
  let op1_32 := Z.land op1_32 op2_32 in
  put_lazy (SET_FLAGS_OSZAPC_LOGIC 32 op1_32) ;;;
  BX_NEXT_INSTR.

Definition TEST_EdIdR (i : bxInstruction_c) : cpu unit :=
  op1_32 <- BX_READ_32BIT_REG (dst i) ;;
  let op1_32 := Z.land op1_32 (Id i) in
  put_lazy (SET_FLAGS_OSZAPC_LOGIC 32 op1_32) ;;;
  BX_NEXT_INSTR.

Definition TEST_EdIdM (i : bxInstruction_c) : cpu unit :=
  eaddr <- BX_CPU_RESOLVE_ADDR i ;;
  op1_32 <- read_virtual_dword (seg i) eaddr ;;
  let op1_32 := Z.land op1_32 (Id i) in
  put_lazy (SET_FLAGS_OSZAPC_LOGIC 32 op1_32) ;;;
  BX_NEXT_INSTR.

End Handlers.
