(* ===== verification/Arith64.v ===== *)
(** * 64-bit arithmetic and logic instructions (cpu/arith64.cc, cpu/logical64.cc)

    One definition per instruction handler, in the order of the files.  The
    suffix M is the form with a memory operand, R the register form. *)

From Stdlib Require Import ZArith Lia List Bool.
From S2P Require Import Prelude LazyFlags Cpu.
Open Scope Z_scope.

Section Handlers.
Context {M : Type} `{VirtualMemory M}.
Abbreviation cpu := (cpu bx_lazyflags_entry M).

(** ** cpu/arith64.cc *)

Definition ADD_EqGqM (i : bxInstruction_c) : cpu unit :=
  eaddr <- BX_CPU_RESOLVE_ADDR_64 i ;;
  laddr <- get_laddr64 (seg i) eaddr ;;
  op1_64 <- read_RMW_linear_qword (seg i) laddr ;;
  op2_64 <- BX_READ_64BIT_REG (src i) ;;
  let sum_64 := u64 (op1_64 + op2_64) in
  write_RMW_linear_qword sum_64 ;;;
  put_lazy (SET_FLAGS_OSZAPC_ADD 64 op1_64 op2_64 sum_64) ;;;
  BX_NEXT_INSTR.

Definition ADD_GqEqR (i : bxInstruction_c) : cpu unit :=
  op1_64 <- BX_READ_64BIT_REG (dst i) ;;
  op2_64 <- BX_READ_64BIT_REG (src i) ;;
  let sum_64 := u64 (op1_64 + op2_64) in
  BX_WRITE_64BIT_REG (dst i) sum_64 ;;;
  put_lazy (SET_FLAGS_OSZAPC_ADD 64 op1_64 op2_64 sum_64) ;;;
  BX_NEXT_INSTR.

Definition ADD_GqEqM (i : bxInstruction_c) : cpu unit :=
  eaddr <- BX_CPU_RESOLVE_ADDR_64 i ;;
  op1_64 <- BX_READ_64BIT_REG (dst i) ;;
  laddr <- get_laddr64 (seg i) eaddr ;;
  op2_64 <- read_linear_qword (seg i) laddr ;;
  let sum_64 := u64 (op1_64 + op2_64) in
  BX_WRITE_64BIT_REG (dst i) sum_64 ;;;
  put_lazy (SET_FLAGS_OSZAPC_ADD 64 op1_64 op2_64 sum_64) ;;;
  BX_NEXT_INSTR.

Definition ADC_EqGqM (i : bxInstruction_c) : cpu unit :=
  eaddr <- BX_CPU_RESOLVE_ADDR_64 i ;;
  laddr <- get_laddr64 (seg i) eaddr ;;
  op1_64 <- read_RMW_linear_qword (seg i) laddr ;;
  op2_64 <- BX_READ_64BIT_REG (src i) ;;
  cf_in <- cpu_getB_CF ;;
  let sum_64 := u64 ((op1_64 + op2_64) + cf_in) in
  write_RMW_linear_qword sum_64 ;;;
  put_lazy (SET_FLAGS_OSZAPC_ADD 64 op1_64 op2_64 sum_64) ;;;
  BX_NEXT_INSTR.

Definition ADC_GqEqR (i : bxInstruction_c) : cpu unit :=
  op1_64 <- BX_READ_64BIT_REG (dst i) ;;
  op2_64 <- BX_READ_64BIT_REG (src i) ;;
  cf_in <- cpu_getB_CF ;;
  let sum_64 := u64 ((op1_64 + op2_64) + cf_in) in
  BX_WRITE_64BIT_REG (dst i) sum_64 ;;;
  put_lazy (SET_FLAGS_OSZAPC_ADD 64 op1_64 op2_64 sum_64) ;;;
  BX_NEXT_INSTR.

Definition ADC_GqEqM (i : bxInstruction_c) : cpu unit :=
  eaddr <- BX_CPU_RESOLVE_ADDR_64 i ;;
  op1_64 <- BX_READ_64BIT_REG (dst i) ;;
  laddr <- get_laddr64 (seg i) eaddr ;;
  op2_64 <- read_linear_qword (seg i) laddr ;;
  cf_in <- cpu_getB_CF ;;
  let sum_64 := u64 ((op1_64 + op2_64) + cf_in) in
  BX_WRITE_64BIT_REG (dst i) sum_64 ;;;
  put_lazy (SET_FLAGS_OSZAPC_ADD 64 op1_64 op2_64 sum_64) ;;;
  BX_NEXT_INSTR.

Definition SBB_EqGqM (i : bxInstruction_c) : cpu unit :=
  eaddr <- BX_CPU_RESOLVE_ADDR_64 i ;;
  laddr <- get_laddr64 (seg i) eaddr ;;
  op1_64 <- read_RMW_linear_qword (seg i) laddr ;;
  op2_64 <- BX_READ_64BIT_REG (src i) ;;
  cf_in <- cpu_getB_CF ;;
  let diff_64 := u64 (op1_64 - (op2_64 + cf_in)) in
  write_RMW_linear_qword diff_64 ;;;
  put_lazy (SET_FLAGS_OSZAPC_SUB 64 op1_64 op2_64 diff_64) ;;;
  BX_NEXT_INSTR.

Definition SBB_GqEqR (i : bxInstruction_c) : cpu unit :=
  op1_64 <- BX_READ_64BIT_REG (dst i) ;;
  op2_64 <- BX_READ_64BIT_REG (src i) ;;
  cf_in <- cpu_getB_CF ;;
  let diff_64 := u64 (op1_64 - (op2_64 + cf_in)) in
  BX_WRITE_64BIT_REG (dst i) diff_64 ;;;
  put_lazy (SET_FLAGS_OSZAPC_SUB 64 op1_64 op2_64 diff_64) ;;;
  BX_NEXT_INSTR.

Definition SBB_GqEqM (i : bxInstruction_c) : cpu unit :=
  eaddr <- BX_CPU_RESOLVE_ADDR_64 i ;;
  op1_64 <- BX_READ_64BIT_REG (dst i) ;;
  laddr <- get_laddr64 (seg i) eaddr ;;
  op2_64 <- read_linear_qword (seg i) laddr ;;
  cf_in <- cpu_getB_CF ;;
  let diff_64 := u64 (op1_64 - (op2_64 + cf_in)) in
  BX_WRITE_64BIT_REG (dst i) diff_64 ;;;
  put_lazy (SET_FLAGS_OSZAPC_SUB 64 op1_64 op2_64 diff_64) ;;;
  BX_NEXT_INSTR.

Definition SBB_EqIdM (i : bxInstruction_c) : cpu unit :=
  eaddr <- BX_CPU_RESOLVE_ADDR_64 i ;;
  laddr <- get_laddr64 (seg i) eaddr ;;
  op1_64 <- read_RMW_linear_qword (seg i) laddr ;;
  let op2_64 := u64 (signed 32 (Id i)) in
  cf_in <- cpu_getB_CF ;;
  let diff_64 := u64 (op1_64 - (op2_64 + cf_in)) in
  write_RMW_linear_qword diff_64 ;;;
  put_lazy (SET_FLAGS_OSZAPC_SUB 64 op1_64 op2_64 diff_64) ;;;
  BX_NEXT_INSTR.

Definition SBB_EqIdR (i : bxInstruction_c) : cpu unit :=
  op1_64 <- BX_READ_64BIT_REG (dst i) ;;
  let op2_64 := u64 (signed 32 (Id i)) in
  cf_in <- cpu_getB_CF ;;
  let diff_64 := u64 (op1_64 - (op2_64 + cf_in)) in
  BX_WRITE_64BIT_REG (dst i) diff_64 ;;;
  put_lazy (SET_FLAGS_OSZAPC_SUB 64 op1_64 op2_64 diff_64) ;;;
  BX_NEXT_INSTR.

Definition SUB_EqGqM (i : bxInstruction_c) : cpu unit :=
  eaddr <- BX_CPU_RESOLVE_ADDR_64 i ;;
  laddr <- get_laddr64 (seg i) eaddr ;;
  op1_64 <- read_RMW_linear_qword (seg i) laddr ;;
  op2_64 <- BX_READ_64BIT_REG (src i) ;;
  let diff_64 := u64 (op1_64 - op2_64) in
  write_RMW_linear_qword diff_64 ;;;
  put_lazy (SET_FLAGS_OSZAPC_SUB 64 op1_64 op2_64 diff_64) ;;;
  BX_NEXT_INSTR.

Definition SUB_GqEqR (i : bxInstruction_c) : cpu unit :=
  op1_64 <- BX_READ_64BIT_REG (dst i) ;;
  op2_64 <- BX_READ_64BIT_REG (src i) ;;
  let diff_64 := u64 (op1_64 - op2_64) in
  BX_WRITE_64BIT_REG (dst i) diff_64 ;;;
  put_lazy (SET_FLAGS_OSZAPC_SUB 64 op1_64 op2_64 diff_64) ;;;
  BX_NEXT_INSTR.

Definition SUB_GqEqM (i : bxInstruction_c) : cpu unit :=
  eaddr <- BX_CPU_RESOLVE_ADDR_64 i ;;
  op1_64 <- BX_READ_64BIT_REG (dst i) ;;
  laddr <- get_laddr64 (seg i) eaddr ;;
  op2_64 <- read_linear_qword (seg i) laddr ;;
  let diff_64 := u64 (op1_64 - op2_64) in
  BX_WRITE_64BIT_REG (dst i) diff_64 ;;;
  put_lazy (SET_FLAGS_OSZAPC_SUB 64 op1_64 op2_64 diff_64) ;;;
  BX_NEXT_INSTR.

Definition CMP_EqGqM (i : bxInstruction_c) : cpu unit :=
  eaddr <- BX_CPU_RESOLVE_ADDR_64 i ;;
  laddr <- get_laddr64 (seg i) eaddr ;;
  op1_64 <- read_linear_qword (seg i) laddr ;;
  op2_64 <- BX_READ_64BIT_REG (src i) ;;
  let diff_64 := u64 (op1_64 - op2_64) in
  put_lazy (SET_FLAGS_OSZAPC_SUB 64 op1_64 op2_64 diff_64) ;;;
  BX_NEXT_INSTR.

Definition CMP_GqEqR (i : bxInstruction_c) : cpu unit :=
  op1_64 <- BX_READ_64BIT_REG (dst i) ;;
  op2_64 <- BX_READ_64BIT_REG (src i) ;;
  let diff_64 := u64 (op1_64 - op2_64) in
  put_lazy (SET_FLAGS_OSZAPC_SUB 64 op1_64 op2_64 diff_64) ;;;
  BX_NEXT_INSTR.

Definition CMP_GqEqM (i : bxInstruction_c) : cpu unit :=
  eaddr <- BX_CPU_RESOLVE_ADDR_64 i ;;
  op1_64 <- BX_READ_64BIT_REG (dst i) ;;
  laddr <- get_laddr64 (seg i) eaddr ;;
  op2_64 <- read_linear_qword (seg i) laddr ;;
  let diff_64 := u64 (op1_64 - op2_64) in
  put_lazy (SET_FLAGS_OSZAPC_SUB 64 op1_64 op2_64 diff_64) ;;;
  BX_NEXT_INSTR.

Definition CDQE (i : bxInstruction_c) : cpu unit :=
  eax <- EAX ;;
  set_RAX (signed 32 eax) ;;;
  BX_NEXT_INSTR.

Definition CQO (i : bxInstruction_c) : cpu unit :=
  rax <- RAX ;;
  if negb ((Z.land rax 0x8000000000000000) =? 0) then
    set_RDX 0xffffffffffffffff ;;;
    BX_NEXT_INSTR
  else
    set_RDX 0 ;;;
    BX_NEXT_INSTR.

Definition XADD_EqGqM (i : bxInstruction_c) : cpu unit :=
  eaddr <- BX_CPU_RESOLVE_ADDR_64 i ;;
  laddr <- get_laddr64 (seg i) eaddr ;;
  op1_64 <- read_RMW_linear_qword (seg i) laddr ;;
  op2_64 <- BX_READ_64BIT_REG (src i) ;;
  let sum_64 := u64 (op1_64 + op2_64) in
  write_RMW_linear_qword sum_64 ;;;
  BX_WRITE_64BIT_REG (src i) op1_64 ;;;
  put_lazy (SET_FLAGS_OSZAPC_ADD 64 op1_64 op2_64 sum_64) ;;;
  BX_NEXT_INSTR.

Definition XADD_EqGqR (i : bxInstruction_c) : cpu unit :=
  op1_64 <- BX_READ_64BIT_REG (dst i) ;;
  op2_64 <- BX_READ_64BIT_REG (src i) ;;
  let sum_64 := u64 (op1_64 + op2_64) in
  BX_WRITE_64BIT_REG (src i) op1_64 ;;;
  BX_WRITE_64BIT_REG (dst i) sum_64 ;;;
  put_lazy (SET_FLAGS_OSZAPC_ADD 64 op1_64 op2_64 sum_64) ;;;
  BX_NEXT_INSTR.

Definition ADD_EqIdM (i : bxInstruction_c) : cpu unit :=
  eaddr <- BX_CPU_RESOLVE_ADDR_64 i ;;
  laddr <- get_laddr64 (seg i) eaddr ;;
  op1_64 <- read_RMW_linear_qword (seg i) laddr ;;
  let op2_64 := u64 (signed 32 (Id i)) in
  let sum_64 := u64 (op1_64 + op2_64) in
  write_RMW_linear_qword sum_64 ;;;
  put_lazy (SET_FLAGS_OSZAPC_ADD 64 op1_64 op2_64 sum_64) ;;;
  BX_NEXT_INSTR.

Definition ADD_EqIdR (i : bxInstruction_c) : cpu unit :=
  op1_64 <- BX_READ_64BIT_REG (dst i) ;;
  let op2_64 := u64 (signed 32 (Id i)) in
  let sum_64 := u64 (op1_64 + op2_64) in
  BX_WRITE_64BIT_REG (dst i) sum_64 ;;;
  put_lazy (SET_FLAGS_OSZAPC_ADD 64 op1_64 op2_64 sum_64) ;;;
  BX_NEXT_INSTR.

Definition ADC_EqIdM (i : bxInstruction_c) : cpu unit :=
  eaddr <- BX_CPU_RESOLVE_ADDR_64 i ;;
  laddr <- get_laddr64 (seg i) eaddr ;;
  op1_64 <- read_RMW_linear_qword (seg i) laddr ;;
  let op2_64 := u64 (signed 32 (Id i)) in
  cf_in <- cpu_getB_CF ;;
  let sum_64 := u64 ((op1_64 + op2_64) + cf_in) in
  write_RMW_linear_qword sum_64 ;;;
  put_lazy (SET_FLAGS_OSZAPC_ADD 64 op1_64 op2_64 sum_64) ;;;
  BX_NEXT_INSTR.

Definition ADC_EqIdR (i : bxInstruction_c) : cpu unit :=
  op1_64 <- BX_READ_64BIT_REG (dst i) ;;
  let op2_64 := u64 (signed 32 (Id i)) in
  cf_in <- cpu_getB_CF ;;
  let sum_64 := u64 ((op1_64 + op2_64) + cf_in) in
  BX_WRITE_64BIT_REG (dst i) sum_64 ;;;
  put_lazy (SET_FLAGS_OSZAPC_ADD 64 op1_64 op2_64 sum_64) ;;;
  BX_NEXT_INSTR.

Definition SUB_EqIdM (i : bxInstruction_c) : cpu unit :=
  eaddr <- BX_CPU_RESOLVE_ADDR_64 i ;;
  laddr <- get_laddr64 (seg i) eaddr ;;
  op1_64 <- read_RMW_linear_qword (seg i) laddr ;;
  let op2_64 := u64 (signed 32 (Id i)) in
  let diff_64 := u64 (op1_64 - op2_64) in
  write_RMW_linear_qword diff_64 ;;;
  put_lazy (SET_FLAGS_OSZAPC_SUB 64 op1_64 op2_64 diff_64) ;;;
  BX_NEXT_INSTR.

Definition SUB_EqIdR (i : bxInstruction_c) : cpu unit :=
  op1_64 <- BX_READ_64BIT_REG (dst i) ;;
  let op2_64 := u64 (signed 32 (Id i)) in
  let diff_64 := u64 (op1_64 - op2_64) in
  BX_WRITE_64BIT_REG (dst i) diff_64 ;;;
  put_lazy (SET_FLAGS_OSZAPC_SUB 64 op1_64 op2_64 diff_64) ;;;
  BX_NEXT_INSTR.

Definition CMP_EqIdM (i : bxInstruction_c) : cpu unit :=
  eaddr <- BX_CPU_RESOLVE_ADDR_64 i ;;
  laddr <- get_laddr64 (seg i) eaddr ;;
  op1_64 <- read_linear_qword (seg i) laddr ;;
  let op2_64 := u64 (signed 32 (Id i)) in
  let diff_64 := u64 (op1_64 - op2_64) in
  put_lazy (SET_FLAGS_OSZAPC_SUB 64 op1_64 op2_64 diff_64) ;;;
  BX_NEXT_INSTR.

Definition CMP_EqIdR (i : bxInstruction_c) : cpu unit :=
  op1_64 <- BX_READ_64BIT_REG (dst i) ;;
  let op2_64 := u64 (signed 32 (Id i)) in
  let diff_64 := u64 (op1_64 - op2_64) in
  put_lazy (SET_FLAGS_OSZAPC_SUB 64 op1_64 op2_64 diff_64) ;;;
  BX_NEXT_INSTR.

Definition NEG_EqM (i : bxInstruction_c) : cpu unit :=
  eaddr <- BX_CPU_RESOLVE_ADDR_64 i ;;
  laddr <- get_laddr64 (seg i) eaddr ;;
  op1_64 <- read_RMW_linear_qword (seg i) laddr ;;
  let op1_64 := u64 (- (signed 64 op1_64)) in
  write_RMW_linear_qword op1_64 ;;;
  put_lazy (SET_FLAGS_OSZAPC_SUB 64 0 (u64 (- op1_64)) op1_64) ;;;
  BX_NEXT_INSTR.

Definition NEG_EqR (i : bxInstruction_c) : cpu unit :=
  op1_64 <- BX_READ_64BIT_REG (dst i) ;;
  let op1_64 := u64 (- (signed 64 op1_64)) in
  BX_WRITE_64BIT_REG (dst i) op1_64 ;;;
  put_lazy (SET_FLAGS_OSZAPC_SUB 64 0 (u64 (- op1_64)) op1_64) ;;;
  BX_NEXT_INSTR.

Definition INC_EqM (i : bxInstruction_c) : cpu unit :=
  eaddr <- BX_CPU_RESOLVE_ADDR_64 i ;;
  laddr <- get_laddr64 (seg i) eaddr ;;
  op1_64 <- read_RMW_linear_qword (seg i) laddr ;;
  let op1_64 := u64 (op1_64 + 1) in
  write_RMW_linear_qword op1_64 ;;;
  modify_lazy (SET_FLAGS_OSZAP_ADD 64 (u64 (op1_64 - 1)) 0 op1_64) ;;;
  BX_NEXT_INSTR.

Definition INC_EqR (i : bxInstruction_c) : cpu unit :=
  rrx <- BX_READ_64BIT_REG (dst i) ;;
  let rrx := u64 (rrx + 1) in
  BX_WRITE_64BIT_REG (dst i) rrx ;;;
  modify_lazy (SET_FLAGS_OSZAP_ADD 64 (u64 (rrx - 1)) 0 rrx) ;;;
  BX_NEXT_INSTR.

Definition DEC_EqM (i : bxInstruction_c) : cpu unit :=
  eaddr <- BX_CPU_RESOLVE_ADDR_64 i ;;
  laddr <- get_laddr64 (seg i) eaddr ;;
  op1_64 <- read_RMW_linear_qword (seg i) laddr ;;
  let op1_64 := u64 (op1_64 - 1) in
  write_RMW_linear_qword op1_64 ;;;
  modify_lazy (SET_FLAGS_OSZAP_SUB 64 (u64 (op1_64 + 1)) 0 op1_64) ;;;
  BX_NEXT_INSTR.

Definition DEC_EqR (i : bxInstruction_c) : cpu unit :=
  rrx <- BX_READ_64BIT_REG (dst i) ;;
  let rrx := u64 (rrx - 1) in
  BX_WRITE_64BIT_REG (dst i) rrx ;;;
  modify_lazy (SET_FLAGS_OSZAP_SUB 64 (u64 (rrx + 1)) 0 rrx) ;;;
  BX_NEXT_INSTR.

Definition CMPXCHG_EqGqM (i : bxInstruction_c) : cpu unit :=
  eaddr <- BX_CPU_RESOLVE_ADDR_64 i ;;
  laddr <- get_laddr64 (seg i) eaddr ;;
  op1_64 <- read_RMW_linear_qword (seg i) laddr ;;
  rax <- RAX ;;
  let diff_64 := u64 (rax - op1_64) in
  rax <- RAX ;;
  put_lazy (SET_FLAGS_OSZAPC_SUB 64 rax op1_64 diff_64) ;;;
  if diff_64 =? 0 then
    t2 <- BX_READ_64BIT_REG (src i) ;;
    write_RMW_linear_qword t2 ;;;
    BX_NEXT_INSTR
  else
    write_RMW_linear_qword op1_64 ;;;
    set_RAX op1_64 ;;;
    BX_NEXT_INSTR.

Definition CMPXCHG_EqGqR (i : bxInstruction_c) : cpu unit :=
  op1_64 <- BX_READ_64BIT_REG (dst i) ;;
  rax <- RAX ;;
  let diff_64 := u64 (rax - op1_64) in
  rax <- RAX ;;
  put_lazy (SET_FLAGS_OSZAPC_SUB 64 rax op1_64 diff_64) ;;;
  if diff_64 =? 0 then
    t1 <- BX_READ_64BIT_REG (src i) ;;
    BX_WRITE_64BIT_REG (dst i) t1 ;;;
    BX_NEXT_INSTR
  else
    set_RAX op1_64 ;;;
    BX_NEXT_INSTR.

Definition CMPXCHG16B (i : bxInstruction_c) : cpu unit :=
  eaddr <- BX_CPU_RESOLVE_ADDR_64 i ;;
  laddr <- get_laddr64 (seg i) eaddr ;;
  op1 <- read_RMW_linear_dqword_aligned_64 (seg i) laddr ;;
  let '(op1_64_hi, op1_64_lo) := op1 in
  rax <- RAX ;;
  let diff := u64 (rax - op1_64_lo) in
  rdx <- RDX ;;
  let diff := Z.lor diff (u64 (rdx - op1_64_hi)) in
  if diff =? 0 then
    rcx <- RCX ;;
    rbx <- RBX ;;
    write_RMW_linear_dqword rcx rbx ;;;
    cpu_assert_ZF ;;;
    BX_NEXT_INSTR
  else
    cpu_clear_ZF ;;;
    write_RMW_linear_dqword op1_64_hi op1_64_lo ;;;
    set_RAX op1_64_lo ;;;
    set_RDX op1_64_hi ;;;
    BX_NEXT_INSTR.

(** ** cpu/logical64.cc *)

Definition XOR_EqGqM (i : bxInstruction_c) : cpu unit :=
  eaddr <- BX_CPU_RESOLVE_ADDR_64 i ;;
  laddr <- get_laddr64 (seg i) eaddr ;;
  op1_64 <- read_RMW_linear_qword (seg i) laddr ;;
  op2_64 <- BX_READ_64BIT_REG (src i) ;;
  let op1_64 := Z.lxor op1_64 op2_64 in
  write_RMW_linear_qword op1_64 ;;;
  put_lazy (SET_FLAGS_OSZAPC_LOGIC 64 op1_64) ;;;
  BX_NEXT_INSTR.

Definition XOR_GqEqR (i : bxInstruction_c) : cpu unit :=
  op1_64 <- BX_READ_64BIT_REG (dst i) ;;
  op2_64 <- BX_READ_64BIT_REG (src i) ;;
  let op1_64 := Z.lxor op1_64 op2_64 in
  BX_WRITE_64BIT_REG (dst i) op1_64 ;;;
  put_lazy (SET_FLAGS_OSZAPC_LOGIC 64 op1_64) ;;;
  BX_NEXT_INSTR.

Definition XOR_GqEqM (i : bxInstruction_c) : cpu unit :=
  eaddr <- BX_CPU_RESOLVE_ADDR_64 i ;;
  op1_64 <- BX_READ_64BIT_REG (dst i) ;;
  laddr <- get_laddr64 (seg i) eaddr ;;
  op2_64 <- read_linear_qword (seg i) laddr ;;
  let op1_64 := Z.lxor op1_64 op2_64 in
  BX_WRITE_64BIT_REG (dst i) op1_64 ;;;
  put_lazy (SET_FLAGS_OSZAPC_LOGIC 64 op1_64) ;;;
  BX_NEXT_INSTR.

Definition XOR_EqIdM (i : bxInstruction_c) : cpu unit :=
  let op2_64 := u64 (signed 32 (Id i)) in
  eaddr <- BX_CPU_RESOLVE_ADDR_64 i ;;
  laddr <- get_laddr64 (seg i) eaddr ;;
  op1_64 <- read_RMW_linear_qword (seg i) laddr ;;
  let op1_64 := Z.lxor op1_64 op2_64 in
  write_RMW_linear_qword op1_64 ;;;
  put_lazy (SET_FLAGS_OSZAPC_LOGIC 64 op1_64) ;;;
  BX_NEXT_INSTR.

Definition XOR_EqIdR (i : bxInstruction_c) : cpu unit :=
  let op2_64 := u64 (signed 32 (Id i)) in
  op1_64 <- BX_READ_64BIT_REG (dst i) ;;
  let op1_64 := Z.lxor op1_64 op2_64 in
  BX_WRITE_64BIT_REG (dst i) op1_64 ;;;
  put_lazy (SET_FLAGS_OSZAPC_LOGIC 64 op1_64) ;;;
  BX_NEXT_INSTR.

Definition OR_EqIdM (i : bxInstruction_c) : cpu unit :=
  let op2_64 := u64 (signed 32 (Id i)) in
  eaddr <- BX_CPU_RESOLVE_ADDR_64 i ;;
  laddr <- get_laddr64 (seg i) eaddr ;;
  op1_64 <- read_RMW_linear_qword (seg i) laddr ;;
  let op1_64 := Z.lor op1_64 op2_64 in
  write_RMW_linear_qword op1_64 ;;;
  put_lazy (SET_FLAGS_OSZAPC_LOGIC 64 op1_64) ;;;
  BX_NEXT_INSTR.

Definition OR_EqIdR (i : bxInstruction_c) : cpu unit :=
  let op2_64 := u64 (signed 32 (Id i)) in
  op1_64 <- BX_READ_64BIT_REG (dst i) ;;
  let op1_64 := Z.lor op1_64 op2_64 in
  BX_WRITE_64BIT_REG (dst i) op1_64 ;;;
  put_lazy (SET_FLAGS_OSZAPC_LOGIC 64 op1_64) ;;;
  BX_NEXT_INSTR.

Definition NOT_EqM (i : bxInstruction_c) : cpu unit :=
  eaddr <- BX_CPU_RESOLVE_ADDR_64 i ;;
  laddr <- get_laddr64 (seg i) eaddr ;;
  op1_64 <- read_RMW_linear_qword (seg i) laddr ;;
  let op1_64 := u64 (Z.lnot op1_64) in
  write_RMW_linear_qword op1_64 ;;;
  BX_NEXT_INSTR.

Definition NOT_EqR (i : bxInstruction_c) : cpu unit :=
  op1_64 <- BX_READ_64BIT_REG (dst i) ;;
  let op1_64 := u64 (Z.lnot op1_64) in
  BX_WRITE_64BIT_REG (dst i) op1_64 ;;;
  BX_NEXT_INSTR.

Definition OR_EqGqM (i : bxInstruction_c) : cpu unit :=
  eaddr <- BX_CPU_RESOLVE_ADDR_64 i ;;
  laddr <- get_laddr64 (seg i) eaddr ;;
  op1_64 <- read_RMW_linear_qword (seg i) laddr ;;
  op2_64 <- BX_READ_64BIT_REG (src i) ;;
  let op1_64 := Z.lor op1_64 op2_64 in
  write_RMW_linear_qword op1_64 ;;;
  put_lazy (SET_FLAGS_OSZAPC_LOGIC 64 op1_64) ;;;
  BX_NEXT_INSTR.

Definition OR_GqEqR (i : bxInstruction_c) : cpu unit :=
  op1_64 <- BX_READ_64BIT_REG (dst i) ;;
  op2_64 <- BX_READ_64BIT_REG (src i) ;;
  let op1_64 := Z.lor op1_64 op2_64 in
  BX_WRITE_64BIT_REG (dst i) op1_64 ;;;
  put_lazy (SET_FLAGS_OSZAPC_LOGIC 64 op1_64) ;;;
  BX_NEXT_INSTR.

Definition OR_GqEqM (i : bxInstruction_c) : cpu unit :=
  eaddr <- BX_CPU_RESOLVE_ADDR_64 i ;;
  op1_64 <- BX_READ_64BIT_REG (dst i) ;;
  laddr <- get_laddr64 (seg i) eaddr ;;
  op2_64 <- read_linear_qword (seg i) laddr ;;
  let op1_64 := Z.lor op1_64 op2_64 in
  BX_WRITE_64BIT_REG (dst i) op1_64 ;;;
  put_lazy (SET_FLAGS_OSZAPC_LOGIC 64 op1_64) ;;;
  BX_NEXT_INSTR.

Definition AND_EqGqM (i : bxInstruction_c) : cpu unit :=
  eaddr <- BX_CPU_RESOLVE_ADDR_64 i ;;
  laddr <- get_laddr64 (seg i) eaddr ;;
  op1_64 <- read_RMW_linear_qword (seg i) laddr ;;
  op2_64 <- BX_READ_64BIT_REG (src i) ;;
  let op1_64 := Z.land op1_64 op2_64 in
  write_RMW_linear_qword op1_64 ;;;
  put_lazy (SET_FLAGS_OSZAPC_LOGIC 64 op1_64) ;;;
  BX_NEXT_INSTR.

Definition AND_GqEqR (i : bxInstruction_c) : cpu unit :=
  op1_64 <- BX_READ_64BIT_REG (dst i) ;;
  op2_64 <- BX_READ_64BIT_REG (src i) ;;
  let op1_64 := Z.land op1_64 op2_64 in
  BX_WRITE_64BIT_REG (dst i) op1_64 ;;;
  put_lazy (SET_FLAGS_OSZAPC_LOGIC 64 op1_64) ;;;
  BX_NEXT_INSTR.

Definition AND_GqEqM (i : bxInstruction_c) : cpu unit :=
  eaddr <- BX_CPU_RESOLVE_ADDR_64 i ;;
  op1_64 <- BX_READ_64BIT_REG (dst i) ;;
  laddr <- get_laddr64 (seg i) eaddr ;;
  op2_64 <- read_linear_qword (seg i) laddr ;;
  let op1_64 := Z.land op1_64 op2_64 in
  BX_WRITE_64BIT_REG (dst i) op1_64 ;;;
  put_lazy (SET_FLAGS_OSZAPC_LOGIC 64 op1_64) ;;;
  BX_NEXT_INSTR.

Definition AND_EqIdM (i : bxInstruction_c) : cpu unit :=
  let op2_64 := u64 (signed 32 (Id i)) in
  eaddr <- BX_CPU_RESOLVE_ADDR_64 i ;;
  laddr <- get_laddr64 (seg i) eaddr ;;
  op1_64 <- read_RMW_linear_qword (seg i) laddr ;;
  let op1_64 := Z.land op1_64 op2_64 in
  write_RMW_linear_qword op1_64 ;;;
  put_lazy (SET_FLAGS_OSZAPC_LOGIC 64 op1_64) ;;;
  BX_NEXT_INSTR.

Definition AND_EqIdR (i : bxInstruction_c) : cpu unit :=
  let op2_64 := u64 (signed 32 (Id i)) in
  op1_64 <- BX_READ_64BIT_REG (dst i) ;;
  let op1_64 := Z.land op1_64 op2_64 in
  BX_WRITE_64BIT_REG (dst i) op1_64 ;;;
  put_lazy (SET_FLAGS_OSZAPC_LOGIC 64 op1_64) ;;;
  BX_NEXT_INSTR.

Definition TEST_EqGqR (i : bxInstruction_c) : cpu unit :=
  op1_64 <- BX_READ_64BIT_REG (dst i) ;;
  op2_64 <- BX_READ_64BIT_REG (src i) ;;
  let op1_64 := Z.land op1_64 op2_64 in
  put_lazy (SET_FLAGS_OSZAPC_LOGIC 64 op1_64) ;;;
  BX_NEXT_INSTR.

Definition TEST_EqGqM (i : bxInstruction_c) : cpu unit :=
  eaddr <- BX_CPU_RESOLVE_ADDR_64 i ;;
  laddr <- get_laddr64 (seg i) eaddr ;;
  op1_64 <- read_linear_qword (seg i) laddr ;;
  op2_64 <- BX_READ_64BIT_REG (src i) ;;
  let op1_64 := Z.land op1_64 op2_64 in
  put_lazy (SET_FLAGS_OSZAPC_LOGIC 64 op1_64) ;;;
  BX_NEXT_INSTR.

Definition TEST_EqIdR (i : bxInstruction_c) : cpu unit :=
  op1_64 <- BX_READ_64BIT_REG (dst i) ;;
  let op2_64 := u64 (signed 32 (Id i)) in
  let op1_64 := Z.land op1_64 op2_64 in
  put_lazy (SET_FLAGS_OSZAPC_LOGIC 64 op1_64) ;;;
  BX_NEXT_INSTR.

Definition TEST_EqIdM (i : bxInstruction_c) : cpu unit :=
  eaddr <- BX_CPU_RESOLVE_ADDR_64 i ;;
  laddr <- get_laddr64 (seg i) eaddr ;;
  op1_64 <- read_linear_qword (seg i) laddr ;;
  let op2_64 := u64 (signed 32 (Id i)) in
  let op1_64 := Z.land op1_64 op2_64 in
  put_lazy (SET_FLAGS_OSZAPC_LOGIC 64 op1_64) ;;;
  BX_NEXT_INSTR.

End Handlers.
