(* ===== verification/Alu.v ===== *)
(** * Reference semantics of the integer instructions

    The architecture's view of the handlers in [Arith8] to [Arith64]: operands
    are read, an exact integer result is computed, the low bits are written back
    and the six flags follow from the exact result.  The reference runs on the
    same registers and memory but keeps the flags themselves; [abs] maps the
    code's state to it and [osim] is the simulation on outcomes, faults
    included.  The second half is the symbolic execution of handlers that the
    refinement proofs share. *)

From Stdlib Require Import ZArith Lia List Bool FunctionalExtensionality.
From S2P Require Import Prelude LazyFlags Cpu.
Import ListNotations.
Open Scope Z_scope.

(** ** Operand sizes and forms *)

Inductive opsize := S8 | S16 | S32 | S64.

Definition bits (sz : opsize) : Z :=
  match sz with S8 => 8 | S16 => 16 | S32 => 32 | S64 => 64 end.

Lemma bits_osize sz : osize (bits sz).
Proof. destruct sz; unfold osize; simpl; lia. Qed.

(** Destination and source: [E] forms with a register or memory operand. *)
Inductive form := RegReg | RegMem | MemReg | RegImm | MemImm.

Inductive alu_op := ADD | ADC | SUB | SBB | CMP | AND | OR | XOR | TEST.
Inductive unary_op := INC | DEC | NEG | NOT.

Definition writes (op : alu_op) : bool :=
  match op with CMP | TEST => false | _ => true end.

(** The exact result; [c] is the carry before the instruction. *)
Definition alu_result (op : alu_op) (a b c : Z) : Z :=
  match op with
  | ADD => a + b
  | ADC => a + b + c
  | SUB | CMP => a - b
  | SBB => a - b - c
  | AND | TEST => Z.land a b
  | OR => Z.lor a b
  | XOR => Z.lxor a b
  end.

Definition alu_flags (n : Z) (op : alu_op) (a b c : Z) : flags :=
  match op with
  | ADD => add_flags n a b 0
  | ADC => add_flags n a b c
  | SUB | CMP => sub_flags n a b 0
  | SBB => sub_flags n a b c
  | AND | TEST | OR | XOR => result_flags n (alu_result op a b c) false false false
  end.

Definition unary_result (op : unary_op) (a : Z) : Z :=
  match op with INC => a + 1 | DEC => a - 1 | NEG => - a | NOT => Z.lnot a end.

Definition unary_flags (n : Z) (op : unary_op) (a : Z) (f : flags) : flags :=
  match op with
  | INC => (add_flags n a 1 0) <| CF := CF f |>
  | DEC => (sub_flags n a 1 0) <| CF := CF f |>
  | NEG => sub_flags n 0 a 0
  | NOT => f
  end.

Section Reference.
Context {M : Type} `{VirtualMemory M}.
Abbreviation cpu := (cpu flags M).

Definition read_reg (sz : opsize) (i : bxInstruction_c) (r : Z) : cpu Z :=
  match sz with
  | S8 => BX_READ_8BIT_REGx r (extend8bitL i)
  | S16 => BX_READ_16BIT_REG r
  | S32 => BX_READ_32BIT_REG r
  | S64 => BX_READ_64BIT_REG r
  end.

Definition write_reg (sz : opsize) (i : bxInstruction_c) (r v : Z) : cpu unit :=
  match sz with
  | S8 => BX_WRITE_8BIT_REGx r (extend8bitL i) v
  | S16 => BX_WRITE_16BIT_REG r v
  | S32 => BX_WRITE_32BIT_REGZ r v
  | S64 => BX_WRITE_64BIT_REG r v
  end.

(** The memory operand; a read-modify-write when [rmw]. *)
Definition read_mem (sz : opsize) (rmw : bool) (i : bxInstruction_c) : cpu Z :=
  eaddr <- BX_CPU_RESOLVE_ADDR i ;;
  match sz with
  | S8 => if rmw then read_RMW_virtual_byte (seg i) eaddr else read_virtual_byte (seg i) eaddr
  | S16 => if rmw then read_RMW_virtual_word (seg i) eaddr else read_virtual_word (seg i) eaddr
  | S32 => if rmw then read_RMW_virtual_dword (seg i) eaddr else read_virtual_dword (seg i) eaddr
  | S64 => laddr <- get_laddr64 (seg i) eaddr ;;
           if rmw then read_RMW_linear_qword (seg i) laddr else read_linear_qword (seg i) laddr
  end.

Definition write_mem (sz : opsize) (v : Z) : cpu unit :=
  match sz with
  | S8 => write_RMW_linear_byte v
  | S16 => write_RMW_linear_word v
  | S32 => write_RMW_linear_dword v
  | S64 => write_RMW_linear_qword v
  end.

Definition immediate (sz : opsize) (i : bxInstruction_c) : Z :=
  match sz with S8 => Ib i | S16 => Iw i | S32 => Id i | S64 => u64 (signed 32 (Id i)) end.

Definition get_flags : cpu flags := fun s => Ok (oszapc s) s.
Definition set_flags (f : flags) : cpu unit := fun s => Ok tt (s <| oszapc := f |>).

Definition alu_spec (sz : opsize) (op : alu_op) (f : form) (i : bxInstruction_c) : cpu unit :=
  let n := bits sz in
  a <- (match f with
        | RegReg | RegMem | RegImm => read_reg sz i (dst i)
        | MemReg | MemImm => read_mem sz (writes op) i
        end) ;;
  b <- (match f with
        | RegReg | MemReg => read_reg sz i (src i)
        | RegMem => read_mem sz false i
        | RegImm | MemImm => ret (immediate sz i)
        end) ;;
  old <- get_flags ;;
  let c := Z.b2z (CF old) in
  (if writes op then
     match f with
     | RegReg | RegMem | RegImm => write_reg sz i (dst i) (alu_result op a b c)
     | MemReg | MemImm => write_mem sz (alu_result op a b c)
     end
   else ret tt) ;;;
  set_flags (alu_flags n op a b c).

Definition unary_spec (sz : opsize) (op : unary_op) (mem : bool) (i : bxInstruction_c) : cpu unit :=
  a <- (if mem then read_mem sz true i else read_reg sz i (dst i)) ;;
  (if mem then write_mem sz (unary_result op a)
   else write_reg sz i (dst i) (unary_result op a)) ;;;
  old <- get_flags ;;
  set_flags (unary_flags (bits sz) op a old).

(** XADD: the sum goes to the destination, the old destination to the source
    register; when both are the same register it holds the sum. *)
Definition xadd_spec (sz : opsize) (mem : bool) (i : bxInstruction_c) : cpu unit :=
  a <- (if mem then read_mem sz true i else read_reg sz i (dst i)) ;;
  b <- read_reg sz i (src i) ;;
  (if mem then write_mem sz (a + b) ;;; write_reg sz i (src i) a
   else write_reg sz i (src i) a ;;; write_reg sz i (dst i) (a + b)) ;;;
  set_flags (add_flags (bits sz) a b 0).

Definition read_acc (sz : opsize) : cpu Z :=
  match sz with S8 => AL | S16 => AX | S32 => EAX | S64 => RAX end.
Definition write_acc (sz : opsize) (v : Z) : cpu unit :=
  match sz with S8 => set_AL v | S16 => set_AX v | S32 => set_RAX v | S64 => set_RAX v end.

(** CMPXCHG: compare the accumulator with the destination and exchange. *)
Definition cmpxchg_spec (sz : opsize) (mem : bool) (i : bxInstruction_c) : cpu unit :=
  a <- (if mem then read_mem sz true i else read_reg sz i (dst i)) ;;
  acc <- read_acc sz ;;
  set_flags (sub_flags (bits sz) acc a 0) ;;;
  (if acc =? a then
     b <- read_reg sz i (src i) ;;
     if mem then write_mem sz b else write_reg sz i (dst i) b
   else
     (if mem then write_mem sz a else ret tt) ;;; write_acc sz a) ;;;
  ret tt.

(** The instructions with an operand size. *)
Inductive alu_instr :=
| Binary (op : alu_op) (f : form)
| Unary (op : unary_op) (mem : bool)
| Xadd (mem : bool)
| Cmpxchg (mem : bool)
| Widen             (* CBW, CWDE, CDQE: sign extend the lower half of the accumulator *)
| SignDx            (* CWD, CDQ, CQO: fill the data register with the sign *)
| ZeroIdiom.        (* XOR of a register with itself *)

Definition half (sz : opsize) : opsize :=
  match sz with S8 => S8 | S16 => S8 | S32 => S16 | S64 => S32 end.

Definition write_dx (sz : opsize) (v : Z) : cpu unit :=
  match sz with
  | S8 | S16 => set_DX v
  | S32 => BX_WRITE_32BIT_REGZ BX_64BIT_REG_RDX v
  | S64 => set_RDX v
  end.

Definition write_acc_zx (sz : opsize) (v : Z) : cpu unit :=
  match sz with
  | S8 | S16 => set_AX v
  | S32 => BX_WRITE_32BIT_REGZ BX_64BIT_REG_RAX v
  | S64 => set_RAX v
  end.

Definition instr_spec (sz : opsize) (ins : alu_instr) (i : bxInstruction_c) : cpu unit :=
  match ins with
  | Binary op f => alu_spec sz op f i
  | Unary op mem => unary_spec sz op mem i
  | Xadd mem => xadd_spec sz mem i
  | Cmpxchg mem => cmpxchg_spec sz mem i
  | Widen => v <- read_acc (half sz) ;; write_acc_zx sz (signed (bits (half sz)) v) ;;; ret tt
  | SignDx => v <- read_acc sz ;;
              write_dx sz (if signed (bits sz) v <? 0 then -1 else 0) ;;; ret tt
  | ZeroIdiom =>
      a <- read_reg sz i (dst i) ;;
      write_reg sz i (dst i) (Z.lxor a a) ;;;
      set_flags (result_flags (bits sz) 0 false false false)
  end.

(** CMPXCHG8B and CMPXCHG16B compare a pair of registers with twice the operand
    size in memory; only ZF changes. *)
Definition set_ZF_flag (v : bool) : cpu unit :=
  fun s => Ok tt (s <| oszapc := (oszapc s) <| ZF := v |> |>).

Definition cmpxchg8b_spec (i : bxInstruction_c) : cpu unit :=
  eaddr <- BX_CPU_RESOLVE_ADDR i ;;
  m <- read_RMW_virtual_qword (seg i) eaddr ;;
  hi <- EDX ;; lo <- EAX ;;
  if m =? 2 ^ 32 * hi + lo then
    c <- ECX ;; b <- EBX ;;
    write_RMW_linear_qword (2 ^ 32 * c + b) ;;; set_ZF_flag true
  else
    write_RMW_linear_qword m ;;; set_RAX (m mod 2 ^ 32) ;;; set_RDX (m / 2 ^ 32) ;;;
    set_ZF_flag false.

Definition cmpxchg16b_spec (i : bxInstruction_c) : cpu unit :=
  eaddr <- BX_CPU_RESOLVE_ADDR i ;;
  laddr <- get_laddr64 (seg i) eaddr ;;
  m <- read_RMW_linear_dqword_aligned_64 (seg i) laddr ;;
  hi <- RDX ;; lo <- RAX ;;
  if (fst m =? hi) && (snd m =? lo) then
    c <- RCX ;; b <- RBX ;;
    write_RMW_linear_dqword c b ;;; set_ZF_flag true
  else
    write_RMW_linear_dqword (fst m) (snd m) ;;; set_RAX (snd m) ;;; set_RDX (fst m) ;;;
    set_ZF_flag false.

End Reference.

Lemma Ib_fits i : fits 8 (Ib i).
Proof. apply wrap_fits. lia. Qed.

Lemma Iw_fits i : fits 16 (Iw i).
Proof. apply wrap_fits. lia. Qed.

(** ** The abstraction and the simulation *)

Section Simulation.
Context {M : Type}.

Definition abs (s : bx_cpu bx_lazyflags_entry M) : bx_cpu flags M :=
  Cpu (gen_reg s) (seg_base s) (lazy_flags (oszapc s)) (vmem s).

(** Registers are 64-bit objects, the lazy entry is well formed. *)
Definition cpu_ok (s : bx_cpu bx_lazyflags_entry M) : Prop :=
  (forall r, fits 64 (gen_reg s r)) /\ lf_ok (oszapc s).

Definition osim {A} (o : outcome (bx_cpu bx_lazyflags_entry M) A)
    (o' : outcome (bx_cpu flags M) A) : Prop :=
  match o with
  | Ok a s => o' = Ok a (abs s) /\ cpu_ok s
  | Fault e s => o' = Fault e (abs s) /\ cpu_ok s
  end.

End Simulation.

(** The immediate field is a 32-bit object. *)
Definition instr_ok (i : bxInstruction_c) : Prop := fits 32 (Id i).

(** ** Symbolic execution

    Register and flag accesses always return; each lemma runs one of them in
    front of a continuation. *)

Definition read8x (index extended : Z) (g : Z -> Z) : Z :=
  if (Z.land index 4 =? 0) || negb (extended =? 0)
  then get_field 0 8 (g index) else get_field 8 8 (g (index - 4)).

Definition write8x (index extended v : Z) (g : Z -> Z) : Z -> Z :=
  if (Z.land index 4 =? 0) || negb (extended =? 0)
  then upd g index (put_field 0 8 v (g index))
  else upd g (index - 4) (put_field 8 8 v (g (index - 4))).

(** The effective address as a function of the registers. *)
Definition eff_addr (i : bxInstruction_c) (g : Z -> Z) : Z :=
  if negb (as64L i =? 0) then
    let eaddr := u64 (g (sibBase i) + displ32s i) in
    if negb (sibIndex i =? 4)
    then u64 (eaddr + u64 (Z.shiftl (g (sibIndex i)) (sibScale i))) else eaddr
  else
    let eaddr := u32 (get_field 0 32 (g (sibBase i)) + displ32s i) in
    u32 (Z.land (if negb (sibIndex i =? 4)
      then u32 (eaddr + u32 (Z.shiftl (get_field 0 32 (g (sibIndex i))) (sibScale i)))
      else eaddr) (asize_mask i)).

Section Exec.
Context {F M A : Type} `{VirtualMemory M}.
Implicit Types s : bx_cpu F M.

Lemma bind_ret {B} (a : B) (k : B -> cpu F M A) s : bind (ret a) k s = k a s.
Proof. reflexivity. Qed.

Lemma bind_assoc {B C} (m : cpu F M B) (k : B -> cpu F M C) (l : C -> cpu F M A) s :
  bind (bind m k) l s = bind m (fun b => bind (k b) l) s.
Proof. unfold bind. destruct (m s); reflexivity. Qed.

Lemma bind_R64 r (k : Z -> cpu F M A) s :
  bind (BX_READ_64BIT_REG r) k s = k (gen_reg s r) s.
Proof. reflexivity. Qed.

Lemma bind_R32 r (k : Z -> cpu F M A) s :
  bind (BX_READ_32BIT_REG r) k s = k (get_field 0 32 (gen_reg s r)) s.
Proof. reflexivity. Qed.

Lemma bind_R16 r (k : Z -> cpu F M A) s :
  bind (BX_READ_16BIT_REG r) k s = k (get_field 0 16 (gen_reg s r)) s.
Proof. reflexivity. Qed.

Lemma bind_R8L r (k : Z -> cpu F M A) s :
  bind (BX_READ_8BIT_REGL r) k s = k (get_field 0 8 (gen_reg s r)) s.
Proof. reflexivity. Qed.

Lemma bind_R8x r x (k : Z -> cpu F M A) s :
  bind (BX_READ_8BIT_REGx r x) k s = k (read8x r x (gen_reg s)) s.
Proof. unfold BX_READ_8BIT_REGx, read8x. destruct (_ || _); reflexivity. Qed.

Lemma bind_RESOLVE i (k : Z -> cpu F M A) s :
  bind (BX_CPU_RESOLVE_ADDR i) k s = k (eff_addr i (gen_reg s)) s.
Proof.
  unfold BX_CPU_RESOLVE_ADDR, BxResolve64, BxResolve32, eff_addr.
  destruct (negb (as64L i =? 0)), (negb (sibIndex i =? 4)); reflexivity.
Qed.

Lemma bind_RESOLVE_64 i (k : Z -> cpu F M A) s :
  bind (BX_CPU_RESOLVE_ADDR_64 i) k s = k (eff_addr i (gen_reg s)) s.
Proof. apply bind_RESOLVE. Qed.

Lemma bind_laddr64 sg o (k : Z -> cpu F M A) s :
  bind (get_laddr64 sg o) k s =
  k (if sg <? BX_SEG_REG_FS then o else u64 (seg_base s sg + o)) s.
Proof. reflexivity. Qed.

Lemma bind_W64 r v (k : unit -> cpu F M A) s :
  bind (BX_WRITE_64BIT_REG r v) k s = k tt (s <| gen_reg := upd (gen_reg s) r (u64 v) |>).
Proof. reflexivity. Qed.

Lemma bind_W32Z r v (k : unit -> cpu F M A) s :
  bind (BX_WRITE_32BIT_REGZ r v) k s = k tt (s <| gen_reg := upd (gen_reg s) r (u32 v) |>).
Proof. reflexivity. Qed.

Lemma bind_W32 r v (k : unit -> cpu F M A) s :
  bind (BX_WRITE_32BIT_REG r v) k s =
  k tt (s <| gen_reg := upd (gen_reg s) r (put_field 0 32 v (gen_reg s r)) |>).
Proof. reflexivity. Qed.

Lemma bind_W16 r v (k : unit -> cpu F M A) s :
  bind (BX_WRITE_16BIT_REG r v) k s =
  k tt (s <| gen_reg := upd (gen_reg s) r (put_field 0 16 v (gen_reg s r)) |>).
Proof. reflexivity. Qed.

Lemma bind_W8x r x v (k : unit -> cpu F M A) s :
  bind (BX_WRITE_8BIT_REGx r x v) k s =
  k tt (s <| gen_reg := write8x r x v (gen_reg s) |>).
Proof. unfold BX_WRITE_8BIT_REGx, write8x. destruct (_ || _); reflexivity. Qed.

Lemma bind_WAL v (k : unit -> cpu F M A) s :
  bind (set_AL v) k s =
  k tt (s <| gen_reg := upd (gen_reg s) 0 (put_field 0 8 v (gen_reg s 0)) |>).
Proof. reflexivity. Qed.

Lemma bind_CLEAR r (k : unit -> cpu F M A) s :
  bind (BX_CLEAR_64BIT_HIGH r) k s =
  k tt (s <| gen_reg := upd (gen_reg s) r (put_field 32 32 0 (gen_reg s r)) |>).
Proof. reflexivity. Qed.

Lemma bind_write_RMW n v (k : unit -> cpu F M A) s :
  bind (write_RMW n v) k s = k tt (s <| vmem := vm_write_RMW n v (vmem s) |>).
Proof. reflexivity. Qed.

End Exec.

Section ExecFlags.
Context {M A : Type}.

Lemma bind_put_lazy e (k : unit -> cpu bx_lazyflags_entry M A) s :
  bind (put_lazy e) k s = k tt (s <| oszapc := e |>).
Proof. reflexivity. Qed.

Lemma bind_modify_lazy f (k : unit -> cpu bx_lazyflags_entry M A) s :
  bind (modify_lazy f) k s = k tt (s <| oszapc := f (oszapc s) |>).
Proof. reflexivity. Qed.

Lemma bind_getB_CF (k : Z -> cpu bx_lazyflags_entry M A) s :
  bind cpu_getB_CF k s = k (getB_CF (oszapc s)) s.
Proof. reflexivity. Qed.

Lemma bind_get_flags (k : flags -> cpu flags M A) s :
  bind get_flags k s = k (oszapc s) s.
Proof. reflexivity. Qed.

Lemma bind_set_flags f (k : unit -> cpu flags M A) s :
  bind (set_flags f) k s = k tt (s <| oszapc := f |>).
Proof. reflexivity. Qed.

Lemma set_flags_eq f (s : bx_cpu flags M) : set_flags f s = Ok tt (s <| oszapc := f |>).
Proof. reflexivity. Qed.

Lemma set_ZF_eq v (s : bx_cpu flags M) :
  set_ZF_flag v s = Ok tt (s <| oszapc := (oszapc s) <| ZF := v |> |>).
Proof. reflexivity. Qed.

Lemma ret_eq {F} (s : bx_cpu F M) : ret tt s = Ok tt s.
Proof. reflexivity. Qed.

Lemma NEXT_eq {F} (s : bx_cpu F M) : BX_NEXT_INSTR s = Ok tt s.
Proof. reflexivity. Qed.

End ExecFlags.

(** Memory accesses: the same access on both sides, and the runs after it. *)
Section Access.
Context {M : Type} `{VirtualMemory M}.

Lemma osim_access {A B} (f : M -> (exn + B) * M) k k' (s : bx_cpu bx_lazyflags_entry M) :
  cpu_ok s ->
  (forall v m, f (vmem s) = (inr v, m) ->
     osim (k v (s <| vmem := m |>)) (k' v (abs (s <| vmem := m |>)))) ->
  osim (A := A) (bind (access f) k s) (bind (access f) k' (abs s)).
Proof.
  intros Hs Hk. unfold bind, access. change (vmem (abs s)) with (vmem s).
  destruct (f (vmem s)) as [[e|v] m] eqn:E.
  - split; [reflexivity | exact Hs].
  - apply Hk. reflexivity.
Qed.

End Access.

(** ** Values: reductions modulo the operand size *)

Lemma wrap_mod n m x : 0 <= n <= m -> wrap n (wrap m x) = wrap n x.
Proof. apply wrap_wrap_le. Qed.

Lemma wrap_add_m n m x y : 0 <= n <= m -> wrap n (wrap m x + y) = wrap n (x + y).
Proof. intros. rewrite <- wrap_add_l, wrap_wrap_le, wrap_add_l by lia. reflexivity. Qed.

Lemma wrap_sub_m n m x y : 0 <= n <= m -> wrap n (wrap m x - y) = wrap n (x - y).
Proof. intros. rewrite <- wrap_sub_l, wrap_wrap_le, wrap_sub_l by lia. reflexivity. Qed.

Lemma wrap_sub_r_m n m x y : 0 <= n <= m -> wrap n (x - wrap m y) = wrap n (x - y).
Proof. intros. rewrite <- wrap_sub_r, wrap_wrap_le, wrap_sub_r by lia. reflexivity. Qed.

Lemma wrap_opp_signed n m x : 0 < m -> 0 <= n <= m -> wrap n (- signed m x) = wrap n (- x).
Proof.
  intros. rewrite <- !Z.sub_0_l, <- wrap_sub_r_m with (m := m), wrap_signed, wrap_sub_r_m by lia.
  reflexivity.
Qed.

Lemma put_field_wrap pos n m v x : 0 <= n <= m -> put_field pos n (wrap m v) x = put_field pos n v x.
Proof. intros. unfold put_field. rewrite wrap_wrap_le by lia. reflexivity. Qed.

Lemma put_field_ext pos n v w x : wrap n v = wrap n w -> put_field pos n v x = put_field pos n w x.
Proof. intros E. unfold put_field. rewrite E. reflexivity. Qed.

Lemma write8x_ext r x v w g : wrap 8 v = wrap 8 w -> write8x r x v g = write8x r x w g.
Proof. intros E. unfold write8x. rewrite !(put_field_ext _ 8 v w) by exact E. reflexivity. Qed.

Lemma get_field_fits pos n x : 0 <= n -> fits n (get_field pos n x).
Proof. apply wrap_fits. Qed.

Lemma read8x_fits r x g : fits 8 (read8x r x g).
Proof. unfold read8x. destruct (_ || _); apply get_field_fits; lia. Qed.

Lemma put_field_bit pos n v x i :
  0 <= pos -> 0 <= n -> 0 <= i ->
  Z.testbit (put_field pos n v x) i =
  if (pos <=? i) && (i <? pos + n) then Z.testbit v (i - pos) else Z.testbit x i.
Proof.
  intros Hp Hn Hi. unfold put_field.
  rewrite Z.lor_spec, Z.ldiff_spec, !Z.shiftl_spec by lia.
  destruct (Z.leb_spec pos i) as [L|L]; simpl.
  - rewrite Z.testbit_ones_nonneg, wrap_bit by lia.
    destruct (Z.ltb_spec (i - pos) n), (Z.ltb_spec i (pos + n)); try lia; simpl;
      rewrite ?andb_false_r, ?andb_true_r, ?orb_false_r; reflexivity.
  - rewrite !(Z.testbit_neg_r _ (i - pos)) by lia. simpl. rewrite andb_true_r, orb_false_r.
    reflexivity.
Qed.

Lemma put_field_fits pos n v x m :
  0 <= pos -> 0 <= n -> pos + n <= m -> fits m x -> fits m (put_field pos n v x).
Proof.
  intros Hp Hn Hm Hx. apply fits_bits; [lia| |].
  - unfold put_field. apply Z.lor_nonneg. split.
    + apply Z.ldiff_nonneg. left. destruct Hx; assumption.
    + apply Z.shiftl_nonneg. apply wrap_fits; lia.
  - intros i Hi. rewrite put_field_bit by lia.
    destruct (Z.leb_spec pos i), (Z.ltb_spec i (pos + n)); try lia; simpl;
      apply (fits_testbit m); assumption || lia.
Qed.

(** Writing the low half and clearing the high half is zero extension. *)
Lemma put_low_clear_high v x : fits 64 x -> put_field 32 32 0 (put_field 0 32 v x) = u32 v.
Proof.
  intros Hx. apply Z.bits_inj'. intros i Hi. rewrite !put_field_bit, wrap_bit by lia.
  rewrite Z.testbit_0_l, Z.sub_0_r.
  destruct (Z.leb_spec 32 i), (Z.ltb_spec i (32 + 32)), (Z.leb_spec 0 i), (Z.ltb_spec i (0 + 32)),
    (Z.ltb_spec i 32); try lia; simpl; try reflexivity.
  apply (fits_testbit 64); assumption || lia.
Qed.

Lemma upd_fits g r v : (forall k, fits 64 (g k)) -> fits 64 v -> forall k, fits 64 (upd g r v k).
Proof. intros Hg Hv k. unfold upd. destruct (k =? r); auto. Qed.

Lemma write8x_fits r x v g :
  (forall k, fits 64 (g k)) -> forall k, fits 64 (write8x r x v g k).
Proof.
  intros Hg. unfold write8x. destruct (_ || _); apply upd_fits; auto;
    apply put_field_fits; auto; lia.
Qed.

Lemma upd_upd g r v w : upd (upd g r v) r w = upd g r w.
Proof. apply functional_extensionality. intros k. unfold upd. destruct (k =? r); reflexivity. Qed.

Lemma upd_same g r v : upd g r v r = v.
Proof. unfold upd. rewrite Z.eqb_refl. reflexivity. Qed.

(** ** Flags of operands that fit *)

Lemma ADD_flags_fits n a b c d r :
  osize n -> fits n a -> fits n b -> d = Z.b2z c -> wrap n r = wrap n (a + b + d) ->
  lazy_flags (SET_FLAGS_OSZAPC_ADD n a b r) = add_flags n a b d.
Proof.
  intros Hn Ha Hb -> Hr. rewrite (ADD_flags n a b r c) by assumption.
  rewrite !wrap_id by assumption. reflexivity.
Qed.

Lemma SUB_flags_fits n a b c d r :
  osize n -> fits n a -> fits n b -> d = Z.b2z c -> wrap n r = wrap n (a - b - d) ->
  lazy_flags (SET_FLAGS_OSZAPC_SUB n a b r) = sub_flags n a b d.
Proof.
  intros Hn Ha Hb -> Hr. rewrite (SUB_flags n a b r c) by assumption.
  rewrite !wrap_id by assumption. reflexivity.
Qed.

(** NEG passes [0 - r], which is the operand again modulo the size. *)
Lemma NEG_flags n a b r :
  osize n -> fits n a -> wrap n b = wrap n a -> wrap n r = wrap n (- a) ->
  lazy_flags (SET_FLAGS_OSZAPC_SUB n 0 b r) = sub_flags n 0 a 0.
Proof.
  intros Hn Ha Hb Hr. rewrite (wrap_id n a Ha) in Hb. rewrite (SUB_flags n 0 b r false); [rewrite Hb; reflexivity | assumption |].
  rewrite Hr. simpl Z.b2z. rewrite Z.sub_0_r, <- Hb, <- (Z.sub_0_l (wrap n b)), wrap_sub_r.
  reflexivity.
Qed.

Lemma INC_flags_fits n a x r e :
  osize n -> lf_ok e -> fits n a -> wrap n x = wrap n a -> wrap n r = wrap n (a + 1) ->
  lazy_flags (SET_FLAGS_OSZAP_ADD n x 0 r e) = (add_flags n a 1 0) <| CF := CF (lazy_flags e) |>.
Proof.
  intros Hn He Ha Hx Hr. rewrite (wrap_id n a Ha) in Hx. rewrite (INC_flags n x r e Hn He), Hx; [reflexivity|].
  rewrite Hr, <- (wrap_add_l n x), Hx. reflexivity.
Qed.

Lemma DEC_flags_fits n a x r e :
  osize n -> lf_ok e -> fits n a -> wrap n x = wrap n a -> wrap n r = wrap n (a - 1) ->
  lazy_flags (SET_FLAGS_OSZAP_SUB n x 0 r e) = (sub_flags n a 1 0) <| CF := CF (lazy_flags e) |>.
Proof.
  intros Hn He Ha Hx Hr. rewrite (wrap_id n a Ha) in Hx. rewrite (DEC_flags n x r e Hn He), Hx; [reflexivity|].
  rewrite Hr, <- (wrap_sub_l n x), Hx. reflexivity.
Qed.

Lemma LOGIC_flags_eq n r v :
  osize n -> wrap n r = wrap n v ->
  lazy_flags (SET_FLAGS_OSZAPC_LOGIC n r) = result_flags n v false false false.
Proof.
  intros Hn E. pose proof (osize_pos n Hn).
  rewrite LOGIC_flags by assumption.
  rewrite <- (result_flags_wrap n n r), E, result_flags_wrap by lia. reflexivity.
Qed.

Lemma getB_CF_flags e : getB_CF e = Z.b2z (CF (lazy_flags e)).
Proof. unfold lazy_flags. cbn [CF]. rewrite b2z_to_bool_getB_CF. reflexivity. Qed.

(** ** Tactics for the refinement proofs *)

Ltac unfold_io := cbv [
  read_virtual_byte read_virtual_word read_virtual_dword
  read_RMW_virtual_byte read_RMW_virtual_word read_RMW_virtual_dword read_RMW_virtual_qword
  read_linear_qword read_RMW_linear_qword
  write_RMW_linear_byte write_RMW_linear_word write_RMW_linear_dword write_RMW_linear_qword
  read_mem write_mem read_reg write_reg read_acc write_acc immediate
  AL AX EAX ECX EDX EBX RAX RDX RCX RBX CL set_AX set_DX set_RAX set_RDX
  BX_64BIT_REG_RAX BX_64BIT_REG_RCX BX_64BIT_REG_RDX BX_64BIT_REG_RBX].

Ltac exec_simpl :=
  cbv beta zeta; cbn [set_field gen_reg seg_base oszapc vmem abs writes negb andb orb].

Ltac exec_rw := first
  [ rewrite bind_assoc | rewrite bind_ret
  | rewrite bind_RESOLVE | rewrite bind_RESOLVE_64 | rewrite bind_laddr64
  | rewrite bind_R8x | rewrite bind_R8L | rewrite bind_R16 | rewrite bind_R32 | rewrite bind_R64
  | rewrite bind_W8x | rewrite bind_WAL | rewrite bind_W16 | rewrite bind_W32Z
  | rewrite bind_W32 | rewrite bind_W64 | rewrite bind_CLEAR | rewrite bind_write_RMW
  | rewrite bind_put_lazy | rewrite bind_modify_lazy | rewrite bind_getB_CF
  | rewrite bind_get_flags | rewrite bind_set_flags | rewrite set_flags_eq | rewrite set_ZF_eq
  | rewrite ret_eq | rewrite NEXT_eq ].

Ltac exec := exec_simpl; repeat (exec_rw; exec_simpl).

(** The access fits: what the memory interface promises. *)
Ltac access_fits :=
  match goal with
  | H : vm_read ?n _ _ _ = (inr ?v, _) |- _ => apply vm_read_fits in H; [|lia]
  | H : vm_read_RMW ?n _ _ _ = (inr ?v, _) |- _ => apply vm_read_RMW_fits in H; [|lia]
  | H : vm_read_linear ?n _ _ _ = (inr ?v, _) |- _ => apply vm_read_linear_fits in H; [|lia]
  | H : vm_read_RMW_linear ?n _ _ _ = (inr ?v, _) |- _ => apply vm_read_RMW_linear_fits in H; [|lia]
  end;
  match goal with
  | H : fits (8 * ?n) ?v |- _ =>
      let k := eval vm_compute in (8 * n) in change (fits k v) in H
  end.

Ltac exec_access :=
  let E := fresh "E" in
  apply osim_access; [assumption | intros ? ? E; cbn [vmem] in E; access_fits].

(** Equality of two values modulo the operand size. *)
Lemma wrap_sub_signed_m n m x y : 0 < m -> 0 <= n <= m -> wrap n (x - signed m y) = wrap n (x - y).
Proof.
  intros. rewrite <- (wrap_sub_r_m n m x (signed m y)), wrap_signed, wrap_sub_r_m by lia.
  reflexivity.
Qed.

Lemma wrap_sub_sub_signed n m x z y :
  0 < m -> 0 <= n <= m -> wrap n (x - (z - signed m y)) = wrap n (x - (z - y)).
Proof.
  intros. rewrite <- wrap_sub_r, wrap_sub_signed_m, wrap_sub_r by lia. reflexivity.
Qed.

Lemma wrap_sub_opp_signed n m x y :
  0 < m -> 0 <= n <= m -> wrap n (x - - signed m y) = wrap n (x - - y).
Proof. intros. rewrite <- wrap_sub_r, wrap_opp_signed, wrap_sub_r by lia. reflexivity. Qed.

Lemma wrap_add_r_m n m x y : 0 <= n <= m -> wrap n (x + wrap m y) = wrap n (x + y).
Proof. intros. rewrite Z.add_comm, wrap_add_m, Z.add_comm by lia. reflexivity. Qed.

Lemma wrap_wider n m x : 0 <= n <= m -> wrap m (wrap n x) = wrap n x.
Proof.
  intros. apply wrap_id. apply (fits_le n); [lia|]. apply wrap_fits. lia.
Qed.

Lemma wrap_opp_m n m x : 0 <= n <= m -> wrap n (- wrap m x) = wrap n (- x).
Proof. intros. rewrite <- !Z.sub_0_l, wrap_sub_r_m by lia. reflexivity. Qed.

Lemma wrap_opp_opp_signed n m x : 0 < m -> 0 <= n <= m -> wrap n (- - signed m x) = wrap n x.
Proof.
  intros. rewrite Z.opp_involutive, <- (wrap_wrap_le n m), wrap_signed, wrap_wrap_le by lia.
  reflexivity.
Qed.

Ltac wrap_norm := repeat match goal with
  | |- context [wrap ?n (wrap ?m ?x)] => rewrite (wrap_mod n m x) by lia
  | |- context [wrap ?m (wrap ?n ?x)] => rewrite (wrap_wider n m x) by lia
  | |- context [wrap ?n (wrap ?m ?x + ?y)] => rewrite (wrap_add_m n m x y) by lia
  | |- context [wrap ?n (?x + wrap ?m ?y)] => rewrite (wrap_add_r_m n m x y) by lia
  | |- context [wrap ?n (wrap ?m ?x - ?y)] => rewrite (wrap_sub_m n m x y) by lia
  | |- context [wrap ?n (?x - wrap ?m ?y)] => rewrite (wrap_sub_r_m n m x y) by lia
  | |- context [wrap ?n (- wrap ?m ?x)] => rewrite (wrap_opp_m n m x) by lia
  | |- context [wrap ?n (- - signed ?m ?x)] => rewrite (wrap_opp_opp_signed n m x) by lia
  | |- context [wrap ?n (- signed ?m ?x)] => rewrite (wrap_opp_signed n m x) by lia
  | |- context [wrap ?n (?x - signed ?m ?y)] => rewrite (wrap_sub_signed_m n m x y) by lia
  | |- context [wrap ?n (?x - - signed ?m ?y)] => rewrite (wrap_sub_opp_signed n m x y) by lia
  | |- context [wrap ?n (?x - (?z - signed ?m ?y))] =>
      rewrite (wrap_sub_sub_signed n m x z y) by lia
  end.

Ltac weq := rewrite ?Z.add_0_r, ?Z.sub_0_r; first [ reflexivity | (f_equal; lia) | (wrap_norm; first [ reflexivity | f_equal; lia ]) ].

Ltac fits_tac :=
  match goal with
  | H : fits ?n ?x |- fits ?n ?x => exact H
  | |- fits ?n (get_field _ ?n _) => apply get_field_fits; lia
  | |- fits 8 (read8x _ _ _) => apply read8x_fits
  | |- fits ?n (wrap ?n _) => apply wrap_fits; lia
  | |- fits ?n (wrap ?m _) => apply (fits_le m n); [lia | apply wrap_fits; lia]
  | |- fits _ (Ib _) => apply Ib_fits
  | |- fits _ (Iw _) => apply Iw_fits
  | H : instr_ok ?i |- fits _ (Id ?i) => exact H
  | H : cpu_ok _ |- fits 64 (?g _) => apply H
  | |- _ => unfold fits; lia
  end.

Lemma Ok_abs {M} g b e (m : M) g' f m' :
  g' = g -> f = lazy_flags e -> m' = m -> Ok tt (Cpu g' b f m') = Ok tt (abs (Cpu g b e m)).
Proof. intros -> -> ->. reflexivity. Qed.

Ltac regs_eq := rewrite ?upd_same, ?upd_upd, ?put_low_clear_high by (match goal with
    | H : cpu_ok _ |- _ => apply H end);
  first
  [ reflexivity
  | apply write8x_ext; weq
  | f_equal; first [ reflexivity | apply put_field_ext; weq | weq ] ].

Ltac mem_eq := first [ reflexivity | f_equal; first [ reflexivity | weq ] ].

Ltac osize_tac := first [ assumption | unfold osize; lia ].

Ltac flags_eq :=
  symmetry;
  match goal with
  | |- lazy_flags ?e = lazy_flags ?e => reflexivity
  | |- lazy_flags (SET_FLAGS_OSZAPC_ADD ?n ?a ?b ?r) = add_flags _ _ _ 0 =>
      apply (ADD_flags_fits n a b false 0 r); [osize_tac | fits_tac | fits_tac | reflexivity | weq]
  | |- lazy_flags (SET_FLAGS_OSZAPC_ADD ?n ?a ?b ?r) = add_flags _ _ _ (Z.b2z ?c) =>
      apply (ADD_flags_fits n a b c _ r); [osize_tac | fits_tac | fits_tac | reflexivity | weq]
  | |- lazy_flags (SET_FLAGS_OSZAPC_SUB ?n 0 ?b ?r) = sub_flags _ 0 ?a 0 =>
      apply (NEG_flags n a b r); [osize_tac | fits_tac | weq | weq]
  | |- lazy_flags (SET_FLAGS_OSZAPC_SUB ?n ?a ?b ?r) = sub_flags _ _ _ 0 =>
      apply (SUB_flags_fits n a b false 0 r); [osize_tac | fits_tac | fits_tac | reflexivity | weq]
  | |- lazy_flags (SET_FLAGS_OSZAPC_SUB ?n ?a ?b ?r) = sub_flags _ _ _ (Z.b2z ?c) =>
      apply (SUB_flags_fits n a b c _ r); [osize_tac | fits_tac | fits_tac | reflexivity | weq]
  | |- lazy_flags (SET_FLAGS_OSZAPC_LOGIC ?n ?r) = result_flags _ ?v _ _ _ =>
      apply (LOGIC_flags_eq n r v); [osize_tac | weq]
  | H : cpu_ok _ |- lazy_flags (SET_FLAGS_OSZAP_ADD ?n ?x 0 ?r ?e) = set_field _ _ (add_flags _ ?a _ _) =>
      apply (INC_flags_fits n a x r e); [osize_tac | apply H | fits_tac | weq | weq]
  | H : cpu_ok _ |- lazy_flags (SET_FLAGS_OSZAP_SUB ?n ?x 0 ?r ?e) = set_field _ _ (sub_flags _ ?a _ _) =>
      apply (DEC_flags_fits n a x r e); [osize_tac | apply H | fits_tac | weq | weq]
  end.

Ltac regs_fit :=
  cbn [gen_reg];
  let Hr := fresh "Hregs" in
  match goal with H : cpu_ok _ |- _ => destruct H as [Hr _]; cbn [gen_reg] in Hr end;
  rewrite ?upd_same;
  repeat match goal with
  | |- forall k, fits 64 (upd _ _ _ k) => apply upd_fits
  | |- forall k, fits 64 (write8x _ _ _ _ k) => apply write8x_fits
  | |- forall _, _ => exact Hr
  | |- fits 64 (put_field _ _ _ _) => apply put_field_fits; [lia | lia | lia |]
  | |- fits 64 (wrap 64 _) => apply wrap_fits; lia
  | |- fits 64 (wrap ?m _) => apply (fits_le m 64); [lia | apply wrap_fits; lia]
  | H : fits ?n ?x |- fits 64 ?x => apply (fits_le n 64); [lia | exact H]
  | |- fits 64 (upd ?g ?k ?v ?r) => apply (upd_fits g k v)
  | |- fits 64 _ => apply Hr
  end.

Ltac lf_ok_tac :=
  cbn [oszapc];
  match goal with
  | |- lf_ok (SET_FLAGS_OSZAPC_ADD _ _ _ _) => exact (SIZE_ok _ _ _)
  | |- lf_ok (SET_FLAGS_OSZAPC_SUB _ _ _ _) => exact (SIZE_ok _ _ _)
  | |- lf_ok (SET_FLAGS_OSZAPC_LOGIC _ _) => exact (SIZE_ok _ _ _)
  | |- lf_ok (SET_FLAGS_OSZAP_ADD _ _ _ _ _) => exact (OSZAP_ok _ _ _ _)
  | |- lf_ok (SET_FLAGS_OSZAP_SUB _ _ _ _ _) => exact (OSZAP_ok _ _ _ _)
  | H : cpu_ok _ |- _ => apply H
  end.

Ltac refine_end :=
  cbn [alu_flags unary_flags alu_result unary_result bits]; rewrite ?getB_CF_flags; split;
  [ apply Ok_abs; [regs_eq | flags_eq | mem_eq]
  | split; [regs_fit | lf_ok_tac] ].

(** The difference of two operands is zero exactly when they are equal. *)
Lemma diff_zero n m a b : 0 <= n <= m -> fits n a -> fits n b ->
  (wrap m (a - b) =? 0) = (a =? b).
Proof.
  intros Hn Ha Hb. pose proof (fits_le n m a ltac:(lia) Ha) as Fa.
  pose proof (fits_le n m b ltac:(lia) Hb) as Fb. unfold fits in *.
  destruct (Z.eqb_spec a b) as [->|N].
  - rewrite Z.sub_diag. reflexivity.
  - apply Z.eqb_neq. intros E. apply Z.mod_divide in E; [|lia]. destruct E as [q Hq].
    assert (q <= -1 \/ q = 0 \/ 1 <= q) as [C|[C|C]] by lia; nia.
Qed.

Lemma sign_test n v : 0 < n -> negb (Z.land v (Z.shiftl 1 (n - 1)) =? 0) = (signed n v <? 0).
Proof.
  intros Hn. change (Z.shiftl 1 (n - 1)) with (bitmask (n - 1)).
  rewrite land_bitmask_zero, negb_involutive, signed_neg by lia. reflexivity.
Qed.
