(* ===== verification/AluRefine.v ===== *)
(** * The integer instruction handlers implement the reference semantics

    [handlerN] names the handler of each instruction and operand form; the
    refinement theorem runs every one of them against [Alu.instr_spec]. *)

From Stdlib Require Import ZArith Lia List Bool FunctionalExtensionality.
From S2P Require Import Prelude LazyFlags Cpu Alu Arith8 Arith16 Arith32 Arith64.
Import ListNotations.
Open Scope Z_scope.

Ltac unfold_spec := unfold instr_spec, alu_spec, unary_spec, xadd_spec, cmpxchg_spec,
  write_dx, write_acc_zx, half; cbn [bits].

Section Refinement.
Context {M : Type} `{VirtualMemoryOk M}.
Abbreviation handler := (bxInstruction_c -> cpu bx_lazyflags_entry M unit).

Definition handler8 (ins : alu_instr) : option handler :=
  match ins with
  | Binary ADD MemReg => Some ADD_EbGbM
  | Binary ADD RegReg => Some ADD_GbEbR
  | Binary ADD RegMem => Some ADD_GbEbM
  | Binary ADD MemImm => Some ADD_EbIbM
  | Binary ADD RegImm => Some ADD_EbIbR
  | Binary ADC MemReg => Some ADC_EbGbM
  | Binary ADC RegReg => Some ADC_GbEbR
  | Binary ADC RegMem => Some ADC_GbEbM
  | Binary ADC MemImm => Some ADC_EbIbM
  | Binary ADC RegImm => Some ADC_EbIbR
  | Binary SUB MemReg => Some SUB_EbGbM
  | Binary SUB RegReg => Some SUB_GbEbR
  | Binary SUB RegMem => Some SUB_GbEbM
  | Binary SUB MemImm => Some SUB_EbIbM
  | Binary SUB RegImm => Some SUB_EbIbR
  | Binary SBB MemReg => Some SBB_EbGbM
  | Binary SBB RegReg => Some SBB_GbEbR
  | Binary SBB RegMem => Some SBB_GbEbM
  | Binary SBB MemImm => Some SBB_EbIbM
  | Binary SBB RegImm => Some SBB_EbIbR
  | Binary CMP MemReg => Some CMP_EbGbM
  | Binary CMP RegReg => Some CMP_GbEbR
  | Binary CMP RegMem => Some CMP_GbEbM
  | Binary CMP MemImm => Some CMP_EbIbM
  | Binary CMP RegImm => Some CMP_EbIbR
  | Binary AND MemReg => Some AND_EbGbM
  | Binary AND RegReg => Some AND_GbEbR
  | Binary AND RegMem => Some AND_GbEbM
  | Binary AND MemImm => Some AND_EbIbM
  | Binary AND RegImm => Some AND_EbIbR
  | Binary OR MemReg => Some OR_EbGbM
  | Binary OR RegReg => Some OR_GbEbR
  | Binary OR RegMem => Some OR_GbEbM
  | Binary OR MemImm => Some OR_EbIbM
  | Binary OR RegImm => Some OR_EbIbR
  | Binary XOR MemReg => Some XOR_EbGbM
  | Binary XOR RegReg => Some XOR_GbEbR
  | Binary XOR RegMem => Some XOR_GbEbM
  | Binary XOR MemImm => Some XOR_EbIbM
  | Binary XOR RegImm => Some XOR_EbIbR
  | Binary TEST MemReg => Some TEST_EbGbM
  | Binary TEST RegReg => Some TEST_EbGbR
  | Binary TEST MemImm => Some TEST_EbIbM
  | Binary TEST RegImm => Some TEST_EbIbR
  | Unary INC true => Some INC_EbM
  | Unary INC false => Some INC_EbR
  | Unary DEC true => Some DEC_EbM
  | Unary DEC false => Some DEC_EbR
  | Unary NEG true => Some NEG_EbM
  | Unary NEG false => Some NEG_EbR
  | Unary NOT true => Some NOT_EbM
  | Unary NOT false => Some NOT_EbR
  | Xadd true => Some XADD_EbGbM
  | Xadd false => Some XADD_EbGbR
  | Cmpxchg true => Some CMPXCHG_EbGbM
  | Cmpxchg false => Some CMPXCHG_EbGbR
  | _ => None
  end.

Ltac unfold8 := cbv [
  ADD_EbGbM ADD_GbEbR ADD_GbEbM ADC_EbGbM ADC_GbEbR ADC_GbEbM SBB_EbGbM SBB_GbEbR SBB_GbEbM
  SBB_EbIbM SBB_EbIbR SUB_EbGbM SUB_GbEbR SUB_GbEbM CMP_EbGbM CMP_GbEbR CMP_GbEbM XADD_EbGbM
  XADD_EbGbR ADD_EbIbM ADD_EbIbR ADC_EbIbM ADC_EbIbR SUB_EbIbM SUB_EbIbR CMP_EbIbM CMP_EbIbR
  NEG_EbM NEG_EbR INC_EbM INC_EbR DEC_EbM DEC_EbR CMPXCHG_EbGbM CMPXCHG_EbGbR XOR_EbGbM
  XOR_GbEbR XOR_GbEbM XOR_EbIbM XOR_EbIbR OR_EbIbM OR_EbIbR NOT_EbM NOT_EbR OR_EbGbM
  OR_GbEbR OR_GbEbM AND_EbGbM AND_GbEbR AND_GbEbM AND_EbIbM AND_EbIbR TEST_EbGbR TEST_EbGbM
  TEST_EbIbR TEST_EbIbM].

Definition handler16 (ins : alu_instr) : option handler :=
  match ins with
  | Binary ADD MemReg => Some ADD_EwGwM
  | Binary ADD RegReg => Some ADD_GwEwR
  | Binary ADD RegMem => Some ADD_GwEwM
  | Binary ADD MemImm => Some ADD_EwIwM
  | Binary ADD RegImm => Some ADD_EwIwR
  | Binary ADC MemReg => Some ADC_EwGwM
  | Binary ADC RegReg => Some ADC_GwEwR
  | Binary ADC RegMem => Some ADC_GwEwM
  | Binary ADC MemImm => Some ADC_EwIwM
  | Binary ADC RegImm => Some ADC_EwIwR
  | Binary SUB MemReg => Some SUB_EwGwM
  | Binary SUB RegReg => Some SUB_GwEwR
  | Binary SUB RegMem => Some SUB_GwEwM
  | Binary SUB MemImm => Some SUB_EwIwM
  | Binary SUB RegImm => Some SUB_EwIwR
  | Binary SBB MemReg => Some SBB_EwGwM
  | Binary SBB RegReg => Some SBB_GwEwR
  | Binary SBB RegMem => Some SBB_GwEwM
  | Binary SBB MemImm => Some SBB_EwIwM
  | Binary SBB RegImm => Some SBB_EwIwR
  | Binary CMP MemReg => Some CMP_EwGwM
  | Binary CMP RegReg => Some CMP_GwEwR
  | Binary CMP RegMem => Some CMP_GwEwM
  | Binary CMP MemImm => Some CMP_EwIwM
  | Binary CMP RegImm => Some CMP_EwIwR
  | Binary AND MemReg => Some AND_EwGwM
  | Binary AND RegReg => Some AND_GwEwR
  | Binary AND RegMem => Some AND_GwEwM
  | Binary AND MemImm => Some AND_EwIwM
  | Binary AND RegImm => Some AND_EwIwR
  | Binary OR MemReg => Some OR_EwGwM
  | Binary OR RegReg => Some OR_GwEwR
  | Binary OR RegMem => Some OR_GwEwM
  | Binary OR MemImm => Some OR_EwIwM
  | Binary OR RegImm => Some OR_EwIwR
  | Binary XOR MemReg => Some XOR_EwGwM
  | Binary XOR RegReg => Some XOR_GwEwR
  | Binary XOR RegMem => Some XOR_GwEwM
  | Binary XOR MemImm => Some XOR_EwIwM
  | Binary XOR RegImm => Some XOR_EwIwR
  | Binary TEST MemReg => Some TEST_EwGwM
  | Binary TEST RegReg => Some TEST_EwGwR
  | Binary TEST MemImm => Some TEST_EwIwM
  | Binary TEST RegImm => Some TEST_EwIwR
  | Unary INC true => Some INC_EwM
  | Unary INC false => Some INC_EwR
  | Unary DEC true => Some DEC_EwM
  | Unary DEC false => Some DEC_EwR
  | Unary NEG true => Some NEG_EwM
  | Unary NEG false => Some NEG_EwR
  | Unary NOT true => Some NOT_EwM
  | Unary NOT false => Some NOT_EwR
  | Xadd true => Some XADD_EwGwM
  | Xadd false => Some XADD_EwGwR
  | Cmpxchg true => Some CMPXCHG_EwGwM
  | Cmpxchg false => Some CMPXCHG_EwGwR
  | Widen => Some CBW
  | SignDx => Some CWD
  | ZeroIdiom => Some ZERO_IDIOM_GwR
  | _ => None
  end.

Ltac unfold16 := cbv [
  INC_EwR DEC_EwR ADD_EwGwM ADD_GwEwR ADD_GwEwM ADC_EwGwM ADC_GwEwR ADC_GwEwM SBB_EwGwM
  SBB_GwEwR SBB_GwEwM SBB_EwIwM SBB_EwIwR SUB_EwGwM SUB_GwEwR SUB_GwEwM CMP_EwGwM CMP_GwEwR
  CMP_GwEwM CBW CWD XADD_EwGwM XADD_EwGwR ADD_EwIwM ADD_EwIwR ADC_EwIwM ADC_EwIwR SUB_EwIwM
  SUB_EwIwR CMP_EwIwM CMP_EwIwR NEG_EwM NEG_EwR INC_EwM DEC_EwM CMPXCHG_EwGwM CMPXCHG_EwGwR
  ZERO_IDIOM_GwR XOR_EwGwM XOR_GwEwR XOR_GwEwM XOR_EwIwM XOR_EwIwR OR_EwIwM OR_EwIwR NOT_EwM
  NOT_EwR OR_EwGwM OR_GwEwR OR_GwEwM AND_EwGwM AND_GwEwR AND_GwEwM AND_EwIwM AND_EwIwR
  TEST_EwGwR TEST_EwGwM TEST_EwIwR TEST_EwIwM].

Definition handler32 (ins : alu_instr) : option handler :=
  match ins with
  | Binary ADD MemReg => Some ADD_EdGdM
  | Binary ADD RegReg => Some ADD_GdEdR
  | Binary ADD RegMem => Some ADD_GdEdM
  | Binary ADD MemImm => Some ADD_EdIdM
  | Binary ADD RegImm => Some ADD_EdIdR
  | Binary ADC MemReg => Some ADC_EdGdM
  | Binary ADC RegReg => Some ADC_GdEdR
  | Binary ADC RegMem => Some ADC_GdEdM
  | Binary ADC MemImm => Some ADC_EdIdM
  | Binary ADC RegImm => Some ADC_EdIdR
  | Binary SUB MemReg => Some SUB_EdGdM
  | Binary SUB RegReg => Some SUB_GdEdR
  | Binary SUB RegMem => Some SUB_GdEdM
  | Binary SUB MemImm => Some SUB_EdIdM
  | Binary SUB RegImm => Some SUB_EdIdR
  | Binary SBB MemReg => Some SBB_EdGdM
  | Binary SBB RegReg => Some SBB_GdEdR
  | Binary SBB RegMem => Some SBB_GdEdM
  | Binary SBB MemImm => Some SBB_EdIdM
  | Binary SBB RegImm => Some SBB_EdIdR
  | Binary CMP MemReg => Some CMP_EdGdM
  | Binary CMP RegReg => Some CMP_GdEdR
  | Binary CMP RegMem => Some CMP_GdEdM
  | Binary CMP MemImm => Some CMP_EdIdM
  | Binary CMP RegImm => Some CMP_EdIdR
  | Binary AND MemReg => Some AND_EdGdM
  | Binary AND RegReg => Some AND_GdEdR
  | Binary AND RegMem => Some AND_GdEdM
  | Binary AND MemImm => Some AND_EdIdM
  | Binary AND RegImm => Some AND_EdIdR
  | Binary OR MemReg => Some OR_EdGdM
  | Binary OR RegReg => Some OR_GdEdR
  | Binary OR RegMem => Some OR_GdEdM
  | Binary OR MemImm => Some OR_EdIdM
  | Binary OR RegImm => Some OR_EdIdR
  | Binary XOR MemReg => Some XOR_EdGdM
  | Binary XOR RegReg => Some XOR_GdEdR
  | Binary XOR RegMem => Some XOR_GdEdM
  | Binary XOR MemImm => Some XOR_EdIdM
  | Binary XOR RegImm => Some XOR_EdIdR
  | Binary TEST MemReg => Some TEST_EdGdM
  | Binary TEST RegReg => Some TEST_EdGdR
  | Binary TEST MemImm => Some TEST_EdIdM
  | Binary TEST RegImm => Some TEST_EdIdR
  | Unary INC true => Some INC_EdM
  | Unary INC false => Some INC_EdR
  | Unary DEC true => Some DEC_EdM
  | Unary DEC false => Some DEC_EdR
  | Unary NEG true => Some NEG_EdM
  | Unary NEG false => Some NEG_EdR
  | Unary NOT true => Some NOT_EdM
  | Unary NOT false => Some NOT_EdR
  | Xadd true => Some XADD_EdGdM
  | Xadd false => Some XADD_EdGdR
  | Cmpxchg true => Some CMPXCHG_EdGdM
  | Cmpxchg false => Some CMPXCHG_EdGdR
  | Widen => Some CWDE
  | SignDx => Some CDQ
  | ZeroIdiom => Some ZERO_IDIOM_GdR
  | _ => None
  end.

Ltac unfold32 := cbv [
  INC_EdR DEC_EdR ADD_EdGdM ADD_GdEdR ADD_GdEdM ADC_EdGdM ADC_GdEdR ADC_GdEdM SBB_EdGdM
  SBB_GdEdR SBB_GdEdM SBB_EdIdM SBB_EdIdR SUB_EdGdM SUB_GdEdR SUB_GdEdM CMP_EdGdM CMP_GdEdR
  CMP_GdEdM CWDE CDQ XADD_EdGdM XADD_EdGdR ADD_EdIdM ADD_EdIdR ADC_EdIdM ADC_EdIdR SUB_EdIdM
  SUB_EdIdR CMP_EdIdM CMP_EdIdR NEG_EdM NEG_EdR INC_EdM DEC_EdM CMPXCHG_EdGdM CMPXCHG_EdGdR
  CMPXCHG8B ZERO_IDIOM_GdR XOR_EdGdM XOR_GdEdR XOR_GdEdM XOR_EdIdM XOR_EdIdR OR_EdIdM
  OR_EdIdR NOT_EdM NOT_EdR OR_EdGdM OR_GdEdR OR_GdEdM AND_EdGdM AND_GdEdR AND_GdEdM
  AND_EdIdM AND_EdIdR TEST_EdGdR TEST_EdGdM TEST_EdIdR TEST_EdIdM].

Definition handler64 (ins : alu_instr) : option handler :=
  match ins with
  | Binary ADD MemReg => Some ADD_EqGqM
  | Binary ADD RegReg => Some ADD_GqEqR
  | Binary ADD RegMem => Some ADD_GqEqM
  | Binary ADD MemImm => Some ADD_EqIdM
  | Binary ADD RegImm => Some ADD_EqIdR
  | Binary ADC MemReg => Some ADC_EqGqM
  | Binary ADC RegReg => Some ADC_GqEqR
  | Binary ADC RegMem => Some ADC_GqEqM
  | Binary ADC MemImm => Some ADC_EqIdM
  | Binary ADC RegImm => Some ADC_EqIdR
  | Binary SUB MemReg => Some SUB_EqGqM
  | Binary SUB RegReg => Some SUB_GqEqR
  | Binary SUB RegMem => Some SUB_GqEqM
  | Binary SUB MemImm => Some SUB_EqIdM
  | Binary SUB RegImm => Some SUB_EqIdR
  | Binary SBB MemReg => Some SBB_EqGqM
  | Binary SBB RegReg => Some SBB_GqEqR
  | Binary SBB RegMem => Some SBB_GqEqM
  | Binary SBB MemImm => Some SBB_EqIdM
  | Binary SBB RegImm => Some SBB_EqIdR
  | Binary CMP MemReg => Some CMP_EqGqM
  | Binary CMP RegReg => Some CMP_GqEqR
  | Binary CMP RegMem => Some CMP_GqEqM
  | Binary CMP MemImm => Some CMP_EqIdM
  | Binary CMP RegImm => Some CMP_EqIdR
  | Binary AND MemReg => Some AND_EqGqM
  | Binary AND RegReg => Some AND_GqEqR
  | Binary AND RegMem => Some AND_GqEqM
  | Binary AND MemImm => Some AND_EqIdM
  | Binary AND RegImm => Some AND_EqIdR
  | Binary OR MemReg => Some OR_EqGqM
  | Binary OR RegReg => Some OR_GqEqR
  | Binary OR RegMem => Some OR_GqEqM
  | Binary OR MemImm => Some OR_EqIdM
  | Binary OR RegImm => Some OR_EqIdR
  | Binary XOR MemReg => Some XOR_EqGqM
  | Binary XOR RegReg => Some XOR_GqEqR
  | Binary XOR RegMem => Some XOR_GqEqM
  | Binary XOR MemImm => Some XOR_EqIdM
  | Binary XOR RegImm => Some XOR_EqIdR
  | Binary TEST MemReg => Some TEST_EqGqM
  | Binary TEST RegReg => Some TEST_EqGqR
  | Binary TEST MemImm => Some TEST_EqIdM
  | Binary TEST RegImm => Some TEST_EqIdR
  | Unary INC true => Some INC_EqM
  | Unary INC false => Some INC_EqR
  | Unary DEC true => Some DEC_EqM
  | Unary DEC false => Some DEC_EqR
  | Unary NEG true => Some NEG_EqM
  | Unary NEG false => Some NEG_EqR
  | Unary NOT true => Some NOT_EqM
  | Unary NOT false => Some NOT_EqR
  | Xadd true => Some XADD_EqGqM
  | Xadd false => Some XADD_EqGqR
  | Cmpxchg true => Some CMPXCHG_EqGqM
  | Cmpxchg false => Some CMPXCHG_EqGqR
  | Widen => Some CDQE
  | SignDx => Some CQO
  | _ => None
  end.

Ltac unfold64 := cbv [
  ADD_EqGqM ADD_GqEqR ADD_GqEqM ADC_EqGqM ADC_GqEqR ADC_GqEqM SBB_EqGqM SBB_GqEqR SBB_GqEqM
  SBB_EqIdM SBB_EqIdR SUB_EqGqM SUB_GqEqR SUB_GqEqM CMP_EqGqM CMP_GqEqR CMP_GqEqM CDQE CQO
  XADD_EqGqM XADD_EqGqR ADD_EqIdM ADD_EqIdR ADC_EqIdM ADC_EqIdR SUB_EqIdM SUB_EqIdR
  CMP_EqIdM CMP_EqIdR NEG_EqM NEG_EqR INC_EqM INC_EqR DEC_EqM DEC_EqR CMPXCHG_EqGqM
  CMPXCHG_EqGqR CMPXCHG16B XOR_EqGqM XOR_GqEqR XOR_GqEqM XOR_EqIdM XOR_EqIdR OR_EqIdM
  OR_EqIdR NOT_EqM NOT_EqR OR_EqGqM OR_GqEqR OR_GqEqM AND_EqGqM AND_GqEqR AND_GqEqM
  AND_EqIdM AND_EqIdR TEST_EqGqR TEST_EqGqM TEST_EqIdR TEST_EqIdM].

(** Runs a handler and its reference side by side, through at most two memory
    accesses, splits on the comparison of CMPXCHG, and compares the states. *)
Ltac run_both := exec; repeat (exec_access; exec).

Ltac split_cmp :=
  try match goal with
  | |- context [wrap ?m (?a - ?b) =? 0] =>
      first [ rewrite (diff_zero 8 m a b) by (lia || fits_tac)
            | rewrite (diff_zero 16 m a b) by (lia || fits_tac)
            | rewrite (diff_zero 32 m a b) by (lia || fits_tac)
            | rewrite (diff_zero 64 m a b) by (lia || fits_tac) ];
      destruct (a =? b)
  end; exec.

(** The sign tests of CWD, CDQ and CQO. *)
Ltac split_sign :=
  try (change 0x8000 with (Z.shiftl 1 (16 - 1)) || change 0x80000000 with (Z.shiftl 1 (32 - 1))
       || change 0x8000000000000000 with (Z.shiftl 1 (64 - 1)));
  try match goal with
  | |- context [Z.land ?v (Z.shiftl 1 (?n - 1))] =>
      rewrite (sign_test n v) by lia; destruct (signed n v <? 0)
  end; exec.

Ltac refine_handler :=
  intros [g b e m] Hi Hs; unfold_spec; unfold_io; run_both; split_cmp; split_sign;
  rewrite ?Z.lxor_nilpotent; refine_end.

Lemma refine8 ins h i s : handler8 ins = Some h -> instr_ok i -> cpu_ok s ->
  osim (h i s) (instr_spec S8 ins i (abs s)).
Proof.
  intros E. revert s. destruct ins as [[] []|[] []|[]|[]| | |]; try discriminate E;
    injection E as <-; unfold8; refine_handler.
Qed.

Lemma refine16 ins h i s : handler16 ins = Some h -> instr_ok i -> cpu_ok s ->
  osim (h i s) (instr_spec S16 ins i (abs s)).
Proof.
  intros E. revert s. destruct ins as [[] []|[] []|[]|[]| | |]; try discriminate E;
    injection E as <-; unfold16; refine_handler.
Qed.

Lemma refine32 ins h i s : handler32 ins = Some h -> instr_ok i -> cpu_ok s ->
  osim (h i s) (instr_spec S32 ins i (abs s)).
Proof.
  intros E. revert s. destruct ins as [[] []|[] []|[]|[]| | |]; try discriminate E;
    injection E as <-; unfold32; refine_handler.
Qed.

Lemma refine64 ins h i s : handler64 ins = Some h -> instr_ok i -> cpu_ok s ->
  osim (h i s) (instr_spec S64 ins i (abs s)).
Proof.
  intros E. revert s. destruct ins as [[] []|[] []|[]|[]| | |]; try discriminate E;
    injection E as <-; unfold64; refine_handler.
Qed.

(** The handler of an instruction at an operand size. *)
Definition handler_of (sz : opsize) : alu_instr -> option handler :=
  match sz with S8 => handler8 | S16 => handler16 | S32 => handler32 | S64 => handler64 end.

Lemma handler_refines sz ins h i s : handler_of sz ins = Some h -> instr_ok i -> cpu_ok s ->
  osim (h i s) (instr_spec sz ins i (abs s)).
Proof. destruct sz; [apply refine8 | apply refine16 | apply refine32 | apply refine64]. Qed.

(** ** Faults are precise: nothing but the memory state moves before them *)

Definition only_memory {F A} (s : bx_cpu F M) (o : outcome (bx_cpu F M) A) : Prop :=
  match o with Ok _ _ => True | Fault _ s' => s' = s <| vmem := vmem s' |> end.

Lemma only_memory_access {F A B} (f : M -> (exn + B) * M) (k : B -> cpu F M A) s :
  (forall v m, only_memory (s <| vmem := m |>) (k v (s <| vmem := m |>))) ->
  only_memory s (bind (access f) k s).
Proof.
  intros Hk. unfold bind, access. destruct (f (vmem s)) as [[e|v] m]; [reflexivity|].
  specialize (Hk v m). unfold only_memory in *. destruct (k v _); [exact I | exact Hk].
Qed.

Lemma spec_precise sz ins i (s : bx_cpu flags M) : only_memory s (instr_spec sz ins i s).
Proof.
  destruct s as [g b f m].
  destruct ins as [[] []|[] []|[]|[]| | |], sz; unfold_spec; unfold_io; exec; cbv iota;
    repeat (apply only_memory_access; intros; exec; cbv iota);
    try exact I; destruct (_ =? _); exec; exact I.
Qed.

(** C29: every handler of arith8/16/32/64.cc and logical8/16/32/64.cc, for every
    operand form, computes what the architecture defines: it reads the same
    operands, takes the same memory faults, writes the low bits of the exact
    result and leaves the six flags of the exact result. *)
Theorem alu_handlers_refine sz ins h i s :
  handler_of sz ins = Some h -> instr_ok i -> cpu_ok s ->
  osim (h i s) (instr_spec sz ins i (abs s)).
Proof. apply handler_refines. Qed.

(** C35: an instruction that faults leaves the registers and the flags as they
    were, so that it can be restarted. *)
Theorem alu_faults_precise sz ins h i s e s' :
  handler_of sz ins = Some h -> instr_ok i -> cpu_ok s -> h i s = Fault e s' ->
  gen_reg s' = gen_reg s /\ lazy_flags (oszapc s') = lazy_flags (oszapc s).
Proof.
  intros Hh Hi Hs E. pose proof (handler_refines sz ins h i s Hh Hi Hs) as R.
  rewrite E in R. destruct R as [R _]. pose proof (spec_precise sz ins i (abs s)) as P.
  rewrite R in P. cbn [only_memory] in P. split.
  - exact (f_equal gen_reg P).
  - exact (f_equal oszapc P).
Qed.

(** ** CMPXCHG8B, CMPXCHG16B *)

Lemma assert_ZF_abs e : lf_ok e -> lazy_flags (assert_ZF e) = (lazy_flags e) <| ZF := true |>.
Proof. intros He. exact (set_flag_flags F_ZF true e He). Qed.

Lemma clear_ZF_abs e : lf_ok e -> lazy_flags (clear_ZF e) = (lazy_flags e) <| ZF := false |>.
Proof. intros He. exact (set_flag_flags F_ZF false e He). Qed.

Lemma pair_value hi lo :
  fits 32 hi -> fits 32 lo -> u64 (Z.lor (Z.shiftl hi 32) lo) = 2 ^ 32 * hi + lo.
Proof.
  intros Hh Hl. rewrite lor_shiftl_add by (assumption || lia).
  apply wrap_id. unfold fits in *. lia.
Qed.

End Refinement.
