(* ===== verification/AluMore.v ===== *)
(** * CMPXCHG8B, CMPXCHG16B and concrete runs of the integer handlers *)

From Stdlib Require Import ZArith Lia List Bool FunctionalExtensionality.
From S2P Require Import Prelude LazyFlags Cpu Alu Arith8 Arith16 Arith32 Arith64 AluRefine.
Import ListNotations.
Open Scope Z_scope.

Section DoubleExchange.
Context {M : Type} `{VirtualMemoryOk M}.

Lemma osim_ZF g b e (m : M) g' m' v :
  cpu_ok (Cpu g b e m) -> (forall r, fits 64 (g' r)) ->
  osim (M := M) (Ok tt (Cpu g' b (if v : bool then assert_ZF e else clear_ZF e) m'))
       (Ok tt (Cpu g' b ((lazy_flags e) <| ZF := v |>) m')).
Proof.
  intros [Hr He] Hg. cbn [oszapc] in He. split; [|split].
  - unfold abs. cbn [gen_reg seg_base oszapc vmem].
    destruct v; [rewrite assert_ZF_abs | rewrite clear_ZF_abs]; auto.
  - exact Hg.
  - cbn [oszapc]. destruct v; [exact (set_ZF_ok true e He) | exact (set_ZF_ok false e He)].
Qed.

Lemma div_shiftr32 m : fits 64 m -> u32 (Z.shiftr m 32) = m / 2 ^ 32.
Proof.
  intros Hm. rewrite Z.shiftr_div_pow2 by lia. apply wrap_id. unfold fits in *.
  split; [apply Z.div_pos; lia | apply Z.div_lt_upper_bound; lia].
Qed.

Lemma cmpxchg8b_refines i s :
  cpu_ok s -> osim (CMPXCHG8B i s) (cmpxchg8b_spec i (abs s)).
Proof.
  intros Hs. destruct s as [g b e m].
  unfold CMPXCHG8B, cmpxchg8b_spec, cpu_assert_ZF, cpu_clear_ZF. unfold_io. exec.
  exec_access. exec. rewrite !pair_value by (apply get_field_fits; lia).
  destruct (_ =? _); exec.
  - rewrite pair_value by (apply get_field_fits; lia).
    exact (osim_ZF g b e m g _ true Hs (proj1 Hs)).
  - rewrite div_shiftr32 by assumption.
    apply (osim_ZF g b e m _ _ false Hs). destruct Hs as [Hr _]. cbn [gen_reg] in Hr.
    repeat apply upd_fits; try exact Hr; apply wrap_fits; lia.
Qed.

Lemma diff_or_zero a b c d :
  fits 64 a -> fits 64 b -> fits 64 c -> fits 64 d ->
  (Z.lor (u64 (a - b)) (u64 (c - d)) =? 0) = (b =? a) && (d =? c).
Proof.
  intros. rewrite <- (diff_zero 64 64 b a), <- (diff_zero 64 64 d c) by (assumption || lia).
  assert (E : forall x y, (u64 (x - y) =? 0) = (u64 (y - x) =? 0)).
  { intros x y. unfold wrap.
    destruct (Z.eqb_spec ((x - y) mod 2 ^ 64) 0) as [P|P], (Z.eqb_spec ((y - x) mod 2 ^ 64) 0) as [Q|Q];
      try reflexivity; exfalso; [apply Q | apply P]; apply Z.mod_divide; try lia;
      [apply Z.mod_divide in P as [q Hq] | apply Z.mod_divide in Q as [q Hq]]; try lia;
      exists (- q); lia. }
  rewrite (E b a), (E d c).
  destruct (Z.eqb_spec (u64 (a - b)) 0) as [P|P], (Z.eqb_spec (u64 (c - d)) 0) as [Q|Q]; simpl.
  - rewrite P, Q. reflexivity.
  - apply Z.eqb_neq. intros L. apply Z.lor_eq_0_iff in L. tauto.
  - apply Z.eqb_neq. intros L. apply Z.lor_eq_0_iff in L. tauto.
  - apply Z.eqb_neq. intros L. apply Z.lor_eq_0_iff in L. tauto.
Qed.

Lemma cmpxchg16b_refines i s :
  cpu_ok s -> osim (CMPXCHG16B i s) (cmpxchg16b_spec i (abs s)).
Proof.
  intros Hs. destruct s as [g b e m].
  unfold CMPXCHG16B, cmpxchg16b_spec, cpu_assert_ZF, cpu_clear_ZF,
    read_RMW_linear_dqword_aligned_64, write_RMW_linear_dqword. unfold_io. exec.
  apply osim_access; [exact Hs|]. intros [hi lo] m' E. cbn [vmem] in E.
  apply vm_read_RMW_dqword_fits in E as [Fh Fl]. destruct Hs as [Hr He]. cbn [gen_reg] in Hr.
  exec. rewrite diff_or_zero by auto. cbn [fst snd]. rewrite andb_comm.
  destruct (_ && _); unfold bind at 1; exec.
  - unfold bind. exec. exact (osim_ZF g b e m g _ true (conj Hr He) Hr).
  - unfold bind. exec. apply (osim_ZF g b e m _ _ false (conj Hr He)).
    repeat apply upd_fits; try exact Hr; apply wrap_fits; lia.
Qed.

(** CMPXCHG8B and CMPXCHG16B compare the register pair with memory, store the
    other pair or load the memory value, and change no flag but ZF. *)
Theorem cmpxchg_double_refines i s :
  cpu_ok s ->
  osim (CMPXCHG8B i s) (cmpxchg8b_spec i (abs s)) /\
  osim (CMPXCHG16B i s) (cmpxchg16b_spec i (abs s)).
Proof. intros Hs. split; [apply cmpxchg8b_refines | apply cmpxchg16b_refines]; exact Hs. Qed.

End DoubleExchange.

(** ** Multiword addition with ADC *)

Section Multiword.
Context {M : Type} `{VirtualMemoryOk M}.

(** The register form [op r32, r32]. *)
Definition reg_instr (d s : Z) : bxInstruction_c :=
  Instr 0 0 d s 0 0 0 0 0 0 0.

(** One ADC per limb, least significant first. *)
Fixpoint adc_chain (l : list (Z * Z)) : cpu bx_lazyflags_entry M unit :=
  match l with
  | [] => ret tt
  | (d, s) :: l' => ADC_GdEdR (reg_instr d s) ;;; adc_chain l'
  end.

(** The number held by a list of 32-bit registers. *)
Fixpoint limbs (g : Z -> Z) (rs : list Z) : Z :=
  match rs with [] => 0 | r :: rs' => get_field 0 32 (g r) + 2 ^ 32 * limbs g rs' end.

Lemma limbs_upd g r v rs : ~ In r rs -> limbs (upd g r v) rs = limbs g rs.
Proof.
  induction rs as [|x rs IH]; intros Hr; [reflexivity|]. cbn [limbs].
  rewrite IH by (intros Hi; apply Hr; right; exact Hi).
  unfold upd at 1. destruct (Z.eqb_spec x r) as [->|]; [|reflexivity].
  exfalso. apply Hr. left. reflexivity.
Qed.

Lemma carry_split k t : 0 <= t < 2 * k -> t mod k + k * Z.b2z (k <=? t) = t.
Proof.
  intros Ht. destruct (Z.leb_spec k t); simpl Z.b2z.
  - rewrite <- (Z.mod_unique t k 1 (t - k)) by lia. lia.
  - rewrite Z.mod_small by lia. lia.
Qed.

Lemma adc_step d s g b e (m : M) :
  cpu_ok (Cpu g b e m) ->
  let sum := get_field 0 32 (g d) + get_field 0 32 (g s) + Z.b2z (CF (lazy_flags e)) in
  exists e', ADC_GdEdR (reg_instr d s) (Cpu g b e m) = Ok tt (Cpu (upd g d (u32 sum)) b e' m) /\
    cpu_ok (Cpu (upd g d (u32 sum)) b e' m) /\
    CF (lazy_flags e') = (2 ^ 32 <=? sum).
Proof.
  intros Hs sum. unfold ADC_GdEdR. exec. cbn [dst src reg_instr]. rewrite getB_CF_flags.
  fold sum. rewrite wrap_mod by lia. eexists. split; [reflexivity|]. split.
  - split; [cbn [gen_reg]; apply upd_fits; [apply Hs | apply (fits_le 32); [lia | apply wrap_fits; lia]]
           | exact (SIZE_ok _ _ _)].
  - rewrite (ADD_flags_fits 32 _ _ (CF (lazy_flags e)) (Z.b2z (CF (lazy_flags e)))) by
      (try osize_tac; try fits_tac; try reflexivity; apply wrap_mod; lia).
    reflexivity.
Qed.

Lemma adc_chain_run l : forall g b e (m : M),
  cpu_ok (Cpu g b e m) -> NoDup (map fst l) ->
  (forall r, In r (map snd l) -> ~ In r (map fst l)) ->
  exists g' e', adc_chain l (Cpu g b e m) = Ok tt (Cpu g' b e' m) /\
    limbs g' (map fst l) + 2 ^ (32 * Z.of_nat (length l)) * Z.b2z (CF (lazy_flags e')) =
    limbs g (map fst l) + limbs g (map snd l) + Z.b2z (CF (lazy_flags e)) /\
    (forall r, ~ In r (map fst l) -> g' r = g r).
Proof.
  induction l as [|[d s] l IH]; intros g b e m Hs Hd Hdis.
  - exists g, e. cbn [adc_chain map limbs length]. split; [reflexivity|]. split; [|auto].
    change (32 * Z.of_nat 0) with 0. lia.
  - cbn [map fst snd] in *. inversion Hd as [|? ? Hnd Hd']; subst.
    destruct (adc_step d s g b e m Hs) as (e1 & E1 & Hs1 & C1).
    set (sum := get_field 0 32 (g d) + get_field 0 32 (g s) + Z.b2z (CF (lazy_flags e))) in *.
    destruct (IH (upd g d (u32 sum)) b e1 m Hs1 Hd') as (g' & e' & E' & V & Fr).
    { intros r Hr Hi. apply (Hdis r); [right; exact Hr | right; exact Hi]. }
    exists g', e'. split; [|split].
    + cbn [adc_chain]. unfold bind. rewrite E1. exact E'.
    + cbn [limbs length]. rewrite (Fr d Hnd), upd_same.
      rewrite !limbs_upd in V by (exact Hnd || (intros Hi; apply (Hdis d); [right; exact Hi | left; reflexivity])).
      replace (32 * Z.of_nat (S (length l))) with (32 + 32 * Z.of_nat (length l)) by lia.
      rewrite Z.pow_add_r by lia.
      assert (R : get_field 0 32 (u32 sum) + 2 ^ 32 * Z.b2z (CF (lazy_flags e1)) = sum).
      { unfold get_field. rewrite Z.shiftr_0_r, wrap_mod, C1 by lia. unfold wrap.
        unfold sum.
        pose proof (get_field_fits 0 32 (g d) ltac:(lia)) as Fx.
        pose proof (get_field_fits 0 32 (g s) ltac:(lia)) as Fy.
        apply carry_split. unfold fits in *. destruct (CF (lazy_flags e)); simpl Z.b2z; lia. }
      fold sum in V. nia.
    + intros r Hr. rewrite Fr by (intros Hi; apply Hr; right; exact Hi).
      unfold upd. destruct (Z.eqb_spec r d) as [->|]; [|reflexivity].
      exfalso. apply Hr. left. reflexivity.
Qed.

(** A chain of ADC instructions over registers adds multiword integers: the
    destination limbs and the final carry are the exact sum of both numbers and
    the incoming carry. *)
Theorem adc_chain_sum l g b e (m : M) :
  cpu_ok (Cpu g b e m) -> NoDup (map fst l) ->
  (forall r, In r (map snd l) -> ~ In r (map fst l)) ->
  exists g' e', adc_chain l (Cpu g b e m) = Ok tt (Cpu g' b e' m) /\
    limbs g' (map fst l) + 2 ^ (32 * Z.of_nat (length l)) * Z.b2z (CF (lazy_flags e')) =
    limbs g (map fst l) + limbs g (map snd l) + Z.b2z (CF (lazy_flags e)).
Proof.
  intros Hs Hn Hd. destruct (adc_chain_run l g b e m Hs Hn Hd) as (g' & e' & E & V & _).
  exists g', e'. split; assumption.
Qed.

End Multiword.

(** ** Concrete runs *)

(** ADC [DS:[0x10]], EBX with a carry in: memory holds 0xFFFFFFFF, EBX holds 0. *)
Definition demo_instr : bxInstruction_c := Instr 0 1 0 3 0 3 19 4 0 0 0x10.

Definition demo_state : bx_cpu bx_lazyflags_entry flat :=
  Cpu (fun _ => 0) (fun _ => 0) (LazyFlags 1 0xC0000000)
      (Flat (fun a => if (16 <=? a) && (a <? 20) then 0xFF else 0) 0).

Lemma demo_ok : instr_ok demo_instr /\ cpu_ok demo_state.
Proof.
  split; [unfold instr_ok, fits; cbn; lia|]. split; [intros r|]; cbn; unfold lf_ok, fits; cbn; lia.
Qed.

Lemma alu_handlers_refine_witness :
  handler_of S32 (Binary ADC MemReg) = Some (@ADC_EdGdM flat _) /\
  osim (ADC_EdGdM demo_instr demo_state)
       (instr_spec S32 (Binary ADC MemReg) demo_instr (abs demo_state)) /\
  match ADC_EdGdM demo_instr demo_state with
  | Ok _ s => fst (flat_read 4 3 16 (vmem s)) = inr 0 /\ CF (lazy_flags (oszapc s)) = true
  | Fault _ _ => False
  end.
Proof.
  split; [reflexivity|]. split.
  - apply (alu_handlers_refine S32 (Binary ADC MemReg)); [reflexivity | apply demo_ok | apply demo_ok].
  - vm_compute. split; reflexivity.
Defined.

Lemma cmpxchg_double_refines_witness :
  cpu_ok demo_state /\
  osim (CMPXCHG8B demo_instr demo_state) (cmpxchg8b_spec demo_instr (abs demo_state)).
Proof.
  split; [apply demo_ok|].
  exact (proj1 (cmpxchg_double_refines demo_instr demo_state (proj2 demo_ok))).
Defined.

Definition add96_state : bx_cpu bx_lazyflags_entry flat :=
  Cpu (fun r => if r <? 3 then 0xFFFFFFFF else 0) (fun _ => 0) (LazyFlags 1 0xC0000000)
      (Flat (fun _ => 0) 0).

Lemma adc_chain_sum_witness :
  exists g' e', adc_chain [(0, 5); (1, 6); (2, 7)] add96_state =
      Ok tt (Cpu g' (seg_base add96_state) e' (vmem add96_state)) /\
    limbs g' [0; 1; 2] + 2 ^ 96 * Z.b2z (CF (lazy_flags e')) = 2 ^ 96.
Proof.
  destruct (adc_chain_sum (M := flat) [(0, 5); (1, 6); (2, 7)] (gen_reg add96_state)
    (seg_base add96_state) (oszapc add96_state) (vmem add96_state)) as (g' & e' & E & V).
  - split; [intros r; cbn; destruct (r <? 3); unfold fits; lia | cbn; unfold lf_ok, fits; cbn; lia].
  - repeat constructor; simpl; intuition lia.
  - simpl. intuition lia.
  - exists g', e'. split; [exact E|].
    change (limbs g' [0; 1; 2] + 2 ^ 96 * Z.b2z (CF (lazy_flags e')) = 2 ^ 96 - 1 + 0 + 1) in V.
    exact V.
Defined.

(** A memory with no page present. *)
Definition absent {A} (m : unit) : (exn + A) * unit := (inl (Exn 14 2), m).

#[export] Instance absent_memory : VirtualMemory unit := {|
  vm_read := fun _ _ _ => absent; vm_write := fun _ _ _ _ => absent; vm_write_linear := fun _ _ _ _ => absent;
  vm_read_RMW := fun _ _ _ => absent; vm_read_linear := fun _ _ _ => absent;
  vm_read_RMW_linear := fun _ _ _ => absent; vm_write_RMW := fun _ _ m => m;
  vm_read_RMW_dqword := fun _ _ => absent; vm_write_RMW_dqword := fun _ _ m => m;
|}.

#[export] Instance absent_memory_ok : VirtualMemoryOk unit.
Proof. constructor; intros; discriminate. Qed.

Lemma alu_faults_precise_witness :
  let s := Cpu (M := unit) (fun _ => 7) (fun _ => 0) (LazyFlags 1 0xC0000000) tt in
  ADC_EdGdM demo_instr s = Fault (Exn 14 2) s /\
  gen_reg s = gen_reg s /\ lazy_flags (oszapc s) = lazy_flags (oszapc s).
Proof.
  intros s. assert (E : ADC_EdGdM demo_instr s = Fault (Exn 14 2) s) by reflexivity.
  split; [exact E|].
  apply (alu_faults_precise S32 (Binary ADC MemReg) ADC_EdGdM demo_instr s (Exn 14 2) s);
    [reflexivity | apply demo_ok | | exact E].
  split; [intros r|]; cbn; unfold lf_ok, fits; cbn; lia.
Defined.
