(* ===== verification/Shift8.v ===== *)
(** * 8-bit shift and rotate instructions (cpu/shift8.cc)

    One definition per instruction handler.  A handler serves both the CL and
    the immediate encodings and tells them apart by the opcode number. *)

From Stdlib Require Import ZArith Lia List Bool.
From S2P Require Import Prelude LazyFlags Cpu.
Open Scope Z_scope.

(** Opcode numbers of the CL forms (cpu/decoder/ia_opcodes.def). *)
Definition BX_IA_ROL_Eb := 417.
Definition BX_IA_ROR_Eb := 418.
Definition BX_IA_RCL_Eb := 419.
Definition BX_IA_RCR_Eb := 420.
Definition BX_IA_SHL_Eb := 421.
Definition BX_IA_SHR_Eb := 422.
Definition BX_IA_SAR_Eb := 423.

Section Handlers.
Context {M : Type} `{VirtualMemory M}.
Abbreviation cpu := (cpu bx_lazyflags_entry M).

Definition ROL_EbR (i : bxInstruction_c) : cpu unit :=
  count <- (if (ia_opcode i) =? BX_IA_ROL_Eb then CL else ret (Ib i)) ;;
  op1_8 <- BX_READ_8BIT_REGx (dst i) (extend8bitL i) ;;
  if (Z.land count 0x07) =? 0 then
    if negb ((Z.land count 0x18) =? 0) then
      let bit0 := Z.land op1_8 1 in
      let bit7 := Z.shiftr op1_8 7 in
      modify_lazy (set_flags_OxxxxC (Z.lxor bit0 bit7) bit0) ;;;
      BX_NEXT_INSTR
    else
      BX_NEXT_INSTR
  else
    let count := Z.land count 0x7 in
    let result_8 := u8 (Z.lor (Z.shiftl op1_8 count) (Z.shiftr op1_8 (8 - count))) in
    BX_WRITE_8BIT_REGx (dst i) (extend8bitL i) result_8 ;;;
    let bit0 := Z.land result_8 1 in
    let bit7 := Z.shiftr result_8 7 in
    modify_lazy (set_flags_OxxxxC (Z.lxor bit0 bit7) bit0) ;;;
    BX_NEXT_INSTR.

Definition ROL_EbM (i : bxInstruction_c) : cpu unit :=
  count <- (if (ia_opcode i) =? BX_IA_ROL_Eb then CL else ret (Ib i)) ;;
  eaddr <- BX_CPU_RESOLVE_ADDR i ;;
  op1_8 <- read_RMW_virtual_byte (seg i) eaddr ;;
  if (Z.land count 0x07) =? 0 then
    if negb ((Z.land count 0x18) =? 0) then
      let bit0 := Z.land op1_8 1 in
      let bit7 := Z.shiftr op1_8 7 in
      modify_lazy (set_flags_OxxxxC (Z.lxor bit0 bit7) bit0) ;;;
      BX_NEXT_INSTR
    else
      BX_NEXT_INSTR
  else
    let count := Z.land count 0x7 in
    let result_8 := u8 (Z.lor (Z.shiftl op1_8 count) (Z.shiftr op1_8 (8 - count))) in
    write_RMW_linear_byte result_8 ;;;
    let bit0 := Z.land result_8 1 in
    let bit7 := Z.shiftr result_8 7 in
    modify_lazy (set_flags_OxxxxC (Z.lxor bit0 bit7) bit0) ;;;
    BX_NEXT_INSTR.

Definition ROR_EbR (i : bxInstruction_c) : cpu unit :=
  count <- (if (ia_opcode i) =? BX_IA_ROR_Eb then CL else ret (Ib i)) ;;
  op1_8 <- BX_READ_8BIT_REGx (dst i) (extend8bitL i) ;;
  if (Z.land count 0x07) =? 0 then
    if negb ((Z.land count 0x18) =? 0) then
      let bit6 := Z.land (Z.shiftr op1_8 6) 1 in
      let bit7 := Z.land (Z.shiftr op1_8 7) 1 in
      modify_lazy (set_flags_OxxxxC (Z.lxor bit6 bit7) bit7) ;;;
      BX_NEXT_INSTR
    else
      BX_NEXT_INSTR
  else
    let count := Z.land count 0x7 in
    let result_8 := u8 (Z.lor (Z.shiftr op1_8 count) (Z.shiftl op1_8 (8 - count))) in
    BX_WRITE_8BIT_REGx (dst i) (extend8bitL i) result_8 ;;;
    let bit6 := Z.land (Z.shiftr result_8 6) 1 in
    let bit7 := Z.land (Z.shiftr result_8 7) 1 in
    modify_lazy (set_flags_OxxxxC (Z.lxor bit6 bit7) bit7) ;;;
    BX_NEXT_INSTR.

Definition ROR_EbM (i : bxInstruction_c) : cpu unit :=
  count <- (if (ia_opcode i) =? BX_IA_ROR_Eb then CL else ret (Ib i)) ;;
  eaddr <- BX_CPU_RESOLVE_ADDR i ;;
  op1_8 <- read_RMW_virtual_byte (seg i) eaddr ;;
  if (Z.land count 0x07) =? 0 then
    if negb ((Z.land count 0x18) =? 0) then
      let bit6 := Z.land (Z.shiftr op1_8 6) 1 in
      let bit7 := Z.land (Z.shiftr op1_8 7) 1 in
      modify_lazy (set_flags_OxxxxC (Z.lxor bit6 bit7) bit7) ;;;
      BX_NEXT_INSTR
    else
      BX_NEXT_INSTR
  else
    let count := Z.land count 0x7 in
    let result_8 := u8 (Z.lor (Z.shiftr op1_8 count) (Z.shiftl op1_8 (8 - count))) in
    write_RMW_linear_byte result_8 ;;;
    let bit6 := Z.land (Z.shiftr result_8 6) 1 in
    let bit7 := Z.land (Z.shiftr result_8 7) 1 in
    modify_lazy (set_flags_OxxxxC (Z.lxor bit6 bit7) bit7) ;;;
    BX_NEXT_INSTR.

Definition RCL_EbR (i : bxInstruction_c) : cpu unit :=
  count <- (if (ia_opcode i) =? BX_IA_RCL_Eb then CL else ret (Ib i)) ;;
  let count := (Z.land count 0x1f) mod 9 in
  if count =? 0 then
    BX_NEXT_INSTR
  else
    op1_8 <- BX_READ_8BIT_REGx (dst i) (extend8bitL i) ;;
    temp_CF <- cpu_getB_CF ;;
    let result_8 :=
      if count =? 1 then u8 (Z.lor (Z.shiftl op1_8 1) temp_CF)
      else u8 (Z.lor (Z.lor (Z.shiftl op1_8 count) (Z.shiftl temp_CF (count - 1))) (Z.shiftr op1_8 (9 - count))) in
    BX_WRITE_8BIT_REGx (dst i) (extend8bitL i) result_8 ;;;
    let cf := Z.land (Z.shiftr op1_8 (8 - count)) 0x01 in
    let of_ := Z.lxor cf (Z.shiftr result_8 7) in
    modify_lazy (set_flags_OxxxxC of_ cf) ;;;
    BX_NEXT_INSTR.

Definition RCL_EbM (i : bxInstruction_c) : cpu unit :=
  count <- (if (ia_opcode i) =? BX_IA_RCL_Eb then CL else ret (Ib i)) ;;
  eaddr <- BX_CPU_RESOLVE_ADDR i ;;
  op1_8 <- read_RMW_virtual_byte (seg i) eaddr ;;
  let count := (Z.land count 0x1f) mod 9 in
  if count =? 0 then
    BX_NEXT_INSTR
  else
    temp_CF <- cpu_getB_CF ;;
    let result_8 :=
      if count =? 1 then u8 (Z.lor (Z.shiftl op1_8 1) temp_CF)
      else u8 (Z.lor (Z.lor (Z.shiftl op1_8 count) (Z.shiftl temp_CF (count - 1))) (Z.shiftr op1_8 (9 - count))) in
    write_RMW_linear_byte result_8 ;;;
    let cf := Z.land (Z.shiftr op1_8 (8 - count)) 0x01 in
    let of_ := Z.lxor cf (Z.shiftr result_8 7) in
    modify_lazy (set_flags_OxxxxC of_ cf) ;;;
    BX_NEXT_INSTR.

Definition RCR_EbR (i : bxInstruction_c) : cpu unit :=
  count <- (if (ia_opcode i) =? BX_IA_RCR_Eb then CL else ret (Ib i)) ;;
  let count := (Z.land count 0x1f) mod 9 in
  if negb (count =? 0) then
    op1_8 <- BX_READ_8BIT_REGx (dst i) (extend8bitL i) ;;
    temp_CF <- cpu_getB_CF ;;
    let result_8 := u8 (Z.lor (Z.lor (Z.shiftr op1_8 count) (Z.shiftl temp_CF (8 - count))) (Z.shiftl op1_8 (9 - count))) in
    BX_WRITE_8BIT_REGx (dst i) (extend8bitL i) result_8 ;;;
    let cf := Z.land (Z.shiftr op1_8 (count - 1)) 0x1 in
    let of_ := Z.land (Z.shiftr (u32 (Z.lxor (Z.shiftl result_8 1) result_8)) 7) 0x1 in
    modify_lazy (set_flags_OxxxxC of_ cf) ;;;
    BX_NEXT_INSTR
  else
    BX_NEXT_INSTR.

Definition RCR_EbM (i : bxInstruction_c) : cpu unit :=
  count <- (if (ia_opcode i) =? BX_IA_RCR_Eb then CL else ret (Ib i)) ;;
  eaddr <- BX_CPU_RESOLVE_ADDR i ;;
  op1_8 <- read_RMW_virtual_byte (seg i) eaddr ;;
  let count := (Z.land count 0x1f) mod 9 in
  if negb (count =? 0) then
    temp_CF <- cpu_getB_CF ;;
    let result_8 := u8 (Z.lor (Z.lor (Z.shiftr op1_8 count) (Z.shiftl temp_CF (8 - count))) (Z.shiftl op1_8 (9 - count))) in
    write_RMW_linear_byte result_8 ;;;
    let cf := Z.land (Z.shiftr op1_8 (count - 1)) 0x1 in
    let of_ := Z.land (Z.shiftr (u32 (Z.lxor (Z.shiftl result_8 1) result_8)) 7) 0x1 in
    modify_lazy (set_flags_OxxxxC of_ cf) ;;;
    BX_NEXT_INSTR
  else
    BX_NEXT_INSTR.

Definition SHL_EbR (i : bxInstruction_c) : cpu unit :=
  let of_ := 0 in
  let cf := 0 in
  count <- (if (ia_opcode i) =? BX_IA_SHL_Eb then CL else ret (Ib i)) ;;
  let count := Z.land count 0x1f in
  if count =? 0 then
    BX_NEXT_INSTR
  else
    op1_8 <- BX_READ_8BIT_REGx (dst i) (extend8bitL i) ;;
    let '(result_8, cf, of_) :=
      if count <=? 8 then
        let result_8 := u8 (Z.shiftl op1_8 count) in
        let cf := Z.land (Z.shiftr op1_8 (8 - count)) 0x1 in
        let of_ := Z.lxor cf (Z.shiftr result_8 7) in
        (result_8, cf, of_)
      else
        let result_8 := 0 in
        (result_8, cf, of_) in
    BX_WRITE_8BIT_REGx (dst i) (extend8bitL i) result_8 ;;;
    put_lazy (SET_FLAGS_OSZAPC_LOGIC 8 result_8) ;;;
    modify_lazy (set_flags_OxxxxC of_ cf) ;;;
    BX_NEXT_INSTR.

Definition SHL_EbM (i : bxInstruction_c) : cpu unit :=
  let of_ := 0 in
  let cf := 0 in
  count <- (if (ia_opcode i) =? BX_IA_SHL_Eb then CL else ret (Ib i)) ;;
  let count := Z.land count 0x1f in
  eaddr <- BX_CPU_RESOLVE_ADDR i ;;
  op1_8 <- read_RMW_virtual_byte (seg i) eaddr ;;
  if count =? 0 then
    BX_NEXT_INSTR
  else
    let '(result_8, cf, of_) :=
      if count <=? 8 then
        let result_8 := u8 (Z.shiftl op1_8 count) in
        let cf := Z.land (Z.shiftr op1_8 (8 - count)) 0x1 in
        let of_ := Z.lxor cf (Z.shiftr result_8 7) in
        (result_8, cf, of_)
      else
        let result_8 := 0 in
        (result_8, cf, of_) in
    write_RMW_linear_byte result_8 ;;;
    put_lazy (SET_FLAGS_OSZAPC_LOGIC 8 result_8) ;;;
    modify_lazy (set_flags_OxxxxC of_ cf) ;;;
    BX_NEXT_INSTR.

Definition SHR_EbR (i : bxInstruction_c) : cpu unit :=
  count <- (if (ia_opcode i) =? BX_IA_SHR_Eb then CL else ret (Ib i)) ;;
  let count := Z.land count 0x1f in
  if negb (count =? 0) then
    op1_8 <- BX_READ_8BIT_REGx (dst i) (extend8bitL i) ;;
    let result_8 := Z.shiftr op1_8 count in
    BX_WRITE_8BIT_REGx (dst i) (extend8bitL i) result_8 ;;;
    let cf := Z.land (Z.shiftr op1_8 (count - 1)) 0x1 in
    let of_ := Z.land (Z.shiftr (u32 (Z.lxor (Z.shiftl result_8 1) result_8)) 7) 0x1 in
    put_lazy (SET_FLAGS_OSZAPC_LOGIC 8 result_8) ;;;
    modify_lazy (set_flags_OxxxxC of_ cf) ;;;
    BX_NEXT_INSTR
  else
    BX_NEXT_INSTR.

Definition SHR_EbM (i : bxInstruction_c) : cpu unit :=
  count <- (if (ia_opcode i) =? BX_IA_SHR_Eb then CL else ret (Ib i)) ;;
  let count := Z.land count 0x1f in
  eaddr <- BX_CPU_RESOLVE_ADDR i ;;
  op1_8 <- read_RMW_virtual_byte (seg i) eaddr ;;
  if negb (count =? 0) then
    let result_8 := Z.shiftr op1_8 count in
    write_RMW_linear_byte result_8 ;;;
    let cf := Z.land (Z.shiftr op1_8 (count - 1)) 0x1 in
    let of_ := Z.land (Z.shiftr (u32 (Z.lxor (Z.shiftl result_8 1) result_8)) 7) 0x1 in
    put_lazy (SET_FLAGS_OSZAPC_LOGIC 8 result_8) ;;;
    modify_lazy (set_flags_OxxxxC of_ cf) ;;;
    BX_NEXT_INSTR
  else
    BX_NEXT_INSTR.

Definition SAR_EbR (i : bxInstruction_c) : cpu unit :=
  count <- (if (ia_opcode i) =? BX_IA_SAR_Eb then CL else ret (Ib i)) ;;
  let count := Z.land count 0x1f in
  if negb (count =? 0) then
    op1_8 <- BX_READ_8BIT_REGx (dst i) (extend8bitL i) ;;
    let result_8 := u8 (Z.shiftr (signed 8 op1_8) count) in
    BX_WRITE_8BIT_REGx (dst i) (extend8bitL i) result_8 ;;;
    let cf := Z.land (Z.shiftr (signed 8 op1_8) (count - 1)) 0x1 in
    put_lazy (SET_FLAGS_OSZAPC_LOGIC 8 result_8) ;;;
    modify_lazy (set_flags_OxxxxC 0 cf) ;;;
    BX_NEXT_INSTR
  else
    BX_NEXT_INSTR.

Definition SAR_EbM (i : bxInstruction_c) : cpu unit :=
  count <- (if (ia_opcode i) =? BX_IA_SAR_Eb then CL else ret (Ib i)) ;;
  let count := Z.land count 0x1f in
  eaddr <- BX_CPU_RESOLVE_ADDR i ;;
  op1_8 <- read_RMW_virtual_byte (seg i) eaddr ;;
  if negb (count =? 0) then
    let result_8 := u8 (Z.shiftr (signed 8 op1_8) count) in
    write_RMW_linear_byte result_8 ;;;
    let cf := Z.land (Z.shiftr (signed 8 op1_8) (count - 1)) 0x1 in
    put_lazy (SET_FLAGS_OSZAPC_LOGIC 8 result_8) ;;;
    modify_lazy (set_flags_OxxxxC 0 cf) ;;;
    BX_NEXT_INSTR
  else
    BX_NEXT_INSTR.

End Handlers.
