(* ===== verification/Shift16.v ===== *)
(** * 16-bit shift and rotate instructions (cpu/shift16.cc)

    One definition per instruction handler.  A handler serves both the CL and
    the immediate encodings and tells them apart by the opcode number. *)

From Stdlib Require Import ZArith Lia List Bool.
From S2P Require Import Prelude LazyFlags Cpu.
Open Scope Z_scope.

(** Opcode numbers of the CL forms (cpu/decoder/ia_opcodes.def). *)
Definition BX_IA_SHLD_EwGw := 498.
Definition BX_IA_SHRD_EwGw := 502.
Definition BX_IA_ROL_Ew := 424.
Definition BX_IA_ROR_Ew := 425.
Definition BX_IA_RCL_Ew := 426.
Definition BX_IA_RCR_Ew := 427.
Definition BX_IA_SHL_Ew := 428.
Definition BX_IA_SHR_Ew := 429.
Definition BX_IA_SAR_Ew := 430.

Section Handlers.
Context {M : Type} `{VirtualMemory M}.
Abbreviation cpu := (cpu bx_lazyflags_entry M).

Definition SHLD_EwGwM (i : bxInstruction_c) : cpu unit :=
  count <- (if (ia_opcode i) =? BX_IA_SHLD_EwGw then CL else ret (Ib i)) ;;
  let count := Z.land count 0x1f in
  eaddr <- BX_CPU_RESOLVE_ADDR i ;;
  op1_16 <- read_RMW_virtual_word (seg i) eaddr ;;
  if negb (count =? 0) then
    op2_16 <- BX_READ_16BIT_REG (src i) ;;
    let temp_32 := u32 (Z.lor (Z.shiftl op1_16 16) op2_16) in
    let result_32 := u32 (Z.shiftl temp_32 count) in
    let result_32 :=
      if count >? 16 then u32 (Z.lor result_32 (Z.shiftl op1_16 (count - 16)))
      else result_32 in
    let result_16 := u16 (Z.shiftr result_32 16) in
    write_RMW_linear_word result_16 ;;;
    put_lazy (SET_FLAGS_OSZAPC_LOGIC 16 result_16) ;;;
    let cf := Z.land (Z.shiftr temp_32 (32 - count)) 0x1 in
    let of_ := Z.lxor cf (Z.shiftr result_16 15) in
    modify_lazy (set_flags_OxxxxC of_ cf) ;;;
    BX_NEXT_INSTR
  else
    BX_NEXT_INSTR.

Definition SHLD_EwGwR (i : bxInstruction_c) : cpu unit :=
  count <- (if (ia_opcode i) =? BX_IA_SHLD_EwGw then CL else ret (Ib i)) ;;
  let count := Z.land count 0x1f in
  if negb (count =? 0) then
    op1_16 <- BX_READ_16BIT_REG (dst i) ;;
    op2_16 <- BX_READ_16BIT_REG (src i) ;;
    let temp_32 := u32 (Z.lor (Z.shiftl op1_16 16) op2_16) in
    let result_32 := u32 (Z.shiftl temp_32 count) in
    let result_32 :=
      if count >? 16 then u32 (Z.lor result_32 (Z.shiftl op1_16 (count - 16)))
      else result_32 in
    let result_16 := u16 (Z.shiftr result_32 16) in
    BX_WRITE_16BIT_REG (dst i) result_16 ;;;
    put_lazy (SET_FLAGS_OSZAPC_LOGIC 16 result_16) ;;;
    let cf := Z.land (Z.shiftr temp_32 (32 - count)) 0x1 in
    let of_ := Z.lxor cf (Z.shiftr result_16 15) in
    modify_lazy (set_flags_OxxxxC of_ cf) ;;;
    BX_NEXT_INSTR
  else
    BX_NEXT_INSTR.

Definition SHRD_EwGwM (i : bxInstruction_c) : cpu unit :=
  count <- (if (ia_opcode i) =? BX_IA_SHRD_EwGw then CL else ret (Ib i)) ;;
  let count := Z.land count 0x1f in
  eaddr <- BX_CPU_RESOLVE_ADDR i ;;
  op1_16 <- read_RMW_virtual_word (seg i) eaddr ;;
  if negb (count =? 0) then
    op2_16 <- BX_READ_16BIT_REG (src i) ;;
    let temp_32 := u32 (Z.lor (Z.shiftl op2_16 16) op1_16) in
    let result_32 := Z.shiftr temp_32 count in
    let result_32 :=
      if count >? 16 then u32 (Z.lor result_32 (Z.shiftl op1_16 (32 - count)))
      else result_32 in
    let result_16 := u16 result_32 in
    write_RMW_linear_word result_16 ;;;
    put_lazy (SET_FLAGS_OSZAPC_LOGIC 16 result_16) ;;;
    let cf := Z.land (Z.shiftr op1_16 (count - 1)) 0x1 in
    let of_ := Z.land (Z.shiftr (u16 (Z.lxor (Z.shiftl result_16 1) result_16)) 15) 0x1 in
    let cf := if count >? 16 then Z.land (Z.shiftr op2_16 (count - 17)) 0x1 else cf in
    modify_lazy (set_flags_OxxxxC of_ cf) ;;;
    BX_NEXT_INSTR
  else
    BX_NEXT_INSTR.

Definition SHRD_EwGwR (i : bxInstruction_c) : cpu unit :=
  count <- (if (ia_opcode i) =? BX_IA_SHRD_EwGw then CL else ret (Ib i)) ;;
  let count := Z.land count 0x1f in
  if negb (count =? 0) then
    op1_16 <- BX_READ_16BIT_REG (dst i) ;;
    op2_16 <- BX_READ_16BIT_REG (src i) ;;
    let temp_32 := u32 (Z.lor (Z.shiftl op2_16 16) op1_16) in
    let result_32 := Z.shiftr temp_32 count in
    let result_32 :=
      if count >? 16 then u32 (Z.lor result_32 (Z.shiftl op1_16 (32 - count)))
      else result_32 in
    let result_16 := u16 result_32 in
    BX_WRITE_16BIT_REG (dst i) result_16 ;;;
    put_lazy (SET_FLAGS_OSZAPC_LOGIC 16 result_16) ;;;
    let cf := Z.land (Z.shiftr op1_16 (count - 1)) 0x1 in
    let of_ := Z.land (Z.shiftr (u16 (Z.lxor (Z.shiftl result_16 1) result_16)) 15) 0x1 in
    let cf := if count >? 16 then Z.land (Z.shiftr op2_16 (count - 17)) 0x1 else cf in
    modify_lazy (set_flags_OxxxxC of_ cf) ;;;
    BX_NEXT_INSTR
  else
    BX_NEXT_INSTR.

Definition ROL_EwM (i : bxInstruction_c) : cpu unit :=
  count <- (if (ia_opcode i) =? BX_IA_ROL_Ew then CL else ret (Ib i)) ;;
  eaddr <- BX_CPU_RESOLVE_ADDR i ;;
  op1_16 <- read_RMW_virtual_word (seg i) eaddr ;;
  if (Z.land count 0x0f) =? 0 then
    if negb ((Z.land count 0x10) =? 0) then
      let bit0 := Z.land op1_16 0x1 in
      let bit15 := Z.shiftr op1_16 15 in
      modify_lazy (set_flags_OxxxxC (Z.lxor bit0 bit15) bit0) ;;;
      BX_NEXT_INSTR
    else
      BX_NEXT_INSTR
  else
    let count := Z.land count 0x0f in
    let result_16 := u16 (Z.lor (Z.shiftl op1_16 count) (Z.shiftr op1_16 (16 - count))) in
    write_RMW_linear_word result_16 ;;;
    let bit0 := Z.land result_16 0x1 in
    let bit15 := Z.shiftr result_16 15 in
    modify_lazy (set_flags_OxxxxC (Z.lxor bit0 bit15) bit0) ;;;
    BX_NEXT_INSTR.

Definition ROL_EwR (i : bxInstruction_c) : cpu unit :=
  count <- (if (ia_opcode i) =? BX_IA_ROL_Ew then CL else ret (Ib i)) ;;
  op1_16 <- BX_READ_16BIT_REG (dst i) ;;
  if (Z.land count 0x0f) =? 0 then
    if negb ((Z.land count 0x10) =? 0) then
      let bit0 := Z.land op1_16 0x1 in
      let bit15 := Z.shiftr op1_16 15 in
      modify_lazy (set_flags_OxxxxC (Z.lxor bit0 bit15) bit0) ;;;
      BX_NEXT_INSTR
    else
      BX_NEXT_INSTR
  else
    let count := Z.land count 0x0f in
    let result_16 := u16 (Z.lor (Z.shiftl op1_16 count) (Z.shiftr op1_16 (16 - count))) in
    BX_WRITE_16BIT_REG (dst i) result_16 ;;;
    let bit0 := Z.land result_16 0x1 in
    let bit15 := Z.shiftr result_16 15 in
    modify_lazy (set_flags_OxxxxC (Z.lxor bit0 bit15) bit0) ;;;
    BX_NEXT_INSTR.

Definition ROR_EwM (i : bxInstruction_c) : cpu unit :=
  count <- (if (ia_opcode i) =? BX_IA_ROR_Ew then CL else ret (Ib i)) ;;
  eaddr <- BX_CPU_RESOLVE_ADDR i ;;
  op1_16 <- read_RMW_virtual_word (seg i) eaddr ;;
  if (Z.land count 0x0f) =? 0 then
    if negb ((Z.land count 0x10) =? 0) then
      let bit14 := Z.land (Z.shiftr op1_16 14) 1 in
      let bit15 := Z.land (Z.shiftr op1_16 15) 1 in
      modify_lazy (set_flags_OxxxxC (Z.lxor bit14 bit15) bit15) ;;;
      BX_NEXT_INSTR
    else
      BX_NEXT_INSTR
  else
    let count := Z.land count 0x0f in
    let result_16 := u16 (Z.lor (Z.shiftr op1_16 count) (Z.shiftl op1_16 (16 - count))) in
    write_RMW_linear_word result_16 ;;;
    let bit14 := Z.land (Z.shiftr result_16 14) 1 in
    let bit15 := Z.land (Z.shiftr result_16 15) 1 in
    modify_lazy (set_flags_OxxxxC (Z.lxor bit14 bit15) bit15) ;;;
    BX_NEXT_INSTR.

Definition ROR_EwR (i : bxInstruction_c) : cpu unit :=
  count <- (if (ia_opcode i) =? BX_IA_ROR_Ew then CL else ret (Ib i)) ;;
  op1_16 <- BX_READ_16BIT_REG (dst i) ;;
  if (Z.land count 0x0f) =? 0 then
    if negb ((Z.land count 0x10) =? 0) then
      let bit14 := Z.land (Z.shiftr op1_16 14) 1 in
      let bit15 := Z.land (Z.shiftr op1_16 15) 1 in
      modify_lazy (set_flags_OxxxxC (Z.lxor bit14 bit15) bit15) ;;;
      BX_NEXT_INSTR
    else
      BX_NEXT_INSTR
  else
    let count := Z.land count 0x0f in
    let result_16 := u16 (Z.lor (Z.shiftr op1_16 count) (Z.shiftl op1_16 (16 - count))) in
    BX_WRITE_16BIT_REG (dst i) result_16 ;;;
    let bit14 := Z.land (Z.shiftr result_16 14) 1 in
    let bit15 := Z.land (Z.shiftr result_16 15) 1 in
    modify_lazy (set_flags_OxxxxC (Z.lxor bit14 bit15) bit15) ;;;
    BX_NEXT_INSTR.

Definition RCL_EwM (i : bxInstruction_c) : cpu unit :=
  count <- (if (ia_opcode i) =? BX_IA_RCL_Ew then CL else ret (Ib i)) ;;
  let count := (Z.land count 0x1f) mod 17 in
  eaddr <- BX_CPU_RESOLVE_ADDR i ;;
  op1_16 <- read_RMW_virtual_word (seg i) eaddr ;;
  temp_CF <- cpu_getB_CF ;;
  if negb (count =? 0) then
    let result_16 :=
      if count =? 1 then u16 (Z.lor (Z.shiftl op1_16 1) temp_CF)
      else if count =? 16 then u16 (Z.lor (Z.shiftl temp_CF 15) (Z.shiftr op1_16 1))
      else u16 (Z.lor (Z.lor (Z.shiftl op1_16 count) (Z.shiftl temp_CF (count - 1))) (Z.shiftr op1_16 (17 - count))) in
    write_RMW_linear_word result_16 ;;;
    let cf := Z.land (Z.shiftr op1_16 (16 - count)) 0x1 in
    let of_ := Z.lxor cf (Z.shiftr result_16 15) in
    modify_lazy (set_flags_OxxxxC of_ cf) ;;;
    BX_NEXT_INSTR
  else
    BX_NEXT_INSTR.

Definition RCL_EwR (i : bxInstruction_c) : cpu unit :=
  count <- (if (ia_opcode i) =? BX_IA_RCL_Ew then CL else ret (Ib i)) ;;
  let count := (Z.land count 0x1f) mod 17 in
  temp_CF <- cpu_getB_CF ;;
  if negb (count =? 0) then
    op1_16 <- BX_READ_16BIT_REG (dst i) ;;
    let result_16 :=
      if count =? 1 then u16 (Z.lor (Z.shiftl op1_16 1) temp_CF)
      else if count =? 16 then u16 (Z.lor (Z.shiftl temp_CF 15) (Z.shiftr op1_16 1))
      else u16 (Z.lor (Z.lor (Z.shiftl op1_16 count) (Z.shiftl temp_CF (count - 1))) (Z.shiftr op1_16 (17 - count))) in
    BX_WRITE_16BIT_REG (dst i) result_16 ;;;
    let cf := Z.land (Z.shiftr op1_16 (16 - count)) 0x1 in
    let of_ := Z.lxor cf (Z.shiftr result_16 15) in
    modify_lazy (set_flags_OxxxxC of_ cf) ;;;
    BX_NEXT_INSTR
  else
    BX_NEXT_INSTR.

Definition RCR_EwM (i : bxInstruction_c) : cpu unit :=
  count <- (if (ia_opcode i) =? BX_IA_RCR_Ew then CL else ret (Ib i)) ;;
  let count := (Z.land count 0x1f) mod 17 in
  eaddr <- BX_CPU_RESOLVE_ADDR i ;;
  op1_16 <- read_RMW_virtual_word (seg i) eaddr ;;
  if negb (count =? 0) then
    temp_CF <- cpu_getB_CF ;;
    let result_16 := u16 (Z.lor (Z.lor (Z.shiftr op1_16 count) (Z.shiftl temp_CF (16 - count))) (Z.shiftl op1_16 (17 - count))) in
    write_RMW_linear_word result_16 ;;;
    let cf := Z.land (Z.shiftr op1_16 (count - 1)) 0x1 in
    let of_ := Z.land (Z.shiftr (u16 (Z.lxor (Z.shiftl result_16 1) result_16)) 15) 0x1 in
    modify_lazy (set_flags_OxxxxC of_ cf) ;;;
    BX_NEXT_INSTR
  else
    BX_NEXT_INSTR.

Definition RCR_EwR (i : bxInstruction_c) : cpu unit :=
  count <- (if (ia_opcode i) =? BX_IA_RCR_Ew then CL else ret (Ib i)) ;;
  let count := (Z.land count 0x1f) mod 17 in
  if negb (count =? 0) then
    op1_16 <- BX_READ_16BIT_REG (dst i) ;;
    temp_CF <- cpu_getB_CF ;;
    let result_16 := u16 (Z.lor (Z.lor (Z.shiftr op1_16 count) (Z.shiftl temp_CF (16 - count))) (Z.shiftl op1_16 (17 - count))) in
    BX_WRITE_16BIT_REG (dst i) result_16 ;;;
    let cf := Z.land (Z.shiftr op1_16 (count - 1)) 0x1 in
    let of_ := Z.land (Z.shiftr (u16 (Z.lxor (Z.shiftl result_16 1) result_16)) 15) 0x1 in
    modify_lazy (set_flags_OxxxxC of_ cf) ;;;
    BX_NEXT_INSTR
  else
    BX_NEXT_INSTR.

Definition SHL_EwM (i : bxInstruction_c) : cpu unit :=
  let of_ := 0 in
  let cf := 0 in
  count <- (if (ia_opcode i) =? BX_IA_SHL_Ew then CL else ret (Ib i)) ;;
  let count := Z.land count 0x1f in
  eaddr <- BX_CPU_RESOLVE_ADDR i ;;
  op1_16 <- read_RMW_virtual_word (seg i) eaddr ;;
  if negb (count =? 0) then
    let '(result_16, cf, of_) :=
      if count <=? 16 then
        let result_16 := u16 (Z.shiftl op1_16 count) in
        let cf := Z.land (Z.shiftr op1_16 (16 - count)) 0x1 in
        let of_ := Z.lxor cf (Z.shiftr result_16 15) in
        (result_16, cf, of_)
      else
        let result_16 := 0 in
        (result_16, cf, of_) in
    write_RMW_linear_word result_16 ;;;
    put_lazy (SET_FLAGS_OSZAPC_LOGIC 16 result_16) ;;;
    modify_lazy (set_flags_OxxxxC of_ cf) ;;;
    BX_NEXT_INSTR
  else
    BX_NEXT_INSTR.

Definition SHL_EwR (i : bxInstruction_c) : cpu unit :=
  let of_ := 0 in
  let cf := 0 in
  count <- (if (ia_opcode i) =? BX_IA_SHL_Ew then CL else ret (Ib i)) ;;
  let count := Z.land count 0x1f in
  if negb (count =? 0) then
    op1_16 <- BX_READ_16BIT_REG (dst i) ;;
    let '(result_16, cf, of_) :=
      if count <=? 16 then
        let result_16 := u16 (Z.shiftl op1_16 count) in
        let cf := Z.land (Z.shiftr op1_16 (16 - count)) 0x1 in
        let of_ := Z.lxor cf (Z.shiftr result_16 15) in
        (result_16, cf, of_)
      else
        let result_16 := 0 in
        (result_16, cf, of_) in
    BX_WRITE_16BIT_REG (dst i) result_16 ;;;
    put_lazy (SET_FLAGS_OSZAPC_LOGIC 16 result_16) ;;;
    modify_lazy (set_flags_OxxxxC of_ cf) ;;;
    BX_NEXT_INSTR
  else
    BX_NEXT_INSTR.

Definition SHR_EwM (i : bxInstruction_c) : cpu unit :=
  count <- (if (ia_opcode i) =? BX_IA_SHR_Ew then CL else ret (Ib i)) ;;
  let count := Z.land count 0x1f in
  eaddr <- BX_CPU_RESOLVE_ADDR i ;;
  op1_16 <- read_RMW_virtual_word (seg i) eaddr ;;
  if negb (count =? 0) then
    let result_16 := Z.shiftr op1_16 count in
    write_RMW_linear_word result_16 ;;;
    let cf := Z.land (Z.shiftr op1_16 (count - 1)) 0x1 in
    let of_ := Z.land (Z.shiftr (u16 (Z.lxor (Z.shiftl result_16 1) result_16)) 15) 0x1 in
    put_lazy (SET_FLAGS_OSZAPC_LOGIC 16 result_16) ;;;
    modify_lazy (set_flags_OxxxxC of_ cf) ;;;
    BX_NEXT_INSTR
  else
    BX_NEXT_INSTR.

Definition SHR_EwR (i : bxInstruction_c) : cpu unit :=
  count <- (if (ia_opcode i) =? BX_IA_SHR_Ew then CL else ret (Ib i)) ;;
  let count := Z.land count 0x1f in
  if negb (count =? 0) then
    op1_16 <- BX_READ_16BIT_REG (dst i) ;;
    let result_16 := Z.shiftr op1_16 count in
    BX_WRITE_16BIT_REG (dst i) result_16 ;;;
    let cf := Z.land (Z.shiftr op1_16 (count - 1)) 0x1 in
    let of_ := Z.land (Z.shiftr (u16 (Z.lxor (Z.shiftl result_16 1) result_16)) 15) 0x1 in
    put_lazy (SET_FLAGS_OSZAPC_LOGIC 16 result_16) ;;;
    modify_lazy (set_flags_OxxxxC of_ cf) ;;;
    BX_NEXT_INSTR
  else
    BX_NEXT_INSTR.

Definition SAR_EwM (i : bxInstruction_c) : cpu unit :=
  count <- (if (ia_opcode i) =? BX_IA_SAR_Ew then CL else ret (Ib i)) ;;
  let count := Z.land count 0x1f in
  eaddr <- BX_CPU_RESOLVE_ADDR i ;;
  op1_16 <- read_RMW_virtual_word (seg i) eaddr ;;
  if negb (count =? 0) then
    let result_16 := u16 (Z.shiftr (signed 16 op1_16) count) in
    let cf := Z.land (Z.shiftr (signed 16 op1_16) (count - 1)) 0x1 in
    put_lazy (SET_FLAGS_OSZAPC_LOGIC 16 result_16) ;;;
    modify_lazy (set_flags_OxxxxC 0 cf) ;;;
    write_RMW_linear_word result_16 ;;;
    BX_NEXT_INSTR
  else
    BX_NEXT_INSTR.

Definition SAR_EwR (i : bxInstruction_c) : cpu unit :=
  count <- (if (ia_opcode i) =? BX_IA_SAR_Ew then CL else ret (Ib i)) ;;
  let count := Z.land count 0x1f in
  if negb (count =? 0) then
    op1_16 <- BX_READ_16BIT_REG (dst i) ;;
    let result_16 := u16 (Z.shiftr (signed 16 op1_16) count) in
    BX_WRITE_16BIT_REG (dst i) result_16 ;;;
    let cf := Z.land (Z.shiftr (signed 16 op1_16) (count - 1)) 0x1 in
    put_lazy (SET_FLAGS_OSZAPC_LOGIC 16 result_16) ;;;
    modify_lazy (set_flags_OxxxxC 0 cf) ;;;
    BX_NEXT_INSTR
  else
    BX_NEXT_INSTR.

End Handlers.
