(* ===== verification/Shift32.v ===== *)
(** * 32-bit shift and rotate instructions (cpu/shift32.cc)

    One definition per instruction handler.  A handler serves both the CL and
    the immediate encodings and tells them apart by the opcode number. *)

From Stdlib Require Import ZArith Lia List Bool.
From S2P Require Import Prelude LazyFlags Cpu.
Open Scope Z_scope.

(** Opcode numbers of the CL forms (cpu/decoder/ia_opcodes.def). *)
Definition BX_IA_SHLD_EdGd := 496.
Definition BX_IA_SHRD_EdGd := 500.
Definition BX_IA_ROL_Ed := 431.
Definition BX_IA_ROR_Ed := 432.
Definition BX_IA_RCL_Ed := 433.
Definition BX_IA_RCR_Ed := 434.
Definition BX_IA_SHL_Ed := 435.
Definition BX_IA_SHR_Ed := 436.
Definition BX_IA_SAR_Ed := 437.

Section Handlers.
Context {M : Type} `{VirtualMemory M}.
Abbreviation cpu := (cpu bx_lazyflags_entry M).

Definition SHLD_EdGdM (i : bxInstruction_c) : cpu unit :=
  eaddr <- BX_CPU_RESOLVE_ADDR i ;;
  op1_32 <- read_RMW_virtual_dword (seg i) eaddr ;;
  count <- (if (ia_opcode i) =? BX_IA_SHLD_EdGd then CL else ret (Ib i)) ;;
  let count := Z.land count 0x1f in
  if negb (count =? 0) then
    op2_32 <- BX_READ_32BIT_REG (src i) ;;
    let result_32 := u32 (Z.lor (Z.shiftl op1_32 count) (Z.shiftr op2_32 (32 - count))) in
    write_RMW_linear_dword result_32 ;;;
    put_lazy (SET_FLAGS_OSZAPC_LOGIC 32 result_32) ;;;
    let cf := Z.land (Z.shiftr op1_32 (32 - count)) 0x1 in
    let of_ := Z.lxor cf (Z.shiftr result_32 31) in
    modify_lazy (set_flags_OxxxxC of_ cf) ;;;
    BX_NEXT_INSTR
  else
    BX_NEXT_INSTR.

Definition SHLD_EdGdR (i : bxInstruction_c) : cpu unit :=
  count <- (if (ia_opcode i) =? BX_IA_SHLD_EdGd then CL else ret (Ib i)) ;;
  let count := Z.land count 0x1f in
  if count =? 0 then
    BX_CLEAR_64BIT_HIGH (dst i) ;;;
    BX_NEXT_INSTR
  else
    op1_32 <- BX_READ_32BIT_REG (dst i) ;;
    op2_32 <- BX_READ_32BIT_REG (src i) ;;
    let result_32 := u32 (Z.lor (Z.shiftl op1_32 count) (Z.shiftr op2_32 (32 - count))) in
    BX_WRITE_32BIT_REGZ (dst i) result_32 ;;;
    put_lazy (SET_FLAGS_OSZAPC_LOGIC 32 result_32) ;;;
    let cf := Z.land (Z.shiftr op1_32 (32 - count)) 0x1 in
    let of_ := Z.lxor cf (Z.shiftr result_32 31) in
    modify_lazy (set_flags_OxxxxC of_ cf) ;;;
    BX_NEXT_INSTR.

Definition SHRD_EdGdM (i : bxInstruction_c) : cpu unit :=
  eaddr <- BX_CPU_RESOLVE_ADDR i ;;
  op1_32 <- read_RMW_virtual_dword (seg i) eaddr ;;
  count <- (if (ia_opcode i) =? BX_IA_SHRD_EdGd then CL else ret (Ib i)) ;;
  let count := Z.land count 0x1f in
  if negb (count =? 0) then
    op2_32 <- BX_READ_32BIT_REG (src i) ;;
    let result_32 := u32 (Z.lor (Z.shiftl op2_32 (32 - count)) (Z.shiftr op1_32 count)) in
    write_RMW_linear_dword result_32 ;;;
    put_lazy (SET_FLAGS_OSZAPC_LOGIC 32 result_32) ;;;
    let cf := Z.land (Z.shiftr op1_32 (count - 1)) 0x1 in
    let of_ := Z.shiftr (u32 (Z.lxor (Z.shiftl result_32 1) result_32)) 31 in
    modify_lazy (set_flags_OxxxxC of_ cf) ;;;
    BX_NEXT_INSTR
  else
    BX_NEXT_INSTR.

Definition SHRD_EdGdR (i : bxInstruction_c) : cpu unit :=
  count <- (if (ia_opcode i) =? BX_IA_SHRD_EdGd then CL else ret (Ib i)) ;;
  let count := Z.land count 0x1f in
  if count =? 0 then
    BX_CLEAR_64BIT_HIGH (dst i) ;;;
    BX_NEXT_INSTR
  else
    op1_32 <- BX_READ_32BIT_REG (dst i) ;;
    op2_32 <- BX_READ_32BIT_REG (src i) ;;
    let result_32 := u32 (Z.lor (Z.shiftl op2_32 (32 - count)) (Z.shiftr op1_32 count)) in
    BX_WRITE_32BIT_REGZ (dst i) result_32 ;;;
    put_lazy (SET_FLAGS_OSZAPC_LOGIC 32 result_32) ;;;
    let cf := Z.land (Z.shiftr op1_32 (count - 1)) 0x1 in
    let of_ := Z.shiftr (u32 (Z.lxor (Z.shiftl result_32 1) result_32)) 31 in
    modify_lazy (set_flags_OxxxxC of_ cf) ;;;
    BX_NEXT_INSTR.

Definition ROL_EdM (i : bxInstruction_c) : cpu unit :=
  eaddr <- BX_CPU_RESOLVE_ADDR i ;;
  op1_32 <- read_RMW_virtual_dword (seg i) eaddr ;;
  count <- (if (ia_opcode i) =? BX_IA_ROL_Ed then CL else ret (Ib i)) ;;
  let count := Z.land count 0x1f in
  if negb (count =? 0) then
    let result_32 := u32 (Z.lor (Z.shiftl op1_32 count) (Z.shiftr op1_32 (32 - count))) in
    write_RMW_linear_dword result_32 ;;;
    let bit0 := Z.land result_32 0x1 in
    let bit31 := Z.shiftr result_32 31 in
    modify_lazy (set_flags_OxxxxC (Z.lxor bit0 bit31) bit0) ;;;
    BX_NEXT_INSTR
  else
    BX_NEXT_INSTR.

Definition ROL_EdR (i : bxInstruction_c) : cpu unit :=
  count <- (if (ia_opcode i) =? BX_IA_ROL_Ed then CL else ret (Ib i)) ;;
  let count := Z.land count 0x1f in
  if count =? 0 then
    BX_CLEAR_64BIT_HIGH (dst i) ;;;
    BX_NEXT_INSTR
  else
    op1_32 <- BX_READ_32BIT_REG (dst i) ;;
    let result_32 := u32 (Z.lor (Z.shiftl op1_32 count) (Z.shiftr op1_32 (32 - count))) in
    BX_WRITE_32BIT_REGZ (dst i) result_32 ;;;
    let bit0 := Z.land result_32 0x1 in
    let bit31 := Z.shiftr result_32 31 in
    modify_lazy (set_flags_OxxxxC (Z.lxor bit0 bit31) bit0) ;;;
    BX_NEXT_INSTR.

Definition ROR_EdM (i : bxInstruction_c) : cpu unit :=
  eaddr <- BX_CPU_RESOLVE_ADDR i ;;
  op1_32 <- read_RMW_virtual_dword (seg i) eaddr ;;
  count <- (if (ia_opcode i) =? BX_IA_ROR_Ed then CL else ret (Ib i)) ;;
  let count := Z.land count 0x1f in
  if negb (count =? 0) then
    let result_32 := u32 (Z.lor (Z.shiftr op1_32 count) (Z.shiftl op1_32 (32 - count))) in
    write_RMW_linear_dword result_32 ;;;
    let bit31 := Z.land (Z.shiftr result_32 31) 1 in
    let bit30 := Z.land (Z.shiftr result_32 30) 1 in
    modify_lazy (set_flags_OxxxxC (Z.lxor bit30 bit31) bit31) ;;;
    BX_NEXT_INSTR
  else
    BX_NEXT_INSTR.

Definition ROR_EdR (i : bxInstruction_c) : cpu unit :=
  count <- (if (ia_opcode i) =? BX_IA_ROR_Ed then CL else ret (Ib i)) ;;
  let count := Z.land count 0x1f in
  if count =? 0 then
    BX_CLEAR_64BIT_HIGH (dst i) ;;;
    BX_NEXT_INSTR
  else
    op1_32 <- BX_READ_32BIT_REG (dst i) ;;
    let result_32 := u32 (Z.lor (Z.shiftr op1_32 count) (Z.shiftl op1_32 (32 - count))) in
    BX_WRITE_32BIT_REGZ (dst i) result_32 ;;;
    let bit31 := Z.land (Z.shiftr result_32 31) 1 in
    let bit30 := Z.land (Z.shiftr result_32 30) 1 in
    modify_lazy (set_flags_OxxxxC (Z.lxor bit30 bit31) bit31) ;;;
    BX_NEXT_INSTR.

Definition RCL_EdM (i : bxInstruction_c) : cpu unit :=
  eaddr <- BX_CPU_RESOLVE_ADDR i ;;
  op1_32 <- read_RMW_virtual_dword (seg i) eaddr ;;
  count <- (if (ia_opcode i) =? BX_IA_RCL_Ed then CL else ret (Ib i)) ;;
  let count := Z.land count 0x1f in
  if count =? 0 then
    BX_NEXT_INSTR
  else
    temp_CF <- cpu_getB_CF ;;
    let result_32 :=
      if count =? 1 then u32 (Z.lor (Z.shiftl op1_32 1) temp_CF)
      else u32 (Z.lor (Z.lor (Z.shiftl op1_32 count) (Z.shiftl temp_CF (count - 1))) (Z.shiftr op1_32 (33 - count))) in
    write_RMW_linear_dword result_32 ;;;
    let cf := Z.land (Z.shiftr op1_32 (32 - count)) 0x1 in
    let of_ := Z.lxor cf (Z.shiftr result_32 31) in
    modify_lazy (set_flags_OxxxxC of_ cf) ;;;
    BX_NEXT_INSTR.

Definition RCL_EdR (i : bxInstruction_c) : cpu unit :=
  count <- (if (ia_opcode i) =? BX_IA_RCL_Ed then CL else ret (Ib i)) ;;
  let count := Z.land count 0x1f in
  if count =? 0 then
    BX_CLEAR_64BIT_HIGH (dst i) ;;;
    BX_NEXT_INSTR
  else
    op1_32 <- BX_READ_32BIT_REG (dst i) ;;
    temp_CF <- cpu_getB_CF ;;
    let result_32 :=
      if count =? 1 then u32 (Z.lor (Z.shiftl op1_32 1) temp_CF)
      else u32 (Z.lor (Z.lor (Z.shiftl op1_32 count) (Z.shiftl temp_CF (count - 1))) (Z.shiftr op1_32 (33 - count))) in
    BX_WRITE_32BIT_REGZ (dst i) result_32 ;;;
    let cf := Z.land (Z.shiftr op1_32 (32 - count)) 0x1 in
    let of_ := Z.lxor cf (Z.shiftr result_32 31) in
    modify_lazy (set_flags_OxxxxC of_ cf) ;;;
    BX_NEXT_INSTR.

Definition RCR_EdM (i : bxInstruction_c) : cpu unit :=
  eaddr <- BX_CPU_RESOLVE_ADDR i ;;
  op1_32 <- read_RMW_virtual_dword (seg i) eaddr ;;
  count <- (if (ia_opcode i) =? BX_IA_RCR_Ed then CL else ret (Ib i)) ;;
  let count := Z.land count 0x1f in
  if count =? 0 then
    BX_NEXT_INSTR
  else
    temp_CF <- cpu_getB_CF ;;
    let result_32 :=
      if count =? 1 then u32 (Z.lor (Z.shiftr op1_32 1) (Z.shiftl temp_CF 31))
      else u32 (Z.lor (Z.lor (Z.shiftr op1_32 count) (Z.shiftl temp_CF (32 - count))) (Z.shiftl op1_32 (33 - count))) in
    write_RMW_linear_dword result_32 ;;;
    let cf := Z.land (Z.shiftr op1_32 (count - 1)) 0x1 in
    let of_ := Z.shiftr (u32 (Z.lxor (Z.shiftl result_32 1) result_32)) 31 in
    modify_lazy (set_flags_OxxxxC of_ cf) ;;;
    BX_NEXT_INSTR.

Definition RCR_EdR (i : bxInstruction_c) : cpu unit :=
  count <- (if (ia_opcode i) =? BX_IA_RCR_Ed then CL else ret (Ib i)) ;;
  let count := Z.land count 0x1f in
  if count =? 0 then
    BX_CLEAR_64BIT_HIGH (dst i) ;;;
    BX_NEXT_INSTR
  else
    op1_32 <- BX_READ_32BIT_REG (dst i) ;;
    temp_CF <- cpu_getB_CF ;;
    let result_32 :=
      if count =? 1 then u32 (Z.lor (Z.shiftr op1_32 1) (Z.shiftl temp_CF 31))
      else u32 (Z.lor (Z.lor (Z.shiftr op1_32 count) (Z.shiftl temp_CF (32 - count))) (Z.shiftl op1_32 (33 - count))) in
    BX_WRITE_32BIT_REGZ (dst i) result_32 ;;;
    let cf := Z.land (Z.shiftr op1_32 (count - 1)) 0x1 in
    let of_ := Z.shiftr (u32 (Z.lxor (Z.shiftl result_32 1) result_32)) 31 in
    modify_lazy (set_flags_OxxxxC of_ cf) ;;;
    BX_NEXT_INSTR.

Definition SHL_EdM (i : bxInstruction_c) : cpu unit :=
  eaddr <- BX_CPU_RESOLVE_ADDR i ;;
  op1_32 <- read_RMW_virtual_dword (seg i) eaddr ;;
  count <- (if (ia_opcode i) =? BX_IA_SHL_Ed then CL else ret (Ib i)) ;;
  let count := Z.land count 0x1f in
  if negb (count =? 0) then
    let result_32 := u32 (Z.shiftl op1_32 count) in
    write_RMW_linear_dword result_32 ;;;
    let cf := Z.land (Z.shiftr op1_32 (32 - count)) 0x1 in
    let of_ := Z.lxor cf (Z.shiftr result_32 31) in
    put_lazy (SET_FLAGS_OSZAPC_LOGIC 32 result_32) ;;;
    modify_lazy (set_flags_OxxxxC of_ cf) ;;;
    BX_NEXT_INSTR
  else
    BX_NEXT_INSTR.

Definition SHL_EdR (i : bxInstruction_c) : cpu unit :=
  count <- (if (ia_opcode i) =? BX_IA_SHL_Ed then CL else ret (Ib i)) ;;
  let count := Z.land count 0x1f in
  if count =? 0 then
    BX_CLEAR_64BIT_HIGH (dst i) ;;;
    BX_NEXT_INSTR
  else
    op1_32 <- BX_READ_32BIT_REG (dst i) ;;
    let result_32 := u32 (Z.shiftl op1_32 count) in
    BX_WRITE_32BIT_REGZ (dst i) result_32 ;;;
    let cf := Z.land (Z.shiftr op1_32 (32 - count)) 0x1 in
    let of_ := Z.lxor cf (Z.shiftr result_32 31) in
    put_lazy (SET_FLAGS_OSZAPC_LOGIC 32 result_32) ;;;
    modify_lazy (set_flags_OxxxxC of_ cf) ;;;
    BX_NEXT_INSTR.

Definition SHR_EdM (i : bxInstruction_c) : cpu unit :=
  eaddr <- BX_CPU_RESOLVE_ADDR i ;;
  op1_32 <- read_RMW_virtual_dword (seg i) eaddr ;;
  count <- (if (ia_opcode i) =? BX_IA_SHR_Ed then CL else ret (Ib i)) ;;
  let count := Z.land count 0x1f in
  if negb (count =? 0) then
    let result_32 := Z.shiftr op1_32 count in
    write_RMW_linear_dword result_32 ;;;
    let cf := Z.land (Z.shiftr op1_32 (count - 1)) 0x1 in
    let of_ := Z.shiftr (u32 (Z.lxor (Z.shiftl result_32 1) result_32)) 31 in
    put_lazy (SET_FLAGS_OSZAPC_LOGIC 32 result_32) ;;;
    modify_lazy (set_flags_OxxxxC of_ cf) ;;;
    BX_NEXT_INSTR
  else
    BX_NEXT_INSTR.

Definition SHR_EdR (i : bxInstruction_c) : cpu unit :=
  count <- (if (ia_opcode i) =? BX_IA_SHR_Ed then CL else ret (Ib i)) ;;
  let count := Z.land count 0x1f in
  if count =? 0 then
    BX_CLEAR_64BIT_HIGH (dst i) ;;;
    BX_NEXT_INSTR
  else
    op1_32 <- BX_READ_32BIT_REG (dst i) ;;
    let result_32 := Z.shiftr op1_32 count in
    BX_WRITE_32BIT_REGZ (dst i) result_32 ;;;
    let cf := Z.land (Z.shiftr op1_32 (count - 1)) 0x1 in
    let of_ := Z.shiftr (u32 (Z.lxor (Z.shiftl result_32 1) result_32)) 31 in
    put_lazy (SET_FLAGS_OSZAPC_LOGIC 32 result_32) ;;;
    modify_lazy (set_flags_OxxxxC of_ cf) ;;;
    BX_NEXT_INSTR.

Definition SAR_EdM (i : bxInstruction_c) : cpu unit :=
  eaddr <- BX_CPU_RESOLVE_ADDR i ;;
  op1_32 <- read_RMW_virtual_dword (seg i) eaddr ;;
  count <- (if (ia_opcode i) =? BX_IA_SAR_Ed then CL else ret (Ib i)) ;;
  let count := Z.land count 0x1f in
  if negb (count =? 0) then
    let result_32 := u32 (Z.shiftr (signed 32 op1_32) count) in
    write_RMW_linear_dword result_32 ;;;
    put_lazy (SET_FLAGS_OSZAPC_LOGIC 32 result_32) ;;;
    let cf := Z.land (Z.shiftr op1_32 (count - 1)) 1 in
    modify_lazy (set_flags_OxxxxC 0 cf) ;;;
    BX_NEXT_INSTR
  else
    BX_NEXT_INSTR.

Definition SAR_EdR (i : bxInstruction_c) : cpu unit :=
  count <- (if (ia_opcode i) =? BX_IA_SAR_Ed then CL else ret (Ib i)) ;;
  let count := Z.land count 0x1f in
  if count =? 0 then
    BX_CLEAR_64BIT_HIGH (dst i) ;;;
    BX_NEXT_INSTR
  else
    op1_32 <- BX_READ_32BIT_REG (dst i) ;;
    let result_32 := u32 (Z.shiftr (signed 32 op1_32) count) in
    BX_WRITE_32BIT_REGZ (dst i) result_32 ;;;
    put_lazy (SET_FLAGS_OSZAPC_LOGIC 32 result_32) ;;;
    let cf := Z.land (Z.shiftr op1_32 (count - 1)) 1 in
    modify_lazy (set_flags_OxxxxC 0 cf) ;;;
    BX_NEXT_INSTR.

End Handlers.
