(* ===== verification/Shift64.v ===== *)
(** * 64-bit shift and rotate instructions (cpu/shift64.cc)

    One definition per instruction handler.  A handler serves both the CL and
    the immediate encodings and tells them apart by the opcode number. *)

From Stdlib Require Import ZArith Lia List Bool.
From S2P Require Import Prelude LazyFlags Cpu.
Open Scope Z_scope.

(** Opcode numbers of the CL forms (cpu/decoder/ia_opcodes.def). *)
Definition BX_IA_SHLD_EqGq := 1270.
Definition BX_IA_SHRD_EqGq := 1272.
Definition BX_IA_ROL_Eq := 1295.
Definition BX_IA_ROR_Eq := 1296.
Definition BX_IA_RCL_Eq := 1297.
Definition BX_IA_RCR_Eq := 1298.
Definition BX_IA_SHL_Eq := 1299.
Definition BX_IA_SHR_Eq := 1300.
Definition BX_IA_SAR_Eq := 1301.

Section Handlers.
Context {M : Type} `{VirtualMemory M}.
Abbreviation cpu := (cpu bx_lazyflags_entry M).

Definition SHLD_EqGqM (i : bxInstruction_c) : cpu unit :=
  eaddr <- BX_CPU_RESOLVE_ADDR_64 i ;;
  laddr <- get_laddr64 (seg i) eaddr ;;
  op1_64 <- read_RMW_linear_qword (seg i) laddr ;;
  count <- (if (ia_opcode i) =? BX_IA_SHLD_EqGq then CL else ret (Ib i)) ;;
  let count := Z.land count 0x3f in
  if negb (count =? 0) then
    op2_64 <- BX_READ_64BIT_REG (src i) ;;
    let result_64 := u64 (Z.lor (Z.shiftl op1_64 count) (Z.shiftr op2_64 (64 - count))) in
    write_RMW_linear_qword result_64 ;;;
    put_lazy (SET_FLAGS_OSZAPC_LOGIC 64 result_64) ;;;
    let cf := Z.land (Z.shiftr op1_64 (64 - count)) 0x1 in
    let of_ := u32 (Z.lxor cf (Z.shiftr result_64 63)) in
    modify_lazy (set_flags_OxxxxC of_ cf) ;;;
    BX_NEXT_INSTR
  else
    BX_NEXT_INSTR.

Definition SHLD_EqGqR (i : bxInstruction_c) : cpu unit :=
  count <- (if (ia_opcode i) =? BX_IA_SHLD_EqGq then CL else ret (Ib i)) ;;
  let count := Z.land count 0x3f in
  if negb (count =? 0) then
    op1_64 <- BX_READ_64BIT_REG (dst i) ;;
    op2_64 <- BX_READ_64BIT_REG (src i) ;;
    let result_64 := u64 (Z.lor (Z.shiftl op1_64 count) (Z.shiftr op2_64 (64 - count))) in
    BX_WRITE_64BIT_REG (dst i) result_64 ;;;
    put_lazy (SET_FLAGS_OSZAPC_LOGIC 64 result_64) ;;;
    let cf := Z.land (Z.shiftr op1_64 (64 - count)) 0x1 in
    let of_ := u32 (Z.lxor cf (Z.shiftr result_64 63)) in
    modify_lazy (set_flags_OxxxxC of_ cf) ;;;
    BX_NEXT_INSTR
  else
    BX_NEXT_INSTR.

Definition SHRD_EqGqM (i : bxInstruction_c) : cpu unit :=
  eaddr <- BX_CPU_RESOLVE_ADDR_64 i ;;
  laddr <- get_laddr64 (seg i) eaddr ;;
  op1_64 <- read_RMW_linear_qword (seg i) laddr ;;
  count <- (if (ia_opcode i) =? BX_IA_SHRD_EqGq then CL else ret (Ib i)) ;;
  let count := Z.land count 0x3f in
  if negb (count =? 0) then
    op2_64 <- BX_READ_64BIT_REG (src i) ;;
    let result_64 := u64 (Z.lor (Z.shiftl op2_64 (64 - count)) (Z.shiftr op1_64 count)) in
    write_RMW_linear_qword result_64 ;;;
    put_lazy (SET_FLAGS_OSZAPC_LOGIC 64 result_64) ;;;
    let cf := Z.land (Z.shiftr op1_64 (count - 1)) 0x1 in
    let of_ := Z.shiftr (u64 (Z.lxor (Z.shiftl result_64 1) result_64)) 63 in
    modify_lazy (set_flags_OxxxxC of_ cf) ;;;
    BX_NEXT_INSTR
  else
    BX_NEXT_INSTR.

Definition SHRD_EqGqR (i : bxInstruction_c) : cpu unit :=
  count <- (if (ia_opcode i) =? BX_IA_SHRD_EqGq then CL else ret (Ib i)) ;;
  let count := Z.land count 0x3f in
  if negb (count =? 0) then
    op1_64 <- BX_READ_64BIT_REG (dst i) ;;
    op2_64 <- BX_READ_64BIT_REG (src i) ;;
    let result_64 := u64 (Z.lor (Z.shiftl op2_64 (64 - count)) (Z.shiftr op1_64 count)) in
    BX_WRITE_64BIT_REG (dst i) result_64 ;;;
    put_lazy (SET_FLAGS_OSZAPC_LOGIC 64 result_64) ;;;
    let cf := Z.land (Z.shiftr op1_64 (count - 1)) 0x1 in
    let of_ := Z.shiftr (u64 (Z.lxor (Z.shiftl result_64 1) result_64)) 63 in
    modify_lazy (set_flags_OxxxxC of_ cf) ;;;
    BX_NEXT_INSTR
  else
    BX_NEXT_INSTR.

Definition ROL_EqM (i : bxInstruction_c) : cpu unit :=
  eaddr <- BX_CPU_RESOLVE_ADDR_64 i ;;
  laddr <- get_laddr64 (seg i) eaddr ;;
  op1_64 <- read_RMW_linear_qword (seg i) laddr ;;
  count <- (if (ia_opcode i) =? BX_IA_ROL_Eq then CL else ret (Ib i)) ;;
  let count := Z.land count 0x3f in
  if negb (count =? 0) then
    let result_64 := u64 (Z.lor (Z.shiftl op1_64 count) (Z.shiftr op1_64 (64 - count))) in
    write_RMW_linear_qword result_64 ;;;
    let bit0 := Z.land result_64 0x1 in
    let bit63 := Z.shiftr result_64 63 in
    modify_lazy (set_flags_OxxxxC (Z.lxor bit0 bit63) bit0) ;;;
    BX_NEXT_INSTR
  else
    BX_NEXT_INSTR.

Definition ROL_EqR (i : bxInstruction_c) : cpu unit :=
  count <- (if (ia_opcode i) =? BX_IA_ROL_Eq then CL else ret (Ib i)) ;;
  let count := Z.land count 0x3f in
  if negb (count =? 0) then
    op1_64 <- BX_READ_64BIT_REG (dst i) ;;
    let result_64 := u64 (Z.lor (Z.shiftl op1_64 count) (Z.shiftr op1_64 (64 - count))) in
    BX_WRITE_64BIT_REG (dst i) result_64 ;;;
    let bit0 := Z.land result_64 0x1 in
    let bit63 := Z.shiftr result_64 63 in
    modify_lazy (set_flags_OxxxxC (Z.lxor bit0 bit63) bit0) ;;;
    BX_NEXT_INSTR
  else
    BX_NEXT_INSTR.

Definition ROR_EqM (i : bxInstruction_c) : cpu unit :=
  eaddr <- BX_CPU_RESOLVE_ADDR_64 i ;;
  laddr <- get_laddr64 (seg i) eaddr ;;
  op1_64 <- read_RMW_linear_qword (seg i) laddr ;;
  count <- (if (ia_opcode i) =? BX_IA_ROR_Eq then CL else ret (Ib i)) ;;
  let count := Z.land count 0x3f in
  if negb (count =? 0) then
    let result_64 := u64 (Z.lor (Z.shiftr op1_64 count) (Z.shiftl op1_64 (64 - count))) in
    write_RMW_linear_qword result_64 ;;;
    let bit63 := Z.land (Z.shiftr result_64 63) 1 in
    let bit62 := Z.land (Z.shiftr result_64 62) 1 in
    modify_lazy (set_flags_OxxxxC (Z.lxor bit62 bit63) bit63) ;;;
    BX_NEXT_INSTR
  else
    BX_NEXT_INSTR.

Definition ROR_EqR (i : bxInstruction_c) : cpu unit :=
  count <- (if (ia_opcode i) =? BX_IA_ROR_Eq then CL else ret (Ib i)) ;;
  let count := Z.land count 0x3f in
  if negb (count =? 0) then
    op1_64 <- BX_READ_64BIT_REG (dst i) ;;
    let result_64 := u64 (Z.lor (Z.shiftr op1_64 count) (Z.shiftl op1_64 (64 - count))) in
    BX_WRITE_64BIT_REG (dst i) result_64 ;;;
    let bit63 := Z.land (Z.shiftr result_64 63) 1 in
    let bit62 := Z.land (Z.shiftr result_64 62) 1 in
    modify_lazy (set_flags_OxxxxC (Z.lxor bit62 bit63) bit63) ;;;
    BX_NEXT_INSTR
  else
    BX_NEXT_INSTR.

Definition RCL_EqM (i : bxInstruction_c) : cpu unit :=
  eaddr <- BX_CPU_RESOLVE_ADDR_64 i ;;
  laddr <- get_laddr64 (seg i) eaddr ;;
  op1_64 <- read_RMW_linear_qword (seg i) laddr ;;
  count <- (if (ia_opcode i) =? BX_IA_RCL_Eq then CL else ret (Ib i)) ;;
  let count := Z.land count 0x3f in
  if count =? 0 then
    BX_NEXT_INSTR
  else
    temp_CF <- cpu_getB_CF ;;
    let result_64 :=
      if count =? 1 then u64 (Z.lor (Z.shiftl op1_64 1) temp_CF)
      else u64 (Z.lor (Z.lor (Z.shiftl op1_64 count) (Z.shiftl temp_CF (count - 1))) (Z.shiftr op1_64 (65 - count))) in
    write_RMW_linear_qword result_64 ;;;
    let cf := Z.land (Z.shiftr op1_64 (64 - count)) 0x1 in
    let of_ := u32 (Z.lxor cf (Z.shiftr result_64 63)) in
    modify_lazy (set_flags_OxxxxC of_ cf) ;;;
    BX_NEXT_INSTR.

Definition RCL_EqR (i : bxInstruction_c) : cpu unit :=
  count <- (if (ia_opcode i) =? BX_IA_RCL_Eq then CL else ret (Ib i)) ;;
  let count := Z.land count 0x3f in
  if count =? 0 then
    BX_NEXT_INSTR
  else
    op1_64 <- BX_READ_64BIT_REG (dst i) ;;
    temp_CF <- cpu_getB_CF ;;
    let result_64 :=
      if count =? 1 then u64 (Z.lor (Z.shiftl op1_64 1) temp_CF)
      else u64 (Z.lor (Z.lor (Z.shiftl op1_64 count) (Z.shiftl temp_CF (count - 1))) (Z.shiftr op1_64 (65 - count))) in
    BX_WRITE_64BIT_REG (dst i) result_64 ;;;
    let cf := Z.land (Z.shiftr op1_64 (64 - count)) 0x1 in
    let of_ := u32 (Z.lxor cf (Z.shiftr result_64 63)) in
    modify_lazy (set_flags_OxxxxC of_ cf) ;;;
    BX_NEXT_INSTR.

Definition RCR_EqM (i : bxInstruction_c) : cpu unit :=
  eaddr <- BX_CPU_RESOLVE_ADDR_64 i ;;
  laddr <- get_laddr64 (seg i) eaddr ;;
  op1_64 <- read_RMW_linear_qword (seg i) laddr ;;
  count <- (if (ia_opcode i) =? BX_IA_RCR_Eq then CL else ret (Ib i)) ;;
  let count := Z.land count 0x3f in
  if count =? 0 then
    BX_NEXT_INSTR
  else
    temp_CF <- cpu_getB_CF ;;
    let result_64 :=
      if count =? 1 then u64 (Z.lor (Z.shiftr op1_64 1) (Z.shiftl temp_CF 63))
      else u64 (Z.lor (Z.lor (Z.shiftr op1_64 count) (Z.shiftl temp_CF (64 - count))) (Z.shiftl op1_64 (65 - count))) in
    write_RMW_linear_qword result_64 ;;;
    let cf := Z.land (Z.shiftr op1_64 (count - 1)) 0x1 in
    let of_ := Z.shiftr (u64 (Z.lxor (Z.shiftl result_64 1) result_64)) 63 in
    modify_lazy (set_flags_OxxxxC of_ cf) ;;;
    BX_NEXT_INSTR.

Definition RCR_EqR (i : bxInstruction_c) : cpu unit :=
  count <- (if (ia_opcode i) =? BX_IA_RCR_Eq then CL else ret (Ib i)) ;;
  let count := Z.land count 0x3f in
  if count =? 0 then
    BX_NEXT_INSTR
  else
    op1_64 <- BX_READ_64BIT_REG (dst i) ;;
    temp_CF <- cpu_getB_CF ;;
    let result_64 :=
      if count =? 1 then u64 (Z.lor (Z.shiftr op1_64 1) (Z.shiftl temp_CF 63))
      else u64 (Z.lor (Z.lor (Z.shiftr op1_64 count) (Z.shiftl temp_CF (64 - count))) (Z.shiftl op1_64 (65 - count))) in
    BX_WRITE_64BIT_REG (dst i) result_64 ;;;
    let cf := Z.land (Z.shiftr op1_64 (count - 1)) 0x1 in
    let of_ := Z.shiftr (u64 (Z.lxor (Z.shiftl result_64 1) result_64)) 63 in
    modify_lazy (set_flags_OxxxxC of_ cf) ;;;
    BX_NEXT_INSTR.

Definition SHL_EqM (i : bxInstruction_c) : cpu unit :=
  eaddr <- BX_CPU_RESOLVE_ADDR_64 i ;;
  laddr <- get_laddr64 (seg i) eaddr ;;
  op1_64 <- read_RMW_linear_qword (seg i) laddr ;;
  count <- (if (ia_opcode i) =? BX_IA_SHL_Eq then CL else ret (Ib i)) ;;
  let count := Z.land count 0x3f in
  if negb (count =? 0) then
    let result_64 := u64 (Z.shiftl op1_64 count) in
    let cf := Z.land (Z.shiftr op1_64 (64 - count)) 0x1 in
    let of_ := u32 (Z.lxor cf (Z.shiftr result_64 63)) in
    write_RMW_linear_qword result_64 ;;;
    put_lazy (SET_FLAGS_OSZAPC_LOGIC 64 result_64) ;;;
    modify_lazy (set_flags_OxxxxC of_ cf) ;;;
    BX_NEXT_INSTR
  else
    BX_NEXT_INSTR.

Definition SHL_EqR (i : bxInstruction_c) : cpu unit :=
  count <- (if (ia_opcode i) =? BX_IA_SHL_Eq then CL else ret (Ib i)) ;;
  let count := Z.land count 0x3f in
  if negb (count =? 0) then
    op1_64 <- BX_READ_64BIT_REG (dst i) ;;
    let result_64 := u64 (Z.shiftl op1_64 count) in
    BX_WRITE_64BIT_REG (dst i) result_64 ;;;
    let cf := Z.land (Z.shiftr op1_64 (64 - count)) 0x1 in
    let of_ := u32 (Z.lxor cf (Z.shiftr result_64 63)) in
    put_lazy (SET_FLAGS_OSZAPC_LOGIC 64 result_64) ;;;
    modify_lazy (set_flags_OxxxxC of_ cf) ;;;
    BX_NEXT_INSTR
  else
    BX_NEXT_INSTR.

Definition SHR_EqM (i : bxInstruction_c) : cpu unit :=
  eaddr <- BX_CPU_RESOLVE_ADDR_64 i ;;
  laddr <- get_laddr64 (seg i) eaddr ;;
  op1_64 <- read_RMW_linear_qword (seg i) laddr ;;
  count <- (if (ia_opcode i) =? BX_IA_SHR_Eq then CL else ret (Ib i)) ;;
  let count := Z.land count 0x3f in
  if negb (count =? 0) then
    let result_64 := Z.shiftr op1_64 count in
    write_RMW_linear_qword result_64 ;;;
    let cf := Z.land (Z.shiftr op1_64 (count - 1)) 0x1 in
    let of_ := Z.shiftr (u64 (Z.lxor (Z.shiftl result_64 1) result_64)) 63 in
    put_lazy (SET_FLAGS_OSZAPC_LOGIC 64 result_64) ;;;
    modify_lazy (set_flags_OxxxxC of_ cf) ;;;
    BX_NEXT_INSTR
  else
    BX_NEXT_INSTR.

Definition SHR_EqR (i : bxInstruction_c) : cpu unit :=
  count <- (if (ia_opcode i) =? BX_IA_SHR_Eq then CL else ret (Ib i)) ;;
  let count := Z.land count 0x3f in
  if negb (count =? 0) then
    op1_64 <- BX_READ_64BIT_REG (dst i) ;;
    let result_64 := Z.shiftr op1_64 count in
    BX_WRITE_64BIT_REG (dst i) result_64 ;;;
    let cf := Z.land (Z.shiftr op1_64 (count - 1)) 0x1 in
    let of_ := Z.shiftr (u64 (Z.lxor (Z.shiftl result_64 1) result_64)) 63 in
    put_lazy (SET_FLAGS_OSZAPC_LOGIC 64 result_64) ;;;
    modify_lazy (set_flags_OxxxxC of_ cf) ;;;
    BX_NEXT_INSTR
  else
    BX_NEXT_INSTR.

Definition SAR_EqM (i : bxInstruction_c) : cpu unit :=
  eaddr <- BX_CPU_RESOLVE_ADDR_64 i ;;
  laddr <- get_laddr64 (seg i) eaddr ;;
  op1_64 <- read_RMW_linear_qword (seg i) laddr ;;
  count <- (if (ia_opcode i) =? BX_IA_SAR_Eq then CL else ret (Ib i)) ;;
  let count := Z.land count 0x3f in
  if negb (count =? 0) then
    let result_64 := u64 (Z.shiftr (signed 64 op1_64) count) in
    write_RMW_linear_qword result_64 ;;;
    put_lazy (SET_FLAGS_OSZAPC_LOGIC 64 result_64) ;;;
    let cf := Z.land (Z.shiftr op1_64 (count - 1)) 1 in
    modify_lazy (set_flags_OxxxxC 0 cf) ;;;
    BX_NEXT_INSTR
  else
    BX_NEXT_INSTR.

Definition SAR_EqR (i : bxInstruction_c) : cpu unit :=
  count <- (if (ia_opcode i) =? BX_IA_SAR_Eq then CL else ret (Ib i)) ;;
  let count := Z.land count 0x3f in
  if negb (count =? 0) then
    op1_64 <- BX_READ_64BIT_REG (dst i) ;;
    let result_64 := u64 (Z.shiftr (signed 64 op1_64) count) in
    BX_WRITE_64BIT_REG (dst i) result_64 ;;;
    put_lazy (SET_FLAGS_OSZAPC_LOGIC 64 result_64) ;;;
    let cf := Z.land (Z.shiftr op1_64 (count - 1)) 1 in
    modify_lazy (set_flags_OxxxxC 0 cf) ;;;
    BX_NEXT_INSTR
  else
    BX_NEXT_INSTR.

End Handlers.
