(* ===== verification/ShiftSpec.v ===== *)
(** * Reference semantics of shifts and rotates

    Results are stated on the numbers: a rotation swaps the two parts of the
    operand, RCL and RCR rotate the operand extended by the carry, SHLD and SHRD
    shift the string destination:source:destination.  The lemmas connect each to
    the shift-and-or expression of the code. *)

From Stdlib Require Import ZArith Lia List Bool.
From S2P Require Import Prelude LazyFlags Cpu Alu.
Import ListNotations.
Open Scope Z_scope.

Definition rol (n a c : Z) : Z := 2 ^ c * (a mod 2 ^ (n - c)) + a / 2 ^ (n - c).
Definition ror (n a c : Z) : Z := rol n a (n - c).

(** destination : source : destination *)
Definition triple (n a b : Z) : Z := 2 ^ (2 * n) * a + (2 ^ n * b + a).

Inductive shift_op := ROL | ROR | RCL | RCR | SHL | SHR | SAR | SHLD | SHRD.

(** Rotates change OF and CF only. *)
Definition rot_flags (f : flags) (ov cf : bool) : flags := f <| OF := ov |> <| CF := cf |>.

(** The value to write, if any, and the flags, for a count [c] that is already
    masked to 5 or 6 bits. *)
Definition shift_result (n : Z) (op : shift_op) (a b c : Z) (f : flags) : option Z * flags :=
  if c =? 0 then (None, f) else
  match op with
  | ROL =>
      let r := rol n a (c mod n) in
      let cf := Z.testbit r 0 in
      ((if c mod n =? 0 then None else Some r), rot_flags f (xorb cf (Z.testbit r (n - 1))) cf)
  | ROR =>
      let r := ror n a (c mod n) in
      let cf := Z.testbit r (n - 1) in
      ((if c mod n =? 0 then None else Some r), rot_flags f (xorb (Z.testbit r (n - 2)) cf) cf)
  | RCL =>
      let k := c mod (n + 1) in
      if k =? 0 then (None, f) else
      let v := rol (n + 1) (2 ^ n * Z.b2z (CF f) + a) k in
      let cf := Z.testbit v n in
      (Some (wrap n v), rot_flags f (xorb cf (Z.testbit v (n - 1))) cf)
  | RCR =>
      let k := c mod (n + 1) in
      if k =? 0 then (None, f) else
      let v := ror (n + 1) (2 ^ n * Z.b2z (CF f) + a) k in
      (Some (wrap n v),
       rot_flags f (xorb (Z.testbit v (n - 2)) (Z.testbit v (n - 1))) (Z.testbit v n))
  | SHL =>
      let v := a * 2 ^ c in
      let cf := Z.testbit v n in
      (Some (wrap n v), result_flags n v (xorb cf (Z.testbit v (n - 1))) false cf)
  | SHR =>
      let v := a / 2 ^ c in
      (Some v, result_flags n v (xorb (Z.testbit v (n - 2)) (Z.testbit v (n - 1))) false
                 (Z.testbit a (c - 1)))
  | SAR =>
      let v := signed n a / 2 ^ c in
      (Some (wrap n v), result_flags n v false false (Z.testbit (signed n a) (c - 1)))
  | SHLD =>
      let v := triple n a b * 2 ^ c / 2 ^ (2 * n) in
      let cf := Z.testbit (triple n a b) (3 * n - c) in
      (Some (wrap n v), result_flags n v (xorb cf (Z.testbit v (n - 1))) false cf)
  | SHRD =>
      let v := triple n a b / 2 ^ c in
      (Some (wrap n v), result_flags n v (xorb (Z.testbit v (n - 2)) (Z.testbit v (n - 1))) false
                 (Z.testbit (triple n a b) (c - 1)))
  end.

Definition count_mask (sz : opsize) : Z := match sz with S64 => 0x3f | _ => 0x1f end.

Definition is_double (op : shift_op) : bool := match op with SHLD | SHRD => true | _ => false end.

Section Reference.
Context {M : Type} `{VirtualMemory M}.
Abbreviation cpu := (cpu flags M).

(** [by_cl]: the count is CL, otherwise the immediate byte.  A 32-bit register
    is zero extended even when the masked count is 0. *)
Definition shift_spec (sz : opsize) (op : shift_op) (mem by_cl : bool)
    (i : bxInstruction_c) : cpu unit :=
  count <- (if by_cl then CL else ret (Ib i)) ;;
  let c := Z.land count (count_mask sz) in
  a <- (if mem then read_mem sz true i else read_reg sz i (dst i)) ;;
  b <- (if is_double op then read_reg sz i (src i) else ret 0) ;;
  old <- get_flags ;;
  let '(r, f) := shift_result (bits sz) op a b c old in
  (match r with
   | Some r => if mem then write_mem sz r else write_reg sz i (dst i) r
   | None => match sz with
             | S32 => if mem then ret tt else write_reg S32 i (dst i) a
             | _ => ret tt
             end
   end) ;;;
  set_flags f.

End Reference.

(** ** Bits of the reference results *)

Lemma pow_split m c : 0 <= c <= m -> 2 ^ m = 2 ^ (m - c) * 2 ^ c.
Proof. intros. rewrite <- Z.pow_add_r by lia. f_equal. lia. Qed.

(** The top [c] bits of an m-bit value. *)
Lemma high_part_fits m a c : 0 <= c <= m -> fits m a -> fits c (a / 2 ^ (m - c)).
Proof.
  intros Hc Ha. unfold fits in *. pose proof (pow_split m c Hc) as E.
  pose proof (Z.pow_pos_nonneg 2 (m - c) ltac:(lia) ltac:(lia)).
  split; [apply Z.div_pos; lia|].
  apply Z.div_lt_upper_bound; [lia|]. rewrite <- E. lia.
Qed.

Lemma rol_bit m a c i :
  0 <= c <= m -> 0 <= i < m -> fits m a ->
  Z.testbit (rol m a c) i = if i <? c then Z.testbit a (i + m - c) else Z.testbit a (i - c).
Proof.
  intros Hc Hi Ha. unfold rol. pose proof (high_part_fits m a c Hc Ha) as F.
  rewrite <- lor_shiftl_add, Z.lor_spec, Z.shiftl_spec by (assumption || lia).
  fold (wrap (m - c) a). destruct (Z.ltb_spec i c).
  - rewrite Z.testbit_neg_r by lia. cbn [orb]. rewrite Z.div_pow2_bits by lia. f_equal. lia.
  - rewrite (fits_testbit c _ i) by (assumption || lia). rewrite wrap_bit by lia.
    destruct (Z.ltb_spec (i - c) (m - c)); [apply orb_false_r | lia].
Qed.

Lemma rol_fits m a c : 0 <= c <= m -> fits m a -> fits m (rol m a c).
Proof.
  intros Hc Ha. pose proof (high_part_fits m a c Hc Ha) as F. pose proof (pow_split m c Hc) as E.
  unfold rol, fits in *.
  pose proof (Z.pow_pos_nonneg 2 (m - c) ltac:(lia) ltac:(lia)).
  pose proof (Z.pow_pos_nonneg 2 c ltac:(lia) ltac:(lia)).
  pose proof (Z.mod_pos_bound a (2 ^ (m - c)) ltac:(lia)).
  nia.
Qed.

Lemma ror_bit m a c i :
  0 <= c <= m -> 0 <= i < m -> fits m a ->
  Z.testbit (ror m a c) i = if i <? m - c then Z.testbit a (i + c) else Z.testbit a (i + c - m).
Proof.
  intros. unfold ror. rewrite rol_bit by (assumption || lia).
  replace (i + m - (m - c)) with (i + c) by lia. replace (i - (m - c)) with (i + c - m) by lia.
  reflexivity.
Qed.

Lemma ror_fits m a c : 0 <= c <= m -> fits m a -> fits m (ror m a c).
Proof. intros. apply rol_fits; [lia | assumption]. Qed.

Lemma concat_bit n hi lo i :
  0 <= n -> fits n lo ->
  Z.testbit (2 ^ n * hi + lo) i = if i <? n then Z.testbit lo i else Z.testbit hi (i - n).
Proof.
  intros Hn Hl. destruct (Z.lt_ge_cases i 0) as [N|Hi].
  { rewrite !(Z.testbit_neg_r _ i) by lia. destruct (Z.ltb_spec i n); [reflexivity | lia]. }
  rewrite <- lor_shiftl_add, Z.lor_spec, Z.shiftl_spec by (assumption || lia).
  destruct (Z.ltb_spec i n).
  - rewrite (Z.testbit_neg_r hi) by lia. reflexivity.
  - rewrite (fits_testbit n lo) by (assumption || lia). apply orb_false_r.
Qed.

Lemma triple_bit n a b i :
  0 <= n -> fits n a -> fits n b ->
  Z.testbit (triple n a b) i =
  if i <? n then Z.testbit a i else if i <? 2 * n then Z.testbit b (i - n) else Z.testbit a (i - 2 * n).
Proof.
  intros Hn Ha Hb. unfold triple.
  assert (F : fits (2 * n) (2 ^ n * b + a)).
  { unfold fits in *. replace (2 * n) with (n + n) by lia. rewrite Z.pow_add_r by lia. nia. }
  rewrite concat_bit by (assumption || lia).
  destruct (Z.ltb_spec i (2 * n)), (Z.ltb_spec i n); try lia; try reflexivity;
    rewrite concat_bit by (assumption || lia);
    destruct (Z.ltb_spec i n); try lia; reflexivity.
Qed.

(** ** The code's expressions

    Both sides are compared bit by bit; [bits_solve] decides which operand each
    bit comes from. *)

Lemma b2z_bit b k : Z.testbit (Z.b2z b) k = b && (k =? 0).
Proof.
  destruct (Z.lt_ge_cases k 0) as [N|Hk].
  { rewrite Z.testbit_neg_r by lia. destruct (Z.eqb_spec k 0); [lia|].
    symmetry. apply andb_false_r. }
  destruct (Z.eqb_spec k 0) as [->|N].
  - destruct b; reflexivity.
  - rewrite andb_false_r. apply (fits_testbit 1); [lia | destruct b; unfold fits; simpl; lia | lia].
Qed.

Lemma b2z_fits b n : 0 < n -> fits n (Z.b2z b).
Proof.
  intros. apply (fits_le 1); [lia|]. destruct b; unfold fits; simpl; lia.
Qed.

Lemma mul_pow2_bit a c i : 0 <= c -> Z.testbit (a * 2 ^ c) i = Z.testbit a (i - c).
Proof. intros. apply Z.mul_pow2_bits. lia. Qed.

Lemma shiftl_bit a c i : 0 <= c -> Z.testbit (Z.shiftl a c) i = Z.testbit a (i - c).
Proof. intros. rewrite Z.shiftl_mul_pow2 by lia. apply mul_pow2_bit. assumption. Qed.

Ltac bits_step :=
  match goal with
  | |- context [Z.testbit (Z.lor ?a ?b) ?k] => rewrite (Z.lor_spec a b k)
  | |- context [Z.testbit (Z.shiftl ?a ?c) ?k] => rewrite (shiftl_bit a c k) by lia
  | |- context [Z.testbit (Z.shiftr ?a ?c) ?k] => rewrite (Z.shiftr_spec a c k) by lia
  | |- context [Z.testbit (_ mod _) _] => fail 1
  | |- context [Z.testbit (wrap ?n ?a) ?k] => rewrite (wrap_bit n a k) by lia
  | |- context [Z.testbit (?a / 2 ^ ?c) ?k] => rewrite (Z.div_pow2_bits a c k) by lia
  | |- context [Z.testbit (?a * 2 ^ ?c) ?k] => rewrite (mul_pow2_bit a c k) by lia
  | |- context [Z.testbit (Z.b2z ?b) ?k] =>
      rewrite (b2z_bit b k)
  | |- context [Z.testbit ?a ?k] =>
      match goal with H : fits ?n a |- _ =>
        rewrite (fits_testbit n a k) by (assumption || lia) end
  | |- context [Z.testbit ?a ?k] => is_var a; rewrite (Z.testbit_neg_r a k) by lia
  end.

Ltac bits_cases :=
  repeat match goal with
  | |- context [?x <? ?y] => destruct (Z.ltb_spec x y); try lia
  | |- context [?x =? ?y] => destruct (Z.eqb_spec x y); try lia
  end.

Ltac bits_solve :=
  repeat (bits_step || (progress bits_cases));
  cbn [andb orb]; rewrite ?orb_false_r, ?andb_true_r, ?andb_false_r;
  cbn [andb orb]; rewrite ?orb_false_r;
  first [reflexivity | f_equal; lia].

(** Two values that agree on the low [n] bits. *)
Lemma wrap_bits_eq n x y :
  0 <= n -> (forall i, 0 <= i < n -> Z.testbit x i = Z.testbit y i) -> wrap n x = wrap n y.
Proof.
  intros Hn E. apply Z.bits_inj'. intros i Hi. rewrite !wrap_bit by lia.
  destruct (Z.ltb_spec i n); [|reflexivity]. cbn [andb]. apply E. lia.
Qed.

Section Code.
Variable n : Z.
Hypothesis Hn : 8 <= n.

Lemma rol_code a c : 0 <= c <= n -> fits n a ->
  wrap n (Z.lor (Z.shiftl a c) (Z.shiftr a (n - c))) = rol n a c.
Proof.
  intros Hc Ha. rewrite <- (wrap_id n (rol n a c)) by (apply rol_fits; assumption).
  apply wrap_bits_eq; [lia|]. intros i Hi. rewrite rol_bit by assumption. bits_solve.
Qed.

Lemma ror_code a c : 0 <= c <= n -> fits n a ->
  wrap n (Z.lor (Z.shiftr a c) (Z.shiftl a (n - c))) = ror n a c.
Proof.
  intros. unfold ror. rewrite <- rol_code by (assumption || lia).
  rewrite Z.lor_comm. replace (n - (n - c)) with c by lia. reflexivity.
Qed.

Lemma carry_fits b a : fits n a -> fits (n + 1) (2 ^ n * Z.b2z b + a).
Proof.
  intros Ha. unfold fits in *. rewrite Z.pow_add_r by lia. destruct b; cbn [Z.b2z]; lia.
Qed.

Lemma rcl_code a b c : 0 < c <= n -> fits n a ->
  wrap n (Z.lor (Z.lor (Z.shiftl a c) (Z.shiftl (Z.b2z b) (c - 1))) (Z.shiftr a (n + 1 - c))) =
  wrap n (rol (n + 1) (2 ^ n * Z.b2z b + a) c).
Proof.
  intros Hc Ha. apply wrap_bits_eq; [lia|]. intros i Hi.
  rewrite rol_bit by (lia || (apply carry_fits; assumption)).
  rewrite !concat_bit by (assumption || lia). bits_solve.
Qed.

Lemma rcl_carry a b c : 0 < c <= n -> fits n a ->
  Z.testbit (rol (n + 1) (2 ^ n * Z.b2z b + a) c) n = Z.testbit a (n - c).
Proof.
  intros Hc Ha. rewrite rol_bit by (lia || (apply carry_fits; assumption)).
  rewrite !concat_bit by (assumption || lia). bits_solve.
Qed.

Lemma rcr_code a b c : 0 < c <= n -> fits n a ->
  wrap n (Z.lor (Z.lor (Z.shiftr a c) (Z.shiftl (Z.b2z b) (n - c))) (Z.shiftl a (n + 1 - c))) =
  wrap n (ror (n + 1) (2 ^ n * Z.b2z b + a) c).
Proof.
  intros Hc Ha. apply wrap_bits_eq; [lia|]. intros i Hi.
  rewrite ror_bit by (lia || (apply carry_fits; assumption)).
  rewrite !concat_bit by (assumption || lia). bits_solve.
Qed.

Lemma rcr_carry a b c : 0 < c <= n -> fits n a ->
  Z.testbit (ror (n + 1) (2 ^ n * Z.b2z b + a) c) n = Z.testbit a (c - 1).
Proof.
  intros Hc Ha. rewrite ror_bit by (lia || (apply carry_fits; assumption)).
  rewrite !concat_bit by (assumption || lia). bits_solve.
Qed.

(** ROR's carry out is the last bit moved. *)
Lemma ror_carry a c : 0 < c <= n -> fits n a ->
  Z.testbit (ror n a c) (n - 1) = Z.testbit a (c - 1).
Proof. intros Hc Ha. rewrite ror_bit by (assumption || lia). bits_solve. Qed.

Lemma rol_0 a : fits n a -> rol n a 0 = a.
Proof.
  intros Ha. unfold rol. rewrite Z.sub_0_r. fold (wrap n a).
  rewrite (wrap_id n a Ha), Z.div_small by exact Ha. lia.
Qed.

Lemma ror_0 a : fits n a -> ror n a 0 = a.
Proof.
  intros Ha. unfold ror, rol. rewrite Z.sub_0_r, Z.sub_diag, Z.mod_1_r, Z.div_1_r. lia.
Qed.

Lemma shl_over a c : n <= c -> wrap n (a * 2 ^ c) = 0.
Proof.
  intros Hc. apply Z.bits_inj'. intros i Hi. rewrite Z.testbit_0_l. rewrite wrap_bit by lia.
  destruct (Z.ltb_spec i n); [|reflexivity].
  rewrite mul_pow2_bit, Z.testbit_neg_r by lia. reflexivity.
Qed.

Lemma shl_carry a c : 0 <= c -> Z.testbit (a * 2 ^ c) n = Z.testbit a (n - c).
Proof. intros. apply mul_pow2_bit. assumption. Qed.

Lemma shld_code a b c : 0 < c <= n -> fits n a -> fits n b ->
  wrap n (Z.lor (Z.shiftl a c) (Z.shiftr b (n - c))) =
  wrap n (triple n a b * 2 ^ c / 2 ^ (2 * n)).
Proof.
  intros Hc Ha Hb. apply wrap_bits_eq; [lia|]. intros i Hi.
  rewrite Z.div_pow2_bits, mul_pow2_bit, triple_bit by (assumption || lia). bits_solve.
Qed.

Lemma shld_carry a b c : 0 < c <= n -> fits n a -> fits n b ->
  Z.testbit (triple n a b) (3 * n - c) = Z.testbit a (n - c).
Proof. intros Hc Ha Hb. rewrite triple_bit by (assumption || lia). bits_solve. Qed.

Lemma shrd_code a b c : 0 < c <= n -> fits n a -> fits n b ->
  wrap n (Z.lor (Z.shiftl b (n - c)) (Z.shiftr a c)) = wrap n (triple n a b / 2 ^ c).
Proof.
  intros Hc Ha Hb. apply wrap_bits_eq; [lia|]. intros i Hi.
  rewrite Z.div_pow2_bits, triple_bit by (assumption || lia). bits_solve.
Qed.

Lemma shrd_carry a b c : 0 < c <= n -> fits n a -> fits n b ->
  Z.testbit (triple n a b) (c - 1) = Z.testbit a (c - 1).
Proof. intros Hc Ha Hb. rewrite triple_bit by (assumption || lia). bits_solve. Qed.

(** The flag expressions. *)
Lemma top_bit r : fits n r -> Z.shiftr r (n - 1) = Z.b2z (Z.testbit r (n - 1)).
Proof.
  intros Hr. apply Z.bits_inj'. intros i Hi. rewrite b2z_bit, Z.shiftr_spec by lia.
  destruct (Z.eqb_spec i 0) as [->|N].
  - rewrite andb_true_r. reflexivity.
  - rewrite andb_false_r. apply (fits_testbit n); assumption || lia.
Qed.

Lemma wrap_fit m x k : 0 <= m <= n -> k < m -> Z.testbit (wrap m x) k = Z.testbit x k.
Proof. intros. rewrite wrap_bit by lia. destruct (Z.ltb_spec k m); [reflexivity | lia]. Qed.

End Code.

Lemma lxor_b2z x y : Z.lxor (Z.b2z x) (Z.b2z y) = Z.b2z (xorb x y).
Proof. destruct x, y; reflexivity. Qed.

(** [(r << 1) ^ r]: bit [k] compares two neighbours. *)
Lemma lxor_shift_bit r k : 0 <= k ->
  Z.testbit (Z.lxor (Z.shiftl r 1) r) k = xorb (Z.testbit r (k - 1)) (Z.testbit r k).
Proof. intros. rewrite Z.lxor_spec, Z.shiftl_spec by lia. reflexivity. Qed.

(** 16-bit SHLD and SHRD shift a 32-bit pair and bring the destination in again
    for counts above 16. *)
Lemma shld16_code a b c : 0 < c < 32 -> fits 16 a -> fits 16 b ->
  let temp := u32 (Z.lor (Z.shiftl a 16) b) in
  let r := u32 (Z.shiftl temp c) in
  let r' := if c >? 16 then u32 (Z.lor r (Z.shiftl a (c - 16))) else r in
  u16 (Z.shiftr r' 16) = u16 (triple 16 a b * 2 ^ c / 2 ^ (2 * 16)) /\
  Z.land (Z.shiftr temp (32 - c)) 1 = Z.b2z (Z.testbit (triple 16 a b) (3 * 16 - c)).
Proof.
  intros Hc Ha Hb temp r r'. subst r' r temp. split.
  - apply wrap_bits_eq; [lia|]. intros i Hi.
    rewrite Z.div_pow2_bits, mul_pow2_bit by lia. rewrite triple_bit by (assumption || lia).
    destruct (Z.gtb_spec c 16); bits_solve.
  - rewrite triple_bit by (assumption || lia).
    rewrite shiftr_land_1 by lia. f_equal. bits_solve.
Qed.

Lemma shrd16_code a b c : 0 < c < 32 -> fits 16 a -> fits 16 b ->
  let temp := u32 (Z.lor (Z.shiftl b 16) a) in
  let r := Z.shiftr temp c in
  let r' := if c >? 16 then u32 (Z.lor r (Z.shiftl a (32 - c))) else r in
  u16 r' = u16 (triple 16 a b / 2 ^ c) /\
  (if c >? 16 then Z.land (Z.shiftr b (c - 17)) 1 else Z.land (Z.shiftr a (c - 1)) 1) =
  Z.b2z (Z.testbit (triple 16 a b) (c - 1)).
Proof.
  intros Hc Ha Hb temp r r'. subst r' r temp. split.
  - apply wrap_bits_eq; [lia|]. intros i Hi.
    rewrite Z.div_pow2_bits by lia. rewrite triple_bit by (assumption || lia).
    destruct (Z.gtb_spec c 16); bits_solve.
  - rewrite triple_bit by (assumption || lia).
    destruct (Z.gtb_spec c 16); rewrite shiftr_land_1 by lia; f_equal; bits_solve.
Qed.

(** RCL and RCR treat small and boundary counts apart. *)
Lemma rcl_code_1 n a b : 8 <= n -> fits n a ->
  wrap n (Z.lor (Z.shiftl a 1) (Z.b2z b)) = wrap n (rol (n + 1) (2 ^ n * Z.b2z b + a) 1).
Proof.
  intros Hn Ha. rewrite <- rcl_code by (assumption || lia).
  apply wrap_bits_eq; [lia|]. intros i Hi. bits_solve.
Qed.

Lemma rcl_code_n n a b : 8 <= n -> fits n a ->
  wrap n (Z.lor (Z.shiftl (Z.b2z b) (n - 1)) (Z.shiftr a 1)) =
  wrap n (rol (n + 1) (2 ^ n * Z.b2z b + a) n).
Proof.
  intros Hn Ha. rewrite <- rcl_code by (assumption || lia).
  apply wrap_bits_eq; [lia|]. intros i Hi. bits_solve.
Qed.

Lemma rcr_code_1 n a b : 8 <= n -> fits n a ->
  wrap n (Z.lor (Z.shiftr a 1) (Z.shiftl (Z.b2z b) (n - 1))) =
  wrap n (ror (n + 1) (2 ^ n * Z.b2z b + a) 1).
Proof.
  intros Hn Ha. rewrite <- rcr_code by (assumption || lia).
  apply wrap_bits_eq; [lia|]. intros i Hi. bits_solve.
Qed.

(** ** Counts *)

Lemma land_ones_mod k m : 0 <= m -> Z.land k (2 ^ m - 1) = k mod 2 ^ m.
Proof.
  intros. replace (2 ^ m - 1) with (Z.ones m) by (rewrite Z.ones_equiv; lia).
  apply Z.land_ones. assumption.
Qed.

Lemma count_31 k : 0 <= Z.land k 31 < 32.
Proof. change 31 with (2 ^ 5 - 1). rewrite land_ones_mod by lia. apply Z.mod_pos_bound. lia. Qed.

Lemma count_63 k : 0 <= Z.land k 63 < 64.
Proof. change 63 with (2 ^ 6 - 1). rewrite land_ones_mod by lia. apply Z.mod_pos_bound. lia. Qed.

Lemma count_mod_8 k : Z.land k 7 = Z.land k 31 mod 8.
Proof.
  change 31 with (Z.ones 5). change 7 with (Z.land (Z.ones 5) (Z.ones 3)).
  rewrite Z.land_assoc. rewrite (Z.land_ones _ 3) by lia. reflexivity.
Qed.

Lemma count_mod_16 k : Z.land k 15 = Z.land k 31 mod 16.
Proof.
  change 31 with (Z.ones 5). change 15 with (Z.land (Z.ones 5) (Z.ones 4)).
  rewrite Z.land_assoc. rewrite (Z.land_ones _ 4) by lia. reflexivity.
Qed.

(** A masked count that is a multiple of the size is zero exactly when the bits
    above the size are clear. *)
Lemma count_high_8 k : fits 8 k -> Z.land k 31 mod 8 = 0 ->
  (Z.land k 24 =? 0) = (Z.land k 31 =? 0).
Proof.
  intros Hk Hz. pose proof (zrange_forall 256
    (fun k => implb (Z.land k 31 mod 8 =? 0)
                    (Bool.eqb (Z.land k 24 =? 0) (Z.land k 31 =? 0))) eq_refl k Hk) as T.
  cbv beta in T. rewrite Hz in T. apply eqb_prop. exact T.
Qed.

Lemma count_high_16 k : fits 8 k -> Z.land k 31 mod 16 = 0 ->
  (Z.land k 16 =? 0) = (Z.land k 31 =? 0).
Proof.
  intros Hk Hz. pose proof (zrange_forall 256
    (fun k => implb (Z.land k 31 mod 16 =? 0)
                    (Bool.eqb (Z.land k 16 =? 0) (Z.land k 31 =? 0))) eq_refl k Hk) as T.
  cbv beta in T. rewrite Hz in T. apply eqb_prop. exact T.
Qed.

(** ** Flags after set_flags_OxxxxC *)

Lemma rot_flags_eq x y x' y' e : lf_ok e -> x = x' -> y = y' ->
  lazy_flags (set_flags_OxxxxC (Z.b2z x) (Z.b2z y) e) = rot_flags (lazy_flags e) x' y'.
Proof.
  intros He -> ->. rewrite !lazy_flags_bits by auto using OxxxxC_ok. apply OxxxxC_flags.
Qed.

Lemma shift_flags_eq n r v x y x' y' : osize n -> wrap n r = wrap n v -> x = x' -> y = y' ->
  lazy_flags (set_flags_OxxxxC (Z.b2z x) (Z.b2z y) (SET_FLAGS_OSZAPC_LOGIC n r)) =
  result_flags n v x' false y'.
Proof.
  intros Hn E -> ->. rewrite (rot_flags_eq x' y' x' y') by (reflexivity || apply SIZE_ok).
  rewrite (LOGIC_flags_eq n r v) by assumption. reflexivity.
Qed.

Lemma put_field_clear x : fits 64 x -> put_field 32 32 0 x = u32 (get_field 0 32 x).
Proof.
  intros Hx. apply Z.bits_inj'. intros i Hi. unfold get_field.
  rewrite put_field_bit, !wrap_bit, Z.shiftr_spec, Z.testbit_0_l, Z.add_0_r by lia.
  destruct (Z.leb_spec 32 i), (Z.ltb_spec i (32 + 32)), (Z.ltb_spec i 32); try lia;
    cbn [andb]; try reflexivity.
  apply (fits_testbit 64); assumption || lia.
Qed.
