(* ===== verification/ShiftRefine.v ===== *)
(** * The shift and rotate handlers implement the reference semantics

    Every handler of shift8/16/32/64.cc, in its CL and immediate forms, is run
    against [ShiftSpec.shift_spec]. *)

From Stdlib Require Import ZArith Lia List Bool.
From S2P Require Import Prelude LazyFlags Cpu Alu Shift8 Shift16 Shift32 Shift64 ShiftSpec.
Import ListNotations.
Open Scope Z_scope.

(** The opcode whose count is CL; the other encodings carry an immediate. *)
Definition cl_opcode (sz : opsize) (op : shift_op) : Z :=
  match sz, op with
  | S8, ROL => BX_IA_ROL_Eb | S8, ROR => BX_IA_ROR_Eb | S8, RCL => BX_IA_RCL_Eb
  | S8, RCR => BX_IA_RCR_Eb | S8, SHL => BX_IA_SHL_Eb | S8, SHR => BX_IA_SHR_Eb
  | S8, SAR => BX_IA_SAR_Eb | S8, _ => -1
  | S16, ROL => BX_IA_ROL_Ew | S16, ROR => BX_IA_ROR_Ew | S16, RCL => BX_IA_RCL_Ew
  | S16, RCR => BX_IA_RCR_Ew | S16, SHL => BX_IA_SHL_Ew | S16, SHR => BX_IA_SHR_Ew
  | S16, SAR => BX_IA_SAR_Ew | S16, SHLD => BX_IA_SHLD_EwGw | S16, SHRD => BX_IA_SHRD_EwGw
  | S32, ROL => BX_IA_ROL_Ed | S32, ROR => BX_IA_ROR_Ed | S32, RCL => BX_IA_RCL_Ed
  | S32, RCR => BX_IA_RCR_Ed | S32, SHL => BX_IA_SHL_Ed | S32, SHR => BX_IA_SHR_Ed
  | S32, SAR => BX_IA_SAR_Ed | S32, SHLD => BX_IA_SHLD_EdGd | S32, SHRD => BX_IA_SHRD_EdGd
  | S64, ROL => BX_IA_ROL_Eq | S64, ROR => BX_IA_ROR_Eq | S64, RCL => BX_IA_RCL_Eq
  | S64, RCR => BX_IA_RCR_Eq | S64, SHL => BX_IA_SHL_Eq | S64, SHR => BX_IA_SHR_Eq
  | S64, SAR => BX_IA_SAR_Eq | S64, SHLD => BX_IA_SHLD_EqGq | S64, SHRD => BX_IA_SHRD_EqGq
  end.

Section Refinement.
Context {M : Type} `{VirtualMemoryOk M}.
Abbreviation handler := (bxInstruction_c -> cpu bx_lazyflags_entry M unit).

(** Register form when [mem] is false, memory form when it is true. *)
Definition shift_handler (sz : opsize) (op : shift_op) (mem : bool) : option handler :=
  match sz, op with
  | S8, ROL => Some (if mem then ROL_EbM else ROL_EbR)
  | S8, ROR => Some (if mem then ROR_EbM else ROR_EbR)
  | S8, RCL => Some (if mem then RCL_EbM else RCL_EbR)
  | S8, RCR => Some (if mem then RCR_EbM else RCR_EbR)
  | S8, SHL => Some (if mem then SHL_EbM else SHL_EbR)
  | S8, SHR => Some (if mem then SHR_EbM else SHR_EbR)
  | S8, SAR => Some (if mem then SAR_EbM else SAR_EbR)
  | S8, _ => None
  | S16, ROL => Some (if mem then ROL_EwM else ROL_EwR)
  | S16, ROR => Some (if mem then ROR_EwM else ROR_EwR)
  | S16, RCL => Some (if mem then RCL_EwM else RCL_EwR)
  | S16, RCR => Some (if mem then RCR_EwM else RCR_EwR)
  | S16, SHL => Some (if mem then SHL_EwM else SHL_EwR)
  | S16, SHR => Some (if mem then SHR_EwM else SHR_EwR)
  | S16, SAR => Some (if mem then SAR_EwM else SAR_EwR)
  | S16, SHLD => Some (if mem then SHLD_EwGwM else SHLD_EwGwR)
  | S16, SHRD => Some (if mem then SHRD_EwGwM else SHRD_EwGwR)
  | S32, ROL => Some (if mem then ROL_EdM else ROL_EdR)
  | S32, ROR => Some (if mem then ROR_EdM else ROR_EdR)
  | S32, RCL => Some (if mem then RCL_EdM else RCL_EdR)
  | S32, RCR => Some (if mem then RCR_EdM else RCR_EdR)
  | S32, SHL => Some (if mem then SHL_EdM else SHL_EdR)
  | S32, SHR => Some (if mem then SHR_EdM else SHR_EdR)
  | S32, SAR => Some (if mem then SAR_EdM else SAR_EdR)
  | S32, SHLD => Some (if mem then SHLD_EdGdM else SHLD_EdGdR)
  | S32, SHRD => Some (if mem then SHRD_EdGdM else SHRD_EdGdR)
  | S64, ROL => Some (if mem then ROL_EqM else ROL_EqR)
  | S64, ROR => Some (if mem then ROR_EqM else ROR_EqR)
  | S64, RCL => Some (if mem then RCL_EqM else RCL_EqR)
  | S64, RCR => Some (if mem then RCR_EqM else RCR_EqR)
  | S64, SHL => Some (if mem then SHL_EqM else SHL_EqR)
  | S64, SHR => Some (if mem then SHR_EqM else SHR_EqR)
  | S64, SAR => Some (if mem then SAR_EqM else SAR_EqR)
  | S64, SHLD => Some (if mem then SHLD_EqGqM else SHLD_EqGqR)
  | S64, SHRD => Some (if mem then SHRD_EqGqM else SHRD_EqGqR)
  end.

(** ** Running a handler and its reference *)

(** Unification never computes with the operators. *)
#[local] Opaque Z.lor Z.shiftl Z.shiftr Z.lxor Z.land Z.pow rol ror triple wrap
  Z.div Z.modulo Z.testbit get_field put_field read8x write8x upd result_flags rot_flags
  lazy_flags SET_FLAGS_OSZAPC_LOGIC set_flags_OxxxxC.

Lemma bind_count {F A} b x (k : Z -> cpu F M A) s :
  bind (if b : bool then BX_READ_8BIT_REGL 1 else ret x) k s =
  k (if b then get_field 0 8 (gen_reg s 1) else x) s.
Proof. destruct b; reflexivity. Qed.

Lemma count_fits (b : bool) g i : fits 8 (if b then get_field 0 8 g else Ib i).
Proof. destruct b; [apply get_field_fits; lia | apply Ib_fits]. Qed.

Lemma wrap32_b2z b : wrap 32 (Z.b2z b) = Z.b2z b.
Proof. destruct b; reflexivity. Qed.

End Refinement.

Ltac sexec := exec_simpl; cbv iota;
  repeat ((rewrite bind_count || exec_rw); exec_simpl; cbv iota).

(** Literal arithmetic. *)
Ltac nums := repeat match goal with
  | |- context [?a - ?b] => Zcst a; Zcst b; let v := eval vm_compute in (a - b) in change (a - b) with v
  | |- context [?a + ?b] => Zcst a; Zcst b; let v := eval vm_compute in (a + b) in change (a + b) with v
  | |- context [?a * ?b] => Zcst a; Zcst b; let v := eval vm_compute in (a * b) in change (a * b) with v
  end.

Ltac nums_in T := repeat match type of T with
  | context [?a - ?b] => Zcst a; Zcst b; let v := eval vm_compute in (a - b) in change (a - b) with v in T
  | context [?a + ?b] => Zcst a; Zcst b; let v := eval vm_compute in (a + b) in change (a + b) with v in T
  | context [?a * ?b] => Zcst a; Zcst b; let v := eval vm_compute in (a * b) in change (a * b) with v in T
  end.

Ltac rw_lit L := let T := fresh in pose proof L as T; nums_in T; rewrite !T; clear T.

(** Names the count byte [k], with its range and that of the masked count. *)
Ltac name_count :=
  match goal with
  | |- context [if ?b then get_field 0 8 (?g 1) else Ib ?i] =>
      let k := fresh "k" in let Hk := fresh "Hk" in let Hc := fresh "Hc" in
      pose proof (count_fits b (g 1) i) as Hk;
      set (k := if b then get_field 0 8 (g 1) else Ib i) in *; clearbody k;
      rewrite ?(count_mod_8 k), ?(count_mod_16 k);
      match goal with
      | |- context [Z.land k 31] => pose proof (count_31 k) as Hc
      | |- context [Z.land k 63] => pose proof (count_63 k) as Hc
      end
  end.

Ltac unfold_shift := cbv [
  ROL_EbR ROL_EbM ROR_EbR ROR_EbM RCL_EbR RCL_EbM RCR_EbR RCR_EbM SHL_EbR SHL_EbM SHR_EbR
  SHR_EbM SAR_EbR SAR_EbM SHLD_EwGwM SHLD_EwGwR SHRD_EwGwM SHRD_EwGwR ROL_EwM ROL_EwR ROR_EwM
  ROR_EwR RCL_EwM RCL_EwR RCR_EwM RCR_EwR SHL_EwM SHL_EwR SHR_EwM SHR_EwR SAR_EwM SAR_EwR
  SHLD_EdGdM SHLD_EdGdR SHRD_EdGdM SHRD_EdGdR ROL_EdM ROL_EdR ROR_EdM ROR_EdR RCL_EdM RCL_EdR
  RCR_EdM RCR_EdR SHL_EdM SHL_EdR SHR_EdM SHR_EdR SAR_EdM SAR_EdR SHLD_EqGqM SHLD_EqGqR
  SHRD_EqGqM SHRD_EqGqR ROL_EqM ROL_EqR ROR_EqM ROR_EqR RCL_EqM RCL_EqR RCR_EqM RCR_EqR SHL_EqM
  SHL_EqR SHR_EqM SHR_EqR SAR_EqM SAR_EqR].

Ltac shift_start :=
  unfold_shift; cbn [bits shift_spec];
  unfold shift_spec, count_mask, is_double, cl_opcode; cbn [bits]; unfold_io;
  sexec; try (exec_access; sexec).

(** Bits instead of one-bit shifts and masks. *)
Ltac value_fits :=
  first [ apply rol_fits; [lia | fits_tac] | apply ror_fits; [lia | fits_tac] | fits_tac ].

Ltac bit_step_flags :=
  match goal with
  | |- context [getB_CF ?e] => rewrite (getB_CF_flags e)
  | |- context [Z.land (Z.shiftr ?x ?k) 1] => rewrite (shiftr_land_1 x k) by lia
  | |- context [Z.land ?x 1] => rewrite (land_1_b2z x)
  | |- context [Z.lxor (Z.b2z ?x) (Z.b2z ?y)] => rewrite (lxor_b2z x y)
  | |- context [wrap 32 (Z.b2z ?x)] => rewrite (wrap32_b2z x)
  | |- context [Z.shiftr ?r ?k] =>
      Zcst k; let n := eval vm_compute in (k + 1) in
      rw_lit (top_bit n ltac:(lia) r ltac:(value_fits))
  | |- context [Z.testbit (wrap ?n ?x) ?k] => Zcst k; rewrite (wrap_fit 64 n x k) by lia
  | |- context [Z.testbit (Z.lxor (Z.shiftl ?r 1) ?r) ?k] => rewrite (lxor_shift_bit r k) by lia
  end.

Ltac norm_flags := repeat (progress (repeat bit_step_flags; nums)).

Ltac syn_refl := match goal with |- ?x = ?y => constr_eq x y; reflexivity end.

(** Equality of two stored values. *)
Ltac val_eq :=
  first
  [ syn_refl
  | wrap_norm; first
    [ syn_refl
    | match goal with
      | E : ?w = 0 |- ?l = ?r =>
          first [ constr_eq r w; rewrite E; reflexivity | constr_eq l w; rewrite E; reflexivity ]
      end ] ].

Ltac shift_regs_eq :=
  first [ syn_refl |
  match goal with
  | |- write8x _ _ _ _ = write8x _ _ _ _ => apply write8x_ext; val_eq
  | |- upd ?g ?d (put_field 0 ?n ?v ?x) = upd _ _ (put_field _ _ ?w _) =>
      apply (f_equal (upd g d)), put_field_ext; val_eq
  | H : cpu_ok _ |- upd ?g ?d _ = upd _ _ (put_field 32 32 0 _) =>
      apply (f_equal (upd g d)); symmetry; apply put_field_clear; apply H
  | |- upd ?g ?d _ = upd _ _ _ => apply (f_equal (upd g d)); val_eq
  end ].

Ltac shift_mem_eq := first [ syn_refl | f_equal; val_eq ].

(** Literal zeros as flag arguments. *)
Ltac flag_zeros := repeat match goal with
  | |- context [set_flags_OxxxxC 0 ?y ?e] =>
      change (set_flags_OxxxxC 0 y e) with (set_flags_OxxxxC (Z.b2z false) y e)
  | |- context [set_flags_OxxxxC ?x 0 ?e] =>
      change (set_flags_OxxxxC x 0 e) with (set_flags_OxxxxC x (Z.b2z false) e)
  end.

Ltac shift_flags_eq_tac :=
  symmetry;
  match goal with
  | |- lazy_flags _ = lazy_flags _ => syn_refl
  | |- lazy_flags (set_flags_OxxxxC _ _ (SET_FLAGS_OSZAPC_LOGIC _ _)) = _ =>
      norm_flags; flag_zeros;
      apply shift_flags_eq; [osize_tac | val_eq | | ]
  | H : cpu_ok _ |- lazy_flags (set_flags_OxxxxC _ _ _) = _ =>
      norm_flags; apply rot_flags_eq; [apply H | | ]
  end.

Ltac shift_end :=
  split;
  [ apply Ok_abs; [shift_regs_eq | shift_flags_eq_tac | shift_mem_eq]
  | split; [regs_fit | cbn [oszapc]; try apply OxxxxC_ok; lf_ok_tac] ].

(** Handlers that test the masked count for zero. *)
Ltac name_masked n :=
  match goal with |- context [Z.land ?k ?m] => set (n := Z.land k m) in *; clearbody n end.

Ltac split_zero c :=
  name_masked c; destruct (Z.eqb_spec c 0); sexec; [shift_end |].

Ltac testbit_neg := repeat match goal with
  | |- context [Z.testbit ?a ?k] => rewrite (Z.testbit_neg_r a k) by lia
  end.

Ltac shift_shl n :=
  let c := fresh "c" in
  shift_start; name_count; unfold shift_result; split_zero c;
  try (match goal with |- context [c <=? n] => destruct (Z.leb_spec c n) end; sexec;
    [ | match goal with |- context [?a * 2 ^ c] => pose proof (shl_over n ltac:(lia) a c ltac:(lia)) end ]);
  rewrite ?Z.shiftl_mul_pow2 by lia; shift_end; rewrite ?mul_pow2_bit by lia;
  first [ syn_refl | testbit_neg; reflexivity ].

Ltac shift_shr :=
  let c := fresh "c" in
  shift_start; name_count; unfold shift_result; split_zero c;
  match goal with |- context [?a / 2 ^ c] => rewrite (Z.shiftr_div_pow2 a c) by lia end;
  shift_end; syn_refl.

Ltac shift_sar n :=
  let c := fresh "c" in
  shift_start; name_count; unfold shift_result; split_zero c;
  match goal with |- context [?a / 2 ^ c] => rewrite (Z.shiftr_div_pow2 a c) by lia end;
  shift_end;
  first [ syn_refl
        | rewrite signed_bit by lia; destruct (Z.ltb_spec (c - 1) n); [syn_refl | lia] ].

(** Rotates: the code and the reference reduce the count by the size. *)
Ltac rot_values n :=
  match goal with
  | |- context [rol n ?a ?c] => rw_lit (rol_code n ltac:(lia) a c ltac:(lia) ltac:(fits_tac))
  | |- context [ror n ?a ?c] => rw_lit (ror_code n ltac:(lia) a c ltac:(lia) ltac:(fits_tac))
  end.

Ltac rot_small n count_high :=
  let c := fresh "c" in let E := fresh "Ez" in let N := fresh "Nz" in
  shift_start; name_count; unfold shift_result;
  match goal with Hk : fits 8 ?k |- context [Z.land ?k 31] =>
    destruct (Z.eqb_spec (Z.land k 31 mod n) 0) as [E|N];
    [rewrite ?(count_high k Hk E) |]
  end;
  name_masked c;
  [ rewrite ?E; destruct (Z.eqb_spec c 0); sexec;
    [ shift_end
    | rewrite ?(rol_0 n), ?(ror_0 n) by fits_tac; shift_end; syn_refl ]
  | destruct (Z.eqb_spec c 0) as [->|]; [elim N; reflexivity|]; sexec;
    pose proof (Z.mod_pos_bound c n ltac:(lia));
    let r := fresh "r" in set (r := c mod n) in *; clearbody r;
    rot_values n; shift_end; syn_refl ].

Ltac rot_large n :=
  let c := fresh "c" in
  shift_start; name_count; unfold shift_result; name_masked c;
  rewrite ?(Z.mod_small c n) by lia;
  destruct (Z.eqb_spec c 0); sexec; [shift_end |];
  rot_values n; shift_end; syn_refl.

Ltac rc_values n :=
  rewrite ?getB_CF_flags; nums;
  match goal with
  | |- context [rol _ (2 ^ n * Z.b2z ?b + ?a) ?c] =>
      rw_lit (rcl_carry n ltac:(lia) a b c ltac:(lia) ltac:(fits_tac));
      repeat match goal with
      | |- context [if c =? ?k then _ else _] => let Ec := fresh in destruct (Z.eqb_spec c k) as [Ec|]; [rewrite ?Ec|]
      end;
      match goal with
      | |- context [wrap n (Z.lor (Z.lor _ _) _)] =>
          rw_lit (rcl_code n ltac:(lia) a b c ltac:(lia) ltac:(fits_tac))
      | |- context [wrap n (Z.lor (Z.shiftl a 1) _)] =>
          rw_lit (rcl_code_1 n a b ltac:(lia) ltac:(fits_tac))
      | |- _ => rw_lit (rcl_code_n n a b ltac:(lia) ltac:(fits_tac))
      end
  | |- context [ror _ (2 ^ n * Z.b2z ?b + ?a) ?c] =>
      rw_lit (rcr_carry n ltac:(lia) a b c ltac:(lia) ltac:(fits_tac));
      repeat match goal with
      | |- context [if c =? ?k then _ else _] => let Ec := fresh in destruct (Z.eqb_spec c k) as [Ec|]; [rewrite ?Ec|]
      end;
      match goal with
      | |- context [wrap n (Z.lor (Z.lor _ _) _)] =>
          rw_lit (rcr_code n ltac:(lia) a b c ltac:(lia) ltac:(fits_tac))
      | |- _ => rw_lit (rcr_code_1 n a b ltac:(lia) ltac:(fits_tac))
      end
  end.

Ltac rc_small n :=
  let c := fresh "c" in let E := fresh "Ez" in let N := fresh "Nz" in
  shift_start; name_count; unfold shift_result; name_masked c; nums;
  match goal with |- context [c mod ?m] =>
    destruct (Z.eqb_spec (c mod m) 0) as [E|N]; destruct (Z.eqb_spec c 0) as [Z0|NZ]; sexec;
    [ shift_end | shift_end | subst c; elim N; reflexivity |];
    pose proof (Z.mod_pos_bound c m ltac:(lia));
    let r := fresh "r" in set (r := c mod m) in *; clearbody r
  end;
  rc_values n; shift_end; syn_refl.

Ltac rc_large n :=
  let c := fresh "c" in
  shift_start; name_count; unfold shift_result; name_masked c; nums;
  match goal with |- context [c mod ?m] => rewrite ?(Z.mod_small c m) by lia end;
  destruct (Z.eqb_spec c 0); sexec; [shift_end |];
  rc_values n; shift_end; syn_refl.

Ltac shift_double n :=
  let c := fresh "c" in
  shift_start; name_count; unfold shift_result; split_zero c;
  match goal with
  | |- context [triple n ?a ?b * 2 ^ c] =>
      nums; rw_lit (shld_code n ltac:(lia) a b c ltac:(lia) ltac:(fits_tac) ltac:(fits_tac));
      rw_lit (shld_carry n ltac:(lia) a b c ltac:(lia) ltac:(fits_tac) ltac:(fits_tac))
  | |- context [triple n ?a ?b / 2 ^ c] =>
      nums; rw_lit (shrd_code n ltac:(lia) a b c ltac:(lia) ltac:(fits_tac) ltac:(fits_tac));
      rw_lit (shrd_carry n ltac:(lia) a b c ltac:(lia) ltac:(fits_tac) ltac:(fits_tac))
  end;
  shift_end; syn_refl.

Ltac shift_double_16 :=
  let c := fresh "c" in let E1 := fresh "Ev" in let E2 := fresh "Ec" in
  shift_start; name_count; unfold shift_result; split_zero c;
  match goal with
  | |- context [triple 16 ?a ?b * 2 ^ c] =>
      destruct (shld16_code a b c ltac:(lia) ltac:(fits_tac) ltac:(fits_tac)) as [E1 E2]
  | |- context [triple 16 ?a ?b / 2 ^ c] =>
      destruct (shrd16_code a b c ltac:(lia) ltac:(fits_tac) ltac:(fits_tac)) as [E1 E2]
  end;
  cbv zeta in E1, E2; nums_in E1; nums_in E2; nums; rewrite E1, ?E2; shift_end; syn_refl.

Section Handlers.
Context {M : Type} `{VirtualMemoryOk M}.

Lemma shift_refine8 op mem h i s : shift_handler S8 op mem = Some h -> cpu_ok s ->
  osim (h i s) (shift_spec S8 op mem (ia_opcode i =? cl_opcode S8 op) i (abs s)).
Proof.
  intros E Hs. destruct s as [g bs e m].
  destruct op; try discriminate E; injection E as <-;
    [ destruct mem; rot_small 8 count_high_8
    | destruct mem; rot_small 8 count_high_8
    | destruct mem; rc_small 8
    | destruct mem; rc_small 8
    | destruct mem; shift_shl 8
    | destruct mem; shift_shr
    | destruct mem; shift_sar 8 ].
Qed.

Lemma shift_refine16 op mem h i s : shift_handler S16 op mem = Some h -> cpu_ok s ->
  osim (h i s) (shift_spec S16 op mem (ia_opcode i =? cl_opcode S16 op) i (abs s)).
Proof.
  intros E Hs. destruct s as [g bs e m].
  destruct op; injection E as <-;
    [ destruct mem; rot_small 16 count_high_16
    | destruct mem; rot_small 16 count_high_16
    | destruct mem; rc_small 16
    | destruct mem; rc_small 16
    | destruct mem; shift_shl 16
    | destruct mem; shift_shr
    | destruct mem; shift_sar 16
    | destruct mem; shift_double_16
    | destruct mem; shift_double_16 ].
Qed.

Lemma shift_refine32 op mem h i s : shift_handler S32 op mem = Some h -> cpu_ok s ->
  osim (h i s) (shift_spec S32 op mem (ia_opcode i =? cl_opcode S32 op) i (abs s)).
Proof.
  intros E Hs. destruct s as [g bs e m].
  destruct op; injection E as <-;
    [ destruct mem; rot_large 32
    | destruct mem; rot_large 32
    | destruct mem; rc_large 32
    | destruct mem; rc_large 32
    | destruct mem; shift_shl 32
    | destruct mem; shift_shr
    | destruct mem; shift_sar 32
    | destruct mem; shift_double 32
    | destruct mem; shift_double 32 ].
Qed.

Lemma shift_refine64 op mem h i s : shift_handler S64 op mem = Some h -> cpu_ok s ->
  osim (h i s) (shift_spec S64 op mem (ia_opcode i =? cl_opcode S64 op) i (abs s)).
Proof.
  intros E Hs. destruct s as [g bs e m].
  destruct op; injection E as <-;
    [ destruct mem; rot_large 64
    | destruct mem; rot_large 64
    | destruct mem; rc_large 64
    | destruct mem; rc_large 64
    | destruct mem; shift_shl 64
    | destruct mem; shift_shr
    | destruct mem; shift_sar 64
    | destruct mem; shift_double 64
    | destruct mem; shift_double 64 ].
Qed.

Lemma shift_handler_refines sz op mem h i s :
  shift_handler sz op mem = Some h -> cpu_ok s ->
  osim (h i s) (shift_spec sz op mem (ia_opcode i =? cl_opcode sz op) i (abs s)).
Proof.
  destruct sz; [apply shift_refine8 | apply shift_refine16 | apply shift_refine32 | apply shift_refine64].
Qed.

(** C30: every shift and rotate handler, register and memory form, CL and immediate
    count, computes the reference result and flags: the masked count 0 changes
    nothing but the zero extension of a 32-bit register, rotates through carry
    turn the operand and CF as one number, and double shifts shift the string
    destination:source:destination. *)
Theorem shift_handlers_refine sz op mem h i s :
  shift_handler sz op mem = Some h -> cpu_ok s ->
  osim (h i s) (shift_spec sz op mem (ia_opcode i =? cl_opcode sz op) i (abs s)).
Proof. apply shift_handler_refines. Qed.

End Handlers.

(** ** Rotations undo each other; concrete runs of the shift handlers *)

(** ** Register operands *)

(** The value of the register operand of the size of the instruction. *)
Definition operand (sz : opsize) (i : bxInstruction_c) (g : Z -> Z) : Z :=
  match sz with
  | S8 => read8x (dst i) (extend8bitL i) g
  | S16 => get_field 0 16 (g (dst i))
  | S32 => get_field 0 32 (g (dst i))
  | S64 => g (dst i)
  end.

Lemma get_put_field pos n v x :
  0 <= pos -> 0 <= n -> get_field pos n (put_field pos n v x) = wrap n v.
Proof.
  intros Hp Hn. unfold get_field. apply wrap_bits_eq; [lia|]. intros i Hi.
  rewrite Z.shiftr_spec, put_field_bit by lia.
  destruct (Z.leb_spec pos (i + pos)), (Z.ltb_spec (i + pos) (pos + n)); try lia.
  cbn [andb]. f_equal. lia.
Qed.

Lemma read8x_write8x r x v g : read8x r x (write8x r x v g) = wrap 8 v.
Proof.
  unfold read8x, write8x. destruct (_ || _); rewrite upd_same; apply get_put_field; lia.
Qed.

Lemma get_field_wrap n m x : 0 <= n <= m -> get_field 0 n (wrap m x) = wrap n x.
Proof. intros. unfold get_field. rewrite Z.shiftr_0_r. apply wrap_wrap_le. lia. Qed.

Section Rotate.
Context {M : Type} `{VirtualMemoryOk M}.

Lemma operand_fits sz i g : (forall r, fits 64 (g r)) -> fits (bits sz) (operand sz i g).
Proof.
  intros Hg. destruct sz; cbn [bits operand];
    [apply read8x_fits | apply get_field_fits; lia | apply get_field_fits; lia | apply Hg].
Qed.

Lemma run_read_reg sz i (k : Z -> cpu flags M unit) s :
  bind (read_reg sz i (dst i)) k s = k (operand sz i (gen_reg s)) s.
Proof. destruct sz; [apply bind_R8x | apply bind_R16 | apply bind_R32 | apply bind_R64]. Qed.

(** Writing the operand and reading it back. *)
Lemma run_write_reg sz i v (k : unit -> cpu flags M unit) s :
  exists g, bind (write_reg sz i (dst i) v) k s = k tt (s <| gen_reg := g |>) /\
            operand sz i g = wrap (bits sz) v.
Proof.
  destruct sz; cbn [write_reg bits operand].
  - exists (write8x (dst i) (extend8bitL i) v (gen_reg s)). split; [apply bind_W8x|].
    apply read8x_write8x.
  - eexists. split; [apply bind_W16|]. rewrite upd_same. apply get_put_field; lia.
  - eexists. split; [apply bind_W32Z|]. rewrite upd_same. apply get_field_wrap. lia.
  - eexists. split; [apply bind_W64|]. apply upd_same.
Qed.

Definition is_rotate (op : shift_op) (f : Z -> Z -> Z -> Z) : Prop :=
  (op = ROL /\ f = rol) \/ (op = ROR /\ f = ror).

Lemma rot_fits op f n a c :
  is_rotate op f -> 0 <= c <= n -> fits n a -> fits n (f n a c).
Proof. intros [[_ ->]|[_ ->]]; [apply rol_fits | apply ror_fits]. Qed.

Lemma rot_result op f n a b c fl :
  is_rotate op f -> 8 <= n -> fits n a ->
  match fst (shift_result n op a b c fl) with Some r => r | None => a end = f n a (c mod n).
Proof.
  intros Hop Hn Ha.
  assert (Z0 : f n a 0 = a) by (destruct Hop as [[_ ->]|[_ ->]]; [apply rol_0 | apply ror_0]; assumption).
  unfold shift_result. destruct (Z.eqb_spec c 0) as [->|N].
  - rewrite Z.mod_0_l by lia. exact (eq_sym Z0).
  - destruct Hop as [[-> ->]|[-> ->]]; cbn [fst];
      destruct (Z.eqb_spec (c mod n) 0) as [E|]; rewrite ?E; auto.
Qed.

(** The register form of ROL and ROR with an immediate count. *)
Lemma rot_spec_run sz op f i (s : bx_cpu flags M) :
  is_rotate op f -> (forall r, fits 64 (gen_reg s r)) ->
  exists s', shift_spec sz op false false i s = Ok tt s' /\
    operand sz i (gen_reg s') =
    f (bits sz) (operand sz i (gen_reg s)) (Z.land (Ib i) (count_mask sz) mod bits sz).
Proof.
  intros Hop Hg. unfold shift_spec. rewrite bind_ret, run_read_reg.
  assert (D : is_double op = false) by (destruct Hop as [[-> _]|[-> _]]; reflexivity).
  rewrite D, bind_ret, bind_get_flags.
  set (a := operand sz i (gen_reg s)). set (c := Z.land (Ib i) (count_mask sz)).
  assert (Ha : fits (bits sz) a) by (apply operand_fits; exact Hg).
  assert (Hn : 8 <= bits sz) by (destruct sz; cbn; lia).
  pose proof (rot_result op f (bits sz) a 0 c (oszapc s) Hop Hn Ha) as R.
  pose proof (Z.mod_pos_bound c (bits sz) ltac:(lia)) as Hc.
  pose proof (rot_fits op f (bits sz) a (c mod bits sz) Hop ltac:(lia) Ha) as F.
  destruct (shift_result (bits sz) op a 0 c (oszapc s)) as [[r|] fl]; cbn [fst] in R.
  - destruct (run_write_reg sz i r (fun _ => set_flags fl) s) as (g & E & V).
    eexists. split; [rewrite E; reflexivity|]. cbn [gen_reg set_field].
    rewrite V, R. apply wrap_id. exact F.
  - rewrite <- R. destruct sz.
    1, 2, 4: eexists; split; [rewrite bind_ret; reflexivity | reflexivity].
    destruct (run_write_reg S32 i a (fun _ => set_flags fl) s) as (g & E & V).
    eexists. split; [rewrite E; reflexivity|]. cbn [gen_reg set_field].
    rewrite V. apply wrap_id. exact Ha.
Qed.

Lemma rol_ror n a c : 0 <= c < n -> fits n a -> ror n (rol n a c) c = a.
Proof.
  intros Hc Ha. pose proof (rol_fits n a c ltac:(lia) Ha) as F.
  rewrite <- (wrap_id n (ror n (rol n a c) c)) by (apply ror_fits; (lia || assumption)).
  rewrite <- (wrap_id n a Ha) at 2.
  apply wrap_bits_eq; [lia|]. intros i Hi.
  rewrite ror_bit by (lia || assumption).
  destruct (Z.ltb_spec i (n - c)); rewrite rol_bit by (lia || assumption); bits_solve.
Qed.

(** ROR undoes ROL: after both, with the same immediate count, the register
    operand holds what it held, at every operand size and for every count. *)
Theorem rotate_roundtrip sz left right i j s :
  shift_handler sz ROL false = Some left -> shift_handler sz ROR false = Some right ->
  ia_opcode i <> cl_opcode sz ROL -> ia_opcode j <> cl_opcode sz ROR ->
  dst j = dst i -> metaInfo1 j = metaInfo1 i -> Id j = Id i -> cpu_ok s ->
  exists s1 s2, left i s = Ok tt s1 /\ right j s1 = Ok tt s2 /\
    operand sz i (gen_reg s2) = operand sz i (gen_reg s).
Proof.
  intros Hl Hr Oi Oj Hd Hm HI Hs. apply Z.eqb_neq in Oi, Oj.
  pose proof (shift_handler_refines sz ROL false left i s Hl Hs) as R1. rewrite Oi in R1.
  destruct (rot_spec_run sz ROL rol i (abs s) (or_introl (conj eq_refl eq_refl)) (proj1 Hs))
    as (t1 & E1 & V1).
  rewrite E1 in R1. destruct (left i s) as [[] s1|e s1] eqn:L1; destruct R1 as [A1 Hs1]; [|discriminate].
  injection A1 as ->.
  pose proof (shift_handler_refines sz ROR false right j s1 Hr Hs1) as R2. rewrite Oj in R2.
  destruct (rot_spec_run sz ROR ror j (abs s1) (or_intror (conj eq_refl eq_refl)) (proj1 Hs1))
    as (t2 & E2 & V2).
  rewrite E2 in R2. destruct (right j s1) as [[] s2|e s2] eqn:L2; destruct R2 as [A2 Hs2]; [|discriminate].
  injection A2 as ->.
  exists s1, s2. split; [reflexivity|]. split; [exact L2|].
  assert (O : forall g, operand sz j g = operand sz i g).
  { intros g. unfold operand, extend8bitL. rewrite Hd, Hm. reflexivity. }
  assert (I : Ib j = Ib i) by (unfold Ib; rewrite HI; reflexivity).
  rewrite !O, I in V2. cbn [abs gen_reg] in V1, V2. rewrite V2, V1.
  apply rol_ror.
  - apply Z.mod_pos_bound. destruct sz; cbn; lia.
  - apply operand_fits. exact (proj1 Hs).
Qed.

End Rotate.

(** ** Concrete runs *)

(** AH and an immediate count of 3; the same with the opcode of ROR. *)
Definition rol_ah : bxInstruction_c := Instr 0 0 4 0 0 0 0 0 0 3 0.
Definition rotate_start : bx_cpu bx_lazyflags_entry flat :=
  Cpu (fun r => (0x123456789ABCDEF0 + r) mod 2 ^ 64) (fun _ => 0) (LazyFlags 1 0xC0000000)
      (Flat (fun _ => 0) 0).

Lemma rotate_start_ok : cpu_ok rotate_start.
Proof.
  split; [intros r; apply Z.mod_pos_bound; lia|].
  cbn. unfold lf_ok, fits. cbn. lia.
Qed.

Lemma shift_handlers_refine_witness :
  osim (ROL_EbR rol_ah rotate_start) (shift_spec S8 ROL false false rol_ah (abs rotate_start)) /\
  match ROL_EbR rol_ah rotate_start with
  | Ok _ s => operand S8 rol_ah (gen_reg s) = 0xF6
  | Fault _ _ => False
  end.
Proof.
  split.
  - apply (shift_handlers_refine S8 ROL false ROL_EbR rol_ah rotate_start);
      [reflexivity | apply rotate_start_ok].
  - vm_compute. reflexivity.
Defined.

Lemma rotate_roundtrip_witness :
  operand S8 rol_ah (gen_reg rotate_start) = 0xDE /\
  exists s1 s2, ROL_EbR rol_ah rotate_start = Ok tt s1 /\ ROR_EbR rol_ah s1 = Ok tt s2 /\
    operand S8 rol_ah (gen_reg s2) = 0xDE.
Proof.
  split; [vm_compute; reflexivity|].
  destruct (rotate_roundtrip S8 ROL_EbR ROR_EbR rol_ah rol_ah rotate_start)
    as (s1 & s2 & E1 & E2 & V); try reflexivity; try discriminate; try apply rotate_start_ok.
  exists s1, s2. split; [exact E1|]. split; [exact E2|].
  rewrite V. vm_compute. reflexivity.
Defined.
