(* ===== verification/WideInt.v ===== *)
(** * 128-bit multiplication and division (cpu/wide_int.cc)

    [Bit128u] and [Bit128s] are pairs of 64-bit words; both are modelled by the
    words themselves, the sign of a [Bit128s] being that of its high word.  The
    shift-and-subtract division is proved to compute the quotient and the
    remainder of every division whose quotient fits 64 bits, and to leave a
    quotient with a non-zero high word otherwise. *)

From Stdlib Require Import ZArith Lia List Bool.
From S2P Require Import Prelude.
Import ListNotations.
Open Scope Z_scope.

Record Bit128 := B128 { lo : Z; hi : Z }.

#[export] Instance eta_Bit128 : Eta Bit128 := fun x => B128 (lo x) (hi x).

(** ** Multiplication *)

(** [partial_add(&result[k], b)]: the array and the carry. *)
Definition partial_add (result : Z -> Z) (k b : Z) : (Z -> Z) * Z :=
  let t := result k in
  let sum := u32 (t + b) in
  (upd result k sum, Z.b2z (sum <? t)).

(** [while (k < 4 && c != 0)]; [fuel] bounds the iterations, [k] only grows. *)
Fixpoint carry_loop (fuel : nat) (result : Z -> Z) (k c : Z) : Z -> Z :=
  match fuel with
  | O => result
  | S fuel =>
      if (k <? 4) && negb (c =? 0) then
        let '(result, c) := partial_add result k c in carry_loop fuel result (k + 1) c
      else result
  end.

(** The body of the two nested loops. *)
Definition mul_body (op_1 op_2 : Z -> Z) (result : Z -> Z) (ij : Z * Z) : Z -> Z :=
  let '(i, j) := ij in
  let nn := u64 (op_1 i * op_2 j) in
  let k := i + j in
  let '(result, c) := partial_add result k (u32 (Z.land nn 0xffffffff)) in
  let k := k + 1 in
  let '(result, c) := partial_add result k (u32 (u32 (Z.shiftr nn 32) + c)) in
  let k := k + 1 in
  carry_loop 4 result k c.

Definition halves (op : Z) (i : Z) : Z :=
  if i =? 0 then u32 (Z.land op 0xffffffff) else u32 (Z.shiftr op 32).

Definition long_mul (op1 op2 : Z) : Bit128 :=
  let op_1 := halves op1 in
  let op_2 := halves op2 in
  let result := fold_left (mul_body op_1 op_2) [(0, 0); (0, 1); (1, 0); (1, 1)] (fun _ => 0) in
  {| lo := u64 (result 0 + u64 (Z.shiftl (result 1) 32));
     hi := u64 (result 2 + u64 (Z.shiftl (result 3) 32)) |}.

Definition long_neg (n : Bit128) : Bit128 :=
  let t := lo n in
  let n := n <| lo := u64 (- lo n) |> in
  let n := if u64 (t - 1) >? t then n <| hi := u64 (hi n - 1) |> else n in
  n <| hi := u64 (Z.lnot (hi n)) |>.

(** [op1 = -op1] on a signed 64-bit variable: the most negative value wraps to
    itself, as the compilers the code is built with do (C leaves it undefined). *)
Definition long_imul (op1 op2 : Z) : Bit128 :=
  let s1 := signed 64 op1 <? 0 in
  let op1 := if s1 then u64 (- op1) else op1 in
  let s2 := signed 64 op2 <? 0 in
  let op2 := if s2 then u64 (- op2) else op2 in
  let product := long_mul op1 op2 in
  if xorb s1 s2 then long_neg product else product.

(** ** Division *)

Definition long_shl (a : Bit128) : Bit128 :=
  let c := Z.shiftr (lo a) 63 in
  {| lo := u64 (Z.shiftl (lo a) 1); hi := Z.lor (u64 (Z.shiftl (hi a) 1)) c |}.

Definition long_shr (a : Bit128) : Bit128 :=
  let c := u64 (Z.shiftl (hi a) 63) in
  {| lo := Z.lor (Z.shiftr (lo a) 1) c; hi := Z.shiftr (hi a) 1 |}.

(** The difference and the borrow. *)
Definition long_sub (a b : Bit128) : Bit128 * bool :=
  let t := lo a in
  let alo := u64 (lo a - lo b) in
  let c := Z.b2z (alo >? t) in
  let t := hi a in
  let ahi := u64 (hi a - u64 (hi b + c)) in
  ({| lo := alo; hi := ahi |}, ahi >? t).

Definition long_le (a b : Bit128) : bool :=
  if hi a =? hi b then lo a <=? lo b else hi a <=? hi b.

(** [while (long_le(&d,&acc) && n < 128)]: [n] bounds the iterations. *)
Fixpoint long_div_up (fuel : nat) (acc d : Bit128) (n : nat) : Bit128 * nat :=
  match fuel with
  | O => (d, n)
  | S fuel =>
      if long_le d acc && (Z.of_nat n <? 128)
      then long_div_up fuel acc (long_shl d) (S n)
      else (d, n)
  end.

(** [while (n > 0)]: the quotient and the accumulator. *)
Fixpoint long_div_down (n : nat) (d acc q : Bit128) : Bit128 * Bit128 :=
  match n with
  | O => (q, acc)
  | S n =>
      let d := long_shr d in
      let q := long_shl q in
      let '(acc', c) := long_sub acc d in
      if c then long_div_down n d acc q
      else long_div_down n d acc' (q <| lo := u64 (lo q + 1) |>)
  end.

(** The quotient and the remainder. *)
Definition long_div (dividend : Bit128) (divisor : Z) : Bit128 * Z :=
  let '(d, n) := long_div_up 129 dividend (B128 divisor 0) 0 in
  let '(q, acc) := long_div_down n d dividend (B128 0 0) in
  (q, lo acc).

Definition long_idiv (dividend : Bit128) (divisor : Z) : Bit128 * Z :=
  let s1 := signed 64 (hi dividend) <? 0 in
  let temp := if s1 then long_neg dividend else dividend in
  let s2 := signed 64 divisor <? 0 in
  let divisor := if s2 then u64 (- divisor) else divisor in
  let '(quotient, remainder) := long_div temp divisor in
  let quotient := if xorb s1 s2 then long_neg quotient else quotient in
  let remainder := if s1 then u64 (- remainder) else remainder in
  (quotient, remainder).

(** ** Values *)

Definition val (x : Bit128) : Z := lo x + 2 ^ 64 * hi x.
Definition ok128 (x : Bit128) : Prop := fits 64 (lo x) /\ fits 64 (hi x).

Lemma val_fits x : ok128 x -> fits 128 (val x).
Proof.
  intros [Hl Hh]. unfold val, fits in *. change (2 ^ 128) with (2 ^ 64 * 2 ^ 64). lia.
Qed.

Lemma B128_ok l h : fits 64 l -> fits 64 h -> ok128 (B128 l h).
Proof. split; assumption. Qed.

(** A value determines its words. *)
Lemma val_inj_lo x : ok128 x -> lo x = val x mod 2 ^ 64.
Proof.
  intros [Hl _]. unfold val. rewrite (Z.mul_comm (2 ^ 64)), Z.mod_add by lia.
  symmetry. apply Z.mod_small. exact Hl.
Qed.

Lemma val_inj_hi x : ok128 x -> hi x = val x / 2 ^ 64.
Proof.
  intros [Hl _]. unfold val. rewrite (Z.mul_comm (2 ^ 64)), Z.div_add by lia.
  rewrite Z.div_small by exact Hl. reflexivity.
Qed.

(** Splitting a sum or difference at the word size. *)
Lemma word_cases x : - 2 ^ 64 <= x < 2 * 2 ^ 64 ->
  (x < 0 /\ u64 x = x + 2 ^ 64) \/ (0 <= x < 2 ^ 64 /\ u64 x = x) \/
  (2 ^ 64 <= x /\ u64 x = x - 2 ^ 64).
Proof.
  intros H. unfold wrap. destruct (Z.lt_ge_cases x 0) as [A|A]; [|destruct (Z.lt_ge_cases x (2 ^ 64)) as [B|B]].
  - left. split; [lia|]. symmetry. apply Z.mod_unique with (-1); lia.
  - right. left. split; [lia|]. apply Z.mod_small. lia.
  - right. right. split; [lia|]. symmetry. apply Z.mod_unique with 1; lia.
Qed.

Lemma shl_ok a : ok128 a -> ok128 (long_shl a) /\ val (long_shl a) = (2 * val a) mod 2 ^ 128.
Proof.
  intros [Hl Hh]. unfold long_shl, val. cbn [lo hi].
  rewrite !Z.shiftl_mul_pow2, Z.shiftr_div_pow2 by lia. change (2 ^ 1) with 2.
  set (c := lo a / 2 ^ 63).
  assert (Hc : 0 <= c <= 1 /\ lo a = 2 ^ 63 * c + lo a mod 2 ^ 63).
  { pose proof (Z.div_mod (lo a) (2 ^ 63) ltac:(lia)) as D. fold c in D.
    pose proof (Z.mod_pos_bound (lo a) (2 ^ 63) ltac:(lia)). unfold fits in Hl.
    split; [|lia]. change (2 ^ 64) with (2 * 2 ^ 63) in Hl. nia. }
  destruct Hc as [Hc El].
  assert (Eo : Z.lor (u64 (hi a * 2)) c = u64 (hi a * 2) + c).
  { rewrite <- (Z.mul_1_l (u64 (hi a * 2))). unfold wrap.
    replace ((hi a * 2) mod 2 ^ 64) with (Z.shiftl (hi a mod 2 ^ 63) 1).
    - rewrite Z.mul_1_l, lor_shiftl_add by (unfold fits; lia).
      rewrite Z.shiftl_mul_pow2 by lia. lia.
    - rewrite Z.shiftl_mul_pow2 by lia. change (2 ^ 64) with (2 ^ 63 * 2).
      rewrite Z.mul_mod_distr_r by lia. reflexivity. }
  rewrite Eo. unfold fits in *.
  pose proof (Z.mod_pos_bound (lo a) (2 ^ 63) ltac:(lia)) as Hm.
  assert (El2 : u64 (lo a * 2) = 2 * (lo a mod 2 ^ 63)).
  { unfold wrap. symmetry. apply Z.mod_unique with c; lia. }
  set (ch := hi a / 2 ^ 63).
  assert (Hch : 0 <= ch <= 1 /\ hi a = 2 ^ 63 * ch + hi a mod 2 ^ 63).
  { pose proof (Z.div_mod (hi a) (2 ^ 63) ltac:(lia)) as D. fold ch in D.
    pose proof (Z.mod_pos_bound (hi a) (2 ^ 63) ltac:(lia)).
    split; [|lia]. change (2 ^ 64) with (2 * 2 ^ 63) in Hh. nia. }
  destruct Hch as [Hch Eh].
  pose proof (Z.mod_pos_bound (hi a) (2 ^ 63) ltac:(lia)) as Hn.
  assert (Eh2 : u64 (hi a * 2) = 2 * (hi a mod 2 ^ 63)).
  { unfold wrap. symmetry. apply Z.mod_unique with ch; lia. }
  rewrite El2, Eh2. split.
  - split; unfold fits; cbn [lo hi]; lia.
  - apply Z.mod_unique with ch; [left; lia | lia].
Qed.

Lemma shr_ok a : ok128 a -> ok128 (long_shr a) /\ val (long_shr a) = val a / 2.
Proof.
  intros [Hl Hh]. unfold long_shr, val. cbn [lo hi].
  rewrite Z.shiftl_mul_pow2, !Z.shiftr_div_pow2 by lia. change (2 ^ 1) with 2.
  pose proof (Z.div_mod (hi a) 2 ltac:(lia)) as E. pose proof (Z.mod_pos_bound (hi a) 2 ltac:(lia)).
  pose proof (Z.div_mod (lo a) 2 ltac:(lia)) as F. pose proof (Z.mod_pos_bound (lo a) 2 ltac:(lia)).
  unfold fits in *.
  assert (Ec : u64 (hi a * 2 ^ 63) = Z.shiftl (hi a mod 2) 63).
  { rewrite Z.shiftl_mul_pow2 by lia. unfold wrap. symmetry.
    apply Z.mod_unique with (hi a / 2); lia. }
  rewrite Ec, Z.lor_comm, lor_shiftl_add by (unfold fits; lia). split.
  - split; unfold fits; cbn [lo hi]; lia.
  - apply Z.div_unique with (lo a mod 2); lia.
Qed.

(** The borrow is exact unless the high word of the subtrahend is all ones. *)
Lemma sub_ok a b : ok128 a -> ok128 b -> hi b < 2 ^ 64 - 1 ->
  let (r, c) := long_sub a b in
  c = (val a <? val b) /\ ok128 r /\ (c = false -> val r = val a - val b).
Proof.
  intros [Al Ah] [Bl Bh] Hb. unfold long_sub, val. unfold fits in *.
  rewrite !Z.gtb_ltb.
  assert (E : exists c, Z.b2z (lo a <? u64 (lo a - lo b)) = c /\ 0 <= c <= 1 /\
              u64 (lo a - lo b) = lo a - lo b + 2 ^ 64 * c).
  { destruct (word_cases (lo a - lo b)) as [[A ->]|[[A ->]|[A A']]]; [lia| | |lia];
      [exists 1 | exists 0].
    - destruct (Z.ltb_spec (lo a) (lo a - lo b + 2 ^ 64)); cbn [Z.b2z]; lia.
    - destruct (Z.ltb_spec (lo a) (lo a - lo b)); cbn [Z.b2z]; lia. }
  destruct E as (c & Ec & Hc & El). rewrite Ec.
  rewrite (wrap_id 64 (hi b + c)) by (unfold fits; lia).
  pose proof (wrap_fits 64 (lo a - lo b) ltac:(lia)) as Fl.
  destruct (word_cases (hi a - (hi b + c))) as [[B B']|[[B B']|[B B']]]; [lia| | |lia];
    rewrite B'; match goal with |- context [?x <? ?y] => destruct (Z.ltb_spec x y) end; try lia.
  - split; [symmetry; apply Z.ltb_lt; unfold fits in *; lia|]. split; [|discriminate].
    split; unfold fits in *; cbn [lo hi]; lia.
  - split; [symmetry; apply Z.ltb_ge; unfold fits in *; lia|].
    split; [split; unfold fits in *; cbn [lo hi]; lia|].
    intros _. cbn [lo hi]. lia.
Qed.

Lemma le_ok a b : ok128 a -> ok128 b -> long_le a b = (val a <=? val b).
Proof.
  intros [Al Ah] [Bl Bh]. unfold long_le, val. unfold fits in *.
  destruct (Z.eqb_spec (hi a) (hi b)) as [E|N].
  - rewrite E. destruct (Z.leb_spec (lo a) (lo b)), (Z.leb_spec (lo a + 2 ^ 64 * hi b) (lo b + 2 ^ 64 * hi b));
      lia || reflexivity.
  - destruct (Z.leb_spec (hi a) (hi b)), (Z.leb_spec (lo a + 2 ^ 64 * hi a) (lo b + 2 ^ 64 * hi b));
      lia || reflexivity.
Qed.

(** The bound matters: [b.hi + c] wraps, and a difference that is negative is
    reported without a borrow.  [long_div] never subtracts such a number. *)
Lemma long_sub_borrow_lost :
  let a := B128 0 5 in let b := B128 1 0xffffffffffffffff in
  val a < val b /\ snd (long_sub a b) = false.
Proof. split; [vm_compute; reflexivity | reflexivity]. Qed.

(** ** The division *)

(** What the normalisation loop ends with: the divisor scaled just above the
    dividend, or, after the scaled divisor overflowed 128 bits, more than 64
    steps. *)
Definition scaled (v acc : Z) (d : Bit128) (n : nat) : Prop :=
  ok128 d /\
  ((val d = v * 2 ^ Z.of_nat n /\ acc < v * 2 ^ Z.of_nat n /\ (n <= 128)%nat) \/
   ((65 <= n <= 128)%nat /\ 2 ^ 127 <= acc /\ v * 2 ^ 64 <= acc)).

Lemma up_overflowed v acc fuel : forall d n,
  ok128 acc -> ok128 d -> (65 <= n <= 128)%nat -> 2 ^ 127 <= val acc -> v * 2 ^ 64 <= val acc ->
  let (d', n') := long_div_up fuel acc d n in scaled v (val acc) d' n'.
Proof.
  induction fuel as [|fuel IH]; intros d n Ha Hd Hn Hacc Hv; cbn [long_div_up].
  - split; [exact Hd | right; auto].
  - destruct (long_le d acc && (Z.of_nat n <? 128)) eqn:E.
    + bool_hyps. apply IH; auto; [apply shl_ok, Hd | lia].
    + split; [exact Hd | right; auto].
Qed.

Lemma up_ok v acc fuel : forall d n,
  ok128 acc -> ok128 d -> 0 < v < 2 ^ 64 -> val d = v * 2 ^ Z.of_nat n ->
  (n <= 127)%nat -> (128 < n + fuel)%nat ->
  let (d', n') := long_div_up fuel acc d n in scaled v (val acc) d' n'.
Proof.
  induction fuel as [|fuel IH]; intros d n Ha Hd Hv Ed Hn Hf; cbn [long_div_up]; [lia|].
  rewrite le_ok by assumption. destruct (Z.leb_spec (val d) (val acc)) as [L|L]; cbn [andb].
  2: { split; [exact Hd|]. left. repeat split; lia. }
  destruct (Z.ltb_spec (Z.of_nat n) 128) as [C|C]; [|lia].
  destruct (shl_ok d Hd) as [Hs Es]. pose proof (val_fits d Hd) as Fd.
  assert (P : 2 ^ Z.of_nat (S n) = 2 * 2 ^ Z.of_nat n).
  { rewrite Nat2Z.inj_succ, Z.pow_succ_r by lia. reflexivity. }
  destruct (Z.lt_ge_cases (2 * val d) (2 ^ 128)) as [S|S].
  - assert (Es' : val (long_shl d) = v * 2 ^ Z.of_nat (Datatypes.S n)).
    { rewrite Es, Z.mod_small by (unfold fits in Fd; lia). rewrite P, Ed. lia. }
    assert (N : (n <= 126)%nat).
    { destruct (Nat.le_gt_cases n 126) as [|G]; [assumption|].
      assert (n = 127)%nat by lia. subst n. exfalso. rewrite Ed in S.
      change (Z.of_nat 127) with 127 in S. change (2 ^ 128) with (2 * 2 ^ 127) in S. nia. }
    apply IH; auto; lia.
  - change (2 ^ 128) with (2 * 2 ^ 127) in S.
    assert (N : (64 <= n)%nat).
    { destruct (Nat.le_gt_cases 64 n) as [|G]; [assumption|]. exfalso.
      assert (2 ^ Z.of_nat n <= 2 ^ 63) by (apply Z.pow_le_mono_r; lia). rewrite Ed in S.
      change (2 ^ 127) with (2 ^ 64 * 2 ^ 63) in S. nia. }
    apply up_overflowed; auto; try lia.
    apply Z.le_trans with (val d); [|exact L]. rewrite Ed.
    apply Z.mul_le_mono_nonneg_l; [lia|]. apply Z.pow_le_mono_r; lia.
Qed.

(** One step of the subtraction loop. *)
Lemma down_step n d acc q :
  ok128 d -> ok128 acc -> ok128 q -> val q < 2 ^ 127 ->
  exists d' acc' q',
    long_div_down (S n) d acc q = long_div_down n d' acc' q' /\
    ok128 d' /\ ok128 acc' /\ ok128 q' /\ val d' = val d / 2 /\
    val acc' = (if val acc <? val d / 2 then val acc else val acc - val d / 2) /\
    val q' = 2 * val q + (if val acc <? val d / 2 then 0 else 1).
Proof.
  intros Hd Ha Hq Lq. cbn [long_div_down].
  destruct (shr_ok d Hd) as [Hd' Ed]. destruct (shl_ok q Hq) as [Hq' Eq].
  pose proof (val_fits q Hq) as Fq. unfold fits in Fq.
  rewrite Z.mod_small in Eq by (change (2 ^ 128) with (2 * 2 ^ 127); lia).
  assert (Hh : hi (long_shr d) < 2 ^ 64 - 1).
  { unfold long_shr. cbn [hi]. rewrite Z.shiftr_div_pow2 by lia. change (2 ^ 1) with 2.
    destruct Hd as [_ Fh]. unfold fits in Fh.
    apply Z.lt_le_trans with (2 ^ 63); [|lia]. apply Z.div_lt_upper_bound; lia. }
  pose proof (sub_ok acc (long_shr d) Ha Hd' Hh) as S.
  destruct (long_sub acc (long_shr d)) as [r c]. destruct S as (Ec & Hr & Er).
  rewrite Ed in Ec, Er. rewrite <- Ec. destruct c.
  - exists (long_shr d), acc, (long_shl q). repeat split; try apply Hd'; try apply Ha; try apply Hq'; lia.
  - assert (El : lo (long_shl q) + 1 < 2 ^ 64).
    { unfold long_shl. cbn [lo]. rewrite Z.shiftl_mul_pow2 by lia. change (2 ^ 1) with 2.
      unfold wrap. change (2 ^ 64) with (2 ^ 63 * 2) at 1. rewrite Z.mul_mod_distr_r by lia.
      pose proof (Z.mod_pos_bound (lo q) (2 ^ 63) ltac:(lia)). lia. }
    exists (long_shr d), r, ((long_shl q) <| lo := u64 (lo (long_shl q) + 1) |>).
    cbn [set_field]. destruct Hq' as [Fl Fh]. unfold fits in Fl.
    rewrite wrap_id by (unfold fits; lia).
    specialize (Er eq_refl).
    repeat split; try apply Hd'; try apply Hr; try apply Fh; unfold fits; cbn [lo hi]; try lia.
    unfold val in *. cbn [lo hi]. lia.
Qed.

Lemma down_exact v n : forall d acc q,
  ok128 d -> ok128 acc -> ok128 q -> 0 < v ->
  val d = v * 2 ^ Z.of_nat n -> val acc < v * 2 ^ Z.of_nat n ->
  (val q + 1) * 2 ^ Z.of_nat n <= 2 ^ 128 ->
  let (q', acc') := long_div_down n d acc q in
  val q' = val q * 2 ^ Z.of_nat n + val acc / v /\ val acc' = val acc mod v /\
  ok128 q' /\ ok128 acc'.
Proof.
  induction n as [|n IH]; intros d acc q Hd Ha Hq Hv Ed La Lq.
  - cbn [long_div_down]. change (2 ^ Z.of_nat 0) with 1 in *.
    pose proof (val_fits acc Ha) as Fa. unfold fits in Fa.
    rewrite Z.div_small, Z.mod_small by lia. repeat split; try lia; apply Hq || apply Ha.
  - rewrite Nat2Z.inj_succ, Z.pow_succ_r in * by lia. set (p := 2 ^ Z.of_nat n) in *.
    assert (Pp : 0 < p) by (apply Z.pow_pos_nonneg; lia).
    pose proof (val_fits q Hq) as Fq. unfold fits in Fq.
    assert (Lq' : val q < 2 ^ 127) by (change (2 ^ 128) with (2 * 2 ^ 127) in Lq; nia).
    destruct (down_step n d acc q Hd Ha Hq Lq')
      as (d' & acc' & q' & Es & Hd' & Ha' & Hq' & Ed' & Ea' & Eq').
    rewrite Es. assert (Ed2 : val d / 2 = v * p).
    { rewrite Ed. symmetry. apply Z.div_unique with 0; lia. }
    rewrite Ed2 in *. clear Es.
    destruct (Z.ltb_spec (val acc) (v * p)) as [L|L].
    + specialize (IH d' acc' q' Hd' Ha' Hq' Hv Ed' ltac:(lia) ltac:(nia)).
      destruct (long_div_down n d' acc' q') as [q2 a2]. rewrite Ea' in IH.
      destruct IH as (E1 & E2 & O1 & O2). repeat split; try assumption; try apply O1; try apply O2.
      rewrite E1, Eq'. ring.
    + specialize (IH d' acc' q' Hd' Ha' Hq' Hv Ed' ltac:(lia) ltac:(nia)).
      destruct (long_div_down n d' acc' q') as [q2 a2]. rewrite Ea' in IH.
      destruct IH as (E1 & E2 & O1 & O2).
      replace (val acc - v * p) with (val acc + (- p) * v) in E1, E2 by ring.
      rewrite Z.div_add in E1 by lia. rewrite Z.mod_add in E2 by lia.
      repeat split; try assumption; try apply O1; try apply O2. rewrite E1, Eq'. ring.
Qed.

(** Whatever is subtracted, the quotient keeps its leading bits. *)
Lemma down_bounds n : forall d acc q,
  ok128 d -> ok128 acc -> ok128 q -> (val q + 1) * 2 ^ Z.of_nat n <= 2 ^ 128 ->
  let (q', acc') := long_div_down n d acc q in
  val q * 2 ^ Z.of_nat n <= val q' /\ ok128 q' /\ ok128 acc'.
Proof.
  induction n as [|n IH]; intros d acc q Hd Ha Hq Lq.
  - cbn [long_div_down]. change (2 ^ Z.of_nat 0) with 1. split; [lia | auto].
  - rewrite Nat2Z.inj_succ, Z.pow_succ_r in * by lia. set (p := 2 ^ Z.of_nat n) in *.
    assert (Pp : 0 < p) by (apply Z.pow_pos_nonneg; lia).
    pose proof (val_fits q Hq) as Fq. unfold fits in Fq.
    assert (Lq' : val q < 2 ^ 127) by (change (2 ^ 128) with (2 * 2 ^ 127) in Lq; nia).
    destruct (down_step n d acc q Hd Ha Hq Lq')
      as (d' & acc' & q' & Es & Hd' & Ha' & Hq' & _ & _ & Eq').
    rewrite Es. destruct (val acc <? val d / 2);
      specialize (IH d' acc' q' Hd' Ha' Hq' ltac:(nia));
      destruct (long_div_down n d' acc' q') as [q2 a2]; destruct IH as (E & O1 & O2);
      (split; [nia | auto]).
Qed.

Lemma zero_ok : ok128 (B128 0 0).
Proof. split; unfold fits; cbn; lia. Qed.

Lemma long_div_val a v :
  ok128 a -> 0 < v < 2 ^ 64 ->
  let (q, r) := long_div a v in
  ok128 q /\ fits 64 r /\
  (val a < 2 ^ 127 \/ hi a < v -> val q = val a / v /\ r = val a mod v) /\
  (v <= hi a -> hi q <> 0).
Proof.
  intros Ha Hv. unfold long_div.
  assert (Hd0 : ok128 (B128 v 0)) by (split; unfold fits; cbn [lo hi]; lia).
  assert (Ed0 : val (B128 v 0) = v * 2 ^ Z.of_nat 0) by (unfold val; cbn [lo hi Z.of_nat]; lia).
  pose proof (up_ok v a 129 (B128 v 0) 0 Ha Hd0 Hv Ed0 ltac:(lia) ltac:(lia)) as U.
  destruct (long_div_up 129 a (B128 v 0) 0) as [d n]. destruct U as [Hd U].
  pose proof (val_fits a Ha) as Fa. unfold fits in Fa.
  destruct U as [(Ed & Lt & Hn)|(Hn & H127 & H64)].
  - pose proof (down_exact v n d a (B128 0 0) Hd Ha zero_ok ltac:(lia) Ed Lt) as D.
    destruct (long_div_down n d a (B128 0 0)) as [q acc].
    destruct D as (Eq & Er & Hq & Hacc).
    { change (val (B128 0 0) + 1) with 1. rewrite Z.mul_1_l.
      apply Z.pow_le_mono_r; lia. }
    change (val (B128 0 0)) with 0 in Eq. rewrite Z.mul_0_l, Z.add_0_l in Eq.
    assert (El : lo acc = val a mod v).
    { rewrite (val_inj_lo acc Hacc), Er. apply Z.mod_small.
      pose proof (Z.mod_pos_bound (val a) v ltac:(lia)). lia. }
    split; [exact Hq|]. split; [apply Hacc|]. split; [auto|].
    intros Hh. rewrite (val_inj_hi q Hq), Eq.
    assert (2 ^ 64 <= val a / v).
    { apply Z.div_le_lower_bound; [lia|]. destruct Ha as [Fl Fh]. unfold val, fits in *. nia. }
    assert (1 <= val a / v / 2 ^ 64) by (apply Z.div_le_lower_bound; lia). lia.
  - destruct n as [|n]; [lia|].
    destruct (down_step n d a (B128 0 0) Hd Ha zero_ok ltac:(unfold val; cbn; lia))
      as (d' & acc' & q' & Es & Hd' & Ha' & Hq' & _ & _ & Eq').
    rewrite Es. pose proof (val_fits d Hd) as Fd. unfold fits in Fd.
    assert (val d / 2 < 2 ^ 127).
    { apply Z.div_lt_upper_bound; [lia|]. change (2 * 2 ^ 127) with (2 ^ 128). lia. }
    destruct (Z.ltb_spec (val a) (val d / 2)) as [C|_]; [lia|].
    change (val (B128 0 0)) with 0 in Eq'.
    pose proof (down_bounds n d' acc' q' Hd' Ha' Hq') as D.
    destruct (long_div_down n d' acc' q') as [q acc].
    assert (P1 : 2 ^ 64 <= 2 ^ Z.of_nat n) by (apply Z.pow_le_mono_r; lia).
    assert (P2 : 2 ^ Z.of_nat n <= 2 ^ 127) by (apply Z.pow_le_mono_r; lia).
    destruct D as (Lq & Hq & Hacc).
    { rewrite Eq'. change (2 ^ 128) with (2 * 2 ^ 127). lia. }
    split; [exact Hq|]. split; [apply Hacc|].
    assert (Hh : hi q <> 0).
    { rewrite (val_inj_hi q Hq). rewrite Eq' in Lq.
      assert (1 <= val q / 2 ^ 64) by (apply Z.div_le_lower_bound; lia). lia. }
    split; [|auto]. intros [X|X]; [lia|].
    exfalso. destruct Ha as [Fl Fh]. unfold val, fits in *. nia.
Qed.

(** ** The product *)

Definition val4 (r : Z -> Z) : Z := r 0 + 2 ^ 32 * r 1 + 2 ^ 64 * r 2 + 2 ^ 96 * r 3.
Definition words (r : Z -> Z) : Prop := forall k, fits 32 (r k).

Lemma val4_upd r k v : 0 <= k < 4 -> val4 (upd r k v) = val4 r + 2 ^ (32 * k) * (v - r k).
Proof.
  intros Hk. assert (k = 0 \/ k = 1 \/ k = 2 \/ k = 3) as [-> | [-> | [-> | ->]]] by lia;
    unfold val4, upd; cbn [Z.eqb Pos.eqb]; [change (2 ^ (32 * 0)) with 1 | change (2 ^ (32 * 1)) with (2 ^ 32)
    | change (2 ^ (32 * 2)) with (2 ^ 64) | change (2 ^ (32 * 3)) with (2 ^ 96)]; ring.
Qed.

Lemma words_upd r k v : words r -> fits 32 v -> words (upd r k v).
Proof. intros Hr Hv j. unfold upd. destruct (j =? k); auto. Qed.

Lemma partial_add_ok r k b : words r -> fits 32 b -> 0 <= k < 4 ->
  let (r', c) := partial_add r k b in
  words r' /\ 0 <= c <= 1 /\ val4 r' + 2 ^ (32 * k) * (2 ^ 32 * c) = val4 r + 2 ^ (32 * k) * b.
Proof.
  intros Hr Hb Hk. unfold partial_add. specialize (Hr k) as Hrk.
  assert (E : exists c, Z.b2z (u32 (r k + b) <? r k) = c /\ 0 <= c <= 1 /\
                        u32 (r k + b) + 2 ^ 32 * c = r k + b).
  { unfold fits in *. unfold wrap. destruct (Z.lt_ge_cases (r k + b) (2 ^ 32)) as [L|L].
    - exists 0. rewrite Z.mod_small by lia. destruct (Z.ltb_spec (r k + b) (r k)); cbn [Z.b2z]; lia.
    - exists 1. replace ((r k + b) mod 2 ^ 32) with (r k + b - 2 ^ 32) by (apply Z.mod_unique with 1; lia).
      destruct (Z.ltb_spec (r k + b - 2 ^ 32) (r k)); cbn [Z.b2z]; lia. }
  destruct E as (c & -> & Hc & Es). split; [|split; [exact Hc|]].
  - apply words_upd; [exact Hr | apply wrap_fits; lia].
  - rewrite val4_upd by exact Hk. rewrite <- Z.add_assoc, <- Z.mul_add_distr_l.
    f_equal. f_equal. lia.
Qed.

Lemma carry_loop_ok fuel : forall r k c,
  words r -> 0 <= c <= 1 -> 2 <= k <= 4 -> 4 - k < Z.of_nat fuel ->
  words (carry_loop fuel r k c) /\
  exists m, val4 (carry_loop fuel r k c) + 2 ^ 128 * m = val4 r + 2 ^ (32 * k) * c.
Proof.
  induction fuel as [|fuel IH]; intros r k c Hr Hc Hk Hf; [lia|]. cbn [carry_loop].
  destruct (Z.ltb_spec k 4) as [K|K], (Z.eqb_spec c 0) as [C|C]; cbn [andb negb].
  - split; [exact Hr|]. exists 0. subst c. lia.
  - pose proof (partial_add_ok r k c Hr ltac:(unfold fits; lia) ltac:(lia)) as P.
    destruct (partial_add r k c) as [r' c']. destruct P as (Hr' & Hc' & E).
    destruct (IH r' (k + 1) c' Hr' Hc' ltac:(lia) ltac:(lia)) as (W & m & Em).
    split; [exact W|]. exists m. rewrite Em.
    replace (32 * (k + 1)) with (32 * k + 32) by lia. rewrite Z.pow_add_r by lia. lia.
  - split; [exact Hr|]. exists 0. subst c. lia.
  - split; [exact Hr|]. exists c. assert (k = 4) by lia. subst k.
    change (32 * 4) with 128. lia.
Qed.

Lemma mul_body_ok op_1 op_2 r i j : words op_1 -> words op_2 -> words r -> 0 <= i + j <= 2 ->
  words (mul_body op_1 op_2 r (i, j)) /\
  exists m, val4 (mul_body op_1 op_2 r (i, j)) + 2 ^ 128 * m =
            val4 r + 2 ^ (32 * (i + j)) * (op_1 i * op_2 j).
Proof.
  intros H1 H2 Hr Hk. unfold mul_body. set (nn := op_1 i * op_2 j). set (k := i + j) in *.
  specialize (H1 i). specialize (H2 j). unfold fits in H1, H2.
  assert (Hnn : 0 <= nn <= (2 ^ 32 - 1) * (2 ^ 32 - 1)) by (subst nn; nia).
  rewrite (wrap_id 64 nn) by (unfold fits; lia).
  change 0xffffffff with (Z.ones 32). rewrite Z.land_ones, Z.shiftr_div_pow2 by lia.
  pose proof (Z.div_mod nn (2 ^ 32) ltac:(lia)) as En.
  pose proof (Z.mod_pos_bound nn (2 ^ 32) ltac:(lia)) as Bl.
  set (nl := nn mod 2 ^ 32) in *. set (nh := nn / 2 ^ 32) in *.
  assert (Bh : 0 <= nh <= 2 ^ 32 - 2) by nia.
  rewrite (wrap_id 32 nl), (wrap_id 32 nh) by (unfold fits; lia).
  pose proof (partial_add_ok r k nl Hr ltac:(unfold fits; lia) ltac:(lia)) as P1.
  destruct (partial_add r k nl) as [r1 c1]. destruct P1 as (W1 & C1 & E1).
  rewrite (wrap_id 32 (nh + c1)) by (unfold fits; lia).
  pose proof (partial_add_ok r1 (k + 1) (nh + c1) W1 ltac:(unfold fits; lia) ltac:(lia)) as P2.
  destruct (partial_add r1 (k + 1) (nh + c1)) as [r2 c2]. destruct P2 as (W2 & C2 & E2).
  destruct (carry_loop_ok 4 r2 (k + 1 + 1) c2 W2 C2 ltac:(lia) ltac:(lia)) as (W3 & m & E3).
  split; [exact W3|]. exists m. rewrite E3.
  replace (32 * (k + 1 + 1)) with (32 * k + 64) by lia.
  replace (32 * (k + 1)) with (32 * k + 32) in E2 by lia.
  rewrite Z.pow_add_r in * by lia. rewrite En. change (2 ^ 64) with (2 ^ 32 * 2 ^ 32) in *.
  set (p := 2 ^ (32 * k)) in *. nia.
Qed.

Lemma halves_ok op : fits 64 op -> words (halves op) /\ halves op 0 + 2 ^ 32 * halves op 1 = op.
Proof.
  intros Hop. split.
  - intros k. unfold halves. destruct (k =? 0); apply wrap_fits; lia.
  - unfold halves. cbn [Z.eqb]. change 0xffffffff with (Z.ones 32).
    rewrite Z.land_ones, Z.shiftr_div_pow2 by lia. unfold fits in Hop.
    pose proof (Z.mod_pos_bound op (2 ^ 32) ltac:(lia)).
    pose proof (Z.div_mod op (2 ^ 32) ltac:(lia)).
    assert (0 <= op / 2 ^ 32 < 2 ^ 32).
    { split; [apply Z.div_pos; lia | apply Z.div_lt_upper_bound; lia]. }
    rewrite !wrap_id by (unfold fits; lia). lia.
Qed.

(** The four partial products, for any halves. *)
Lemma mul_loops_ok x y : words x -> words y ->
  exists r m, fold_left (mul_body x y) [(0, 0); (0, 1); (1, 0); (1, 1)] (fun _ => 0) = r /\
    words r /\ val4 r + 2 ^ 128 * m = (x 0 + 2 ^ 32 * x 1) * (y 0 + 2 ^ 32 * y 1).
Proof.
  intros Wa Wb.
  assert (W0 : words (fun _ => 0)) by (intros k; unfold fits; lia).
  assert (V0 : val4 (fun _ => 0) = 0) by reflexivity.
  generalize dependent (fun _ : Z => 0). intros r0 W0 V0.
  destruct (mul_body_ok x y r0 0 0 Wa Wb W0 ltac:(lia)) as (W1 & m1 & E1).
  destruct (mul_body_ok x y _ 0 1 Wa Wb W1 ltac:(lia)) as (W2 & m2 & E2).
  destruct (mul_body_ok x y _ 1 0 Wa Wb W2 ltac:(lia)) as (W3 & m3 & E3).
  destruct (mul_body_ok x y _ 1 1 Wa Wb W3 ltac:(lia)) as (W4 & m4 & E4).
  exists (mul_body x y (mul_body x y (mul_body x y (mul_body x y r0 (0, 0)) (0, 1)) (1, 0)) (1, 1)),
    (m1 + m2 + m3 + m4).
  split; [reflexivity|]. split; [exact W4|].
  revert E1 E2 E3 E4. clear W0 W1 W2 W3 W4.
  generalize (val4 (mul_body x y r0 (0, 0))). intros v1.
  generalize (mul_body x y r0 (0, 0)). intros r1.
  generalize (val4 (mul_body x y r1 (0, 1))). intros v2.
  generalize (mul_body x y r1 (0, 1)). intros r2.
  generalize (val4 (mul_body x y r2 (1, 0))). intros v3.
  generalize (mul_body x y r2 (1, 0)). intros r3.
  generalize (val4 (mul_body x y r3 (1, 1))). intros v4 E1 E2 E3 E4.
  replace (32 * (0 + 0)) with 0 in E1 by reflexivity.
  replace (32 * (0 + 1)) with 32 in E2 by reflexivity.
  replace (32 * (1 + 0)) with 32 in E3 by reflexivity.
  replace (32 * (1 + 1)) with 64 in E4 by reflexivity. lia.
Qed.

(** Packing the four words: [result[0] + (result[1] << 32)]. *)
Lemma pack_ok r : words r ->
  let p := {| lo := u64 (r 0 + u64 (Z.shiftl (r 1) 32)); hi := u64 (r 2 + u64 (Z.shiftl (r 3) 32)) |} in
  ok128 p /\ val p = val4 r.
Proof.
  intros W. pose proof (W 0) as F0. pose proof (W 1) as F1. pose proof (W 2) as F2.
  pose proof (W 3) as F3. unfold val, val4. cbn [lo hi].
  revert F0 F1 F2 F3. generalize (r 0) (r 1) (r 2) (r 3). intros a b c d. unfold fits. intros.
  rewrite !Z.shiftl_mul_pow2 by lia.
  rewrite !(wrap_id 64 (_ * 2 ^ 32)) by (unfold fits; lia).
  rewrite !wrap_id by (unfold fits; lia). split; [split; unfold fits; cbn [lo hi]; lia | lia].
Qed.

Lemma long_mul_ok a b : fits 64 a -> fits 64 b ->
  ok128 (long_mul a b) /\ val (long_mul a b) = a * b.
Proof.
  intros Ha Hb. unfold long_mul. destruct (halves_ok a Ha) as [Wa Ea], (halves_ok b Hb) as [Wb Eb].
  destruct (mul_loops_ok _ _ Wa Wb) as (r & m & -> & W & E). rewrite Ea, Eb in E.
  destruct (pack_ok r W) as [Hp Ep]. split; [exact Hp|]. rewrite Ep.
  pose proof (val_fits _ Hp) as R. rewrite Ep in R. unfold fits in *.
  assert (P : 0 <= a * b < 2 ^ 64 * 2 ^ 64) by nia.
  rewrite <- Z.pow_add_r in P by lia. replace (64 + 64) with 128 in P by reflexivity. nia.
Qed.

(** ** Signs *)

(** The two's complement reading of a pair. *)
Definition sval (x : Bit128) : Z := lo x + 2 ^ 64 * signed 64 (hi x).

Lemma signed_cases n x : 0 < n -> fits n x ->
  (x < 2 ^ (n - 1) /\ signed n x = x) \/ (2 ^ (n - 1) <= x /\ signed n x = x - 2 ^ n).
Proof.
  intros Hn Hx. unfold signed. rewrite wrap_id by exact Hx.
  destruct (Z.ltb_spec x (2 ^ (n - 1))); [left | right]; split; auto.
Qed.

Lemma long_neg_ok x : ok128 x ->
  ok128 (long_neg x) /\ val (long_neg x) = (- val x) mod 2 ^ 128.
Proof.
  intros [Hl Hh]. unfold long_neg. cbn [set_field lo hi]. rewrite Z.gtb_ltb. unfold fits in *.
  assert (N : forall h, fits 64 h -> u64 (Z.lnot h) = 2 ^ 64 - 1 - h).
  { intros h Fh. unfold wrap, fits in *. unfold Z.lnot. symmetry.
    apply Z.mod_unique with (-1); lia. }
  destruct (Z.eq_dec (lo x) 0) as [Z0|NZ].
  - rewrite Z0. change (u64 (0 - 1)) with (2 ^ 64 - 1). change (u64 (- 0)) with 0.
    destruct (Z.ltb_spec 0 (2 ^ 64 - 1)); [|lia]. cbn [set_field lo hi].
    rewrite N by (apply wrap_fits; lia).
    pose proof (wrap_fits 64 (hi x - 1) ltac:(lia)) as F. unfold fits in F.
    split; [split; unfold fits; cbn [lo hi]; lia|]. unfold val. cbn [lo hi]. rewrite Z0.
    destruct (word_cases (hi x - 1)) as [[A ->]|[[A ->]|[A A']]]; try lia.
    + assert (hi x = 0) by lia. replace (hi x) with 0 by lia.
      replace (- (0 + 2 ^ 64 * 0)) with 0 by lia. rewrite Z.mod_0_l by lia. lia.
    + apply Z.mod_unique with (-1); lia.
  - destruct (word_cases (lo x - 1)) as [[A A']|[[A A']|[A A']]]; try lia. rewrite A'.
    destruct (Z.ltb_spec (lo x) (lo x - 1)); [lia|]. cbn [set_field lo hi].
    rewrite N by exact Hh.
    destruct (word_cases (- lo x)) as [[B ->]|[[B B']|[B B']]]; try lia.
    split; [split; unfold fits; cbn [lo hi]; lia|]. unfold val. cbn [lo hi].
    apply Z.mod_unique with (-1); lia.
Qed.

Lemma abs_signed n x : 1 < n -> fits n x ->
  (if signed n x <? 0 then wrap n (- x) else x) = Z.abs (signed n x).
Proof.
  intros Hn Hx. destruct (signed_cases n x ltac:(lia) Hx) as [[L E]|[L E]]; rewrite E.
  - unfold fits in Hx. destruct (Z.ltb_spec x 0); lia.
  - unfold fits in Hx. destruct (Z.ltb_spec (x - 2 ^ n) 0); [|lia].
    unfold wrap. pose proof (Z.pow_pos_nonneg 2 (n - 1) ltac:(lia) ltac:(lia)).
    rewrite <- (Z.mod_unique (- x) (2 ^ n) (-1) (2 ^ n - x)) by lia. lia.
Qed.

Lemma abs_fits n x : 1 < n -> fits n (Z.abs (signed n x)).
Proof.
  intros Hn. pose proof (signed_range n x ltac:(lia)).
  assert (2 ^ n = 2 * 2 ^ (n - 1)) by (rewrite <- Z.pow_succ_r by lia; f_equal; lia).
  unfold fits. lia.
Qed.

Lemma sval_mod x : ok128 x -> sval x mod 2 ^ 128 = val x.
Proof.
  intros Hx. pose proof (val_fits x Hx) as F. destruct Hx as [Hl Hh]. unfold sval, val in *.
  destruct (signed_cases 64 (hi x) ltac:(lia) Hh) as [[_ ->]|[_ ->]].
  - apply Z.mod_small. exact F.
  - symmetry. apply Z.mod_unique with (-1); unfold fits in F; lia.
Qed.

Lemma sval_range x : ok128 x -> - 2 ^ 127 <= sval x < 2 ^ 127.
Proof.
  intros [Hl Hh]. unfold sval. pose proof (signed_range 64 (hi x) ltac:(lia)) as R.
  change (2 ^ (64 - 1)) with (2 ^ 63) in R. unfold fits in Hl.
  change (2 ^ 127) with (2 ^ 64 * 2 ^ 63). lia.
Qed.

(** Values in range that agree modulo 2^128 are equal. *)
Lemma sval_unique x y : ok128 x -> - 2 ^ 127 <= y < 2 ^ 127 -> val x = y mod 2 ^ 128 -> sval x = y.
Proof.
  intros Hx Hy E. pose proof (sval_range x Hx). rewrite <- (sval_mod x Hx) in E.
  pose proof (Z.div_mod (sval x) (2 ^ 128) ltac:(lia)).
  pose proof (Z.div_mod y (2 ^ 128) ltac:(lia)).
  change (2 ^ 128) with (2 * 2 ^ 127) in *. nia.
Qed.

Lemma long_imul_ok a b : fits 64 a -> fits 64 b ->
  ok128 (long_imul a b) /\ sval (long_imul a b) = signed 64 a * signed 64 b.
Proof.
  intros Ha Hb. unfold long_imul. rewrite !abs_signed by (assumption || lia).
  destruct (long_mul_ok (Z.abs (signed 64 a)) (Z.abs (signed 64 b))) as [Hp Ep];
    try (apply abs_fits; lia).
  pose proof (signed_range 64 a ltac:(lia)) as Ra. pose proof (signed_range 64 b ltac:(lia)) as Rb.
  change (2 ^ (64 - 1)) with (2 ^ 63) in *.
  assert (P : - 2 ^ 126 <= signed 64 a * signed 64 b <= 2 ^ 126).
  { change (2 ^ 126) with (2 ^ 63 * 2 ^ 63). nia. }
  rewrite <- Z.abs_mul in Ep.
  assert (S : xorb (signed 64 a <? 0) (signed 64 b <? 0) = true -> signed 64 a * signed 64 b <= 0).
  { destruct (Z.ltb_spec (signed 64 a) 0), (Z.ltb_spec (signed 64 b) 0); cbn; try discriminate; nia. }
  assert (T : xorb (signed 64 a <? 0) (signed 64 b <? 0) = false -> 0 <= signed 64 a * signed 64 b).
  { destruct (Z.ltb_spec (signed 64 a) 0), (Z.ltb_spec (signed 64 b) 0); cbn; try discriminate; nia. }
  set (p := signed 64 a * signed 64 b) in *.
  destruct (xorb _ _).
  - destruct (long_neg_ok _ Hp) as [Hn En]. split; [exact Hn|].
    apply sval_unique; [exact Hn | lia |]. rewrite En, Ep. f_equal. specialize (S eq_refl). lia.
  - split; [exact Hp|]. apply sval_unique; [exact Hp | lia |]. rewrite Ep. specialize (T eq_refl).
    rewrite Z.mod_small by lia. lia.
Qed.

(** Negation, on the two's complement reading. *)
Lemma long_neg_signed x : ok128 x -> - 2 ^ 127 < sval x ->
  ok128 (long_neg x) /\ sval (long_neg x) = - sval x.
Proof.
  intros Hx Hs. destruct (long_neg_ok x Hx) as [Hn En]. split; [exact Hn|].
  pose proof (sval_range x Hx). apply sval_unique; [exact Hn | lia |].
  rewrite En, <- (sval_mod x Hx). rewrite <- (Z.sub_0_l (sval x mod _)), Zminus_mod_idemp_r.
  reflexivity.
Qed.

Lemma sval_small x : ok128 x -> val x < 2 ^ 127 -> sval x = val x.
Proof.
  intros Hx L. pose proof (val_fits x Hx) as F. unfold fits in F.
  apply sval_unique; [exact Hx | lia|]. rewrite Z.mod_small by lia. reflexivity.
Qed.

Lemma signed_hi_neg x : ok128 x -> (signed 64 (hi x) <? 0) = (sval x <? 0).
Proof.
  intros [Hl Hh]. unfold sval. unfold fits in Hl.
  destruct (Z.ltb_spec (signed 64 (hi x)) 0), (Z.ltb_spec (lo x + 2 ^ 64 * signed 64 (hi x)) 0); lia.
Qed.

(** The magnitude the signed division passes to [long_div]. *)
Lemma abs_dividend x : ok128 x -> - 2 ^ 127 < sval x ->
  let t := if signed 64 (hi x) <? 0 then long_neg x else x in
  ok128 t /\ val t = Z.abs (sval x).
Proof.
  intros Hx Hs t. subst t. rewrite signed_hi_neg by exact Hx.
  pose proof (sval_range x Hx).
  destruct (Z.ltb_spec (sval x) 0).
  - destruct (long_neg_signed x Hx Hs) as [Hn En]. split; [exact Hn|].
    rewrite <- (sval_mod _ Hn), En, Z.mod_small by lia. lia.
  - split; [exact Hx|]. rewrite <- (sval_mod _ Hx), Z.mod_small by lia. lia.
Qed.

Lemma signed_u64 r : - 2 ^ 63 <= r < 2 ^ 63 -> signed 64 (u64 r) = r.
Proof.
  intros H. rewrite signed_wrap by lia. unfold signed.
  replace (2 ^ (64 - 1)) with (2 ^ 63) by reflexivity.
  destruct (word_cases r) as [[A ->]|[[A ->]|[A _]]]; [lia | | | lia].
  - destruct (Z.ltb_spec (r + 2 ^ 64) (2 ^ 63)); lia.
  - destruct (Z.ltb_spec r (2 ^ 63)); lia.
Qed.

(** Truncated division by way of magnitudes. *)
Lemma quot_abs x v : v <> 0 ->
  Z.quot x v = (if xorb (x <? 0) (v <? 0) then - (Z.abs x / Z.abs v) else Z.abs x / Z.abs v) /\
  Z.rem x v = (if x <? 0 then - (Z.abs x mod Z.abs v) else Z.abs x mod Z.abs v).
Proof.
  intros Hv. destruct (Z.eq_dec x 0) as [->|Nx].
  - rewrite Z.quot_0_l, Z.rem_0_l, Z.div_0_l, Z.mod_0_l by lia. destruct (xorb _ _); auto.
  - rewrite Z.quot_div, Z.rem_mod by exact Hv.
    destruct (Z.ltb_spec x 0), (Z.ltb_spec v 0); cbn [xorb];
      rewrite ?(Z.sgn_neg x), ?(Z.sgn_neg v), ?(Z.sgn_pos v), ?(Z.sgn_pos x) by lia; lia.
Qed.

(** The signed division, except for the dividend [-2^127] the handlers exclude. *)
Lemma long_idiv_val x v : ok128 x -> fits 64 v -> v <> 0 -> - 2 ^ 127 < sval x ->
  let (q, r) := long_idiv x v in
  ok128 q /\ fits 64 r /\
  sval q = Z.quot (sval x) (signed 64 v) /\ signed 64 r = Z.rem (sval x) (signed 64 v).
Proof.
  intros Hx Hv Nv Hs. unfold long_idiv.
  destruct (abs_dividend x Hx Hs) as [Ht Et]. rewrite abs_signed by (assumption || lia).
  set (t := if signed 64 (hi x) <? 0 then long_neg x else x) in *.
  assert (Sv : signed 64 v <> 0).
  { destruct (signed_cases 64 v ltac:(lia) Hv) as [[_ ->]|[_ ->]]; unfold fits in Hv; lia. }
  pose proof (abs_fits 64 v ltac:(lia)) as Fv.
  pose proof (long_div_val t (Z.abs (signed 64 v)) Ht ltac:(unfold fits in Fv; lia)) as D.
  destruct (long_div t (Z.abs (signed 64 v))) as [q r].
  destruct D as (Hq & Hr & D & _). rewrite Et in D.
  pose proof (sval_range x Hx) as Rx. destruct D as [Eq Er]; [lia|].
  rewrite signed_hi_neg by exact Hx.
  destruct (quot_abs (sval x) (signed 64 v) Sv) as [-> ->]. rewrite <- Eq, <- Er.
  assert (Bq : 0 <= val q < 2 ^ 127).
  { rewrite Eq. split; [apply Z.div_pos; lia|]. apply Z.div_lt_upper_bound; [lia|]. nia. }
  pose proof (sval_small q Hq ltac:(lia)) as Sq.
  pose proof (signed_range 64 v ltac:(lia)) as Rv. replace (2 ^ (64 - 1)) with (2 ^ 63) in Rv by reflexivity.
  assert (Br : 0 <= r < 2 ^ 63).
  { rewrite Er. pose proof (Z.mod_pos_bound (Z.abs (sval x)) (Z.abs (signed 64 v)) ltac:(lia)). lia. }
  destruct (long_neg_signed q Hq ltac:(lia)) as [Hn En].
  assert (Er' : signed 64 r = r).
  { rewrite <- (signed_u64 r) at 2 by lia. rewrite signed_wrap by lia. reflexivity. }
  split; [|split; [|split]].
  - destruct (xorb _ _); assumption.
  - destruct (sval x <? 0); [apply wrap_fits; lia | exact Hr].
  - destruct (xorb _ _); lia.
  - destruct (sval x <? 0); [apply signed_u64; lia | exact Er'].
Qed.

(** ** The loops end by their own conditions *)

Lemma up_stop acc d n fuel : (128 <= n)%nat -> long_div_up fuel acc d n = (d, n).
Proof.
  intros Hn. destruct fuel; [reflexivity|]. cbn [long_div_up].
  destruct (Z.ltb_spec (Z.of_nat n) 128); [lia|]. rewrite andb_false_r. reflexivity.
Qed.

Lemma up_fuel acc fuel1 fuel2 : forall d n, (128 <= n + fuel1)%nat -> (fuel1 <= fuel2)%nat ->
  long_div_up fuel2 acc d n = long_div_up fuel1 acc d n.
Proof.
  revert fuel2. induction fuel1 as [|f1 IH]; intros [|f2] d n H1 H2; try lia; try reflexivity.
  - rewrite !up_stop by lia. reflexivity.
  - cbn [long_div_up]. destruct (_ && _); [|reflexivity]. apply IH; lia.
Qed.

Lemma carry_fuel fuel1 fuel2 : forall r k c, 4 - k <= Z.of_nat fuel1 -> (fuel1 <= fuel2)%nat ->
  carry_loop fuel2 r k c = carry_loop fuel1 r k c.
Proof.
  revert fuel2. induction fuel1 as [|f1 IH]; intros [|f2] r k c H1 H2; try lia; try reflexivity.
  - cbn [carry_loop]. destruct (Z.ltb_spec k 4); [lia|]. reflexivity.
  - cbn [carry_loop]. destruct (_ && _); [|reflexivity].
    destruct (partial_add r k c). apply IH; lia.
Qed.

(** The loops of the 128-bit arithmetic end by their own conditions: any
    larger bound on the normalisation loop of the division (whatever the divisor)
    and on the carry loop of the multiplication (from any index the code enters
    it with) gives the same result. *)
Theorem wide_loops_terminate :
  (forall acc d fuel, (129 <= fuel)%nat -> long_div_up fuel acc d 0 = long_div_up 129 acc d 0) /\
  (forall r k c fuel, 0 <= k -> (4 <= fuel)%nat -> carry_loop fuel r k c = carry_loop 4 r k c).
Proof. split; intros; [apply up_fuel | apply carry_fuel]; lia. Qed.

Lemma wide_loops_terminate_witness :
  long_div_up 1000 (B128 5 7) (B128 3 0) 0 = long_div_up 129 (B128 5 7) (B128 3 0) 0 /\
  carry_loop 9 (fun _ => 0xffffffff) 2 1 = carry_loop 4 (fun _ => 0xffffffff) 2 1.
Proof.
  destruct wide_loops_terminate as [D C]. split; [apply D | apply C]; lia.
Defined.

(** C38: [long_mul] and [long_imul] are the exact 128-bit products of the unsigned
    and of the signed operands. *)
Theorem long_products_exact a b : fits 64 a -> fits 64 b ->
  ok128 (long_mul a b) /\ val (long_mul a b) = a * b /\
  ok128 (long_imul a b) /\ sval (long_imul a b) = signed 64 a * signed 64 b.
Proof.
  intros Ha Hb. destruct (long_mul_ok a b Ha Hb), (long_imul_ok a b Ha Hb). auto.
Qed.

Lemma long_products_exact_witness :
  val (long_mul 0xffffffffffffffff 0xfffffffffffffffe) = 0xffffffffffffffff * 0xfffffffffffffffe /\
  sval (long_imul 0xffffffffffffffff 7) = -7.
Proof.
  pose proof (long_products_exact 0xffffffffffffffff 0xfffffffffffffffe) as P.
  pose proof (long_products_exact 0xffffffffffffffff 7) as Q.
  split; [apply P | apply Q]; unfold fits; lia.
Defined.

(** [long_div] computes the quotient and the remainder of every division
    whose quotient fits 64 bits, and otherwise leaves a non-zero high word in the
    quotient, even when the scaled divisor overflows 128 bits; [long_idiv] divides
    as C does, truncating, for every dividend but [-2^127]. *)
Theorem long_division_exact x v : ok128 x -> fits 64 v -> v <> 0 ->
  (let (q, r) := long_div x v in
   if hi x <? v then q = {| lo := val x / v; hi := 0 |} /\ r = val x mod v else hi q <> 0) /\
  (- 2 ^ 127 < sval x ->
   let (q, r) := long_idiv x v in
   sval q = Z.quot (sval x) (signed 64 v) /\ signed 64 r = Z.rem (sval x) (signed 64 v)).
Proof.
  intros Hx Hv Nv. split.
  - pose proof (long_div_val x v Hx ltac:(unfold fits in Hv; lia)) as D.
    destruct (long_div x v) as [q r]. destruct D as (Hq & Hr & D1 & D2).
    destruct (Z.ltb_spec (hi x) v) as [L|L]; [|apply D2, L].
    destruct D1 as [Eq Er]; [auto|]. split; [|exact Er].
    pose proof (val_inj_lo q Hq) as El. pose proof (val_inj_hi q Hq) as Eh. destruct Hx as [Xl Xh].
    assert (B : 0 <= val x / v < 2 ^ 64).
    { unfold fits, val in *. split; [apply Z.div_pos; lia|]. apply Z.div_lt_upper_bound; nia. }
    rewrite Eq, Z.mod_small in El by lia. rewrite Eq, Z.div_small in Eh by lia.
    destruct q as [ql qh]. cbn [lo hi] in *. congruence.
  - intros Hs. pose proof (long_idiv_val x v Hx Hv Nv Hs) as D.
    destruct (long_idiv x v). tauto.
Qed.

Lemma long_division_exact_witness :
  long_div (B128 0xffffffffffffffff 4) 5 = (B128 0xffffffffffffffff 0, 4) /\
  hi (fst (long_div (B128 0 5) 5)) <> 0 /\
  sval (fst (long_idiv (B128 0xfffffffffffffff9 0xffffffffffffffff) 2)) = -3.
Proof.
  pose proof (long_division_exact (B128 0xffffffffffffffff 4) 5) as P.
  pose proof (long_division_exact (B128 0 5) 5) as Q.
  pose proof (long_division_exact (B128 0xfffffffffffffff9 0xffffffffffffffff) 2) as R.
  assert (O : forall l h, (0 <=? l) && (l <? 2 ^ 64) && (0 <=? h) && (h <? 2 ^ 64) = true ->
              ok128 (B128 l h)).
  { intros l h Hb. bool_hyps. split; unfold fits; cbn [lo hi]; lia. }
  split; [|split].
  - destruct P as [P _]; [apply O; reflexivity | unfold fits; lia | lia |].
    destruct (long_div (B128 0xffffffffffffffff 4) 5) as [q r].
    destruct P as [-> ->]. reflexivity.
  - destruct Q as [Q _]; [apply O; reflexivity | unfold fits; lia | lia |].
    destruct (long_div (B128 0 5) 5) as [q r]. exact Q.
  - destruct R as [_ R]; [apply O; reflexivity | unfold fits; lia | lia |].
    specialize (R ltac:(reflexivity)).
    destruct (long_idiv (B128 0xfffffffffffffff9 0xffffffffffffffff) 2) as [q r]. apply R.
Defined.
