(* ===== verification/Mult.v ===== *)
(** * Multiplication and division instructions (cpu/mult8.cc to cpu/mult64.cc)

    One definition per instruction handler.  A signed variable of the code is
    modelled by the integer it stands for, [signed n] converting a word to it;
    C's signed [/] and [%] truncate ([Z.quot], [Z.rem]). *)

From Stdlib Require Import ZArith Lia List Bool.
From S2P Require Import Prelude LazyFlags Cpu WideInt.
Open Scope Z_scope.

Section Handlers.
Context {M : Type}.
Abbreviation cpu := (cpu bx_lazyflags_entry M).

(** ** cpu/mult8.cc *)

Definition MUL_ALEbR (i : bxInstruction_c) : cpu unit :=
  op1 <- AL ;;
  op2 <- BX_READ_8BIT_REGx (src i) (extend8bitL i) ;;
  let product_16 := u32 (op1 * op2) in
  let product_8l := u8 (Z.land product_16 0xFF) in
  let product_8h := u8 (Z.shiftr product_16 8) in
  set_AX product_16 ;;;
  put_lazy (SET_FLAGS_OSZAPC_LOGIC 8 product_8l) ;;;
  (if negb (product_8h =? 0) then modify_lazy assert_flags_OxxxxC else ret tt) ;;;
  BX_NEXT_INSTR.

Definition IMUL_ALEbR (i : bxInstruction_c) : cpu unit :=
  al <- AL ;;
  let op1 := signed 8 al in
  op2 <- BX_READ_8BIT_REGx (src i) (extend8bitL i) ;;
  let op2 := signed 8 op2 in
  let product_16 := signed 16 (op1 * op2) in
  let product_8 := u8 (Z.land product_16 0xFF) in
  set_AX product_16 ;;;
  put_lazy (SET_FLAGS_OSZAPC_LOGIC 8 product_8) ;;;
  (if negb (product_16 =? signed 8 product_16) then modify_lazy assert_flags_OxxxxC else ret tt) ;;;
  BX_NEXT_INSTR.

Definition DIV_ALEbR (i : bxInstruction_c) : cpu unit :=
  op2 <- BX_READ_8BIT_REGx (src i) (extend8bitL i) ;;
  (if op2 =? 0 then exception BX_DE_EXCEPTION 0 else ret tt) ;;;
  op1 <- AX ;;
  let quotient_16 := u16 (op1 / op2) in
  let remainder_8 := u8 (op1 mod op2) in
  let quotient_8l := u8 (Z.land quotient_16 0xFF) in
  (if negb (quotient_16 =? quotient_8l) then exception BX_DE_EXCEPTION 0 else ret tt) ;;;
  set_AL quotient_8l ;;;
  set_AH remainder_8 ;;;
  BX_NEXT_INSTR.

Definition IDIV_ALEbR (i : bxInstruction_c) : cpu unit :=
  ax <- AX ;;
  let op1 := signed 16 ax in
  (if op1 =? signed 16 0x8000 then exception BX_DE_EXCEPTION 0 else ret tt) ;;;
  op2 <- BX_READ_8BIT_REGx (src i) (extend8bitL i) ;;
  let op2 := signed 8 op2 in
  (if op2 =? 0 then exception BX_DE_EXCEPTION 0 else ret tt) ;;;
  let quotient_16 := signed 16 (Z.quot op1 op2) in
  let remainder_8 := signed 8 (Z.rem op1 op2) in
  let quotient_8l := signed 8 (Z.land quotient_16 0xFF) in
  (if negb (quotient_16 =? quotient_8l) then exception BX_DE_EXCEPTION 0 else ret tt) ;;;
  set_AL quotient_8l ;;;
  set_AH remainder_8 ;;;
  BX_NEXT_INSTR.

(** ** cpu/mult16.cc *)

Definition MUL_AXEwR (i : bxInstruction_c) : cpu unit :=
  op1_16 <- AX ;;
  op2_16 <- BX_READ_16BIT_REG (src i) ;;
  let product_32 := u32 (op1_16 * op2_16) in
  let product_16l := u16 (Z.land product_32 0xFFFF) in
  let product_16h := u16 (Z.shiftr product_32 16) in
  set_AX product_16l ;;;
  set_DX product_16h ;;;
  put_lazy (SET_FLAGS_OSZAPC_LOGIC 16 product_16l) ;;;
  (if negb (product_16h =? 0) then modify_lazy assert_flags_OxxxxC else ret tt) ;;;
  BX_NEXT_INSTR.

Definition IMUL_AXEwR (i : bxInstruction_c) : cpu unit :=
  ax <- AX ;;
  let op1_16 := signed 16 ax in
  op2_16 <- BX_READ_16BIT_REG (src i) ;;
  let op2_16 := signed 16 op2_16 in
  let product_32 := signed 32 (op1_16 * op2_16) in
  let product_16l := u16 (Z.land product_32 0xFFFF) in
  let product_16h := u16 (Z.shiftr product_32 16) in
  set_AX product_16l ;;;
  set_DX product_16h ;;;
  put_lazy (SET_FLAGS_OSZAPC_LOGIC 16 product_16l) ;;;
  (if negb (product_32 =? signed 16 product_32) then modify_lazy assert_flags_OxxxxC else ret tt) ;;;
  BX_NEXT_INSTR.

Definition DIV_AXEwR (i : bxInstruction_c) : cpu unit :=
  op2_16 <- BX_READ_16BIT_REG (src i) ;;
  (if op2_16 =? 0 then exception BX_DE_EXCEPTION 0 else ret tt) ;;;
  dx <- DX ;;
  ax <- AX ;;
  let op1_32 := Z.lor (u32 (Z.shiftl dx 16)) ax in
  let quotient_32 := u32 (op1_32 / op2_16) in
  let remainder_16 := u16 (op1_32 mod op2_16) in
  let quotient_16l := u16 (Z.land quotient_32 0xFFFF) in
  (if negb (quotient_32 =? quotient_16l) then exception BX_DE_EXCEPTION 0 else ret tt) ;;;
  set_AX quotient_16l ;;;
  set_DX remainder_16 ;;;
  BX_NEXT_INSTR.

Definition IDIV_AXEwR (i : bxInstruction_c) : cpu unit :=
  dx <- DX ;;
  ax <- AX ;;
  let op1_32 := signed 32 (Z.lor (u32 (Z.shiftl dx 16)) ax) in
  (if op1_32 =? signed 32 0x80000000 then exception BX_DE_EXCEPTION 0 else ret tt) ;;;
  op2_16 <- BX_READ_16BIT_REG (src i) ;;
  let op2_16 := signed 16 op2_16 in
  (if op2_16 =? 0 then exception BX_DE_EXCEPTION 0 else ret tt) ;;;
  let quotient_32 := signed 32 (Z.quot op1_32 op2_16) in
  let remainder_16 := signed 16 (Z.rem op1_32 op2_16) in
  let quotient_16l := signed 16 (Z.land quotient_32 0xFFFF) in
  (if negb (quotient_32 =? quotient_16l) then exception BX_DE_EXCEPTION 0 else ret tt) ;;;
  set_AX quotient_16l ;;;
  set_DX remainder_16 ;;;
  BX_NEXT_INSTR.

Definition IMUL_GwEwIwR (i : bxInstruction_c) : cpu unit :=
  op2_16 <- BX_READ_16BIT_REG (src i) ;;
  let op2_16 := signed 16 op2_16 in
  let op3_16 := signed 16 (Iw i) in
  let product_32 := signed 32 (op2_16 * op3_16) in
  let product_16 := u16 (Z.land product_32 0xFFFF) in
  BX_WRITE_16BIT_REG (dst i) product_16 ;;;
  put_lazy (SET_FLAGS_OSZAPC_LOGIC 16 product_16) ;;;
  (if negb (product_32 =? signed 16 product_32) then modify_lazy assert_flags_OxxxxC else ret tt) ;;;
  BX_NEXT_INSTR.

Definition IMUL_GwEwR (i : bxInstruction_c) : cpu unit :=
  op1_16 <- BX_READ_16BIT_REG (dst i) ;;
  let op1_16 := signed 16 op1_16 in
  op2_16 <- BX_READ_16BIT_REG (src i) ;;
  let op2_16 := signed 16 op2_16 in
  let product_32 := signed 32 (op1_16 * op2_16) in
  let product_16 := u16 (Z.land product_32 0xFFFF) in
  BX_WRITE_16BIT_REG (dst i) product_16 ;;;
  put_lazy (SET_FLAGS_OSZAPC_LOGIC 16 product_16) ;;;
  (if negb (product_32 =? signed 16 product_32) then modify_lazy assert_flags_OxxxxC else ret tt) ;;;
  BX_NEXT_INSTR.

(** ** cpu/mult32.cc *)

Definition GET32L (val64 : Z) : Z := u32 (Z.land (u64 val64) 0xFFFFFFFF).
Definition GET32H (val64 : Z) : Z := u32 (Z.shiftr (u64 val64) 32).

Definition MUL_EAXEdR (i : bxInstruction_c) : cpu unit :=
  op1_32 <- EAX ;;
  op2_32 <- BX_READ_32BIT_REG (src i) ;;
  let product_64 := u64 (op1_32 * op2_32) in
  let product_32l := GET32L product_64 in
  let product_32h := GET32H product_64 in
  set_RAX product_32l ;;;
  set_RDX product_32h ;;;
  put_lazy (SET_FLAGS_OSZAPC_LOGIC 32 product_32l) ;;;
  (if negb (product_32h =? 0) then modify_lazy assert_flags_OxxxxC else ret tt) ;;;
  BX_NEXT_INSTR.

Definition IMUL_EAXEdR (i : bxInstruction_c) : cpu unit :=
  eax <- EAX ;;
  let op1_32 := signed 32 eax in
  op2_32 <- BX_READ_32BIT_REG (src i) ;;
  let op2_32 := signed 32 op2_32 in
  let product_64 := signed 64 (op1_32 * op2_32) in
  let product_32l := GET32L product_64 in
  let product_32h := GET32H product_64 in
  set_RAX product_32l ;;;
  set_RDX product_32h ;;;
  put_lazy (SET_FLAGS_OSZAPC_LOGIC 32 product_32l) ;;;
  (if negb (product_64 =? signed 32 product_64) then modify_lazy assert_flags_OxxxxC else ret tt) ;;;
  BX_NEXT_INSTR.

Definition DIV_EAXEdR (i : bxInstruction_c) : cpu unit :=
  op2_32 <- BX_READ_32BIT_REG (src i) ;;
  (if op2_32 =? 0 then exception BX_DE_EXCEPTION 0 else ret tt) ;;;
  edx <- EDX ;;
  eax <- EAX ;;
  let op1_64 := u64 (u64 (Z.shiftl edx 32) + eax) in
  let quotient_64 := op1_64 / op2_32 in
  let remainder_32 := u32 (op1_64 mod op2_32) in
  let quotient_32l := u32 (Z.land quotient_64 0xFFFFFFFF) in
  (if negb (quotient_64 =? quotient_32l) then exception BX_DE_EXCEPTION 0 else ret tt) ;;;
  set_RAX quotient_32l ;;;
  set_RDX remainder_32 ;;;
  BX_NEXT_INSTR.

Definition IDIV_EAXEdR (i : bxInstruction_c) : cpu unit :=
  edx <- EDX ;;
  eax <- EAX ;;
  let op1_64 := signed 64 (Z.lor (u64 (Z.shiftl edx 32)) eax) in
  (if op1_64 =? signed 64 0x8000000000000000 then exception BX_DE_EXCEPTION 0 else ret tt) ;;;
  op2_32 <- BX_READ_32BIT_REG (src i) ;;
  let op2_32 := signed 32 op2_32 in
  (if op2_32 =? 0 then exception BX_DE_EXCEPTION 0 else ret tt) ;;;
  let quotient_64 := signed 64 (Z.quot op1_64 op2_32) in
  let remainder_32 := signed 32 (Z.rem op1_64 op2_32) in
  let quotient_32l := signed 32 (Z.land quotient_64 0xFFFFFFFF) in
  (if negb (quotient_64 =? quotient_32l) then exception BX_DE_EXCEPTION 0 else ret tt) ;;;
  set_RAX (u32 quotient_32l) ;;;
  set_RDX (u32 remainder_32) ;;;
  BX_NEXT_INSTR.

Definition IMUL_GdEdIdR (i : bxInstruction_c) : cpu unit :=
  op2_32 <- BX_READ_32BIT_REG (src i) ;;
  let op2_32 := signed 32 op2_32 in
  let op3_32 := signed 32 (Id i) in
  let product_64 := signed 64 (op2_32 * op3_32) in
  let product_32 := u32 (Z.land product_64 0xFFFFFFFF) in
  BX_WRITE_32BIT_REGZ (dst i) product_32 ;;;
  put_lazy (SET_FLAGS_OSZAPC_LOGIC 32 product_32) ;;;
  (if negb (product_64 =? signed 32 product_64) then modify_lazy assert_flags_OxxxxC else ret tt) ;;;
  BX_NEXT_INSTR.

Definition IMUL_GdEdR (i : bxInstruction_c) : cpu unit :=
  op1_32 <- BX_READ_32BIT_REG (dst i) ;;
  let op1_32 := signed 32 op1_32 in
  op2_32 <- BX_READ_32BIT_REG (src i) ;;
  let op2_32 := signed 32 op2_32 in
  let product_64 := signed 64 (op1_32 * op2_32) in
  let product_32 := u32 (Z.land product_64 0xFFFFFFFF) in
  BX_WRITE_32BIT_REGZ (dst i) product_32 ;;;
  put_lazy (SET_FLAGS_OSZAPC_LOGIC 32 product_32) ;;;
  (if negb (product_64 =? signed 32 product_64) then modify_lazy assert_flags_OxxxxC else ret tt) ;;;
  BX_NEXT_INSTR.

(** ** cpu/mult64.cc *)

Definition MUL_RAXEqR (i : bxInstruction_c) : cpu unit :=
  op1_64 <- RAX ;;
  op2_64 <- BX_READ_64BIT_REG (src i) ;;
  let product_128 := long_mul op1_64 op2_64 in
  set_RAX (lo product_128) ;;;
  set_RDX (hi product_128) ;;;
  put_lazy (SET_FLAGS_OSZAPC_LOGIC 64 (lo product_128)) ;;;
  (if negb (hi product_128 =? 0) then modify_lazy assert_flags_OxxxxC else ret tt) ;;;
  BX_NEXT_INSTR.

(** [((Bit64u)(product_128.hi) + (product_128.lo >> 63)) != 0] *)
Definition imul_overflow (p : Bit128) : bool :=
  negb (u64 (hi p + Z.shiftr (lo p) 63) =? 0).

Definition IMUL_RAXEqR (i : bxInstruction_c) : cpu unit :=
  op1_64 <- RAX ;;
  op2_64 <- BX_READ_64BIT_REG (src i) ;;
  let product_128 := long_imul op1_64 op2_64 in
  set_RAX (lo product_128) ;;;
  set_RDX (hi product_128) ;;;
  put_lazy (SET_FLAGS_OSZAPC_LOGIC 64 (lo product_128)) ;;;
  (if imul_overflow product_128 then modify_lazy assert_flags_OxxxxC else ret tt) ;;;
  BX_NEXT_INSTR.

Definition DIV_RAXEqR (i : bxInstruction_c) : cpu unit :=
  op2_64 <- BX_READ_64BIT_REG (src i) ;;
  (if op2_64 =? 0 then exception BX_DE_EXCEPTION 0 else ret tt) ;;;
  rax <- RAX ;;
  rdx <- RDX ;;
  let op1_128 := {| lo := rax; hi := rdx |} in
  let '(quotient_128, remainder_64) := long_div op1_128 op2_64 in
  let quotient_64l := lo quotient_128 in
  (if negb (hi quotient_128 =? 0) then exception BX_DE_EXCEPTION 0 else ret tt) ;;;
  set_RAX quotient_64l ;;;
  set_RDX remainder_64 ;;;
  BX_NEXT_INSTR.

(** The quotient is not the sign extension of its low word. *)
Definition idiv_overflow (q : Bit128) : bool :=
  let top := negb (Z.land (lo q) 0x8000000000000000 =? 0) in
  (negb top && negb (hi q =? 0)) || (top && negb (hi q =? 0xffffffffffffffff)).

Definition IDIV_RAXEqR (i : bxInstruction_c) : cpu unit :=
  rax <- RAX ;;
  rdx <- RDX ;;
  let op1_128 := {| lo := rax; hi := rdx |} in
  (if (hi op1_128 =? 0x8000000000000000) && (lo op1_128 =? 0)
   then exception BX_DE_EXCEPTION 0 else ret tt) ;;;
  op2_64 <- BX_READ_64BIT_REG (src i) ;;
  (if op2_64 =? 0 then exception BX_DE_EXCEPTION 0 else ret tt) ;;;
  let '(quotient_128, remainder_64) := long_idiv op1_128 op2_64 in
  let quotient_64l := lo quotient_128 in
  (if idiv_overflow quotient_128 then exception BX_DE_EXCEPTION 0 else ret tt) ;;;
  set_RAX quotient_64l ;;;
  set_RDX remainder_64 ;;;
  BX_NEXT_INSTR.

Definition IMUL_GqEqIdR (i : bxInstruction_c) : cpu unit :=
  op1_64 <- BX_READ_64BIT_REG (src i) ;;
  let op2_64 := sext 32 (Id i) in
  let product_128 := long_imul op1_64 op2_64 in
  BX_WRITE_64BIT_REG (dst i) (lo product_128) ;;;
  put_lazy (SET_FLAGS_OSZAPC_LOGIC 64 (lo product_128)) ;;;
  (if imul_overflow product_128 then modify_lazy assert_flags_OxxxxC else ret tt) ;;;
  BX_NEXT_INSTR.

Definition IMUL_GqEqR (i : bxInstruction_c) : cpu unit :=
  op1_64 <- BX_READ_64BIT_REG (dst i) ;;
  op2_64 <- BX_READ_64BIT_REG (src i) ;;
  let product_128 := long_imul op1_64 op2_64 in
  BX_WRITE_64BIT_REG (dst i) (lo product_128) ;;;
  put_lazy (SET_FLAGS_OSZAPC_LOGIC 64 (lo product_128)) ;;;
  (if imul_overflow product_128 then modify_lazy assert_flags_OxxxxC else ret tt) ;;;
  BX_NEXT_INSTR.

End Handlers.
