(* ===== verification/MultRefine.v ===== *)
(** * Reference semantics of multiplication and division, and their refinement

    Products and quotients are stated on integers: MUL and IMUL set OF and CF
    exactly when the product does not fit the operand size, DIV and IDIV raise
    #DE exactly when the divisor is zero or the quotient does not fit, and
    otherwise deliver quotient and remainder of the truncated division. *)

From Stdlib Require Import ZArith Lia List Bool.
From S2P Require Import Prelude LazyFlags Cpu Alu ShiftRefine WideInt Mult.
Open Scope Z_scope.

Inductive mul_instr :=
| MUL | IMUL | DIV | IDIV   (* accumulator forms *)
| IMUL2                     (* destination times source *)
| IMUL3.                    (* source times immediate *)

Section Reference.
Context {M : Type}.
Abbreviation cpu := (cpu flags M).

(** AX, DX:AX, EDX:EAX or RDX:RAX as one number. *)
Definition read_pair (sz : opsize) : cpu Z :=
  match sz with
  | S8 => AX
  | S16 => h <- DX ;; l <- AX ;; ret (2 ^ 16 * h + l)
  | S32 => h <- EDX ;; l <- EAX ;; ret (2 ^ 32 * h + l)
  | S64 => h <- RDX ;; l <- RAX ;; ret (2 ^ 64 * h + l)
  end.

Definition write_pair (sz : opsize) (v : Z) : cpu unit :=
  match sz with
  | S8 => set_AX v
  | S16 => set_AX v ;;; set_DX (v / 2 ^ 16)
  | S32 => BX_WRITE_32BIT_REGZ BX_64BIT_REG_RAX v ;;;
           BX_WRITE_32BIT_REGZ BX_64BIT_REG_RDX (v / 2 ^ 32)
  | S64 => set_RAX v ;;; set_RDX (v / 2 ^ 64)
  end.

(** The flags of a product [p] that overflows when [ov]. *)
Definition mul_flags (n p : Z) (ov : bool) : flags := result_flags n p ov false ov.

Definition divide (sz : opsize) (bad : bool) (q r : Z) : cpu unit :=
  if bad then exception BX_DE_EXCEPTION 0
  else write_pair sz (2 ^ bits sz * r + wrap (bits sz) q).

Definition mul_spec (sz : opsize) (ins : mul_instr) (i : bxInstruction_c) : cpu unit :=
  let n := bits sz in
  b <- read_reg sz i (src i) ;;
  match ins with
  | MUL =>
      a <- read_acc sz ;;
      write_pair sz (a * b) ;;; set_flags (mul_flags n (a * b) (2 ^ n <=? a * b))
  | IMUL =>
      a <- read_acc sz ;;
      let p := signed n a * signed n b in
      write_pair sz p ;;; set_flags (mul_flags n p (signed_overflow n p))
  | DIV =>
      a <- read_pair sz ;;
      divide sz ((b =? 0) || (2 ^ n <=? a / b)) (a / b) (a mod b)
  | IDIV =>
      a <- read_pair sz ;;
      let q := Z.quot (signed (2 * n) a) (signed n b) in
      divide sz ((b =? 0) || signed_overflow n q) q (Z.rem (signed (2 * n) a) (signed n b))
  | IMUL2 =>
      a <- read_reg sz i (dst i) ;;
      let p := signed n a * signed n b in
      write_reg sz i (dst i) p ;;; set_flags (mul_flags n p (signed_overflow n p))
  | IMUL3 =>
      let p := signed n b * signed n (immediate sz i) in
      write_reg sz i (dst i) p ;;; set_flags (mul_flags n p (signed_overflow n p))
  end.

End Reference.

(** ** Values *)

Lemma pow_double n : 0 <= n -> 2 ^ (2 * n) = 2 ^ n * 2 ^ n.
Proof. intros. rewrite <- Z.pow_add_r by lia. f_equal. lia. Qed.

Lemma pow_half n : 0 < n -> 2 ^ n = 2 * 2 ^ (n - 1).
Proof. intros. rewrite <- Z.pow_succ_r by lia. f_equal. lia. Qed.

Lemma pow_pos n : 0 <= n -> 0 < 2 ^ n.
Proof. intros. apply Z.pow_pos_nonneg; lia. Qed.

Lemma pow_double_half n : 0 < n -> 2 ^ (2 * n - 1) = 2 * (2 ^ (n - 1) * 2 ^ (n - 1)).
Proof.
  intros. rewrite <- Z.pow_add_r, <- Z.pow_succ_r by lia. f_equal. lia.
Qed.

Lemma mul_fits n a b : 0 <= n -> fits n a -> fits n b -> fits (2 * n) (a * b).
Proof. intros Hn Ha Hb. unfold fits in *. rewrite pow_double by lia. nia. Qed.

(** A number is the signed reading of its low word exactly when it is in range. *)
Lemma signed_id n p : 0 < n -> - 2 ^ (n - 1) <= p < 2 ^ (n - 1) -> signed n p = p.
Proof.
  intros Hn Hp. pose proof (pow_half n Hn). unfold signed, wrap.
  destruct (Z.lt_ge_cases p 0).
  - replace (p mod 2 ^ n) with (p + 2 ^ n) by (apply Z.mod_unique with (-1); lia).
    destruct (Z.ltb_spec (p + 2 ^ n) (2 ^ (n - 1))); lia.
  - rewrite Z.mod_small by lia. destruct (Z.ltb_spec p (2 ^ (n - 1))); lia.
Qed.

Lemma signed_overflow_eq n p : 0 < n -> negb (p =? signed n p) = signed_overflow n p.
Proof.
  intros Hn. unfold signed_overflow. pose proof (signed_range n p Hn).
  destruct (Z.ltb_spec p (- 2 ^ (n - 1))), (Z.leb_spec (2 ^ (n - 1)) p); cbn [orb];
    destruct (Z.eqb_spec p (signed n p)); cbn [negb]; try reflexivity; try lia.
  exfalso. rewrite signed_id in * by lia. lia.
Qed.

Lemma signed_mul_range n a b : 0 < n ->
  - (2 ^ (n - 1) * 2 ^ (n - 1)) <= signed n a * signed n b <= 2 ^ (n - 1) * 2 ^ (n - 1).
Proof.
  intros Hn. pose proof (signed_range n a Hn). pose proof (signed_range n b Hn). nia.
Qed.

Lemma signed_mul_id n a b : 0 < n ->
  signed (2 * n) (signed n a * signed n b) = signed n a * signed n b.
Proof.
  intros Hn. pose proof (signed_mul_range n a b Hn). pose proof (pow_double_half n Hn).
  pose proof (pow_pos (n - 1) ltac:(lia)). apply signed_id; nia.
Qed.

(** DIV: the quotient equals its low word exactly when it fits. *)
Lemma div_overflow n q : 0 <= n -> 0 <= q -> negb (q =? wrap n q) = (2 ^ n <=? q).
Proof.
  intros Hn Hq. pose proof (wrap_fits n q Hn) as F. unfold fits in F.
  destruct (Z.leb_spec (2 ^ n) q), (Z.eqb_spec q (wrap n q)); cbn [negb]; try reflexivity; try lia.
  rewrite wrap_id in * by (unfold fits; lia). lia.
Qed.

Lemma div_fits m a b : fits m a -> 0 < b -> fits m (a / b).
Proof.
  intros Ha Hb. unfold fits in *. split; [apply Z.div_pos; lia|].
  apply Z.le_lt_trans with a; [|lia]. apply Z.div_le_upper_bound; [lia|]. nia.
Qed.

(** IDIV *)
Lemma quot_range a b m : b <> 0 -> - m < a < m -> - m < Z.quot a b < m.
Proof.
  intros Hb Ha. pose proof (Z.quot_abs a b Hb) as E.
  assert (Z.quot (Z.abs a) (Z.abs b) <= Z.abs a).
  { apply Z.quot_le_upper_bound; [lia|]. assert (1 <= Z.abs b) by lia.
    assert (0 <= Z.abs a) by lia. nia. }
  lia.
Qed.

Lemma rem_signed n a b : 0 < n -> signed n b <> 0 -> signed n (Z.rem a (signed n b)) = Z.rem a (signed n b).
Proof.
  intros Hn Hb. apply signed_id; [exact Hn|].
  pose proof (Z.rem_bound_abs a (signed n b) Hb). pose proof (signed_range n b Hn). lia.
Qed.

(** The smallest dividend overflows whatever the divisor. *)
Lemma idiv_min n b : 0 < n -> signed n b <> 0 ->
  signed_overflow n (Z.quot (- 2 ^ (2 * n - 1)) (signed n b)) = true.
Proof.
  intros Hn Hb. pose proof (signed_range n b Hn) as R. pose proof (pow_double_half n Hn) as E.
  pose proof (pow_pos (n - 1) ltac:(lia)) as P. set (m := 2 ^ (n - 1)) in *.
  rewrite Z.quot_opp_l by exact Hb.
  assert (A : 2 * m <= Z.abs (Z.quot (2 ^ (2 * n - 1)) (signed n b))).
  { rewrite <- Z.quot_abs by exact Hb. apply Z.quot_le_lower_bound; [lia|]. rewrite E.
    rewrite (Z.abs_eq (2 * (m * m))) by nia. assert (Z.abs (signed n b) <= m) by lia. nia. }
  unfold signed_overflow. fold m. set (q := Z.quot _ _) in *.
  destruct (Z.ltb_spec (- q) (- m)), (Z.leb_spec m (- q)); cbn; lia || reflexivity.
Qed.

Lemma signed_zero n b : 0 < n -> fits n b -> (signed n b =? 0) = (b =? 0).
Proof.
  intros Hn Hb. pose proof (pow_half n Hn). pose proof (pow_pos (n - 1) ltac:(lia)).
  destruct (signed_cases n b Hn Hb) as [[A ->]|[A ->]]; [reflexivity|]. unfold fits in Hb.
  destruct (Z.eqb_spec (b - 2 ^ n) 0), (Z.eqb_spec b 0); lia || reflexivity.
Qed.

Lemma ones_land n q : 0 <= n -> Z.land q (Z.ones n) = wrap n q.
Proof. intros. apply Z.land_ones. exact H. Qed.

(** Writing the two bytes of AX one after the other. *)
Lemma put_AH_AL q r x : put_field 8 8 r (put_field 0 8 q x) = put_field 0 16 (2 ^ 8 * r + wrap 8 q) x.
Proof.
  apply Z.bits_inj'. intros k Hk. rewrite !put_field_bit by lia.
  rewrite <- lor_shiftl_add, Z.lor_spec, Z.shiftl_spec, wrap_bit by (apply wrap_fits || lia; lia).
  rewrite Z.sub_0_r.
  destruct (Z.leb_spec 8 k), (Z.ltb_spec k (8 + 8)), (Z.leb_spec 0 k), (Z.ltb_spec k (0 + 8)),
    (Z.ltb_spec k (0 + 16)), (Z.ltb_spec k 8); try lia; cbn [andb orb];
    rewrite ?orb_false_r, ?(Z.testbit_neg_r r) by lia; reflexivity.
Qed.

(** ** The 128-bit values *)

Lemma long_mul_words a b : fits 64 a -> fits 64 b ->
  lo (long_mul a b) = wrap 64 (a * b) /\ hi (long_mul a b) = a * b / 2 ^ 64.
Proof.
  intros Ha Hb. destruct (long_mul_ok a b Ha Hb) as [Hp Ep]. rewrite <- Ep.
  split; [apply val_inj_lo | apply val_inj_hi]; exact Hp.
Qed.

Lemma sval_words x : ok128 x -> lo x = wrap 64 (sval x) /\ hi x = wrap 64 (sval x / 2 ^ 64).
Proof.
  intros [Hl Hh]. unfold sval. rewrite (Z.mul_comm (2 ^ 64)).
  rewrite Z.div_add, (Z.div_small (lo x)) by (exact Hl || lia). cbn [Z.add].
  rewrite wrap_signed, (wrap_id 64 (hi x)) by (assumption || lia). split; [|reflexivity].
  unfold wrap. rewrite Z.mod_add by lia. symmetry. apply Z.mod_small. exact Hl.
Qed.

Lemma imul_overflow_ok p : ok128 p -> imul_overflow p = signed_overflow 64 (sval p).
Proof.
  intros [Hl Hh]. unfold imul_overflow, signed_overflow, sval. rewrite Z.shiftr_div_pow2 by lia.
  replace (2 ^ (64 - 1)) with (2 ^ 63) by reflexivity. unfold fits in *.
  assert (E : exists t, lo p / 2 ^ 63 = t /\ ((t = 0 /\ lo p < 2 ^ 63) \/ (t = 1 /\ 2 ^ 63 <= lo p))).
  { eexists. split; [reflexivity|]. destruct (Z.lt_ge_cases (lo p) (2 ^ 63)).
    - left. split; [apply Z.div_small; lia | lia].
    - right. split; [symmetry; apply Z.div_unique with (lo p - 2 ^ 63); lia | lia]. }
  destruct E as (t & -> & Et).
  destruct (signed_cases 64 (hi p) ltac:(lia) Hh) as [[A ->]|[A ->]];
    replace (2 ^ (64 - 1)) with (2 ^ 63) in A by reflexivity;
    (destruct (word_cases (hi p + t)) as [[B ->]|[[B ->]|[B ->]]]; [lia| lia | |]);
    match goal with |- negb (?x =? 0) = (?y <? ?z) || (?u <=? ?v) =>
      destruct (Z.eqb_spec x 0), (Z.ltb_spec y z), (Z.leb_spec u v) end;
    cbn [negb orb]; lia || reflexivity.
Qed.

Lemma idiv_overflow_ok q : ok128 q -> idiv_overflow q = signed_overflow 64 (sval q).
Proof.
  intros [Hl Hh]. unfold idiv_overflow, signed_overflow, sval. unfold fits in *.
  replace 0x8000000000000000 with (bitmask (64 - 1)) by reflexivity.
  rewrite land_bitmask_zero, negb_involutive, testbit_top, (wrap_id 64 (lo q)) by (lia || exact Hl).
  replace (2 ^ (64 - 1)) with (2 ^ 63) by reflexivity.
  destruct (signed_cases 64 (hi q) ltac:(lia) Hh) as [[A ->]|[A ->]];
    replace (2 ^ (64 - 1)) with (2 ^ 63) in A by reflexivity;
    destruct (Z.leb_spec (2 ^ 63) (lo q)), (Z.eqb_spec (hi q) 0),
      (Z.eqb_spec (hi q) 0xffffffffffffffff);
    match goal with |- _ = (?y <? ?z) || (?u <=? ?v) =>
      destruct (Z.ltb_spec y z), (Z.leb_spec u v) end;
    cbn [negb orb andb]; lia || reflexivity.
Qed.

(** RDX:RAX is a 128-bit dividend. *)
Lemma pair_signed h l : fits 64 h -> fits 64 l -> signed 128 (2 ^ 64 * h + l) = sval (B128 l h).
Proof.
  intros Hh Hl. pose proof (B128_ok l h Hl Hh) as Ho.
  replace (2 ^ 64 * h + l) with (val (B128 l h)) by (unfold val; cbn [lo hi]; lia).
  rewrite <- (sval_mod _ Ho). change (_ mod 2 ^ 128) with (wrap 128 (sval (B128 l h))).
  rewrite signed_wrap by lia. apply signed_id; [lia|]. apply sval_range, Ho.
Qed.

(** The test for the smallest dividend. *)
Lemma pair_min h l : fits 64 h -> fits 64 l ->
  ((h =? 0x8000000000000000) && (l =? 0)) = (sval (B128 l h) =? - 2 ^ 127).
Proof.
  intros Hh Hl. unfold sval, fits in *. cbn [lo hi].
  destruct (signed_cases 64 h ltac:(lia) Hh) as [[A ->]|[A ->]];
    replace (2 ^ (64 - 1)) with (2 ^ 63) in A by reflexivity;
    destruct (Z.eqb_spec h 0x8000000000000000), (Z.eqb_spec l 0);
    match goal with |- _ = (?y =? ?z) => destruct (Z.eqb_spec y z) end; cbn [andb]; lia || reflexivity.
Qed.

(** ** The handlers *)

Definition mul_handler {M} (sz : opsize) (ins : mul_instr) :
    option (bxInstruction_c -> cpu bx_lazyflags_entry M unit) :=
  match sz, ins with
  | S8, MUL => Some MUL_ALEbR | S8, IMUL => Some IMUL_ALEbR
  | S8, DIV => Some DIV_ALEbR | S8, IDIV => Some IDIV_ALEbR
  | S8, _ => None
  | S16, MUL => Some MUL_AXEwR | S16, IMUL => Some IMUL_AXEwR
  | S16, DIV => Some DIV_AXEwR | S16, IDIV => Some IDIV_AXEwR
  | S16, IMUL2 => Some IMUL_GwEwR | S16, IMUL3 => Some IMUL_GwEwIwR
  | S32, MUL => Some MUL_EAXEdR | S32, IMUL => Some IMUL_EAXEdR
  | S32, DIV => Some DIV_EAXEdR | S32, IDIV => Some IDIV_EAXEdR
  | S32, IMUL2 => Some IMUL_GdEdR | S32, IMUL3 => Some IMUL_GdEdIdR
  | S64, MUL => Some MUL_RAXEqR | S64, IMUL => Some IMUL_RAXEqR
  | S64, DIV => Some DIV_RAXEqR | S64, IDIV => Some IDIV_RAXEqR
  | S64, IMUL2 => Some IMUL_GqEqR | S64, IMUL3 => Some IMUL_GqEqIdR
  end.

Section Exec.
Context {M A : Type}.

Lemma bind_raise {F B} (c : bool) v e (k : unit -> cpu F M B) s :
  bind (if c then exception v e else ret tt) k s = if c then Fault (Exn v e) s else k tt s.
Proof. destruct c; reflexivity. Qed.

Lemma bind_assert (c : bool) f (k : unit -> cpu bx_lazyflags_entry M A) s :
  bind (if c then modify_lazy f else ret tt) k s =
  k tt (s <| oszapc := if c then f (oszapc s) else oszapc s |>).
Proof. destruct c; [reflexivity|]. destruct s. reflexivity. Qed.

Lemma bind_WAH {F} v (k : unit -> cpu F M A) s :
  bind (set_AH v) k s =
  k tt (s <| gen_reg := upd (gen_reg s) 0 (put_field 8 8 v (gen_reg s 0)) |>).
Proof. reflexivity. Qed.


(** The accumulator pair as registers. *)
Definition pair_regs (sz : opsize) (v : Z) (g : Z -> Z) : Z -> Z :=
  match sz with
  | S8 => upd g 0 (put_field 0 16 v (g 0))
  | S16 => let g := upd g 0 (put_field 0 16 v (g 0)) in upd g 2 (put_field 0 16 (v / 2 ^ 16) (g 2))
  | S32 => upd (upd g 0 (u32 v)) 2 (u32 (v / 2 ^ 32))
  | S64 => upd (upd g 0 (u64 v)) 2 (u64 (v / 2 ^ 64))
  end.

Lemma write_pair_eq sz v (s : bx_cpu flags M) :
  write_pair sz v s = Ok tt (s <| gen_reg := pair_regs sz v (gen_reg s) |>).
Proof. destruct sz; reflexivity. Qed.

Lemma bind_pair sz v (k : unit -> cpu flags M A) s :
  bind (write_pair sz v) k s = k tt (s <| gen_reg := pair_regs sz v (gen_reg s) |>).
Proof. unfold bind. rewrite write_pair_eq. reflexivity. Qed.

(** The low and the high word written one after the other. *)
Definition pack_regs (sz : opsize) (q r : Z) (g : Z -> Z) : Z -> Z :=
  match sz with
  | S8 => let g := upd g 0 (put_field 0 8 q (g 0)) in upd g 0 (put_field 8 8 r (g 0))
  | S16 => let g := upd g 0 (put_field 0 16 q (g 0)) in upd g 2 (put_field 0 16 r (g 2))
  | S32 => upd (upd g 0 (u32 q)) 2 (u32 r)
  | S64 => upd (upd g 0 (u64 q)) 2 (u64 r)
  end.

Lemma pack_ext sz q q' r r' g :
  wrap (bits sz) q = wrap (bits sz) q' -> wrap (bits sz) r = wrap (bits sz) r' ->
  pack_regs sz q r g = pack_regs sz q' r' g.
Proof.
  intros Eq Er. destruct sz; cbn [bits] in *; unfold pack_regs;
    rewrite ?(put_field_ext 0 _ q q'), ?(put_field_ext _ _ r r'), ?Eq, ?Er by assumption; reflexivity.
Qed.

Lemma pack_low n r q : 0 <= n -> wrap n (2 ^ n * r + wrap n q) = wrap n q.
Proof.
  intros Hn. rewrite wrap_add_r. unfold wrap. rewrite Z.add_comm, (Z.mul_comm (2 ^ n)).
  apply Z.mod_add. pose proof (pow_pos n Hn). lia.
Qed.

Lemma pack_high n r q : 0 <= n -> (2 ^ n * r + wrap n q) / 2 ^ n = r.
Proof.
  intros Hn. pose proof (pow_pos n Hn). rewrite Z.add_comm, (Z.mul_comm (2 ^ n)), Z.div_add by lia.
  rewrite Z.div_small by (apply wrap_fits; lia). lia.
Qed.

Lemma pair_pack sz q r g : pair_regs sz (2 ^ bits sz * r + wrap (bits sz) q) g = pack_regs sz q r g.
Proof.
  destruct sz; cbn [bits]; unfold pair_regs, pack_regs.
  - rewrite upd_same, upd_upd, put_AH_AL. reflexivity.
  - rewrite (put_field_ext 0 16 _ q) by (apply pack_low; lia). rewrite pack_high by lia. reflexivity.
  - rewrite pack_low, pack_high by lia. reflexivity.
  - rewrite pack_low, pack_high by lia. reflexivity.
Qed.

Lemma divide_eq sz bad q r (s : bx_cpu flags M) :
  divide sz bad q r s =
  if bad then Fault (Exn BX_DE_EXCEPTION 0) s
  else Ok tt (s <| gen_reg := pack_regs sz q r (gen_reg s) |>).
Proof. unfold divide. destruct bad; [reflexivity|]. rewrite write_pair_eq, pair_pack. reflexivity. Qed.

End Exec.

Lemma mul_flags_eq n r p c ov : osize n -> wrap n r = wrap n p -> c = ov ->
  lazy_flags (if c : bool then assert_flags_OxxxxC (SET_FLAGS_OSZAPC_LOGIC n r)
              else SET_FLAGS_OSZAPC_LOGIC n r) = mul_flags n p ov.
Proof.
  intros Hn E ->. unfold mul_flags. destruct ov; [|apply LOGIC_flags_eq; assumption].
  rewrite <- (LOGIC_flags_eq n r p Hn E) || idtac.
  rewrite lazy_flags_bits by (apply OxxxxC_ok, SIZE_ok). unfold assert_flags_OxxxxC.
  change 1 with (Z.b2z true). rewrite OxxxxC_flags, <- lazy_flags_bits by apply SIZE_ok.
  rewrite (LOGIC_flags_eq n r p Hn E). reflexivity.
Qed.

Lemma assert_ok (c : bool) e : lf_ok e -> lf_ok (if c then assert_flags_OxxxxC e else e).
Proof. intros He. destruct c; [apply OxxxxC_ok|]; exact He. Qed.

#[local] Opaque Z.lor Z.shiftl Z.shiftr Z.lxor Z.land Z.pow wrap Z.mul Z.add Z.opp Z.ltb Z.leb Z.eqb
  Z.div Z.modulo Z.quot Z.rem get_field put_field read8x write8x upd result_flags
  lazy_flags SET_FLAGS_OSZAPC_LOGIC set_flags_OxxxxC long_mul long_imul long_div long_idiv signed sext.

Ltac unfold_mul := cbv [
  MUL_ALEbR IMUL_ALEbR DIV_ALEbR IDIV_ALEbR MUL_AXEwR IMUL_AXEwR DIV_AXEwR IDIV_AXEwR
  IMUL_GwEwIwR IMUL_GwEwR MUL_EAXEdR IMUL_EAXEdR DIV_EAXEdR IDIV_EAXEdR IMUL_GdEdIdR IMUL_GdEdR
  MUL_RAXEqR IMUL_RAXEqR DIV_RAXEqR IDIV_RAXEqR IMUL_GqEqIdR IMUL_GqEqR DX].

Ltac mexec :=
  unfold mul_spec, read_pair; unfold_mul; unfold_io; cbn [bits]; exec_simpl;
  repeat ((rewrite bind_raise || rewrite bind_assert || rewrite bind_WAH || rewrite divide_eq || exec_rw);
          exec_simpl).

(** Low and high words. *)
Lemma land_FF x : Z.land x 0xFF = u8 x.
Proof. apply (Z.land_ones x 8). lia. Qed.

Lemma land_FFFF x : Z.land x 0xFFFF = u16 x.
Proof. apply (Z.land_ones x 16). lia. Qed.

Lemma land_FFFFFFFF x : Z.land x 0xFFFFFFFF = u32 x.
Proof. apply (Z.land_ones x 32). lia. Qed.

Lemma wrap_shiftr n m p : 0 <= n -> 2 * n <= m -> wrap n (Z.shiftr (wrap m p) n) = wrap n (p / 2 ^ n).
Proof.
  intros. apply Z.bits_inj'. intros k Hk.
  rewrite !wrap_bit, Z.shiftr_spec, wrap_bit, Z.div_pow2_bits by lia.
  destruct (Z.ltb_spec k n), (Z.ltb_spec (k + n) m); try lia; reflexivity.
Qed.

Lemma high_zero n p : 0 <= n -> fits (2 * n) p -> negb (wrap n (p / 2 ^ n) =? 0) = (2 ^ n <=? p).
Proof.
  intros Hn Hp. unfold fits in Hp. rewrite pow_double in Hp by lia. pose proof (pow_pos n Hn).
  rewrite wrap_id by (unfold fits; split; [apply Z.div_pos | apply Z.div_lt_upper_bound]; lia).
  destruct (Z.leb_spec (2 ^ n) p), (Z.eqb_spec (p / 2 ^ n) 0) as [E|E]; cbn [negb]; try reflexivity.
  - apply Z.div_small_iff in E; lia.
  - elim E. apply Z.div_small. lia.
Qed.

(** An operand read from a register. *)
Ltac gen_ops :=
  repeat match goal with
  | |- context [get_field 0 ?n (?g ?r)] =>
      let x := fresh "x" in let F := fresh "Fx" in
      pose proof (get_field_fits 0 n (g r) ltac:(lia)) as F;
      generalize dependent (get_field 0 n (g r)); intros x F
  | |- context [read8x ?r ?e ?g] =>
      let x := fresh "x" in let F := fresh "Fx" in
      pose proof (read8x_fits r e g) as F;
      generalize dependent (read8x r e g); intros x F
  end.

Ltac mul_norm := unfold GET32L, GET32H;
  rewrite ?land_FF, ?land_FFFF, ?land_FFFFFFFF; wrap_norm;
  rewrite ?wrap_shiftr, ?Z.shiftr_div_pow2 by lia; wrap_norm.

Ltac mul_regs :=
  cbv [pair_regs pack_regs];
  repeat match goal with
  | |- ?x = ?x => reflexivity
  | |- upd ?g ?k ?v = upd ?g' ?k ?w => 
      let E := fresh in assert (E : v = w); [| rewrite E; f_equal]
  | |- put_field _ _ _ _ = put_field _ _ _ _ => apply put_field_ext
  | |- wrap _ _ = wrap _ _ => progress wrap_norm
  end.

Ltac mul_end :=
  split;
  [ apply Ok_abs;
    [ mul_regs
    | symmetry; apply mul_flags_eq; [osize_tac | wrap_norm; reflexivity | ]
    | reflexivity ]
  | split; [regs_fit | cbn [oszapc]; apply assert_ok; lf_ok_tac] ].

Section Handlers.
Context {M : Type}.
Abbreviation state := (bx_cpu bx_lazyflags_entry M).

Lemma MUL8_ok i (s : state) : cpu_ok s -> osim (MUL_ALEbR i s) (mul_spec S8 MUL i (abs s)).
Proof.
  intros Hs. destruct s as [g b e m]. mexec. rewrite bind_pair. exec_simpl. mexec.
  gen_ops. mul_norm. mul_end. apply high_zero; [lia|apply mul_fits; auto; lia].
Qed.

Lemma IMUL8_ok i (s : state) : cpu_ok s -> osim (IMUL_ALEbR i s) (mul_spec S8 IMUL i (abs s)).
Proof.
  intros Hs. destruct s as [g b e m]. mexec. rewrite bind_pair. exec_simpl. mexec.
  gen_ops. rewrite !(signed_mul_id 8) by lia. mul_norm. mul_end. apply signed_overflow_eq. lia.
Qed.

Lemma MUL16_ok i (s : state) : cpu_ok s -> osim (MUL_AXEwR i s) (mul_spec S16 MUL i (abs s)).
Proof.
  intros Hs. destruct s as [g b e m]. mexec. rewrite bind_pair. exec_simpl. mexec.
  gen_ops. mul_norm. mul_end. apply high_zero; [lia|apply mul_fits; auto; lia].
Qed.

Lemma IMUL16_ok i (s : state) : cpu_ok s -> osim (IMUL_AXEwR i s) (mul_spec S16 IMUL i (abs s)).
Proof.
  intros Hs. destruct s as [g b e m]. mexec. rewrite bind_pair. exec_simpl. mexec.
  gen_ops. rewrite !(signed_mul_id 16) by lia. mul_norm. mul_end. apply signed_overflow_eq; lia.
Qed.

Lemma MUL32_ok i (s : state) : cpu_ok s -> osim (MUL_EAXEdR i s) (mul_spec S32 MUL i (abs s)).
Proof.
  intros Hs. destruct s as [g b e m]. mexec. rewrite bind_pair. exec_simpl. mexec.
  gen_ops. mul_norm. mul_end. apply high_zero; [lia|apply mul_fits; auto; lia].
Qed.

Lemma IMUL32_ok i (s : state) : cpu_ok s -> osim (IMUL_EAXEdR i s) (mul_spec S32 IMUL i (abs s)).
Proof.
  intros Hs. destruct s as [g b e m]. mexec. rewrite bind_pair. exec_simpl. mexec.
  gen_ops. rewrite !(signed_mul_id 32) by lia. mul_norm. mul_end. apply signed_overflow_eq; lia.
Qed.

Lemma IMUL2_16_ok i (s : state) : cpu_ok s -> osim (IMUL_GwEwR i s) (mul_spec S16 IMUL2 i (abs s)).
Proof.
  intros Hs. destruct s as [g b e m]. mexec.
  gen_ops. rewrite !(signed_mul_id 16) by lia. mul_norm. mul_end. apply signed_overflow_eq; lia.
Qed.

Lemma IMUL3_16_ok i (s : state) : cpu_ok s -> osim (IMUL_GwEwIwR i s) (mul_spec S16 IMUL3 i (abs s)).
Proof.
  intros Hs. destruct s as [g b e m]. mexec.
  gen_ops. rewrite !(signed_mul_id 16) by lia. mul_norm. mul_end. apply signed_overflow_eq; lia.
Qed.

Lemma IMUL2_32_ok i (s : state) : cpu_ok s -> osim (IMUL_GdEdR i s) (mul_spec S32 IMUL2 i (abs s)).
Proof.
  intros Hs. destruct s as [g b e m]. mexec.
  gen_ops. rewrite !(signed_mul_id 32) by lia. mul_norm. mul_end. apply signed_overflow_eq; lia.
Qed.

Lemma IMUL3_32_ok i (s : state) : cpu_ok s -> osim (IMUL_GdEdIdR i s) (mul_spec S32 IMUL3 i (abs s)).
Proof.
  intros Hs. destruct s as [g b e m]. mexec.
  gen_ops. rewrite !(signed_mul_id 32) by lia. mul_norm. mul_end. apply signed_overflow_eq; lia.
Qed.

(** ** 64-bit products *)

Lemma signed_sext n x : 0 < n <= 64 -> signed 64 (sext n x) = signed n x.
Proof.
  intros Hn. change (sext n x) with (u64 (signed n x)). rewrite signed_wrap by lia. apply signed_id; [lia|].
  pose proof (signed_range n x ltac:(lia)).
  assert (2 ^ (n - 1) <= 2 ^ (64 - 1)) by (apply Z.pow_le_mono_r; lia). lia.
Qed.

(** The words and the overflow test of [long_imul]. *)
Lemma long_imul_words a b : fits 64 a -> fits 64 b ->
  let p := signed 64 a * signed 64 b in
  lo (long_imul a b) = wrap 64 p /\ hi (long_imul a b) = wrap 64 (p / 2 ^ 64) /\
  imul_overflow (long_imul a b) = signed_overflow 64 p.
Proof.
  intros Ha Hb p. destruct (long_imul_ok a b Ha Hb) as [Hp Ep]. fold p in Ep. rewrite <- Ep.
  destruct (sval_words _ Hp) as [El Eh]. split; [exact El|]. split; [exact Eh|].
  apply imul_overflow_ok, Hp.
Qed.

Lemma MUL64_ok i (s : state) : cpu_ok s -> osim (MUL_RAXEqR i s) (mul_spec S64 MUL i (abs s)).
Proof.
  intros Hs. destruct s as [g b e m]. mexec. rewrite bind_pair. exec_simpl. mexec.
  assert (Fa : fits 64 (g 0)) by apply Hs. assert (Fb : fits 64 (g (src i))) by apply Hs.
  destruct (long_mul_words _ _ Fa Fb) as [-> ->]. mul_norm. mul_end.
  rewrite <- (high_zero 64) by (lia || apply mul_fits; auto; lia).
  rewrite wrap_id; [reflexivity|]. 
  pose proof (mul_fits 64 _ _ ltac:(lia) Fa Fb) as F. unfold fits in *.
  rewrite pow_double in F by lia. split; [apply Z.div_pos; lia | apply Z.div_lt_upper_bound; lia].
Qed.

Lemma IMUL64_ok i (s : state) : cpu_ok s -> osim (IMUL_RAXEqR i s) (mul_spec S64 IMUL i (abs s)).
Proof.
  intros Hs. destruct s as [g b e m]. mexec. rewrite bind_pair. exec_simpl. mexec.
  destruct (long_imul_words (g 0) (g (src i))) as (-> & -> & ->); try apply Hs.
  mul_norm. mul_end. reflexivity.
Qed.

Lemma IMUL2_64_ok i (s : state) : cpu_ok s -> osim (IMUL_GqEqR i s) (mul_spec S64 IMUL2 i (abs s)).
Proof.
  intros Hs. destruct s as [g b e m]. mexec.
  destruct (long_imul_words (g (dst i)) (g (src i))) as (-> & _ & ->); try apply Hs.
  mul_norm. mul_end. reflexivity.
Qed.

Lemma IMUL3_64_ok i (s : state) : cpu_ok s -> osim (IMUL_GqEqIdR i s) (mul_spec S64 IMUL3 i (abs s)).
Proof.
  intros Hs. destruct s as [g b e m]. mexec.
  change (u64 (signed 32 (Id i))) with (sext 32 (Id i)).
  destruct (long_imul_words (g (src i)) (sext 32 (Id i))) as (-> & _ & ->);
    [apply Hs | apply sext_fits |].
  mul_norm. mul_end. reflexivity.
Qed.

(** ** Divisions *)

Lemma Fault_sim e (s : state) : cpu_ok s -> osim (A := unit) (Fault e s) (Fault e (abs s)).
Proof. intros Hs. split; [reflexivity | exact Hs]. Qed.

(** A division that leaves quotient [q] and remainder [r]. *)
Ltac div_end sz :=
  wrap_norm; split;
  [ apply Ok_abs; [symmetry; refine (pack_ext sz _ _ _ _ _ _ _); cbn [bits]; wrap_norm;
                    rewrite ?wrap_signed by lia; reflexivity
                  | reflexivity | reflexivity]
  | split; [regs_fit | cbn [oszapc]; lf_ok_tac] ].

(** Unsigned division: both sides fault together. *)
Ltac div_tac sz n :=
  match goal with |- context [(?x0 =? 0) || _] =>
  destruct (Z.eqb_spec x0 0) as [|N]; cbn [orb]; [apply Fault_sim; assumption|];
  match goal with
  | |- context [2 ^ _ <=? ?x / x0] =>
      let H := fresh in
      assert (H : 0 < x0) by (match goal with F : fits n x0 |- _ => unfold fits in F; lia end);
      let H2 := fresh in
      let nn := eval vm_compute in (2 * n) in
      assert (H2 : fits nn (x / x0)) by (apply div_fits; assumption);
      rewrite ?(wrap_id nn (x / x0)) by exact H2;
      wrap_norm;
      rewrite (div_overflow n) by (try apply H2; lia);
      destruct (2 ^ n <=? x / x0); [apply Fault_sim; assumption | div_end sz]
  end end.

Lemma DIV8_ok i (s : state) : cpu_ok s -> osim (DIV_ALEbR i s) (mul_spec S8 DIV i (abs s)).
Proof.
  intros Hs. destruct s as [g b e m]. mexec. gen_ops. rewrite land_FF.
  div_tac S8 8.
Qed.

(** The dividend of DIV and IDIV. *)
Lemma pair_lor n h l : 0 <= n -> fits n h -> fits n l ->
  fits (2 * n) (2 ^ n * h + l) /\ Z.lor (wrap (2 * n) (Z.shiftl h n)) l = 2 ^ n * h + l.
Proof.
  intros Hn Hh Hl. pose proof (pow_double n Hn). pose proof (pow_pos n Hn).
  assert (F : fits (2 * n) (2 ^ n * h + l)) by (unfold fits in *; nia).
  split; [exact F|]. rewrite wrap_id; [apply lor_shiftl_add; assumption|].
  rewrite Z.shiftl_mul_pow2 by lia. unfold fits in *. nia.
Qed.

Lemma DIV16_ok i (s : state) : cpu_ok s -> osim (DIV_AXEwR i s) (mul_spec S16 DIV i (abs s)).
Proof.
  intros Hs. destruct s as [g b e m]. mexec. gen_ops. rewrite land_FFFF.
  match goal with |- context [Z.lor (u32 (Z.shiftl ?h 16)) ?l] =>
    destruct (pair_lor 16 h l) as [Fp Ep]; try assumption; try lia end.
  change (2 * 16) with 32 in *. rewrite Ep. clear Ep.
  div_tac S16 16.
Qed.

Lemma DIV32_ok i (s : state) : cpu_ok s -> osim (DIV_EAXEdR i s) (mul_spec S32 DIV i (abs s)).
Proof.
  intros Hs. destruct s as [g b e m]. mexec. gen_ops. rewrite land_FFFFFFFF.
  match goal with |- context [u64 ((u64 (Z.shiftl ?h 32)) + ?l)] =>
    destruct (pair_lor 32 h l) as [Fp Ep]; try assumption; try lia;
    assert (Es : u64 ((u64 (Z.shiftl h 32)) + l) = 2 ^ 32 * h + l)
      by (rewrite wrap_add_l, Z.shiftl_mul_pow2, Z.mul_comm by lia; apply wrap_id, Fp) end.
  change (2 * 32) with 64 in *. rewrite Es. clear Ep Es.
  div_tac S32 32.
Qed.

Lemma long_div_words h l v : fits 64 h -> fits 64 l -> fits 64 v -> v <> 0 ->
  exists q r, long_div (B128 l h) v = (q, r) /\
    negb (hi q =? 0) = (2 ^ 64 <=? (2 ^ 64 * h + l) / v) /\
    ((2 ^ 64 <=? (2 ^ 64 * h + l) / v) = false ->
     lo q = (2 ^ 64 * h + l) / v /\ r = (2 ^ 64 * h + l) mod v).
Proof.
  intros Hh Hl Hv Nv. pose proof (B128_ok l h Hl Hh) as Ho.
  assert (Hv' : 0 < v < 2 ^ 64) by (unfold fits in Hv; lia).
  pose proof (long_div_val (B128 l h) v Ho Hv') as D.
  destruct (long_div (B128 l h) v) as [q r]. exists q, r. split; [reflexivity|].
  destruct D as (Hq & _ & D1 & D2). cbn [hi] in *.
  assert (Ev : val (B128 l h) = 2 ^ 64 * h + l) by (unfold val; cbn [lo hi]; lia). rewrite Ev in *.
  destruct (Z.lt_ge_cases h v) as [L|L].
  - destruct D1 as [Eq Er]; [auto|].
    assert (S : (2 ^ 64 * h + l) / v < 2 ^ 64).
    { apply Z.div_lt_upper_bound; [lia|]. unfold fits in *. nia. }
    rewrite (val_inj_hi q Hq), (val_inj_lo q Hq), Eq.
    assert (P : 0 <= (2 ^ 64 * h + l) / v) by (apply Z.div_pos; unfold fits in *; lia).
    rewrite Z.div_small, Z.mod_small by lia. split; [|auto].
    cbn. symmetry. apply Z.leb_gt. exact S.
  - assert (S : 2 ^ 64 <= (2 ^ 64 * h + l) / v).
    { apply Z.div_le_lower_bound; [lia|]. unfold fits in *. nia. }
    apply Z.leb_le in S. rewrite S. split; [|discriminate].
    apply negb_true_iff, Z.eqb_neq. auto.
Qed.

Lemma DIV64_ok i (s : state) : cpu_ok s -> osim (DIV_RAXEqR i s) (mul_spec S64 DIV i (abs s)).
Proof.
  intros Hs. destruct s as [g b e m]. mexec.
  assert (Fh : fits 64 (g 2)) by apply Hs. assert (Fl : fits 64 (g 0)) by apply Hs.
  assert (Fv : fits 64 (g (src i))) by apply Hs.
  destruct (Z.eqb_spec (g (src i)) 0) as [|N]; cbn [orb]; [apply Fault_sim; assumption|].
  destruct (long_div_words _ _ _ Fh Fl Fv N) as (q & r & -> & E & V). mexec. rewrite E.
  destruct (2 ^ 64 <=? _); [apply Fault_sim; assumption|]. destruct V as [-> ->]; [reflexivity|].
  div_end S64.
Qed.

(** *** Signed division *)

Lemma idiv_val n a v : 0 < n -> fits n v -> v <> 0 -> signed (2 * n) a <> - 2 ^ (2 * n - 1) ->
  let q := Z.quot (signed (2 * n) a) (signed n v) in
  let r := Z.rem (signed (2 * n) a) (signed n v) in
  signed (2 * n) q = q /\ signed n r = r.
Proof.
  intros Hn Hv Nv Nm q r. assert (N : signed n v <> 0).
  { apply Z.eqb_neq. rewrite signed_zero by assumption. apply Z.eqb_neq, Nv. }
  split; [|apply rem_signed; assumption].
  pose proof (signed_range (2 * n) a ltac:(lia)) as R.
  pose proof (quot_range (signed (2 * n) a) (signed n v) (2 ^ (2 * n - 1)) N ltac:(lia)) as Q.
  apply signed_id; [lia|]. fold q in Q. lia.
Qed.

Lemma signed_min n : 0 < n -> signed n (2 ^ (n - 1)) = - 2 ^ (n - 1).
Proof.
  intros Hn. pose proof (pow_half n Hn). pose proof (pow_pos (n - 1) ltac:(lia)).
  destruct (signed_cases n (2 ^ (n - 1)) Hn) as [[A E]|[A E]]; [unfold fits; lia | lia | lia].
Qed.

Ltac idiv_tac sz n :=
  match goal with |- context [(?x0 =? 0) || signed_overflow n (Z.quot (signed ?m ?a) _)] =>
    rewrite (signed_zero n x0) by (lia || assumption);
    let E := fresh in let N := fresh in
    destruct (Z.eqb_spec (signed m a) (- 2 ^ (m - 1))) as [E|N];
    [ rewrite E;
      destruct (Z.eqb_spec x0 0) as [|N]; cbn [orb]; [apply Fault_sim; assumption|];
      let Hm := fresh in
      pose proof (idiv_min n x0 ltac:(lia)) as Hm;
      change (2 * n) with m in Hm; rewrite Hm by
        (apply Z.eqb_neq; rewrite signed_zero by (lia || assumption); apply Z.eqb_neq, N);
      apply Fault_sim; assumption
    | let N0 := fresh in
      destruct (Z.eqb_spec x0 0) as [|N0]; cbn [orb]; [apply Fault_sim; assumption|];
      let Eq := fresh in let Er := fresh in
      destruct (idiv_val n a x0 ltac:(lia) ltac:(assumption) N0 N) as [Eq Er];
      change (2 * n) with m in Eq, Er;
      rewrite ?Eq, ?Er, ?signed_wrap by lia; rewrite (signed_overflow_eq n) by lia;
      destruct (signed_overflow n _); [apply Fault_sim; assumption | div_end sz] ]
  end.

Lemma IDIV8_ok i (s : state) : cpu_ok s -> osim (IDIV_ALEbR i s) (mul_spec S8 IDIV i (abs s)).
Proof.
  intros Hs. destruct s as [g b e m]. mexec. gen_ops. rewrite land_FF.
  change (signed 16 0x8000) with (signed 16 (2 ^ (16 - 1))). rewrite signed_min by lia.
  change (2 * 8) with 16. idiv_tac S8 8.
Qed.

Lemma IDIV16_ok i (s : state) : cpu_ok s -> osim (IDIV_AXEwR i s) (mul_spec S16 IDIV i (abs s)).
Proof.
  intros Hs. destruct s as [g b e m]. mexec. gen_ops. rewrite land_FFFF.
  match goal with |- context [Z.lor (u32 (Z.shiftl ?h 16)) ?l] =>
    destruct (pair_lor 16 h l) as [Fp Ep]; try assumption; try lia end.
  change (2 * 16) with 32 in *. rewrite Ep. clear Ep.
  change (signed 32 0x80000000) with (signed 32 (2 ^ (32 - 1))). rewrite signed_min by lia.
  idiv_tac S16 16.
Qed.

Lemma IDIV32_ok i (s : state) : cpu_ok s -> osim (IDIV_EAXEdR i s) (mul_spec S32 IDIV i (abs s)).
Proof.
  intros Hs. destruct s as [g b e m]. mexec. gen_ops. rewrite land_FFFFFFFF.
  match goal with |- context [Z.lor (u64 (Z.shiftl ?h 32)) ?l] =>
    destruct (pair_lor 32 h l) as [Fp Ep]; try assumption; try lia end.
  change (2 * 32) with 64 in *. rewrite Ep. clear Ep.
  change (signed 64 0x8000000000000000) with (signed 64 (2 ^ (64 - 1))). rewrite signed_min by lia.
  idiv_tac S32 32.
Qed.

Lemma IDIV64_ok i (s : state) : cpu_ok s -> osim (IDIV_RAXEqR i s) (mul_spec S64 IDIV i (abs s)).
Proof.
  intros Hs. destruct s as [g b e m]. mexec.
  assert (Fh : fits 64 (g 2)) by apply Hs. assert (Fl : fits 64 (g 0)) by apply Hs.
  assert (Fv : fits 64 (g (src i))) by apply Hs.
  change (2 * 64) with 128. rewrite (pair_signed _ _ Fh Fl). cbn [hi lo].
  rewrite (pair_min _ _ Fh Fl). pose proof (B128_ok _ _ Fl Fh) as Ho.
  pose proof (signed_zero 64 _ ltac:(lia) Fv) as Sz.
  destruct (Z.eqb_spec (sval (B128 (g 0) (g 2))) (- 2 ^ 127)) as [E|N].
  - rewrite E. destruct (Z.eqb_spec (g (src i)) 0) as [|N]; cbn [orb]; [apply Fault_sim; assumption|].
    apply Z.eqb_neq in Sz. pose proof (idiv_min 64 (g (src i)) ltac:(lia) Sz) as Hm.
    change (2 * 64 - 1) with 127 in Hm. rewrite Hm. apply Fault_sim; assumption.
  - destruct (Z.eqb_spec (g (src i)) 0) as [|N0]; cbn [orb]; [apply Fault_sim; assumption|].
    pose proof (sval_range _ Ho) as R.
    pose proof (long_idiv_val _ _ Ho Fv N0 ltac:(lia)) as D.
    destruct (long_idiv (B128 (g 0) (g 2)) (g (src i))) as [q r]. destruct D as (Hq & Hr & Eq & Er).
    mexec. rewrite (idiv_overflow_ok q Hq), <- Eq, <- Er.
    destruct (sval_words q Hq) as [-> _].
    destruct (signed_overflow 64 (sval q)); [apply Fault_sim; assumption | div_end S64].
Qed.

Lemma mul_handler_refines sz ins h i (s : state) : mul_handler sz ins = Some h -> cpu_ok s ->
  osim (h i s) (mul_spec sz ins i (abs s)).
Proof.
  intros E Hs. destruct sz, ins; try discriminate E; injection E as <-;
    auto using MUL8_ok, IMUL8_ok, DIV8_ok, IDIV8_ok, MUL16_ok, IMUL16_ok, DIV16_ok, IDIV16_ok,
      IMUL2_16_ok, IMUL3_16_ok, MUL32_ok, IMUL32_ok, DIV32_ok, IDIV32_ok, IMUL2_32_ok, IMUL3_32_ok,
      MUL64_ok, IMUL64_ok, DIV64_ok, IDIV64_ok, IMUL2_64_ok, IMUL3_64_ok.
Qed.

(** C37: every multiplication and division handler, 8 to 64 bits, implements the
    reference: the exact product with OF and CF set when it does not fit, the
    truncated quotient and remainder, and #DE, before any register is written,
    exactly when the divisor is zero or the quotient does not fit. *)
Theorem mul_handlers_refine sz ins h i (s : state) : mul_handler sz ins = Some h -> cpu_ok s ->
  osim (h i s) (mul_spec sz ins i (abs s)).
Proof. apply mul_handler_refines. Qed.

End Handlers.

(** ** Division undoes multiplication; concrete runs of the handlers *)

#[local] Transparent Z.lor Z.shiftl Z.shiftr Z.lxor Z.land Z.pow wrap Z.mul Z.add Z.opp Z.ltb Z.leb Z.eqb
  Z.div Z.modulo Z.quot Z.rem get_field put_field read8x write8x upd result_flags
  lazy_flags SET_FLAGS_OSZAPC_LOGIC set_flags_OxxxxC long_mul long_imul long_div long_idiv signed sext.

(** The accumulator and the source operand as numbers. *)
Definition accum (sz : opsize) (g : Z -> Z) : Z := wrap (bits sz) (g 0).

Definition source (sz : opsize) (i : bxInstruction_c) (g : Z -> Z) : Z :=
  match sz with
  | S8 => read8x (src i) (extend8bitL i) g
  | _ => wrap (bits sz) (g (src i))
  end.

(** The source is not a part of the accumulator pair. *)
Definition source_apart (sz : opsize) (i : bxInstruction_c) : Prop :=
  src i <> 0 /\ src i <> 2 /\ (sz = S8 -> src i <> 4).

Lemma get_field_0 n x : get_field 0 n x = wrap n x.
Proof. unfold get_field. rewrite Z.shiftr_0_r. reflexivity. Qed.

Lemma source_fits sz i g : fits (bits sz) (source sz i g).
Proof. destruct sz; cbn [bits source]; [apply read8x_fits | | |]; apply wrap_fits; lia. Qed.

Section RoundTrip.
Context {M : Type}.

Lemma run_read_source sz i {A} (k : Z -> cpu flags M A) s : (forall r, fits 64 (gen_reg s r)) ->
  bind (read_reg sz i (src i)) k s = k (source sz i (gen_reg s)) s.
Proof.
  intros Hg. destruct sz; cbn [read_reg source bits].
  - apply bind_R8x.
  - rewrite bind_R16, get_field_0. reflexivity.
  - rewrite bind_R32, get_field_0. reflexivity.
  - rewrite bind_R64, wrap_id by apply Hg. reflexivity.
Qed.

Lemma run_read_acc sz {A} (k : Z -> cpu flags M A) s : (forall r, fits 64 (gen_reg s r)) ->
  bind (read_acc sz) k s = k (accum sz (gen_reg s)) s.
Proof.
  intros Hg. unfold accum. destruct sz; cbn [read_acc bits].
  - unfold AL. rewrite bind_R8L, get_field_0. reflexivity.
  - unfold AX. rewrite bind_R16, get_field_0. reflexivity.
  - unfold EAX. rewrite bind_R32, get_field_0. reflexivity.
  - unfold RAX. rewrite bind_R64, wrap_id by apply Hg. reflexivity.
Qed.

Lemma run_MUL sz i (s : bx_cpu flags M) : (forall r, fits 64 (gen_reg s r)) ->
  let p := accum sz (gen_reg s) * source sz i (gen_reg s) in
  mul_spec sz MUL i s =
  Ok tt (s <| gen_reg := pair_regs sz p (gen_reg s) |>
           <| oszapc := mul_flags (bits sz) p (2 ^ bits sz <=? p) |>).
Proof.
  intros Hg p. unfold mul_spec. rewrite run_read_source, run_read_acc, bind_pair by exact Hg.
  reflexivity.
Qed.

(** The pair that was written is read back. *)
Lemma run_read_pair sz p g {A} (k : Z -> cpu flags M A) s :
  fits (2 * bits sz) p -> gen_reg s = pair_regs sz p g -> bind (read_pair sz) k s = k p s.
Proof.
  intros Hp Eg. pose proof (bits_osize sz) as Ho.
  assert (W : forall n, 0 <= n -> fits (2 * n) p -> 2 ^ n * wrap n (p / 2 ^ n) + wrap n p = p).
  { intros n Hn Fp. unfold fits in Fp. rewrite pow_double in Fp by lia. pose proof (pow_pos n Hn).
    rewrite (wrap_id n (p / 2 ^ n))
      by (unfold fits; split; [apply Z.div_pos | apply Z.div_lt_upper_bound]; lia).
    unfold wrap. symmetry. apply Z.div_mod. lia. }
  destruct sz; cbn [read_pair bits pair_regs] in *.
  - unfold AX. rewrite bind_R16, Eg. change BX_64BIT_REG_RAX with 0.
    rewrite upd_same, get_put_field, wrap_id by (assumption || lia). reflexivity.
  - rewrite bind_assoc. unfold DX. rewrite bind_R16, bind_assoc. unfold AX. rewrite bind_R16, bind_ret.
    rewrite Eg. change BX_64BIT_REG_RAX with 0. change BX_64BIT_REG_RDX with 2.
    rewrite upd_same, (upd_neq _ 2) by lia.
    rewrite upd_same, !get_put_field, W by (assumption || lia). reflexivity.
  - rewrite bind_assoc. unfold EDX. rewrite bind_R32, bind_assoc. unfold EAX. rewrite bind_R32, bind_ret.
    rewrite Eg. change BX_64BIT_REG_RAX with 0. change BX_64BIT_REG_RDX with 2.
    rewrite upd_same, (upd_neq _ 2), upd_same, !get_field_0, !wrap_wrap, W by (assumption || lia).
    reflexivity.
  - rewrite bind_assoc. unfold RDX. rewrite bind_R64, bind_assoc. unfold RAX. rewrite bind_R64, bind_ret.
    rewrite Eg. change BX_64BIT_REG_RAX with 0. change BX_64BIT_REG_RDX with 2.
    rewrite upd_same, (upd_neq _ 2), upd_same, W by (assumption || lia). reflexivity.
Qed.

Lemma source_pair_regs sz i p g : source_apart sz i -> source sz i (pair_regs sz p g) = source sz i g.
Proof.
  intros (H0 & H2 & H4). destruct sz; cbn [source pair_regs]; rewrite ?upd_neq by lia; try reflexivity.
  specialize (H4 eq_refl). unfold read8x. rewrite !upd_neq by lia. reflexivity.
Qed.

Lemma accum_pack sz q r g : accum sz (pack_regs sz q r g) = wrap (bits sz) q.
Proof.
  unfold accum. destruct sz; cbn [bits pack_regs].
  - cbv zeta. rewrite !upd_same, put_AH_AL, <- (wrap_wrap_le 8 16) by lia.
    rewrite <- (get_field_0 16), get_put_field, wrap_wrap_le, pack_low by lia. reflexivity.
  - rewrite upd_neq, upd_same, <- get_field_0, get_put_field by lia. reflexivity.
  - rewrite upd_neq, upd_same, wrap_wrap by lia. reflexivity.
  - rewrite upd_neq, upd_same, wrap_wrap by lia. reflexivity.
Qed.

(** DIV after MUL, in the reference. *)
Lemma mul_div_spec sz i (s : bx_cpu flags M) :
  (forall r, fits 64 (gen_reg s r)) -> source_apart sz i -> source sz i (gen_reg s) <> 0 ->
  forall s1, mul_spec sz MUL i s = Ok tt s1 -> (forall r, fits 64 (gen_reg s1 r)) ->
  exists s2, mul_spec sz DIV i s1 = Ok tt s2 /\ accum sz (gen_reg s2) = accum sz (gen_reg s).
Proof.
  intros Hg Ha Nb s1 E1 Hg1. rewrite run_MUL in E1 by exact Hg. injection E1 as <-.
  set (a := accum sz (gen_reg s)) in *. set (b := source sz i (gen_reg s)) in *.
  pose proof (bits_osize sz) as Ho. apply osize_pos in Ho.
  assert (Fa : fits (bits sz) a) by (apply wrap_fits; lia).
  assert (Fb : fits (bits sz) b) by apply source_fits.
  unfold mul_spec. rewrite run_read_source by exact Hg1. cbn [gen_reg set_field].
  rewrite source_pair_regs by exact Ha. fold b.
  rewrite (run_read_pair sz (a * b) (gen_reg s)) by (reflexivity || apply mul_fits; auto; lia).
  rewrite Z.div_mul, Z.mod_mul by exact Nb. rewrite divide_eq.
  apply Z.eqb_neq in Nb. rewrite Nb. cbn [orb].
  destruct (Z.leb_spec (2 ^ bits sz) a) as [L|_]; [unfold fits in Fa; lia|].
  eexists. split; [reflexivity|]. cbn [gen_reg set_field]. rewrite accum_pack, wrap_id by exact Fa.
  reflexivity.
Qed.

(** At every operand size, DIV by the operand MUL multiplied with, a nonzero
    register apart from the accumulator pair, does not fault and restores the
    accumulator. *)
Theorem mul_div_roundtrip sz hm hd i (s : bx_cpu bx_lazyflags_entry M) :
  mul_handler sz MUL = Some hm -> mul_handler sz DIV = Some hd -> cpu_ok s ->
  source_apart sz i -> source sz i (gen_reg s) <> 0 ->
  exists s1 s2, hm i s = Ok tt s1 /\ hd i s1 = Ok tt s2 /\
    accum sz (gen_reg s2) = accum sz (gen_reg s).
Proof.
  intros Em Ed Hs Ha Nb. pose proof (mul_handler_refines sz MUL hm i s Em Hs) as R1.
  pose proof (run_MUL sz i (abs s) (proj1 Hs)) as E1. cbv zeta in E1. rewrite E1 in R1.
  destruct (hm i s) as [[] s1|e s1]; destruct R1 as [A1 H1]; [|discriminate].
  pose proof (mul_handler_refines sz DIV hd i s1 Ed H1) as R2.
  destruct (mul_div_spec sz i (abs s) (proj1 Hs) Ha Nb (abs s1)) as (s2' & E2 & V);
    [rewrite E1; exact A1 | apply H1 |].
  rewrite E2 in R2. destruct (hd i s1) as [[] s2|e s2] eqn:D; destruct R2 as [A2 H2]; [|discriminate].
  exists s1, s2. split; [reflexivity|]. split; [exact D|]. injection A2 as A2. rewrite A2 in V. exact V.
Qed.

End RoundTrip.

(** ** Concrete runs *)

(** DIV CL / IDIV CX / MUL RCX: the source is register 1. *)
Definition by_rcx : bxInstruction_c := Instr 0 0 0 1 0 0 0 0 0 0 0.

Definition mul_start : bx_cpu bx_lazyflags_entry unit :=
  Cpu (fun r => if r =? 1 then 0xfedcba9876543210 else 0x123456789abcdef0) (fun _ => 0)
      (LazyFlags 1 0xC0000000) tt.

Lemma mul_start_ok : cpu_ok mul_start.
Proof.
  split.
  - intros r. cbn. unfold fits. destruct (r =? 1); lia.
  - cbn. unfold lf_ok, fits. cbn. lia.
Qed.

Definition result (o : outcome (bx_cpu bx_lazyflags_entry unit) unit) : option (Z * Z) :=
  match o with Ok _ s => Some (gen_reg s 0, gen_reg s 2) | Fault _ _ => None end.

Lemma mul_handlers_refine_witness :
  osim (DIV_RAXEqR by_rcx mul_start) (mul_spec S64 DIV by_rcx (abs mul_start)) /\
  result (DIV_RAXEqR by_rcx mul_start) = Some (1317624576693539383, 18271060796817079680) /\
  osim (IDIV_AXEwR by_rcx mul_start) (mul_spec S16 IDIV by_rcx (abs mul_start)) /\
  result (IDIV_AXEwR by_rcx mul_start) = None.
Proof.
  pose proof (mul_handlers_refine (M := unit)) as R.
  split; [apply (R S64 DIV); [reflexivity | apply mul_start_ok]|].
  split; [vm_compute; reflexivity|].
  split; [apply (R S16 IDIV); [reflexivity | apply mul_start_ok] | vm_compute; reflexivity].
Defined.

Lemma mul_div_roundtrip_witness :
  exists s1 s2, MUL_EAXEdR by_rcx mul_start = Ok tt s1 /\ DIV_EAXEdR by_rcx s1 = Ok tt s2 /\
    wrap 32 (gen_reg s2 0) = 0x9abcdef0.
Proof.
  destruct (mul_div_roundtrip S32 MUL_EAXEdR DIV_EAXEdR by_rcx mul_start)
    as (s1 & s2 & E1 & E2 & V); try reflexivity; try apply mul_start_ok.
  - split; [discriminate|]. split; discriminate.
  - vm_compute. discriminate.
  - exists s1, s2. split; [exact E1|]. split; [exact E2|]. exact V.
Defined.
