(* ===== verification/ScalarArith.v ===== *)
(** * Bit counting and extraction (cpu/scalar_arith.h)

    The helpers of the bit instructions and of the local APIC, and what they
    compute: parity, the scans for the lowest and the highest set bit, the
    population count by parallel sums, bit field extraction. *)

From Stdlib Require Import ZArith Lia List Bool.
From S2P Require Import Prelude.
Import ListNotations.
Open Scope Z_scope.

(** ** The code *)

Definition parity_byte (val_8 : Z) : Z :=
  Z.land (Z.shiftr 0x9669 (Z.land (Z.lxor val_8 (Z.shiftr val_8 4)) 0xF)) 1.

(** [while ((val & mask) == 0 && mask) { mask = next(mask); count++; }]; the fuel is
    one more than the number of mask positions. *)
Fixpoint scan_loop (fuel : nat) (next : Z -> Z) (val mask count : Z) : Z :=
  match fuel with
  | O => count
  | S fuel =>
      if (Z.land val mask =? 0) && negb (mask =? 0)
      then scan_loop fuel next val (next mask) (count + 1)
      else count
  end.

Definition tzcntw (val_16 : Z) : Z := scan_loop 17 (fun mask => u16 (Z.shiftl mask 1)) val_16 0x1 0.
Definition tzcntd (val_32 : Z) : Z := scan_loop 33 (fun mask => u32 (Z.shiftl mask 1)) val_32 0x1 0.
Definition tzcntq (val_64 : Z) : Z := scan_loop 65 (fun mask => u64 (Z.shiftl mask 1)) val_64 0x1 0.

Definition lzcntw (val_16 : Z) : Z := scan_loop 17 (fun mask => Z.shiftr mask 1) val_16 0x8000 0.
Definition lzcntd (val_32 : Z) : Z := scan_loop 33 (fun mask => Z.shiftr mask 1) val_32 0x80000000 0.
Definition lzcntq (val_64 : Z) : Z := scan_loop 65 (fun mask => Z.shiftr mask 1) val_64 0x8000000000000000 0.

(** [((val >> s) & mask) + (val & mask)] *)
Definition sums (s mask val : Z) : Z := Z.land (Z.shiftr val s) mask + Z.land val mask.

Definition popcntb (val_8 : Z) : Z :=
  let val_8 := u8 (sums 1 0x55 val_8) in
  let val_8 := u8 (sums 2 0x33 val_8) in
  u8 (sums 4 0x0F val_8).

Definition popcntw (val_16 : Z) : Z :=
  let val_16 := u16 (sums 1 0x5555 val_16) in
  let val_16 := u16 (sums 2 0x3333 val_16) in
  let val_16 := u16 (sums 4 0x0F0F val_16) in
  u16 (sums 8 0x00FF val_16).

Definition popcntd (val_32 : Z) : Z :=
  let val_32 := u32 (sums 1 0x55555555 val_32) in
  let val_32 := u32 (sums 2 0x33333333 val_32) in
  let val_32 := u32 (sums 4 0x0F0F0F0F val_32) in
  let val_32 := u32 (sums 8 0x00FF00FF val_32) in
  u32 (sums 16 0x0000FFFF val_32).

(** The result is [(unsigned) val_64]. *)
Definition popcntq (val_64 : Z) : Z :=
  let val_64 := u64 (sums 1 0x5555555555555555 val_64) in
  let val_64 := u64 (sums 2 0x3333333333333333 val_64) in
  let val_64 := u64 (sums 4 0x0F0F0F0F0F0F0F0F val_64) in
  let val_64 := u64 (sums 8 0x00FF00FF00FF00FF val_64) in
  let val_64 := u64 (sums 16 0x0000FFFF0000FFFF val_64) in
  let val_64 := u64 (sums 32 0x00000000FFFFFFFF val_64) in
  u32 val_64.

Definition bextrd (val_32 start len : Z) : Z :=
  if (start <? 32) && (len >? 0) then
    let result := Z.shiftr val_32 start in
    if len <? 32 then Z.land result (u32 (Z.shiftl 1 len - 1)) else result
  else 0.

Definition bextrq (val_64 start len : Z) : Z :=
  if (start <? 64) && (len >? 0) then
    let result := Z.shiftr val_64 start in
    if len <? 64 then Z.land result (u64 (Z.shiftl 1 len - 1)) else result
  else 0.

(** ** Scans *)

Lemma land_pow2_zero x i : 0 <= i -> (Z.land x (2 ^ i) =? 0) = negb (Z.testbit x i).
Proof. intros H. rewrite <- bitmask_pow2 by exact H. apply land_bitmask_zero, H. Qed.

(** Downwards from bit [n - 1]. *)
Lemma scan_down fuel : forall n v c, 0 <= v < 2 ^ Z.of_nat n -> (n < fuel)%nat ->
  scan_loop fuel (fun mask => Z.shiftr mask 1) v (if (n =? 0)%nat then 0 else 2 ^ (Z.of_nat n - 1)) c =
  c + (if v =? 0 then Z.of_nat n else Z.of_nat n - 1 - Z.log2 v).
Proof.
  induction fuel as [|fuel IH]; intros n v c Hv Hf; [lia|]. cbn [scan_loop].
  destruct n as [|n]; cbn [Nat.eqb].
  { change (2 ^ Z.of_nat 0) with 1 in Hv. replace v with 0 by lia. cbn. lia. }
  replace (Z.of_nat (S n) - 1) with (Z.of_nat n) by lia.
  rewrite land_pow2_zero by lia. pose proof (Z.pow_pos_nonneg 2 (Z.of_nat n) ltac:(lia) ltac:(lia)).
  replace (2 ^ Z.of_nat n =? 0) with false by (symmetry; apply Z.eqb_neq; lia). cbn [negb].
  replace (Z.of_nat (S n)) with (Z.of_nat n + 1) in * by lia. rewrite Z.pow_add_r, Z.pow_1_r in Hv by lia.
  destruct (Z.testbit v (Z.of_nat n)) eqn:B; cbn [negb andb].
  - assert (L : Z.log2 v = Z.of_nat n).
    { apply Z.log2_unique; [lia|]. split; [|rewrite Z.pow_succ_r; lia].
      destruct (Z.le_gt_cases (2 ^ Z.of_nat n) v); [assumption|].
      rewrite (fits_testbit (Z.of_nat n)) in B; [discriminate | lia | split; lia | lia]. }
    rewrite L. destruct (Z.eqb_spec v 0) as [->|]; [rewrite Z.testbit_0_l in B; discriminate | lia].
  - assert (V : v < 2 ^ Z.of_nat n).
    { destruct (Z.le_gt_cases (2 ^ Z.of_nat n) v); [|assumption]. exfalso.
      rewrite Z.testbit_true in B || (apply not_true_iff_false in B; apply B; apply Z.testbit_true; [lia|]).
      replace (v / 2 ^ Z.of_nat n) with 1; [reflexivity|]. apply Z.div_unique with (v - 2 ^ Z.of_nat n); lia. }
    replace (Z.shiftr (2 ^ Z.of_nat n) 1) with (if (n =? 0)%nat then 0 else 2 ^ (Z.of_nat n - 1)).
    + rewrite IH by lia. destruct (v =? 0); lia.
    + destruct n as [|n]; [reflexivity|]. cbn [Nat.eqb]. rewrite Z.shiftr_div_pow2 by lia.
      rewrite <- Z.pow_sub_r by lia. reflexivity.
Qed.

(** The number of zeros above the highest set bit. *)
Definition leading_zeros (w v : Z) : Z := if v =? 0 then w else w - 1 - Z.log2 v.

Lemma lzcntw_spec v : fits 16 v -> lzcntw v = leading_zeros 16 v.
Proof. intros H. exact (scan_down 17 16 v 0 H ltac:(lia)). Qed.
Lemma lzcntd_spec v : fits 32 v -> lzcntd v = leading_zeros 32 v.
Proof. intros H. exact (scan_down 33 32 v 0 H ltac:(lia)). Qed.
Lemma lzcntq_spec v : fits 64 v -> lzcntq v = leading_zeros 64 v.
Proof. intros H. exact (scan_down 65 64 v 0 H ltac:(lia)). Qed.

(** [c] is the number of zeros below the lowest set bit. *)
Definition trailing_zeros (w v c : Z) : Prop :=
  if v =? 0 then c = w
  else 0 <= c < w /\ Z.testbit v c = true /\ forall j, 0 <= j < c -> Z.testbit v j = false.

Lemma scan_up w fuel : forall i v, 0 <= i <= w -> fits w v -> (forall j, 0 <= j < i -> Z.testbit v j = false) ->
  w < Z.of_nat fuel + i ->
  trailing_zeros w v (scan_loop fuel (fun mask => wrap w (Z.shiftl mask 1)) v (wrap w (2 ^ i)) i).
Proof.
  induction fuel as [|fuel IH]; intros i v Hi Hv Hz Hf; [lia|]. cbn [scan_loop].
  destruct (Z.eq_dec i w) as [->|N].
  - replace (wrap w (2 ^ w)) with 0 by (unfold wrap; rewrite Z_mod_same_full; reflexivity).
    rewrite Z.land_0_r. cbn [Z.eqb negb andb]. unfold trailing_zeros.
    replace v with 0; [reflexivity|]. symmetry. apply Z.bits_inj'. intros j Hj. rewrite Z.testbit_0_l.
    destruct (Z.lt_ge_cases j w); [apply Hz; lia | apply (fits_testbit w); auto; lia].
  - rewrite (wrap_id w (2 ^ i)) by (apply fits_pow2; lia). rewrite land_pow2_zero by lia.
    pose proof (Z.pow_pos_nonneg 2 i ltac:(lia) ltac:(lia)).
    replace (2 ^ i =? 0) with false by (symmetry; apply Z.eqb_neq; lia). cbn [negb].
    destruct (Z.testbit v i) eqn:B; cbn [negb andb].
    + unfold trailing_zeros. destruct (Z.eqb_spec v 0) as [->|]; [rewrite Z.testbit_0_l in B; discriminate|].
      split; [lia | auto].
    + replace (Z.shiftl (2 ^ i) 1) with (2 ^ (i + 1)) by (rewrite Z.shiftl_mul_pow2, Z.pow_add_r by lia; reflexivity).
      apply IH; try lia; [exact Hv|]. intros j Hj. destruct (Z.eq_dec j i) as [->|]; [exact B | apply Hz; lia].
Qed.

Lemma tzcntw_spec v : fits 16 v -> trailing_zeros 16 v (tzcntw v).
Proof. intros H. apply (scan_up 16 17 0); auto; lia. Qed.
Lemma tzcntd_spec v : fits 32 v -> trailing_zeros 32 v (tzcntd v).
Proof. intros H. apply (scan_up 32 33 0); auto; lia. Qed.
Lemma tzcntq_spec v : fits 64 v -> trailing_zeros 64 v (tzcntq v).
Proof. intros H. apply (scan_up 64 65 0); auto; lia. Qed.

(** ** Population count *)

(** The number of set bits among the lowest [n]. *)
Fixpoint ones (n : nat) (v : Z) : Z :=
  match n with O => 0 | S n => Z.b2z (Z.testbit v (Z.of_nat n)) + ones n v end.

Lemma ones_bound n v : 0 <= ones n v <= Z.of_nat n.
Proof. induction n as [|n IH]; cbn [ones]; [lia|]. destruct (Z.testbit v _); cbn [Z.b2z]; lia. Qed.

Lemma sum_fields_bit w hi lo i : 0 <= w -> fits w lo -> 0 <= i ->
  Z.testbit (2 ^ w * hi + lo) i = if i <? w then Z.testbit lo i else Z.testbit hi (i - w).
Proof.
  intros Hw Hl Hi. rewrite <- lor_shiftl_add, Z.lor_spec, Z.shiftl_spec by assumption.
  destruct (Z.ltb_spec i w).
  - rewrite (Z.testbit_neg_r hi) by lia. reflexivity.
  - rewrite (fits_testbit w lo) by lia || assumption. apply orb_false_r.
Qed.

Lemma ones_concat n k hi lo : fits (Z.of_nat n) lo ->
  ones (k + n) (2 ^ Z.of_nat n * hi + lo) = ones k hi + ones n lo.
Proof.
  intros Hl. induction k as [|k IH]; cbn [Nat.add ones].
  - assert (E : forall m, (m <= n)%nat -> ones m (2 ^ Z.of_nat n * hi + lo) = ones m lo).
    { induction m as [|m IHm]; intros Hm; [reflexivity|]. cbn [ones]. rewrite IHm, sum_fields_bit by lia || assumption.
      destruct (Z.ltb_spec (Z.of_nat m) (Z.of_nat n)); [reflexivity | lia]. }
    rewrite E; lia.
  - rewrite IH, sum_fields_bit by lia || assumption. destruct (Z.ltb_spec (Z.of_nat (k + n)) (Z.of_nat n)); [lia|].
    replace (Z.of_nat (k + n) - Z.of_nat n) with (Z.of_nat k) by lia. lia.
Qed.

Lemma land_concat w a b c d : 0 <= w -> fits w b -> fits w d ->
  Z.land (2 ^ w * a + b) (2 ^ w * c + d) = 2 ^ w * Z.land a c + Z.land b d.
Proof.
  intros Hw Hb Hd. apply Z.bits_inj'. intros i Hi.
  rewrite Z.land_spec, !sum_fields_bit by (assumption || apply fits_land_l; assumption).
  destruct (i <? w); rewrite Z.land_spec; reflexivity.
Qed.

(** A round on two halves. *)
Lemma sums_halves w s m hi lo : 0 <= s <= w -> fits w lo -> fits (w - s) m ->
  sums s (2 ^ w * m + m) (2 ^ w * hi + lo) = 2 ^ w * sums s m hi + sums s m lo.
Proof.
  intros Hs Hl Hm. unfold sums. assert (Hm' : fits w m) by (apply (fits_le (w - s)); [lia | exact Hm]).
  rewrite land_concat by (assumption || lia).
  assert (E : Z.land (Z.shiftr (2 ^ w * hi + lo) s) (2 ^ w * m + m) =
    2 ^ w * Z.land (Z.shiftr hi s) m + Z.land (Z.shiftr lo s) m).
  { apply Z.bits_inj'. intros i Hi.
    rewrite Z.land_spec, Z.shiftr_spec, !sum_fields_bit by (lia || assumption || apply fits_land_r; (assumption || lia)).
    destruct (Z.ltb_spec i w) as [L|L], (Z.ltb_spec (i + s) w) as [L'|L']; try lia; rewrite Z.land_spec, Z.shiftr_spec by lia.
    - reflexivity.
    - rewrite (fits_testbit (w - s) m) by (assumption || lia). rewrite !andb_false_r. reflexivity.
    - replace (i + s - w) with (i - w + s) by lia. reflexivity. }
  rewrite E. lia.
Qed.

Lemma sums_bound s m v : 0 <= m -> 0 <= sums s m v <= 2 * m.
Proof.
  intros Hm. unfold sums.
  assert (B : forall x, 0 <= Z.land x m <= m).
  { intros x. split; [apply Z.land_nonneg; auto|].
    replace m with (Z.land x m + Z.ldiff m x) at 2.
    2: { rewrite Z.land_comm. rewrite Z.add_nocarry_lxor.
         - apply Z.bits_inj'. intros i Hi. rewrite Z.lxor_spec, Z.land_spec, Z.ldiff_spec.
           destruct (Z.testbit m i), (Z.testbit x i); reflexivity.
         - apply Z.bits_inj'. intros i Hi. rewrite !Z.land_spec, Z.ldiff_spec, Z.testbit_0_l.
           destruct (Z.testbit m i), (Z.testbit x i); reflexivity. }
    assert (0 <= Z.ldiff m x) by (apply Z.ldiff_nonneg; auto). lia. }
  pose proof (B (Z.shiftr v s)). pose proof (B v). lia.
Qed.

(** The same in a variable of twice the width. *)
Lemma round_halves w s m hi lo : 0 <= s <= w -> fits w lo -> fits (w - s) m -> 2 * m < 2 ^ w ->
  wrap (2 * w) (sums s (2 ^ w * m + m) (2 ^ w * hi + lo)) =
  2 ^ w * wrap w (sums s m hi) + wrap w (sums s m lo).
Proof.
  intros Hs Hl Hm Hb. assert (0 <= m) by apply Hm. rewrite sums_halves by assumption.
  pose proof (sums_bound s m hi ltac:(assumption)). pose proof (sums_bound s m lo ltac:(assumption)).
  rewrite !(wrap_id w) by (split; lia). apply wrap_id. split; [nia|].
  replace (2 * w) with (w + w) by lia. rewrite Z.pow_add_r by lia. nia.
Qed.

Lemma last_round w hi lo : 0 <= w -> fits w hi -> fits w lo ->
  sums w (2 ^ w - 1) (2 ^ w * hi + lo) = hi + lo.
Proof.
  intros Hw Hh Hl. unfold sums. replace (2 ^ w - 1) with (Z.ones w) by (rewrite Z.ones_equiv; lia).
  rewrite !Z.land_ones by exact Hw. f_equal.
  - rewrite Z.shiftr_div_pow2 by exact Hw. rewrite Z.mul_comm, Z.div_add_l, Z.div_small by (assumption || apply Z.pow_nonzero; lia).
    rewrite Z.add_0_r. apply Z.mod_small. exact Hh.
  - rewrite Z.add_comm, Z.mul_comm, Z.mod_add by (apply Z.pow_nonzero; lia). apply Z.mod_small. exact Hl.
Qed.

Lemma popcntw_halves hi lo : fits 8 lo -> popcntw (2 ^ 8 * hi + lo) = u16 (popcntb hi + popcntb lo).
Proof.
  intros Hl. unfold popcntw. cbv zeta.
  change 0x5555 with (2 ^ 8 * 0x55 + 0x55). change 0x3333 with (2 ^ 8 * 0x33 + 0x33).
  change 0x0F0F with (2 ^ 8 * 0x0F + 0x0F). change 0x00FF with (2 ^ 8 - 1). change 16 with (2 * 8).
  rewrite (round_halves 8 1) by (assumption || (unfold fits; lia)).
  rewrite (round_halves 8 2) by (lia || (apply wrap_fits; lia) || (unfold fits; lia)).
  rewrite (round_halves 8 4) by (lia || (apply wrap_fits; lia) || (unfold fits; lia)).
  rewrite (last_round 8) by (lia || (apply wrap_fits; lia)). reflexivity.
Qed.

Lemma popcntd_halves hi lo : fits 16 lo -> popcntd (2 ^ 16 * hi + lo) = u32 (popcntw hi + popcntw lo).
Proof.
  intros Hl. unfold popcntd. cbv zeta.
  change 0x55555555 with (2 ^ 16 * 0x5555 + 0x5555). change 0x33333333 with (2 ^ 16 * 0x3333 + 0x3333).
  change 0x0F0F0F0F with (2 ^ 16 * 0x0F0F + 0x0F0F). change 0x00FF00FF with (2 ^ 16 * 0x00FF + 0x00FF).
  change 0x0000FFFF with (2 ^ 16 - 1). change 32 with (2 * 16).
  rewrite (round_halves 16 1) by (assumption || (unfold fits; lia)).
  rewrite (round_halves 16 2) by (lia || (apply wrap_fits; lia) || (unfold fits; lia)).
  rewrite (round_halves 16 4) by (lia || (apply wrap_fits; lia) || (unfold fits; lia)).
  rewrite (round_halves 16 8) by (lia || (apply wrap_fits; lia) || (unfold fits; lia)).
  rewrite (last_round 16) by (lia || (apply wrap_fits; lia)). reflexivity.
Qed.

Lemma popcntq_halves hi lo : fits 32 lo -> popcntq (2 ^ 32 * hi + lo) = u32 (u64 (popcntd hi + popcntd lo)).
Proof.
  intros Hl. unfold popcntq. cbv zeta.
  change 0x5555555555555555 with (2 ^ 32 * 0x55555555 + 0x55555555).
  change 0x3333333333333333 with (2 ^ 32 * 0x33333333 + 0x33333333).
  change 0x0F0F0F0F0F0F0F0F with (2 ^ 32 * 0x0F0F0F0F + 0x0F0F0F0F).
  change 0x00FF00FF00FF00FF with (2 ^ 32 * 0x00FF00FF + 0x00FF00FF).
  change 0x0000FFFF0000FFFF with (2 ^ 32 * 0x0000FFFF + 0x0000FFFF).
  change 0x00000000FFFFFFFF with (2 ^ 32 - 1). change 64 with (2 * 32).
  rewrite (round_halves 32 1) by (assumption || (unfold fits; lia)).
  rewrite (round_halves 32 2) by (lia || (apply wrap_fits; lia) || (unfold fits; lia)).
  rewrite (round_halves 32 4) by (lia || (apply wrap_fits; lia) || (unfold fits; lia)).
  rewrite (round_halves 32 8) by (lia || (apply wrap_fits; lia) || (unfold fits; lia)).
  rewrite (round_halves 32 16) by (lia || (apply wrap_fits; lia) || (unfold fits; lia)).
  rewrite (last_round 32) by (lia || (apply wrap_fits; lia)). reflexivity.
Qed.

Lemma popcntb_spec v : fits 8 v -> popcntb v = ones 8 v.
Proof.
  intros H. apply Z.eqb_eq. revert v H. apply (zrange_forall 256 (fun v => popcntb v =? ones 8 v)). vm_compute. reflexivity.
Qed.

(** From one width to the double. *)
Lemma double_ones n (p q : Z -> Z) : (forall v, fits (Z.of_nat n) v -> p v = ones n v) ->
  (forall hi lo, fits (Z.of_nat n) hi -> fits (Z.of_nat n) lo -> q (2 ^ Z.of_nat n * hi + lo) = p hi + p lo) ->
  forall v, fits (Z.of_nat (n + n)) v -> q v = ones (n + n) v.
Proof.
  intros P Q v Hv. set (w := Z.of_nat n) in *. unfold fits in Hv. replace (Z.of_nat (n + n)) with (w + w) in Hv by lia.
  rewrite Z.pow_add_r in Hv by lia. pose proof (Z.pow_pos_nonneg 2 w ltac:(lia) ltac:(lia)).
  pose proof (Z.mod_pos_bound v (2 ^ w) ltac:(lia)) as L.
  assert (Hh : 0 <= v / 2 ^ w < 2 ^ w) by (split; [apply Z.div_pos; lia | apply Z.div_lt_upper_bound; lia]).
  rewrite (Z.div_mod v (2 ^ w)) by lia. rewrite Q, !P by assumption. symmetry. apply ones_concat. exact L.
Qed.

Lemma ones_sum_wrap w n hi lo : Z.of_nat (n + n) < 2 ^ w -> wrap w (ones n hi + ones n lo) = ones n hi + ones n lo.
Proof.
  intros H. apply wrap_id. pose proof (ones_bound n hi). pose proof (ones_bound n lo). unfold fits. lia.
Qed.

Lemma popcntw_spec v : fits 16 v -> popcntw v = ones 16 v.
Proof.
  apply (double_ones 8 popcntb); [apply popcntb_spec|]. intros hi lo Hh Hl.
  rewrite popcntw_halves, !popcntb_spec by assumption. apply ones_sum_wrap. reflexivity.
Qed.
Lemma popcntd_spec v : fits 32 v -> popcntd v = ones 32 v.
Proof.
  apply (double_ones 16 popcntw); [apply popcntw_spec|]. intros hi lo Hh Hl.
  rewrite popcntd_halves, !popcntw_spec by assumption. apply ones_sum_wrap. reflexivity.
Qed.
Lemma popcntq_spec v : fits 64 v -> popcntq v = ones 64 v.
Proof.
  apply (double_ones 32 popcntd); [apply popcntd_spec|]. intros hi lo Hh Hl.
  rewrite popcntq_halves, !popcntd_spec by assumption. rewrite !ones_sum_wrap; reflexivity.
Qed.
