(* ===== verification/Bit.v ===== *)
(** * SETcc, BSWAP and MOVBE (cpu/bit.cc, misc/bswap.h) *)

From Stdlib Require Import ZArith Lia List Bool.
From S2P Require Import Prelude LazyFlags Cpu.
Open Scope Z_scope.

Definition bx_bswap16 (val16 : Z) : Z := u16 (Z.lor (Z.shiftl val16 8) (Z.shiftr val16 8)).

Definition bx_bswap32 (val32 : Z) : Z :=
  let val32 := Z.lor (Z.land (u32 (Z.shiftl val32 8)) 0xFF00FF00) (Z.land (Z.shiftr val32 8) 0x00FF00FF) in
  u32 (Z.lor (Z.shiftl val32 16) (Z.shiftr val32 16)).

Definition bx_bswap64 (val64 : Z) : Z :=
  let lo := bx_bswap32 (u32 (Z.shiftr val64 32)) in
  let hi := bx_bswap32 (u32 (Z.land val64 0xFFFFFFFF)) in
  Z.lor (Z.shiftl hi 32) lo.

(** C's [!] on the 0 or 1 of a flag. *)
Definition lnot_c (x : Z) : Z := Z.b2z (x =? 0).

Section Handlers.
Context {M : Type} `{VirtualMemory M}.
Abbreviation cpu := (cpu bx_lazyflags_entry M).

Definition SETO_EbM (i : bxInstruction_c) : cpu unit :=
  eaddr <- BX_CPU_RESOLVE_ADDR i ;;
  result_8 <- get_lazy (fun e => getB_OF e) ;;
  write_virtual_byte (seg i) eaddr result_8 ;;;
  BX_NEXT_INSTR.

Definition SETO_EbR (i : bxInstruction_c) : cpu unit :=
  result_8 <- get_lazy (fun e => getB_OF e) ;;
  BX_WRITE_8BIT_REGx (dst i) (extend8bitL i) result_8 ;;;
  BX_NEXT_INSTR.

Definition SETNO_EbM (i : bxInstruction_c) : cpu unit :=
  eaddr <- BX_CPU_RESOLVE_ADDR i ;;
  result_8 <- get_lazy (fun e => lnot_c (getB_OF e)) ;;
  write_virtual_byte (seg i) eaddr result_8 ;;;
  BX_NEXT_INSTR.

Definition SETNO_EbR (i : bxInstruction_c) : cpu unit :=
  result_8 <- get_lazy (fun e => lnot_c (getB_OF e)) ;;
  BX_WRITE_8BIT_REGx (dst i) (extend8bitL i) result_8 ;;;
  BX_NEXT_INSTR.

Definition SETB_EbM (i : bxInstruction_c) : cpu unit :=
  eaddr <- BX_CPU_RESOLVE_ADDR i ;;
  result_8 <- get_lazy (fun e => getB_CF e) ;;
  write_virtual_byte (seg i) eaddr result_8 ;;;
  BX_NEXT_INSTR.

Definition SETB_EbR (i : bxInstruction_c) : cpu unit :=
  result_8 <- get_lazy (fun e => getB_CF e) ;;
  BX_WRITE_8BIT_REGx (dst i) (extend8bitL i) result_8 ;;;
  BX_NEXT_INSTR.

Definition SETNB_EbM (i : bxInstruction_c) : cpu unit :=
  eaddr <- BX_CPU_RESOLVE_ADDR i ;;
  result_8 <- get_lazy (fun e => lnot_c (getB_CF e)) ;;
  write_virtual_byte (seg i) eaddr result_8 ;;;
  BX_NEXT_INSTR.

Definition SETNB_EbR (i : bxInstruction_c) : cpu unit :=
  result_8 <- get_lazy (fun e => lnot_c (getB_CF e)) ;;
  BX_WRITE_8BIT_REGx (dst i) (extend8bitL i) result_8 ;;;
  BX_NEXT_INSTR.

Definition SETZ_EbM (i : bxInstruction_c) : cpu unit :=
  eaddr <- BX_CPU_RESOLVE_ADDR i ;;
  result_8 <- get_lazy (fun e => getB_ZF e) ;;
  write_virtual_byte (seg i) eaddr result_8 ;;;
  BX_NEXT_INSTR.

Definition SETZ_EbR (i : bxInstruction_c) : cpu unit :=
  result_8 <- get_lazy (fun e => getB_ZF e) ;;
  BX_WRITE_8BIT_REGx (dst i) (extend8bitL i) result_8 ;;;
  BX_NEXT_INSTR.

Definition SETNZ_EbM (i : bxInstruction_c) : cpu unit :=
  eaddr <- BX_CPU_RESOLVE_ADDR i ;;
  result_8 <- get_lazy (fun e => lnot_c (getB_ZF e)) ;;
  write_virtual_byte (seg i) eaddr result_8 ;;;
  BX_NEXT_INSTR.

Definition SETNZ_EbR (i : bxInstruction_c) : cpu unit :=
  result_8 <- get_lazy (fun e => lnot_c (getB_ZF e)) ;;
  BX_WRITE_8BIT_REGx (dst i) (extend8bitL i) result_8 ;;;
  BX_NEXT_INSTR.

Definition SETBE_EbM (i : bxInstruction_c) : cpu unit :=
  eaddr <- BX_CPU_RESOLVE_ADDR i ;;
  result_8 <- get_lazy (fun e => Z.lor (getB_CF e) (getB_ZF e)) ;;
  write_virtual_byte (seg i) eaddr result_8 ;;;
  BX_NEXT_INSTR.

Definition SETBE_EbR (i : bxInstruction_c) : cpu unit :=
  result_8 <- get_lazy (fun e => Z.lor (getB_CF e) (getB_ZF e)) ;;
  BX_WRITE_8BIT_REGx (dst i) (extend8bitL i) result_8 ;;;
  BX_NEXT_INSTR.

Definition SETNBE_EbM (i : bxInstruction_c) : cpu unit :=
  eaddr <- BX_CPU_RESOLVE_ADDR i ;;
  result_8 <- get_lazy (fun e => lnot_c (Z.lor (getB_CF e) (getB_ZF e))) ;;
  write_virtual_byte (seg i) eaddr result_8 ;;;
  BX_NEXT_INSTR.

Definition SETNBE_EbR (i : bxInstruction_c) : cpu unit :=
  result_8 <- get_lazy (fun e => lnot_c (Z.lor (getB_CF e) (getB_ZF e))) ;;
  BX_WRITE_8BIT_REGx (dst i) (extend8bitL i) result_8 ;;;
  BX_NEXT_INSTR.

Definition SETS_EbM (i : bxInstruction_c) : cpu unit :=
  eaddr <- BX_CPU_RESOLVE_ADDR i ;;
  result_8 <- get_lazy (fun e => getB_SF e) ;;
  write_virtual_byte (seg i) eaddr result_8 ;;;
  BX_NEXT_INSTR.

Definition SETS_EbR (i : bxInstruction_c) : cpu unit :=
  result_8 <- get_lazy (fun e => getB_SF e) ;;
  BX_WRITE_8BIT_REGx (dst i) (extend8bitL i) result_8 ;;;
  BX_NEXT_INSTR.

Definition SETNS_EbM (i : bxInstruction_c) : cpu unit :=
  eaddr <- BX_CPU_RESOLVE_ADDR i ;;
  result_8 <- get_lazy (fun e => lnot_c (getB_SF e)) ;;
  write_virtual_byte (seg i) eaddr result_8 ;;;
  BX_NEXT_INSTR.

Definition SETNS_EbR (i : bxInstruction_c) : cpu unit :=
  result_8 <- get_lazy (fun e => lnot_c (getB_SF e)) ;;
  BX_WRITE_8BIT_REGx (dst i) (extend8bitL i) result_8 ;;;
  BX_NEXT_INSTR.

Definition SETP_EbM (i : bxInstruction_c) : cpu unit :=
  eaddr <- BX_CPU_RESOLVE_ADDR i ;;
  result_8 <- get_lazy (fun e => getB_PF e) ;;
  write_virtual_byte (seg i) eaddr result_8 ;;;
  BX_NEXT_INSTR.

Definition SETP_EbR (i : bxInstruction_c) : cpu unit :=
  result_8 <- get_lazy (fun e => getB_PF e) ;;
  BX_WRITE_8BIT_REGx (dst i) (extend8bitL i) result_8 ;;;
  BX_NEXT_INSTR.

Definition SETNP_EbM (i : bxInstruction_c) : cpu unit :=
  eaddr <- BX_CPU_RESOLVE_ADDR i ;;
  result_8 <- get_lazy (fun e => lnot_c (getB_PF e)) ;;
  write_virtual_byte (seg i) eaddr result_8 ;;;
  BX_NEXT_INSTR.

Definition SETNP_EbR (i : bxInstruction_c) : cpu unit :=
  result_8 <- get_lazy (fun e => lnot_c (getB_PF e)) ;;
  BX_WRITE_8BIT_REGx (dst i) (extend8bitL i) result_8 ;;;
  BX_NEXT_INSTR.

Definition SETL_EbM (i : bxInstruction_c) : cpu unit :=
  eaddr <- BX_CPU_RESOLVE_ADDR i ;;
  result_8 <- get_lazy (fun e => Z.lxor (getB_SF e) (getB_OF e)) ;;
  write_virtual_byte (seg i) eaddr result_8 ;;;
  BX_NEXT_INSTR.

Definition SETL_EbR (i : bxInstruction_c) : cpu unit :=
  result_8 <- get_lazy (fun e => Z.lxor (getB_SF e) (getB_OF e)) ;;
  BX_WRITE_8BIT_REGx (dst i) (extend8bitL i) result_8 ;;;
  BX_NEXT_INSTR.

Definition SETNL_EbM (i : bxInstruction_c) : cpu unit :=
  eaddr <- BX_CPU_RESOLVE_ADDR i ;;
  result_8 <- get_lazy (fun e => lnot_c (Z.lxor (getB_SF e) (getB_OF e))) ;;
  write_virtual_byte (seg i) eaddr result_8 ;;;
  BX_NEXT_INSTR.

Definition SETNL_EbR (i : bxInstruction_c) : cpu unit :=
  result_8 <- get_lazy (fun e => lnot_c (Z.lxor (getB_SF e) (getB_OF e))) ;;
  BX_WRITE_8BIT_REGx (dst i) (extend8bitL i) result_8 ;;;
  BX_NEXT_INSTR.

Definition SETLE_EbM (i : bxInstruction_c) : cpu unit :=
  eaddr <- BX_CPU_RESOLVE_ADDR i ;;
  result_8 <- get_lazy (fun e => Z.lor (getB_ZF e) (Z.lxor (getB_SF e) (getB_OF e))) ;;
  write_virtual_byte (seg i) eaddr result_8 ;;;
  BX_NEXT_INSTR.

Definition SETLE_EbR (i : bxInstruction_c) : cpu unit :=
  result_8 <- get_lazy (fun e => Z.lor (getB_ZF e) (Z.lxor (getB_SF e) (getB_OF e))) ;;
  BX_WRITE_8BIT_REGx (dst i) (extend8bitL i) result_8 ;;;
  BX_NEXT_INSTR.

Definition SETNLE_EbM (i : bxInstruction_c) : cpu unit :=
  eaddr <- BX_CPU_RESOLVE_ADDR i ;;
  result_8 <- get_lazy (fun e => lnot_c (Z.lor (getB_ZF e) (Z.lxor (getB_SF e) (getB_OF e)))) ;;
  write_virtual_byte (seg i) eaddr result_8 ;;;
  BX_NEXT_INSTR.

Definition SETNLE_EbR (i : bxInstruction_c) : cpu unit :=
  result_8 <- get_lazy (fun e => lnot_c (Z.lor (getB_ZF e) (Z.lxor (getB_SF e) (getB_OF e)))) ;;
  BX_WRITE_8BIT_REGx (dst i) (extend8bitL i) result_8 ;;;
  BX_NEXT_INSTR.

Definition BSWAP_RX (i : bxInstruction_c) : cpu unit :=
  BX_WRITE_16BIT_REG (dst i) 0 ;;;
  BX_NEXT_INSTR.

Definition BSWAP_ERX (i : bxInstruction_c) : cpu unit :=
  val32 <- BX_READ_32BIT_REG (dst i) ;;
  BX_WRITE_32BIT_REGZ (dst i) (bx_bswap32 val32) ;;;
  BX_NEXT_INSTR.

Definition BSWAP_RRX (i : bxInstruction_c) : cpu unit :=
  val64 <- BX_READ_64BIT_REG (dst i) ;;
  BX_WRITE_64BIT_REG (dst i) (bx_bswap64 val64) ;;;
  BX_NEXT_INSTR.

Definition MOVBE_GwMw (i : bxInstruction_c) : cpu unit :=
  eaddr <- BX_CPU_RESOLVE_ADDR i ;;
  val16 <- read_virtual_word (seg i) eaddr ;;
  BX_WRITE_16BIT_REG (dst i) (bx_bswap16 val16) ;;;
  BX_NEXT_INSTR.

Definition MOVBE_MwGw (i : bxInstruction_c) : cpu unit :=
  val16 <- BX_READ_16BIT_REG (src i) ;;
  eaddr <- BX_CPU_RESOLVE_ADDR i ;;
  write_virtual_word (seg i) eaddr (bx_bswap16 val16) ;;;
  BX_NEXT_INSTR.

Definition MOVBE_GdMd (i : bxInstruction_c) : cpu unit :=
  eaddr <- BX_CPU_RESOLVE_ADDR i ;;
  val32 <- read_virtual_dword (seg i) eaddr ;;
  BX_WRITE_32BIT_REGZ (dst i) (bx_bswap32 val32) ;;;
  BX_NEXT_INSTR.

Definition MOVBE_MdGd (i : bxInstruction_c) : cpu unit :=
  val32 <- BX_READ_32BIT_REG (src i) ;;
  eaddr <- BX_CPU_RESOLVE_ADDR i ;;
  write_virtual_dword (seg i) eaddr (bx_bswap32 val32) ;;;
  BX_NEXT_INSTR.

Definition MOVBE_GqMq (i : bxInstruction_c) : cpu unit :=
  eaddr <- BX_CPU_RESOLVE_ADDR_64 i ;;
  laddr <- get_laddr64 (seg i) eaddr ;;
  val64 <- read_linear_qword (seg i) laddr ;;
  BX_WRITE_64BIT_REG (dst i) (bx_bswap64 val64) ;;;
  BX_NEXT_INSTR.

Definition MOVBE_MqGq (i : bxInstruction_c) : cpu unit :=
  val64 <- BX_READ_64BIT_REG (src i) ;;
  eaddr <- BX_CPU_RESOLVE_ADDR_64 i ;;
  laddr <- get_laddr64 (seg i) eaddr ;;
  write_linear_qword (seg i) laddr (bx_bswap64 val64) ;;;
  BX_NEXT_INSTR.

End Handlers.
