(* ===== verification/Bit16.v ===== *)
(** * 16-bit bit scans, bit tests and counts (cpu/bit16.cc) *)

From Stdlib Require Import ZArith Lia List Bool.
From S2P Require Import Prelude LazyFlags Cpu ScalarArith.
Open Scope Z_scope.

(** [while ((op2 & 0x8000) == 0) { op1--; op2 <<= 1; }], entered with a nonzero
    [op2]: at most 15 rounds. *)
Fixpoint bsr_loop_16 (fuel : nat) (op1_16 op2_16 : Z) : Z :=
  match fuel with
  | O => op1_16
  | S fuel =>
      if Z.land op2_16 0x8000 =? 0
      then bsr_loop_16 fuel (op1_16 - 1) (u16 (Z.shiftl op2_16 1))
      else op1_16
  end.

Section Handlers.
Context {M : Type} `{VirtualMemory M}.
Abbreviation cpu := (cpu bx_lazyflags_entry M).

Definition BSF_GwEwR (i : bxInstruction_c) : cpu unit :=
  op2_16 <- BX_READ_16BIT_REG (src i) ;;
  (if op2_16 =? 0 then cpu_assert_ZF
   else
     let op1_16 := tzcntw op2_16 in
     put_lazy (SET_FLAGS_OSZAPC_LOGIC 16 op1_16) ;;;
     cpu_clear_ZF ;;;
     BX_WRITE_16BIT_REG (dst i) op1_16) ;;;
  BX_NEXT_INSTR.

Definition BSR_GwEwR (i : bxInstruction_c) : cpu unit :=
  op2_16 <- BX_READ_16BIT_REG (src i) ;;
  (if op2_16 =? 0 then cpu_assert_ZF
   else
     let op1_16 := bsr_loop_16 16 15 op2_16 in
     put_lazy (SET_FLAGS_OSZAPC_LOGIC 16 op1_16) ;;;
     cpu_clear_ZF ;;;
     BX_WRITE_16BIT_REG (dst i) op1_16) ;;;
  BX_NEXT_INSTR.

Definition BT_EwGwM (i : bxInstruction_c) : cpu unit :=
  eaddr <- BX_CPU_RESOLVE_ADDR i ;;
  op2_16 <- BX_READ_16BIT_REG (src i) ;;
  let index := Z.land op2_16 0xf in
  let displacement32 := Z.quot (signed 16 (Z.land op2_16 0xfff0)) 16 in
  let op1_addr := u64 (eaddr + 2 * displacement32) in
  op1_16 <- read_virtual_word (seg i) (Z.land op1_addr (asize_mask i)) ;;
  modify_lazy (set_CF (to_bool (Z.land (Z.shiftr op1_16 index) 0x01))) ;;;
  BX_NEXT_INSTR.

Definition BT_EwGwR (i : bxInstruction_c) : cpu unit :=
  op1_16 <- BX_READ_16BIT_REG (dst i) ;;
  op2_16 <- BX_READ_16BIT_REG (src i) ;;
  let op2_16 := Z.land op2_16 0xf in
  modify_lazy (set_CF (to_bool (Z.land (Z.shiftr op1_16 op2_16) 0x01))) ;;;
  BX_NEXT_INSTR.

Definition BTS_EwGwM (i : bxInstruction_c) : cpu unit :=
  eaddr <- BX_CPU_RESOLVE_ADDR i ;;
  op2_16 <- BX_READ_16BIT_REG (src i) ;;
  let index := Z.land op2_16 0xf in
  let displacement32 := Z.quot (signed 16 (Z.land op2_16 0xfff0)) 16 in
  let op1_addr := u64 (eaddr + 2 * displacement32) in
  op1_16 <- read_RMW_virtual_word (seg i) (Z.land op1_addr (asize_mask i)) ;;
  let bit_i := to_bool (Z.land (Z.shiftr op1_16 index) 0x01) in
  let op1_16 := Z.lor op1_16 (Z.shiftl 1 index) in
  write_RMW_linear_word op1_16 ;;;
  modify_lazy (set_CF bit_i) ;;;
  BX_NEXT_INSTR.

Definition BTS_EwGwR (i : bxInstruction_c) : cpu unit :=
  op1_16 <- BX_READ_16BIT_REG (dst i) ;;
  op2_16 <- BX_READ_16BIT_REG (src i) ;;
  let op2_16 := Z.land op2_16 0xf in
  modify_lazy (set_CF (to_bool (Z.land (Z.shiftr op1_16 op2_16) 0x01))) ;;;
  let op1_16 := Z.lor op1_16 (Z.shiftl 1 op2_16) in
  BX_WRITE_16BIT_REG (dst i) op1_16 ;;;
  BX_NEXT_INSTR.

Definition BTR_EwGwM (i : bxInstruction_c) : cpu unit :=
  eaddr <- BX_CPU_RESOLVE_ADDR i ;;
  op2_16 <- BX_READ_16BIT_REG (src i) ;;
  let index := Z.land op2_16 0xf in
  let displacement32 := Z.quot (signed 16 (Z.land op2_16 0xfff0)) 16 in
  let op1_addr := u64 (eaddr + 2 * displacement32) in
  op1_16 <- read_RMW_virtual_word (seg i) (Z.land op1_addr (asize_mask i)) ;;
  let temp_cf := to_bool (Z.land (Z.shiftr op1_16 index) 0x01) in
  let op1_16 := Z.land op1_16 (Z.lnot (Z.shiftl 1 index)) in
  write_RMW_linear_word op1_16 ;;;
  modify_lazy (set_CF temp_cf) ;;;
  BX_NEXT_INSTR.

Definition BTR_EwGwR (i : bxInstruction_c) : cpu unit :=
  op1_16 <- BX_READ_16BIT_REG (dst i) ;;
  op2_16 <- BX_READ_16BIT_REG (src i) ;;
  let op2_16 := Z.land op2_16 0xf in
  modify_lazy (set_CF (to_bool (Z.land (Z.shiftr op1_16 op2_16) 0x01))) ;;;
  let op1_16 := Z.land op1_16 (Z.lnot (Z.shiftl 1 op2_16)) in
  BX_WRITE_16BIT_REG (dst i) op1_16 ;;;
  BX_NEXT_INSTR.

Definition BTC_EwGwM (i : bxInstruction_c) : cpu unit :=
  eaddr <- BX_CPU_RESOLVE_ADDR i ;;
  op2_16 <- BX_READ_16BIT_REG (src i) ;;
  let index := Z.land op2_16 0xf in
  let displacement16 := Z.quot (signed 16 (Z.land op2_16 0xfff0)) 16 in
  let op1_addr := u64 (eaddr + 2 * displacement16) in
  op1_16 <- read_RMW_virtual_word (seg i) (Z.land op1_addr (asize_mask i)) ;;
  let temp_CF := to_bool (Z.land (Z.shiftr op1_16 index) 0x01) in
  let op1_16 := Z.lxor op1_16 (Z.shiftl 1 index) in
  write_RMW_linear_word op1_16 ;;;
  modify_lazy (set_CF temp_CF) ;;;
  BX_NEXT_INSTR.

Definition BTC_EwGwR (i : bxInstruction_c) : cpu unit :=
  op1_16 <- BX_READ_16BIT_REG (dst i) ;;
  op2_16 <- BX_READ_16BIT_REG (src i) ;;
  let op2_16 := Z.land op2_16 0xf in
  let temp_CF := to_bool (Z.land (Z.shiftr op1_16 op2_16) 0x01) in
  let op1_16 := Z.lxor op1_16 (Z.shiftl 1 op2_16) in
  BX_WRITE_16BIT_REG (dst i) op1_16 ;;;
  modify_lazy (set_CF temp_CF) ;;;
  BX_NEXT_INSTR.

Definition BT_EwIbM (i : bxInstruction_c) : cpu unit :=
  eaddr <- BX_CPU_RESOLVE_ADDR i ;;
  op1_16 <- read_virtual_word (seg i) (eaddr) ;;
  let op2_8 := Z.land (Ib i) 0xf in
  modify_lazy (set_CF (to_bool (Z.land (Z.shiftr op1_16 op2_8) 0x01))) ;;;
  BX_NEXT_INSTR.

Definition BT_EwIbR (i : bxInstruction_c) : cpu unit :=
  op1_16 <- BX_READ_16BIT_REG (dst i) ;;
  let op2_8 := Z.land (Ib i) 0xf in
  modify_lazy (set_CF (to_bool (Z.land (Z.shiftr op1_16 op2_8) 0x01))) ;;;
  BX_NEXT_INSTR.

Definition BTS_EwIbM (i : bxInstruction_c) : cpu unit :=
  let op2_8 := Z.land (Ib i) 0xf in
  eaddr <- BX_CPU_RESOLVE_ADDR i ;;
  op1_16 <- read_RMW_virtual_word (seg i) (eaddr) ;;
  let temp_CF := to_bool (Z.land (Z.shiftr op1_16 op2_8) 0x01) in
  let op1_16 := Z.lor op1_16 (Z.shiftl 1 op2_8) in
  write_RMW_linear_word op1_16 ;;;
  modify_lazy (set_CF temp_CF) ;;;
  BX_NEXT_INSTR.

Definition BTS_EwIbR (i : bxInstruction_c) : cpu unit :=
  let op2_8 := Z.land (Ib i) 0xf in
  op1_16 <- BX_READ_16BIT_REG (dst i) ;;
  let temp_CF := to_bool (Z.land (Z.shiftr op1_16 op2_8) 0x01) in
  let op1_16 := Z.lor op1_16 (Z.shiftl 1 op2_8) in
  BX_WRITE_16BIT_REG (dst i) op1_16 ;;;
  modify_lazy (set_CF temp_CF) ;;;
  BX_NEXT_INSTR.

Definition BTC_EwIbM (i : bxInstruction_c) : cpu unit :=
  let op2_8 := Z.land (Ib i) 0xf in
  eaddr <- BX_CPU_RESOLVE_ADDR i ;;
  op1_16 <- read_RMW_virtual_word (seg i) (eaddr) ;;
  let temp_CF := to_bool (Z.land (Z.shiftr op1_16 op2_8) 0x01) in
  let op1_16 := Z.lxor op1_16 (Z.shiftl 1 op2_8) in
  write_RMW_linear_word op1_16 ;;;
  modify_lazy (set_CF temp_CF) ;;;
  BX_NEXT_INSTR.

Definition BTC_EwIbR (i : bxInstruction_c) : cpu unit :=
  let op2_8 := Z.land (Ib i) 0xf in
  op1_16 <- BX_READ_16BIT_REG (dst i) ;;
  let temp_CF := to_bool (Z.land (Z.shiftr op1_16 op2_8) 0x01) in
  let op1_16 := Z.lxor op1_16 (Z.shiftl 1 op2_8) in
  BX_WRITE_16BIT_REG (dst i) op1_16 ;;;
  modify_lazy (set_CF temp_CF) ;;;
  BX_NEXT_INSTR.

Definition BTR_EwIbM (i : bxInstruction_c) : cpu unit :=
  let op2_8 := Z.land (Ib i) 0xf in
  eaddr <- BX_CPU_RESOLVE_ADDR i ;;
  op1_16 <- read_RMW_virtual_word (seg i) (eaddr) ;;
  let temp_CF := to_bool (Z.land (Z.shiftr op1_16 op2_8) 0x01) in
  let op1_16 := Z.land op1_16 (Z.lnot (Z.shiftl 1 op2_8)) in
  write_RMW_linear_word op1_16 ;;;
  modify_lazy (set_CF temp_CF) ;;;
  BX_NEXT_INSTR.

Definition BTR_EwIbR (i : bxInstruction_c) : cpu unit :=
  let op2_8 := Z.land (Ib i) 0xf in
  op1_16 <- BX_READ_16BIT_REG (dst i) ;;
  let temp_CF := to_bool (Z.land (Z.shiftr op1_16 op2_8) 0x01) in
  let op1_16 := Z.land op1_16 (Z.lnot (Z.shiftl 1 op2_8)) in
  BX_WRITE_16BIT_REG (dst i) op1_16 ;;;
  modify_lazy (set_CF temp_CF) ;;;
  BX_NEXT_INSTR.

Definition POPCNT_GwEwR (i : bxInstruction_c) : cpu unit :=
  v <- BX_READ_16BIT_REG (src i) ;;
  let op_16 := popcntw v in
  put_lazy clearEFlagsOSZAPC ;;;
  (if op_16 =? 0 then cpu_assert_ZF else ret tt) ;;;
  BX_WRITE_16BIT_REG (dst i) op_16 ;;;
  BX_NEXT_INSTR.

Definition TZCNT_GwEwR (i : bxInstruction_c) : cpu unit :=
  op1_16 <- BX_READ_16BIT_REG (src i) ;;
  let result_16 := tzcntw op1_16 in
  modify_lazy (set_CF (op1_16 =? 0)) ;;;
  modify_lazy (set_ZF (result_16 =? 0)) ;;;
  BX_WRITE_16BIT_REG (dst i) result_16 ;;;
  BX_NEXT_INSTR.

Definition LZCNT_GwEwR (i : bxInstruction_c) : cpu unit :=
  op1_16 <- BX_READ_16BIT_REG (src i) ;;
  let result_16 := lzcntw op1_16 in
  modify_lazy (set_CF (op1_16 =? 0)) ;;;
  modify_lazy (set_ZF (result_16 =? 0)) ;;;
  BX_WRITE_16BIT_REG (dst i) result_16 ;;;
  BX_NEXT_INSTR.

End Handlers.
