(* ===== verification/Bit32.v ===== *)
(** * 32-bit bit scans, bit tests and counts (cpu/bit32.cc) *)

From Stdlib Require Import ZArith Lia List Bool.
From S2P Require Import Prelude LazyFlags Cpu ScalarArith.
Open Scope Z_scope.

(** [while ((op2 & 0x80000000) == 0) { op1--; op2 <<= 1; }], entered with a nonzero
    [op2]: at most 31 rounds. *)
Fixpoint bsr_loop_32 (fuel : nat) (op1_32 op2_32 : Z) : Z :=
  match fuel with
  | O => op1_32
  | S fuel =>
      if Z.land op2_32 0x80000000 =? 0
      then bsr_loop_32 fuel (op1_32 - 1) (u32 (Z.shiftl op2_32 1))
      else op1_32
  end.

Section Handlers.
Context {M : Type} `{VirtualMemory M}.
Abbreviation cpu := (cpu bx_lazyflags_entry M).

Definition BSF_GdEdR (i : bxInstruction_c) : cpu unit :=
  op2_32 <- BX_READ_32BIT_REG (src i) ;;
  (if op2_32 =? 0 then cpu_assert_ZF
   else
     let op1_32 := tzcntd op2_32 in
     put_lazy (SET_FLAGS_OSZAPC_LOGIC 32 op1_32) ;;;
     cpu_clear_ZF ;;;
     BX_WRITE_32BIT_REGZ (dst i) op1_32) ;;;
  BX_NEXT_INSTR.

Definition BSR_GdEdR (i : bxInstruction_c) : cpu unit :=
  op2_32 <- BX_READ_32BIT_REG (src i) ;;
  (if op2_32 =? 0 then cpu_assert_ZF
   else
     let op1_32 := bsr_loop_32 32 31 op2_32 in
     put_lazy (SET_FLAGS_OSZAPC_LOGIC 32 op1_32) ;;;
     cpu_clear_ZF ;;;
     BX_WRITE_32BIT_REGZ (dst i) op1_32) ;;;
  BX_NEXT_INSTR.

Definition BT_EdGdM (i : bxInstruction_c) : cpu unit :=
  eaddr <- BX_CPU_RESOLVE_ADDR i ;;
  op2_32 <- BX_READ_32BIT_REG (src i) ;;
  let index := Z.land op2_32 0x1f in
  let displacement32 := Z.quot (signed 32 (Z.land op2_32 0xffffffe0)) 32 in
  let op1_addr := u64 (eaddr + 4 * displacement32) in
  op1_32 <- read_virtual_dword (seg i) (Z.land op1_addr (asize_mask i)) ;;
  modify_lazy (set_CF (to_bool (Z.land (Z.shiftr op1_32 index) 0x01))) ;;;
  BX_NEXT_INSTR.

Definition BT_EdGdR (i : bxInstruction_c) : cpu unit :=
  op1_32 <- BX_READ_32BIT_REG (dst i) ;;
  op2_32 <- BX_READ_32BIT_REG (src i) ;;
  let op2_32 := Z.land op2_32 0x1f in
  modify_lazy (set_CF (to_bool (Z.land (Z.shiftr op1_32 op2_32) 0x01))) ;;;
  BX_NEXT_INSTR.

Definition BTS_EdGdM (i : bxInstruction_c) : cpu unit :=
  eaddr <- BX_CPU_RESOLVE_ADDR i ;;
  op2_32 <- BX_READ_32BIT_REG (src i) ;;
  let index := Z.land op2_32 0x1f in
  let displacement32 := Z.quot (signed 32 (Z.land op2_32 0xffffffe0)) 32 in
  let op1_addr := u64 (eaddr + 4 * displacement32) in
  op1_32 <- read_RMW_virtual_dword (seg i) (Z.land op1_addr (asize_mask i)) ;;
  let bit_i := to_bool (Z.land (Z.shiftr op1_32 index) 0x01) in
  let op1_32 := Z.lor op1_32 (Z.shiftl 1 index) in
  write_RMW_linear_dword op1_32 ;;;
  modify_lazy (set_CF bit_i) ;;;
  BX_NEXT_INSTR.

Definition BTS_EdGdR (i : bxInstruction_c) : cpu unit :=
  op1_32 <- BX_READ_32BIT_REG (dst i) ;;
  op2_32 <- BX_READ_32BIT_REG (src i) ;;
  let op2_32 := Z.land op2_32 0x1f in
  modify_lazy (set_CF (to_bool (Z.land (Z.shiftr op1_32 op2_32) 0x01))) ;;;
  let op1_32 := Z.lor op1_32 (Z.shiftl 1 op2_32) in
  BX_WRITE_32BIT_REGZ (dst i) op1_32 ;;;
  BX_NEXT_INSTR.

Definition BTR_EdGdM (i : bxInstruction_c) : cpu unit :=
  eaddr <- BX_CPU_RESOLVE_ADDR i ;;
  op2_32 <- BX_READ_32BIT_REG (src i) ;;
  let index := Z.land op2_32 0x1f in
  let displacement32 := Z.quot (signed 32 (Z.land op2_32 0xffffffe0)) 32 in
  let op1_addr := u64 (eaddr + 4 * displacement32) in
  op1_32 <- read_RMW_virtual_dword (seg i) (Z.land op1_addr (asize_mask i)) ;;
  let temp_cf := to_bool (Z.land (Z.shiftr op1_32 index) 0x01) in
  let op1_32 := Z.land op1_32 (Z.lnot (Z.shiftl 1 index)) in
  write_RMW_linear_dword op1_32 ;;;
  modify_lazy (set_CF temp_cf) ;;;
  BX_NEXT_INSTR.

Definition BTR_EdGdR (i : bxInstruction_c) : cpu unit :=
  op1_32 <- BX_READ_32BIT_REG (dst i) ;;
  op2_32 <- BX_READ_32BIT_REG (src i) ;;
  let op2_32 := Z.land op2_32 0x1f in
  modify_lazy (set_CF (to_bool (Z.land (Z.shiftr op1_32 op2_32) 0x01))) ;;;
  let op1_32 := Z.land op1_32 (Z.lnot (Z.shiftl 1 op2_32)) in
  BX_WRITE_32BIT_REGZ (dst i) op1_32 ;;;
  BX_NEXT_INSTR.

Definition BTC_EdGdM (i : bxInstruction_c) : cpu unit :=
  eaddr <- BX_CPU_RESOLVE_ADDR i ;;
  op2_32 <- BX_READ_32BIT_REG (src i) ;;
  let index := Z.land op2_32 0x1f in
  let displacement32 := Z.quot (signed 32 (Z.land op2_32 0xffffffe0)) 32 in
  let op1_addr := u64 (eaddr + 4 * displacement32) in
  op1_32 <- read_RMW_virtual_dword (seg i) (Z.land op1_addr (asize_mask i)) ;;
  let temp_CF := to_bool (Z.land (Z.shiftr op1_32 index) 0x01) in
  let op1_32 := Z.lxor op1_32 (Z.shiftl 1 index) in
  modify_lazy (set_CF temp_CF) ;;;
  write_RMW_linear_dword op1_32 ;;;
  BX_NEXT_INSTR.

Definition BTC_EdGdR (i : bxInstruction_c) : cpu unit :=
  op1_32 <- BX_READ_32BIT_REG (dst i) ;;
  op2_32 <- BX_READ_32BIT_REG (src i) ;;
  let op2_32 := Z.land op2_32 0x1f in
  let temp_CF := to_bool (Z.land (Z.shiftr op1_32 op2_32) 0x01) in
  let op1_32 := Z.lxor op1_32 (Z.shiftl 1 op2_32) in
  modify_lazy (set_CF temp_CF) ;;;
  BX_WRITE_32BIT_REGZ (dst i) op1_32 ;;;
  BX_NEXT_INSTR.

Definition BT_EdIbM (i : bxInstruction_c) : cpu unit :=
  eaddr <- BX_CPU_RESOLVE_ADDR i ;;
  op1_32 <- read_virtual_dword (seg i) (eaddr) ;;
  let op2_8 := Z.land (Ib i) 0x1f in
  modify_lazy (set_CF (to_bool (Z.land (Z.shiftr op1_32 op2_8) 0x01))) ;;;
  BX_NEXT_INSTR.

Definition BT_EdIbR (i : bxInstruction_c) : cpu unit :=
  op1_32 <- BX_READ_32BIT_REG (dst i) ;;
  let op2_8 := Z.land (Ib i) 0x1f in
  modify_lazy (set_CF (to_bool (Z.land (Z.shiftr op1_32 op2_8) 0x01))) ;;;
  BX_NEXT_INSTR.

Definition BTS_EdIbM (i : bxInstruction_c) : cpu unit :=
  let op2_8 := Z.land (Ib i) 0x1f in
  eaddr <- BX_CPU_RESOLVE_ADDR i ;;
  op1_32 <- read_RMW_virtual_dword (seg i) (eaddr) ;;
  let temp_CF := to_bool (Z.land (Z.shiftr op1_32 op2_8) 0x01) in
  let op1_32 := Z.lor op1_32 (Z.shiftl 1 op2_8) in
  write_RMW_linear_dword op1_32 ;;;
  modify_lazy (set_CF temp_CF) ;;;
  BX_NEXT_INSTR.

Definition BTS_EdIbR (i : bxInstruction_c) : cpu unit :=
  let op2_8 := Z.land (Ib i) 0x1f in
  op1_32 <- BX_READ_32BIT_REG (dst i) ;;
  let temp_CF := to_bool (Z.land (Z.shiftr op1_32 op2_8) 0x01) in
  let op1_32 := Z.lor op1_32 (Z.shiftl 1 op2_8) in
  BX_WRITE_32BIT_REGZ (dst i) op1_32 ;;;
  modify_lazy (set_CF temp_CF) ;;;
  BX_NEXT_INSTR.

Definition BTC_EdIbM (i : bxInstruction_c) : cpu unit :=
  let op2_8 := Z.land (Ib i) 0x1f in
  eaddr <- BX_CPU_RESOLVE_ADDR i ;;
  op1_32 <- read_RMW_virtual_dword (seg i) (eaddr) ;;
  let temp_CF := to_bool (Z.land (Z.shiftr op1_32 op2_8) 0x01) in
  let op1_32 := Z.lxor op1_32 (Z.shiftl 1 op2_8) in
  write_RMW_linear_dword op1_32 ;;;
  modify_lazy (set_CF temp_CF) ;;;
  BX_NEXT_INSTR.

Definition BTC_EdIbR (i : bxInstruction_c) : cpu unit :=
  let op2_8 := Z.land (Ib i) 0x1f in
  op1_32 <- BX_READ_32BIT_REG (dst i) ;;
  let temp_CF := to_bool (Z.land (Z.shiftr op1_32 op2_8) 0x01) in
  let op1_32 := Z.lxor op1_32 (Z.shiftl 1 op2_8) in
  BX_WRITE_32BIT_REGZ (dst i) op1_32 ;;;
  modify_lazy (set_CF temp_CF) ;;;
  BX_NEXT_INSTR.

Definition BTR_EdIbM (i : bxInstruction_c) : cpu unit :=
  let op2_8 := Z.land (Ib i) 0x1f in
  eaddr <- BX_CPU_RESOLVE_ADDR i ;;
  op1_32 <- read_RMW_virtual_dword (seg i) (eaddr) ;;
  let temp_CF := to_bool (Z.land (Z.shiftr op1_32 op2_8) 0x01) in
  let op1_32 := Z.land op1_32 (Z.lnot (Z.shiftl 1 op2_8)) in
  write_RMW_linear_dword op1_32 ;;;
  modify_lazy (set_CF temp_CF) ;;;
  BX_NEXT_INSTR.

Definition BTR_EdIbR (i : bxInstruction_c) : cpu unit :=
  let op2_8 := Z.land (Ib i) 0x1f in
  op1_32 <- BX_READ_32BIT_REG (dst i) ;;
  let temp_CF := to_bool (Z.land (Z.shiftr op1_32 op2_8) 0x01) in
  let op1_32 := Z.land op1_32 (Z.lnot (Z.shiftl 1 op2_8)) in
  BX_WRITE_32BIT_REGZ (dst i) op1_32 ;;;
  modify_lazy (set_CF temp_CF) ;;;
  BX_NEXT_INSTR.

Definition POPCNT_GdEdR (i : bxInstruction_c) : cpu unit :=
  v <- BX_READ_32BIT_REG (src i) ;;
  let op_32 := popcntd v in
  put_lazy clearEFlagsOSZAPC ;;;
  (if op_32 =? 0 then cpu_assert_ZF else ret tt) ;;;
  BX_WRITE_32BIT_REGZ (dst i) op_32 ;;;
  BX_NEXT_INSTR.

Definition TZCNT_GdEdR (i : bxInstruction_c) : cpu unit :=
  op1_32 <- BX_READ_32BIT_REG (src i) ;;
  let result_32 := tzcntd op1_32 in
  modify_lazy (set_CF (op1_32 =? 0)) ;;;
  modify_lazy (set_ZF (result_32 =? 0)) ;;;
  BX_WRITE_32BIT_REGZ (dst i) result_32 ;;;
  BX_NEXT_INSTR.

Definition LZCNT_GdEdR (i : bxInstruction_c) : cpu unit :=
  op1_32 <- BX_READ_32BIT_REG (src i) ;;
  let result_32 := lzcntd op1_32 in
  modify_lazy (set_CF (op1_32 =? 0)) ;;;
  modify_lazy (set_ZF (result_32 =? 0)) ;;;
  BX_WRITE_32BIT_REGZ (dst i) result_32 ;;;
  BX_NEXT_INSTR.

End Handlers.
