(* ===== verification/Bit64.v ===== *)
(** * 64-bit bit scans, bit tests and counts (cpu/bit64.cc) *)

From Stdlib Require Import ZArith Lia List Bool.
From S2P Require Import Prelude LazyFlags Cpu ScalarArith.
Open Scope Z_scope.

(** [while ((op2 & 0x8000000000000000) == 0) { op1--; op2 <<= 1; }], entered with a nonzero
    [op2]: at most 63 rounds. *)
Fixpoint bsr_loop_64 (fuel : nat) (op1_64 op2_64 : Z) : Z :=
  match fuel with
  | O => op1_64
  | S fuel =>
      if Z.land op2_64 0x8000000000000000 =? 0
      then bsr_loop_64 fuel (op1_64 - 1) (u64 (Z.shiftl op2_64 1))
      else op1_64
  end.

Section Handlers.
Context {M : Type} `{VirtualMemory M}.
Abbreviation cpu := (cpu bx_lazyflags_entry M).

Definition BSF_GqEqR (i : bxInstruction_c) : cpu unit :=
  op2_64 <- BX_READ_64BIT_REG (src i) ;;
  (if op2_64 =? 0 then cpu_assert_ZF
   else
     let op1_64 := tzcntq op2_64 in
     put_lazy (SET_FLAGS_OSZAPC_LOGIC 64 op1_64) ;;;
     cpu_clear_ZF ;;;
     BX_WRITE_64BIT_REG (dst i) op1_64) ;;;
  BX_NEXT_INSTR.

Definition BSR_GqEqR (i : bxInstruction_c) : cpu unit :=
  op2_64 <- BX_READ_64BIT_REG (src i) ;;
  (if op2_64 =? 0 then cpu_assert_ZF
   else
     let op1_64 := bsr_loop_64 64 63 op2_64 in
     put_lazy (SET_FLAGS_OSZAPC_LOGIC 64 op1_64) ;;;
     cpu_clear_ZF ;;;
     BX_WRITE_64BIT_REG (dst i) op1_64) ;;;
  BX_NEXT_INSTR.

Definition BT_EqGqM (i : bxInstruction_c) : cpu unit :=
  eaddr <- BX_CPU_RESOLVE_ADDR_64 i ;;
  op2_64 <- BX_READ_64BIT_REG (src i) ;;
  let index := Z.land op2_64 0x3f in
  let displacement64 := Z.quot (signed 64 (Z.land op2_64 0xffffffffffffffc0)) 64 in
  let op1_addr := u64 (eaddr + 8 * displacement64) in
  let op1_addr := if as64L i =? 0 then u32 op1_addr else op1_addr in
  laddr <- get_laddr64 (seg i) op1_addr ;;
  op1_64 <- read_linear_qword (seg i) laddr ;;
  modify_lazy (set_CF (to_bool (Z.land (Z.shiftr op1_64 index) 0x01))) ;;;
  BX_NEXT_INSTR.

Definition BT_EqGqR (i : bxInstruction_c) : cpu unit :=
  op1_64 <- BX_READ_64BIT_REG (dst i) ;;
  op2_64 <- BX_READ_64BIT_REG (src i) ;;
  let op2_64 := Z.land op2_64 0x3f in
  modify_lazy (set_CF (to_bool (Z.land (Z.shiftr op1_64 op2_64) 0x01))) ;;;
  BX_NEXT_INSTR.

Definition BTS_EqGqM (i : bxInstruction_c) : cpu unit :=
  eaddr <- BX_CPU_RESOLVE_ADDR_64 i ;;
  op2_64 <- BX_READ_64BIT_REG (src i) ;;
  let index := Z.land op2_64 0x3f in
  let displacement64 := Z.quot (signed 64 (Z.land op2_64 0xffffffffffffffc0)) 64 in
  let op1_addr := u64 (eaddr + 8 * displacement64) in
  let op1_addr := if as64L i =? 0 then u32 op1_addr else op1_addr in
  laddr <- get_laddr64 (seg i) op1_addr ;;
  op1_64 <- read_RMW_linear_qword (seg i) laddr ;;
  let bit_i := to_bool (Z.land (Z.shiftr op1_64 index) 0x01) in
  let op1_64 := Z.lor op1_64 (Z.shiftl 1 index) in
  write_RMW_linear_qword op1_64 ;;;
  modify_lazy (set_CF bit_i) ;;;
  BX_NEXT_INSTR.

Definition BTS_EqGqR (i : bxInstruction_c) : cpu unit :=
  op1_64 <- BX_READ_64BIT_REG (dst i) ;;
  op2_64 <- BX_READ_64BIT_REG (src i) ;;
  let op2_64 := Z.land op2_64 0x3f in
  modify_lazy (set_CF (to_bool (Z.land (Z.shiftr op1_64 op2_64) 0x01))) ;;;
  let op1_64 := Z.lor op1_64 (Z.shiftl 1 op2_64) in
  BX_WRITE_64BIT_REG (dst i) op1_64 ;;;
  BX_NEXT_INSTR.

Definition BTR_EqGqM (i : bxInstruction_c) : cpu unit :=
  eaddr <- BX_CPU_RESOLVE_ADDR_64 i ;;
  op2_64 <- BX_READ_64BIT_REG (src i) ;;
  let index := Z.land op2_64 0x3f in
  let displacement64 := Z.quot (signed 64 (Z.land op2_64 0xffffffffffffffc0)) 64 in
  let op1_addr := u64 (eaddr + 8 * displacement64) in
  let op1_addr := if as64L i =? 0 then u32 op1_addr else op1_addr in
  laddr <- get_laddr64 (seg i) op1_addr ;;
  op1_64 <- read_RMW_linear_qword (seg i) laddr ;;
  let temp_cf := to_bool (Z.land (Z.shiftr op1_64 index) 0x01) in
  let op1_64 := Z.land op1_64 (Z.lnot (Z.shiftl 1 index)) in
  write_RMW_linear_qword op1_64 ;;;
  modify_lazy (set_CF temp_cf) ;;;
  BX_NEXT_INSTR.

Definition BTR_EqGqR (i : bxInstruction_c) : cpu unit :=
  op1_64 <- BX_READ_64BIT_REG (dst i) ;;
  op2_64 <- BX_READ_64BIT_REG (src i) ;;
  let op2_64 := Z.land op2_64 0x3f in
  modify_lazy (set_CF (to_bool (Z.land (Z.shiftr op1_64 op2_64) 0x01))) ;;;
  let op1_64 := Z.land op1_64 (Z.lnot (Z.shiftl 1 op2_64)) in
  BX_WRITE_64BIT_REG (dst i) op1_64 ;;;
  BX_NEXT_INSTR.

Definition BTC_EqGqM (i : bxInstruction_c) : cpu unit :=
  eaddr <- BX_CPU_RESOLVE_ADDR_64 i ;;
  op2_64 <- BX_READ_64BIT_REG (src i) ;;
  let index := Z.land op2_64 0x3f in
  let displacement64 := Z.quot (signed 64 (Z.land op2_64 0xffffffffffffffc0)) 64 in
  let op1_addr := u64 (eaddr + 8 * displacement64) in
  let op1_addr := if as64L i =? 0 then u32 op1_addr else op1_addr in
  laddr <- get_laddr64 (seg i) op1_addr ;;
  op1_64 <- read_RMW_linear_qword (seg i) laddr ;;
  let temp_CF := to_bool (Z.land (Z.shiftr op1_64 index) 0x01) in
  let op1_64 := Z.lxor op1_64 (Z.shiftl 1 index) in
  modify_lazy (set_CF temp_CF) ;;;
  write_RMW_linear_qword op1_64 ;;;
  BX_NEXT_INSTR.

Definition BTC_EqGqR (i : bxInstruction_c) : cpu unit :=
  op1_64 <- BX_READ_64BIT_REG (dst i) ;;
  op2_64 <- BX_READ_64BIT_REG (src i) ;;
  let op2_64 := Z.land op2_64 0x3f in
  let temp_CF := to_bool (Z.land (Z.shiftr op1_64 op2_64) 0x01) in
  let op1_64 := Z.lxor op1_64 (Z.shiftl 1 op2_64) in
  modify_lazy (set_CF temp_CF) ;;;
  BX_WRITE_64BIT_REG (dst i) op1_64 ;;;
  BX_NEXT_INSTR.

Definition BT_EqIbM (i : bxInstruction_c) : cpu unit :=
  eaddr <- BX_CPU_RESOLVE_ADDR_64 i ;;
  laddr <- get_laddr64 (seg i) eaddr ;;
  op1_64 <- read_linear_qword (seg i) laddr ;;
  let op2_8 := Z.land (Ib i) 0x3f in
  modify_lazy (set_CF (to_bool (Z.land (Z.shiftr op1_64 op2_8) 0x01))) ;;;
  BX_NEXT_INSTR.

Definition BT_EqIbR (i : bxInstruction_c) : cpu unit :=
  op1_64 <- BX_READ_64BIT_REG (dst i) ;;
  let op2_8 := Z.land (Ib i) 0x3f in
  modify_lazy (set_CF (to_bool (Z.land (Z.shiftr op1_64 op2_8) 0x01))) ;;;
  BX_NEXT_INSTR.

Definition BTS_EqIbM (i : bxInstruction_c) : cpu unit :=
  let op2_8 := Z.land (Ib i) 0x3f in
  eaddr <- BX_CPU_RESOLVE_ADDR_64 i ;;
  laddr <- get_laddr64 (seg i) eaddr ;;
  op1_64 <- read_RMW_linear_qword (seg i) laddr ;;
  let temp_CF := to_bool (Z.land (Z.shiftr op1_64 op2_8) 0x01) in
  let op1_64 := Z.lor op1_64 (Z.shiftl 1 op2_8) in
  write_RMW_linear_qword op1_64 ;;;
  modify_lazy (set_CF temp_CF) ;;;
  BX_NEXT_INSTR.

Definition BTS_EqIbR (i : bxInstruction_c) : cpu unit :=
  let op2_8 := Z.land (Ib i) 0x3f in
  op1_64 <- BX_READ_64BIT_REG (dst i) ;;
  let temp_CF := to_bool (Z.land (Z.shiftr op1_64 op2_8) 0x01) in
  let op1_64 := Z.lor op1_64 (Z.shiftl 1 op2_8) in
  BX_WRITE_64BIT_REG (dst i) op1_64 ;;;
  modify_lazy (set_CF temp_CF) ;;;
  BX_NEXT_INSTR.

Definition BTC_EqIbM (i : bxInstruction_c) : cpu unit :=
  let op2_8 := Z.land (Ib i) 0x3f in
  eaddr <- BX_CPU_RESOLVE_ADDR_64 i ;;
  laddr <- get_laddr64 (seg i) eaddr ;;
  op1_64 <- read_RMW_linear_qword (seg i) laddr ;;
  let temp_CF := to_bool (Z.land (Z.shiftr op1_64 op2_8) 0x01) in
  let op1_64 := Z.lxor op1_64 (Z.shiftl 1 op2_8) in
  write_RMW_linear_qword op1_64 ;;;
  modify_lazy (set_CF temp_CF) ;;;
  BX_NEXT_INSTR.

Definition BTC_EqIbR (i : bxInstruction_c) : cpu unit :=
  let op2_8 := Z.land (Ib i) 0x3f in
  op1_64 <- BX_READ_64BIT_REG (dst i) ;;
  let temp_CF := to_bool (Z.land (Z.shiftr op1_64 op2_8) 0x01) in
  let op1_64 := Z.lxor op1_64 (Z.shiftl 1 op2_8) in
  BX_WRITE_64BIT_REG (dst i) op1_64 ;;;
  modify_lazy (set_CF temp_CF) ;;;
  BX_NEXT_INSTR.

Definition BTR_EqIbM (i : bxInstruction_c) : cpu unit :=
  let op2_8 := Z.land (Ib i) 0x3f in
  eaddr <- BX_CPU_RESOLVE_ADDR_64 i ;;
  laddr <- get_laddr64 (seg i) eaddr ;;
  op1_64 <- read_RMW_linear_qword (seg i) laddr ;;
  let temp_CF := to_bool (Z.land (Z.shiftr op1_64 op2_8) 0x01) in
  let op1_64 := Z.land op1_64 (Z.lnot (Z.shiftl 1 op2_8)) in
  write_RMW_linear_qword op1_64 ;;;
  modify_lazy (set_CF temp_CF) ;;;
  BX_NEXT_INSTR.

Definition BTR_EqIbR (i : bxInstruction_c) : cpu unit :=
  let op2_8 := Z.land (Ib i) 0x3f in
  op1_64 <- BX_READ_64BIT_REG (dst i) ;;
  let temp_CF := to_bool (Z.land (Z.shiftr op1_64 op2_8) 0x01) in
  let op1_64 := Z.land op1_64 (Z.lnot (Z.shiftl 1 op2_8)) in
  BX_WRITE_64BIT_REG (dst i) op1_64 ;;;
  modify_lazy (set_CF temp_CF) ;;;
  BX_NEXT_INSTR.

Definition POPCNT_GqEqR (i : bxInstruction_c) : cpu unit :=
  v <- BX_READ_64BIT_REG (src i) ;;
  let op_32 := popcntq v in
  put_lazy clearEFlagsOSZAPC ;;;
  (if op_32 =? 0 then cpu_assert_ZF else ret tt) ;;;
  BX_WRITE_32BIT_REGZ (dst i) op_32 ;;;
  BX_NEXT_INSTR.

Definition TZCNT_GqEqR (i : bxInstruction_c) : cpu unit :=
  op1_64 <- BX_READ_64BIT_REG (src i) ;;
  let result_64 := tzcntq op1_64 in
  modify_lazy (set_CF (op1_64 =? 0)) ;;;
  modify_lazy (set_ZF (result_64 =? 0)) ;;;
  BX_WRITE_64BIT_REG (dst i) result_64 ;;;
  BX_NEXT_INSTR.

Definition LZCNT_GqEqR (i : bxInstruction_c) : cpu unit :=
  op1_64 <- BX_READ_64BIT_REG (src i) ;;
  let result_64 := lzcntq op1_64 in
  modify_lazy (set_CF (op1_64 =? 0)) ;;;
  modify_lazy (set_ZF (result_64 =? 0)) ;;;
  BX_WRITE_64BIT_REG (dst i) result_64 ;;;
  BX_NEXT_INSTR.

End Handlers.
