(* ===== verification/BitSpec.v ===== *)
(** * Reference semantics of the bit and byte instructions

    What SETcc, BT/BTS/BTR/BTC, the bit scans and counts, BSWAP and MOVBE mean:
    a bit test in memory addresses a bit string that extends in both directions
    from the operand, a scan finds the lowest or the highest set bit, a byte
    swap reverses the bytes of the value. *)

From Stdlib Require Import ZArith Lia List Bool.
From S2P Require Import Prelude LazyFlags Cpu Alu ScalarArith.
Import ListNotations.
Open Scope Z_scope.

Inductive bit_op := BT | BTS | BTR | BTC.
Inductive scan_op := BSF | BSR | TZCNT | LZCNT | POPCNT.
Inductive cond := C_O | C_B | C_Z | C_BE | C_S | C_P | C_L | C_LE.

Definition bt_writes (op : bit_op) : bool := match op with BT => false | _ => true end.

Definition bit_update (op : bit_op) (x k : Z) : Z :=
  match op with
  | BT => x
  | BTS => Z.setbit x k
  | BTR => Z.clearbit x k
  | BTC => Z.lxor x (2 ^ k)
  end.

(** The lowest set bit among [n]; [n] when there is none. *)
Definition lowest (n v : Z) : Z :=
  match find (Z.testbit v) (zrange (Z.to_nat n)) with Some k => k | None => n end.

Definition scan_value (n : Z) (op : scan_op) (v : Z) : Z :=
  match op with
  | BSF | TZCNT => lowest n v
  | BSR => Z.log2 v
  | LZCNT => leading_zeros n v
  | POPCNT => ones (Z.to_nat n) v
  end.

Definition scan_flags (n : Z) (op : scan_op) (v : Z) (f : flags) : flags :=
  let r := scan_value n op v in
  match op with
  | BSF | BSR => (result_flags n r false false false) <| ZF := false |>
  | TZCNT | LZCNT => f <| CF := v =? 0 |> <| ZF := r =? 0 |>
  | POPCNT => Flags false false (r =? 0) false false false
  end.

Definition cond_holds (c : cond) (f : flags) : bool :=
  match c with
  | C_O => OF f
  | C_B => CF f
  | C_Z => ZF f
  | C_BE => CF f || ZF f
  | C_S => SF f
  | C_P => PF f
  | C_L => negb (Bool.eqb (SF f) (OF f))
  | C_LE => ZF f || negb (Bool.eqb (SF f) (OF f))
  end.

(** The lowest [n] bytes of [v] in the opposite order. *)
Fixpoint byte_rev (n : nat) (v : Z) : Z :=
  match n with O => 0 | S n => 256 ^ Z.of_nat n * (v mod 256) + byte_rev n (v / 256) end.

(** The address size in bits. *)
Definition addr_bits (sz : opsize) (i : bxInstruction_c) : Z :=
  if negb (as64L i =? 0) then 64
  else match sz with S64 => 32 | _ => if asize i =? 0 then 16 else 32 end.

Inductive bit_instr :=
| BitTest (op : bit_op) (f : form)
| Scan (op : scan_op)
| SetCond (c : cond) (neg mem : bool)
| Bswap                        (* register, 32 and 64 bits; 16 bits: undefined, gives 0 *)
| MovbeLoad
| MovbeStore.

Section Reference.
Context {M : Type} `{VirtualMemory M}.
Abbreviation cpu := (cpu flags M).

Definition read_at (sz : opsize) (rmw : bool) (seg offset : Z) : cpu Z :=
  match sz with
  | S8 => if rmw then read_RMW_virtual_byte seg offset else read_virtual_byte seg offset
  | S16 => if rmw then read_RMW_virtual_word seg offset else read_virtual_word seg offset
  | S32 => if rmw then read_RMW_virtual_dword seg offset else read_virtual_dword seg offset
  | S64 => laddr <- get_laddr64 seg offset ;;
           if rmw then read_RMW_linear_qword seg laddr else read_linear_qword seg laddr
  end.

Definition write_at (sz : opsize) (seg offset v : Z) : cpu unit :=
  match sz with
  | S8 => write_virtual_byte seg offset v
  | S16 => write_virtual_word seg offset v
  | S32 => write_virtual_dword seg offset v
  | S64 => laddr <- get_laddr64 seg offset ;; write_linear_qword seg laddr v
  end.

Definition modify_flags (f : flags -> flags) : cpu unit :=
  fun s => Ok tt (s <| oszapc := f (oszapc s) |>).

(** A register bit offset selects a bit of the string of which the operand is
    the start: element [o / n] (rounded down) of the size, bit [o mod n] of it. *)
Definition bit_test_spec (sz : opsize) (op : bit_op) (f : form) (i : bxInstruction_c) : cpu unit :=
  let n := bits sz in
  match f with
  | RegReg | RegImm =>
      a <- read_reg sz i (dst i) ;;
      o <- (match f with RegReg => read_reg sz i (src i) | _ => ret (Ib i) end) ;;
      (if bt_writes op then write_reg sz i (dst i) (bit_update op a (o mod n)) else ret tt) ;;;
      modify_flags (fun old => old <| CF := Z.testbit a (o mod n) |>)
  | _ =>
      eaddr <- BX_CPU_RESOLVE_ADDR i ;;
      o <- (match f with MemReg => read_reg sz i (src i) | _ => ret (Ib i mod n) end) ;;
      let addr := match f with
                  | MemReg => wrap (addr_bits sz i) (eaddr + n / 8 * (signed n o / n))
                  | _ => eaddr
                  end in
      a <- read_at sz (bt_writes op) (seg i) addr ;;
      (if bt_writes op then write_mem sz (bit_update op a (o mod n)) else ret tt) ;;;
      modify_flags (fun old => old <| CF := Z.testbit a (o mod n) |>)
  end.

(** BSF and BSR of zero set ZF and leave the destination and the other flags. *)
Definition scan_spec (sz : opsize) (op : scan_op) (i : bxInstruction_c) : cpu unit :=
  v <- read_reg sz i (src i) ;;
  let finish := write_reg sz i (dst i) (scan_value (bits sz) op v) ;;;
                modify_flags (scan_flags (bits sz) op v) in
  match op with
  | BSF | BSR => if v =? 0 then modify_flags (fun f => f <| ZF := true |>) else finish
  | _ => finish
  end.

Definition bit_instr_spec (sz : opsize) (ins : bit_instr) (i : bxInstruction_c) : cpu unit :=
  let bytes := Z.to_nat (bits sz / 8) in
  match ins with
  | BitTest op f => bit_test_spec sz op f i
  | Scan op => scan_spec sz op i
  | SetCond c neg mem =>
      f <- get_flags ;;
      let v := Z.b2z (xorb neg (cond_holds c f)) in
      if mem then eaddr <- BX_CPU_RESOLVE_ADDR i ;; write_at S8 (seg i) eaddr v
      else write_reg S8 i (dst i) v
  | Bswap =>
      match sz with
      | S16 => write_reg S16 i (dst i) 0
      | _ => v <- read_reg sz i (dst i) ;; write_reg sz i (dst i) (byte_rev bytes v)
      end
  | MovbeLoad =>
      eaddr <- BX_CPU_RESOLVE_ADDR i ;;
      v <- read_at sz false (seg i) eaddr ;;
      write_reg sz i (dst i) (byte_rev bytes v)
  | MovbeStore =>
      v <- read_reg sz i (src i) ;;
      eaddr <- BX_CPU_RESOLVE_ADDR i ;;
      write_at sz (seg i) eaddr (byte_rev bytes v)
  end.

End Reference.

(** ** Bits of the code's expressions *)

Lemma test_code a k : 0 <= k -> to_bool (Z.land (Z.shiftr a k) 1) = Z.testbit a k.
Proof. intros. rewrite shiftr_land_1, to_bool_b2z by assumption. reflexivity. Qed.

Lemma set_code a k : Z.lor a (Z.shiftl 1 k) = Z.setbit a k.
Proof. reflexivity. Qed.

Lemma clear_code a k : Z.land a (Z.lnot (Z.shiftl 1 k)) = Z.clearbit a k.
Proof. symmetry. apply Z.ldiff_land. Qed.

Lemma toggle_code a k : 0 <= k -> Z.lxor a (Z.shiftl 1 k) = Z.lxor a (2 ^ k).
Proof. intros. rewrite Z.shiftl_1_l. reflexivity. Qed.

(** The signed offset with its low [k] bits cleared divides exactly, so C's
    division, which truncates, is the floor. *)
Lemma displacement_code n k o : 0 < k -> k < n -> fits n o ->
  Z.quot (signed n (Z.land o (2 ^ n - 2 ^ k))) (2 ^ k) = signed n o / 2 ^ k.
Proof.
  intros Hk Hn Ho. pose proof (Z.pow_pos_nonneg 2 k ltac:(lia) ltac:(lia)) as P.
  assert (Q : 2 ^ n = 2 ^ k * 2 ^ (n - k)) by (rewrite <- Z.pow_add_r by lia; f_equal; lia).
  assert (E : Z.land o (2 ^ n - 2 ^ k) = o / 2 ^ k * 2 ^ k).
  { replace (2 ^ n - 2 ^ k) with (Z.shiftl (Z.ones (n - k)) k)
      by (rewrite Z.shiftl_mul_pow2, Z.ones_equiv by lia; nia).
    rewrite <- Z.shiftr_div_pow2, <- Z.shiftl_mul_pow2 by lia.
    apply Z.bits_inj'. intros j Hj. rewrite Z.land_spec, !Z.shiftl_spec by lia.
    destruct (Z.lt_ge_cases j k).
    - rewrite !(Z.testbit_neg_r _ (j - k)) by lia. apply andb_false_r.
    - rewrite Z.shiftr_spec, Z.testbit_ones_nonneg by lia.
      replace (j - k + k) with j by lia. destruct (Z.ltb_spec (j - k) (n - k)); [apply andb_true_r|].
      rewrite (fits_testbit n) by (assumption || lia). reflexivity. }
  rewrite E. clear E. set (q := o / 2 ^ k).
  assert (H2 : 2 ^ (n - 1) = 2 ^ k * 2 ^ (n - 1 - k)) by (rewrite <- Z.pow_add_r by lia; f_equal; lia).
  pose proof (Z.div_mod o (2 ^ k) ltac:(lia)) as D. fold q in D.
  pose proof (Z.mod_pos_bound o (2 ^ k) P). destruct Ho as [Ho1 Ho2].
  assert (0 <= q) by (apply Z.div_pos; lia).
  unfold signed. rewrite (wrap_id n o) by (split; lia). rewrite wrap_id by (split; nia).
  assert (X : (q * 2 ^ k <? 2 ^ (n - 1)) = (o <? 2 ^ (n - 1))).
  { rewrite H2. destruct (Z.ltb_spec o (2 ^ k * 2 ^ (n - 1 - k))) as [L|L]; [apply Z.ltb_lt; lia | apply Z.ltb_ge].
    pose proof (Z.div_le_lower_bound o (2 ^ k) _ P L) as B. fold q in B. nia. }
  rewrite X. destruct (o <? 2 ^ (n - 1)).
  - rewrite Z.quot_mul by lia. reflexivity.
  - rewrite Q. replace (q * 2 ^ k - 2 ^ k * 2 ^ (n - k)) with ((q - 2 ^ (n - k)) * 2 ^ k) by ring.
    rewrite Z.quot_mul by lia. replace (o - 2 ^ k * 2 ^ (n - k)) with (o + (- 2 ^ (n - k)) * 2 ^ k) by ring.
    rewrite Z.div_add by lia. reflexivity.
Qed.

(** ** Scans *)

Lemma find_zrange n v k : 0 <= k < Z.of_nat n -> Z.testbit v k = true ->
  (forall j, 0 <= j < k -> Z.testbit v j = false) -> find (Z.testbit v) (zrange n) = Some k.
Proof.
  intros Hk Hb Hl. unfold zrange. replace n with (Z.to_nat k + S (n - S (Z.to_nat k)))%nat by lia.
  rewrite seq_app, map_app. cbn [seq map Nat.add]. rewrite Z2Nat.id by lia.
  assert (E : forall m l, (m <= Z.to_nat k)%nat ->
    find (Z.testbit v) (map Z.of_nat (seq 0 m) ++ l) = find (Z.testbit v) l).
  { induction m as [|m IH]; intros l Hm; [reflexivity|].
    rewrite seq_S, map_app, <- app_assoc, IH by lia. cbn [map app find Nat.add].
    rewrite Hl by lia. reflexivity. }
  rewrite E by lia. cbn [find]. rewrite Hb. reflexivity.
Qed.

Lemma lowest_scan n v c : 0 <= n -> trailing_zeros n v c -> lowest n v = c.
Proof.
  intros Hn. unfold trailing_zeros, lowest. destruct (Z.eqb_spec v 0) as [->|].
  - intros ->. destruct (find _ _) eqn:E; [|reflexivity].
    apply find_some in E. rewrite Z.testbit_0_l in E. destruct E as [_ E]. discriminate E.
  - intros (Hc & Hb & Hl). rewrite (find_zrange _ v c); auto; lia.
Qed.

(** The search of BSR, for any loop with its equations at size [w]. *)
Lemma bsr_search w (loop : nat -> Z -> Z -> Z) :
  0 < w ->
  (forall fuel x y, loop (S fuel) x y =
     if Z.land y (2 ^ (w - 1)) =? 0 then loop fuel (x - 1) (wrap w (Z.shiftl y 1)) else x) ->
  forall fuel j v, 0 < v -> 0 <= j -> Z.log2 v + j < w -> w <= Z.of_nat fuel + j ->
  loop fuel (w - 1 - j) (v * 2 ^ j) = Z.log2 v.
Proof.
  intros Hw Heq. induction fuel as [|fuel IH]; intros j v Hv Hj Hl Hf; [pose proof (Z.log2_nonneg v); lia|].
  rewrite Heq, land_pow2_zero by lia.
  replace (Z.testbit (v * 2 ^ j) (w - 1)) with (Z.testbit v (w - 1 - j))
    by (rewrite <- Z.shiftl_mul_pow2, Z.shiftl_spec by lia; f_equal; lia).
  destruct (Z.eq_dec (Z.log2 v) (w - 1 - j)) as [E|N].
  - rewrite <- E, Z.bit_log2 by lia. reflexivity.
  - rewrite Z.bits_above_log2 by lia. cbn [negb].
    replace (wrap w (Z.shiftl (v * 2 ^ j) 1)) with (v * 2 ^ (j + 1)).
    + replace (w - 1 - j - 1) with (w - 1 - (j + 1)) by lia. apply IH; lia.
    + rewrite wrap_id.
      * rewrite Z.shiftl_mul_pow2, Z.pow_add_r by lia. lia.
      * rewrite Z.shiftl_mul_pow2 by lia. pose proof (Z.log2_spec v Hv) as [_ U].
        pose proof (Z.pow_pos_nonneg 2 j ltac:(lia) ltac:(lia)). split; [lia|].
        apply Z.lt_le_trans with (2 ^ Z.succ (Z.log2 v) * 2 ^ j * 2 ^ 1); [nia|].
        rewrite <- !Z.pow_add_r by (pose proof (Z.log2_nonneg v); lia).
        apply Z.pow_le_mono_r; lia.
Qed.

(** ** Byte order *)

Lemma byte_rev_fits n : forall v, fits (8 * Z.of_nat n) (byte_rev n v).
Proof.
  induction n as [|n IH]; intros v; cbn [byte_rev]; [unfold fits; cbn; lia|].
  specialize (IH (v / 256)). unfold fits in *. pose proof (Z.mod_pos_bound v 256 ltac:(lia)).
  replace (256 ^ Z.of_nat n) with (2 ^ (8 * Z.of_nat n)) by (rewrite Z.pow_mul_r by lia; reflexivity).
  replace (8 * Z.of_nat (S n)) with (8 + 8 * Z.of_nat n) by lia.
  rewrite Z.pow_add_r by lia. change (2 ^ 8) with 256. nia.
Qed.

(** Bit [i] comes from the same bit of the opposite byte. *)
Lemma byte_rev_bit n : forall v i, 0 <= i < 8 * Z.of_nat n ->
  Z.testbit (byte_rev n v) i = Z.testbit v (8 * (Z.of_nat n - 1 - i / 8) + i mod 8).
Proof.
  induction n as [|n IH]; intros v i Hi; [lia|]. cbn [byte_rev].
  replace (256 ^ Z.of_nat n) with (2 ^ (8 * Z.of_nat n)) by (rewrite Z.pow_mul_r by lia; reflexivity).
  rewrite sum_fields_bit by (lia || apply byte_rev_fits).
  pose proof (Z.div_mod i 8 ltac:(lia)). pose proof (Z.mod_pos_bound i 8 ltac:(lia)).
  destruct (Z.ltb_spec i (8 * Z.of_nat n)).
  - rewrite IH by lia. change 256 with (2 ^ 8). rewrite Z.div_pow2_bits by lia. f_equal. lia.
  - change 256 with (2 ^ 8). rewrite Z.mod_pow2_bits_low by lia. f_equal. lia.
Qed.

Lemma byte_rev_split n m v :
  byte_rev (n + m) v = 256 ^ Z.of_nat m * byte_rev n v + byte_rev m (v / 256 ^ Z.of_nat n).
Proof.
  revert v. induction n as [|n IH]; intros v; cbn [byte_rev Nat.add].
  - rewrite Z.div_1_r. lia.
  - rewrite IH, Nat2Z.inj_add, Z.pow_add_r, Z.div_div by lia.
    replace (256 * 256 ^ Z.of_nat n) with (256 ^ Z.of_nat (S n)); [ring|].
    rewrite Nat2Z.inj_succ, Z.pow_succ_r by lia. reflexivity.
Qed.

Lemma byte_rev_wrap n v : byte_rev n (wrap (8 * Z.of_nat n) v) = byte_rev n v.
Proof.
  apply Z.bits_inj'. intros i Hi. destruct (Z.lt_ge_cases i (8 * Z.of_nat n)).
  - pose proof (Z.div_mod i 8 ltac:(lia)). pose proof (Z.mod_pos_bound i 8 ltac:(lia)).
    rewrite !byte_rev_bit, wrap_bit by lia.
    destruct (Z.ltb_spec (8 * (Z.of_nat n - 1 - i / 8) + i mod 8) (8 * Z.of_nat n)); [reflexivity | lia].
  - rewrite !(fits_testbit (8 * Z.of_nat n)) by (lia || apply byte_rev_fits). reflexivity.
Qed.

(** Reversing twice gives the value back. *)
Lemma byte_rev_involutive n v : fits (8 * Z.of_nat n) v -> byte_rev n (byte_rev n v) = v.
Proof.
  intros Hv. apply Z.bits_inj'. intros i Hi. destruct (Z.lt_ge_cases i (8 * Z.of_nat n)).
  - pose proof (Z.div_mod i 8 ltac:(lia)). pose proof (Z.mod_pos_bound i 8 ltac:(lia)).
    rewrite !byte_rev_bit by lia. f_equal.
    set (q := Z.of_nat n - 1 - i / 8). replace (8 * q + i mod 8) with (i mod 8 + q * 8) by lia.
    rewrite Z.div_add, Z.mod_add, Z.div_small, Z.mod_small by lia. lia.
  - rewrite !(fits_testbit (8 * Z.of_nat n)) by (lia || assumption || apply byte_rev_fits). reflexivity.
Qed.

Lemma byte_rev_unique n v x : fits (8 * Z.of_nat n) x ->
  Forall (fun i => Z.testbit x i = Z.testbit v (8 * (Z.of_nat n - 1 - i / 8) + i mod 8)) (zrange (8 * n)) ->
  x = byte_rev n v.
Proof.
  rewrite Forall_forall. intros Hx H. apply Z.bits_inj'. intros i Hi.
  destruct (Z.lt_ge_cases i (8 * Z.of_nat n)).
  - rewrite byte_rev_bit by lia. apply H, zrange_in. lia.
  - rewrite !(fits_testbit (8 * Z.of_nat n)) by (lia || assumption || apply byte_rev_fits). reflexivity.
Qed.

Lemma get_field_64 x : fits 64 x -> get_field 0 64 x = x.
Proof. intros H. unfold get_field. rewrite Z.shiftr_0_r. apply wrap_id, H. Qed.

Lemma Ok_inj {S A} (a b : A) (s s' : S) : Ok a s = Ok b s' -> s = s'.
Proof. intros E. injection E. auto. Qed.
