(* ===== verification/BitRefine.v ===== *)
(** * The bit and byte instruction handlers implement their reference semantics *)

From Stdlib Require Import ZArith Lia List Bool FunctionalExtensionality.
From S2P Require Import Prelude LazyFlags Cpu Alu ScalarArith ShiftSpec Bit Bit16 Bit32 Bit64 BitSpec.
Import ListNotations.
Open Scope Z_scope.

(** ** Values *)

Lemma bsr_16 v : v <> 0 -> fits 16 v -> bsr_loop_16 16 15 v = Z.log2 v.
Proof.
  intros N H. rewrite <- (Z.mul_1_r v) at 1. apply (bsr_search 16 bsr_loop_16 ltac:(lia)) with (j := 0);
    unfold fits in H; try lia; [reflexivity|]. rewrite Z.add_0_r. apply Z.log2_lt_pow2; lia.
Qed.

Lemma bsr_32 v : v <> 0 -> fits 32 v -> bsr_loop_32 32 31 v = Z.log2 v.
Proof.
  intros N H. rewrite <- (Z.mul_1_r v) at 1. apply (bsr_search 32 bsr_loop_32 ltac:(lia)) with (j := 0);
    unfold fits in H; try lia; [reflexivity|]. rewrite Z.add_0_r. apply Z.log2_lt_pow2; lia.
Qed.

Lemma bsr_64 v : v <> 0 -> fits 64 v -> bsr_loop_64 64 63 v = Z.log2 v.
Proof.
  intros N H. rewrite <- (Z.mul_1_r v) at 1. apply (bsr_search 64 bsr_loop_64 ltac:(lia)) with (j := 0);
    unfold fits in H; try lia; [reflexivity|]. rewrite Z.add_0_r. apply Z.log2_lt_pow2; lia.
Qed.

(** One bit of the code's shifts and masks, at a literal position. *)
Ltac bswap_bit v w :=
  repeat progress (
    repeat first [ rewrite wrap_bit by lia | rewrite Z.lor_spec | rewrite Z.land_spec
                 | rewrite Z.shiftl_spec by lia | rewrite Z.shiftr_spec by lia ];
    cbn -[Z.testbit Z.lor Z.land Z.shiftl Z.shiftr wrap];
    repeat match goal with
    | |- context [Z.testbit ?u ?k] =>
        first [ rewrite (fits_testbit w u k) by (lia || assumption) | rewrite (Z.testbit_neg_r u k) by lia ]
    | |- context [Z.testbit (Zpos ?p) ?k] =>
        let b := eval vm_compute in (Z.testbit (Zpos p) k) in change (Z.testbit (Zpos p) k) with b
    end; cbn [andb orb]);
  repeat first [rewrite orb_false_r | rewrite andb_false_r | rewrite andb_true_r]; reflexivity.

Ltac each_bit := match goal with |- Forall ?P ?l =>
  let l' := eval vm_compute in l in change (Forall P l'); repeat apply Forall_cons; try apply Forall_nil end;
  cbv beta.

Lemma bswap16_rev v : fits 16 v -> bx_bswap16 v = byte_rev 2 v.
Proof.
  intros H. apply byte_rev_unique; [apply wrap_fits; lia|]. unfold bx_bswap16.
  each_bit; bswap_bit v 16.
Qed.

Lemma bswap32_rev v : fits 32 v -> bx_bswap32 v = byte_rev 4 v.
Proof.
  intros H. apply byte_rev_unique; [apply wrap_fits; lia|]. unfold bx_bswap32. cbv zeta.
  each_bit; bswap_bit v 32.
Qed.

Lemma bswap64_rev v : fits 64 v -> bx_bswap64 v = byte_rev 8 v.
Proof.
  intros H. unfold bx_bswap64. cbv zeta. rewrite (byte_rev_split 4 4).
  change (Z.land v 0xFFFFFFFF) with (Z.land v (Z.ones 32)). rewrite Z.land_ones by lia.
  fold (wrap 32 v). rewrite wrap_wrap, Z.shiftr_div_pow2 by lia.
  rewrite !bswap32_rev by (apply wrap_fits; lia). rewrite (byte_rev_wrap 4), (byte_rev_wrap 4).
  rewrite lor_shiftl_add by (lia || apply (byte_rev_fits 4)). reflexivity.
Qed.
(** ** The handlers *)

Section Refinement.
Context {M : Type} `{VirtualMemoryOk M}.
Abbreviation handler := (bxInstruction_c -> cpu bx_lazyflags_entry M unit).

Definition setcc_handler (c : cond) (neg mem : bool) : handler :=
  match c, neg, mem with
  | C_O, false, true => SETO_EbM
  | C_O, false, false => SETO_EbR
  | C_O, true, true => SETNO_EbM
  | C_O, true, false => SETNO_EbR
  | C_B, false, true => SETB_EbM
  | C_B, false, false => SETB_EbR
  | C_B, true, true => SETNB_EbM
  | C_B, true, false => SETNB_EbR
  | C_Z, false, true => SETZ_EbM
  | C_Z, false, false => SETZ_EbR
  | C_Z, true, true => SETNZ_EbM
  | C_Z, true, false => SETNZ_EbR
  | C_BE, false, true => SETBE_EbM
  | C_BE, false, false => SETBE_EbR
  | C_BE, true, true => SETNBE_EbM
  | C_BE, true, false => SETNBE_EbR
  | C_S, false, true => SETS_EbM
  | C_S, false, false => SETS_EbR
  | C_S, true, true => SETNS_EbM
  | C_S, true, false => SETNS_EbR
  | C_P, false, true => SETP_EbM
  | C_P, false, false => SETP_EbR
  | C_P, true, true => SETNP_EbM
  | C_P, true, false => SETNP_EbR
  | C_L, false, true => SETL_EbM
  | C_L, false, false => SETL_EbR
  | C_L, true, true => SETNL_EbM
  | C_L, true, false => SETNL_EbR
  | C_LE, false, true => SETLE_EbM
  | C_LE, false, false => SETLE_EbR
  | C_LE, true, true => SETNLE_EbM
  | C_LE, true, false => SETNLE_EbR
  end.

Definition bit_handler (sz : opsize) (ins : bit_instr) : option handler :=
  match sz, ins with
  | S8, SetCond c neg mem => Some (setcc_handler c neg mem)
  | S16, BitTest BT MemReg => Some BT_EwGwM
  | S16, BitTest BT RegReg => Some BT_EwGwR
  | S16, BitTest BT MemImm => Some BT_EwIbM
  | S16, BitTest BT RegImm => Some BT_EwIbR
  | S16, BitTest BTS MemReg => Some BTS_EwGwM
  | S16, BitTest BTS RegReg => Some BTS_EwGwR
  | S16, BitTest BTS MemImm => Some BTS_EwIbM
  | S16, BitTest BTS RegImm => Some BTS_EwIbR
  | S16, BitTest BTR MemReg => Some BTR_EwGwM
  | S16, BitTest BTR RegReg => Some BTR_EwGwR
  | S16, BitTest BTR MemImm => Some BTR_EwIbM
  | S16, BitTest BTR RegImm => Some BTR_EwIbR
  | S16, BitTest BTC MemReg => Some BTC_EwGwM
  | S16, BitTest BTC RegReg => Some BTC_EwGwR
  | S16, BitTest BTC MemImm => Some BTC_EwIbM
  | S16, BitTest BTC RegImm => Some BTC_EwIbR
  | S16, Scan BSF => Some BSF_GwEwR
  | S16, Scan BSR => Some BSR_GwEwR
  | S16, Scan POPCNT => Some POPCNT_GwEwR
  | S16, Scan TZCNT => Some TZCNT_GwEwR
  | S16, Scan LZCNT => Some LZCNT_GwEwR
  | S16, Bswap => Some BSWAP_RX
  | S16, MovbeLoad => Some MOVBE_GwMw
  | S16, MovbeStore => Some MOVBE_MwGw
  | S32, BitTest BT MemReg => Some BT_EdGdM
  | S32, BitTest BT RegReg => Some BT_EdGdR
  | S32, BitTest BT MemImm => Some BT_EdIbM
  | S32, BitTest BT RegImm => Some BT_EdIbR
  | S32, BitTest BTS MemReg => Some BTS_EdGdM
  | S32, BitTest BTS RegReg => Some BTS_EdGdR
  | S32, BitTest BTS MemImm => Some BTS_EdIbM
  | S32, BitTest BTS RegImm => Some BTS_EdIbR
  | S32, BitTest BTR MemReg => Some BTR_EdGdM
  | S32, BitTest BTR RegReg => Some BTR_EdGdR
  | S32, BitTest BTR MemImm => Some BTR_EdIbM
  | S32, BitTest BTR RegImm => Some BTR_EdIbR
  | S32, BitTest BTC MemReg => Some BTC_EdGdM
  | S32, BitTest BTC RegReg => Some BTC_EdGdR
  | S32, BitTest BTC MemImm => Some BTC_EdIbM
  | S32, BitTest BTC RegImm => Some BTC_EdIbR
  | S32, Scan BSF => Some BSF_GdEdR
  | S32, Scan BSR => Some BSR_GdEdR
  | S32, Scan POPCNT => Some POPCNT_GdEdR
  | S32, Scan TZCNT => Some TZCNT_GdEdR
  | S32, Scan LZCNT => Some LZCNT_GdEdR
  | S32, Bswap => Some BSWAP_ERX
  | S32, MovbeLoad => Some MOVBE_GdMd
  | S32, MovbeStore => Some MOVBE_MdGd
  | S64, BitTest BT MemReg => Some BT_EqGqM
  | S64, BitTest BT RegReg => Some BT_EqGqR
  | S64, BitTest BT MemImm => Some BT_EqIbM
  | S64, BitTest BT RegImm => Some BT_EqIbR
  | S64, BitTest BTS MemReg => Some BTS_EqGqM
  | S64, BitTest BTS RegReg => Some BTS_EqGqR
  | S64, BitTest BTS MemImm => Some BTS_EqIbM
  | S64, BitTest BTS RegImm => Some BTS_EqIbR
  | S64, BitTest BTR MemReg => Some BTR_EqGqM
  | S64, BitTest BTR RegReg => Some BTR_EqGqR
  | S64, BitTest BTR MemImm => Some BTR_EqIbM
  | S64, BitTest BTR RegImm => Some BTR_EqIbR
  | S64, BitTest BTC MemReg => Some BTC_EqGqM
  | S64, BitTest BTC RegReg => Some BTC_EqGqR
  | S64, BitTest BTC MemImm => Some BTC_EqIbM
  | S64, BitTest BTC RegImm => Some BTC_EqIbR
  | S64, Scan BSF => Some BSF_GqEqR
  | S64, Scan BSR => Some BSR_GqEqR
  | S64, Scan POPCNT => Some POPCNT_GqEqR
  | S64, Scan TZCNT => Some TZCNT_GqEqR
  | S64, Scan LZCNT => Some LZCNT_GqEqR
  | S64, Bswap => Some BSWAP_RRX
  | S64, MovbeLoad => Some MOVBE_GqMq
  | S64, MovbeStore => Some MOVBE_MqGq
  | _, _ => None
  end.

Ltac unfold_bit := cbv [
  BT_EwGwM BT_EwGwR BT_EwIbM BT_EwIbR BTS_EwGwM BTS_EwGwR BTS_EwIbM BTS_EwIbR BTR_EwGwM BTR_EwGwR
  BTR_EwIbM BTR_EwIbR BTC_EwGwM BTC_EwGwR BTC_EwIbM BTC_EwIbR BSF_GwEwR BSR_GwEwR POPCNT_GwEwR
  TZCNT_GwEwR LZCNT_GwEwR BSWAP_RX MOVBE_GwMw MOVBE_MwGw BT_EdGdM BT_EdGdR BT_EdIbM BT_EdIbR
  BTS_EdGdM BTS_EdGdR BTS_EdIbM BTS_EdIbR BTR_EdGdM BTR_EdGdR BTR_EdIbM BTR_EdIbR BTC_EdGdM
  BTC_EdGdR BTC_EdIbM BTC_EdIbR BSF_GdEdR BSR_GdEdR POPCNT_GdEdR TZCNT_GdEdR LZCNT_GdEdR BSWAP_ERX
  MOVBE_GdMd MOVBE_MdGd BT_EqGqM BT_EqGqR BT_EqIbM BT_EqIbR BTS_EqGqM BTS_EqGqR BTS_EqIbM
  BTS_EqIbR BTR_EqGqM BTR_EqGqR BTR_EqIbM BTR_EqIbR BTC_EqGqM BTC_EqGqR BTC_EqIbM BTC_EqIbR
  BSF_GqEqR BSR_GqEqR POPCNT_GqEqR TZCNT_GqEqR LZCNT_GqEqR BSWAP_RRX MOVBE_GqMq MOVBE_MqGq].

Ltac unfold_setcc := cbv [setcc_handler
  SETO_EbM SETO_EbR SETNO_EbM SETNO_EbR SETB_EbM SETB_EbR SETNB_EbM SETNB_EbR SETZ_EbM SETZ_EbR
  SETNZ_EbM SETNZ_EbR SETBE_EbM SETBE_EbR SETNBE_EbM SETNBE_EbR SETS_EbM SETS_EbR SETNS_EbM
  SETNS_EbR SETP_EbM SETP_EbR SETNP_EbM SETNP_EbR SETL_EbM SETL_EbR SETNL_EbM SETNL_EbR SETLE_EbM
  SETLE_EbR SETNLE_EbM SETNLE_EbR].

(** Reads, writes and flag changes in front of a continuation. *)
Lemma bind_get_lazy {A B} (f : bx_lazyflags_entry -> A) (k : A -> cpu bx_lazyflags_entry M B) s :
  bind (get_lazy f) k s = k (f (oszapc s)) s.
Proof. reflexivity. Qed.

Lemma modify_flags_eq f (s : bx_cpu flags M) : modify_flags f s = Ok tt (s <| oszapc := f (oszapc s) |>).
Proof. reflexivity. Qed.

Lemma osim_access_last {A} (f : M -> (exn + A) * M) (s : bx_cpu bx_lazyflags_entry M) :
  cpu_ok s -> osim (access f s) (access f (abs s)).
Proof.
  intros Hs. unfold access. change (vmem (abs s)) with (vmem s).
  destruct (f (vmem s)) as [[e|v] m]; (split; [reflexivity | exact Hs]).
Qed.

Lemma access_next {F} (f : M -> (exn + unit) * M) (s : bx_cpu F M) :
  bind (access f) (fun _ => BX_NEXT_INSTR) s = access f s.
Proof. unfold bind, access. destruct (f (vmem s)) as [[e|[]] m]; reflexivity. Qed.

Lemma flags_of_cpu (s : bx_cpu bx_lazyflags_entry M) : oszapc (abs s) = lazy_flags (oszapc s).
Proof. reflexivity. Qed.

(** The condition codes read from the lazy entry. *)
Lemma flag01 x : x = Z.b2z (to_bool x) -> lnot_c x = Z.b2z (negb (to_bool x)).
Proof. intros ->. destruct (to_bool x); reflexivity. Qed.

Definition cond_code (c : cond) (e : bx_lazyflags_entry) : Z :=
  match c with
  | C_O => getB_OF e | C_B => getB_CF e | C_Z => getB_ZF e
  | C_BE => Z.lor (getB_CF e) (getB_ZF e)
  | C_S => getB_SF e | C_P => getB_PF e
  | C_L => Z.lxor (getB_SF e) (getB_OF e)
  | C_LE => Z.lor (getB_ZF e) (Z.lxor (getB_SF e) (getB_OF e))
  end.

Lemma getB_bits e : lf_ok e ->
  getB_OF e = Z.b2z (OF (lazy_flags e)) /\ getB_SF e = Z.b2z (SF (lazy_flags e)) /\
  getB_ZF e = Z.b2z (ZF (lazy_flags e)) /\ getB_PF e = Z.b2z (PF (lazy_flags e)) /\
  getB_CF e = Z.b2z (CF (lazy_flags e)).
Proof.
  intros He. rewrite lazy_flags_bits by exact He. unfold entry_flags. cbn [OF SF ZF PF CF].
  split; [apply getB_OF_bit, He|]. split; [apply getB_SF_bit|]. split; [reflexivity|].
  split; [apply getB_PF_bit | apply getB_CF_bit].
Qed.

Lemma cond_code_holds c e : lf_ok e -> cond_code c e = Z.b2z (cond_holds c (lazy_flags e)).
Proof.
  intros He. destruct (getB_bits e He) as (EO & ES & EZ & EP & EC).
  destruct c; cbn [cond_code cond_holds]; rewrite ?EO, ?ES, ?EZ, ?EP, ?EC;
    try reflexivity; destruct (OF _), (SF _), (ZF _), (CF _); reflexivity.
Qed.

Lemma set_CF_abs v e : lf_ok e -> lazy_flags (set_CF v e) = (lazy_flags e) <| CF := v |>.
Proof. exact (set_flag_flags F_CF v e). Qed.

Lemma set_ZF_abs v e : lf_ok e -> lazy_flags (set_ZF v e) = (lazy_flags e) <| ZF := v |>.
Proof. exact (set_flag_flags F_ZF v e). Qed.

Lemma set_CF_lf_ok v e : lf_ok e -> lf_ok (set_CF v e).
Proof. exact (set_flag_ok F_CF v e). Qed.

Lemma set_ZF_lf_ok v e : lf_ok e -> lf_ok (set_ZF v e).
Proof. exact (set_flag_ok F_ZF v e). Qed.

Lemma write8_eq {F} r x v (s : bx_cpu F M) :
  BX_WRITE_8BIT_REGx r x v s = Ok tt (s <| gen_reg := write8x r x v (gen_reg s) |>).
Proof. unfold BX_WRITE_8BIT_REGx, write8x. destruct (_ || _); reflexivity. Qed.

(** Closes the comparison of two returned states. *)
Ltac bit_lf := match goal with
  | |- lf_ok (set_CF _ _) => apply set_CF_lf_ok; bit_lf
  | |- lf_ok (set_ZF _ _) => apply set_ZF_lf_ok; bit_lf
  | |- lf_ok (assert_ZF clearEFlagsOSZAPC) => exact (set_ZF_lf_ok true _ (SIZE_ok 32 0 1))
  | |- lf_ok (assert_ZF _) => apply (set_ZF_lf_ok true); bit_lf
  | |- lf_ok (clear_ZF _) => apply (set_ZF_lf_ok false); bit_lf
  | |- lf_ok _ => lf_ok_tac
  end.

Ltac bit_end := split; [ apply Ok_abs; [ try reflexivity | try reflexivity | try reflexivity ]
                       | split; [ cbn [set_field gen_reg]; regs_fit | cbn [set_field oszapc]; bit_lf ] ].

Definition setcc_code (c : cond) (neg : bool) (e : bx_lazyflags_entry) : Z :=
  if neg then lnot_c (cond_code c e) else cond_code c e.

Lemma setcc_handler_eq c neg mem i s :
  setcc_handler c neg mem i s =
  (if mem then
     eaddr <- BX_CPU_RESOLVE_ADDR i ;; v <- get_lazy (setcc_code c neg) ;;
     write_virtual_byte (seg i) eaddr v ;;; BX_NEXT_INSTR
   else
     v <- get_lazy (setcc_code c neg) ;;
     BX_WRITE_8BIT_REGx (dst i) (extend8bitL i) v ;;; BX_NEXT_INSTR) s.
Proof. destruct c, neg, mem; reflexivity. Qed.

Lemma setcc_code_holds c neg e : lf_ok e ->
  setcc_code c neg e = Z.b2z (xorb neg (cond_holds c (lazy_flags e))).
Proof.
  intros He. unfold setcc_code. rewrite cond_code_holds by exact He.
  destruct neg, (cond_holds _ _); reflexivity.
Qed.

Lemma setcc_refines c neg mem i s : cpu_ok s ->
  osim (setcc_handler c neg mem i s) (bit_instr_spec S8 (SetCond c neg mem) i (abs s)).
Proof.
  intros Hs. rewrite setcc_handler_eq. cbn [bit_instr_spec write_at write_reg].
  rewrite bind_get_flags, flags_of_cpu.
  assert (W : forall b, u8 (Z.b2z b) = Z.b2z b) by (intros []; reflexivity).
  destruct mem.
  - rewrite !bind_RESOLVE, bind_get_lazy, setcc_code_holds by apply Hs.
    unfold write_virtual_byte. rewrite access_next. apply osim_access_last, Hs.
  - rewrite bind_get_lazy, setcc_code_holds, bind_W8x, NEXT_eq by apply Hs.
    unfold write_reg. rewrite write8_eq. bit_end.
Qed.

(** ** Addresses *)

Lemma asize_mask_ones i :
  asize_mask i = Z.ones (if asize i =? 0 then 16 else if asize i =? 1 then 32 else 64).
Proof. unfold asize_mask, bx_asize_mask. destruct (asize i =? 0), (asize i =? 1); reflexivity. Qed.

Lemma asize_as64 i : (as64L i =? 0) = ((asize i =? 0) || (asize i =? 1)).
Proof.
  unfold as64L, asize. change 0x3 with (Z.ones 2). change (Z.shiftl 1 1) with (2 ^ 1).
  rewrite land_pow2_zero, Z.land_ones by lia.
  pose proof (Z.mod_pos_bound (metaInfo1 i) (2 ^ 2) ltac:(lia)).
  rewrite <- (Z.mod_pow2_bits_low _ 2 1) by lia. set (x := _ mod _) in *.
  assert (C : x = 0 \/ x = 1 \/ x = 2 \/ x = 3) by lia.
  destruct C as [->|[->|[->| ->]]]; reflexivity.
Qed.

Lemma masked_address sz i a : sz <> S64 ->
  Z.land (u64 a) (asize_mask i) = wrap (addr_bits sz i) a.
Proof.
  intros N. rewrite asize_mask_ones, Z.land_ones by (destruct (asize i =? 0), (asize i =? 1); lia).
  fold (wrap (if asize i =? 0 then 16 else if asize i =? 1 then 32 else 64) (u64 a)).
  unfold addr_bits. rewrite asize_as64.
  destruct (asize i =? 0) eqn:E0, (asize i =? 1) eqn:E1; cbn [orb negb];
    (destruct sz; [| | |congruence]); rewrite ?wrap_wrap_le by lia; reflexivity.
Qed.

Lemma address_64 i a :
  (if as64L i =? 0 then u32 (u64 a) else u64 a) = wrap (addr_bits S64 i) a.
Proof. unfold addr_bits. destruct (as64L i =? 0); cbn [negb]; rewrite ?wrap_wrap_le by lia; reflexivity. Qed.

(** ** Offsets and bit positions *)

Lemma signed_offset n k o : 0 <= k < n -> signed n o mod 2 ^ k = o mod 2 ^ k.
Proof.
  intros. fold (wrap k (signed n o)) (wrap k o).
  rewrite <- (wrap_wrap_le k n), wrap_signed, wrap_wrap_le by lia. reflexivity.
Qed.

Lemma index_16 o : Z.land o 0xf = o mod 16.
Proof. exact (Z.land_ones o 4 ltac:(lia)). Qed.
Lemma index_32 o : Z.land o 0x1f = o mod 32.
Proof. exact (Z.land_ones o 5 ltac:(lia)). Qed.
Lemma index_64 o : Z.land o 0x3f = o mod 64.
Proof. exact (Z.land_ones o 6 ltac:(lia)). Qed.

Lemma disp_16 o : fits 16 o -> Z.quot (signed 16 (Z.land o 0xfff0)) 16 = signed 16 o / 16.
Proof. exact (displacement_code 16 4 o ltac:(lia) ltac:(lia)). Qed.
Lemma disp_32 o : fits 32 o -> Z.quot (signed 32 (Z.land o 0xffffffe0)) 32 = signed 32 o / 32.
Proof. exact (displacement_code 32 5 o ltac:(lia) ltac:(lia)). Qed.
Lemma disp_64 o : fits 64 o -> Z.quot (signed 64 (Z.land o 0xffffffffffffffc0)) 64 = signed 64 o / 64.
Proof. exact (displacement_code 64 6 o ltac:(lia) ltac:(lia)). Qed.

Lemma bit_update_fits n op a k : 0 <= k < n -> fits n a -> fits n (bit_update op a k).
Proof.
  intros Hk Ha. destruct op; cbn [bit_update].
  - exact Ha.
  - apply (set_bit_fits n a k Hk Ha).
  - unfold Z.clearbit. rewrite Z.ldiff_land. apply fits_land_l; [lia | exact Ha].
  - apply fits_lxor; [lia | exact Ha | apply fits_pow2, Hk].
Qed.

Ltac bit_values :=
  rewrite ?index_16, ?index_32, ?index_64, ?disp_16, ?disp_32, ?disp_64
    by first [ apply get_field_fits; lia | match goal with Hs : cpu_ok _ |- _ => apply Hs end ];
  rewrite ?(masked_address S16), ?(masked_address S32), ?address_64 by discriminate;
  rewrite ?test_code by (apply Z.mod_pos_bound; lia);
  rewrite ?set_code, ?clear_code, ?toggle_code by (apply Z.mod_pos_bound; lia).

Ltac bit_exec := repeat progress (exec; rewrite ?modify_flags_eq, ?bind_get_lazy; exec_simpl); cbv match;
  bit_values; rewrite ?Z.mod_mod by lia.

Ltac bit_start :=
  intros [g b e m] Hs;
  cbn [bit_instr_spec bit_test_spec scan_spec read_at write_at bt_writes bits bit_update scan_value scan_flags];
  unfold_io; bit_exec.

Ltac bit_run := repeat (exec_access; bit_exec).

Ltac bit_flags := match goal with H : cpu_ok _ |- _ =>
  let L := fresh in destruct H as [_ L]; cbn [oszapc] in L; symmetry;
  rewrite ?set_ZF_abs, ?set_CF_abs by (repeat apply set_CF_lf_ok; exact L) end; reflexivity.

Ltac bit_end_test := split;
  [ apply Ok_abs; [ reflexivity | bit_flags | reflexivity ]
  | split; [ cbn [set_field gen_reg]; regs_fit | cbn [set_field oszapc]; bit_lf ] ].

Lemma bit_test_refines sz op f h i s : bit_handler sz (BitTest op f) = Some h -> cpu_ok s ->
  osim (h i s) (bit_instr_spec sz (BitTest op f) i (abs s)).
Proof.
  intros E. revert s. destruct sz, op, f; try discriminate E; injection E as <-; unfold_bit;
    bit_start; bit_run; bit_end_test.
Qed.

Lemma lowest_16 v : fits 16 v -> tzcntw v = lowest 16 v.
Proof. intros H1. symmetry. apply (lowest_scan 16); [lia | apply tzcntw_spec, H1]. Qed.
Lemma lowest_32 v : fits 32 v -> tzcntd v = lowest 32 v.
Proof. intros H1. symmetry. apply (lowest_scan 32); [lia | apply tzcntd_spec, H1]. Qed.
Lemma lowest_64 v : fits 64 v -> tzcntq v = lowest 64 v.
Proof. intros H1. symmetry. apply (lowest_scan 64); [lia | apply tzcntq_spec, H1]. Qed.

Lemma scan_flags_abs n r : osize n ->
  lazy_flags (clear_ZF (SET_FLAGS_OSZAPC_LOGIC n r)) = (result_flags n r false false false) <| ZF := false |>.
Proof.
  intros Hn. rewrite <- LOGIC_flags by exact Hn.
  exact (set_flag_flags F_ZF false _ (SIZE_ok n 0 r)).
Qed.

Lemma clear_flags_abs : lazy_flags clearEFlagsOSZAPC = Flags false false false false false false.
Proof. vm_compute. reflexivity. Qed.

Lemma clear_flags_ok : lf_ok clearEFlagsOSZAPC.
Proof. exact (SIZE_ok 32 0 1). Qed.

Lemma popcnt_flags_abs (b : bool) :
  lazy_flags (if b then assert_ZF clearEFlagsOSZAPC else clearEFlagsOSZAPC) = Flags false false b false false false.
Proof. destruct b; vm_compute; reflexivity. Qed.

Lemma assert_ZF_lazy e : lf_ok e -> lazy_flags (assert_ZF e) = (lazy_flags e) <| ZF := true |>.
Proof. exact (set_flag_flags F_ZF true e). Qed.

Ltac reg_fits := first [ apply get_field_fits; lia | match goal with Hs : cpu_ok _ |- _ => apply Hs end ].

Ltac scan_values := unfold scan_flags; cbn [scan_value];
  change (Z.to_nat 16) with 16%nat; change (Z.to_nat 32) with 32%nat; change (Z.to_nat 64) with 64%nat;
  repeat match goal with
  | |- context [tzcntw ?v] => rewrite (lowest_16 v) by (assumption || reg_fits)
  | |- context [tzcntd ?v] => rewrite (lowest_32 v) by (assumption || reg_fits)
  | |- context [tzcntq ?v] => rewrite (lowest_64 v) by (assumption || reg_fits)
  | |- context [lzcntw ?v] => rewrite (lzcntw_spec v) by (assumption || reg_fits)
  | |- context [lzcntd ?v] => rewrite (lzcntd_spec v) by (assumption || reg_fits)
  | |- context [lzcntq ?v] => rewrite (lzcntq_spec v) by (assumption || reg_fits)
  | |- context [popcntw ?v] => rewrite (popcntw_spec v) by (assumption || reg_fits)
  | |- context [popcntd ?v] => rewrite (popcntd_spec v) by (assumption || reg_fits)
  | |- context [popcntq ?v] => rewrite (popcntq_spec v) by (assumption || reg_fits)
  | |- context [bsr_loop_16 16 15 ?v] => rewrite (bsr_16 v) by (assumption || reg_fits)
  | |- context [bsr_loop_32 32 31 ?v] => rewrite (bsr_32 v) by (assumption || reg_fits)
  | |- context [bsr_loop_64 64 63 ?v] => rewrite (bsr_64 v) by (assumption || reg_fits)
  end.

(** [injection] on a handler equation is slow: it looks inside the handlers. *)
Ltac some_handler E := match type of E with
  | bit_handler ?sz ?ins = Some ?h =>
      unfold bit_handler in E; match type of E with Some ?h' = _ =>
        assert (X : h = h') by congruence; subst h; clear E end
  end.

Lemma ones_fits n m v : (n <= 64)%nat -> m = 32 \/ m = 64 -> wrap m (ones n v) = ones n v.
Proof.
  intros Hn Hm. apply wrap_id. pose proof (ones_bound n v). unfold fits.
  destruct Hm as [-> | ->]; lia.
Qed.

Ltac scan_end := split;
  [ apply Ok_abs;
    [ rewrite ?(ones_fits (Z.to_nat 64)), ?(ones_fits 64) by (cbn; lia); reflexivity
    | unfold scan_flags; cbn [scan_value]; match goal with
      | |- _ = lazy_flags (clear_ZF (SET_FLAGS_OSZAPC_LOGIC _ _)) =>
          symmetry; apply scan_flags_abs; unfold osize; lia
      | |- _ = lazy_flags (assert_ZF clearEFlagsOSZAPC) => symmetry; exact (popcnt_flags_abs true)
      | |- _ = lazy_flags clearEFlagsOSZAPC => symmetry; exact (popcnt_flags_abs false)
      | Hs : cpu_ok _ |- _ = lazy_flags (assert_ZF _) => symmetry; apply assert_ZF_lazy, Hs
      | _ => bit_flags
      end
    | reflexivity ]
  | split; [ cbn [set_field gen_reg]; regs_fit | cbn [set_field oszapc]; first [exact clear_flags_ok | bit_lf] ] ].

Lemma scan_refines sz op h i s : bit_handler sz (Scan op) = Some h -> cpu_ok s ->
  osim (h i s) (bit_instr_spec sz (Scan op) i (abs s)).
Proof.
  intros E. revert s. destruct sz, op; try discriminate E; some_handler E; unfold_bit;
    unfold cpu_assert_ZF, cpu_clear_ZF; intros [g b e m] Hs; cbn [bit_instr_spec]; unfold scan_spec;
    cbn [bits]; unfold_io; bit_exec;
    try scan_values;
    try match goal with |- context [if ?v =? 0 then modify_lazy _ else _] =>
          destruct (Z.eqb_spec v 0) end; bit_exec; try scan_values; scan_end.
Qed.

(** ** Byte order *)

Lemma write_eq16 {F} r v (s : bx_cpu F M) :
  BX_WRITE_16BIT_REG r v s = Ok tt (s <| gen_reg := upd (gen_reg s) r (put_field 0 16 v (gen_reg s r)) |>).
Proof. reflexivity. Qed.
Lemma write_eq32 {F} r v (s : bx_cpu F M) :
  BX_WRITE_32BIT_REGZ r v s = Ok tt (s <| gen_reg := upd (gen_reg s) r (u32 v) |>).
Proof. reflexivity. Qed.
Lemma write_eq64 {F} r v (s : bx_cpu F M) :
  BX_WRITE_64BIT_REG r v s = Ok tt (s <| gen_reg := upd (gen_reg s) r (u64 v) |>).
Proof. reflexivity. Qed.

Definition is_byte_instr (ins : bit_instr) : bool :=
  match ins with Bswap | MovbeLoad | MovbeStore => true | _ => false end.

Ltac swap_values := rewrite ?bswap16_rev, ?bswap32_rev, ?bswap64_rev by (assumption || reg_fits).

Lemma byte_refines sz ins h i s : is_byte_instr ins = true -> bit_handler sz ins = Some h -> cpu_ok s ->
  osim (h i s) (bit_instr_spec sz ins i (abs s)).
Proof.
  intros B E. revert s. destruct sz, ins as [? []| |[] [] []| | |]; try discriminate B; try discriminate E;
    some_handler E; unfold_bit; intros [g b e m] Hs; cbn [bit_instr_spec read_at write_at bits];
    unfold write_virtual_word, write_virtual_dword, write_linear_qword; unfold_io;
    change (Z.to_nat (16 / 8)) with 2%nat; change (Z.to_nat (32 / 8)) with 4%nat;
    change (Z.to_nat (64 / 8)) with 8%nat;
    repeat progress (exec; rewrite ?write_eq16, ?write_eq32, ?write_eq64, ?access_next; exec_simpl);
    try (exec_access; repeat progress (exec; rewrite ?write_eq16, ?write_eq32, ?write_eq64; exec_simpl));
    swap_values; first [apply osim_access_last, Hs | bit_end].
Qed.

Lemma bit_instr_refines sz ins h i s : bit_handler sz ins = Some h -> cpu_ok s ->
  osim (h i s) (bit_instr_spec sz ins i (abs s)).
Proof.
  intros E Hs. destruct ins; try (apply byte_refines; auto; fail).
  - apply bit_test_refines; assumption.
  - apply scan_refines; assumption.
  - destruct sz; try discriminate E. injection E as <-. apply setcc_refines, Hs.
Qed.

End Refinement.
