(* ===== verification/BitMore.v ===== *)
(** * Bit strings in memory; the claims about the bit and byte instructions *)

From Stdlib Require Import ZArith Lia List Bool FunctionalExtensionality.
From S2P Require Import Prelude LazyFlags Cpu Alu ScalarArith ShiftSpec Bit Bit16 Bit32 Bit64 BitSpec BitRefine.
Import ListNotations.
Open Scope Z_scope.

(** ** The flat memory as a string of bits *)

(** Bit [k] counted from byte [a]; [k] may be negative. *)
Definition mem_bit (m : flat) (a k : Z) : bool := Z.testbit (flat_bytes m (a + k / 8)) (k mod 8).

Lemma flat_load_bit n b : forall a j, 0 <= j < 8 * Z.of_nat n ->
  Z.testbit (flat_load n b a) j = Z.testbit (b (a + j / 8)) (j mod 8).
Proof.
  induction n as [|n IH]; intros a j Hj; [lia|]. cbn [flat_load].
  replace (u8 (b a) + 256 * flat_load n b (a + 1)) with (2 ^ 8 * flat_load n b (a + 1) + u8 (b a)) by (change (2 ^ 8) with 256; lia).
  rewrite sum_fields_bit by (lia || (apply wrap_fits; lia)).
  destruct (Z.ltb_spec j 8).
  - rewrite wrap_bit, Z.div_small, Z.mod_small, Z.add_0_r by lia.
    destruct (Z.ltb_spec j 8); [reflexivity | lia].
  - rewrite IH by lia. replace j with (j - 8 + 1 * 8) at 3 4 by lia.
    rewrite Z.div_add, Z.mod_add by lia. do 2 f_equal. lia.
Qed.

Lemma flat_store_outside n b : forall a v x, x < a \/ a + Z.of_nat n <= x -> flat_store n a v b x = b x.
Proof.
  revert b. induction n as [|n IH]; intros b a v x Hx; cbn [flat_store]; [reflexivity|].
  rewrite IH by lia. apply upd_neq. lia.
Qed.

Lemma flat_store_bit n : forall b a v j, 0 <= j < 8 * Z.of_nat n ->
  Z.testbit (flat_store n a v b (a + j / 8)) (j mod 8) = Z.testbit v j.
Proof.
  induction n as [|n IH]; intros b a v j Hj; [lia|]. cbn [flat_store].
  destruct (Z.lt_ge_cases j 8).
  - rewrite flat_store_outside by (rewrite Z.div_small; lia).
    rewrite Z.div_small, Z.mod_small, Z.add_0_r, upd_eq, wrap_bit by lia.
    destruct (Z.ltb_spec j 8); [reflexivity | lia].
  - replace j with (j - 8 + 1 * 8) at 1 2 by lia. rewrite Z.div_add, Z.mod_add by lia.
    replace (a + ((j - 8) / 8 + 1)) with (a + 1 + (j - 8) / 8) by lia.
    rewrite IH by lia. change 256 with (2 ^ 8). rewrite Z.div_pow2_bits by lia. f_equal. lia.
Qed.

(** A bit of the element that holds bit [n * q] of the string. *)
Lemma mem_bit_element m a q n k : 0 < n -> (8 | n) -> 0 <= k < n ->
  mem_bit m a (n * q + k) = Z.testbit (flat_load (Z.to_nat (n / 8)) (flat_bytes m) (a + n / 8 * q)) k.
Proof.
  intros Hn [c ->] Hk. rewrite Z.div_mul by lia.
  rewrite flat_load_bit by lia. unfold mem_bit.
  replace (c * 8 * q + k) with (k + (c * q) * 8) by lia. rewrite Z.div_add, Z.mod_add by lia.
  do 2 f_equal. lia.
Qed.

Lemma mem_bit_store m a q n v p k : 0 < n -> (8 | n) ->
  mem_bit (Flat (flat_store (Z.to_nat (n / 8)) (a + n / 8 * q) v (flat_bytes m)) p) a k =
  if k / n =? q then Z.testbit v (k mod n) else mem_bit m a k.
Proof.
  intros Hn [c ->]. rewrite Z.div_mul by lia. unfold mem_bit. cbn [flat_bytes].
  pose proof (Z.div_mod k (c * 8) ltac:(lia)) as D. pose proof (Z.mod_pos_bound k (c * 8) ltac:(lia)).
  destruct (Z.eqb_spec (k / (c * 8)) q) as [E|N].
  - set (j := k mod (c * 8)) in *. replace k with (j + (c * q) * 8) by nia.
    rewrite Z.div_add, Z.mod_add by lia.
    replace (a + (j / 8 + c * q)) with (a + c * q + j / 8) by lia. apply flat_store_bit. lia.
  - rewrite flat_store_outside; [reflexivity|].
    pose proof (Z.div_mod k 8 ltac:(lia)). pose proof (Z.mod_pos_bound k 8 ltac:(lia)).
    set (Q := k / (c * 8)) in *. set (r := k mod (c * 8)) in *. set (t := k / 8) in *.
    assert (Q < q \/ q < Q) as [L|G] by lia; [left | right]; nia.
Qed.

(** ** Bit tests in memory *)

(** The bit offset: the source register at the operand size, as a signed number. *)
Definition bit_offset (sz : opsize) (i : bxInstruction_c) (g : Z -> Z) : Z :=
  signed (bits sz) (get_field 0 (bits sz) (g (src i))).

Definition op_bit (op : bit_op) (b : bool) : bool :=
  match op with BT => b | BTS => true | BTR => false | BTC => negb b end.

Lemma bit_update_testbit op x k j : 0 <= k -> 0 <= j ->
  Z.testbit (bit_update op x k) j = if j =? k then op_bit op (Z.testbit x k) else Z.testbit x j.
Proof.
  intros Hk Hj. destruct op; cbn [bit_update op_bit].
  - destruct (Z.eqb_spec j k) as [->|]; reflexivity.
  - rewrite Z.setbit_eqb, (Z.eqb_sym k) by lia. destruct (j =? k); reflexivity.
  - rewrite Z.clearbit_eqb, (Z.eqb_sym k) by lia. destruct (j =? k); [apply andb_false_r | apply andb_true_r].
  - rewrite Z.lxor_spec, Z.pow2_bits_eqb, (Z.eqb_sym k) by lia.
    destruct (Z.eqb_spec j k) as [->|]; [apply xorb_true_r | apply xorb_false_r].
Qed.

(** What the reference does on the flat memory, the element inside the address space. *)
Lemma bit_test_flat sz op i (s : bx_cpu flags flat) :
  sz <> S8 -> (forall r, fits 64 (gen_reg s r)) -> (sz = S64 -> seg i < BX_SEG_REG_FS) ->
  let n := bits sz in
  let o := bit_offset sz i (gen_reg s) in
  let addr := eff_addr i (gen_reg s) + n / 8 * (o / n) in
  fits (addr_bits sz i) addr ->
  let a := flat_load (Z.to_nat (n / 8)) (flat_bytes (vmem s)) addr in
  let v := bit_update op a (o mod n) in
  bit_test_spec sz op MemReg i s =
  Ok tt (Cpu (gen_reg s) (seg_base s) ((oszapc s) <| CF := Z.testbit a (o mod n) |>)
    (Flat (if bt_writes op then flat_store (Z.to_nat (n / 8)) addr (wrap n v) (flat_bytes (vmem s))
           else flat_bytes (vmem s)) addr)).
Proof.
  intros N Hg Hseg n o addr Ha a v.
  assert (E : o mod n = get_field 0 n (gen_reg s (src i)) mod n).
  { unfold o, n, bit_offset. destruct sz; [congruence| | |].
    - exact (signed_offset 16 4 _ ltac:(lia)).
    - exact (signed_offset 32 5 _ ltac:(lia)).
    - exact (signed_offset 64 6 _ ltac:(lia)). }
  assert (A : wrap (addr_bits sz i) addr = addr) by (apply wrap_id, Ha).
  unfold v. rewrite E. unfold bit_test_spec. rewrite bind_RESOLVE.
  assert (R : forall k : Z -> cpu flags flat unit, bind (read_reg sz i (src i)) k s = k (get_field 0 n (gen_reg s (src i))) s).
  { intros k. unfold n. destruct sz; [congruence | reflexivity | reflexivity |].
    cbn [read_reg bits]. rewrite bind_R64, get_field_64 by apply Hg. reflexivity. }
  rewrite R. clear R E. fold n. cbv zeta.
  change (signed n (get_field 0 n (gen_reg s (src i)))) with o. fold addr. rewrite A.
  set (k := get_field 0 n (gen_reg s (src i)) mod n). clearbody k.
  assert (L : forall B (c : Z -> cpu flags flat B),
    bind (read_at sz (bt_writes op) (seg i) addr) c s = c a (s <| vmem := Flat (flat_bytes (vmem s)) addr |>)).
  { intros B c. unfold a, n. clearbody addr. destruct sz; [congruence| | |]; destruct op; try reflexivity;
      cbn [read_at bt_writes]; rewrite bind_assoc, bind_laddr64;
      (replace (seg i <? BX_SEG_REG_FS) with true by (symmetry; apply Z.ltb_lt, Hseg; reflexivity));
      reflexivity. }
  rewrite L. clear L. clearbody a. destruct s as [g b f m], op; cbn [bt_writes]; try reflexivity;
    unfold n; destruct sz; try congruence; reflexivity.
Qed.

(** C31: BT, BTS, BTR and BTC with a register offset address memory as one string of
    bits around the operand: CF becomes bit [o] of the string, for a positive or a
    negative offset [o]; BTS sets, BTR clears and BTC complements that bit, and no
    other bit of the memory, no register and no other flag changes. *)
Theorem bit_string_access sz op h i (s : bx_cpu bx_lazyflags_entry flat) :
  bit_handler sz (BitTest op MemReg) = Some h -> cpu_ok s ->
  (sz = S64 -> seg i < BX_SEG_REG_FS) ->
  let base := eff_addr i (gen_reg s) in
  let o := bit_offset sz i (gen_reg s) in
  fits (addr_bits sz i) (base + bits sz / 8 * (o / bits sz)) ->
  exists s', h i s = Ok tt s' /\ gen_reg s' = gen_reg s /\
    lazy_flags (oszapc s') = (lazy_flags (oszapc s)) <| CF := mem_bit (vmem s) base o |> /\
    forall k, mem_bit (vmem s') base k =
      if k =? o then op_bit op (mem_bit (vmem s) base o) else mem_bit (vmem s) base k.
Proof.
  intros Hh Hs Hseg base o Ha.
  assert (N : sz <> S8) by (intros ->; destruct op; discriminate Hh).
  pose proof (bit_instr_refines sz _ h i s Hh Hs) as R. cbn [bit_instr_spec] in R.
  rewrite (bit_test_flat sz op i (abs s) N (proj1 Hs) Hseg Ha) in R. clear Hh Hseg.
  change (gen_reg (abs s)) with (gen_reg s) in R. change (vmem (abs s)) with (vmem s) in R.
  fold base o in R. set (n := bits sz) in *.
  assert (Hn : 0 < n /\ (8 | n)) by (unfold n; destruct sz; (split; [reflexivity | apply Z.mod_divide; [lia | reflexivity]])).
  destruct Hn as [Hn D]. pose proof (Z.mod_pos_bound o n Hn) as B.
  rewrite <- (mem_bit_element (vmem s) base (o / n) n (o mod n) Hn D B) in R.
  rewrite <- Z.div_mod in R by lia.
  destruct (h i s) as [[] s'|e' s']; destruct R as [R _]; [|discriminate R].
  apply Ok_inj in R. pose proof (f_equal gen_reg R) as Rg. pose proof (f_equal oszapc R) as Rf.
  pose proof (f_equal vmem R) as Rm. cbn [gen_reg oszapc vmem abs] in Rg, Rf, Rm. clear R. exists s'. split; [reflexivity|]. split; [congruence|]. split; [exact (eq_sym Rf)|].
  intros k. rewrite <- Rm. destruct (bt_writes op) eqn:W.
  - rewrite mem_bit_store by assumption.
    destruct (Z.eqb_spec (k / n) (o / n)) as [E|E].
    + rewrite wrap_bit by lia. pose proof (Z.mod_pos_bound k n Hn) as Bk.
      destruct (Z.ltb_spec (k mod n) n); [|lia]. rewrite bit_update_testbit by lia.
      rewrite <- !(mem_bit_element (vmem s) base (o / n) n) by assumption.
      replace (n * (o / n) + k mod n) with k by (rewrite <- E; apply Z.div_mod; lia).
      replace (n * (o / n) + o mod n) with o by (apply Z.div_mod; lia).
      destruct (Z.eqb_spec (k mod n) (o mod n)) as [E2|E2], (Z.eqb_spec k o) as [E3|E3]; try reflexivity.
      * exfalso. apply E3. rewrite (Z.div_mod k n), (Z.div_mod o n), E, E2 by lia. reflexivity.
      * exfalso. apply E2. rewrite E3. reflexivity.
    + destruct (Z.eqb_spec k o) as [->|]; [congruence | reflexivity].
  - destruct op; try discriminate W. destruct (Z.eqb_spec k o) as [->|]; reflexivity.
Qed.

(** C32: The handlers of bit.cc, bit16.cc, bit32.cc and bit64.cc compute what the
    architecture defines: SETcc stores the condition; the bit tests, in registers
    and in memory, move the addressed bit to CF and update it; the scans and counts
    give the lowest or highest set bit or the number of bits, with their flags;
    BSWAP and MOVBE reverse the bytes.  Memory faults are the same. *)
Theorem bit_handlers_refine {M : Type} `{VirtualMemoryOk M} sz ins h i (s : bx_cpu bx_lazyflags_entry M) :
  bit_handler sz ins = Some h -> cpu_ok s -> osim (h i s) (bit_instr_spec sz ins i (abs s)).
Proof. apply bit_instr_refines. Qed.

(** ** Concrete runs *)

(** BTS [DS:[0x10]], EBX with EBX = -3: bit 5 of the byte at 0x0F. *)
Definition bts_instr : bxInstruction_c := Instr 0 1 0 3 0 3 19 4 0 0 0x10.

Definition bts_state : bx_cpu bx_lazyflags_entry flat :=
  Cpu (fun r => if r =? 3 then 0xFFFFFFFD else 0) (fun _ => 0) (LazyFlags 1 0xC0000000) (Flat (fun _ => 0) 0).

Lemma bts_state_ok : cpu_ok bts_state.
Proof.
  split; [intros r; cbn; destruct (r =? 3)|]; unfold lf_ok, fits; cbn; lia.
Qed.

Lemma bit_string_access_witness :
  bit_offset S32 bts_instr (gen_reg bts_state) = -3 /\
  exists s', BTS_EdGdM bts_instr bts_state = Ok tt s' /\
    CF (lazy_flags (oszapc s')) = false /\ mem_bit (vmem s') 0x10 (-3) = true /\ mem_bit (vmem s') 0x10 5 = false.
Proof.
  split; [vm_compute; reflexivity|].
  destruct (bit_string_access S32 BTS _ bts_instr bts_state eq_refl bts_state_ok) as (s' & E & _ & F & B).
  - discriminate.
  - vm_compute. split; [discriminate | reflexivity].
  - exists s'. split; [exact E|]. rewrite F.
    change (eff_addr bts_instr (gen_reg bts_state)) with 0x10 in B.
    change (bit_offset S32 bts_instr (gen_reg bts_state)) with (-3) in B.
    rewrite !B. split; [|split]; vm_compute; reflexivity.
Defined.

Lemma bit_handlers_refine_witness :
  osim (BSR_GdEdR bts_instr bts_state) (bit_instr_spec S32 (Scan BSR) bts_instr (abs bts_state)) /\
  match BSR_GdEdR bts_instr bts_state with Ok _ s => gen_reg s 0 = 31 | Fault _ _ => False end.
Proof.
  split; [apply (bit_handlers_refine S32 (Scan BSR)); [reflexivity | exact bts_state_ok] | vm_compute; reflexivity].
Defined.
