(* ===== verification/Bmi.v ===== *)
(** * Bit manipulation instructions (cpu/bmi32.cc, cpu/bmi64.cc) *)

(** ** 32 bits *)

From Stdlib Require Import ZArith Lia List Bool.
From S2P Require Import Prelude LazyFlags Cpu WideInt ScalarArith.
Open Scope Z_scope.

Definition GET_ADD_OVERFLOW_32 (op1 op2 result : Z) : Z :=
  Z.land (Z.land (Z.lxor op1 result) (Z.lxor op2 result)) 0x80000000.

(** The loop of PEXT, for at most 32 bits of the mask. *)
Fixpoint pext_loop_32 (fuel : nat) (op1_32 op2_32 wr_mask result : Z) : Z :=
  match fuel with
  | O => result
  | S fuel =>
      if negb (op2_32 =? 0) then
        let '(result, wr_mask) :=
          if negb (Z.land op2_32 0x1 =? 0) then
            (if negb (Z.land op1_32 0x1 =? 0) then Z.lor result wr_mask else result,
             u32 (Z.shiftl wr_mask 1))
          else (result, wr_mask) in
        pext_loop_32 fuel (Z.shiftr op1_32 1) (Z.shiftr op2_32 1) wr_mask result
      else result
  end.

(** The loop of PDEP. *)
Fixpoint pdep_loop_32 (fuel : nat) (op1_32 op2_32 wr_mask result : Z) : Z :=
  match fuel with
  | O => result
  | S fuel =>
      if negb (op2_32 =? 0) then
        let '(result, op1_32) :=
          if negb (Z.land op2_32 0x1 =? 0) then
            (if negb (Z.land op1_32 0x1 =? 0) then Z.lor result wr_mask else result,
             Z.shiftr op1_32 1)
          else (result, op1_32) in
        pdep_loop_32 fuel op1_32 (Z.shiftr op2_32 1) (u32 (Z.shiftl wr_mask 1)) result
      else result
  end.

Section Handlers.
Context {M : Type} `{VirtualMemory M}.
Abbreviation cpu := (cpu bx_lazyflags_entry M).

Definition ANDN_GdBdEdR (i : bxInstruction_c) : cpu unit :=
  op1_32 <- BX_READ_32BIT_REG (src i) ;;
  op2_32 <- BX_READ_32BIT_REG (src2 i) ;;
  let op1_32 := Z.land (u32 (Z.lnot op1_32)) op2_32 in
  modify_lazy (SET_FLAGS_OSZAxC_LOGIC 32 op1_32) ;;;
  BX_WRITE_32BIT_REGZ (dst i) op1_32 ;;;
  BX_NEXT_INSTR.

Definition MULX_GdBdEdR (i : bxInstruction_c) : cpu unit :=
  op1_32 <- EDX ;;
  op2_32 <- BX_READ_32BIT_REG (src2 i) ;;
  let product_64 := op1_32 * op2_32 in
  BX_WRITE_32BIT_REGZ (src i) (u32 product_64) ;;;
  BX_WRITE_32BIT_REGZ (dst i) (u32 (Z.shiftr product_64 32)) ;;;
  BX_NEXT_INSTR.

Definition BLSI_BdEdR (i : bxInstruction_c) : cpu unit :=
  op1_32 <- BX_READ_32BIT_REG (src i) ;;
  let tmpCF := negb (op1_32 =? 0) in
  let op1_32 := Z.land (u32 (- op1_32)) op1_32 in
  modify_lazy (SET_FLAGS_OSZAxC_LOGIC 32 op1_32) ;;;
  modify_lazy (set_CF tmpCF) ;;;
  BX_WRITE_32BIT_REGZ (dst i) op1_32 ;;;
  BX_NEXT_INSTR.

Definition BLSMSK_BdEdR (i : bxInstruction_c) : cpu unit :=
  op1_32 <- BX_READ_32BIT_REG (src i) ;;
  let tmpCF := op1_32 =? 0 in
  let op1_32 := Z.lxor (u32 (op1_32 - 1)) op1_32 in
  modify_lazy (SET_FLAGS_OSZAxC_LOGIC 32 op1_32) ;;;
  modify_lazy (set_CF tmpCF) ;;;
  BX_WRITE_32BIT_REGZ (dst i) op1_32 ;;;
  BX_NEXT_INSTR.

Definition BLSR_BdEdR (i : bxInstruction_c) : cpu unit :=
  op1_32 <- BX_READ_32BIT_REG (src i) ;;
  let tmpCF := op1_32 =? 0 in
  let op1_32 := Z.land (u32 (op1_32 - 1)) op1_32 in
  modify_lazy (SET_FLAGS_OSZAxC_LOGIC 32 op1_32) ;;;
  modify_lazy (set_CF tmpCF) ;;;
  BX_WRITE_32BIT_REGZ (dst i) op1_32 ;;;
  BX_NEXT_INSTR.

Definition RORX_GdEdIbR (i : bxInstruction_c) : cpu unit :=
  op1_32 <- BX_READ_32BIT_REG (src i) ;;
  let count := Z.land (Ib i) 0x1f in
  let op1_32 := if negb (count =? 0) then Z.lor (Z.shiftr op1_32 count) (u32 (Z.shiftl op1_32 (32 - count))) else op1_32 in
  BX_WRITE_32BIT_REGZ (dst i) op1_32 ;;;
  BX_NEXT_INSTR.

Definition SHRX_GdEdBdR (i : bxInstruction_c) : cpu unit :=
  op1_32 <- BX_READ_32BIT_REG (src i) ;;
  v <- BX_READ_32BIT_REG (src2 i) ;;
  let count := Z.land v 0x1f in
  let op1_32 := if negb (count =? 0) then Z.shiftr op1_32 count else op1_32 in
  BX_WRITE_32BIT_REGZ (dst i) op1_32 ;;;
  BX_NEXT_INSTR.

Definition SARX_GdEdBdR (i : bxInstruction_c) : cpu unit :=
  op1_32 <- BX_READ_32BIT_REG (src i) ;;
  v <- BX_READ_32BIT_REG (src2 i) ;;
  let count := Z.land v 0x1f in
  let op1_32 := if negb (count =? 0) then u32 (Z.shiftr (signed 32 op1_32) count) else op1_32 in
  BX_WRITE_32BIT_REGZ (dst i) op1_32 ;;;
  BX_NEXT_INSTR.

Definition SHLX_GdEdBdR (i : bxInstruction_c) : cpu unit :=
  op1_32 <- BX_READ_32BIT_REG (src i) ;;
  v <- BX_READ_32BIT_REG (src2 i) ;;
  let count := Z.land v 0x1f in
  let op1_32 := if negb (count =? 0) then u32 (Z.shiftl op1_32 count) else op1_32 in
  BX_WRITE_32BIT_REGZ (dst i) op1_32 ;;;
  BX_NEXT_INSTR.

Definition BEXTR_GdEdBdR (i : bxInstruction_c) : cpu unit :=
  control <- BX_READ_16BIT_REG (src2 i) ;;
  let start := Z.land control 0xff in
  let len := Z.shiftr control 8 in
  v <- BX_READ_32BIT_REG (src i) ;;
  let op1_32 := bextrd v start len in
  put_lazy (SET_FLAGS_OSZAPC_LOGIC 32 op1_32) ;;;
  BX_WRITE_32BIT_REGZ (dst i) op1_32 ;;;
  BX_NEXT_INSTR.

Definition BZHI_GdEdBdR (i : bxInstruction_c) : cpu unit :=
  control <- BX_READ_8BIT_REGL (src2 i) ;;
  op1_32 <- BX_READ_32BIT_REG (src i) ;;
  let '(op1_32, tmpCF) :=
    if control <? 32 then
      let mask := u32 (Z.shiftl 1 control - 1) in
      (Z.land op1_32 mask, false)
    else (op1_32, true) in
  modify_lazy (SET_FLAGS_OSZAxC_LOGIC 32 op1_32) ;;;
  modify_lazy (set_CF tmpCF) ;;;
  BX_WRITE_32BIT_REGZ (dst i) op1_32 ;;;
  BX_NEXT_INSTR.

Definition PEXT_GdBdEdR (i : bxInstruction_c) : cpu unit :=
  op1_32 <- BX_READ_32BIT_REG (src i) ;;
  op2_32 <- BX_READ_32BIT_REG (src2 i) ;;
  let result_32 := pext_loop_32 32 op1_32 op2_32 0x1 0 in
  BX_WRITE_32BIT_REGZ (dst i) result_32 ;;;
  BX_NEXT_INSTR.

Definition PDEP_GdBdEdR (i : bxInstruction_c) : cpu unit :=
  op1_32 <- BX_READ_32BIT_REG (src i) ;;
  op2_32 <- BX_READ_32BIT_REG (src2 i) ;;
  let result_32 := pdep_loop_32 32 op1_32 op2_32 0x1 0 in
  BX_WRITE_32BIT_REGZ (dst i) result_32 ;;;
  BX_NEXT_INSTR.

Definition ADCX_GdEdR (i : bxInstruction_c) : cpu unit :=
  op1_32 <- BX_READ_32BIT_REG (dst i) ;;
  op2_32 <- BX_READ_32BIT_REG (src i) ;;
  c <- get_lazy getB_CF ;;
  let sum_32 := u32 (op1_32 + op2_32 + c) in
  BX_WRITE_32BIT_REGZ (dst i) sum_32 ;;;
  let carry_out := u32 (ADD_COUT_VEC op1_32 op2_32 sum_32) in
  modify_lazy (set_CF (to_bool (Z.shiftr carry_out 31))) ;;;
  BX_NEXT_INSTR.

Definition ADOX_GdEdR (i : bxInstruction_c) : cpu unit :=
  op1_32 <- BX_READ_32BIT_REG (dst i) ;;
  op2_32 <- BX_READ_32BIT_REG (src i) ;;
  c <- get_lazy getB_OF ;;
  let sum_32 := u32 (op1_32 + op2_32 + c) in
  BX_WRITE_32BIT_REGZ (dst i) sum_32 ;;;
  let overflow := GET_ADD_OVERFLOW_32 op1_32 op2_32 sum_32 in
  modify_lazy (set_OF (to_bool overflow)) ;;;
  BX_NEXT_INSTR.

End Handlers.

(** ** 64-bit bit manipulation instructions (cpu/bmi64.cc) *)

Definition GET_ADD_OVERFLOW_64 (op1 op2 result : Z) : Z :=
  Z.land (Z.land (Z.lxor op1 result) (Z.lxor op2 result)) 0x8000000000000000.

(** The loop of PEXT, for at most 64 bits of the mask. *)
Fixpoint pext_loop_64 (fuel : nat) (op1_64 op2_64 wr_mask result : Z) : Z :=
  match fuel with
  | O => result
  | S fuel =>
      if negb (op2_64 =? 0) then
        let '(result, wr_mask) :=
          if negb (Z.land op2_64 0x1 =? 0) then
            (if negb (Z.land op1_64 0x1 =? 0) then Z.lor result wr_mask else result,
             u64 (Z.shiftl wr_mask 1))
          else (result, wr_mask) in
        pext_loop_64 fuel (Z.shiftr op1_64 1) (Z.shiftr op2_64 1) wr_mask result
      else result
  end.

(** The loop of PDEP. *)
Fixpoint pdep_loop_64 (fuel : nat) (op1_64 op2_64 wr_mask result : Z) : Z :=
  match fuel with
  | O => result
  | S fuel =>
      if negb (op2_64 =? 0) then
        let '(result, op1_64) :=
          if negb (Z.land op2_64 0x1 =? 0) then
            (if negb (Z.land op1_64 0x1 =? 0) then Z.lor result wr_mask else result,
             Z.shiftr op1_64 1)
          else (result, op1_64) in
        pdep_loop_64 fuel op1_64 (Z.shiftr op2_64 1) (u64 (Z.shiftl wr_mask 1)) result
      else result
  end.

Section Handlers.
Context {M : Type} `{VirtualMemory M}.
Abbreviation cpu := (cpu bx_lazyflags_entry M).

Definition ANDN_GqBqEqR (i : bxInstruction_c) : cpu unit :=
  op1_64 <- BX_READ_64BIT_REG (src i) ;;
  op2_64 <- BX_READ_64BIT_REG (src2 i) ;;
  let op1_64 := Z.land (u64 (Z.lnot op1_64)) op2_64 in
  modify_lazy (SET_FLAGS_OSZAxC_LOGIC 64 op1_64) ;;;
  BX_WRITE_64BIT_REG (dst i) op1_64 ;;;
  BX_NEXT_INSTR.

Definition MULX_GqBqEqR (i : bxInstruction_c) : cpu unit :=
  op1_64 <- RDX ;;
  op2_64 <- BX_READ_64BIT_REG (src2 i) ;;
  let product_128 := long_mul op1_64 op2_64 in
  BX_WRITE_64BIT_REG (src i) (lo product_128) ;;;
  BX_WRITE_64BIT_REG (dst i) (hi product_128) ;;;
  BX_NEXT_INSTR.

Definition BLSI_BqEqR (i : bxInstruction_c) : cpu unit :=
  op1_64 <- BX_READ_64BIT_REG (src i) ;;
  let tmpCF := negb (op1_64 =? 0) in
  let op1_64 := Z.land (u64 (- op1_64)) op1_64 in
  modify_lazy (SET_FLAGS_OSZAxC_LOGIC 64 op1_64) ;;;
  modify_lazy (set_CF tmpCF) ;;;
  BX_WRITE_64BIT_REG (dst i) op1_64 ;;;
  BX_NEXT_INSTR.

Definition BLSMSK_BqEqR (i : bxInstruction_c) : cpu unit :=
  op1_64 <- BX_READ_64BIT_REG (src i) ;;
  let tmpCF := op1_64 =? 0 in
  let op1_64 := Z.lxor (u64 (op1_64 - 1)) op1_64 in
  modify_lazy (SET_FLAGS_OSZAxC_LOGIC 64 op1_64) ;;;
  modify_lazy (set_CF tmpCF) ;;;
  BX_WRITE_64BIT_REG (dst i) op1_64 ;;;
  BX_NEXT_INSTR.

Definition BLSR_BqEqR (i : bxInstruction_c) : cpu unit :=
  op1_64 <- BX_READ_64BIT_REG (src i) ;;
  let tmpCF := op1_64 =? 0 in
  let op1_64 := Z.land (u64 (op1_64 - 1)) op1_64 in
  modify_lazy (SET_FLAGS_OSZAxC_LOGIC 64 op1_64) ;;;
  modify_lazy (set_CF tmpCF) ;;;
  BX_WRITE_64BIT_REG (dst i) op1_64 ;;;
  BX_NEXT_INSTR.

Definition RORX_GqEqIbR (i : bxInstruction_c) : cpu unit :=
  op1_64 <- BX_READ_64BIT_REG (src i) ;;
  let count := Z.land (Ib i) 0x3f in
  let op1_64 := if negb (count =? 0) then Z.lor (Z.shiftr op1_64 count) (u64 (Z.shiftl op1_64 (64 - count))) else op1_64 in
  BX_WRITE_64BIT_REG (dst i) op1_64 ;;;
  BX_NEXT_INSTR.

Definition SHRX_GqEqBqR (i : bxInstruction_c) : cpu unit :=
  op1_64 <- BX_READ_64BIT_REG (src i) ;;
  v <- BX_READ_32BIT_REG (src2 i) ;;
  let count := Z.land v 0x3f in
  let op1_64 := if negb (count =? 0) then Z.shiftr op1_64 count else op1_64 in
  BX_WRITE_64BIT_REG (dst i) op1_64 ;;;
  BX_NEXT_INSTR.

Definition SARX_GqEqBqR (i : bxInstruction_c) : cpu unit :=
  op1_64 <- BX_READ_64BIT_REG (src i) ;;
  v <- BX_READ_32BIT_REG (src2 i) ;;
  let count := Z.land v 0x3f in
  let op1_64 := if negb (count =? 0) then u64 (Z.shiftr (signed 64 op1_64) count) else op1_64 in
  BX_WRITE_64BIT_REG (dst i) op1_64 ;;;
  BX_NEXT_INSTR.

Definition SHLX_GqEqBqR (i : bxInstruction_c) : cpu unit :=
  op1_64 <- BX_READ_64BIT_REG (src i) ;;
  v <- BX_READ_32BIT_REG (src2 i) ;;
  let count := Z.land v 0x3f in
  let op1_64 := if negb (count =? 0) then u64 (Z.shiftl op1_64 count) else op1_64 in
  BX_WRITE_64BIT_REG (dst i) op1_64 ;;;
  BX_NEXT_INSTR.

Definition BEXTR_GqEqBqR (i : bxInstruction_c) : cpu unit :=
  control <- BX_READ_16BIT_REG (src2 i) ;;
  let start := Z.land control 0xff in
  let len := Z.shiftr control 8 in
  v <- BX_READ_64BIT_REG (src i) ;;
  let op1_64 := bextrq v start len in
  put_lazy (SET_FLAGS_OSZAPC_LOGIC 64 op1_64) ;;;
  BX_WRITE_64BIT_REG (dst i) op1_64 ;;;
  BX_NEXT_INSTR.

Definition BZHI_GqEqBqR (i : bxInstruction_c) : cpu unit :=
  control <- BX_READ_8BIT_REGL (src2 i) ;;
  op1_64 <- BX_READ_64BIT_REG (src i) ;;
  let '(op1_64, tmpCF) :=
    if control <? 64 then
      let mask := u64 (Z.shiftl 1 control - 1) in
      (Z.land op1_64 mask, false)
    else (op1_64, true) in
  modify_lazy (SET_FLAGS_OSZAxC_LOGIC 64 op1_64) ;;;
  modify_lazy (set_CF tmpCF) ;;;
  BX_WRITE_64BIT_REG (dst i) op1_64 ;;;
  BX_NEXT_INSTR.

Definition PEXT_GqBqEqR (i : bxInstruction_c) : cpu unit :=
  op1_64 <- BX_READ_64BIT_REG (src i) ;;
  op2_64 <- BX_READ_64BIT_REG (src2 i) ;;
  let result_64 := pext_loop_64 64 op1_64 op2_64 0x1 0 in
  BX_WRITE_64BIT_REG (dst i) result_64 ;;;
  BX_NEXT_INSTR.

Definition PDEP_GqBqEqR (i : bxInstruction_c) : cpu unit :=
  op1_64 <- BX_READ_64BIT_REG (src i) ;;
  op2_64 <- BX_READ_64BIT_REG (src2 i) ;;
  let result_64 := pdep_loop_64 64 op1_64 op2_64 0x1 0 in
  BX_WRITE_64BIT_REG (dst i) result_64 ;;;
  BX_NEXT_INSTR.

Definition ADCX_GqEqR (i : bxInstruction_c) : cpu unit :=
  op1_64 <- BX_READ_64BIT_REG (dst i) ;;
  op2_64 <- BX_READ_64BIT_REG (src i) ;;
  c <- get_lazy getB_CF ;;
  let sum_64 := u64 (op1_64 + op2_64 + c) in
  BX_WRITE_64BIT_REG (dst i) sum_64 ;;;
  let carry_out := u64 (ADD_COUT_VEC op1_64 op2_64 sum_64) in
  modify_lazy (set_CF (to_bool (Z.shiftr carry_out 63))) ;;;
  BX_NEXT_INSTR.

Definition ADOX_GqEqR (i : bxInstruction_c) : cpu unit :=
  op1_64 <- BX_READ_64BIT_REG (dst i) ;;
  op2_64 <- BX_READ_64BIT_REG (src i) ;;
  c <- get_lazy getB_OF ;;
  let sum_64 := u64 (op1_64 + op2_64 + c) in
  BX_WRITE_64BIT_REG (dst i) sum_64 ;;;
  let overflow := GET_ADD_OVERFLOW_64 op1_64 op2_64 sum_64 in
  modify_lazy (set_OF (to_bool overflow)) ;;;
  BX_NEXT_INSTR.

End Handlers.
