(* ===== verification/BmiSpec.v ===== *)
(** * Reference semantics of the bit manipulation instructions

    Exact descriptions of the results: the lowest set bit, the bits below it,
    bit fields as quotients and remainders, and the gather and scatter of bits
    under a mask by recursion on the mask. *)

From Stdlib Require Import ZArith Lia List Bool.
From S2P Require Import Prelude LazyFlags Cpu Alu ScalarArith ShiftSpec BitSpec.
Import ListNotations.
Open Scope Z_scope.

Inductive bmi_instr :=
| ANDN | MULX | BLSI | BLSMSK | BLSR | RORX | SHRX | SARX | SHLX | BEXTR | BZHI | PEXT | PDEP | ADCX.

(** Gather: the bits of [v] at the set positions of [m], packed at the low end. *)
Fixpoint pext (n : nat) (v m : Z) : Z :=
  match n with
  | O => 0
  | S n => if Z.odd m then Z.b2z (Z.odd v) + 2 * pext n (v / 2) (m / 2) else pext n (v / 2) (m / 2)
  end.

(** Scatter: the low bits of [v] at the set positions of [m], zeros elsewhere. *)
Fixpoint pdep (n : nat) (v m : Z) : Z :=
  match n with
  | O => 0
  | S n => if Z.odd m then Z.b2z (Z.odd v) + 2 * pdep n (v / 2) (m / 2) else 2 * pdep n v (m / 2)
  end.

Definition lowest_bit (n v : Z) : Z := if v =? 0 then 0 else 2 ^ lowest n v.

(** Flags of a logic result that leaves PF and sets CF to [cf]. *)
Definition keep_PF (n r : Z) (cf : bool) (f : flags) : flags :=
  (result_flags n r false false cf) <| PF := PF f |>.

Definition field (start len v : Z) : Z := v / 2 ^ start mod 2 ^ len.

Section Reference.
Context {M : Type} `{VirtualMemory M}.
Abbreviation cpu := (cpu flags M).

Definition dx (sz : opsize) : cpu Z := match sz with S64 => RDX | _ => EDX end.

Definition bmi_spec (sz : opsize) (ins : bmi_instr) (i : bxInstruction_c) : cpu unit :=
  let n := bits sz in
  let result r f := write_reg sz i (dst i) r ;;; modify_flags f in
  let plain r := write_reg sz i (dst i) r ;;; ret tt in
  match ins with
  | ANDN =>
      a <- read_reg sz i (src i) ;; b <- read_reg sz i (src2 i) ;;
      result (Z.ldiff b a) (keep_PF n (Z.ldiff b a) false)
  | MULX =>
      a <- dx sz ;; b <- read_reg sz i (src2 i) ;;
      write_reg sz i (src i) (a * b mod 2 ^ n) ;;;
      write_reg sz i (dst i) (a * b / 2 ^ n) ;;; ret tt
  | BLSI =>
      v <- read_reg sz i (src i) ;;
      result (lowest_bit n v) (keep_PF n (lowest_bit n v) (negb (v =? 0)))
  | BLSMSK =>
      v <- read_reg sz i (src i) ;;
      let r := if v =? 0 then 2 ^ n - 1 else 2 * lowest_bit n v - 1 in
      result r (keep_PF n r (v =? 0))
  | BLSR =>
      v <- read_reg sz i (src i) ;;
      result (v - lowest_bit n v) (keep_PF n (v - lowest_bit n v) (v =? 0))
  | RORX =>
      v <- read_reg sz i (src i) ;; plain (ror n v (Ib i mod n))
  | SHRX =>
      v <- read_reg sz i (src i) ;; c <- BX_READ_32BIT_REG (src2 i) ;; plain (v / 2 ^ (c mod n))
  | SARX =>
      v <- read_reg sz i (src i) ;; c <- BX_READ_32BIT_REG (src2 i) ;; plain (signed n v / 2 ^ (c mod n))
  | SHLX =>
      v <- read_reg sz i (src i) ;; c <- BX_READ_32BIT_REG (src2 i) ;; plain (v * 2 ^ (c mod n))
  | BEXTR =>
      c <- BX_READ_16BIT_REG (src2 i) ;; v <- read_reg sz i (src i) ;;
      let r := field (c mod 256) (c / 256) v in
      result r (fun _ => result_flags n r false false false)
  | BZHI =>
      c <- BX_READ_8BIT_REGL (src2 i) ;; v <- read_reg sz i (src i) ;;
      result (v mod 2 ^ c) (keep_PF n (v mod 2 ^ c) (n <=? c))
  | PEXT =>
      v <- read_reg sz i (src i) ;; m <- read_reg sz i (src2 i) ;; plain (pext (Z.to_nat n) v m)
  | PDEP =>
      v <- read_reg sz i (src i) ;; m <- read_reg sz i (src2 i) ;; plain (pdep (Z.to_nat n) v m)
  | ADCX =>
      a <- read_reg sz i (dst i) ;; b <- read_reg sz i (src i) ;; f <- get_flags ;;
      let sum := a + b + Z.b2z (CF f) in
      result sum (fun f => f <| CF := 2 ^ n <=? sum |>)
  end.

End Reference.

(** ** The lowest set bit *)

Lemma lowest_spec n v : 0 <= n -> fits n v -> trailing_zeros n v (lowest n v).
Proof.
  intros Hn Hv.
  pose proof (scan_up n (Z.to_nat n + 1) 0 v ltac:(lia) Hv ltac:(lia) ltac:(lia)) as T.
  rewrite (lowest_scan n v _ Hn T). exact T.
Qed.

(** A nonzero value is an odd number shifted by the position of its lowest bit. *)
Lemma lowest_split n v : 0 <= n -> fits n v -> v <> 0 ->
  let c := lowest n v in 0 <= c < n /\ exists q, 0 <= q /\ v = 2 ^ c * (2 * q + 1).
Proof.
  intros Hn Hv N c. pose proof (lowest_spec n v Hn Hv) as T. unfold trailing_zeros in T.
  fold c in T. destruct (Z.eqb_spec v 0) as [|_]; [congruence|]. destruct T as (Hc & Hb & Hl).
  split; [exact Hc|]. exists (v / 2 ^ (c + 1)). split; [apply Z.div_pos; [apply Hv | apply Z.pow_pos_nonneg; lia]|].
  rewrite (Z.div_mod v (2 ^ (c + 1))) at 1 by (apply Z.pow_nonzero; lia).
  rewrite mod_split, Hb by lia. replace (v mod 2 ^ c) with 0.
  - rewrite Z.pow_add_r by lia. cbn [Z.b2z]. change (2 ^ 1) with 2. ring.
  - symmetry. apply Z.bits_inj'. intros j Hj. rewrite Z.testbit_0_l.
    destruct (Z.lt_ge_cases j c); [rewrite Z.mod_pow2_bits_low by lia; apply Hl; lia | apply Z.mod_pow2_bits_high; lia].
Qed.

Lemma lxor_concat w a b c d : 0 <= w -> fits w b -> fits w d ->
  Z.lxor (2 ^ w * a + b) (2 ^ w * c + d) = 2 ^ w * Z.lxor a c + Z.lxor b d.
Proof.
  intros Hw Hb Hd. apply Z.bits_inj'. intros i Hi.
  rewrite Z.lxor_spec, !sum_fields_bit by (assumption || apply fits_lxor; assumption).
  destruct (i <? w); rewrite Z.lxor_spec; reflexivity.
Qed.

Lemma odd_even_land q : Z.land (2 * q) (2 * q + 1) = 2 * q.
Proof.
  apply Z.bits_inj'. intros i Hi. rewrite Z.land_spec. destruct (Z.eq_dec i 0) as [->|].
  - rewrite Z.testbit_even_0. reflexivity.
  - replace i with (Z.succ (i - 1)) by lia. rewrite Z.testbit_even_succ, Z.testbit_odd_succ by lia. apply andb_diag.
Qed.

Lemma odd_even_lxor q : Z.lxor (2 * q) (2 * q + 1) = 1.
Proof.
  apply Z.bits_inj'. intros i Hi. rewrite Z.lxor_spec. destruct (Z.eq_dec i 0) as [->|].
  - rewrite Z.testbit_even_0, Z.testbit_odd_0. reflexivity.
  - replace i with (Z.succ (i - 1)) by lia. rewrite Z.testbit_even_succ, Z.testbit_odd_succ by lia.
    rewrite xorb_nilpotent. symmetry. apply Z.bits_above_log2; cbn; lia.
Qed.

Section Lowest.
Variables n v : Z.
Hypothesis Hn : 0 < n.
Hypothesis Hv : fits n v.

Lemma lowest_pred : v <> 0 ->
  Z.land (v - 1) v = v - lowest_bit n v /\ Z.lxor (v - 1) v = 2 * lowest_bit n v - 1 /\
  0 <= lowest_bit n v <= v.
Proof.
  intros N. unfold lowest_bit. destruct (Z.eqb_spec v 0) as [|_]; [congruence|].
  destruct (lowest_split n v ltac:(lia) Hv N) as (Hc & q & Hq & E). set (c := lowest n v) in *.
  pose proof (Z.pow_pos_nonneg 2 c ltac:(lia) ltac:(lia)) as P.
  replace (v - 1) with (2 ^ c * (2 * q) + (2 ^ c - 1)) by lia.
  replace v with (2 ^ c * (2 * q + 1) + 0) by lia.
  rewrite land_concat, lxor_concat by (unfold fits; lia).
  rewrite odd_even_land, odd_even_lxor, Z.land_0_r, Z.lxor_0_r. nia.
Qed.

Lemma pred_wrap : v <> 0 -> wrap n (v - 1) = v - 1.
Proof. intros N. apply wrap_id. unfold fits in *. lia. Qed.

Lemma blsr_code : Z.land (wrap n (v - 1)) v = v - lowest_bit n v.
Proof.
  destruct (Z.eq_dec v 0) as [E|N].
  - unfold lowest_bit. rewrite E, Z.land_0_r. reflexivity.
  - rewrite pred_wrap by exact N. apply lowest_pred, N.
Qed.

Lemma blsmsk_code : Z.lxor (wrap n (v - 1)) v = (if v =? 0 then 2 ^ n - 1 else 2 * lowest_bit n v - 1).
Proof.
  destruct (Z.eqb_spec v 0) as [E|N].
  - rewrite E, Z.lxor_0_r. change (0 - 1) with (-1). unfold wrap.
    replace (-1) with (2 ^ n - 1 + (-1) * 2 ^ n) by lia. pose proof (Z.pow_pos_nonneg 2 n ltac:(lia) ltac:(lia)).
    rewrite Z.mod_add by lia. apply Z.mod_small. lia.
  - rewrite pred_wrap by exact N. apply lowest_pred, N.
Qed.

Lemma blsi_code : Z.land (wrap n (- v)) v = lowest_bit n v.
Proof.
  destruct (Z.eq_dec v 0) as [E|N].
  - unfold lowest_bit. rewrite E, Z.land_0_r. reflexivity.
  - assert (E : Z.land (wrap n (- v)) v = Z.ldiff v (v - 1)).
    { replace (- v) with (Z.lnot (v - 1)) by (unfold Z.lnot; lia).
      apply Z.bits_inj'. intros i Hi. rewrite Z.land_spec, Z.ldiff_spec, wrap_bit, Z.lnot_spec by lia.
      destruct (Z.ltb_spec i n); [apply andb_comm|]. rewrite (fits_testbit n v) by (assumption || lia). reflexivity. }
    rewrite E. destruct (lowest_pred N) as [L _].
    assert (D : Z.ldiff v (v - 1) + Z.land (v - 1) v = v).
    { rewrite Z.add_nocarry_lxor.
      - apply Z.bits_inj'. intros i Hi. rewrite Z.lxor_spec, Z.ldiff_spec, Z.land_spec.
        destruct (Z.testbit v i), (Z.testbit (v - 1) i); reflexivity.
      - apply Z.bits_inj'. intros i Hi. rewrite !Z.land_spec, Z.ldiff_spec, Z.testbit_0_l.
        destruct (Z.testbit v i), (Z.testbit (v - 1) i); reflexivity. }
    lia.
Qed.

End Lowest.

(** ** Gather and scatter *)

Lemma odd_land b : negb (Z.land b 1 =? 0) = Z.odd b.
Proof. rewrite land_1_b2z, Z.bit0_odd. destruct (Z.odd b); reflexivity. Qed.

Lemma shiftr_1 b : Z.shiftr b 1 = b / 2.
Proof. apply Z.shiftr_div_pow2. lia. Qed.

Lemma pext_bound n : forall v m, fits (Z.of_nat n) (pext n v m).
Proof.
  induction n as [|n IH]; intros v m; cbn [pext]; [unfold fits; cbn; lia|].
  specialize (IH (v / 2) (m / 2)). unfold fits in *.
  replace (Z.of_nat (S n)) with (Z.of_nat n + 1) by lia. rewrite Z.pow_add_r by lia. change (2 ^ 1) with 2.
  destruct (Z.odd m), (Z.odd v); cbn [Z.b2z]; lia.
Qed.

Lemma pdep_bound n : forall v m, fits (Z.of_nat n) (pdep n v m).
Proof.
  induction n as [|n IH]; intros v m; cbn [pdep]; [unfold fits; cbn; lia|].
  pose proof (IH (v / 2) (m / 2)). pose proof (IH v (m / 2)). unfold fits in *.
  replace (Z.of_nat (S n)) with (Z.of_nat n + 1) by lia. rewrite Z.pow_add_r by lia. change (2 ^ 1) with 2.
  destruct (Z.odd m), (Z.odd v); cbn [Z.b2z]; lia.
Qed.

Lemma pext_zero n v : pext n v 0 = 0.
Proof. revert v. induction n as [|n IH]; intros v; cbn [pext Z.odd]; [|rewrite IH]; reflexivity. Qed.

Lemma pdep_zero n v : pdep n v 0 = 0.
Proof. revert v. induction n as [|n IH]; intros v; cbn [pdep Z.odd]; [|rewrite IH]; reflexivity. Qed.

(** Setting bit [j] of a value below [2 ^ j] adds [2 ^ j]. *)
Lemma lor_top j r : 0 <= j -> fits j r -> Z.lor r (2 ^ j) = r + 2 ^ j.
Proof.
  intros Hj Hr. rewrite Z.lor_comm. replace (2 ^ j) with (Z.shiftl 1 j) by (rewrite Z.shiftl_1_l; reflexivity).
  rewrite lor_shiftl_add by assumption. rewrite Z.shiftl_1_l. lia.
Qed.

Lemma step_fits j r (b : bool) : 0 <= j -> fits j r -> fits (j + 1) (r + 2 ^ j * Z.b2z b).
Proof. intros Hj Hr. unfold fits in *. rewrite Z.pow_add_r by lia. destruct b; cbn [Z.b2z]; lia. Qed.

Section Loops.
Variable w : Z.
Variable loop : nat -> Z -> Z -> Z -> Z -> Z.
Hypothesis loop_O : forall a b wr r, loop O a b wr r = r.

Let if_bit (a r wr : Z) : Z := if negb (Z.land a 1 =? 0) then Z.lor r wr else r.

Lemma if_bit_add a r j : 0 <= j -> fits j r -> if_bit a r (2 ^ j) = r + 2 ^ j * Z.b2z (Z.odd a).
Proof.
  intros Hj Hr. unfold if_bit. rewrite odd_land. destruct (Z.odd a); cbn [Z.b2z]; [rewrite lor_top by assumption|]; lia.
Qed.

Lemma next_bit j : 0 <= j -> j + 1 < w -> wrap w (Z.shiftl (2 ^ j) 1) = 2 ^ (j + 1).
Proof.
  intros Hj Hl. rewrite Z.shiftl_mul_pow2, <- Z.pow_add_r by lia. apply wrap_id, fits_pow2. lia.
Qed.

Lemma pext_search :
  (forall fuel a b wr r, loop (S fuel) a b wr r =
     if negb (b =? 0) then
       let '(r, wr) := if negb (Z.land b 1 =? 0) then (if_bit a r wr, wrap w (Z.shiftl wr 1)) else (r, wr) in
       loop fuel (Z.shiftr a 1) (Z.shiftr b 1) wr r
     else r) ->
  forall fuel a b j r, 0 <= j -> j + Z.of_nat fuel <= w -> fits j r ->
  loop fuel a b (2 ^ j) r = r + 2 ^ j * pext fuel a b.
Proof.
  intros Heq. induction fuel as [|fuel IH]; intros a b j r Hj Hf Hr; cbn [pext]; [rewrite loop_O; lia|].
  rewrite Heq. destruct (Z.eqb_spec b 0) as [->|]; cbn [negb Z.odd]; [rewrite pext_zero; lia|].
  rewrite odd_land, !shiftr_1. destruct (Z.odd b); [|apply IH; lia || assumption].
  rewrite if_bit_add by assumption. pose proof (step_fits j r (Z.odd a) Hj Hr).
  destruct fuel as [|fuel']; [rewrite loop_O; cbn [pext]; lia|].
  rewrite next_bit, IH by (lia || assumption). rewrite Z.pow_add_r by lia. change (2 ^ 1) with 2. ring.
Qed.

Lemma pdep_search :
  (forall fuel a b wr r, loop (S fuel) a b wr r =
     if negb (b =? 0) then
       let '(r, a) := if negb (Z.land b 1 =? 0) then (if_bit a r wr, Z.shiftr a 1) else (r, a) in
       loop fuel a (Z.shiftr b 1) (wrap w (Z.shiftl wr 1)) r
     else r) ->
  forall fuel a b j r, 0 <= j -> j + Z.of_nat fuel <= w -> fits j r ->
  loop fuel a b (2 ^ j) r = r + 2 ^ j * pdep fuel a b.
Proof.
  intros Heq. induction fuel as [|fuel IH]; intros a b j r Hj Hf Hr; cbn [pdep]; [rewrite loop_O; lia|].
  rewrite Heq. destruct (Z.eqb_spec b 0) as [->|]; cbn [negb Z.odd]; [rewrite pdep_zero; lia|].
  rewrite odd_land, !shiftr_1. pose proof (step_fits j r (Z.odd a) Hj Hr).
  destruct fuel as [|fuel'].
  { destruct (Z.odd b); rewrite loop_O; cbn [pdep]; rewrite ?if_bit_add by assumption; lia. }
  rewrite next_bit by lia. destruct (Z.odd b).
  - rewrite if_bit_add, IH by (lia || assumption). rewrite Z.pow_add_r by lia. change (2 ^ 1) with 2. ring.
  - rewrite IH by (lia || (apply (fits_le j); [lia | assumption])).
    rewrite Z.pow_add_r by lia. change (2 ^ 1) with 2. ring.
Qed.

(** A mask below [2 ^ fuel] is used up after [fuel] rounds: more fuel changes nothing. *)
Lemma mask_step fuel b : fits (Z.of_nat (S fuel)) b -> fits (Z.of_nat fuel) (Z.shiftr b 1).
Proof.
  unfold fits. rewrite shiftr_1. replace (Z.of_nat (S fuel)) with (Z.of_nat fuel + 1) by lia.
  rewrite Z.pow_add_r by lia. change (2 ^ 1) with 2. intros Hb.
  split; [apply Z.div_pos; lia | apply Z.div_lt_upper_bound; lia].
Qed.

Lemma loop_fuel (f g : Z -> Z -> Z -> Z -> Z) (h : Z -> Z -> Z -> Z -> Z) :
  (forall fuel a b wr r, loop (S fuel) a b wr r =
     if negb (b =? 0) then loop fuel (f a b wr r) (Z.shiftr b 1) (g a b wr r) (h a b wr r) else r) ->
  forall fuel k a b wr r, fits (Z.of_nat fuel) b -> loop (fuel + k) a b wr r = loop fuel a b wr r.
Proof.
  intros Heq. induction fuel as [|fuel IH]; intros k a b wr r Hb.
  - rewrite loop_O. destruct k; [apply loop_O|]. cbn [Nat.add]. rewrite Heq.
    unfold fits in Hb. cbn in Hb. replace b with 0 by lia. reflexivity.
  - cbn [Nat.add]. rewrite !Heq. destruct (negb (b =? 0)); [|reflexivity]. apply IH, mask_step, Hb.
Qed.

End Loops.

(** ** Scatter undoes gather *)

Lemma half_ones n v : ones (S n) v = Z.b2z (Z.odd v) + ones n (v / 2).
Proof.
  induction n as [|n IH]; [cbn [ones]; rewrite Z.bit0_odd; reflexivity|].
  change (ones (S (S n)) v) with (Z.b2z (Z.testbit v (Z.of_nat (S n))) + ones (S n) v). rewrite IH.
  change (ones (S n) (v / 2)) with (Z.b2z (Z.testbit (v / 2) (Z.of_nat n)) + ones n (v / 2)).
  rewrite Z.div2_bits by lia. rewrite Nat2Z.inj_succ. lia.
Qed.

Lemma odd_cons (b : bool) x : Z.odd (Z.b2z b + 2 * x) = b /\ (Z.b2z b + 2 * x) / 2 = x.
Proof.
  split.
  - rewrite Z.odd_add_mul_2. destruct b; reflexivity.
  - rewrite Z.mul_comm, Z.div_add by lia. destruct b; cbn [Z.b2z]; [change (1 / 2) with 0 | change (0 / 2) with 0]; lia.
Qed.

Lemma land_cons x y : Z.land x y = Z.b2z (Z.odd x && Z.odd y) + 2 * Z.land (x / 2) (y / 2).
Proof.
  rewrite (Z.div_mod (Z.land x y) 2) at 1 by lia. rewrite <- (Z.bit0_mod), Z.land_spec, !Z.bit0_odd.
  rewrite <- shiftr_1, Z.shiftr_land, !shiftr_1. lia.
Qed.

Lemma pdep_pext n : forall v m, fits (Z.of_nat n) m -> pdep n (pext n v m) m = Z.land v m.
Proof.
  induction n as [|n IH]; intros v m Hm; cbn [pext pdep].
  - unfold fits in Hm. cbn in Hm. replace m with 0 by lia. rewrite Z.land_0_r. reflexivity.
  - assert (Hm2 : fits (Z.of_nat n) (m / 2)).
    { unfold fits in *. replace (Z.of_nat (S n)) with (Z.of_nat n + 1) in Hm by lia.
      rewrite Z.pow_add_r in Hm by lia. change (2 ^ 1) with 2 in Hm.
      split; [apply Z.div_pos; lia | apply Z.div_lt_upper_bound; lia]. }
    rewrite (land_cons v m). destruct (Z.odd m); rewrite ?andb_true_r, ?andb_false_r.
    + destruct (odd_cons (Z.odd v) (pext n (v / 2) (m / 2))) as [-> ->]. rewrite IH by exact Hm2. reflexivity.
    + rewrite IH by exact Hm2. cbn [Z.b2z]. lia.
Qed.

Lemma pext_pdep n : forall v m, pext n (pdep n v m) m = v mod 2 ^ ones n m.
Proof.
  induction n as [|n IH]; intros v m.
  - cbn [pext ones]. rewrite Z.mod_1_r. reflexivity.
  - rewrite half_ones. cbn [pext pdep]. pose proof (ones_bound n (m / 2)). destruct (Z.odd m); cbn [Z.b2z].
    + destruct (odd_cons (Z.odd v) (pdep n (v / 2) (m / 2))) as [-> ->]. rewrite IH.
      rewrite Z.pow_add_r by lia. change (2 ^ 1) with 2.
      rewrite Z.rem_mul_r by (try apply Z.pow_nonzero; lia). rewrite <- Z.bit0_mod, Z.bit0_odd. reflexivity.
    + replace (2 * pdep n v (m / 2) / 2) with (pdep n v (m / 2)) by (rewrite Z.mul_comm, Z.div_mul; lia).
      rewrite IH, Z.add_0_l. reflexivity.
Qed.
