(* ===== verification/BmiRefine.v ===== *)
(** * The bit manipulation handlers implement their reference semantics

    ADOX is apart: its handler keeps a signed overflow in OF, so the second carry
    chain of ADCX/ADOX code is not a carry chain. *)

From Stdlib Require Import ZArith Lia List Bool.
From S2P Require Import Prelude LazyFlags Cpu Alu ShiftSpec WideInt ScalarArith BitSpec BitRefine Bmi.
From S2P Require Import BmiSpec.
Import ListNotations.
Open Scope Z_scope.

Section Values.
Variable n : Z.
Hypothesis Hn : 8 <= n.

Lemma andn_code a b : fits n b -> Z.land (wrap n (Z.lnot a)) b = Z.ldiff b a.
Proof.
  intros Hb. apply Z.bits_inj'. intros i Hi. rewrite Z.land_spec, Z.ldiff_spec, wrap_bit, Z.lnot_spec by lia.
  destruct (Z.ltb_spec i n); [apply andb_comm|]. rewrite (fits_testbit n b) by (assumption || lia).
  reflexivity.
Qed.

Lemma rorx_code v c : 0 <= c < n -> fits n v ->
  (if negb (c =? 0) then Z.lor (Z.shiftr v c) (wrap n (Z.shiftl v (n - c))) else v) = ror n v c.
Proof.
  intros Hc Hv. destruct (Z.eqb_spec c 0) as [->|]; cbn [negb]; [symmetry; apply ror_0, Hv|].
  rewrite <- ror_code by (assumption || lia). apply Z.bits_inj'. intros i Hi.
  rewrite wrap_bit, !Z.lor_spec, wrap_bit by lia. destruct (Z.ltb_spec i n); [reflexivity|].
  rewrite Z.shiftr_spec, (fits_testbit n v) by (assumption || lia). reflexivity.
Qed.

Lemma shr_code v c : 0 <= c -> (if negb (c =? 0) then Z.shiftr v c else v) = v / 2 ^ c.
Proof.
  intros Hc. destruct (Z.eqb_spec c 0) as [->|]; cbn [negb]; [symmetry; apply Z.div_1_r | apply Z.shiftr_div_pow2, Hc].
Qed.

Lemma sar_code v c : 0 <= c -> fits n v ->
  (if negb (c =? 0) then wrap n (Z.shiftr (signed n v) c) else v) = wrap n (signed n v / 2 ^ c).
Proof.
  intros Hc Hv. destruct (Z.eqb_spec c 0) as [->|]; cbn [negb].
  - rewrite Z.div_1_r, wrap_signed, wrap_id by (assumption || lia). reflexivity.
  - rewrite Z.shiftr_div_pow2 by exact Hc. reflexivity.
Qed.

Lemma shl_code v c : 0 <= c -> fits n v ->
  (if negb (c =? 0) then wrap n (Z.shiftl v c) else v) = wrap n (v * 2 ^ c).
Proof.
  intros Hc Hv. destruct (Z.eqb_spec c 0) as [->|]; cbn [negb].
  - rewrite Z.mul_1_r, wrap_id by assumption. reflexivity.
  - rewrite Z.shiftl_mul_pow2 by exact Hc. reflexivity.
Qed.

Lemma mask_mod v k : 0 <= k < n -> Z.land v (wrap n (Z.shiftl 1 k - 1)) = v mod 2 ^ k.
Proof.
  intros Hk. replace (Z.shiftl 1 k - 1) with (Z.ones k) by (rewrite Z.shiftl_1_l, Z.ones_equiv; lia).
  rewrite wrap_id, Z.land_ones by (lia || (rewrite Z.ones_equiv; split; [pose proof (Z.pow_pos_nonneg 2 k); lia|];
    pose proof (Z.pow_lt_mono_r 2 k n); lia)). reflexivity.
Qed.

Lemma bzhi_code v c : 0 <= c -> fits n v ->
  (if c <? n then (Z.land v (wrap n (Z.shiftl 1 c - 1)), false) else (v, true)) = (v mod 2 ^ c, n <=? c).
Proof.
  intros Hc Hv. destruct (Z.ltb_spec c n), (Z.leb_spec n c); try lia.
  - rewrite mask_mod by lia. reflexivity.
  - f_equal. symmetry. apply (wrap_id c). apply (fits_le n); assumption.
Qed.

Lemma bextr_code v start len : 0 <= start -> 0 <= len -> fits n v ->
  (if (start <? n) && (len >? 0) then
     let result := Z.shiftr v start in if len <? n then Z.land result (wrap n (Z.shiftl 1 len - 1)) else result
   else 0) = field start len v.
Proof.
  intros Hs Hl Hv. unfold field. rewrite Z.gtb_ltb.
  destruct (Z.ltb_spec start n) as [L|G]; cbn [andb].
  - destruct (Z.ltb_spec 0 len).
    + cbv zeta. rewrite Z.shiftr_div_pow2 by exact Hs. destruct (Z.ltb_spec len n); [apply mask_mod; lia|].
      symmetry. apply (wrap_id len). apply (fits_le n); [assumption|]. destruct Hv as [H1 H2].
      pose proof (Z.pow_pos_nonneg 2 start ltac:(lia) ltac:(lia)).
      split; [apply Z.div_pos; lia | apply Z.div_lt_upper_bound; nia].
    + replace len with 0 by lia. rewrite Z.mod_1_r. reflexivity.
  - replace (v / 2 ^ start) with 0.
    + symmetry. apply Z.mod_0_l, Z.pow_nonzero; lia.
    + symmetry. apply Z.div_small. apply (fits_le n); assumption.
Qed.

Lemma adcx_carry a b c : 0 <= c <= 1 -> fits n a -> fits n b ->
  to_bool (Z.shiftr (wrap n (ADD_COUT_VEC a b (wrap n (a + b + c)))) (n - 1)) = (2 ^ n <=? a + b + c).
Proof.
  intros Hc Ha Hb. rewrite top_bit, to_bool_b2z by (lia || (apply wrap_fits; lia)).
  rewrite wrap_bit by lia. destruct (Z.ltb_spec (n - 1) n); [|lia]. cbn [andb].
  rewrite (ADD_COUT_VEC_bit a b c) by (lia || (rewrite wrap_bit by lia; destruct (Z.ltb_spec (n - 1) n); [reflexivity | lia])).
  replace (n - 1 + 1) with n by lia. rewrite !(Z.mod_small _ (2 ^ n)) by assumption. reflexivity.
Qed.

(** The overflow of ADOX's sum. *)
Lemma adox_overflow a b c : 0 <= c <= 1 -> fits n a -> fits n b ->
  let s := wrap n (a + b + c) in
  to_bool (Z.land (Z.land (Z.lxor a s) (Z.lxor b s)) (2 ^ (n - 1))) =
  signed_overflow n (signed n a + signed n b + c).
Proof.
  intros Hc Ha Hb s. rewrite <- add_overflow by assumption.
  assert (E : forall x, to_bool (Z.land x (2 ^ (n - 1))) = Z.testbit x (n - 1)).
  { intros x. unfold to_bool. rewrite land_pow2_zero by lia. apply negb_involutive. }
  rewrite E, Z.land_spec, !Z.lxor_spec. unfold s. rewrite wrap_bit by lia.
  destruct (Z.ltb_spec (n - 1) n); [|lia]. cbn [andb]. rewrite testbit_add by lia.
  pose proof (mod_split a (n - 1) ltac:(lia)) as Ea. pose proof (mod_split b (n - 1) ltac:(lia)) as Eb.
  replace (n - 1 + 1) with n in * by lia. rewrite Z.mod_small in Ea, Eb by assumption.
  assert (P : 2 ^ n = 2 * 2 ^ (n - 1)) by (rewrite <- Z.pow_succ_r by lia; f_equal; lia).
  pose proof (Z.pow_pos_nonneg 2 (n - 1) ltac:(lia) ltac:(lia)) as HM.
  pose proof (Z.mod_pos_bound a _ HM). pose proof (Z.mod_pos_bound b _ HM).
  rewrite P in *. set (M := 2 ^ (n - 1)) in *. set (A := a mod M) in *. set (B := b mod M) in *. clearbody A B M.
  destruct (Z.testbit a (n - 1)), (Z.testbit b (n - 1)); cbn [Z.b2z] in *;
    destruct (Z.leb_spec (2 * M) (a + b + c)), (Z.leb_spec M (A + B + c)); try reflexivity; exfalso; lia.
Qed.

Lemma keep_PF_abs r e : osize n -> lf_ok e ->
  lazy_flags (SET_FLAGS_OSZAxC_LOGIC n r e) = keep_PF n r false (lazy_flags e).
Proof.
  intros Hs He. unfold SET_FLAGS_OSZAxC_LOGIC.
  rewrite (set_flag_flags F_PF _ _ (SIZE_ok n 0 r)). fold (SET_FLAGS_OSZAPC_LOGIC n r).
  rewrite LOGIC_flags by exact Hs. reflexivity.
Qed.

Lemma keep_PF_ok r e : lf_ok (SET_FLAGS_OSZAxC_LOGIC n r e).
Proof. exact (set_flag_ok F_PF _ _ (SIZE_ok n 0 r)). Qed.

End Values.

Lemma pext_32 a b : pext_loop_32 32 a b 1 0 = pext 32 a b.
Proof.
  rewrite <- (Z.mul_1_l (pext 32 a b)), <- (Z.add_0_l (1 * pext 32 a b)).
  apply (pext_search 32 pext_loop_32) with (j := 0); try lia; [reflexivity | reflexivity | unfold fits; lia].
Qed.
Lemma pext_64 a b : pext_loop_64 64 a b 1 0 = pext 64 a b.
Proof.
  rewrite <- (Z.mul_1_l (pext 64 a b)), <- (Z.add_0_l (1 * pext 64 a b)).
  apply (pext_search 64 pext_loop_64) with (j := 0); try lia; [reflexivity | reflexivity | unfold fits; lia].
Qed.
Lemma pdep_32 a b : pdep_loop_32 32 a b 1 0 = pdep 32 a b.
Proof.
  rewrite <- (Z.mul_1_l (pdep 32 a b)), <- (Z.add_0_l (1 * pdep 32 a b)).
  apply (pdep_search 32 pdep_loop_32) with (j := 0); try lia; [reflexivity | reflexivity | unfold fits; lia].
Qed.
Lemma pdep_64 a b : pdep_loop_64 64 a b 1 0 = pdep 64 a b.
Proof.
  rewrite <- (Z.mul_1_l (pdep 64 a b)), <- (Z.add_0_l (1 * pdep 64 a b)).
  apply (pdep_search 64 pdep_loop_64) with (j := 0); try lia; [reflexivity | reflexivity | unfold fits; lia].
Qed.

(** The fuel of the four loops is enough for every mask. *)
Lemma mask_loops_terminate k a b wr r :
  (fits 32 b -> pext_loop_32 (32 + k) a b wr r = pext_loop_32 32 a b wr r /\
                pdep_loop_32 (32 + k) a b wr r = pdep_loop_32 32 a b wr r) /\
  (fits 64 b -> pext_loop_64 (64 + k) a b wr r = pext_loop_64 64 a b wr r /\
                pdep_loop_64 (64 + k) a b wr r = pdep_loop_64 64 a b wr r).
Proof.
  set (bit x := negb (Z.land x 0x1 =? 0)). set (put a r wr := if bit a then Z.lor r wr else r).
  set (shl w b wr := if bit b then wrap w (Z.shiftl wr 1) else wr).
  assert (X : forall w loop, (forall a b wr r, loop O a b wr r = r) ->
    (forall fuel a b wr r, loop (S fuel) a b wr r = if negb (b =? 0) then
       let '(r, wr) := if bit b then (put a r wr, wrap w (Z.shiftl wr 1)) else (r, wr) in
       loop fuel (Z.shiftr a 1) (Z.shiftr b 1) wr r else r) ->
    forall fuel, fits (Z.of_nat fuel) b -> loop (fuel + k)%nat a b wr r = loop fuel a b wr r).
  { intros w loop E0 E fuel. apply (loop_fuel loop E0 (fun a _ _ _ => Z.shiftr a 1) (fun _ b wr _ => shl w b wr)
      (fun a b wr r => if bit b then put a r wr else r)).
    intros. rewrite E. unfold shl. destruct (bit b0); reflexivity. }
  assert (D : forall w loop, (forall a b wr r, loop O a b wr r = r) ->
    (forall fuel a b wr r, loop (S fuel) a b wr r = if negb (b =? 0) then
       let '(r, a) := if bit b then (put a r wr, Z.shiftr a 1) else (r, a) in
       loop fuel a (Z.shiftr b 1) (wrap w (Z.shiftl wr 1)) r else r) ->
    forall fuel, fits (Z.of_nat fuel) b -> loop (fuel + k)%nat a b wr r = loop fuel a b wr r).
  { intros w loop E0 E fuel. apply (loop_fuel loop E0 (fun a b _ _ => if bit b then Z.shiftr a 1 else a)
      (fun _ _ wr _ => wrap w (Z.shiftl wr 1)) (fun a b wr r => if bit b then put a r wr else r)).
    intros. rewrite E. destruct (bit b0); reflexivity. }
  split; intros Hb; split;
    [ apply (X 32 pext_loop_32) | apply (D 32 pdep_loop_32) | apply (X 64 pext_loop_64) | apply (D 64 pdep_loop_64) ];
    (reflexivity || exact Hb).
Qed.

(** ** The handlers *)

Section Refinement.
Context {M : Type} `{VirtualMemoryOk M}.
Abbreviation handler := (bxInstruction_c -> cpu bx_lazyflags_entry M unit).

Definition bmi_handler (sz : opsize) (ins : bmi_instr) : option handler :=
  match sz, ins with
  | S32, ANDN => Some ANDN_GdBdEdR
  | S32, MULX => Some MULX_GdBdEdR
  | S32, BLSI => Some BLSI_BdEdR
  | S32, BLSMSK => Some BLSMSK_BdEdR
  | S32, BLSR => Some BLSR_BdEdR
  | S32, RORX => Some RORX_GdEdIbR
  | S32, SHRX => Some SHRX_GdEdBdR
  | S32, SARX => Some SARX_GdEdBdR
  | S32, SHLX => Some SHLX_GdEdBdR
  | S32, BEXTR => Some BEXTR_GdEdBdR
  | S32, BZHI => Some BZHI_GdEdBdR
  | S32, PEXT => Some PEXT_GdBdEdR
  | S32, PDEP => Some PDEP_GdBdEdR
  | S32, ADCX => Some ADCX_GdEdR
  | S64, ANDN => Some ANDN_GqBqEqR
  | S64, MULX => Some MULX_GqBqEqR
  | S64, BLSI => Some BLSI_BqEqR
  | S64, BLSMSK => Some BLSMSK_BqEqR
  | S64, BLSR => Some BLSR_BqEqR
  | S64, RORX => Some RORX_GqEqIbR
  | S64, SHRX => Some SHRX_GqEqBqR
  | S64, SARX => Some SARX_GqEqBqR
  | S64, SHLX => Some SHLX_GqEqBqR
  | S64, BEXTR => Some BEXTR_GqEqBqR
  | S64, BZHI => Some BZHI_GqEqBqR
  | S64, PEXT => Some PEXT_GqBqEqR
  | S64, PDEP => Some PDEP_GqBqEqR
  | S64, ADCX => Some ADCX_GqEqR
  | _, _ => None
  end.

Ltac unfold_bmi := cbv [
  ANDN_GdBdEdR MULX_GdBdEdR BLSI_BdEdR BLSMSK_BdEdR BLSR_BdEdR RORX_GdEdIbR SHRX_GdEdBdR
  SARX_GdEdBdR SHLX_GdEdBdR BEXTR_GdEdBdR BZHI_GdEdBdR PEXT_GdBdEdR PDEP_GdBdEdR ADCX_GdEdR
  ANDN_GqBqEqR MULX_GqBqEqR BLSI_BqEqR BLSMSK_BqEqR BLSR_BqEqR RORX_GqEqIbR SHRX_GqEqBqR
  SARX_GqEqBqR SHLX_GqEqBqR BEXTR_GqEqBqR BZHI_GqEqBqR PEXT_GqBqEqR PDEP_GqBqEqR ADCX_GqEqR].

Ltac some_bmi E := match type of E with
  | bmi_handler ?sz ?ins = Some ?h =>
      unfold bmi_handler in E; match type of E with Some ?h' = _ =>
        assert (X : h = h') by congruence; subst h; clear E end
  end.

Ltac bmi_exec := repeat progress (exec; rewrite ?modify_flags_eq, ?bind_get_lazy, ?bind_get_flags; exec_simpl); cbv match.

Lemma bextrd_field v s l : 0 <= s -> 0 <= l -> fits 32 v -> bextrd v s l = field s l v.
Proof. exact (bextr_code 32 ltac:(lia) v s l). Qed.
Lemma bextrq_field v s l : 0 <= s -> 0 <= l -> fits 64 v -> bextrq v s l = field s l v.
Proof. exact (bextr_code 64 ltac:(lia) v s l). Qed.

Lemma control_start c : Z.land c 0xff = c mod 256.
Proof. exact (Z.land_ones c 8 ltac:(lia)). Qed.
Lemma control_len c : Z.shiftr c 8 = c / 256.
Proof. exact (Z.shiftr_div_pow2 c 8 ltac:(lia)). Qed.
Lemma get_field_nonneg k x : 0 <= k -> 0 <= get_field 0 k x.
Proof. intros Hk. apply (get_field_fits 0 k x Hk). Qed.

Lemma val_halves x p : ok128 x -> val x = p -> lo x = p mod 2 ^ 64 /\ hi x = p / 2 ^ 64.
Proof.
  intros [L U] <-. destruct x as [l h]. unfold val, fits in *. cbn [lo hi] in *.
  rewrite (Z.mul_comm (2 ^ 64) h). rewrite Z.mod_add, Z.div_add, Z.mod_small, Z.div_small by lia.
  split; reflexivity.
Qed.

Lemma long_mul_halves a b : fits 64 a -> fits 64 b ->
  lo (long_mul a b) = a * b mod 2 ^ 64 /\ hi (long_mul a b) = a * b / 2 ^ 64.
Proof.
  intros Ha Hb. pose proof (long_mul_ok a b Ha Hb) as [O E]. exact (val_halves _ _ O E).
Qed.

Lemma adcx_32 a b c : 0 <= c <= 1 -> fits 32 a -> fits 32 b ->
  to_bool (Z.shiftr (u32 (ADD_COUT_VEC a b (u32 (a + b + c)))) 31) = (2 ^ 32 <=? a + b + c).
Proof. exact (adcx_carry 32 ltac:(lia) a b c). Qed.
Lemma adcx_64 a b c : 0 <= c <= 1 -> fits 64 a -> fits 64 b ->
  to_bool (Z.shiftr (u64 (ADD_COUT_VEC a b (u64 (a + b + c)))) 63) = (2 ^ 64 <=? a + b + c).
Proof. exact (adcx_carry 64 ltac:(lia) a b c). Qed.

Lemma b2z_range b : 0 <= Z.b2z b <= 1.
Proof. destruct b; cbn; lia. Qed.

Ltac reg_fits := first [ apply get_field_fits; lia | match goal with Hs : cpu_ok _ |- _ => apply Hs end ].

Ltac side := first
  [ lia | reg_fits | unfold osize; lia | apply b2z_range | apply get_field_nonneg; lia
  | apply Z.div_pos; [apply get_field_nonneg; lia | lia]
  | match goal with
    | |- 0 <= ?x mod ?n => apply (Z.mod_pos_bound x n); lia
    | |- 0 <= ?x mod ?n < ?n => apply (Z.mod_pos_bound x n); lia
    end ].

Ltac bmi_values :=
  rewrite ?index_32, ?index_64, ?control_start, ?control_len, ?getB_CF_flags;
  repeat match goal with
  | |- context [Z.land (wrap ?n (Z.lnot ?a)) ?b] => rewrite (andn_code n ltac:(lia) a b) by side
  | |- context [Z.land (wrap ?n (- ?v)) ?v] => rewrite (blsi_code n v) by side
  | |- context [Z.land (wrap ?n (?v - 1)) ?v] => rewrite (blsr_code n v) by side
  | |- context [Z.lxor (wrap ?n (?v - 1)) ?v] => rewrite (blsmsk_code n v) by side
  | |- context [if negb (?c =? 0) then Z.lor (Z.shiftr ?v ?c) (wrap ?n (Z.shiftl ?v _)) else ?v] =>
      rewrite (rorx_code n ltac:(lia) v c) by side
  | |- context [if negb (?c =? 0) then wrap ?n (Z.shiftr (signed ?n ?v) ?c) else ?v] =>
      rewrite (sar_code n ltac:(lia) v c) by side
  | |- context [if negb (?c =? 0) then Z.shiftr ?v ?c else ?v] => rewrite (shr_code v c) by side
  | |- context [if negb (?c =? 0) then wrap ?n (Z.shiftl ?v ?c) else ?v] =>
      rewrite (shl_code n v c) by side
  | |- context [if ?c <? ?n then (Z.land ?v _, false) else (?v, true)] =>
      rewrite (bzhi_code n ltac:(lia) v c) by side
  | |- context [bextrd ?v ?s ?l] => rewrite (bextrd_field v s l) by side
  | |- context [bextrq ?v ?s ?l] => rewrite (bextrq_field v s l) by side
  | |- context [pext_loop_32 32 ?a ?b 1 0] => rewrite (pext_32 a b)
  | |- context [pext_loop_64 64 ?a ?b 1 0] => rewrite (pext_64 a b)
  | |- context [pdep_loop_32 32 ?a ?b 1 0] => rewrite (pdep_32 a b)
  | |- context [pdep_loop_64 64 ?a ?b 1 0] => rewrite (pdep_64 a b)
  | |- context [to_bool (Z.shiftr (wrap 32 (ADD_COUT_VEC ?a ?b (wrap 32 (?a + ?b + ?c)))) 31)] =>
      rewrite (adcx_32 a b c) by side
  | |- context [to_bool (Z.shiftr (wrap 64 (ADD_COUT_VEC ?a ?b (wrap 64 (?a + ?b + ?c)))) 63)] =>
      rewrite (adcx_64 a b c) by side
  | |- context [long_mul ?a ?b] =>
      let L := fresh in let R := fresh in
      destruct (long_mul_halves a b) as [L R]; [side | side |]; rewrite ?L, ?R; clear L R
  end.

Ltac bmi_flags := match goal with
  | Hs : cpu_ok _ |- _ =>
    let L := fresh in destruct Hs as [_ L]; cbn [oszapc] in L; symmetry;
    rewrite ?set_CF_abs by first [apply keep_PF_ok; unfold osize; lia | exact L];
    first [ reflexivity
          | rewrite keep_PF_abs by first [exact L | unfold osize; lia | lia]; reflexivity
          | apply LOGIC_flags; unfold osize; lia ]
  end.

Ltac bmi_lf := first [ apply set_CF_lf_ok; bmi_lf | apply keep_PF_ok | lf_ok_tac ].

(** The product of MULX is taken apart by a conversion and a shift. *)
Ltac bmi_regs := first
  [ rewrite ?wrap_mod by lia; reflexivity
  | unfold wrap; rewrite Z.shiftr_div_pow2 by lia; rewrite !Zmod_mod; reflexivity ].

Ltac bmi_end := split;
  [ apply Ok_abs; [ bmi_regs | bmi_flags | reflexivity ]
  | split; [ cbn [set_field gen_reg]; regs_fit | cbn [set_field oszapc]; bmi_lf ] ].

Lemma bmi_refines sz ins h i s : bmi_handler sz ins = Some h -> cpu_ok s ->
  osim (h i s) (bmi_spec sz ins i (abs s)).
Proof.
  intros E. revert s. destruct sz, ins; try discriminate E; some_bmi E; unfold_bmi;
    intros [g b e m] Hs; unfold bmi_spec, dx; cbn [bits]; unfold_io; bmi_exec; bmi_values; bmi_exec;
    bmi_end.
Qed.

End Refinement.

(** ** Gather and scatter undo each other; what ADOX keeps in OF *)

(** A register at the operand size. *)
Definition rval (sz : opsize) (g : Z -> Z) (r : Z) : Z := get_field 0 (bits sz) (g r).

Lemma rval_upd sz g r v k : rval sz (upd g r (wrap (bits sz) v)) k = if k =? r then wrap (bits sz) v else rval sz g k.
Proof.
  unfold rval, upd. destruct (k =? r); [|reflexivity]. unfold get_field. rewrite Z.shiftr_0_r.
  apply wrap_wrap. destruct sz; cbn; lia.
Qed.

Section Masks.
Context {M : Type} `{VirtualMemoryOk M}.

(** One run of PEXT or PDEP: the destination is the only thing that changes. *)
Lemma mask_instr_run sz ins h i (s : bx_cpu bx_lazyflags_entry M) :
  ins = PEXT \/ ins = PDEP -> bmi_handler sz ins = Some h -> cpu_ok s ->
  let f := match ins with PEXT => pext | _ => pdep end in
  exists s', h i s = Ok tt s' /\ cpu_ok s' /\ lazy_flags (oszapc s') = lazy_flags (oszapc s) /\ vmem s' = vmem s /\
    gen_reg s' = upd (gen_reg s) (dst i) (wrap (bits sz)
      (f (Z.to_nat (bits sz)) (rval sz (gen_reg s) (src i)) (rval sz (gen_reg s) (src2 i)))).
Proof.
  intros Hi Hh Hs f. pose proof (bmi_refines sz ins h i s Hh Hs) as R.
  assert (E : bmi_spec sz ins i (abs s) = Ok tt (Cpu (upd (gen_reg s) (dst i) (wrap (bits sz)
      (f (Z.to_nat (bits sz)) (rval sz (gen_reg s) (src i)) (rval sz (gen_reg s) (src2 i)))))
      (seg_base s) (lazy_flags (oszapc s)) (vmem s))).
  { destruct sz; try (destruct Hi; subst ins; discriminate Hh); unfold f, rval;
      destruct Hi; subst ins; cbn [bits]; rewrite ?(get_field_64 (gen_reg s (src i))), ?(get_field_64 (gen_reg s (src2 i))) by apply Hs; reflexivity. }
  rewrite E in R. clear E. destruct (h i s) as [[] s'|]; destruct R as [R Hok]; [|discriminate R].
  apply Ok_inj in R. pose proof (f_equal gen_reg R) as R1. pose proof (f_equal oszapc R) as R2.
  pose proof (f_equal vmem R) as R3. cbn [gen_reg oszapc vmem abs] in R1, R2, R3.
  exists s'. repeat split; try congruence; apply Hok.
Qed.

(** C36: PEXT gathers and PDEP scatters: scattering what was gathered under the same
    mask gives the masked bits of the value, and gathering what was scattered gives
    back as many low bits as the mask has ones. *)
Theorem gather_scatter sz gather scatter i j (s : bx_cpu bx_lazyflags_entry M) :
  bmi_handler sz PEXT = Some gather -> bmi_handler sz PDEP = Some scatter -> cpu_ok s ->
  src j = dst i -> src2 j = src2 i -> dst i <> src2 i ->
  let n := Z.to_nat (bits sz) in
  let v := rval sz (gen_reg s) (src i) in
  let m := rval sz (gen_reg s) (src2 i) in
  (exists s', (gather i ;;; scatter j)%bochs s = Ok tt s' /\ rval sz (gen_reg s') (dst j) = Z.land v m /\
              lazy_flags (oszapc s') = lazy_flags (oszapc s)) /\
  (exists s', (scatter i ;;; gather j)%bochs s = Ok tt s' /\ rval sz (gen_reg s') (dst j) = v mod 2 ^ ones n m /\
              lazy_flags (oszapc s') = lazy_flags (oszapc s)).
Proof.
  intros Hg Hc Hs Ej Em Nm n v m.
  assert (Hn : 0 <= bits sz /\ Z.of_nat n = bits sz) by (unfold n; destruct sz; cbn; lia).
  assert (Hm : fits (bits sz) m) by (apply get_field_fits; lia).
  assert (W : forall x, fits (bits sz) x -> wrap (bits sz) x = x) by (intros; apply wrap_id; assumption).
  split.
  - destruct (mask_instr_run sz PEXT gather i s ltac:(auto) Hg Hs) as (s1 & E1 & Ok1 & F1 & _ & R1).
    destruct (mask_instr_run sz PDEP scatter j s1 ltac:(auto) Hc Ok1) as (s2 & E2 & _ & F2 & _ & R2).
    exists s2. unfold bind. rewrite E1. split; [exact E2|]. split; [|congruence].
    rewrite R2, rval_upd, Z.eqb_refl, R1, Ej, Em, !rval_upd, Z.eqb_refl.
    replace (src2 i =? dst i) with false by (symmetry; apply Z.eqb_neq; auto). fold n v m.
    rewrite (W (pext n v m)) by (destruct Hn as [_ <-]; apply pext_bound).
    rewrite pdep_pext by (destruct Hn as [_ ->]; exact Hm). apply W, fits_land_r; [apply Hn | exact Hm].
  - destruct (mask_instr_run sz PDEP scatter i s ltac:(auto) Hc Hs) as (s1 & E1 & Ok1 & F1 & _ & R1).
    destruct (mask_instr_run sz PEXT gather j s1 ltac:(auto) Hg Ok1) as (s2 & E2 & _ & F2 & _ & R2).
    exists s2. unfold bind. rewrite E1. split; [exact E2|]. split; [|congruence].
    rewrite R2, rval_upd, Z.eqb_refl, R1, Ej, Em, !rval_upd, Z.eqb_refl.
    replace (src2 i =? dst i) with false by (symmetry; apply Z.eqb_neq; auto). fold n v m.
    rewrite (W (pdep n v m)) by (destruct Hn as [_ <-]; apply pdep_bound).
    rewrite (W (pext n _ m)) by (destruct Hn as [_ <-]; apply pext_bound). apply pext_pdep.
Qed.

(** C33: The handlers of bmi32.cc and bmi64.cc (ADOX apart) compute the exact results:
    ANDN, the lowest set bit and the bits around it (BLSI, BLSMSK, BLSR), the shifts
    and rotate without flags, bit fields (BEXTR, BZHI), gather and scatter, the full
    product of MULX, and the carry chain of ADCX, each with its flags. *)
Theorem bmi_handlers_refine sz ins h i (s : bx_cpu bx_lazyflags_entry M) :
  bmi_handler sz ins = Some h -> cpu_ok s -> osim (h i s) (bmi_spec sz ins i (abs s)).
Proof. apply bmi_refines. Qed.

(** ADOX: OF takes the signed overflow of the sum, not its carry. *)
Lemma adox_flag i (s : bx_cpu bx_lazyflags_entry M) : cpu_ok s ->
  let a := get_field 0 32 (gen_reg s (dst i)) in
  let b := get_field 0 32 (gen_reg s (src i)) in
  let c := Z.b2z (OF (lazy_flags (oszapc s))) in
  exists s', ADOX_GdEdR i s = Ok tt s' /\
    gen_reg s' = upd (gen_reg s) (dst i) (u32 (a + b + c)) /\
    lazy_flags (oszapc s') = (lazy_flags (oszapc s)) <| OF := signed_overflow 32 (signed 32 a + signed 32 b + c) |>.
Proof.
  intros Hs a b c. unfold ADOX_GdEdR. exec. rewrite bind_get_lazy. exec.
  eexists. split; [reflexivity|]. cbn [gen_reg oszapc set_field].
  rewrite (proj1 (getB_bits (oszapc s) (proj2 Hs))).
  fold a b c. split; [rewrite wrap_mod by lia; reflexivity|].
  change (set_OF ?v ?e) with (set_flag F_OF v e). rewrite set_flag_flags by apply Hs. cbn [upd_flag].
  unfold GET_ADD_OVERFLOW_32. change 0x80000000 with (2 ^ (32 - 1)).
  pose proof (adox_overflow 32 ltac:(lia) a b c (b2z_range _) ltac:(apply get_field_fits; lia)
    ltac:(apply get_field_fits; lia)) as E. cbv zeta in E. rewrite E. reflexivity.
Qed.

End Masks.

(** The carry of 0xFFFFFFFF + 1 is not in OF. *)
Example adox_drops_carry :
  signed_overflow 32 (signed 32 0xFFFFFFFF + signed 32 1 + 0) = false /\ (2 ^ 32 <=? 0xFFFFFFFF + 1 + 0) = true.
Proof. split; reflexivity. Qed.

(** ** Concrete runs *)

(** EAX = gather or scatter of EBX under ECX, then EDX from EAX. *)
Definition gather_instr : bxInstruction_c := Instr 0 1 0 3 1 3 0 0 0 0 0.
Definition scatter_instr : bxInstruction_c := Instr 0 1 2 0 1 3 0 0 0 0 0.

Definition mask_state : bx_cpu bx_lazyflags_entry flat :=
  Cpu (fun r => if r =? 3 then 0x12345678 else if r =? 1 then 0x0F0F00F0 else 0) (fun _ => 0)
      (LazyFlags 1 0) (Flat (fun _ => 0) 0).

Lemma mask_state_ok : cpu_ok mask_state.
Proof.
  split; [intros r; cbn; destruct (r =? 3); [|destruct (r =? 1)]|]; unfold lf_ok, fits; cbn; lia.
Qed.

Lemma gather_scatter_witness :
  exists s', (PEXT_GdBdEdR gather_instr ;;; PDEP_GdBdEdR scatter_instr)%bochs mask_state = Ok tt s' /\
    rval S32 (gen_reg s') 2 = 0x02040070.
Proof.
  destruct (gather_scatter S32 _ _ gather_instr scatter_instr mask_state eq_refl eq_refl mask_state_ok
    eq_refl eq_refl ltac:(discriminate)) as [(s' & E & R & _) _].
  exists s'. split; [exact E|]. change (dst scatter_instr) with 2 in R. rewrite R. vm_compute. reflexivity.
Defined.

Lemma bmi_handlers_refine_witness :
  osim (BLSI_BdEdR gather_instr mask_state) (bmi_spec S32 BLSI gather_instr (abs mask_state)) /\
  match BLSI_BdEdR gather_instr mask_state with Ok _ s => gen_reg s 0 = 8 | Fault _ _ => False end.
Proof.
  split; [apply (bmi_handlers_refine S32 BLSI); [reflexivity | exact mask_state_ok] | vm_compute; reflexivity].
Defined.
