(* ===== verification/Bcd.v ===== *)
(** * Decimal adjust instructions (cpu/bcd.cc)

    AAA, AAS, AAM, AAD, DAA and DAS, and what they are for: after a binary
    addition or subtraction of decimal digits they leave the decimal result. *)

From Stdlib Require Import ZArith Lia List Bool FunctionalExtensionality.
From S2P Require Import Prelude LazyFlags Cpu Arith8 Alu ShiftSpec ShiftRefine BitRefine.
Open Scope Z_scope.
Import ListNotations.

Section Handlers.
Context {M : Type} `{VirtualMemory M}.
Abbreviation cpu := (cpu bx_lazyflags_entry M).

Definition AH : cpu Z := r <- read_gpr BX_64BIT_REG_RAX ;; ret (get_field 8 8 r).

(** [SET_FLAGS_OSZAPC_LOGIC_8(AL); set_CF(tmpCF); set_AF(tmpAF);] *)
Definition adjust_flags (tmpCF tmpAF : bool) : cpu unit :=
  al <- AL ;;
  put_lazy (SET_FLAGS_OSZAPC_LOGIC 8 al) ;;;
  modify_lazy (set_CF tmpCF) ;;;
  modify_lazy (set_AF tmpAF).

Definition AAA (i : bxInstruction_c) : cpu unit :=
  al <- AL ;;
  af <- get_lazy get_AF ;;
  let adjust := (Z.land al 0x0f >? 9) || to_bool af in
  (if adjust then ax <- AX ;; set_AX (ax + 0x106) else ret tt) ;;;
  al <- AL ;;
  set_AL (Z.land al 0x0f) ;;;
  adjust_flags adjust adjust ;;;
  BX_NEXT_INSTR.

Definition AAS (i : bxInstruction_c) : cpu unit :=
  al <- AL ;;
  af <- get_lazy get_AF ;;
  let adjust := (Z.land al 0x0F >? 0x09) || to_bool af in
  (if adjust then ax <- AX ;; set_AX (ax - 0x106) else ret tt) ;;;
  al <- AL ;;
  set_AL (Z.land al 0x0f) ;;;
  adjust_flags adjust adjust ;;;
  BX_NEXT_INSTR.

Definition AAM (i : bxInstruction_c) : cpu unit :=
  let imm8 := Ib i in
  if imm8 =? 0 then exception BX_DE_EXCEPTION 0
  else
    al <- AL ;;
    set_AH (al / imm8) ;;;
    set_AL (al mod imm8) ;;;
    al <- AL ;;
    put_lazy (SET_FLAGS_OSZAPC_LOGIC 8 al) ;;;
    BX_NEXT_INSTR.

Definition AAD (i : bxInstruction_c) : cpu unit :=
  tmp <- AH ;;
  let tmp := u16 (tmp * Ib i) in
  al <- AL ;;
  let tmp := u16 (tmp + al) in
  set_AX (Z.land tmp 0xff) ;;;
  al <- AL ;;
  put_lazy (SET_FLAGS_OSZAPC_LOGIC 8 al) ;;;
  BX_NEXT_INSTR.

Definition DAA (i : bxInstruction_c) : cpu unit :=
  tmpAL <- AL ;;
  af <- get_lazy get_AF ;;
  cf <- get_lazy get_CF ;;
  let low := (Z.land tmpAL 0x0F >? 0x09) || to_bool af in
  tmpCF <- (if low then
              al <- AL ;;
              let tmpCF := (al >? 0xF9) || to_bool cf in
              al <- AL ;; set_AL (al + 0x06) ;;;
              ret tmpCF
            else ret false) ;;
  let high := (tmpAL >? 0x99) || to_bool cf in
  (if high then al <- AL ;; set_AL (al + 0x60) else ret tt) ;;;
  adjust_flags (if high then true else tmpCF) low ;;;
  BX_NEXT_INSTR.

Definition DAS (i : bxInstruction_c) : cpu unit :=
  tmpAL <- AL ;;
  af <- get_lazy get_AF ;;
  cf <- get_lazy get_CF ;;
  let low := (Z.land tmpAL 0x0F >? 0x09) || to_bool af in
  tmpCF <- (if low then
              al <- AL ;;
              let tmpCF := (al <? 0x06) || to_bool cf in
              al <- AL ;; set_AL (al - 0x06) ;;;
              ret tmpCF
            else ret false) ;;
  let high := (tmpAL >? 0x99) || to_bool cf in
  (if high then al <- AL ;; set_AL (al - 0x60) else ret tt) ;;;
  adjust_flags (if high then true else tmpCF) low ;;;
  BX_NEXT_INSTR.

End Handlers.

(** ** Decimal arithmetic with the adjust instructions

    An addition or subtraction of decimal digits followed by its adjust
    instruction gives the decimal digits of the result, with the decimal carry in
    CF, so that numbers of any length can be added byte by byte. *)

(** The two decimal digits of a number below 100, one in each half byte. *)
Definition packed (x : Z) : Z := 16 * (x / 10) + x mod 10.

(** The new AL and CF of DAA and DAS; the new AF is [low_adjust]. *)
Definition low_adjust (al : Z) (af : bool) : bool := (Z.land al 0xF >? 9) || af.

Definition daa_al (al : Z) (af cf : bool) : Z :=
  let al1 := if low_adjust al af then u8 (al + 6) else al in
  if (al >? 0x99) || cf then u8 (al1 + 0x60) else al1.
Definition daa_cf (al : Z) (af cf : bool) : bool :=
  (al >? 0x99) || cf || (low_adjust al af && ((al >? 0xF9) || cf)).

Definition das_al (al : Z) (af cf : bool) : Z :=
  let al1 := if low_adjust al af then u8 (al - 6) else al in
  if (al >? 0x99) || cf then u8 (al1 - 0x60) else al1.
Definition das_cf (al : Z) (af cf : bool) : bool :=
  (al >? 0x99) || cf || (low_adjust al af && ((al <? 6) || cf)).

Lemma get_AF_flag e : lf_ok e -> to_bool (get_AF e) = AF (lazy_flags e).
Proof.
  intros He. rewrite lazy_flags_bits by exact He. cbn [AF entry_flags]. unfold get_AF, LF_MASK_AF, LF_BIT_AF.
  rewrite land_bit_b2z by lia. destruct (Z.testbit (auxbits e) 3); reflexivity.
Qed.

Lemma get_CF_flag e : lf_ok e -> to_bool (get_CF e) = CF (lazy_flags e).
Proof.
  intros He. rewrite lazy_flags_bits by exact He. cbn [CF entry_flags]. unfold get_CF, LF_MASK_CF, LF_BIT_CF.
  rewrite land_bit_b2z by lia. destruct (Z.testbit (auxbits e) 31); reflexivity.
Qed.

Section Runs.
Context {M : Type} `{VirtualMemory M}.
Abbreviation state := (bx_cpu bx_lazyflags_entry M).

Definition al_of (s : state) : Z := get_field 0 8 (gen_reg s 0).
Definition ah_of (s : state) : Z := get_field 8 8 (gen_reg s 0).

(** A state that differs from [s] in RAX and the flags only. *)
Definition only_rax (s s' : state) : Prop :=
  seg_base s' = seg_base s /\ vmem s' = vmem s /\ forall r, r <> 0 -> gen_reg s' r = gen_reg s r.

Lemma adjust_flags_run tmpCF tmpAF (s : state) :
  exists e, adjust_flags tmpCF tmpAF s = Ok tt (s <| oszapc := e |>) /\ lf_ok e /\
    lazy_flags e = result_flags 8 (al_of s) false tmpAF tmpCF.
Proof.
  eexists. split; [reflexivity|]. cbn [oszapc set_field].
  pose proof (SIZE_ok 8 0 (al_of s)) as O. pose proof (set_CF_lf_ok tmpCF _ O) as O2.
  split; [exact (set_flag_ok F_AF tmpAF _ O2)|].
  change (lazy_flags (set_flag F_AF tmpAF (set_CF tmpCF (SET_FLAGS_OSZAPC_LOGIC 8 (al_of s)))) =
          result_flags 8 (al_of s) false tmpAF tmpCF).
  rewrite set_flag_flags by exact O2. rewrite set_CF_abs by exact O. rewrite LOGIC_flags by (unfold osize; lia).
  reflexivity.
Qed.

(** Writing AL twice. *)
Lemma put_put v w x : put_field 0 8 v (put_field 0 8 w x) = put_field 0 8 v x.
Proof.
  apply Z.bits_inj'. intros i Hi. rewrite !put_field_bit by lia.
  destruct ((0 <=? i) && (i <? 0 + 8)); reflexivity.
Qed.

Lemma get_put v x : get_field 0 8 (put_field 0 8 v x) = u8 v.
Proof. apply get_put_field; lia. Qed.

Lemma get_put_high v x : fits 64 x -> get_field 8 56 (put_field 0 8 v x) = get_field 8 56 x.
Proof.
  intros Hx. apply Z.bits_inj'. intros i Hi. unfold get_field. rewrite !wrap_bit, !Z.shiftr_spec, put_field_bit by lia.
  destruct (Z.ltb_spec (i + 8) (0 + 8)); [lia|]. rewrite andb_false_r. reflexivity.
Qed.

(** What DAA and DAS do to a state. *)
Definition adjusted (al : Z) (af cf : bool) (s s' : state) : Prop :=
  only_rax s s' /\ cpu_ok s' /\ al_of s' = al /\
  get_field 8 56 (gen_reg s' 0) = get_field 8 56 (gen_reg s 0) /\
  lazy_flags (oszapc s') = result_flags 8 al false af cf.

(** The end of both: AL written or not, then the flags. *)
Lemma adjust_end v (s : state) cf af al : cpu_ok s -> al = match v with Some v => u8 v | None => al_of s end ->
  exists s', (match v with
              | Some v => adjust_flags cf af (s <| gen_reg := upd (gen_reg s) 0 (put_field 0 8 v (gen_reg s 0)) |>)
              | None => adjust_flags cf af s end) = Ok tt s' /\ adjusted al af cf s s'.
Proof.
  intros [Hg He] ->. destruct v as [v|].
  - destruct (adjust_flags_run cf af (s <| gen_reg := upd (gen_reg s) 0 (put_field 0 8 v (gen_reg s 0)) |>))
      as (e & E & O & F).
    eexists. split; [exact E|]. unfold adjusted, al_of in *. cbn [set_field gen_reg oszapc seg_base vmem] in *.
    rewrite upd_same, get_put in *. split; [|split; [split|split; [|split]]]; try assumption; try reflexivity.
    + repeat split. intros r Hr. apply upd_neq, Hr.
    + apply upd_fits; [exact Hg|]. apply put_field_fits; try lia. apply Hg.
    + apply get_put_high, Hg.
  - destruct (adjust_flags_run cf af s) as (e & E & O & F). eexists. split; [exact E|].
    unfold adjusted. split; [|split; [split|split; [|split]]]; try assumption; try reflexivity.
    repeat split.
Qed.

Lemma adjust_next cf af (s : state) : (adjust_flags cf af ;;; BX_NEXT_INSTR)%bochs s = adjust_flags cf af s.
Proof. destruct (adjust_flags_run cf af s) as (e & E & _). unfold bind at 1. rewrite E. reflexivity. Qed.

Ltac adjust_run := exec; rewrite adjust_next; cbn [set_field gen_reg seg_base oszapc vmem];
  rewrite ?upd_same, ?upd_upd, ?put_put, ?get_put.

Lemma DAA_run i (s : state) : cpu_ok s ->
  let al := al_of s in let af := AF (lazy_flags (oszapc s)) in let cf := CF (lazy_flags (oszapc s)) in
  exists s', DAA i s = Ok tt s' /\ adjusted (daa_al al af cf) (low_adjust al af) (daa_cf al af cf) s s'.
Proof.
  intros Hs al af cf. unfold DAA. unfold_io. exec. rewrite !bind_get_lazy. exec.
  rewrite get_AF_flag, get_CF_flag by apply Hs. fold (al_of s) al af cf. fold (low_adjust al af).
  unfold daa_al, daa_cf. destruct (low_adjust al af), ((al >? 0x99) || cf) eqn:Hh; cbv match; cbn [orb andb];
    adjust_run; fold (al_of s); fold al.
  - apply (adjust_end (Some (u8 (al + 6) + 0x60)) s true true); [exact Hs | reflexivity].
  - apply (adjust_end (Some (al + 6)) s); [exact Hs | reflexivity].
  - apply (adjust_end (Some (al + 0x60)) s true false); [exact Hs | reflexivity].
  - apply (adjust_end None s false false); [exact Hs | reflexivity].
Qed.

Lemma DAS_run i (s : state) : cpu_ok s ->
  let al := al_of s in let af := AF (lazy_flags (oszapc s)) in let cf := CF (lazy_flags (oszapc s)) in
  exists s', DAS i s = Ok tt s' /\ adjusted (das_al al af cf) (low_adjust al af) (das_cf al af cf) s s'.
Proof.
  intros Hs al af cf. unfold DAS. unfold_io. exec. rewrite !bind_get_lazy. exec.
  rewrite get_AF_flag, get_CF_flag by apply Hs. fold (al_of s) al af cf. fold (low_adjust al af).
  unfold das_al, das_cf. destruct (low_adjust al af), ((al >? 0x99) || cf) eqn:Hh; cbv match; cbn [orb andb];
    adjust_run; fold (al_of s); fold al.
  - apply (adjust_end (Some (u8 (al - 6) - 0x60)) s true true); [exact Hs | reflexivity].
  - apply (adjust_end (Some (al - 6)) s); [exact Hs | reflexivity].
  - apply (adjust_end (Some (al - 0x60)) s true false); [exact Hs | reflexivity].
  - apply (adjust_end None s false false); [exact Hs | reflexivity].
Qed.

(** ** The binary addition or subtraction before the adjustment *)

(** The source operand of the 8-bit instruction. *)
Definition source8 (i : bxInstruction_c) (s : state) : Z := read8x (src i) (extend8bitL i) (gen_reg s).

Lemma read8_0 x g : read8x 0 x g = get_field 0 8 (g 0).
Proof. reflexivity. Qed.

Lemma write8_0 x v g : write8x 0 x v g = upd g 0 (put_field 0 8 v (g 0)).
Proof. reflexivity. Qed.

Definition binary_step (f : flags) (v : Z) (s s' : state) : Prop :=
  only_rax s s' /\ cpu_ok s' /\ al_of s' = u8 v /\
  get_field 8 56 (gen_reg s' 0) = get_field 8 56 (gen_reg s 0) /\ lazy_flags (oszapc s') = f.

Lemma binary_step_intro f v e (s : state) : cpu_ok s -> lf_ok e -> lazy_flags e = f ->
  binary_step f v s (Cpu (upd (gen_reg s) 0 (put_field 0 8 v (gen_reg s 0))) (seg_base s) e (vmem s)).
Proof.
  intros [Hg He] O F. unfold binary_step, al_of. cbn [gen_reg seg_base oszapc vmem]. rewrite upd_same, get_put.
  split; [|split; [split|split; [|split]]]; try assumption; try reflexivity.
  - repeat split. intros r Hr. apply upd_neq, Hr.
  - apply upd_fits; [exact Hg|]. apply put_field_fits; try lia. apply Hg.
  - apply get_put_high, Hg.
Qed.

Lemma ADC_run i (s : state) : cpu_ok s -> dst i = 0 ->
  let a := al_of s in let b := source8 i s in let c := Z.b2z (CF (lazy_flags (oszapc s))) in
  exists s', ADC_GbEbR i s = Ok tt s' /\ binary_step (add_flags 8 a b c) (a + b + c) s s'.
Proof.
  intros Hs Hd a b c. unfold ADC_GbEbR. unfold_io. exec. rewrite Hd, read8_0, write8_0, getB_CF_flags.
  eexists. split; [reflexivity|].
  fold (al_of s). fold a. change (read8x (src i) (extend8bitL i) (gen_reg s)) with b. fold c.
  rewrite (put_field_wrap 0 8 32) by lia. apply binary_step_intro; [exact Hs | exact (SIZE_ok _ _ _) |].
  apply (ADD_flags_fits 8 a b (CF (lazy_flags (oszapc s))));
    [unfold osize; lia | apply get_field_fits; lia | apply read8x_fits | reflexivity | apply wrap_wrap_le; lia].
Qed.

Lemma SBB_run i (s : state) : cpu_ok s -> dst i = 0 ->
  let a := al_of s in let b := source8 i s in let c := Z.b2z (CF (lazy_flags (oszapc s))) in
  exists s', SBB_GbEbR i s = Ok tt s' /\ binary_step (sub_flags 8 a b c) (a - b - c) s s'.
Proof.
  intros Hs Hd a b c. unfold SBB_GbEbR. unfold_io. exec. rewrite Hd, read8_0, write8_0, getB_CF_flags.
  eexists. split; [reflexivity|].
  fold (al_of s). fold a. change (read8x (src i) (extend8bitL i) (gen_reg s)) with b. fold c.
  rewrite (put_field_wrap 0 8 32) by lia. replace (a - (b + c)) with (a - b - c) by lia.
  apply binary_step_intro; [exact Hs | exact (SIZE_ok _ _ _) |].
  apply (SUB_flags_fits 8 a b (CF (lazy_flags (oszapc s))));
    [unfold osize; lia | apply get_field_fits; lia | apply read8x_fits | reflexivity | apply wrap_wrap_le; lia].
Qed.

End Runs.

(** ** Every pair of decimal operands *)

Definition daa_case (x y : Z) (c : bool) : bool :=
  let a := packed x in let b := packed y in
  let f := add_flags 8 a b (Z.b2z c) in let al := u8 (a + b + Z.b2z c) in
  (daa_al al (AF f) (CF f) =? packed ((x + y + Z.b2z c) mod 100)) &&
  Bool.eqb (daa_cf al (AF f) (CF f)) (100 <=? x + y + Z.b2z c).

Definition das_case (x y : Z) (c : bool) : bool :=
  let a := packed x in let b := packed y in
  let f := sub_flags 8 a b (Z.b2z c) in let al := u8 (a - b - Z.b2z c) in
  (das_al al (AF f) (CF f) =? packed ((x - y - Z.b2z c) mod 100)) &&
  Bool.eqb (das_cf al (AF f) (CF f)) (x <? y + Z.b2z c).

Definition all_cases (P : Z -> Z -> bool -> bool) : bool :=
  forallb (fun x => forallb (fun y => P x y false && P x y true) (zrange 100)) (zrange 100).

Lemma all_cases_spec P x y c : all_cases P = true -> 0 <= x < 100 -> 0 <= y < 100 -> P x y c = true.
Proof.
  intros A Hx Hy. unfold all_cases in A.
  pose proof (zrange_forall 100 _ A x ltac:(lia)) as Ax. cbv beta in Ax.
  pose proof (zrange_forall 100 _ Ax y ltac:(lia)) as Axy. cbv beta in Axy.
  apply andb_prop in Axy. destruct c; tauto.
Qed.

Lemma daa_cases : all_cases daa_case = true.
Proof. vm_compute. reflexivity. Qed.

Lemma das_cases : all_cases das_case = true.
Proof. vm_compute. reflexivity. Qed.

Section Decimal.
Context {M : Type} `{VirtualMemory M}.
Abbreviation state := (bx_cpu bx_lazyflags_entry M).

Definition decimal_result (z : Z) (carry : bool) (s s' : state) : Prop :=
  only_rax s s' /\ al_of s' = packed (z mod 100) /\
  get_field 8 56 (gen_reg s' 0) = get_field 8 56 (gen_reg s 0) /\ CF (lazy_flags (oszapc s')) = carry.

Lemma only_rax_trans (s1 s2 s3 : state) : only_rax s1 s2 -> only_rax s2 s3 -> only_rax s1 s3.
Proof.
  intros (A1 & A2 & A3) (B1 & B2 & B3). split; [congruence|]. split; [congruence|].
  intros r Hr. rewrite B3, A3 by exact Hr. reflexivity.
Qed.

(** A step to AL, AF and CF followed by an adjustment. *)
Lemma then_adjust (m k : cpu bx_lazyflags_entry M unit) (s : state) f v al af cf z :
  (exists s1, m s = Ok tt s1 /\ binary_step f v s s1) ->
  (forall s1, cpu_ok s1 -> al_of s1 = u8 v -> lazy_flags (oszapc s1) = f ->
     exists s2, k s1 = Ok tt s2 /\ adjusted al af cf s1 s2) ->
  al = packed (z mod 100) ->
  exists s', (m ;;; k)%bochs s = Ok tt s' /\ decimal_result z cf s s'.
Proof.
  intros (s1 & E1 & R1 & O1 & A1 & H1 & F1) Hk Hal.
  destruct (Hk s1 O1 A1 F1) as (s2 & E2 & R2 & O2 & A2 & H2 & F2).
  exists s2. unfold bind. rewrite E1. split; [exact E2|]. split; [exact (only_rax_trans _ _ _ R1 R2)|].
  split; [congruence|]. split; [congruence|]. rewrite F2. reflexivity.
Qed.

(** C34: ADC followed by DAA, and SBB followed by DAS, on packed decimal operands add
    and subtract them in decimal: AL holds the two digits of the result modulo 100,
    CF the decimal carry or borrow, and nothing else but flags changes.  Chained
    through CF they add numbers of any length. *)
Theorem packed_decimal i j (s : state) x y : cpu_ok s -> dst i = 0 ->
  0 <= x < 100 -> 0 <= y < 100 -> al_of s = packed x -> source8 i s = packed y ->
  let c := Z.b2z (CF (lazy_flags (oszapc s))) in
  (exists s', (ADC_GbEbR i ;;; DAA j)%bochs s = Ok tt s' /\ decimal_result (x + y + c) (100 <=? x + y + c) s s') /\
  (exists s', (SBB_GbEbR i ;;; DAS j)%bochs s = Ok tt s' /\ decimal_result (x - y - c) (x <? y + c) s s').
Proof.
  intros Hs Hd Hx Hy Ha Hb c.
  pose proof (all_cases_spec _ x y (CF (lazy_flags (oszapc s))) daa_cases Hx Hy) as P.
  pose proof (all_cases_spec _ x y (CF (lazy_flags (oszapc s))) das_cases Hx Hy) as Q.
  unfold daa_case in P. unfold das_case in Q. cbv zeta in P, Q. fold c in P, Q.
  apply andb_prop in P, Q. destruct P as [P1 P2], Q as [Q1 Q2].
  apply Z.eqb_eq in P1, Q1. apply Bool.eqb_prop in P2, Q2.
  pose proof (ADC_run i s Hs Hd) as R. pose proof (SBB_run i s Hs Hd) as S.
  cbv zeta in R, S. rewrite Ha, Hb in R, S. fold c in R, S. rewrite <- P2, <- Q2. split.
  - eapply then_adjust; [exact R | | exact P1].
    intros s1 O1 A1 F1. pose proof (DAA_run j s1 O1) as D. cbv zeta in D. rewrite A1, F1 in D. exact D.
  - eapply then_adjust; [exact S | | exact Q1].
    intros s1 O1 A1 F1. pose proof (DAS_run j s1 O1) as D. cbv zeta in D. rewrite A1, F1 in D. exact D.
Qed.

End Decimal.

(** 57 + 68 with a carry in: 26, carry. *)
Definition bcd_instr : bxInstruction_c := Instr 0 1 0 3 0 3 19 4 0 0 0.
Definition bcd_state : bx_cpu bx_lazyflags_entry flat :=
  Cpu (fun r => if r =? 0 then 0x1157 else if r =? 3 then 0x68 else 0) (fun _ => 0)
      (LazyFlags 1 0x80000000) (Flat (fun _ => 0) 0).

Lemma bcd_state_ok : cpu_ok bcd_state.
Proof.
  split; [intros r; cbn; destruct (r =? 0); [|destruct (r =? 3)]|]; unfold lf_ok, fits; cbn; lia.
Qed.

Lemma packed_decimal_witness :
  exists s', (ADC_GbEbR bcd_instr ;;; DAA bcd_instr)%bochs bcd_state = Ok tt s' /\
    al_of s' = 0x26 /\ CF (lazy_flags (oszapc s')) = true.
Proof.
  destruct (packed_decimal bcd_instr bcd_instr bcd_state 57 68 bcd_state_ok eq_refl ltac:(lia) ltac:(lia) eq_refl eq_refl)
    as [(s' & E & _ & A & _ & F) _].
  exists s'. split; [exact E|]. split; [exact A | exact F].
Defined.
