(* ===== verification/Tlb.v ===== *)
(** * Translation lookaside buffers (cpu/tlb.h)

    The TLB arrays, and the bit masks with which the code takes table entries
    apart.  The code tests and selects fields of page table entries with literal masks;
    the specification speaks of fields and single bits.  A mask of [n] bits from
    bit [p] on is [Z.shiftl (Z.ones n) p]. *)

From Stdlib Require Import ZArith Lia List Bool.
From S2P Require Import Prelude Cpu.
Open Scope Z_scope.
Import ListNotations.

(** [if (x & mask)] *)
Definition anyb (x mask : Z) : bool := negb (Z.land x mask =? 0).

Lemma get_field_bit p n x i : 0 <= p -> 0 <= n -> 0 <= i ->
  Z.testbit (get_field p n x) i = (i <? n) && Z.testbit x (i + p).
Proof.
  intros. unfold get_field. rewrite wrap_bit by lia. rewrite Z.shiftr_spec by lia. reflexivity.
Qed.

Lemma field_fits p n x : 0 <= n -> fits n (get_field p n x).
Proof. intros. apply wrap_fits. lia. Qed.

Lemma mask_bit p n i : 0 <= p -> 0 <= n -> 0 <= i ->
  Z.testbit (Z.shiftl (Z.ones n) p) i = (p <=? i) && (i <? p + n).
Proof.
  intros. rewrite Z.shiftl_spec by lia.
  destruct (Z.leb_spec p i) as [L|L]; simpl.
  - destruct (Z.ltb_spec i (p + n)).
    + apply Z.ones_spec_low. lia.
    + apply Z.ones_spec_high. lia.
  - apply Z.testbit_neg_r. lia.
Qed.

Lemma land_mask p n x : 0 <= p -> 0 <= n ->
  Z.land x (Z.shiftl (Z.ones n) p) = get_field p n x * 2 ^ p.
Proof.
  intros. apply Z.bits_inj'. intros i Hi. rewrite Z.land_spec, mask_bit by lia.
  destruct (Z.leb_spec p i).
  - rewrite Z.mul_pow2_bits by lia. rewrite get_field_bit by lia.
    replace (i - p + p) with i by lia.
    destruct (Z.ltb_spec i (p + n)), (Z.ltb_spec (i - p) n); try lia;
      cbn [andb]; now rewrite ?andb_true_r, ?andb_false_r.
  - rewrite Z.mul_pow2_bits_low by lia. now rewrite andb_false_r.
Qed.

Lemma anyb_mask p n x : 0 <= p -> 0 <= n ->
  anyb x (Z.shiftl (Z.ones n) p) = negb (get_field p n x =? 0).
Proof.
  intros. unfold anyb. rewrite land_mask by lia. f_equal.
  destruct (Z.eqb_spec (get_field p n x) 0) as [->|E]; [reflexivity|].
  apply Z.eqb_neq. assert (0 < 2 ^ p) by (apply Z.pow_pos_nonneg; lia). nia.
Qed.

Lemma anyb_bit k x : 0 <= k -> anyb x (Z.shiftl 1 k) = Z.testbit x k.
Proof.
  intros. change 1 with (Z.ones 1). rewrite anyb_mask by lia.
  unfold get_field, wrap. rewrite Z.shiftr_div_pow2 by lia. change (2 ^ 1) with 2.
  rewrite <- Z.bit0_mod, Z.div_pow2_bits, Z.add_0_l by lia.
  now destruct (Z.testbit x k).
Qed.

Lemma anyb_lor x a b : anyb x (Z.lor a b) = anyb x a || anyb x b.
Proof.
  unfold anyb. rewrite Z.land_lor_distr_r. rewrite <- negb_andb. f_equal.
  destruct (Z.eqb_spec (Z.land x a) 0) as [->|Ha]; cbn [andb]; [reflexivity|].
  apply Z.eqb_neq. intros E. apply Z.lor_eq_0_iff in E. tauto.
Qed.

(** Fields of an entry to which the accessed and dirty bits were added. *)
Lemma get_field_lor p n x y :
  0 <= p -> 0 <= n -> get_field p n (Z.lor x y) = Z.lor (get_field p n x) (get_field p n y).
Proof.
  intros. apply Z.bits_inj'. intros i Hi. rewrite Z.lor_spec, !get_field_bit, Z.lor_spec by lia.
  now destruct (i <? n).
Qed.

(** ** Translation lookaside buffers (cpu/tlb.h)

    An entry caches the translation of one 4K page frame and the accesses that
    may use it without a page walk.  The direct mapped array is a function from
    slots to entries; [split_large] tells whether an entry can belong to a page
    larger than 4K, so that INVLPG has to look at the whole array. *)

(** ** Page frames *)

Definition LPF_MASK := 0xfffffffffffff000.
Definition PPF_MASK := 0xfffffffffffff000.

Definition PAGE_OFFSET (laddr : Z) : Z := Z.land (u32 laddr) 0xfff.
Definition LPFOf (laddr : Z) : Z := Z.land laddr LPF_MASK.
Definition PPFOf (paddr : Z) : Z := Z.land paddr PPF_MASK.
Definition AlignedAccessLPFOf (laddr alignment_mask : Z) : Z :=
  Z.land laddr (Z.lor LPF_MASK alignment_mask).

Definition BX_INVALID_TLB_ENTRY := 0xffffffffffffffff.

(** ** Access bits *)
Definition TLB_SysReadOK   := 0x01.
Definition TLB_UserReadOK  := 0x02.
Definition TLB_SysWriteOK  := 0x04.
Definition TLB_UserWriteOK := 0x08.
Definition TLB_SysExecuteOK  := 0x01.
Definition TLB_UserExecuteOK := 0x02.
Definition TLB_GlobalPage    := 0x80000000.

(** ** Entries *)
Record bx_TLB_entry := TLBEntry {
  lpf : Z;            (* linear page frame *)
  ppf : Z;            (* physical page frame *)
  hostPageAddr : Z;   (* 0: no direct access *)
  accessBits : Z;
  lpf_mask : Z;       (* linear address mask of the page size *)
}.

#[export] Instance bx_TLB_entry_eta : Eta bx_TLB_entry := fun r =>
  TLBEntry (lpf r) (ppf r) (hostPageAddr r) (accessBits r) (lpf_mask r).

Definition isWriteOK (e : bx_TLB_entry) (user : bool) : bool :=
  negb (Z.land (accessBits e) (Z.shiftl 0x04 (Z.b2z user)) =? 0).
Definition isReadOK (e : bx_TLB_entry) (user : bool) : bool :=
  negb (Z.land (accessBits e) (Z.shiftl 0x01 (Z.b2z user)) =? 0).

Definition valid (e : bx_TLB_entry) : bool := negb (lpf e =? BX_INVALID_TLB_ENTRY).

Definition invalidate (e : bx_TLB_entry) : bx_TLB_entry :=
  e <| lpf := BX_INVALID_TLB_ENTRY |> <| accessBits := 0 |>.

(** ** The array *)
Record TLB := Tlb {
  entry : Z -> bx_TLB_entry;
  split_large : bool;
}.

#[export] Instance TLB_eta : Eta TLB := fun r => Tlb (entry r) (split_large r).

Definition set_entry (t : TLB) (n : Z) (e : bx_TLB_entry) : TLB :=
  t <| entry := fun k => if k =? n then e else entry t k |>.

(** [k] iterations of [for (unsigned n=0; n < size; n++)] from slot [n] on; the
    code's local [lpf_mask] goes through the loop. *)
Fixpoint for_entries (body : bx_TLB_entry -> Z -> bx_TLB_entry * Z)
    (k : nat) (n : Z) (acc : TLB * Z) : TLB * Z :=
  match k with
  | O => acc
  | S k' =>
    let '(t, mask) := acc in
    let '(e, mask') := body (entry t n) mask in
    for_entries body k' (n + 1) (set_entry t n e, mask')
  end.

Section Operations.
Variable size : Z.

Definition get_index_of (laddr len : Z) : Z :=
  let tlb_mask := Z.shiftl (size - 1) 12 in
  Z.shiftr (Z.land (u32 (u32 laddr + len)) tlb_mask) 12.

Definition get_entry_of (t : TLB) (laddr len : Z) : bx_TLB_entry :=
  entry t (get_index_of laddr len).

Definition flush (t : TLB) : TLB :=
  let '(t', _) :=
    for_entries (fun e mask => (invalidate e, mask)) (Z.to_nat size) 0 (t, 0) in
  t' <| split_large := false |>.

Definition flushNonGlobal (t : TLB) : TLB :=
  let '(t', mask) :=
    for_entries (fun tlbEntry mask =>
      if valid tlbEntry then
        if Z.land (accessBits tlbEntry) TLB_GlobalPage =? 0
        then (invalidate tlbEntry, mask)
        else (tlbEntry, Z.lor mask (lpf_mask tlbEntry))
      else (tlbEntry, mask)) (Z.to_nat size) 0 (t, 0) in
  t' <| split_large := 0xfff <? mask |>.

Definition invlpg (laddr : Z) (t : TLB) : TLB :=
  if split_large t then
    let '(t', mask) :=
      for_entries (fun tlbEntry mask =>
        if valid tlbEntry then
          let entry_lpf_mask := lpf_mask tlbEntry in
          if Z.land laddr (Z.lnot entry_lpf_mask) =? Z.land (lpf tlbEntry) (Z.lnot entry_lpf_mask)
          then (invalidate tlbEntry, mask)
          else (tlbEntry, Z.lor mask entry_lpf_mask)
        else (tlbEntry, mask)) (Z.to_nat size) 0 (t, 0) in
    t' <| split_large := 0xfff <? mask |>
  else
    let tlbEntry := get_entry_of t laddr 0 in
    if LPFOf (lpf tlbEntry) =? LPFOf laddr
    then set_entry t (get_index_of laddr 0) (invalidate tlbEntry)
    else t.

End Operations.
