(* ===== verification/Paging.v ===== *)
(** * Address translation (cpu/paging.cc, cpu/crregs.h)

    The page walks of long mode, PAE and legacy 32-bit paging, page faults,
    accessed and dirty bits, and [translate_linear], which looks the data TLB up
    before it walks and fills the entry it is given.  Outside VMX and SVM guests,
    in a build without protection keys, shadow stacks and memory types, as
    config.h has it.

    Physical memory is an interface: what the walks and the accesses use of
    [access_read_physical], [access_write_physical] and [getHostMemAddr]. *)

From Stdlib Require Import ZArith Lia List Bool.
From S2P Require Import Prelude LazyFlags Cpu Tlb.
Import ListNotations.
Open Scope Z_scope.

(** ** Physical memory *)
Class PhysicalMemory (M : Type) := {
  phy_read : Z -> Z -> M -> Z * M;        (* length, address *)
  phy_write : Z -> Z -> Z -> M -> M;      (* length, address, value *)
  phy_host : Z -> Z -> M -> Z;            (* page address, access type: host pointer or 0 *)
}.

(** Page tables live in plain memory, described by [phy_ram]: an entry of [n]
    bytes at an aligned address.  Reading one has no side effect, and a written
    entry changes no other and leaves plain memory plain. *)
Class PhysicalMemoryOk (M : Type) `{PhysicalMemory M} := {
  phy_ram : M -> Z -> Prop;
  phy_read_fits n a m : 0 <= n -> fits (8 * n) (fst (phy_read n a m));
  phy_read_pure n a m : phy_ram m a -> snd (phy_read n a m) = m;
  phy_read_write n a b v m :
    n = 4 \/ n = 8 -> phy_ram m a -> phy_ram m b -> a mod n = 0 -> b mod n = 0 -> fits (8 * n) v ->
    fst (phy_read n a (phy_write n b v m)) = if a =? b then v else fst (phy_read n a m);
  phy_ram_write n a b v m : n = 4 \/ n = 8 -> phy_ram m a -> phy_ram m b -> b mod n = 0 ->
    phy_ram (phy_write n b v m) a;
}.

(** ** Control registers *)
Record cregs := CRegs {
  cr0 : Z;
  cr3 : Z;
  cr4 : Z;
  efer : Z;
  cpu_mode : Z;
  eflags_AC : bool;
  CPL : Z;
  user_pl : bool;              (* USER_PL: CPL == 3 *)
  alignment_check_mask : Z;
  PDPTR_CACHE : Z -> Z;
  a20_mask : Z;
  isa_1G_pages : bool;         (* BX_ISA_1G_PAGES supported *)
  cr4_suppmask : Z;
  efer_suppmask : Z;
}.

#[export] Instance cregs_eta : Eta cregs := fun r =>
  CRegs (cr0 r) (cr3 r) (cr4 r) (efer r) (cpu_mode r) (eflags_AC r) (CPL r) (user_pl r)
    (alignment_check_mask r) (PDPTR_CACHE r) (a20_mask r) (isa_1G_pages r) (cr4_suppmask r)
    (efer_suppmask r).

Definition get_PE (c : cregs) : bool := Z.testbit (cr0 c) 0.
Definition get_WP (c : cregs) : bool := Z.testbit (cr0 c) 16.
Definition get_PG (c : cregs) : bool := Z.testbit (cr0 c) 31.
Definition get_PSE (c : cregs) : bool := Z.testbit (cr4 c) 4.
Definition get_PAE (c : cregs) : bool := Z.testbit (cr4 c) 5.
Definition get_PGE (c : cregs) : bool := Z.testbit (cr4 c) 7.
Definition get_PCIDE (c : cregs) : bool := Z.testbit (cr4 c) 17.
Definition get_SMEP (c : cregs) : bool := Z.testbit (cr4 c) 20.
Definition get_SMAP (c : cregs) : bool := Z.testbit (cr4 c) 21.
Definition get_LME (c : cregs) : bool := Z.testbit (efer c) 8.
Definition get_LMA (c : cregs) : bool := Z.testbit (efer c) 10.
Definition get_NXE (c : cregs) : bool := Z.testbit (efer c) 11.

Definition BX_MODE_LONG_64 := 4.
Definition long_mode (c : cregs) : bool := get_LMA c.
Definition long64_mode (c : cregs) : bool := cpu_mode c =? BX_MODE_LONG_64.
Definition A20ADDR (c : cregs) (x : Z) : Z := Z.land x (a20_mask c).

(** ** State and monad *)
Definition BX_DTLB_SIZE := 2048.
Definition BX_ITLB_SIZE := 1024.

Record mmu (M : Type) := Mmu {
  regs : cregs;
  cr2 : Z;
  DTLB : TLB;
  ITLB : TLB;
  phys : M;
}.
Arguments Mmu {M}.
Arguments regs {M}.
Arguments cr2 {M}.
Arguments DTLB {M}.
Arguments ITLB {M}.
Arguments phys {M}.

#[export] Instance mmu_eta {M} : Eta (mmu M) := fun r =>
  Mmu (regs r) (cr2 r) (DTLB r) (ITLB r) (phys r).

Definition xlat (M A : Type) : Type := mmu M -> outcome (mmu M) A.
Definition xret {M A} (a : A) : xlat M A := fun s => Ok a s.
Definition xbind {M A B} (m : xlat M A) (k : A -> xlat M B) : xlat M B :=
  fun s => match m s with Ok a s' => k a s' | Fault e s' => Fault e s' end.
Definition xraise {M A} (vector error_code : Z) : xlat M A :=
  fun s => Fault (Exn vector error_code) s.
Definition get_regs {M} : xlat M cregs := fun s => Ok (regs s) s.

Notation "x <-- m ;; k" := (xbind m (fun x => k))
  (at level 61, m at next level, right associativity) : bochs_scope.
Notation "m ;; k" := (xbind m (fun _ => k))
  (at level 61, right associativity) : bochs_scope.

(** ** Access types and faults *)
Definition BX_READ := 0.
Definition BX_WRITE := 1.
Definition BX_EXECUTE := 2.
Definition BX_RW := 3.

Definition BX_PF_EXCEPTION := 14.
Definition ERROR_NOT_PRESENT := 0x00.
Definition ERROR_PROTECTION := 0x01.
Definition ERROR_RESERVED := 0x08.
Definition ERROR_CODE_ACCESS := 0x10.

Definition BX_COMBINED_ACCESS_WRITE := 0x2.
Definition BX_COMBINED_ACCESS_USER := 0x4.
Definition BX_COMBINED_GLOBAL_PAGE := 0x100.

Definition BX_MEMTYPE_WB := 6.
Definition TLB_NoHostPtr := 0x800.
Definition TLB_LPFOf (laddr : Z) : Z := AlignedAccessLPFOf laddr 0x7ff.

Definition priv_check : list Z :=
  [1; 1; 1; 1; 1; 1; 1; 1; 0; 0; 0; 0; 1; 0; 1; 1;
   1; 0; 1; 1; 1; 0; 1; 1; 0; 0; 0; 0; 1; 0; 1; 1].

(** BX_PHY_ADDRESS_WIDTH is 40. *)
Definition BX_PHY_ADDRESS_RESERVED_BITS := 0xffffff0000000000.
Definition BX_PAGING_PHY_ADDRESS_RESERVED_BITS :=
  Z.land BX_PHY_ADDRESS_RESERVED_BITS 0xfffffffffffff.
Definition PAGE_DIRECTORY_NX_BIT := 0x8000000000000000.
Definition BX_CR3_PAGING_MASK := 0x000ffffffffff000.
Definition PAGING_PAE_RESERVED_BITS := BX_PAGING_PHY_ADDRESS_RESERVED_BITS.
Definition PAGING_LEGACY_PAE_RESERVED_BITS :=
  Z.lor BX_PAGING_PHY_ADDRESS_RESERVED_BITS 0x7ff0000000000000.
Definition PAGING_PAE_PDE2M_RESERVED_BITS :=
  Z.lor BX_PAGING_PHY_ADDRESS_RESERVED_BITS 0x001FE000.
Definition PAGING_PAE_PDPTE_RESERVED_BITS :=
  Z.lor BX_PAGING_PHY_ADDRESS_RESERVED_BITS 0xFFF00000000001E6.
Definition PAGING_PDE4M_RESERVED_BITS :=
  Z.shiftl (Z.shiftl 1 (41 - 40) - 1) (13 + 40 - 32).

Definition BX_LEVEL_PML4 := 3.
Definition BX_LEVEL_PDPTE := 2.
Definition BX_LEVEL_PDE := 1.
Definition BX_LEVEL_PTE := 0.


Definition page_fault {M A} (fault laddr : Z) (user : bool) (rw : Z) : xlat M A := fun s =>
  let isWrite := Z.land rw 1 in
  let error_code :=
    Z.lor (Z.lor fault (Z.shiftl (Z.b2z user) 2)) (Z.shiftl isWrite 1) in
  let error_code :=
    if rw =? BX_EXECUTE then
      let error_code := if get_SMEP (regs s) then Z.lor error_code ERROR_CODE_ACCESS
                        else error_code in
      if get_PAE (regs s) && get_NXE (regs s) then Z.lor error_code ERROR_CODE_ACCESS
      else error_code
    else error_code in
  Fault (Exn BX_PF_EXCEPTION error_code) (s <| cr2 := laddr |>).

(** The fault code, or -1, and the updated [*nx_fault]. *)
Definition check_entry_PAE (entry reserved rw : Z) (nx_fault : bool) : Z * bool :=
  if negb (anyb entry 0x1) then (ERROR_NOT_PRESENT, nx_fault)
  else if anyb entry reserved then (Z.lor ERROR_RESERVED ERROR_PROTECTION, nx_fault)
  else (-1, if anyb entry PAGE_DIRECTORY_NX_BIT && (rw =? BX_EXECUTE) then true else nx_fault).

Section Walks.
Context {M : Type} `{PhysicalMemory M}.
Abbreviation xlat := (xlat M).

Definition access_read_physical (paddr len : Z) : xlat Z := fun s =>
  let '(v, m) := phy_read len paddr (phys s) in Ok v (s <| phys := m |>).
Definition access_write_physical (paddr len val : Z) : xlat unit := fun s =>
  Ok tt (s <| phys := phy_write len paddr val (phys s) |>).

(** The locals of a walk when its loop ends. *)
Record walk_end := WalkEnd {
  we_leaf : Z;
  we_ppf : Z;
  we_lpf_mask : Z;
  we_combined : Z;
  we_nx_fault : bool;
  we_entry_addr : Z -> Z;
  we_entry : Z -> Z;
}.

(** ** Long mode *)

(** The loop [for (leaf = BX_LEVEL_PML4;; --leaf)]. *)
Fixpoint long_mode_loop (laddr : Z) (user : bool) (rw reserved : Z) (level : nat)
    (ppf offset_mask combined_access : Z) (nx_fault : bool) (entry_addr entry : Z -> Z)
    : xlat walk_end :=
  let leaf := Z.of_nat level in
  let entry_addr := upd entry_addr leaf (ppf + Z.land (Z.shiftr laddr (9 + 9 * leaf)) 0xff8) in
  curr_entry <-- access_read_physical (entry_addr leaf) 8 ;;
  let entry := upd entry leaf curr_entry in
  let offset_mask := Z.shiftr offset_mask 9 in
  let '(fault, nx_fault) := check_entry_PAE curr_entry reserved rw nx_fault in
  if 0 <=? fault then page_fault fault laddr user rw
  else
    let ppf := Z.land curr_entry 0x000ffffffffff000 in
    match level with
    | O => xret (WalkEnd leaf ppf 0xfff combined_access nx_fault entry_addr entry)
    | S level' =>
      if anyb curr_entry 0x80 then
        c <-- get_regs ;;
        if BX_LEVEL_PDE + Z.b2z (isa_1G_pages c) <? leaf
        then page_fault (Z.lor ERROR_RESERVED ERROR_PROTECTION) laddr user rw
        else
          let ppf := Z.land ppf 0x000fffffffffe000 in
          if anyb ppf offset_mask
          then page_fault (Z.lor ERROR_RESERVED ERROR_PROTECTION) laddr user rw
          else xret (WalkEnd leaf ppf (u32 offset_mask) combined_access nx_fault entry_addr entry)
      else
        long_mode_loop laddr user rw reserved level' ppf offset_mask
          (Z.land combined_access curr_entry) nx_fault entry_addr entry
    end.

(** The permission checks after the loop and the G bit; [nx_fault] is not among
    the locals of the legacy walk, where it is false here. *)
Definition check_access (laddr : Z) (user : bool) (rw : Z) (w : walk_end) : xlat Z :=
  let isWrite := Z.land rw 1 in
  let leaf_entry := we_entry w (we_leaf w) in
  let combined_access := Z.land (we_combined w) leaf_entry in
  c <-- get_regs ;;
  let priv_index :=
    Z.lor (Z.lor (Z.shiftl (Z.b2z (get_WP c)) 4) (Z.shiftl (Z.b2z user) 3))
          (Z.lor combined_access isWrite) in
  if (nth (Z.to_nat priv_index) priv_check 0 =? 0) || we_nx_fault w
  then page_fault ERROR_PROTECTION laddr user rw
  else if (get_SMEP c && (rw =? BX_EXECUTE) && negb user)
          && anyb combined_access BX_COMBINED_ACCESS_USER
  then page_fault ERROR_PROTECTION laddr user rw
  else if (get_SMAP c && negb (eflags_AC c) && negb (rw =? BX_EXECUTE) && negb user)
          && anyb combined_access BX_COMBINED_ACCESS_USER
  then page_fault ERROR_PROTECTION laddr user rw
  else xret (if get_PGE c
             then Z.lor combined_access (Z.land leaf_entry BX_COMBINED_GLOBAL_PAGE)
             else combined_access).

(** The first loop of [update_access_dirty_PAE]: [n] levels above [leaf], from
    the highest down. *)
Fixpoint update_accessed (entry_addr entry : Z -> Z) (leaf : Z) (n : nat) : xlat unit :=
  match n with
  | O => xret tt
  | S n' =>
    let level := leaf + Z.of_nat n in
    (if negb (anyb (entry level) 0x20)
     then access_write_physical (entry_addr level) 8 (Z.lor (entry level) 0x20)
     else xret tt) ;;
    update_accessed entry_addr entry leaf n'
  end.

Definition update_access_dirty_PAE (entry_addr entry : Z -> Z) (max_level leaf write : Z)
    : xlat unit :=
  update_accessed entry_addr entry leaf (Z.to_nat (max_level - leaf)) ;;
  if negb (anyb (entry leaf) 0x20) || (negb (write =? 0) && negb (anyb (entry leaf) 0x40))
  then access_write_physical (entry_addr leaf) 8
         (Z.lor (entry leaf) (Z.lor 0x20 (Z.shiftl write 6)))
  else xret tt.

(** The translated frame with the combined access bits, and [lpf_mask]. *)
Definition translate_linear_long_mode (laddr : Z) (user : bool) (rw : Z) : xlat (Z * Z) :=
  c <-- get_regs ;;
  let ppf := Z.land (cr3 c) BX_CR3_PAGING_MASK in
  let reserved := if negb (get_NXE c)
                  then Z.lor PAGING_PAE_RESERVED_BITS PAGE_DIRECTORY_NX_BIT
                  else PAGING_PAE_RESERVED_BITS in
  w <-- long_mode_loop laddr user rw reserved (Z.to_nat BX_LEVEL_PML4) ppf 0x0000ffffffffffff
          (Z.lor BX_COMBINED_ACCESS_WRITE BX_COMBINED_ACCESS_USER) false
          (fun _ => 0) (fun _ => 0) ;;
  combined_access <-- check_access laddr user rw w ;;
  update_access_dirty_PAE (we_entry_addr w) (we_entry w) BX_LEVEL_PML4 (we_leaf w)
    (Z.land rw 1) ;;
  xret (Z.lor (we_ppf w) combined_access, we_lpf_mask w).

(** ** PAE *)

(** [for (n=0; n<4; n++)] of [CheckPDPTR]: [None] for [return 0]. *)
Fixpoint check_pdptrs (cr3_val : Z) (k : nat) (n : Z) (pdptr : Z -> Z) : xlat (option (Z -> Z)) :=
  match k with
  | O => xret (Some pdptr)
  | S k' =>
    pdpte <-- access_read_physical (Z.lor cr3_val (Z.shiftl n 3)) 8 ;;
    if anyb pdpte 0x1 && anyb pdpte PAGING_PAE_PDPTE_RESERVED_BITS then xret None
    else check_pdptrs cr3_val k' (n + 1) (upd pdptr n pdpte)
  end.

Definition set_regs (f : cregs -> cregs) : xlat unit := fun s =>
  Ok tt (s <| regs := f (regs s) |>).

Definition CheckPDPTR (cr3_val : Z) : xlat bool :=
  let cr3_val := Z.land cr3_val 0xffffffe0 in
  pdptr <-- check_pdptrs cr3_val 4 0 (fun _ => 0) ;;
  match pdptr with
  | None => xret false
  | Some pdptr =>
    set_regs (fun c => c <| PDPTR_CACHE := fun n =>
      if (0 <=? n) && (n <? 4) then pdptr n else PDPTR_CACHE c n |>) ;;
    xret true
  end.

Definition translate_linear_load_PDPTR (laddr : Z) (user : bool) (rw : Z) : xlat Z :=
  c <-- get_regs ;;
  let pdptr := PDPTR_CACHE c (Z.land (Z.shiftr laddr 30) 0x3) in
  if negb (anyb pdptr 0x1) then page_fault ERROR_NOT_PRESENT laddr user rw
  else xret pdptr.

(** The loop [for (leaf = BX_LEVEL_PDE;; --leaf)]. *)
Fixpoint PAE_loop (laddr : Z) (user : bool) (rw reserved : Z) (level : nat)
    (ppf combined_access : Z) (nx_fault : bool) (entry_addr entry : Z -> Z) : xlat walk_end :=
  let leaf := Z.of_nat level in
  let entry_addr := upd entry_addr leaf (ppf + Z.land (Z.shiftr laddr (9 + 9 * leaf)) 0xff8) in
  curr_entry <-- access_read_physical (entry_addr leaf) 8 ;;
  let entry := upd entry leaf curr_entry in
  let '(fault, nx_fault) := check_entry_PAE curr_entry reserved rw nx_fault in
  if 0 <=? fault then page_fault fault laddr user rw
  else
    let ppf := Z.land curr_entry 0x000ffffffffff000 in
    match level with
    | O => xret (WalkEnd leaf ppf 0xfff combined_access nx_fault entry_addr entry)
    | S level' =>
      if anyb curr_entry 0x80 then
        if anyb curr_entry PAGING_PAE_PDE2M_RESERVED_BITS
        then page_fault (Z.lor ERROR_RESERVED ERROR_PROTECTION) laddr user rw
        else xret (WalkEnd leaf (Z.land curr_entry 0x000fffffffe00000) 0x1fffff
                     combined_access nx_fault entry_addr entry)
      else
        PAE_loop laddr user rw reserved level' ppf (Z.land combined_access curr_entry)
          nx_fault entry_addr entry
    end.

Definition translate_linear_PAE (laddr : Z) (user : bool) (rw : Z) : xlat (Z * Z) :=
  c <-- get_regs ;;
  let reserved := if negb (get_NXE c)
                  then Z.lor PAGING_LEGACY_PAE_RESERVED_BITS PAGE_DIRECTORY_NX_BIT
                  else PAGING_LEGACY_PAE_RESERVED_BITS in
  pdpte <-- translate_linear_load_PDPTR laddr user rw ;;
  let ppf := Z.land pdpte 0x000ffffffffff000 in
  w <-- PAE_loop laddr user rw reserved (Z.to_nat BX_LEVEL_PDE) ppf
          (Z.lor BX_COMBINED_ACCESS_WRITE BX_COMBINED_ACCESS_USER) false
          (fun _ => 0) (fun _ => 0) ;;
  combined_access <-- check_access laddr user rw w ;;
  update_access_dirty_PAE (we_entry_addr w) (we_entry w) BX_LEVEL_PDE (we_leaf w)
    (Z.land rw 1) ;;
  xret (Z.lor (we_ppf w) combined_access, we_lpf_mask w).

(** ** Legacy paging: 32-bit entries *)

Fixpoint legacy_loop (laddr : Z) (user : bool) (rw : Z) (level : nat)
    (ppf combined_access : Z) (entry_addr entry : Z -> Z) : xlat walk_end :=
  let leaf := Z.of_nat level in
  let entry_addr := upd entry_addr leaf (ppf + Z.land (Z.shiftr laddr (10 + 10 * leaf)) 0xffc) in
  curr_entry <-- access_read_physical (entry_addr leaf) 4 ;;
  let entry := upd entry leaf curr_entry in
  if negb (anyb curr_entry 0x1) then page_fault ERROR_NOT_PRESENT laddr user rw
  else
    let ppf := Z.land curr_entry 0xfffff000 in
    match level with
    | O => xret (WalkEnd leaf ppf 0xfff combined_access false entry_addr entry)
    | S level' =>
      c <-- get_regs ;;
      if anyb curr_entry 0x80 && get_PSE c then
        if anyb curr_entry PAGING_PDE4M_RESERVED_BITS
        then page_fault (Z.lor ERROR_RESERVED ERROR_PROTECTION) laddr user rw
        else
          let ppf := Z.lor (Z.land curr_entry 0xffc00000)
                           (Z.shiftl (Z.land curr_entry 0x003fe000) 19) in
          xret (WalkEnd leaf ppf 0x3fffff combined_access false entry_addr entry)
      else
        legacy_loop laddr user rw level' ppf (Z.land combined_access curr_entry) entry_addr entry
    end.

Definition update_access_dirty (entry_addr entry : Z -> Z) (leaf write : Z) : xlat unit :=
  (if leaf =? BX_LEVEL_PTE then
     if negb (anyb (entry BX_LEVEL_PDE) 0x20)
     then access_write_physical (entry_addr BX_LEVEL_PDE) 4 (Z.lor (entry BX_LEVEL_PDE) 0x20)
     else xret tt
   else xret tt) ;;
  if negb (anyb (entry leaf) 0x20) || (negb (write =? 0) && negb (anyb (entry leaf) 0x40))
  then access_write_physical (entry_addr leaf) 4
         (Z.lor (entry leaf) (Z.lor 0x20 (Z.shiftl write 6)))
  else xret tt.

Definition translate_linear_legacy (laddr : Z) (user : bool) (rw : Z) : xlat (Z * Z) :=
  c <-- get_regs ;;
  let ppf := Z.land (u32 (cr3 c)) BX_CR3_PAGING_MASK in
  w <-- legacy_loop laddr user rw (Z.to_nat BX_LEVEL_PDE) ppf
          (Z.lor BX_COMBINED_ACCESS_WRITE BX_COMBINED_ACCESS_USER)
          (fun _ => 0) (fun _ => 0) ;;
  combined_access <-- check_access laddr user rw w ;;
  update_access_dirty (we_entry_addr w) (we_entry w) (we_leaf w) (Z.land rw 1) ;;
  xret (Z.lor (we_ppf w) combined_access, we_lpf_mask w).

(** ** [translate_linear] *)

(** [tlbEntry] points to a slot of one of the two arrays. *)
Inductive tlb_slot := DSlot (n : Z) | ISlot (n : Z).

Definition read_slot (p : tlb_slot) : xlat bx_TLB_entry := fun s =>
  Ok (match p with DSlot n => entry (DTLB s) n | ISlot n => entry (ITLB s) n end) s.
Definition write_slot (p : tlb_slot) (e : bx_TLB_entry) : xlat unit := fun s =>
  Ok tt (match p with
         | DSlot n => s <| DTLB := set_entry (DTLB s) n e |>
         | ISlot n => s <| ITLB := set_entry (ITLB s) n e |>
         end).

Definition set_split_large_if (large isExecute : bool) : xlat unit := fun s =>
  Ok tt (if negb large then s
         else if isExecute then s <| ITLB := (ITLB s) <| split_large := true |> |>
         else s <| DTLB := (DTLB s) <| split_large := true |> |>).

Definition getHostMemAddr (paddr rw : Z) : xlat Z := fun s =>
  Ok (phy_host paddr rw (phys s)) s.

(** The address is found in the page tables: the physical address, the combined
    access bits and the page size mask, before the A20 line. *)
Definition page_walk (laddr : Z) (user : bool) (rw : Z) : xlat (Z * Z * Z) :=
  c <-- get_regs ;;
  if get_PG c then
    r <-- (if long_mode c then translate_linear_long_mode laddr user rw
           else if get_PAE c then translate_linear_PAE laddr user rw
           else translate_linear_legacy laddr user rw) ;;
    let '(paddress, lpf_mask) := r in
    let combined_access := Z.land paddress lpf_mask in
    let paddress := Z.lor (Z.land paddress (Z.lnot lpf_mask)) (Z.land laddr lpf_mask) in
    set_split_large_if (0xfff <? lpf_mask) (rw =? BX_EXECUTE) ;;
    xret (paddress, combined_access, lpf_mask)
  else
    xret (laddr, Z.lor (Z.lor BX_COMBINED_ACCESS_WRITE BX_COMBINED_ACCESS_USER)
                       (Z.shiftl BX_MEMTYPE_WB 9), 0xfff).

(** The access bits of a filled entry. *)
Definition fill_access_bits (c : cregs) (user : bool) (rw combined_access : Z) : Z :=
  let isWrite := Z.land rw 1 in
  let isExecute := rw =? BX_EXECUTE in
  let bits :=
    if isExecute then TLB_SysExecuteOK
    else if negb (isWrite =? 0) then Z.lor TLB_SysReadOK TLB_SysWriteOK
    else TLB_SysReadOK in
  let bits :=
    if negb (get_PG c) then
      if isExecute then Z.lor bits TLB_UserExecuteOK
      else Z.lor bits (Z.lor TLB_UserReadOK TLB_UserWriteOK)
    else if anyb combined_access BX_COMBINED_ACCESS_USER then
      let bits :=
        if user then
          if isExecute then Z.lor bits TLB_UserExecuteOK
          else
            let bits := Z.lor bits TLB_UserReadOK in
            if negb (isWrite =? 0) then Z.lor bits TLB_UserWriteOK else bits
        else bits in
      if isExecute then
        if get_SMEP c then Z.land bits (Z.lnot TLB_SysExecuteOK) else bits
      else if get_SMAP c then Z.land bits (Z.lnot (Z.lor TLB_SysReadOK TLB_SysWriteOK))
      else bits
    else bits in
  if anyb combined_access BX_COMBINED_GLOBAL_PAGE then Z.lor bits TLB_GlobalPage else bits.

(** The code after the lookup. *)
Definition translate_linear_miss (p : tlb_slot) (laddr : Z) (user : bool) (rw : Z) : xlat Z :=
  let lpf' := LPFOf laddr in
  r <-- page_walk laddr user rw ;;
  let '(paddress, combined_access, lpf_mask) := r in
  c <-- get_regs ;;
  let paddress := A20ADDR c paddress in
  let ppf := PPFOf paddress in
  hostPageAddr <-- getHostMemAddr ppf rw ;;
  write_slot p (TLBEntry
    (if negb (hostPageAddr =? 0) then lpf' else Z.lor lpf' TLB_NoHostPtr)
    ppf hostPageAddr (fill_access_bits c user rw combined_access) lpf_mask) ;;
  xret paddress.

Definition translate_linear (p : tlb_slot) (laddr : Z) (user : bool) (rw : Z) : xlat Z :=
  c <-- get_regs ;;
  let laddr := if negb (long_mode c) then Z.land laddr 0xffffffff else laddr in
  let poffset := PAGE_OFFSET laddr in
  let isWrite := Z.land rw 1 in
  let isExecute := rw =? BX_EXECUTE in
  let isShadowStack := Z.land rw 4 in
  tlbEntry <-- read_slot p ;;
  if negb isExecute && (TLB_LPFOf (lpf tlbEntry) =? LPFOf laddr) then
    if anyb (accessBits tlbEntry)
         (Z.shiftl 1 (Z.lor (Z.lor isShadowStack (Z.shiftl isWrite 1)) (Z.b2z user)))
    then xret (Z.lor (ppf tlbEntry) poffset)
    else write_slot p (invalidate tlbEntry) ;; translate_linear_miss p laddr user rw
  else translate_linear_miss p laddr user rw.

(** ** Flushing *)
Definition TLB_flush : xlat unit := fun s =>
  Ok tt (s <| DTLB := flush BX_DTLB_SIZE (DTLB s) |> <| ITLB := flush BX_ITLB_SIZE (ITLB s) |>).
Definition TLB_flushNonGlobal : xlat unit := fun s =>
  Ok tt (s <| DTLB := flushNonGlobal BX_DTLB_SIZE (DTLB s) |>
           <| ITLB := flushNonGlobal BX_ITLB_SIZE (ITLB s) |>).
Definition TLB_invlpg (laddr : Z) : xlat unit := fun s =>
  Ok tt (s <| DTLB := invlpg BX_DTLB_SIZE laddr (DTLB s) |>
           <| ITLB := invlpg BX_ITLB_SIZE laddr (ITLB s) |>).

End Walks.
