(* ===== verification/PagingSpec.v ===== *)
(** * Reference semantics of paging

    The architecture's page walk as a function of the entries in memory: the
    path through the tables, the rights every entry of the path agrees on, the
    access rule in terms of those rights, and the accessed and dirty bits to
    set.  [page_walk_refines] (TlbTrace) shows that the three walks of
    cpu/paging.cc compute it. *)

From Stdlib Require Import ZArith Lia List Bool.
From S2P Require Import Prelude LazyFlags Cpu Tlb Paging.
Import ListNotations.
Open Scope Z_scope.

(** ** Table formats *)
Inductive paging_mode := Long | PAE | Legacy.

Definition mode_of (c : cregs) : paging_mode :=
  if long_mode c then Long else if get_PAE c then PAE else Legacy.

Definition entry_size (mode : paging_mode) : Z := match mode with Legacy => 4 | _ => 8 end.
Definition index_bits (mode : paging_mode) : Z := match mode with Legacy => 10 | _ => 9 end.

(** The lowest address bit each level translates, from the root down. *)
Definition level_shifts (mode : paging_mode) : list Z :=
  match mode with Long => [39; 30; 21; 12] | PAE => [21; 12] | Legacy => [22; 12] end.

Definition entry_address (mode : paging_mode) (table shift la : Z) : Z :=
  table + get_field shift (index_bits mode) la * entry_size mode.

(** The root table, unless the PDPTE is not present. *)
Definition root_table (c : cregs) (la : Z) : option Z :=
  match mode_of c with
  | Long => Some (get_field 12 40 (cr3 c) * 2 ^ 12)
  | PAE =>
    let pdpte := PDPTR_CACHE c (get_field 30 2 la) in
    if Z.testbit pdpte 0 then Some (get_field 12 40 pdpte * 2 ^ 12) else None
  | Legacy => Some (get_field 12 20 (cr3 c) * 2 ^ 12)
  end.

Inductive decoded :=
| NotPresent
| Reserved
| Table (next : Z)
| Page (frame shift : Z).

Definition nonzero (x : Z) : bool := negb (x =? 0).

(** Pages of 2M, and of 1G where the processor has them. *)
Definition large_page_level (c : cregs) (shift : Z) : bool :=
  (shift =? 21) || ((shift =? 30) && isa_1G_pages c).

Definition decode (c : cregs) (mode : paging_mode) (shift e : Z) : decoded :=
  if negb (Z.testbit e 0) then NotPresent
  else match mode with
  | Legacy =>
    if shift =? 12 then Page (get_field 12 20 e * 2 ^ 12) 12
    else if Z.testbit e 7 && get_PSE c then
      if Z.testbit e 21 then Reserved
      else Page (get_field 13 8 e * 2 ^ 32 + get_field 22 10 e * 2 ^ 22) 22
    else Table (get_field 12 20 e * 2 ^ 12)
  | _ =>
    if nonzero (get_field 40 12 e)
       || match mode with PAE => nonzero (get_field 52 11 e) | _ => false end
       || (negb (get_NXE c) && Z.testbit e 63)
    then Reserved
    else if shift =? 12 then Page (get_field 12 40 e * 2 ^ 12) 12
    else if Z.testbit e 7 then
      if negb (large_page_level c shift) || nonzero (get_field 13 (shift - 13) e)
      then Reserved
      else Page (get_field shift (52 - shift) e * 2 ^ shift) shift
    else Table (get_field 12 40 e * 2 ^ 12)
  end.

(** ** The walk *)

(** A path lists the entries used, with their addresses. *)
Fixpoint ref_walk (c : cregs) (mode : paging_mode) (mem : Z -> Z) (shifts : list Z)
    (table la : Z) : list (Z * Z) * (Z + Z * Z) :=
  match shifts with
  | [] => ([], inl ERROR_NOT_PRESENT)
  | shift :: shifts' =>
    let a := entry_address mode table shift la in
    let e := mem a in
    match decode c mode shift e with
    | NotPresent => ([(a, e)], inl ERROR_NOT_PRESENT)
    | Reserved => ([(a, e)], inl (Z.lor ERROR_RESERVED ERROR_PROTECTION))
    | Page frame size => ([(a, e)], inr (frame, size))
    | Table next =>
      let '(path, r) := ref_walk c mode mem shifts' next la in ((a, e) :: path, r)
    end
  end.

(** A right is granted when every entry of the path grants it. *)
Definition all_entries (f : Z -> bool) (path : list (Z * Z)) : bool :=
  forallb (fun p => f (snd p)) path.
Definition path_writable := all_entries (fun e => Z.testbit e 1).
Definition path_user := all_entries (fun e => Z.testbit e 2).
Definition path_executable := all_entries (fun e => negb (Z.testbit e 63)).
Definition path_global (path : list (Z * Z)) : bool := Z.testbit (snd (last path (0, 0))) 8.

(** [ac] is EFLAGS.AC. *)
Definition access_ok (c : cregs) (ac user : bool) (rw : Z) (W U X : bool) : bool :=
  implb user U
  && implb (Z.testbit rw 0) (W || (negb user && negb (get_WP c)))
  && implb (rw =? BX_EXECUTE) X
  && negb ((rw =? BX_EXECUTE) && negb user && get_SMEP c && U)
  && negb (negb (rw =? BX_EXECUTE) && negb user && get_SMAP c && negb ac && U).

(** The accessed bit is set in every entry of the path, the dirty bit in the
    last one of a write; an entry that has its bits is not written. *)
Fixpoint ad_writes (path : list (Z * Z)) (write : bool) : list (Z * Z) :=
  match path with
  | [] => []
  | [(a, e)] =>
    if negb (Z.testbit e 5) || (write && negb (Z.testbit e 6))
    then [(a, Z.lor e (if write then 0x60 else 0x20))] else []
  | (a, e) :: path' =>
    (if negb (Z.testbit e 5) then [(a, Z.lor e 0x20)] else []) ++ ad_writes path' write
  end.

Definition combined_of (W U G : bool) : Z :=
  Z.lor (Z.lor (Z.shiftl (Z.b2z W) 1) (Z.shiftl (Z.b2z U) 2)) (Z.shiftl (Z.b2z G) 8).

Definition walk_path (c : cregs) (mem : Z -> Z) (la : Z) : list (Z * Z) * (Z + Z * Z) :=
  match root_table c la with
  | None => ([], inl ERROR_NOT_PRESENT)
  | Some table => ref_walk c (mode_of c) mem (level_shifts (mode_of c)) table la
  end.

(** The fault code, or the physical address, the rights and the page mask; and
    the entries to write. *)
Definition ref_page_walk (c : cregs) (mem : Z -> Z) (la : Z) (ac user : bool) (rw : Z)
    : (Z + Z * Z * Z) * list (Z * Z) :=
  if negb (get_PG c) then (inr (la, 0xc06, 0xfff), [])
  else
    let '(path, r) := walk_path c mem la in
    match r with
    | inl code => (inl code, [])
    | inr (frame, size) =>
      let W := path_writable path in
      let U := path_user path in
      if access_ok c ac user rw W U (path_executable path)
      then (inr (frame + la mod 2 ^ size, combined_of W U (get_PGE c && path_global path),
                 2 ^ size - 1),
            ad_writes path (Z.testbit rw 0))
      else (inl ERROR_PROTECTION, [])
    end.

(** ** Physical memory as the walks see it *)
Section Memory.
Context {M : Type} `{PhysicalMemory M}.

Definition entry_reader (c : cregs) (m : M) (a : Z) : Z :=
  fst (phy_read (entry_size (mode_of c)) a m).

Definition apply_writes (size : Z) (writes : list (Z * Z)) (m : M) : M :=
  fold_left (fun m w => phy_write size (fst w) (snd w) m) writes m.

(** Every walk stays in plain memory. *)
Definition tables_in_ram `{!PhysicalMemoryOk M} (c : cregs) (m : M) : Prop :=
  forall la, Forall (fun p => phy_ram m (fst p)) (fst (walk_path c (entry_reader c m) la)).

(** What [page_walk] does, in these terms. *)
Definition spec_page_walk (la : Z) (user : bool) (rw : Z) : xlat M (Z * Z * Z) := fun s =>
  let c := regs s in
  match ref_page_walk c (entry_reader c (phys s)) la (eflags_AC c) user rw with
  | (inl code, _) => page_fault code la user rw s
  | (inr (paddress, combined, mask), writes) =>
    (set_split_large_if (0xfff <? mask) (rw =? BX_EXECUTE) ;;
     xret (paddress, combined, mask))
      (s <| phys := apply_writes (entry_size (mode_of c)) writes (phys s) |>)
  end.

End Memory.

(** ** Flat physical memory

    A byte memory where every address is plain RAM: the physical memory
    interface of the page walks can be implemented, and concrete page tables can
    be walked. *)

Record ram := Ram { ram_bytes : Z -> Z }.

Definition ram_read (n a : Z) (m : ram) : Z * ram := (flat_load (Z.to_nat n) (ram_bytes m) a, m).
Definition ram_write (n a v : Z) (m : ram) : ram :=
  Ram (flat_store (Z.to_nat n) a v (ram_bytes m)).

(** The host keeps the memory at a fixed place. *)
Definition ram_host (a _rw : Z) (_ : ram) : Z := a + 2 ^ 48.

#[export] Instance ram_memory : PhysicalMemory ram := {|
  phy_read := ram_read;
  phy_write := ram_write;
  phy_host := ram_host;
|}.

Lemma flat_store_below n b : forall a v x, x < a -> flat_store n a v b x = b x.
Proof.
  revert b. induction n as [|n IH]; intros b a v x Hx; [reflexivity|]. cbn [flat_store].
  rewrite IH by lia. apply upd_neq. lia.
Qed.

Lemma flat_store_above n b : forall a v x, a + Z.of_nat n <= x -> flat_store n a v b x = b x.
Proof.
  revert b. induction n as [|n IH]; intros b a v x Hx; [reflexivity|]. cbn [flat_store].
  rewrite IH by lia. apply upd_neq. lia.
Qed.

Lemma flat_load_ext n b b' : forall a, (forall x, a <= x < a + Z.of_nat n -> b x = b' x) ->
  flat_load n b a = flat_load n b' a.
Proof.
  induction n as [|n IH]; intros a E; [reflexivity|]. cbn [flat_load].
  rewrite (E a) by lia. rewrite IH; [reflexivity|]. intros x Hx. apply E. lia.
Qed.

Lemma flat_load_store n : forall b a v, fits (8 * Z.of_nat n) v ->
  flat_load n (flat_store n a v b) a = v.
Proof.
  induction n as [|n IH]; intros b a v Hv.
  - unfold fits in Hv. cbn in *. lia.
  - cbn [flat_load flat_store].
    rewrite flat_store_below, upd_eq, wrap_wrap by lia.
    unfold fits in Hv. replace (8 * Z.of_nat (S n)) with (8 + 8 * Z.of_nat n) in Hv by lia.
    rewrite Z.pow_add_r in Hv by lia. change (2 ^ 8) with 256 in Hv.
    rewrite IH.
    + unfold wrap. change (2 ^ 8) with 256. pose proof (Z.div_mod v 256). lia.
    + unfold fits. split; [apply Z.div_pos; lia|]. apply Z.div_lt_upper_bound; lia.
Qed.

#[export] Instance ram_memory_ok : PhysicalMemoryOk ram.
Proof.
  refine {| phy_ram := fun _ _ => True |}.
  - intros n a m Hn. cbn [phy_read ram_memory ram_read fst].
    pose proof (flat_load_fits (Z.to_nat n) (ram_bytes m) a) as F. now rewrite Z2Nat.id in F.
  - reflexivity.
  - intros n a b v m Hn _ _ Ha Hb Hv. cbn [phy_read phy_write ram_memory ram_read ram_write fst ram_bytes].
    destruct (Z.eqb_spec a b) as [->|N].
    + apply flat_load_store. rewrite Z2Nat.id by lia. assumption.
    + apply flat_load_ext. intros x Hx. rewrite Z2Nat.id in Hx by lia.
      apply Z.mod_divide in Ha, Hb; try lia. destruct Ha as [p ->], Hb as [q ->].
      destruct (Z.lt_ge_cases p q).
      * apply flat_store_below. assert (p * n + n <= q * n) by nia. lia.
      * apply flat_store_above. rewrite Z2Nat.id by lia.
        assert (q * n + n <= p * n) by (destruct (Z.eq_dec p q); [subst; lia|nia]). lia.
  - auto.
Defined.
