(* ===== verification/PagingRefine.v ===== *)
(** * The page walks compute the reference walk *)

From Stdlib Require Import ZArith Lia List Bool.
From S2P Require Import Prelude LazyFlags Cpu Tlb Paging PagingSpec.
Import ListNotations.
Open Scope Z_scope.

(** ** Entries *)

Lemma shiftr_field p n x : 0 <= p - 3 -> 0 <= n ->
  Z.land (Z.shiftr x (p - 3)) (Z.shiftl (Z.ones n) 3) = get_field p n x * 8.
Proof.
  intros. rewrite land_mask by lia. change (2 ^ 3) with 8. f_equal.
  unfold get_field. f_equal. rewrite Z.shiftr_shiftr by lia. f_equal. lia.
Qed.

Lemma shiftr_field4 p n x : 0 <= p - 2 -> 0 <= n ->
  Z.land (Z.shiftr x (p - 2)) (Z.shiftl (Z.ones n) 2) = get_field p n x * 4.
Proof.
  intros. rewrite land_mask by lia. change (2 ^ 2) with 4. f_equal.
  unfold get_field. f_equal. rewrite Z.shiftr_shiftr by lia. f_equal. lia.
Qed.

Lemma field_split p n m x : 0 <= p -> 0 <= n -> 0 <= m ->
  get_field p (n + m) x = get_field p n x + 2 ^ n * get_field (p + n) m x.
Proof.
  intros. rewrite (Z.add_comm (get_field p n x)) by lia.
  rewrite <- lor_shiftl_add by auto using field_fits.
  apply Z.bits_inj'. intros i Hi.
  rewrite Z.lor_spec, Z.shiftl_spec, get_field_bit by lia.
  destruct (Z.ltb_spec i n).
  - rewrite (Z.testbit_neg_r _ (i - n)) by lia. rewrite get_field_bit by lia.
    destruct (Z.ltb_spec i n); [|lia]. now destruct (Z.ltb_spec i (n + m)); [|lia].
  - rewrite !get_field_bit by lia. destruct (Z.ltb_spec i n); [lia|].
    replace (i - n + (p + n)) with (i + p) by lia. rewrite orb_false_r.
    destruct (Z.ltb_spec i (n + m)), (Z.ltb_spec (i - n) m); lia || reflexivity.
Qed.

Lemma check_entry_eq e reserved rw nx :
  check_entry_PAE e reserved rw nx =
  if negb (Z.testbit e 0) then (ERROR_NOT_PRESENT, nx)
  else if anyb e reserved then (Z.lor ERROR_RESERVED ERROR_PROTECTION, nx)
  else (-1, nx || (Z.testbit e 63 && (rw =? BX_EXECUTE))).
Proof.
  unfold check_entry_PAE. change 1 with (Z.shiftl 1 0) at 1.
  change PAGE_DIRECTORY_NX_BIT with (Z.shiftl 1 63). rewrite !anyb_bit by lia.
  destruct (Z.testbit e 0), (anyb e reserved), (Z.testbit e 63 && (rw =? BX_EXECUTE)), nx;
    reflexivity.
Qed.

Lemma reserved_phys e : anyb e BX_PAGING_PHY_ADDRESS_RESERVED_BITS = nonzero (get_field 40 12 e).
Proof. exact (anyb_mask 40 12 e ltac:(lia) ltac:(lia)). Qed.

Lemma reserved_long c e :
  anyb e (if negb (get_NXE c) then Z.lor PAGING_PAE_RESERVED_BITS PAGE_DIRECTORY_NX_BIT
          else PAGING_PAE_RESERVED_BITS)
  = nonzero (get_field 40 12 e) || false || (negb (get_NXE c) && Z.testbit e 63).
Proof.
  unfold PAGING_PAE_RESERVED_BITS. change PAGE_DIRECTORY_NX_BIT with (Z.shiftl 1 63).
  destruct (negb (get_NXE c)); rewrite ?anyb_lor, reserved_phys, ?anyb_bit by lia;
    now rewrite ?orb_false_r.
Qed.

Lemma reserved_pae c e :
  anyb e (if negb (get_NXE c) then Z.lor PAGING_LEGACY_PAE_RESERVED_BITS PAGE_DIRECTORY_NX_BIT
          else PAGING_LEGACY_PAE_RESERVED_BITS)
  = nonzero (get_field 40 12 e) || nonzero (get_field 52 11 e)
    || (negb (get_NXE c) && Z.testbit e 63).
Proof.
  unfold PAGING_LEGACY_PAE_RESERVED_BITS. change PAGE_DIRECTORY_NX_BIT with (Z.shiftl 1 63).
  assert (A : anyb e 0x7ff0000000000000 = nonzero (get_field 52 11 e))
    by exact (anyb_mask 52 11 e ltac:(lia) ltac:(lia)).
  destruct (negb (get_NXE c)); rewrite ?anyb_lor, reserved_phys, A, ?anyb_bit by lia;
    now rewrite ?orb_false_r.
Qed.

(** ** Rights *)

Lemma combined_land W U e :
  Z.land (combined_of W U false) e = combined_of (W && Z.testbit e 1) (U && Z.testbit e 2) false.
Proof.
  apply Z.bits_inj'. intros i Hi. unfold combined_of.
  rewrite Z.land_spec, !Z.lor_spec, !Z.shiftl_spec by lia.
  assert (B : forall b j, Z.testbit (Z.b2z b) j = b && (j =? 0)).
  { intros b j. destruct b; cbn [Z.b2z andb]; [|apply Z.testbit_0_l].
    destruct (Z.eqb_spec j 0) as [->|]; [reflexivity|].
    destruct (Z.ltb_spec j 0); [now apply Z.testbit_neg_r|].
    replace j with (Z.succ (j - 1)) by lia. change 1 with (2 * 0 + 1).
    rewrite Z.testbit_odd_succ by lia. apply Z.testbit_0_l. }
  rewrite !B, !andb_false_l, !orb_false_r.
  destruct (Z.eqb_spec (i - 1) 0) as [E1|], (Z.eqb_spec (i - 2) 0) as [E2|];
    [lia|replace i with 1 by lia|replace i with 2 by lia|];
    now rewrite ?andb_true_r, ?andb_false_r, ?orb_false_r.
Qed.

Lemma priv_check_ok (wp user w W U : bool) :
  negb (nth (Z.to_nat (Z.lor (Z.lor (Z.shiftl (Z.b2z wp) 4) (Z.shiftl (Z.b2z user) 3))
                             (Z.lor (combined_of W U false) (Z.b2z w)))) priv_check 0 =? 0)
  = implb user U && implb w (W || (negb user && negb wp)).
Proof. now destruct wp, user, w, W, U. Qed.

Lemma combined_user W U G : anyb (combined_of W U G) BX_COMBINED_ACCESS_USER = U.
Proof. now destruct W, U, G. Qed.

Lemma combined_global W U G : anyb (combined_of W U G) BX_COMBINED_GLOBAL_PAGE = G.
Proof. now destruct W, U, G. Qed.

Lemma combined_range W U G : 0 <= combined_of W U G < 2 ^ 9.
Proof. destruct W, U, G; vm_compute; split; congruence. Qed.

Lemma combined_add_global W U e :
  Z.lor (combined_of W U false) (Z.land e BX_COMBINED_GLOBAL_PAGE)
  = combined_of W U (Z.testbit e 8).
Proof.
  assert (E : Z.land e BX_COMBINED_GLOBAL_PAGE = Z.shiftl (Z.b2z (Z.testbit e 8)) 8).
  { change BX_COMBINED_GLOBAL_PAGE with (Z.shiftl (Z.ones 1) 8).
    rewrite land_mask by lia. rewrite Z.shiftl_mul_pow2 by lia. f_equal.
    unfold get_field, wrap. change (2 ^ 1) with 2. rewrite <- Z.bit0_mod.
    now rewrite Z.shiftr_spec by lia. }
  rewrite E. now destruct W, U, (Z.testbit e 8).
Qed.

(** The frame, the offset in the page and the rights, packed and unpacked. *)
Lemma pack_unpack frame size comb la :
  9 <= size -> (2 ^ size | frame) -> 0 <= comb < 2 ^ 9 ->
  let p := Z.lor frame comb in
  Z.land p (2 ^ size - 1) = comb
  /\ Z.lor (Z.land p (Z.lnot (2 ^ size - 1))) (Z.land la (2 ^ size - 1)) = frame + la mod 2 ^ size.
Proof.
  intros Hs [f ->] Hc p.
  assert (Hlt : comb < 2 ^ size).
  { apply Z.lt_le_trans with (2 ^ 9); [lia|]. apply Z.pow_le_mono_r; lia. }
  assert (Ep : p = f * 2 ^ size + comb).
  { unfold p. rewrite <- Z.shiftl_mul_pow2, lor_shiftl_add by (unfold fits; lia).
    rewrite Z.shiftl_mul_pow2 by lia. ring. }
  replace (2 ^ size - 1) with (Z.ones size) by (rewrite Z.ones_equiv; lia).
  rewrite !Z.land_ones by lia. split.
  - rewrite Ep, Z.add_comm, Z.mod_add, Z.mod_small by lia. reflexivity.
  - rewrite <- Z.ldiff_land, Z.ldiff_ones_r by lia.
    rewrite Ep at 1. rewrite Z.shiftr_div_pow2 by lia.
    rewrite Z.div_add_l, (Z.div_small comb), Z.add_0_r by lia.
    rewrite lor_shiftl_add by (lia || (apply wrap_fits; lia)). ring.
Qed.

(** ** The locals of a loop along the path *)

(** [combined_access] before the last entry, and the arrays of the locals. *)
Fixpoint path_comb (comb : Z) (path : list (Z * Z)) : Z :=
  match path with
  | [] | [_] => comb
  | (_, e) :: path' => path_comb (Z.land comb e) path'
  end.

Definition path_nx (nx : bool) (rw : Z) (path : list (Z * Z)) : bool :=
  nx || (negb (path_executable path) && (rw =? BX_EXECUTE)).

Fixpoint fill (f : Z -> Z) (level : Z) (l : list Z) : Z -> Z :=
  match l with [] => f | x :: l' => fill (upd f level x) (level - 1) l' end.

Lemma fill_above l : forall f level i, level < i -> fill f level l i = f i.
Proof.
  induction l as [|x l IH]; intros f level i Hi; [reflexivity|]. cbn [fill].
  rewrite IH by lia. now apply upd_neq; lia.
Qed.

Definition walk_locals (ea en : Z -> Z) (level comb mask : Z) (nx : bool) (rw : Z)
    (path : list (Z * Z)) (frame : Z) : walk_end :=
  WalkEnd (level + 1 - Z.of_nat (length path)) frame mask (path_comb comb path)
    (path_nx nx rw path) (fill ea level (map fst path)) (fill en level (map snd path)).

Lemma path_nx_cons nx rw a e path :
  path_nx nx rw ((a, e) :: path) = path_nx (nx || (Z.testbit e 63 && (rw =? BX_EXECUTE))) rw path.
Proof.
  unfold path_nx, path_executable, all_entries. cbn [forallb snd].
  now destruct nx, (Z.testbit e 63), (rw =? BX_EXECUTE),
    (forallb (fun p => negb (Z.testbit (snd p) 63)) path).
Qed.

Lemma path_rights W U path : path <> [] ->
  Z.land (path_comb (combined_of W U false) path) (snd (last path (0, 0)))
  = combined_of (W && path_writable path) (U && path_user path) false.
Proof.
  unfold path_writable, path_user, all_entries.
  revert W U. induction path as [|[a e] path IH]; intros W U N; [contradiction|].
  destruct path as [|p path].
  - cbn [path_comb last snd forallb]. rewrite combined_land. now rewrite !andb_true_r.
  - change (last ((a, e) :: p :: path) (0, 0)) with (last (p :: path) (0, 0)).
    change (path_comb (combined_of W U false) ((a, e) :: p :: path))
      with (path_comb (Z.land (combined_of W U false) e) (p :: path)).
    rewrite combined_land. change (forallb ?f ((a, e) :: p :: path))
      with (f (a, e) && forallb f (p :: path)). cbv beta. cbn [snd].
    rewrite IH by discriminate. now rewrite !andb_assoc.
Qed.

(** Filling the arrays puts the entry of the leaf at its level. *)
Lemma fill_leaf l : forall f level d, l <> [] ->
  fill f level l (level + 1 - Z.of_nat (length l)) = last l d.
Proof.
  induction l as [|x l IH]; intros f level d N; [contradiction|]. cbn [fill length].
  destruct l as [|y l].
  - cbn [fill last length]. replace (level + 1 - Z.of_nat 1) with level by lia. apply upd_eq.
  - replace (level + 1 - Z.of_nat (S (length (y :: l))))
      with (level - 1 + 1 - Z.of_nat (length (y :: l))) by lia.
    rewrite (IH _ _ d) by discriminate. reflexivity.
Qed.

Lemma last_map {A B} (f : A -> B) l d : last (map f l) (f d) = f (last l d).
Proof.
  induction l as [|x l IH]; [reflexivity|]. destruct l as [|y l]; [reflexivity|]. exact IH.
Qed.

(** ** Large pages *)

Lemma large_reserved shift e : In shift [21; 30; 39] ->
  anyb (Z.land (Z.land e 0x000ffffffffff000) 0x000fffffffffe000) (2 ^ shift - 1)
  = nonzero (get_field 13 (shift - 13) e).
Proof.
  intros Hs. unfold anyb. rewrite <- !Z.land_assoc.
  assert (E : Z.land 0x000ffffffffff000 (Z.land 0x000fffffffffe000 (2 ^ shift - 1))
              = Z.shiftl (Z.ones (shift - 13)) 13)
    by (destruct Hs as [<-|[<-|[<-|[]]]]; reflexivity).
  rewrite E. apply (anyb_mask 13 (shift - 13)); [lia|].
  destruct Hs as [<-|[<-|[<-|[]]]]; lia.
Qed.

Lemma large_frame shift e : 13 <= shift <= 52 -> get_field 13 (shift - 13) e = 0 ->
  Z.land (Z.land e 0x000ffffffffff000) 0x000fffffffffe000
  = get_field shift (52 - shift) e * 2 ^ shift.
Proof.
  intros Hs Z0. rewrite <- Z.land_assoc.
  change (Z.land 0x000ffffffffff000 0x000fffffffffe000) with (Z.shiftl (Z.ones 39) 13).
  rewrite land_mask by lia.
  replace 39 with ((shift - 13) + (52 - shift)) by lia. rewrite field_split by lia.
  rewrite Z0. replace (13 + (shift - 13)) with shift by lia.
  replace (2 ^ shift) with (2 ^ (shift - 13) * 2 ^ 13)
    by (rewrite <- Z.pow_add_r by lia; f_equal; lia). ring.
Qed.

Fixpoint shifts_from (level : nat) : list Z :=
  match level with O => [12] | S l => (12 + 9 * Z.of_nat level) :: shifts_from l end.

Lemma table_address ppf shift la : 12 <= shift ->
  ppf + Z.land (Z.shiftr la (shift - 3)) 0xff8 = entry_address Long ppf shift la.
Proof. intros. now rewrite (shiftr_field shift 9) by lia. Qed.

Lemma frame_4k e : Z.land e 0x000ffffffffff000 = get_field 12 40 e * 2 ^ 12.
Proof. exact (land_mask 12 40 e ltac:(lia) ltac:(lia)). Qed.

Lemma large_level c level : (level <= 3)%nat ->
  (BX_LEVEL_PDE + Z.b2z (isa_1G_pages c) <? Z.of_nat level)
  = negb (large_page_level c (12 + 9 * Z.of_nat level)) && (1 <=? Z.of_nat level).
Proof.
  intros H. unfold large_page_level. do 4 (destruct level as [|level];
    [destruct (isa_1G_pages c); reflexivity|]). lia.
Qed.

Lemma pae_large_reserved e :
  get_field 40 12 e = 0 -> get_field 52 11 e = 0 ->
  anyb e PAGING_PAE_PDE2M_RESERVED_BITS = nonzero (get_field 13 8 e).
Proof.
  intros E1 E2. unfold PAGING_PAE_PDE2M_RESERVED_BITS. rewrite anyb_lor, reserved_phys, E1.
  exact (anyb_mask 13 8 e ltac:(lia) ltac:(lia)).
Qed.

Lemma pae_large_frame e : Z.land e 0x000fffffffe00000 = get_field 21 31 e * 2 ^ 21.
Proof. exact (land_mask 21 31 e ltac:(lia) ltac:(lia)). Qed.

Lemma legacy_address ppf shift la : 12 <= shift ->
  ppf + Z.land (Z.shiftr la (shift - 2)) 0xffc = entry_address Legacy ppf shift la.
Proof. intros. now rewrite (shiftr_field4 shift 10) by lia. Qed.

Lemma legacy_frame e : Z.land e 0xfffff000 = get_field 12 20 e * 2 ^ 12.
Proof. exact (land_mask 12 20 e ltac:(lia) ltac:(lia)). Qed.

Lemma pse_frame e : Z.testbit e 21 = false ->
  Z.lor (Z.land e 0xffc00000) (Z.shiftl (Z.land e 0x003fe000) 19)
  = get_field 13 8 e * 2 ^ 32 + get_field 22 10 e * 2 ^ 22.
Proof.
  intros E.
  assert (E1 : Z.land e 0xffc00000 = get_field 22 10 e * 2 ^ 22)
    by exact (land_mask 22 10 e ltac:(lia) ltac:(lia)).
  assert (E2 : Z.land e 0x003fe000 = get_field 13 9 e * 2 ^ 13)
    by exact (land_mask 13 9 e ltac:(lia) ltac:(lia)).
  assert (E3 : get_field 13 9 e = get_field 13 8 e).
  { change 9 with (8 + 1). rewrite field_split by lia.
    replace (get_field (13 + 8) 1 e) with 0; [lia|]. unfold get_field, wrap.
    change (2 ^ 1) with 2. rewrite <- Z.bit0_mod, Z.shiftr_spec by lia.
    change (0 + (13 + 8)) with 21. now rewrite E. }
  rewrite E1, E2, E3, Z.lor_comm.
  replace (Z.shiftl (get_field 13 8 e * 2 ^ 13) 19) with (Z.shiftl (get_field 13 8 e) 32)
    by (rewrite !Z.shiftl_mul_pow2 by lia; ring).
  rewrite lor_shiftl_add; [ring|lia|].
  pose proof (field_fits 22 10 e ltac:(lia)) as F. unfold fits in *.
  change (2 ^ 10) with 1024 in F. change (2 ^ 22) with 4194304.
  change (2 ^ 32) with 4294967296. lia.
Qed.

Lemma offset_shift n k : 0 <= n -> 0 <= k -> Z.shiftr (2 ^ (n + k) - 1) k = 2 ^ n - 1.
Proof.
  intros. replace (2 ^ (n + k) - 1) with (Z.ones (n + k)) by (rewrite Z.ones_equiv; lia).
  rewrite Z.shiftr_div_pow2, Z.ones_div_pow2 by lia.
  replace (n + k - k) with n by lia. rewrite Z.ones_equiv. lia.
Qed.

Section Refine.
Context {M : Type} `{PM : PhysicalMemory M} `{!PhysicalMemoryOk M}.
Implicit Types s : mmu M.

Lemma read_ram a n s : phy_ram (phys s) a ->
  access_read_physical a n s = Ok (fst (phy_read n a (phys s))) s.
Proof.
  intros R. unfold access_read_physical. pose proof (phy_read_pure n a (phys s) R) as E.
  destruct (phy_read n a (phys s)) as [v m]. cbn [fst snd] in *. subst m. now destruct s.
Qed.

(** What a loop returns for the reference walk below [level]. *)
Definition walk_outcome (la : Z) (user : bool) (rw : Z) (ea en : Z -> Z) (level comb : Z)
    (nx : bool) (r : list (Z * Z) * (Z + Z * Z)) s : outcome (mmu M) walk_end :=
  match r with
  | (_, inl code) => page_fault code la user rw s
  | (path, inr (frame, size)) =>
    Ok (walk_locals ea en level comb (2 ^ size - 1) nx rw path frame) s
  end.

Lemma walk_outcome_cons la user rw ea en level comb nx a e r s :
  walk_outcome la user rw (upd ea level a) (upd en level e) (level - 1) (Z.land comb e)
    (nx || (Z.testbit e 63 && (rw =? BX_EXECUTE))) r s
  = walk_outcome la user rw ea en level comb nx ((a, e) :: fst r, snd r) s
  \/ (exists frame size, r = ([], inr (frame, size))).
Proof.
  destruct r as [path [code|[frame size]]]; [left; reflexivity|].
  destruct path as [|p path]; [right; eauto|]. left. unfold walk_outcome, walk_locals.
  cbn [fst snd map length fill path_comb]. rewrite path_nx_cons. do 2 f_equal. lia.
Qed.

Lemma ref_walk_nonempty c mode mem shifts : forall table la frame size,
  ref_walk c mode mem shifts table la <> ([], inr (frame, size)).
Proof.
  intros. destruct shifts as [|sh shifts]; cbn [ref_walk]; [discriminate|].
  destruct (decode c mode sh _); try discriminate.
  destruct (ref_walk c mode mem shifts next la). discriminate.
Qed.

Lemma ref_walk_cons c mode mem shift shifts table la :
  ref_walk c mode mem (shift :: shifts) table la =
  let a := entry_address mode table shift la in
  match decode c mode shift (mem a) with
  | NotPresent => ([(a, mem a)], inl ERROR_NOT_PRESENT)
  | Reserved => ([(a, mem a)], inl (Z.lor ERROR_RESERVED ERROR_PROTECTION))
  | Page frame size => ([(a, mem a)], inr (frame, size))
  | Table next =>
    ((a, mem a) :: fst (ref_walk c mode mem shifts next la),
     snd (ref_walk c mode mem shifts next la))
  end.
Proof.
  cbn [ref_walk]. destruct (decode c mode shift _); try reflexivity.
  now destruct (ref_walk c mode mem shifts next la).
Qed.

Lemma walk_ram_cons (m : M) c mode mem shift shifts table la :
  Forall (fun p => phy_ram m (fst p)) (fst (ref_walk c mode mem (shift :: shifts) table la)) ->
  phy_ram m (entry_address mode table shift la)
  /\ forall next, decode c mode shift (mem (entry_address mode table shift la)) = Table next ->
     Forall (fun p => phy_ram m (fst p)) (fst (ref_walk c mode mem shifts next la)).
Proof.
  rewrite ref_walk_cons. cbv zeta.
  destruct (decode c mode shift _) eqn:D; cbn [fst snd]; intros F; inversion F; subst;
    (split; [assumption|]); intros n' E; inversion E; subst; assumption.
Qed.

Lemma walk_outcome_step la user rw ea en level comb nx a e r s :
  (forall frame size, r <> ([], inr (frame, size))) ->
  walk_outcome la user rw (upd ea level a) (upd en level e) (level - 1) (Z.land comb e)
    (nx || (Z.testbit e 63 && (rw =? BX_EXECUTE))) r s
  = walk_outcome la user rw ea en level comb nx ((a, e) :: fst r, snd r) s.
Proof.
  intros N. destruct (walk_outcome_cons la user rw ea en level comb nx a e r s)
    as [E|(f & z & E)]; [exact E|]. now apply N in E.
Qed.

Lemma walk_outcome_leaf la user rw ea en level comb nx a e frame size s :
  walk_outcome la user rw ea en level comb nx ([(a, e)], inr (frame, size)) s
  = Ok (WalkEnd level frame (2 ^ size - 1) comb
          (nx || (Z.testbit e 63 && (rw =? BX_EXECUTE))) (upd ea level a) (upd en level e)) s.
Proof.
  unfold walk_outcome, walk_locals. cbn [map fst snd fill path_comb length].
  rewrite path_nx_cons. unfold path_nx at 1. cbn [path_executable all_entries forallb negb andb].
  rewrite orb_false_r. do 2 f_equal. lia.
Qed.

Lemma long_loop c la user rw level : forall ppf comb nx ea en s,
  (level <= 3)%nat -> regs s = c ->
  let mem := fun a => fst (phy_read 8 a (phys s)) in
  let walk := ref_walk c Long mem (shifts_from level) ppf la in
  Forall (fun p => phy_ram (phys s) (fst p)) (fst walk) ->
  long_mode_loop la user rw
    (if negb (get_NXE c) then Z.lor PAGING_PAE_RESERVED_BITS PAGE_DIRECTORY_NX_BIT
     else PAGING_PAE_RESERVED_BITS)
    level ppf (2 ^ (12 + 9 * (Z.of_nat level + 1)) - 1) comb nx ea en s
  = walk_outcome la user rw ea en (Z.of_nat level) comb nx walk s.
Proof.
  induction level as [|level IH]; intros ppf comb nx ea en s Hl Hc mem walk Hr;
    unfold walk in *; clear walk; cbn [shifts_from] in Hr |- *;
    apply walk_ram_cons in Hr; destruct Hr as [Hr Hn]; rewrite ref_walk_cons; cbv zeta;
    cbn [long_mode_loop]; unfold xbind at 1; rewrite upd_eq.
  - change (9 + 9 * Z.of_nat 0) with (12 - 3). rewrite table_address by lia.
    rewrite (read_ram _ _ _ Hr). fold (mem (entry_address Long ppf 12 la)).
    set (a := entry_address Long ppf 12 la) in *. rewrite check_entry_eq, reserved_long.
    unfold decode. destruct (Z.testbit (mem a) 0); cbn [negb]; [|reflexivity].
    destruct (_ || _ || _); [reflexivity|]. change (12 =? 12) with true. cbv iota.
    rewrite walk_outcome_leaf, frame_4k. reflexivity.
  - pose proof (large_level c _ Hl) as Hll.
    replace (Z.shiftr (2 ^ (12 + 9 * (Z.of_nat (S level) + 1)) - 1) 9)
      with (2 ^ (12 + 9 * Z.of_nat (S level)) - 1)
      by (rewrite <- (offset_shift (12 + 9 * Z.of_nat (S level)) 9) by lia; do 3 f_equal; lia).
    assert (Hs : In (12 + 9 * Z.of_nat (S level)) [21; 30; 39])
      by (destruct level as [|[|[|]]]; cbn; auto; lia).
    assert (Hu : large_page_level c (12 + 9 * Z.of_nat (S level)) = true ->
                 u32 (2 ^ (12 + 9 * Z.of_nat (S level)) - 1)
                 = 2 ^ (12 + 9 * Z.of_nat (S level)) - 1)
      by (destruct level as [|[|[|]]]; [reflexivity|reflexivity|discriminate|lia]).
    specialize (IH (Z.land (mem (entry_address Long ppf (12 + 9 * Z.of_nat (S level)) la))
                      0x000ffffffffff000)).
    replace (9 + 9 * Z.of_nat (S level)) with (12 + 9 * Z.of_nat (S level) - 3) by lia.
    replace (12 + 9 * (Z.of_nat level + 1)) with (12 + 9 * Z.of_nat (S level)) in IH by lia.
    replace (Z.of_nat level) with (Z.of_nat (S level) - 1) in IH by lia.
    rewrite Z.leb_antisym, (proj2 (Z.ltb_ge (Z.of_nat (S level)) 1)), andb_true_r in Hll by lia.
    set (shift := 12 + 9 * Z.of_nat (S level)) in *.
    assert (H12 : 12 < shift) by (unfold shift; lia).
    assert (H52 : shift <= 52) by (unfold shift; lia).
    clearbody shift.
    rewrite table_address by lia. rewrite (read_ram _ _ _ Hr).
    fold (mem (entry_address Long ppf shift la)).
    set (a := entry_address Long ppf shift la) in *. rewrite check_entry_eq, reserved_long.
    unfold decode in *. destruct (Z.testbit (mem a) 0); cbn [negb] in *; [|reflexivity].
    destruct (_ || _ || _); [reflexivity|]. rewrite (proj2 (Z.eqb_neq shift 12)) in * by lia.
    change 0x80 with (Z.shiftl 1 7). rewrite anyb_bit by lia.
    change (0 <=? -1) with false. cbv iota beta.
    destruct (Z.testbit (mem a) 7).
    + unfold xbind, get_regs. rewrite Hc, Hll.
      rewrite large_reserved by assumption.
      destruct (large_page_level c shift); cbn [negb orb]; [|reflexivity].
      destruct (get_field 13 (shift - 13) (mem a) =? 0) eqn:Ef; unfold nonzero; rewrite Ef;
        cbn [negb]; [|reflexivity].
      apply Z.eqb_eq in Ef. rewrite walk_outcome_leaf, (large_frame shift), Hu by (lia || auto).
      reflexivity.
    + rewrite frame_4k in *. rewrite IH; [|lia|assumption|now apply Hn].
      fold mem. rewrite <- walk_outcome_step by (intros; apply ref_walk_nonempty).
      reflexivity.
Qed.

Lemma pae_loop c la user rw level : forall ppf comb nx ea en s,
  (level <= 1)%nat -> regs s = c ->
  let mem := fun a => fst (phy_read 8 a (phys s)) in
  let walk := ref_walk c PAE mem (shifts_from level) ppf la in
  Forall (fun p => phy_ram (phys s) (fst p)) (fst walk) ->
  PAE_loop la user rw
    (if negb (get_NXE c) then Z.lor PAGING_LEGACY_PAE_RESERVED_BITS PAGE_DIRECTORY_NX_BIT
     else PAGING_LEGACY_PAE_RESERVED_BITS)
    level ppf comb nx ea en s
  = walk_outcome la user rw ea en (Z.of_nat level) comb nx walk s.
Proof.
  induction level as [|level IH]; intros ppf comb nx ea en s Hl Hc mem walk Hr;
    unfold walk in *; clear walk; cbn [shifts_from] in Hr |- *;
    apply walk_ram_cons in Hr; destruct Hr as [Hr Hn]; rewrite ref_walk_cons; cbv zeta;
    cbn [PAE_loop]; unfold xbind at 1; rewrite upd_eq.
  - change (9 + 9 * Z.of_nat 0) with (12 - 3). rewrite table_address by lia.
    change (entry_address Long ppf 12 la) with (entry_address PAE ppf 12 la) in *.
    rewrite (read_ram _ _ _ Hr). fold (mem (entry_address PAE ppf 12 la)).
    set (a := entry_address PAE ppf 12 la) in *. rewrite check_entry_eq, reserved_pae.
    unfold decode. destruct (Z.testbit (mem a) 0); cbn [negb]; [|reflexivity].
    destruct (_ || _ || _); [reflexivity|]. change (12 =? 12) with true. cbv iota.
    rewrite walk_outcome_leaf, frame_4k. reflexivity.
  - replace level with O in * by lia. change (Z.of_nat 1) with 1 in *.
    specialize (IH (Z.land (mem (entry_address PAE ppf 21 la)) 0x000ffffffffff000)).
    change (9 + 9 * 1) with (21 - 3). rewrite table_address by lia.
    change (12 + 9 * 1) with 21 in *.
    change (entry_address Long ppf 21 la) with (entry_address PAE ppf 21 la) in *.
    rewrite (read_ram _ _ _ Hr). fold (mem (entry_address PAE ppf 21 la)).
    set (a := entry_address PAE ppf 21 la) in *. rewrite check_entry_eq, reserved_pae.
    unfold decode in *. destruct (Z.testbit (mem a) 0); cbn [negb] in *; [|reflexivity].
    destruct (_ || _ || _) eqn:Eres; [reflexivity|]. change (21 =? 12) with false in *.
    change 0x80 with (Z.shiftl 1 7). rewrite anyb_bit by lia.
    change (0 <=? -1) with false. cbv iota beta.
    destruct (Z.testbit (mem a) 7).
    + apply orb_false_iff in Eres. destruct Eres as [Eres _]. bool_hyps.
      unfold nonzero in *. bool_hyps. rewrite pae_large_reserved by assumption.
      change (large_page_level c 21) with true. cbn [negb orb].
      unfold nonzero. change (21 - 13) with 8.
      destruct (get_field 13 8 (mem a) =? 0); cbn [negb]; [|reflexivity].
      rewrite walk_outcome_leaf, pae_large_frame. reflexivity.
    + rewrite frame_4k in *. rewrite IH; [|lia|assumption|now apply Hn].
      fold mem. rewrite <- walk_outcome_step by (intros; apply ref_walk_nonempty).
      reflexivity.
Qed.

Lemma legacy_loop_eq c la user rw level : forall ppf comb ea en s,
  (level <= 1)%nat -> regs s = c ->
  let mem := fun a => fst (phy_read 4 a (phys s)) in
  let walk := ref_walk c Legacy mem (match level with O => [12] | S _ => [22; 12] end) ppf la in
  Forall (fun p => phy_ram (phys s) (fst p)) (fst walk) ->
  legacy_loop la user rw level ppf comb ea en s
  = walk_outcome la user rw ea en (Z.of_nat level) comb false walk s.
Proof.
  assert (Hnx : forall a m, Z.testbit (fst (phy_read 4 a m)) 63 = false).
  { intros a m. apply (fits_testbit 32); [lia| |lia]. apply (phy_read_fits 4). lia. }
  induction level as [|level IH]; intros ppf comb ea en s Hl Hc mem walk Hr;
    unfold walk in *; clear walk; cbv match in Hr |- *;
    apply walk_ram_cons in Hr; destruct Hr as [Hr Hn]; rewrite ref_walk_cons; cbv zeta;
    cbn [legacy_loop]; unfold xbind at 1; rewrite upd_eq.
  - change (10 + 10 * Z.of_nat 0) with (12 - 2). rewrite legacy_address by lia.
    rewrite (read_ram _ _ _ Hr). fold (mem (entry_address Legacy ppf 12 la)).
    set (a := entry_address Legacy ppf 12 la) in *.
    change 0x1 with (Z.shiftl 1 0). rewrite anyb_bit by lia.
    unfold decode. destruct (Z.testbit (mem a) 0); cbn [negb]; [|reflexivity].
    change (12 =? 12) with true. cbv iota.
    rewrite walk_outcome_leaf, legacy_frame, (Hnx _ _ : Z.testbit (mem a) 63 = false). reflexivity.
  - replace level with O in * by lia. change (Z.of_nat 1) with 1 in *.
    specialize (IH (Z.land (mem (entry_address Legacy ppf 22 la)) 0xfffff000)).
    change (10 + 10 * 1) with (22 - 2). rewrite legacy_address by lia.
    rewrite (read_ram _ _ _ Hr). fold (mem (entry_address Legacy ppf 22 la)).
    set (a := entry_address Legacy ppf 22 la) in *.
    change 0x1 with (Z.shiftl 1 0) at 1. change 0x80 with (Z.shiftl 1 7).
    change PAGING_PDE4M_RESERVED_BITS with (Z.shiftl 1 21). rewrite !anyb_bit by lia.
    assert (Hf : Z.testbit (mem a) 63 = false) by apply Hnx.
    unfold decode in *. destruct (Z.testbit (mem a) 0); cbn [negb] in *; [|reflexivity].
    change (22 =? 12) with false in *. cbv iota in *.
    unfold xbind at 1, get_regs. rewrite Hc. destruct (Z.testbit (mem a) 7 && get_PSE c).
    + destruct (Z.testbit (mem a) 21) eqn:E21; [reflexivity|].
      rewrite walk_outcome_leaf, pse_frame, Hf by assumption. reflexivity.
    + rewrite legacy_frame in *. rewrite IH; [|lia|assumption|now apply Hn].
      fold mem. rewrite <- walk_outcome_step by (intros; apply ref_walk_nonempty).
      rewrite Hf. reflexivity.
Qed.

(** ** Accessed and dirty bits *)

Lemma access_write_eq a n v s :
  access_write_physical a n v s = Ok tt (s <| phys := phy_write n a v (phys s) |>).
Proof. reflexivity. Qed.

Lemma ad_step_A (test : bool) a n v s :
  (if test then access_write_physical a n v else xret tt) s
  = Ok tt (s <| phys := apply_writes n (if test then [(a, v)] else []) (phys s) |>).
Proof. destruct test; [reflexivity|]. now destruct s. Qed.

Lemma ad_leaf a e rw : 0 <= rw < 4 ->
  (if negb (anyb e 0x20) || (negb (Z.land rw 1 =? 0) && negb (anyb e 0x40))
   then [(a, Z.lor e (Z.lor 0x20 (Z.shiftl (Z.land rw 1) 6)))] else [])
  = ad_writes [(a, e)] (Z.testbit rw 0).
Proof.
  intros H. cbn [ad_writes]. change 0x20 with (Z.shiftl 1 5) at 1.
  change 0x40 with (Z.shiftl 1 6). rewrite !anyb_bit by lia.
  assert (R : rw = 0 \/ rw = 1 \/ rw = 2 \/ rw = 3) by lia.
  destruct R as [->|[->|[->| ->]]]; reflexivity.
Qed.

Lemma apply_writes_app n l1 l2 (m : M) :
  apply_writes n (l1 ++ l2) m = apply_writes n l2 (apply_writes n l1 m).
Proof. apply fold_left_app. Qed.

(** The arrays hold the path: the entry of level [top - k] at position [k]. *)
Lemma update_pae path : forall ea en top s rw,
  path <> [] -> 0 <= rw < 4 ->
  let leaf := top + 1 - Z.of_nat (length path) in
  update_access_dirty_PAE (fill ea top (map fst path)) (fill en top (map snd path)) top leaf
    (Z.land rw 1) s
  = Ok tt (s <| phys := apply_writes 8 (ad_writes path (Z.testbit rw 0)) (phys s) |>).
Proof.
  induction path as [|[a e] path IH]; intros ea en top s rw N Hrw leaf; [contradiction|].
  destruct path as [|p path].
  - unfold leaf, update_access_dirty_PAE. cbn [length map fst snd fill].
    replace (top + 1 - Z.of_nat 1) with top by lia. rewrite Z.sub_diag.
    cbn [Z.to_nat update_accessed]. unfold xbind, xret at 1.
    rewrite !upd_eq, ad_step_A, (ad_leaf a e rw Hrw). reflexivity.
  - specialize (IH (upd ea top a) (upd en top e) (top - 1)
      (s <| phys := apply_writes 8 (if negb (Z.testbit e 5) then [(a, Z.lor e 0x20)] else [])
                      (phys s) |>) rw ltac:(discriminate) Hrw).
    cbv zeta in IH. replace (top - 1 + 1 - Z.of_nat (length (p :: path))) with leaf in IH
      by (unfold leaf; cbn [length]; lia).
    assert (Hl : leaf < top) by (unfold leaf; cbn [length]; lia).
    change (fill ea top (map fst ((a, e) :: p :: path)))
      with (fill (upd ea top a) (top - 1) (map fst (p :: path))).
    change (fill en top (map snd ((a, e) :: p :: path)))
      with (fill (upd en top e) (top - 1) (map snd (p :: path))).
    change (ad_writes ((a, e) :: p :: path) (Z.testbit rw 0))
      with ((if negb (Z.testbit e 5) then [(a, Z.lor e 0x20)] else [])
            ++ ad_writes (p :: path) (Z.testbit rw 0)).
    clearbody leaf. unfold update_access_dirty_PAE in *.
    replace (Z.to_nat (top - leaf)) with (S (Z.to_nat (top - 1 - leaf))) by lia.
    cbn [update_accessed].
    replace (leaf + Z.of_nat (S (Z.to_nat (top - 1 - leaf)))) with top by lia.
    rewrite !fill_above, !upd_eq by lia.
    unfold xbind at 1 2. rewrite ad_step_A. change 0x20 with (Z.shiftl 1 5) at 1.
    rewrite anyb_bit by lia. rewrite apply_writes_app. exact IH.
Qed.

Lemma update_legacy path : forall ea en s rw,
  path <> [] -> (length path <= 2)%nat -> 0 <= rw < 4 ->
  let leaf := 2 - Z.of_nat (length path) in
  update_access_dirty (fill ea 1 (map fst path)) (fill en 1 (map snd path)) leaf (Z.land rw 1) s
  = Ok tt (s <| phys := apply_writes 4 (ad_writes path (Z.testbit rw 0)) (phys s) |>).
Proof.
  intros ea en s rw N L Hrw leaf. unfold leaf. clear leaf.
  destruct path as [|[a e] [|[a' e'] [|]]]; [contradiction| | |cbn in L; lia];
    cbn [map fst snd fill length]; unfold update_access_dirty, xbind.
  - change (2 - Z.of_nat 1 =? BX_LEVEL_PTE) with false. change (2 - Z.of_nat 1) with 1.
    cbv iota. unfold xret at 1. rewrite !upd_eq, ad_step_A, (ad_leaf a e rw Hrw). reflexivity.
  - change (2 - Z.of_nat 2 =? BX_LEVEL_PTE) with true. change (2 - Z.of_nat 2) with 0.
    change BX_LEVEL_PDE with 1. cbv iota. change (1 - 1) with 0.
    rewrite !upd_eq, !(upd_neq _ 0), !upd_eq by lia.
    rewrite !ad_step_A, (ad_leaf a' e' rw Hrw).
    change (ad_writes [(a, e); (a', e')] (Z.testbit rw 0))
      with ((if negb (Z.testbit e 5) then [(a, Z.lor e 0x20)] else [])
            ++ ad_writes [(a', e')] (Z.testbit rw 0)).
    rewrite apply_writes_app. change 0x20 with (Z.shiftl 1 5) at 1.
    rewrite anyb_bit by lia. reflexivity.
Qed.

(** ** Permissions *)

Lemma walk_locals_leaf ea en top comb mask nx rw path frame : path <> [] ->
  let w := walk_locals ea en top comb mask nx rw path frame in
  we_entry w (we_leaf w) = snd (last path (0, 0)).
Proof.
  intros N w. unfold w, walk_locals. cbn [we_entry we_leaf].
  rewrite <- (length_map snd path). rewrite (fill_leaf _ _ _ (snd (0, 0))).
  - apply last_map.
  - destruct path; [contradiction|discriminate].
Qed.

Lemma rw_write rw : 0 <= rw < 4 -> Z.land rw 1 = Z.b2z (Z.testbit rw 0).
Proof. intros H. assert (R : rw = 0 \/ rw = 1 \/ rw = 2 \/ rw = 3) by lia.
  now destruct R as [->|[->|[->| ->]]]. Qed.

Lemma check_access_eq la user rw path ea en top mask frame s : path <> [] -> 0 <= rw < 4 ->
  let W := path_writable path in
  let U := path_user path in
  check_access la user rw (walk_locals ea en top (combined_of true true false) mask false rw path frame) s
  = if access_ok (regs s) (eflags_AC (regs s)) user rw W U (path_executable path)
    then Ok (combined_of W U (get_PGE (regs s) && path_global path)) s
    else page_fault ERROR_PROTECTION la user rw s.
Proof.
  intros N Hrw W U. unfold check_access. rewrite walk_locals_leaf by assumption.
  unfold walk_locals. cbn [we_combined we_nx_fault].
  rewrite path_rights by assumption. cbn [andb]. fold W U.
  unfold path_nx. rewrite orb_false_l. set (X := path_executable path).
  unfold xbind, get_regs. set (c := regs s). rewrite (rw_write rw Hrw).
  pose proof (priv_check_ok (get_WP c) user (Z.testbit rw 0) W U) as Ep.
  unfold access_ok. rewrite <- Ep. rewrite combined_user, combined_add_global.
  unfold path_global. set (x := snd (last path (0, 0))). clearbody x W U X. clear Ep.
  destruct (nth _ _ _ =? 0); cbn [negb andb orb]; [reflexivity|].
  destruct (rw =? BX_EXECUTE), X; cbn [negb andb orb implb];
    destruct (get_SMEP c), (get_SMAP c), (eflags_AC c), user, U; cbn [negb andb];
    try reflexivity; destruct (get_PGE c); reflexivity.
Qed.

(** ** The three walks *)

Definition finish_walk (la : Z) (user : bool) (rw size_ : Z) (r : list (Z * Z) * (Z + Z * Z))
    s : outcome (mmu M) (Z * Z) :=
  match r with
  | (_, inl code) => page_fault code la user rw s
  | (path, inr (frame, size)) =>
    let W := path_writable path in
    let U := path_user path in
    if access_ok (regs s) (eflags_AC (regs s)) user rw W U (path_executable path)
    then Ok (Z.lor frame (combined_of W U (get_PGE (regs s) && path_global path)), 2 ^ size - 1)
            (s <| phys := apply_writes size_ (ad_writes path (Z.testbit rw 0)) (phys s) |>)
    else page_fault ERROR_PROTECTION la user rw s
  end.

Lemma root_long c la : mode_of c = Long ->
  root_table c la = Some (Z.land (cr3 c) BX_CR3_PAGING_MASK).
Proof.
  intros E. unfold root_table. rewrite E. f_equal. symmetry. apply frame_4k.
Qed.

Lemma long_refines la user rw s :
  mode_of (regs s) = Long -> 0 <= rw < 4 -> tables_in_ram (regs s) (phys s) ->
  translate_linear_long_mode la user rw s
  = finish_walk la user rw 8 (walk_path (regs s) (entry_reader (regs s) (phys s)) la) s.
Proof.
  intros E Hrw Hr. specialize (Hr la). unfold walk_path, entry_reader in *.
  rewrite root_long, E in * by assumption.
  unfold translate_linear_long_mode. unfold xbind at 1, get_regs.
  unfold xbind at 1. change 0x0000ffffffffffff with (2 ^ (12 + 9 * (Z.of_nat 3 + 1)) - 1).
  change (Z.to_nat BX_LEVEL_PML4) with 3%nat. rewrite (long_loop (regs s) la user rw 3);
    [|lia|reflexivity|exact Hr].
  change (entry_size Long) with 8. change (level_shifts Long) with (shifts_from 3).
  pose proof (ref_walk_nonempty (regs s) Long (fun a => fst (phy_read 8 a (phys s)))
    (shifts_from 3) (Z.land (cr3 (regs s)) BX_CR3_PAGING_MASK) la) as N.
  destruct (ref_walk _ _ _ _ _ _) as [path [code|[frame size]]]; [reflexivity|].
  assert (Np : path <> []) by (intros ->; now apply (N frame size)).
  unfold walk_outcome. unfold xbind at 1.
  change (Z.lor BX_COMBINED_ACCESS_WRITE BX_COMBINED_ACCESS_USER) with (combined_of true true false).
  rewrite check_access_eq by assumption. cbv zeta. unfold finish_walk.
  destruct (access_ok _ _ _ _ _ _ _); [|reflexivity].
  unfold xbind, walk_locals. cbn [we_entry_addr we_entry we_leaf we_ppf we_lpf_mask].
  change BX_LEVEL_PML4 with (Z.of_nat 3). rewrite update_pae by assumption. reflexivity.
Qed.

Lemma pae_refines la user rw s :
  mode_of (regs s) = PAE -> 0 <= rw < 4 -> tables_in_ram (regs s) (phys s) ->
  translate_linear_PAE la user rw s
  = finish_walk la user rw 8 (walk_path (regs s) (entry_reader (regs s) (phys s)) la) s.
Proof.
  intros E Hrw Hr. specialize (Hr la). unfold walk_path, entry_reader, root_table in *.
  rewrite E in *. unfold translate_linear_PAE. unfold xbind at 1, get_regs.
  unfold xbind at 1, translate_linear_load_PDPTR, get_regs. unfold xbind at 1.
  change (Z.land (Z.shiftr la 30) 0x3) with (Z.land (Z.shiftr la 30) (Z.ones 2)).
  rewrite Z.land_ones by lia. change (Z.shiftr la 30 mod 2 ^ 2) with (get_field 30 2 la).
  change 0x1 with (Z.shiftl 1 0) at 1. rewrite anyb_bit by lia.
  destruct (Z.testbit (PDPTR_CACHE (regs s) (get_field 30 2 la)) 0); [|reflexivity].
  cbn [negb]. unfold xret at 1. unfold xbind at 1. rewrite frame_4k.
  change (Z.to_nat BX_LEVEL_PDE) with 1%nat. rewrite (pae_loop (regs s) la user rw 1);
    [|lia|reflexivity|exact Hr].
  change (entry_size PAE) with 8. change (level_shifts PAE) with (shifts_from 1).
  set (table := get_field 12 40 _ * 2 ^ 12).
  pose proof (ref_walk_nonempty (regs s) PAE (fun a => fst (phy_read 8 a (phys s)))
    (shifts_from 1) table la) as N.
  destruct (ref_walk _ _ _ _ _ _) as [path [code|[frame size]]]; [reflexivity|].
  assert (Np : path <> []) by (intros ->; now apply (N frame size)).
  unfold walk_outcome. unfold xbind at 1.
  change (Z.lor BX_COMBINED_ACCESS_WRITE BX_COMBINED_ACCESS_USER) with (combined_of true true false).
  rewrite check_access_eq by assumption. cbv zeta. unfold finish_walk.
  destruct (access_ok _ _ _ _ _ _ _); [|reflexivity].
  unfold xbind, walk_locals. cbn [we_entry_addr we_entry we_leaf we_ppf we_lpf_mask].
  change BX_LEVEL_PDE with (Z.of_nat 1). rewrite update_pae by assumption. reflexivity.
Qed.

Lemma ref_walk_length c mode mem shifts : forall table la,
  (length (fst (ref_walk c mode mem shifts table la)) <= length shifts)%nat.
Proof.
  induction shifts as [|sh shifts IH]; intros table la; [cbn; lia|].
  rewrite ref_walk_cons. cbv zeta. destruct (decode _ _ _ _); cbn [fst length]; try lia.
  specialize (IH next la). lia.
Qed.

Lemma legacy_root x : Z.land (u32 x) BX_CR3_PAGING_MASK = get_field 12 20 x * 2 ^ 12.
Proof.
  rewrite frame_4k. f_equal. apply Z.bits_inj'. intros i Hi. rewrite !get_field_bit by lia.
  rewrite wrap_bit by lia.
  destruct (Z.ltb_spec i 40), (Z.ltb_spec i 20), (Z.ltb_spec (i + 12) 32); try lia; reflexivity.
Qed.

Lemma legacy_refines la user rw s :
  mode_of (regs s) = Legacy -> 0 <= rw < 4 -> tables_in_ram (regs s) (phys s) ->
  translate_linear_legacy la user rw s
  = finish_walk la user rw 4 (walk_path (regs s) (entry_reader (regs s) (phys s)) la) s.
Proof.
  intros E Hrw Hr. specialize (Hr la). unfold walk_path, entry_reader, root_table in *.
  rewrite E in *. unfold translate_linear_legacy. unfold xbind at 1, get_regs.
  unfold xbind at 1. rewrite legacy_root.
  change (Z.to_nat BX_LEVEL_PDE) with 1%nat. rewrite (legacy_loop_eq (regs s) la user rw 1);
    [|lia|reflexivity|exact Hr].
  change (entry_size Legacy) with 4. change (level_shifts Legacy) with [22; 12].
  set (table := get_field 12 20 _ * 2 ^ 12).
  set (mem := fun a => fst (phy_read 4 a (phys s))).
  pose proof (ref_walk_nonempty (regs s) Legacy mem [22; 12] table la) as N.
  pose proof (ref_walk_length (regs s) Legacy mem [22; 12] table la) as L.
  cbv zeta.
  destruct (ref_walk _ _ _ _ _ _) as [path [code|[frame size]]]; [reflexivity|].
  assert (Np : path <> []) by (intros ->; now apply (N frame size)).
  unfold walk_outcome. unfold xbind at 1.
  change (Z.lor BX_COMBINED_ACCESS_WRITE BX_COMBINED_ACCESS_USER) with (combined_of true true false).
  rewrite check_access_eq by assumption. cbv zeta. unfold finish_walk.
  destruct (access_ok _ _ _ _ _ _ _); [|reflexivity].
  unfold xbind, walk_locals. cbn [we_entry_addr we_entry we_leaf we_ppf we_lpf_mask].
  change (Z.of_nat 1) with 1. change (1 + 1) with 2. rewrite update_legacy by assumption.
  reflexivity.
Qed.

(** ** [page_walk] *)

Lemma decode_frame c mode shift e frame size :
  decode c mode shift e = Page frame size -> In shift (level_shifts mode) ->
  In size [12; 21; 22; 30] /\ (2 ^ size | frame).
Proof.
  unfold decode. destruct (negb _); [discriminate|]. intros D Hs.
  assert (D12 : forall x, 12 = size -> x * 2 ^ 12 = frame ->
            In size [12; 21; 22; 30] /\ (2 ^ size | frame))
    by (intros x <- <-; split; [cbn; auto|exists x; reflexivity]).
  destruct mode.
  1, 2: destruct (_ || _ || _); [discriminate|];
    destruct (shift =? 12); [injection D as E1 E2; now apply (D12 (get_field 12 40 e))|];
    destruct (Z.testbit e 7); [|discriminate];
    destruct (large_page_level c shift) eqn:L; [|discriminate];
    destruct (nonzero _); [discriminate|]; injection D as <- <-;
    (split; [|now eexists]); unfold large_page_level in L;
    apply orb_true_iff in L; rewrite andb_true_iff in L; rewrite !Z.eqb_eq in L;
    destruct L as [->|[-> _]]; cbn; auto.
  destruct (shift =? 12); [injection D as E1 E2; now apply (D12 (get_field 12 20 e))|].
  destruct (_ && _); [|discriminate]. destruct (Z.testbit e 21); [discriminate|].
  injection D as <- <-. split; [cbn; auto|].
  exists (get_field 13 8 e * 2 ^ 10 + get_field 22 10 e).
  generalize (get_field 13 8 e) (get_field 22 10 e). intros x y. lia.
Qed.

Lemma ref_walk_frame c mode mem shifts : incl shifts (level_shifts mode) ->
  forall table la path frame size,
  ref_walk c mode mem shifts table la = (path, inr (frame, size)) ->
  In size [12; 21; 22; 30] /\ (2 ^ size | frame).
Proof.
  induction shifts as [|sh shifts IH]; intros Hi table la path frame size E; [discriminate|].
  apply incl_cons_inv in Hi. destruct Hi as [Hi1 Hi2].
  rewrite ref_walk_cons in E. cbv zeta in E.
  destruct (decode c mode sh _) eqn:D; try discriminate.
  - injection E as _ E.
    apply (IH Hi2 next la (fst (ref_walk c mode mem shifts next la)) frame size).
    rewrite <- E. apply surjective_pairing.
  - injection E as _ <- <-. exact (decode_frame _ _ _ _ _ _ D Hi1).
Qed.

Lemma walk_path_frame c mem la path frame size :
  walk_path c mem la = (path, inr (frame, size)) ->
  In size [12; 21; 22; 30] /\ (2 ^ size | frame).
Proof.
  unfold walk_path. destruct (root_table c la); [|discriminate].
  apply ref_walk_frame, incl_refl.
Qed.

Lemma page_walk_spec la user rw s : 0 <= rw < 4 -> tables_in_ram (regs s) (phys s) ->
  page_walk la user rw s = spec_page_walk la user rw s.
Proof.
  intros Hrw Hr. unfold page_walk, spec_page_walk, ref_page_walk. unfold xbind at 1, get_regs.
  destruct (get_PG (regs s)); cbn [negb].
  2: { unfold xret, xbind, set_split_large_if. cbn [apply_writes fold_left Z.ltb Z.compare negb].
       change (0xfff <? 0xfff) with false. cbn [negb]. now destruct s. }
  assert (E : (if long_mode (regs s) then translate_linear_long_mode la user rw
               else if get_PAE (regs s) then translate_linear_PAE la user rw
               else translate_linear_legacy la user rw) s
    = finish_walk la user rw (entry_size (mode_of (regs s)))
        (walk_path (regs s) (entry_reader (regs s) (phys s)) la) s).
  { pose proof (long_refines la user rw s) as L. pose proof (pae_refines la user rw s) as P.
    pose proof (legacy_refines la user rw s) as G. unfold mode_of in *.
    destruct (long_mode (regs s)); [now apply L|]. destruct (get_PAE (regs s)); auto. }
  unfold xbind at 1. rewrite E. clear E.
  destruct (walk_path _ _ la) as [path [code|[frame size]]] eqn:Ew; [reflexivity|].
  unfold finish_walk. cbv zeta. destruct (access_ok _ _ _ _ _ _ _); [|reflexivity].
  apply walk_path_frame in Ew. destruct Ew as [Hs Hd].
  assert (Hs9 : 9 <= size) by (destruct Hs as [<-|[<-|[<-|[<-|[]]]]]; lia).
  destruct (pack_unpack frame size _ la Hs9 Hd (combined_range (path_writable path)
    (path_user path) (get_PGE (regs s) && path_global path))) as [P1 P2].
  cbv zeta in P1, P2. cbv beta iota. rewrite P1, P2. reflexivity.
Qed.

End Refine.
