(* ===== verification/PagingAd.v ===== *)
(** * Accessed and dirty bits do not change translations

    Setting accessed and dirty bits leaves every walk as it was, and after a
    walk has set its bits walking again writes nothing. *)

From Stdlib Require Import ZArith Lia List Bool.
From S2P Require Import Prelude LazyFlags Cpu Tlb Paging PagingSpec PagingRefine.
Import ListNotations.
Open Scope Z_scope.

(** [x] consists of accessed and dirty bits. *)
Definition ad_bits (x : Z) : Prop := Z.land x 0x60 = x.

Lemma ad_bits_testbit x i : ad_bits x -> 0 <= i -> i <> 5 -> i <> 6 -> Z.testbit x i = false.
Proof.
  intros E Hi N5 N6. unfold ad_bits in E. rewrite <- E, Z.land_spec.
  change 0x60 with (Z.shiftl (Z.ones 2) 5). rewrite mask_bit by lia.
  destruct (Z.leb_spec 5 i), (Z.ltb_spec i (5 + 2)); try lia; now rewrite andb_false_r.
Qed.

Lemma ad_bits_lor x y : ad_bits x -> ad_bits y -> ad_bits (Z.lor x y).
Proof. unfold ad_bits. intros Ex Ey. now rewrite Z.land_lor_distr_l, Ex, Ey. Qed.

Lemma ad_bits_0 : ad_bits 0. Proof. reflexivity. Qed.

Lemma ad_testbit e x i : ad_bits x -> 0 <= i -> i <> 5 -> i <> 6 ->
  Z.testbit (Z.lor e x) i = Z.testbit e i.
Proof.
  intros A Hi N5 N6. rewrite Z.lor_spec, (ad_bits_testbit x i A Hi N5 N6). apply orb_false_r.
Qed.

Lemma ad_field e x p n : ad_bits x -> 7 <= p -> 0 <= n ->
  get_field p n (Z.lor e x) = get_field p n e.
Proof.
  intros A Hp Hn. apply Z.bits_inj'. intros i Hi. rewrite !get_field_bit by lia.
  rewrite ad_testbit by (assumption || lia). reflexivity.
Qed.

Lemma decode_ad c mode shift e x : ad_bits x -> In shift (level_shifts mode) ->
  decode c mode shift (Z.lor e x) = decode c mode shift e.
Proof.
  intros A Hs.
  assert (Hp : 12 <= shift) by (destruct mode; cbn in Hs; intuition lia).
  assert (Hf : get_field shift (52 - shift) (Z.lor e x) = get_field shift (52 - shift) e).
  { apply ad_field; [assumption|lia|destruct mode; cbn in Hs; intuition lia]. }
  assert (Hr : shift <> 12 -> get_field 13 (shift - 13) (Z.lor e x) = get_field 13 (shift - 13) e).
  { intros N. apply ad_field; [assumption|lia|destruct mode; cbn in Hs; intuition lia]. }
  unfold decode. rewrite !ad_testbit, (ad_field e x 40 12), (ad_field e x 52 11),
    (ad_field e x 12 40), (ad_field e x 12 20), (ad_field e x 13 8), (ad_field e x 22 10), Hf
    by (assumption || lia).
  destruct (Z.eqb_spec shift 12) as [E|N]; [reflexivity|]. now rewrite Hr.
Qed.

(** The entries of a path with some accessed and dirty bits added. *)
Definition ad_path : list (Z * Z) -> list (Z * Z) -> Prop :=
  Forall2 (fun p q => fst q = fst p /\ exists x, ad_bits x /\ snd q = Z.lor (snd p) x).

Lemma ad_path_all (i : Z) (neg : bool) path path' :
  ad_path path path' -> 0 <= i -> i <> 5 -> i <> 6 ->
  all_entries (fun e => xorb neg (Z.testbit e i)) path'
  = all_entries (fun e => xorb neg (Z.testbit e i)) path.
Proof.
  intros F Hi N5 N6. unfold all_entries.
  induction F as [|[a e] [a' e'] p q [_ (x & A & E)] F IH]; [reflexivity|].
  cbn [forallb snd] in *. now rewrite IH, E, ad_testbit.
Qed.

Lemma ad_path_rights path path' : ad_path path path' ->
  path_writable path' = path_writable path /\ path_user path' = path_user path
  /\ path_executable path' = path_executable path /\ path_global path' = path_global path.
Proof.
  intros F. repeat split.
  - exact (ad_path_all 1 false _ _ F ltac:(lia) ltac:(lia) ltac:(lia)).
  - exact (ad_path_all 2 false _ _ F ltac:(lia) ltac:(lia) ltac:(lia)).
  - exact (ad_path_all 63 true _ _ F ltac:(lia) ltac:(lia) ltac:(lia)).
  - unfold path_global. induction F as [|[a e] [a' e'] p q [_ (x & A & E)] F IH]; [reflexivity|].
    destruct F as [|y z p q Hyz F].
    + cbn [last snd] in *. rewrite E. now apply ad_testbit.
    + exact IH.
Qed.

(** Bits already set need no write. *)
Lemma ad_writes_cons a e p path w :
  ad_writes ((a, e) :: p :: path) w
  = (if negb (Z.testbit e 5) then [(a, Z.lor e 0x20)] else []) ++ ad_writes (p :: path) w.
Proof. reflexivity. Qed.

Lemma ad_path_writes path path' w : ad_path path path' -> ad_writes path w = [] ->
  ad_writes path' w = [].
Proof.
  intros F. induction F as [|[a e] [a' e'] p q [_ (x & A & E)] F IH]; [reflexivity|].
  cbn [snd] in E. subst e'. destruct F as [|y z p q Hyz F].
  - cbn [ad_writes]. rewrite !Z.lor_spec.
    destruct (Z.testbit e 5), (Z.testbit x 5), (Z.testbit e 6), (Z.testbit x 6), w;
      cbn [negb andb orb]; congruence.
  - rewrite !ad_writes_cons. intros N. apply app_eq_nil in N. destruct N as [N1 N2].
    rewrite (IH N2), app_nil_r, Z.lor_spec.
    destruct (Z.testbit e 5); [reflexivity|discriminate].
Qed.

Section Memory.
Context {M : Type} `{PM : PhysicalMemory M} `{!PhysicalMemoryOk M}.

(** [m'] is [m] with accessed and dirty bits set in entries of plain memory. *)
Definition ad_le (c : cregs) (m m' : M) : Prop :=
  forall a, phy_ram m a -> a mod entry_size (mode_of c) = 0 ->
  phy_ram m' a /\ exists x, ad_bits x /\ entry_reader c m' a = Z.lor (entry_reader c m a) x.

Lemma ad_le_refl c m : ad_le c m m.
Proof. intros a Ra _. split; [exact Ra|]. exists 0. split; [reflexivity|]. now rewrite Z.lor_0_r. Qed.

Lemma ad_le_trans c m1 m2 m3 : ad_le c m1 m2 -> ad_le c m2 m3 -> ad_le c m1 m3.
Proof.
  intros L1 L2 a Ra Aa. destruct (L1 a Ra Aa) as (Ra2 & x & Ax & Ex).
  destruct (L2 a Ra2 Aa) as (Ra3 & y & Ay & Ey). split; [exact Ra3|].
  exists (Z.lor x y). split; [now apply ad_bits_lor|]. now rewrite Ey, Ex, Z.lor_assoc.
Qed.

Lemma entry_address_aligned mode table shift la :
  (2 ^ 12 | table) -> entry_address mode table shift la mod entry_size mode = 0.
Proof.
  intros [t ->]. unfold entry_address. rewrite Z.mod_add by (destruct mode; cbn; lia).
  apply Z.mod_divide; [destruct mode; cbn; lia|].
  destruct mode; cbn [entry_size];
    [exists (t * 512)|exists (t * 512)|exists (t * 1024)]; change (2 ^ 12) with 4096; ring.
Qed.

Lemma decode_table_aligned c mode shift e next :
  decode c mode shift e = Table next -> (2 ^ 12 | next).
Proof.
  unfold decode. destruct (negb _); [discriminate|]. destruct mode.
  1, 2: destruct (_ || _ || _); [discriminate|]; destruct (shift =? 12); [discriminate|];
    destruct (Z.testbit e 7); [destruct (_ || _); discriminate|];
    intros D; injection D as <-; now eexists.
  destruct (shift =? 12); [discriminate|].
  destruct (_ && _); [destruct (Z.testbit e 21); discriminate|].
  intros D. injection D as <-. now eexists.
Qed.

(** The addresses of a path are aligned. *)
Lemma ref_walk_aligned c mode mem shifts : forall table la, (2 ^ 12 | table) ->
  Forall (fun p => fst p mod entry_size mode = 0 /\ snd p = mem (fst p))
    (fst (ref_walk c mode mem shifts table la)).
Proof.
  induction shifts as [|sh shifts IH]; intros table la T; [constructor|].
  rewrite ref_walk_cons. cbv zeta.
  assert (H0 : (fun p => fst p mod entry_size mode = 0 /\ snd p = mem (fst p))
      (entry_address mode table sh la, mem (entry_address mode table sh la)))
    by (split; [now apply entry_address_aligned|reflexivity]).
  destruct (decode _ _ _ _) eqn:D; cbn [fst]; constructor; try exact H0; try constructor.
  apply IH. exact (decode_table_aligned _ _ _ _ _ D).
Qed.

Lemma ref_walk_ad c mode mem mem' shifts : incl shifts (level_shifts mode) ->
  forall table la, (2 ^ 12 | table) ->
  let r := ref_walk c mode mem shifts table la in
  let r' := ref_walk c mode mem' shifts table la in
  (forall a, In a (map fst (fst r)) -> a mod entry_size mode = 0 ->
     exists x, ad_bits x /\ mem' a = Z.lor (mem a) x) ->
  ad_path (fst r) (fst r') /\ snd r' = snd r.
Proof.
  induction shifts as [|sh shifts IH]; intros Hi table la T r r' Hm.
  { split; [constructor|reflexivity]. }
  apply incl_cons_inv in Hi. destruct Hi as [Hi1 Hi2].
  unfold r, r' in *. clear r r'. rewrite !ref_walk_cons in *. cbv zeta in *.
  set (a := entry_address mode table sh la) in *.
  assert (Ha : exists x, ad_bits x /\ mem' a = Z.lor (mem a) x).
  { apply Hm; [|now apply entry_address_aligned].
    destruct (decode c mode sh (mem a)); now left. }
  destruct Ha as (x & Ax & Ex). rewrite Ex, decode_ad by assumption.
  assert (H1 : fst (a, Z.lor (mem a) x) = fst (a, mem a)
    /\ exists y, ad_bits y /\ snd (a, Z.lor (mem a) x) = Z.lor (snd (a, mem a)) y) by eauto.
  destruct (decode c mode sh (mem a)) eqn:D; cbn [fst snd] in *;
    try (split; [constructor; [exact H1|constructor]|reflexivity]).
  destruct (IH Hi2 next la (decode_table_aligned _ _ _ _ _ D)) as [F E].
  { intros b Hb. apply Hm. now right. }
  split; [constructor; assumption|exact E].
Qed.

Lemma root_table_aligned c la t : root_table c la = Some t -> (2 ^ 12 | t).
Proof.
  unfold root_table. destruct (mode_of c).
  - intros E. injection E as <-. now eexists.
  - cbv zeta. destruct (Z.testbit _ 0); [|discriminate]. intros E. injection E as <-.
    now eexists.
  - intros E. injection E as <-. now eexists.
Qed.

Lemma walk_path_ad c m m' la : tables_in_ram c m -> ad_le c m m' ->
  let r := walk_path c (entry_reader c m) la in
  let r' := walk_path c (entry_reader c m') la in
  ad_path (fst r) (fst r') /\ snd r' = snd r.
Proof.
  intros R L. specialize (R la). unfold walk_path in *.
  destruct (root_table c la) as [t|] eqn:Et; [|split; [constructor|reflexivity]].
  apply ref_walk_ad; [apply incl_refl|now apply (root_table_aligned c la)|].
  intros a Ha Aa. apply L; [|assumption]. apply in_map_iff in Ha.
  destruct Ha as ([b e] & <- & Hb). rewrite Forall_forall in R. exact (R _ Hb).
Qed.

Lemma walk_path_aligned c m la :
  Forall (fun p => fst p mod entry_size (mode_of c) = 0 /\ snd p = entry_reader c m (fst p))
    (fst (walk_path c (entry_reader c m) la)).
Proof.
  unfold walk_path. destruct (root_table c la) as [t|] eqn:Et; [|constructor].
  exact (ref_walk_aligned c (mode_of c) (entry_reader c m) (level_shifts (mode_of c)) t la
    (root_table_aligned c la t Et)).
Qed.

Lemma tables_in_ram_ad c m m' : tables_in_ram c m -> ad_le c m m' -> tables_in_ram c m'.
Proof.
  intros R L la. destruct (walk_path_ad c m m' la R L) as [F _]. specialize (R la).
  pose proof (walk_path_aligned c m la) as A. revert R A.
  induction F as [|p q l l' [E _] F IH]; intros R A; constructor; inversion R; inversion A; subst.
  - rewrite E. now apply L.
  - now apply IH.
Qed.

Lemma ref_page_walk_ad c m m' la ac user rw : tables_in_ram c m -> ad_le c m m' ->
  let r := ref_page_walk c (entry_reader c m) la ac user rw in
  let r' := ref_page_walk c (entry_reader c m') la ac user rw in
  fst r' = fst r /\ (snd r = [] -> snd r' = []).
Proof.
  intros R L. destruct (walk_path_ad c m m' la R L) as [F E]. cbv zeta in *.
  unfold ref_page_walk. destruct (negb (get_PG c)); [split; auto|].
  destruct (walk_path c (entry_reader c m) la) as [p [code|[frame size]]],
    (walk_path c (entry_reader c m') la) as [p' r']; cbn [fst snd] in *; subst r';
    [split; auto|].
  destruct (ad_path_rights p p' F) as (-> & -> & -> & ->).
  destruct (access_ok _ _ _ _ _ _ _); cbn [fst snd]; [|split; auto].
  split; [reflexivity|]. intros N. exact (ad_path_writes p p' _ F N).
Qed.

(** ** After the writes of a walk *)

Lemma entry_size_cases mode : entry_size mode = 4 \/ entry_size mode = 8.
Proof. destruct mode; auto. Qed.

Lemma entry_reader_fits c m a : fits (8 * entry_size (mode_of c)) (entry_reader c m a).
Proof. apply phy_read_fits. destruct (entry_size_cases (mode_of c)); lia. Qed.

Lemma entry_read_write c m a b x : phy_ram m a -> phy_ram m b ->
  a mod entry_size (mode_of c) = 0 -> b mod entry_size (mode_of c) = 0 ->
  fits (8 * entry_size (mode_of c)) x ->
  entry_reader c (phy_write (entry_size (mode_of c)) b x m) a
  = if a =? b then x else entry_reader c m a.
Proof. intros. apply phy_read_write; auto using entry_size_cases. Qed.

Lemma ad_bits_fits n x : 8 <= n -> ad_bits x -> fits n x.
Proof.
  intros Hn E. unfold ad_bits in E. rewrite <- E. apply fits_land_r; [lia|].
  apply (fits_le 8); [lia|]. unfold fits. change (2 ^ 8) with 256. lia.
Qed.

(** An entry of the walked memory gets some of the bits. *)
Lemma ad_write c m0 m a x : phy_ram m0 a -> a mod entry_size (mode_of c) = 0 -> ad_bits x ->
  let m' := phy_write (entry_size (mode_of c)) a (Z.lor (entry_reader c m0 a) x) m in
  ad_le c m0 m ->
  ad_le c m0 m'
  /\ forall b, phy_ram m0 b -> b mod entry_size (mode_of c) = 0 ->
     entry_reader c m' b = if b =? a then Z.lor (entry_reader c m0 a) x else entry_reader c m b.
Proof.
  intros Ra Aa Ax m' L.
  assert (E : forall b, phy_ram m0 b -> b mod entry_size (mode_of c) = 0 ->
     entry_reader c m' b = if b =? a then Z.lor (entry_reader c m0 a) x else entry_reader c m b).
  { intros b Rb Ab. apply entry_read_write; try assumption; try (now apply L).
    apply fits_lor; [destruct (entry_size_cases (mode_of c)); lia|apply entry_reader_fits|].
    apply ad_bits_fits; [destruct (entry_size_cases (mode_of c)); lia|assumption]. }
  split; [|exact E]. intros b Rb Ab. destruct (L b Rb Ab) as [Rb' Lb].
  split; [apply phy_ram_write; auto using entry_size_cases; now apply L|]. rewrite E by assumption.
  destruct (Z.eqb_spec b a) as [->|]; [eauto|exact Lb].
Qed.

Definition path_ok (c : cregs) (m0 : M) (path : list (Z * Z)) : Prop :=
  Forall (fun p => phy_ram m0 (fst p) /\ fst p mod entry_size (mode_of c) = 0
                   /\ snd p = entry_reader c m0 (fst p)) path.

Definition accessed (c : cregs) (m : M) (a : Z) : Prop := Z.testbit (entry_reader c m a) 5 = true.
Definition dirty (c : cregs) (m : M) (a : Z) : Prop := Z.testbit (entry_reader c m a) 6 = true.

(** One conditional write of the walk. *)
Lemma ad_cond_write c m0 m a x (test : bool) :
  phy_ram m0 a -> a mod entry_size (mode_of c) = 0 -> ad_bits x -> Z.testbit x 5 = true ->
  ad_le c m0 m ->
  let m' := apply_writes (entry_size (mode_of c))
              (if test then [(a, Z.lor (entry_reader c m0 a) x)] else []) m in
  ad_le c m0 m'
  /\ (forall b, phy_ram m0 b -> b mod entry_size (mode_of c) = 0 -> accessed c m b -> accessed c m' b)
  /\ (test = true -> entry_reader c m' a = Z.lor (entry_reader c m0 a) x).
Proof.
  intros Ra Aa Ax X5 L. destruct test; cbn [apply_writes fold_left fst snd].
  2: { split; [assumption|]. split; [tauto|discriminate]. }
  destruct (ad_write c m0 m a x Ra Aa Ax L) as [L' E]. split; [assumption|]. split.
  - intros b Rb Ab Hb. unfold accessed. rewrite E by assumption.
    destruct (b =? a); [|assumption]. rewrite Z.lor_spec, X5. apply orb_true_r.
  - intros _. rewrite E by assumption. now rewrite Z.eqb_refl.
Qed.

Lemma ad_le_bit c m0 m a i : phy_ram m0 a -> a mod entry_size (mode_of c) = 0 -> ad_le c m0 m ->
  0 <= i -> Z.testbit (entry_reader c m0 a) i = true -> Z.testbit (entry_reader c m a) i = true.
Proof.
  intros Ra Aa L Hi B. destruct (L a Ra Aa) as (_ & x & _ & ->). now rewrite Z.lor_spec, B.
Qed.

Lemma apply_ad c m0 path w : path_ok c m0 path -> forall m, ad_le c m0 m ->
  let m' := apply_writes (entry_size (mode_of c)) (ad_writes path w) m in
  ad_le c m0 m'
  /\ (forall b, phy_ram m0 b -> b mod entry_size (mode_of c) = 0 -> accessed c m b -> accessed c m' b)
  /\ Forall (fun p => accessed c m' (fst p)) path
  /\ (w = true -> path <> [] -> dirty c m' (fst (last path (0, 0)))).
Proof.
  intros P. induction P as [|[a e] path (Ra & Aa & Ee) P IH]; intros m L.
  { cbn. split; [exact L|]. repeat split; auto. congruence. }
  cbn [fst snd] in Ra, Aa, Ee. subst e. destruct path as [|[a' e'] path].
  - cbv zeta. cbn [ad_writes last fst].
    destruct (ad_cond_write c m0 m a (if w then 0x60 else 0x20)
      (negb (Z.testbit (entry_reader c m0 a) 5) || (w && negb (Z.testbit (entry_reader c m0 a) 6)))
      Ra Aa) as (L' & K & W); [now destruct w|now destruct w|assumption|].
    set (m' := apply_writes _ _ _) in *. split; [exact L'|]. split; [exact K|]. split.
    + constructor; [|constructor]. unfold accessed. cbn [fst].
      destruct (Z.testbit (entry_reader c m0 a) 5) eqn:B5.
      * exact (ad_le_bit c m0 m' a 5 Ra Aa L' ltac:(lia) B5).
      * rewrite W by reflexivity. rewrite Z.lor_spec. destruct w; apply orb_true_r.
    + intros -> _. unfold dirty. destruct (Z.testbit (entry_reader c m0 a) 6) eqn:B6.
      * exact (ad_le_bit c m0 m' a 6 Ra Aa L' ltac:(lia) B6).
      * rewrite W by (now rewrite orb_true_r). rewrite Z.lor_spec. apply orb_true_r.
  - cbv zeta. rewrite ad_writes_cons, apply_writes_app.
    destruct (ad_cond_write c m0 m a 0x20 (negb (Z.testbit (entry_reader c m0 a) 5))
      Ra Aa eq_refl eq_refl L) as (L1 & K1 & W1).
    set (m1 := apply_writes (entry_size (mode_of c))
      (if negb (Z.testbit (entry_reader c m0 a) 5) then [(a, Z.lor (entry_reader c m0 a) 0x20)]
       else []) m) in *.
    destruct (IH m1 L1) as (L2 & K2 & F2 & D2).
    split; [exact L2|]. split; [auto|]. split; [|intros Hw _; apply D2; congruence].
    constructor; [|exact F2]. apply K2; try assumption. unfold accessed. cbn [fst].
    destruct (Z.testbit (entry_reader c m0 a) 5) eqn:B5.
    + exact (ad_le_bit c m0 m1 a 5 Ra Aa L1 ltac:(lia) B5).
    + rewrite W1 by reflexivity. rewrite Z.lor_spec. apply orb_true_r.
Qed.

Lemma no_ad_writes c m path w : path_ok c m path ->
  Forall (fun p => accessed c m (fst p)) path ->
  (w = true -> path <> [] -> dirty c m (fst (last path (0, 0)))) ->
  ad_writes path w = [].
Proof.
  intros P. induction P as [|[a e] path (_ & _ & E) P IH]; intros F D; [reflexivity|].
  inversion F as [|? ? Fa Fp]; subst. cbn [fst snd] in *. unfold accessed in Fa.
  rewrite <- E in Fa. destruct path as [|p path].
  - cbn [ad_writes]. rewrite Fa. cbn [negb orb]. destruct w; [|reflexivity].
    specialize (D eq_refl ltac:(discriminate)). unfold dirty in D. cbn [last fst] in D.
    rewrite <- E in D. now rewrite D.
  - rewrite ad_writes_cons, Fa. cbn [negb app]. apply IH; [exact Fp|].
    intros Hw _. apply D; [assumption|discriminate].
Qed.

Lemma walk_path_ok c m la : tables_in_ram c m ->
  path_ok c m (fst (walk_path c (entry_reader c m) la)).
Proof.
  intros R. specialize (R la). pose proof (walk_path_aligned c m la) as A.
  unfold path_ok. rewrite Forall_forall in *. intros p Hp.
  specialize (R p Hp). specialize (A p Hp). tauto.
Qed.

Lemma ad_path_fst path path' : ad_path path path' -> map fst path' = map fst path.
Proof. intros F. induction F as [|p q l l' [E _] F IH]; cbn [map]; congruence. Qed.

(** The effect of a successful walk on memory, and walking the page again for an
    access that needs no more than the first: nothing is left to write. *)
Lemma rewalk c m la path frame size w w' :
  tables_in_ram c m -> walk_path c (entry_reader c m) la = (path, inr (frame, size)) ->
  implb w' w = true ->
  let m' := apply_writes (entry_size (mode_of c)) (ad_writes path w) m in
  ad_le c m m' /\ ad_writes (fst (walk_path c (entry_reader c m') la)) w' = [].
Proof.
  intros R E Hw m'. pose proof (walk_path_ok c m la R) as P. rewrite E in P. cbn [fst] in P.
  destruct (apply_ad c m path w P m (ad_le_refl c m)) as (L & _ & F & D).
  fold m' in L, F, D. split; [exact L|].
  destruct (walk_path_ad c m m' la R L) as [Fp _]. rewrite E in Fp. cbn [fst] in Fp.
  apply ad_path_fst in Fp.
  assert (R' : tables_in_ram c m') by exact (tables_in_ram_ad c m m' R L).
  set (path' := fst (walk_path c (entry_reader c m') la)) in *.
  apply (no_ad_writes c m'); [now apply walk_path_ok| |].
  - apply Forall_map with (P := accessed c m'). rewrite Fp. now apply Forall_map.
  - intros Hw' N. destruct w; [|subst; discriminate].
    change 0 with (fst (0, 0)) in D at 1. rewrite <- (last_map fst) in *. rewrite Fp.
    apply D; [reflexivity|]. intros ->. destruct path'; [contradiction|discriminate].
Qed.

End Memory.
