(* ===== verification/TlbProps.v ===== *)
(** * The TLB arrays: slots, flushes and INVLPG

    What each flush leaves valid, and that INVLPG finds every entry of the page
    that contains the address, large pages included, because [split_large] is
    set whenever an entry of a large page is in the array. *)

From Stdlib Require Import ZArith Lia List Bool.
From S2P Require Import Prelude Cpu Tlb.
Import ListNotations.
Open Scope Z_scope.

(** ** The loops over the array *)

(** Entries change one by one and the masks of some are collected. *)
Lemma for_entries_spec (g : bx_TLB_entry -> bx_TLB_entry) (h : bx_TLB_entry -> Z) k :
  forall n t mask,
  let r := for_entries (fun e m => (g e, Z.lor m (h e))) k n (t, mask) in
  (forall i, entry (fst r) i =
     if (n <=? i) && (i <? n + Z.of_nat k) then g (entry t i) else entry t i)
  /\ split_large (fst r) = split_large t
  /\ forall j, Z.testbit (snd r) j = true <->
       Z.testbit mask j = true
       \/ exists i, n <= i < n + Z.of_nat k /\ Z.testbit (h (entry t i)) j = true.
Proof.
  induction k as [|k IH]; intros n t mask; cbn [for_entries].
  - cbn [fst snd]. split; [|split; [reflexivity|]].
    + intros i. destruct (Z.leb_spec n i), (Z.ltb_spec i (n + Z.of_nat 0)); try lia; reflexivity.
    + intros j. split; [tauto|]. intros [|(i & Hi & _)]; [assumption|lia].
  - specialize (IH (n + 1) (set_entry t n (g (entry t n))) (Z.lor mask (h (entry t n)))).
    cbv zeta in IH. destruct IH as (I1 & I2 & I3). cbv zeta.
    split; [|split; [exact I2|]].
    + intros i. rewrite I1. cbn [set_entry set_field entry].
      destruct (Z.leb_spec (n + 1) i), (Z.ltb_spec i (n + 1 + Z.of_nat k)),
        (Z.leb_spec n i), (Z.ltb_spec i (n + Z.of_nat (S k))), (Z.eqb_spec i n);
        try lia; subst; reflexivity.
    + intros j. rewrite I3, Z.lor_spec, orb_true_iff. cbn [set_entry set_field entry]. split.
      * intros [[|E]|(i & Hi & E)]; [tauto| |].
        -- right. exists n. split; [lia|assumption].
        -- right. exists i. split; [lia|]. destruct (Z.eqb_spec i n); [lia|assumption].
      * intros [|(i & Hi & E)]; [tauto|]. destruct (Z.eq_dec i n) as [->|N]; [tauto|].
        right. exists i. split; [lia|]. now rewrite (proj2 (Z.eqb_neq i n)).
Qed.

Lemma for_entries_ext b1 b2 : (forall e m, b1 e m = b2 e m) ->
  forall k n acc, for_entries b1 k n acc = for_entries b2 k n acc.
Proof.
  intros E k. induction k as [|k IH]; intros n [t m]; cbn [for_entries]; [reflexivity|].
  rewrite E. destruct (b2 (entry t n) m). apply IH.
Qed.

(** ** Masks of pages *)

(** [lpf_mask] of a page of [2^size] bytes, [size >= 12]. *)
Definition page_mask (m : Z) : Prop := exists size, 12 <= size < 32 /\ m = Z.ones size.

Lemma page_mask_small m : page_mask m -> m <= 0xfff -> m = 0xfff.
Proof.
  intros (size & Hs & ->) H. destruct (Z.eq_dec size 12) as [->|N]; [reflexivity|].
  assert (2 ^ 13 <= 2 ^ size) by (apply Z.pow_le_mono_r; lia).
  rewrite Z.ones_equiv in H. change (2 ^ 13) with 8192 in *. lia.
Qed.

(** A union of page masks exceeds 4K exactly when one of them does. *)
Lemma page_mask_bit12 m : page_mask m -> (0xfff <? m) = Z.testbit m 12.
Proof.
  intros (size & Hs & ->).
  destruct (Z.eq_dec size 12) as [->|N]; [reflexivity|].
  rewrite Z.ones_spec_low by lia. apply Z.ltb_lt. rewrite Z.ones_equiv.
  assert (2 ^ 13 <= 2 ^ size) by (apply Z.pow_le_mono_r; lia).
  change (2 ^ 13) with 8192 in *. lia.
Qed.

(** The entry translates addresses of the page that contains [la]. *)
Definition covers (la : Z) (e : bx_TLB_entry) : bool :=
  Z.land la (Z.lnot (lpf_mask e)) =? Z.land (lpf e) (Z.lnot (lpf_mask e)).

Lemma ldiff_low m x : 12 <= m -> Z.land (Z.land x LPF_MASK) (Z.lnot (Z.ones m))
  = Z.land (wrap 64 x) (Z.lnot (Z.ones m)).
Proof.
  intros. apply Z.bits_inj'. intros i Hi.
  rewrite !Z.land_spec, Z.lnot_spec, wrap_bit by lia.
  change LPF_MASK with (Z.shiftl (Z.ones 52) 12). rewrite mask_bit by lia.
  rewrite Z.testbit_ones by lia.
  destruct (Z.leb_spec 12 i), (Z.ltb_spec i (12 + 52)), (Z.ltb_spec i 64),
    (Z.leb_spec 0 i), (Z.ltb_spec i m); try lia; cbn [andb negb];
    now rewrite ?andb_true_r, ?andb_false_r.
Qed.

Section Array.
Variable size : Z.
Hypothesis size_pos : 0 < size.

(** Each valid entry is in its own slot, and large ones make the flag set. *)
Record tlb_wf (t : TLB) : Prop := {
  wf_slot i : 0 <= i < size -> valid (entry t i) = true ->
    get_index_of size (LPFOf (lpf (entry t i))) 0 = i;
  wf_fits i : 0 <= i < size -> valid (entry t i) = true -> fits 64 (lpf (entry t i));
  wf_mask i : 0 <= i < size -> valid (entry t i) = true -> page_mask (lpf_mask (entry t i));
  wf_split i : 0 <= i < size -> valid (entry t i) = true ->
    0xfff < lpf_mask (entry t i) -> split_large t = true;
}.

Lemma invalidate_invalid e : valid (invalidate e) = false.
Proof. reflexivity. Qed.

(** Entries are dropped or kept. *)
Definition subset_of (t' t : TLB) : Prop :=
  forall i, 0 <= i < size -> valid (entry t' i) = true -> entry t' i = entry t i.

Lemma flush_valid t i : 0 <= i < size -> valid (entry (flush size t) i) = false.
Proof.
  intros Hi. unfold flush.
  rewrite (for_entries_ext _ (fun e m => (invalidate e, Z.lor m ((fun _ => 0) e))))
    by (intros; now rewrite Z.lor_0_r).
  destruct (for_entries_spec invalidate (fun _ => 0) (Z.to_nat size) 0 t 0) as (E & _ & _).
  destruct (for_entries _ _ _ _) as [t' m]. cbn [fst snd] in *.
  cbn [set_field entry]. rewrite E.
  destruct (Z.leb_spec 0 i), (Z.ltb_spec i (0 + Z.of_nat (Z.to_nat size))); try lia.
  apply invalidate_invalid.
Qed.

Lemma flush_wf t : tlb_wf (flush size t).
Proof.
  split; intros i Hi V; rewrite flush_valid in V by assumption; discriminate.
Qed.

(** A loop that invalidates the entries chosen by [drop] and collects the masks
    of the valid ones that stay. *)
Definition drop_entries (drop : bx_TLB_entry -> bool) (t : TLB) : TLB :=
  let '(t', mask) :=
    for_entries (fun e mask =>
      if valid e then if drop e then (invalidate e, mask) else (e, Z.lor mask (lpf_mask e))
      else (e, mask)) (Z.to_nat size) 0 (t, 0) in
  t' <| split_large := 0xfff <? mask |>.

Definition dropped (drop : bx_TLB_entry -> bool) (e : bx_TLB_entry) : bx_TLB_entry :=
  if valid e && drop e then invalidate e else e.
Definition kept_mask (drop : bx_TLB_entry -> bool) (e : bx_TLB_entry) : Z :=
  if valid e && negb (drop e) then lpf_mask e else 0.

Lemma drop_entries_loop drop t :
  drop_entries drop t
  = let r := for_entries (fun e m => (dropped drop e, Z.lor m (kept_mask drop e)))
               (Z.to_nat size) 0 (t, 0) in
    (fst r) <| split_large := 0xfff <? snd r |>.
Proof.
  unfold drop_entries.
  rewrite (for_entries_ext _ (fun e m => (dropped drop e, Z.lor m (kept_mask drop e)))).
  - now destruct (for_entries _ _ _ _).
  - intros e m. unfold dropped, kept_mask.
    destruct (valid e), (drop e); cbn [andb negb]; now rewrite ?Z.lor_0_r.
Qed.

Lemma drop_entries_spec drop t i : 0 <= i < size ->
  entry (drop_entries drop t) i = dropped drop (entry t i).
Proof.
  intros Hi. rewrite drop_entries_loop. cbn [set_field entry].
  rewrite (proj1 (for_entries_spec (dropped drop) (kept_mask drop) (Z.to_nat size) 0 t 0)).
  destruct (Z.leb_spec 0 i), (Z.ltb_spec i (0 + Z.of_nat (Z.to_nat size))); lia || reflexivity.
Qed.

(** Only kept entries set bits of the collected mask. *)
Lemma kept_mask_high drop t j : tlb_wf t -> 32 <= j ->
  forall i, 0 <= i < size -> Z.testbit (kept_mask drop (entry t i)) j = false.
Proof.
  intros W Hj i Hi. unfold kept_mask.
  destruct (valid (entry t i) && negb (drop (entry t i))) eqn:V; [|apply Z.testbit_0_l].
  apply andb_true_iff in V. destruct (wf_mask t W i Hi (proj1 V)) as (sz & Hsz & ->).
  apply Z.ones_spec_high. lia.
Qed.

Lemma drop_entries_split drop t i : tlb_wf t -> 0 <= i < size ->
  valid (entry t i) = true -> drop (entry t i) = false -> 0xfff < lpf_mask (entry t i) ->
  split_large (drop_entries drop t) = true.
Proof.
  intros W Hi V Nd L. rewrite drop_entries_loop. cbn [set_field split_large].
  destruct (for_entries_spec (dropped drop) (kept_mask drop) (Z.to_nat size) 0 t 0)
    as (_ & _ & E).
  destruct (for_entries _ _ _ _) as [t' m]. cbn [fst snd] in *.
  assert (B : Z.testbit m 12 = true).
  { apply E. right. exists i. split; [lia|]. unfold kept_mask. rewrite V, Nd. cbn [andb negb].
    rewrite <- page_mask_bit12 by (apply (wf_mask t W); assumption). now apply Z.ltb_lt. }
  assert (M0 : 0 <= m).
  { apply Z.nlt_ge. intros Neg. apply Z.bits_iff_neg_ex in Neg. destruct Neg as [k Hk].
    specialize (Hk (Z.max k 32 + 1) ltac:(lia)). apply E in Hk.
    destruct Hk as [Hk|(j & Hj & Hk)]; [now rewrite Z.testbit_0_l in Hk|].
    rewrite (kept_mask_high drop t _ W) in Hk by lia. discriminate. }
  apply Z.ltb_lt. apply Z.nle_gt. intros Le.
  rewrite (fits_testbit 12 m 12) in B; [discriminate|lia|unfold fits; change (2 ^ 12) with 4096; lia|lia].
Qed.

Lemma drop_entries_wf drop t : tlb_wf t -> tlb_wf (drop_entries drop t).
Proof.
  intros W. split; intros i Hi; rewrite drop_entries_spec by assumption; unfold dropped;
    (destruct (valid (entry t i) && drop (entry t i)) eqn:D; [discriminate|]); intros V.
  4: { intros L. apply (drop_entries_split drop t i); try assumption. now rewrite V in D. }
  all: now apply W.
Qed.

Lemma flushNonGlobal_drop t :
  flushNonGlobal size t
  = drop_entries (fun e => Z.land (accessBits e) TLB_GlobalPage =? 0) t.
Proof. reflexivity. Qed.

(** ** INVLPG *)

Lemma small_covers la e : lpf_mask e = 0xfff -> fits 64 la -> fits 64 (lpf e) ->
  covers la e = (LPFOf (lpf e) =? LPFOf la).
Proof.
  intros Em Hl He. unfold covers. rewrite Em, Z.eqb_sym.
  assert (A : forall x, fits 64 x -> Z.land x (Z.lnot 0xfff) = LPFOf x).
  { intros x Hx. change 0xfff with (Z.ones 12). rewrite <- (wrap_id 64 x Hx) at 1.
    rewrite <- ldiff_low by lia. unfold LPFOf. rewrite <- Z.land_assoc.
    f_equal. }
  now rewrite !A.
Qed.

Lemma index_of_frame la : fits 64 la -> get_index_of size (LPFOf la) 0 = get_index_of size la 0.
Proof.
  intros Hl. unfold get_index_of. f_equal. apply Z.bits_inj'. intros i Hi.
  rewrite !Z.add_0_r, !Z.land_spec, Z.shiftl_spec, !wrap_bit by lia. unfold LPFOf.
  rewrite Z.land_spec. change LPF_MASK with (Z.shiftl (Z.ones 52) 12). rewrite mask_bit by lia.
  destruct (Z.ltb_spec i 32), (Z.leb_spec 12 i), (Z.ltb_spec i (12 + 52)); try lia;
    cbn [andb]; rewrite ?andb_true_r, ?andb_false_r; try reflexivity.
  rewrite (Z.testbit_neg_r _ (i - 12)) by lia. now rewrite ?andb_false_r.
Qed.

Lemma invlpg_entry t la i : tlb_wf t -> fits 64 la -> 0 <= i < size ->
  let e := entry t i in
  let e' := entry (invlpg size la t) i in
  valid e' = valid e && negb (covers la e) /\ (valid e' = true -> e' = e).
Proof.
  intros W Hl Hi e e'. unfold e'. clear e'. unfold invlpg.
  destruct (split_large t) eqn:Sp.
  - change (let '(t', mask) := for_entries _ _ _ _ in t' <| split_large := 0xfff <? mask |>)
      with (drop_entries (covers la) t).
    rewrite drop_entries_spec by assumption. unfold dropped. fold e.
    destruct (valid e) eqn:V, (covers la e); cbn [andb negb];
      rewrite ?invalidate_invalid, ?V; split; congruence || reflexivity.
  - assert (Small : valid e = true -> covers la e = (LPFOf (lpf e) =? LPFOf la)).
    { intros V. apply small_covers; [|assumption|now apply (wf_fits t W)].
      apply page_mask_small; [now apply (wf_mask t W)|]. apply Z.nlt_ge. intros L.
      rewrite (wf_split t W i Hi V L) in Sp. discriminate. }
    assert (Own : valid e = true -> LPFOf (lpf e) = LPFOf la -> get_index_of size la 0 = i).
    { intros V E. rewrite <- index_of_frame, <- E by assumption. now apply (wf_slot t W). }
    unfold get_entry_of. set (n := get_index_of size la 0) in *.
    destruct (Z.eqb_spec (LPFOf (lpf (entry t n))) (LPFOf la)) as [El|Nl].
    + cbn [set_entry set_field entry]. destruct (Z.eqb_spec i n) as [->|Ni].
      * fold e in El |- *. rewrite invalidate_invalid. split; [|discriminate].
        destruct (valid e); [|reflexivity]. now rewrite Small, El, Z.eqb_refl.
      * fold e. split; [|reflexivity]. destruct (valid e); [|reflexivity].
        rewrite Small by reflexivity.
        destruct (Z.eqb_spec (LPFOf (lpf e)) (LPFOf la)) as [E|]; [|reflexivity].
        symmetry in Own. now apply Own in E.
    + fold e. split; [|reflexivity]. destruct (valid e); [|reflexivity].
      rewrite Small by reflexivity.
      destruct (Z.eqb_spec (LPFOf (lpf e)) (LPFOf la)) as [E|]; [|reflexivity].
      exfalso. apply Nl. now rewrite Own.
Qed.

Lemma invlpg_wf t la : tlb_wf t -> tlb_wf (invlpg size la t).
Proof.
  intros W. unfold invlpg. destruct (split_large t) eqn:Sp.
  - exact (drop_entries_wf (covers la) t W).
  - destruct (_ =? _); [|assumption].
    split; intros i Hi; cbn [set_entry set_field entry split_large]; destruct (_ =? _);
      try discriminate; now apply W.
Qed.

End Array.
