(* ===== verification/TlbSound.v ===== *)
(** * The TLB is transparent

    Every entry agrees with the page tables: an access it grants would be
    translated by a page walk to the same address, and the walk would write
    nothing.  [translate_linear] keeps this, so it does what a processor without
    a TLB does. *)

From Stdlib Require Import ZArith Lia List Bool.
From S2P Require Import Prelude LazyFlags Cpu Tlb TlbProps Paging PagingSpec PagingRefine PagingAd.
Import ListNotations.
Open Scope Z_scope.

(** ** What an entry grants *)

(** The tests of the data TLB ([translate_linear], [isReadOK], [isWriteOK]) and
    of instruction fetch. *)
Definition grants (itlb : bool) (e : bx_TLB_entry) (user : bool) (rw : Z) : bool :=
  if itlb then (rw =? BX_EXECUTE) && anyb (accessBits e) (Z.shiftl 1 (Z.b2z user))
  else negb (rw =? BX_EXECUTE)
       && anyb (accessBits e) (Z.shiftl 1 (Z.lor (Z.shiftl (Z.land rw 1) 1) (Z.b2z user))).

Definition a20_ok (c : cregs) : Prop := fits 64 (a20_mask c) /\ Z.land (a20_mask c) 0xfff = 0xfff.

Section Sound.
Context {M : Type} `{PM : PhysicalMemory M} `{!PhysicalMemoryOk M}.
Implicit Types s : mmu M.

Definition entry_ok (itlb : bool) (c : cregs) (m : M) (e : bx_TLB_entry) : Prop :=
  forall la ac user rw, 0 <= rw < 4 -> fits 64 la -> LPFOf la = TLB_LPFOf (lpf e) ->
  grants itlb e user rw = true ->
  exists pa combined,
    ref_page_walk c (entry_reader c m) la ac user rw = (inr (pa, combined, lpf_mask e), [])
    /\ A20ADDR c pa = Z.lor (ppf e) (PAGE_OFFSET la)
    /\ anyb combined BX_COMBINED_GLOBAL_PAGE = anyb (accessBits e) TLB_GlobalPage.

Record tlb_ok (itlb : bool) (size : Z) (c : cregs) (m : M) (t : TLB) : Prop := {
  ok_wf : tlb_wf size t;
  ok_entries i : 0 <= i < size -> valid (entry t i) = true -> entry_ok itlb c m (entry t i);
}.

Record mmu_ok s : Prop := {
  ok_a20 : a20_ok (regs s);
  ok_ram : tables_in_ram (regs s) (phys s);
  ok_DTLB : tlb_ok false BX_DTLB_SIZE (regs s) (phys s) (DTLB s);
  ok_ITLB : tlb_ok true BX_ITLB_SIZE (regs s) (phys s) (ITLB s);
}.

Lemma entry_ok_ad itlb c m m' e : tables_in_ram c m -> ad_le c m m' ->
  entry_ok itlb c m e -> entry_ok itlb c m' e.
Proof.
  intros R L E la ac user rw Hrw Hl Hp G. destruct (E la ac user rw Hrw Hl Hp G) as (pa & cb & W & A).
  exists pa, cb. destruct (ref_page_walk_ad c m m' la ac user rw R L) as [F1 F2].
  rewrite W in F1, F2. cbn [fst snd] in *.
  split; [|exact A]. rewrite (surjective_pairing (ref_page_walk _ _ _ _ _ _)).
  now rewrite F1, F2.
Qed.

Lemma tlb_ok_ad itlb size c m m' t : tables_in_ram c m -> ad_le c m m' ->
  tlb_ok itlb size c m t -> tlb_ok itlb size c m' t.
Proof.
  intros R L [W E]. split; [exact W|]. intros i Hi V.
  apply (entry_ok_ad itlb c m); auto.
Qed.

Lemma tlb_ok_invalidate itlb size c m t i : tlb_ok itlb size c m t ->
  tlb_ok itlb size c m (set_entry t i (invalidate (entry t i))).
Proof.
  intros [W E]. split.
  - split; intros j Hj; cbn [set_entry set_field entry split_large]; destruct (_ =? _);
      try discriminate; now apply W.
  - intros j Hj. cbn [set_entry set_field entry]. destruct (_ =? _); [discriminate|now apply E].
Qed.

(** ** Frames and offsets *)

Lemma lpf_bits la i : 0 <= i ->
  Z.testbit (LPFOf la) i = (12 <=? i) && (i <? 64) && Z.testbit la i.
Proof.
  intros Hi. unfold LPFOf. change LPF_MASK with (Z.shiftl (Z.ones 52) 12).
  rewrite Z.land_spec, mask_bit by lia. change (12 + 52) with 64. apply andb_comm.
Qed.

Lemma TLB_LPFOf_bits l i : 0 <= i ->
  Z.testbit (TLB_LPFOf l) i = ((12 <=? i) && (i <? 64) || (i <? 11)) && Z.testbit l i.
Proof.
  intros Hi. unfold TLB_LPFOf, AlignedAccessLPFOf.
  change LPF_MASK with (Z.shiftl (Z.ones 52) 12). change 0x7ff with (Z.shiftl (Z.ones 11) 0).
  rewrite Z.land_spec, Z.lor_spec, !mask_bit by lia. rewrite andb_comm. f_equal. f_equal.
  change (12 + 52) with 64. change (0 + 11) with 11. destruct (Z.leb_spec 0 i); [reflexivity|lia].
Qed.

(** An entry whose frame matches is valid. *)
Lemma match_valid e la : TLB_LPFOf (lpf e) = LPFOf la -> valid e = true.
Proof.
  intros E. unfold valid. destruct (Z.eqb_spec (lpf e) BX_INVALID_TLB_ENTRY) as [I|]; [|reflexivity].
  exfalso. assert (B : Z.testbit (LPFOf la) 0 = Z.testbit (TLB_LPFOf (lpf e)) 0) by now rewrite E.
  rewrite lpf_bits, TLB_LPFOf_bits, I in B by lia. discriminate.
Qed.

Lemma filled_frame la e (host : bool) : fits 64 la ->
  lpf e = (if host then LPFOf la else Z.lor (LPFOf la) TLB_NoHostPtr) ->
  TLB_LPFOf (lpf e) = LPFOf la /\ LPFOf (lpf e) = LPFOf la /\ fits 64 (lpf e).
Proof.
  intros Hl ->. assert (F : fits 64 (LPFOf la)) by (apply fits_land_l; [lia|assumption]).
  change TLB_NoHostPtr with (Z.shiftl (Z.ones 1) 11). split; [|split].
  - apply Z.bits_inj'. intros i Hi. rewrite TLB_LPFOf_bits by lia.
    destruct host; rewrite ?Z.lor_spec, ?mask_bit, !lpf_bits by lia;
      destruct (Z.leb_spec 12 i), (Z.ltb_spec i 64), (Z.ltb_spec i 11), (Z.leb_spec 11 i),
        (Z.ltb_spec i (11 + 1)); lia || (cbn [andb orb]; now rewrite ?orb_false_r).
  - apply Z.bits_inj'. intros i Hi. rewrite lpf_bits by lia.
    destruct host; rewrite ?Z.lor_spec, ?mask_bit, !lpf_bits by lia;
      destruct (Z.leb_spec 12 i), (Z.ltb_spec i 64), (Z.leb_spec 11 i),
        (Z.ltb_spec i (11 + 1)); lia || (cbn [andb orb]; now rewrite ?orb_false_r).
  - destruct host; [apply F|]. apply fits_lor; [lia|exact F|]. unfold fits. vm_compute. split; congruence.
Qed.

(** Addresses of one page differ below bit 12 only. *)
Definition same_frame (la la0 : Z) : Prop :=
  forall i, 12 <= i -> Z.testbit la i = Z.testbit la0 i.

Lemma same_frame_lpf la la0 : fits 64 la -> fits 64 la0 -> LPFOf la = LPFOf la0 -> same_frame la la0.
Proof.
  intros H1 H2 E i Hi.
  destruct (Z.ltb_spec i 64).
  - assert (B : Z.testbit (LPFOf la) i = Z.testbit (LPFOf la0) i) by now rewrite E.
    rewrite !lpf_bits in B by lia.
    destruct (Z.leb_spec 12 i), (Z.ltb_spec i 64); try lia. exact B.
  - now rewrite !(fits_testbit 64) by (assumption || lia).
Qed.

Lemma same_frame_field la la0 p n : same_frame la la0 -> 12 <= p -> 0 <= n ->
  get_field p n la = get_field p n la0.
Proof.
  intros S Hp Hn. apply Z.bits_inj'. intros i Hi. rewrite !get_field_bit, S by lia. reflexivity.
Qed.

Lemma same_frame_walk c mem la la0 : same_frame la la0 -> walk_path c mem la = walk_path c mem la0.
Proof.
  intros S. unfold walk_path, root_table. rewrite (same_frame_field la la0 30 2 S) by lia.
  assert (E : forall shifts, incl shifts (level_shifts (mode_of c)) -> forall t,
    ref_walk c (mode_of c) mem shifts t la = ref_walk c (mode_of c) mem shifts t la0).
  { intros shifts. induction shifts as [|sh shifts IH]; intros Hi t; [reflexivity|].
    apply incl_cons_inv in Hi. destruct Hi as [Hi1 Hi2]. cbn [ref_walk]. unfold entry_address.
    rewrite (same_frame_field la la0 sh) by
      (try assumption; destruct (mode_of c); cbn in *; intuition lia).
    destruct (decode _ _ _ _); try reflexivity. now rewrite IH. }
  destruct (mode_of c); [| destruct (Z.testbit _ 0)|]; try reflexivity; apply E, incl_refl.
Qed.

Lemma frame_bits frame size la i : 12 <= size -> (2 ^ size | frame) -> 0 <= i ->
  Z.testbit (frame + la mod 2 ^ size) i
  = if i <? size then Z.testbit la i else Z.testbit frame i.
Proof.
  intros Hs [f ->] Hi. rewrite Z.add_comm, Z.add_comm, (Z.mul_comm f).
  rewrite <- lor_shiftl_add by (try apply (wrap_fits size); lia).
  rewrite Z.lor_spec, Z.shiftl_spec by lia. change (la mod 2 ^ size) with (wrap size la).
  rewrite wrap_bit by lia. destruct (Z.ltb_spec i size).
  - now rewrite (Z.testbit_neg_r _ (i - size)) by lia.
  - cbn [andb]. rewrite orb_false_r, (Z.mul_comm _ f), Z.mul_pow2_bits by lia. reflexivity.
Qed.

Lemma a20_frame c pa pa0 la : a20_ok c ->
  (forall i, 12 <= i -> Z.testbit pa i = Z.testbit pa0 i) ->
  (forall i, 0 <= i < 12 -> Z.testbit pa i = Z.testbit la i) ->
  A20ADDR c pa = Z.lor (PPFOf (A20ADDR c pa0)) (PAGE_OFFSET la).
Proof.
  intros [F A] Hh Hl. apply Z.bits_inj'. intros i Hi. unfold A20ADDR, PAGE_OFFSET.
  change PPFOf with LPFOf. rewrite Z.lor_spec, lpf_bits, !Z.land_spec, wrap_bit by lia.
  change 0xfff with (Z.shiftl (Z.ones 12) 0). rewrite mask_bit by lia.
  destruct (Z.leb_spec 12 i), (Z.ltb_spec i 64), (Z.ltb_spec i (0 + 12)), (Z.leb_spec 0 i),
    (Z.ltb_spec i 32); try lia; cbn [andb orb]; rewrite ?andb_true_r, ?andb_false_r, ?orb_false_r.
  all: try (rewrite (fits_testbit 64 (a20_mask c)) by (assumption || lia);
            now rewrite !andb_false_r).
  all: try (now rewrite Hh by lia).
  rewrite Hl by lia.
  assert (B : Z.testbit (Z.land (a20_mask c) 0xfff) i = Z.testbit 0xfff i) by now rewrite A.
  change 0xfff with (Z.shiftl (Z.ones 12) 0) in B. rewrite Z.land_spec, mask_bit in B by lia.
  destruct (Z.ltb_spec i (0 + 12)), (Z.leb_spec 0 i); try lia. cbn [andb] in B.
  rewrite andb_true_r in B. now rewrite B, andb_true_r.
Qed.

(** ** Filling an entry *)

Definition rw_cases (rw : Z) : Prop := rw = 0 \/ rw = 1 \/ rw = 2 \/ rw = 3.

Lemma rw_range rw : 0 <= rw < 4 -> rw_cases rw.
Proof. unfold rw_cases. lia. Qed.

(** The bits a filled entry has when paging is on. *)
Lemma filled_bits c (user0 : bool) rw0 (W U G user : bool) rw : get_PG c = true -> rw_cases rw0 -> rw_cases rw ->
  let e := TLBEntry 0 0 0 (fill_access_bits c user0 rw0 (combined_of W U G)) 0 in
  grants (rw0 =? BX_EXECUTE) e user rw
  = Bool.eqb (rw0 =? BX_EXECUTE) (rw =? BX_EXECUTE)
    && implb (Z.testbit rw 0) (Z.testbit rw0 0)
    && (if user then U && user0
        else negb (U && if rw0 =? BX_EXECUTE then get_SMEP c else get_SMAP c)).
Proof.
  intros Pg R0 R e. unfold e, grants, fill_access_bits. cbn [accessBits].
  rewrite Pg, combined_user, combined_global. cbn [negb].
  destruct R0 as [->|[->|[->| ->]]], R as [->|[->|[->| ->]]];
    destruct U, G, user0, user, (get_SMEP c), (get_SMAP c); reflexivity.
Qed.

Lemma filled_global c user0 rw0 W U G : rw_cases rw0 ->
  anyb (fill_access_bits c user0 rw0 (combined_of W U G)) TLB_GlobalPage = G.
Proof.
  intros R0. unfold fill_access_bits. rewrite combined_user, combined_global.
  destruct R0 as [->|[->|[->| ->]]];
    destruct (get_PG c), U, G, user0, (get_SMEP c), (get_SMAP c); reflexivity.
Qed.

(** Rights that were enough once are enough for what the entry grants. *)
Lemma granted_access c (ac0 user0 : bool) rw0 (ac user : bool) rw (W U X : bool) :
  rw_cases rw0 -> rw_cases rw -> access_ok c ac0 user0 rw0 W U X = true ->
  Bool.eqb (rw0 =? BX_EXECUTE) (rw =? BX_EXECUTE)
    && implb (Z.testbit rw 0) (Z.testbit rw0 0)
    && (if user then U && user0
        else negb (U && if rw0 =? BX_EXECUTE then get_SMEP c else get_SMAP c)) = true ->
  access_ok c ac user rw W U X = true.
Proof.
  intros R0 R A G. unfold access_ok in *.
  destruct R0 as [->|[->|[->| ->]]], R as [->|[->|[->| ->]]]; try discriminate G;
    destruct W, U, X, user0, user, (get_SMEP c), (get_SMAP c), (get_WP c), ac;
    try reflexivity; try discriminate G; destruct ac0; discriminate A.
Qed.

Lemma page_mask_of_size size : In size [12; 21; 22; 30] -> page_mask (2 ^ size - 1).
Proof.
  intros H. exists size. rewrite Z.ones_equiv. split; [|lia].
  destruct H as [<-|[<-|[<-|[<-|[]]]]]; lia.
Qed.

(** The unpaged walk. *)
Lemma no_paging_bits c user0 rw0 : get_PG c = false -> rw_cases rw0 ->
  anyb (fill_access_bits c user0 rw0 0xc06) TLB_GlobalPage = false.
Proof.
  intros Pg R0. unfold fill_access_bits. rewrite Pg.
  destruct R0 as [->|[->|[->| ->]]]; reflexivity.
Qed.

Lemma fill_entry_ok c m la0 ac0 user0 rw0 pa0 combined mask writes host (direct : bool) :
  a20_ok c -> tables_in_ram c m -> rw_cases rw0 -> fits 64 la0 ->
  ref_page_walk c (entry_reader c m) la0 ac0 user0 rw0 = (inr (pa0, combined, mask), writes) ->
  let m' := apply_writes (entry_size (mode_of c)) writes m in
  ad_le c m m' /\ page_mask mask /\
  entry_ok (rw0 =? BX_EXECUTE) c m'
    (TLBEntry (if direct then LPFOf la0 else Z.lor (LPFOf la0) TLB_NoHostPtr)
       (PPFOf (A20ADDR c pa0)) host (fill_access_bits c user0 rw0 combined) mask).
Proof.
  intros A20 R R0 Hl0 W m'.
  match goal with |- context [entry_ok _ _ _ ?x] => set (e := x) end.
  assert (Hf : TLB_LPFOf (lpf e) = LPFOf la0) by (now apply (filled_frame la0 e direct)).
  unfold ref_page_walk in W. destruct (get_PG c) eqn:Pg; cbn [negb] in W.
  2: { injection W as <- <- <- <-. split; [apply ad_le_refl|].
       split; [exists 12; split; [lia|reflexivity]|].
       intros la ac user rw Hrw Hl E G. rewrite Hf in E. exists la, 0xc06.
       unfold ref_page_walk. rewrite Pg. split; [reflexivity|]. split.
       - apply a20_frame; [assumption| |reflexivity].
         apply (same_frame_lpf la la0); assumption.
       - unfold e. cbn [accessBits].
         now rewrite (no_paging_bits c user0 rw0 Pg R0). }
  destruct (walk_path c (entry_reader c m) la0) as [path [code|[frame size]]] eqn:Ew;
    [discriminate|].
  set (Wr := path_writable path) in *. set (Us := path_user path) in *.
  set (Ex := path_executable path) in *.
  destruct (access_ok c ac0 user0 rw0 Wr Us Ex) eqn:Ok0; [|discriminate].
  injection W as <- <- <- <-.
  destruct (walk_path_frame c _ la0 path frame size Ew) as [Hs Hd].
  assert (Hs12 : 12 <= size) by (destruct Hs as [<-|[<-|[<-|[<-|[]]]]]; lia).
  split; [exact (proj1 (rewalk c m la0 path frame size _ _ R Ew (implb_same (Z.testbit rw0 0))))|].
  split; [now apply page_mask_of_size|].
  intros la ac user rw Hrw Hl E G. rewrite Hf in E.
  pose proof (same_frame_lpf la la0 Hl Hl0 E) as Sf.
  assert (G' := G). change (grants (rw0 =? BX_EXECUTE) e user rw)
    with (grants (rw0 =? BX_EXECUTE) (TLBEntry 0 0 0 (accessBits e) 0) user rw) in G'.
  unfold e in G'. cbn [accessBits] in G'.
  rewrite (filled_bits c user0 rw0) in G' by (auto using rw_range).
  pose proof (granted_access c ac0 user0 rw0 ac user rw Wr Us Ex R0 (rw_range rw Hrw) Ok0 G') as Ok1.
  assert (Hw : implb (Z.testbit rw 0) (Z.testbit rw0 0) = true)
    by (now apply andb_true_iff in G'; destruct G' as [G' _]; apply andb_true_iff in G').
  destruct (rewalk c m la0 path frame size _ _ R Ew Hw) as [L Nw]. fold m' in L, Nw.
  exists (frame + la mod 2 ^ size), (combined_of Wr Us (get_PGE c && path_global path)).
  split; [|split].
  - unfold ref_page_walk. rewrite Pg. cbn [negb].
    rewrite (same_frame_walk c _ la la0 Sf).
    destruct (walk_path_ad c m m' la0 R L) as [Fp Er]. cbv zeta in Fp, Er.
    rewrite Ew in Fp, Er. cbn [fst snd] in Fp, Er.
    unfold m' in Fp, Er, Nw |- *.
    destruct (walk_path c (entry_reader c (apply_writes _ _ m)) la0) as [path' r'].
    cbn [fst snd] in *. subst r'. destruct (ad_path_rights path path' Fp) as (-> & -> & -> & ->).
    fold Wr Us Ex. rewrite Ok1, Nw. reflexivity.
  - apply a20_frame; [assumption| |]; intros i Hi; rewrite ?frame_bits by (assumption || lia).
    + destruct (i <? size); [apply Sf; lia|reflexivity].
    + destruct (Z.ltb_spec i size); [reflexivity|lia].
  - unfold e. cbn [accessBits]. rewrite filled_global, combined_global by assumption.
    reflexivity.
Qed.

(** ** [translate_linear] *)

(** The error code of a page fault: the walk's code and the kind of access; the
    fetch bit only where fetches can be refused on their own. *)
Definition page_fault_code (c : cregs) (fault : Z) (user : bool) (rw : Z) : Z :=
  Z.lor (Z.lor (Z.lor fault (4 * Z.b2z user)) (2 * Z.b2z (Z.testbit rw 0)))
    (16 * Z.b2z ((rw =? BX_EXECUTE) && (get_SMEP c || (get_PAE c && get_NXE c)))).

Lemma page_fault_eq {A} fault la user rw s : 0 <= rw < 4 ->
  page_fault (A := A) fault la user rw s
  = Fault (Exn BX_PF_EXCEPTION (page_fault_code (regs s) fault user rw)) (s <| cr2 := la |>).
Proof.
  intros Hrw. unfold page_fault, page_fault_code. f_equal. f_equal.
  rewrite rw_write by assumption. rewrite !Z.shiftl_mul_pow2 by lia.
  change (2 ^ 2) with 4. change (2 ^ 1) with 2.
  rewrite (Z.mul_comm 4), (Z.mul_comm 2). set (x := Z.lor (Z.lor fault _) _). clearbody x.
  destruct (rw =? BX_EXECUTE), (get_SMEP (regs s)), (get_PAE (regs s)), (get_NXE (regs s));
    cbn [andb orb Z.b2z]; change (16 * 1) with 16; change (16 * 0) with 0;
    change ERROR_CODE_ACCESS with 16; rewrite ?Z.lor_0_r; try reflexivity.
  now rewrite <- Z.lor_assoc, Z.lor_diag.
Qed.

(** What a processor without a TLB does. *)
Definition walked (la : Z) (user : bool) (rw : Z) s (o : outcome (mmu M) Z) : Prop :=
  let c := regs s in
  match ref_page_walk c (entry_reader c (phys s)) la (eflags_AC c) user rw with
  | (inl code, _) => exists s',
      o = Fault (Exn BX_PF_EXCEPTION (page_fault_code c code user rw)) s'
      /\ cr2 s' = la /\ phys s' = phys s /\ regs s' = c /\ mmu_ok s'
  | (inr (pa, _, _), writes) => exists s',
      o = Ok (A20ADDR c pa) s' /\ cr2 s' = cr2 s
      /\ phys s' = apply_writes (entry_size (mode_of c)) writes (phys s)
      /\ regs s' = c /\ mmu_ok s'
  end.

(** The slot [laddr] selects for the access. *)
Definition slot_of (laddr rw : Z) : tlb_slot :=
  if rw =? BX_EXECUTE then ISlot (get_index_of BX_ITLB_SIZE laddr 0)
  else DSlot (get_index_of BX_DTLB_SIZE laddr 0).

Lemma index_range size k la : size = 2 ^ k -> 0 <= k <= 20 -> 0 <= get_index_of size la 0 < size.
Proof.
  intros -> Hk. unfold get_index_of.
  replace (2 ^ k - 1) with (Z.ones k) by (rewrite Z.ones_equiv; lia).
  rewrite land_mask, Z.shiftr_div_pow2, Z.div_mul by lia. now apply field_fits.
Qed.

Lemma tlb_fill_ok itlb size c m m' t n e large :
  tables_in_ram c m -> ad_le c m m' -> tlb_ok itlb size c m t -> 0 <= n < size ->
  fits 64 (lpf e) -> page_mask (lpf_mask e) -> get_index_of size (LPFOf (lpf e)) 0 = n ->
  large = (0xfff <? lpf_mask e) -> entry_ok itlb c m' e ->
  tlb_ok itlb size c m' (set_entry (if large then t <| split_large := true |> else t) n e).
Proof.
  intros R L T Hn Hf Hm Hi -> E. apply (tlb_ok_ad itlb size c m m' t R L) in T.
  destruct T as [[W1 W2 W3 W4] O]. split.
  - split; intros i Hri; cbn [set_entry set_field entry split_large];
      destruct (Z.ltb_spec 0xfff (lpf_mask e)) as [Hl|Hl]; cbn [entry split_large set_field];
      destruct (Z.eqb_spec i n) as [->|]; intros; try lia; eauto.
  - intros i Hri. destruct (_ <? _); cbn [set_entry set_field entry];
      destruct (Z.eqb_spec i n) as [->|]; auto.
Qed.

Lemma mmu_ok_invalidate p s : mmu_ok s ->
  exists s', (e <-- read_slot p ;; write_slot p (invalidate e)) s = Ok tt s'
    /\ mmu_ok s' /\ phys s' = phys s /\ regs s' = regs s /\ cr2 s' = cr2 s.
Proof.
  intros [A R D I]. destruct p as [n|n]; eexists; (split; [reflexivity|]);
    (split; [split; cbn [set_field regs phys DTLB ITLB]; auto using tlb_ok_invalidate|auto]).
Qed.

Lemma translate_linear_miss_walked la user rw s :
  mmu_ok s -> 0 <= rw < 4 -> fits 64 la ->
  walked la user rw s (translate_linear_miss (slot_of la rw) la user rw s).
Proof.
  intros [A20 R D I] Hrw Hl. unfold translate_linear_miss. unfold xbind at 1.
  rewrite page_walk_spec by assumption. unfold spec_page_walk, walked. cbv zeta.
  destruct (ref_page_walk (regs s) (entry_reader (regs s) (phys s)) la (eflags_AC (regs s)) user rw)
    as [[code|[[pa combined] mask]] writes] eqn:W.
  { rewrite page_fault_eq by assumption. eexists. split; [reflexivity|].
    split; [reflexivity|]. split; [reflexivity|]. split; [reflexivity|]. now split. }
  unfold xbind at 1, set_split_large_if. unfold xret at 1.
  set (m' := apply_writes (entry_size (mode_of (regs s))) writes (phys s)).
  set (host := phy_host (PPFOf (A20ADDR (regs s) pa)) rw m').
  destruct (fill_entry_ok (regs s) (phys s) la (eflags_AC (regs s)) user rw pa combined mask
    writes host (negb (host =? 0)) A20 R (rw_range rw Hrw) Hl W) as (L & Pm & E).
  fold m' in L, E.
  set (e := TLBEntry _ _ host _ mask) in E.
  destruct (filled_frame la e (negb (host =? 0)) Hl eq_refl) as (_ & F2 & F3).
  pose proof (tables_in_ram_ad (regs s) (phys s) m' R L) as R'.
  assert (Hi : forall sz, get_index_of sz (LPFOf (lpf e)) 0 = get_index_of sz la 0)
    by (intros sz; rewrite F2; now apply index_of_frame).
  pose proof (tlb_fill_ok false BX_DTLB_SIZE (regs s) (phys s) m' (DTLB s)
    (get_index_of BX_DTLB_SIZE la 0) e (0xfff <? mask) R L D (index_range _ 11 la eq_refl ltac:(lia))
    F3 Pm (Hi _) eq_refl) as FD.
  pose proof (tlb_fill_ok true BX_ITLB_SIZE (regs s) (phys s) m' (ITLB s)
    (get_index_of BX_ITLB_SIZE la 0) e (0xfff <? mask) R L I (index_range _ 10 la eq_refl ltac:(lia))
    F3 Pm (Hi _) eq_refl) as FI.
  apply (tlb_ok_ad _ _ _ _ m') in D, I; try assumption.
  unfold slot_of. destruct (rw =? BX_EXECUTE), (0xfff <? mask); eexists;
    (split; [unfold xbind, get_regs, getHostMemAddr, write_slot, xret; reflexivity|]);
    do 3 (split; [reflexivity|]);
    split; cbn [negb set_field regs phys DTLB ITLB]; auto.
Qed.

(** Every access is translated as without a TLB. *)
Lemma translate_linear_walked laddr user rw s :
  mmu_ok s -> 0 <= rw < 4 -> fits 64 laddr ->
  let la := if long_mode (regs s) then laddr else u32 laddr in
  walked la user rw s (translate_linear (slot_of laddr rw) laddr user rw s).
Proof.
  intros Hok Hrw Hl la.
  assert (Hla : fits 64 la).
  { unfold la. destruct (long_mode (regs s)); [assumption|].
    apply (fits_le 32); [lia|]. apply wrap_fits. lia. }
  assert (El : (if negb (long_mode (regs s)) then Z.land laddr 0xffffffff else laddr) = la).
  { unfold la. destruct (long_mode (regs s)); [reflexivity|]. exact (Z.land_ones laddr 32 ltac:(lia)). }
  assert (Es : slot_of laddr rw = slot_of la rw).
  { unfold slot_of, get_index_of, la. destruct (long_mode (regs s)); [reflexivity|].
    now rewrite wrap_wrap by lia. }
  rewrite Es. unfold translate_linear. unfold xbind at 1, get_regs. rewrite El.
  unfold xbind at 1. unfold read_slot.
  destruct (rw =? BX_EXECUTE) eqn:X; cbn [negb andb];
    [now apply translate_linear_miss_walked|].
  unfold slot_of. rewrite X. set (n := get_index_of BX_DTLB_SIZE la 0).
  set (e := entry (DTLB s) n).
  destruct (Z.eqb_spec (TLB_LPFOf (lpf e)) (LPFOf la)) as [Ep|_].
  2: { pose proof (translate_linear_miss_walked la user rw s Hok Hrw Hla) as T.
       unfold slot_of in T. now rewrite X in T. }
  pose proof (match_valid e la Ep) as V.
  assert (Hn : 0 <= n < BX_DTLB_SIZE) by (apply (index_range _ 11); [reflexivity|lia]).
  destruct (anyb (accessBits e) _) eqn:G.
  - assert (G' : grants false e user rw = true).
    { unfold grants. rewrite X. cbn [negb andb]. rewrite <- G. do 2 f_equal.
      destruct (rw_range rw Hrw) as [->|[->|[->| ->]]]; reflexivity. }
    destruct (ok_entries _ _ _ _ _ (ok_DTLB s Hok) n Hn V la (eflags_AC (regs s)) user rw Hrw Hla
      (eq_sym Ep) G') as (pa & cb & W & A & _).
    unfold walked. cbv zeta. rewrite W. exists s. unfold xret. fold e. rewrite A.
    do 4 (split; [reflexivity|]). exact Hok.
  - destruct (mmu_ok_invalidate (DSlot n) s Hok) as (s1 & E1 & Hok1 & P1 & R1 & C1).
    unfold xbind at 1. unfold xbind, read_slot in E1. fold e in E1. rewrite E1.
    pose proof (translate_linear_miss_walked la user rw s1 Hok1 Hrw Hla) as T.
    unfold slot_of in T. rewrite X in T. fold n in T.
    unfold walked in *. cbv zeta in *. now rewrite R1, P1, C1 in T.
Qed.

End Sound.
