(* ===== verification/TlbTrace.v ===== *)
(** * Programs see no TLB

    A trace of translated accesses, table changes followed by INVLPG or a flush,
    and other stores gives the same results on the processor with its TLBs as on
    a machine that walks the tables at every access. *)

From Stdlib Require Import ZArith Lia List Bool.
From S2P Require Import Prelude LazyFlags Cpu Tlb TlbProps Paging PagingSpec PagingRefine PagingAd TlbSound.
Import ListNotations.
Open Scope Z_scope.

Section Trace.
Context {M : Type} `{PM : PhysicalMemory M} `{!PhysicalMemoryOk M}.
Implicit Types s : mmu M.

(** ** Changing the tables *)

(** The memory holds the same translations for every page but those that, in the
    tables of [m], contain the address [la0]. *)
Definition remaps_only (c : cregs) (la0 : Z) (m m' : M) : Prop :=
  forall la, (forall path frame size,
    walk_path c (entry_reader c m) la = (path, inr (frame, size)) ->
    la / 2 ^ size <> la0 / 2 ^ size) ->
  forall ac user rw,
    ref_page_walk c (entry_reader c m') la ac user rw
    = ref_page_walk c (entry_reader c m) la ac user rw.

Definition same_translations (c : cregs) (m m' : M) : Prop :=
  forall la ac user rw,
    ref_page_walk c (entry_reader c m') la ac user rw
    = ref_page_walk c (entry_reader c m) la ac user rw.

Lemma covers_page la0 la e size : 12 <= size -> lpf_mask e = Z.ones size ->
  LPFOf la = TLB_LPFOf (lpf e) -> fits 64 la -> fits 64 (lpf e) ->
  la / 2 ^ size = la0 / 2 ^ size -> covers la0 e = true.
Proof.
  intros Hs Em El Hl He E. unfold covers. rewrite Em. apply Z.eqb_eq.
  rewrite <- !Z.ldiff_land, !Z.ldiff_ones_r, !Z.shiftr_div_pow2, <- E by lia. f_equal.
  rewrite <- !Z.shiftr_div_pow2 by lia. apply Z.bits_inj'. intros i Hi.
  rewrite !Z.shiftr_spec by lia. destruct (Z.ltb_spec (i + size) 64).
  - assert (B : Z.testbit (LPFOf la) (i + size) = Z.testbit (TLB_LPFOf (lpf e)) (i + size))
      by now rewrite El.
    rewrite lpf_bits, TLB_LPFOf_bits in B by lia.
    destruct (Z.leb_spec 12 (i + size)), (Z.ltb_spec (i + size) 64); try lia. exact B.
  - now rewrite !(fits_testbit 64) by (assumption || lia).
Qed.

Lemma entry_ok_remap itlb c m m' la0 e : remaps_only c la0 m m' ->
  page_mask (lpf_mask e) -> fits 64 (lpf e) -> covers la0 e = false ->
  entry_ok itlb c m e -> entry_ok itlb c m' e.
Proof.
  intros R Pm He N E la ac user rw Hrw Hl Hp G.
  destruct (E la ac user rw Hrw Hl Hp G) as (pa & cb & W & A). exists pa, cb.
  split; [|exact A]. destruct (get_PG c) eqn:Pg.
  - rewrite R; [exact W|]. intros path frame size Ew Eq. unfold ref_page_walk in W.
    rewrite Pg, Ew in W. cbn [negb] in W. destruct (access_ok _ _ _ _ _ _ _); [|discriminate].
    assert (Em : lpf_mask e = 2 ^ size - 1) by congruence.
    destruct (walk_path_frame c _ la path frame size Ew) as [Hs _].
    rewrite (covers_page la0 la e size) in N; try assumption; [discriminate| |].
    + destruct Hs as [<-|[<-|[<-|[<-|[]]]]]; lia.
    + rewrite Em, Z.ones_equiv. lia.
  - unfold ref_page_walk in *. now rewrite Pg in *.
Qed.

Lemma tlb_ok_invlpg itlb size c m m' la0 t : 0 < size -> fits 64 la0 ->
  remaps_only c la0 m m' -> tlb_ok itlb size c m t -> tlb_ok itlb size c m' (invlpg size la0 t).
Proof.
  intros Hs Hl R [W E]. split; [now apply invlpg_wf|]. intros i Hi V.
  destruct (invlpg_entry size Hs t la0 i W Hl Hi) as [Ev Ee]. rewrite (Ee V). rewrite V in Ev.
  symmetry in Ev. apply andb_true_iff in Ev. destruct Ev as [V0 N]. apply negb_true_iff in N.
  apply (entry_ok_remap itlb c m m' la0); auto; now apply W.
Qed.

Lemma tlb_ok_flush itlb size c m t : 0 < size -> tlb_ok itlb size c m (flush size t).
Proof.
  intros Hs. split; [now apply flush_wf|]. intros i Hi V. now rewrite flush_valid in V.
Qed.

Lemma tlb_ok_same itlb size c m m' t : same_translations c m m' ->
  tlb_ok itlb size c m t -> tlb_ok itlb size c m' t.
Proof.
  intros S [W E]. split; [exact W|]. intros i Hi V la ac user rw Hrw Hl Hp G.
  rewrite S. now apply (E i).
Qed.

(** ** Traces *)
Inductive op :=
| Access (laddr : Z) (user : bool) (rw : Z)
| Remap (laddr : Z) (m : M)      (* tables changed to [m] for one page, then INVLPG *)
| Retable (m : M)                (* tables changed to [m] at will, then a full flush *)
| Store (m : M).                 (* another store: no translation changes *)

Definition trace_op_ok (c : cregs) (m : M) (o : op) : Prop :=
  match o with
  | Access laddr _ rw => fits 64 laddr /\ 0 <= rw < 4
  | Remap laddr m' => fits 64 laddr /\ remaps_only c laddr m m' /\ tables_in_ram c m'
  | Retable m' => tables_in_ram c m'
  | Store m' => same_translations c m m' /\ tables_in_ram c m'
  end.

(** The processor. *)
Definition tlb_step (o : op) s : (exn + Z) * mmu M :=
  match o with
  | Access laddr user rw =>
    match translate_linear (slot_of laddr rw) laddr user rw s with
    | Ok pa s' => (inr pa, s')
    | Fault e s' => (inl e, s')
    end
  | Remap laddr m =>
    (inr 0, match TLB_invlpg laddr (s <| phys := m |>) with Ok _ s' | Fault _ s' => s' end)
  | Retable m =>
    (inr 0, match TLB_flush (s <| phys := m |>) with Ok _ s' | Fault _ s' => s' end)
  | Store m => (inr 0, s <| phys := m |>)
  end.

(** The machine without TLBs: memory and CR2. *)
Definition walk_step (c : cregs) (o : op) (st : M * Z) : (exn + Z) * (M * Z) :=
  let '(m, cr2) := st in
  match o with
  | Access laddr user rw =>
    let la := if long_mode c then laddr else u32 laddr in
    match ref_page_walk c (entry_reader c m) la (eflags_AC c) user rw with
    | (inl code, _) =>
      (inl (Exn BX_PF_EXCEPTION (page_fault_code c code user rw)), (m, la))
    | (inr (pa, _, _), writes) =>
      (inr (A20ADDR c pa), (apply_writes (entry_size (mode_of c)) writes m, cr2))
    end
  | Remap _ m' | Retable m' | Store m' => (inr 0, (m', cr2))
  end.

Fixpoint tlb_run (ops : list op) s : list (exn + Z) * mmu M :=
  match ops with
  | [] => ([], s)
  | o :: ops' =>
    let '(r, s1) := tlb_step o s in let '(rs, s2) := tlb_run ops' s1 in (r :: rs, s2)
  end.

Fixpoint walk_run (c : cregs) (ops : list op) (st : M * Z) : list (exn + Z) * (M * Z) :=
  match ops with
  | [] => ([], st)
  | o :: ops' =>
    let '(r, st1) := walk_step c o st in
    let '(rs, st2) := walk_run c ops' st1 in (r :: rs, st2)
  end.

(** Each operation is allowed where the machine without TLBs performs it. *)
Fixpoint trace_ok (c : cregs) (ops : list op) (st : M * Z) : Prop :=
  match ops with
  | [] => True
  | o :: ops' => trace_op_ok c (fst st) o /\ trace_ok c ops' (snd (walk_step c o st))
  end.

Lemma tlb_step_walks o s : mmu_ok s -> trace_op_ok (regs s) (phys s) o ->
  let '(r, s') := tlb_step o s in
  walk_step (regs s) o (phys s, cr2 s) = (r, (phys s', cr2 s')) /\ regs s' = regs s /\ mmu_ok s'.
Proof.
  intros Hok Ho. destruct o as [laddr user rw|laddr m|m|m]; cbn [trace_op_ok tlb_step walk_step] in *.
  - destruct Ho as [Hl Hrw].
    pose proof (translate_linear_walked laddr user rw s Hok Hrw Hl) as T.
    cbv zeta in T. unfold walked in T. cbv zeta in T.
    destruct (ref_page_walk _ _ _ _ _ _) as [[code|[[pa cb] mask]] writes].
    + destruct T as (s' & -> & -> & -> & -> & Hok'). auto.
    + destruct T as (s' & -> & -> & -> & -> & Hok'). auto.
  - destruct Ho as (Hl & R & T). split; [reflexivity|]. split; [reflexivity|].
    destruct Hok as [A20 _ D I]. split; cbn; try assumption.
    + now apply (tlb_ok_invlpg _ _ _ (phys s)).
    + now apply (tlb_ok_invlpg _ _ _ (phys s)).
  - split; [reflexivity|]. split; [reflexivity|].
    destruct Hok as [A20 _ D I]. split; cbn; try assumption; now apply tlb_ok_flush.
  - destruct Ho as [S T]. split; [reflexivity|]. split; [reflexivity|].
    destruct Hok as [A20 _ D I]. split; cbn; try assumption;
      now apply (tlb_ok_same _ _ _ (phys s)).
Qed.

(** C21: The page tables can be changed under the processor's TLBs as long as the
    program follows the architecture's rule, INVLPG after remapping a page and a
    flush after anything larger: every access then gives what a machine that
    walks the tables each time gives (physical addresses, faults with their
    codes, CR2, accessed and dirty bits), TLB hits, permission upgrades and
    large pages included. *)
Theorem tlb_transparent ops s : mmu_ok s ->
  trace_ok (regs s) ops (phys s, cr2 s) ->
  let '(rs, s') := tlb_run ops s in
  walk_run (regs s) ops (phys s, cr2 s) = (rs, (phys s', cr2 s')) /\ mmu_ok s'.
Proof.
  revert s. induction ops as [|o ops IH]; intros s Hok Ht; cbn [tlb_run walk_run].
  { auto. }
  destruct Ht as [Ho Ht]. cbn [fst] in Ho. pose proof (tlb_step_walks o s Hok Ho) as S.
  destruct (tlb_step o s) as [r s1]. destruct S as (Ew & Er & Hok1).
  rewrite Ew in *. cbn [snd] in Ht. rewrite <- Er in *. specialize (IH s1 Hok1 Ht).
  destruct (tlb_run ops s1) as [rs s2]. destruct IH as [E Hok2].
  rewrite E. auto.
Qed.

End Trace.

(** ** A concrete machine *)

Definition poke (m : ram) (w : Z * Z) : ram := phy_write 8 (fst w) (snd w) m.

(** Long mode tables: 4K pages for 0x400000 (user, writable) and 0x401000
    (supervisor, read only), a 2M user page at 0x600000, global. *)
Definition example_tables : ram :=
  fold_left poke
    [(0x1000, 0x2007); (0x2000, 0x3007); (0x3010, 0x4007); (0x3018, 0x8001a7);
     (0x4000, 0x123007); (0x4008, 0x124001)] (Ram (fun _ => 0)).

(** The 2M page is mapped elsewhere. *)
Definition other_tables : ram := poke example_tables (0x3018, 0xa00087).

Definition no_tlb : TLB := Tlb (fun _ => invalidate (TLBEntry 0 0 0 0 0)) false.

Definition example_regs : cregs :=
  CRegs 0x80010011 0x1000 0xa0 0x500 BX_MODE_LONG_64 false 3 true 0 (fun _ => 0)
    0xffffffffffffffff false 0x3ff 0xd01.

Definition example_mmu : mmu ram := Mmu example_regs 0 no_tlb no_tlb example_tables.

Lemma no_tlb_ok itlb size c (m : ram) : tlb_ok itlb size c m no_tlb.
Proof. split; [split|]; intros; discriminate. Qed.

Lemma ram_tables c (m : ram) : tables_in_ram c m.
Proof. intros la. apply Forall_forall. intros p _. exact I. Qed.

Lemma example_mmu_ok : mmu_ok example_mmu.
Proof.
  split; [split|..]; auto using ram_tables, no_tlb_ok. vm_compute. split; congruence.
Qed.

(** Reads and a write of a user page, a write refused on a supervisor page, a
    large page before and after it is remapped. *)
Definition example_trace : list (op (M := ram)) :=
  [Access 0x400123 true BX_READ; Access 0x400456 true BX_WRITE; Access 0x400456 true BX_READ;
   Access 0x401000 true BX_WRITE; Access 0x612345 true BX_READ; Retable other_tables;
   Access 0x612345 true BX_READ].

Lemma tlb_transparent_witness :
  fst (tlb_run example_trace example_mmu)
    = [inr 0x123123; inr 0x123456; inr 0x123456; inl (Exn 14 7); inr 0x812345; inr 0;
       inr 0xa12345]
  /\ (let '(rs, s') := tlb_run example_trace example_mmu in
      walk_run example_regs example_trace (example_tables, 0) = (rs, (phys s', cr2 s'))
      /\ mmu_ok s').
Proof.
  split; [vm_compute; reflexivity|].
  apply (tlb_transparent example_trace example_mmu example_mmu_ok).
  assert (Hops : forall o, In o example_trace -> forall m, trace_op_ok example_regs m o).
  { intros o Ho m. cbn in Ho.
    repeat (destruct Ho as [<-|Ho]; [cbn; unfold fits; auto using ram_tables|]);
      try contradiction; vm_compute; repeat split; congruence. }
  assert (T : forall ops st, incl ops example_trace -> trace_ok example_regs ops st).
  { intros ops. induction ops as [|o ops IH]; intros st Hi; [exact I|].
    apply incl_cons_inv in Hi. destruct Hi as [H1 H2].
    split; [now apply Hops|now apply IH]. }
  apply T, incl_refl.
Defined.

(** ** The walks *)

(** C22: The page walks of long mode, PAE and legacy paging, as the code unrolls them
    with masks and arrays, compute the architecture's walk: the rights of a page
    are those every entry of the path grants, a reserved bit or a missing entry
    faults at its level, write protection, no-execute, SMEP and SMAP decide the
    access, accessed and dirty bits are written exactly where they are missing,
    and a fault writes nothing but CR2. *)
Theorem page_walk_refines {M : Type} `{PM : PhysicalMemory M} `{!PhysicalMemoryOk M}
    la user rw (s : mmu M) :
  0 <= rw < 4 -> tables_in_ram (regs s) (phys s) ->
  match ref_page_walk (regs s) (entry_reader (regs s) (phys s)) la (eflags_AC (regs s)) user rw with
  | (inl code, _) =>
    page_walk la user rw s
    = Fault (Exn BX_PF_EXCEPTION (page_fault_code (regs s) code user rw)) (s <| cr2 := la |>)
  | (inr (pa, combined, mask), writes) => exists s',
    page_walk la user rw s = Ok (pa, combined, mask) s'
    /\ regs s' = regs s /\ cr2 s' = cr2 s
    /\ phys s' = apply_writes (entry_size (mode_of (regs s))) writes (phys s)
    /\ entry (DTLB s') = entry (DTLB s) /\ entry (ITLB s') = entry (ITLB s)
    /\ (0xfff < mask ->
        split_large (if rw =? BX_EXECUTE then ITLB s' else DTLB s') = true)
  end.
Proof.
  intros Hrw R. rewrite page_walk_spec by assumption. unfold spec_page_walk. cbv zeta.
  destruct (ref_page_walk _ _ _ _ _ _) as [[code|[[pa cb] mask]] writes].
  - now apply page_fault_eq.
  - eexists. split; [reflexivity|].
    destruct (Z.ltb_spec 0xfff mask), (rw =? BX_EXECUTE); cbn [negb]; repeat split; lia || auto.
Qed.

Lemma page_walk_refines_witness :
  (match ref_page_walk example_regs (entry_reader example_regs example_tables) 0x612345 false true BX_WRITE with
   | (inl _, _) => False
   | (inr (pa, combined, mask), writes) =>
     pa = 0x812345 /\ combined = 0x106 /\ mask = 0x1fffff
     /\ writes = [(0x1000, 0x2027); (0x2000, 0x3027); (0x3018, 0x8001e7)]
     /\ exists s', page_walk 0x612345 true BX_WRITE example_mmu = Ok (pa, combined, mask) s'
        /\ phys s' = apply_writes 8 writes example_tables
   end)
  /\ page_walk 0x401000 true BX_WRITE example_mmu
     = Fault (Exn BX_PF_EXCEPTION 7) (example_mmu <| cr2 := 0x401000 |>).
Proof.
  split.
  - pose proof (page_walk_refines 0x612345 true BX_WRITE example_mmu ltac:(unfold BX_WRITE; lia)
      (ram_tables _ _)) as W.
    change (eflags_AC (regs example_mmu)) with false in W.
    change (regs example_mmu) with example_regs in W.
    change (phys example_mmu) with example_tables in W.
    set (r := ref_page_walk _ _ _ _ _ _) in *.
    assert (E : r = (inr (0x812345, 0x106, 0x1fffff),
                     [(0x1000, 0x2027); (0x2000, 0x3027); (0x3018, 0x8001e7)]))
      by (vm_compute; reflexivity).
    rewrite E in *. destruct W as (s' & Ew & _ & _ & Ep & _).
    do 4 (split; [reflexivity|]). exists s'. split; [exact Ew|exact Ep].
  - exact (page_walk_refines 0x401000 true BX_WRITE example_mmu ltac:(unfold BX_WRITE; lia)
      (ram_tables _ _)).
Defined.
