(* ===== verification/Access.v ===== *)
(** * Linear memory accesses (cpu/access2.cc, cpu/paging.cc)

    Reads, writes and read-modify-writes of linear addresses: the fast path
    through a TLB entry and its host pointer, and the slow path with canonical
    and alignment checks, accesses split across two pages, and the translation
    kept between the two halves of a read-modify-write. *)

From Stdlib Require Import ZArith Lia List Bool.
From S2P Require Import Prelude LazyFlags Cpu Tlb Paging.
Import ListNotations.
Open Scope Z_scope.

(** ** Host memory

    [hostPageAddr] is the host address of the page: the fast paths read and
    write through it. *)
Class HostMemory (M : Type) `{PhysicalMemory M} := {
  host_read : Z -> Z -> M -> Z;          (* length, host address *)
  host_write : Z -> Z -> Z -> M -> M;    (* length, host address, value *)
}.

(** ** State *)

(** [address_xlation]: [pages] is 1 or 2, or the host address of the operand. *)
Record xlation := Xlation {
  pages : Z;
  paddress1 : Z;
  paddress2 : Z;
  len1 : Z;
  len2 : Z;
}.

#[export] Instance xlation_eta : Eta xlation := fun r =>
  Xlation (pages r) (paddress1 r) (paddress2 r) (len1 r) (len2 r).

(** The cached descriptor of a segment register; [seg_valid] holds the SegValid
    and SegAccess bits. *)
Record segment := Segment {
  seg_valid : Z;
  seg_p : bool;
  seg_type : Z;
  base : Z;
  limit_scaled : Z;
  d_b : bool;
}.

#[export] Instance segment_eta : Eta segment := fun r =>
  Segment (seg_valid r) (seg_p r) (seg_type r) (base r) (limit_scaled r) (d_b r).

(** The window of the stack cache: the page of the stack that pushes and pops
    reach through a host pointer. *)
Record stack_cache := StackCache {
  espPageBias : Z;
  espPageWindowSize : Z;
  espHostPtr : Z;
  pAddrStackPage : Z;
}.

#[export] Instance stack_cache_eta : Eta stack_cache := fun r =>
  StackCache (espPageBias r) (espPageWindowSize r) (espHostPtr r) (pAddrStackPage r).

Record memsys (M : Type) := MemSys {
  mm : mmu M;
  address_xlation : xlation;
  sregs : Z -> segment;
  stk : stack_cache;
}.
Arguments MemSys {M}.
Arguments mm {M}.
Arguments address_xlation {M}.
Arguments sregs {M}.
Arguments stk {M}.

#[export] Instance memsys_eta {M} : Eta (memsys M) := fun r =>
  MemSys (mm r) (address_xlation r) (sregs r) (stk r).

Definition acc (M A : Type) : Type := memsys M -> outcome (memsys M) A.
Definition aret {M A} (a : A) : acc M A := fun s => Ok a s.
Definition abind {M A B} (m : acc M A) (k : A -> acc M B) : acc M B :=
  fun s => match m s with Ok a s' => k a s' | Fault e s' => Fault e s' end.
Definition araise {M A} (vector error_code : Z) : acc M A :=
  fun s => Fault (Exn vector error_code) s.
Definition lift {M A} (m : xlat M A) : acc M A := fun s =>
  match m (mm s) with
  | Ok a mm' => Ok a (s <| mm := mm' |>)
  | Fault e mm' => Fault e (s <| mm := mm' |>)
  end.
Definition gets {M A} (f : memsys M -> A) : acc M A := fun s => Ok (f s) s.
Definition set_xlation {M} (f : xlation -> xlation) : acc M unit := fun s =>
  Ok tt (s <| address_xlation := f (address_xlation s) |>).

Notation "x <~ m ;; k" := (abind m (fun x => k))
  (at level 61, m at next level, right associativity) : bochs_scope.
Notation "m ~; k" := (abind m (fun _ => k))
  (at level 61, right associativity) : bochs_scope.

Definition BX_SS_EXCEPTION := 12.
Definition BX_GP_EXCEPTION := 13.
Definition BX_AC_EXCEPTION := 17.
Definition BX_SEG_REG_SS := 2.

Definition int_number (s : Z) : Z :=
  if s =? BX_SEG_REG_SS then BX_SS_EXCEPTION else BX_GP_EXCEPTION.

Definition IsCanonical (offset : Z) : bool :=
  u64 (Z.shiftr (signed 64 offset) (48 - 1) + 1) <? 2.

Section Accesses.
Context {M : Type} `{HostMemory M}.
Abbreviation acc := (acc M).

Definition DTLB_entry (laddr len : Z) : acc bx_TLB_entry :=
  gets (fun s => get_entry_of BX_DTLB_SIZE (DTLB (mm s)) laddr len).
Definition translate_data (laddr : Z) (user : bool) (rw : Z) : acc Z :=
  lift (translate_linear (DSlot (get_index_of BX_DTLB_SIZE laddr 0)) laddr user rw).
Definition cregs_of : acc cregs := gets (fun s => regs (mm s)).

Definition alignment_check (c : cregs) : bool := negb (alignment_check_mask c =? 0).

(** The address of the second page: it wraps at 4G outside 64-bit mode, where it
    has to be canonical otherwise ([None]). *)
Definition second_page (c : cregs) (laddr l1 : Z) : option Z :=
  let laddr2 := u64 (laddr + l1) in
  if negb (long64_mode c) then Some (Z.land laddr2 0xffffffff)
  else if IsCanonical laddr2 then Some laddr2 else None.

(** The checks shared by the two functions: [false] is the result -1. *)
Definition check_linear (laddr curr_pl ac_mask : Z) : acc bool :=
  c <~ cregs_of ;;
  if negb (IsCanonical laddr) then aret false
  else if (alignment_check c && (curr_pl =? 3)) && anyb (PAGE_OFFSET laddr) ac_mask
  then araise BX_AC_EXCEPTION 0
  else aret true.

(** Returns 0 ([true]) or -1 ([false]). *)
Definition access_write_linear (laddr len curr_pl xlate_rw ac_mask data : Z) : acc bool :=
  let pageOffset := PAGE_OFFSET laddr in
  let user := curr_pl =? 3 in
  ok <~ check_linear laddr curr_pl ac_mask ;;
  if negb ok then aret false
  else if pageOffset + len <=? 4096 then
    paddr1 <~ translate_data laddr user xlate_rw ;;
    set_xlation (fun x => x <| paddress1 := paddr1 |> <| pages := 1 |>) ~;
    lift (access_write_physical paddr1 len data) ~;
    aret true
  else
    let l1 := 4096 - pageOffset in
    set_xlation (fun x => x <| len1 := l1 |> <| len2 := len - l1 |> <| pages := 2 |>) ~;
    c <~ cregs_of ;;
    match second_page c laddr l1 with
    | None => aret false
    | Some laddr2 =>
      paddr1 <~ translate_data laddr user xlate_rw ;;
      set_xlation (fun x => x <| paddress1 := paddr1 |>) ~;
      paddr2 <~ translate_data laddr2 user xlate_rw ;;
      set_xlation (fun x => x <| paddress2 := paddr2 |>) ~;
      lift (access_write_physical paddr1 l1 (wrap (8 * l1) data)) ~;
      lift (access_write_physical paddr2 (len - l1) (Z.shiftr data (8 * l1))) ~;
      aret true
    end.

(** Returns the data, or -1 ([None]). *)
Definition access_read_linear (laddr len curr_pl xlate_rw ac_mask : Z) : acc (option Z) :=
  let pageOffset := PAGE_OFFSET laddr in
  let user := curr_pl =? 3 in
  ok <~ check_linear laddr curr_pl ac_mask ;;
  if negb ok then aret None
  else if pageOffset + len <=? 4096 then
    paddr1 <~ translate_data laddr user xlate_rw ;;
    set_xlation (fun x => x <| paddress1 := paddr1 |> <| pages := 1 |>) ~;
    data <~ lift (access_read_physical paddr1 len) ;;
    aret (Some data)
  else
    let l1 := 4096 - pageOffset in
    set_xlation (fun x => x <| len1 := l1 |> <| len2 := len - l1 |> <| pages := 2 |>) ~;
    c <~ cregs_of ;;
    match second_page c laddr l1 with
    | None => aret None
    | Some laddr2 =>
      paddr1 <~ translate_data laddr user xlate_rw ;;
      set_xlation (fun x => x <| paddress1 := paddr1 |>) ~;
      paddr2 <~ translate_data laddr2 user xlate_rw ;;
      set_xlation (fun x => x <| paddress2 := paddr2 |>) ~;
      lo <~ lift (access_read_physical paddr1 l1) ;;
      hi <~ lift (access_read_physical paddr2 (len - l1)) ;;
      aret (Some (Z.lor (Z.shiftl hi (8 * l1)) lo))
    end.

(** ** The fast paths, for an access of [n] bytes *)

(** [tlbEntry->lpf == lpf] for the entry of the page of [laddr + last]; [amask]
    holds the address bits that have to be 0. *)
Definition fast_entry (last amask laddr : Z) : acc (option bx_TLB_entry) :=
  e <~ DTLB_entry laddr last ;;
  aret (if lpf e =? AlignedAccessLPFOf laddr amask then Some e else None).

Definition host_addr (e : bx_TLB_entry) (laddr : Z) : Z :=
  Z.lor (hostPageAddr e) (PAGE_OFFSET laddr).

Definition host_load (n addr : Z) : acc Z := gets (fun s => host_read n addr (phys (mm s))).
Definition host_store (n addr data : Z) : acc unit := fun s =>
  Ok tt (s <| mm := (mm s) <| phys := host_write n addr data (phys (mm s)) |> |>).

(** [if (access_*_linear(...) < 0) exception(vector, 0);] *)
Definition slow_read (n laddr pl rw ac_mask vector : Z) : acc Z :=
  r <~ access_read_linear laddr n pl rw ac_mask ;;
  match r with Some data => aret data | None => araise vector 0 end.
Definition slow_write (n laddr pl ac_mask data vector : Z) : acc unit :=
  ok <~ access_write_linear laddr n pl BX_WRITE ac_mask data ;;
  if ok : bool then aret tt else araise vector 0.

Definition write_linear_at (n laddr data pl : Z) (user : bool) (amask ac_mask vector : Z)
    : acc unit :=
  f <~ fast_entry (n - 1) amask laddr ;;
  match f with
  | Some e =>
    if isWriteOK e user then host_store n (host_addr e laddr) data
    else slow_write n laddr pl ac_mask data vector
  | None => slow_write n laddr pl ac_mask data vector
  end.

Definition read_linear_at (n laddr pl : Z) (user : bool) (amask ac_mask vector : Z) : acc Z :=
  f <~ fast_entry (n - 1) amask laddr ;;
  match f with
  | Some e =>
    if isReadOK e user then host_load n (host_addr e laddr)
    else slow_read n laddr pl BX_READ ac_mask vector
  | None => slow_read n laddr pl BX_READ ac_mask vector
  end.

(** The accesses of instructions check alignment when the mask is set. *)
Definition write_linear (n s laddr data : Z) : acc unit :=
  c <~ cregs_of ;;
  write_linear_at n laddr data (CPL c) (user_pl c) (Z.land (n - 1) (alignment_check_mask c)) (n - 1)
    (int_number s).

Definition read_linear (n s laddr : Z) : acc Z :=
  c <~ cregs_of ;;
  read_linear_at n laddr (CPL c) (user_pl c) (Z.land (n - 1) (alignment_check_mask c)) (n - 1)
    (int_number s).

(** The place is kept for the write of a read-modify-write. *)
Definition keep_place (e : bx_TLB_entry) (laddr : Z) : acc unit :=
  set_xlation (fun x => x <| pages := host_addr e laddr |>
                          <| paddress1 := Z.lor (ppf e) (PAGE_OFFSET laddr) |>).

Definition read_RMW_linear (n s laddr : Z) : acc Z :=
  c <~ cregs_of ;;
  f <~ fast_entry (n - 1) (Z.land (n - 1) (alignment_check_mask c)) laddr ;;
  let slow := slow_read n laddr (CPL c) BX_RW (n - 1) (int_number s) in
  match f with
  | Some e =>
    if isWriteOK e (user_pl c) then
      data <~ host_load n (host_addr e laddr) ;;
      keep_place e laddr ~;
      aret data
    else slow
  | None => slow
  end.

Definition write_RMW_linear (n val : Z) : acc unit :=
  x <~ gets address_xlation ;;
  if 2 <? pages x then host_store n (pages x) val
  else if pages x =? 1 then lift (access_write_physical (paddress1 x) n val)
  else
    lift (access_write_physical (paddress1 x) (len1 x) (wrap (8 * len1 x) val)) ~;
    lift (access_write_physical (paddress2 x) (len2 x) (Z.shiftr val (8 * len1 x))).

(** Accesses of the processor itself: supervisor, without alignment checks. *)
Definition system_read (n laddr : Z) : acc Z :=
  read_linear_at n laddr 0 false 0 0 BX_GP_EXCEPTION.
Definition system_write (n laddr data : Z) : acc unit :=
  write_linear_at n laddr data 0 false 0 0 BX_GP_EXCEPTION.

(** ** The functions of the code *)

Definition write_linear_byte (s laddr data : Z) : acc unit := write_linear 1 s laddr data.
Definition write_linear_word (s laddr data : Z) : acc unit := write_linear 2 s laddr data.
Definition write_linear_dword (s laddr data : Z) : acc unit := write_linear 4 s laddr data.
Definition write_linear_qword (s laddr data : Z) : acc unit := write_linear 8 s laddr data.

Definition read_linear_byte (s laddr : Z) : acc Z := read_linear 1 s laddr.
Definition read_linear_word (s laddr : Z) : acc Z := read_linear 2 s laddr.
Definition read_linear_dword (s laddr : Z) : acc Z := read_linear 4 s laddr.
Definition read_linear_qword (s laddr : Z) : acc Z := read_linear 8 s laddr.

Definition read_RMW_linear_byte (s laddr : Z) : acc Z := read_RMW_linear 1 s laddr.
Definition read_RMW_linear_word (s laddr : Z) : acc Z := read_RMW_linear 2 s laddr.
Definition read_RMW_linear_dword (s laddr : Z) : acc Z := read_RMW_linear 4 s laddr.
Definition read_RMW_linear_qword (s laddr : Z) : acc Z := read_RMW_linear 8 s laddr.

(** A byte is never split. *)
Definition write_RMW_linear_byte (val8 : Z) : acc unit :=
  x <~ gets address_xlation ;;
  if 2 <? pages x then host_store 1 (pages x) val8
  else lift (access_write_physical (paddress1 x) 1 val8).
(** The halves of a split word are bytes. *)
Definition write_RMW_linear_word (val16 : Z) : acc unit :=
  x <~ gets address_xlation ;;
  if 2 <? pages x then host_store 2 (pages x) val16
  else if pages x =? 1 then lift (access_write_physical (paddress1 x) 2 val16)
  else
    lift (access_write_physical (paddress1 x) 1 (u8 val16)) ~;
    lift (access_write_physical (paddress2 x) 1 (Z.shiftr val16 8)).
Definition write_RMW_linear_dword (val32 : Z) : acc unit := write_RMW_linear 4 val32.
Definition write_RMW_linear_qword (val64 : Z) : acc unit := write_RMW_linear 8 val64.

(** Pushes on the stack of another privilege level. *)
Definition write_new_stack (n laddr curr_pl data : Z) : acc unit :=
  c <~ cregs_of ;;
  write_linear_at n laddr data curr_pl (curr_pl =? 3) (Z.land (n - 1) (alignment_check_mask c))
    (n - 1) BX_SS_EXCEPTION.
Definition write_new_stack_word (laddr curr_pl data : Z) : acc unit :=
  write_new_stack 2 laddr curr_pl data.
Definition write_new_stack_dword (laddr curr_pl data : Z) : acc unit :=
  write_new_stack 4 laddr curr_pl data.
Definition write_new_stack_qword (laddr curr_pl data : Z) : acc unit :=
  write_new_stack 8 laddr curr_pl data.

Definition system_read_byte (laddr : Z) : acc Z := system_read 1 laddr.
Definition system_read_word (laddr : Z) : acc Z := system_read 2 laddr.
Definition system_read_dword (laddr : Z) : acc Z := system_read 4 laddr.
Definition system_read_qword (laddr : Z) : acc Z := system_read 8 laddr.
Definition system_write_byte (laddr data : Z) : acc unit := system_write 1 laddr data.
Definition system_write_word (laddr data : Z) : acc unit := system_write 2 laddr data.
Definition system_write_dword (laddr data : Z) : acc unit := system_write 4 laddr data.

(** A register of 16 bytes; the aligned forms raise #GP themselves. *)
Definition write_linear_xmmword (s laddr data : Z) : acc unit :=
  c <~ cregs_of ;;
  write_linear_at 16 laddr data (CPL c) (user_pl c) 0 0 (int_number s).
Definition read_linear_xmmword (s laddr : Z) : acc Z :=
  c <~ cregs_of ;;
  read_linear_at 16 laddr (CPL c) (user_pl c) 0 0 (int_number s).

Definition write_linear_xmmword_aligned (s laddr data : Z) : acc unit :=
  c <~ cregs_of ;;
  f <~ fast_entry 0 15 laddr ;;
  let slow := if anyb laddr 15 then araise BX_GP_EXCEPTION 0
              else slow_write 16 laddr (CPL c) 0 data (int_number s) in
  match f with
  | Some e => if isWriteOK e (user_pl c) then host_store 16 (host_addr e laddr) data else slow
  | None => slow
  end.
Definition read_linear_xmmword_aligned (s laddr : Z) : acc Z :=
  c <~ cregs_of ;;
  f <~ fast_entry 0 15 laddr ;;
  let slow := if anyb laddr 15 then araise BX_GP_EXCEPTION 0
              else slow_read 16 laddr (CPL c) BX_READ 0 (int_number s) in
  match f with
  | Some e => if isReadOK e (user_pl c) then host_load 16 (host_addr e laddr) else slow
  | None => slow
  end.

Definition tickle_read_linear (s laddr : Z) : acc unit :=
  c <~ cregs_of ;;
  f <~ fast_entry 0 0 laddr ;;
  let slow :=
    if negb (IsCanonical laddr) then araise (int_number s) 0
    else
      paddr1 <~ translate_data laddr (user_pl c) BX_READ ;;
      set_xlation (fun x => x <| paddress1 := paddr1 |> <| pages := 1 |>) in
  match f with
  | Some e => if isReadOK e (user_pl c) then aret tt else slow
  | None => slow
  end.

(** ** CMPXCHG16B *)

Definition read_RMW_linear_dqword_aligned_64 (s laddr : Z) : acc (Z * Z) :=
  c <~ cregs_of ;;
  f <~ fast_entry 0 15 laddr ;;
  let slow :=
    if anyb laddr 15 then araise BX_GP_EXCEPTION 0
    else
      data <~ slow_read 16 laddr (CPL c) BX_RW 0 (int_number s) ;;
      aret (Z.shiftr data 64, u64 data) in
  match f with
  | Some e =>
    if isWriteOK e (user_pl c) then
      let hostAddr := host_addr e laddr in
      lo <~ host_load 8 hostAddr ;;
      hi <~ host_load 8 (hostAddr + 8) ;;
      keep_place e laddr ~;
      aret (hi, lo)
    else slow
  | None => slow
  end.

Definition write_RMW_linear_dqword (hi lo : Z) : acc unit :=
  write_RMW_linear_qword lo ~;
  set_xlation (fun x =>
    let x := x <| paddress1 := paddress1 x + 8 |> in
    if 2 <? pages x then x <| pages := pages x + 8 |> else x) ~;
  write_RMW_linear_qword hi.

End Accesses.
