(* ===== verification/AccessSpec.v ===== *)
(** * Reference semantics of linear accesses

    An access without TLB and host pointers: the operand's bytes are one or two
    physical ranges, found by walking the page tables, and are read and written
    there. *)

From Stdlib Require Import ZArith Lia List Bool.
From S2P Require Import Prelude LazyFlags Cpu Tlb Paging PagingSpec PagingRefine PagingAd TlbProps TlbSound.
From S2P Require Import TlbTrace Access.
Import ListNotations.
Open Scope Z_scope.

(** ** Host pointers

    [host_valid m h p w]: the host address [h] holds the physical page [p], for
    reading, and for writing too if [w]. *)
Class HostMemoryOk (M : Type) `{PM : PhysicalMemory M} `{HM : !HostMemory M} := {
  host_valid : M -> Z -> Z -> bool -> Prop;
  phy_wf : M -> Prop;
  phy_host_aligned p rw m : phy_wf m -> 0 <= p -> p mod 4096 = 0 ->
    phy_host p rw m mod 4096 = 0 /\ 0 <= phy_host p rw m;
  phy_host_valid p rw m : phy_wf m -> 0 <= p -> p mod 4096 = 0 -> rw <> BX_EXECUTE ->
    phy_host p rw m <> 0 ->
    host_valid m (phy_host p rw m) p (Z.testbit rw 0);
  host_valid_read m h p w off n : host_valid m h p w -> 0 <= off -> 0 < n -> off + n <= 4096 ->
    phy_read n (p + off) m = (host_read n (h + off) m, m);
  host_valid_write m h p off n v : host_valid m h p true -> 0 <= off -> 0 < n ->
    off + n <= 4096 -> fits (8 * n) v ->
    phy_write n (p + off) v m = host_write n (h + off) v m;
  host_read_halves m h : host_read 16 h m
    = Z.lor (Z.shiftl (host_read 8 (h + 8) m) 64) (host_read 8 h m);
  host_read_fits n h m : 0 <= n -> fits (8 * n) (host_read n h m);
  host_valid_weaken m h p : host_valid m h p true -> host_valid m h p false;
  host_valid_after_write n a v m h p w : phy_wf m -> host_valid m h p w ->
    host_valid (phy_write n a v m) h p w;
  host_valid_after_read n a m h p w : phy_wf m -> host_valid m h p w ->
    host_valid (snd (phy_read n a m)) h p w;
  phy_wf_write n a v m : phy_wf m -> phy_wf (phy_write n a v m);
  phy_wf_read n a m : phy_wf m -> phy_wf (snd (phy_read n a m));
}.

Section Spec.
Context {M : Type} `{PM : PhysicalMemory M}.

(** Memory and CR2. *)
Definition mem_state : Type := M * Z.

(** The physical ranges of an operand, address and length, or the fault; [None]
    is a non-canonical address.  [ac] holds the offset bits an alignment check
    looks at. *)
Definition ref_operand (c : cregs) (n laddr pl rw ac : Z) (st : mem_state)
    : (exn + option (list (Z * Z))) * mem_state :=
  let user := pl =? 3 in
  let off := PAGE_OFFSET laddr in
  if negb (IsCanonical laddr) then (inr None, st)
  else if alignment_check c && user && anyb off ac
  then (inl (Exn BX_AC_EXCEPTION 0), st)
  else if off + n <=? 4096 then
    match walk_step c (Access laddr user rw) st with
    | (inl e, st1) => (inl e, st1)
    | (inr pa, st1) => (inr (Some [(pa, n)]), st1)
    end
  else
    let l1 := 4096 - off in
    match second_page c laddr l1 with
    | None => (inr None, st)
    | Some laddr2 =>
      match walk_step c (Access laddr user rw) st with
      | (inl e, st1) => (inl e, st1)
      | (inr pa1, st1) =>
        match walk_step c (Access laddr2 user rw) st1 with
        | (inl e, st2) => (inl e, st2)
        | (inr pa2, st2) => (inr (Some [(pa1, l1); (pa2, n - l1)]), st2)
        end
      end
    end.

(** Little endian: the first range holds the low bytes. *)
Fixpoint load_ranges (ranges : list (Z * Z)) (m : M) : Z * M :=
  match ranges with
  | [] => (0, m)
  | (pa, n) :: ranges' =>
    let '(lo, m1) := phy_read n pa m in
    let '(hi, m2) := load_ranges ranges' m1 in
    (Z.lor (Z.shiftl hi (8 * n)) lo, m2)
  end.

Fixpoint store_ranges (ranges : list (Z * Z)) (data : Z) (m : M) : M :=
  match ranges with
  | [] => m
  | (pa, n) :: ranges' =>
    store_ranges ranges' (Z.shiftr data (8 * n)) (phy_write n pa (wrap (8 * n) data) m)
  end.

Definition ref_read (c : cregs) (n vector laddr pl rw ac : Z) (st : mem_state)
    : (exn + Z) * mem_state :=
  match ref_operand c n laddr pl rw ac st with
  | (inl e, st1) => (inl e, st1)
  | (inr None, st1) => (inl (Exn vector 0), st1)
  | (inr (Some ranges), (m1, cr2)) =>
    let '(v, m2) := load_ranges ranges m1 in (inr v, (m2, cr2))
  end.

Definition ref_write (c : cregs) (n vector laddr pl data ac : Z) (st : mem_state)
    : (exn + unit) * mem_state :=
  match ref_operand c n laddr pl BX_WRITE ac st with
  | (inl e, st1) => (inl e, st1)
  | (inr None, st1) => (inl (Exn vector 0), st1)
  | (inr (Some ranges), (m1, cr2)) => (inr tt, (store_ranges ranges data m1, cr2))
  end.

End Spec.

(** ** Page tables in flat memory

    Flat memory as host memory, and a decidable criterion for stores that change
    no translation: tables that only point into a region, and a store outside
    it. *)

(** ** Host pointers of flat memory *)
Definition ram_host_base := 2 ^ 48.

#[export] Instance ram_host_memory : HostMemory ram := {|
  host_read n h m := fst (ram_read n (h - ram_host_base) m);
  host_write n h v m := ram_write n (h - ram_host_base) v m;
|}.

Lemma flat_load_app k j b : forall a,
  flat_load (k + j) b a = flat_load k b a + 2 ^ (8 * Z.of_nat k) * flat_load j b (a + Z.of_nat k).
Proof.
  induction k as [|k IH]; intros a.
  - cbn [flat_load Nat.add]. change (2 ^ (8 * Z.of_nat 0)) with 1.
    replace (a + Z.of_nat 0) with a by lia. lia.
  - cbn [flat_load Nat.add]. rewrite IH. replace (a + 1 + Z.of_nat k) with (a + Z.of_nat (S k)) by lia.
    replace (8 * Z.of_nat (S k)) with (8 + 8 * Z.of_nat k) by lia. rewrite Z.pow_add_r by lia.
    change (2 ^ 8) with 256. ring.
Qed.

#[export] Instance ram_host_ok : HostMemoryOk ram.
Proof.
  refine {| host_valid m h p w := h = p + ram_host_base; phy_wf _ := True |}; auto.
  - intros p rw m _ Hp Ha. cbn [phy_host ram_memory]. unfold ram_host. split; [|lia].
    change (2 ^ 48) with (2 ^ 36 * 4096). now rewrite Z.mod_add.
  - intros m h p w off n -> _ _ _. cbn [phy_read ram_memory host_read ram_host_memory].
    replace (p + ram_host_base + off - ram_host_base) with (p + off) by lia. reflexivity.
  - intros m h p off n v -> _ _ _ _. cbn [phy_write ram_memory host_write ram_host_memory].
    now replace (p + ram_host_base + off - ram_host_base) with (p + off) by lia.
  - intros m h. cbn [host_read ram_host_memory]. unfold ram_read. cbn [fst].
    change (Z.to_nat 16) with (8 + 8)%nat. change (Z.to_nat 8) with 8%nat.
    rewrite flat_load_app.
    replace (h + 8 - ram_host_base) with (h - ram_host_base + Z.of_nat 8) by lia.
    rewrite lor_shiftl_add; [change (8 * Z.of_nat 8) with 64; lia|lia|].
    exact (phy_read_fits 8 (h - ram_host_base) m ltac:(lia)).
  - intros n h m Hn. exact (phy_read_fits n (h - ram_host_base) m Hn).
Defined.

(** ** Known tables

    [tabs] lists the long mode tables of each level, from the root down. *)

Section Known.
Variable c : cregs.
Hypothesis c_long : mode_of c = Long.

Definition table_entries (t : Z) : list Z := map (fun k => t + 8 * k) (zrange 512).

Definition points_into (m : ram) (shift : Z) (next : list Z) (a : Z) : bool :=
  match decode c Long shift (entry_reader c m a) with
  | Table t => existsb (Z.eqb t) next
  | _ => true
  end.

Fixpoint tables_known (m : ram) (shifts : list Z) (tabs : list (list Z)) : bool :=
  match shifts, tabs with
  | [], _ => true
  | _, [] => false
  | sh :: shifts', ts :: tabs' =>
    forallb (fun t => forallb (points_into m sh (hd [] tabs')) (table_entries t)) ts
    && tables_known m shifts' tabs'
  end.

Definition same_entries (m m' : ram) (tabs : list (list Z)) : bool :=
  forallb (fun t => forallb (fun a => entry_reader c m' a =? entry_reader c m a) (table_entries t))
    (concat tabs).

Lemma entry_known table shift la : In (entry_address Long table shift la) (table_entries table).
Proof.
  unfold table_entries, entry_address. cbn [index_bits entry_size].
  rewrite (Z.mul_comm _ 8). apply (in_map (fun k => table + 8 * k)), zrange_in.
  exact (field_fits shift 9 la ltac:(lia)).
Qed.

Lemma ref_walk_known m m' shifts : forall tabs table la,
  tables_known m shifts tabs = true -> same_entries m m' tabs = true ->
  In table (hd [] tabs) ->
  ref_walk c Long (entry_reader c m') shifts table la
  = ref_walk c Long (entry_reader c m) shifts table la.
Proof.
  induction shifts as [|sh shifts IH]; intros tabs table la K Se Ht; [reflexivity|].
  destruct tabs as [|ts tabs]; [discriminate|]. cbn [tables_known hd] in *.
  apply andb_true_iff in K. destruct K as [K1 K2].
  unfold same_entries in Se. cbn [concat] in Se.
  rewrite forallb_app in Se. apply andb_true_iff in Se. destruct Se as [Se1 Se2].
  rewrite forallb_forall in K1, Se1. specialize (K1 table Ht). specialize (Se1 table Ht).
  rewrite forallb_forall in K1, Se1.
  pose proof (entry_known table sh la) as Ra. rewrite !ref_walk_cons. cbv zeta.
  set (a := entry_address Long table sh la) in *.
  rewrite (proj1 (Z.eqb_eq _ _) (Se1 a Ra)). specialize (K1 a Ra). unfold points_into in K1.
  destruct (decode c Long sh (entry_reader c m a)) eqn:D; try reflexivity.
  apply existsb_exists in K1. destruct K1 as (t & Ht' & Et). apply Z.eqb_eq in Et. subst t.
  now rewrite (IH tabs).
Qed.

(** A store outside known tables changes no translation. *)
Lemma known_same_translations m m' tabs :
  match root_table c 0 with Some t => existsb (Z.eqb t) (hd [] tabs) | None => false end
  && tables_known m (level_shifts Long) tabs && same_entries m m' tabs = true ->
  same_translations c m m'.
Proof.
  intros E. apply andb_true_iff in E. destruct E as [E Se].
  apply andb_true_iff in E. destruct E as [Er K]. intros la ac user rw.
  unfold ref_page_walk. destruct (get_PG c); [|reflexivity].
  cbn [negb]. replace (walk_path c (entry_reader c m') la) with (walk_path c (entry_reader c m) la).
  { reflexivity. }
  unfold walk_path.
  assert (R : root_table c la = root_table c 0) by (unfold root_table; now rewrite c_long).
  rewrite R, c_long. destruct (root_table c 0) as [t|]; [|reflexivity].
  apply existsb_exists in Er. destruct Er as (t' & Ht & Et). apply Z.eqb_eq in Et. subst t'.
  now rewrite (ref_walk_known m m' _ tabs).
Qed.

End Known.
