(* ===== verification/AccessRefine.v ===== *)
(** * Linear accesses refine the reference semantics

    The fast path finds the operand's bytes through a host pointer only when the
    page walk would give the same place with the same rights; the slow path
    translates every page of the operand before it touches memory. *)

From Stdlib Require Import ZArith Lia List Bool.
From S2P Require Import Prelude LazyFlags Cpu Tlb TlbProps Paging PagingSpec PagingRefine PagingAd.
From S2P Require Import TlbSound TlbTrace Access AccessSpec.
Import ListNotations.
Open Scope Z_scope.

(** ** Addresses *)

Lemma page_offset_mod la : PAGE_OFFSET la = la mod 4096.
Proof.
  unfold PAGE_OFFSET. change 0xfff with (Z.ones 12). rewrite Z.land_ones by lia.
  change (u32 la) with (la mod 2 ^ 32). change 4096 with (2 ^ 12).
  apply (wrap_wrap_le 12 32). lia.
Qed.

Lemma page_offset_range la : 0 <= PAGE_OFFSET la < 4096.
Proof. rewrite page_offset_mod. now apply Z.mod_pos_bound. Qed.

(** Two slots of one array are adjacent when the operand crosses a page. *)
Lemma index_of_last size la n : size = 2048 -> 1 <= n <= 4096 ->
  get_index_of size la (n - 1) = get_index_of size la 0 -> PAGE_OFFSET la + n <= 4096.
Proof.
  intros -> Hn. unfold get_index_of.
  change (Z.shiftl (2048 - 1) 12) with (Z.shiftl (Z.ones 11) 12).
  rewrite !land_mask, !Z.shiftr_div_pow2, !Z.div_mul by lia. unfold get_field.
  rewrite page_offset_mod, !Z.shiftr_div_pow2, !Z.add_0_r by lia. unfold wrap.
  change (2 ^ 12) with 4096. change (2 ^ 11) with 2048. change (2 ^ 32) with 4294967296.
  Z.to_euclidean_division_equations. nia.
Qed.

Lemma canonical_bits a b : (forall i, 47 <= i < 64 -> Z.testbit a i = Z.testbit b i) ->
  IsCanonical a = IsCanonical b.
Proof.
  intros E. unfold IsCanonical. do 3 f_equal. apply Z.bits_inj'. intros i Hi.
  rewrite !Z.shiftr_spec, !signed_bit by lia.
  destruct (Z.ltb_spec (i + (48 - 1)) 64); apply E; lia.
Qed.

Lemma canonical_32 a : fits 32 a -> IsCanonical a = true.
Proof.
  intros H. transitivity (IsCanonical 0); [|reflexivity]. apply canonical_bits. intros i Hi.
  rewrite (fits_testbit 32 a), Z.testbit_0_l by (assumption || lia). reflexivity.
Qed.

Lemma same_frame_canonical a b : LPFOf a = LPFOf b -> IsCanonical a = IsCanonical b.
Proof.
  intros E. apply canonical_bits. intros i Hi.
  assert (B : Z.testbit (LPFOf a) i = Z.testbit (LPFOf b) i) by now rewrite E.
  rewrite !lpf_bits in B by lia.
  destruct (Z.leb_spec 12 i), (Z.ltb_spec i 64); try lia. exact B.
Qed.

Lemma lpf_idem a : LPFOf (LPFOf a) = LPFOf a.
Proof. unfold LPFOf. now rewrite <- Z.land_assoc, Z.land_diag. Qed.

(** A match with the alignment mask: the frames agree and the masked bits of the
    address are 0. *)
Lemma aligned_match l la mask : TLB_LPFOf l = LPFOf l -> 0 <= mask < 2048 ->
  l = AlignedAccessLPFOf la mask ->
  l = LPFOf la /\ Z.testbit l 11 = false /\ Z.land la mask = 0.
Proof.
  intros Hl Hm E.
  assert (Bm : forall i, 11 <= i -> Z.testbit mask i = false).
  { intros i Hi. apply (fits_testbit 11); [lia|unfold fits; change (2 ^ 11) with 2048; lia|lia]. }
  assert (Bl : forall i, 0 <= i -> Z.testbit l i
    = Z.testbit la i && ((12 <=? i) && (i <? 64) || Z.testbit mask i)).
  { intros i Hi. rewrite E. unfold AlignedAccessLPFOf.
    change LPF_MASK with (Z.shiftl (Z.ones 52) 12).
    now rewrite Z.land_spec, Z.lor_spec, mask_bit by lia. }
  assert (Bz : forall i, 0 <= i < 11 -> Z.testbit l i = false).
  { intros i Hi. assert (B : Z.testbit (TLB_LPFOf l) i = Z.testbit (LPFOf l) i) by now rewrite Hl.
    rewrite TLB_LPFOf_bits, lpf_bits in B by lia.
    destruct (Z.leb_spec 12 i), (Z.ltb_spec i 64), (Z.ltb_spec i 11); try lia. exact B. }
  split; [|split].
  - apply Z.bits_inj'. intros i Hi. rewrite lpf_bits by lia. destruct (Z.ltb_spec i 11).
    + rewrite Bz by lia. destruct (Z.leb_spec 12 i); [lia|reflexivity].
    + rewrite Bl, Bm, orb_false_r by lia. apply andb_comm.
  - now rewrite Bl, Bm, andb_false_r by lia.
  - apply Z.bits_inj'. intros i Hi. rewrite Z.land_spec, Z.testbit_0_l.
    destruct (Z.ltb_spec i 11) as [H|H]; [|now rewrite Bm, andb_false_r by lia].
    rewrite <- (Bz i), Bl by lia. destruct (Z.leb_spec 12 i); [lia|]. reflexivity.
Qed.

Definition access_size (n : Z) : Prop := In n [1; 2; 4; 8; 16].

Lemma access_size_range n : access_size n -> 1 <= n <= 16.
Proof. intros [<-|[<-|[<-|[<-|[<-|[]]]]]]; lia. Qed.

Lemma low_mask_le n la : access_size n -> Z.land la (Z.land (n - 1) 15) = 0 ->
  anyb (PAGE_OFFSET la) (n - 1) = false.
Proof.
  intros S E. unfold anyb. apply negb_false_iff, Z.eqb_eq. rewrite <- E.
  rewrite page_offset_mod. change 4096 with (2 ^ 12). rewrite <- Z.land_ones by lia.
  rewrite <- Z.land_assoc. f_equal. destruct S as [<-|[<-|[<-|[<-|[<-|[]]]]]]; reflexivity.
Qed.

Lemma lor_page a p : p mod 4096 = 0 -> 0 <= a < 4096 -> Z.lor p a = p + a.
Proof.
  intros Hp Ha.
  assert (E : p = Z.shiftl (p / 4096) 12).
  { rewrite Z.shiftl_mul_pow2 by lia. change (2 ^ 12) with 4096. pose proof (Z.div_mod p 4096). lia. }
  rewrite E at 1. rewrite lor_shiftl_add by (unfold fits; change (2 ^ 12) with 4096; lia).
  change (2 ^ 12) with 4096. pose proof (Z.div_mod p 4096). lia.
Qed.

Lemma lpf_mod a : LPFOf a mod 4096 = 0.
Proof.
  change 4096 with (2 ^ 12). rewrite <- Z.land_ones by lia.
  apply Z.bits_inj'. intros i Hi. rewrite Z.land_spec, lpf_bits, Z.testbit_ones, Z.testbit_0_l by lia.
  destruct (Z.leb_spec 12 i), (Z.ltb_spec i 12), (Z.leb_spec 0 i); try lia; now rewrite ?andb_false_r.
Qed.

(** ** The invariant *)

Section Refine.
Context {M : Type} `{PM : PhysicalMemory M} `{HM : !HostMemory M}.
Context `{!PhysicalMemoryOk M} `{!HostMemoryOk M}.
Implicit Types (s : memsys M) (m : M).

(** Writes the entry may grant. *)
Definition writable (c : cregs) (e : bx_TLB_entry) : bool :=
  anyb (accessBits e) TLB_SysWriteOK || (get_PG c && anyb (accessBits e) TLB_UserWriteOK).

(** Where the data TLB's fast paths may use the host pointer. *)
Record hosted (c : cregs) m (e : bx_TLB_entry) : Prop := {
  hosted_low : TLB_LPFOf (lpf e) = LPFOf (lpf e);
  hosted_canonical : IsCanonical (lpf e) = true;
  hosted_ppf : ppf e mod 4096 = 0;
  hosted_pointer : Z.testbit (lpf e) 11 = false ->
    hostPageAddr e mod 4096 = 0 /\ 0 < hostPageAddr e
    /\ host_valid m (hostPageAddr e) (ppf e) (writable c e);
}.

Definition all_hosted (c : cregs) m (t : TLB) : Prop :=
  forall i, 0 <= i < BX_DTLB_SIZE -> valid (entry t i) = true -> hosted c m (entry t i).

(** The mode registers are consistent with each other.  CPL 3 without paging is
    left out: there a read fills an entry that grants user writes. *)
Record access_regs_ok (c : cregs) : Prop := {
  regs_user : user_pl c = (CPL c =? 3);
  regs_alignment : alignment_check_mask c = 0 \/ alignment_check_mask c = 0xF;
  regs_alignment_user : alignment_check c = true -> CPL c = 3;
  regs_long : long64_mode c = true -> long_mode c = true;
}.

Record sys_ok s : Prop := {
  sys_mmu : mmu_ok (mm s);
  sys_regs : access_regs_ok (regs (mm s));
  sys_wf : phy_wf (phys (mm s));
  sys_hosted : all_hosted (regs (mm s)) (phys (mm s)) (DTLB (mm s));
}.

Definition user_paged (c : cregs) (pl : Z) : Prop := pl = 3 -> get_PG c = true.
Definition laddr_ok (c : cregs) (laddr : Z) : Prop := fits (if long64_mode c then 64 else 32) laddr.

Lemma laddr_fits c laddr : laddr_ok c laddr -> fits 64 laddr.
Proof.
  unfold laddr_ok. destruct (long64_mode c); [auto|]. apply fits_le. lia.
Qed.

Lemma laddr_used c laddr : access_regs_ok c -> laddr_ok c laddr ->
  (if long_mode c then laddr else u32 laddr) = laddr.
Proof.
  intros R L. destruct (long_mode c) eqn:E; [reflexivity|]. unfold laddr_ok in L.
  destruct (long64_mode c) eqn:E64; [|now apply wrap_id].
  apply (regs_long c R) in E64. congruence.
Qed.

(** ** Translation keeps the invariant *)

Lemma hosted_keep c m m' e : (forall h p w, host_valid m h p w -> host_valid m' h p w) ->
  hosted c m e -> hosted c m' e.
Proof.
  intros K [H1 H2 H3 H4]. split; try assumption. intros B. destruct (H4 B) as (A1 & A2 & A3). auto.
Qed.

Lemma all_hosted_keep c m m' t : (forall h p w, host_valid m h p w -> host_valid m' h p w) ->
  all_hosted c m t -> all_hosted c m' t.
Proof. intros K A i Hi V. apply (hosted_keep c m); auto. Qed.

Lemma all_hosted_set c m t n e : all_hosted c m t -> (valid e = true -> hosted c m e) ->
  all_hosted c m (set_entry t n e).
Proof.
  intros A He i Hi. cbn [set_entry set_field entry]. destruct (i =? n); [exact He|now apply A].
Qed.

Lemma apply_writes_wf k writes : forall m, phy_wf m ->
  phy_wf (apply_writes k writes m)
  /\ (forall h p w, host_valid m h p w -> host_valid (apply_writes k writes m) h p w).
Proof.
  unfold apply_writes. induction writes as [|[a v] l IH]; intros m W; cbn [fold_left]; [auto|].
  destruct (IH (phy_write k a v m) (phy_wf_write k a v m W)) as [W' K].
  split; [exact W'|]. intros h p w Hv. apply K. now apply host_valid_after_write.
Qed.

(** Only a write fills an entry that grants writes. *)
Lemma filled_writable c user rw combined l p h k : rw_cases rw -> rw <> BX_EXECUTE ->
  writable c (TLBEntry l p h (fill_access_bits c user rw combined) k) = true -> Z.testbit rw 0 = true.
Proof.
  intros R N. unfold writable, fill_access_bits. cbn [accessBits].
  destruct R as [->|[->|[->| ->]]]; try reflexivity; [|now elim N].
  destruct (get_PG c), (anyb combined BX_COMBINED_ACCESS_USER), user, (get_SMAP c),
    (anyb combined BX_COMBINED_GLOBAL_PAGE); intros E; exact E.
Qed.

Lemma filled_hosted c m la user rw combined p k (host := phy_host p rw m) :
  phy_wf m -> rw_cases rw -> rw <> BX_EXECUTE -> fits 64 la -> IsCanonical la = true ->
  0 <= p -> p mod 4096 = 0 ->
  hosted c m (TLBEntry (if negb (host =? 0) then LPFOf la else Z.lor (LPFOf la) TLB_NoHostPtr)
    p host (fill_access_bits c user rw combined) k).
Proof.
  intros Wf R N Hl Hc H0 Hp.
  match goal with |- hosted _ _ ?x => set (e := x) end.
  destruct (filled_frame la e (negb (host =? 0)) Hl eq_refl) as (F1 & F2 & _).
  split.
  - now rewrite F1, F2.
  - rewrite <- Hc. apply same_frame_canonical. rewrite F2. reflexivity.
  - exact Hp.
  - unfold e at 1. cbn [lpf hostPageAddr ppf]. destruct (Z.eqb_spec host 0) as [E|E]; cbn [negb].
    + intros B. rewrite Z.lor_spec in B. apply orb_false_iff in B. destruct B as [_ B].
      discriminate B.
    + intros _. destruct (phy_host_aligned p rw m Wf H0 Hp) as [A1 A2]. fold host in A1, A2.
      split; [exact A1|]. split; [change (0 < host); lia|].
      change (hostPageAddr e) with host. change (ppf e) with p.
      pose proof (phy_host_valid p rw m Wf H0 Hp N E) as V. fold host in V.
      destruct (writable c e) eqn:W.
      * now rewrite (filled_writable c user rw combined _ _ _ _ R N W) in V.
      * destruct (Z.testbit rw 0); [now apply host_valid_weaken|exact V].
Qed.

Definition keeps_hosted (c : cregs) (o : outcome (mmu M) Z) : Prop :=
  match o with
  | Ok _ t | Fault _ t => phy_wf (phys t) /\ all_hosted c (phys t) (DTLB t)
  end.

Lemma translate_linear_miss_hosted la user rw (t : mmu M) n :
  mmu_ok t -> 0 <= rw < 4 -> rw <> BX_EXECUTE -> fits 64 la -> IsCanonical la = true ->
  phy_wf (phys t) -> all_hosted (regs t) (phys t) (DTLB t) ->
  keeps_hosted (regs t) (translate_linear_miss (DSlot n) la user rw t).
Proof.
  intros Hok Hrw N Hl Hc Wf A. unfold translate_linear_miss. unfold xbind at 1.
  rewrite page_walk_spec by (try apply Hok; assumption). unfold spec_page_walk. cbv zeta.
  destruct (ref_page_walk _ _ _ _ _ _) as [[code|[[pa combined] mask]] writes].
  { rewrite page_fault_eq by assumption. cbn. auto. }
  set (k := entry_size (mode_of (regs t))).
  destruct (apply_writes_wf k writes (phys t) Wf) as [Wf' K].
  set (m' := apply_writes k writes (phys t)) in *.
  apply (all_hosted_keep _ _ m') in A; [|exact K].
  rewrite (proj2 (Z.eqb_neq rw BX_EXECUTE) N).
  assert (P : PPFOf (A20ADDR (regs t) pa) mod 4096 = 0) by apply lpf_mod.
  assert (P0 : 0 <= PPFOf (A20ADDR (regs t) pa)) by (apply Z.land_nonneg; right; discriminate).
  pose proof (filled_hosted (regs t) m' la user rw combined (PPFOf (A20ADDR (regs t) pa)) mask Wf'
    (rw_range rw Hrw) N Hl Hc P0 P) as F.
  cbv zeta in F.
  unfold set_split_large_if, xbind, xret, get_regs, getHostMemAddr, write_slot.
  destruct (0xfff <? mask); cbn [negb]; (split; [exact Wf'|]);
    (apply (all_hosted_set _ _ _ n _ A)); intros _; exact F.
Qed.

Lemma all_hosted_invalidate c m t n : all_hosted c m t ->
  all_hosted c m (set_entry t n (invalidate (entry t n))).
Proof. intros A. apply all_hosted_set; [exact A|discriminate]. Qed.

Lemma translate_linear_hosted la user rw (t : mmu M) :
  mmu_ok t -> 0 <= rw < 4 -> rw <> BX_EXECUTE -> fits 64 la -> IsCanonical la = true ->
  (if long_mode (regs t) then la else u32 la) = la ->
  phy_wf (phys t) -> all_hosted (regs t) (phys t) (DTLB t) ->
  keeps_hosted (regs t) (translate_linear (DSlot (get_index_of BX_DTLB_SIZE la 0)) la user rw t).
Proof.
  intros Hok Hrw N Hl Hc Hu Wf A. unfold translate_linear. unfold xbind at 1, get_regs.
  assert (El : (if negb (long_mode (regs t)) then Z.land la 0xffffffff else la) = la).
  { destruct (long_mode (regs t)); [reflexivity|]. cbn [negb]. rewrite <- Hu at 2.
    exact (Z.land_ones la 32 ltac:(lia)). }
  rewrite El. set (n := get_index_of BX_DTLB_SIZE la 0). unfold xbind at 1, read_slot.
  rewrite (proj2 (Z.eqb_neq rw BX_EXECUTE) N). cbn [negb andb].
  destruct (TLB_LPFOf _ =? _); [|now apply translate_linear_miss_hosted].
  destruct (anyb _ _); [unfold xret; cbn; auto|].
  unfold xbind at 1, write_slot.
  assert (G : mmu_ok (t <| DTLB := set_entry (DTLB t) n (invalidate (entry (DTLB t) n)) |>)).
  { destruct Hok as [A20 R D I]. split; cbn; auto using tlb_ok_invalidate. }
  exact (translate_linear_miss_hosted la user rw _ n G Hrw N Hl Hc Wf
    (all_hosted_invalidate _ _ _ n A)).
Qed.

(** Translation for a data access: the walk's result and the invariant. *)
Lemma translate_data_walked laddr (user : bool) rw s :
  sys_ok s -> 0 <= rw < 4 -> rw <> BX_EXECUTE -> laddr_ok (regs (mm s)) laddr ->
  IsCanonical laddr = true ->
  let '(r, (m1, cr2')) :=
    walk_step (regs (mm s)) (TlbTrace.Access laddr user rw) (phys (mm s), cr2 (mm s)) in
  exists t, translate_data laddr user rw s
    = match r with inl e => Fault e (s <| mm := t |>) | inr pa => Ok pa (s <| mm := t |>) end
  /\ phys t = m1 /\ cr2 t = cr2' /\ regs t = regs (mm s) /\ sys_ok (s <| mm := t |>).
Proof.
  intros [Hok R Wf A] Hrw N Hl Hc.
  pose proof (tlb_step_walks (TlbTrace.Access laddr user rw) (mm s) Hok
    (conj (laddr_fits _ _ Hl) Hrw)) as T.
  pose proof (translate_linear_hosted laddr user rw (mm s) Hok Hrw N (laddr_fits _ _ Hl) Hc
    (laddr_used _ _ R Hl) Wf A) as K.
  unfold translate_data, lift. cbn [tlb_step] in T. unfold slot_of in T.
  rewrite (proj2 (Z.eqb_neq rw BX_EXECUTE) N) in T.
  destruct (translate_linear _ laddr user rw (mm s)) as [pa t|e t]; destruct T as (-> & Er & Ok');
    destruct K as [Wf' A']; exists t; (split; [reflexivity|]); do 2 (split; [reflexivity|]);
    (split; [exact Er|]); (split; cbn [set_field mm]; [exact Ok'| | exact Wf'|]); now rewrite Er.
Qed.

(** ** The fast path *)

Definition data_entry s (laddr last : Z) : bx_TLB_entry :=
  get_entry_of BX_DTLB_SIZE (DTLB (mm s)) laddr last.

Definition fast_match s (laddr last amask : Z) : bool :=
  lpf (data_entry s laddr last) =? AlignedAccessLPFOf laddr amask.

Lemma fast_entry_eq last amask laddr s :
  fast_entry last amask laddr s
  = Ok (if fast_match s laddr last amask then Some (data_entry s laddr last) else None) s.
Proof. reflexivity. Qed.

(** The arguments the code uses: size, last byte, alignment mask of the match and
    of the slow path. *)
Inductive fast_args (c : cregs) : Z -> Z -> Z -> Z -> Prop :=
| FA_checked n : access_size n ->
    fast_args c n (n - 1) (Z.land (n - 1) (alignment_check_mask c)) (n - 1)
| FA_unchecked n : access_size n -> fast_args c n (n - 1) 0 0
| FA_byte : fast_args c 1 0 0 0
| FA_aligned : fast_args c 16 0 15 0.

Lemma fast_args_size c n last amask ac : fast_args c n last amask ac -> access_size n.
Proof. intros []; auto; cbn; unfold access_size; cbn; auto 8. Qed.

Lemma fast_args_mask c n last amask ac : access_regs_ok c -> fast_args c n last amask ac ->
  0 <= amask < 2048.
Proof.
  intros R []; try lia. destruct (regs_alignment c R) as [-> | ->];
    destruct H as [<-|[<-|[<-|[<-|[<-|[]]]]]]; vm_compute; split; congruence.
Qed.

(** What a match says about alignment. *)
Lemma fast_args_aligned c n last amask ac laddr : access_regs_ok c -> fast_args c n last amask ac ->
  Z.land laddr amask = 0 -> alignment_check c = true -> anyb (PAGE_OFFSET laddr) ac = false.
Proof.
  intros R F E Ac. destruct F; try (unfold anyb; now rewrite Z.land_0_r).
  apply low_mask_le; [assumption|]. unfold alignment_check in Ac.
  now destruct (regs_alignment c R) as [Z0|Z0]; rewrite Z0 in *.
Qed.

Lemma fast_args_one_page c n last amask ac laddr : fast_args c n last amask ac ->
  Z.land laddr amask = 0 ->
  get_index_of BX_DTLB_SIZE laddr last = get_index_of BX_DTLB_SIZE laddr 0 ->
  PAGE_OFFSET laddr + n <= 4096.
Proof.
  intros F E I. pose proof (access_size_range n (fast_args_size _ _ _ _ _ F)) as Hn.
  destruct F; try (apply (index_of_last BX_DTLB_SIZE); [reflexivity|lia|exact I]).
  rewrite page_offset_mod. change 15 with (Z.ones 4) in E. rewrite Z.land_ones in E by lia.
  change (2 ^ 4) with 16 in E. Z.to_euclidean_division_equations. lia.
Qed.

(** The entry [e] serves an access of [n] bytes at [laddr]: it is right for the
    page, and its host pointer for the whole operand. *)
Record usable s (e : bx_TLB_entry) (laddr n ac : Z) : Prop := {
  us_entry : entry_ok false (regs (mm s)) (phys (mm s)) e;
  us_frame : LPFOf laddr = TLB_LPFOf (lpf e);
  us_page : PAGE_OFFSET laddr + n <= 4096;
  us_canonical : IsCanonical laddr = true;
  us_aligned : alignment_check (regs (mm s)) = true -> anyb (PAGE_OFFSET laddr) ac = false;
  us_ppf : ppf e mod 4096 = 0;
  us_host : hostPageAddr e mod 4096 = 0;
  us_host_pos : 0 < hostPageAddr e;
  us_valid : host_valid (phys (mm s)) (hostPageAddr e) (ppf e) (writable (regs (mm s)) e);
}.

(** A matching entry is usable. *)
Lemma fast_match_usable n last amask ac laddr s : sys_ok s -> laddr_ok (regs (mm s)) laddr ->
  fast_args (regs (mm s)) n last amask ac -> fast_match s laddr last amask = true ->
  usable s (data_entry s laddr last) laddr n ac /\ Z.land laddr amask = 0
  /\ hosted (regs (mm s)) (phys (mm s)) (data_entry s laddr last)
  /\ lpf (data_entry s laddr last) = LPFOf laddr
  /\ Z.testbit (lpf (data_entry s laddr last)) 11 = false.
Proof.
  intros [Hok R Wf A] Hl F Hm. unfold fast_match in Hm. apply Z.eqb_eq in Hm.
  set (e := data_entry s laddr last) in *. set (c := regs (mm s)) in *.
  set (j := get_index_of BX_DTLB_SIZE laddr last).
  assert (Hj : 0 <= j < BX_DTLB_SIZE).
  { unfold j, get_index_of, BX_DTLB_SIZE. change (2048 - 1) with (Z.ones 11).
    rewrite land_mask, Z.shiftr_div_pow2, Z.div_mul by lia. now apply (field_fits 12 11). }
  assert (Ej : e = entry (DTLB (mm s)) j) by reflexivity.
  pose proof (fast_args_mask c n last amask ac R F) as Mk.
  assert (V : valid e = true).
  { unfold valid. destruct (Z.eqb_spec (lpf e) BX_INVALID_TLB_ENTRY) as [I|]; [|reflexivity].
    exfalso. assert (B : Z.testbit (lpf e) 11 = true) by now rewrite I.
    rewrite Hm in B. unfold AlignedAccessLPFOf in B.
    rewrite Z.land_spec, Z.lor_spec, (fits_testbit 11 amask) in B
      by (unfold fits; change (2 ^ 11) with 2048; lia).
    now rewrite andb_false_r in B. }
  assert (Hh : hosted c (phys (mm s)) e) by (rewrite Ej; apply A; [assumption|now rewrite <- Ej]).
  destruct Hh as [H1 H2 H3 H4] eqn:Eh. clear Eh.
  destruct (aligned_match (lpf e) laddr amask H1 Mk Hm) as (E1 & E2 & E3).
  assert (Ei : j = get_index_of BX_DTLB_SIZE laddr 0).
  { assert (S1 : get_index_of BX_DTLB_SIZE (LPFOf (lpf e)) 0 = j).
    { rewrite Ej. apply (wf_slot _ _ (ok_wf _ _ _ _ _ (ok_DTLB _ Hok))); [assumption|now rewrite <- Ej]. }
    now rewrite E1, lpf_idem, index_of_frame in S1 by (apply (laddr_fits c); assumption). }
  destruct (H4 E2) as (P1 & P2 & P3). split; [|auto]. split; try assumption.
  - rewrite Ej. apply (ok_entries _ _ _ _ _ (ok_DTLB _ Hok)); [assumption|now rewrite <- Ej].
  - now rewrite H1, E1, lpf_idem.
  - exact (fast_args_one_page c n last amask ac laddr F E3 Ei).
  - rewrite <- H2. apply same_frame_canonical. now rewrite E1, lpf_idem.
  - exact (fast_args_aligned c n last amask ac laddr R F E3).
Qed.

(** A walk for the access finds the entry's place and writes nothing. *)
Definition serves s (e : bx_TLB_entry) (laddr : Z) (user : bool) (rw : Z) : Prop :=
  let c := regs (mm s) in
  exists pa combined mask,
    ref_page_walk c (entry_reader c (phys (mm s))) laddr (eflags_AC c) user rw = (inr (pa, combined, mask), [])
    /\ A20ADDR c pa = Z.lor (ppf e) (PAGE_OFFSET laddr).

Lemma usable_serves s e laddr n ac user rw : usable s e laddr n ac -> laddr_ok (regs (mm s)) laddr ->
  0 <= rw < 4 -> grants false e user rw = true -> serves s e laddr user rw.
Proof.
  intros U Hl Hrw G.
  destruct (us_entry _ _ _ _ _ U laddr (eflags_AC (regs (mm s))) user rw
    Hrw (laddr_fits _ _ Hl) (us_frame _ _ _ _ _ U) G) as (pa & cb & W & Ap & _).
  now exists pa, cb, (lpf_mask e).
Qed.

Lemma fast_operand n ac laddr pl rw s e : sys_ok s -> laddr_ok (regs (mm s)) laddr ->
  usable s e laddr n ac -> serves s e laddr (pl =? 3) rw ->
  ref_operand (regs (mm s)) n laddr pl rw ac (phys (mm s), cr2 (mm s))
  = (inr (Some [(ppf e + PAGE_OFFSET laddr, n)]), (phys (mm s), cr2 (mm s))).
Proof.
  intros Hok Hl U (pa & cb & mask & W & Ap). unfold ref_operand. cbv zeta.
  rewrite (us_canonical _ _ _ _ _ U).
  cbn [negb]. replace (_ && _ && _) with false.
  2: { destruct (alignment_check (regs (mm s))) eqn:Ea; [|reflexivity].
       now rewrite (us_aligned _ _ _ _ _ U Ea), andb_false_r. }
  rewrite (proj2 (Z.leb_le _ _) (us_page _ _ _ _ _ U)). cbn [walk_step].
  rewrite (laddr_used (regs (mm s)) laddr (sys_regs s Hok) Hl).
  rewrite W, Ap, lor_page by (apply U || apply page_offset_range).
  reflexivity.
Qed.

(** What the fast paths read and write through the pointer, at an offset [d]. *)
Lemma fast_load n ac laddr k d s e : usable s e laddr n ac -> 0 <= d -> 0 < k -> d + k <= n ->
  phy_read k (ppf e + PAGE_OFFSET laddr + d) (phys (mm s))
  = (host_read k (host_addr e laddr + d) (phys (mm s)), phys (mm s)).
Proof.
  intros U Hd Hk Hdk. pose proof (page_offset_range laddr). pose proof (us_page _ _ _ _ _ U).
  unfold host_addr. rewrite lor_page by (apply U || lia).
  rewrite <- !Z.add_assoc.
  apply (host_valid_read _ _ _ _ (PAGE_OFFSET laddr + d) k (us_valid _ _ _ _ _ U)); lia.
Qed.

Lemma writable_grant c e (user : bool) : (user = true -> get_PG c = true) ->
  isWriteOK e user = true -> writable c e = true.
Proof.
  intros Hu W. unfold writable. destruct user; [rewrite Hu by reflexivity|].
  - unfold isWriteOK in W. change (Z.shiftl 4 (Z.b2z true)) with TLB_UserWriteOK in W.
    unfold anyb at 2. rewrite W. apply orb_true_r.
  - unfold isWriteOK in W. change (Z.shiftl 4 (Z.b2z false)) with TLB_SysWriteOK in W.
    unfold anyb at 1. now rewrite W.
Qed.

(** [m] is the memory, perhaps after other stores. *)
Lemma fast_store n ac laddr k d data (user : bool) s e m : usable s e laddr n ac ->
  0 <= d -> 0 < k -> d + k <= n ->
  (user = true -> get_PG (regs (mm s)) = true) -> fits (8 * k) data ->
  (forall h p w, host_valid (phys (mm s)) h p w -> host_valid m h p w) ->
  isWriteOK e user = true ->
  phy_write k (ppf e + PAGE_OFFSET laddr + d) data m = host_write k (host_addr e laddr + d) data m.
Proof.
  intros U Hd Hk Hdk Hu Hf Km W. pose proof (page_offset_range laddr).
  pose proof (us_page _ _ _ _ _ U). unfold host_addr. rewrite lor_page by (apply U || lia).
  pose proof (us_valid _ _ _ _ _ U) as Hv. rewrite (writable_grant _ e user Hu W) in Hv.
  rewrite <- !Z.add_assoc.
  apply (host_valid_write _ _ _ (PAGE_OFFSET laddr + d) k data (Km _ _ _ Hv)); lia || assumption.
Qed.

(** ** The slow path *)

(** Checks and translations, without the accesses. *)
Definition translate_operand (laddr len curr_pl xlate_rw ac_mask : Z) : acc M bool :=
  let pageOffset := PAGE_OFFSET laddr in
  let user := curr_pl =? 3 in
  ok <~ check_linear laddr curr_pl ac_mask ;;
  if negb ok then aret false
  else if pageOffset + len <=? 4096 then
    paddr1 <~ translate_data laddr user xlate_rw ;;
    set_xlation (fun x => x <| paddress1 := paddr1 |> <| pages := 1 |>) ~;
    aret true
  else
    let l1 := 4096 - pageOffset in
    set_xlation (fun x => x <| len1 := l1 |> <| len2 := len - l1 |> <| pages := 2 |>) ~;
    c <~ cregs_of ;;
    match second_page c laddr l1 with
    | None => aret false
    | Some laddr2 =>
      paddr1 <~ translate_data laddr user xlate_rw ;;
      set_xlation (fun x => x <| paddress1 := paddr1 |>) ~;
      paddr2 <~ translate_data laddr2 user xlate_rw ;;
      set_xlation (fun x => x <| paddress2 := paddr2 |>) ~;
      aret true
    end.

(** The physical ranges left in [address_xlation]. *)
Definition xlation_ranges (n : Z) (x : xlation) : list (Z * Z) :=
  if pages x =? 1 then [(paddress1 x, n)] else [(paddress1 x, len1 x); (paddress2 x, len2 x)].

Definition set_phys s m : memsys M := s <| mm := (mm s) <| phys := m |> |>.

Lemma set_phys_idem s m m' : set_phys (set_phys s m) m' = set_phys s m'.
Proof. reflexivity. Qed.

Lemma abind_ext {A B} (m : acc M A) (k1 k2 : A -> acc M B) s :
  (forall a t, m s = Ok a t -> k1 a t = k2 a t) -> abind m k1 s = abind m k2 s.
Proof. intros E. unfold abind. destruct (m s); auto. Qed.

Lemma abind_assoc {A B C} (m : acc M A) (k1 : A -> acc M B) (k2 : B -> acc M C) s :
  abind (abind m k1) k2 s = abind m (fun a => abind (k1 a) k2) s.
Proof. unfold abind. destruct (m s); reflexivity. Qed.

(** The accesses at the end of [access_read_linear]. *)
Definition load_operand (n : Z) : acc M (option Z) := fun s =>
  let '(v, m) := load_ranges (xlation_ranges n (address_xlation s)) (phys (mm s)) in
  Ok (Some v) (set_phys s m).
Definition store_operand (n data : Z) : acc M bool := fun s =>
  Ok true (set_phys s (store_ranges (xlation_ranges n (address_xlation s)) data (phys (mm s)))).

Lemma lift_read pa n s :
  lift (access_read_physical pa n) s
  = let '(v, m) := phy_read n pa (phys (mm s)) in Ok v (set_phys s m).
Proof. unfold lift, access_read_physical. destruct (phy_read n pa (phys (mm s))). reflexivity. Qed.

Lemma lift_write pa n v s :
  lift (access_write_physical pa n v) s = Ok tt (set_phys s (phy_write n pa v (phys (mm s)))).
Proof. reflexivity. Qed.

Lemma check_linear_ok laddr pl mask s ok t :
  check_linear laddr pl mask s = Ok ok t -> t = s.
Proof.
  unfold check_linear, cregs_of, gets, abind, aret, araise.
  destruct (negb (IsCanonical laddr)); [congruence|]. destruct (_ && _ && _); congruence.
Qed.

Ltac run_translation pa t :=
  match goal with
  | |- context [translate_linear ?p ?a ?u ?r ?x] =>
    destruct (translate_linear p a u r x) as [pa t|? t]; [|reflexivity]
  end.

Lemma access_read_split laddr n pl rw mask s :
  access_read_linear laddr n pl rw mask s
  = (ok <~ translate_operand laddr n pl rw mask ;;
     if ok : bool then load_operand n else aret None) s.
Proof.
  unfold access_read_linear, translate_operand. cbv zeta. rewrite abind_assoc.
  apply abind_ext. intros ok t _. destruct ok; cbn [negb]; [|reflexivity].
  unfold load_operand, xlation_ranges, translate_data, lift, set_xlation, cregs_of, gets, abind, aret.
  destruct (_ <=? 4096).
  - run_translation pa u.
    unfold access_read_physical. cbn [set_field mm address_xlation pages paddress1 load_ranges].
    change (1 =? 1) with true. cbv iota. cbn [load_ranges].
    destruct (phy_read n pa (phys u)) as [v m]. now rewrite Z.shiftl_0_l, Z.lor_0_l.
  - cbn [set_field mm address_xlation]. destruct (second_page _ laddr _) as [laddr2|]; [|reflexivity].
    run_translation pa u.
    cbn [set_field mm address_xlation].
    run_translation pa2 v.
    cbn [set_field mm address_xlation pages paddress1 paddress2 len1 len2].
    change (2 =? 1) with false. cbv iota. cbn [load_ranges].
    unfold access_read_physical. cbn [set_field mm phys].
    destruct (phy_read _ pa (phys v)) as [lo m1]. cbn [set_field mm phys].
    destruct (phy_read _ pa2 m1) as [hi m2]. now rewrite Z.shiftl_0_l, Z.lor_0_l.
Qed.

(** The halves of the data fit the ranges. *)
Lemma store_halves n l data pa1 pa2 m : 0 <= l <= n -> fits (8 * n) data ->
  store_ranges [(pa1, l); (pa2, n - l)] data m
  = phy_write (n - l) pa2 (Z.shiftr data (8 * l)) (phy_write l pa1 (wrap (8 * l) data) m).
Proof.
  intros Hl Hd. cbn [store_ranges]. rewrite wrap_id; [reflexivity|].
  unfold fits in *. rewrite Z.shiftr_div_pow2 by lia. split; [apply Z.div_pos; lia|].
  apply Z.div_lt_upper_bound; [lia|]. rewrite <- Z.pow_add_r by lia.
  replace (8 * l + 8 * (n - l)) with (8 * n) by lia. lia.
Qed.

Lemma access_write_split laddr n pl rw mask data s :
  fits (8 * n) data -> 0 < n ->
  access_write_linear laddr n pl rw mask data s
  = (ok <~ translate_operand laddr n pl rw mask ;;
     if ok : bool then store_operand n data else aret false) s.
Proof.
  intros Hd Hn. unfold access_write_linear, translate_operand. cbv zeta. rewrite abind_assoc.
  apply abind_ext. intros ok t _. destruct ok; cbn [negb]; [|reflexivity].
  pose proof (page_offset_range laddr) as Ho.
  unfold store_operand, xlation_ranges, translate_data, lift, set_xlation, cregs_of, gets, abind, aret.
  destruct (Z.leb_spec (PAGE_OFFSET laddr + n) 4096) as [L|L].
  - run_translation pa u.
    unfold access_write_physical. cbn [set_field mm address_xlation pages paddress1].
    change (1 =? 1) with true. cbv iota. cbn [store_ranges]. now rewrite wrap_id by assumption.
  - cbn [set_field mm address_xlation]. destruct (second_page _ laddr _) as [laddr2|]; [|reflexivity].
    run_translation pa u.
    cbn [set_field mm address_xlation].
    run_translation pa2 v.
    cbn [set_field mm address_xlation pages paddress1 paddress2 len1 len2].
    change (2 =? 1) with false. cbv iota. rewrite store_halves by (assumption || lia). reflexivity.
Qed.

(** [translate_operand] is the reference's operand. *)
Definition same_point s s' (st : mem_state (M := M)) : Prop :=
  sys_ok s' /\ regs (mm s') = regs (mm s) /\ (phys (mm s'), cr2 (mm s')) = st.

Lemma sys_ok_xlation s f : sys_ok s -> sys_ok (s <| address_xlation := f |>).
Proof. intros [A B C D]. split; assumption. Qed.

Lemma second_page_ok c laddr l1 laddr2 : second_page c laddr l1 = Some laddr2 ->
  laddr_ok c laddr2 /\ IsCanonical laddr2 = true.
Proof.
  unfold second_page, laddr_ok. destruct (long64_mode c); cbn [negb].
  - destruct (IsCanonical _) eqn:E; [|discriminate]. intros [= <-]. split; [|exact E].
    apply wrap_fits. lia.
  - intros [= <-]. assert (F : fits 32 (Z.land (u64 (laddr + l1)) 0xffffffff)).
    { change 0xffffffff with (Z.ones 32). rewrite Z.land_ones by lia. apply wrap_fits. lia. }
    split; [exact F|now apply canonical_32].
Qed.

Lemma translate_operand_ref laddr n pl rw ac s : sys_ok s -> access_size n ->
  laddr_ok (regs (mm s)) laddr -> 0 <= rw < 4 -> rw <> BX_EXECUTE ->
  let '(r, st) := ref_operand (regs (mm s)) n laddr pl rw ac (phys (mm s), cr2 (mm s)) in
  exists s', same_point s s' st /\
  match r with
  | inl e => translate_operand laddr n pl rw ac s = Fault e s'
  | inr None => translate_operand laddr n pl rw ac s = Ok false s'
  | inr (Some ranges) =>
    translate_operand laddr n pl rw ac s = Ok true s'
    /\ xlation_ranges n (address_xlation s') = ranges
    /\ pages (address_xlation s') <= 2
    /\ (pages (address_xlation s') <> 1 ->
        len2 (address_xlation s') = n - len1 (address_xlation s')
        /\ 0 < len1 (address_xlation s') < n)
  end.
Proof.
  intros Hok Sz Hl Hrw N. unfold ref_operand, translate_operand, check_linear. cbv zeta.
  unfold cregs_of, gets, abind, aret, araise, set_xlation.
  pose proof (access_size_range n Sz) as Hn. pose proof (page_offset_range laddr) as Ho.
  assert (Same : same_point s s (phys (mm s), cr2 (mm s))) by (split; auto).
  destruct (IsCanonical laddr) eqn:Hc; cbn [negb]; [|eauto].
  destruct (_ && _ && _); [eauto|]. cbn [negb].
  destruct (Z.leb_spec (PAGE_OFFSET laddr + n) 4096) as [L|L].
  - pose proof (translate_data_walked laddr (pl =? 3) rw s Hok Hrw N Hl Hc) as T.
    destruct (walk_step _ _ _) as [[e|pa] [m1 c1]]; destruct T as (t & -> & E1 & E2 & E3 & Ok').
    + eexists. split; [|reflexivity]. split; [exact Ok'|]. split; [exact E3|].
      cbn [set_field mm]. now rewrite E1, E2.
    + eexists. split; [|split; [reflexivity|]].
      * split; [now apply sys_ok_xlation|]. cbn [set_field mm]. rewrite E1, E2. auto.
      * cbn. split; [reflexivity|]. split; [lia|]. now intros [].
  - cbn [set_field mm].
    destruct (second_page _ laddr _) as [laddr2|] eqn:E2p.
    2: { eexists. split; [|reflexivity]. split; [now apply sys_ok_xlation|auto]. }
    destruct (second_page_ok _ _ _ _ E2p) as [Hl2 Hc2].
    match goal with |- context [translate_data laddr _ _ ?x] => set (s0 := x) end.
    assert (Hok0 : sys_ok s0) by now apply sys_ok_xlation.
    pose proof (translate_data_walked laddr (pl =? 3) rw s0 Hok0 Hrw N Hl Hc) as T.
    change (regs (mm s0)) with (regs (mm s)) in T. change (phys (mm s0)) with (phys (mm s)) in T.
    change (cr2 (mm s0)) with (cr2 (mm s)) in T.
    destruct (walk_step _ (TlbTrace.Access laddr _ _) _) as [[e|pa] [m1 c1]];
      destruct T as (t & -> & E1 & E2 & E3 & Ok').
    + eexists. split; [|reflexivity]. split; [exact Ok'|]. split; [exact E3|].
      cbn [set_field mm]. now rewrite E1, E2.
    + match goal with |- context [translate_data laddr2 _ _ ?x] => set (s1 := x) end.
      assert (Hok1 : sys_ok s1) by now apply sys_ok_xlation.
      assert (Er : regs (mm s1) = regs (mm s)) by exact E3.
      rewrite <- Er in Hl2.
      pose proof (translate_data_walked laddr2 (pl =? 3) rw s1 Hok1 Hrw N Hl2 Hc2) as T.
      rewrite Er in T. change (phys (mm s1)) with (phys t) in T. change (cr2 (mm s1)) with (cr2 t) in T.
      rewrite E1, E2 in T.
      destruct (walk_step _ (TlbTrace.Access laddr2 _ _) _) as [[e|pa2] [m2 c2]];
        destruct T as (t2 & -> & F1 & F2 & F3 & Ok2).
      * eexists. split; [|reflexivity]. split; [exact Ok2|]. split; [exact F3|].
        cbn [set_field mm]. now rewrite F1, F2.
      * eexists. split; [|split; [reflexivity|]].
        -- split; [now apply sys_ok_xlation|]. cbn [set_field mm]. rewrite F1, F2.
           split; [exact F3|reflexivity].
        -- cbn. split; [reflexivity|]. split; [lia|]. intros _. split; [reflexivity|change (0 < 4096 - PAGE_OFFSET laddr < n); lia].
Qed.

End Refine.
