(* ===== verification/AccessTrace.v ===== *)
(** * Programs see no TLB and no host pointers

    Each linear access gives what the reference gives, and so does every run of
    loads, stores, read-modify-writes and stack writes that follows the
    architecture's rule for changing page tables. *)

From Stdlib Require Import ZArith Lia List Bool.
From S2P Require Import Prelude LazyFlags Cpu Tlb TlbProps Paging PagingSpec PagingRefine PagingAd.
From S2P Require Import TlbSound TlbTrace Access AccessSpec AccessRefine.
Import ListNotations.
Open Scope Z_scope.

(** The functions of each size that finish a read-modify-write. *)
Definition write_RMW_sized {M} `{PhysicalMemory M} `{!HostMemory M} (n val : Z) : acc M unit :=
  if n =? 1 then write_RMW_linear_byte val
  else if n =? 2 then write_RMW_linear_word val
  else write_RMW_linear n val.

(** The end of a read-modify-write; [None] leaves the operand unwritten, as a
    shift by 0 does. *)
Definition finish_RMW {M} `{PhysicalMemory M} `{!HostMemory M} (n : Z) (w : option Z) : acc M unit :=
  match w with Some val => write_RMW_sized n (wrap (8 * n) val) | None => aret tt end.

Definition modify {M} `{PhysicalMemory M} `{!HostMemory M} (n s laddr : Z) (f : Z -> option Z) : acc M Z :=
  v <~ read_RMW_linear n s laddr ;;
  finish_RMW n (f v) ~;
  aret v.

(** The same for 16 bytes, as one value. *)
Definition modify16 {M} `{PhysicalMemory M} `{!HostMemory M} (s laddr : Z) (f : Z -> Z) : acc M Z :=
  v <~ read_RMW_linear_dqword_aligned_64 s laddr ;;
  let '(hi, lo) := v in
  let old := Z.lor (Z.shiftl hi 64) lo in
  write_RMW_linear_dqword (u64 (Z.shiftr (f old) 64)) (u64 (f old)) ~;
  aret old.

Section Trace.
Context {M : Type} `{PM : PhysicalMemory M} `{HM : !HostMemory M}.
Context `{!PhysicalMemoryOk M} `{!HostMemoryOk M}.
Implicit Types (s : memsys M) (m : M).
Abbreviation mem_state := (mem_state (M := M)).

Definition ref_modify (c : cregs) (n vector laddr : Z) (f : Z -> option Z) (st : mem_state)
    : (exn + Z) * mem_state :=
  match ref_operand c n laddr (CPL c) BX_RW (n - 1) st with
  | (inl e, st1) => (inl e, st1)
  | (inr None, st1) => (inl (Exn vector 0), st1)
  | (inr (Some ranges), (m1, cr2)) =>
    let '(v, m2) := load_ranges ranges m1 in
    (inr v, (match f v with
             | Some w => store_ranges ranges (wrap (8 * n) w) m2
             | None => m2
             end, cr2))
  end.

(** Misaligned operands raise #GP before anything else. *)
Definition ref_aligned {A} (laddr : Z) (r : (exn + A) * mem_state) (st : mem_state)
    : (exn + A) * mem_state :=
  if anyb laddr 15 then (inl (Exn BX_GP_EXCEPTION 0), st) else r.

(** An aligned operand is one range, written in two halves. *)
Definition ref_modify16 (c : cregs) (vector laddr : Z) (f : Z -> Z) (st : mem_state)
    : (exn + Z) * mem_state :=
  match ref_operand c 16 laddr (CPL c) BX_RW 0 st with
  | (inl e, st1) => (inl e, st1)
  | (inr None, st1) => (inl (Exn vector 0), st1)
  | (inr (Some ranges), (m1, cr2)) =>
    let '(v, m2) := load_ranges ranges m1 in
    let pa := match ranges with (pa, _) :: _ => pa | [] => 0 end in
    let m3 := phy_write 8 pa (u64 (f v)) m2 in
    (inr v, (phy_write 8 (pa + 8) (u64 (Z.shiftr (f v) 64)) m3, cr2))
  end.

Definition ref_touch (c : cregs) (vector laddr : Z) (st : mem_state) : (exn + unit) * mem_state :=
  match ref_operand c 1 laddr (CPL c) BX_READ 0 st with
  | (inl e, st1) => (inl e, st1)
  | (inr None, st1) => (inl (Exn vector 0), st1)
  | (inr (Some _), st1) => (inr tt, st1)
  end.

Definition state_of s : mem_state := (phys (mm s), cr2 (mm s)).

(** The access gives the reference's result and memory, and the TLBs are right
    for the memory after the translations. *)
Definition agrees {A} (s : memsys M) (o : outcome (memsys M) A) (translated : mem_state)
    (r : (exn + A) * mem_state) : Prop :=
  exists s', o = match fst r with inl e => Fault e s' | inr a => Ok a s' end
  /\ state_of s' = snd r /\ regs (mm s') = regs (mm s)
  /\ sys_ok (set_phys s' (fst translated))
  /\ phy_wf (phys (mm s'))
  /\ (forall h p w, host_valid (fst translated) h p w -> host_valid (phys (mm s')) h p w).

Lemma load_ranges_wf ranges : forall m, phy_wf m ->
  phy_wf (snd (load_ranges ranges m))
  /\ (forall h p w, host_valid m h p w -> host_valid (snd (load_ranges ranges m)) h p w).
Proof.
  induction ranges as [|[a k] l IH]; intros m W; cbn [load_ranges]; [auto|].
  pose proof (phy_wf_read k a m W) as W1.
  pose proof (fun h p w => host_valid_after_read k a m h p w W) as K1.
  destruct (phy_read k a m) as [lo m1]. cbn [snd] in *.
  destruct (IH m1 W1) as [W2 K2]. destruct (load_ranges l m1) as [hi m2]. cbn [snd] in *. auto.
Qed.

Lemma store_ranges_wf ranges : forall data m, phy_wf m ->
  phy_wf (store_ranges ranges data m)
  /\ (forall h p w, host_valid m h p w -> host_valid (store_ranges ranges data m) h p w).
Proof.
  induction ranges as [|[a k] l IH]; intros data m W; cbn [store_ranges]; [auto|].
  pose proof (phy_wf_write k a (wrap (8 * k) data) m W) as W1.
  pose proof (fun h p w => host_valid_after_write k a (wrap (8 * k) data) m h p w W) as K1.
  destruct (IH (Z.shiftr data (8 * k)) _ W1) as [W2 K2]. auto.
Qed.

Lemma set_phys_same s : set_phys s (phys (mm s)) = s.
Proof. destruct s as [[] ? ? ?]. reflexivity. Qed.

(** An access that changes the memory at the end. *)
Lemma agrees_intro {A} s s' (o : outcome (memsys M) A) (a : exn + A) m' tr :
  same_point s s' tr ->
  o = match a with inl e => Fault e (set_phys s' m') | inr v => Ok v (set_phys s' m') end ->
  phy_wf m' -> (forall h p w, host_valid (fst tr) h p w -> host_valid m' h p w) ->
  agrees s o tr (a, (m', snd tr)).
Proof.
  intros (Hok & Er & <-) -> W K. exists (set_phys s' m'). split; [reflexivity|].
  split; [reflexivity|]. split; [exact Er|]. split; [|split; assumption].
  cbn [fst]. rewrite set_phys_idem, set_phys_same. exact Hok.
Qed.

Lemma agrees_stop {A} s s' (o : outcome (memsys M) A) (a : exn + A) tr :
  same_point s s' tr -> o = match a with inl e => Fault e s' | inr v => Ok v s' end ->
  agrees s o tr (a, tr).
Proof.
  intros P E. rewrite (surjective_pairing tr) at 2. pose proof P as (Hok & _ & Es).
  apply (agrees_intro s s'); [exact P| |rewrite <- Es; apply Hok|rewrite <- Es; auto].
  rewrite <- Es. cbn [fst]. now rewrite set_phys_same.
Qed.

(** ** Single accesses *)

Definition translated (c : cregs) (n laddr pl rw ac : Z) (st : mem_state) : mem_state :=
  snd (ref_operand c n laddr pl rw ac st).

Lemma same_point_refl s : sys_ok s -> same_point s s (state_of s).
Proof. intros. split; auto. Qed.

Lemma slow_read_ref n laddr pl rw ac vector s : sys_ok s -> access_size n ->
  laddr_ok (regs (mm s)) laddr -> 0 <= rw < 4 -> rw <> BX_EXECUTE ->
  agrees s (slow_read n laddr pl rw ac vector s)
    (translated (regs (mm s)) n laddr pl rw ac (state_of s))
    (ref_read (regs (mm s)) n vector laddr pl rw ac (state_of s)).
Proof.
  intros Hok Sz Hl Hrw N.
  pose proof (translate_operand_ref laddr n pl rw ac s Hok Sz Hl Hrw N) as T.
  unfold slow_read. unfold abind at 1. rewrite access_read_split. unfold abind.
  unfold translated, ref_read, state_of.
  destruct (ref_operand _ _ _ _ _ _ _) as [[e|[ranges|]] [m1 c1]]; cbn [snd];
    destruct T as (s' & P & T).
  - rewrite T. now apply (agrees_stop s s').
  - destruct T as (-> & <- & _). unfold load_operand.
    pose proof P as (Hok' & _ & Es). injection Es as <- <-.
    destruct (load_ranges_wf (xlation_ranges n (address_xlation s')) (phys (mm s')) (sys_wf s' Hok'))
      as [W K].
    destruct (load_ranges _ _) as [v m2].
    exact (agrees_intro s s' _ (inr v) m2 _ P eq_refl W K).
  - rewrite T. exact (agrees_stop s s' _ (inl (Exn vector 0)) _ P eq_refl).
Qed.

Lemma slow_write_ref n laddr pl ac data vector s : sys_ok s -> access_size n ->
  laddr_ok (regs (mm s)) laddr -> fits (8 * n) data ->
  agrees s (slow_write n laddr pl ac data vector s)
    (translated (regs (mm s)) n laddr pl BX_WRITE ac (state_of s))
    (ref_write (regs (mm s)) n vector laddr pl data ac (state_of s)).
Proof.
  intros Hok Sz Hl Hd. pose proof (access_size_range n Sz) as Hn.
  pose proof (translate_operand_ref laddr n pl BX_WRITE ac s Hok Sz Hl ltac:(unfold BX_WRITE; lia)
    ltac:(discriminate)) as T.
  unfold slow_write. unfold abind at 1. rewrite access_write_split by (assumption || lia).
  unfold abind, translated, ref_write, state_of.
  destruct (ref_operand _ _ _ _ _ _ _) as [[e|[ranges|]] [m1 c1]]; cbn [snd];
    destruct T as (s' & P & T).
  - rewrite T. now apply (agrees_stop s s').
  - destruct T as (-> & <- & _). unfold store_operand.
    pose proof P as (Hok' & _ & Es). injection Es as <- <-.
    destruct (store_ranges_wf (xlation_ranges n (address_xlation s')) data (phys (mm s'))
      (sys_wf s' Hok')) as [W K].
    exact (agrees_intro s s' _ (inr tt) _ _ P eq_refl W K).
  - rewrite T. exact (agrees_stop s s' _ (inl (Exn vector 0)) _ P eq_refl).
Qed.

Lemma read_grants e user : isReadOK e user = grants false e user BX_READ.
Proof. reflexivity. Qed.
Lemma write_grants e user : isWriteOK e user = grants false e user BX_WRITE.
Proof. destruct user; reflexivity. Qed.
Lemma rw_grants e user : isWriteOK e user = grants false e user BX_RW.
Proof. destruct user; reflexivity. Qed.

Lemma rw_READ : 0 <= BX_READ < 4.
Proof. unfold BX_READ. lia. Qed.
Lemma rw_RW : 0 <= BX_RW < 4.
Proof. unfold BX_RW. lia. Qed.

Lemma load_one n pa m : load_ranges [(pa, n)] m = phy_read n pa m.
Proof. cbn [load_ranges]. destruct (phy_read n pa m). now rewrite Z.shiftl_0_l, Z.lor_0_l. Qed.

Lemma store_one n pa data m : fits (8 * n) data -> store_ranges [(pa, n)] data m = phy_write n pa data m.
Proof. intros. cbn [store_ranges]. now rewrite wrap_id. Qed.

Lemma size16 : access_size 16.
Proof. unfold access_size. cbn. auto 8. Qed.

(** The fast paths. *)
Section Fast.
Context (s : memsys M) (e : bx_TLB_entry) (n ac laddr pl : Z).
Hypothesis Hok : sys_ok s.
Hypothesis Hl : laddr_ok (regs (mm s)) laddr.
Hypothesis Sz : access_size n.
Hypothesis U : usable s e laddr n ac.
Let pa := ppf e + PAGE_OFFSET laddr.

Lemma fast_range rw : serves s e laddr (pl =? 3) rw ->
  ref_operand (regs (mm s)) n laddr pl rw ac (phys (mm s), cr2 (mm s))
  = (inr (Some [(pa, n)]), (phys (mm s), cr2 (mm s))).
Proof. intros G. now apply fast_operand. Qed.

Lemma fast_whole_load :
  phy_read n pa (phys (mm s)) = (host_read n (host_addr e laddr) (phys (mm s)), phys (mm s)).
Proof.
  pose proof (access_size_range n Sz) as Hn.
  pose proof (fast_load n ac laddr n 0 s e U ltac:(lia) ltac:(lia) ltac:(lia)) as L.
  now rewrite !Z.add_0_r in L.
Qed.

Lemma fast_whole_store data : user_paged (regs (mm s)) pl -> fits (8 * n) data ->
  isWriteOK e (pl =? 3) = true ->
  phy_write n pa data (phys (mm s)) = host_write n (host_addr e laddr) data (phys (mm s)).
Proof.
  intros Hu Hd G. pose proof (access_size_range n Sz) as Hn.
  pose proof (fast_store n ac laddr n 0 data (pl =? 3) s e (phys (mm s)) U
    ltac:(lia) ltac:(lia) ltac:(lia) (fun E => Hu (proj1 (Z.eqb_eq _ _) E)) Hd (fun _ _ _ V => V) G) as L.
  now rewrite !Z.add_0_r in L.
Qed.

Lemma fast_granted rw : 0 <= rw < 4 -> grants false e (pl =? 3) rw = true ->
  serves s e laddr (pl =? 3) rw.
Proof. intros Hrw G. now apply (usable_serves s e laddr n ac). Qed.

Lemma fast_read_ref vector : serves s e laddr (pl =? 3) BX_READ ->
  agrees s (host_load n (host_addr e laddr) s)
    (translated (regs (mm s)) n laddr pl BX_READ ac (state_of s))
    (ref_read (regs (mm s)) n vector laddr pl BX_READ ac (state_of s)).
Proof.
  intros G.
  pose proof (fast_range BX_READ G) as E.
  unfold translated, ref_read, state_of. rewrite E. cbv iota beta.
  rewrite load_one, fast_whole_load. cbn [snd].
  exact (agrees_stop s s _ (inr _) _ (same_point_refl s Hok) eq_refl).
Qed.

Lemma fast_write_ref data vector : user_paged (regs (mm s)) pl -> fits (8 * n) data ->
  isWriteOK e (pl =? 3) = true ->
  agrees s (host_store n (host_addr e laddr) data s)
    (translated (regs (mm s)) n laddr pl BX_WRITE ac (state_of s))
    (ref_write (regs (mm s)) n vector laddr pl data ac (state_of s)).
Proof.
  intros Hu Hd G. pose proof (fast_whole_store data Hu Hd G) as St. rewrite write_grants in G.
  pose proof (fast_range BX_WRITE (fast_granted BX_WRITE ltac:(unfold BX_WRITE; lia) G)) as E.
  unfold translated, ref_write, state_of. rewrite E. cbv iota beta.
  rewrite store_one, St by assumption. cbn [snd]. pose proof (sys_wf s Hok) as Wf.
  refine (agrees_intro s s _ (inr tt) _ _ (same_point_refl s Hok) eq_refl _ _);
    rewrite <- St; [now apply phy_wf_write|]. intros h p w. now apply host_valid_after_write.
Qed.

Lemma fast_host_large : (2 <? host_addr e laddr) = true.
Proof.
  apply Z.ltb_lt. unfold host_addr. pose proof (us_host_pos _ _ _ _ _ U).
  pose proof (us_host _ _ _ _ _ U).
  rewrite lor_page by (assumption || apply page_offset_range).
  pose proof (page_offset_range laddr). pose proof (Z.div_mod (hostPageAddr e) 4096). lia.
Qed.

End Fast.

(** The entry of a match. *)
Lemma match_usable s n last amask ac laddr : sys_ok s -> laddr_ok (regs (mm s)) laddr ->
  fast_args (regs (mm s)) n last amask ac -> fast_match s laddr last amask = true ->
  usable s (data_entry s laddr last) laddr n ac.
Proof. intros. eapply fast_match_usable; eassumption. Qed.

Lemma match_serves s n last amask ac laddr user rw : sys_ok s -> laddr_ok (regs (mm s)) laddr ->
  fast_args (regs (mm s)) n last amask ac -> fast_match s laddr last amask = true ->
  0 <= rw < 4 -> grants false (data_entry s laddr last) user rw = true ->
  serves s (data_entry s laddr last) laddr user rw.
Proof. intros. eapply usable_serves; eauto. eapply match_usable; eassumption. Qed.

Lemma match_aligned s last ac laddr : sys_ok s -> laddr_ok (regs (mm s)) laddr ->
  fast_args (regs (mm s)) 16 last 15 ac -> fast_match s laddr last 15 = true ->
  anyb laddr 15 = false.
Proof.
  intros Hok Hl F Fm. destruct (fast_match_usable 16 last 15 ac laddr s Hok Hl F Fm) as (_ & E & _).
  unfold anyb. now rewrite E.
Qed.

(** ** Reads and writes *)

Lemma read_at_ref n laddr pl amask ac vector s : sys_ok s -> laddr_ok (regs (mm s)) laddr ->
  fast_args (regs (mm s)) n (n - 1) amask ac ->
  agrees s (read_linear_at n laddr pl (pl =? 3) amask ac vector s)
    (translated (regs (mm s)) n laddr pl BX_READ ac (state_of s))
    (ref_read (regs (mm s)) n vector laddr pl BX_READ ac (state_of s)).
Proof.
  intros Hok Hl F. unfold read_linear_at. unfold abind at 1. rewrite fast_entry_eq.
  pose proof (slow_read_ref n laddr pl BX_READ ac vector s Hok (fast_args_size _ _ _ _ _ F) Hl
    ltac:(unfold BX_READ; lia) ltac:(discriminate)) as Slow.
  destruct (fast_match s laddr (n - 1) amask) eqn:Fm; [|exact Slow].
  destruct (isReadOK _ _) eqn:G; [|exact Slow].
  exact (fast_read_ref s _ n ac laddr pl Hok Hl (fast_args_size _ _ _ _ _ F)
    (match_usable s n _ _ _ _ Hok Hl F Fm) vector
    (match_serves s n _ _ _ _ _ _ Hok Hl F Fm rw_READ G)).
Qed.

Lemma write_at_ref n laddr data pl amask ac vector s : sys_ok s -> laddr_ok (regs (mm s)) laddr ->
  fast_args (regs (mm s)) n (n - 1) amask ac -> fits (8 * n) data ->
  user_paged (regs (mm s)) pl ->
  agrees s (write_linear_at n laddr data pl (pl =? 3) amask ac vector s)
    (translated (regs (mm s)) n laddr pl BX_WRITE ac (state_of s))
    (ref_write (regs (mm s)) n vector laddr pl data ac (state_of s)).
Proof.
  intros Hok Hl F Hd Hu. unfold write_linear_at. unfold abind at 1. rewrite fast_entry_eq.
  pose proof (slow_write_ref n laddr pl ac data vector s Hok (fast_args_size _ _ _ _ _ F) Hl Hd) as Slow.
  destruct (fast_match s laddr (n - 1) amask) eqn:Fm; [|exact Slow].
  destruct (isWriteOK _ _) eqn:G; [|exact Slow].
  exact (fast_write_ref s _ n ac laddr pl Hok Hl (fast_args_size _ _ _ _ _ F)
    (match_usable s n _ _ _ _ Hok Hl F Fm) data vector Hu Hd G).
Qed.

Definition aligned_translated (c : cregs) (laddr rw : Z) (st : mem_state) : mem_state :=
  if anyb laddr 15 then st else translated c 16 laddr (CPL c) rw 0 st.

Lemma agrees_misaligned {A} s : sys_ok s ->
  agrees s (araise (A := A) BX_GP_EXCEPTION 0 s) (state_of s)
    (inl (Exn BX_GP_EXCEPTION 0), state_of s).
Proof. intros Hok. exact (agrees_stop s s _ (inl _) _ (same_point_refl s Hok) eq_refl). Qed.

Lemma read_xmm_aligned_ref seg laddr s : sys_ok s -> laddr_ok (regs (mm s)) laddr ->
  let c := regs (mm s) in
  agrees s (read_linear_xmmword_aligned seg laddr s) (aligned_translated c laddr BX_READ (state_of s))
    (ref_aligned laddr (ref_read c 16 (int_number seg) laddr (CPL c) BX_READ 0 (state_of s)) (state_of s)).
Proof.
  intros Hok Hl c. unfold read_linear_xmmword_aligned, aligned_translated, ref_aligned.
  unfold abind at 1, cregs_of, gets. unfold abind at 1. rewrite fast_entry_eq.
  pose proof (FA_aligned (regs (mm s))) as F.
  pose proof (slow_read_ref 16 laddr (CPL (regs (mm s))) BX_READ 0 (int_number seg) s Hok
    (fast_args_size _ _ _ _ _ F) Hl ltac:(unfold BX_READ; lia) ltac:(discriminate)) as Slow.
  destruct (fast_match s laddr 0 15) eqn:Fm.
  - rewrite (match_aligned s 0 0 laddr Hok Hl F Fm).
    destruct (isReadOK _ _) eqn:G; [|exact Slow].
    rewrite (regs_user _ (sys_regs s Hok)) in G.
    exact (fast_read_ref s _ 16 0 laddr _ Hok Hl size16
      (match_usable s 16 _ _ _ _ Hok Hl F Fm) (int_number seg)
      (match_serves s 16 _ _ _ _ _ _ Hok Hl F Fm rw_READ G)).
  - destruct (anyb laddr 15); [now apply agrees_misaligned|exact Slow].
Qed.

Lemma write_xmm_aligned_ref seg laddr data s : sys_ok s -> laddr_ok (regs (mm s)) laddr ->
  fits 128 data -> user_paged (regs (mm s)) (CPL (regs (mm s))) ->
  let c := regs (mm s) in
  agrees s (write_linear_xmmword_aligned seg laddr data s)
    (aligned_translated c laddr BX_WRITE (state_of s))
    (ref_aligned laddr (ref_write c 16 (int_number seg) laddr (CPL c) data 0 (state_of s)) (state_of s)).
Proof.
  intros Hok Hl Hd Hu c. unfold write_linear_xmmword_aligned, aligned_translated, ref_aligned.
  unfold abind at 1, cregs_of, gets. unfold abind at 1. rewrite fast_entry_eq.
  pose proof (FA_aligned (regs (mm s))) as F.
  pose proof (slow_write_ref 16 laddr (CPL (regs (mm s))) 0 data (int_number seg) s Hok
    (fast_args_size _ _ _ _ _ F) Hl Hd) as Slow.
  destruct (fast_match s laddr 0 15) eqn:Fm.
  - rewrite (match_aligned s 0 0 laddr Hok Hl F Fm).
    destruct (isWriteOK _ _) eqn:G; [|exact Slow].
    rewrite (regs_user _ (sys_regs s Hok)) in G.
    exact (fast_write_ref s _ 16 0 laddr _ Hok Hl (fast_args_size _ _ _ _ _ F)
      (match_usable s 16 _ _ _ _ Hok Hl F Fm) data (int_number seg) Hu Hd G).
  - destruct (anyb laddr 15); [now apply agrees_misaligned|exact Slow].
Qed.

Lemma store_xlation n val s : access_size n -> fits (8 * n) val ->
  pages (address_xlation s) <= 2 ->
  (pages (address_xlation s) <> 1 ->
   len2 (address_xlation s) = n - len1 (address_xlation s) /\ 0 < len1 (address_xlation s) < n) ->
  write_RMW_sized n val s
  = Ok tt (set_phys s (store_ranges (xlation_ranges n (address_xlation s)) val (phys (mm s)))).
Proof.
  intros Sz Hv Hp Hx. apply Z.ltb_ge in Hp. set (x := address_xlation s) in *.
  assert (Gen : forall w1 v1 w2 v2,
    w1 = len1 x -> v1 = wrap (8 * len1 x) val -> w2 = n - len1 x -> v2 = Z.shiftr val (8 * len1 x) ->
    pages x <> 1 ->
    (lift (access_write_physical (paddress1 x) w1 v1) ~;
     lift (access_write_physical (paddress2 x) w2 v2)) s
    = Ok tt (set_phys s (store_ranges (xlation_ranges n x) val (phys (mm s))))).
  { intros w1 v1 w2 v2 -> -> -> -> E. destruct (Hx E) as [E2 L]. unfold xlation_ranges.
    rewrite (proj2 (Z.eqb_neq _ _) E), E2, store_halves by (assumption || lia). reflexivity. }
  assert (One : pages x = 1 ->
    lift (access_write_physical (paddress1 x) n val) s
    = Ok tt (set_phys s (store_ranges (xlation_ranges n x) val (phys (mm s))))).
  { intros E. unfold xlation_ranges. rewrite E, Z.eqb_refl, store_one by assumption. reflexivity. }
  unfold write_RMW_sized, write_RMW_linear_byte, write_RMW_linear_word, write_RMW_linear.
  destruct Sz as [<-|[<-|[<-|[<-|[<-|[]]]]]]; cbn [Z.eqb Pos.eqb]; unfold abind at 1, gets; fold x;
    rewrite Hp; destruct (Z.eqb_spec (pages x) 1) as [E|E]; try (now apply One);
    destruct (Hx E) as [E2 L]; try lia; apply Gen; auto; try lia.
  - replace (len1 x) with 1 by lia. reflexivity.
  - replace (len1 x) with 1 by lia. reflexivity.
Qed.

Lemma store_host n val s : access_size n -> (2 <? pages (address_xlation s)) = true ->
  write_RMW_sized n val s = host_store n (pages (address_xlation s)) val s.
Proof.
  intros Sz E. unfold write_RMW_sized, write_RMW_linear_byte, write_RMW_linear_word, write_RMW_linear.
  destruct Sz as [<-|[<-|[<-|[<-|[<-|[]]]]]]; cbn [Z.eqb Pos.eqb]; unfold abind at 1, gets; now rewrite E.
Qed.

(** ** Read-modify-writes *)

(** The rest of [modify] after the read. *)
Definition finish_modify (n : Z) (f : Z -> option Z) (v : Z) : acc M Z :=
  finish_RMW n (f v) ~; aret v.

Lemma modify_slow n vector laddr f s : sys_ok s -> access_size n -> laddr_ok (regs (mm s)) laddr ->
  let c := regs (mm s) in
  agrees s (abind (slow_read n laddr (CPL c) BX_RW (n - 1) vector) (finish_modify n f) s)
    (translated c n laddr (CPL c) BX_RW (n - 1) (state_of s))
    (ref_modify c n vector laddr f (state_of s)).
Proof.
  intros Hok Sz Hl c. pose proof (access_size_range n Sz) as Hn.
  pose proof (translate_operand_ref laddr n (CPL c) BX_RW (n - 1) s Hok Sz Hl
    ltac:(unfold BX_RW; lia) ltac:(discriminate)) as T.
  unfold slow_read. rewrite abind_assoc. unfold abind at 1. rewrite access_read_split.
  unfold abind at 1. unfold translated, ref_modify, state_of. unfold c in *.
  destruct (ref_operand _ _ _ _ _ _ _) as [[e|[ranges|]] [m1 c1]]; cbn [snd];
    destruct T as (s' & P & T).
  - rewrite T. now apply (agrees_stop s s').
  - destruct T as (-> & <- & Hp & Hx). unfold load_operand.
    pose proof P as (Hok' & _ & Es). injection Es as <- <-.
    destruct (load_ranges_wf (xlation_ranges n (address_xlation s')) (phys (mm s'))
      (sys_wf s' Hok')) as [W K].
    destruct (load_ranges _ _) as [v m2]. cbn [snd] in *.
    unfold finish_modify, finish_RMW, abind, aret.
    destruct (f v) as [w|].
    2: { refine (agrees_intro s s' _ (inr v) _ _ P eq_refl W _). intros h p b Hv. apply K, Hv. }
    destruct (store_ranges_wf (xlation_ranges n (address_xlation s')) (wrap (8 * n) w) m2 W)
      as [W' K'].
    rewrite store_xlation by
      (cbn [set_phys set_field address_xlation]; auto; apply wrap_fits; lia).
    refine (agrees_intro s s' _ (inr v) _ _ P eq_refl W' _). intros h p b Hv. apply K', K, Hv.
  - rewrite T. exact (agrees_stop s s' _ (inl (Exn vector 0)) _ P eq_refl).
Qed.

Lemma modify_fast n last amask vector laddr f s : sys_ok s -> laddr_ok (regs (mm s)) laddr ->
  user_paged (regs (mm s)) (CPL (regs (mm s))) ->
  fast_args (regs (mm s)) n last amask (n - 1) -> fast_match s laddr last amask = true ->
  let c := regs (mm s) in
  let e := data_entry s laddr last in
  isWriteOK e (user_pl c) = true ->
  agrees s ((data <~ host_load n (host_addr e laddr) ;; keep_place e laddr ~;
             finish_modify n f data) s)
    (translated c n laddr (CPL c) BX_RW (n - 1) (state_of s))
    (ref_modify c n vector laddr f (state_of s)).
Proof.
  intros Hok Hl Hu F Fm c e G. pose proof (fast_args_size _ _ _ _ _ F) as Sz.
  pose proof (access_size_range n Sz) as Hn.
  unfold c in *. rewrite (regs_user _ (sys_regs s Hok)) in G.
  pose proof (match_usable s n _ _ _ _ Hok Hl F Fm) as U. fold e in U.
  pose proof (fast_whole_load s e n _ laddr Sz U) as Ld.
  set (v := host_read n (host_addr e laddr) (phys (mm s))) in *.
  pose proof (fun w Hf => fast_whole_store s e n _ laddr _ Sz U (wrap (8 * n) w) Hu Hf G) as St.
  rewrite rw_grants in G.
  pose proof (fast_range s e n _ laddr _ Hok Hl U BX_RW
    (usable_serves s e laddr _ _ _ _ U Hl rw_RW G)) as E.
  unfold translated, ref_modify, state_of.
  rewrite E. cbv iota beta. rewrite load_one, Ld. cbn [snd].
  pose proof (fast_host_large s e n _ laddr U) as Hbig.
  unfold abind at 1, host_load, gets. fold v. unfold abind at 1, keep_place, set_xlation,
    finish_modify, finish_RMW, abind.
  pose proof (sys_wf s Hok) as Wf. set (s1 := s <| address_xlation := _ |>).
  assert (P : same_point s s1 (phys (mm s), cr2 (mm s))) by (split; [now apply sys_ok_xlation|auto]).
  destruct (f v) as [w|]; [|exact (agrees_stop s s1 _ (inr v) _ P eq_refl)].
  assert (Hf : fits (8 * n) (wrap (8 * n) w)) by (apply wrap_fits; lia).
  rewrite store_one, St, store_host by assumption.
  refine (agrees_intro s s1 _ (inr v) (host_write n (host_addr e laddr) _ (phys (mm s))) _ P eq_refl _ _);
    rewrite <- (St w Hf); [now apply phy_wf_write|]. intros h p b. now apply host_valid_after_write.
Qed.

Lemma agrees_ext {A} s (o1 o2 : acc M A) tr r : (forall t, o1 t = o2 t) ->
  agrees s (o1 s) tr r -> agrees s (o2 s) tr r.
Proof. intros E. now rewrite E. Qed.

Lemma modify_ref n seg laddr f s : sys_ok s -> access_size n -> laddr_ok (regs (mm s)) laddr ->
  user_paged (regs (mm s)) (CPL (regs (mm s))) ->
  let c := regs (mm s) in
  agrees s (modify n seg laddr f s) (translated c n laddr (CPL c) BX_RW (n - 1) (state_of s))
    (ref_modify c n (int_number seg) laddr f (state_of s)).
Proof.
  intros Hok Sz Hl Hu c. unfold modify, read_RMW_linear. fold (finish_modify n f).
  rewrite abind_assoc. unfold abind at 1, cregs_of, gets. rewrite abind_assoc. unfold abind at 1.
  rewrite fast_entry_eq. pose proof (FA_checked c n Sz) as F.
  pose proof (modify_slow n (int_number seg) laddr f s Hok Sz Hl) as Slow. cbv zeta in Slow.
  destruct (fast_match s laddr (n - 1) _) eqn:Fm; [|exact Slow].
  destruct (isWriteOK _ _) eqn:G; [|exact Slow].
  pose proof (modify_fast n (n - 1) _ (int_number seg) laddr f s Hok Hl Hu F Fm G) as Q.
  revert Q. apply agrees_ext. intros t. rewrite abind_assoc. apply abind_ext.
  intros v u _. now rewrite abind_assoc.
Qed.

(** ** Sixteen bytes *)

Definition finish16 (f : Z -> Z) (v : Z * Z) : acc M Z :=
  let '(hi, lo) := v in
  let old := Z.lor (Z.shiftl hi 64) lo in
  write_RMW_linear_dqword (u64 (Z.shiftr (f old) 64)) (u64 (f old)) ~; aret old.

Lemma split64 v : Z.lor (Z.shiftl (Z.shiftr v 64) 64) (u64 v) = v.
Proof.
  apply Z.bits_inj'. intros i Hi. rewrite Z.lor_spec, Z.shiftl_spec, wrap_bit by lia.
  destruct (Z.ltb_spec i 64).
  - rewrite Z.testbit_neg_r by lia. reflexivity.
  - rewrite Z.shiftr_spec by lia. rewrite orb_false_r. f_equal. lia.
Qed.

Lemma aligned_one_range c laddr pl rw st : anyb laddr 15 = false ->
  match ref_operand c 16 laddr pl rw 0 st with
  | (inr (Some ranges), _) => exists pa, ranges = [(pa, 16)]
  | _ => True
  end.
Proof.
  intros A. unfold ref_operand. cbv zeta. destruct (negb _); [exact I|].
  destruct (_ && _ && _); [exact I|].
  assert (Ho : PAGE_OFFSET laddr + 16 <= 4096).
  { apply (fast_args_one_page c 16 0 15 0); [constructor| |reflexivity].
    unfold anyb in A. now apply negb_false_iff, Z.eqb_eq in A. }
  rewrite (proj2 (Z.leb_le _ _) Ho).
  destruct (walk_step _ _ _) as [[e|pa] ?]; [exact I|eauto].
Qed.

Lemma xlation_one n x pa : xlation_ranges n x = [(pa, n)] -> pages x = 1 /\ paddress1 x = pa.
Proof.
  unfold xlation_ranges. destruct (Z.eqb_spec (pages x) 1); [|discriminate].
  intros [= <-]. auto.
Qed.

Lemma store_two m a v1 v2 : phy_wf m ->
  let m' := phy_write 8 (a + 8) v2 (phy_write 8 a v1 m) in
  phy_wf m' /\ (forall h p w, host_valid m h p w -> host_valid m' h p w).
Proof.
  intros W m'. unfold m'. pose proof (phy_wf_write 8 a v1 m W) as W1.
  split; [now apply phy_wf_write|]. intros h p w V.
  apply host_valid_after_write; [exact W1|]. now apply host_valid_after_write.
Qed.

Lemma modify16_slow vector laddr f s : sys_ok s -> laddr_ok (regs (mm s)) laddr ->
  anyb laddr 15 = false ->
  let c := regs (mm s) in
  agrees s (abind (data <~ slow_read 16 laddr (CPL c) BX_RW 0 vector ;;
                   aret (Z.shiftr data 64, u64 data)) (finish16 f) s)
    (translated c 16 laddr (CPL c) BX_RW 0 (state_of s))
    (ref_modify16 c vector laddr f (state_of s)).
Proof.
  intros Hok Hl Al c. assert (Sz : access_size 16) by (unfold access_size; cbn; auto 8).
  pose proof (translate_operand_ref laddr 16 (CPL c) BX_RW 0 s Hok Sz Hl
    ltac:(unfold BX_RW; lia) ltac:(discriminate)) as T.
  pose proof (aligned_one_range c laddr (CPL c) BX_RW (phys (mm s), cr2 (mm s)) Al) as One.
  unfold slow_read. rewrite !abind_assoc. unfold abind at 1. rewrite access_read_split.
  unfold abind at 1. unfold translated, ref_modify16, state_of. unfold c in *.
  destruct (ref_operand _ _ _ _ _ _ _) as [[e|[ranges|]] [m1 c1]]; cbn [snd];
    destruct T as (s' & P & T).
  - rewrite T. now apply (agrees_stop s s').
  - destruct One as [pa ->]. destruct T as (-> & Ex & _ & _). unfold load_operand. rewrite Ex.
    destruct (xlation_one _ _ _ Ex) as [Ep Ea].
    pose proof P as (Hok' & Er & Es). injection Es as <- <-.
    destruct (load_ranges_wf [(pa, 16)] (phys (mm s')) (sys_wf s' Hok')) as [W K].
    destruct (load_ranges _ _) as [v m2]. cbn [snd] in *.
    destruct (store_two m2 pa (u64 (f v)) (u64 (Z.shiftr (f v) 64)) W) as [W' K'].
    unfold abind at 1, aret at 1. unfold abind at 1, aret at 1. unfold finish16. rewrite split64.
    set (s2 := s' <| address_xlation := (address_xlation s') <| paddress1 := pa + 8 |> |>).
    assert (P2 : same_point s s2 (phys (mm s'), cr2 (mm s'))).
    { split; [now apply sys_ok_xlation|]. split; [exact Er|reflexivity]. }
    refine (agrees_intro s s2 _ (inr v) _ _ P2 _ W' _); [|intros h p w Hv; apply K', K, Hv].
    unfold write_RMW_linear_dqword, write_RMW_linear_qword, write_RMW_linear, abind, gets, set_xlation.
    cbn [set_phys set_field address_xlation pages paddress1]. rewrite Ep.
    change (2 <? 1) with false. change (1 =? 1) with true. cbv iota.
    unfold lift, access_write_physical, aret, s2. cbn [set_field set_phys mm address_xlation pages paddress1].
    rewrite Ep. change (2 <? 1) with false. change (1 =? 1) with true. cbv iota.
    cbn [set_field mm phys address_xlation paddress1]. now rewrite Ea.
  - rewrite T. exact (agrees_stop s s' _ (inl (Exn vector 0)) _ P eq_refl).
Qed.

Lemma dqword_host hi lo s h : pages (address_xlation s) = h -> (2 <? h) = true ->
  write_RMW_linear_dqword hi lo s
  = Ok tt (set_phys (s <| address_xlation := (address_xlation s)
                            <| paddress1 := paddress1 (address_xlation s) + 8 |> <| pages := h + 8 |> |>)
      (host_write 8 (h + 8) hi (host_write 8 h lo (phys (mm s))))).
Proof.
  intros <- Hb. assert (Hb2 : (2 <? pages (address_xlation s) + 8) = true)
    by (apply Z.ltb_lt in Hb; apply Z.ltb_lt; lia).
  unfold write_RMW_linear_dqword, write_RMW_linear_qword, write_RMW_linear, abind, gets, set_xlation.
  rewrite Hb. unfold host_store at 1.
  cbn [set_field mm address_xlation pages paddress1]. rewrite Hb.
  cbn [set_field mm address_xlation pages paddress1]. rewrite Hb2. reflexivity.
Qed.

Lemma modify16_fast vector laddr f s : sys_ok s -> laddr_ok (regs (mm s)) laddr ->
  user_paged (regs (mm s)) (CPL (regs (mm s))) -> fast_match s laddr 0 15 = true ->
  let c := regs (mm s) in
  let e := data_entry s laddr 0 in
  isWriteOK e (user_pl c) = true ->
  agrees s ((lo <~ host_load 8 (host_addr e laddr) ;; hi <~ host_load 8 (host_addr e laddr + 8) ;;
             keep_place e laddr ~; finish16 f (hi, lo)) s)
    (translated c 16 laddr (CPL c) BX_RW 0 (state_of s))
    (ref_modify16 c vector laddr f (state_of s)).
Proof.
  intros Hok Hl Hu Fm c e G. pose proof (FA_aligned (regs (mm s))) as F.
  unfold c in *. rewrite (regs_user _ (sys_regs s Hok)) in G.
  pose proof (match_usable s 16 _ _ _ _ Hok Hl F Fm) as U. fold e in U.
  pose proof (fast_whole_load s e 16 0 laddr size16 U) as Ld.
  pose proof (fast_host_large s e 16 0 laddr U) as Hbig.
  pose proof G as Gw. rewrite rw_grants in G.
  pose proof (fast_range s e 16 0 laddr _ Hok Hl U BX_RW
    (usable_serves s e laddr _ _ _ _ U Hl rw_RW G)) as E.
  unfold translated, ref_modify16, state_of.
  rewrite E. cbv iota beta. rewrite load_one, Ld. cbn [snd].
  set (v := host_read 16 (host_addr e laddr) (phys (mm s))) in *. set (pa := ppf e + PAGE_OFFSET laddr).
  assert (F1 : fits 64 (u64 (f v))) by (apply wrap_fits; lia).
  assert (F2 : fits 64 (u64 (Z.shiftr (f v) 64))) by (apply wrap_fits; lia).
  pose proof (sys_wf s Hok) as Wf.
  pose proof (fun k d data m => fast_store 16 0 laddr k d data (CPL (regs (mm s)) =? 3) s e m U) as St.
  unfold user_paged in Hu. rewrite <- Z.eqb_eq in Hu.
  pose proof (St 8 0 _ (phys (mm s)) ltac:(lia) ltac:(lia) ltac:(lia) Hu F1 (fun _ _ _ V => V) Gw) as S1.
  rewrite !Z.add_0_r in S1. fold pa in S1.
  set (m1 := phy_write 8 pa (u64 (f v)) (phys (mm s))) in *.
  pose proof (St 8 8 _ m1 ltac:(lia) ltac:(lia) ltac:(lia) Hu F2
    (fun h p w V => host_valid_after_write _ _ _ _ h p w Wf V) Gw) as S2. fold pa in S2.
  destruct (store_two (phys (mm s)) pa (u64 (f v)) (u64 (Z.shiftr (f v) 64)) Wf) as [W' K'].
  fold m1 in W', K'.
  unfold abind at 1, host_load at 1, gets. unfold abind at 1, host_load at 1, gets.
  unfold abind at 1, keep_place, set_xlation, finish16. rewrite <- host_read_halves. fold v.
  set (s1 := s <| address_xlation := _ |>).
  unfold abind, aret. rewrite (dqword_host _ _ s1 (host_addr e laddr) eq_refl Hbig).
  set (s2 := s1 <| address_xlation := _ |>).
  assert (P : same_point s s2 (phys (mm s), cr2 (mm s)))
    by (split; [now do 2 apply sys_ok_xlation|auto]).
  refine (agrees_intro s s2 _ (inr v) _ _ P _ W' K').
  rewrite S2, S1. reflexivity.
Qed.

Lemma modify16_ref seg laddr f s : sys_ok s -> laddr_ok (regs (mm s)) laddr ->
  user_paged (regs (mm s)) (CPL (regs (mm s))) ->
  let c := regs (mm s) in
  agrees s (modify16 seg laddr f s) (aligned_translated c laddr BX_RW (state_of s))
    (ref_aligned laddr (ref_modify16 c (int_number seg) laddr f (state_of s)) (state_of s)).
Proof.
  intros Hok Hl Hu c. unfold modify16, read_RMW_linear_dqword_aligned_64.
  fold (finish16 f). unfold aligned_translated, ref_aligned.
  rewrite abind_assoc. unfold abind at 1, cregs_of, gets. rewrite abind_assoc. unfold abind at 1.
  rewrite fast_entry_eq. pose proof (FA_aligned (regs (mm s))) as F.
  pose proof (modify16_slow (int_number seg) laddr f s Hok Hl) as Slow. cbv zeta in Slow.
  destruct (fast_match s laddr 0 15) eqn:Fm.
  - rewrite (match_aligned s 0 0 laddr Hok Hl F Fm) in *.
    destruct (isWriteOK _ _) eqn:G; [|exact (Slow eq_refl)].
    pose proof (modify16_fast (int_number seg) laddr f s Hok Hl Hu Fm G) as Q.
    revert Q. apply agrees_ext. intros t. rewrite abind_assoc. apply abind_ext. intros lo u _.
    rewrite abind_assoc. apply abind_ext. intros hi w _. now rewrite abind_assoc.
  - destruct (anyb laddr 15); [|exact (Slow eq_refl)].
    exact (agrees_misaligned (A := Z) s Hok).
Qed.

Lemma touch_ref seg laddr s : sys_ok s -> laddr_ok (regs (mm s)) laddr ->
  let c := regs (mm s) in
  agrees s (tickle_read_linear seg laddr s) (translated c 1 laddr (CPL c) BX_READ 0 (state_of s))
    (ref_touch c (int_number seg) laddr (state_of s)).
Proof.
  intros Hok Hl c. unfold tickle_read_linear. unfold abind at 1, cregs_of, gets. unfold abind at 1.
  rewrite fast_entry_eq. assert (Hrd : 0 <= BX_READ < 4) by (unfold BX_READ; lia).
  set (slow := if negb (IsCanonical laddr) then _ else _).
  assert (Slow : agrees s (slow s) (translated c 1 laddr (CPL c) BX_READ 0 (state_of s))
    (ref_touch c (int_number seg) laddr (state_of s))).
  { unfold translated, ref_touch, ref_operand. change (state_of s) with (phys (mm s), cr2 (mm s)).
    unfold c, slow. pose proof (page_offset_range laddr) as Ho.
    destruct (IsCanonical laddr) eqn:Hc; cbn [negb].
    2: { exact (agrees_stop s s _ (inl (Exn (int_number seg) 0)) _ (same_point_refl s Hok) eq_refl). }
    unfold anyb at 1. unfold anyb at 1. rewrite Z.land_0_r, Z.eqb_refl.
    cbn [negb]. rewrite andb_false_r, (proj2 (Z.leb_le (PAGE_OFFSET laddr + 1) 4096)) by lia.
    pose proof (translate_data_walked laddr (CPL (regs (mm s)) =? 3) BX_READ s Hok Hrd
      ltac:(discriminate) Hl Hc) as T.
    rewrite (regs_user _ (sys_regs s Hok)). unfold abind.
    destruct (walk_step _ _ _) as [[e|pa] [m1 c1]]; destruct T as (t & -> & E1 & E2 & E3 & Ok').
    + refine (agrees_stop s _ _ (inl e) _ (conj Ok' (conj E3 _)) eq_refl).
      cbn [set_field mm]. now rewrite E1, E2.
    + refine (agrees_stop s _ _ (inr tt) _ (conj (sys_ok_xlation _ _ Ok') (conj E3 _)) eq_refl).
      cbn [set_field mm]. now rewrite E1, E2. }
  destruct (fast_match s laddr 0 0) eqn:Fm; [|exact Slow].
  destruct (isReadOK _ _) eqn:G; [|exact Slow].
  rewrite read_grants, (regs_user _ (sys_regs s Hok)) in G.
  pose proof (fast_range s _ 1 0 laddr _ Hok Hl (match_usable s 1 _ _ _ _ Hok Hl (FA_byte _) Fm) BX_READ
    (match_serves s 1 _ _ _ _ _ _ Hok Hl (FA_byte _) Fm rw_READ G)) as E.
  unfold translated, ref_touch, state_of, c. rewrite E.
  exact (agrees_stop s s _ (inr tt) _ (same_point_refl s Hok) eq_refl).
Qed.

(** ** Traces *)

(** What software does after changing page tables. *)
Inductive maintenance := Keep | Invlpg (laddr : Z) | FlushAll.

Inductive linear_op :=
| Load (n seg laddr : Z)
| Save (n seg laddr data : Z)
| SaveStack (n laddr pl data : Z)              (* write_new_stack_* *)
| SystemLoad (n laddr : Z)
| SystemSave (n laddr data : Z)
| LoadXmm (aligned : bool) (seg laddr : Z)
| SaveXmm (aligned : bool) (seg laddr data : Z)
| Modify (n seg laddr : Z) (f : Z -> option Z)
| Modify16 (seg laddr : Z) (f : Z -> Z)
| Touch (seg laddr : Z).

(** The processor's run of an access; units read as 0. *)
Definition run_op (o : linear_op) : acc M Z :=
  let zero (m : acc M unit) : acc M Z := m ~; aret 0 in
  match o with
  | Load n seg laddr => read_linear n seg laddr
  | Save n seg laddr data => zero (write_linear n seg laddr data)
  | SaveStack n laddr pl data => zero (write_new_stack n laddr pl data)
  | SystemLoad n laddr => system_read n laddr
  | SystemSave n laddr data => zero (system_write n laddr data)
  | LoadXmm false seg laddr => read_linear_xmmword seg laddr
  | LoadXmm true seg laddr => read_linear_xmmword_aligned seg laddr
  | SaveXmm false seg laddr data => zero (write_linear_xmmword seg laddr data)
  | SaveXmm true seg laddr data => zero (write_linear_xmmword_aligned seg laddr data)
  | Modify n seg laddr f => modify n seg laddr f
  | Modify16 seg laddr f => modify16 seg laddr f
  | Touch seg laddr => zero (tickle_read_linear seg laddr)
  end.

Definition as_zero (r : (exn + unit) * mem_state) : (exn + Z) * mem_state :=
  (match fst r with inl e => inl e | inr _ => inr 0 end, snd r).

Definition ref_op (c : cregs) (o : linear_op) (st : mem_state) : (exn + Z) * mem_state :=
  match o with
  | Load n seg laddr => ref_read c n (int_number seg) laddr (CPL c) BX_READ (n - 1) st
  | Save n seg laddr data => as_zero (ref_write c n (int_number seg) laddr (CPL c) data (n - 1) st)
  | SaveStack n laddr pl data =>
    as_zero (ref_write c n BX_SS_EXCEPTION laddr pl data (n - 1) st)
  | SystemLoad n laddr => ref_read c n BX_GP_EXCEPTION laddr 0 BX_READ 0 st
  | SystemSave n laddr data => as_zero (ref_write c n BX_GP_EXCEPTION laddr 0 data 0 st)
  | LoadXmm aligned seg laddr =>
    let r := ref_read c 16 (int_number seg) laddr (CPL c) BX_READ 0 st in
    if aligned then ref_aligned laddr r st else r
  | SaveXmm aligned seg laddr data =>
    let r := ref_write c 16 (int_number seg) laddr (CPL c) data 0 st in
    as_zero (if aligned then ref_aligned laddr r st else r)
  | Modify n seg laddr f => ref_modify c n (int_number seg) laddr f st
  | Modify16 seg laddr f => ref_aligned laddr (ref_modify16 c (int_number seg) laddr f st) st
  | Touch seg laddr => as_zero (ref_touch c (int_number seg) laddr st)
  end.

(** Memory and CR2 after the translations, before the access itself. *)
Definition ref_translated (c : cregs) (o : linear_op) (st : mem_state) : mem_state :=
  match o with
  | Load n _ laddr => translated c n laddr (CPL c) BX_READ (n - 1) st
  | Save n _ laddr _ => translated c n laddr (CPL c) BX_WRITE (n - 1) st
  | SaveStack n laddr pl _ => translated c n laddr pl BX_WRITE (n - 1) st
  | SystemLoad n laddr => translated c n laddr 0 BX_READ 0 st
  | SystemSave n laddr _ => translated c n laddr 0 BX_WRITE 0 st
  | LoadXmm false _ laddr => translated c 16 laddr (CPL c) BX_READ 0 st
  | LoadXmm true _ laddr => aligned_translated c laddr BX_READ st
  | SaveXmm false _ laddr _ => translated c 16 laddr (CPL c) BX_WRITE 0 st
  | SaveXmm true _ laddr _ => aligned_translated c laddr BX_WRITE st
  | Modify n _ laddr _ => translated c n laddr (CPL c) BX_RW (n - 1) st
  | Modify16 _ laddr _ => aligned_translated c laddr BX_RW st
  | Touch _ laddr => translated c 1 laddr (CPL c) BX_READ 0 st
  end.

Definition op_wf (c : cregs) (o : linear_op) : Prop :=
  match o with
  | Load n _ laddr | SystemLoad n laddr => access_size n /\ laddr_ok c laddr
  | Save n _ laddr data =>
    access_size n /\ laddr_ok c laddr /\ fits (8 * n) data /\ user_paged c (CPL c)
  | SaveStack n laddr pl data =>
    access_size n /\ laddr_ok c laddr /\ fits (8 * n) data /\ user_paged c pl
  | SystemSave n laddr data => access_size n /\ laddr_ok c laddr /\ fits (8 * n) data
  | LoadXmm _ _ laddr | Touch _ laddr => laddr_ok c laddr
  | SaveXmm _ _ laddr data => laddr_ok c laddr /\ fits 128 data /\ user_paged c (CPL c)
  | Modify n _ laddr _ => access_size n /\ laddr_ok c laddr /\ user_paged c (CPL c)
  | Modify16 _ laddr _ => laddr_ok c laddr /\ user_paged c (CPL c)
  end.

Lemma agrees_zero s (m : acc M unit) tr r : agrees s (m s) tr r ->
  agrees s ((m ~; aret 0) s) tr (as_zero r).
Proof.
  intros (s' & E & A). exists s'. split; [|exact A]. unfold abind. rewrite E.
  destruct r as [[e|[]] st]; reflexivity.
Qed.

Lemma run_op_ref o s : sys_ok s -> op_wf (regs (mm s)) o ->
  let c := regs (mm s) in
  agrees s (run_op o s) (ref_translated c o (state_of s)) (ref_op c o (state_of s)).
Proof.
  intros Hok W c. unfold c. pose proof (regs_user _ (sys_regs s Hok)) as U.
  destruct o as [n seg la|n seg la d|n la pl d|n la|n la d|[] seg la|[] seg la d|n seg la f|seg la f|seg la];
    cbn [op_wf run_op ref_translated ref_op] in *; try apply agrees_zero;
    repeat match goal with H : _ /\ _ |- _ => destruct H end.
  - unfold read_linear, abind, cregs_of, gets. rewrite U. apply read_at_ref; auto using FA_checked.
  - unfold write_linear, abind, cregs_of, gets. rewrite U. apply write_at_ref; auto using FA_checked.
  - unfold write_new_stack, abind, cregs_of, gets. apply write_at_ref; auto using FA_checked.
  - unfold system_read. apply (read_at_ref n la 0); auto using FA_unchecked.
  - unfold system_write. apply (write_at_ref n la d 0); auto using FA_unchecked. discriminate.
  - now apply read_xmm_aligned_ref.
  - unfold read_linear_xmmword, abind, cregs_of, gets. rewrite U.
    apply read_at_ref; auto. apply (FA_unchecked _ 16), size16.
  - now apply write_xmm_aligned_ref.
  - unfold write_linear_xmmword, abind, cregs_of, gets. rewrite U.
    apply write_at_ref; auto. apply (FA_unchecked _ 16), size16.
  - now apply modify_ref.
  - now apply modify16_ref.
  - now apply touch_ref.
Qed.

(** What the stores of an operation may do to the page tables. *)
Definition tables_rule (c : cregs) (k : maintenance) m m' : Prop :=
  tables_in_ram c m' /\
  match k with
  | Keep => same_translations c m m'
  | Invlpg la => fits 64 la /\ remaps_only c la m m'
  | FlushAll => True
  end.

Definition maintain (k : maintenance) s : memsys M :=
  let run (x : xlat M unit) :=
    match x (mm s) with Ok _ t | Fault _ t => s <| mm := t |> end in
  match k with
  | Keep => s
  | Invlpg la => run (TLB_invlpg la)
  | FlushAll => run TLB_flush
  end.

Lemma all_hosted_sub c m t t' : all_hosted c m t ->
  (forall i, 0 <= i < BX_DTLB_SIZE -> valid (entry t' i) = true -> entry t' i = entry t i) ->
  all_hosted c m t'.
Proof. intros A Sb i Hi V. rewrite Sb in * by assumption. now apply A. Qed.

(** The TLBs after the stores and the maintenance. *)
Lemma maintain_ok k s m : sys_ok (set_phys s m) -> phy_wf (phys (mm s)) ->
  (forall h p w, host_valid m h p w -> host_valid (phys (mm s)) h p w) ->
  tables_rule (regs (mm s)) k m (phys (mm s)) ->
  sys_ok (maintain k s).
Proof.
  intros [[A20 _ D I] R _ A] W K [T Rule].
  cbn [set_phys set_field mm regs phys DTLB ITLB] in *.
  apply (all_hosted_keep _ _ _ _ K) in A.
  destruct k as [|la|]; cbn [maintain].
  - split; try assumption. split; try assumption; now apply (tlb_ok_same _ _ _ m).
  - destruct Rule as [Hl Rm]. split; cbn; try assumption.
    + split; cbn; try assumption; now apply (tlb_ok_invlpg _ _ _ m).
    + apply (all_hosted_sub _ _ _ _ A). intros i Hi V.
      now apply (invlpg_entry BX_DTLB_SIZE eq_refl (DTLB (mm s)) la i (ok_wf _ _ _ _ _ D) Hl Hi).
  - split; cbn; try assumption.
    + split; cbn; try assumption; now apply tlb_ok_flush.
    + intros i Hi V. now rewrite flush_valid in V.
Qed.

Fixpoint cpu_run (ops : list (linear_op * maintenance)) s : list (exn + Z) * memsys M :=
  match ops with
  | [] => ([], s)
  | (o, k) :: ops' =>
    let '(r, s1) :=
      match run_op o s with Ok v s1 => (inr v, s1) | Fault e s1 => (inl e, s1) end in
    let '(rs, s2) := cpu_run ops' (maintain k s1) in (r :: rs, s2)
  end.

Fixpoint ref_run (c : cregs) (ops : list (linear_op * maintenance)) (st : mem_state)
    : list (exn + Z) * mem_state :=
  match ops with
  | [] => ([], st)
  | (o, _) :: ops' =>
    let '(r, st1) := ref_op c o st in
    let '(rs, st2) := ref_run c ops' st1 in (r :: rs, st2)
  end.

(** Each operation is well formed, and its stores obey the rule for the page
    tables. *)
Fixpoint program_ok (c : cregs) (ops : list (linear_op * maintenance)) (st : mem_state) : Prop :=
  match ops with
  | [] => True
  | (o, k) :: ops' =>
    let st1 := snd (ref_op c o st) in
    op_wf c o /\ tables_rule c k (fst (ref_translated c o st)) (fst st1) /\ program_ok c ops' st1
  end.

(** C23: Any run of loads, stores, 16-byte accesses, read-modify-writes, stack pushes
    of other privilege levels and system accesses gives the values, the faults,
    the memory and CR2 that walking the page tables for every operand byte
    range gives, as long as stores to the page tables are followed by INVLPG or
    a flush: the TLB, the host pointers, the alignment trick of the match and
    the operand split across two pages cannot be seen.  A store that faults on
    its second page writes nothing. *)
Theorem linear_accesses_refine ops s : sys_ok s ->
  program_ok (regs (mm s)) ops (state_of s) ->
  let '(rs, s') := cpu_run ops s in
  ref_run (regs (mm s)) ops (state_of s) = (rs, state_of s') /\ sys_ok s'.
Proof.
  revert s. induction ops as [|[o k] ops IH]; intros s Hok Hp; cbn [cpu_run ref_run].
  { auto. }
  destruct Hp as (Hw & Hr & Hp).
  pose proof (run_op_ref o s Hok Hw) as A. cbv zeta in A.
  destruct A as (s1 & E & Es & Er & Hok1 & W & K).
  set (r := ref_op _ o _) in *. set (tr := ref_translated _ o _) in *.
  assert (Hok2 : sys_ok (maintain k s1)).
  { apply (maintain_ok k s1 (fst tr)); try assumption. rewrite Er.
    replace (phys (mm s1)) with (fst (snd r)) by now rewrite <- Es. exact Hr. }
  assert (E2 : state_of (maintain k s1) = snd r) by (rewrite <- Es; now destruct k).
  assert (R2 : regs (mm (maintain k s1)) = regs (mm s)) by (rewrite <- Er; now destruct k).
  rewrite <- E2, <- R2 in Hp. specialize (IH (maintain k s1) Hok2 Hp).
  rewrite E2, R2 in IH.
  destruct r as [r0 st1] eqn:Ev. cbn [fst snd] in *. rewrite E.
  destruct r0 as [e|v]; destruct (cpu_run ops (maintain k s1)) as [rs s2];
    destruct IH as [-> IH2]; auto.
Qed.

End Trace.

(** ** A concrete program *)

(** User pages at 0x402000 and 0x403000, and the page table itself at 0x404000. *)
Definition access_tables : ram :=
  fold_left poke [(0x4010, 0x125007); (0x4018, 0x126007); (0x4020, 0x4007)] example_tables.

Definition access_sys : memsys ram :=
  MemSys (Mmu example_regs 0 no_tlb no_tlb access_tables) (Xlation 0 0 0 0 0)
    (fun _ => Segment 0 false 0 0 0 false) (StackCache 0 0 0 0).

Lemma access_sys_ok : sys_ok access_sys.
Proof.
  split.
  - split; [split|..]; auto using ram_tables, no_tlb_ok. vm_compute. split; congruence.
  - split; [reflexivity|now left|discriminate|reflexivity].
  - exact I.
  - intros i _ V. discriminate V.
Qed.

(** A store and loads across a page boundary, a read-modify-write twice (the
    second through the host pointer), a store whose second page is protected, a
    non-canonical address, and a page remapped through its page table entry. *)
Definition access_program : list (linear_op * maintenance) :=
  [(Save 8 3 0x402ffc 0x1122334455667788, Keep); (Load 8 3 0x402ffc, Keep);
   (Load 4 3 0x403000, Keep); (Modify 4 3 0x400010 (fun v => Some (v + 1)), Keep);
   (Modify 4 3 0x400010 (fun v => Some (v + 1)), Keep); (Load 2 3 0x400010, Keep);
   (Save 8 3 0x400ffc 5, Keep); (SaveXmm true 3 0x402008 1, Keep);
   (Modify16 3 0x402010 (fun v => v + 2 ^ 64), Keep); (SystemLoad 4 0x402018, Keep); (Touch 2 0x800000000000, Keep);
   (Save 8 3 0x404010 0x126007, FlushAll); (Load 4 3 0x402000, Keep)].

Definition access_known : list (list Z) := [[0x1000]; [0x2000]; [0x3000]; [0x4000]].

Definition rule_holds (c : cregs) (k : maintenance) (m m' : ram) : bool :=
  match k with
  | Keep =>
    match root_table c 0 with
    | Some t => existsb (Z.eqb t) (hd [] access_known)
    | None => false
    end && tables_known c m (level_shifts Long) access_known
    && same_entries c m m' access_known
  | Invlpg _ => false
  | FlushAll => true
  end.

Lemma rule_holds_ok c k m m' : mode_of c = Long -> rule_holds c k m m' = true -> tables_rule c k m m'.
Proof.
  intros L E. split; [apply ram_tables|].
  destruct k; [|discriminate|exact I]. now apply (known_same_translations c L m m' access_known).
Qed.

Fixpoint rules_hold (ops : list (linear_op * maintenance)) (st : mem_state (M := ram)) : bool :=
  match ops with
  | [] => true
  | (o, k) :: ops' =>
    let st1 := snd (ref_op example_regs o st) in
    rule_holds example_regs k (fst (ref_translated example_regs o st)) (fst st1) && rules_hold ops' st1
  end.

Lemma rules_hold_ok ops : (forall o k, In (o, k) ops -> op_wf example_regs o) ->
  forall st, rules_hold ops st = true -> program_ok example_regs ops st.
Proof.
  induction ops as [|[o k] ops IH]; intros W st E; [exact I|].
  cbn [rules_hold program_ok] in *. apply andb_true_iff in E. destruct E as [E1 E2].
  split; [now apply (W o k); left|]. split; [now apply rule_holds_ok|].
  apply IH; [|exact E2]. intros o' k' Hi. apply (W o' k'). now right.
Qed.

Lemma access_program_ok : program_ok example_regs access_program (state_of access_sys).
Proof.
  apply rules_hold_ok.
  - intros o k H. cbn in H.
    repeat (destruct H as [[= <- <-]|H]; [cbn; unfold access_size, laddr_ok, user_paged, fits;
      cbn; repeat split; auto 8; vm_compute; congruence|]). contradiction.
  - vm_compute. reflexivity.
Qed.

Lemma linear_accesses_refine_witness :
  fst (cpu_run access_program access_sys)
    = [inr 0; inr 0x1122334455667788; inr 0x11223344; inr 0; inr 1; inr 2;
       inl (Exn 14 7); inl (Exn 13 0); inr 0; inr 1; inl (Exn 12 0); inr 0; inr 0x11223344]
  /\ let '(rs, s') := cpu_run access_program access_sys in
     ref_run example_regs access_program (state_of access_sys) = (rs, state_of s') /\ sys_ok s'.
Proof.
  split; [vm_compute; reflexivity|].
  exact (linear_accesses_refine access_program access_sys access_sys_ok access_program_ok).
Defined.
