(* ===== verification/Segment.v ===== *)
(** * Segment checks and virtual accesses (cpu/access.cc, cpu/access.h, cpu/cpu.h)

    A logical address is checked against the cached descriptor of its segment and
    turned into a linear address.  A successful check may leave bits in
    [cache.valid] that let later checks be skipped or shortened; outside 64-bit
    mode every virtual access goes through them. *)

From Stdlib Require Import ZArith Lia List Bool.
From S2P Require Import Prelude LazyFlags Cpu Tlb Paging Access.
Import ListNotations.
Open Scope Z_scope.

Definition SegValidCache  := 0x01.
Definition SegAccessROK   := 0x02.
Definition SegAccessWOK   := 0x04.
Definition SegAccessROK4G := 0x08.
Definition SegAccessWOK4G := 0x10.

(** No AVX in the configuration. *)
Definition BX_MAX_MEM_ACCESS_LENGTH := 16.

(** ** The checks

    They give the boolean result and the descriptor with its updated bits, or
    raise #GP for a misaligned operand. *)
Section Checks.

Definition misaligned (seg : segment) (offset length : Z) : bool :=
  anyb (u32 (base seg + offset)) length.

(** [length] is already decremented. *)
Definition beyond_limit (seg : segment) (offset length : Z) : bool :=
  (u32 (limit_scaled seg - length) <? offset) || (limit_scaled seg <? length).

Definition upper_limit (seg : segment) : Z := if d_b seg then 0xffffffff else 0x0000ffff.

Definition beyond_expand_down (seg : segment) (offset length : Z) : bool :=
  (offset <=? limit_scaled seg) || (upper_limit seg <? offset)
  || (u32 (upper_limit seg - offset) <? length).

Definition flat4G (seg : segment) : bool :=
  (limit_scaled seg =? 0xffffffff) && (base seg =? 0).

Definition set_valid (bits : Z) (seg : segment) : segment :=
  seg <| seg_valid := Z.lor (seg_valid seg) bits |>.

(** The case of a segment that grows up: [bits4G] for the flat segment, [bits]
    when the limit is large enough for the short check. *)
Definition check_up (seg : segment) (offset length bits bits4G : Z) : bool * segment :=
  if flat4G seg then (true, set_valid bits4G seg)
  else if beyond_limit seg offset length then (false, seg)
  else (true, if BX_MAX_MEM_ACCESS_LENGTH - 1 <=? limit_scaled seg
              then set_valid bits seg else seg).

Definition write_virtual_checks (seg : segment) (offset length : Z) (align : bool)
    : (exn + bool) * segment :=
  let length := u32 (length - 1) in
  if align && misaligned seg offset length then (inl (Exn BX_GP_EXCEPTION 0), seg)
  else if seg_valid seg =? 0 then (inr false, seg)
  else if negb (seg_p seg) then (inr false, seg)
  else match seg_type seg with
  | 2 | 3 =>
    let '(ok, seg) := check_up seg offset length (Z.lor SegAccessROK SegAccessWOK)
      (Z.lor (Z.lor SegAccessROK SegAccessWOK) (Z.lor SegAccessROK4G SegAccessWOK4G)) in
    (inr ok, seg)
  | 6 | 7 => (inr (negb (beyond_expand_down seg offset length)), seg)
  | _ => (inr false, seg)
  end.

Definition read_virtual_checks (seg : segment) (offset length : Z) (align : bool)
    : (exn + bool) * segment :=
  let length := u32 (length - 1) in
  if align && misaligned seg offset length then (inl (Exn BX_GP_EXCEPTION 0), seg)
  else if seg_valid seg =? 0 then (inr false, seg)
  else if negb (seg_p seg) then (inr false, seg)
  else match seg_type seg with
  | 0 | 1 | 2 | 3 | 10 | 11 | 14 | 15 =>
    let '(ok, seg) := check_up seg offset length SegAccessROK (Z.lor SegAccessROK SegAccessROK4G) in
    (inr ok, seg)
  | 4 | 5 | 6 | 7 => (inr (negb (beyond_expand_down seg offset length)), seg)
  | _ => (inr false, seg)
  end.

Definition execute_virtual_checks (seg : segment) (offset length : Z) : (exn + bool) * segment :=
  if seg_valid seg =? 0 then (inr false, seg)
  else if negb (seg_p seg) then (inr false, seg)
  else
    let length := u32 (length - 1) in
    match seg_type seg with
    | 0 | 1 | 2 | 3 | 10 | 11 | 14 | 15 =>
      let '(ok, seg) := check_up seg offset length SegAccessROK (Z.lor SegAccessROK SegAccessROK4G) in
      (inr ok, seg)
    | 8 | 9 | 12 | 13 => (inr (negb (beyond_limit seg offset length)), seg)
    | 4 | 5 | 6 | 7 => (inr (negb (beyond_expand_down seg offset length)), seg)
    | _ => (inr false, seg)
    end.

End Checks.

Section Virtual.
Context {M : Type} `{HostMemory M}.
Abbreviation acc := (acc M).

Definition get_segment (s : Z) : acc segment := gets (fun st => sregs st s).
Definition put_segment (s : Z) (seg : segment) : acc unit := fun st =>
  Ok tt (st <| sregs := fun k => if k =? s then seg else sregs st k |>).

(** Runs a check on the segment register and keeps its bits. *)
Definition run_checks (s : Z) (check : segment -> (exn + bool) * segment) : acc bool :=
  seg <~ get_segment s ;;
  let '(r, seg') := check seg in
  put_segment s seg' ~;
  match r with
  | inl e => araise (exn_vector e) (exn_error_code e)
  | inr ok => aret ok
  end.

Definition laddr32 (seg : segment) (offset : Z) : Z := u32 (u32 (base seg) + offset).
Definition get_laddr32 (s offset : Z) : acc Z := seg <~ get_segment s ;; aret (laddr32 seg offset).
Definition get_laddr64 (s offset : Z) : acc Z :=
  seg <~ get_segment s ;;
  aret (if s <? BX_SEG_REG_FS then offset else u64 (base seg + offset)).

(** ** Linear addresses, checked *)

Definition agen32 (ok4G ok : Z) (check : segment -> (exn + bool) * segment) (s offset len : Z)
    : acc Z :=
  seg <~ get_segment s ;;
  if anyb (seg_valid seg) ok4G then aret offset
  else if anyb (seg_valid seg) ok && (offset <=? u32 (limit_scaled seg - len + 1))
  then get_laddr32 s offset
  else
    passed <~ run_checks s check ;;
    if passed : bool then get_laddr32 s offset else araise (int_number s) 0.

Definition agen_read32 (s offset len : Z) : acc Z :=
  agen32 SegAccessROK4G SegAccessROK (fun seg => read_virtual_checks seg offset len false) s offset len.
Definition agen_read_execute32 (s offset len : Z) : acc Z :=
  agen32 SegAccessROK4G SegAccessROK (fun seg => execute_virtual_checks seg offset len) s offset len.
Definition agen_read_aligned32 (s offset len : Z) : acc Z :=
  agen32 SegAccessROK4G SegAccessROK (fun seg => read_virtual_checks seg offset len true) s offset len.
Definition agen_write32 (s offset len : Z) : acc Z :=
  agen32 SegAccessWOK4G SegAccessWOK (fun seg => write_virtual_checks seg offset len false) s offset len.
Definition agen_write_aligned32 (s offset len : Z) : acc Z :=
  agen32 SegAccessWOK4G SegAccessWOK (fun seg => write_virtual_checks seg offset len true) s offset len.

(** 64-bit mode checks no limits. *)
Definition agen (in32 : Z -> Z -> Z -> acc Z) (s offset len : Z) : acc Z :=
  c <~ cregs_of ;;
  if long64_mode c then get_laddr64 s offset else in32 s (u32 offset) len.

Definition agen_read := agen agen_read32.
Definition agen_read_aligned := agen agen_read_aligned32.
Definition agen_write := agen agen_write32.
Definition agen_write_aligned := agen agen_write_aligned32.

(** ** Virtual accesses *)

Definition read_virtual (n s offset : Z) : acc Z :=
  laddr <~ agen_read s offset n ;; read_linear n s laddr.
Definition write_virtual (n s offset data : Z) : acc unit :=
  laddr <~ agen_write s offset n ;; write_linear n s laddr data.
Definition read_RMW_virtual (n s offset : Z) : acc Z :=
  laddr <~ agen_write s offset n ;; read_RMW_linear n s laddr.

Definition read_virtual_byte (s offset : Z) : acc Z := read_virtual 1 s offset.
Definition read_virtual_word (s offset : Z) : acc Z := read_virtual 2 s offset.
Definition read_virtual_dword (s offset : Z) : acc Z := read_virtual 4 s offset.
Definition read_virtual_qword (s offset : Z) : acc Z := read_virtual 8 s offset.
Definition write_virtual_byte (s offset data : Z) : acc unit := write_virtual 1 s offset data.
Definition write_virtual_word (s offset data : Z) : acc unit := write_virtual 2 s offset data.
Definition write_virtual_dword (s offset data : Z) : acc unit := write_virtual 4 s offset data.
Definition write_virtual_qword (s offset data : Z) : acc unit := write_virtual 8 s offset data.
Definition read_RMW_virtual_byte (s offset : Z) : acc Z := read_RMW_virtual 1 s offset.
Definition read_RMW_virtual_word (s offset : Z) : acc Z := read_RMW_virtual 2 s offset.
Definition read_RMW_virtual_dword (s offset : Z) : acc Z := read_RMW_virtual 4 s offset.
Definition read_RMW_virtual_qword (s offset : Z) : acc Z := read_RMW_virtual 8 s offset.

Definition read_virtual_xmmword (s offset : Z) : acc Z :=
  laddr <~ agen_read s offset 16 ;; read_linear_xmmword s laddr.
Definition read_virtual_xmmword_aligned (s offset : Z) : acc Z :=
  laddr <~ agen_read_aligned s offset 16 ;; read_linear_xmmword_aligned s laddr.
Definition write_virtual_xmmword (s offset data : Z) : acc unit :=
  laddr <~ agen_write s offset 16 ;; write_linear_xmmword s laddr data.
Definition write_virtual_xmmword_aligned (s offset data : Z) : acc unit :=
  laddr <~ agen_write_aligned s offset 16 ;; write_linear_xmmword_aligned s laddr data.

Definition tickle_read_virtual (s offset : Z) : acc unit :=
  laddr <~ agen_read s offset 1 ;; tickle_read_linear s laddr.

(** The forms of 32-bit code: [offset] is 32 bits wide. *)
Definition read_virtual_32 (n s offset : Z) : acc Z :=
  laddr <~ agen_read32 s offset n ;; read_linear n s laddr.
Definition write_virtual_32 (n s offset data : Z) : acc unit :=
  laddr <~ agen_write32 s offset n ;; write_linear n s laddr data.
Definition read_RMW_virtual_32 (n s offset : Z) : acc Z :=
  laddr <~ agen_write32 s offset n ;; read_RMW_linear n s laddr.

Definition read_virtual_byte_32 (s offset : Z) : acc Z := read_virtual_32 1 s offset.
Definition read_virtual_word_32 (s offset : Z) : acc Z := read_virtual_32 2 s offset.
Definition read_virtual_dword_32 (s offset : Z) : acc Z := read_virtual_32 4 s offset.
Definition read_virtual_qword_32 (s offset : Z) : acc Z := read_virtual_32 8 s offset.
Definition write_virtual_byte_32 (s offset data : Z) : acc unit := write_virtual_32 1 s offset data.
Definition write_virtual_word_32 (s offset data : Z) : acc unit := write_virtual_32 2 s offset data.
Definition write_virtual_dword_32 (s offset data : Z) : acc unit := write_virtual_32 4 s offset data.
Definition write_virtual_qword_32 (s offset data : Z) : acc unit := write_virtual_32 8 s offset data.
Definition read_RMW_virtual_byte_32 (s offset : Z) : acc Z := read_RMW_virtual_32 1 s offset.
Definition read_RMW_virtual_word_32 (s offset : Z) : acc Z := read_RMW_virtual_32 2 s offset.
Definition read_RMW_virtual_dword_32 (s offset : Z) : acc Z := read_RMW_virtual_32 4 s offset.
Definition read_RMW_virtual_qword_32 (s offset : Z) : acc Z := read_RMW_virtual_32 8 s offset.

(** ** Pushes on a new stack *)

(** The segment is the new stack's descriptor, [rpl] and [selector] its selector;
    the bits of the check stay in it. *)
Definition write_new_stack_seg (n : Z) (seg : segment) (rpl selector offset curr_pl data : Z)
    : acc segment :=
  c <~ cregs_of ;;
  let accessOK seg := write_new_stack n (laddr32 seg offset) curr_pl data ~; aret seg in
  let bound_ok :=
    if n =? 2 then offset <? limit_scaled seg
    else if n =? 4 then offset <? u32 (limit_scaled seg - 2)
    else offset <=? u32 (limit_scaled seg - 7) in
  if anyb (seg_valid seg) SegAccessWOK4G then accessOK seg
  else if anyb (seg_valid seg) SegAccessWOK && bound_ok then accessOK seg
  else
    match write_virtual_checks seg offset n false with
    | (inl e, _) => araise (exn_vector e) (exn_error_code e)
    | (inr true, seg') => accessOK seg'
    | (inr false, _) =>
      araise BX_SS_EXCEPTION (if negb (rpl =? CPL c) then Z.land selector 0xfffc else 0)
    end.

Definition write_new_stack_word_seg := write_new_stack_seg 2.
Definition write_new_stack_dword_seg := write_new_stack_seg 4.
Definition write_new_stack_qword_seg := write_new_stack_seg 8.

End Virtual.

(** ** The stack cache (cpu/stack.cc) *)

Definition invalidate_window (k : stack_cache) : stack_cache := k <| espPageWindowSize := 0 |>.

Section Stack.
Context {M : Type} `{HostMemory M}.
Abbreviation acc := (acc M).

Definition get_stk : acc stack_cache := gets stk.
Definition set_stk (f : stack_cache -> stack_cache) : acc unit := fun st =>
  Ok tt (st <| stk := f (stk st) |>).
Definition invalidate_stack_cache : acc unit := set_stk invalidate_window.

Definition expand_down (seg : segment) : bool :=
  negb (Z.testbit (seg_type seg) 3) && Z.testbit (seg_type seg) 2.

(** The window inside the segment limits, [length] decremented; [None] raises #SS. *)
Definition stack_window (seg : segment) (offset pageOffset length : Z) : option Z :=
  let limit := limit_scaled seg in
  let pageStart := u32 (offset - pageOffset) in
  if expand_down seg then
    let upper := upper_limit seg in
    if (offset <=? limit) || (upper <? offset) || (u64 (upper - offset) <? length) then None
    else
      let pageEnd := u32 (pageStart + 0xfff) in
      Some (if (limit <? pageStart) && (pageStart <? pageEnd) then
              if u64 (upper - offset) <? 4096 - pageOffset then u32 (upper - offset + 1) else 4096
            else 0)
  else if (u32 (limit - length) <? offset) || (limit <? length) then None
  else
    Some (if pageStart <=? limit then
            if u64 (limit - offset) <? 4096 - pageOffset then u32 (limit - offset + 1) else 4096
          else 0).

(** The tail: the host pointer, if the TLB has the page for writing. *)
Definition stack_fill (laddr offset pageOffset : Z) : acc unit :=
  e <~ DTLB_entry laddr 0 ;;
  c <~ cregs_of ;;
  (if (lpf e =? LPFOf laddr) && isWriteOK e (user_pl c) then
     set_stk (fun k => k <| espPageBias := u64 (pageOffset - offset) |>
                         <| pAddrStackPage := ppf e |> <| espHostPtr := hostPageAddr e |>)
   else aret tt) ~;
  set_stk (fun k => k <| espPageWindowSize :=
    if (espHostPtr k =? 0) || (espPageWindowSize k <? 7) then 0 else espPageWindowSize k - 7 |>).

Definition stackPrefetch (offset len : Z) : acc unit :=
  set_stk (fun k => k <| espHostPtr := 0 |> <| espPageWindowSize := 0 |>) ~;
  let len := len - 1 in
  c <~ cregs_of ;;
  seg <~ get_segment BX_SEG_REG_SS ;;
  if long64_mode c || anyb (seg_valid seg) SegAccessWOK4G then
    let laddr := offset in
    let pageOffset := PAGE_OFFSET offset in
    if 4096 <=? pageOffset + len then aret tt
    else
      set_stk (fun k => k <| espPageWindowSize := 4096 |>) ~;
      stack_fill laddr offset pageOffset
  else
    laddr <~ get_laddr32 BX_SEG_REG_SS (u32 offset) ;;
    let pageOffset := PAGE_OFFSET laddr in
    if 4096 <=? pageOffset + len then aret tt
    else if seg_valid seg =? 0 then araise BX_SS_EXCEPTION 0
    else match stack_window seg offset pageOffset len with
    | None => araise BX_SS_EXCEPTION 0
    | Some w =>
      set_stk (fun k => k <| espPageWindowSize := w |>) ~;
      stack_fill laddr offset pageOffset
    end.

(** [espBiased], after a prefetch if it lies outside the window. *)
Definition stack_access (offset n : Z) : acc Z :=
  k <~ get_stk ;;
  let espBiased := u64 (offset + espPageBias k) in
  if espPageWindowSize k <=? espBiased then
    stackPrefetch offset n ~;
    k <~ get_stk ;;
    aret (u64 (offset + espPageBias k))
  else aret espBiased.

Definition stack_align (n espBiased : Z) : acc unit :=
  c <~ cregs_of ;;
  k <~ get_stk ;;
  if alignment_check c && anyb (pAddrStackPage k + espBiased) (n - 1)
  then araise BX_AC_EXCEPTION 0 else aret tt.

Definition stack_write (n offset data : Z) : acc unit :=
  espBiased <~ stack_access offset n ;;
  k <~ get_stk ;;
  if negb (espHostPtr k =? 0) then
    stack_align n espBiased ~;
    host_store n (espHostPtr k + espBiased) data
  else write_virtual n BX_SEG_REG_SS offset data.

Definition stack_read (n offset : Z) : acc Z :=
  espBiased <~ stack_access offset n ;;
  k <~ get_stk ;;
  if negb (espHostPtr k =? 0) then
    stack_align n espBiased ~;
    host_load n (espHostPtr k + espBiased)
  else read_virtual n BX_SEG_REG_SS offset.

Definition stack_write_byte (offset data : Z) : acc unit := stack_write 1 offset data.
Definition stack_write_word (offset data : Z) : acc unit := stack_write 2 offset data.
Definition stack_write_dword (offset data : Z) : acc unit := stack_write 4 offset data.
Definition stack_write_qword (offset data : Z) : acc unit := stack_write 8 offset data.
Definition stack_read_byte (offset : Z) : acc Z := stack_read 1 offset.
Definition stack_read_word (offset : Z) : acc Z := stack_read 2 offset.
Definition stack_read_dword (offset : Z) : acc Z := stack_read 4 offset.
Definition stack_read_qword (offset : Z) : acc Z := stack_read 8 offset.

(** The end of a segment register load: the access bits start out clear. *)
Definition load_descriptor (s : Z) (descriptor : segment) : acc unit :=
  put_segment s (descriptor <| seg_valid := SegValidCache |>) ~;
  if s =? BX_SEG_REG_SS then invalidate_stack_cache else aret tt.

Definition null_segment : segment := Segment 0 false 0 0 0 false.

Definition load_null_selector (s : Z) : acc unit :=
  put_segment s null_segment ~; invalidate_stack_cache.

(** The flushes and INVLPG of paging.cc drop the window, too. *)
Definition TLB_flush_sys : acc unit := invalidate_stack_cache ~; lift TLB_flush.
Definition TLB_flushNonGlobal_sys : acc unit := invalidate_stack_cache ~; lift TLB_flushNonGlobal.
Definition TLB_invlpg_sys (laddr : Z) : acc unit := invalidate_stack_cache ~; lift (TLB_invlpg laddr).

End Stack.
