(* ===== verification/SegmentProps.v ===== *)
(** * Segment checks against the descriptor

    The access bits in [cache.valid] are never wrong: whatever they say, each
    address computation gives what a check of the whole descriptor gives. *)

From Stdlib Require Import ZArith Lia List Bool.
From S2P Require Import Prelude LazyFlags Cpu Tlb Paging Access AccessRefine Segment.
Import ListNotations.
Open Scope Z_scope.

(** ** What a descriptor allows *)

Inductive seg_use := SegRead | SegWrite.

(** Types of the code: 0-7 data, 8-15 code; bit 1 is writable or readable, bit 2
    of data is expand-down. *)
Definition type_allows (u : seg_use) (seg : segment) : bool :=
  let t := seg_type seg in
  match u with
  | SegWrite => negb (Z.testbit t 3) && Z.testbit t 1
  | SegRead => negb (Z.testbit t 3) || Z.testbit t 1
  end.

(** The bytes [offset .. offset + len - 1] are inside the segment; in the flat
    segment an operand may wrap around. *)
Definition in_limits (seg : segment) (offset len : Z) : bool :=
  if expand_down seg then (limit_scaled seg <? offset) && (offset + len - 1 <=? upper_limit seg)
  else flat4G seg || (offset + len - 1 <=? limit_scaled seg).

Definition seg_allows (u : seg_use) (seg : segment) (offset len : Z) : bool :=
  negb (seg_valid seg =? 0) && seg_p seg && type_allows u seg && in_limits seg offset len.

(** A linear address, or the fault of the segment. *)
Definition ref_laddr32 (u : seg_use) (s : Z) (seg : segment) (offset len : Z) : exn + Z :=
  if seg_allows u seg offset len then inr (u32 (base seg + offset))
  else inl (Exn (int_number s) 0).

Definition ref_laddr64 (s : Z) (seg : segment) (offset : Z) : Z :=
  if s <? BX_SEG_REG_FS then offset else u64 (base seg + offset).

Definition ref_laddr (c : cregs) (u : seg_use) (s : Z) (seg : segment) (offset len : Z) : exn + Z :=
  if long64_mode c then inr (ref_laddr64 s seg offset)
  else ref_laddr32 u s seg (u32 offset) len.

(** ** The cached bits *)

Record seg_ok (seg : segment) : Prop := {
  so_type : 0 <= seg_type seg < 16;
  so_base : fits 64 (base seg);
  so_limit : fits 32 (limit_scaled seg);
  so_valid : seg_valid seg = 0 \/ Z.testbit (seg_valid seg) 0 = true;
  so_ROK : anyb (seg_valid seg) SegAccessROK = true ->
    seg_p seg = true /\ type_allows SegRead seg = true /\ expand_down seg = false
    /\ 15 <= limit_scaled seg;
  so_WOK : anyb (seg_valid seg) SegAccessWOK = true ->
    seg_p seg = true /\ type_allows SegWrite seg = true /\ expand_down seg = false
    /\ 15 <= limit_scaled seg;
  so_ROK4G : anyb (seg_valid seg) SegAccessROK4G = true ->
    seg_p seg = true /\ type_allows SegRead seg = true /\ expand_down seg = false
    /\ flat4G seg = true;
  so_WOK4G : anyb (seg_valid seg) SegAccessWOK4G = true ->
    seg_p seg = true /\ type_allows SegWrite seg = true /\ expand_down seg = false
    /\ flat4G seg = true;
}.

(** The descriptor without its access bits. *)
Definition descriptor (seg : segment) : segment :=
  seg <| seg_valid := Z.b2z (negb (seg_valid seg =? 0)) |>.

Lemma descriptor_allows u seg offset len :
  seg_allows u (descriptor seg) offset len = seg_allows u seg offset len.
Proof. unfold seg_allows, descriptor. cbn [set_field seg_valid]. now destruct (seg_valid seg =? 0). Qed.

Lemma descriptor_laddr c u s seg offset len :
  ref_laddr c u s (descriptor seg) offset len = ref_laddr c u s seg offset len.
Proof. unfold ref_laddr, ref_laddr32. now rewrite descriptor_allows. Qed.

Lemma valid_bit seg mask : seg_ok seg -> anyb (seg_valid seg) mask = true -> (seg_valid seg =? 0) = false.
Proof.
  intros _ A. apply Z.eqb_neq. intros E. unfold anyb in A. rewrite E, Z.land_0_l in A. discriminate.
Qed.

Lemma anyb_lor_l x y m : anyb (Z.lor x y) m = anyb x m || anyb y m.
Proof.
  unfold anyb. rewrite Z.land_lor_distr_l. rewrite <- negb_andb. f_equal.
  apply eq_true_iff_eq. rewrite andb_true_iff, !Z.eqb_eq. apply Z.lor_eq_0_iff.
Qed.

Lemma set_valid_descriptor seg bits : seg_valid seg <> 0 ->
  descriptor (set_valid bits seg) = descriptor seg.
Proof.
  intros V. unfold descriptor, set_valid. cbn [set_field seg_valid seg_p seg_type base limit_scaled d_b].
  f_equal. destruct (Z.eqb_spec (seg_valid seg) 0); [contradiction|].
  destruct (Z.eqb_spec (Z.lor (seg_valid seg) bits) 0) as [E|]; [|reflexivity].
  apply Z.lor_eq_0_iff in E. tauto.
Qed.

(** Bits that are true of the descriptor can be set. *)
Lemma set_valid_ok seg bits : seg_ok seg -> Z.testbit (seg_valid seg) 0 = true ->
  (anyb bits SegAccessROK = true -> seg_p seg = true /\ type_allows SegRead seg = true
     /\ expand_down seg = false /\ 15 <= limit_scaled seg) ->
  (anyb bits SegAccessWOK = true -> seg_p seg = true /\ type_allows SegWrite seg = true
     /\ expand_down seg = false /\ 15 <= limit_scaled seg) ->
  (anyb bits SegAccessROK4G = true -> seg_p seg = true /\ type_allows SegRead seg = true
     /\ expand_down seg = false /\ flat4G seg = true) ->
  (anyb bits SegAccessWOK4G = true -> seg_p seg = true /\ type_allows SegWrite seg = true
     /\ expand_down seg = false /\ flat4G seg = true) ->
  seg_ok (set_valid bits seg).
Proof.
  intros [] V R W R4 W4.
  split; try assumption; unfold set_valid; cbn [set_field seg_valid seg_p seg_type base limit_scaled d_b].
  1: right; rewrite Z.lor_spec, V; reflexivity.
  all: rewrite anyb_lor_l; intros E; apply orb_true_iff in E; destruct E as [E|E]; auto.
Qed.

(** ** The checks decide [seg_allows] *)

Lemma beyond_limit_iff seg offset len : fits 32 (limit_scaled seg) -> fits 32 offset ->
  1 <= len <= 16 ->
  beyond_limit seg offset (len - 1) = negb (offset + len - 1 <=? limit_scaled seg).
Proof.
  unfold fits. intros [L1 L2] [O1 O2] Hn. unfold beyond_limit.
  destruct (Z.ltb_spec (limit_scaled seg) (len - 1)) as [S|S].
  - rewrite orb_true_r. destruct (Z.leb_spec (offset + len - 1) (limit_scaled seg)); [lia|reflexivity].
  - rewrite (wrap_id 32) by (unfold fits; lia). rewrite orb_false_r.
    destruct (Z.ltb_spec (limit_scaled seg - (len - 1)) offset),
      (Z.leb_spec (offset + len - 1) (limit_scaled seg)); lia || reflexivity.
Qed.

Lemma upper_fits seg : fits 32 (upper_limit seg).
Proof. unfold upper_limit. destruct (d_b seg); split; reflexivity || discriminate. Qed.

Lemma beyond_expand_down_iff seg offset len : fits 32 offset -> 1 <= len <= 16 ->
  beyond_expand_down seg offset (len - 1)
  = negb ((limit_scaled seg <? offset) && (offset + len - 1 <=? upper_limit seg)).
Proof.
  intros [O1 O2] Hn. destruct (upper_fits seg) as [U1 U2]. unfold beyond_expand_down.
  destruct (Z.leb_spec offset (limit_scaled seg)), (Z.ltb_spec (limit_scaled seg) offset); try lia.
    cbn [orb andb].
  destruct (Z.ltb_spec (upper_limit seg) offset).
  - destruct (Z.leb_spec (offset + len - 1) (upper_limit seg)); [lia|reflexivity].
  - rewrite (wrap_id 32) by (unfold fits; lia). cbn [orb].
    destruct (Z.ltb_spec (upper_limit seg - offset) (len - 1)),
      (Z.leb_spec (offset + len - 1) (upper_limit seg)); lia || reflexivity.
Qed.

(** The outcome of a check on a valid, present segment: the answer, and bits
    that are true of the descriptor. *)
Definition decides (u : seg_use) (seg : segment) (offset len : Z) (r : (exn + bool) * segment) : Prop :=
  fst r = inr (seg_allows u seg offset len)
  /\ seg_ok (snd r) /\ descriptor (snd r) = descriptor seg.

Lemma check_up_decides seg offset len bits bits4G (allowed : bool) :
  seg_ok seg -> seg_valid seg <> 0 -> fits 32 offset -> 1 <= len <= 16 ->
  expand_down seg = false ->
  (15 <= limit_scaled seg -> seg_ok (set_valid bits seg)) ->
  (flat4G seg = true -> seg_ok (set_valid bits4G seg)) ->
  let '(ok, seg') := check_up seg offset (len - 1) bits bits4G in
  ok = in_limits seg offset len /\ seg_ok seg' /\ descriptor seg' = descriptor seg.
Proof.
  intros Ok V O Hn Ed B B4. unfold check_up, in_limits. rewrite Ed.
  destruct (flat4G seg) eqn:F; [auto using set_valid_descriptor|].
  rewrite beyond_limit_iff by (apply Ok || assumption). cbn [orb].
  destruct (offset + len - 1 <=? limit_scaled seg); cbn [negb]; [|auto].
  change (BX_MAX_MEM_ACCESS_LENGTH - 1) with 15.
  destruct (Z.leb_spec 15 (limit_scaled seg)); auto using set_valid_descriptor.
Qed.

Lemma type_cases seg : seg_ok seg ->
  In (seg_type seg) [0;1;2;3;4;5;6;7;8;9;10;11;12;13;14;15].
Proof. intros Ok. pose proof (so_type _ Ok). cbn. lia. Qed.

Section Decide.
Context (seg : segment) (offset len : Z).
Hypothesis Ok : seg_ok seg.
Hypothesis V : seg_valid seg <> 0.
Hypothesis P : seg_p seg = true.
Hypothesis O : fits 32 offset.
Hypothesis Hn : 1 <= len <= 16.

Lemma valid_bit0 : Z.testbit (seg_valid seg) 0 = true.
Proof. destruct (so_valid _ Ok); [contradiction|assumption]. Qed.

Lemma decides_no u : type_allows u seg = false -> decides u seg offset len (inr false, seg).
Proof.
  intros T. split; [|auto]. unfold seg_allows. now rewrite T, !andb_false_r, andb_false_l.
Qed.

Lemma decides_down u : type_allows u seg = true -> expand_down seg = true ->
  decides u seg offset len (inr (negb (beyond_expand_down seg offset (len - 1))), seg).
Proof.
  intros T D. split; [|auto]. cbn [fst]. rewrite beyond_expand_down_iff, negb_involutive by assumption.
  unfold seg_allows, in_limits. rewrite T, D, P. apply Z.eqb_neq in V. now rewrite V.
Qed.

Lemma decides_up u bits bits4G : type_allows u seg = true -> expand_down seg = false ->
  (15 <= limit_scaled seg -> seg_ok (set_valid bits seg)) ->
  (flat4G seg = true -> seg_ok (set_valid bits4G seg)) ->
  decides u seg offset len
    (let '(ok, seg') := check_up seg offset (len - 1) bits bits4G in (inr ok, seg')).
Proof.
  intros T D B B4. pose proof (check_up_decides seg offset len bits bits4G true Ok V O Hn D B B4) as C.
  destruct (check_up _ _ _ _ _) as [ok seg']. destruct C as (-> & C1 & C2).
  split; [|auto]. cbn [fst]. unfold seg_allows. rewrite T, P. apply Z.eqb_neq in V. now rewrite V.
Qed.

Lemma flat_limit : flat4G seg = true -> 15 <= limit_scaled seg.
Proof. intros F. apply andb_true_iff in F. destruct F as [F _]. apply Z.eqb_eq in F. lia. Qed.

End Decide.

(** The bits a read may set, and those a write may set. *)
Lemma set_read_ok seg : seg_ok seg -> seg_valid seg <> 0 -> seg_p seg = true ->
  type_allows SegRead seg = true -> expand_down seg = false ->
  (15 <= limit_scaled seg -> seg_ok (set_valid SegAccessROK seg))
  /\ (flat4G seg = true -> seg_ok (set_valid (Z.lor SegAccessROK SegAccessROK4G) seg)).
Proof.
  intros Ok V P T D. split; intros L; (apply set_valid_ok; [assumption|now apply valid_bit0|..]);
    try discriminate; intros _; repeat split; try assumption. now apply flat_limit.
Qed.

Lemma set_write_ok seg : seg_ok seg -> seg_valid seg <> 0 -> seg_p seg = true ->
  type_allows SegRead seg = true -> type_allows SegWrite seg = true -> expand_down seg = false ->
  (15 <= limit_scaled seg -> seg_ok (set_valid (Z.lor SegAccessROK SegAccessWOK) seg))
  /\ (flat4G seg = true -> seg_ok (set_valid
       (Z.lor (Z.lor SegAccessROK SegAccessWOK) (Z.lor SegAccessROK4G SegAccessWOK4G)) seg)).
Proof.
  intros Ok V P T Tw D. split; intros L; (apply set_valid_ok; [assumption|now apply valid_bit0|..]);
    try discriminate; intros _; repeat split; try assumption; now apply flat_limit.
Qed.

Lemma decides_invalid u seg offset len : seg_ok seg -> seg_valid seg = 0 \/ seg_p seg = false ->
  decides u seg offset len (inr false, seg).
Proof.
  intros Ok H. split; [|auto]. cbn [fst]. unfold seg_allows.
  destruct H as [-> | ->]; [reflexivity|]. now rewrite andb_false_r.
Qed.

Section Checks.
Context (seg : segment) (offset len : Z).
Hypothesis Ok : seg_ok seg.
Hypothesis O : fits 32 offset.
Hypothesis Hn : 1 <= len <= 16.

(** A check of a segment that is valid and present, by the kind of its type. *)
Ltac decide_types u Ok V P B :=
  pose proof (decides_no seg offset len Ok u) as No;
  pose proof (decides_down seg offset len Ok V P O Hn u) as Dn;
  pose proof (fun b b4 => decides_up seg offset len Ok V P O Hn u b b4) as Up;
  unfold type_allows, expand_down in B, No, Dn, Up;
  let T := fresh in
  pose proof (type_cases _ Ok) as T; cbn [In] in T;
  repeat (destruct T as [T|T]); try contradiction; rewrite <- T in *;
  (now apply No) || (now apply Dn) || (apply Up; try reflexivity; now apply B).

Lemma write_checks_decide align : align && misaligned seg offset (len - 1) = false ->
  decides SegWrite seg offset len (write_virtual_checks seg offset len align).
Proof.
  intros A. unfold write_virtual_checks. rewrite (wrap_id 32 (len - 1)) by (unfold fits; lia).
  rewrite A.
  destruct (Z.eqb_spec (seg_valid seg) 0) as [V|V]; [apply decides_invalid; auto|].
  destruct (seg_p seg) eqn:P; cbn [negb]; [|apply decides_invalid; auto].
  pose proof (set_write_ok seg Ok V P) as B. decide_types SegWrite Ok V P B.
Qed.

Lemma read_checks_decide align : align && misaligned seg offset (len - 1) = false ->
  decides SegRead seg offset len (read_virtual_checks seg offset len align).
Proof.
  intros A. unfold read_virtual_checks. rewrite (wrap_id 32 (len - 1)) by (unfold fits; lia).
  rewrite A.
  destruct (Z.eqb_spec (seg_valid seg) 0) as [V|V]; [apply decides_invalid; auto|].
  destruct (seg_p seg) eqn:P; cbn [negb]; [|apply decides_invalid; auto].
  pose proof (set_read_ok seg Ok V P) as B. decide_types SegRead Ok V P B.
Qed.

End Checks.

(** ** Address computation *)

Section Agen.
Context {M : Type} `{HostMemory M}.
Implicit Types s : memsys M.

(** Only access bits change. *)
Record same_segments s s' : Prop := {
  ss_mm : mm s' = mm s;
  ss_xlation : address_xlation s' = address_xlation s;
  ss_stk : stk s' = stk s;
  ss_descriptor k : descriptor (sregs s' k) = descriptor (sregs s k);
  ss_ok k : seg_ok (sregs s' k);
}.

Lemma same_segments_refl s : (forall k, seg_ok (sregs s k)) -> same_segments s s.
Proof. now split. Qed.

Definition outcome_of {A} (r : exn + A) s : outcome (memsys M) A :=
  match r with inl e => Fault e s | inr a => Ok a s end.

Lemma exn_eta e : Exn (exn_vector e) (exn_error_code e) = e.
Proof. now destruct e. Qed.

Lemma run_checks_spec sg check s : (forall k, seg_ok (sregs s k)) ->
  seg_ok (snd (check (sregs s sg))) ->
  descriptor (snd (check (sregs s sg))) = descriptor (sregs s sg) ->
  exists s', same_segments s s' /\ run_checks sg check s = outcome_of (fst (check (sregs s sg))) s'
    /\ sregs s' sg = snd (check (sregs s sg)).
Proof.
  intros Hs Ok D. unfold run_checks, get_segment, gets, put_segment, abind.
  destruct (check (sregs s sg)) as [r seg']. cbn [fst snd] in *.
  eexists. split; [|split].
  2: { destruct r as [e|ok]; cbn; unfold araise, aret; [now rewrite exn_eta|reflexivity]. }
  - split; try reflexivity; intros k; cbn [set_field sregs]; destruct (Z.eqb_spec k sg) as [->|]; auto.
  - cbn [set_field sregs]. now rewrite Z.eqb_refl.
Qed.

Lemma laddr32_eq seg offset : laddr32 seg offset = u32 (base seg + offset).
Proof. apply wrap_add_l. Qed.

(** The bits that shorten a check of [u]. *)
Definition short_ok (u : seg_use) : Z := match u with SegRead => SegAccessROK | SegWrite => SegAccessWOK end.
Definition short_4G (u : seg_use) : Z := match u with SegRead => SegAccessROK4G | SegWrite => SegAccessWOK4G end.

Lemma short_4G_allows u seg offset len : seg_ok seg -> anyb (seg_valid seg) (short_4G u) = true ->
  fits 32 offset ->
  seg_allows u seg offset len = true /\ u32 (base seg + offset) = offset.
Proof.
  intros Ok A O. pose proof (valid_bit seg _ Ok A) as V.
  assert (E : seg_p seg = true /\ type_allows u seg = true /\ expand_down seg = false
    /\ flat4G seg = true) by (destruct u; apply Ok, A).
  destruct E as (P & T & D & F). split.
  - unfold seg_allows, in_limits. now rewrite V, P, T, D, F.
  - apply andb_true_iff in F. destruct F as [_ F]. apply Z.eqb_eq in F. rewrite F. now apply wrap_id.
Qed.

Lemma short_ok_allows u seg offset len : seg_ok seg -> anyb (seg_valid seg) (short_ok u) = true ->
  1 <= len <= 16 -> (offset <=? u32 (limit_scaled seg - len + 1)) = true ->
  seg_allows u seg offset len = true.
Proof.
  intros Ok A Hn L. pose proof (valid_bit seg _ Ok A) as V.
  assert (E : seg_p seg = true /\ type_allows u seg = true /\ expand_down seg = false
    /\ 15 <= limit_scaled seg) by (destruct u; apply Ok, A).
  destruct E as (P & T & D & F). unfold seg_allows, in_limits. rewrite V, P, T, D.
  destruct (so_limit _ Ok) as [L1 L2]. rewrite wrap_id in L by (unfold fits; lia).
  apply Z.leb_le in L. rewrite (proj2 (Z.leb_le _ _)) by lia. now rewrite orb_true_r.
Qed.

(** A misaligned operand of an aligned access may get its address, for the
    linear access to refuse, or #GP at once. *)
Lemma agen32_spec u check align sg offset len s :
  (forall seg, check seg = match u with
    | SegRead => read_virtual_checks seg offset len align
    | SegWrite => write_virtual_checks seg offset len align end) ->
  (forall k, seg_ok (sregs s k)) -> fits 32 offset -> 1 <= len <= 16 ->
  let seg := sregs s sg in
  exists s', same_segments s s' /\
  let o := agen32 (short_4G u) (short_ok u) check sg offset len s in
  if align && misaligned seg offset (len - 1)
  then o = Fault (Exn BX_GP_EXCEPTION 0) s' \/ o = Ok (u32 (base seg + offset)) s'
  else o = outcome_of (ref_laddr32 u sg seg offset len) s'.
Proof.
  intros Ck Hs O Hn seg. unfold agen32, get_laddr32, get_segment, gets, aret, araise, ref_laddr32.
  unfold abind. fold seg. pose proof (Hs sg) as Ok. fold seg in Ok.
  destruct (anyb (seg_valid seg) (short_4G u)) eqn:A4.
  { destruct (short_4G_allows u seg offset len Ok A4 O) as [-> ->].
    exists s. split; [now apply same_segments_refl|]. cbv zeta. destruct (align && _); [now right|reflexivity]. }
  destruct (anyb (seg_valid seg) (short_ok u) && _) eqn:A.
  { apply andb_true_iff in A. destruct A as [A L].
    rewrite (short_ok_allows u seg offset len Ok A Hn L), laddr32_eq. exists s. split; [now apply same_segments_refl|]. cbv zeta. destruct (align && _); [now right|reflexivity]. }
  destruct (align && misaligned seg offset (len - 1)) eqn:Mis.
  - assert (E : check seg = (inl (Exn BX_GP_EXCEPTION 0), seg)).
    { rewrite Ck. unfold read_virtual_checks, write_virtual_checks.
      rewrite (wrap_id 32 (len - 1)) by (unfold fits; lia). rewrite Mis. now destruct u. }
    pose proof (run_checks_spec sg check s Hs) as R. fold seg in R. rewrite E in R.
    destruct (R Ok eq_refl) as (s' & S & R' & _). clear R. rename R' into R.
    exists s'. split; [exact S|]. rewrite R. now left.
  - assert (E : decides u seg offset len (check seg)).
    { rewrite Ck. destruct u; [now apply read_checks_decide|now apply write_checks_decide]. }
    destruct E as (E1 & E2 & E3).
    destruct (run_checks_spec sg check s Hs E2 E3) as (s' & S & R & G). fold seg in R, G.
    exists s'. split; [exact S|]. rewrite R, E1. cbn [outcome_of].
    destruct (seg_allows u seg offset len); [|reflexivity].
    rewrite laddr32_eq. replace (base (sregs s' sg)) with (base seg); [reflexivity|].
    pose proof (f_equal base (ss_descriptor _ _ S sg)) as B. symmetry. exact B.
Qed.

End Agen.

(** ** Every mode *)

Lemma misaligned_address seg offset len : misaligned seg offset (len - 1)
  = anyb (u32 (base seg + offset)) (len - 1).
Proof. reflexivity. Qed.

Definition raw_laddr (c : cregs) (sg : Z) (seg : segment) (offset : Z) : Z :=
  if long64_mode c then ref_laddr64 sg seg offset else u32 (base seg + u32 offset).

Section AgenAll.
Context {M : Type} `{HostMemory M}.
Implicit Types s : memsys M.

Definition agen_for (u : seg_use) (align : bool) : Z -> Z -> Z -> acc M Z :=
  match u, align with
  | SegRead, false => agen_read
  | SegRead, true => agen_read_aligned
  | SegWrite, false => agen_write
  | SegWrite, true => agen_write_aligned
  end.

Lemma agen_spec u align sg offset len s : (forall k, seg_ok (sregs s k)) -> 1 <= len <= 16 ->
  let c := regs (mm s) in
  let seg := sregs s sg in
  exists s', same_segments s s' /\
  let o := agen_for u align sg offset len s in
  if align && anyb (raw_laddr c sg seg offset) (len - 1)
  then o = Fault (Exn BX_GP_EXCEPTION 0) s' \/ o = Ok (raw_laddr c sg seg offset) s'
  else o = outcome_of (ref_laddr c u sg seg offset len) s'.
Proof.
  intros Hs Hn c seg. unfold raw_laddr, ref_laddr.
  destruct (long64_mode c) eqn:L.
  - exists s. split; [now apply same_segments_refl|]. cbv zeta.
    assert (E : agen_for u align sg offset len s = Ok (ref_laddr64 sg seg offset) s).
    { destruct u, align; unfold agen_for, agen_read, agen_read_aligned, agen_write, agen_write_aligned,
        agen, cregs_of, get_laddr64, get_segment, gets, abind, aret; fold c; now rewrite L. }
    rewrite E. destruct (_ && _); auto.
  - pose proof (fun check Ck => agen32_spec u check align sg (u32 offset) len s Ck Hs
      (wrap_fits 32 offset ltac:(lia)) Hn) as Sp. cbv zeta in Sp. fold seg in Sp.
    rewrite misaligned_address in Sp.
    destruct u, align; cbn [agen_for];
      unfold agen_read, agen_read_aligned, agen_write, agen_write_aligned, agen, cregs_of, gets, abind;
      fold c; rewrite L;
      match goal with |- context [agen_read32] => unfold agen_read32
        | |- context [agen_write32] => unfold agen_write32
        | |- context [agen_read_aligned32] => unfold agen_read_aligned32
        | |- context [agen_write_aligned32] => unfold agen_write_aligned32 end;
      apply Sp; reflexivity.
Qed.

Lemma ref_laddr_raw c u sg seg offset len la : ref_laddr c u sg seg offset len = inr la ->
  la = raw_laddr c sg seg offset.
Proof.
  unfold ref_laddr, raw_laddr, ref_laddr32. destruct (long64_mode c); [now intros [= <-]|].
  destruct (seg_allows _ _ _ _); [now intros [= <-]|discriminate].
Qed.

(** The 32-bit forms are the others, in 32-bit code. *)
Lemma agen32_agen in32 sg offset len s : long64_mode (regs (mm s)) = false -> fits 32 offset ->
  agen in32 sg offset len s = in32 sg offset len s.
Proof.
  intros L O. unfold agen, cregs_of, gets, abind. now rewrite L, wrap_id.
Qed.

End AgenAll.

Lemma raw_laddr_ok c sg seg offset : laddr_ok c offset -> laddr_ok c (raw_laddr c sg seg offset).
Proof.
  unfold laddr_ok, raw_laddr, ref_laddr64. destruct (long64_mode c); intros O.
  - destruct (sg <? BX_SEG_REG_FS); [assumption|]. apply wrap_fits. lia.
  - apply wrap_fits. lia.
Qed.
