(* ===== verification/StackProps.v ===== *)
(** * The stack cache

    A push or pop inside the window needs no segment check and no TLB: the window
    holds only offsets that the stack segment allows, on a page the TLB let the
    processor write. *)

From Stdlib Require Import ZArith Lia List Bool.
From S2P Require Import Prelude LazyFlags Cpu Tlb TlbProps Paging PagingSpec PagingRefine PagingAd.
From S2P Require Import TlbSound TlbTrace Access AccessSpec AccessRefine AccessTrace Segment SegmentProps.
Import ListNotations.
Open Scope Z_scope.

(** ** Offsets in the window *)

(** The window after the slack for an operand of 8 bytes is taken off. *)
Definition slack (w : Z) : Z := if w <? 7 then 0 else w - 7.

Lemma page_split la : fits 64 la -> la = LPFOf la + PAGE_OFFSET la.
Proof.
  intros [L1 L2]. rewrite page_offset_mod. unfold LPFOf.
  change LPF_MASK with (Z.shiftl (Z.ones 52) 12). rewrite land_mask by lia. unfold get_field.
  rewrite Z.shiftr_div_pow2 by lia. unfold wrap. change (2 ^ 12) with 4096.
  rewrite (Z.mod_small (la / 4096)); [pose proof (Z.div_mod la 4096); lia|].
  change (2 ^ 64) with (4096 * 2 ^ 52) in L2.
  split; [apply Z.div_pos; lia|apply Z.div_lt_upper_bound; lia].
Qed.

Lemma page_of_sum page d : fits 64 page -> page mod 4096 = 0 -> 0 <= d < 4096 ->
  fits 64 (page + d) /\ LPFOf (page + d) = page /\ PAGE_OFFSET (page + d) = d.
Proof.
  intros [P1 P2] Pm Hd. change (2 ^ 64) with (4096 * 2 ^ 52) in *.
  pose proof (Z.div_mod page 4096). assert (F : fits 64 (page + d)).
  { unfold fits. change (2 ^ 64) with (4096 * 2 ^ 52).
    assert (page / 4096 < 2 ^ 52) by (apply Z.div_lt_upper_bound; lia). lia. }
  assert (E : PAGE_OFFSET (page + d) = d).
  { rewrite page_offset_mod. rewrite Z.add_mod, Pm, Z.add_0_l, Z.mod_mod, Z.mod_small by lia. reflexivity. }
  split; [exact F|]. split; [|exact E]. pose proof (page_split _ F). lia.
Qed.

(** In the flat cases the window is the page. *)
Lemma flat_biased offset off (po := PAGE_OFFSET offset) : fits 64 offset -> fits 64 off ->
  let eb := u64 (off + u64 (po - offset)) in
  eb < 4096 -> off = LPFOf offset + eb.
Proof.
  intros F0 F eb He. pose proof (page_split offset F0) as S. fold po in S.
  pose proof (page_offset_range offset) as P. fold po in P.
  assert (E : eb = wrap 64 (off - LPFOf offset)).
  { unfold eb. rewrite wrap_add_r. f_equal. lia. }
  rewrite E in *. unfold wrap, fits in *.
  assert (0 <= LPFOf offset) by (apply Z.land_nonneg; now right).
  pose proof (lpf_mod offset) as Lm. pose proof (Z.div_mod (LPFOf offset) 4096 ltac:(lia)).
  assert (LPFOf offset / 4096 < 2 ^ 52) by (apply Z.div_lt_upper_bound; lia).
  change (2 ^ 64) with (4096 * 2 ^ 52) in *.
  destruct (Z.ltb_spec (off - LPFOf offset) 0) as [N|N].
  - exfalso. replace (off - LPFOf offset) with ((off - LPFOf offset + 4096 * 2 ^ 52) + (-1) * (4096 * 2 ^ 52)) in He by lia.
    rewrite Z.mod_add in He by lia. rewrite Z.mod_small in He by lia. lia.
  - rewrite Z.mod_small by lia. lia.
Qed.

Lemma wrap_cases n x : 0 < n -> - 2 ^ n <= x < 2 ^ n ->
  wrap n x = if x <? 0 then x + 2 ^ n else x.
Proof.
  intros Hn Hx. unfold wrap. destruct (Z.ltb_spec x 0).
  - rewrite <- (Z.mod_small (x + 2 ^ n) (2 ^ n)) by lia. rewrite <- (Z.mod_add x 1) by lia.
    f_equal. lia.
  - now apply Z.mod_small.
Qed.

Lemma slack_gt eb w : 0 <= eb < slack w -> 0 <= eb /\ eb + 7 < w.
Proof. unfold slack. destruct (Z.ltb_spec w 7); lia. Qed.

(** A biased offset below 4096 is an offset near the one the window was made for. *)
Lemma biased_offset offset off po : fits 32 offset -> fits 32 off -> 0 <= po < 4096 ->
  let eb := u64 (off + u64 (po - offset)) in
  eb < 4096 -> off = offset - po + eb /\ 0 <= eb.
Proof.
  intros [F1 F2] [G1 G2] Hp eb He. unfold eb in *. rewrite wrap_add_r in *.
  rewrite wrap_cases in * by lia. destruct (Z.ltb_spec (off + (po - offset)) 0); lia.
Qed.

Lemma window_up limit offset po len off n eb w :
  fits 32 limit -> fits 32 offset -> fits 32 off -> 0 <= po < 4096 -> 1 <= len <= 8 -> 1 <= n <= 8 ->
  offset + len - 1 <= limit -> off = offset - po + eb -> 0 <= eb < slack w ->
  w = (if u32 (offset - po) <=? limit then
         if u64 (limit - offset) <? 4096 - po then u32 (limit - offset + 1) else 4096
       else 0) ->
  off + n - 1 <= limit.
Proof.
  unfold fits. intros L O F Hp Hl Hn Hle -> He Ew. apply slack_gt in He.
  destruct (_ <=? limit); [|lia].
  rewrite (wrap_id 64) in Ew by (unfold fits; lia).
  destruct (Z.ltb_spec (limit - offset) (4096 - po)); [|lia].
  rewrite (wrap_id 32) in Ew by (unfold fits; lia). lia.
Qed.

Lemma window_down limit upper offset po len off n eb w :
  fits 32 limit -> fits 32 upper -> fits 32 offset -> fits 32 off -> 0 <= po < 4096 ->
  1 <= len <= 8 -> 1 <= n <= 8 ->
  limit < offset -> offset + len - 1 <= upper -> off = offset - po + eb -> 0 <= eb < slack w ->
  w = (let pageStart := u32 (offset - po) in
       if (limit <? pageStart) && (pageStart <? u32 (pageStart + 0xfff)) then
         if u64 (upper - offset) <? 4096 - po then u32 (upper - offset + 1) else 4096
       else 0) ->
  limit < off /\ off + n - 1 <= upper.
Proof.
  unfold fits. intros L U O F Hp Hl Hn Hlo Hle -> He Ew. apply slack_gt in He. cbv zeta in Ew.
  destruct (Z.ltb_spec limit (u32 (offset - po))) as [P|]; [|cbn [andb] in Ew; lia].
  destruct (Z.ltb_spec (u32 (offset - po)) (u32 (u32 (offset - po) + 0xfff))) as [Q|];
    cbn [andb] in Ew; [|lia].
  rewrite (wrap_id 64 (upper - offset)) in Ew by (unfold fits; lia).
  rewrite wrap_cases in P by lia. rewrite wrap_add_l in Q. rewrite (wrap_cases 32 (offset - po)) in Q by lia.
  revert P Q. destruct (Z.ltb_spec (offset - po) 0); intros P Q.
  - rewrite (wrap_id 32 (offset - po + 0xfff)) in Q by (unfold fits; lia). lia.
  - destruct (Z.ltb_spec (upper - offset) (4096 - po)); [|lia].
    rewrite (wrap_id 32) in Ew by (unfold fits; lia). lia.
Qed.

(** ** The invariant of the window *)

Section Window.
Context {M : Type} `{PM : PhysicalMemory M} `{HM : !HostMemory M}.
Context `{!PhysicalMemoryOk M} `{!HostMemoryOk M}.
Implicit Types (s : memsys M) (m : M) (k : stack_cache).

(** The entry the window was filled from; the TLB may have lost it since. *)
Record held (c : cregs) m (e : bx_TLB_entry) (page : Z) : Prop := {
  he_entry : entry_ok false c m e;
  he_frame : TLB_LPFOf (lpf e) = page;
  he_page : page mod 4096 = 0 /\ fits 64 page;
  he_canonical : IsCanonical page = true;
  he_ppf : ppf e mod 4096 = 0;
  he_host : hostPageAddr e mod 4096 = 0;
  he_host_pos : 0 < hostPageAddr e;
  he_valid : host_valid m (hostPageAddr e) (ppf e) (writable c e);
  he_write : isWriteOK e (user_pl c) = true;
}.

Definition stack_laddr (u : seg_use) s (offset n : Z) : exn + Z :=
  ref_laddr (regs (mm s)) u BX_SEG_REG_SS (sregs s BX_SEG_REG_SS) offset n.

Definition biased k (offset : Z) : Z := u64 (offset + espPageBias k).

(** The cache holds the host pointer of the page of the entry [e]. *)
Definition filled_from s k (e : bx_TLB_entry) (page : Z) : Prop :=
  held (regs (mm s)) (phys (mm s)) e page
  /\ pAddrStackPage k = ppf e /\ espHostPtr k = hostPageAddr e.

Definition window_ok s : Prop :=
  let k := stk s in
  0 < espPageWindowSize k -> exists e page, filled_from s k e page
  /\ espPageWindowSize k <= 4089
  /\ forall offset n, laddr_ok (regs (mm s)) offset -> biased k offset < espPageWindowSize k ->
     1 <= n <= 8 -> stack_laddr SegWrite s offset n = inr (page + biased k offset).

Lemma held_usable s e page la n ac : held (regs (mm s)) (phys (mm s)) e page ->
  LPFOf la = page -> PAGE_OFFSET la + n <= 4096 ->
  (alignment_check (regs (mm s)) = true -> anyb (PAGE_OFFSET la) ac = false) ->
  usable s e la n ac.
Proof.
  intros Hd <- Hn Al. pose proof (he_canonical _ _ _ _ Hd) as Hc. destruct Hd.
  split; try assumption; [now symmetry|]. rewrite <- Hc.
  apply same_frame_canonical. symmetry. apply lpf_idem.
Qed.

Lemma entry_held s la : sys_ok s -> laddr_ok (regs (mm s)) la ->
  lpf (data_entry s la 0) = LPFOf la -> isWriteOK (data_entry s la 0) (user_pl (regs (mm s))) = true ->
  held (regs (mm s)) (phys (mm s)) (data_entry s la 0) (LPFOf la).
Proof.
  intros Hok Hl El W.
  assert (Fm : fast_match s la 0 0 = true) by (unfold fast_match; rewrite El; apply Z.eqb_refl).
  destruct (fast_match_usable 1 0 0 0 la s Hok Hl (FA_byte _) Fm) as (U & _).
  pose proof (us_canonical _ _ _ _ _ U) as Uc. destruct U. split; try assumption.
  - now symmetry.
  - split; [apply lpf_mod|]. apply fits_land_l; [lia|]. now apply (laddr_fits (regs (mm s))).
  - rewrite <- Uc. apply same_frame_canonical, lpf_idem.
Qed.

Lemma stack_fill_eq s la offset po w : sys_ok s -> laddr_ok (regs (mm s)) la ->
  espHostPtr (stk s) = 0 -> espPageWindowSize (stk s) = w ->
  exists k, stack_fill la offset po s = Ok tt (s <| stk := k |>)
  /\ ((espHostPtr k = 0 /\ espPageWindowSize k = 0)
      \/ exists e, filled_from s k e (LPFOf la) /\ espPageBias k = u64 (po - offset)
         /\ espPageWindowSize k = slack w).
Proof.
  intros Hok Hl Hh Hw. unfold stack_fill, DTLB_entry, cregs_of, gets, set_stk, abind, aret.
  fold (data_entry s la 0). set (e := data_entry s la 0).
  destruct ((lpf e =? LPFOf la) && isWriteOK e (user_pl (regs (mm s)))) eqn:T.
  - apply andb_true_iff in T. destruct T as [El W]. apply Z.eqb_eq in El.
    pose proof (entry_held s la Hok Hl El W) as Hd. fold e in Hd.
    eexists. split; [reflexivity|]. right. exists e.
    cbn [set_field stk espHostPtr espPageWindowSize espPageBias pAddrStackPage].
    split; [split; [exact Hd|split; reflexivity]|]. split; [reflexivity|].
    pose proof (he_host_pos _ _ _ _ Hd). rewrite (proj2 (Z.eqb_neq _ 0)), Hw by lia. reflexivity.
  - eexists. split; [reflexivity|]. left.
    cbn [set_field stk espHostPtr espPageWindowSize]. rewrite Hh. auto.
Qed.

(** ** Prefetch *)

Definition flat_stack s : bool :=
  long64_mode (regs (mm s)) || anyb (seg_valid (sregs s BX_SEG_REG_SS)) SegAccessWOK4G.

Definition prefetched s offset n (o : outcome (memsys M) unit) : Prop :=
  exists k,
  (o = Fault (Exn BX_SS_EXCEPTION 0) (s <| stk := k |>) /\ espPageWindowSize k = 0
   /\ stack_laddr SegWrite s offset n = inl (Exn BX_SS_EXCEPTION 0))
  \/ o = Ok tt (s <| stk := k |>)
     /\ ((espHostPtr k = 0 /\ espPageWindowSize k = 0)
         \/ exists e page, filled_from s k e page /\ biased k offset + n <= 4096
            /\ stack_laddr SegWrite s offset n = inr (page + biased k offset)
            /\ window_ok (s <| stk := k |>)).

(** The stack segment is writable whenever it is loaded. *)
Definition stack_segment_ok s : Prop :=
  let seg := sregs s BX_SEG_REG_SS in
  seg_valid seg <> 0 -> seg_p seg = true /\ type_allows SegWrite seg = true.

Lemma laddr_ok_u32 c off : laddr_ok c off -> long64_mode c = false -> fits 32 off /\ u32 off = off.
Proof. unfold laddr_ok. intros H L. rewrite L in H. split; [assumption|now apply wrap_id]. Qed.

Lemma flat_stack_laddr s off n : (forall j, seg_ok (sregs s j)) -> flat_stack s = true ->
  laddr_ok (regs (mm s)) off -> stack_laddr SegWrite s off n = inr off.
Proof.
  intros Hs F Hl. unfold stack_laddr, ref_laddr. unfold flat_stack in F.
  destruct (long64_mode (regs (mm s))) eqn:L; [reflexivity|].
  destruct (laddr_ok_u32 _ off Hl L) as [O Eo]. rewrite Eo.
  destruct (short_4G_allows SegWrite _ off n (Hs BX_SEG_REG_SS) F O) as [A E].
  unfold ref_laddr32. now rewrite A, E.
Qed.

(** What a filled window needs, in each mode. *)
Lemma filled_window s k e la w : filled_from s k e (LPFOf la) -> w <= 4096 ->
  espPageWindowSize k = slack w ->
  (forall off n, laddr_ok (regs (mm s)) off -> 0 <= biased k off < slack w -> 1 <= n <= 8 ->
     stack_laddr SegWrite s off n = inr (LPFOf la + biased k off)) ->
  window_ok (s <| stk := k |>).
Proof.
  intros F W E A. unfold window_ok. cbn [set_field stk mm sregs]. intros _.
  exists e, (LPFOf la). split; [exact F|]. split; [rewrite E; unfold slack; destruct (_ <? _); lia|].
  intros off n Hl Hb Hn. rewrite E in Hb. apply (A off n Hl); [|exact Hn].
  split; [|exact Hb]. apply wrap_fits. lia.
Qed.

Lemma prefetch_flat s offset n : sys_ok s -> (forall j, seg_ok (sregs s j)) ->
  laddr_ok (regs (mm s)) offset -> 1 <= n <= 8 -> flat_stack s = true ->
  prefetched s offset n (stackPrefetch offset n s).
Proof.
  intros Hok Hs Hl Hn F. pose proof (laddr_fits _ _ Hl) as F64.
  pose proof (page_split offset F64) as Sp. pose proof (page_offset_range offset) as Po.
  unfold stackPrefetch, set_stk, cregs_of, get_segment, gets, abind, aret.
  cbn [set_field mm sregs stk]. unfold flat_stack in F. rewrite F.
  destruct (Z.leb_spec 4096 (PAGE_OFFSET offset + (n - 1))) as [L|L].
  { eexists. right. split; [reflexivity|]. left. split; reflexivity. }
  match goal with |- prefetched _ _ _ (stack_fill _ _ _ ?x) => set (s1 := x) end.
  destruct (stack_fill_eq s1 offset offset (PAGE_OFFSET offset) 4096) as (k & -> & D);
    try reflexivity; [destruct Hok; now split|exact Hl|].
  exists k. right. split; [reflexivity|]. destruct D as [D|(e & Ff & Eb & Ew)]; [now left|right].
  exists e, (LPFOf offset). split; [exact Ff|]. unfold biased. rewrite Eb.
  assert (E : u64 (offset + u64 (PAGE_OFFSET offset - offset)) = PAGE_OFFSET offset).
  { rewrite wrap_add_r. replace (offset + _) with (PAGE_OFFSET offset) by lia.
    apply wrap_id. unfold fits. lia. }
  rewrite E, <- Sp. split; [lia|]. split; [now apply flat_stack_laddr|].
  apply (filled_window s k e offset 4096 Ff); [lia|exact Ew|].
  intros off n' Hl' Hb Hn'. rewrite flat_stack_laddr by assumption. f_equal.
  unfold biased in *. rewrite Eb in *. apply slack_gt in Hb.
  apply (flat_biased offset off F64 (laddr_fits _ _ Hl')). lia.
Qed.

(** The limits of the prefetch are those of the segment. *)
Lemma stack_window_limits seg offset po n : seg_ok seg -> seg_valid seg <> 0 -> seg_p seg = true ->
  type_allows SegWrite seg = true -> fits 32 offset ->
  po = PAGE_OFFSET (u32 (base seg + offset)) -> po + (n - 1) < 4096 -> 1 <= n <= 8 ->
  match stack_window seg offset po (n - 1) with
  | None => seg_allows SegWrite seg offset n = false
  | Some w => seg_allows SegWrite seg offset n = true /\ w <= 4096 /\
    forall off n' eb, fits 32 off -> off = offset - po + eb -> 0 <= eb < slack w -> 1 <= n' <= 8 ->
      seg_allows SegWrite seg off n' = true
  end.
Proof.
  intros Ok V P T O Ep Hp Hn. pose proof (page_offset_range (u32 (base seg + offset))) as Po.
  rewrite <- Ep in Po. destruct (so_limit _ Ok) as [L1 L2]. destruct (upper_fits seg) as [U1 U2].
  pose proof O as [O1 O2]. apply Z.eqb_neq in V.
  unfold stack_window, seg_allows, in_limits. rewrite V, P, T. cbn [negb andb].
  destruct (expand_down seg).
  - pose proof (beyond_expand_down_iff seg offset n O ltac:(lia)) as B.
    unfold beyond_expand_down in B.
    destruct (Z.leb_spec offset (limit_scaled seg)) as [Q1|Q1]; cbn [orb] in *.
    { rewrite (proj2 (Z.ltb_ge _ _)) by lia. reflexivity. }
    destruct (Z.ltb_spec (upper_limit seg) offset) as [Q2|Q2]; cbn [orb] in *.
    { rewrite (proj2 (Z.leb_gt (offset + n - 1) _)) by lia. apply andb_false_r. }
    rewrite (wrap_id 64) by (unfold fits; lia). rewrite (wrap_id 32) in B by (unfold fits; lia).
    rewrite B. destruct (_ && (offset + n - 1 <=? upper_limit seg)) eqn:A; cbn [negb]; [|reflexivity].
    split; [reflexivity|]. apply andb_true_iff in A. destruct A as [A1 A2].
    apply Z.ltb_lt in A1. apply Z.leb_le in A2. split.
    + destruct (_ && _); [|lia]. destruct (Z.ltb_spec (upper_limit seg - offset) (4096 - po)); [|lia].
      rewrite (wrap_id 32) by (unfold fits; lia). lia.
    + intros off n' eb F E He Hn'.
      destruct (window_down (limit_scaled seg) (upper_limit seg) offset po n off n' eb _
        (so_limit _ Ok) (upper_fits seg) O F Po Hn Hn' A1 A2 E He) as [R1 R2].
      { cbv zeta. now rewrite (wrap_id 64 (upper_limit seg - offset)) by (unfold fits; lia). }
      apply andb_true_iff. split; [now apply Z.ltb_lt|now apply Z.leb_le].
  - pose proof (beyond_limit_iff seg offset n (so_limit _ Ok) O ltac:(lia)) as B.
    unfold beyond_limit in B. rewrite B.
    destruct (Z.leb_spec (offset + n - 1) (limit_scaled seg)) as [Q|Q]; cbn [negb].
    + rewrite orb_true_r. split; [reflexivity|]. rewrite (wrap_id 64) by (unfold fits; lia). split.
      * destruct (_ <=? _); [|lia]. destruct (Z.ltb_spec (limit_scaled seg - offset) (4096 - po)); [|lia].
        rewrite (wrap_id 32) by (unfold fits; lia). lia.
      * intros off n' eb F E He Hn'. apply orb_true_iff. right. apply Z.leb_le.
        apply (window_up (limit_scaled seg) offset po n off n' eb _ (so_limit _ Ok) O F Po Hn Hn' Q E He).
        now rewrite (wrap_id 64 (limit_scaled seg - offset)) by (unfold fits; lia).
    + rewrite orb_false_r. destruct (flat4G seg) eqn:Fl; [|reflexivity].
      apply andb_true_iff in Fl. destruct Fl as [F1 F2]. apply Z.eqb_eq in F1, F2.
      rewrite F2, Z.add_0_l, wrap_id in Ep by assumption.
      rewrite page_offset_mod in Ep. pose proof (Z.div_mod offset 4096).
      assert (offset / 4096 < 2 ^ 20) by (apply Z.div_lt_upper_bound; lia). lia.
Qed.

Lemma page_and_offset la d : fits 64 la -> la - PAGE_OFFSET la + d = LPFOf la + d.
Proof. intros F. pose proof (page_split la F). lia. Qed.

(** Inside one page the linear address follows the offset. *)
Lemma same_page_laddr seg offset off eb : let la := u32 (base seg + offset) in
  off = offset - PAGE_OFFSET la + eb -> 0 <= eb < 4096 ->
  u32 (base seg + off) = LPFOf la + eb.
Proof.
  intros la E He. assert (F : fits 32 la) by (apply wrap_fits; lia).
  pose proof (page_split la ltac:(apply (fits_le 32); [lia|exact F])) as Sp.
  pose proof (page_offset_range la) as Po.
  replace (base seg + off) with (base seg + offset + (eb - PAGE_OFFSET la)) by lia.
  rewrite <- wrap_add_l. fold la.
  replace (la + (eb - PAGE_OFFSET la)) with (LPFOf la + eb) by lia. apply wrap_id. destruct F as [F1 F2].
  assert (Q : LPFOf la / 4096 < 2 ^ 20) by (apply Z.div_lt_upper_bound; lia).
  pose proof (Z.div_mod (LPFOf la) 4096) as D. rewrite lpf_mod in D.
  assert (0 <= LPFOf la) by (apply Z.land_nonneg; now right). unfold fits. lia.
Qed.

Lemma prefetch_limits s offset n : sys_ok s -> (forall j, seg_ok (sregs s j)) ->
  stack_segment_ok s -> laddr_ok (regs (mm s)) offset -> 1 <= n <= 8 -> flat_stack s = false ->
  prefetched s offset n (stackPrefetch offset n s).
Proof.
  intros Hok Hs Hss Hl Hn F. apply orb_false_iff in F as F'. destruct F' as [L64 F4].
  destruct (laddr_ok_u32 _ offset Hl L64) as [O Eo].
  unfold stackPrefetch, set_stk, cregs_of, get_laddr32, get_segment, gets, abind, aret, araise.
  cbn [set_field mm sregs stk]. unfold flat_stack in F. rewrite F, Eo, laddr32_eq.
  cbn [set_field mm sregs stk]. set (seg := sregs s BX_SEG_REG_SS) in *. set (la := u32 (base seg + offset)).
  assert (Fla : fits 32 la) by (apply wrap_fits; lia).
  destruct (Z.leb_spec 4096 (PAGE_OFFSET la + (n - 1))) as [L|L].
  { eexists. right. split; [reflexivity|]. left. split; reflexivity. }
  assert (SL : forall off n', fits 32 off -> stack_laddr SegWrite s off n'
    = if seg_allows SegWrite seg off n' then inr (u32 (base seg + off))
      else inl (Exn BX_SS_EXCEPTION 0)).
  { intros off n' Fo. unfold stack_laddr, ref_laddr, ref_laddr32. rewrite L64, wrap_id by assumption.
    reflexivity. }
  destruct (Z.eqb_spec (seg_valid seg) 0) as [V|V].
  { eexists. left. split; [reflexivity|]. split; [reflexivity|]. rewrite SL by assumption.
    unfold seg_allows. rewrite V. reflexivity. }
  destruct (Hss V) as [P T]. fold seg in P, T.
  pose proof (stack_window_limits seg offset _ n (Hs BX_SEG_REG_SS) V P T O eq_refl ltac:(fold la; lia) Hn) as W.
  fold la in W. destruct (stack_window seg offset (PAGE_OFFSET la) (n - 1)) as [w|].
  2: { eexists. left. split; [reflexivity|]. split; [reflexivity|]. now rewrite SL, W. }
  destruct W as (A & Hw & W).
  match goal with |- prefetched _ _ _ (stack_fill _ _ _ ?x) => set (s1 := x) end.
  destruct (stack_fill_eq s1 la offset (PAGE_OFFSET la) w) as (k & -> & D);
    try reflexivity; [destruct Hok; now split| |].
  { unfold laddr_ok. change (regs (mm s1)) with (regs (mm s)). now rewrite L64. }
  exists k. right. split; [reflexivity|]. destruct D as [D|(e & Ff & Eb & Ew)]; [now left|right].
  exists e, (LPFOf la). split; [exact Ff|]. unfold biased. rewrite Eb.
  pose proof (page_offset_range la) as Po.
  assert (E : u64 (offset + u64 (PAGE_OFFSET la - offset)) = PAGE_OFFSET la).
  { rewrite wrap_add_r. replace (offset + _) with (PAGE_OFFSET la) by lia.
    apply wrap_id. unfold fits. lia. }
  rewrite E. split; [lia|]. split.
  { rewrite SL, A by assumption. f_equal. apply same_page_laddr; [fold la; lia|exact Po]. }
  apply (filled_window s k e la w Ff Hw Ew). intros off n' Hl' Hb Hn'.
  destruct (laddr_ok_u32 _ off Hl' L64) as [O' _].
  unfold biased in *. rewrite Eb in *. apply slack_gt in Hb as Hb'.
  destruct (biased_offset offset off (PAGE_OFFSET la) O O' Po ltac:(lia)) as [Eoff _].
  rewrite SL by assumption.
  rewrite (W off n' _ O' Eoff Hb Hn'). f_equal. apply same_page_laddr; [exact Eoff|lia].
Qed.

Lemma stackPrefetch_spec s offset n : sys_ok s -> (forall j, seg_ok (sregs s j)) ->
  stack_segment_ok s -> laddr_ok (regs (mm s)) offset -> 1 <= n <= 8 ->
  prefetched s offset n (stackPrefetch offset n s).
Proof.
  intros. destruct (flat_stack s) eqn:F; [now apply prefetch_flat|now apply prefetch_limits].
Qed.

(** ** Pushes and pops find their place *)

(** The host pointer serves [offset]. *)
Definition stack_place s k (offset n : Z) (e : bx_TLB_entry) (page : Z) : Prop :=
  filled_from s k e page /\ biased k offset + n <= 4096
  /\ stack_laddr SegWrite s offset n = inr (page + biased k offset).

Lemma stack_access_spec s offset n : sys_ok s -> (forall j, seg_ok (sregs s j)) ->
  stack_segment_ok s -> window_ok s -> laddr_ok (regs (mm s)) offset -> 1 <= n <= 8 ->
  exists k, window_ok (s <| stk := k |>) /\
  ((stack_access offset n s = Fault (Exn BX_SS_EXCEPTION 0) (s <| stk := k |>)
    /\ stack_laddr SegWrite s offset n = inl (Exn BX_SS_EXCEPTION 0))
   \/ stack_access offset n s = Ok (biased k offset) (s <| stk := k |>)
      /\ (espHostPtr k = 0 \/ exists e page, stack_place s k offset n e page)).
Proof.
  intros Hok Hs Hss Hw Hl Hn. unfold stack_access, get_stk, gets, abind, aret.
  fold (biased (stk s) offset).
  destruct (Z.leb_spec (espPageWindowSize (stk s)) (biased (stk s) offset)) as [L|L].
  - destruct (stackPrefetch_spec s offset n Hok Hs Hss Hl Hn) as (k & [(-> & W & E)|(-> & D)]).
    + exists k. split; [|left; split; [reflexivity|exact E]].
      intros W'. cbn [set_field stk] in W'. lia.
    + exists k. split; [|right; split; [reflexivity|]].
      * destruct D as [(_ & W)|(e & page & _ & _ & _ & W)]; [|exact W].
        intros W'. cbn [set_field stk] in W'. lia.
      * destruct D as [(D & _)|(e & page & D1 & D2 & D3 & _)]; [now left|right].
        exists e, page. now split.
  - exists (stk s). assert (Es : s <| stk := stk s |> = s) by now destruct s.
    rewrite Es. split; [exact Hw|]. right. split; [reflexivity|]. right.
    assert (B : 0 <= biased (stk s) offset) by (apply wrap_fits; lia).
    destruct (Hw ltac:(lia)) as (e & page & F & W & A). exists e, page.
    split; [exact F|]. split; [lia|]. now apply A.
Qed.

End Window.
