(* ===== verification/VirtualTrace.v ===== *)
(** * Programs see no cached segment checks and no stack cache

    First the reference semantics of virtual accesses, then the proof.

    A virtual access checks the whole descriptor, then accesses the linear
    address as in AccessSpec; pushes and pops are accesses to the stack
    segment.  The operations of a program, on both machines. *)

From Stdlib Require Import ZArith Lia List Bool.
From S2P Require Import Prelude LazyFlags Cpu Tlb Paging PagingSpec PagingRefine PagingAd TlbProps TlbSound.
From S2P Require Import TlbTrace Access AccessSpec AccessRefine AccessTrace Segment SegmentProps StackProps.
Import ListNotations.
Open Scope Z_scope.

(** [code32] selects the functions for 32-bit code. *)
Inductive virtual_op :=
| VLoad (code32 : bool) (n seg offset : Z)
| VSave (code32 : bool) (n seg offset data : Z)
| VModify (code32 : bool) (n seg offset : Z) (f : Z -> option Z)
| VLoadXmm (aligned : bool) (seg offset : Z)
| VSaveXmm (aligned : bool) (seg offset data : Z)
| VTouch (seg offset : Z)
| Push (n offset data : Z)
| Pop (n offset : Z)
| LoadSegment (seg : Z) (d : segment)
| LoadNull (seg : Z)
| Linear (o : linear_op).

(** How an access uses its segment, and the linear access it makes. *)
Record request := Request {
  rq_use : seg_use;
  rq_aligned : bool;
  rq_seg : Z;
  rq_offset : Z;
  rq_len : Z;
  rq_op : Z -> linear_op;
}.

Definition request_of (o : virtual_op) : option request :=
  match o with
  | VLoad _ n sg off => Some (Request SegRead false sg off n (Load n sg))
  | VSave _ n sg off data => Some (Request SegWrite false sg off n (fun la => Save n sg la data))
  | VModify _ n sg off f => Some (Request SegWrite false sg off n (fun la => Modify n sg la f))
  | VLoadXmm al sg off => Some (Request SegRead al sg off 16 (LoadXmm al sg))
  | VSaveXmm al sg off data => Some (Request SegWrite al sg off 16 (fun la => SaveXmm al sg la data))
  | VTouch sg off => Some (Request SegRead false sg off 1 (Touch sg))
  | Push n off data => Some (Request SegWrite false BX_SEG_REG_SS off n (fun la => Save n BX_SEG_REG_SS la data))
  | Pop n off => Some (Request SegRead false BX_SEG_REG_SS off n (Load n BX_SEG_REG_SS))
  | LoadSegment _ _ | LoadNull _ | Linear _ => None
  end.

Section Spec.
Context {M : Type} `{PM : PhysicalMemory M} `{HM : !HostMemory M}.
Abbreviation mem_state := (mem_state (M := M)).

(** The linear address of the request, or its fault. *)
Definition request_laddr (c : cregs) (segs : Z -> segment) (q : request) : exn + Z :=
  let seg := segs (rq_seg q) in
  if rq_aligned q && anyb (raw_laddr c (rq_seg q) seg (rq_offset q)) (rq_len q - 1)
  then inl (Exn BX_GP_EXCEPTION 0)
  else ref_laddr c (rq_use q) (rq_seg q) seg (rq_offset q) (rq_len q).

Definition ref_request (c : cregs) (segs : Z -> segment) (q : request) (st : mem_state)
    : (exn + Z) * mem_state :=
  match request_laddr c segs q with
  | inl e => (inl e, st)
  | inr la => ref_op c (rq_op q la) st
  end.

Definition ref_vop (c : cregs) (segs : Z -> segment) (o : virtual_op) (st : mem_state)
    : (exn + Z) * mem_state :=
  match o with
  | LoadSegment _ _ | LoadNull _ => (inr 0, st)
  | Linear lo => ref_op c lo st
  | _ => match request_of o with Some q => ref_request c segs q st | None => (inr 0, st) end
  end.

(** The descriptors after the operation. *)
Definition ref_segs (o : virtual_op) (segs : Z -> segment) : Z -> segment :=
  match o with
  | LoadSegment sg d => fun j => if j =? sg then d <| seg_valid := SegValidCache |> else segs j
  | LoadNull sg => fun j => if j =? sg then null_segment else segs j
  | _ => segs
  end.

(** Memory and CR2 after the translations. *)
Definition ref_vtranslated (c : cregs) (segs : Z -> segment) (o : virtual_op) (st : mem_state) : mem_state :=
  match o with
  | Linear lo => ref_translated c lo st
  | _ =>
    match request_of o with
    | Some q =>
      match request_laddr c segs q with
      | inl _ => st
      | inr la => ref_translated c (rq_op q la) st
      end
    | None => st
    end
  end.

(** ** The processor *)

Definition run_vop (o : virtual_op) : acc M Z :=
  let zero (m : acc M unit) : acc M Z := m ~; aret 0 in
  match o with
  | VLoad false n sg off => read_virtual n sg off
  | VLoad true n sg off => read_virtual_32 n sg off
  | VSave false n sg off data => zero (write_virtual n sg off data)
  | VSave true n sg off data => zero (write_virtual_32 n sg off data)
  | VModify false n sg off f => abind (read_RMW_virtual n sg off) (finish_modify n f)
  | VModify true n sg off f => abind (read_RMW_virtual_32 n sg off) (finish_modify n f)
  | VLoadXmm false sg off => read_virtual_xmmword sg off
  | VLoadXmm true sg off => read_virtual_xmmword_aligned sg off
  | VSaveXmm false sg off data => zero (write_virtual_xmmword sg off data)
  | VSaveXmm true sg off data => zero (write_virtual_xmmword_aligned sg off data)
  | VTouch sg off => zero (tickle_read_virtual sg off)
  | Push n off data => zero (stack_write n off data)
  | Pop n off => stack_read n off
  | LoadSegment sg d => zero (load_descriptor sg d)
  | LoadNull sg => zero (load_null_selector sg)
  | Linear lo => run_op lo
  end.

Definition code32_ok (c : cregs) (code32 : bool) (offset : Z) : Prop :=
  code32 = true -> long64_mode c = false /\ fits 32 offset.

Definition stack_size (n : Z) : Prop := In n [1; 2; 4; 8].

Definition vop_wf (c : cregs) (o : virtual_op) : Prop :=
  match o with
  | VLoad b n _ off => access_size n /\ laddr_ok c off /\ code32_ok c b off
  | VSave b n _ off data =>
    access_size n /\ laddr_ok c off /\ code32_ok c b off /\ fits (8 * n) data /\ user_paged c (CPL c)
  | VModify b n _ off _ =>
    access_size n /\ laddr_ok c off /\ code32_ok c b off /\ user_paged c (CPL c)
  | VLoadXmm _ _ off | VTouch _ off => laddr_ok c off
  | VSaveXmm _ _ off data => laddr_ok c off /\ fits 128 data /\ user_paged c (CPL c)
  | Push n off data => stack_size n /\ laddr_ok c off /\ fits (8 * n) data /\ user_paged c (CPL c)
  | Pop n off => stack_size n /\ laddr_ok c off
  | LoadSegment sg d =>
    0 <= seg_type d < 16 /\ fits 64 (base d) /\ fits 32 (limit_scaled d)
    /\ (sg = BX_SEG_REG_SS -> seg_p d = true /\ type_allows SegWrite d = true)
  | LoadNull _ => True
  | Linear lo => op_wf c lo
  end.

End Spec.

(** ** Programs see no cached segment checks and no stack cache

    Every run of virtual accesses, pushes, pops and segment loads gives what
    complete checks of the descriptors and page walks give. *)

(** ** Linear accesses leave segments and stack cache alone *)

Section Frame.
Context {M : Type} `{PM : PhysicalMemory M} `{HM : !HostMemory M}.

Definition final {A} (o : outcome (memsys M) A) : memsys M :=
  match o with Ok _ s | Fault _ s => s end.

Definition frames {A} (m : acc M A) : Prop := forall s,
  sregs (final (m s)) = sregs s /\ stk (final (m s)) = stk s.

Lemma frames_ret {A} (a : A) : frames (aret a).
Proof. now intros s. Qed.
Lemma frames_raise {A} v e : frames (araise (A := A) v e).
Proof. now intros s. Qed.
Lemma frames_gets {A} (f : memsys M -> A) : frames (gets f).
Proof. now intros s. Qed.
Lemma frames_xlation f : frames (set_xlation f).
Proof. now intros s. Qed.
Lemma frames_lift {A} (x : xlat M A) : frames (lift x).
Proof. intros s. unfold lift. now destruct (x (mm s)). Qed.
Lemma frames_load n a : frames (host_load n a).
Proof. now intros s. Qed.
Lemma frames_store n a v : frames (host_store n a v).
Proof. now intros s. Qed.
Lemma frames_bind {A B} (m : acc M A) (k : A -> acc M B) :
  frames m -> (forall a, frames (k a)) -> frames (abind m k).
Proof.
  intros Hm Hk s. unfold abind. specialize (Hm s). destruct (m s) as [a s1|e s1]; [|exact Hm].
  cbn [final] in Hm. destruct Hm as [E1 E2]. destruct (Hk a s1) as [F1 F2]. split; congruence.
Qed.

End Frame.

Create HintDb frames discriminated.
#[export] Hint Resolve frames_ret frames_raise frames_gets frames_xlation frames_lift frames_load frames_store : frames.

(** Splits binds, tests and matches. *)
Ltac frames :=
  repeat match goal with
  | |- frames (abind _ _) => apply frames_bind; [|intros]
  | |- frames (match ?x with _ => _ end) => destruct x
  | |- frames (let _ := _ in _) => cbv zeta
  | _ => solve [auto with frames]
  end.

Section FrameOps.
Context {M : Type} `{PM : PhysicalMemory M} `{HM : !HostMemory M}.

Lemma frames_slow_read n la pl rw ac v : frames (M := M) (slow_read n la pl rw ac v).
Proof.
  unfold slow_read, access_read_linear, check_linear, cregs_of, translate_data. frames.
Qed.

Lemma frames_slow_write n la pl ac data v : frames (M := M) (slow_write n la pl ac data v).
Proof.
  unfold slow_write, access_write_linear, check_linear, cregs_of, translate_data. frames.
Qed.

Lemma frames_fast_entry last amask la : frames (M := M) (fast_entry last amask la).
Proof. unfold fast_entry, DTLB_entry. frames. Qed.
#[local] Hint Resolve frames_slow_read frames_slow_write frames_fast_entry : frames.

Lemma frames_write_RMW n val : frames (M := M) (write_RMW_sized n val).
Proof.
  unfold write_RMW_sized, write_RMW_linear_byte, write_RMW_linear_word, write_RMW_linear. frames.
Qed.
#[local] Hint Resolve frames_write_RMW : frames.

Lemma frames_run_op o : frames (M := M) (run_op o).
Proof.
  destruct o as [| | | | |[] ? ?|[] ? ? ?| | |]; unfold run_op, read_linear, write_linear, write_new_stack, system_read,
    system_write, read_linear_xmmword, read_linear_xmmword_aligned,
    write_linear_xmmword, write_linear_xmmword_aligned, modify, finish_RMW, modify16, read_RMW_linear,
    read_RMW_linear_dqword_aligned_64, write_RMW_linear_dqword, write_RMW_linear_qword, write_RMW_linear,
    tickle_read_linear, keep_place, cregs_of,
    translate_data, read_linear_at, write_linear_at; frames.
Qed.

End FrameOps.

(** ** Translations keep what the window relies on *)

Section Trace.
Context {M : Type} `{PM : PhysicalMemory M} `{HM : !HostMemory M}.
Context `{!PhysicalMemoryOk M} `{!HostMemoryOk M}.
Implicit Types (s : memsys M) (m : M).
Abbreviation mem_state := (mem_state (M := M)).

(** Memory after setting accessed and dirty bits. *)
Record after (c : cregs) m m' : Prop := {
  af_ad : ad_le c m m';
  af_host h p w : host_valid m h p w -> host_valid m' h p w;
  af_wf : phy_wf m';
}.

Lemma after_refl c m : phy_wf m -> after c m m.
Proof. split; auto using ad_le_refl. Qed.

Lemma after_trans c m1 m2 m3 : after c m1 m2 -> after c m2 m3 -> after c m1 m3.
Proof. intros [] []. split; auto. now apply (ad_le_trans c m1 m2 m3). Qed.

Lemma after_walk c m cr2 la user rw : a20_ok c -> tables_in_ram c m -> phy_wf m -> 0 <= rw < 4 ->
  fits 64 la -> after c m (fst (snd (walk_step c (TlbTrace.Access la user rw) (m, cr2)))).
Proof.
  intros A20 R W Hrw Hl. cbn [walk_step].
  set (la' := if long_mode c then la else u32 la).
  assert (Hl' : fits 64 la').
  { unfold la'. destruct (long_mode c); [exact Hl|]. apply (fits_le 32); [lia|]. apply wrap_fits. lia. }
  destruct (ref_page_walk c (entry_reader c m) la' (eflags_AC c) user rw) as [[code|[[pa comb] mask]] writes] eqn:E;
    cbn [fst snd]; [now apply after_refl|].
  destruct (fill_entry_ok c m la' (eflags_AC c) user rw pa comb mask writes 0 true A20 R (rw_range rw Hrw) Hl' E)
    as (L & _). destruct (apply_writes_wf (entry_size (mode_of c)) writes m W) as [W' K].
  now split.
Qed.

Lemma after_operand c n la pl rw ac m cr2 : a20_ok c -> tables_in_ram c m -> phy_wf m ->
  0 <= rw < 4 -> laddr_ok c la -> after c m (fst (translated c n la pl rw ac (m, cr2))).
Proof.
  intros A20 R W Hrw Hl. pose proof (laddr_fits c la Hl) as F.
  pose proof (after_walk c m cr2 la (pl =? 3) rw A20 R W Hrw F) as A1.
  unfold translated, ref_operand. cbv zeta.
  destruct (negb _); [now apply after_refl|].
  destruct (_ && _ && _); [now apply after_refl|].
  destruct (_ <=? 4096).
  - destruct (walk_step _ _ _) as [[e|pa] [m1 c1]]; exact A1.
  - destruct (second_page c la _) as [la2|] eqn:E2; [|now apply after_refl].
    destruct (second_page_ok c la _ la2 E2) as [Hl2 _].
    destruct (walk_step _ _ _) as [[e|pa] [m1 c1]]; cbn [fst snd] in A1; [exact A1|].
    pose proof (after_walk c m1 c1 la2 (pl =? 3) rw A20
      (tables_in_ram_ad c m m1 R (af_ad _ _ _ A1)) (af_wf _ _ _ A1) Hrw (laddr_fits _ _ Hl2)) as A2.
    destruct (walk_step _ _ (m1, c1)) as [[e|pa2] [m2 c2]]; exact (after_trans _ _ _ _ A1 A2).
Qed.

Lemma after_op c o m cr2 : a20_ok c -> tables_in_ram c m -> phy_wf m -> op_wf c o ->
  after c m (fst (ref_translated c o (m, cr2))).
Proof.
  intros A20 R W Wf.
  assert (A : forall n la pl rw ac, In rw [BX_READ; BX_WRITE; BX_RW] -> laddr_ok c la ->
    after c m (fst (translated c n la pl rw ac (m, cr2)))).
  { intros n la pl rw ac Hrw Hl. apply after_operand; try assumption.
    unfold BX_READ, BX_WRITE, BX_RW in Hrw. cbn [In] in Hrw. lia. }
  assert (Al : forall la rw, In rw [BX_READ; BX_WRITE; BX_RW] -> laddr_ok c la ->
    after c m (fst (aligned_translated c la rw (m, cr2)))).
  { intros la rw Hrw Hl. unfold aligned_translated. destruct (anyb la 15); [now apply after_refl|auto]. }
  destruct o as [| | | | |[] ? ?|[] ? ? ?| | |]; cbn [op_wf ref_translated] in *;
    (apply A || apply Al); cbn; tauto.
Qed.

(** ** The invariant of the virtual accesses *)

Record virt_ok s : Prop := {
  vo_sys : sys_ok s;
  vo_segs j : seg_ok (sregs s j);
  vo_ss : stack_segment_ok s;
  vo_window : window_ok s;
}.

(** As [agrees], with the invariant, for an operation that does not change
    descriptors. *)
Definition vagrees {A} (s : memsys M) (o : outcome (memsys M) A) (translated : mem_state)
    (r : (exn + A) * mem_state) : Prop :=
  exists s', o = outcome_of (fst r) s'
  /\ state_of s' = snd r /\ regs (mm s') = regs (mm s)
  /\ virt_ok (set_phys s' (fst translated))
  /\ (forall j, descriptor (sregs s' j) = descriptor (sregs s j))
  /\ phy_wf (phys (mm s'))
  /\ (forall h p w, host_valid (fst translated) h p w -> host_valid (phys (mm s')) h p w).

Lemma held_after c m m' e page : tables_in_ram c m -> after c m m' ->
  held c m e page -> held c m' e page.
Proof.
  intros R A []. split; try assumption.
  - apply (entry_ok_ad false c m); auto. apply (af_ad _ _ _ A).
  - now apply (af_host _ _ _ A).
Qed.

Lemma window_transfer s s' : regs (mm s') = regs (mm s) -> stk s' = stk s ->
  descriptor (sregs s' BX_SEG_REG_SS) = descriptor (sregs s BX_SEG_REG_SS) ->
  (forall e page, held (regs (mm s)) (phys (mm s)) e page -> held (regs (mm s)) (phys (mm s')) e page) ->
  window_ok s -> window_ok s'.
Proof.
  intros Er Ek Ed K W. unfold window_ok, filled_from, stack_laddr. rewrite Er, Ek.
  intros Hk. destruct (W Hk) as (e & page & (H1 & H2) & H3 & H4). exists e, page.
  split; [split; auto|]. split; [exact H3|]. intros off n Hl Hb Hn.
  rewrite <- (H4 off n Hl Hb Hn). unfold stack_laddr.
  now rewrite <- (descriptor_laddr _ _ _ (sregs s' _)), Ed, descriptor_laddr.
Qed.

Lemma descriptor_p seg1 seg2 : descriptor seg1 = descriptor seg2 ->
  (seg_valid seg1 = 0 <-> seg_valid seg2 = 0) /\ seg_p seg1 = seg_p seg2
  /\ forall u, type_allows u seg1 = type_allows u seg2.
Proof.
  intros E. split; [|split].
  - apply (f_equal seg_valid) in E. cbn in E.
    destruct (Z.eqb_spec (seg_valid seg1) 0), (Z.eqb_spec (seg_valid seg2) 0); cbn in E; lia.
  - exact (f_equal seg_p E).
  - intros u. unfold type_allows. now rewrite (f_equal seg_type E : seg_type seg1 = seg_type seg2).
Qed.

Lemma stack_segment_transfer s s' :
  descriptor (sregs s' BX_SEG_REG_SS) = descriptor (sregs s BX_SEG_REG_SS) ->
  stack_segment_ok s -> stack_segment_ok s'.
Proof.
  intros E H V. destruct (descriptor_p _ _ E) as (E1 & E2 & E3). rewrite E2, E3. apply H. tauto.
Qed.

(** Only access bits and the stack cache have changed. *)
Record near s s1 : Prop := {
  nr_mm : mm s1 = mm s;
  nr_virt : virt_ok s1;
  nr_descriptor j : descriptor (sregs s1 j) = descriptor (sregs s j);
}.

Lemma near_segments s s1 : virt_ok s -> same_segments s s1 -> near s s1.
Proof.
  intros [V1 V2 V3 V4] [E1 E2 E3 E4 E5]. split; try assumption. split; try assumption.
  - destruct V1. split; now rewrite E1.
  - now apply (stack_segment_transfer s).
  - apply (window_transfer s); try assumption; rewrite ?E1; auto.
Qed.

Lemma near_stack s k : virt_ok s -> window_ok (s <| stk := k |>) -> near s (s <| stk := k |>).
Proof.
  intros [V1 V2 V3 V4] W. split; try reflexivity. split; try assumption. destruct V1. now split.
Qed.

(** A linear access from a near state. *)
Lemma near_agrees {A} s s1 (m : acc M A) tr r : near s s1 -> frames m ->
  after (regs (mm s)) (phys (mm s)) (fst tr) -> agrees s1 (m s1) tr r -> vagrees s (m s1) tr r.
Proof.
  intros [E [V1 V2 V3 V4] D] F Af (s' & Eo & Es & Er & Ok' & W & K).
  exists s'. rewrite E in Er. specialize (F s1). rewrite Eo in F.
  assert (Ef : final (match fst r with inl e => Fault e s' | inr a => Ok a s' end) = s')
    by now destruct (fst r).
  rewrite Ef in F. destruct F as [F1 F2].
  split; [destruct (fst r); exact Eo|]. split; [exact Es|]. split; [exact Er|].
  split; [|split; [now rewrite F1|split; assumption]].
  split.
  - exact Ok'.
  - intros j. change (seg_ok (sregs s' j)). now rewrite F1.
  - apply (stack_segment_transfer s1); [|exact V3]. change (sregs (set_phys s' (fst tr))) with (sregs s').
    now rewrite F1.
  - apply (window_transfer s1); [| | |intros e page Hd|exact V4].
    + rewrite E. exact Er.
    + exact F2.
    + change (sregs (set_phys s' (fst tr))) with (sregs s'). now rewrite F1.
    + rewrite E in *. apply (held_after _ (phys (mm s))); [|exact Af|exact Hd].
      rewrite <- E. apply V1.
Qed.

Lemma near_fault {A} s s1 e : near s s1 ->
  vagrees s (Fault (A := A) e s1) (state_of s) (inl e, state_of s).
Proof.
  intros [E V D]. exists s1. split; [reflexivity|]. split; [unfold state_of; now rewrite E|].
  split; [now rewrite E|]. unfold state_of. cbn [fst snd]. rewrite <- E, set_phys_same.
  split; [exact V|]. split; [exact D|]. split; [apply V|auto].
Qed.

(** ** Requests *)

(** Well formed at every linear address it may get; a misaligned address of an
    aligned access is refused by the linear access, too. *)
Record request_wf (c : cregs) (q : request) : Prop := {
  rw_len : 1 <= rq_len q <= 16;
  rw_offset : laddr_ok c (rq_offset q);
  rw_op la : laddr_ok c la -> op_wf c (rq_op q la);
  rw_aligned la (st : mem_state) : rq_aligned q = true -> anyb la (rq_len q - 1) = true ->
    ref_op c (rq_op q la) st = (inl (Exn BX_GP_EXCEPTION 0), st)
    /\ ref_translated c (rq_op q la) st = st;
}.

Definition segs_of s (segs : Z -> segment) : Prop := forall j, segs j = descriptor (sregs s j).

Definition translated_request (c : cregs) segs q (st : mem_state) : mem_state :=
  match request_laddr c segs q with
  | inl _ => st
  | inr la => ref_translated c (rq_op q la) st
  end.

Lemma request_linear q la s s1 : virt_ok s -> near s s1 -> op_wf (regs (mm s)) (rq_op q la) ->
  vagrees s (run_op (rq_op q la) s1) (ref_translated (regs (mm s)) (rq_op q la) (state_of s))
    (ref_op (regs (mm s)) (rq_op q la) (state_of s)).
Proof.
  intros Hv Nr W. pose proof (nr_mm _ _ Nr) as E.
  apply (near_agrees s s1); [exact Nr|apply frames_run_op| |].
  - destruct Hv as [[[A20 R D I] _ Wf _] _ _ _]. now apply after_op.
  - pose proof (run_op_ref (rq_op q la) s1 (vo_sys _ (nr_virt _ _ Nr))) as A. cbv zeta in A.
    unfold state_of in *. rewrite E in A. now apply A.
Qed.

Lemma request_laddr_plain c segs q la : request_laddr c segs q = inr la ->
  la = raw_laddr c (rq_seg q) (segs (rq_seg q)) (rq_offset q)
  /\ ref_laddr c (rq_use q) (rq_seg q) (segs (rq_seg q)) (rq_offset q) (rq_len q) = inr la.
Proof.
  unfold request_laddr. destruct (_ && _); [discriminate|]. intros E. split; [|exact E].
  exact (ref_laddr_raw _ _ _ _ _ _ _ E).
Qed.

Lemma request_ref q s segs : virt_ok s -> segs_of s segs -> request_wf (regs (mm s)) q ->
  let c := regs (mm s) in
  vagrees s
    (abind (agen_for (rq_use q) (rq_aligned q) (rq_seg q) (rq_offset q) (rq_len q))
      (fun la => run_op (rq_op q la)) s)
    (translated_request c segs q (state_of s)) (ref_request c segs q (state_of s)).
Proof.
  intros Hv Hs W c.
  destruct (agen_spec (rq_use q) (rq_aligned q) (rq_seg q) (rq_offset q) (rq_len q) s
    (vo_segs s Hv) (rw_len _ _ W)) as (s1 & Sg & A). cbv zeta in A.
  pose proof (near_segments s s1 Hv Sg) as Nr.
  unfold translated_request, ref_request, request_laddr. cbv zeta. rewrite !(Hs (rq_seg q)).
  unfold abind. rewrite descriptor_laddr.
  change (raw_laddr c (rq_seg q) (descriptor ?x) (rq_offset q)) with (raw_laddr c (rq_seg q) x (rq_offset q)).
  fold c in A. pose proof (raw_laddr_ok c (rq_seg q) (sregs s (rq_seg q)) (rq_offset q) (rw_offset _ _ W)) as Hl.
  destruct (rq_aligned q && _) eqn:Al.
  - apply andb_true_iff in Al. destruct Al as [Al Mis].
    destruct (rw_aligned _ _ W _ (state_of s) Al Mis) as [R1 R2].
    destruct A as [->| ->]; [now apply near_fault|].
    pose proof (request_linear q _ s s1 Hv Nr (rw_op _ _ W _ Hl)) as L. now rewrite R1, R2 in L.
  - rewrite A. destruct (ref_laddr _ _ _ _ _ _) as [e|la] eqn:E; cbn [outcome_of]; [now apply near_fault|].
    apply (request_linear q la s s1 Hv Nr). apply (rw_op _ _ W).
    now rewrite (ref_laddr_raw _ _ _ _ _ _ _ E).
Qed.

Lemma vop_request_wf c o q : vop_wf c o -> request_of o = Some q -> request_wf c q.
Proof.
  assert (Sz : forall n, access_size n -> 1 <= n <= 16) by apply access_size_range.
  assert (St : forall n, stack_size n -> access_size n)
    by (unfold stack_size, access_size; cbn; tauto).
  intros W E. destruct o as [| | |al sg off|al sg off data| | | | | |]; cbn [request_of] in E; try discriminate;
    injection E as <-; cbn [vop_wf] in W; split;
    cbn [rq_use rq_aligned rq_seg rq_offset rq_len rq_op]; try discriminate;
    try (intros la Hl; cbn [op_wf]); try intros st; intuition auto; try (apply Sz; now auto); try lia.
  all: change (16 - 1) with 15 in *; subst al; unfold ref_op, ref_translated, ref_aligned, aligned_translated;
    match goal with Hm : anyb _ 15 = true |- _ => now rewrite Hm end.
Qed.

(** ** Pushes and pops *)

(** A walk that may write without setting a bit may read. *)
Lemma ad_writes_read path : ad_writes path true = [] -> ad_writes path false = [].
Proof.
  induction path as [|[a e] path IH]; [reflexivity|]. cbn [ad_writes]. destruct path as [|p path].
  - destruct (Z.testbit e 5); [reflexivity|discriminate].
  - destruct (Z.testbit e 5); [exact IH|discriminate].
Qed.

Lemma walk_read_of_write c mem la ac user r :
  ref_page_walk c mem la ac user BX_WRITE = (inr r, []) ->
  ref_page_walk c mem la ac user BX_READ = (inr r, []).
Proof.
  unfold ref_page_walk. destruct (negb (get_PG c)); [auto|].
  destruct (walk_path c mem la) as [path [code|[frame size]]]; [auto|]. cbv zeta.
  destruct (access_ok c ac user BX_WRITE _ _ _) eqn:A; [|discriminate]. intros [= <- Ew].
  replace (access_ok c ac user BX_READ _ _ _) with true.
  - change (Z.testbit BX_READ 0) with false. now rewrite ad_writes_read.
  - symmetry. unfold access_ok in *. change (Z.testbit BX_READ 0) with false.
    change (Z.testbit BX_WRITE 0) with true in A. change (BX_READ =? BX_EXECUTE) with false.
    change (BX_WRITE =? BX_EXECUTE) with false in A.
    destruct (implb user (path_user path)); [|discriminate].
    destruct (implb true _); [exact A|discriminate].
Qed.

Lemma write_serves_read s e la n ac user : usable s e la n ac -> laddr_ok (regs (mm s)) la ->
  isWriteOK e user = true -> serves s e la user BX_READ.
Proof.
  intros U Hl G. rewrite write_grants in G.
  destruct (usable_serves s e la n ac user BX_WRITE U Hl ltac:(unfold BX_WRITE; lia) G)
    as (pa & cb & mask & W & A).
  exists pa, cb, mask. split; [now apply walk_read_of_write|exact A].
Qed.

Lemma write_allows_read c sg seg off n la : ref_laddr c SegWrite sg seg off n = inr la ->
  ref_laddr c SegRead sg seg off n = inr la.
Proof.
  unfold ref_laddr, ref_laddr32, seg_allows. destruct (long64_mode c); [auto|].
  destruct (type_allows SegWrite seg) eqn:T; [|rewrite andb_false_r; discriminate].
  replace (type_allows SegRead seg) with true; [auto|].
  unfold type_allows in *. apply andb_true_iff in T. destruct T as [T _]. now rewrite T.
Qed.

(** A stack segment that refuses a write has the wrong limits or is not loaded. *)
Lemma read_refused s off n : stack_segment_ok s ->
  stack_laddr SegWrite s off n = inl (Exn BX_SS_EXCEPTION 0) ->
  stack_laddr SegRead s off n = inl (Exn BX_SS_EXCEPTION 0).
Proof.
  intros Hss. unfold stack_laddr, ref_laddr, ref_laddr32, seg_allows.
  destruct (long64_mode _); [discriminate|].
  destruct (Z.eqb_spec (seg_valid (sregs s BX_SEG_REG_SS)) 0) as [V|V]; [reflexivity|].
  destruct (Hss V) as [P T]. rewrite P, T. cbn [negb andb].
  replace (type_allows SegRead _) with true; [now destruct (in_limits _ _ _)|].
  unfold type_allows in *. apply andb_true_iff in T. destruct T as [T _]. now rewrite T.
Qed.

Lemma low_mask_offset p d n : p mod 4096 = 0 -> 0 <= d < 4096 -> stack_size n ->
  anyb (p + d) (n - 1) = anyb d (n - 1).
Proof.
  intros Hp Hd Sz. unfold anyb. f_equal. f_equal.
  assert (E : Z.land (p + d) 4095 = d).
  { change 4095 with (Z.ones 12). rewrite Z.land_ones by lia. change (2 ^ 12) with 4096.
    rewrite Z.add_mod, Hp, Z.add_0_l, Z.mod_mod by lia. now apply Z.mod_small. }
  rewrite <- E at 2. rewrite <- Z.land_assoc. f_equal.
  destruct Sz as [<-|[<-|[<-|[<-|[]]]]]; reflexivity.
Qed.

Section Place.
Context (s : memsys M) (k : stack_cache) (n offset : Z) (e : bx_TLB_entry) (page : Z).
Hypothesis Hv : virt_ok s.
Hypothesis Sz : stack_size n.
Hypothesis Hl : laddr_ok (regs (mm s)) offset.
Hypothesis Hp : stack_place s k offset n e page.
Let la := page + biased k offset.
Let s1 := s <| stk := k |>.

Lemma stack_size_access : access_size n.
Proof. unfold stack_size, access_size in *. cbn in *. tauto. Qed.

Lemma biased_page : 0 <= biased k offset /\ biased k offset < 4096.
Proof.
  destruct Hp as (_ & H & _). pose proof (access_size_range n stack_size_access).
  split; [apply wrap_fits; lia|lia].
Qed.

Lemma place_address : LPFOf la = page /\ PAGE_OFFSET la = biased k offset.
Proof.
  destruct Hp as ((Hd & _) & _). destruct (he_page _ _ _ _ Hd) as [P F].
  destruct (page_of_sum page (biased k offset) F P biased_page) as (_ & E1 & E2). now split.
Qed.

Lemma place_laddr : raw_laddr (regs (mm s)) BX_SEG_REG_SS (sregs s BX_SEG_REG_SS) offset = la
  /\ laddr_ok (regs (mm s)) la.
Proof.
  destruct Hp as (_ & _ & E). pose proof (ref_laddr_raw _ _ _ _ _ _ _ E) as R. fold la in R.
  split; [now symmetry|]. rewrite R. now apply raw_laddr_ok.
Qed.

Lemma place_host : espHostPtr k + biased k offset = host_addr e la.
Proof.
  destruct Hp as ((Hd & _ & ->) & _). destruct place_address as [_ E].
  unfold host_addr. rewrite E. symmetry. apply lor_page; [apply Hd|apply biased_page].
Qed.

Lemma place_misaligned : anyb (pAddrStackPage k + biased k offset) (n - 1) = anyb (PAGE_OFFSET la) (n - 1).
Proof.
  destruct Hp as ((Hd & -> & _) & _). destruct place_address as [_ ->].
  apply low_mask_offset; [apply Hd|apply biased_page|exact Sz].
Qed.

Lemma place_usable : alignment_check (regs (mm s)) && anyb (PAGE_OFFSET la) (n - 1) = false ->
  usable s1 e la n (n - 1).
Proof.
  intros Al. destruct Hp as ((Hd & _) & Hn & _). destruct place_address as [E1 E2].
  apply (held_usable s1 e page); [exact Hd|exact E1|rewrite E2; lia|].
  intros A. change (regs (mm s1)) with (regs (mm s)) in A. now rewrite A in Al.
Qed.

(** The reference refuses a misaligned operand, too. *)
Lemma place_fault rw : alignment_check (regs (mm s)) && anyb (PAGE_OFFSET la) (n - 1) = true ->
  ref_operand (regs (mm s)) n la (CPL (regs (mm s))) rw (n - 1) (state_of s)
  = (inl (Exn BX_AC_EXCEPTION 0), state_of s).
Proof.
  intros Al. apply andb_true_iff in Al. destruct Al as [A1 A2].
  destruct Hp as ((Hd & _) & _). destruct place_address as [E1 E2].
  unfold ref_operand. cbv zeta.
  rewrite (same_frame_canonical la page) by (rewrite <- E1; symmetry; apply lpf_idem).
  rewrite (he_canonical _ _ _ _ Hd), A1, A2.
  rewrite (regs_alignment_user _ (sys_regs s (vo_sys s Hv)) A1). reflexivity.
Qed.

End Place.

Lemma request_of_stack c segs s u op n off : segs_of s segs ->
  request_laddr c segs (Request u false BX_SEG_REG_SS off n op)
  = ref_laddr c u BX_SEG_REG_SS (sregs s BX_SEG_REG_SS) off n.
Proof. intros Hs. unfold request_laddr. cbn. now rewrite Hs, descriptor_laddr. Qed.

(** The common shape of pushes and pops. *)
Definition stack_cached (n off : Z) (fast : Z -> acc M Z) (slow : acc M Z) : acc M Z :=
  espBiased <~ stack_access off n ;;
  k <~ get_stk ;;
  if negb (espHostPtr k =? 0) then stack_align n espBiased ~; fast (espHostPtr k + espBiased)
  else slow.

Definition use_rw (u : seg_use) : Z := match u with SegRead => BX_READ | SegWrite => BX_WRITE end.

Section StackOp.
Context (u : seg_use) (n off : Z) (op : Z -> linear_op) (fast : Z -> acc M Z) (slow : acc M Z).
Context (s : memsys M) (segs : Z -> segment).
Let c := regs (mm s).
Let q := Request u false BX_SEG_REG_SS off n op.
Hypothesis Hv : virt_ok s.
Hypothesis Hs : segs_of s segs.
Hypothesis Sz : stack_size n.
Hypothesis Hl : laddr_ok c off.
Hypothesis Wf : request_wf c q.
Hypothesis slow_eq : forall t, slow t
  = abind (agen_for u false BX_SEG_REG_SS off n) (fun la => run_op (op la)) t.
Hypothesis op_fault : forall la st,
  ref_operand c n la (CPL c) (use_rw u) (n - 1) st = (inl (Exn BX_AC_EXCEPTION 0), st) ->
  ref_op c (op la) st = (inl (Exn BX_AC_EXCEPTION 0), st) /\ ref_translated c (op la) st = st.
Hypothesis fast_ref : forall s1 e la, regs (mm s1) = c -> sys_ok s1 -> laddr_ok c la ->
  usable s1 e la n (n - 1) -> isWriteOK e (CPL c =? 3) = true ->
  agrees s1 (fast (host_addr e la) s1) (ref_translated c (op la) (state_of s1))
    (ref_op c (op la) (state_of s1)).
Hypothesis fast_frames : forall a, frames (fast a).

Lemma stack_window_ref k e page : window_ok (s <| stk := k |>) -> stack_place s k off n e page ->
  let la := page + biased k off in
  vagrees s ((stack_align n (biased k off) ~; fast (espHostPtr k + biased k off)) (s <| stk := k |>))
    (ref_translated c (op la) (state_of s)) (ref_op c (op la) (state_of s)).
Proof.
  intros Wk Hp la. pose proof (near_stack s k Hv Wk) as Nr.
  unfold stack_align, get_stk, cregs_of, gets, abind, araise, aret.
  cbn [set_field stk mm]. fold c.
  rewrite (place_misaligned s k n off e page Sz Hp). fold la.
  destruct (alignment_check c && anyb (PAGE_OFFSET la) (n - 1)) eqn:Al.
  - destruct (op_fault la (state_of s)) as [-> ->];
      [now apply (place_fault s k n off e page Hv Sz Hp)|]. now apply near_fault.
  - destruct (place_laddr s k n off e page Hl Hp) as [_ Hla]. fold la in Hla.
    rewrite (place_host s k n off e page Sz Hp). fold la.
    refine (near_agrees s _ (fast (host_addr e la)) _ _ Nr (fast_frames _) _ _).
    + destruct Hv as [[[A20 R D I] _ Wfm _] _ _ _]. apply after_op; try assumption.
      now apply (rw_op _ _ Wf).
    + apply (fast_ref _ e la (f_equal regs (nr_mm _ _ Nr)) (vo_sys _ (nr_virt _ _ Nr)) Hla).
      * exact (place_usable s k n off e page Sz Hp Al).
      * unfold c. rewrite <- (regs_user _ (sys_regs s (vo_sys s Hv))).
        destruct Hp as ((Hd & _) & _). apply Hd.
Qed.

Lemma stack_cached_ref :
  vagrees s (stack_cached n off fast slow s)
    (translated_request c segs q (state_of s)) (ref_request c segs q (state_of s)).
Proof.
  assert (Hn : 1 <= n <= 8) by (destruct Sz as [<-|[<-|[<-|[<-|[]]]]]; lia).
  destruct (stack_access_spec s off n (vo_sys s Hv) (vo_segs s Hv) (vo_ss s Hv) (vo_window s Hv) Hl Hn)
    as (k & Wk & [(A & E)|(A & D)]); pose proof (near_stack s k Hv Wk) as Nr;
    unfold stack_cached; unfold abind at 1; rewrite A;
    [|unfold abind at 1, get_stk, gets; cbn [set_field stk];
      destruct (Z.eqb_spec (espHostPtr k) 0) as [Z0|Z0]; cbn [negb]].
  - unfold translated_request, ref_request. unfold q. rewrite (request_of_stack c segs s u op n off Hs).
    replace (ref_laddr c u _ _ off n) with (inl (B := Z) (Exn BX_SS_EXCEPTION 0)).
    2: { symmetry. destruct u; [|exact E]. now apply (read_refused s off n (vo_ss s Hv)). }
    now apply near_fault.
  - rewrite slow_eq.
    pose proof (request_ref q _ segs (nr_virt _ _ Nr) Hs Wf) as R.
    exact R.
  - destruct D as [D|(e & page & Hp)]; [contradiction|].
    unfold translated_request, ref_request. unfold q. rewrite (request_of_stack c segs s u op n off Hs).
    replace (ref_laddr c u _ _ off n) with (inr (A := exn) (page + biased k off)).
    2: { symmetry. destruct Hp as (_ & _ & E). destruct u; [|exact E]. now apply write_allows_read. }
    exact (stack_window_ref k e page Wk Hp).
Qed.

End StackOp.

Lemma push_ref n off data s segs : virt_ok s -> segs_of s segs ->
  let c := regs (mm s) in
  vop_wf c (Push n off data) ->
  vagrees s (run_vop (Push n off data) s) (ref_vtranslated c segs (Push n off data) (state_of s))
    (ref_vop c segs (Push n off data) (state_of s)).
Proof.
  intros Hv Hs c W. pose proof W as (Sz & Hl & Hd & Hu).
  pose proof (stack_cached_ref SegWrite n off (fun la => Save n BX_SEG_REG_SS la data)
    (fun a => host_store n a data ~; aret 0) (write_virtual n BX_SEG_REG_SS off data ~; aret 0)
    s segs Hv Hs Sz Hl (vop_request_wf c _ _ W eq_refl)) as P.
  assert (E : run_vop (Push n off data) s = stack_cached n off
    (fun a => host_store n a data ~; aret 0) (write_virtual n BX_SEG_REG_SS off data ~; aret 0) s).
  { unfold run_vop, stack_write, stack_cached. rewrite abind_assoc. apply abind_ext. intros eb t _.
    rewrite abind_assoc. apply abind_ext. intros k t' _.
    destruct (negb _); [now rewrite abind_assoc|reflexivity]. }
  rewrite E. apply P.
  - intros t. unfold write_virtual. now rewrite abind_assoc.
  - intros la st F. cbn [use_rw] in F. unfold ref_op, ref_translated, ref_write, translated.
    now rewrite F.
  - intros s1 e la Er Hok1 Hla U G. rewrite <- Er in *. apply agrees_zero.
    apply (fast_write_ref s1 e n (n - 1) la); auto using stack_size_access. now rewrite Er.
  - intros a. frames.
Qed.

Lemma pop_ref n off s segs : virt_ok s -> segs_of s segs ->
  let c := regs (mm s) in
  vop_wf c (Pop n off) ->
  vagrees s (run_vop (Pop n off) s) (ref_vtranslated c segs (Pop n off) (state_of s))
    (ref_vop c segs (Pop n off) (state_of s)).
Proof.
  intros Hv Hs c W. pose proof W as (Sz & Hl).
  apply (stack_cached_ref SegRead n off (Load n BX_SEG_REG_SS) (host_load n)
    (read_virtual n BX_SEG_REG_SS off) s segs Hv Hs Sz Hl (vop_request_wf c _ _ W eq_refl)).
  - reflexivity.
  - intros la st F. cbn [use_rw] in F. unfold ref_op, ref_translated, ref_read, translated.
    now rewrite F.
  - intros s1 e la Er Hok1 Hla U G. rewrite <- Er in *.
    apply fast_read_ref; try assumption; [now apply stack_size_access|].
    now apply (write_serves_read s1 e la n (n - 1)).
  - intros a. apply frames_load.
Qed.

(** ** Operations and programs *)

Lemma load_descriptor_ok s sg d : virt_ok s -> vop_wf (regs (mm s)) (LoadSegment sg d) ->
  exists s', load_descriptor sg d s = Ok tt s' /\ mm s' = mm s /\ virt_ok s'
  /\ forall j, descriptor (sregs s' j)
       = if j =? sg then d <| seg_valid := SegValidCache |> else descriptor (sregs s j).
Proof.
  intros [V1 V2 V3 V4] (W1 & W2 & W3 & W4). set (d' := d <| seg_valid := SegValidCache |>).
  assert (Ok' : seg_ok d').
  { split; try assumption; try discriminate. now right. }
  assert (Ss : forall j, seg_ok (if j =? sg then d' else sregs s j)) by (intros j; now destruct (j =? sg)).
  unfold load_descriptor, put_segment, abind, invalidate_stack_cache, set_stk, aret. fold d'.
  assert (D : forall j, descriptor (if j =? sg then d' else sregs s j)
    = if j =? sg then d' else descriptor (sregs s j)) by (intros j; now destruct (j =? sg)).
  destruct (Z.eqb_spec sg BX_SEG_REG_SS) as [E|E]; eexists; (split; [reflexivity|]);
    (split; [reflexivity|]); (split; [|exact D]).
  - split; [destruct V1; now split|exact Ss| |].
    + intros _. cbn [set_field sregs]. rewrite E, Z.eqb_refl. now apply W4.
    + intros Wd. cbn in Wd. lia.
  - assert (Es : (if BX_SEG_REG_SS =? sg then d' else sregs s BX_SEG_REG_SS) = sregs s BX_SEG_REG_SS)
      by (destruct (Z.eqb_spec BX_SEG_REG_SS sg); [congruence|reflexivity]).
    split; [destruct V1; now split|exact Ss| |].
    + apply (stack_segment_transfer s); [|exact V3]. cbn [set_field sregs]. now rewrite Es.
    + apply (window_transfer s); try reflexivity; [|auto|exact V4]. cbn [set_field sregs]. now rewrite Es.
Qed.

Lemma load_null_ok s sg : virt_ok s ->
  exists s', load_null_selector sg s = Ok tt s' /\ mm s' = mm s /\ virt_ok s'
  /\ forall j, descriptor (sregs s' j) = if j =? sg then null_segment else descriptor (sregs s j).
Proof.
  intros [V1 V2 V3 V4].
  unfold load_null_selector, put_segment, abind, invalidate_stack_cache, set_stk.
  eexists. split; [reflexivity|]. split; [reflexivity|]. split; [|intros j; cbn; now destruct (j =? sg)].
  assert (Ok' : seg_ok null_segment).
  { split; try discriminate; try (cbn; split; [lia|reflexivity]). now left. }
  split; [destruct V1; now split| | |].
  - intros j. cbn [set_field sregs]. now destruct (j =? sg).
  - intros Hv. cbn [set_field sregs] in *. destruct (BX_SEG_REG_SS =? sg); [now elim Hv|now apply V3].
  - intros W. cbn in W. lia.
Qed.

(** The operation has given the reference's result; [segs'] are the reference's
    descriptors, and the invariant holds for the memory after the translations. *)
Definition done s (segs' : Z -> segment) (out : outcome (memsys M) Z) (tr : mem_state)
    (r : (exn + Z) * mem_state) : Prop :=
  exists s', out = outcome_of (fst r) s' /\ state_of s' = snd r /\ regs (mm s') = regs (mm s)
  /\ virt_ok (set_phys s' (fst tr)) /\ segs_of s' segs'
  /\ phy_wf (phys (mm s'))
  /\ (forall h p w, host_valid (fst tr) h p w -> host_valid (phys (mm s')) h p w).

Lemma vagrees_done s segs out tr r : segs_of s segs -> vagrees s out tr r -> done s segs out tr r.
Proof.
  intros Hs (s' & A1 & A2 & A3 & A4 & A5 & A6 & A7). exists s'.
  split; [exact A1|]. split; [exact A2|]. split; [exact A3|]. split; [exact A4|].
  split; [|auto]. intros j. now rewrite Hs, A5.
Qed.

(** A segment load. *)
Lemma load_done s segs' s' : virt_ok s' -> mm s' = mm s -> segs_of s' segs' ->
  done s segs' (Ok 0 s') (state_of s) (inr 0, state_of s).
Proof.
  intros V E Sg. exists s'. split; [reflexivity|]. split; [unfold state_of; now rewrite E|].
  split; [now rewrite E|]. unfold state_of. cbn [fst]. rewrite <- E, set_phys_same.
  split; [exact V|]. split; [exact Sg|]. split; [apply V|auto].
Qed.

Lemma abind_head {A B} (m m' : acc M A) (k : A -> acc M B) s : m s = m' s -> abind m k s = abind m' k s.
Proof. intros E. unfold abind. now rewrite E. Qed.

(** The processor's run of a request: the address, then the linear access. *)
Lemma run_vop_request o q s : request_of o = Some q -> vop_wf (regs (mm s)) o ->
  match o with Push _ _ _ | Pop _ _ => False | _ => True end ->
  run_vop o s = abind (agen_for (rq_use q) (rq_aligned q) (rq_seg q) (rq_offset q) (rq_len q))
    (fun la => run_op (rq_op q la)) s.
Proof.
  intros E W N.
  assert (C32 : forall b (in32 : Z -> Z -> Z -> acc M Z) sg off n, code32_ok (regs (mm s)) b off -> b = true ->
    in32 sg off n s = agen in32 sg off n s).
  { intros b in32 sg off n C Eb. destruct (C Eb) as [L F]. now rewrite agen32_agen. }
  destruct o as [b n sg off|b n sg off data|b n sg off f|[] sg off|[] sg off data|sg off|? ? ?|? ?|? ?|?|?];
    try contradiction; try discriminate; injection E as <-; cbn [rq_use rq_aligned rq_seg rq_offset rq_len rq_op];
    try reflexivity;
    try (unfold run_vop, write_virtual_xmmword, write_virtual_xmmword_aligned, tickle_read_virtual;
         now rewrite abind_assoc);
    cbn [vop_wf] in W; assert (C : code32_ok (regs (mm s)) b off) by tauto; pose proof (fun a => C32 b a sg off n C) as C';
    unfold agen_for, agen_read, agen_write;
    destruct b; unfold run_vop, read_virtual, read_virtual_32, write_virtual, write_virtual_32,
      read_RMW_virtual, read_RMW_virtual_32, agen_read, agen_write;
    rewrite ?abind_assoc; try rewrite <- (abind_head _ _ _ s (C' _ eq_refl)); reflexivity.
Qed.

Lemma run_vop_ref o s segs : virt_ok s -> segs_of s segs -> vop_wf (regs (mm s)) o ->
  let c := regs (mm s) in
  done s (ref_segs o segs) (run_vop o s) (ref_vtranslated c segs o (state_of s))
    (ref_vop c segs o (state_of s)).
Proof.
  intros Hv Hs W c.
  pose proof (fun q E => request_ref q s segs Hv Hs (vop_request_wf c o q W E)) as R.
  pose proof (fun q E => run_vop_request o q s E W) as Q.
  destruct o as [| | | | | |n off data|n off|sg d|sg|lo];
    try (apply vagrees_done; [exact Hs|]; rewrite (Q _ eq_refl I); exact (R _ eq_refl)).
  - apply vagrees_done; [exact Hs|now apply push_ref].
  - apply vagrees_done; [exact Hs|now apply pop_ref].
  - destruct (load_descriptor_ok s sg d Hv W) as (s' & E & Em & V & D).
    unfold run_vop. unfold abind. rewrite E. apply load_done; [exact V|exact Em|].
    intros j. rewrite D. cbn [ref_segs]. now rewrite Hs.
  - destruct (load_null_ok s sg Hv) as (s' & E & Em & V & D).
    unfold run_vop. unfold abind. rewrite E. apply load_done; [exact V|exact Em|].
    intros j. rewrite D. cbn [ref_segs]. now rewrite Hs.
  - apply vagrees_done; [exact Hs|]. cbn [run_vop ref_vop ref_vtranslated].
    apply (near_agrees s s (run_op lo)); [|apply frames_run_op| |].
    + now split.
    + destruct Hv as [[[A20 Ra D I] _ Wf _] _ _ _]. now apply after_op.
    + now apply run_op_ref; [apply Hv|].
Qed.

(** The maintenance with the functions that drop the window. *)
Definition vmaintain (k : maintenance) s : memsys M :=
  match k with
  | Keep => s
  | Invlpg la => final (TLB_invlpg_sys la s)
  | FlushAll => final (TLB_flush_sys s)
  end.

Lemma vmaintain_eq k s : vmaintain k s = match k with
  | Keep => s | _ => maintain k (s <| stk := invalidate_window (stk s) |>) end.
Proof. now destruct k. Qed.

Lemma held_same c m m' e page : same_translations c m m' ->
  (forall h p w, host_valid m h p w -> host_valid m' h p w) ->
  held c m e page -> held c m' e page.
Proof.
  intros S K Hd. pose proof (he_entry _ _ _ _ Hd) as E. destruct Hd.
  split; try assumption; [|now apply K].
  intros la ac user rw Hrw Hl Hp G. rewrite S. now apply E.
Qed.

Lemma vmaintain_ok k s m : virt_ok (set_phys s m) -> phy_wf (phys (mm s)) ->
  (forall h p w, host_valid m h p w -> host_valid (phys (mm s)) h p w) ->
  tables_rule (regs (mm s)) k m (phys (mm s)) ->
  virt_ok (vmaintain k s).
Proof.
  intros [V1 V2 V3 V4] W K Rl. rewrite vmaintain_eq.
  destruct (Rl) as [_ Rk]. destruct k as [|la|].
  - split; [exact (maintain_ok Keep s m V1 W K Rl)|exact V2|exact V3|].
    apply (window_transfer (set_phys s m)); try reflexivity; [|exact V4].
    intros e page. now apply held_same.
  - split; [|exact V2|exact V3|intros Hw; cbn in Hw; lia].
    apply (maintain_ok (Invlpg la) (s <| stk := invalidate_window (stk s) |>) m); try assumption.
    destruct V1. now split.
  - split; [|exact V2|exact V3|intros Hw; cbn in Hw; lia].
    apply (maintain_ok FlushAll (s <| stk := invalidate_window (stk s) |>) m); try assumption.
    destruct V1. now split.
Qed.

Fixpoint virtual_run (ops : list (virtual_op * maintenance)) s : list (exn + Z) * memsys M :=
  match ops with
  | [] => ([], s)
  | (o, k) :: ops' =>
    let '(r, s1) :=
      match run_vop o s with Ok v s1 => (inr v, s1) | Fault e s1 => (inl e, s1) end in
    let '(rs, s2) := virtual_run ops' (vmaintain k s1) in (r :: rs, s2)
  end.

Fixpoint ref_vrun (c : cregs) (ops : list (virtual_op * maintenance)) (segs : Z -> segment)
    (st : mem_state) : list (exn + Z) * mem_state :=
  match ops with
  | [] => ([], st)
  | (o, _) :: ops' =>
    let '(r, st1) := ref_vop c segs o st in
    let '(rs, st2) := ref_vrun c ops' (ref_segs o segs) st1 in (r :: rs, st2)
  end.

Fixpoint vprogram_ok (c : cregs) (ops : list (virtual_op * maintenance)) (segs : Z -> segment)
    (st : mem_state) : Prop :=
  match ops with
  | [] => True
  | (o, k) :: ops' =>
    let st1 := snd (ref_vop c segs o st) in
    vop_wf c o /\ tables_rule c k (fst (ref_vtranslated c segs o st)) (fst st1)
    /\ vprogram_ok c ops' (ref_segs o segs) st1
  end.

(** C24: Any run of virtual accesses, pushes, pops and segment loads gives the values,
    the faults, the memory and CR2 of complete checks of the descriptors and of
    page walks for every operand: the access bits kept in the segment
    registers, the stack cache that pushes and pops go through without check or
    TLB, and everything below cannot be seen, as long as changed page tables are
    followed by INVLPG or a flush. *)
Theorem virtual_accesses_refine ops s segs : virt_ok s -> segs_of s segs ->
  vprogram_ok (regs (mm s)) ops segs (state_of s) ->
  let '(rs, s') := virtual_run ops s in
  ref_vrun (regs (mm s)) ops segs (state_of s) = (rs, state_of s') /\ virt_ok s'.
Proof.
  revert s segs. induction ops as [|[o k] ops IH]; intros s segs Hv Hs Hp; cbn [virtual_run ref_vrun].
  { auto. }
  destruct Hp as (Hw & Hr & Hp).
  destruct (run_vop_ref o s segs Hv Hs Hw) as (s1 & E & Es & Er & Hv1 & Hs1 & W & K).
  set (r := ref_vop _ _ o _) in *. set (tr := ref_vtranslated _ _ o _) in *.
  assert (Hv2 : virt_ok (vmaintain k s1)).
  { apply (vmaintain_ok k s1 (fst tr)); try assumption. rewrite Er.
    replace (phys (mm s1)) with (fst (snd r)) by now rewrite <- Es. exact Hr. }
  assert (E2 : state_of (vmaintain k s1) = snd r) by (rewrite <- Es; now destruct k).
  assert (R2 : regs (mm (vmaintain k s1)) = regs (mm s)) by (rewrite <- Er; now destruct k).
  assert (Hs2 : segs_of (vmaintain k s1) (ref_segs o segs)) by (intros j; rewrite Hs1; now destruct k).
  rewrite <- E2, <- R2 in Hp. specialize (IH (vmaintain k s1) _ Hv2 Hs2 Hp).
  rewrite E2, R2 in IH.
  destruct r as [r0 st1] eqn:Ev. cbn [fst snd] in *. rewrite E.
  destruct r0 as [e|v]; cbn [outcome_of]; destruct (virtual_run ops (vmaintain k s1)) as [rs s2];
    destruct IH as [-> IH2]; auto.
Qed.

End Trace.

(** ** A concrete program *)

(** Compatibility mode: segments, with the page tables of the linear accesses. *)
Definition segment_regs : cregs := example_regs <| cpu_mode := 3 |>.

(** SS, DS, FS expand-down, and flat segments. *)
Definition segment_sregs (j : Z) : segment :=
  if j =? 2 then Segment 1 true 3 0x400000 0x2fff true
  else if j =? 3 then Segment 1 true 2 0x402000 0x1fff true
  else if j =? 4 then Segment 1 true 6 0x400000 0x2010 false
  else Segment 1 true 3 0 0xffffffff true.

Definition segment_sys : memsys ram :=
  MemSys (Mmu segment_regs 0 no_tlb no_tlb access_tables) (Xlation 0 0 0 0 0)
    segment_sregs (StackCache 0 0 0 0).

Lemma plain_segment_ok ty b l d : 0 <= ty < 16 -> fits 64 b -> fits 32 l ->
  seg_ok (Segment 1 true ty b l d).
Proof. split; try assumption; try discriminate. now right. Qed.

Lemma segment_sys_ok : virt_ok segment_sys.
Proof.
  split.
  - split.
    + split; [split|..]; auto using ram_tables, no_tlb_ok. vm_compute. split; congruence.
    + split; [reflexivity|now left|discriminate|reflexivity].
    + exact I.
    + intros i _ V. discriminate V.
  - intros j. unfold segment_sys, segment_sregs. cbn [sregs].
    destruct (j =? 2); [|destruct (j =? 3); [|destruct (j =? 4)]];
      apply plain_segment_ok; unfold fits; lia.
  - now intros _.
  - intros W. discriminate W.
Qed.

(** Pushes and pops through the window and beside it, beyond the limit, above
    and below an expand-down limit, misaligned, and after segment loads that
    shrink the stack, make a segment read-only, or null. *)
Definition segment_program : list (virtual_op * maintenance) :=
  [(Push 4 0x2ffc 0xaabbccdd, Keep); (Push 4 0x2ff8 1, Keep); (Push 4 0x2f00 7, Keep);
   (Push 2 0x2010 5, Keep); (Pop 4 0x2f00, Keep); (Pop 4 0x2ffc, Keep); (Pop 4 0x2ffd, Keep);
   (VLoad false 4 3 0xffc, Keep); (VLoad true 8 3 0x1ffc, Keep); (VLoad false 4 4 0x2010, Keep);
   (VLoad true 4 4 0x2ffc, FlushAll); (VLoadXmm true 3 8, Keep); (VModify false 2 0 0x402010 (fun v => Some (v + 1)), Keep);
   (Pop 2 0x2010, Keep); (LoadSegment 2 (Segment 0 true 3 0x400000 0x2f03 true), Keep);
   (Pop 4 0x2f00, Keep); (Pop 4 0x2f01, Keep);
   (LoadSegment 5 (Segment 0 true 1 0x402000 0xfff true), Keep); (VSave true 4 5 0 9, Keep);
   (LoadNull 3, Keep); (VTouch 3 0, Keep); (VSaveXmm true 0 0x402020 3, Keep)].

Fixpoint vrules_hold (ops : list (virtual_op * maintenance)) (segs : Z -> segment)
    (st : mem_state (M := ram)) : bool :=
  match ops with
  | [] => true
  | (o, k) :: ops' =>
    let st1 := snd (ref_vop segment_regs segs o st) in
    rule_holds segment_regs k (fst (ref_vtranslated segment_regs segs o st)) (fst st1)
    && vrules_hold ops' (ref_segs o segs) st1
  end.

Lemma vrules_hold_ok ops : (forall o k, In (o, k) ops -> vop_wf segment_regs o) ->
  forall segs st, vrules_hold ops segs st = true -> vprogram_ok segment_regs ops segs st.
Proof.
  induction ops as [|[o k] ops IH]; intros W segs st E; [exact I|].
  cbn [vrules_hold vprogram_ok] in *. apply andb_true_iff in E. destruct E as [E1 E2].
  split; [now apply (W o k); left|]. split; [now apply rule_holds_ok|].
  apply IH; [|exact E2]. intros o' k' Hi. apply (W o' k'). now right.
Qed.

Lemma segment_program_ok : vprogram_ok segment_regs segment_program segment_sregs (state_of segment_sys).
Proof.
  apply vrules_hold_ok.
  - intros o k H. cbn in H.
    repeat (destruct H as [[= <- <-]|H]; [cbn; unfold access_size, stack_size, laddr_ok, user_paged, code32_ok, fits;
      cbn; repeat split; auto 8; try discriminate; vm_compute; congruence|]). contradiction.
  - vm_compute. reflexivity.
Qed.

Lemma virtual_accesses_refine_witness :
  fst (virtual_run segment_program segment_sys)
    = [inr 0; inr 0; inr 0; inr 0; inr 7; inr 0xaabbccdd; inl (Exn 12 0);
       inr 0xaabbccdd; inl (Exn 13 0); inl (Exn 13 0); inr 0xaabbccdd; inl (Exn 13 0); inr 5;
       inr 6; inr 0; inr 7; inl (Exn 12 0); inr 0; inl (Exn 13 0); inr 0; inl (Exn 13 0); inr 0]
  /\ let '(rs, s') := virtual_run segment_program segment_sys in
     ref_vrun segment_regs segment_program segment_sregs (state_of segment_sys) = (rs, state_of s')
     /\ virt_ok s'.
Proof.
  split; [vm_compute; reflexivity|].
  exact (virtual_accesses_refine segment_program segment_sys segment_sregs segment_sys_ok
    (fun j => ltac:(unfold segment_sys, segment_sregs; cbn [sregs];
      destruct (j =? 2); [|destruct (j =? 3); [|destruct (j =? 4)]]; reflexivity))
    segment_program_ok).
Defined.
