(* ===== verification/Machine.v ===== *)
(** * Instructions on the memory system

    The instruction handlers of Alu and their specifications need only the class
    [VirtualMemory].  The processor's memory path (segments, TLBs, host pointers)
    implements it, and so does the reference machine without any of them.
    Programs of integer instructions run alike on both. *)

From Stdlib Require Import ZArith Lia List Bool.
From S2P Require Import Prelude LazyFlags Cpu Alu AluRefine ShiftSpec ShiftRefine BitSpec BitRefine BitMore MultRefine.
From S2P Require Import Tlb Paging PagingSpec PagingRefine PagingAd.
From S2P Require Import TlbProps TlbSound TlbTrace Access AccessSpec AccessRefine AccessTrace.
From S2P Require Import Segment SegmentProps StackProps VirtualTrace.
Import ListNotations.
Open Scope Z_scope.

(** ** The processor's memory as virtual memory *)

Definition to_pair {M A} (o : outcome (memsys M) A) : (exn + A) * memsys M :=
  match o with Ok a s => (inr a, s) | Fault e s => (inl e, s) end.

#[export] Instance mmu_memory {M} `{PM : PhysicalMemory M} `{HM : !HostMemory M} : VirtualMemory (memsys M) := {|
  vm_read n sg off m := to_pair (read_virtual n sg off m);
  vm_write n sg off v m := to_pair (write_virtual n sg off v m);
  vm_read_RMW n sg off m := to_pair (read_RMW_virtual n sg off m);
  vm_read_linear n sg la m := to_pair (Access.read_linear n sg la m);
  vm_write_linear n sg la v m := to_pair (Access.write_linear n sg la v m);
  vm_read_RMW_linear n sg la m := to_pair (Access.read_RMW_linear n sg la m);
  vm_write_RMW n v m := final (write_RMW_sized n v m);
  vm_read_RMW_dqword sg la m := to_pair (Access.read_RMW_linear_dqword_aligned_64 sg la m);
  vm_write_RMW_dqword hi lo m := final (Access.write_RMW_linear_dqword hi lo m);
|}.

Section Fits.
Context {M : Type} `{PM : PhysicalMemory M} `{HM : !HostMemory M}.
Context `{!PhysicalMemoryOk M} `{!HostMemoryOk M}.

(** Every value the run can give satisfies [P]. *)
Definition gives {A} (P : A -> Prop) (m : acc M A) : Prop := forall s a s', m s = Ok a s' -> P a.

Lemma gives_bind {A B} (P : B -> Prop) (m : acc M A) k : (forall a, gives P (k a)) -> gives P (abind m k).
Proof. intros H s b s' E. unfold abind in E. destruct (m s) as [a t|]; [|discriminate]. exact (H a t b s' E). Qed.
Lemma gives_bind2 {A B} (Q : A -> Prop) (P : B -> Prop) (m : acc M A) k :
  gives Q m -> (forall a, Q a -> gives P (k a)) -> gives P (abind m k).
Proof.
  intros Hm H s b s' E. unfold abind in E. destruct (m s) as [a t|] eqn:Em; [|discriminate].
  exact (H a (Hm s a t Em) t b s' E).
Qed.
Lemma gives_ret {A} (P : A -> Prop) a : P a -> gives P (aret a).
Proof. now intros H s b s' [= <- _]. Qed.
Lemma gives_raise {A} (P : A -> Prop) v e : gives P (araise v e).
Proof. now intros s b s'. Qed.
Lemma gives_host n h : 0 <= n -> gives (fits (8 * n)) (host_load n h).
Proof. intros Hn s b s' [= <- _]. now apply host_read_fits. Qed.
Lemma gives_phys n a : 0 <= n -> gives (fits (8 * n)) (lift (access_read_physical a n)).
Proof.
  intros Hn s b s' E. rewrite lift_read in E. pose proof (phy_read_fits n a (phys (mm s)) Hn) as F.
  destruct (phy_read n a (phys (mm s))). now injection E as <- _.
Qed.

Definition fits_option (n : Z) (o : option Z) : Prop := match o with Some v => fits n v | None => True end.

Lemma join_fits n l hi lo : 0 <= l <= n -> fits (8 * l) lo -> fits (8 * (n - l)) hi ->
  fits (8 * n) (Z.lor (Z.shiftl hi (8 * l)) lo).
Proof.
  intros Hl Hlo Hhi. rewrite lor_shiftl_add by (assumption || lia). unfold fits in *.
  replace (8 * n) with (8 * l + 8 * (n - l)) by lia. rewrite Z.pow_add_r by lia. nia.
Qed.

Lemma gives_read_linear la n pl rw ac : 0 <= n ->
  gives (fits_option (8 * n)) (access_read_linear la n pl rw ac).
Proof.
  intros Hn. unfold access_read_linear. cbv zeta. apply gives_bind. intros ok.
  destruct (negb ok); [now apply gives_ret|]. pose proof (page_offset_range la) as Po.
  destruct (Z.leb_spec (PAGE_OFFSET la + n) 4096) as [L|L].
  - apply gives_bind; intros u1; apply gives_bind; intros u2.
    apply (gives_bind2 (fits (8 * n))); [now apply gives_phys|]. intros w F. now apply gives_ret.
  - apply gives_bind; intros u1; apply gives_bind; intros u2. destruct (second_page _ _ _); [|now apply gives_ret].
    apply gives_bind; intros u3; apply gives_bind; intros u4; apply gives_bind; intros u5; apply gives_bind; intros u6.
    apply (gives_bind2 (fits (8 * (4096 - PAGE_OFFSET la)))); [apply gives_phys; lia|]. intros lo Flo.
    apply (gives_bind2 (fits (8 * (n - (4096 - PAGE_OFFSET la))))); [apply gives_phys; lia|]. intros hi Fhi.
    apply gives_ret. apply join_fits; assumption || lia.
Qed.

Lemma gives_slow_read n la pl rw ac v : 0 <= n -> gives (fits (8 * n)) (slow_read n la pl rw ac v).
Proof.
  intros Hn. unfold slow_read. apply (gives_bind2 (fits_option (8 * n))); [now apply gives_read_linear|].
  intros [data|] F; [now apply gives_ret|apply gives_raise].
Qed.

Lemma gives_linear n sg la : 0 <= n -> gives (fits (8 * n)) (Access.read_linear n sg la).
Proof.
  intros Hn. unfold Access.read_linear, read_linear_at. apply gives_bind. intros c. apply gives_bind.
  intros [e|]; [destruct (isReadOK _ _)|]; auto using gives_host, gives_slow_read.
Qed.

Lemma gives_RMW_linear n sg la : 0 <= n -> gives (fits (8 * n)) (Access.read_RMW_linear n sg la).
Proof.
  intros Hn. unfold Access.read_RMW_linear. apply gives_bind. intros c. apply gives_bind.
  intros [e|]; [destruct (isWriteOK _ _)|]; auto using gives_slow_read.
  apply (gives_bind2 (fits (8 * n))); [now apply gives_host|]. intros v F. apply gives_bind. intros _.
  now apply gives_ret.
Qed.

Lemma gives_RMW_dqword sg la : gives (fun v => fits 64 (fst v) /\ fits 64 (snd v))
  (Access.read_RMW_linear_dqword_aligned_64 sg la).
Proof.
  unfold Access.read_RMW_linear_dqword_aligned_64. apply gives_bind. intros c. apply gives_bind.
  assert (S : gives (fun v => fits 64 (fst v) /\ fits 64 (snd v))
    (if anyb la 15 then araise BX_GP_EXCEPTION 0
     else data <~ slow_read 16 la (CPL c) BX_RW 0 (int_number sg) ;;
          aret (Z.shiftr data 64, u64 data))).
  { destruct (anyb la 15); [apply gives_raise|].
    apply (gives_bind2 (fits (8 * 16))); [apply gives_slow_read; lia|]. intros v F.
    apply gives_ret. cbn [fst snd]. split; [|apply wrap_fits; lia]. unfold fits in *.
    change (8 * 16) with (64 + 64) in F. rewrite Z.pow_add_r in F by lia.
    rewrite Z.shiftr_div_pow2 by lia. split; [apply Z.div_pos; lia|apply Z.div_lt_upper_bound; lia]. }
  intros [e|]; [|exact S]. destruct (isWriteOK _ _); [|exact S].
  apply (gives_bind2 (fits (8 * 8))); [apply gives_host; lia|]. intros lo Flo.
  apply (gives_bind2 (fits (8 * 8))); [apply gives_host; lia|]. intros hi Fhi.
  apply gives_bind. intros _. now apply gives_ret.
Qed.

Lemma gives_pair {A} (P : A -> Prop) (m : acc M A) s v s' : gives P m -> to_pair (m s) = (inr v, s') -> P v.
Proof. intros G E. destruct (m s) as [a t|] eqn:Em; [|discriminate]. injection E as <- <-. exact (G s a t Em). Qed.

#[export] Instance mmu_memory_ok : VirtualMemoryOk (memsys M).
Proof.
  constructor.
  - intros n s a m v m' Hn. apply (gives_pair _ _ m v m'), gives_bind. intros la. now apply gives_linear.
  - intros n s a m v m' Hn. apply (gives_pair _ _ m v m'), gives_bind. intros la. now apply gives_RMW_linear.
  - intros n s a m v m' Hn. now apply (gives_pair _ _ m v m'), gives_linear.
  - intros n s a m v m' Hn. now apply (gives_pair _ _ m v m'), gives_RMW_linear.
  - intros s a m hi lo m'. exact (gives_pair _ _ m (hi, lo) m' (gives_RMW_dqword s a)).
Qed.

End Fits.

(** ** The reference machine

    Segments, and memory reached by walking the page tables: no TLB, no host
    pointers, no cached checks.  [rm_walked] is memory after the translations of
    the last access, [rm_pending] the place of an unfinished read-modify-write. *)

Record refmem (M : Type) := RefMem {
  rm_regs : cregs;
  rm_segs : Z -> segment;
  rm_state : M * Z;
  rm_walked : M * Z;
  rm_pending : list (Z * Z);
}.
Arguments RefMem {M}.
Arguments rm_regs {M}.
Arguments rm_segs {M}.
Arguments rm_state {M}.
Arguments rm_walked {M}.
Arguments rm_pending {M}.

#[export] Instance refmem_eta {M} : Eta (refmem M) := fun r =>
  RefMem (rm_regs r) (rm_segs r) (rm_state r) (rm_walked r) (rm_pending r).

Section Reference.
Context {M : Type} `{PM : PhysicalMemory M} `{HM : !HostMemory M}.

Definition ref_access (o : virtual_op) (r : refmem M) : (exn + Z) * refmem M :=
  let '(v, st) := ref_vop (rm_regs r) (rm_segs r) o (rm_state r) in
  (v, r <| rm_state := st |> <| rm_walked := ref_vtranslated (rm_regs r) (rm_segs r) o (rm_state r) |>).

Definition unit_result (p : (exn + Z) * refmem M) : (exn + unit) * refmem M :=
  (match fst p with inl e => inl e | inr _ => inr tt end, snd p).

(** The physical ranges the operand of the operation lies in. *)
Definition ref_ranges (c : cregs) (n la ac : Z) (st : mem_state (M := M)) : list (Z * Z) :=
  match fst (ref_operand c n la (CPL c) BX_RW ac st) with inr (Some ranges) => ranges | _ => [] end.

Definition ref_read_RMW (n sg off : Z) (r : refmem M) : (exn + Z) * refmem M :=
  let '(v, r') := ref_access (VModify false n sg off (fun _ => None)) r in
  (v, r' <| rm_pending :=
        match request_laddr (rm_regs r) (rm_segs r) (Request SegWrite false sg off n (Load n sg)) with
        | inr la => ref_ranges (rm_regs r) n la (n - 1) (rm_state r)
        | inl _ => []
        end |>).

Definition ref_read_RMW_linear (n sg la : Z) (r : refmem M) : (exn + Z) * refmem M :=
  let '(v, r') := ref_access (Linear (Modify n sg la (fun _ => None))) r in
  (v, r' <| rm_pending := ref_ranges (rm_regs r) n la (n - 1) (rm_state r) |>).

Definition ref_write_RMW (n v : Z) (r : refmem M) : refmem M :=
  r <| rm_state := (store_ranges (rm_pending r) (wrap (8 * n) v) (fst (rm_state r)), snd (rm_state r)) |>.

Definition ref_read_dqword (sg la : Z) (r : refmem M) : (exn + Z * Z) * refmem M :=
  let c := rm_regs r in
  let st := rm_state r in
  let '(v, st1) := ref_aligned la (ref_read c 16 (int_number sg) la (CPL c) BX_RW 0 st) st in
  (match v with inl e => inl e | inr v => inr (u64 (Z.shiftr v 64), u64 v) end,
   r <| rm_state := st1 |> <| rm_walked := aligned_translated c la BX_RW st |>
     <| rm_pending := ref_ranges c 16 la 0 st |>).

Definition ref_write_dqword (hi lo : Z) (r : refmem M) : refmem M :=
  match rm_pending r with
  | (pa, _) :: _ =>
    r <| rm_state := (phy_write 8 (pa + 8) hi (phy_write 8 pa lo (fst (rm_state r))), snd (rm_state r)) |>
  | [] => r
  end.

#[export] Instance ref_memory : VirtualMemory (refmem M) := {|
  vm_read n sg off := ref_access (VLoad false n sg off);
  vm_write n sg off v r := unit_result (ref_access (VSave false n sg off v) r);
  vm_read_RMW := ref_read_RMW;
  vm_read_linear n sg la := ref_access (Linear (Load n sg la));
  vm_write_linear n sg la v r := unit_result (ref_access (Linear (Save n sg la v)) r);
  vm_read_RMW_linear := ref_read_RMW_linear;
  vm_write_RMW := ref_write_RMW;
  vm_read_RMW_dqword := ref_read_dqword;
  vm_write_RMW_dqword := ref_write_dqword;
|}.

End Reference.

(** ** The two memories side by side *)

Section Related.
Context {M : Type} `{PM : PhysicalMemory M} `{HM : !HostMemory M}.
Context `{!PhysicalMemoryOk M} `{!HostMemoryOk M}.
Implicit Types (m : memsys M) (r : refmem M).
(** The control registers and descriptors; integer instructions change none. *)
Context (c : cregs) (segs : Z -> segment).

(** Before an instruction. *)
Record mrel m r : Prop := {
  mr_virt : virt_ok m;
  mr_segs : segs_of m segs;
  mr_fixed : rm_segs r = segs;
  mr_regs : regs (mm m) = c;
  mr_control : rm_regs r = c;
  mr_state : rm_state r = state_of m;
  mr_walked : rm_walked r = rm_state r;
}.

(** After its accesses: the invariant holds for the memory its translations
    left, before its stores. *)
Record mpost m r : Prop := {
  mp_virt : virt_ok (set_phys m (fst (rm_walked r)));
  mp_segs : segs_of m segs;
  mp_fixed : rm_segs r = segs;
  mp_regs : regs (mm m) = c;
  mp_control : rm_regs r = c;
  mp_state : rm_state r = state_of m;
  mp_wf : phy_wf (phys (mm m));
  mp_host h p w : host_valid (fst (rm_walked r)) h p w -> host_valid (phys (mm m)) h p w;
}.

Lemma mrel_post m r : mrel m r -> mpost m r.
Proof.
  intros [V S Fx Cm R E W]. rewrite E in W. split; try assumption.
  - rewrite W. cbn [state_of fst]. now rewrite set_phys_same.
  - apply (sys_wf m (vo_sys m V)).
  - rewrite W. auto.
Qed.

(** Stores that change no translation. *)
Lemma mpost_rel m r : mpost m r ->
  tables_rule (rm_regs r) Keep (fst (rm_walked r)) (fst (rm_state r)) ->
  mrel m (r <| rm_walked := rm_state r |>).
Proof.
  intros [V S Fx Cm R E W K] T. rewrite R, <- Cm, E in T. split; try assumption; [|reflexivity].
  now apply (vmaintain_ok Keep m (fst (rm_walked r))).
Qed.

Definition keeps (o : virtual_op) : Prop := ref_segs o segs = segs.

(** An operation run on both memories. *)
Lemma ref_access_rel o m r : mrel m r -> keeps o -> vop_wf c o ->
  match run_vop o m with
  | Ok v m' => exists r', ref_access o r = (inr v, r') /\ mpost m' r'
  | Fault e m' => exists r', ref_access o r = (inl e, r') /\ mpost m' r'
  end.
Proof.
  intros [V S Fx Cm R E W] Ks Wf. rewrite <- Cm in *. destruct (run_vop_ref o m segs V S Wf)
    as (m' & D1 & D2 & D3 & D4 & D5 & D6 & D7).
  unfold ref_access. rewrite Fx, R, E. destruct (ref_vop _ _ o _) as [v st] eqn:Ev. cbn [fst snd] in *.
  assert (P : mpost m' (r <| rm_state := st |>
    <| rm_walked := ref_vtranslated (regs (mm m)) segs o (state_of m) |>)).
  { rewrite Ks in D5. split; try assumption; try (cbn [set_field rm_state]; congruence).
    cbn [set_field rm_regs]. congruence. }
  rewrite D1. destruct v as [e|v]; cbn [outcome_of]; eauto.
Qed.

Lemma mpost_pending m r p : mpost m (r <| rm_pending := p |>) -> mpost m r.
Proof. intros []. now split. Qed.

(** [m] and [r] have read the operand of [o]; the write is to come. *)
Definition half_done (n : Z) m r : Prop :=
  exists m0 r0 (o : (Z -> option Z) -> virtual_op) v,
  mrel m0 r0 /\ (forall f, keeps (o f) /\ vop_wf c (o f))
  /\ (forall f, run_vop (o f) m0 = finish_modify n f v m)
  /\ (forall f, ref_access (o f) r0
       = (inr v, (match f v with Some w => ref_write_RMW n w r | None => r end)
            <| rm_pending := rm_pending r0 |>)).

Lemma pending_done n m r : half_done n m r -> mpost m r.
Proof.
  intros (m0 & r0 & o & v & Rl & K & E1 & E2).
  pose proof (ref_access_rel (o (fun _ => None)) m0 r0 Rl (proj1 (K _)) (proj2 (K _))) as A.
  rewrite E1, E2 in A. destruct A as (r' & [= <-] & A). exact (mpost_pending _ _ _ A).
Qed.

Lemma pending_write n w m r : half_done n m r -> wrap (8 * n) w = w ->
  mpost (vm_write_RMW n w m) (vm_write_RMW n w r).
Proof.
  intros (m0 & r0 & o & v & Rl & K & E1 & E2) Hw.
  pose proof (ref_access_rel (o (fun _ => Some w)) m0 r0 Rl (proj1 (K _)) (proj2 (K _))) as A.
  rewrite E1, E2 in A. unfold finish_modify, finish_RMW, abind, aret in A. rewrite Hw in A.
  cbn [vm_write_RMW mmu_memory ref_memory].
  destruct (write_RMW_sized n w m) as [u m'|e m']; cbn [final];
    destruct A as (r' & E & A); [|discriminate].
  apply (f_equal snd) in E. cbn [snd] in E. rewrite <- E in A. exact (mpost_pending _ _ _ A).
Qed.

(** An access on both memories. *)
Definition same_access {A} (P : memsys M -> refmem M -> Prop)
    (a : (exn + A) * memsys M) (b : (exn + A) * refmem M) : Prop :=
  fst b = fst a /\ (match fst a with inr _ => P | inl _ => mpost end) (snd a) (snd b).

(** The place of a read-modify-write: an offset in its segment, or a linear address. *)
Inductive place := AtOffset (sg off : Z) | AtLinear (sg la : Z).

Definition modify_at (x : place) (n : Z) (f : Z -> option Z) : virtual_op :=
  match x with
  | AtOffset sg off => VModify false n sg off f
  | AtLinear sg la => Linear (Modify n sg la f)
  end.

Definition read_at_place (x : place) (n : Z) : acc M Z :=
  match x with
  | AtOffset sg off => read_RMW_virtual n sg off
  | AtLinear sg la => Access.read_RMW_linear n sg la
  end.

Definition ref_read_at (x : place) (n : Z) : refmem M -> (exn + Z) * refmem M :=
  match x with
  | AtOffset sg off => ref_read_RMW n sg off
  | AtLinear sg la => ref_read_RMW_linear n sg la
  end.

Lemma ref_modify_split c0 n vec la f (st : mem_state (M := M)) :
  ref_modify c0 n vec la f st =
  let '(v, (m2, k)) := ref_modify c0 n vec la (fun _ => None) st in
  (v, (match v with
       | inr v => match f v with
                  | Some w => store_ranges (ref_ranges c0 n la (n - 1) st) (wrap (8 * n) w) m2
                  | None => m2
                  end
       | inl _ => m2
       end, k)).
Proof.
  unfold ref_modify, ref_ranges. destruct (ref_operand _ _ _ _ _ _ _) as [[e|[ranges|]] [m1 k]];
    try reflexivity. cbn [fst]. now destruct (load_ranges ranges m1).
Qed.

Lemma ref_modify_at x n f r :
  ref_access (modify_at x n f) r =
  let '(v, r') := ref_read_at x n r in
  (v, (match v with
       | inr v => match f v with Some w => ref_write_RMW n w r' | None => r' end
       | inl _ => r'
       end) <| rm_pending := rm_pending r |>).
Proof.
  destruct r as [c1 sgs st wk pe]. destruct x as [sg off|sg la];
    cbn [modify_at ref_read_at]; unfold ref_read_RMW, ref_read_RMW_linear, ref_access;
    cbn [rm_regs rm_segs rm_state ref_vop request_of ref_vtranslated]; unfold ref_request.
  - unfold ref_request, request_laddr. cbn [rq_use rq_aligned rq_seg rq_offset rq_len rq_op andb].
    destruct (ref_laddr _ _ _ _ _ _) as [e|la]; [reflexivity|]. cbn [ref_op ref_translated].
    rewrite (ref_modify_split _ _ _ _ f).
    destruct (ref_modify _ _ _ _ (fun _ => None) _) as [[e|v] [m2 k]]; [reflexivity|].
    now destruct (f v).
  - cbn [ref_op ref_translated]. rewrite (ref_modify_split _ _ _ _ f).
    destruct (ref_modify _ _ _ _ (fun _ => None) _) as [[e|v] [m2 k]]; [reflexivity|].
    now destruct (f v).
Qed.

Lemma read_RMW_rel x n m r : mrel m r ->
  (forall f, vop_wf c (modify_at x n f)) ->
  same_access (half_done n) (to_pair (read_at_place x n m)) (ref_read_at x n r).
Proof.
  intros Rl Wf.
  assert (Ks : forall f, keeps (modify_at x n f)) by (intros f; now destruct x).
  assert (E : forall f, run_vop (modify_at x n f) m = abind (read_at_place x n) (finish_modify n f) m)
    by (now intros f; destruct x).
  pose proof (ref_access_rel _ m r Rl (Ks (fun _ => None)) (Wf _)) as A.
  pose proof (fun f => ref_modify_at x n f r) as S.
  rewrite S in A. rewrite E in A. unfold abind in A, E.
  destruct (ref_read_at x n r) as [v' r1].
  destruct (read_at_place x n m) as [v m1|e m1]; cbn in A;
    destruct A as (r2 & E2 & A); destruct v' as [e'|v']; try discriminate; injection E2 as -> <-;
    (split; [reflexivity|]); cbn [to_pair fst snd].
  - exists m, r, (modify_at x n), v. split; [exact Rl|]. split; [auto|]. split; [exact E|exact S].
  - exact (mpost_pending _ _ _ A).
Qed.

(** ** Instructions with one operand in memory *)

(** Both machines have done the same, to related memories; [b] holds the segment
    bases, which stay. *)
Definition msim {F} (b : Z -> Z) (P : memsys M -> refmem M -> Prop)
    (o : outcome (bx_cpu F (memsys M)) unit) (o' : outcome (bx_cpu F (refmem M)) unit) : Prop :=
  match o, o' with
  | Ok _ s, Ok _ s' =>
    gen_reg s' = gen_reg s /\ seg_base s = b /\ seg_base s' = b /\ oszapc s' = oszapc s /\ P (vmem s) (vmem s')
  | Fault e s, Fault e' s' =>
    e' = e /\ gen_reg s' = gen_reg s /\ seg_base s = b /\ seg_base s' = b /\ oszapc s' = oszapc s
    /\ P (vmem s) (vmem s')
  | _, _ => False
  end.

Lemma msim_ok g b (f : flags) m r : mpost m r -> msim b mpost (Ok tt (Cpu g b f m)) (Ok tt (Cpu g b f r)).
Proof. intros H. cbn. auto. Qed.

Lemma msim_fault e g b (f : flags) m r : mpost m r ->
  msim b mpost (Fault e (Cpu g b f m)) (Fault e (Cpu g b f r)).
Proof. intros H. cbn. auto 9. Qed.

Lemma msim_access {A} (P : memsys M -> refmem M -> Prop) (x : memsys M -> (exn + A) * memsys M) y
    k k' g b (f : flags) m r :
  same_access P (x m) (y r) ->
  (forall v m1 r1, P m1 r1 -> msim b mpost (k v (Cpu g b f m1)) (k' v (Cpu g b f r1))) ->
  msim b mpost (bind (access x) k (Cpu g b f m)) (bind (access y) k' (Cpu g b f r)).
Proof.
  unfold same_access. intros [E H] K. unfold bind, access. cbn [vmem].
  destruct (x m) as [[e|v] m1], (y r) as [v' r1]; cbn [fst snd] in *; subst v'.
  - now apply msim_fault.
  - now apply K.
Qed.

(** What the addresses and sizes of an instruction may be: 64 bits only in 64-bit
    mode. *)
Definition mode_ok (sz : opsize) (i : bxInstruction_c) : Prop :=
  (sz = S64 -> long64_mode c = true) /\ (as64L i <> 0 -> long64_mode c = true).

Lemma read_rel o m r : mrel m r -> keeps o -> vop_wf c o ->
  same_access mpost (to_pair (run_vop o m)) (ref_access o r).
Proof.
  intros Rl K W. pose proof (ref_access_rel o m r Rl K W) as A. unfold same_access.
  destruct (run_vop o m); destruct A as (r' & -> & A); now split.
Qed.

Lemma write_rel o (w : acc M unit) m r : mrel m r -> keeps o -> vop_wf c o ->
  (forall s, run_vop o s = (w ~; aret 0) s) ->
  same_access mpost (to_pair (w m)) (unit_result (ref_access o r)).
Proof.
  intros Rl K W E. pose proof (ref_access_rel o m r Rl K W) as A. unfold same_access, unit_result.
  rewrite E in A. unfold abind, aret in A. destruct (w m) as [[] m1|e m1];
    destruct A as (r' & -> & A); now split.
Qed.

Lemma eff_addr_ok i g : (as64L i <> 0 -> long64_mode c = true) -> laddr_ok c (eff_addr i g).
Proof.
  intros L. unfold laddr_ok, eff_addr. destruct (Z.eqb_spec (as64L i) 0) as [E|E]; cbn [negb].
  - apply (fits_le 32); [destruct (long64_mode c); lia|]. apply wrap_fits. lia.
  - rewrite (L E). destruct (negb _); apply wrap_fits; lia.
Qed.

Lemma segment_laddr_ok sg b off : long64_mode c = true -> laddr_ok c off ->
  laddr_ok c (if sg <? BX_SEG_REG_FS then off else u64 (b + off)).
Proof. unfold laddr_ok. intros -> H. destruct (_ <? _); [exact H|]. apply wrap_fits. lia. Qed.

Lemma addr_bits_ok sz i x : (as64L i <> 0 -> long64_mode c = true) ->
  laddr_ok c (wrap (addr_bits sz i) x).
Proof.
  intros L. unfold laddr_ok, addr_bits. destruct (Z.eqb_spec (as64L i) 0) as [E|E]; cbn [negb].
  - apply (fits_le (match sz with S64 => 32 | _ => if asize i =? 0 then 16 else 32 end));
      [|apply wrap_fits]; destruct sz, (long64_mode c), (asize i =? 0); lia.
  - rewrite (L E). apply wrap_fits. lia.
Qed.

(** The accesses of the specifications, run in front of a continuation. *)
Section Accesses.
Context (g b : Z -> Z) (f : flags) (m : memsys M) (r : refmem M).
Hypothesis Rl : mrel m r.
Hypothesis Hu : user_paged c (CPL c).

Abbreviation sim_after P k k' :=
  (forall v m1 r1, P m1 r1 -> msim b mpost (k v (Cpu g b f m1)) (k' v (Cpu g b f r1))).

Lemma msim_read n sg off k k' : access_size n -> laddr_ok c off -> sim_after mpost k k' ->
  msim b mpost (bind (access (vm_read n sg off)) k (Cpu g b f m)) (bind (access (vm_read n sg off)) k' (Cpu g b f r)).
Proof.
  intros Sz Hl. apply msim_access. apply (read_rel (VLoad false n sg off) m r Rl); [reflexivity|].
  split; [exact Sz|]. split; [exact Hl|discriminate].
Qed.

Lemma msim_read_linear n sg la k k' : access_size n -> laddr_ok c la -> sim_after mpost k k' ->
  msim b mpost (bind (access (vm_read_linear n sg la)) k (Cpu g b f m))
    (bind (access (vm_read_linear n sg la)) k' (Cpu g b f r)).
Proof.
  intros Sz Hl. apply msim_access. apply (read_rel (Linear (Load n sg la)) m r Rl); [reflexivity|].
  now split.
Qed.

Lemma msim_RMW n sg off k k' : access_size n -> laddr_ok c off -> sim_after (half_done n) k k' ->
  msim b mpost (bind (access (vm_read_RMW n sg off)) k (Cpu g b f m))
    (bind (access (vm_read_RMW n sg off)) k' (Cpu g b f r)).
Proof.
  intros Sz Hl. apply msim_access. apply (read_RMW_rel (AtOffset sg off) n m r Rl).
  intros h. split; [exact Sz|]. split; [exact Hl|]. split; [discriminate|exact Hu].
Qed.

Lemma msim_RMW_linear n sg la k k' : access_size n -> laddr_ok c la -> sim_after (half_done n) k k' ->
  msim b mpost (bind (access (vm_read_RMW_linear n sg la)) k (Cpu g b f m))
    (bind (access (vm_read_RMW_linear n sg la)) k' (Cpu g b f r)).
Proof.
  intros Sz Hl. apply msim_access. apply (read_RMW_rel (AtLinear sg la) n m r Rl).
  intros h. split; [exact Sz|]. split; [exact Hl|exact Hu].
Qed.

Lemma msim_write n sg off w k k' : access_size n -> laddr_ok c off -> fits (8 * n) w ->
  sim_after mpost k k' ->
  msim b mpost (bind (access (vm_write n sg off w)) k (Cpu g b f m))
    (bind (access (vm_write n sg off w)) k' (Cpu g b f r)).
Proof.
  intros Sz Hl Hw. apply msim_access.
  apply (write_rel (VSave false n sg off w) (write_virtual n sg off w) m r Rl); [reflexivity| |reflexivity].
  split; [exact Sz|]. split; [exact Hl|]. split; [discriminate|now split].
Qed.

Lemma msim_write_linear n sg la w k k' : access_size n -> laddr_ok c la -> fits (8 * n) w ->
  sim_after mpost k k' ->
  msim b mpost (bind (access (vm_write_linear n sg la w)) k (Cpu g b f m))
    (bind (access (vm_write_linear n sg la w)) k' (Cpu g b f r)).
Proof.
  intros Sz Hl Hw. apply msim_access.
  apply (write_rel (Linear (Save n sg la w)) (Access.write_linear n sg la w) m r Rl);
    [reflexivity| |reflexivity].
  split; [exact Sz|]. split; [exact Hl|]. now split.
Qed.

End Accesses.

End Related.

(** Runs one access; the side conditions are sizes, addresses and widths. *)
Ltac side := first
  [ assumption
  | unfold access_size; cbn; tauto
  | apply wrap_fits; lia
  | apply segment_laddr_ok; [auto|]; side
  | apply eff_addr_ok; tauto
  | apply addr_bits_ok; tauto ].

Ltac sim_access :=
  lazymatch goal with
  | |- msim _ _ (bind (access (vm_read _ _ _)) _ _) _ => apply msim_read; [assumption|side|side|]
  | |- msim _ _ (bind (access (vm_read_linear _ _ _)) _ _) _ => apply msim_read_linear; [assumption|side|side|]
  | |- msim _ _ (bind (access (vm_read_RMW _ _ _)) _ _) _ => apply msim_RMW; [assumption|assumption|side|side|]
  | |- msim _ _ (bind (access (vm_read_RMW_linear _ _ _)) _ _) _ =>
    apply msim_RMW_linear; [assumption|assumption|side|side|]
  | |- msim _ _ (bind (access (vm_write _ _ _ _)) _ _) _ => apply msim_write; [assumption|assumption|side|side|side|]
  | |- msim _ _ (bind (access (vm_write_linear _ _ _ _)) _ _) _ =>
    apply msim_write_linear; [assumption|assumption|side|side|side|]
  end; intros.

Ltac post := first
  [ assumption
  | now apply mrel_post
  | apply pending_write; [assumption|]; apply wrap_id, wrap_fits; lia
  | now apply (pending_done _ _ _ _ _ ltac:(eassumption)) ].

Ltac sim_end := first [apply msim_ok | apply msim_fault]; post.

Lemma bind_unit {F M} (x : cpu F M unit) s : x s = bind x (fun _ => ret tt) s.
Proof. unfold bind, ret. destruct (x s) as [[] s'|e s']; reflexivity. Qed.

Section Families.
Context {M : Type} `{PM : PhysicalMemory M} `{HM : !HostMemory M}.
Context `{!PhysicalMemoryOk M} `{!HostMemoryOk M}.
Implicit Types (m : memsys M) (r : refmem M).
Context (c : cregs) (segs : Z -> segment).

Lemma alu_msim sz ins i g b f m r : mrel c segs m r -> mode_ok c sz i ->
  user_paged c (CPL c) ->
  msim b (mpost c segs) (instr_spec sz ins i (Cpu g b f m)) (instr_spec sz ins i (Cpu g b f r)).
Proof.
  intros Rl [L1 L2] Hu.
  destruct ins as [[] []|[] []|[]|[]| | |], sz; unfold_spec; unfold_io; exec; cbv iota;
    try (sim_access; exec; cbv iota); try (destruct (_ =? _); exec); try sim_end.
Qed.

Lemma shift_msim sz op mem by_cl i g b f m r : mrel c segs m r -> mode_ok c sz i ->
  user_paged c (CPL c) ->
  msim b (mpost c segs) (shift_spec sz op mem by_cl i (Cpu g b f m)) (shift_spec sz op mem by_cl i (Cpu g b f r)).
Proof.
  intros Rl [L1 L2] Hu. unfold shift_spec. cbv zeta.
  destruct by_cl, mem, (is_double op), sz; unfold_io; exec; cbv iota; try (sim_access; exec; cbv iota);
    destruct (shift_result _ _ _ _ _ _) as [[res|] f']; exec; sim_end.
Qed.

Lemma mul_msim sz ins i g b f m r : mrel c segs m r ->
  msim b (mpost c segs) (mul_spec sz ins i (Cpu g b f m)) (mul_spec sz ins i (Cpu g b f r)).
Proof.
  intros Rl. unfold mul_spec, divide, read_pair, write_pair. cbv zeta.
  destruct ins, sz; unfold_io; unfold DX; exec; try sim_end;
    match goal with |- context [if ?bad then exception _ _ else _] => destruct bad end; exec; try sim_end.
Qed.

Lemma bit_msim sz ins i g b f m r : mrel c segs m r -> mode_ok c sz i ->
  user_paged c (CPL c) ->
  msim b (mpost c segs) (bit_instr_spec sz ins i (Cpu g b f m)) (bit_instr_spec sz ins i (Cpu g b f r)).
Proof.
  intros Rl [L1 L2] Hu. rewrite !(bind_unit (bit_instr_spec sz ins i)).
  unfold bit_instr_spec, bit_test_spec, scan_spec, read_at, write_at, modify_flags, Cpu.write_virtual_byte,
    Cpu.write_virtual_word, Cpu.write_virtual_dword, Cpu.write_linear_qword.
  destruct ins as [[] []|[]|cd neg []| | |], sz; unfold_io; cbn [bt_writes]; exec; cbv iota;
    try (sim_access; exec; cbv iota); try sim_end; try (destruct (_ =? 0); exec; sim_end).
Qed.

End Families.
