(* ===== verification/MachineRun.v ===== *)
(** * Programs of integer instructions on the memory system

    The handlers, with lazy flags, on memory reached through segment caches, TLBs
    and host pointers, against the specifications, with plain flags, on memory
    reached by checking descriptors and walking page tables. *)

From Stdlib Require Import ZArith Lia List Bool.
From S2P Require Import Prelude LazyFlags Cpu Alu AluRefine ShiftSpec ShiftRefine BitSpec BitRefine BitMore MultRefine.
From S2P Require Import Tlb Paging PagingSpec PagingRefine PagingAd.
From S2P Require Import TlbProps TlbSound TlbTrace Access AccessSpec AccessRefine AccessTrace.
From S2P Require Import Segment SegmentProps StackProps VirtualTrace Machine.
Import ListNotations.
Open Scope Z_scope.

Inductive machine_instr :=
| Integer (sz : opsize) (ins : alu_instr)
| Shift (sz : opsize) (op : shift_op) (mem : bool)
| Bits (sz : opsize) (ins : bit_instr)
| Multiply (sz : opsize) (ins : mul_instr).

Definition size_of (x : machine_instr) : opsize :=
  match x with Integer sz _ | Shift sz _ _ | Bits sz _ | Multiply sz _ => sz end.

Section Instructions.
Context {M : Type} `{VirtualMemory M}.

Definition machine_handler (x : machine_instr)
    : option (bxInstruction_c -> cpu bx_lazyflags_entry M unit) :=
  match x with
  | Integer sz ins => handler_of sz ins
  | Shift sz op mem => shift_handler sz op mem
  | Bits sz ins => bit_handler sz ins
  | Multiply sz ins => mul_handler sz ins
  end.

Definition machine_spec (x : machine_instr) (i : bxInstruction_c) : cpu flags M unit :=
  match x with
  | Integer sz ins => instr_spec sz ins i
  | Shift sz op mem => shift_spec sz op mem (ia_opcode i =? cl_opcode sz op) i
  | Bits sz ins => bit_instr_spec sz ins i
  | Multiply sz ins => mul_spec sz ins i
  end.

Lemma machine_handler_refines `{!VirtualMemoryOk M} x h i (s : bx_cpu bx_lazyflags_entry M) :
  machine_handler x = Some h -> instr_ok i -> cpu_ok s -> osim (h i s) (machine_spec x i (abs s)).
Proof.
  intros E Hi Hs. destruct x as [sz ins|sz op mem|sz ins|sz ins]; cbn [machine_handler machine_spec] in *.
  - now apply handler_refines.
  - now apply shift_handler_refines.
  - now apply bit_instr_refines.
  - now apply mul_handler_refines.
Qed.

End Instructions.

Section Runs.
Context {M : Type} `{PM : PhysicalMemory M} `{HM : !HostMemory M}.
Context `{!PhysicalMemoryOk M} `{!HostMemoryOk M}.

Definition program := list (machine_instr * bxInstruction_c).

(** The handlers one after the other, up to the first exception. *)
Fixpoint run_handlers (prog : program) : cpu bx_lazyflags_entry (memsys M) unit :=
  match prog with
  | [] => ret tt
  | (x, i) :: prog' =>
    (match machine_handler x with Some h => h i | None => ret tt end) ;;;
    run_handlers prog'
  end.

(** The translations of the instruction are over. *)
Definition settle (s : bx_cpu flags (refmem M)) : bx_cpu flags (refmem M) :=
  s <| vmem := (vmem s) <| rm_walked := rm_state (vmem s) |> |>.

Definition last_state {S A} (o : outcome S A) : S := match o with Ok _ s | Fault _ s => s end.

Definition spec_step (x : machine_instr) (i : bxInstruction_c) : cpu flags (refmem M) unit := fun s =>
  match machine_spec x i s with
  | Ok u s' => Ok u (settle s')
  | Fault e s' => Fault e (settle s')
  end.

Fixpoint run_specs (prog : program) : cpu flags (refmem M) unit :=
  match prog with
  | [] => ret tt
  | (x, i) :: prog' => spec_step x i ;;; run_specs prog'
  end.

(** Every instruction has a handler and is one of the mode's, and no store of it
    changes a translation. *)
Fixpoint prog_ok (c : cregs) (prog : program) (s : bx_cpu flags (refmem M)) : Prop :=
  match prog with
  | [] => True
  | (x, i) :: prog' =>
    let r := vmem (last_state (machine_spec x i s)) in
    machine_handler (M := memsys M) x <> None
    /\ instr_ok i /\ mode_ok c (size_of x) i
    /\ tables_rule c Keep (fst (rm_walked r)) (fst (rm_state r))
    /\ match spec_step x i s with Ok _ s' => prog_ok c prog' s' | Fault _ _ => True end
  end.



(** The same state; the bases the handlers use are those of the descriptors
    [segs]. *)
Record related (c : cregs) (segs : Z -> segment) (s : bx_cpu bx_lazyflags_entry (memsys M))
    (s' : bx_cpu flags (refmem M)) : Prop := {
  rl_ok : cpu_ok s;
  rl_regs : gen_reg s' = gen_reg s;
  rl_bases : forall j, seg_base s j = base (segs j);
  rl_same_bases : seg_base s' = seg_base s;
  rl_flags : oszapc s' = lazy_flags (oszapc s);
  rl_mem : mrel c segs (vmem s) (vmem s');
}.

Definition related_outcome c segs (o : outcome (bx_cpu bx_lazyflags_entry (memsys M)) unit)
    (o' : outcome (bx_cpu flags (refmem M)) unit) : Prop :=
  match o, o' with
  | Ok _ t, Ok _ t' => related c segs t t'
  | Fault e t, Fault e' t' => e' = e /\ related c segs t t'
  | _, _ => False
  end.

Lemma machine_msim c segs x i g b f (m : memsys M) (r : refmem M) : mrel c segs m r ->
  mode_ok c (size_of x) i -> user_paged c (CPL c) ->
  msim b (mpost c segs) (machine_spec x i (Cpu g b f m)) (machine_spec x i (Cpu g b f r)).
Proof.
  intros Rl L Hu. destruct x as [sz ins|sz op mem|sz ins|sz ins]; cbn [machine_spec size_of] in *.
  - now apply alu_msim.
  - now apply shift_msim.
  - now apply bit_msim.
  - now apply mul_msim.
Qed.

(** A state that agrees, with settled translations. *)
Lemma settle_related c segs (t : bx_cpu bx_lazyflags_entry (memsys M)) (t' : bx_cpu flags (refmem M)) :
  cpu_ok t -> gen_reg t' = gen_reg t -> (forall j, seg_base t j = base (segs j)) ->
  seg_base t' = seg_base t -> oszapc t' = lazy_flags (oszapc t) -> mpost c segs (vmem t) (vmem t') ->
  tables_rule c Keep (fst (rm_walked (vmem t'))) (fst (rm_state (vmem t'))) ->
  related c segs t (settle t').
Proof.
  intros H1 H2 H3 H4 H5 H6 T. split; try assumption. apply mpost_rel; [exact H6|].
  now rewrite (mp_control _ _ _ _ H6).
Qed.

(** One instruction. *)
Lemma step_related c segs x h i s s' : related c segs s s' -> machine_handler x = Some h ->
  instr_ok i -> mode_ok c (size_of x) i -> user_paged c (CPL c) ->
  (let r := vmem (last_state (machine_spec x i s')) in
   tables_rule c Keep (fst (rm_walked r)) (fst (rm_state r))) ->
  related_outcome c segs (h i s) (spec_step x i s').
Proof.
  intros [Hok Eg Eb Eb' Ef Rl] Hh Hi L Hu Tr.
  pose proof (machine_handler_refines x h i s Hh Hi Hok) as O.
  pose proof (machine_msim c segs x i (gen_reg s) (seg_base s) (lazy_flags (oszapc s)) _ _ Rl L Hu) as S.
  destruct s' as [g' b' f' r]. cbn [gen_reg seg_base oszapc vmem] in *. subst g' b' f'.
  unfold abs in O. unfold spec_step, osim, msim, related_outcome in *.
  destruct (machine_spec x i (Cpu _ _ _ r)) as [u t'|e' t']; cbn [last_state] in Tr;
    destruct (h i s) as [u1 t|e t]; destruct O as [O Hok']; rewrite O in S; try contradiction;
    cbn [abs gen_reg seg_base oszapc vmem] in S.
  - destruct S as (S1 & S2 & S3 & S4 & S5). apply settle_related; try assumption; try congruence.
  - destruct S as (S0 & S1 & S2 & S3 & S4 & S5). split; [exact S0|].
    apply settle_related; try assumption; congruence.
Qed.

(** C1: A program of arithmetic, logic, shift, bit and multiply instructions, run by
    the handlers with lazy flags on memory behind segment caches, TLBs and host
    pointers, gives the registers, the six flags, the memory, CR2 and the
    exception of the specifications on memory reached by checking descriptors
    and walking page tables. *)
Theorem programs_refine c segs prog s s' : related c segs s s' -> user_paged c (CPL c) ->
  prog_ok c prog s' -> related_outcome c segs (run_handlers prog s) (run_specs prog s').
Proof.
  intros Rl Hu. revert s s' Rl. induction prog as [|[x i] prog IH]; intros s s' Rl P; [exact Rl|].
  cbn [prog_ok run_handlers run_specs] in *. destruct P as (Hh & Hi & L & Tr & P).
  destruct (machine_handler x) as [h|] eqn:E; [|contradiction].
  pose proof (step_related c segs x h i s s' Rl E Hi L Hu Tr) as S.
  unfold bind. unfold related_outcome in S. destruct (h i s) as [u t|e t], (spec_step x i s') as [u' t'|e' t'];
    try contradiction; [now apply IH|exact S].
Qed.

End Runs.

(** ** A concrete program *)

Definition machine_regs (r : Z) : Z := if r =? 0 then 7 else if r =? 3 then 0x2b else 0.

Definition machine_start : bx_cpu bx_lazyflags_entry (memsys ram) :=
  Cpu machine_regs (fun j => base (segment_sregs j)) (LazyFlags 1 0) segment_sys.

Definition machine_ref : bx_cpu flags (refmem ram) :=
  Cpu machine_regs (fun j => base (segment_sregs j)) (lazy_flags (LazyFlags 1 0))
    (RefMem segment_regs segment_sregs (state_of segment_sys) (state_of segment_sys) []).

(** [DS:off], 32-bit addressing. *)
Definition at_ds (dst src imm off : Z) : bxInstruction_c := Instr 0 1 dst src 0 3 19 4 0 imm off.

(** ADD and SHL of a doubleword across two pages, BTS with the bit string index in
    EBX, ADC from memory, MUL, a shift by 0 that writes nothing, and INC beyond
    the limit of DS. *)
Definition machine_program : program :=
  [(Integer S32 (Binary ADD MemReg), at_ds 0 3 0 0xffe); (Shift S32 SHL true, at_ds 0 0 4 0xffe);
   (Bits S32 (BitTest BTS MemReg), at_ds 0 3 0 0xffa); (Integer S32 (Binary ADC RegMem), at_ds 0 0 0 0xffe);
   (Multiply S32 MUL, at_ds 0 3 0 0); (Shift S8 ROL true, at_ds 0 0 0x20 0xffe);
   (Integer S16 (Unary INC true), at_ds 0 0 0 0x2000)].

Fixpoint stores_hold (prog : program) (s : bx_cpu flags (refmem ram)) : bool :=
  match prog with
  | [] => true
  | (x, i) :: prog' =>
    let r := vmem (last_state (machine_spec x i s)) in
    rule_holds segment_regs Keep (fst (rm_walked r)) (fst (rm_state r))
    && match spec_step x i s with Ok _ s' => stores_hold prog' s' | Fault _ _ => true end
  end.

Lemma stores_hold_ok prog :
  (forall x i, In (x, i) prog -> machine_handler (M := memsys ram) x <> None
     /\ instr_ok i /\ mode_ok segment_regs (size_of x) i) ->
  forall s, stores_hold prog s = true -> prog_ok segment_regs prog s.
Proof.
  induction prog as [|[x i] prog IH]; intros W s E; [exact I|].
  cbn [stores_hold prog_ok] in *. apply andb_true_iff in E. destruct E as [E1 E2].
  destruct (W x i (or_introl eq_refl)) as (W1 & W2 & W3). repeat (split; [assumption|]).
  split; [now apply rule_holds_ok|].
  destruct (spec_step x i s) as [u s'|e s']; [|exact I]. apply IH; [|exact E2].
  intros y j Hi. apply W. now right.
Qed.

Lemma machine_related : related segment_regs segment_sregs machine_start machine_ref.
Proof.
  split; try reflexivity.
  - split; [|vm_compute; intuition congruence]. intros r. cbn. unfold machine_regs, fits.
    destruct (r =? 0); [|destruct (r =? 3)]; lia.
  - split; try reflexivity; [exact segment_sys_ok|]. intros j.
    cbn. unfold segment_sregs. destruct (j =? 2); [|destruct (j =? 3); [|destruct (j =? 4)]]; reflexivity.
Qed.

Lemma machine_program_ok : prog_ok segment_regs machine_program machine_ref.
Proof.
  apply stores_hold_ok.
  - intros x i H. cbn in H.
    repeat (destruct H as [[= <- <-]|H]; [split; [discriminate|split;
      [unfold instr_ok, fits; cbn; lia|split; [discriminate|intros N; now elim N]]]|]). contradiction.
  - vm_compute. reflexivity.
Qed.

Lemma programs_refine_witness :
  match run_handlers machine_program machine_start with
  | Fault e s => e = Exn 13 0 /\ map (gen_reg s) [0; 2; 3] = [0xab7 * 0x2b; 0; 0x2b]
  | Ok _ _ => False
  end
  /\ related_outcome segment_regs segment_sregs (run_handlers machine_program machine_start)
       (run_specs machine_program machine_ref).
Proof.
  split; [vm_compute; split; reflexivity|].
  apply programs_refine; [exact machine_related|now intros _|exact machine_program_ok].
Defined.
