(* ===== verification/Memory.v ===== *)
(** * Guest physical memory (memory/memory.cc, memory/misc_mem.cc)

    RAM, the BIOS and expansion ROMs with their shadow areas and flash chip,
    SMRAM, device memory behind handlers, and the monitored cache lines
    (cpu/mwait.cc).  The stamps that guard decoded code are left out, as the cache
    of decoded code is.

    One host array holds RAM, ROM and the bogus page, as [init_memory] lays them
    out.  Guest RAM is in blocks, whose places are in the table [blocks]: here the
    table as it will be once every block has been used.  Blocks models how the
    code fills it in and shows that it can be taken as given.  The device state
    behind the handlers is [D]. *)

From Stdlib Require Import ZArith Lia List Bool.
From S2P Require Import Prelude Cpu Tlb Paging.
Import ListNotations.
Open Scope Z_scope.

Definition BIOSROMSZ := 0x200000.
Definition EXROMSIZE := 0x20000.
Definition BX_MEM_BLOCK_LEN := 128 * 1024.
Definition BIOS_MASK := BIOSROMSZ - 1.
Definition EXROM_MASK := EXROMSIZE - 1.
Definition BIOS_MAP_LAST128K (addr : Z) : Z := Z.land (Z.lor addr 0xfff00000) BIOS_MASK.
Definition BX_MEM_AREA_E0000 := 8.
Definition BX_MEM_AREA_F0000 := 12.

Definition FLASH_READ_ARRAY := 0xff.
Definition FLASH_INT_ID := 0x90.
Definition FLASH_READ_STATUS := 0x70.
Definition FLASH_CLR_STATUS := 0x50.
Definition FLASH_ERASE_SETUP := 0x20.
Definition FLASH_ERASE_SUSP := 0xb0.
Definition FLASH_PROG_SETUP := 0x40.
Definition FLASH_ERASE := 0xd0.

Definition CACHE_LINE_SIZE := 64.

(** ** State *)

(** Handlers get the address and the bytes; a read handler gives bytes when it
    answers, a write handler tells whether it has taken the write. *)
Record memory_handler_struct (D : Type) := Handler {
  param : Z;
  range_begin : Z;
  range_end : Z;
  bitmap : Z;
  read_handler : Z -> Z -> D -> option (list Z) * D;
  write_handler : option (Z -> list Z -> D -> bool * D);
  da_handler : option (Z -> Z -> D -> Z);
}.
Arguments Handler {D}.
Arguments param {D}.
Arguments range_begin {D}.
Arguments range_end {D}.
Arguments bitmap {D}.
Arguments read_handler {D}.
Arguments write_handler {D}.
Arguments da_handler {D}.

#[export] Instance handler_eta {D} : Eta (memory_handler_struct D) := fun h =>
  Handler (param h) (range_begin h) (range_end h) (bitmap h) (read_handler h) (write_handler h)
    (da_handler h).

(** Each processor's armed line, and whether it waits in MWAIT. *)
Record monitor_addr_t := Monitor { monitor_addr : Z; armed : bool; waiting : bool }.

#[export] Instance monitor_eta : Eta monitor_addr_t := fun m =>
  Monitor (monitor_addr m) (armed m) (waiting m).

Record bx_mem (D : Type) := Mem {
  memory_handlers : Z -> list (memory_handler_struct D);   (* by megabyte *)
  device : D;
  pci_enabled : bool;
  bios_write_enabled : bool;
  smram_available : bool;
  smram_enable : bool;
  smram_restricted : bool;
  mem_len : Z;                          (* len *)
  allocated : Z;
  vector : Z;
  blocks : Z -> Z;
  bytes : Z -> Z;                       (* host memory *)
  memory_type : Z -> bool -> bool;
  bios_rom_addr : Z;
  bios_rom_access : Z;
  flash_type : Z;
  flash_status : Z;
  flash_wsm_state : Z;
  monitors : list monitor_addr_t;
  mem_a20_mask : Z;                     (* bx_pc_system.a20_mask *)
}.
Arguments Mem {D}.
Arguments memory_handlers {D}.
Arguments device {D}.
Arguments pci_enabled {D}.
Arguments bios_write_enabled {D}.
Arguments smram_available {D}.
Arguments smram_enable {D}.
Arguments smram_restricted {D}.
Arguments mem_len {D}.
Arguments allocated {D}.
Arguments vector {D}.
Arguments blocks {D}.
Arguments bytes {D}.
Arguments memory_type {D}.
Arguments bios_rom_addr {D}.
Arguments bios_rom_access {D}.
Arguments flash_type {D}.
Arguments flash_status {D}.
Arguments flash_wsm_state {D}.
Arguments monitors {D}.
Arguments mem_a20_mask {D}.

#[export] Instance bx_mem_eta {D} : Eta (bx_mem D) := fun m =>
  Mem (memory_handlers m) (device m) (pci_enabled m) (bios_write_enabled m) (smram_available m)
    (smram_enable m) (smram_restricted m) (mem_len m) (allocated m) (vector m)
    (blocks m) (bytes m) (memory_type m)
    (bios_rom_addr m) (bios_rom_access m) (flash_type m) (flash_status m) (flash_wsm_state m)
    (monitors m) (mem_a20_mask m).

Section Memory.
Context {D : Type}.
Abbreviation mem := (bx_mem D).
Implicit Types m : mem.

(** ** Places in host memory *)

Definition get_vector m (addr : Z) : Z :=
  blocks m (u32 (addr / BX_MEM_BLOCK_LEN)) + Z.land addr (BX_MEM_BLOCK_LEN - 1).
Definition rom m (i : Z) : Z := vector m + allocated m + i.
Definition bogus m (i : Z) : Z := vector m + allocated m + BIOSROMSZ + EXROMSIZE + i.

Definition load_byte m (host : Z) : Z := u8 (bytes m host).
Definition store_byte (host v : Z) m : mem := m <| bytes := upd (bytes m) host (u8 v) |>.

(** Little endian numbers of [n] bytes, and lists of bytes. *)
Fixpoint load_host (n : nat) (host : Z) m : list Z :=
  match n with O => [] | S n' => load_byte m host :: load_host n' (host + 1) m end.
Fixpoint store_host (host : Z) (data : list Z) m : mem :=
  match data with [] => m | v :: data' => store_host (host + 1) data' (store_byte host v m) end.

Definition A20ADDR m (addr : Z) : Z := Z.land addr (mem_a20_mask m).
Definition bios_address m (a20addr : Z) : bool :=
  (bios_rom_addr m <=? a20addr) && negb (0xffffffff <? a20addr).

(** ** Monitored lines (cpu/mwait.cc) *)

Definition cpu_is_monitor (begin_addr len : Z) (c : monitor_addr_t) : bool :=
  armed c &&
  let monitor_begin := monitor_addr c in
  let monitor_end := monitor_begin + CACHE_LINE_SIZE - 1 in
  negb ((monitor_end <=? begin_addr) || (begin_addr + len <=? monitor_begin)).

Definition wakeup_monitor (c : monitor_addr_t) : monitor_addr_t := c <| waiting := false |> <| armed := false |>.

Definition cpu_check_monitor (begin_addr len : Z) (c : monitor_addr_t) : monitor_addr_t :=
  if cpu_is_monitor begin_addr len c then wakeup_monitor c else c.

Definition is_monitor m (begin_addr len : Z) : bool := existsb (cpu_is_monitor begin_addr len) (monitors m).
Definition check_monitor (begin_addr len : Z) m : mem :=
  m <| monitors := map (cpu_check_monitor begin_addr len) (monitors m) |>.

(** Arms a line, as the MONITOR instruction does at its end. *)
Definition arm_monitor (addr : Z) (c : monitor_addr_t) : monitor_addr_t :=
  c <| monitor_addr := Z.ldiff addr (CACHE_LINE_SIZE - 1) |> <| armed := true |>.

Fixpoint on_monitor (i : nat) (f : monitor_addr_t -> monitor_addr_t) (l : list monitor_addr_t) : list monitor_addr_t :=
  match l, i with
  | [], _ => []
  | c :: l', O => f c :: l'
  | c :: l', S i' => c :: on_monitor i' f l'
  end.

(** The end of MONITOR on processor [i]. *)
Definition arm (i : nat) (addr : Z) m : mem := m <| monitors := on_monitor i (arm_monitor addr) (monitors m) |>.

(** ** The flash chip *)

Definition flash_read (addr : Z) m : Z * mem :=
  if flash_wsm_state m =? FLASH_INT_ID then
    ((if Z.testbit addr 0 then if flash_type m =? 2 then 0x7c else 0x94 else 0x89), m)
  else if flash_wsm_state m =? FLASH_READ_ARRAY then (load_byte m (rom m addr), m)
  else (flash_status m,
        if flash_wsm_state m =? FLASH_ERASE then m <| flash_status := Z.lor (flash_status m) 0x80 |> else m).

Definition fill_rom (addr count : Z) m : mem :=
  store_host (rom m addr) (repeat 0xff (Z.to_nat count)) m.

(** [flash_addr = 0x1c000] assigns, so it holds. *)
Definition flash_write (addr data : Z) m : mem :=
  if flash_wsm_state m =? FLASH_PROG_SETUP then
    store_byte (rom m addr) (Z.land (load_byte m (rom m addr)) data) m
      <| flash_wsm_state := FLASH_READ_STATUS |>
  else if existsb (Z.eqb data) [FLASH_INT_ID; FLASH_READ_ARRAY; FLASH_ERASE_SETUP; FLASH_ERASE_SUSP; FLASH_PROG_SETUP]
  then m <| flash_wsm_state := data |>
  else if data =? FLASH_READ_STATUS then
    if negb (flash_wsm_state m =? FLASH_ERASE) then m <| flash_wsm_state := data |> else m
  else if data =? FLASH_CLR_STATUS then
    m <| flash_status := Z.ldiff (flash_status m) 0x38 |> <| flash_wsm_state := FLASH_READ_ARRAY |>
  else if data =? FLASH_ERASE then
    if flash_wsm_state m =? FLASH_ERASE_SETUP then
      let m := m <| flash_status := Z.ldiff (flash_status m) 0xc0 |> <| flash_wsm_state := FLASH_ERASE |> in
      if flash_type m =? 1 then fill_rom addr 0x1000 m
      else if flash_type m =? 2 then fill_rom addr 0x2000 m
      else m
    else if flash_wsm_state m =? FLASH_ERASE_SUSP then
      m <| flash_status := Z.ldiff (flash_status m) 0x40 |> <| flash_wsm_state := FLASH_ERASE |>
    else m
  else m.

Definition rom_read (addr : Z) m : Z * mem :=
  if 0 <? flash_type m then flash_read addr m else (load_byte m (rom m addr), m).
Definition rom_write (addr v : Z) m : mem :=
  if 0 <? flash_type m then flash_write addr v m else store_byte (rom m addr) v m.

(** ** Physical accesses (memory/memory.cc)

    [cpu] is [None] for DMA, else the processor's [smm_mode()]. *)

Definition vga_hole (a : Z) : bool := (0x000a0000 <=? a) && (a <? 0x000c0000).
Definition plain_ram (a : Z) : bool := (a <? 0x000a0000) || (0x00100000 <=? a).
Definition memory_area (a : Z) : Z := Z.min (Z.land (Z.shiftr a 14) 0x0f) BX_MEM_AREA_F0000.

Definition in_range (h : memory_handler_struct D) (a : Z) : bool :=
  (range_begin h <=? a) && (a <=? range_end h).

(** The processor's accesses go to SMRAM, past the handlers. *)
Definition smram_access m (cpu : option bool) (a20addr : Z) : bool :=
  match cpu with
  | None => false
  | Some smm_mode =>
    vga_hole a20addr && smram_available m && (smram_enable m || (smm_mode && negb (smram_restricted m)))
  end.

Fixpoint run_write_handlers (hs : list (memory_handler_struct D)) (a : Z) (data : list Z) m : bool * mem :=
  match hs with
  | [] => (false, m)
  | h :: hs' =>
    match write_handler h with
    | Some w =>
      if in_range h a then
        let '(ok, d) := w a data (device m) in
        let m := m <| device := d |> in
        if ok : bool then (true, m) else run_write_handlers hs' a data m
      else run_write_handlers hs' a data m
    | None => run_write_handlers hs' a data m
    end
  end.

Fixpoint run_read_handlers (hs : list (memory_handler_struct D)) (a len : Z) m : option (list Z) * mem :=
  match hs with
  | [] => (None, m)
  | h :: hs' =>
    if in_range h a then
      let '(r, d) := read_handler h a len (device m) in
      let m := m <| device := d |> in
      match r with Some data => (Some data, m) | None => run_read_handlers hs' a len m end
    else run_read_handlers hs' a len m
  end.

(** The loop over chunks of 8 bytes and single bytes; [fuel] is the length. *)
Fixpoint write_chunks (fuel : nat) (a20addr : Z) (data : list Z) m : mem :=
  let len := Z.of_nat (length data) in
  match fuel with
  | O => m
  | S fuel' =>
    if Z.land len 7 =? 0 then
      let m := store_host (get_vector m a20addr) (firstn 8 data) m in
      if len - 8 =? 0 then m else write_chunks fuel' (a20addr + 8) (skipn 8 data) m
    else
      let m := store_host (get_vector m a20addr) (firstn 1 data) m in
      if len =? 1 then m else write_chunks fuel' (a20addr + 1) (skipn 1 data) m
  end.

(** The inner loop of the BIOS write, which starts again at the data's first byte. *)
Fixpoint write_rom_bytes (addr_of : Z -> Z) (a20addr : Z) (data : list Z) m : mem :=
  match data with
  | [] => m
  | v :: data' => write_rom_bytes addr_of (a20addr + 1) data' (rom_write (addr_of a20addr) v m)
  end.

(** Addresses A0000 to FFFFF, byte by byte; [all] is the data, [ptr] the loop's
    pointer into it.  A BIOS write sets the pointer back to the start and moves
    address and pointer by the whole length, so that the pointer leaves the data;
    what is read there is unknown, 0 here. *)
Fixpoint write_hole (count : nat) (cpu : option bool) (a20addr : Z) (all : list Z) (ptr : nat) m : mem :=
  match count with
  | O => m
  | S count' =>
    let v := nth ptr all 0 in
    let '(a, p, m) :=
      if a20addr <? 0x000c0000 then
        (a20addr, ptr, match cpu with
                       | Some _ => store_byte (get_vector m a20addr) v m
                       | None => m
                       end)
      else if pci_enabled m && (Z.land a20addr 0xfffc0000 =? 0x000c0000) then
        let area := memory_area a20addr in
        if memory_type m area true then (a20addr, ptr, store_byte (get_vector m a20addr) v m)
        else if (BX_MEM_AREA_E0000 <=? area) && bios_write_enabled m then
          (a20addr + Z.of_nat (length all), length all, write_rom_bytes BIOS_MAP_LAST128K a20addr all m)
        else (a20addr, ptr, m)
      else (a20addr, ptr, m) in
    write_hole count' cpu (a + 1) all (S p) m
  end.

(** A cross page access is a panic, which ends the simulation: nothing is accessed. *)
Definition cross_page (addr len : Z) : bool := negb (Z.shiftr addr 12 =? Z.shiftr (addr + len - 1) 12).

Definition writePhysicalPage (cpu : option bool) (addr : Z) (data : list Z) m : mem :=
  let len := Z.of_nat (length data) in
  let a20addr := A20ADDR m addr in
  if cross_page addr len then m else
  let m := check_monitor a20addr len m in
  let is_bios := bios_address m a20addr in
  let '(taken, m) :=
    if smram_access m cpu a20addr then (false, m)
    else run_write_handlers (memory_handlers m (Z.shiftr a20addr 20)) a20addr data m in
  if taken : bool then m
  else if (a20addr <? mem_len m) && negb is_bios then
    if plain_ram a20addr then
      if existsb (Z.eqb len) [1; 2; 4; 8]
      then store_host (get_vector m a20addr) data m
      else write_chunks (length data) a20addr data m
    else write_hole (length data) cpu a20addr data 0 m
  else if bios_write_enabled m && is_bios then write_rom_bytes (fun a => Z.land a BIOS_MASK) a20addr data m
  else m.

(** One byte of A0000 to FFFFF; [None] leaves the caller's buffer as it is. *)
Definition read_hole_byte (cpu : option bool) (a20addr : Z) m : option Z * mem :=
  if a20addr <? 0x000c0000 then
    (match cpu with Some _ => Some (load_byte m (get_vector m a20addr)) | None => None end, m)
  else if pci_enabled m && (Z.land a20addr 0xfffc0000 =? 0x000c0000) then
    if negb (memory_type m (memory_area a20addr) false) then
      if Z.land a20addr 0xfffe0000 =? 0x000e0000 then
        let '(v, m) := rom_read (BIOS_MAP_LAST128K a20addr) m in (Some v, m)
      else (Some (load_byte m (rom m (Z.land a20addr EXROM_MASK + BIOSROMSZ))), m)
    else (Some (load_byte m (get_vector m a20addr)), m)
  else if negb (Z.land a20addr 0xfffc0000 =? 0x000c0000) then (Some (load_byte m (get_vector m a20addr)), m)
  else if Z.land a20addr 0xfffe0000 =? 0x000e0000 then
    (Some (load_byte m (rom m (BIOS_MAP_LAST128K a20addr))), m)
  else (Some (load_byte m (rom m (Z.land a20addr EXROM_MASK + BIOSROMSZ))), m).

(** [old] is the caller's buffer. *)
Fixpoint read_hole (cpu : option bool) (a20addr : Z) (old : list Z) m : list Z * mem :=
  match old with
  | [] => ([], m)
  | o :: old' =>
    let '(v, m) := read_hole_byte cpu a20addr m in
    let '(vs, m) := read_hole cpu (a20addr + 1) old' m in
    (match v with Some v => v | None => o end :: vs, m)
  end.

Fixpoint read_chunks (fuel : nat) (a20addr : Z) (len : nat) m : list Z :=
  match fuel with
  | O => []
  | S fuel' =>
    if Z.land (Z.of_nat len) 7 =? 0 then
      load_host 8 (get_vector m a20addr) m
      ++ (if (len - 8 =? 0)%nat then [] else read_chunks fuel' (a20addr + 8) (len - 8) m)
    else
      load_host 1 (get_vector m a20addr) m
      ++ (if (len =? 1)%nat then [] else read_chunks fuel' (a20addr + 1) (len - 1) m)
  end.

Fixpoint read_rom_bytes (count : nat) (a20addr : Z) m : list Z * mem :=
  match count with
  | O => ([], m)
  | S count' =>
    let '(v, m) := rom_read (Z.land a20addr BIOS_MASK) m in
    let '(vs, m) := read_rom_bytes count' (a20addr + 1) m in (v :: vs, m)
  end.

Definition readPhysicalPage (cpu : option bool) (addr : Z) (old : list Z) m : list Z * mem :=
  let len := Z.of_nat (length old) in
  let a20addr := A20ADDR m addr in
  let is_bios := bios_address m a20addr in
  if cross_page addr len then (old, m) else
  let '(answer, m) :=
    if smram_access m cpu a20addr then (None, m)
    else run_read_handlers (memory_handlers m (Z.shiftr a20addr 20)) a20addr len m in
  match answer with
  | Some data => (data, m)
  | None =>
    if (a20addr <? mem_len m) && negb is_bios then
      if plain_ram a20addr then
        if existsb (Z.eqb len) [1; 2; 4; 8]
        then (load_host (length old) (get_vector m a20addr) m, m)
        else (read_chunks (length old) a20addr (length old) m, m)
      else read_hole cpu a20addr old m
    else if 0xffffffff <? a20addr then (repeat 0xff (length old), m)
    else if is_bios then read_rom_bytes (length old) a20addr m
    else (repeat 0xff (length old), m)
  end.

(** ** Host pointers (misc_mem.cc)

    0 is NULL: no direct access. *)

Fixpoint first_handler (hs : list (memory_handler_struct D)) (a : Z) : option (memory_handler_struct D) :=
  match hs with
  | [] => None
  | h :: hs' => if in_range h a then Some h else first_handler hs' a
  end.

Definition host_for_read m (a20addr : Z) (is_bios : bool) : Z :=
  if vga_hole a20addr then 0
  else if pci_enabled m && ((0x000c0000 <=? a20addr) && (a20addr <? 0x00100000)) then
    if negb (memory_type m (memory_area a20addr) false) then
      if Z.land a20addr 0xfffe0000 =? 0x000e0000 then rom m (BIOS_MAP_LAST128K a20addr)
      else rom m (Z.land a20addr EXROM_MASK + BIOSROMSZ)
    else get_vector m a20addr
  else if (a20addr <? mem_len m) && negb is_bios then
    if (a20addr <? 0x000c0000) || (0x00100000 <=? a20addr) then get_vector m a20addr
    else if Z.land a20addr 0xfffe0000 =? 0x000e0000 then rom m (BIOS_MAP_LAST128K a20addr)
    else rom m (Z.land a20addr EXROM_MASK + BIOSROMSZ)
  else if 0xffffffff <? a20addr then bogus m (Z.land a20addr 0xfff)
  else if is_bios then rom m (Z.land a20addr BIOS_MASK)
  else bogus m (Z.land a20addr 0xfff).

Definition host_for_write m (a20addr : Z) (is_bios : bool) : Z :=
  if (mem_len m <=? a20addr) || is_bios then 0
  else if vga_hole a20addr then 0
  else if pci_enabled m && ((0x000c0000 <=? a20addr) && (a20addr <? 0x00100000)) then 0
  else if (a20addr <? 0x000c0000) || (0x00100000 <=? a20addr) then get_vector m a20addr
  else 0.

Definition getHostMemAddr (cpu : option bool) (addr rw : Z) m : Z :=
  let a20addr := A20ADDR m addr in
  let is_bios := bios_address m a20addr in
  let write := Z.testbit rw 0 in
  let smram_code :=
    match cpu with
    | Some smm_mode =>
      (rw =? BX_EXECUTE) && vga_hole a20addr && smram_available m && (smram_enable m || smm_mode)
    | None => false
    end in
  if smram_code then get_vector m a20addr
  else if write && is_monitor m (Z.ldiff a20addr 0xfff) 0xfff then 0
  else
    match first_handler (memory_handlers m (Z.shiftr a20addr 20)) a20addr with
    | Some h => match da_handler h with Some da => da a20addr rw (device m) | None => 0 end
    | None => if negb write then host_for_read m a20addr is_bios else host_for_write m a20addr is_bios
    end.

(** ** DMA *)

Fixpoint dma_read_bytes (addr : Z) (old : list Z) m : list Z * mem :=
  match old with
  | [] => ([], m)
  | o :: old' =>
    let '(v, m) := readPhysicalPage None addr [o] m in
    let '(vs, m) := dma_read_bytes (addr + 1) old' m in (v ++ vs, m)
  end.

Definition dmaReadPhysicalPage (addr : Z) (old : list Z) m : list Z * mem :=
  let memptr := getHostMemAddr None addr BX_READ m in
  if cross_page addr (Z.of_nat (length old)) then (old, m)
  else if negb (memptr =? 0) then (load_host (length old) memptr m, m) else dma_read_bytes addr old m.

Fixpoint dma_write_bytes (addr : Z) (data : list Z) m : mem :=
  match data with
  | [] => m
  | v :: data' => dma_write_bytes (addr + 1) data' (writePhysicalPage None addr [v] m)
  end.

Definition dmaWritePhysicalPage (addr : Z) (data : list Z) m : mem :=
  let memptr := getHostMemAddr None addr BX_WRITE m in
  if cross_page addr (Z.of_nat (length data)) then m
  else if negb (memptr =? 0) then store_host memptr data m
  else dma_write_bytes addr data m.

(** ** Device memory *)

(** [page_idx] is 32 bits wide, and so is [page_idx << 20]. *)
Definition handler_bitmap (begin_addr end_addr page_idx : Z) : Z :=
  let bitmap := 0xffff in
  let bitmap :=
    if u32 (Z.shiftl page_idx 20) <? begin_addr
    then u16 (Z.land bitmap (Z.shiftl 0xffff (Z.land (Z.shiftr begin_addr 16) 0xf))) else bitmap in
  if end_addr <? u32 (Z.shiftl (page_idx + 1) 20)
  then Z.land bitmap (Z.shiftr 0xffff (0x0f - Z.land (Z.shiftr end_addr 16) 0xf)) else bitmap.

Definition set_handlers (page_idx : Z) (hs : list (memory_handler_struct D)) m : mem :=
  m <| memory_handlers := fun k => if k =? page_idx then hs else memory_handlers m k |>.

(** The pages from [page_idx] on; [fuel] is their number.  A page that overlaps
    ends the registration and leaves the pages before it registered. *)
Fixpoint register_pages (fuel : nat) (h : memory_handler_struct D) (page_idx : Z) m : bool * mem :=
  match fuel with
  | O => (true, m)
  | S fuel' =>
    let bm := handler_bitmap (range_begin h) (range_end h) page_idx in
    let hs := memory_handlers m page_idx in
    let overlap := match hs with [] => false | f :: _ => negb (Z.land bm (bitmap f) =? 0) end in
    if overlap then (false, m)
    else
      let bm := match hs with [] => bm | f :: _ => Z.lor bm (bitmap f) end in
      register_pages fuel' h (page_idx + 1) (set_handlers page_idx ((h <| bitmap := bm |>) :: hs) m)
  end.

Definition range_pages (begin_addr end_addr : Z) : nat :=
  Z.to_nat (u32 (Z.shiftr end_addr 20) - u32 (Z.shiftr begin_addr 20) + 1).

Definition registerMemoryHandlers (h : memory_handler_struct D) m : bool * mem :=
  if range_end h <? range_begin h then (false, m)
  else register_pages (range_pages (range_begin h) (range_end h)) h (u32 (Z.shiftr (range_begin h) 20)) m.

(** The search stops at a handler that has the parameter, the start or the end; the
    bitmaps of the handlers before it lose [bm].  [None]: not found. *)
Fixpoint remove_handler (p begin_addr end_addr bm : Z) (hs : list (memory_handler_struct D))
    : bool * list (memory_handler_struct D) :=
  match hs with
  | [] => (false, [])
  | h :: hs' =>
    if negb (param h =? p) && negb (range_begin h =? begin_addr) && negb (range_end h =? end_addr) then
      let '(ok, hs1) := remove_handler p begin_addr end_addr bm hs' in
      (ok, h <| bitmap := Z.ldiff (bitmap h) bm |> :: hs1)
    else (true, hs')
  end.

Fixpoint unregister_pages (fuel : nat) (p begin_addr end_addr page_idx : Z) (ret : bool) m : bool * mem :=
  match fuel with
  | O => (ret, m)
  | S fuel' =>
    let bm := handler_bitmap begin_addr end_addr page_idx in
    let '(ok, hs) := remove_handler p begin_addr end_addr bm (memory_handlers m page_idx) in
    unregister_pages fuel' p begin_addr end_addr (page_idx + 1) (ret && ok) (set_handlers page_idx hs m)
  end.

Definition unregisterMemoryHandlers (p begin_addr end_addr : Z) m : bool * mem :=
  unregister_pages (range_pages begin_addr end_addr) p begin_addr end_addr (u32 (Z.shiftr begin_addr 20)) true m.

(** ** Configuration *)

Definition enable_smram (enable restricted : bool) m : mem :=
  m <| smram_available := true |> <| smram_enable := enable |> <| smram_restricted := restricted |>.
Definition disable_smram m : mem :=
  m <| smram_available := false |> <| smram_enable := false |> <| smram_restricted := false |>.
Definition is_smram_accessible m : bool :=
  smram_available m && (smram_enable m || negb (smram_restricted m)).
Definition set_memory_type (area : Z) (rw dram : bool) m : mem :=
  if area <=? BX_MEM_AREA_F0000 then
    m <| memory_type := fun k w => if (k =? area) && Bool.eqb w rw then dram else memory_type m k w |>
  else m.
Definition set_bios_write (enabled : bool) m : mem := m <| bios_write_enabled := enabled |>.
Definition set_bios_rom_access (region : Z) (enabled : bool) m : mem :=
  m <| bios_rom_access :=
      if enabled then Z.lor (bios_rom_access m) region else u8 (Z.ldiff (bios_rom_access m) region) |>.

(** [init_memory]: ROM and bogus page read FF, RAM is what the host allocation [vec]
    holds, its blocks where [table] will put them. *)
Definition init_memory (guest host vec : Z) (table contents : Z -> Z) (pci : bool) (dev : D) (cpus : nat)
    (a20 access : Z) : mem :=
  Mem (fun _ => []) dev pci false false false false guest host vec table
    (fun h => if (vec + host <=? h) && (h <? vec + host + BIOSROMSZ + EXROMSIZE + 4096) then 0xff else contents h)
    (fun _ _ => false) 0xffff0000 access 0 0x80 FLASH_READ_ARRAY
    (repeat (Monitor 0xffffffff false false) cpus) a20.

(** Where [load_ROM] puts a system BIOS of [size] bytes; [None] is its panic. *)
Definition bios_place (size romaddress : Z) : option Z :=
  if 0 <? romaddress then
    if negb (romaddress + size =? 0x100000) && negb (u64 (romaddress + size) =? 0) then None
    else Some (u32 romaddress)
  else Some (u32 (Z.lnot (size - 1))).

End Memory.
