(* ===== verification/MemoryProps.v ===== *)
(** * Physical memory keeps what the processor relies on

    Host pointers agree with physical accesses, page by page, and stay right under
    physical accesses: [bx_mem] implements [PhysicalMemory] and [HostMemory] with
    their laws, for a flash chip in its read mode. *)

From Stdlib Require Import ZArith Lia List Bool.
From S2P Require Import Prelude Cpu Tlb Paging PagingSpec Access AccessSpec AccessRefine Memory.
Import ListNotations.
Open Scope Z_scope.

(** ** Bytes and numbers *)

Fixpoint bytes_of (n : nat) (v : Z) : list Z :=
  match n with O => [] | S n' => u8 v :: bytes_of n' (v / 256) end.
Fixpoint value_of (n : nat) (l : list Z) : Z :=
  match n with O => 0 | S n' => u8 (hd 0 l) + 256 * value_of n' (tl l) end.

Lemma bytes_of_length n : forall v, length (bytes_of n v) = n.
Proof. induction n as [|n IH]; intros v; cbn; auto. Qed.

Lemma value_of_fits n : forall l, fits (8 * Z.of_nat n) (value_of n l).
Proof.
  induction n as [|n IH]; intros l; [unfold fits; cbn; lia|]. cbn [value_of].
  specialize (IH (tl l)). pose proof (wrap_fits 8 (hd 0 l) ltac:(lia)) as H8.
  unfold fits in *. replace (8 * Z.of_nat (S n)) with (8 + 8 * Z.of_nat n) by lia.
  rewrite Z.pow_add_r by lia. change (2 ^ 8) with 256 in *. nia.
Qed.

Section Bytes.
Context {D : Type}.
Implicit Types m : bx_mem D.

Lemma load_host_length n : forall h m, length (load_host n h m) = n.
Proof. induction n as [|n IH]; intros h m; cbn; auto. Qed.

Lemma value_of_load n : forall h m, value_of n (load_host n h m) = flat_load n (bytes m) h.
Proof.
  induction n as [|n IH]; intros h m; [reflexivity|].
  cbn [load_host value_of hd tl flat_load]. unfold load_byte. now rewrite IH, wrap_wrap by lia.
Qed.

Lemma bytes_same m : m <| bytes := bytes m |> = m.
Proof. now destruct m. Qed.

Lemma store_bytes_of n : forall h v m,
  store_host h (bytes_of n v) m = m <| bytes := flat_store n h v (bytes m) |>.
Proof.
  induction n as [|n IH]; intros h v m; [symmetry; apply bytes_same|].
  cbn [bytes_of store_host flat_store]. rewrite IH. unfold store_byte. cbn [set_field bytes].
  now rewrite wrap_wrap by lia.
Qed.

Lemma load_host_app k n : forall h m, load_host (k + n) h m = load_host k h m ++ load_host n (h + Z.of_nat k) m.
Proof.
  induction k as [|k IH]; intros h m; cbn [load_host Nat.add app Z.of_nat].
  - now rewrite Z.add_0_r.
  - rewrite IH. do 3 f_equal. lia.
Qed.

Lemma store_host_app l1 l2 : forall h m, store_host h (l1 ++ l2) m
  = store_host (h + Z.of_nat (length l1)) l2 (store_host h l1 m).
Proof.
  induction l1 as [|v l1 IH]; intros h m; cbn [app store_host length].
  - now rewrite Z.add_0_r.
  - rewrite IH. f_equal. lia.
Qed.

Lemma get_vector_store h l m a : get_vector (store_host h l m) a = get_vector m a.
Proof. revert h m. induction l as [|v l IH]; intros h m; [reflexivity|]. cbn [store_host]. now rewrite IH. Qed.

Lemma block_pos a : 0 <= a mod BX_MEM_BLOCK_LEN < BX_MEM_BLOCK_LEN.
Proof. apply Z.mod_pos_bound. reflexivity. Qed.

(** Places in one block. *)
Lemma block_add a j : 0 <= j -> a mod BX_MEM_BLOCK_LEN + j < BX_MEM_BLOCK_LEN ->
  (a + j) / BX_MEM_BLOCK_LEN = a / BX_MEM_BLOCK_LEN
  /\ (a + j) mod BX_MEM_BLOCK_LEN = a mod BX_MEM_BLOCK_LEN + j.
Proof.
  unfold BX_MEM_BLOCK_LEN. intros Hj H. pose proof (Z.div_mod a (128 * 1024) ltac:(lia)).
  pose proof (Z.mod_pos_bound a (128 * 1024) ltac:(lia)).
  split; symmetry; [apply (Z.div_unique_pos _ _ _ (a mod (128 * 1024) + j))|apply (Z.mod_unique_pos _ _ (a / (128 * 1024)))]; lia.
Qed.

Lemma ram_vector_eq m a :
  get_vector m a = blocks m (u32 (a / BX_MEM_BLOCK_LEN)) + a mod BX_MEM_BLOCK_LEN.
Proof.
  unfold get_vector. f_equal. change (BX_MEM_BLOCK_LEN - 1) with (Z.ones 17).
  change BX_MEM_BLOCK_LEN with (2 ^ 17). now apply Z.land_ones.
Qed.

Lemma get_vector_add m a j : 0 <= j -> a mod BX_MEM_BLOCK_LEN + j < BX_MEM_BLOCK_LEN ->
  get_vector m (a + j) = get_vector m a + j.
Proof. intros Hj H. destruct (block_add a j Hj H) as [E1 E2]. rewrite !ram_vector_eq, E1, E2. lia. Qed.

Lemma low3 n : Z.land n 7 = n mod 8.
Proof. change 7 with (Z.ones 3). now rewrite Z.land_ones by lia. Qed.

(** The loops over chunks are plain copies. *)
Lemma write_chunks_eq fuel : forall a l m, l <> [] -> (length l <= fuel)%nat ->
  a mod BX_MEM_BLOCK_LEN + Z.of_nat (length l) <= BX_MEM_BLOCK_LEN ->
  write_chunks fuel a l m = store_host (get_vector m a) l m.
Proof.
  induction fuel as [|fuel IH]; intros a l m N L R; [destruct l; [contradiction|cbn in L; lia]|].
  cbn [write_chunks]. cbv zeta. rewrite low3.
  assert (Len : (0 < length l)%nat) by (destruct l; [contradiction|cbn; lia]).
  assert (Step : forall k, (0 < k < length l)%nat ->
    write_chunks fuel (a + Z.of_nat k) (skipn k l) (store_host (get_vector m a) (firstn k l) m)
    = store_host (get_vector m a) l m).
  { intros k Hk. rewrite IH.
    - rewrite get_vector_store. rewrite <- (firstn_skipn k l) at 3. rewrite store_host_app.
      rewrite length_firstn, Nat.min_l by lia. f_equal. apply get_vector_add; lia.
    - intros E. apply (f_equal (@length Z)) in E. rewrite length_skipn in E. cbn in E. lia.
    - rewrite length_skipn. lia.
    - rewrite length_skipn. destruct (block_add a (Z.of_nat k) ltac:(lia) ltac:(lia)) as [_ ->]. lia. }
  assert (All : forall k, length l = k -> firstn k l = l) by (intros k <-; apply firstn_all).
  destruct (Z.eqb_spec (Z.of_nat (length l) mod 8) 0) as [E|E].
  - assert (8 <= length l)%nat by (destruct (Z.eq_dec (Z.of_nat (length l) / 8) 0);
      pose proof (Z.div_mod (Z.of_nat (length l)) 8 ltac:(lia)); lia).
    destruct (Z.eqb_spec (Z.of_nat (length l) - 8) 0) as [E8|E8].
    + now rewrite All by lia.
    + apply (Step 8%nat). lia.
  - destruct (Z.eqb_spec (Z.of_nat (length l)) 1) as [E1|E1].
    + now rewrite All by lia.
    + apply (Step 1%nat). lia.
Qed.

Lemma read_chunks_eq fuel : forall a n m, (0 < n)%nat -> (n <= fuel)%nat ->
  a mod BX_MEM_BLOCK_LEN + Z.of_nat n <= BX_MEM_BLOCK_LEN ->
  read_chunks fuel a n m = load_host n (get_vector m a) m.
Proof.
  induction fuel as [|fuel IH]; intros a n m N L R; [lia|]. cbn [read_chunks]. rewrite low3.
  assert (Step : forall k, (0 < k < n)%nat ->
    load_host k (get_vector m a) m ++ read_chunks fuel (a + Z.of_nat k) (n - k) m
    = load_host n (get_vector m a) m).
  { intros k Hk.
    rewrite IH by (try lia; destruct (block_add a (Z.of_nat k) ltac:(lia) ltac:(lia)) as [_ ->]; lia).
    transitivity (load_host (k + (n - k)) (get_vector m a) m); [|f_equal; lia].
    rewrite load_host_app. do 2 f_equal. apply get_vector_add; lia. }
  destruct (Z.eqb_spec (Z.of_nat n mod 8) 0) as [E|E].
  - assert (8 <= n)%nat by (pose proof (Z.div_mod (Z.of_nat n) 8 ltac:(lia)); lia).
    destruct (Nat.eqb_spec (n - 8) 0) as [E8|E8].
    + replace n with 8%nat by lia. apply app_nil_r.
    + apply (Step 8%nat). lia.
  - destruct (Nat.eqb_spec n 1) as [->|E1]; [apply app_nil_r|]. apply (Step 1%nat). lia.
Qed.

End Bytes.

(** ** Pages *)

Definition in_page (q k : Z) : Prop := 0 <= q /\ q mod 4096 = 0 /\ 0 <= k < 4096.

Lemma page_div q k j : in_page q k -> 12 <= j -> (q + k) / 2 ^ j = q / 2 ^ j.
Proof.
  intros (H0 & Hq & Hk) Hj. replace (2 ^ j) with (2 ^ 12 * 2 ^ (j - 12)) by (rewrite <- Z.pow_add_r; [f_equal|..]; lia).
  rewrite <- !Z.div_div by (try apply Z.pow_pos_nonneg; lia). f_equal. change (2 ^ 12) with 4096.
  apply Z.mod_divide in Hq; [|lia]. destruct Hq as [t ->]. rewrite Z.add_comm, Z.div_add, Z.div_mul by lia.
  rewrite Z.div_small by lia. lia.
Qed.

Lemma page_mod q k j : in_page q k -> 12 <= j -> (q + k) mod 2 ^ j = q mod 2 ^ j + k.
Proof.
  intros P Hj. pose proof (page_div q k j P Hj) as E. pose proof (Z.pow_pos_nonneg 2 j ltac:(lia) ltac:(lia)).
  pose proof (Z.div_mod (q + k) (2 ^ j) ltac:(lia)). pose proof (Z.div_mod q (2 ^ j) ltac:(lia)).
  rewrite E in *. lia.
Qed.

Lemma page_land q k j : in_page q k -> 12 <= j -> Z.land (q + k) (2 ^ j - 1) = Z.land q (2 ^ j - 1) + k.
Proof.
  intros P Hj. rewrite Z.sub_1_r, <- Z.ones_equiv, !Z.land_ones by lia. now apply page_mod.
Qed.

(** A bound that is a page boundary holds for the whole page or for no byte of it. *)
Lemma page_bound q k b : in_page q k -> b mod 4096 = 0 ->
  (b <=? q + k) = (b <=? q) /\ (q + k <? b) = (q <? b).
Proof.
  intros (H0 & Hq & Hk) Hb. apply Z.mod_divide in Hq, Hb; try lia. destruct Hq as [x ->], Hb as [y ->].
  destruct (Z.leb_spec (y * 4096) (x * 4096 + k)), (Z.leb_spec (y * 4096) (x * 4096)),
    (Z.ltb_spec (x * 4096 + k) (y * 4096)), (Z.ltb_spec (x * 4096) (y * 4096)); split; try reflexivity; nia.
Qed.

(** A page is inside one block. *)
Lemma page_room q k n : in_page q k -> k + n <= 4096 ->
  (q + k) mod BX_MEM_BLOCK_LEN + n <= BX_MEM_BLOCK_LEN.
Proof.
  intros P Hn. assert (E := page_mod q k 17 P ltac:(lia)). change (2 ^ 17) with BX_MEM_BLOCK_LEN in E.
  rewrite E. destruct P as (H0 & Hq & Hk). unfold BX_MEM_BLOCK_LEN in *.
  apply Z.mod_divide in Hq; [|lia]. destruct Hq as [x ->].
  change (128 * 1024) with (32 * 4096). rewrite Z.mul_mod_distr_r by lia.
  pose proof (Z.mod_pos_bound x 32 ltac:(lia)). lia.
Qed.

Lemma page_vector {D} (m : bx_mem D) q k : in_page q k -> get_vector m (q + k) = get_vector m q + k.
Proof.
  intros P. pose proof P as (H0 & Hq & Hk). apply get_vector_add; [lia|].
  assert (Q : in_page q 0) by (split; [exact H0|split; [exact Hq|lia]]).
  pose proof (page_room q 0 4096 Q ltac:(lia)). rewrite Z.add_0_r in *. lia.
Qed.

Lemma high_mask a j : 0 <= j <= 32 -> fits 32 a -> Z.land a (2 ^ 32 - 2 ^ j) = a / 2 ^ j * 2 ^ j.
Proof.
  intros Hj Ha. replace (2 ^ 32 - 2 ^ j) with (Z.shiftl (Z.ones (32 - j)) j)
    by (rewrite Z.shiftl_mul_pow2, Z.ones_equiv by lia; assert (2 ^ 32 = 2 ^ (32 - j) * 2 ^ j)
        by (rewrite <- Z.pow_add_r by lia; f_equal; lia); lia).
  rewrite <- Z.shiftr_div_pow2, <- Z.shiftl_mul_pow2 by lia.
  apply Z.bits_inj'. intros i Hi. rewrite Z.land_spec, !Z.shiftl_spec by lia.
  destruct (Z.lt_ge_cases i j); [rewrite !(Z.testbit_neg_r _ (i - j)) by lia; apply andb_false_r|].
  rewrite Z.shiftr_spec, Z.testbit_ones_nonneg by lia. replace (i - j + j) with i by lia.
  destruct (Z.ltb_spec (i - j) (32 - j)); [apply andb_true_r|].
  rewrite (fits_testbit 32) by (assumption || lia). reflexivity.
Qed.

(** C0000 to FFFFF. *)
Definition upper_area (a : Z) : Prop := 0xc0000 <= a < 0x100000.

Lemma upper_area_fits a : upper_area a -> fits 32 a.
Proof. unfold upper_area, fits. lia. Qed.

Lemma upper_C a : upper_area a -> (Z.land a 0xfffc0000 =? 0x000c0000) = true.
Proof.
  intros U. change 0xfffc0000 with (2 ^ 32 - 2 ^ 18). rewrite high_mask by (lia || now apply upper_area_fits).
  unfold upper_area in U. assert (a / 2 ^ 18 = 3) as -> by (symmetry; apply (Z.div_unique_pos _ _ _ (a - 0xc0000)); lia).
  reflexivity.
Qed.

Lemma upper_E a : upper_area a -> (Z.land a 0xfffe0000 =? 0x000e0000) = (0xe0000 <=? a).
Proof.
  intros U. change 0xfffe0000 with (2 ^ 32 - 2 ^ 17). rewrite high_mask by (lia || now apply upper_area_fits).
  unfold upper_area in U. destruct (Z.leb_spec 0xe0000 a).
  - assert (a / 2 ^ 17 = 7) as -> by (symmetry; apply (Z.div_unique_pos _ _ _ (a - 0xe0000)); lia). reflexivity.
  - assert (a / 2 ^ 17 = 6) as -> by (symmetry; apply (Z.div_unique_pos _ _ _ (a - 0xc0000)); lia). reflexivity.
Qed.

Lemma BIOS_MAP_eq a : 0 <= a < 0x100000 -> BIOS_MAP_LAST128K a = a + 0x100000.
Proof.
  intros Ha. unfold BIOS_MAP_LAST128K, BIOS_MASK, BIOSROMSZ.
  replace (Z.lor a 0xfff00000) with (a + 0xfff * 2 ^ 20).
  2: { rewrite Z.lor_comm. change 0xfff00000 with (Z.shiftl 0xfff 20). rewrite lor_shiftl_add; [lia|lia|unfold fits; lia]. }
  change (0x200000 - 1) with (Z.ones 21). rewrite Z.land_ones by lia.
  symmetry. apply (Z.mod_unique_pos _ _ 0x7ff); lia.
Qed.

(** ** Well-formed memory *)

Section Wf.
Context {D : Type}.
Implicit Types m : bx_mem D.

(** No flash chip, or one that gives its array and gets no commands. *)
Definition flash_quiet m : Prop :=
  flash_type m = 0 \/ flash_wsm_state m = FLASH_READ_ARRAY /\ bios_write_enabled m = false.

Record mem_wf m : Prop := {
  wf_vector : 0 < vector m /\ vector m mod 4096 = 0;
  wf_len : 0x100000 <= mem_len m /\ mem_len m mod 0x100000 = 0;
  wf_allocated : 0 <= allocated m /\ allocated m mod 0x100000 = 0;
  wf_blocks b : 0 <= b < mem_len m / BX_MEM_BLOCK_LEN ->
    b < 2 ^ 32 /\ blocks m b mod BX_MEM_BLOCK_LEN = vector m mod BX_MEM_BLOCK_LEN
    /\ vector m <= blocks m b /\ blocks m b + BX_MEM_BLOCK_LEN <= vector m + allocated m;
  wf_distinct b b' : 0 <= b < mem_len m / BX_MEM_BLOCK_LEN -> 0 <= b' < mem_len m / BX_MEM_BLOCK_LEN ->
    blocks m b = blocks m b' -> b = b';
  wf_a20 : 0 <= mem_a20_mask m /\ Z.land (mem_a20_mask m) 0xfff = 0xfff;
  wf_bios : bios_rom_addr m mod 4096 = 0 /\ 0x100000 <= bios_rom_addr m;
  wf_flash : flash_quiet m;
  wf_bogus i : 0 <= i < 4096 -> bytes m (bogus m i) = 0xff;
  wf_handlers k h : In h (memory_handlers m k) -> range_begin h mod 4096 = 0 /\ da_handler h = None;
  wf_monitors c : In c (monitors m) -> armed c = true -> monitor_addr c mod 64 = 0;
}.

(** The part of the ROM that an access may change. *)
Definition writable_rom m : Z := if bios_write_enabled m then BIOSROMSZ else 0.

Lemma writable_rom_bound m : 0 <= writable_rom m <= BIOSROMSZ.
Proof. unfold writable_rom, BIOSROMSZ. destruct (bios_write_enabled m); lia. Qed.

(** What an access may change: device state, RAM and the writable ROM, and monitors,
    which it disarms. *)
Record evolves m m' : Prop := {
  ev_fields : m' = m <| device := device m' |> <| bytes := bytes m' |> <| monitors := monitors m' |>;
  ev_above h : vector m + allocated m + writable_rom m <= h -> bytes m' h = bytes m h;
  ev_monitors : Forall2 (fun c c' => c' = c \/ armed c' = false) (monitors m) (monitors m');
}.

Lemma evolves_refl m : evolves m m.
Proof.
  split; [now destruct m|auto|]. induction (monitors m); constructor; auto.
Qed.

Lemma evolves_fields m m' : evolves m m' ->
  vector m' = vector m /\ mem_len m' = mem_len m /\ mem_a20_mask m' = mem_a20_mask m
  /\ bios_rom_addr m' = bios_rom_addr m /\ flash_type m' = flash_type m
  /\ memory_handlers m' = memory_handlers m /\ pci_enabled m' = pci_enabled m
  /\ memory_type m' = memory_type m /\ smram_available m' = smram_available m
  /\ smram_enable m' = smram_enable m /\ smram_restricted m' = smram_restricted m
  /\ bios_write_enabled m' = bios_write_enabled m
  /\ flash_wsm_state m' = flash_wsm_state m /\ allocated m' = allocated m /\ blocks m' = blocks m.
Proof. intros [E _ _]. rewrite E. repeat split. Qed.

Lemma evolves_trans m1 m2 m3 : evolves m1 m2 -> evolves m2 m3 -> evolves m1 m3.
Proof.
  intros [E1 B1 M1] [E2 B2 M2]. split.
  - rewrite E2, E1. now destruct m1.
  - intros h Hh. rewrite B2; [now apply B1|]. rewrite E1. exact Hh.
  - clear - M1 M2. revert M2. generalize (monitors m3). induction M1 as [|a b l l' H F IH]; intros l3 M2;
      inversion M2 as [|? c ? l3' H2 F2]; subst; constructor; [|now apply IH].
    destruct H2 as [->|]; [exact H|now right].
Qed.

Lemma evolves_wf m m' : evolves m m' -> mem_wf m -> mem_wf m'.
Proof.
  intros E [V L Al Bl Di A B F G H N].
  destruct (evolves_fields m m' E) as (E1 & E2 & E3 & E4 & E5 & E6 & _ & _ & _ & _ & _ & E7 & E8 & E9 & E10).
  split; try (unfold flash_quiet; rewrite ?E1, ?E2, ?E3, ?E4, ?E5, ?E6, ?E7, ?E8, ?E9, ?E10; assumption).
  - intros i Hi. unfold bogus. rewrite E1, E9, (ev_above _ _ E) by (pose proof (writable_rom_bound m); unfold EXROMSIZE; lia). now apply G.
  - intros c Hc Ha. pose proof (ev_monitors _ _ E) as M. clear - M N Hc Ha. revert N Hc.
    induction M as [|a b l l' H F IH]; intros N Hc; [contradiction|]. destruct Hc as [->|Hc].
    + destruct H as [->|H]; [apply N; [now left|exact Ha]|congruence].
    + apply IH; [|exact Hc]. intros d Hd. apply N. now right.
Qed.

Lemma block_in_table m a : mem_wf m -> 0 <= a < mem_len m ->
  0 <= a / BX_MEM_BLOCK_LEN < mem_len m / BX_MEM_BLOCK_LEN /\ fits 32 (a / BX_MEM_BLOCK_LEN).
Proof.
  intros W Ha. destruct (wf_len m W) as [_ L]. assert (B : 0 <= a / BX_MEM_BLOCK_LEN < mem_len m / BX_MEM_BLOCK_LEN).
  { unfold BX_MEM_BLOCK_LEN. apply Z.mod_divide in L; [|lia]. destruct L as [y E]. rewrite E in *.
    change 0x100000 with (8 * (128 * 1024)) in *. rewrite Z.mul_assoc, Z.div_mul in * by lia.
    split; [apply Z.div_pos; lia|apply Z.div_lt_upper_bound; lia]. }
  split; [exact B|]. destruct (wf_blocks m W _ B) as (U & _). unfold fits. lia.
Qed.

(** A RAM address is in its block, with room up to the end of the block. *)
Lemma vector_bound m a : mem_wf m -> 0 <= a < mem_len m ->
  vector m <= get_vector m a
  /\ get_vector m a + (BX_MEM_BLOCK_LEN - a mod BX_MEM_BLOCK_LEN) <= vector m + allocated m.
Proof.
  intros W Ha. destruct (block_in_table m a W Ha) as [B F].
  destruct (wf_blocks m W _ B) as (_ & _ & Lo & Hi). rewrite ram_vector_eq, wrap_id by exact F.
  pose proof (block_pos a). lia.
Qed.

Lemma evolves_store m h v : h < vector m + allocated m + writable_rom m -> evolves m (store_byte h v m).
Proof.
  intros Hh. destruct (evolves_refl m). split; [now destruct m| |assumption].
  intros h' Hh'. apply upd_neq. lia.
Qed.

Lemma evolves_device m d : evolves m (m <| device := d |>).
Proof. destruct (evolves_refl m). split; [now destruct m|auto|assumption]. Qed.

Lemma evolves_check_monitor m a len : evolves m (check_monitor a len m).
Proof.
  split; [now destruct m|auto|]. cbn. induction (monitors m) as [|c l IH]; constructor; [|exact IH].
  unfold cpu_check_monitor. destruct (cpu_is_monitor a len c); auto.
Qed.

Lemma evolves_store_host l : forall m h, h + Z.of_nat (length l) <= vector m + allocated m + writable_rom m ->
  evolves m (store_host h l m).
Proof.
  induction l as [|v l IH]; intros m h Hh; [apply evolves_refl|]. cbn [store_host length] in *.
  apply (evolves_trans _ (store_byte h v m)); [apply evolves_store; lia|].
  apply IH. change (writable_rom (store_byte h v m)) with (writable_rom m).
  cbn [store_byte set_field vector allocated]. lia.
Qed.

Lemma evolves_write_handlers hs a data : forall m, evolves m (snd (run_write_handlers hs a data m)).
Proof.
  induction hs as [|h hs IH]; intros m; cbn [run_write_handlers]; [apply evolves_refl|].
  destruct (write_handler h) as [w|]; [|apply IH]. destruct (in_range h a); [|apply IH].
  destruct (w a data (device m)) as [[] d]; [apply evolves_device|].
  exact (evolves_trans _ _ _ (evolves_device m d) (IH _)).
Qed.

Lemma evolves_read_handlers hs a len : forall m, evolves m (snd (run_read_handlers hs a len m)).
Proof.
  induction hs as [|h hs IH]; intros m; cbn [run_read_handlers]; [apply evolves_refl|].
  destruct (in_range h a); [|apply IH].
  destruct (read_handler h a len (device m)) as [[v|] d]; [apply evolves_device|].
  exact (evolves_trans _ _ _ (evolves_device m d) (IH _)).
Qed.

Definition rom_index (f : Z -> Z) : Prop := forall a, 0 <= f a < BIOSROMSZ.

Lemma rom_index_mask : rom_index (fun a => Z.land a BIOS_MASK).
Proof.
  intros a. change BIOS_MASK with (Z.ones 21). rewrite Z.land_ones by lia.
  change BIOSROMSZ with (2 ^ 21). apply Z.mod_pos_bound. lia.
Qed.

Lemma rom_index_map : rom_index BIOS_MAP_LAST128K.
Proof. intros a. apply rom_index_mask. Qed.

Lemma evolves_rom_bytes f data : rom_index f -> forall a m, flash_quiet m ->
  bios_write_enabled m = true -> evolves m (write_rom_bytes f a data m).
Proof.
  intros Hf. induction data as [|v data IH]; intros a m F B; cbn [write_rom_bytes]; [apply evolves_refl|].
  assert (F0 : flash_type m = 0) by (destruct F as [F|[_ F]]; [exact F|congruence]).
  unfold rom_write. rewrite F0, Z.ltb_irrefl. pose proof (Hf a).
  apply (evolves_trans _ (store_byte (rom m (f a)) v m)); [apply evolves_store; unfold rom, writable_rom; rewrite B; lia|].
  now apply IH.
Qed.

Lemma upper_of_mask a : fits 32 a -> Z.land a 0xfffc0000 = 0xc0000 -> a < 0x100000.
Proof.
  intros F E. change 0xfffc0000 with (2 ^ 32 - 2 ^ 18) in E. rewrite high_mask in E by (lia || assumption).
  assert (a / 2 ^ 18 = 3) by (change (2 ^ 18) with 262144 in *; lia).
  pose proof (Z.div_mod a (2 ^ 18) ltac:(lia)). pose proof (Z.mod_pos_bound a (2 ^ 18) ltac:(lia)).
  change (2 ^ 18) with 262144 in *. lia.
Qed.

(** The pointer of the loop may jump by the length of the data in every round. *)
Lemma evolves_write_hole cpu all count : forall a p m, mem_wf m -> 0 <= a ->
  a + Z.of_nat count * (Z.of_nat (length all) + 1) <= 2 ^ 32 ->
  evolves m (write_hole count cpu a all p m).
Proof.
  induction count as [|count IH]; intros a p m W H0 Ha; cbn [write_hole]; [apply evolves_refl|].
  pose proof (wf_len _ W) as [L _]. pose proof (writable_rom_bound m) as Rb.
  assert (Next : forall a' p' m', evolves m m' -> a <= a' <= a + Z.of_nat (length all) ->
    evolves m (write_hole count cpu (a' + 1) all p' m')).
  { intros a' p' m' E H. apply (evolves_trans _ m'); [exact E|].
    apply IH; [now apply (evolves_wf m)|lia|]. rewrite Nat2Z.inj_succ in Ha. nia. }
  destruct (Z.ltb_spec a 0xc0000).
  { destruct cpu; apply Next; try lia; [apply evolves_store|apply evolves_refl].
    destruct (vector_bound m a W ltac:(lia)). pose proof (block_pos a). lia. }
  destruct (pci_enabled m && (Z.land a 0xfffc0000 =? 0xc0000)) eqn:C; [|apply Next; [apply evolves_refl|lia]].
  apply andb_true_iff in C. destruct C as [_ C]. apply Z.eqb_eq in C.
  apply upper_of_mask in C; [|unfold fits; nia].
  destruct (memory_type m (memory_area a) true).
  - apply Next; [|lia]. apply evolves_store. destruct (vector_bound m a W ltac:(lia)).
    pose proof (block_pos a). lia.
  - destruct (_ && bios_write_enabled m) eqn:B; (apply Next; [|lia]); [|apply evolves_refl].
    apply andb_true_iff in B. apply evolves_rom_bytes; [exact rom_index_map|apply W|apply B].
Qed.

(** The address of an access inside one page. *)
Lemma cross_page_false a len : 0 < len -> cross_page a len = false ->
  exists k, a = Z.ldiff a 0xfff + k /\ 0 <= k /\ k + len <= 4096 /\ Z.ldiff a 0xfff mod 4096 = 0.
Proof.
  intros Hl C. unfold cross_page in C. apply negb_false_iff, Z.eqb_eq in C.
  rewrite !Z.shiftr_div_pow2 in C by lia. change (2 ^ 12) with 4096 in C.
  exists (a mod 4096).
  assert (E : Z.ldiff a 0xfff = a / 4096 * 4096).
  { change 0xfff with (Z.ones 12). rewrite Z.ldiff_ones_r, Z.shiftr_div_pow2, Z.shiftl_mul_pow2 by lia. reflexivity. }
  rewrite E, Z.mod_mul by lia. pose proof (Z.div_mod a 4096 ltac:(lia)). pose proof (Z.mod_pos_bound a 4096 ltac:(lia)).
  pose proof (Z.div_mod (a + len - 1) 4096 ltac:(lia)). pose proof (Z.mod_pos_bound (a + len - 1) 4096 ltac:(lia)).
  rewrite <- C in *. lia.
Qed.

Lemma cross_room a n : 0 <= a -> 0 < n -> cross_page a n = false ->
  a mod BX_MEM_BLOCK_LEN + n <= BX_MEM_BLOCK_LEN.
Proof.
  intros H0 Hn C. destruct (cross_page_false a n Hn C) as (k & E & K0 & K1 & Q). rewrite E.
  apply page_room; [|exact K1]. split; [apply Z.ldiff_nonneg; lia|split; [exact Q|lia]].
Qed.

Lemma A20_page m q k : mem_wf m -> q mod 4096 = 0 -> 0 <= k < 4096 ->
  A20ADDR m (q + k) = A20ADDR m q + k /\ in_page (A20ADDR m q) k.
Proof.
  intros W Hq Hk. destruct (wf_a20 _ W) as [A0 A]. unfold A20ADDR.
  assert (Lo : Z.land k 0xfff = k /\ Z.land q 0xfff = 0).
  { change 0xfff with (Z.ones 12). rewrite !Z.land_ones by lia. split; [now apply Z.mod_small|exact Hq]. }
  assert (P : Z.land q (mem_a20_mask m) mod 4096 = 0).
  { change 4096 with (2 ^ 12). rewrite <- Z.land_ones by lia. change (Z.ones 12) with 0xfff.
    rewrite <- Z.land_assoc, (Z.land_comm _ 0xfff), Z.land_assoc, (proj2 Lo). reflexivity. }
  split; [|split; [apply Z.land_nonneg; now right|split; assumption]].
  rewrite <- (lor_page k q), Z.land_lor_distr_l by assumption.
  rewrite <- (proj1 Lo) at 1. rewrite <- Z.land_assoc, (Z.land_comm 0xfff), A, (proj1 Lo).
  now apply lor_page.
Qed.

(** ** A physical access evolves memory *)

Lemma evolves_write cpu a0 data m : mem_wf m -> evolves m (writePhysicalPage cpu a0 data m).
Proof.
  intros W. unfold writePhysicalPage. cbv zeta.
  destruct (cross_page a0 (Z.of_nat (length data))) eqn:C; [apply evolves_refl|].
  set (a := A20ADDR m a0). pose proof (evolves_check_monitor m a (Z.of_nat (length data))) as E1.
  set (m1 := check_monitor a (Z.of_nat (length data)) m) in *.
  destruct (if smram_access m1 cpu a then (false, m1)
            else run_write_handlers (memory_handlers m1 (Z.shiftr a 20)) a data m1) as [taken m2] eqn:E2.
  assert (E : evolves m m2).
  { apply (evolves_trans _ m1); [exact E1|]. destruct (smram_access m1 cpu a).
    - injection E2 as <- <-. apply evolves_refl.
    - pose proof (evolves_write_handlers (memory_handlers m1 (Z.shiftr a 20)) a data m1) as H.
      now rewrite E2 in H. }
  destruct taken; [exact E|]. pose proof (evolves_wf m m2 E W) as W2.
  apply (evolves_trans _ m2); [exact E|]. clear E E1 E2.
  assert (Rom : evolves m2 (if bios_write_enabled m2 && bios_address m1 a
    then write_rom_bytes (fun x => Z.land x BIOS_MASK) a data m2 else m2)).
  { destruct (_ && _) eqn:B; [|apply evolves_refl]. apply andb_true_iff in B.
    apply evolves_rom_bytes; [exact rom_index_mask|apply W2|apply B]. }
  destruct (Z.ltb_spec a (mem_len m2)) as [Lt|Ge]; cbn [andb]; [|exact Rom].
  destruct (bios_address m1 a); cbn [negb andb] in *; [exact Rom|]. clear Rom.
  destruct data as [|v data]; [cbn; destruct (plain_ram a); apply evolves_refl|].
  assert (L1 : 1 <= Z.of_nat (length (v :: data))) by (cbn [length]; lia).
  destruct (cross_page_false a0 (Z.of_nat (length (v :: data))) ltac:(lia) C) as (k & Ea & K0 & K1 & Q).
  destruct (A20_page m (Z.ldiff a0 0xfff) k W Q ltac:(lia)) as [Ek P].
  rewrite <- Ea in Ek. fold a in Ek. set (all := v :: data) in *.
  set (q := A20ADDR m (Z.ldiff a0 0xfff)) in *. clearbody q a. subst a. clear Ea.
  destruct P as (P0 & P1 & P2). pose proof (wf_len _ W2) as [L Lm].
  assert (Fit : q + k + Z.of_nat (length all) <= mem_len m2).
  { apply Z.mod_divide in P1, Lm; try lia. destruct P1 as [x ->], Lm as [y E]. rewrite E in *. nia. }
  destruct (plain_ram (q + k)) eqn:Pl.
  - assert (Room := page_room q k (Z.of_nat (length all)) (conj P0 (conj P1 P2)) K1).
    rewrite write_chunks_eq by (discriminate || lia).
    destruct (vector_bound m2 (q + k) W2 ltac:(lia)). pose proof (writable_rom_bound m2).
    destruct (existsb _ _); apply evolves_store_host; lia.
  - apply evolves_write_hole; [exact W2|lia|].
    unfold plain_ram in Pl. apply orb_false_iff in Pl. destruct Pl as [_ Pl]. apply Z.leb_gt in Pl.
    change (2 ^ 32) with 4294967296. nia.
Qed.

Lemma rom_read_eq i m : flash_quiet m -> rom_read i m = (load_byte m (rom m i), m).
Proof.
  intros [F|[F _]]; unfold rom_read; [now rewrite F|]. destruct (0 <? flash_type m); [|reflexivity].
  unfold flash_read. now rewrite F.
Qed.

Lemma read_hole_byte_same cpu a m : flash_quiet m -> snd (read_hole_byte cpu a m) = m.
Proof.
  intros F. unfold read_hole_byte. rewrite rom_read_eq by exact F.
  repeat match goal with |- context [if ?b then _ else _] => destruct b end; reflexivity.
Qed.

Lemma read_hole_same cpu old : forall a m, flash_quiet m -> snd (read_hole cpu a old m) = m.
Proof.
  induction old as [|o old IH]; intros a m F; [reflexivity|]. cbn [read_hole].
  pose proof (read_hole_byte_same cpu a m F) as E. destruct (read_hole_byte cpu a m) as [v m1].
  cbn [snd] in E. subst m1. specialize (IH (a + 1) m F). now destruct (read_hole cpu (a + 1) old m).
Qed.

Lemma read_rom_bytes_eq n : forall a m, flash_quiet m ->
  read_rom_bytes n a m = (map (fun i => load_byte m (rom m (Z.land (a + Z.of_nat i) BIOS_MASK))) (seq 0 n), m).
Proof.
  induction n as [|n IH]; intros a m F; [reflexivity|]. cbn [read_rom_bytes seq map].
  rewrite rom_read_eq, IH by exact F. rewrite <- seq_shift, map_map. f_equal. f_equal.
  - now rewrite Z.add_0_r.
  - apply map_ext. intros i. do 3 f_equal. lia.
Qed.

Lemma evolves_read cpu a old m : mem_wf m -> evolves m (snd (readPhysicalPage cpu a old m)).
Proof.
  intros W. unfold readPhysicalPage. cbv zeta. destruct (cross_page _ _); [apply evolves_refl|].
  set (x := A20ADDR m a). set (len := Z.of_nat (length old)).
  destruct (if smram_access m cpu x then (None, m)
            else run_read_handlers (memory_handlers m (Z.shiftr x 20)) x len m) as [answer m2] eqn:E2.
  assert (E : evolves m m2).
  { destruct (smram_access m cpu x).
    - injection E2 as <- <-. apply evolves_refl.
    - pose proof (evolves_read_handlers (memory_handlers m (Z.shiftr x 20)) x len m) as H.
      now rewrite E2 in H. }
  destruct answer; [exact E|]. pose proof (evolves_wf m m2 E W) as W2.
  destruct (_ && negb _).
  - destruct (plain_ram x); [destruct (existsb _ _); exact E|]. now rewrite read_hole_same by apply W2.
  - destruct (_ <? x); [exact E|]. destruct (bios_address m x); [|exact E].
    rewrite read_rom_bytes_eq by apply W2. exact E.
Qed.

End Wf.

(** ** Host pointers agree with physical accesses *)

Section Host.
Context {D : Type}.
Implicit Types m : bx_mem D.

(** The host address of the page at [p], as [getHostMemAddr] gives it. *)
Definition host_page m (p : Z) (write : bool) : Z :=
  let q := A20ADDR m p in
  (if write then host_for_write else host_for_read) m q (bios_address m q).

Record direct m (h p : Z) (write : bool) : Prop := {
  di_wf : mem_wf m;
  di_page : 0 <= p /\ p mod 4096 = 0;
  di_handlers : first_handler (memory_handlers m (Z.shiftr (A20ADDR m p) 20)) (A20ADDR m p) = None;
  di_host : h = host_page m p write;
  di_some : h <> 0;
  di_monitor : write = true -> is_monitor m (A20ADDR m p) 0xfff = false;
}.

Lemma first_handler_in hs a (h : memory_handler_struct D) : first_handler hs a = Some h -> In h hs.
Proof.
  induction hs as [|x l IH]; [discriminate|]. cbn [first_handler]. destruct (in_range x a).
  - intros [= <-]. now left.
  - intros F. right. auto.
Qed.

Lemma getHostMemAddr_direct p rw m : mem_wf m -> 0 <= p -> p mod 4096 = 0 -> rw <> BX_EXECUTE ->
  getHostMemAddr (Some false) p rw m <> 0 ->
  direct m (getHostMemAddr (Some false) p rw m) p (Z.testbit rw 0).
Proof.
  intros W H0 Hp Hrw. unfold getHostMemAddr. cbv zeta. rewrite (proj2 (Z.eqb_neq _ _) Hrw). cbn [andb].
  destruct (A20_page m p 0 W Hp ltac:(lia)) as [_ (_ & Hq & _)].
  rewrite (Z.ldiff_ones_r _ 12), Z.shiftr_div_pow2, Z.shiftl_mul_pow2 by lia.
  change (2 ^ 12) with 4096. replace (A20ADDR m p / 4096 * 4096) with (A20ADDR m p)
    by (pose proof (Z.div_mod (A20ADDR m p) 4096 ltac:(lia)); lia).
  destruct (Z.testbit rw 0 && is_monitor _ _ _) eqn:Mo; [congruence|].
  destruct (first_handler _ _) as [h|] eqn:F.
  - rewrite (proj2 (wf_handlers m W _ h (first_handler_in _ _ _ F))). congruence.
  - intros N. destruct (Z.testbit rw 0); cbn [negb andb] in *; split; auto; discriminate.
Qed.

(** ** What is the same for every byte of a page *)

Section Page.
Context m (q k : Z).
Hypothesis W : mem_wf m.
Hypothesis P : in_page q k.

Lemma page_vga : vga_hole (q + k) = vga_hole q.
Proof. unfold vga_hole. destruct (page_bound q k 0xa0000 P eq_refl) as [-> _]. now destruct (page_bound q k 0xc0000 P eq_refl) as [_ ->]. Qed.
Lemma page_plain : plain_ram (q + k) = plain_ram q.
Proof. unfold plain_ram. destruct (page_bound q k 0xa0000 P eq_refl) as [_ ->]. now destruct (page_bound q k 0x100000 P eq_refl) as [-> _]. Qed.
Lemma page_len : (q + k <? mem_len m) = (q <? mem_len m).
Proof.
  apply page_bound; [exact P|]. destruct (wf_len _ W) as [_ L]. apply Z.mod_divide in L; [|lia].
  destruct L as [x ->]. replace (x * 0x100000) with (x * 256 * 4096) by ring. now apply Z.mod_mul.
Qed.
Lemma page_4G : (0xffffffff <? q + k) = (0xffffffff <? q).
Proof.
  assert (E : forall a, (0xffffffff <? a) = (0x100000000 <=? a))
    by (intros a; destruct (Z.ltb_spec 0xffffffff a), (Z.leb_spec 0x100000000 a); lia || reflexivity).
  rewrite !E. apply page_bound; [exact P|reflexivity].
Qed.
Lemma page_bios : bios_address m (q + k) = bios_address m q.
Proof. unfold bios_address. destruct (page_bound q k _ P (proj1 (wf_bios _ W))) as [-> _]. now rewrite page_4G. Qed.
Lemma page_area : memory_area (q + k) = memory_area q.
Proof. unfold memory_area. now rewrite !Z.shiftr_div_pow2, page_div by (assumption || lia). Qed.
Lemma page_megabyte : Z.shiftr (q + k) 20 = Z.shiftr q 20.
Proof. now rewrite !Z.shiftr_div_pow2, page_div by (assumption || lia). Qed.

Lemma no_handler_range hs : (forall h, In h hs -> range_begin h mod 4096 = 0) ->
  first_handler hs q = None -> forall h : memory_handler_struct D, In h hs -> in_range h (q + k) = false.
Proof.
  intros Hb F h Hh. assert (R : in_range h q = false).
  { clear Hb. induction hs as [|x l IH]; [contradiction|]. cbn [first_handler] in F.
    destruct (in_range x q) eqn:E; [discriminate|]. destruct Hh as [->|Hh]; auto. }
  unfold in_range in *. destruct (page_bound q k _ P (Hb h Hh)) as [-> _].
  destruct P as (_ & _ & Hk). destruct (range_begin h <=? q); [|reflexivity]. cbn [andb] in *.
  apply Z.leb_gt in R. apply Z.leb_gt. lia.
Qed.

End Page.

Lemma no_read_handlers hs a len m : (forall h, In h hs -> in_range h a = false) ->
  run_read_handlers hs a len m = (None, m).
Proof.
  induction hs as [|h hs IH]; intros H; [reflexivity|]. cbn [run_read_handlers].
  rewrite H by now left. apply IH. intros x Hx. apply H. now right.
Qed.

Lemma no_write_handlers hs a data m : (forall h, In h hs -> in_range h a = false) ->
  run_write_handlers hs a data m = (false, m).
Proof.
  induction hs as [|h hs IH]; intros H; [reflexivity|]. cbn [run_write_handlers].
  rewrite H by now left. destruct (write_handler h); apply IH; intros x Hx; apply H; now right.
Qed.

Lemma load_host_map n : forall h m, load_host n h m = map (fun i => load_byte m (h + Z.of_nat i)) (seq 0 n).
Proof.
  induction n as [|n IH]; intros h m; [reflexivity|]. cbn [load_host seq map].
  rewrite IH, <- seq_shift, map_map. f_equal; [f_equal; lia|]. apply map_ext. intros i. f_equal. lia.
Qed.

Lemma read_hole_load cpu old : forall a h m,
  (forall i, 0 <= i < Z.of_nat (length old) -> read_hole_byte cpu (a + i) m = (Some (load_byte m (h + i)), m)) ->
  read_hole cpu a old m = (load_host (length old) h m, m).
Proof.
  induction old as [|o old IH]; intros a h m H; [reflexivity|]. cbn [read_hole length load_host] in *.
  pose proof (H 0 ltac:(lia)) as E. rewrite !Z.add_0_r in E. rewrite E. cbv iota beta.
  rewrite (IH (a + 1) (h + 1)); [reflexivity|]. intros i Hi.
  replace (a + 1 + i) with (a + (1 + i)) by lia. rewrite H by lia. do 3 f_equal. lia.
Qed.

Lemma in_page_cross q k n : in_page q k -> 0 < n -> k + n <= 4096 -> cross_page (q + k) n = false.
Proof.
  intros P Hn Hk. unfold cross_page. rewrite !Z.shiftr_div_pow2 by lia.
  destruct P as (P0 & P1 & P2).
  replace (q + k + n - 1) with (q + (k + n - 1)) by lia.
  rewrite !page_div by (lia || (split; [exact P0|split; [exact P1|lia]])). now rewrite Z.eqb_refl.
Qed.

(** Nothing but the page's region matters to a read. *)
Lemma host_write_read m p : mem_wf m -> host_page m p true <> 0 -> host_page m p false = host_page m p true.
Proof.
  intros W. unfold host_page, host_for_write, host_for_read. set (q := A20ADDR m p). cbv zeta.
  destruct (Z.leb_spec (mem_len m) q); cbn [orb]; [congruence|].
  destruct (bios_address m q); [congruence|]. destruct (vga_hole q); [congruence|].
  destruct (pci_enabled m && _) eqn:Pc; [congruence|].
  destruct ((q <? 0xc0000) || (0x100000 <=? q)) eqn:R; [|congruence]. intros _.
  now rewrite (proj2 (Z.ltb_lt _ _)) by assumption.
Qed.

Lemma upper_of_flags a : plain_ram a = false -> vga_hole a = false -> upper_area a.
Proof.
  unfold plain_ram, vga_hole, upper_area. intros Pl V. apply orb_false_iff in Pl. destruct Pl as [A B].
  apply Z.ltb_ge in A. apply Z.leb_gt in B. apply andb_false_iff in V.
  rewrite Z.leb_gt, Z.ltb_ge in V. lia.
Qed.

Lemma plain_not_upper a : plain_ram a = true ->
  (0xc0000 <=? a) && (a <? 0x100000) = false /\ (a <? 0xc0000) || (0x100000 <=? a) = true.
Proof.
  unfold plain_ram. intros Pl. apply orb_true_iff in Pl. rewrite Z.ltb_lt, Z.leb_le in Pl.
  destruct (Z.leb_spec 0xc0000 a), (Z.ltb_spec a 0x100000), (Z.ltb_spec a 0xc0000), (Z.leb_spec 0x100000 a);
    split; try reflexivity; lia.
Qed.

(** The bytes of the shadow and ROM area. *)
Lemma read_upper m q k cpu : mem_wf m -> in_page q k -> upper_area q ->
  bios_address m q = false -> (q <? mem_len m) = true ->
  read_hole_byte cpu (q + k) m = (Some (load_byte m (host_for_read m q (bios_address m q) + k)), m).
Proof.
  intros W P U B L. assert (U' : upper_area (q + k)).
  { unfold upper_area in *. destruct (page_bound q k 0xc0000 P eq_refl) as [E1 _].
    destruct (page_bound q k 0x100000 P eq_refl) as [_ E2].
    rewrite (proj2 (Z.leb_le 0xc0000 q)) in E1 by lia. rewrite (proj2 (Z.ltb_lt q _)) in E2 by lia.
    apply Z.leb_le in E1. apply Z.ltb_lt in E2. lia. }
  unfold read_hole_byte, host_for_read. rewrite B, L, rom_read_eq by apply W.
  replace (vga_hole q) with false by (symmetry; apply andb_false_iff; right; apply Z.ltb_ge; unfold upper_area in U; lia).
  rewrite (proj2 (Z.ltb_ge (q + k) 0xc0000)) by (unfold upper_area in U'; lia).
  rewrite !upper_C, !upper_E, page_area by assumption.
  replace ((0xc0000 <=? q) && (q <? 0x100000)) with true
    by (symmetry; apply andb_true_iff; rewrite Z.leb_le, Z.ltb_lt; exact U).
  replace ((q <? 0xc0000) || (0x100000 <=? q)) with false
    by (symmetry; apply orb_false_iff; rewrite Z.ltb_ge, Z.leb_gt; unfold upper_area in U; lia).
  destruct (page_bound q k 0xe0000 P eq_refl) as [-> _].
  assert (Eb : rom m (BIOS_MAP_LAST128K (q + k)) = rom m (BIOS_MAP_LAST128K q) + k).
  { unfold upper_area in *. unfold rom. rewrite !BIOS_MAP_eq by lia. lia. }
  assert (Ex : rom m (Z.land (q + k) EXROM_MASK + BIOSROMSZ) = rom m (Z.land q EXROM_MASK + BIOSROMSZ) + k).
  { unfold rom. change EXROM_MASK with (2 ^ 17 - 1). rewrite page_land by (assumption || lia). lia. }
  assert (Ev : get_vector m (q + k) = get_vector m q + k) by now apply page_vector.
  rewrite Eb, Ex, Ev. cbn [negb andb].
  destruct (pci_enabled m); cbn [andb]; [destruct (memory_type m (memory_area q) false); cbn [negb]|];
    try destruct (0xe0000 <=? q); reflexivity.
Qed.

Lemma direct_read m h p w k old : direct m h p w -> 0 <= k -> old <> [] -> k + Z.of_nat (length old) <= 4096 ->
  readPhysicalPage (Some false) (p + k) old m = (load_host (length old) (h + k) m, m).
Proof.
  intros [W [P0 P1] F Hh Hn _] Hk Nd Hkn.
  assert (Hn0 : 0 < Z.of_nat (length old)) by (destruct old; [contradiction|cbn; lia]).
  set (n := length old) in *.
  assert (h = host_page m p false) as -> by (destruct w; [rewrite Hh, host_write_read; [reflexivity|assumption|congruence]|exact Hh]).
  clear Hh w. assert (P : in_page p k) by (split; [exact P0|split; [exact P1|lia]]).
  unfold readPhysicalPage. cbv zeta. fold n. rewrite (in_page_cross p k) by (assumption || lia).
  destruct (A20_page m p k W P1 ltac:(lia)) as [-> Q]. unfold host_page in *. set (q := A20ADDR m p) in *. clearbody q.
  cbv zeta in *.
  assert (V : vga_hole q = false) by (unfold host_for_read in Hn; now destruct (vga_hole q)).
  unfold smram_access. rewrite page_vga, V by exact Q. cbn [andb].
  rewrite page_megabyte, no_read_handlers by
    (try exact Q; intros x Hx; refine (no_handler_range q k Q _ (fun y Hy => proj1 (wf_handlers m W _ y Hy)) F x Hx)).
  rewrite page_len, page_bios, page_plain, page_4G by assumption.
  assert (Bogus : load_host n (bogus m (Z.land q 0xfff) + k) m = repeat 0xff n).
  { rewrite load_host_map. clear - W Q Hk Hkn. assert (Z.land q 0xfff = 0) as ->.
    { change 0xfff with (Z.ones 12). rewrite Z.land_ones by lia. apply Q. }
    rewrite <- (length_seq n 0) at 2. rewrite <- (map_const (A := nat)). apply map_ext_in. intros i Hi.
    apply in_seq in Hi. unfold load_byte. replace (bogus m 0 + k + Z.of_nat i) with (bogus m (k + Z.of_nat i))
      by (unfold bogus; lia). now rewrite (wf_bogus m W) by lia. }
  destruct (bios_address m q) eqn:B; [|destruct (q <? mem_len m) eqn:L]; rewrite ?andb_false_r; cbn [andb negb].
  - (* BIOS *)
    assert (0x100000 <= q) by (unfold bios_address in B; apply andb_true_iff in B; destruct B as [B _];
      apply Z.leb_le in B; destruct (wf_bios m W); lia).
    unfold host_for_read. rewrite V. rewrite (proj1 (plain_not_upper q ltac:(unfold plain_ram; apply orb_true_iff; right; now apply Z.leb_le))).
    replace (0xffffffff <? q) with false by (unfold bios_address in B; apply andb_true_iff in B;
      destruct B as [_ B]; now destruct (_ <? q)).
    cbn [negb]. rewrite !andb_false_r. rewrite read_rom_bytes_eq, load_host_map by apply W. f_equal.
    apply map_ext_in. intros i Hi. apply in_seq in Hi. f_equal. unfold rom. change BIOS_MASK with (2 ^ 21 - 1).
    replace (q + k + Z.of_nat i) with (q + (k + Z.of_nat i)) by lia.
    rewrite (page_land q (k + Z.of_nat i) 21) by (lia || (destruct Q as (Q0 & Q1 & _); split; [exact Q0|split; [exact Q1|lia]])).
    lia.
  - destruct (plain_ram q) eqn:Pl.
    + unfold host_for_read. rewrite V, L. destruct (plain_not_upper q Pl) as [-> ->]. rewrite andb_false_r. cbn [andb negb].
      rewrite read_chunks_eq by (try lia; apply page_room; (assumption || lia)).
      assert (Ev : get_vector m (q + k) = get_vector m q + k) by now apply page_vector.
      rewrite Ev. now destruct (existsb _ _).
    + pose proof (upper_of_flags q Pl V) as U.
      rewrite (read_hole_load (Some false) old (q + k) (host_for_read m q false + k) m);
        [reflexivity|]. fold n. intros i Hi. rewrite <- !Z.add_assoc.
      rewrite (read_upper m q (k + i)); try assumption; [now rewrite B|].
      destruct Q as (Q0 & Q1 & _). split; [exact Q0|split; [exact Q1|lia]].
  - assert (Pl : plain_ram q = true).
    { unfold plain_ram. apply orb_true_iff. right. apply Z.leb_le. apply Z.ltb_ge in L. destruct (wf_len m W). lia. }
    unfold host_for_read. rewrite V, L. destruct (plain_not_upper q Pl) as [-> _]. rewrite andb_false_r.
    cbn [andb negb]. destruct (0xffffffff <? q); now rewrite Bogus.
Qed.

(** A page without monitored line: its lines are whole, so no byte of it is watched. *)
Lemma monitor_page m q k n : mem_wf m -> in_page q k -> k + n <= 4096 ->
  is_monitor m q 0xfff = false -> check_monitor (q + k) n m = m.
Proof.
  intros W (Q0 & Q1 & Q2) Hn M. unfold check_monitor.
  assert (E : map (cpu_check_monitor (q + k) n) (monitors m) = monitors m).
  { rewrite <- (map_id (monitors m)) at 2. apply map_ext_in. intros c Hc. unfold cpu_check_monitor.
    assert (Mc : cpu_is_monitor q 0xfff c = false).
    { unfold is_monitor in M. destruct (cpu_is_monitor q 0xfff c) eqn:E; [|reflexivity].
      assert (existsb (cpu_is_monitor q 0xfff) (monitors m) = true) by (apply existsb_exists; eauto). congruence. }
    replace (cpu_is_monitor (q + k) n c) with false; [reflexivity|]. symmetry.
    unfold cpu_is_monitor in *. destruct (armed c) eqn:Ar; [|reflexivity]. cbn [andb] in *. cbv zeta in *.
    pose proof (wf_monitors m W c Hc Ar) as A. unfold CACHE_LINE_SIZE in *.
    apply negb_false_iff, orb_true_iff in Mc. rewrite !Z.leb_le in Mc.
    apply negb_false_iff, orb_true_iff. rewrite !Z.leb_le. destruct Mc as [Mc|Mc]; [left; lia|right].
    apply Z.mod_divide in Q1, A; try lia. destruct Q1 as [x ->], A as [y E]. rewrite E in *. lia. }
  rewrite E. now destruct m.
Qed.

Lemma direct_write m h p k data : direct m h p true -> 0 <= k -> data <> [] ->
  k + Z.of_nat (length data) <= 4096 ->
  writePhysicalPage (Some false) (p + k) data m = store_host (h + k) data m.
Proof.
  intros [W [P0 P1] F Hh Hn Mo] Hk Nd Hkn. specialize (Mo eq_refl).
  assert (Hl : 0 < Z.of_nat (length data)) by (destruct data; [contradiction|cbn; lia]).
  assert (P : in_page p k) by (split; [exact P0|split; [exact P1|lia]]).
  unfold writePhysicalPage. cbv zeta. rewrite (in_page_cross p k) by (assumption || lia).
  rewrite Hh in *. clear Hh. unfold host_page in *. destruct (A20_page m p k W P1 ltac:(lia)) as [-> Q]. cbv zeta in *.
  set (q := A20ADDR m p) in *. clearbody q. rewrite (monitor_page m q k) by assumption.
  unfold host_for_write in *.
  destruct (Z.leb_spec (mem_len m) q) as [L|L]; cbn [orb] in *; [now elim Hn|].
  destruct (bios_address m q) eqn:B; [now elim Hn|]. destruct (vga_hole q) eqn:V; [now elim Hn|].
  destruct (pci_enabled m && _) eqn:Pc; [now elim Hn|].
  destruct ((q <? 0xc0000) || (0x100000 <=? q)) eqn:R; [|now elim Hn].
  assert (Pl : plain_ram q = true).
  { destruct (plain_ram q) eqn:Pl; [reflexivity|]. pose proof (upper_of_flags q Pl V) as U. unfold upper_area in U.
    apply orb_true_iff in R. rewrite Z.ltb_lt, Z.leb_le in R. lia. }
  unfold smram_access. rewrite page_vga, V by exact Q. cbn [andb].
  rewrite page_megabyte, no_write_handlers by
    (try exact Q; intros x Hx; refine (no_handler_range q k Q _ (fun y Hy => proj1 (wf_handlers m W _ y Hy)) F x Hx)).
  rewrite page_len, page_bios, page_plain by assumption. rewrite (proj2 (Z.ltb_lt _ _)), B, Pl by exact L.
  cbn [andb negb]. rewrite write_chunks_eq by (try assumption; try lia; apply page_room; (assumption || lia)).
  assert (Ev : get_vector m (q + k) = get_vector m q + k) by now apply page_vector.
  rewrite Ev. now destruct (existsb _ _).
Qed.

Lemma host_page_evolves m m' p w : evolves m m' -> host_page m' p w = host_page m p w.
Proof.
  intros E. destruct (evolves_fields m m' E) as (E1 & E2 & E3 & E4 & E5 & E6 & E7 & E8 & _ & _ & _ & _ & _ & E9 & E10).
  unfold host_page. destruct w; cbv zeta; unfold A20ADDR, bios_address, host_for_read, host_for_write,
    get_vector, rom, bogus; now rewrite ?E1, ?E2, ?E3, ?E4, ?E7, ?E8, ?E9, ?E10.
Qed.

Lemma is_monitor_evolves m m' a n : evolves m m' -> is_monitor m a n = false -> is_monitor m' a n = false.
Proof.
  intros E. unfold is_monitor. pose proof (ev_monitors _ _ E) as F. clear E.
  induction F as [|c c' l l' H F IH]; [auto|]. cbn [existsb]. intros X. apply orb_false_iff in X.
  destruct X as [X1 X2]. rewrite (IH X2), orb_false_r. destruct H as [->|H]; [exact X1|].
  unfold cpu_is_monitor. now rewrite H.
Qed.

Lemma direct_evolves m m' h p w : evolves m m' -> direct m h p w -> direct m' h p w.
Proof.
  intros E [W P F Hh Hn Mo]. destruct (evolves_fields m m' E) as (_ & _ & E3 & _ & _ & E6 & _).
  split; try assumption.
  - now apply (evolves_wf m).
  - unfold A20ADDR in *. now rewrite E3, E6.
  - now rewrite (host_page_evolves m m').
  - intros Hw. unfold A20ADDR in *. rewrite E3. now apply (is_monitor_evolves m m' _ _ E), Mo.
Qed.

Lemma direct_weaken m h p : direct m h p true -> direct m h p false.
Proof.
  intros [W P F Hh Hn _]. split; try assumption; [|discriminate]. rewrite Hh. symmetry.
  apply host_write_read; [exact W|congruence].
Qed.

End Host.

(** ** The instances

    The processor's accesses outside SMM; a physical read starts from a buffer of
    zeros. *)

#[export] Instance bx_physical {D} : PhysicalMemory (bx_mem D) := {|
  phy_read n a m :=
    let '(l, m') := readPhysicalPage (Some false) a (repeat 0 (Z.to_nat n)) m in (value_of (Z.to_nat n) l, m');
  phy_write n a v m := writePhysicalPage (Some false) a (bytes_of (Z.to_nat n) v) m;
  phy_host p rw m := getHostMemAddr (Some false) p rw m;
|}.

#[export] Instance bx_host {D} : HostMemory (bx_mem D) := {|
  host_read n h m := flat_load (Z.to_nat n) (bytes m) h;
  host_write n h v m := m <| bytes := flat_store (Z.to_nat n) h v (bytes m) |>;
|}.

(** Plain RAM: below the end of RAM, outside the holes, not behind a handler, with
    an address that the A20 gate leaves alone. *)
Definition plain_address {D} (m : bx_mem D) (a : Z) : Prop :=
  mem_wf m /\ 0 <= a /\ A20ADDR m a = a /\ a < mem_len m /\ bios_address m a = false /\ plain_ram a = true
  /\ forall h, In h (memory_handlers m (Z.shiftr a 20)) -> in_range h a = false.

Lemma plain_evolves {D} (m m' : bx_mem D) a : evolves m m' -> plain_address m a -> plain_address m' a.
Proof.
  intros E (W & H0 & A & L & B & P & H). destruct (evolves_fields m m' E) as (_ & E2 & E3 & E4 & _ & E6 & _).
  split; [now apply (evolves_wf m)|]. unfold A20ADDR, bios_address in *.
  rewrite E2, E3, E4, E6. repeat (split; [assumption|]). assumption.
Qed.

Lemma plain_vga a : plain_ram a = true -> vga_hole a = false.
Proof.
  intros P. apply plain_not_upper in P as P2. unfold plain_ram in P. unfold vga_hole.
  apply orb_true_iff in P. rewrite Z.ltb_lt, Z.leb_le in P.
  destruct (Z.leb_spec 0xa0000 a), (Z.ltb_spec a 0xc0000); try reflexivity; lia.
Qed.

Lemma plain_read {D} (m : bx_mem D) a old : plain_address m a -> old <> [] ->
  readPhysicalPage (Some false) a old m
  = (if cross_page a (Z.of_nat (length old)) then old else load_host (length old) (get_vector m a) m, m).
Proof.
  intros (W & H0 & A & L & B & P & H) N. unfold readPhysicalPage. cbv zeta. rewrite A.
  assert (N0 : (0 < length old)%nat) by (destruct old; [contradiction|cbn; lia]).
  destruct (cross_page _ _) eqn:C; [reflexivity|]. unfold smram_access. rewrite (plain_vga a P). cbn [andb].
  rewrite no_read_handlers by exact H. rewrite (proj2 (Z.ltb_lt _ _)), B, P by exact L. cbn [andb negb].
  rewrite read_chunks_eq by (try lia; apply cross_room; (assumption || lia)). now destruct (existsb _ _).
Qed.

Lemma plain_write {D} (m : bx_mem D) a data : plain_address m a -> data <> [] ->
  cross_page a (Z.of_nat (length data)) = false ->
  writePhysicalPage (Some false) a data m
  = store_host (get_vector m a) data (check_monitor a (Z.of_nat (length data)) m).
Proof.
  intros (W & H0 & A & L & B & P & H) N C. unfold writePhysicalPage. cbv zeta. rewrite A, C.
  unfold smram_access. rewrite (plain_vga a P). cbn [andb]. rewrite no_write_handlers by exact H.
  change (mem_len (check_monitor a _ m)) with (mem_len m).
  change (bios_address (check_monitor a _ m) a) with (bios_address m a).
  rewrite (proj2 (Z.ltb_lt _ _)), B, P by exact L. cbn [andb negb].
  assert (N0 : (0 < length data)%nat) by (destruct data; [contradiction|cbn; lia]).
  rewrite write_chunks_eq by (try assumption; try lia; apply cross_room; (assumption || lia)). now destruct (existsb _ _).
Qed.

Lemma aligned_cross a n : n = 4 \/ n = 8 -> a mod n = 0 -> cross_page a n = false.
Proof.
  intros Hn Ha. unfold cross_page. rewrite !Z.shiftr_div_pow2 by lia. change (2 ^ 12) with 4096.
  apply Z.mod_divide in Ha; [|lia]. destruct Ha as [x ->]. apply negb_false_iff, Z.eqb_eq.
  assert (exists k, 4096 = n * k /\ 0 < k) as (k & -> & Hk) by (destruct Hn as [->| ->]; [exists 1024|exists 512]; lia).
  rewrite <- !Z.div_div by lia. f_equal. rewrite Z.div_mul by lia. symmetry.
  symmetry. apply (Z.div_unique_pos _ _ _ (n - 1)); lia.
Qed.

(** Different places in RAM are apart in host memory. *)
Lemma vector_apart {D} (m : bx_mem D) n a b : mem_wf m -> n = 4 \/ n = 8 -> a mod n = 0 -> b mod n = 0 ->
  0 <= a < mem_len m -> 0 <= b < mem_len m -> a <> b ->
  get_vector m a + n <= get_vector m b \/ get_vector m b + n <= get_vector m a.
Proof.
  intros W Hn Aa Ab Ha Hb N. pose proof (block_in_table m a W Ha) as [Ta Ua]. pose proof (block_in_table m b W Hb) as [Tb Ub].
  rewrite !ram_vector_eq, !wrap_id by assumption.
  assert (Ra := cross_room a n ltac:(lia) ltac:(lia) (aligned_cross a n Hn Aa)).
  assert (Rb := cross_room b n ltac:(lia) ltac:(lia) (aligned_cross b n Hn Ab)).
  pose proof (block_pos a). pose proof (block_pos b).
  destruct (Z.eq_dec (a / BX_MEM_BLOCK_LEN) (b / BX_MEM_BLOCK_LEN)) as [E|E].
  - rewrite E. pose proof (Z.div_mod a BX_MEM_BLOCK_LEN ltac:(discriminate)).
    pose proof (Z.div_mod b BX_MEM_BLOCK_LEN ltac:(discriminate)). rewrite E in *.
    apply Z.mod_divide in Aa, Ab; try lia. destruct Aa as [p Ep], Ab as [q Eq].
    assert (p <> q) by congruence. assert (a + n <= b \/ b + n <= a); [|lia].
    rewrite Ep, Eq. destruct (Z.lt_ge_cases p q); [left|right]; nia.
  - assert (Nb : blocks m (a / BX_MEM_BLOCK_LEN) <> blocks m (b / BX_MEM_BLOCK_LEN))
      by (intros X; apply E; now apply (wf_distinct m W)).
    destruct (wf_blocks m W _ Ta) as (_ & Ma & _). destruct (wf_blocks m W _ Tb) as (_ & Mb & _).
    set (x := blocks m (a / BX_MEM_BLOCK_LEN)) in *. set (y := blocks m (b / BX_MEM_BLOCK_LEN)) in *.
    pose proof (Z.div_mod x BX_MEM_BLOCK_LEN ltac:(discriminate)). pose proof (Z.div_mod y BX_MEM_BLOCK_LEN ltac:(discriminate)).
    assert (x / BX_MEM_BLOCK_LEN <> y / BX_MEM_BLOCK_LEN) by (intros X; apply Nb; congruence).
    unfold BX_MEM_BLOCK_LEN in *. lia.
Qed.

Lemma bytes_of_some n v : (0 < n)%nat -> bytes_of n v <> [].
Proof. now destruct n; [lia|]. Qed.

Lemma repeat_some (v : Z) n : (0 < n)%nat -> repeat v n <> [].
Proof. now destruct n; [lia|]. Qed.

#[export] Instance bx_physical_ok {D} : PhysicalMemoryOk (bx_mem D).
Proof.
  refine {| phy_ram := plain_address |}.
  - intros n a m Hn. cbn [phy_read bx_physical]. destruct (readPhysicalPage _ _ _ _) as [l m']. cbn [fst].
    pose proof (value_of_fits (Z.to_nat n) l) as F. now rewrite Z2Nat.id in F.
  - intros n a m R. cbn [phy_read bx_physical]. destruct (Z.to_nat n) as [|k] eqn:E.
    + cbn [repeat]. destruct R as (W & H0 & A & L & B & P & H).
      unfold readPhysicalPage. cbv zeta. rewrite A. destruct (cross_page _ _); [reflexivity|].
      unfold smram_access. rewrite (plain_vga a P). cbn [andb]. rewrite no_read_handlers by exact H.
      rewrite (proj2 (Z.ltb_lt _ _)), B, P by exact L. cbn [andb negb]. now destruct (existsb _ _).
    + rewrite plain_read; [reflexivity|exact R|discriminate].
  - intros n a b v m Hn Ra Rb Aa Ab Hv. cbn [phy_read phy_write bx_physical].
    assert (Hn0 : (0 < Z.to_nat n)%nat) by lia.
    rewrite (plain_write m b) by (try exact Rb; rewrite ?bytes_of_length, ?Z2Nat.id by lia;
      auto using bytes_of_some; now apply aligned_cross).
    rewrite store_bytes_of, bytes_of_length.
    set (m1 := check_monitor b _ m). set (m2 := m1 <| bytes := _ |>).
    assert (E : evolves m m2).
    { apply (evolves_trans _ m1); [apply evolves_check_monitor|]. unfold m2. rewrite <- store_bytes_of.
      pose proof (bytes_of_length (Z.to_nat n) v) as Lb. apply evolves_store_host. rewrite Lb.
      destruct Rb as (W & H0 & _ & L & _). change (vector m1) with (vector m). change (mem_len m1) with (mem_len m).
      pose proof (writable_rom_bound m1). destruct (vector_bound m b W ltac:(lia)).
      pose proof (cross_room b n ltac:(lia) ltac:(lia) (aligned_cross b n Hn Ab)).
      change (allocated m1) with (allocated m). lia. }
    assert (Nr : repeat 0 (Z.to_nat n) <> []) by (destruct (Z.to_nat n); [lia|discriminate]).
    rewrite (plain_read m2 a) by (try exact Nr; now apply (plain_evolves m)).
    rewrite (plain_read m a) by assumption. rewrite repeat_length, Z2Nat.id by lia.
    rewrite aligned_cross by assumption. cbn [fst]. rewrite !value_of_load.
    change (get_vector m2) with (get_vector m).
    change (bytes m2) with (flat_store (Z.to_nat n) (get_vector m b) v (bytes m)).
    destruct (Z.eqb_spec a b) as [->|N].
    + apply flat_load_store. now rewrite Z2Nat.id by lia.
    + destruct Ra as (W & A0 & _ & Al & _), Rb as (_ & B0 & _ & Bl & _).
      pose proof (vector_apart m n a b W Hn Aa Ab ltac:(lia) ltac:(lia) N) as Apart.
      apply flat_load_ext. intros x Hx. rewrite Z2Nat.id in Hx by lia.
      destruct Apart; [apply flat_store_below|apply flat_store_above; rewrite Z2Nat.id]; lia.
  - intros n a b v m Hn Ra Rb Ab. cbn [phy_write bx_physical].
    apply (plain_evolves m); [|exact Ra]. apply evolves_write. apply Ra.
Defined.

(** Multiples of a page. *)
Definition paged (z : Z) : Prop := z mod 4096 = 0 /\ 0 <= z.

Lemma paged_add x y : paged x -> paged y -> paged (x + y).
Proof.
  intros [X X0] [Y Y0]. split; [|lia]. now rewrite Z.add_mod, X, Y by lia.
Qed.

Lemma paged_land x k : paged x -> paged (Z.land x k).
Proof.
  intros [X X0]. split; [|apply Z.land_nonneg; now left].
  change 4096 with (2 ^ 12) in *. rewrite <- Z.land_ones in * by lia.
  now rewrite <- Z.land_assoc, (Z.land_comm k), Z.land_assoc, X.
Qed.

Lemma paged_map x : paged x -> paged (BIOS_MAP_LAST128K x).
Proof.
  intros [X X0]. apply paged_land. split; [|apply Z.lor_nonneg; lia].
  change 4096 with (2 ^ 12) in *. rewrite <- Z.land_ones in * by lia.
  now rewrite Z.land_lor_distr_l, X.
Qed.

Lemma paged_vector {D} (m : bx_mem D) x : mem_wf m -> paged x -> x < mem_len m -> paged (get_vector m x).
Proof.
  intros W [X X0] L. destruct (block_in_table m x W (conj X0 L)) as [T F].
  destruct (wf_blocks m W _ T) as (_ & Mb & Lo & _). destruct (wf_vector m W) as [V0 V].
  assert (S : forall z, z mod 4096 = z mod BX_MEM_BLOCK_LEN mod 4096).
  { intros z. change BX_MEM_BLOCK_LEN with (4096 * 32). rewrite Z.rem_mul_r by lia.
    now rewrite (Z.mul_comm 4096 (z / 4096 mod 32)), Z.mod_add, Z.mod_mod by lia. }
  rewrite ram_vector_eq, wrap_id by exact F. apply paged_add.
  - split; [|lia]. now rewrite S, Mb, <- S.
  - split; [now rewrite <- S|apply block_pos].
Qed.

Lemma paged_rom {D} (m : bx_mem D) x : mem_wf m -> paged x -> paged (rom m x).
Proof.
  intros W X. unfold rom. apply paged_add; [|exact X]. apply paged_add.
  - destruct (wf_vector m W). split; [assumption|lia].
  - destruct (wf_allocated m W) as [H0 H]. split; [|lia]. apply Z.mod_divide in H; [|lia].
    destruct H as [x0 ->]. change 0x100000 with (256 * 4096). rewrite Z.mul_assoc. now apply Z.mod_mul.
Qed.

Lemma paged_bogus {D} (m : bx_mem D) x : mem_wf m -> paged x -> paged (bogus m x).
Proof.
  intros W X. replace (bogus m x) with (rom m (BIOSROMSZ + EXROMSIZE + x)) by (unfold rom, bogus; lia).
  apply paged_rom; [exact W|]. apply paged_add; [split; [reflexivity|discriminate]|exact X].
Qed.

#[local] Hint Resolve paged_land paged_map paged_rom paged_bogus : core.

Lemma host_for_aligned {D} (m : bx_mem D) q b : mem_wf m -> paged q ->
  paged (host_for_read m q b) /\ paged (host_for_write m q b).
Proof.
  intros W Q. assert (Z0 : paged 0) by (split; [reflexivity|lia]). destruct (wf_len m W) as [L _].
  assert (X : paged (Z.land q EXROM_MASK + BIOSROMSZ))
    by (apply paged_add; [auto|split; [reflexivity|discriminate]]).
  unfold host_for_read, host_for_write.
  split; repeat match goal with |- paged (if ?c then _ else _) => destruct c eqn:? end; auto;
    apply paged_vector; try assumption;
    repeat rewrite ?andb_true_iff, ?orb_false_iff, ?Z.ltb_lt, ?Z.leb_gt, ?Z.leb_le in *; lia.
Qed.

Lemma getHostMemAddr_aligned {D} (m : bx_mem D) p rw : mem_wf m -> 0 <= p -> p mod 4096 = 0 ->
  paged (getHostMemAddr (Some false) p rw m).
Proof.
  intros W H0 Hp. destruct (A20_page m p 0 W Hp ltac:(lia)) as [_ (Q0 & Q1 & _)].
  assert (Q : paged (A20ADDR m p)) by (split; assumption). assert (Z0 : paged 0) by (split; [reflexivity|lia]).
  unfold getHostMemAddr. cbv zeta.
  match goal with |- paged (if ?c then _ else _) => destruct c eqn:S end.
  { apply paged_vector; [exact W|exact Q|]. destruct (wf_len m W) as [L _]. unfold vga_hole in S.
    rewrite !andb_true_iff, Z.ltb_lt in S. lia. }
  match goal with |- paged (if ?c then _ else _) => destruct c end; [exact Z0|].
  destruct (first_handler _ _) as [h|] eqn:F.
  - now rewrite (proj2 (wf_handlers m W _ h (first_handler_in _ _ _ F))).
  - destruct (host_for_aligned m (A20ADDR m p) (bios_address m (A20ADDR m p)) W Q).
    now destruct (negb _).
Qed.

#[export] Instance bx_host_ok {D} : HostMemoryOk (bx_mem D).
Proof.
  refine {| host_valid := direct; phy_wf := mem_wf |}.
  - intros p rw m W Hp Ha. cbn [phy_host bx_physical].
    now apply getHostMemAddr_aligned.
  - intros p rw m W Hp Ha Hx N. now apply getHostMemAddr_direct.
  - intros m h p w off n V H0 Hn H. cbn [phy_read bx_physical host_read bx_host].
    rewrite (direct_read m h p w) by (try exact V; rewrite ?repeat_length; lia || (apply repeat_some; lia)).
    rewrite repeat_length. now rewrite value_of_load.
  - intros m h p off n v V H0 Hn H Hv. cbn [phy_write bx_physical host_write bx_host].
    rewrite (direct_write m h p) by (rewrite ?bytes_of_length; auto; try lia; apply bytes_of_some; lia).
    apply store_bytes_of.
  - intros m h. cbn [host_read bx_host].
    change (Z.to_nat 16) with (8 + 8)%nat. change (Z.to_nat 8) with 8%nat.
    rewrite flat_load_app. change (Z.of_nat 8) with 8.
    rewrite lor_shiftl_add; [change (8 * 8) with 64; lia|lia|]. exact (flat_load_fits 8 (bytes m) h).
  - intros n h m Hn. cbn [host_read bx_host]. 
    pose proof (flat_load_fits (Z.to_nat n) (bytes m) h) as F. now rewrite Z2Nat.id in F.
  - intros m h p. apply direct_weaken.
  - intros n a v m h p w W. apply direct_evolves. now apply evolves_write.
  - intros n a m h p w W. apply direct_evolves. cbn [phy_read bx_physical].
    destruct (readPhysicalPage _ _ _ _) as [l m'] eqn:E. pose proof (evolves_read (Some false) a (repeat 0 (Z.to_nat n)) m W) as V.
    rewrite E in V. exact V.
  - intros n a v m W. apply (evolves_wf m); [now apply evolves_write|exact W].
  - intros n a m W. apply (evolves_wf m); [|exact W]. cbn [phy_read bx_physical].
    destruct (readPhysicalPage _ _ _ _) as [l m'] eqn:E. pose proof (evolves_read (Some false) a (repeat 0 (Z.to_nat n)) m W) as V.
    rewrite E in V. exact V.
Defined.
