(* ===== verification/MemoryBus.v ===== *)
(** * Host pointers on the memory bus

    A processor keeps host pointers to pages (in its TLBs) while processors and DMA
    read and write memory, store through the pointers they hold, arm monitors and
    change the mapping.  A pointer that is held reads and writes what a physical
    access does, as long as the mapping of its page stays; ROM changes only when
    BIOS writes are enabled.  Then the ways around this that the code leaves open. *)

From Stdlib Require Import ZArith Lia List Bool.
From S2P Require Import Prelude Cpu Tlb Paging PagingSpec Access AccessSpec AccessRefine Memory MemoryProps.
Import ListNotations.
Open Scope Z_scope.

Section Bus.
Context {D : Type}.
Implicit Types m : bx_mem D.

Record pointer := Pointer { held_page : Z; held_host : Z; held_write : bool }.

(** The pages that a processor may write without a physical access. *)
Definition writes_page m (ps : list pointer) (page : Z) : Prop :=
  exists p, In p ps /\ held_write p = true /\ Z.ldiff (A20ADDR m (held_page p)) 0xfff = page.

(** What happens on the bus.  The functions that change the mapping, and MONITOR,
    do not touch the pointers that are held: [Drop] is what a TLB flush or an
    eviction does to them, whenever a processor does it. *)
Inductive bus_event :=
| Acquire (p rw : Z)
| Drop (ps : list pointer)
| Read (cpu : option bool) (a : Z) (old : list Z)
| Write (cpu : option bool) (a : Z) (data : list Z)
| DmaRead (a : Z) (old : list Z)
| DmaWrite (a : Z) (data : list Z)
| Store (p : pointer) (off : Z) (data : list Z)
| MonitorLine (i : nat) (a : Z)
| EnableSmram (enable restricted : bool)
| DisableSmram
| SetMemoryType (area : Z) (rw dram : bool)
| Register (h : memory_handler_struct D)
| Unregister (p begin_addr end_addr : Z).

(** Processors take pointers to whole pages, not for fetching from SMRAM; they store
    through the pointers they hold, inside the page; the ranges of devices begin
    at a page, and have no direct access handler. *)
Inductive bus_step : bus_event -> list pointer * bx_mem D -> list pointer * bx_mem D -> Prop :=
| bus_acquire ps m p rw : 0 <= p -> p mod 4096 = 0 -> rw <> BX_EXECUTE ->
    getHostMemAddr (Some false) p rw m <> 0 ->
    bus_step (Acquire p rw) (ps, m) (Pointer p (getHostMemAddr (Some false) p rw m) (Z.testbit rw 0) :: ps, m)
| bus_drop ps ps' m : incl ps' ps -> bus_step (Drop ps') (ps, m) (ps', m)
| bus_read ps m cpu a old : bus_step (Read cpu a old) (ps, m) (ps, snd (readPhysicalPage cpu a old m))
| bus_write ps m cpu a data : bus_step (Write cpu a data) (ps, m) (ps, writePhysicalPage cpu a data m)
| bus_dma_read ps m a old : bus_step (DmaRead a old) (ps, m) (ps, snd (dmaReadPhysicalPage a old m))
| bus_dma_write ps m a data : bus_step (DmaWrite a data) (ps, m) (ps, dmaWritePhysicalPage a data m)
| bus_store ps m p off data : In p ps -> held_write p = true -> 0 <= off ->
    off + Z.of_nat (length data) <= 4096 ->
    bus_step (Store p off data) (ps, m) (ps, store_host (held_host p + off) data m)
| bus_monitor ps m i a : 0 <= a -> bus_step (MonitorLine i a) (ps, m) (ps, arm i a m)
| bus_smram ps m enable restricted : bus_step (EnableSmram enable restricted) (ps, m) (ps, enable_smram enable restricted m)
| bus_no_smram ps m : bus_step DisableSmram (ps, m) (ps, disable_smram m)
| bus_memory_type ps m area rw dram : bus_step (SetMemoryType area rw dram) (ps, m) (ps, set_memory_type area rw dram m)
| bus_register ps m h : range_begin h mod 4096 = 0 -> da_handler h = None ->
    bus_step (Register h) (ps, m) (ps, snd (registerMemoryHandlers h m))
| bus_unregister ps m p b e : bus_step (Unregister p b e) (ps, m) (ps, snd (unregisterMemoryHandlers p b e m)).

(** An event that leaves the held pointers valid: MONITOR of a page to which no
    pointer for writing is held, a change of the type of an area, or the
    registration of a range, in which no held pointer lies.  Where the callers
    flush the TLBs first, no pointer is held at all. *)
Definition coherent (e : bus_event) (s : list pointer * bx_mem D) : Prop :=
  let (ps, m) := s in
  match e with
  | MonitorLine _ a => ~ writes_page m ps (Z.ldiff a 0xfff)
  | SetMemoryType area _ _ => forall p, In p ps -> let q := A20ADDR m (held_page p) in
      0xc0000 <= q < 0x100000 -> memory_area q <> area
  | Register h => forall p, In p ps -> in_range h (A20ADDR m (held_page p)) = false
  | _ => True
  end.

(** A run of events, all of a kind. *)
Inductive run_of (ok : bus_event -> list pointer * bx_mem D -> Prop) :
    list pointer * bx_mem D -> list pointer * bx_mem D -> Prop :=
| run_refl s : run_of ok s s
| run_step e s1 s2 s3 : run_of ok s1 s2 -> ok e s2 -> bus_step e s2 s3 -> run_of ok s1 s3.

Definition bus_run := run_of (fun _ _ => True).
Definition coherent_run := run_of coherent.

(** ** What an event keeps *)

Definition pointers_ok m (ps : list pointer) : Prop :=
  Forall (fun p => direct m (held_host p) (held_page p) (held_write p)) ps.

(** ROM, with the option ROMs, as it was. *)
Record keeps_rom m m' : Prop := {
  kr_vector : vector m' = vector m;
  kr_allocated : allocated m' = allocated m;
  kr_enabled : bios_write_enabled m' = bios_write_enabled m;
  kr_rom i : bios_write_enabled m = false -> 0 <= i -> bytes m' (rom m i) = bytes m (rom m i);
}.

Lemma keeps_rom_trans m1 m2 m3 : keeps_rom m1 m2 -> keeps_rom m2 m3 -> keeps_rom m1 m3.
Proof.
  intros [V1 L1 E1 R1] [V2 L2 E2 R2]. split; try congruence. intros i H Hi. rewrite <- R1 by assumption.
  replace (rom m1 i) with (rom m2 i) by (unfold rom; congruence). apply R2; congruence.
Qed.

Lemma keeps_rom_same m m' : vector m' = vector m -> allocated m' = allocated m ->
  bios_write_enabled m' = bios_write_enabled m -> bytes m' = bytes m -> keeps_rom m m'.
Proof. intros V L E B. split; try assumption. intros. now rewrite B. Qed.

Lemma evolves_rom m m' : evolves m m' -> keeps_rom m m'.
Proof.
  intros E. destruct (evolves_fields m m' E) as (V & _ & _ & _ & _ & _ & _ & _ & _ & _ & _ & B & _ & L & _).
  split; try assumption. intros i H Hi. apply (ev_above _ _ E). unfold writable_rom, rom. rewrite H. lia.
Qed.

Lemma pointers_evolve m m' ps : evolves m m' -> pointers_ok m ps -> pointers_ok m' ps.
Proof. intros E. apply Forall_impl. intros p. now apply direct_evolves. Qed.

(** A page that monitors do not touch. *)
Lemma arm_other i a m q : 0 <= a -> q mod 4096 = 0 -> q <> Z.ldiff a 0xfff ->
  is_monitor m q 0xfff = false -> is_monitor (arm i a m) q 0xfff = false.
Proof.
  intros Ha Hq N. unfold is_monitor, arm. cbn [monitors set_field]. revert i.
  induction (monitors m) as [|c l IH]; intros i M; [destruct i; reflexivity|].
  cbn [existsb] in M. apply orb_false_iff in M. destruct M as [M1 M2].
  destruct i; cbn [on_monitor existsb]; [rewrite M2, orb_false_r|rewrite M1; now apply IH].
  unfold cpu_is_monitor, arm_monitor. cbn [armed monitor_addr set_field andb]. cbv zeta.
  apply negb_false_iff, orb_true_iff. rewrite !Z.leb_le. unfold CACHE_LINE_SIZE.
  change 0xfff with (Z.ones 12) in N. change (64 - 1) with (Z.ones 6).
  rewrite !Z.ldiff_ones_r, !Z.shiftr_div_pow2, !Z.shiftl_mul_pow2 in * by lia.
  change (2 ^ 12) with 4096 in *. change (2 ^ 6) with 64.
  apply Z.mod_divide in Hq; [|lia]. destruct Hq as [x ->].
  pose proof (Z.div_mod a 64 ltac:(lia)). pose proof (Z.mod_pos_bound a 64 ltac:(lia)).
  pose proof (Z.div_mod a 4096 ltac:(lia)). pose proof (Z.mod_pos_bound a 4096 ltac:(lia)). lia.
Qed.

Lemma arm_wf i a m : mem_wf m -> mem_wf (arm i a m).
Proof.
  intros [V L Al Bl Di A B F G H N]. split; try assumption. unfold arm. cbn [monitors set_field]. clear - N.
  revert i N. induction (monitors m) as [|c l IH]; intros i N d Hd Ad; [destruct i; contradiction|].
  destruct i; cbn [on_monitor] in Hd.
  - destruct Hd as [<-|Hd]; [|apply N; [now right|exact Ad]]. cbn [arm_monitor monitor_addr set_field].
    unfold CACHE_LINE_SIZE. change (64 - 1) with (Z.ones 6).
    rewrite Z.ldiff_ones_r, Z.shiftl_mul_pow2 by lia. now apply Z.mod_mul.
  - destruct Hd as [<-|Hd]; [apply N; [now left|exact Ad]|]. apply (IH i); [|exact Hd|exact Ad].
    intros e He. apply N. now right.
Qed.

Lemma arm_pointers i a m ps : mem_wf m -> 0 <= a -> ~ writes_page m ps (Z.ldiff a 0xfff) ->
  pointers_ok m ps -> pointers_ok (arm i a m) ps.
Proof.
  intros W Ha N P. unfold pointers_ok in *. rewrite Forall_forall in *. intros p Hp. destruct (P p Hp) as [W' Q F Hh Hn Mo].
  split; try assumption; [now apply arm_wf|now destruct (held_write p)|]. intros Hw.
  change (A20ADDR (arm i a m)) with (A20ADDR m).
  destruct (A20_page m (held_page p) 0 W (proj2 Q) ltac:(lia)) as [_ (_ & Hq & _)].
  apply arm_other; [exact Ha|exact Hq| |now apply Mo]. intros E. apply N. exists p.
  split; [exact Hp|split; [exact Hw|]]. rewrite <- E. change 0xfff with (Z.ones 12).
  rewrite Z.ldiff_ones_r, Z.shiftr_div_pow2, Z.shiftl_mul_pow2 by lia. change (2 ^ 12) with 4096.
  pose proof (Z.div_mod (A20ADDR m (held_page p)) 4096 ltac:(lia)). lia.
Qed.

Lemma smram_wf m available enable restricted : mem_wf m ->
  mem_wf (m <| smram_available := available |> <| smram_enable := enable |> <| smram_restricted := restricted |>).
Proof. intros [V L Al Bl Di A B F G H N]. split; assumption. Qed.

(** No host pointer leads to the VGA hole, so SMRAM does not matter to them. *)
Lemma smram_pointers m available enable restricted ps : pointers_ok m ps ->
  pointers_ok (m <| smram_available := available |> <| smram_enable := enable |> <| smram_restricted := restricted |>) ps.
Proof.
  apply Forall_impl. intros p [W Q F Hh Hn Mo]. split; try assumption; [now apply smram_wf|now destruct (held_write p)].
Qed.

Lemma set_memory_type_wf area rw dram m : mem_wf m -> mem_wf (set_memory_type area rw dram m).
Proof. intros W. unfold set_memory_type. destruct (_ <=? _); [|exact W]. destruct W. split; assumption. Qed.

(** The areas above 640K, by address. *)
Lemma memory_type_host area rw dram m p w :
  (0xc0000 <= A20ADDR m p < 0x100000 -> memory_area (A20ADDR m p) <> area) ->
  host_page (set_memory_type area rw dram m) p w = host_page m p w.
Proof.
  intros N. unfold set_memory_type. destruct (_ <=? _); [|reflexivity].
  unfold host_page. set (m' := m <| memory_type := _ |>). change (A20ADDR m' p) with (A20ADDR m p).
  set (q := A20ADDR m p) in *. change (bios_address m' q) with (bios_address m q). cbv zeta.
  destruct w; [reflexivity|]. unfold host_for_read. change (pci_enabled m') with (pci_enabled m).
  destruct (vga_hole q); [reflexivity|]. destruct (pci_enabled m && _) eqn:C; [|reflexivity].
  apply andb_true_iff in C. destruct C as [_ C]. apply andb_true_iff in C. rewrite Z.leb_le, Z.ltb_lt in C.
  specialize (N C). change (memory_type m' (memory_area q) false)
    with (if (memory_area q =? area) && Bool.eqb false rw then dram else memory_type m (memory_area q) false).
  destruct (Z.eqb_spec (memory_area q) area); [contradiction|]. reflexivity.
Qed.

Lemma memory_type_pointers area rw dram m ps : mem_wf (set_memory_type area rw dram m) ->
  (forall p, In p ps -> let q := A20ADDR m (held_page p) in 0xc0000 <= q < 0x100000 -> memory_area q <> area) ->
  pointers_ok m ps -> pointers_ok (set_memory_type area rw dram m) ps.
Proof.
  intros W' N P. unfold pointers_ok in *. rewrite Forall_forall in *. intros p Hp.
  destruct (P p Hp) as [W Q F Hh Hn Mo].
  split; try assumption; [|rewrite memory_type_host; [exact Hh | exact (N p Hp)]|];
    unfold set_memory_type; destruct (_ <=? _); assumption.
Qed.

Lemma set_handlers_wf m k hs : mem_wf m ->
  (forall h, In h hs -> range_begin h mod 4096 = 0 /\ da_handler h = None) -> mem_wf (set_handlers k hs m).
Proof.
  intros [V L Al Bl Di A B F G H N] Hs. split; try assumption. intros j h Hh. unfold set_handlers in Hh.
  cbn [memory_handlers set_field] in Hh. destruct (j =? k); [now apply Hs|now apply (H j)].
Qed.

Lemma register_wf h fuel : range_begin h mod 4096 = 0 -> da_handler h = None -> forall k m, mem_wf m ->
  mem_wf (snd (register_pages fuel h k m)).
Proof.
  intros Hb Hd. induction fuel as [|fuel IH]; intros k m W; cbn [register_pages]; [exact W|]. cbv zeta.
  destruct (match memory_handlers m k with [] => false | _ => _ end); [exact W|]. apply IH.
  apply set_handlers_wf; [exact W|]. intros x [<-|Hx]; [split; assumption|]. now apply (wf_handlers m W k).
Qed.

(** New handlers that do not take a page leave its pointers alone. *)
Lemma handlers_pointers m k hs ps : mem_wf (set_handlers k hs m) ->
  (forall p, In p ps -> Z.shiftr (A20ADDR m (held_page p)) 20 = k -> first_handler hs (A20ADDR m (held_page p)) = None) ->
  pointers_ok m ps -> pointers_ok (set_handlers k hs m) ps.
Proof.
  intros W' N P. unfold pointers_ok in *. rewrite Forall_forall in *. intros p Hp.
  destruct (P p Hp) as [W Q F Hh Hn Mo]. split; try assumption; [|now destruct (held_write p)].
  change (A20ADDR (set_handlers k hs m)) with (A20ADDR m). unfold set_handlers. cbn [memory_handlers set_field].
  destruct (Z.eqb_spec (Z.shiftr (A20ADDR m (held_page p)) 20) k); [now apply N|exact F].
Qed.

Lemma register_pointers h ps fuel : range_begin h mod 4096 = 0 -> da_handler h = None -> forall k m, mem_wf m ->
  (forall p, In p ps -> in_range h (A20ADDR m (held_page p)) = false) ->
  pointers_ok m ps -> pointers_ok (snd (register_pages fuel h k m)) ps.
Proof.
  intros Hb Hd. induction fuel as [|fuel IH]; intros k m W N P; cbn [register_pages]; [exact P|]. cbv zeta.
  destruct (match memory_handlers m k with [] => false | _ => _ end); [exact P|].
  set (hs := _ :: memory_handlers m k).
  assert (W' : mem_wf (set_handlers k hs m)).
  { apply set_handlers_wf; [exact W|]. intros x [<-|Hx]; [split; assumption|]. now apply (wf_handlers m W k). }
  apply IH; [exact W'|exact N|]. apply handlers_pointers; [exact W'| |exact P].
  intros p Hp E. subst hs. cbn [first_handler].
  match goal with |- (if in_range ?x ?q then _ else _) = _ => change (in_range x q) with (in_range h q) end.
  rewrite (N p Hp), <- E. exact (di_handlers _ _ _ _ (proj1 (Forall_forall _ _) P p Hp)).
Qed.

(** Taking a handler away never gives a page to another one. *)
Lemma remove_first_handler p b e bm q (hs : list (memory_handler_struct D)) :
  first_handler hs q = None -> first_handler (snd (remove_handler p b e bm hs)) q = None.
Proof.
  induction hs as [|x hs IH]; [auto|]. cbn [first_handler remove_handler]. destruct (in_range x q) eqn:R; [discriminate|].
  intros F. destruct (_ && _); [|exact F]. specialize (IH F). destruct (remove_handler p b e bm hs) as [ok hs1].
  cbn [snd first_handler] in *.
  match goal with |- (if in_range ?y ?q then _ else _) = _ => change (in_range y q) with (in_range x q) end. now rewrite R.
Qed.

Lemma remove_handler_ok p b e bm hs :
  (forall h : memory_handler_struct D, In h hs -> range_begin h mod 4096 = 0 /\ da_handler h = None) ->
  forall h, In h (snd (remove_handler p b e bm hs)) -> range_begin h mod 4096 = 0 /\ da_handler h = None.
Proof.
  induction hs as [|x hs IH]; intros Hs h Hh; [contradiction|]. cbn [remove_handler] in Hh.
  destruct (_ && _).
  - destruct (remove_handler p b e bm hs) as [ok hs1]. destruct Hh as [<-|Hh]; [exact (Hs x (or_introl eq_refl))|].
    apply IH; [|exact Hh]. intros y Hy. apply Hs. now right.
  - apply Hs. now right.
Qed.

Lemma unregister_wf p b e fuel : forall k ret m, mem_wf m -> mem_wf (snd (unregister_pages fuel p b e k ret m)).
Proof.
  induction fuel as [|fuel IH]; intros k ret m W; cbn [unregister_pages]; [exact W|]. cbv zeta.
  destruct (remove_handler _ _ _ _ _) as [ok hs] eqn:E. apply IH, set_handlers_wf; [exact W|].
  intros h Hh. apply (remove_handler_ok p b e (handler_bitmap b e k) (memory_handlers m k)); [|now rewrite E].
  intros x. apply (wf_handlers m W).
Qed.

Lemma unregister_pointers p b e ps fuel : forall k ret m, mem_wf m ->
  pointers_ok m ps -> pointers_ok (snd (unregister_pages fuel p b e k ret m)) ps.
Proof.
  induction fuel as [|fuel IH]; intros k ret m W P; cbn [unregister_pages]; [exact P|]. cbv zeta.
  set (bm := handler_bitmap b e k). pose proof (unregister_wf p b e 1 k ret m W) as W'. cbn [unregister_pages] in W'.
  cbv zeta in W'. fold bm in W'. pose proof (fun q => remove_first_handler p b e bm q (memory_handlers m k)) as Rm.
  destruct (remove_handler p b e bm (memory_handlers m k)) as [ok hs]. cbn [snd] in *. apply IH; [exact W'|].
  apply handlers_pointers; [exact W'| |exact P]. intros x Hx E. apply Rm. rewrite <- E.
  exact (di_handlers _ _ _ _ (proj1 (Forall_forall _ _) P x Hx)).
Qed.

(** ** DMA *)

Lemma evolves_dma_read old : forall a m, mem_wf m -> evolves m (snd (dma_read_bytes a old m)).
Proof.
  induction old as [|o old IH]; intros a m W; cbn [dma_read_bytes]; [apply evolves_refl|].
  destruct (readPhysicalPage None a [o] m) as [v m1] eqn:E1. destruct (dma_read_bytes (a + 1) old m1) as [vs m2] eqn:E2.
  pose proof (evolves_read None a [o] m W) as V1. rewrite E1 in V1. pose proof (IH (a + 1) m1 (evolves_wf _ _ V1 W)) as V2.
  rewrite E2 in V2. exact (evolves_trans _ _ _ V1 V2).
Qed.

Lemma evolves_dma_write data : forall a m, mem_wf m -> evolves m (dma_write_bytes a data m).
Proof.
  induction data as [|v data IH]; intros a m W; cbn [dma_write_bytes]; [apply evolves_refl|].
  pose proof (evolves_write None a [v] m W) as E. apply (evolves_trans _ _ _ E), IH. now apply (evolves_wf m).
Qed.

(** The pointer for a DMA write is to RAM, and the write stays inside its page. *)
Lemma dma_host_store a data m : mem_wf m -> cross_page a (Z.of_nat (length data)) = false ->
  getHostMemAddr None a BX_WRITE m <> 0 ->
  evolves m (store_host (getHostMemAddr None a BX_WRITE m) data m).
Proof.
  intros W C. destruct data as [|v data]; [intros _; apply evolves_refl|].
  assert (L1 : 1 <= Z.of_nat (length (v :: data))) by (cbn [length]; lia). set (all := v :: data) in *.
  destruct (cross_page_false a (Z.of_nat (length all)) ltac:(lia) C) as (k & Ea & K0 & K1 & Q).
  destruct (A20_page m (Z.ldiff a 0xfff) k W Q ltac:(lia)) as [Ek (P0 & P1 & _)]. rewrite <- Ea in Ek.
  unfold getHostMemAddr. cbv zeta. change (Z.testbit BX_WRITE 0) with true. cbn [andb negb].
  destruct (is_monitor _ _ _); [congruence|]. destruct (first_handler _ _) as [h|] eqn:F.
  { rewrite (proj2 (wf_handlers m W _ h (first_handler_in _ _ _ F))). congruence. }
  set (q := A20ADDR m (Z.ldiff a 0xfff)) in *. clearbody q. rewrite Ek. unfold host_for_write.
  destruct (Z.leb_spec (mem_len m) (q + k)) as [|Lt]; cbn [orb]; [congruence|].
  repeat match goal with |- (if ?c then _ else _) <> 0 -> _ => destruct c end; try congruence.
  intros _. apply evolves_store_host. pose proof (writable_rom_bound m).
  destruct (vector_bound m (q + k) W ltac:(lia)).
  assert (P : in_page q k) by (split; [exact P0|split; [exact P1|lia]]).
  pose proof (page_room q k (Z.of_nat (length all)) P K1). lia.
Qed.

Lemma evolves_dma a data m : mem_wf m -> evolves m (dmaWritePhysicalPage a data m).
Proof.
  intros W. unfold dmaWritePhysicalPage. cbv zeta. destruct (cross_page _ _) eqn:C; [apply evolves_refl|].
  destruct (Z.eqb_spec (getHostMemAddr None a BX_WRITE m) 0); cbn [negb];
    [now apply evolves_dma_write|now apply dma_host_store].
Qed.

Lemma evolves_dma_in a old m : mem_wf m -> evolves m (snd (dmaReadPhysicalPage a old m)).
Proof.
  intros W. unfold dmaReadPhysicalPage. cbv zeta. destruct (cross_page _ _); [apply evolves_refl|].
  destruct (negb _); [apply evolves_refl|now apply evolves_dma_read].
Qed.

(** ** Every event keeps the pointers and the ROM *)

Lemma set_handlers_rom m k hs : keeps_rom m (set_handlers k hs m).
Proof. now apply keeps_rom_same. Qed.

Lemma register_rom h fuel : forall k m, keeps_rom m (snd (register_pages fuel h k m)).
Proof.
  induction fuel as [|fuel IH]; intros k m; cbn [register_pages]; [now apply keeps_rom_same|]. cbv zeta.
  destruct (match memory_handlers m k with [] => false | _ => _ end); [now apply keeps_rom_same|].
  exact (keeps_rom_trans _ _ _ (set_handlers_rom m k _) (IH _ _)).
Qed.

Lemma unregister_rom p b e fuel : forall k ret m, keeps_rom m (snd (unregister_pages fuel p b e k ret m)).
Proof.
  induction fuel as [|fuel IH]; intros k ret m; cbn [unregister_pages]; [now apply keeps_rom_same|]. cbv zeta.
  destruct (remove_handler _ _ _ _ _) as [ok hs]. exact (keeps_rom_trans _ _ _ (set_handlers_rom m k hs) (IH _ _ _)).
Qed.

(** A pointer for writing leads into RAM, wherever the mapping moves afterwards. *)
Definition into_ram m (p : pointer) : Prop := held_write p = true -> held_host p + 4096 <= vector m + allocated m.

Lemma direct_into_ram m h p : direct m h p true -> h + 4096 <= vector m + allocated m.
Proof.
  intros [W [P0 P1] F Hh Hn Mo]. rewrite Hh in *. clear Hh. unfold host_page, host_for_write in *. cbv zeta in *.
  destruct (A20_page m p 0 W P1 ltac:(lia)) as [_ Q]. set (q := A20ADDR m p) in *. clearbody q.
  destruct (Z.leb_spec (mem_len m) q); cbn [orb] in *; [now elim Hn|].
  destruct (bios_address m q); [now elim Hn|]. destruct (vga_hole q); [now elim Hn|].
  destruct (_ && _); [now elim Hn|]. destruct (_ || _); [|now elim Hn].
  destruct (vector_bound m q W ltac:(destruct Q; lia)) as [_ B].
  pose proof (page_room q 0 4096 Q ltac:(lia)) as R. rewrite Z.add_0_r in R. lia.
Qed.

Lemma keeps_into_ram m m' ps : keeps_rom m m' -> Forall (into_ram m) ps -> Forall (into_ram m') ps.
Proof. intros [V L _ _]. apply Forall_impl. intros p. unfold into_ram. now rewrite V, L. Qed.

Lemma ram_store m ps p off data : Forall (into_ram m) ps -> In p ps -> held_write p = true -> 0 <= off ->
  off + Z.of_nat (length data) <= 4096 -> evolves m (store_host (held_host p + off) data m).
Proof.
  intros P Hp Hw H0 Hl. apply evolves_store_host. pose proof (writable_rom_bound m).
  pose proof (proj1 (Forall_forall _ _) P p Hp Hw). lia.
Qed.

(** What every event keeps, whatever pointers are held. *)
Definition bus_safe (s : list pointer * bx_mem D) : Prop := mem_wf (snd s) /\ Forall (into_ram (snd s)) (fst s).

Lemma evolves_safe ps m m' : evolves m m' -> bus_safe (ps, m) -> bus_safe (ps, m') /\ keeps_rom m m'.
Proof.
  intros E [W P]. pose proof (evolves_rom m m' E) as K. split; [|exact K].
  split; [now apply (evolves_wf m)|now apply (keeps_into_ram m)].
Qed.

Lemma keeps_safe ps m m' : mem_wf m' -> keeps_rom m m' -> bus_safe (ps, m) -> bus_safe (ps, m') /\ keeps_rom m m'.
Proof. intros W' K [W P]. split; [|exact K]. split; [exact W'|now apply (keeps_into_ram m)]. Qed.

Lemma bus_step_safe e s s' : bus_step e s s' -> bus_safe s -> bus_safe s' /\ keeps_rom (snd s) (snd s').
Proof.
  intros St OK. assert (W := proj1 OK). assert (P := proj2 OK).
  destruct St; cbn [fst snd] in *.
  - split; [|now apply keeps_rom_same]. split; [exact W|]. constructor; [|exact P]. intros Hw. cbn [held_write held_host fst snd] in *.
    apply (direct_into_ram m _ p). rewrite <- Hw. now apply getHostMemAddr_direct.
  - split; [|now apply keeps_rom_same]. split; [exact W|]. apply Forall_forall. intros x Hx.
    exact (proj1 (Forall_forall _ _) P x (H x Hx)).
  - apply evolves_safe; [now apply evolves_read|exact OK].
  - apply evolves_safe; [now apply evolves_write|exact OK].
  - apply evolves_safe; [now apply evolves_dma_in|exact OK].
  - apply evolves_safe; [now apply evolves_dma|exact OK].
  - apply evolves_safe; [now apply (ram_store m ps)|exact OK].
  - apply keeps_safe; [now apply arm_wf|now apply keeps_rom_same|exact OK].
  - apply keeps_safe; [now apply smram_wf|now apply keeps_rom_same|exact OK].
  - apply keeps_safe; [now apply smram_wf|now apply keeps_rom_same|exact OK].
  - apply keeps_safe; [now apply set_memory_type_wf| |exact OK].
    apply keeps_rom_same; unfold set_memory_type; now destruct (_ <=? _).
  - unfold registerMemoryHandlers. destruct (_ <? _); [split; [exact OK|now apply keeps_rom_same]|].
    apply keeps_safe; [now apply register_wf|apply register_rom|exact OK].
  - apply keeps_safe; [now apply unregister_wf|apply unregister_rom|exact OK].
Qed.

Lemma run_safe ok s s' : run_of ok s s' -> bus_safe s -> bus_safe s' /\ keeps_rom (snd s) (snd s').
Proof.
  intros R. induction R as [s|e s1 s2 s3 R IH _ St]; intros OK; [split; [exact OK|now apply keeps_rom_same]|].
  destruct (IH OK) as [OK2 K2]. destruct (bus_step_safe _ _ _ St OK2) as [OK3 K3].
  split; [exact OK3|exact (keeps_rom_trans _ _ _ K2 K3)].
Qed.

(** A coherent event keeps the pointers valid. *)
Lemma coherent_step_ok e s s' : bus_step e s s' -> coherent e s -> bus_safe s ->
  pointers_ok (snd s) (fst s) -> pointers_ok (snd s') (fst s').
Proof.
  intros St C [W P] OK. destruct St; cbn [fst snd coherent] in *.
  - constructor; [|exact OK]. now apply getHostMemAddr_direct.
  - apply Forall_forall. intros x Hx. exact (proj1 (Forall_forall _ _) OK x (H x Hx)).
  - apply (pointers_evolve m); [now apply evolves_read|exact OK].
  - apply (pointers_evolve m); [now apply evolves_write|exact OK].
  - apply (pointers_evolve m); [now apply evolves_dma_in|exact OK].
  - apply (pointers_evolve m); [now apply evolves_dma|exact OK].
  - apply (pointers_evolve m); [now apply (ram_store m ps)|exact OK].
  - now apply arm_pointers.
  - now apply smram_pointers.
  - now apply smram_pointers.
  - apply memory_type_pointers; [now apply set_memory_type_wf|exact C|exact OK].
  - unfold registerMemoryHandlers. destruct (_ <? _); [exact OK|]. now apply register_pointers.
  - now apply unregister_pointers.
Qed.

Lemma coherent_run_ok s s' : coherent_run s s' -> bus_safe s -> pointers_ok (snd s) (fst s) -> pointers_ok (snd s') (fst s').
Proof.
  intros R. induction R as [s|e s1 s2 s3 R IH C St]; intros S OK; [exact OK|].
  apply (coherent_step_ok e s2); auto. apply (run_safe _ _ _ R S).
Qed.

End Bus.


(** C27: While BIOS writes are disabled, nothing on the bus, not even a store through
    a pointer that has become stale, changes a byte of the
    system BIOS, the option ROMs or the page read in place of absent memory: not a
    physical write of a processor or DMA at any address, nor a store through a held
    host pointer. *)
Theorem rom_protected {D} (m0 : bx_mem D) ps m i :
  mem_wf m0 -> bios_write_enabled m0 = false -> bus_run ([], m0) (ps, m) -> 0 <= i ->
  load_byte m (rom m i) = load_byte m0 (rom m0 i).
Proof.
  intros W B R Hi. destruct (run_safe _ _ _ R (conj W (Forall_nil _))) as [_ [V L E K]]. cbn [snd] in *.
  replace (rom m i) with (rom m0 i) by (unfold rom; congruence).
  unfold load_byte. now rewrite K.
Qed.

(** ** A memory of two megabytes *)

Lemma init_memory_wf {D} guest host vec table contents pci (d : D) cpus a20 access :
  0x100000 <= guest -> guest mod 0x100000 = 0 -> 0 <= host -> host mod 0x100000 = 0 ->
  0 < vec -> vec mod 4096 = 0 -> 0 <= a20 -> Z.land a20 0xfff = 0xfff ->
  (forall b, 0 <= b < guest / BX_MEM_BLOCK_LEN ->
    b < 2 ^ 32 /\ table b mod BX_MEM_BLOCK_LEN = vec mod BX_MEM_BLOCK_LEN
    /\ vec <= table b /\ table b + BX_MEM_BLOCK_LEN <= vec + host) ->
  (forall b b', 0 <= b < guest / BX_MEM_BLOCK_LEN -> 0 <= b' < guest / BX_MEM_BLOCK_LEN ->
    table b = table b' -> b = b') ->
  mem_wf (init_memory guest host vec table contents pci d cpus a20 access).
Proof.
  intros G0 G Ho0 Ho V0 V A0 A Tb Td. split; try (split; assumption); try assumption.
  - split; [reflexivity|cbn; lia].
  - now left.
  - intros i Hi. unfold bogus. cbn [init_memory bytes Memory.vector allocated].
    destruct (Z.leb_spec (vec + host) (vec + host + BIOSROMSZ + EXROMSIZE + i));
      destruct (Z.ltb_spec (vec + host + BIOSROMSZ + EXROMSIZE + i) (vec + host + BIOSROMSZ + EXROMSIZE + 4096));
      cbn [andb]; unfold BIOSROMSZ, EXROMSIZE in *; lia.
  - intros k h [].
  - intros c Hc Ha. apply repeat_spec in Hc. subst c. discriminate.
Qed.

(** The blocks were used from the last down. *)
Definition small_memory : bx_mem (list Z) :=
  init_memory 0x200000 0x200000 0x10000000 (fun b => 0x10000000 + (15 - b) * BX_MEM_BLOCK_LEN) (fun _ => 0)
    true [] 2 0xffffffffff 0.

Lemma small_memory_wf : mem_wf small_memory.
Proof.
  apply init_memory_wf; try reflexivity; try lia; unfold BX_MEM_BLOCK_LEN; change (0x200000 / (128 * 1024)) with 16.
  - intros b Hb. split; [lia|split; [|lia]].
    replace (0x10000000 + (15 - b) * (128 * 1024)) with ((2048 + 15 - b) * (128 * 1024)) by lia.
    rewrite Z.mod_mul by lia. reflexivity.
  - intros b b' Hb Hb' E. lia.
Qed.

(** A device whose bytes read 0x42 and which logs what it is sent. *)
Definition logger (p begin_addr end_addr : Z) : memory_handler_struct (list Z) :=
  Handler p begin_addr end_addr 0 (fun _ len d => (Some (repeat 0x42 (Z.to_nat len)), d))
    (Some (fun _ data d => (true, d ++ data))) None.

(** A processor takes a pointer for writing, both processors and DMA write, the
    other processor monitors another page, then the first stores. *)
Definition bus_pointer : pointer := Pointer 0x1000 0x101e1000 true.
Definition bus_m1 := writePhysicalPage (Some false) 0x1002 [1; 2; 3; 4] small_memory.
Definition bus_m2 := dmaWritePhysicalPage 0x1003 [5; 6; 7] bus_m1.
Definition bus_m3 := arm 1 0x5000 bus_m2.
Definition bus_m4 := store_host (held_host bus_pointer + 4) [9; 10] bus_m3.

(** A device is registered elsewhere. *)
Definition bus_device : memory_handler_struct (list Z) := logger 1 0x40000000 0x40000fff.
Definition bus_m5 := snd (registerMemoryHandlers bus_device bus_m4).

Lemma bus_example_coherent : coherent_run ([], small_memory) ([bus_pointer], bus_m5).
Proof.
  apply (run_step _ (Register bus_device) _ ([bus_pointer], bus_m4));
    [|intros p [<-|[]]; vm_compute; reflexivity|now apply bus_register].
  apply (run_step _ (Store bus_pointer 4 [9; 10]) _ ([bus_pointer], bus_m3));
    [|exact I|apply bus_store; [now left|reflexivity|lia|cbn; lia]].
  apply (run_step _ (MonitorLine 1 0x5000) _ ([bus_pointer], bus_m2));
    [|intros (p & [<-|[]] & _ & E); vm_compute in E; discriminate|apply bus_monitor; lia].
  apply (run_step _ (DmaWrite 0x1003 [5; 6; 7]) _ ([bus_pointer], bus_m1)); [|exact I|apply bus_dma_write].
  apply (run_step _ (Write (Some false) 0x1002 [1; 2; 3; 4]) _ ([bus_pointer], small_memory)); [|exact I|apply bus_write].
  apply (run_step _ (Acquire 0x1000 BX_WRITE) _ ([], small_memory)); [apply run_refl|exact I|].
  apply (bus_acquire [] small_memory 0x1000 BX_WRITE); vm_compute; congruence.
Qed.

Lemma run_of_weaken {D} (ok ok' : bus_event -> list pointer * bx_mem D -> Prop) s s' :
  (forall e s, ok e s -> ok' e s) -> run_of ok s s' -> run_of ok' s s'.
Proof. intros H R. induction R; [apply run_refl|eapply run_step; eauto]. Qed.

Lemma bus_example : bus_run ([], small_memory) ([bus_pointer], bus_m5).
Proof. apply (run_of_weaken coherent); [auto|apply bus_example_coherent]. Qed.


Lemma rom_protected_witness : load_byte bus_m5 (rom bus_m5 0x1ffff0) = 0xff.
Proof.
  rewrite (rom_protected small_memory [bus_pointer] bus_m5 0x1ffff0 small_memory_wf eq_refl bus_example ltac:(lia)).
  vm_compute. reflexivity.
Defined.

(** ** Ways around

    What the code leaves open, each on the small memory. *)

(** With a flash chip, a pointer to the BIOS reads the array also while the chip
    answers with its identifier or status. *)
Example flash_read_bypassed :
  let m := small_memory <| flash_type := 1 |> <| flash_wsm_state := FLASH_INT_ID |> in
  fst (readPhysicalPage (Some false) 0xffff0000 [0] m) = [0x89]
  /\ load_byte m (getHostMemAddr (Some false) 0xffff0000 BX_READ m) = 0xff.
Proof. vm_compute. split; reflexivity. Qed.

(** Two bytes written to the BIOS behind the E0000 window: the loop writes them, skips
    a byte and writes them again. *)
Example bios_write_overruns :
  let m := writePhysicalPage (Some false) 0xe0000 [1; 2] (set_bios_write true small_memory) in
  load_host 6 (rom m (BIOS_MAP_LAST128K 0xe0000)) m = [1; 2; 0xff; 1; 2; 0xff].
Proof. vm_compute. reflexivity. Qed.

(** The last byte of a monitored line wakes nobody. *)
Example monitor_last_byte :
  let m := arm 0 0x1000 small_memory in
  map armed (monitors (writePhysicalPage (Some false) 0x103e [1] m)) = [false; false]
  /\ map armed (monitors (writePhysicalPage (Some false) 0x103f [1] m)) = [true; false].
Proof. vm_compute. split; reflexivity. Qed.

(** MONITOR arms the address before the A20 gate, writes are compared behind it. *)
Example monitor_before_A20 :
  let m := arm 0 0x101000 (small_memory <| mem_a20_mask := 0xffffefffff |>) in
  let m := writePhysicalPage (Some false) 0x101000 [1] m in
  fst (readPhysicalPage (Some false) 0x101000 [0] m) = [1] /\ map armed (monitors m) = [true; false].
Proof. vm_compute. split; reflexivity. Qed.

(** A pointer taken before MONITOR still writes, and wakes nobody. *)
Example monitor_bypassed :
  let h := getHostMemAddr (Some false) 0x1000 BX_WRITE small_memory in
  let m := arm 0 0x1000 small_memory in
  map armed (monitors (store_host h [1] m)) = [true; false]
  /\ map armed (monitors (writePhysicalPage (Some false) 0x1000 [1] m)) = [false; false].
Proof. vm_compute. split; reflexivity. Qed.

(** Registering a device leaves the pointers into its range as they are. *)
Example register_leaves_pointers :
  let h := getHostMemAddr (Some false) 0x40000000 BX_READ small_memory in
  let m := snd (registerMemoryHandlers (logger 1 0x40000000 0x40000fff) small_memory) in
  fst (readPhysicalPage (Some false) 0x40000000 [0] m) = [0x42] /\ load_byte m h = 0xff.
Proof. vm_compute. split; reflexivity. Qed.

(** A device with two ranges: giving up the first removes the handler of the second. *)
Example unregister_other_range :
  let m := snd (registerMemoryHandlers (logger 1 0x40000000 0x4000ffff) small_memory) in
  let m := snd (registerMemoryHandlers (logger 1 0x40010000 0x4001ffff) m) in
  let m := snd (unregisterMemoryHandlers 1 0x40000000 0x4000ffff m) in
  fst (readPhysicalPage (Some false) 0x40000000 [0] m) = [0x42]
  /\ fst (readPhysicalPage (Some false) 0x40010000 [0] m) = [0xff].
Proof. vm_compute. split; reflexivity. Qed.

(** Above 4G a range of 64K takes the whole megabyte. *)
Example register_above_4G :
  let two base := fst (registerMemoryHandlers (logger 2 (base + 0x10000) (base + 0x1ffff))
    (snd (registerMemoryHandlers (logger 1 base (base + 0xffff)) small_memory))) in
  two 0x40000000 = true /\ two 0x100000000 = false.
Proof. vm_compute. split; reflexivity. Qed.

(** A registration that fails stays in the megabytes before the overlap. *)
Example register_no_rollback :
  let m := snd (registerMemoryHandlers (logger 1 0x40100000 0x401fffff) small_memory) in
  let '(ok, m) := registerMemoryHandlers (logger 2 0x40000000 0x401fffff) m in
  ok = false /\ fst (readPhysicalPage (Some false) 0x40000000 [0] m) = [0x42].
Proof. vm_compute. split; reflexivity. Qed.

(** The erase command erases from whatever address it is sent to. *)
Example flash_erases_anywhere :
  let m := small_memory <| flash_type := 1 |> <| flash_status := 0x80 |> in
  let m := store_host (rom m 0x12345) [1; 2; 3] m in
  let m := flash_write 0x12346 FLASH_ERASE (flash_write 0x12346 FLASH_ERASE_SETUP m) in
  load_host 3 (rom m 0x12345) m = [1; 0xff; 0xff].
Proof. vm_compute. reflexivity. Qed.

(** The example address of the manual for a BIOS of 512K is refused. *)
Example documented_address_refused :
  bios_place 0x80000 0xfff80000 = None /\ bios_place 0x80000 0 = Some 0xfff80000.
Proof. vm_compute. split; reflexivity. Qed.
