(* ===== verification/Blocks.v ===== *)
(** * Blocks of guest RAM in host memory (memory/misc_mem.cc, memory/memory-bochs.h)

    Guest RAM is cut into blocks of 128K.  A block gets host memory when it is first
    used; when none is left, a block that no TLB points into is written to a file and
    gives up its place (BX_LARGE_RAMFILE).  The file operations succeed, as far as
    the file goes; a read beyond its end leaves the buffer as it was.

    Reads and writes through [get_vector] behave as a flat memory, whatever is
    swapped out meanwhile.  While host memory suffices, the table of blocks may be
    taken as given: Memory does. *)

From Stdlib Require Import ZArith Lia List Bool.
From S2P Require Import Prelude Tlb Paging Access Memory.
Import ListNotations.
Open Scope Z_scope.

(** ** State *)

Inductive block := Unused | SwappedOut | At (p : Z).

Record block_mem := BlockMem {
  len : Z;
  allocated : Z;
  vector : Z;
  blocks : Z -> block;
  used_blocks : Z;
  next_swapout_idx : Z;
  overflow_size : Z;                    (* the file's length, 0 without a file *)
  overflow_file : Z -> Z;               (* its bytes; what was skipped reads 0 *)
  host : Z -> Z;                        (* host memory *)
}.

#[export] Instance block_mem_eta : Eta block_mem := fun s =>
  BlockMem (len s) (allocated s) (vector s) (blocks s) (used_blocks s) (next_swapout_idx s) (overflow_size s)
    (overflow_file s) (host s).

(** What [check_addr_in_tlb_buffers] (cpu/paging.cc) looks at in a processor. *)
Record cpu_hosts := CpuHosts {
  vmcshostptr : Z;
  vmcbhostptr : Z;
  host_DTLB : TLB;
  host_ITLB : TLB;
}.

Definition host_in (addr end_addr h : Z) : bool := (addr <=? h) && (h <? end_addr).

Definition entry_in (addr end_addr : Z) (e : bx_TLB_entry) : bool :=
  valid e && host_in addr end_addr (hostPageAddr e).

Definition check_addr_in_tlb_buffers (c : cpu_hosts) (addr end_addr : Z) : bool :=
  (negb (vmcshostptr c =? 0) && host_in addr end_addr (vmcshostptr c))
  || (negb (vmcbhostptr c =? 0) && host_in addr end_addr (vmcbhostptr c))
  || existsb (fun n => entry_in addr end_addr (entry (host_DTLB c) n)) (zrange (Z.to_nat BX_DTLB_SIZE))
  || existsb (fun n => entry_in addr end_addr (entry (host_ITLB c) n)) (zrange (Z.to_nat BX_ITLB_SIZE)).

(** ** Allocation *)

Definition num_blocks (s : block_mem) : Z := len s / BX_MEM_BLOCK_LEN.
Definition max_blocks (s : block_mem) : Z := u32 (allocated s / BX_MEM_BLOCK_LEN).

Definition set_block (b : Z) (v : block) (s : block_mem) : block_mem :=
  s <| blocks := fun k => if k =? b then v else blocks s k |>.

Definition byte_at (a n x : Z) : bool := (a <=? x) && (x <? a + n).

(** [fseeko64] and [fwrite] of a block. *)
Definition write_block (b buffer : Z) (s : block_mem) : block_mem :=
  let address := b * BX_MEM_BLOCK_LEN in
  s <| overflow_file := fun x =>
         if byte_at address BX_MEM_BLOCK_LEN x then host s (buffer + (x - address)) else overflow_file s x |>
    <| overflow_size := Z.max (overflow_size s) (address + BX_MEM_BLOCK_LEN) |>.

(** [fread] stops at the end of the file. *)
Definition read_block (b buffer : Z) (s : block_mem) : block_mem :=
  let block_address := b * BX_MEM_BLOCK_LEN in
  s <| host := fun h =>
         if byte_at buffer BX_MEM_BLOCK_LEN h && (block_address + (h - buffer) <? overflow_size s)
         then overflow_file s (block_address + (h - buffer)) else host s h |>.

Inductive search := Found (idx buffer : Z) | Insufficient | OutOfFuel.

(** The two nested loops; the index goes round until it is back at [original]. *)
Fixpoint find_victim (fuel : nat) (cpus : list cpu_hosts) (original idx : Z) (s : block_mem) : search :=
  match fuel with
  | O => OutOfFuel
  | S fuel' =>
    let idx := if u32 (idx + 1) =? num_blocks s then 0 else u32 (idx + 1) in
    if idx =? original then Insufficient
    else
      match blocks s idx with
      | At buffer =>
        if existsb (fun c => check_addr_in_tlb_buffers c buffer (buffer + BX_MEM_BLOCK_LEN)) cpus
        then find_victim fuel' cpus original idx s
        else Found idx buffer
      | _ => find_victim fuel' cpus original idx s
      end
  end.

(** [None] is the panic, which ends the simulation. *)
Definition allocate_block (cpus : list cpu_hosts) (b : Z) (s : block_mem) : option block_mem :=
  if max_blocks s <=? used_blocks s then
    match find_victim (Z.to_nat (num_blocks s)) cpus (next_swapout_idx s) (next_swapout_idx s) s with
    | Found idx buffer =>
      let s := write_block idx buffer (s <| next_swapout_idx := idx |>) in
      Some (read_block b buffer (set_block b (At buffer) (set_block idx SwappedOut s)))
    | _ => None
    end
  else
    Some (set_block b (At (vector s + u32 (used_blocks s * BX_MEM_BLOCK_LEN))) s
            <| used_blocks := u32 (used_blocks s + 1) |>).

Definition get_vector (cpus : list cpu_hosts) (addr : Z) (s : block_mem) : option (Z * block_mem) :=
  let b := u32 (addr / BX_MEM_BLOCK_LEN) in
  let offset := Z.land addr (BX_MEM_BLOCK_LEN - 1) in
  match blocks s b with
  | At p => Some (p + offset, s)
  | _ =>
    match allocate_block cpus b s with
    | Some s' => match blocks s' b with At p => Some (p + offset, s') | _ => None end
    | None => None
    end
  end.

(** The part of [init_memory] that sets the blocks up. *)
Definition init_blocks (guest host_size vec : Z) (contents : Z -> Z) : block_mem :=
  BlockMem guest host_size vec (fun _ => Unused) 0 0 0 (fun _ => 0) contents.

(** ** The invariant

    The host allocation is at most 2048 MB, the bound of the configuration option. *)

Record blocks_ok (s : block_mem) : Prop := {
  ok_len : 0x100000 <= len s < 2 ^ 48 /\ len s mod 0x100000 = 0;
  ok_allocated : 0x100000 <= allocated s <= 2 ^ 31 /\ allocated s mod 0x100000 = 0;
  ok_vector : 0 < vector s;
  ok_used : 0 <= used_blocks s <= max_blocks s;
  ok_next : 0 <= next_swapout_idx s < num_blocks s;
  ok_at b p : blocks s b = At p ->
    0 <= b < num_blocks s /\ exists k, 0 <= k < used_blocks s /\ p = vector s + k * BX_MEM_BLOCK_LEN;
  ok_owner k : 0 <= k < used_blocks s -> exists b, blocks s b = At (vector s + k * BX_MEM_BLOCK_LEN);
  ok_distinct b b' p : blocks s b = At p -> blocks s b' = At p -> b = b';
  ok_swapped b : blocks s b = SwappedOut ->
    0 <= b /\ (b + 1) * BX_MEM_BLOCK_LEN <= overflow_size s /\ used_blocks s = max_blocks s;
}.

(** The byte at a guest address, of a block that was used. *)
Definition content (s : block_mem) (a : Z) : Z :=
  match blocks s (a / BX_MEM_BLOCK_LEN) with
  | At p => host s (p + a mod BX_MEM_BLOCK_LEN)
  | SwappedOut => overflow_file s a
  | Unused => 0
  end.

Definition touched (s : block_mem) (b : Z) : Prop := blocks s b <> Unused.

Lemma blocks_bounds s : blocks_ok s ->
  8 <= num_blocks s < 2 ^ 31 /\ max_blocks s = allocated s / BX_MEM_BLOCK_LEN
  /\ max_blocks s * BX_MEM_BLOCK_LEN = allocated s /\ max_blocks s <= 2 ^ 14.
Proof.
  intros [[L Lm] [A Am] _ _ _ _ _ _ _]. unfold num_blocks, max_blocks, BX_MEM_BLOCK_LEN.
  apply Z.mod_divide in Lm, Am; try lia. destruct Lm as [x Ex], Am as [y Ey]. rewrite Ex, Ey in *.
  change (128 * 1024) with 131072. replace (x * 0x100000) with (x * 8 * 131072) by lia.
  replace (y * 0x100000) with (y * 8 * 131072) by lia. rewrite !Z.div_mul by lia.
  rewrite wrap_id by (unfold fits; lia). lia.
Qed.

(** Buffers of different blocks are apart. *)
Lemma at_apart s b b' p p' : blocks_ok s -> blocks s b = At p -> blocks s b' = At p' -> b <> b' ->
  p + BX_MEM_BLOCK_LEN <= p' \/ p' + BX_MEM_BLOCK_LEN <= p.
Proof.
  intros K E E' N. destruct (ok_at s K b p E) as (_ & k & _ & ->). destruct (ok_at s K b' p' E') as (_ & k' & _ & ->).
  assert (k <> k') by (intros ->; apply N; exact (ok_distinct s K _ _ _ E E')). unfold BX_MEM_BLOCK_LEN. lia.
Qed.

(** ** The search for a victim *)

(** The victim is resident, is not where the search began, and no processor's TLB
    points into it. *)
Lemma find_victim_found fuel cpus original s : forall idx i p,
  find_victim fuel cpus original idx s = Found i p ->
  blocks s i = At p /\ i <> original
  /\ forall c, In c cpus -> check_addr_in_tlb_buffers c p (p + BX_MEM_BLOCK_LEN) = false.
Proof.
  induction fuel as [|fuel IH]; intros idx i p E; [discriminate|]. cbn [find_victim] in E. cbv zeta in E.
  set (j := if u32 (idx + 1) =? num_blocks s then 0 else u32 (idx + 1)) in *.
  destruct (Z.eqb_spec j original) as [|N]; [discriminate|].
  destruct (blocks s j) as [| |b] eqn:B; try exact (IH j i p E).
  destruct (existsb _ cpus) eqn:U; [exact (IH j i p E)|]. injection E as <- <-.
  split; [exact B|split; [exact N|]]. intros c Hc.
  destruct (check_addr_in_tlb_buffers c b (b + BX_MEM_BLOCK_LEN)) eqn:Ec; [|reflexivity].
  assert (X : existsb (fun c => check_addr_in_tlb_buffers c b (b + BX_MEM_BLOCK_LEN)) cpus = true)
    by (apply existsb_exists; eauto). congruence.
Qed.

(** [k] steps on from [idx], around the table. *)
Definition round (s : block_mem) (idx k : Z) : Z := (idx + k) mod num_blocks s.

Lemma next_index s idx : blocks_ok s -> 0 <= idx < num_blocks s ->
  (if u32 (idx + 1) =? num_blocks s then 0 else u32 (idx + 1)) = round s idx 1.
Proof.
  intros K H. destruct (blocks_bounds s K) as (B & _). rewrite wrap_id by (unfold fits; lia). unfold round.
  destruct (Z.eqb_spec (idx + 1) (num_blocks s)) as [->|N]; [symmetry; apply Z.mod_same; lia|].
  rewrite Z.mod_small; lia.
Qed.

Lemma round_step s idx k : blocks_ok s -> round s (round s idx 1) k = round s idx (1 + k).
Proof.
  intros K. destruct (blocks_bounds s K) as (B & _). unfold round. rewrite Z.add_mod_idemp_l by lia.
  f_equal. lia.
Qed.

Lemma round_bound s idx k : blocks_ok s -> 0 <= round s idx k < num_blocks s.
Proof. intros K. destruct (blocks_bounds s K). apply Z.mod_pos_bound. lia. Qed.

Lemma mod_close a b n : 0 < n -> a mod n = b mod n -> 0 <= a - b < n -> a = b.
Proof.
  intros Hn E H. pose proof (Z.div_mod a n ltac:(lia)) as Ea. pose proof (Z.div_mod b n ltac:(lia)) as Eb.
  rewrite E in Ea. assert (a / n - b / n = 0) by nia. nia.
Qed.

(** The search ends, and it ends in a panic only when every other block is unused,
    swapped out or held by a TLB. *)
Lemma find_victim_ends cpus s : blocks_ok s -> forall fuel idx d,
  0 <= idx < num_blocks s -> 0 < d <= num_blocks s -> (Z.to_nat d <= fuel)%nat ->
  match find_victim fuel cpus (round s idx d) idx s with
  | Found _ _ => True
  | Insufficient => forall k, 0 < k < d -> forall p, blocks s (round s idx k) = At p ->
      exists c, In c cpus /\ check_addr_in_tlb_buffers c p (p + BX_MEM_BLOCK_LEN) = true
  | OutOfFuel => False
  end.
Proof.
  intros K. induction fuel as [|fuel IH]; intros idx d Hi Hd Hf; [lia|]. cbn [find_victim]. cbv zeta.
  rewrite next_index by assumption. pose proof (round_bound s idx 1 K) as Hr.
  destruct (Z.eqb_spec (round s idx 1) (round s idx d)) as [E|N].
  - intros k Hk p Hp. exfalso. clear - E K Hi Hd Hk. destruct (blocks_bounds s K) as (B & _).
    pose proof (mod_close (idx + d) (idx + 1) (num_blocks s) ltac:(lia) (eq_sym E) ltac:(lia)). lia.
  - assert (D1 : 1 < d) by (destruct (Z.eq_dec d 1); [subst d; congruence|lia]).
    pose proof (IH (round s idx 1) (d - 1) Hr ltac:(lia) ltac:(lia)) as R.
    rewrite round_step in R by exact K. replace (1 + (d - 1)) with d in R by lia.
    assert (Skip : (forall p, blocks s (round s idx 1) = At p ->
        exists c, In c cpus /\ check_addr_in_tlb_buffers c p (p + BX_MEM_BLOCK_LEN) = true) ->
      match find_victim fuel cpus (round s idx d) (round s idx 1) s with
      | Found _ _ => True
      | Insufficient => forall k, 0 < k < d -> forall p, blocks s (round s idx k) = At p ->
          exists c, In c cpus /\ check_addr_in_tlb_buffers c p (p + BX_MEM_BLOCK_LEN) = true
      | OutOfFuel => False
      end).
    { intros H1. destruct (find_victim fuel cpus (round s idx d) (round s idx 1) s); try exact R.
      intros k Hk p Hp. destruct (Z.eq_dec k 1) as [->|]; [now apply H1|].
      apply (R (k - 1) ltac:(lia)). rewrite round_step by exact K. now replace (1 + (k - 1)) with k by lia. }
    destruct (blocks s (round s idx 1)) as [| |p] eqn:B; try (apply Skip; congruence).
    destruct (existsb _ cpus) eqn:U; [|exact I]. apply Skip. intros q Hq. injection Hq as <-.
    apply existsb_exists in U. destruct U as (c & Hc & Ec). eauto.
Qed.

(** ** What an allocation does *)

Definition in_tlb (cpus : list cpu_hosts) (p : Z) : Prop :=
  exists c, In c cpus /\ check_addr_in_tlb_buffers c p (p + BX_MEM_BLOCK_LEN) = true.

Record allocates (cpus : list cpu_hosts) (b : Z) (s s' : block_mem) : Prop := {
  al_ok : blocks_ok s';
  al_len : len s' = len s;
  al_at : exists p, blocks s' b = At p;
  al_content a : touched s (a / BX_MEM_BLOCK_LEN) -> content s' a = content s a;
  al_unused k : k <> b -> blocks s k = Unused -> blocks s' k = Unused;
  al_touched k : touched s k -> touched s' k;
  al_held k p : blocks s k = At p -> in_tlb cpus p -> blocks s' k = At p;
}.

Lemma block_position a : a = a / BX_MEM_BLOCK_LEN * BX_MEM_BLOCK_LEN + a mod BX_MEM_BLOCK_LEN
  /\ 0 <= a mod BX_MEM_BLOCK_LEN < BX_MEM_BLOCK_LEN.
Proof.
  split; [rewrite Z.mul_comm; apply Z.div_mod; discriminate|apply Z.mod_pos_bound; reflexivity].
Qed.

Lemma allocate_fresh cpus b s : blocks_ok s -> 0 <= b < num_blocks s -> (forall p, blocks s b <> At p) ->
  used_blocks s < max_blocks s ->
  allocates cpus b s (set_block b (At (vector s + u32 (used_blocks s * BX_MEM_BLOCK_LEN))) s
    <| used_blocks := u32 (used_blocks s + 1) |>).
Proof.
  intros K Hb Nb U. destruct (blocks_bounds s K) as (B & M & M2 & M3). pose proof (ok_used s K) as Us.
  assert (E1 : u32 (used_blocks s + 1) = used_blocks s + 1) by (apply wrap_id; unfold fits; lia).
  assert (E2 : u32 (used_blocks s * BX_MEM_BLOCK_LEN) = used_blocks s * BX_MEM_BLOCK_LEN)
    by (apply wrap_id; unfold fits, BX_MEM_BLOCK_LEN; lia).
  rewrite E1, E2. set (p0 := vector s + used_blocks s * BX_MEM_BLOCK_LEN).
  assert (Fresh : forall k p, blocks s k = At p -> p <> p0).
  { intros k p Hk. destruct (ok_at s K k p Hk) as (_ & j & Hj & ->). unfold p0, BX_MEM_BLOCK_LEN. lia. }
  assert (Nsw : blocks s b <> SwappedOut) by (intros X; pose proof (proj2 (proj2 (ok_swapped s K b X))); lia).
  split.
  - destruct K as [L A V Uk Nx At_ Ow Di Sw]. split; try assumption; cbn [set_block blocks set_field used_blocks vector].
    + change (0 <= used_blocks s + 1 <= max_blocks s). lia.
    + intros k p. destruct (Z.eqb_spec k b) as [->|N]; intros E.
      * injection E as <-. split; [exact Hb|]. exists (used_blocks s). split; [lia|reflexivity].
      * destruct (At_ k p E) as (Hk & j & Hj & ->). split; [exact Hk|]. exists j. split; [lia|reflexivity].
    + intros k Hk. destruct (Z.eq_dec k (used_blocks s)) as [->|N]; [exists b; now rewrite Z.eqb_refl|].
      destruct (Ow k ltac:(lia)) as (c & Hc). exists c. destruct (Z.eqb_spec c b) as [->|]; [now elim (Nb _ Hc)|exact Hc].
    + intros k k' p. destruct (Z.eqb_spec k b) as [->|N], (Z.eqb_spec k' b) as [->|N']; intros E E'; try reflexivity.
      * injection E as <-. now elim (Fresh _ _ E').
      * injection E' as <-. now elim (Fresh _ _ E).
      * exact (Di _ _ _ E E').
    + intros k. destruct (Z.eqb_spec k b) as [->|N]; intros E; [discriminate|].
      exfalso. pose proof (proj2 (proj2 (Sw k E))). lia.
  - reflexivity.
  - exists p0. cbn [set_block blocks set_field]. now rewrite Z.eqb_refl.
  - intros a T. unfold content. cbn [set_block blocks set_field host overflow_file].
    destruct (Z.eqb_spec (a / BX_MEM_BLOCK_LEN) b) as [E|]; [|reflexivity].
    exfalso. unfold touched in T. rewrite E in T. destruct (blocks s b) as [| |p] eqn:Eb; [congruence..|now elim (Nb p)].
  - intros k N E. cbn [set_block blocks set_field]. now rewrite (proj2 (Z.eqb_neq k b) N).
  - intros k T. unfold touched in *. cbn [set_block blocks set_field]. destruct (k =? b); [discriminate|exact T].
  - intros k p E _. cbn [set_block blocks set_field]. destruct (Z.eqb_spec k b) as [->|]; [now elim (Nb p)|exact E].
Qed.

Lemma byte_at_spec a n x : byte_at a n x = true <-> a <= x < a + n.
Proof. unfold byte_at. rewrite andb_true_iff, Z.leb_le, Z.ltb_lt. reflexivity. Qed.

Lemma byte_at_block b x : byte_at (b * BX_MEM_BLOCK_LEN) BX_MEM_BLOCK_LEN x = (x / BX_MEM_BLOCK_LEN =? b).
Proof.
  destruct (block_position x) as [E P]. destruct (Z.eqb_spec (x / BX_MEM_BLOCK_LEN) b) as [<-|N].
  - apply byte_at_spec. lia.
  - apply not_true_is_false. rewrite byte_at_spec. unfold BX_MEM_BLOCK_LEN in *. lia.
Qed.

Lemma allocate_swap cpus b i p s : blocks_ok s -> 0 <= b < num_blocks s -> (forall q, blocks s b <> At q) ->
  used_blocks s = max_blocks s -> blocks s i = At p ->
  (forall c, In c cpus -> check_addr_in_tlb_buffers c p (p + BX_MEM_BLOCK_LEN) = false) ->
  allocates cpus b s (read_block b p (set_block b (At p) (set_block i SwappedOut
    (write_block i p (s <| next_swapout_idx := i |>))))).
Proof.
  intros K Hb Nb U Hi Free. assert (Nib : i <> b) by (intros ->; now elim (Nb p)).
  destruct (ok_at s K i p Hi) as (Bi & ki & Hki & Ep).
  set (s' := read_block _ _ _).
  assert (Bk : forall k, blocks s' k = if k =? b then At p else if k =? i then SwappedOut else blocks s k) by reflexivity.
  assert (Sz : overflow_size s' = Z.max (overflow_size s) (i * BX_MEM_BLOCK_LEN + BX_MEM_BLOCK_LEN)) by reflexivity.
  assert (Fl : forall x, overflow_file s' x = if x / BX_MEM_BLOCK_LEN =? i
      then host s (p + (x - i * BX_MEM_BLOCK_LEN)) else overflow_file s x)
    by (intros x; rewrite <- byte_at_block; reflexivity).
  assert (Ho : forall h, host s' h = if byte_at p BX_MEM_BLOCK_LEN h && (b * BX_MEM_BLOCK_LEN + (h - p) <? overflow_size s')
      then overflow_file s' (b * BX_MEM_BLOCK_LEN + (h - p)) else host s h) by reflexivity.
  split.
  - destruct K as [L A V Uk Nx At_ Ow Di Sw]. split; try assumption.
    + intros k q. rewrite Bk. destruct (Z.eqb_spec k b) as [->|N]; intros E.
      * injection E as <-. split; [exact Hb|]. exists ki. split; [exact Hki|exact Ep].
      * destruct (k =? i); [discriminate|]. exact (At_ k q E).
    + intros k Hk. destruct (Z.eq_dec k ki) as [->|N]; [exists b; rewrite Bk, Z.eqb_refl; f_equal; exact Ep|].
      destruct (Ow k Hk) as (c & Hc). exists c. rewrite Bk. destruct (Z.eqb_spec c b) as [->|]; [now elim (Nb _ Hc)|].
      destruct (Z.eqb_spec c i) as [->|]; [|exact Hc]. exfalso. apply N. rewrite Hi in Hc. injection Hc as Hc.
      change (vector s') with (vector s) in Hc. unfold BX_MEM_BLOCK_LEN in *. lia.
    + intros k k' q. rewrite !Bk.
      assert (Other : forall j, blocks s j = At p -> j = i) by (intros j Hj; exact (Di _ _ _ Hj Hi)).
      destruct (Z.eqb_spec k b) as [E1|E1], (Z.eqb_spec k' b) as [E2|E2]; [congruence| | |];
        (destruct (Z.eqb_spec k i) as [E3|E3]; destruct (Z.eqb_spec k' i) as [E4|E4]);
        intros E E'; try discriminate; try congruence;
        try (injection E as <-; elim E4; now apply Other); try (injection E' as <-; elim E3; now apply Other).
      exact (Di _ _ _ E E').
    + intros k. rewrite Bk, Sz. destruct (Z.eqb_spec k b) as [->|N]; intros E; [discriminate|].
      destruct (Z.eqb_spec k i) as [->|M]; [split; [lia|split; [unfold BX_MEM_BLOCK_LEN; lia|exact U]]|].
      destruct (Sw k E) as (H0 & H1 & _). split; [exact H0|split; [lia|exact U]].
  - reflexivity.
  - exists p. rewrite Bk. now rewrite Z.eqb_refl.
  - intros a T. unfold content. rewrite Bk. destruct (block_position a) as [Ea Pa]. set (k := a / BX_MEM_BLOCK_LEN) in *.
    destruct (Z.eqb_spec k b) as [Eb|N].
    + assert (Sb : blocks s k = SwappedOut).
      { unfold touched in T. rewrite Eb in *. destruct (blocks s b) as [| |q] eqn:X; [congruence|reflexivity|now elim (Nb q)]. }
      destruct (ok_swapped s K k Sb) as (_ & Sk & _). rewrite Sb, Ho.
      replace (byte_at p _ _) with true by (symmetry; apply byte_at_spec; lia).
      replace (b * BX_MEM_BLOCK_LEN + (p + a mod BX_MEM_BLOCK_LEN - p)) with a by (rewrite <- Eb; lia).
      rewrite (proj2 (Z.ltb_lt _ _)) by (rewrite Sz; lia). cbn [andb]. rewrite Fl. fold k.
      rewrite (proj2 (Z.eqb_neq k i)) by congruence. reflexivity.
    + destruct (Z.eqb_spec k i) as [Ei|M].
      * rewrite Fl. fold k. rewrite (proj2 (Z.eqb_eq k i) Ei). rewrite Ei, Hi. f_equal. lia.
      * destruct (blocks s k) as [| |q] eqn:Ek; [reflexivity| |].
        -- rewrite Fl. fold k. now rewrite (proj2 (Z.eqb_neq k i) M).
        -- rewrite Ho. replace (byte_at p BX_MEM_BLOCK_LEN _) with false; [reflexivity|].
           symmetry. apply not_true_is_false. rewrite byte_at_spec.
           pose proof (at_apart s k i q p K Ek Hi M). lia.
  - intros k N E. rewrite Bk. rewrite (proj2 (Z.eqb_neq k b) N).
    destruct (Z.eqb_spec k i) as [->|]; [congruence|exact E].
  - intros k T. unfold touched in *. rewrite Bk. destruct (k =? b); [discriminate|]. destruct (k =? i); [discriminate|exact T].
  - intros k q E (c & Hc & Ec). rewrite Bk. destruct (Z.eqb_spec k b) as [->|]; [now elim (Nb q)|].
    destruct (Z.eqb_spec k i) as [->|]; [|exact E]. exfalso.
    assert (q = p) by congruence. subst q. rewrite (Free c Hc) in Ec. discriminate.
Qed.

Lemma allocate_ok cpus b s s' : blocks_ok s -> 0 <= b < num_blocks s -> (forall q, blocks s b <> At q) ->
  allocate_block cpus b s = Some s' -> allocates cpus b s s'.
Proof.
  intros K Hb Nb. unfold allocate_block. destruct (Z.leb_spec (max_blocks s) (used_blocks s)) as [M|M].
  - destruct (find_victim _ _ _ _ _) as [i p| |] eqn:F; try discriminate. intros E. injection E as <-.
    destruct (find_victim_found _ _ _ _ _ _ _ F) as (Hi & _ & Free). pose proof (ok_used s K).
    apply allocate_swap; auto; lia.
  - intros E. injection E as <-. now apply allocate_fresh.
Qed.

(** A panic needs every resident block, but for the one where the search began, to be
    held by a TLB. *)
Lemma allocate_fails cpus b s : blocks_ok s -> allocate_block cpus b s = None ->
  used_blocks s = max_blocks s
  /\ forall k p, k <> next_swapout_idx s -> blocks s k = At p -> in_tlb cpus p.
Proof.
  intros K. unfold allocate_block. destruct (Z.leb_spec (max_blocks s) (used_blocks s)) as [M|M]; [|discriminate].
  pose proof (ok_next s K) as Nx. pose proof (ok_used s K). destruct (blocks_bounds s K) as (B & _).
  pose proof (find_victim_ends cpus s K (Z.to_nat (num_blocks s)) (next_swapout_idx s) (num_blocks s) Nx ltac:(lia) ltac:(lia)) as R.
  replace (round s (next_swapout_idx s) (num_blocks s)) with (next_swapout_idx s) in R
    by (unfold round; replace (next_swapout_idx s + num_blocks s) with (next_swapout_idx s + 1 * num_blocks s) by lia;
        rewrite Z.mod_add, Z.mod_small by lia; reflexivity).
  destruct (find_victim _ _ _ _ _) as [i p| |]; [discriminate| |contradiction]. intros _.
  split; [lia|]. intros k p Nk Hk. destruct (ok_at s K k p Hk) as (Bk & _).
  set (n := num_blocks s) in *. set (i := next_swapout_idx s) in *.
  assert (E : round s i ((k - i) mod n) = k).
  { unfold round. fold n. rewrite Z.add_mod_idemp_r by lia. replace (i + (k - i)) with k by lia. now apply Z.mod_small. }
  pose proof (Z.mod_pos_bound (k - i) n ltac:(lia)) as Pk.
  apply (R ((k - i) mod n)); [|now rewrite E]. split; [|lia].
  destruct (Z.eq_dec ((k - i) mod n) 0) as [Z0|]; [|lia]. exfalso. apply Nk. rewrite <- E, Z0.
  unfold round. fold n. rewrite Z.add_0_r. now apply Z.mod_small.
Qed.

(** ** [get_vector] *)

Lemma block_of s a : blocks_ok s -> 0 <= a < len s ->
  u32 (a / BX_MEM_BLOCK_LEN) = a / BX_MEM_BLOCK_LEN /\ 0 <= a / BX_MEM_BLOCK_LEN < num_blocks s
  /\ Z.land a (BX_MEM_BLOCK_LEN - 1) = a mod BX_MEM_BLOCK_LEN.
Proof.
  intros K Ha. destruct (blocks_bounds s K) as (B & _). destruct (ok_len s K) as [L Lm].
  assert (R : 0 <= a / BX_MEM_BLOCK_LEN < num_blocks s).
  { split; [apply Z.div_pos; [lia|reflexivity]|]. apply Z.div_lt_upper_bound; [reflexivity|].
    unfold num_blocks. apply Z.mod_divide in Lm; [|lia]. destruct Lm as [x Ex]. rewrite Ex in *.
    unfold BX_MEM_BLOCK_LEN. replace (x * 0x100000) with (x * 8 * (128 * 1024)) by lia. rewrite Z.div_mul by lia. lia. }
  split; [apply wrap_id; unfold fits; lia|split; [exact R|]].
  change (BX_MEM_BLOCK_LEN - 1) with (Z.ones 17). change BX_MEM_BLOCK_LEN with (2 ^ 17). now apply Z.land_ones.
Qed.

Lemma allocates_refl cpus b s p : blocks_ok s -> blocks s b = At p -> allocates cpus b s s.
Proof. intros K E. split; eauto. Qed.

Lemma get_vector_ok cpus a s h s' : blocks_ok s -> 0 <= a < len s -> get_vector cpus a s = Some (h, s') ->
  allocates cpus (a / BX_MEM_BLOCK_LEN) s s'
  /\ exists p, blocks s' (a / BX_MEM_BLOCK_LEN) = At p /\ h = p + a mod BX_MEM_BLOCK_LEN.
Proof.
  intros K Ha. destruct (block_of s a K Ha) as (E1 & R & E2). unfold get_vector. cbv zeta. rewrite E1, E2.
  set (b := a / BX_MEM_BLOCK_LEN) in *.
  assert (New : (forall q, blocks s b <> At q) ->
    match allocate_block cpus b s with
    | Some s1 => match blocks s1 b with At p => Some (p + a mod BX_MEM_BLOCK_LEN, s1) | _ => None end
    | None => None
    end = Some (h, s') ->
    allocates cpus b s s' /\ exists p, blocks s' b = At p /\ h = p + a mod BX_MEM_BLOCK_LEN).
  { intros Nb E. destruct (allocate_block cpus b s) as [s1|] eqn:Al; [|discriminate].
    pose proof (allocate_ok cpus b s s1 K R Nb Al) as O. destruct (blocks s1 b) as [| |p] eqn:Bp; try discriminate.
    injection E as <- <-. split; [exact O|]. eauto. }
  destruct (blocks s b) as [| |p] eqn:B; try (apply New; congruence).
  intros E. injection E as <- <-. split; [exact (allocates_refl cpus b s p K B)|]. eauto.
Qed.

(** ** Accesses

    One byte of RAM, as every access to RAM through [get_vector] ends: the pointer is
    used at once. *)

Inductive ram_op := Rd (a : Z) | Wr (a v : Z).

Definition op_address (o : ram_op) : Z := match o with Rd a => a | Wr a _ => a end.

Definition ram_step (cpus : list cpu_hosts) (o : ram_op) (s : block_mem) : option (list Z * block_mem) :=
  match get_vector cpus (op_address o) s with
  | None => None
  | Some (h, s') =>
    match o with
    | Rd _ => Some ([u8 (host s' h)], s')
    | Wr _ v => Some ([], s' <| host := upd (host s') h (u8 v) |>)
    end
  end.

(** Each access with what the processors' TLBs hold by then. *)
Fixpoint ram_run (ops : list (list cpu_hosts * ram_op)) (s : block_mem) : option (list Z * block_mem) :=
  match ops with
  | [] => Some ([], s)
  | (cpus, o) :: ops' =>
    match ram_step cpus o s with
    | None => None
    | Some (r, s1) =>
      match ram_run ops' s1 with
      | None => None
      | Some (rs, s2) => Some (r ++ rs, s2)
      end
    end
  end.

(** The reference: an array of bytes. *)
Fixpoint flat_run (ops : list (list cpu_hosts * ram_op)) (f : Z -> Z) : list Z :=
  match ops with
  | [] => []
  | (_, Rd a) :: ops' => u8 (f a) :: flat_run ops' f
  | (_, Wr a v) :: ops' => flat_run ops' (upd f a (u8 v))
  end.

Lemma flat_run_ext ops : forall f g, (forall a, f a = g a) -> flat_run ops f = flat_run ops g.
Proof.
  induction ops as [|[cpus [a|a v]] ops IH]; intros f g E; [reflexivity| |]; cbn [flat_run].
  - rewrite E. f_equal. now apply IH.
  - apply IH. intros x. unfold upd. destruct (x =? a); [reflexivity|apply E].
Qed.

(** A write changes one byte of the contents. *)
Lemma content_write s a p v x : blocks_ok s -> blocks s (a / BX_MEM_BLOCK_LEN) = At p ->
  touched s (x / BX_MEM_BLOCK_LEN) ->
  content (s <| host := upd (host s) (p + a mod BX_MEM_BLOCK_LEN) v |>) x = upd (content s) a v x.
Proof.
  intros K E T. unfold content at 1. cbn [blocks host overflow_file set_field]. unfold upd.
  destruct (block_position a) as [Ea Pa], (block_position x) as [Ex Px].
  destruct (Z.eqb_spec x a) as [->|N]; [now rewrite E, Z.eqb_refl|].
  unfold content. destruct (blocks s (x / BX_MEM_BLOCK_LEN)) as [| |q] eqn:Eq; try reflexivity.
  replace (_ =? _) with false; [reflexivity|]. symmetry. apply Z.eqb_neq. intros H.
  destruct (Z.eq_dec (x / BX_MEM_BLOCK_LEN) (a / BX_MEM_BLOCK_LEN)) as [Eb|Nb].
  - apply N. rewrite Ea, Ex, Eb. rewrite Eb in Eq. rewrite E in Eq. injection Eq as <-. lia.
  - pose proof (at_apart s _ _ _ _ K Eq E Nb). lia.
Qed.

Lemma write_ok s h v : blocks_ok s -> blocks_ok (s <| host := upd (host s) h v |>).
Proof. intros [L A V U N T Ow Di S]. split; assumption. Qed.

Lemma ram_run_flat ops : forall s rs s', blocks_ok s ->
  Forall (fun o => 0 <= op_address (snd o) < len s) ops ->
  ram_run ops s = Some (rs, s') ->
  exists f, (forall a, touched s (a / BX_MEM_BLOCK_LEN) -> f a = content s a) /\ rs = flat_run ops f.
Proof.
  induction ops as [|[cpus o] ops IH]; intros s rs s' K H E.
  - injection E as <- <-. exists (content s). split; reflexivity.
  - cbn [ram_run] in E. inversion H as [|? ? Ho Hops]; subst. cbn [snd] in Ho.
    unfold ram_step in E. destruct (get_vector cpus (op_address o) s) as [[h s1]|] eqn:G; [|discriminate].
    destruct (get_vector_ok _ _ _ _ _ K Ho G) as [Al (p & Ep & Eh)].
    assert (Tp : touched s1 (op_address o / BX_MEM_BLOCK_LEN)) by (unfold touched; congruence).
    rewrite <- (al_len _ _ _ _ Al) in Hops.
    destruct o as [a|a v]; cbn [op_address] in *.
    + destruct (ram_run ops s1) as [[rs1 s2]|] eqn:R; [|discriminate]. injection E as <- <-.
      destruct (IH s1 rs1 s2 (al_ok _ _ _ _ Al) Hops R) as (f & Hf & ->). exists f. split.
      * intros x Tx. rewrite (Hf x (al_touched _ _ _ _ Al _ Tx)). now apply (al_content _ _ _ _ Al).
      * cbn [flat_run app]. rewrite (Hf a Tp). unfold content. now rewrite Ep, Eh.
    + set (s1' := s1 <| host := upd (host s1) h (u8 v) |>) in *.
      destruct (ram_run ops s1') as [[rs1 s2]|] eqn:R; [|discriminate]. injection E as <- <-.
      destruct (IH s1' rs1 s2 (write_ok s1 h (u8 v) (al_ok _ _ _ _ Al)) Hops R) as (f & Hf & ->).
      assert (W : forall x, touched s1 (x / BX_MEM_BLOCK_LEN) -> f x = upd (content s1) a (u8 v) x).
      { intros x Tx. rewrite (Hf x Tx). unfold s1'. rewrite Eh. apply content_write; [apply (al_ok _ _ _ _ Al)|exact Ep|exact Tx]. }
      exists (upd f a (content s1 a)). split.
      * intros x Tx. pose proof (al_touched _ _ _ _ Al _ Tx) as Tx1. rewrite <- (al_content _ _ _ _ Al x Tx).
        unfold upd at 1. destruct (Z.eqb_spec x a) as [->|N]; [reflexivity|].
        rewrite (W x Tx1). unfold upd. now rewrite (proj2 (Z.eqb_neq x a) N).
      * cbn [flat_run app]. apply flat_run_ext. intros x. unfold upd.
        destruct (Z.eqb_spec x a) as [->|N]; [|reflexivity]. rewrite (W a Tp). unfold upd. now rewrite Z.eqb_refl.
Qed.

(** ** Host memory for every block

    The other use of [get_vector]: code that keeps the pointer.  [prog] is any code
    that reaches host memory, whose result and pointers depend on what it finds. *)

Section OnDemand.
Context {A : Type}.

Inductive prog :=
| Ret (a : A)
| Vector (addr : Z) (k : Z -> prog)
| Load (h : Z) (k : Z -> prog)
| Store (h v : Z) (k : prog).

Fixpoint in_ram (bound : Z) (c : prog) : Prop :=
  match c with
  | Ret _ => True
  | Vector a k => 0 <= a < bound /\ forall h, in_ram bound (k h)
  | Load _ k => forall v, in_ram bound (k v)
  | Store _ _ k => in_ram bound k
  end.

Fixpoint on_demand (cpus : list cpu_hosts) (c : prog) (s : block_mem) : option (A * block_mem) :=
  match c with
  | Ret a => Some (a, s)
  | Vector addr k =>
    match get_vector cpus addr s with
    | Some (h, s') => on_demand cpus (k h) s'
    | None => None
    end
  | Load h k => on_demand cpus (k (host s h)) s
  | Store h v k => on_demand cpus k (s <| host := upd (host s) h v |>)
  end.

(** With a table that is complete from the start. *)
Fixpoint with_table (t : Z -> Z) (c : prog) (m : Z -> Z) : A * (Z -> Z) :=
  match c with
  | Ret a => (a, m)
  | Vector addr k => with_table t (k (t (addr / BX_MEM_BLOCK_LEN) + addr mod BX_MEM_BLOCK_LEN)) m
  | Load h k => with_table t (k (m h)) m
  | Store h v k => with_table t k (upd m h v)
  end.

End OnDemand.

(** While a block is unused, there is room. *)
Lemma room_left s b : blocks_ok s -> len s <= allocated s -> 0 <= b < num_blocks s -> (forall p, blocks s b <> At p) ->
  used_blocks s < max_blocks s.
Proof.
  intros K L Hb Nb. destruct (blocks_bounds s K) as (B & M & _). pose proof (ok_used s K) as U.
  assert (Le : num_blocks s <= max_blocks s) by (rewrite M; apply Z.div_le_mono; [reflexivity|exact L]).
  assert (Own : forall u, Z.of_nat u <= used_blocks s -> exists l, NoDup l /\ length l = u
    /\ forall c, In c l -> exists k, 0 <= k < Z.of_nat u /\ blocks s c = At (vector s + k * BX_MEM_BLOCK_LEN)).
  { induction u as [|u IH]; intros Hu; [exists []; split; [constructor|split; [reflexivity|intros c []]]|].
    destruct (IH ltac:(lia)) as (l & Nd & Ln & Hl). destruct (ok_owner s K (Z.of_nat u) ltac:(lia)) as (c & Hc).
    exists (c :: l). split; [|split; [cbn; lia|]].
    - constructor; [|exact Nd]. intros I. destruct (Hl c I) as (k & Hk & E). rewrite Hc in E. injection E as E.
      unfold BX_MEM_BLOCK_LEN in *. lia.
    - intros d [<-|I]; [exists (Z.of_nat u); split; [lia|exact Hc]|]. destruct (Hl d I) as (k & Hk & E).
      exists k. split; [lia|exact E]. }
  destruct (Own (Z.to_nat (used_blocks s)) ltac:(lia)) as (l & Nd & Ln & Hl).
  assert (Incl : incl (b :: l) (zrange (Z.to_nat (num_blocks s)))).
  { intros c [<-|I]; apply zrange_in; rewrite Z2Nat.id by lia; [exact Hb|].
    destruct (Hl c I) as (k & _ & E). exact (proj1 (ok_at s K c _ E)). }
  assert (Nd' : NoDup (b :: l)).
  { constructor; [|exact Nd]. intros I. destruct (Hl b I) as (k & _ & E). exact (Nb _ E). }
  pose proof (NoDup_incl_length Nd' Incl) as Len. unfold zrange in Len. rewrite length_map, length_seq in Len.
  cbn [length] in Len. lia.
Qed.

(** Nothing is swapped, and what has a place keeps it. *)
Record grows (s s' : block_mem) : Prop := {
  gr_ok : blocks_ok s';
  gr_len : len s' = len s;
  gr_allocated : allocated s' = allocated s;
  gr_vector : vector s' = vector s;
  gr_at b p : blocks s b = At p -> blocks s' b = At p;
}.

Lemma grows_refl s : blocks_ok s -> grows s s.
Proof. intros K. split; auto. Qed.

Lemma grows_trans s1 s2 s3 : grows s1 s2 -> grows s2 s3 -> grows s1 s3.
Proof. intros [K1 L1 A1 V1 T1] [K2 L2 A2 V2 T2]. split; try congruence; auto. Qed.

Lemma grow_block cpus b s : blocks_ok s -> len s <= allocated s -> 0 <= b < num_blocks s -> (forall p, blocks s b <> At p) ->
  exists s' p, allocate_block cpus b s = Some s' /\ grows s s' /\ blocks s' b = At p /\ host s' = host s.
Proof.
  intros K L Hb Nb. pose proof (room_left s b K L Hb Nb) as R. unfold allocate_block.
  rewrite (proj2 (Z.leb_gt _ _) R). pose proof (allocate_fresh cpus b s K Hb Nb R) as F.
  destruct (al_at _ _ _ _ F) as (p & Ep). eexists; exists p. split; [reflexivity|split; [|split; [exact Ep|reflexivity]]].
  split; try reflexivity; [exact (al_ok _ _ _ _ F)|]. intros k q E. cbn [set_block blocks set_field].
  destruct (Z.eqb_spec k b) as [->|]; [now elim (Nb q)|exact E].
Qed.

Lemma get_vector_grows cpus a s : blocks_ok s -> len s <= allocated s -> 0 <= a < len s ->
  exists s' p, get_vector cpus a s = Some (p + a mod BX_MEM_BLOCK_LEN, s') /\ grows s s'
    /\ blocks s' (a / BX_MEM_BLOCK_LEN) = At p /\ host s' = host s.
Proof.
  intros K L Ha. destruct (block_of s a K Ha) as (E1 & R & E2). unfold get_vector. cbv zeta. rewrite E1, E2.
  destruct (blocks s (a / BX_MEM_BLOCK_LEN)) as [| |p] eqn:B;
    [destruct (grow_block cpus _ s K L R ltac:(congruence)) as (s' & p & -> & G & Ep & Hh);
     exists s', p; rewrite Ep; auto..|].
  exists s, p. split; [reflexivity|split; [now apply grows_refl|split; [exact B|reflexivity]]].
Qed.

Lemma on_demand_table {A} cpus (c : prog (A := A)) : forall s, blocks_ok s -> len s <= allocated s -> in_ram (len s) c ->
  exists a s', on_demand cpus c s = Some (a, s') /\ grows s s'
    /\ forall t, (forall b p, blocks s' b = At p -> t b = p) -> with_table t c (host s) = (a, host s').
Proof.
  induction c as [a|addr k IH|h k IH|h v k IH]; intros s K L R; cbn [on_demand with_table in_ram] in *.
  - exists a, s. split; [reflexivity|split; [now apply grows_refl|reflexivity]].
  - destruct R as [Ha R]. destruct (get_vector_grows cpus addr s K L Ha) as (s1 & p & -> & G & Ep & Hh).
    destruct (IH (p + addr mod BX_MEM_BLOCK_LEN) s1 (gr_ok _ _ G)) as (a & s' & E & G' & T).
    + now rewrite (gr_len _ _ G), (gr_allocated _ _ G).
    + rewrite (gr_len _ _ G). apply R.
    + exists a, s'. split; [exact E|split; [exact (grows_trans _ _ _ G G')|]]. intros t Ht.
      rewrite (Ht _ p (gr_at _ _ G' _ _ Ep)), <- Hh. now apply T.
  - exact (IH (host s h) s K L (R _)).
  - destruct (IH (s <| host := upd (host s) h v |>) (write_ok s h v K) L R) as (a & s' & E & G & T).
    exists a, s'. split; [exact E|split; [|exact T]]. destruct G as [Ok Ln Al Vc T']. split; assumption.
Qed.

(** The table with every block in its place. *)
Lemma table_complete s : blocks_ok s -> len s <= allocated s ->
  exists s', grows s s' /\ forall b, 0 <= b < num_blocks s -> exists p, blocks s' b = At p.
Proof.
  intros K L. assert (H : forall n, Z.of_nat n <= num_blocks s ->
    exists s', grows s s' /\ forall b, 0 <= b < Z.of_nat n -> exists p, blocks s' b = At p).
  { induction n as [|n IH]; intros Hn; [exists s; split; [now apply grows_refl|lia]|].
    destruct (IH ltac:(lia)) as (s1 & G & T). assert (N1 : num_blocks s1 = num_blocks s) by (unfold num_blocks; now rewrite (gr_len _ _ G)).
    destruct (blocks s1 (Z.of_nat n)) as [| |p] eqn:B.
    3: { exists s1. split; [exact G|]. intros b Hb. destruct (Z.eq_dec b (Z.of_nat n)) as [->|]; [eauto|apply T; lia]. }
    all: destruct (grow_block [] (Z.of_nat n) s1 (gr_ok _ _ G)) as (s2 & p & _ & G2 & Ep & _);
      [rewrite (gr_len _ _ G), (gr_allocated _ _ G); exact L|lia|congruence|];
      exists s2; (split; [exact (grows_trans _ _ _ G G2)|]); intros b Hb;
      (destruct (Z.eq_dec b (Z.of_nat n)) as [->|]; [eauto|]);
      destruct (T b ltac:(lia)) as (q & Eq); exists q; exact (gr_at _ _ G2 _ _ Eq). }
  destruct (blocks_bounds s K) as (B & _). destruct (H (Z.to_nat (num_blocks s)) ltac:(lia)) as (s' & G & T).
  exists s'. split; [exact G|]. intros b Hb. apply T. lia.
Qed.

(** ** The guarantees *)

Record config_ok (guest host_size vec : Z) : Prop := {
  cf_guest : 0x100000 <= guest < 2 ^ 48 /\ guest mod 0x100000 = 0;
  cf_host : 0x100000 <= host_size <= 2 ^ 31 /\ host_size mod 0x100000 = 0;
  cf_vec : 0 < vec;
}.

Lemma init_ok guest host_size vec contents : config_ok guest host_size vec ->
  blocks_ok (init_blocks guest host_size vec contents).
Proof.
  intros [G H V]. split; try assumption; try discriminate.
  - cbn [init_blocks used_blocks]. split; [lia|]. unfold max_blocks, u32, wrap. apply Z.mod_pos_bound. reflexivity.
  - cbn [init_blocks next_swapout_idx]. split; [lia|]. unfold num_blocks. cbn [init_blocks len].
    apply Z.div_str_pos. unfold BX_MEM_BLOCK_LEN. lia.
  - cbn [init_blocks used_blocks]. lia.
Qed.

Lemma ram_run_ok ops : forall s rs s', blocks_ok s -> Forall (fun o => 0 <= op_address (snd o) < len s) ops ->
  ram_run ops s = Some (rs, s') -> blocks_ok s' /\ len s' = len s.
Proof.
  induction ops as [|[cpus o] ops IH]; intros s rs s' K H E; [injection E as <- <-; auto|].
  cbn [ram_run] in E. inversion H as [|? ? Ho Hops]; subst. cbn [snd] in Ho. unfold ram_step in E.
  destruct (get_vector cpus (op_address o) s) as [[h s1]|] eqn:G; [|discriminate].
  destruct (get_vector_ok _ _ _ _ _ K Ho G) as [Al _]. rewrite <- (al_len _ _ _ _ Al) in Hops |- *.
  destruct o as [a|a v];
    [destruct (ram_run ops s1) as [[rs1 s2]|] eqn:R|
     set (s1' := s1 <| host := upd (host s1) h (u8 v) |>) in *; destruct (ram_run ops s1') as [[rs1 s2]|] eqn:R];
    try discriminate; injection E as <- <-.
  - exact (IH _ _ _ (al_ok _ _ _ _ Al) Hops R).
  - exact (IH s1' _ _ (write_ok _ h (u8 v) (al_ok _ _ _ _ Al)) Hops R).
Qed.

Lemma ram_run_panic ops : forall s, blocks_ok s -> Forall (fun o => 0 <= op_address (snd o) < len s) ops ->
  ram_run ops s = None ->
  exists ops1 cpus o ops2 rs s1, ops = ops1 ++ (cpus, o) :: ops2 /\ ram_run ops1 s = Some (rs, s1)
    /\ used_blocks s1 = max_blocks s1
    /\ forall k p, k <> next_swapout_idx s1 -> blocks s1 k = At p -> in_tlb cpus p.
Proof.
  induction ops as [|[cpus o] ops IH]; intros s K H E; [discriminate|].
  cbn [ram_run] in E. inversion H as [|? ? Ho Hops]; subst. cbn [snd] in Ho.
  destruct (ram_step cpus o s) as [[r s1]|] eqn:St.
  - assert (One : ram_run [(cpus, o)] s = Some (r ++ [], s1)) by (cbn [ram_run]; now rewrite St).
    assert (Hone : Forall (fun o => 0 <= op_address (snd o) < len s) [(cpus, o)]) by now constructor.
    destruct (ram_run_ok _ _ _ _ K Hone One) as [K1 L1]. rewrite <- L1 in Hops.
    destruct (ram_run ops s1) as [[rs s2]|] eqn:R; [discriminate|].
    destruct (IH s1 K1 Hops R) as (ops1 & cpus' & o' & ops2 & rs & s2 & -> & R1 & X).
    exists ((cpus, o) :: ops1), cpus', o', ops2, (r ++ rs), s2. split; [reflexivity|split; [|exact X]].
    cbn [ram_run]. now rewrite St, R1.
  - exists [], cpus, o, ops, [], s. split; [reflexivity|split; [reflexivity|]]. unfold ram_step in St.
    destruct (block_of s _ K Ho) as (E1 & R & E2). unfold get_vector in St. cbv zeta in St. rewrite E1, E2 in St.
    set (b := op_address o / BX_MEM_BLOCK_LEN) in *.
    destruct (allocate_block cpus b s) as [s1|] eqn:Al; [|exact (allocate_fails cpus b s K Al)].
    exfalso. assert (Nb : forall q, blocks s b <> At q).
    { intros q Eq. rewrite Eq in St. destruct o; discriminate. }
    destruct (al_at _ _ _ _ (allocate_ok cpus b s s1 K R Nb Al)) as (p & Ep). rewrite Ep in St.
    destruct (blocks s b) as [| |q]; destruct o; try discriminate; now elim (Nb q).
Qed.

(** C26: With any amount of host memory, reads and writes of guest RAM give what an
    array of bytes gives, whatever blocks are swapped out to the file meanwhile and
    whatever the TLBs of the processors hold at each access; only the first contents
    of RAM are arbitrary.  The one way to fail is the panic of the allocator, and then
    every resident block, but for the one where its search begins, has a TLB entry
    that points into it. *)
Theorem ram_is_flat guest host_size vec contents ops :
  config_ok guest host_size vec -> Forall (fun o => 0 <= op_address (snd o) < guest) ops ->
  match ram_run ops (init_blocks guest host_size vec contents) with
  | Some (rs, _) => exists f, rs = flat_run ops f
  | None => exists ops1 cpus o ops2 rs s, ops = ops1 ++ (cpus, o) :: ops2
      /\ ram_run ops1 (init_blocks guest host_size vec contents) = Some (rs, s)
      /\ used_blocks s = max_blocks s
      /\ forall k p, k <> next_swapout_idx s -> blocks s k = At p -> in_tlb cpus p
  end.
Proof.
  intros C H. pose proof (init_ok guest host_size vec contents C) as K.
  destruct (ram_run ops _) as [[rs s]|] eqn:E; [|exact (ram_run_panic ops _ K H E)].
  destruct (ram_run_flat ops _ rs s K H E) as (f & _ & F). now exists f.
Qed.

(** C28: When host memory is as large as guest memory, any code that reaches guest RAM
    through [get_vector], whenever it asks for pointers, whatever it keeps and however
    it goes on from what it reads, does the same as with a table of all blocks given
    from the start, with every block at its own place inside the allocation. *)
Theorem allocation_on_demand_unseen {A} guest host_size vec contents cpus (c : prog (A := A)) :
  config_ok guest host_size vec -> guest <= host_size -> in_ram guest c ->
  exists t a s, on_demand cpus c (init_blocks guest host_size vec contents) = Some (a, s)
    /\ with_table t c contents = (a, host s)
    /\ (forall b, 0 <= b < guest / BX_MEM_BLOCK_LEN -> b < 2 ^ 32 /\ t b mod BX_MEM_BLOCK_LEN = vec mod BX_MEM_BLOCK_LEN
        /\ vec <= t b /\ t b + BX_MEM_BLOCK_LEN <= vec + host_size)
    /\ forall b b', 0 <= b < guest / BX_MEM_BLOCK_LEN -> 0 <= b' < guest / BX_MEM_BLOCK_LEN -> t b = t b' -> b = b'.
Proof.
  intros C L R. pose proof (init_ok guest host_size vec contents C) as K.
  destruct (on_demand_table cpus c (init_blocks guest host_size vec contents) K L R) as (a & s & E & G & T).
  destruct (table_complete s (gr_ok _ _ G)) as (s2 & G2 & All); [now rewrite (gr_len _ _ G), (gr_allocated _ _ G)|].
  pose proof (grows_trans _ _ _ G G2) as G3. pose proof (gr_ok _ _ G3) as K2.
  assert (N : num_blocks s = guest / BX_MEM_BLOCK_LEN) by (unfold num_blocks; now rewrite (gr_len _ _ G)).
  assert (N2 : num_blocks s2 = guest / BX_MEM_BLOCK_LEN) by (unfold num_blocks; now rewrite (gr_len _ _ G3)).
  destruct (blocks_bounds s2 K2) as (B2 & M2 & M3 & _).
  exists (fun b => match blocks s2 b with At p => p | _ => 0 end), a, s.
  split; [exact E|split; [apply T; intros b p Ep; now rewrite (gr_at _ _ G2 b p Ep)|split]].
  - intros b Hb. rewrite <- N in Hb. destruct (All b Hb) as (p & Ep). rewrite Ep.
    destruct (ok_at s2 K2 b p Ep) as (_ & k & Hk & ->). rewrite (gr_vector _ _ G3). cbn [init_blocks vector].
    pose proof (ok_used s2 K2). rewrite (gr_allocated _ _ G3) in M3. cbn [init_blocks allocated] in M3.
    split; [lia|split; [now rewrite Z.mod_add by discriminate|]]. unfold BX_MEM_BLOCK_LEN in *. lia.
  - intros b b' Hb Hb'. rewrite <- N in Hb, Hb'. destruct (All b Hb) as (p & Ep), (All b' Hb') as (p' & Ep').
    rewrite Ep, Ep'. intros ->. exact (ok_distinct s2 K2 _ _ _ Ep Ep').
Qed.

(** A pointer that a TLB holds from one access to the next stays good. *)
Lemma held_block_stays ops : forall s rs s' b p, blocks_ok s -> Forall (fun o => 0 <= op_address (snd o) < len s) ops ->
  ram_run ops s = Some (rs, s') -> blocks s b = At p -> Forall (fun o => in_tlb (fst o) p) ops -> blocks s' b = At p.
Proof.
  induction ops as [|[cpus o] ops IH]; intros s rs s' b p K H E Hb Held; [injection E as <- <-; exact Hb|].
  inversion H as [|? ? Ho Hops]; inversion Held as [|? ? Hc Hcs]; subst. cbn [fst snd] in *.
  cbn [ram_run] in E. destruct (ram_step cpus o s) as [[r s1]|] eqn:St; [|discriminate].
  assert (One : ram_run [(cpus, o)] s = Some (r ++ [], s1)) by (cbn [ram_run]; now rewrite St).
  assert (Hone : Forall (fun o => 0 <= op_address (snd o) < len s) [(cpus, o)]) by now constructor.
  destruct (ram_run_ok _ _ _ _ K Hone One) as [K1 L1]. rewrite <- L1 in Hops.
  destruct (ram_run ops s1) as [[rs1 s2]|] eqn:R; [|discriminate]. injection E as <- <-.
  apply (IH s1 rs1 s2 b p K1 Hops R); [|exact Hcs].
  unfold ram_step in St. destruct (get_vector cpus (op_address o) s) as [[h s0]|] eqn:G; [|discriminate].
  destruct (get_vector_ok _ _ _ _ _ K Ho G) as [Al _]. pose proof (al_held _ _ _ _ Al b p Hb Hc) as H0.
  destruct o; injection St as _ <-; exact H0.
Qed.

(** ** One megabyte of host memory for two of the guest *)

Definition small_blocks : block_mem := init_blocks 0x200000 0x100000 0x10000000 (fun _ => 0).

(** Block 1 has a byte of its own, then the others are used, so that it is swapped out
    and comes back. *)
Definition around : list (list cpu_hosts * ram_op) :=
  ([], Wr 0x20010 7) :: map (fun b => ([], Wr (b * BX_MEM_BLOCK_LEN) b)) (zrange 16)
  ++ [([], Rd 0x20010); ([], Rd 0x1e0000); ([], Rd 0x20000)].

Lemma small_config : config_ok 0x200000 0x100000 0x10000000.
Proof. split; repeat split; try lia; reflexivity. Qed.

Lemma around_in_ram : Forall (fun o => 0 <= op_address (snd o) < 0x200000) around.
Proof.
  unfold around. constructor; [cbn; lia|]. apply Forall_app. split.
  - apply Forall_map, Forall_forall. intros b Hb. apply zrange_in in Hb. cbn. unfold BX_MEM_BLOCK_LEN. lia.
  - repeat constructor; cbn; lia.
Qed.

Lemma ram_is_flat_witness :
  exists f, [7; 15; 1] = flat_run around f.
Proof.
  pose proof (ram_is_flat 0x200000 0x100000 0x10000000 (fun _ => 0) around small_config around_in_ram) as H.
  fold small_blocks in H.
  assert (E : option_map fst (ram_run around small_blocks) = Some [7; 15; 1]) by (vm_compute; reflexivity).
  destruct (ram_run around small_blocks) as [[rs s]|]; [|discriminate]. injection E as ->. exact H.
Defined.

(** Code that takes a pointer to the second block before the first is used, stores
    through it, and reads its byte back over a new pointer. *)
Definition keeps_pointer : prog (A := Z) :=
  Vector 0x20000 (fun h => Vector 0 (fun h0 => Store h 5 (Store h0 6 (Vector 0x20000 (fun h' => Load h' (fun v => Ret v)))))).

Lemma allocation_on_demand_unseen_witness :
  exists t a s, on_demand [] keeps_pointer (init_blocks 0x100000 0x100000 0x10000000 (fun _ => 0)) = Some (a, s)
    /\ with_table t keeps_pointer (fun _ => 0) = (a, host s).
Proof.
  destruct (allocation_on_demand_unseen 0x100000 0x100000 0x10000000 (fun _ => 0) [] keeps_pointer)
    as (t & a & s & E & T & _).
  - split; repeat split; try lia; reflexivity.
  - lia.
  - cbn. repeat split; lia.
  - exists t, a, s. split; [exact E|exact T].
Defined.

(** The stack pointer of a processor ([espHostPtr]) is not among the pointers that
    [check_addr_in_tlb_buffers] looks at: with a stack in block 1 and no TLB entry
    for it, the block is swapped out and a push lands in the block that took its place. *)
Example stack_pointer_goes_stale :
  match ram_run (map (fun b => ([], Wr (b * BX_MEM_BLOCK_LEN) 0)) (zrange 8)) small_blocks with
  | Some (_, s) =>
    match get_vector [] 0x2ff00 s with
    | Some (espHostPtr, s) =>
      match ram_run [([], Wr 0x10ff00 1)] s with
      | Some (_, s) =>
        let s := s <| host := upd (host s) espHostPtr 9 |> in
        option_map fst (ram_run [([], Rd 0x10ff00); ([], Rd 0x2ff00)] s) = Some [9; 0]
      | None => False
      end
    | None => False
    end
  | None => False
  end.
Proof. vm_compute. reflexivity. Qed.
