(* ===== verification/PcSystem.v ===== *)
(** * Timers, clock and A20 line of the PC system (pc_system.h, pc_system.cc)

    [bx_pc_system_c] keeps a table of timers and a 32-bit countdown to the next
    one that is due; the CPU loop decrements the countdown with [tick1] and
    [tickn] and [countdownEvent] services the timers when it reaches 0.

    Timer handlers are device code: a handler is a value of the type [Fn] and
    [call] runs it on the state of the devices, [W], and on the PC system, whose
    public methods it may call.  The build has BX_TIMER_DEBUG = 0, a 64-bit
    physical address (BX_PHY_ADDRESS_LONG) and A20 support.  Conversions between
    time and ticks multiply by the [double] [m_ips]; they are functions of the
    model.  The names of timers, used in log messages only, are left out. *)

From Stdlib Require Import ZArith Lia List Bool.
From S2P Require Import Prelude.
Import ListNotations.
Open Scope Z_scope.

Definition BX_MAX_TIMERS := 64.
Definition NullTimerInterval := 0xffffffff.
Definition MinAllowableTimerPeriod := 1.
Definition BX_MAX_BIT64S := 0x7fffffffffffffff.

Section PcSystem.
Context {Fn W : Type}.

(** The handler of timer 0, or one that was registered. *)
Inductive handler := nullTimer | device (f : Fn).

(** An element of [timer]; NULL is [None]. *)
Record bx_timer := Timer {
  inUse : bool;
  period : Z;
  timeToFire : Z;
  active : bool;
  continuous : bool;
  funct : option handler;
  this_ptr : Z;
  param : Z;
}.

#[global] Instance bx_timer_eta : Eta bx_timer := fun t =>
  Timer (inUse t) (period t) (timeToFire t) (active t) (continuous t) (funct t) (this_ptr t) (param t).

(** [async_event] of CPU 0 and the number of TLB flushes requested from the CPUs
    are what the class does to the processors here. *)
Record bx_pc_system_c := PcSystem {
  timer : Z -> bx_timer;
  numTimers : Z;
  triggeredTimer : Z;
  currCountdown : Z;        (* Bit32u *)
  currCountdownPeriod : Z;  (* Bit32u *)
  ticksTotal : Z;           (* Bit64u *)
  lastTimeUsec : Z;         (* Bit64u *)
  usecSinceLast : Z;        (* Bit64u *)
  HRQ : bool;
  enable_a20 : bool;
  a20_mask : Z;
  async_event : bool;
  tlb_flushes : nat;
}.

#[global] Instance bx_pc_system_eta : Eta bx_pc_system_c := fun s =>
  PcSystem (timer s) (numTimers s) (triggeredTimer s) (currCountdown s) (currCountdownPeriod s)
    (ticksTotal s) (lastTimeUsec s) (usecSinceLast s) (HRQ s) (enable_a20 s) (a20_mask s)
    (async_event s) (tlb_flushes s).

Definition set_timer (i : Z) (f : bx_timer -> bx_timer) (s : bx_pc_system_c) : bx_pc_system_c :=
  s <| timer := fun k => if k =? i then f (timer s i) else timer s k |>.

(** The object has static storage: it is zero before the constructor runs. *)
Definition zero_timer : bx_timer := Timer false 0 0 false false None 0 0.

Definition constructed : bx_pc_system_c :=
  let zero := PcSystem (fun _ => zero_timer) 0 0 0 0 0 0 0 false false 0 false 0 in
  let s := zero <| ticksTotal := 0 |> in
  let s := set_timer 0 (fun t => t <| inUse := true |> <| period := NullTimerInterval |>
             <| active := true |> <| continuous := true |> <| funct := Some nullTimer |>) s in
  s <| numTimers := 1 |>.

(** [kill_bochs_request], a flag of the user interface, is left out. *)
Definition initialize (s : bx_pc_system_c) : bx_pc_system_c :=
  let s := s <| ticksTotal := 0 |> in
  let s := set_timer 0 (fun t => t <| timeToFire := NullTimerInterval |>) s in
  s <| currCountdown := NullTimerInterval |> <| currCountdownPeriod := NullTimerInterval |>
    <| lastTimeUsec := 0 |> <| usecSinceLast := 0 |> <| triggeredTimer := 0 |> <| HRQ := false |>.

Definition set_HRQ (val : bool) (s : bx_pc_system_c) : bx_pc_system_c :=
  let s := s <| HRQ := val |> in
  if val then s <| async_event := true |> else s.

Definition MemoryMappingChanged (s : bx_pc_system_c) : bx_pc_system_c :=
  s <| tlb_flushes := S (tlb_flushes s) |>.

Definition set_enable_a20 (value : bool) (s : bx_pc_system_c) : bx_pc_system_c :=
  let old_enable_a20 := enable_a20 s in
  let s := if value
           then s <| enable_a20 := true |> <| a20_mask := 0xffffffffffffffff |>
           else s <| enable_a20 := false |> <| a20_mask := 0xffffffffffefffff |> in
  if negb (eqb old_enable_a20 (enable_a20 s)) then MemoryMappingChanged s else s.

Definition A20ADDR (s : bx_pc_system_c) (x : Z) : Z := Z.land x (a20_mask s).

(** ** Time *)

Definition time_ticks (s : bx_pc_system_c) : Z :=
  u64 (ticksTotal s + u32 (currCountdownPeriod s - currCountdown s)).

(** ** Registration and activation *)

(** [if (ticks < Bit64u(currCountdown))] the countdown is shortened. *)
Definition skew (ticks : Z) (s : bx_pc_system_c) : bx_pc_system_c :=
  if ticks <? currCountdown s then
    let s := s <| currCountdownPeriod :=
                   u32 (currCountdownPeriod s - u32 (currCountdown s - u32 ticks)) |> in
    s <| currCountdown := u32 ticks |>
  else s.

(** [for (i = 1; i < numTimers; i++) if (timer[i].inUse == 0) break;] *)
Fixpoint find_slot (fuel : nat) (i : Z) (s : bx_pc_system_c) : Z :=
  match fuel with
  | O => i
  | S fuel =>
      if i <? numTimers s then
        if negb (inUse (timer s i)) then i else find_slot fuel (i + 1) s
      else i
  end.

(** The timer id, or -1. *)
Definition register_timer_ticks (this : Z) (f : option Fn) (ticks : Z) (cont act : bool)
    (s : bx_pc_system_c) : Z * bx_pc_system_c :=
  let ticks := if ticks <? MinAllowableTimerPeriod then MinAllowableTimerPeriod else ticks in
  let i := find_slot (Z.to_nat BX_MAX_TIMERS) 1 s in
  if numTimers s >=? BX_MAX_TIMERS then (-1, s)
  else
    let s := set_timer i (fun t => t <| inUse := true |> <| period := ticks |>
               <| timeToFire := u64 (time_ticks s + ticks) |> <| active := act |>
               <| continuous := cont |> <| funct := option_map device f |>
               <| this_ptr := this |> <| param := 0 |>) s in
    let s := if act then skew ticks s else s in
    let s := if i =? numTimers s then s <| numTimers := numTimers s + 1 |> else s in
    (i, s).

Definition activate_timer_ticks (i ticks : Z) (cont : bool) (s : bx_pc_system_c) : bx_pc_system_c :=
  let ticks := if ticks <? MinAllowableTimerPeriod then MinAllowableTimerPeriod else ticks in
  let s := set_timer i (fun t => t <| period := ticks |>
             <| timeToFire := u64 (time_ticks s + ticks) |>
             <| active := true |> <| continuous := cont |>) s in
  skew ticks s.

(** [activate_timer] and [activate_timer_nsec]: [conv] is the conversion of a
    time to ticks. *)
Definition activate_timer_conv (conv : Z -> Z) (i time : Z) (cont : bool) (s : bx_pc_system_c) :
    bx_pc_system_c :=
  if time =? 0 then activate_timer_ticks i (period (timer s i)) cont s
  else
    let ticks := conv time in
    let ticks := if ticks <? MinAllowableTimerPeriod then MinAllowableTimerPeriod else ticks in
    let s := set_timer i (fun t => t <| period := ticks |>) s in
    activate_timer_ticks i ticks cont s.

Definition register_timer (conv : Z -> Z) (this : Z) (f : option Fn) (useconds : Z) (cont act : bool)
    (s : bx_pc_system_c) : Z * bx_pc_system_c :=
  register_timer_ticks this f (conv useconds) cont act s.

Definition deactivate_timer (i : Z) (s : bx_pc_system_c) : bx_pc_system_c :=
  set_timer i (fun t => t <| active := false |>) s.

Definition unregisterTimer (i : Z) (s : bx_pc_system_c) : bool * bx_pc_system_c :=
  if active (timer s i) then (false, s)
  else
    let s := set_timer i (fun t => t <| inUse := false |> <| period := BX_MAX_BIT64S |>
               <| timeToFire := BX_MAX_BIT64S |> <| continuous := false |>
               <| funct := None |> <| this_ptr := 0 |>) s in
    let s := if i =? numTimers s - 1 then s <| numTimers := numTimers s - 1 |> else s in
    (true, s).

Definition setTimerParam (i p : Z) (s : bx_pc_system_c) : bx_pc_system_c :=
  set_timer i (fun t => t <| param := p |>) s.

Definition triggeredTimerParam (s : bx_pc_system_c) : Z := param (timer s (triggeredTimer s)).

(** ** The countdown event *)

(** The variables of the first loop. *)
Record scan := Scan {
  sc_timer : Z -> bx_timer;
  triggered : Z -> bool;
  minTimeToFire : Z;
  first : Z;
  last : Z;
}.

(** One iteration of the first loop, at clock [now]. *)
Definition scan_step (now : Z) (c : scan) (i : Z) : scan :=
  let t := sc_timer c i in
  let c := Scan (sc_timer c) (fun k => if k =? i then false else triggered c k)
             (minTimeToFire c) (first c) (last c) in
  if active t then
    if now =? timeToFire t then
      let t' := if negb (continuous t) then t <| active := false |>
                else t <| timeToFire := u64 (timeToFire t + period t) |> in
      let min' := if continuous t && (timeToFire t' <? minTimeToFire c)
                  then timeToFire t' else minTimeToFire c in
      Scan (fun k => if k =? i then t' else sc_timer c k)
           (fun k => if k =? i then true else triggered c k)
           min' (if i <? first c then i else first c) i
    else
      Scan (sc_timer c) (triggered c)
           (if timeToFire t <? minTimeToFire c then timeToFire t else minTimeToFire c)
           (first c) (last c)
  else c.

Definition scan_timers (now : Z) (s : bx_pc_system_c) : scan :=
  fold_left (scan_step now) (zrange (Z.to_nat (numTimers s)))
    (Scan (timer s) (fun _ => false) (u64 (-1)) (numTimers s) 0).

(** [for (i = first; i <= last; i++)] *)
Definition span (first last : Z) : list Z :=
  map (fun k => first + k) (zrange (Z.to_nat (last - first + 1))).

Variable call : Fn -> Z -> W -> bx_pc_system_c -> W * bx_pc_system_c.

Definition invoke (h : handler) (this : Z) (w : W) (s : bx_pc_system_c) : W * bx_pc_system_c :=
  match h with nullTimer => (w, s) | device f => call f this w s end.

(** One iteration of the second loop. *)
Definition fire (trig : Z -> bool) (ws : W * bx_pc_system_c) (i : Z) : W * bx_pc_system_c :=
  let '(w, s) := ws in
  match trig i, funct (timer s i) with
  | true, Some h =>
      let s := s <| triggeredTimer := i |> in
      let '(w, s) := invoke h (this_ptr (timer s i)) w s in
      (w, s <| triggeredTimer := 0 |>)
  | _, _ => (w, s)
  end.

Definition countdownEvent (ws : W * bx_pc_system_c) : W * bx_pc_system_c :=
  let '(w, s) := ws in
  let s := s <| ticksTotal := u64 (ticksTotal s + currCountdownPeriod s) |> in
  let c := scan_timers (ticksTotal s) s in
  let next := u32 (u64 (minTimeToFire c - ticksTotal s)) in
  let s := s <| timer := sc_timer c |> <| currCountdownPeriod := next |> <| currCountdown := next |> in
  fold_left (fire (triggered c)) (span (first c) (last c)) (w, s).

Definition tick1 (ws : W * bx_pc_system_c) : W * bx_pc_system_c :=
  let '(w, s) := ws in
  let s := s <| currCountdown := u32 (currCountdown s - 1) |> in
  if currCountdown s =? 0 then countdownEvent (w, s) else (w, s).

(** [while (n >= currCountdown)]; [None] when [fuel] runs out. *)
Fixpoint tickn (fuel : nat) (n : Z) (ws : W * bx_pc_system_c) : option (W * bx_pc_system_c) :=
  match fuel with
  | O => None
  | S fuel =>
      let '(w, s) := ws in
      if n >=? currCountdown s then
        let n := u32 (n - currCountdown s) in
        let s := s <| currCountdown := 0 |> in
        tickn fuel n (countdownEvent (w, s))
      else Some (w, s <| currCountdown := u32 (currCountdown s - n) |>)
  end.

(** ** Sequential time *)

(** [usec] converts ticks to microseconds ([time_usec]). *)
Definition time_usec_sequential (usec : Z -> Z) (s : bx_pc_system_c) : Z * bx_pc_system_c :=
  let this_time_usec := usec (time_ticks s) in
  let s :=
    if negb (this_time_usec =? lastTimeUsec s) then
      let diff_usec := u64 (this_time_usec - lastTimeUsec s) in
      let s := s <| lastTimeUsec := this_time_usec |> in
      if diff_usec >=? usecSinceLast s then s <| usecSinceLast := 0 |>
      else s <| usecSinceLast := u64 (usecSinceLast s - diff_usec) |>
    else s in
  let s := s <| usecSinceLast := u64 (usecSinceLast s + 1) |> in
  (u64 (this_time_usec + usecSinceLast s), s).

End PcSystem.

Arguments handler : clear implicits.
Arguments bx_timer : clear implicits.
Arguments bx_pc_system_c : clear implicits.
