(* ===== verification/PcSystemInv.v ===== *)
(** * The timer table: invariant and scheduling of the PC system's timers

    The invariant says that no active timer is due before the end of the current
    countdown, that the null timer keeps the countdown within 32 bits, and that
    slots beyond [numTimers] are free.  Public methods, the countdown event and
    the passing of time preserve it. *)

From Stdlib Require Import ZArith Lia List Bool.
From S2P Require Import Prelude PcSystem.
Import ListNotations.
Open Scope Z_scope.

(** Clock values and periods the theorems cover; 2^62 ticks are centuries. *)
Definition LIMIT := 2 ^ 62.

Section Invariant.
Context {Fn W : Type}.
Abbreviation sys := (bx_pc_system_c Fn).
Abbreviation tmr := (bx_timer Fn).
Implicit Types (s : sys) (t : tmr).

(** The tick of the next event, and the current tick without wrap-around. *)
Definition deadline s : Z := ticksTotal s + currCountdownPeriod s.
Definition clock s : Z := ticksTotal s + (currCountdownPeriod s - currCountdown s).

Definition timer_ok (lo now : Z) t : Prop :=
  (inUse t = true -> 1 <= period t <= LIMIT) /\
  (active t = true -> inUse t = true /\ lo <= timeToFire t <= now + period t).

Definition null_ok t : Prop :=
  inUse t = true /\ active t = true /\ continuous t = true /\
  period t = NullTimerInterval /\ funct t = Some nullTimer.

Record table_ok (tm : Z -> tmr) (n lo now : Z) : Prop := {
  tab_count : 1 <= n <= BX_MAX_TIMERS;
  tab_null : null_ok (tm 0);
  tab_slots i : inUse (tm i) = true -> 0 <= i < n;
  tab_timer i : timer_ok lo now (tm i);
}.

Record sys_ok0 s : Prop := {
  ok_table : table_ok (timer s) (numTimers s) (deadline s) (clock s);
  ok_countdown : 0 <= currCountdown s <= currCountdownPeriod s;
  ok_period : currCountdownPeriod s < 2 ^ 32;
  ok_ticks : 0 <= ticksTotal s;
}.

(** Between events the countdown is positive. *)
Definition sys_ok s : Prop := sys_ok0 s /\ 0 < currCountdown s.

Lemma timer_ok_mono lo lo' now now' t :
  lo' <= lo -> now <= now' -> timer_ok lo now t -> timer_ok lo' now' t.
Proof. intros ? ? [H1 H2]. split; [exact H1|]. intros A. destruct (H2 A). split; auto; lia. Qed.

Lemma table_mono tm n lo lo' now now' :
  lo' <= lo -> now <= now' -> table_ok tm n lo now -> table_ok tm n lo' now'.
Proof.
  intros ? ? [H1 H2 H3 H4]. split; auto. intros i. eapply timer_ok_mono; eauto.
Qed.

(** Changing one timer, other than the null timer. *)
Lemma table_set tm n n' lo now i t' :
  table_ok tm n lo now -> i <> 0 -> n <= n' <= BX_MAX_TIMERS ->
  (inUse t' = true -> 0 <= i < n') -> timer_ok lo now t' ->
  table_ok (fun k => if k =? i then t' else tm k) n' lo now.
Proof.
  intros [H1 H2 H3 H4] Hi Hn Hs Ht. split.
  - lia.
  - destruct (Z.eqb_spec 0 i); [lia | exact H2].
  - intros k. destruct (Z.eqb_spec k i) as [->|]; [exact Hs|]. intros U. specialize (H3 k U). lia.
  - intros k. destruct (k =? i); [exact Ht | apply H4].
Qed.

Lemma table_shrink tm n lo now :
  table_ok tm n lo now -> 1 < n -> inUse (tm (n - 1)) = false -> table_ok tm (n - 1) lo now.
Proof.
  intros [H1 H2 H3 H4] Hn Hf. split; auto; [lia|]. intros i U. specialize (H3 i U).
  assert (i <> n - 1) by congruence. lia.
Qed.

Lemma time_ticks_clock s : sys_ok0 s -> clock s < LIMIT -> time_ticks s = clock s.
Proof.
  intros [_ H1 H2 H3] Hc. unfold time_ticks, clock, LIMIT in *.
  rewrite (wrap_id 32) by (unfold fits; lia). apply wrap_id. unfold fits. lia.
Qed.

(** Shortening the countdown leaves the clock alone. *)
Lemma skew_spec ticks s :
  1 <= ticks -> 0 <= currCountdown s <= currCountdownPeriod s -> currCountdownPeriod s < 2 ^ 32 ->
  let s' := skew ticks s in
  timer s' = timer s /\ numTimers s' = numTimers s /\ ticksTotal s' = ticksTotal s /\
  clock s' = clock s /\ currCountdown s' = Z.min (currCountdown s) ticks /\
  deadline s' = clock s + Z.min (currCountdown s) ticks /\
  currCountdownPeriod s' <= currCountdownPeriod s.
Proof.
  intros Ht H1 H2. unfold skew, clock, deadline. destruct (Z.ltb_spec ticks (currCountdown s)) as [L|L].
  - cbn [set_field timer numTimers ticksTotal currCountdown currCountdownPeriod].
    rewrite !(wrap_id 32 ticks) by (unfold fits; lia).
    rewrite (wrap_id 32 (currCountdown s - ticks)) by (unfold fits; lia).
    rewrite (wrap_id 32) by (unfold fits; lia). repeat split; lia.
  - repeat split; lia.
Qed.

(** Timer [i] becomes [t'], which, if active, expires [period t'] ticks from now. *)
Lemma retime s s1 i t' n' :
  sys_ok s -> i <> 0 -> numTimers s <= n' <= BX_MAX_TIMERS -> 0 <= i < n' ->
  inUse t' = true -> 1 <= period t' <= LIMIT -> timeToFire t' = clock s + period t' ->
  timer s1 = (fun k => if k =? i then t' else timer s k) ->
  ticksTotal s1 = ticksTotal s -> currCountdown s1 = currCountdown s ->
  currCountdownPeriod s1 = currCountdownPeriod s ->
  let s2 := if active t' then skew (period t') s1 else s1 in
  table_ok (timer s2) n' (deadline s2) (clock s2) /\ clock s2 = clock s /\
  timer s2 = timer s1 /\ numTimers s2 = numTimers s1 /\ ticksTotal s2 = ticksTotal s /\
  0 < currCountdown s2 <= currCountdownPeriod s2 /\ currCountdownPeriod s2 < 2 ^ 32.
Proof.
  intros [[Ht H1 H2 H3] Hc] Hi Hn Hin Hu Hp He E1 E3 E4 E5 s2.
  assert (C1 : clock s1 = clock s) by (unfold clock; congruence).
  assert (D1 : deadline s1 = deadline s) by (unfold deadline; congruence).
  assert (T : forall lo, lo <= deadline s -> (active t' = true -> lo <= clock s + period t') ->
              table_ok (timer s1) n' lo (clock s)).
  { intros lo Hlo Ha. rewrite E1. apply table_set with (numTimers s); auto.
    - eapply table_mono; [exact Hlo | apply Z.le_refl | exact Ht].
    - split; [auto|]. intros A. split; [exact Hu|]. specialize (Ha A). lia. }
  subst s2. destruct (active t') eqn:A.
  - destruct (skew_spec (period t') s1) as (F1 & F2 & F3 & F4 & F5 & F6 & F7); try lia.
    rewrite F1, F2, F3, F4, F6, C1, E3. rewrite E4, E5 in *.
    unfold clock, deadline in *. split; [apply T; lia|]. repeat split; try lia.
  - rewrite C1, D1, E3, E4, E5. split; [|repeat split; lia].
    apply T; [lia | discriminate].
Qed.

(** ** Public methods *)

Lemma max_ticks ticks : (if ticks <? MinAllowableTimerPeriod then MinAllowableTimerPeriod else ticks) =
  Z.max 1 ticks.
Proof. unfold MinAllowableTimerPeriod. destruct (Z.ltb_spec ticks 1); lia. Qed.

Ltac sys_simpl := cbn [set_field set_timer timer numTimers triggeredTimer currCountdown
  currCountdownPeriod ticksTotal inUse period timeToFire active continuous funct this_ptr param] in *.

Lemma activate_ticks_ok s i ticks cont :
  sys_ok s -> clock s < LIMIT -> i <> 0 -> inUse (timer s i) = true -> ticks <= LIMIT ->
  let s' := activate_timer_ticks i ticks cont s in
  sys_ok s' /\ clock s' = clock s /\
  timer s' i = (timer s i) <| period := Z.max 1 ticks |> <| timeToFire := clock s + Z.max 1 ticks |>
                 <| active := true |> <| continuous := cont |> /\
  (forall k, k <> i -> timer s' k = timer s k).
Proof.
  intros Hs Hc Hi Hu Ht s'. subst s'. unfold activate_timer_ticks. rewrite max_ticks.
  pose proof (tab_slots _ _ _ _ (ok_table _ (proj1 Hs)) i Hu) as Hr.
  pose proof (tab_count _ _ _ _ (ok_table _ (proj1 Hs))) as Hn.
  rewrite time_ticks_clock by (apply Hs || exact Hc).
  rewrite (wrap_id 64 (clock s + Z.max 1 ticks)).
  2: { destruct Hs as [[_ H1 H2 H3] _]. unfold fits, clock, LIMIT in *. lia. }
  set (t' := (timer s i) <| period := Z.max 1 ticks |> <| timeToFire := clock s + Z.max 1 ticks |>
                <| active := true |> <| continuous := cont |>).
  pose proof (retime s (set_timer i (fun _ => t') s) i t' (numTimers s) Hs Hi ltac:(lia) Hr Hu) as R.
  change (active t') with true in R. change (period t') with (Z.max 1 ticks) in R.
  cbv iota zeta in R.
  change (set_timer i (fun t => t <| period := Z.max 1 ticks |>
    <| timeToFire := clock s + Z.max 1 ticks |> <| active := true |> <| continuous := cont |>) s)
    with (set_timer i (fun _ => t') s).
  set (s2 := skew (Z.max 1 ticks) (set_timer i (fun _ => t') s)) in *.
  destruct R as (T & C & E & N & K & D & P); try reflexivity; [unfold LIMIT in *; lia |].
  change (numTimers (set_timer i (fun _ => t') s)) with (numTimers s) in N.
  split; [|split; [exact C | split]].
  - split; [split|]; try lia; [rewrite N; exact T | rewrite K; apply (ok_ticks _ (proj1 Hs))].
  - rewrite E. sys_simpl. rewrite Z.eqb_refl. reflexivity.
  - intros k Hk. rewrite E. sys_simpl. apply Z.eqb_neq in Hk. rewrite Hk. reflexivity.
Qed.

Lemma find_slot_spec fuel s : forall i,
  1 <= i <= numTimers s -> numTimers s - i < Z.of_nat fuel ->
  let j := find_slot fuel i s in
  i <= j <= numTimers s /\ (j < numTimers s -> inUse (timer s j) = false) /\
  (forall k, i <= k < j -> inUse (timer s k) = true).
Proof.
  induction fuel as [|fuel IH]; intros i Hi Hf; [lia|]. cbn [find_slot].
  destruct (Z.ltb_spec i (numTimers s)) as [L|L].
  - destruct (inUse (timer s i)) eqn:U; cbn [negb].
    + destruct (IH (i + 1) ltac:(lia) ltac:(lia)) as (H1 & H2 & H3).
      split; [lia|]. split; [exact H2|]. intros k Hk.
      destruct (Z.eq_dec k i) as [->|]; [exact U | apply H3; lia].
    + split; [lia|]. split; [auto|]. intros k Hk. lia.
  - split; [lia|]. split; [lia|]. intros k Hk. lia.
Qed.

Lemma register_ok s this f ticks cont act :
  sys_ok s -> clock s < LIMIT -> ticks <= LIMIT ->
  let (i, s') := register_timer_ticks this f ticks cont act s in
  (i = -1 /\ s' = s /\ numTimers s = BX_MAX_TIMERS) \/
  (1 <= i <= numTimers s /\ inUse (timer s i) = false /\ sys_ok s' /\ clock s' = clock s /\
   timer s' i = Timer true (Z.max 1 ticks) (clock s + Z.max 1 ticks) act cont
                  (option_map device f) this 0 /\
   (forall k, k <> i -> timer s' k = timer s k) /\
   numTimers s' = Z.max (numTimers s) (i + 1)).
Proof.
  intros Hs Hc Ht. unfold register_timer_ticks. rewrite max_ticks, Z.geb_leb.
  pose proof (tab_count _ _ _ _ (ok_table _ (proj1 Hs))) as Hn.
  pose proof (find_slot_spec (Z.to_nat BX_MAX_TIMERS) s 1 ltac:(lia)
                ltac:(unfold BX_MAX_TIMERS in *; lia)) as F.
  set (i := find_slot (Z.to_nat BX_MAX_TIMERS) 1 s) in *. destruct F as (F1 & F2 & _).
  destruct (Z.leb_spec BX_MAX_TIMERS (numTimers s)) as [L|L]; [left; repeat split; lia|].
  right. rewrite time_ticks_clock by (apply Hs || exact Hc).
  rewrite (wrap_id 64 (clock s + Z.max 1 ticks)).
  2: { destruct Hs as [[_ H1 H2 H3] _]. unfold fits, clock, LIMIT in *. lia. }
  set (t' := Timer true (Z.max 1 ticks) (clock s + Z.max 1 ticks) act cont
                   (option_map device f) this 0).
  match goal with |- context [set_timer i ?g s] =>
    change (set_timer i g s) with (set_timer i (fun _ => t') s) end.
  pose proof (retime s (set_timer i (fun _ => t') s) i t' (Z.max (numTimers s) (i + 1)) Hs ltac:(lia)
                ltac:(lia) ltac:(lia) eq_refl) as R.
  change (active t') with act in R. change (period t') with (Z.max 1 ticks) in R. cbv zeta in R.
  set (s2 := if act then skew (Z.max 1 ticks) (set_timer i (fun _ => t') s)
             else set_timer i (fun _ => t') s) in *.
  destruct R as (T & C & E & N & K & D & P); try reflexivity; [unfold LIMIT in *; lia |].
  change (numTimers (set_timer i (fun _ => t') s)) with (numTimers s) in N.
  assert (U : inUse (timer s i) = false).
  { destruct (Z.eq_dec i (numTimers s)) as [Ei|]; [|apply F2; lia].
    destruct (inUse (timer s i)) eqn:U; [|reflexivity].
    pose proof (tab_slots _ _ _ _ (ok_table _ (proj1 Hs)) i U). lia. }
  assert (Et : timer (if i =? numTimers s2 then s2 <| numTimers := numTimers s2 + 1 |> else s2) = timer s2)
    by (destruct (_ =? _); reflexivity).
  assert (En : numTimers (if i =? numTimers s2 then s2 <| numTimers := numTimers s2 + 1 |> else s2) =
               Z.max (numTimers s) (i + 1)).
  { rewrite N. destruct (Z.eqb_spec i (numTimers s)); sys_simpl; lia. }
  split; [lia|]. split; [exact U|]. split; [|split; [|split; [|split]]].
  - pose proof (ok_ticks _ (proj1 Hs)) as O.
    split; [split|]; rewrite ?En, ?Et; destruct (i =? numTimers s2); try exact T; sys_simpl; lia.
  - destruct (i =? numTimers s2); exact C.
  - rewrite Et, E. sys_simpl. rewrite Z.eqb_refl. reflexivity.
  - intros k Hk. rewrite Et, E. sys_simpl. apply Z.eqb_neq in Hk. rewrite Hk. reflexivity.
  - exact En.
Qed.

(** A change of one timer that touches neither its schedule nor the clock. *)
Lemma quiet_ok s i t' : sys_ok s -> i <> 0 -> inUse (timer s i) = true ->
  timer_ok (deadline s) (clock s) t' -> sys_ok (set_timer i (fun _ => t') s).
Proof.
  intros [[T H1 H2 H3] Hc] Hi Hu Ht. pose proof (tab_slots _ _ _ _ T i Hu).
  pose proof (tab_count _ _ _ _ T). split; [|exact Hc]. split; try assumption.
  apply (table_set (timer s) (numTimers s) (numTimers s) (deadline s) (clock s)); auto; lia.
Qed.

Lemma deactivate_ok s i : sys_ok s -> i <> 0 -> inUse (timer s i) = true -> sys_ok (deactivate_timer i s).
Proof.
  intros Hs Hi Hu. apply (quiet_ok s i _ Hs Hi Hu).
  destruct (tab_timer _ _ _ _ (ok_table _ (proj1 Hs)) i) as [H1 H2]. split; sys_simpl; [exact H1 | discriminate].
Qed.

Lemma set_param_ok s i p : sys_ok s -> i <> 0 -> inUse (timer s i) = true -> sys_ok (setTimerParam i p s).
Proof.
  intros Hs Hi Hu. apply (quiet_ok s i _ Hs Hi Hu).
  destruct (tab_timer _ _ _ _ (ok_table _ (proj1 Hs)) i) as [H1 H2]. split; sys_simpl; assumption.
Qed.

Lemma unregister_ok s i : sys_ok s -> i <> 0 -> inUse (timer s i) = true ->
  let (b, s') := unregisterTimer i s in
  b = negb (active (timer s i)) /\ sys_ok s' /\ clock s' = clock s /\
  inUse (timer s' i) = active (timer s i) /\ (forall k, k <> i -> timer s' k = timer s k).
Proof.
  intros Hs Hi Hu. unfold unregisterTimer. destruct (active (timer s i)) eqn:A.
  - split; [reflexivity|]. split; [exact Hs|]. split; [reflexivity|]. auto.
  - set (t' := (timer s i) <| inUse := false |> <| period := BX_MAX_BIT64S |>
      <| timeToFire := BX_MAX_BIT64S |> <| continuous := false |> <| funct := None |> <| this_ptr := 0 |>).
    assert (Q : sys_ok (set_timer i (fun _ => t') s)).
    { apply quiet_ok; auto. split; [discriminate|]. subst t'. sys_simpl. congruence. }
    match goal with |- context [set_timer i ?g s] =>
      change (set_timer i g s) with (set_timer i (fun _ => t') s) end.
    set (s1 := set_timer i (fun _ => t') s) in *.
    assert (T1 : inUse (timer s1 i) = false) by (subst s1; sys_simpl; rewrite Z.eqb_refl; reflexivity).
    assert (T2 : forall k, k <> i -> timer s1 k = timer s k).
    { intros k Hk. subst s1. sys_simpl. apply Z.eqb_neq in Hk. rewrite Hk. reflexivity. }
    pose proof (tab_slots _ _ _ _ (ok_table _ (proj1 Hs)) i Hu) as Hr.
    change (numTimers s) with (numTimers s1) in Hr. cbv zeta.
    split; [reflexivity|]. destruct (Z.eqb_spec i (numTimers s1 - 1)) as [E|E].
    + split; [|split; [reflexivity | auto]]. destruct Q as [[QT Q1 Q2 Q3] Qc].
      split; [|exact Qc]. split; try assumption.
      apply (table_shrink _ _ _ _ QT); [lia | rewrite <- E; exact T1].
    + split; [exact Q|]. split; [reflexivity | auto].
Qed.

End Invariant.
