(* ===== verification/PcSystemProps.v ===== *)
(** * Timers fire on time

    The countdown event and the passing of ticks, for handlers that use the
    timers through the public methods. *)

From Stdlib Require Import ZArith Lia List Bool FunctionalExtensionality.
From S2P Require Import Prelude PcSystem PcSystemInv.
Import ListNotations.
Open Scope Z_scope.

(** ** Programs of public method calls *)

Section Api.
Context {Fn : Type}.
Abbreviation sys := (bx_pc_system_c Fn).
Implicit Types s : sys.

Inductive api :=
| RegisterTimer (this : Z) (f : option Fn) (ticks : Z) (cont act : bool)
| ActivateTicks (i ticks : Z) (cont : bool)
| ActivateTime (conv : Z -> Z) (i time : Z) (cont : bool)
| DeactivateTimer (i : Z)
| UnregisterTimer (i : Z)
| SetTimerParam (i p : Z)
| SetHRQ (val : bool)
| SetA20 (val : bool).

Definition api_run (c : api) s : sys :=
  match c with
  | RegisterTimer this f ticks cont act => snd (register_timer_ticks this f ticks cont act s)
  | ActivateTicks i ticks cont => activate_timer_ticks i ticks cont s
  | ActivateTime conv i time cont => activate_timer_conv conv i time cont s
  | DeactivateTimer i => deactivate_timer i s
  | UnregisterTimer i => snd (unregisterTimer i s)
  | SetTimerParam i p => setTimerParam i p s
  | SetHRQ val => set_HRQ val s
  | SetA20 val => set_enable_a20 val s
  end.

(** The timer a call names, which must be registered and not the null timer
    (what the BX_TIMER_DEBUG build checks). *)
Definition names (c : api) : option Z :=
  match c with
  | ActivateTicks i _ _ | ActivateTime _ i _ _ | DeactivateTimer i | UnregisterTimer i
  | SetTimerParam i _ => Some i
  | _ => None
  end.

Definition api_legal (c : api) s : Prop :=
  match names c with Some i => i <> 0 /\ inUse (timer s i) = true | None => True end /\
  match c with
  | RegisterTimer _ _ ticks _ _ | ActivateTicks _ ticks _ => ticks <= LIMIT
  | ActivateTime conv _ time _ => conv time <= LIMIT
  | _ => True
  end.

Fixpoint run (cs : list api) s : sys :=
  match cs with [] => s | c :: cs => run cs (api_run c s) end.

Fixpoint legal (cs : list api) s : Prop :=
  match cs with [] => True | c :: cs => api_legal c s /\ legal cs (api_run c s) end.

Lemma set_timer_twice i (f g : bx_timer Fn -> bx_timer Fn) s :
  set_timer i f (set_timer i g s) = set_timer i (fun t => f (g t)) s.
Proof.
  unfold set_timer. cbn [set_field timer]. f_equal.
  apply functional_extensionality. intros k. rewrite Z.eqb_refl. destruct (k =? i); reflexivity.
Qed.

Lemma set_timer_other i (f : bx_timer Fn -> bx_timer Fn) s k :
  k <> i -> timer (set_timer i f s) k = timer s k.
Proof. intros N. unfold set_timer. cbn [set_field timer]. apply Z.eqb_neq in N. rewrite N. reflexivity. Qed.

(** The fields the invariant depends on. *)
Lemma sys_ok_ext s s' : sys_ok s -> timer s' = timer s -> numTimers s' = numTimers s ->
  ticksTotal s' = ticksTotal s -> currCountdown s' = currCountdown s ->
  currCountdownPeriod s' = currCountdownPeriod s -> sys_ok s' /\ clock s' = clock s.
Proof.
  intros [[T H1 H2 H3] Hc] E1 E2 E3 E4 E5. unfold sys_ok, clock, deadline in *.
  split; [split; [split|]|]; unfold clock, deadline; rewrite ?E1, ?E2, ?E3, ?E4, ?E5; assumption || reflexivity.
Qed.

(** A call changes the timer it names, or registers a free one. *)
Lemma api_run_ok c s : sys_ok s -> clock s < LIMIT -> api_legal c s ->
  sys_ok (api_run c s) /\ clock (api_run c s) = clock s /\
  forall k, names c <> Some k -> inUse (timer s k) = true -> timer (api_run c s) k = timer s k.
Proof.
  intros Hs Hc [Hn Hl]. destruct c; cbn [names api_run] in *.
  - pose proof (register_ok s this f ticks cont act Hs Hc Hl) as R.
    destruct (register_timer_ticks this f ticks cont act s) as [i s']. cbn [snd].
    destruct R as [(_ & -> & _) | (_ & U & O & C & _ & F & _)]; [auto|].
    split; [exact O|]. split; [exact C|]. intros k _ Hk. apply F. congruence.
  - destruct Hn as [Ni Ui]. destruct (activate_ticks_ok s i ticks cont Hs Hc Ni Ui Hl) as (O & C & _ & F).
    split; [exact O|]. split; [exact C|]. intros k Hk _. apply F. congruence.
  - destruct Hn as [Ni Ui]. unfold activate_timer_conv. rewrite max_ticks.
    destruct (Z.eqb_spec time 0).
    + destruct (activate_ticks_ok s i (period (timer s i)) cont Hs Hc Ni Ui) as (O & C & _ & F).
      { apply (tab_timer _ _ _ _ (ok_table _ (proj1 Hs)) i), Ui. }
      split; [exact O|]. split; [exact C|]. intros k Hk _. apply F. congruence.
    + set (p := Z.max 1 (conv time)).
      assert (P : 1 <= p <= LIMIT) by (unfold LIMIT in *; lia).
      assert (E : activate_timer_ticks i p cont (set_timer i (fun t => t <| period := p |>) s) =
                  activate_timer_ticks i p cont s).
      { unfold activate_timer_ticks. rewrite set_timer_twice. reflexivity. }
      rewrite E. destruct (activate_ticks_ok s i p cont Hs Hc Ni Ui) as (O & C & _ & F); [lia|].
      split; [exact O|]. split; [exact C|]. intros k Hk _. apply F. congruence.
  - destruct Hn as [Ni Ui]. split; [apply deactivate_ok; assumption|]. split; [reflexivity|].
    intros k Hk _. apply set_timer_other. congruence.
  - destruct Hn as [Ni Ui]. pose proof (unregister_ok s i Hs Ni Ui) as R.
    destruct (unregisterTimer i s) as [b s']. destruct R as (_ & O & C & _ & F).
    split; [exact O|]. split; [exact C|]. intros k Hk _. apply F. congruence.
  - destruct Hn as [Ni Ui]. split; [apply set_param_ok; assumption|]. split; [reflexivity|].
    intros k Hk _. apply set_timer_other. congruence.
  - unfold set_HRQ. destruct (sys_ok_ext s (s <| HRQ := val |>) Hs) as [O C]; try reflexivity.
    destruct val; [|auto].
    destruct (sys_ok_ext s (s <| HRQ := true |> <| async_event := true |>) Hs); auto.
  - assert (Et : timer (set_enable_a20 val s) = timer s /\ numTimers (set_enable_a20 val s) = numTimers s /\
      ticksTotal (set_enable_a20 val s) = ticksTotal s /\
      currCountdown (set_enable_a20 val s) = currCountdown s /\
      currCountdownPeriod (set_enable_a20 val s) = currCountdownPeriod s).
    { unfold set_enable_a20. destruct val; destruct (negb _); auto. }
    destruct Et as (E1 & E2 & E3 & E4 & E5).
    destruct (sys_ok_ext s _ Hs E1 E2 E3 E4 E5) as [O C]. rewrite E1. auto.
Qed.

Lemma run_ok cs : forall s, sys_ok s -> clock s < LIMIT -> legal cs s ->
  sys_ok (run cs s) /\ clock (run cs s) = clock s.
Proof.
  induction cs as [|c cs IH]; intros s Hs Hc Hl; [auto|]. destruct Hl as [Hl Hr].
  destruct (api_run_ok c s Hs Hc Hl) as (O & C & _). cbn [run].
  destruct (IH (api_run c s) O ltac:(lia) Hr) as [O' C']. split; [exact O' | lia].
Qed.

(** A program that does not name a registered timer leaves it alone. *)
Lemma run_frame cs i : forall s, sys_ok s -> clock s < LIMIT -> legal cs s ->
  (forall c, In c cs -> names c <> Some i) -> inUse (timer s i) = true ->
  timer (run cs s) i = timer s i.
Proof.
  induction cs as [|c cs IH]; intros s Hs Hc Hl Hn Hu; [reflexivity|]. destruct Hl as [Hl Hr].
  destruct (api_run_ok c s Hs Hc Hl) as (O & C & F).
  assert (E : timer (api_run c s) i = timer s i) by (apply F; [apply Hn; left; reflexivity | exact Hu]).
  cbn [run]. rewrite IH; [exact E | exact O | lia | exact Hr | | congruence].
  intros c' H. apply Hn. right. exact H.
Qed.

End Api.

(** ** The first loop of the countdown event *)

Section Scan.
Context {Fn : Type}.
Abbreviation sys := (bx_pc_system_c Fn).
Implicit Types (s : sys) (t : bx_timer Fn).

(** What the loop does to a timer at clock [now]. *)
Definition due (now : Z) t : bool := active t && (now =? timeToFire t).

Definition advance (now : Z) t : bx_timer Fn :=
  if due now t then
    if continuous t then t <| timeToFire := u64 (timeToFire t + period t) |>
    else t <| active := false |>
  else t.

(** The variables after [m] iterations. *)
Record scanned (now : Z) (tm : Z -> bx_timer Fn) (n m : Z) (c : scan) : Prop := {
  scd_timer k : sc_timer c k = if (0 <=? k) && (k <? m) then advance now (tm k) else tm k;
  scd_triggered k : triggered c k = (0 <=? k) && (k <? m) && due now (tm k);
  scd_min k : 0 <= k < m -> active (sc_timer c k) = true -> minTimeToFire c <= timeToFire (sc_timer c k);
  scd_min_at : minTimeToFire c = u64 (-1) \/
    exists k, 0 <= k < m /\ active (sc_timer c k) = true /\ minTimeToFire c = timeToFire (sc_timer c k);
  scd_span k : 0 <= k < m -> due now (tm k) = true -> first c <= k <= last c;
  scd_first : 0 <= first c /\ (first c = n \/ first c < m);
  scd_last : 0 <= last c;
}.

Lemma scan_init now tm n : 0 <= n -> scanned now tm n 0 (Scan tm (fun _ => false) (u64 (-1)) n 0).
Proof.
  intros Hn. split; cbn [sc_timer triggered minTimeToFire first last]; try lia.
  intros k. destruct (Z.leb_spec 0 k), (Z.ltb_spec k 0); lia || reflexivity.
Qed.

Lemma scan_step_eq now c i : let t := sc_timer c i in
  scan_step now c i = Scan (fun k => if k =? i then advance now t else sc_timer c k)
    (fun k => if k =? i then due now t else triggered c k)
    (if active (advance now t)
     then Z.min (timeToFire (advance now t)) (minTimeToFire c) else minTimeToFire c)
    (if due now t then Z.min i (first c) else first c) (if due now t then i else last c).
Proof.
  intros t. subst t. unfold scan_step, advance, due.
  assert (I : (fun k => if k =? i then sc_timer c i else sc_timer c k) = sc_timer c).
  { apply functional_extensionality. intros k. destruct (Z.eqb_spec k i) as [->|]; reflexivity. }
  assert (K : forall b, (fun k => if k =? i then b else if k =? i then false else triggered c k) =
                   (fun k => if k =? i then b else triggered c k)).
  { intros b. apply functional_extensionality. intros k. destruct (k =? i); reflexivity. }
  assert (Mn : forall x y, (if x <? y then x else y) = Z.min x y).
  { intros x y. destruct (Z.ltb_spec x y); lia. }
  cbn [sc_timer triggered minTimeToFire first last].
  destruct (active (sc_timer c i)) eqn:A; cbn [andb]; [|rewrite I, A; reflexivity].
  destruct (now =? timeToFire (sc_timer c i)) eqn:D; [|rewrite I, A, Mn; reflexivity].
  rewrite K, Mn. destruct (continuous (sc_timer c i)); cbn [negb andb active set_field timeToFire];
    [|reflexivity]. rewrite A, Mn. reflexivity.
Qed.

Lemma scan_step_ok now tm n m c : 0 <= m < n -> scanned now tm n m c ->
  scanned now tm n (m + 1) (scan_step now c m).
Proof.
  intros Hm [S1 S2 S3 S4 S5 S6 S7].
  assert (Em : sc_timer c m = tm m).
  { rewrite S1. destruct (Z.ltb_spec m m); [lia|]. rewrite andb_false_r. reflexivity. }
  rewrite scan_step_eq, Em. split; cbn [sc_timer triggered minTimeToFire first last].
  - intros k. rewrite S1. destruct (Z.eqb_spec k m) as [->|N].
    + destruct (Z.leb_spec 0 m), (Z.ltb_spec m (m + 1)); try lia; reflexivity.
    + destruct (Z.leb_spec 0 k), (Z.ltb_spec k (m + 1)), (Z.ltb_spec k m); try lia; reflexivity.
  - intros k. rewrite S2. destruct (Z.eqb_spec k m) as [->|N].
    + destruct (Z.leb_spec 0 m), (Z.ltb_spec m (m + 1)); try lia; reflexivity.
    + destruct (Z.leb_spec 0 k), (Z.ltb_spec k (m + 1)), (Z.ltb_spec k m); try lia; reflexivity.
  - intros k Hk. destruct (Z.eqb_spec k m) as [->|N]; intros A.
    + rewrite A. lia.
    + specialize (S3 k ltac:(lia) A). destruct (active (advance now (tm m))); lia.
  - destruct (active (advance now (tm m))) eqn:A.
    + destruct (Z.le_gt_cases (timeToFire (advance now (tm m))) (minTimeToFire c)).
      * right. exists m. rewrite Z.eqb_refl. repeat split; try lia. exact A.
      * rewrite Z.min_r by lia. destruct S4 as [S4|(k & Hk & Ak & Mk)]; [left; exact S4 | right].
        exists k. destruct (Z.eqb_spec k m); [lia|]. repeat split; try lia; assumption.
    + destruct S4 as [S4|(k & Hk & Ak & Mk)]; [left; exact S4 | right].
      exists k. destruct (Z.eqb_spec k m); [lia|]. repeat split; try lia; assumption.
  - intros k Hk D. destruct (Z.eq_dec k m) as [->|N].
    + rewrite D. lia.
    + specialize (S5 k ltac:(lia) D). destruct (due now (tm m)); lia.
  - destruct (due now (tm m)); lia.
  - destruct (due now (tm m)); lia.
Qed.

Lemma zrange_S n : zrange (S n) = zrange n ++ [Z.of_nat n].
Proof. unfold zrange. rewrite seq_S, map_app. reflexivity. Qed.

Lemma scan_timers_ok now s : 0 <= numTimers s ->
  scanned now (timer s) (numTimers s) (numTimers s) (scan_timers now s).
Proof.
  intros Hn. unfold scan_timers.
  assert (G : forall m, Z.of_nat m <= numTimers s ->
    scanned now (timer s) (numTimers s) (Z.of_nat m)
      (fold_left (scan_step now) (zrange m) (Scan (timer s) (fun _ => false) (u64 (-1)) (numTimers s) 0))).
  { induction m as [|m IH]; intros Hm; [apply scan_init, Hn|].
    rewrite zrange_S, fold_left_app. cbn [fold_left].
    replace (Z.of_nat (S m)) with (Z.of_nat m + 1) by lia. apply scan_step_ok; [lia|]. apply IH. lia. }
  specialize (G (Z.to_nat (numTimers s)) ltac:(lia)). rewrite Z2Nat.id in G by lia. exact G.
Qed.

(** The state the handlers are called in. *)
Definition event_start s : sys :=
  let s := s <| ticksTotal := u64 (ticksTotal s + currCountdownPeriod s) |> in
  let c := scan_timers (ticksTotal s) s in
  let next := u32 (u64 (minTimeToFire c - ticksTotal s)) in
  s <| timer := sc_timer c |> <| currCountdownPeriod := next |> <| currCountdown := next |>.

(** Every timer due at the deadline is advanced and marked, no other timer
    changes, and the new countdown reaches to the earliest expiry. *)
Lemma event_start_ok s : sys_ok0 s -> currCountdown s = 0 -> clock s < LIMIT ->
  let s' := event_start s in let c := scan_timers (clock s) (s <| ticksTotal := clock s |>) in
  sys_ok s' /\ clock s' = clock s /\ numTimers s' = numTimers s /\
  (forall k, timer s' k = advance (clock s) (timer s k)) /\
  (forall k, triggered c k = due (clock s) (timer s k)) /\
  (forall k, triggered c k = true -> first c <= k <= last c) /\ 0 <= first c.
Proof.
  intros Hs Hz Hc. pose proof Hs as [T H1 H2 H3]. pose proof (tab_count _ _ _ _ T) as Hn.
  assert (Ed : deadline s = clock s) by (unfold deadline, clock; lia).
  assert (En : u64 (ticksTotal s + currCountdownPeriod s) = clock s).
  { unfold clock in *. rewrite Hz, Z.sub_0_r in *. apply wrap_id. unfold fits, LIMIT in *. lia. }
  unfold event_start. rewrite En. cbv zeta.
  set (s1 := s <| ticksTotal := clock s |>). change (ticksTotal s1) with (clock s).
  pose proof (scan_timers_ok (clock s) s1 ltac:(subst s1; cbn; lia)) as SC.
  set (c := scan_timers (clock s) s1) in *.
  change (timer s1) with (timer s) in SC. change (numTimers s1) with (numTimers s) in SC.
  destruct SC as [S1 S2 S3 S4 S5 S6 S7].
  assert (Out : forall k, (0 <=? k) && (k <? numTimers s) = false -> active (timer s k) = false).
  { intros k Hk. destruct (active (timer s k)) eqn:A; [|reflexivity].
    destruct (proj2 (tab_timer _ _ _ _ T k) A) as [U _]. pose proof (tab_slots _ _ _ _ T k U).
    apply andb_false_iff in Hk. destruct Hk as [Hk|Hk]; [apply Z.leb_gt in Hk | apply Z.ltb_ge in Hk]; lia. }
  assert (Tm : forall k, sc_timer c k = advance (clock s) (timer s k)).
  { intros k. rewrite S1. destruct ((0 <=? k) && (k <? numTimers s)) eqn:R; [reflexivity|].
    unfold advance, due. rewrite Out by exact R. reflexivity. }
  assert (Tr : forall k, triggered c k = due (clock s) (timer s k)).
  { intros k. rewrite S2. destruct ((0 <=? k) && (k <? numTimers s)) eqn:R; [reflexivity|].
    unfold due. rewrite Out by exact R. reflexivity. }
  (* an advanced active timer expires later, within its period *)
  assert (Adv : forall k, active (sc_timer c k) = true ->
            inUse (timer s k) = true /\
            clock s < timeToFire (sc_timer c k) <= clock s + period (sc_timer c k)).
  { intros k. rewrite Tm. unfold advance, due. destruct (tab_timer _ _ _ _ T k) as [P A].
    destruct (active (timer s k)) eqn:Ak; cbn [andb].
    2: { intros X. congruence. }
    destruct (A eq_refl) as [U [L1 L2]]. specialize (P U). rewrite Ed in L1.
    destruct (Z.eqb_spec (clock s) (timeToFire (timer s k))) as [E|E].
    - destruct (continuous (timer s k)); cbn [set_field active timeToFire period]; [|discriminate].
      intros _. split; [exact U|]. unfold clock in *. unfold LIMIT in *.
      rewrite wrap_id by (unfold fits; lia). lia.
    - intros _. split; [exact U|]. lia. }
  pose proof (tab_null _ _ _ _ T) as (N1 & N2 & N3 & N4 & N5).
  assert (A0 : active (sc_timer c 0) = true).
  { rewrite Tm. unfold advance. rewrite N3. destruct (due _ _); exact N2. }
  assert (P0 : forall k, period (sc_timer c k) = period (timer s k)).
  { intros k. rewrite Tm. unfold advance. destruct (due _ _), (continuous (timer s k)); reflexivity. }
  assert (U0 : forall k, inUse (sc_timer c k) = inUse (timer s k)).
  { intros k. rewrite Tm. unfold advance. destruct (due _ _), (continuous (timer s k)); reflexivity. }
  assert (B : clock s < minTimeToFire c <= clock s + NullTimerInterval).
  { pose proof (Adv 0 A0) as [_ X]. rewrite P0, N4 in X. pose proof (S3 0 ltac:(lia) A0) as Y.
    split; [|lia]. destruct S4 as [S4|(k & _ & Ak & ->)]; [|apply Adv in Ak; lia].
    rewrite S4. change (u64 (-1)) with (2 ^ 64 - 1). unfold LIMIT in Hc. lia. }
  assert (Hclock : 0 <= clock s) by (unfold clock; lia).
  assert (Next : u32 (u64 (minTimeToFire c - clock s)) = minTimeToFire c - clock s).
  { unfold NullTimerInterval in B. rewrite !wrap_id; [reflexivity| |]; unfold fits; try lia.
    rewrite wrap_id; unfold fits; lia. }
  rewrite Next. set (now := clock s) in *. clearbody now.
  split; [|split; [|split; [|split; [|split; [|split]]]]].
  - split; [|cbn [set_field currCountdown]; lia]. split; unfold clock, deadline;
      cbn [set_field timer numTimers currCountdown currCountdownPeriod ticksTotal];
      change (ticksTotal s1) with now; try lia.
    2: { unfold NullTimerInterval in B. lia. }
    replace (now + (minTimeToFire c - now)) with (minTimeToFire c) by lia.
    replace (now + (minTimeToFire c - now - (minTimeToFire c - now))) with now by lia.
    change (numTimers s1) with (numTimers s). split; [exact Hn | | |].
    + rewrite Tm. unfold null_ok, advance. rewrite N3. destruct (due _ _); repeat split; auto.
    + intros k. rewrite U0. apply (tab_slots _ _ _ _ T).
    + intros k. split.
      * rewrite U0, P0. apply (tab_timer _ _ _ _ T k).
      * intros Ak. destruct (Adv k Ak) as [Uk Lk]. rewrite U0. split; [exact Uk|].
        split; [|lia]. apply S3; [|exact Ak]. apply (tab_slots _ _ _ _ T k Uk).
  - unfold clock. cbn [set_field currCountdown currCountdownPeriod ticksTotal].
    change (ticksTotal s1) with now. lia.
  - reflexivity.
  - exact Tm.
  - exact Tr.
  - intros k Hk. apply S5; [|rewrite <- Tr; exact Hk]. rewrite S2 in Hk.
    destruct (Z.leb_spec 0 k), (Z.ltb_spec k (numTimers s)); cbn in Hk; try discriminate. lia.
  - apply S6.
Qed.

End Scan.

(** ** Events and ticks *)

Section Ticks.
Context {Fn W : Type}.
Abbreviation sys := (bx_pc_system_c Fn).
Implicit Types (s : sys) (w : W).
Variable call : Fn -> Z -> W -> sys -> W * sys.

(** A handler only calls public methods, and none that names timer [i]. *)
Definition handlers_spare (i : Z) : Prop :=
  forall f p w s, sys_ok s -> clock s < LIMIT ->
    exists cs, legal cs s /\ (forall c, In c cs -> names c <> Some i) /\
               snd (call f p w s) = run cs s.

Section Spared.
Variable i : Z.
Hypothesis call_spares : handlers_spare i.

Lemma triggered_ok s v : sys_ok s -> sys_ok (s <| triggeredTimer := v |>) /\
  clock (s <| triggeredTimer := v |>) = clock s.
Proof. intros Hs. apply sys_ok_ext; auto. Qed.

Lemma fire_ok trig w s j : sys_ok s -> clock s < LIMIT ->
  let (w', s') := fire call trig (w, s) j in
  sys_ok s' /\ clock s' = clock s /\ (inUse (timer s i) = true -> timer s' i = timer s i).
Proof.
  intros Hs Hc. unfold fire. destruct (trig j); [|auto]. destruct (funct (timer s j)) as [h|]; [|auto].
  destruct (triggered_ok s j Hs) as [O C]. set (s1 := s <| triggeredTimer := j |>) in *.
  destruct h as [|f]; cbn [invoke].
  - destruct (triggered_ok s1 0 O) as [O2 C2]. split; [exact O2|]. split; [lia | auto].
  - destruct (call_spares f (this_ptr (timer s1 j)) w s1 O ltac:(lia)) as (cs & L & N & E).
    destruct (call f (this_ptr (timer s1 j)) w s1) as [w' s2]. cbn [snd] in E. subst s2.
    destruct (run_ok cs s1 O ltac:(lia) L) as [O2 C2].
    destruct (triggered_ok (run cs s1) 0 O2) as [O3 C3].
    split; [exact O3|]. split; [lia|]. intros U.
    change (timer (run cs s1 <| triggeredTimer := 0 |>) i) with (timer (run cs s1) i).
    exact (run_frame cs i s1 O ltac:(lia) L N U).
Qed.

Lemma fires_ok trig l : forall w s, sys_ok s -> clock s < LIMIT ->
  let (w', s') := fold_left (fire call trig) l (w, s) in
  sys_ok s' /\ clock s' = clock s /\ (inUse (timer s i) = true -> timer s' i = timer s i).
Proof.
  induction l as [|j l IH]; intros w s Hs Hc; cbn [fold_left]; [auto|].
  pose proof (fire_ok trig w s j Hs Hc) as F. destruct (fire call trig (w, s) j) as [w1 s1].
  destruct F as (O1 & C1 & T1). specialize (IH w1 s1 O1 ltac:(lia)).
  destruct (fold_left (fire call trig) l (w1, s1)) as [w2 s2]. destruct IH as (O2 & C2 & T2).
  split; [exact O2|]. split; [lia|]. intros U. rewrite T2, T1 by (rewrite ?T1; assumption). reflexivity.
Qed.

Lemma countdownEvent_eq w s : sys_ok0 s -> currCountdown s = 0 -> clock s < LIMIT ->
  countdownEvent call (w, s) =
  let c := scan_timers (clock s) (s <| ticksTotal := clock s |>) in
  fold_left (fire call (triggered c)) (span (first c) (last c)) (w, event_start s).
Proof.
  intros [T H1 H2 H3] Hz Hc. unfold countdownEvent, event_start.
  assert (En : u64 (ticksTotal s + currCountdownPeriod s) = clock s).
  { unfold clock in *. rewrite Hz, Z.sub_0_r in *. apply wrap_id. unfold fits, LIMIT in *. lia. }
  rewrite En. reflexivity.
Qed.

(** The clock reaches the deadline. *)
Lemma reach_deadline s : sys_ok s -> let s1 := s <| currCountdown := 0 |> in
  sys_ok0 s1 /\ currCountdown s1 = 0 /\ clock s1 = deadline s.
Proof.
  intros [[T H1 H2 H3] Hc] s1. subst s1. split; [|split; [reflexivity|]].
  - split; cbn [set_field timer numTimers currCountdown currCountdownPeriod ticksTotal]; try lia.
    apply (table_mono _ _ (deadline s) (deadline s) (clock s)); [lia | | exact T].
    unfold clock. cbn [set_field currCountdown currCountdownPeriod ticksTotal]. lia.
  - unfold clock, deadline. cbn [set_field currCountdown currCountdownPeriod ticksTotal]. lia.
Qed.

Lemma event_ok w s : sys_ok0 s -> currCountdown s = 0 -> clock s < LIMIT ->
  let (w', s') := countdownEvent call (w, s) in
  sys_ok s' /\ clock s' = clock s /\
  (inUse (timer s i) = true -> timer s' i = advance (clock s) (timer s i)).
Proof.
  intros Hs Hz Hc. rewrite countdownEvent_eq by assumption. cbv zeta.
  destruct (event_start_ok s Hs Hz Hc) as (O & C & N & Tm & _).
  set (c := scan_timers (clock s) (s <| ticksTotal := clock s |>)) in *.
  pose proof (fires_ok (triggered c) (span (first c) (last c)) w (event_start s) O ltac:(lia)) as F.
  destruct (fold_left _ _ _) as [w' s']. destruct F as (O' & C' & T').
  split; [exact O'|]. split; [lia|]. intros U. rewrite T', Tm; [reflexivity|].
  rewrite Tm. unfold advance. destruct (due _ _); [|exact U]. destruct (continuous (timer s i)); exact U.
Qed.

(** [tickn] always terminates: each round uses up at least one tick. *)
Lemma tickn_ok fuel : forall n w s, sys_ok s -> 0 <= n < 2 ^ 32 -> n < Z.of_nat fuel ->
  clock s + n < LIMIT ->
  exists w' s', tickn call fuel n (w, s) = Some (w', s') /\ sys_ok s' /\ clock s' = clock s + n.
Proof.
  induction fuel as [|fuel IH]; intros n w s Hs Hn Hf Hl; [lia|]. cbn [tickn]. rewrite Z.geb_leb.
  pose proof Hs as [[T H1 H2 H3] Hc].
  destruct (Z.leb_spec (currCountdown s) n) as [L|L].
  - destruct (reach_deadline s Hs) as (O1 & Z1 & C1). set (s1 := s <| currCountdown := 0 |>) in *.
    assert (D : deadline s = clock s + currCountdown s) by (unfold deadline, clock; lia).
    pose proof (event_ok w s1 O1 Z1 ltac:(lia)) as E.
    destruct (countdownEvent call (w, s1)) as [w2 s2]. destruct E as (O2 & C2 & _).
    rewrite (wrap_id 32) by (unfold fits; lia).
    destruct (IH (n - currCountdown s) w2 s2 O2 ltac:(lia) ltac:(lia) ltac:(lia)) as (w' & s' & E' & O' & C').
    exists w', s'. split; [exact E'|]. split; [exact O' | lia].
  - rewrite (wrap_id 32) by (unfold fits; lia). eexists _, _. split; [reflexivity|].
    assert (C' : clock (s <| currCountdown := currCountdown s - n |>) = clock s + n).
    { unfold clock. cbn [set_field currCountdown currCountdownPeriod ticksTotal]. lia. }
    split; [|exact C']. split; [|cbn [set_field currCountdown]; lia].
    split; cbn [set_field timer numTimers currCountdown currCountdownPeriod ticksTotal]; try lia.
    apply (table_mono _ _ (deadline s) (deadline s) (clock s)); [lia | | exact T].
    unfold clock. cbn [set_field currCountdown currCountdownPeriod ticksTotal]. lia.
Qed.

End Spared.
End Ticks.
