(* ===== verification/TimerSchedule.v ===== *)
(** * Schedules: when each timer's handler runs

    [log] observes the handler calls: the tick and the timer of each.  The
    theorems follow one timer whose schedule no handler changes. *)

From Stdlib Require Import ZArith Lia List Bool FinFun.
From S2P Require Import Prelude PcSystem PcSystemInv PcSystemProps.
Import ListNotations.
Open Scope Z_scope.

Lemma span_in a b i : In i (span a b) <-> a <= i <= b.
Proof.
  unfold span. rewrite in_map_iff. split.
  - intros (k & <- & Hk). apply zrange_in in Hk. lia.
  - intros H. exists (i - a). split; [lia|]. apply zrange_in. lia.
Qed.

Lemma zrange_NoDup n : NoDup (zrange n).
Proof.
  unfold zrange. apply Injective_map_NoDup; [|apply seq_NoDup]. intros x y. apply Nat2Z.inj.
Qed.

Lemma span_NoDup a b : NoDup (span a b).
Proof. unfold span. apply Injective_map_NoDup; [intros x y; lia | apply zrange_NoDup]. Qed.

Lemma filter_NoDup_eq (l : list Z) i : NoDup l ->
  filter (fun j => j =? i) l = if existsb (Z.eqb i) l then [i] else [].
Proof.
  induction 1 as [|j l Hj _ IH]; [reflexivity|]. cbn [filter existsb].
  rewrite (Z.eqb_sym i j). destruct (Z.eqb_spec j i) as [->|N]; cbn [orb]; [|exact IH].
  rewrite IH. destruct (existsb (Z.eqb i) l) eqn:E; [|reflexivity].
  apply existsb_exists in E. destruct E as (x & Hx & Ex). apply Z.eqb_eq in Ex. subst x. contradiction.
Qed.

Section Schedule.
Context {Fn W : Type}.
Abbreviation sys := (bx_pc_system_c Fn).
Implicit Types (s : sys) (w : W).
Variable call : Fn -> Z -> W -> sys -> W * sys.
Variable log : W -> list (Z * Z).

(** Each call of a handler is recorded. *)
Hypothesis call_log : forall f p w s,
  log (fst (call f p w s)) = log w ++ [(time_ticks s, triggeredTimer s)].

Variable i : Z.
Hypothesis call_spares : handlers_spare call i.

(** The calls of timer [i]. *)
Definition calls w : list (Z * Z) := filter (fun e => snd e =? i) (log w).

(** Timer [i] is registered with a device handler. *)
Definition armed s : Prop := inUse (timer s i) = true /\ exists f, funct (timer s i) = Some (device f).

Lemma fire_calls trig w s j : sys_ok s -> clock s < LIMIT -> armed s ->
  calls (fst (fire call trig (w, s) j)) =
  calls w ++ (if (j =? i) && trig j then [(clock s, i)] else []).
Proof.
  intros Hs Hc (U & f & Ef). unfold fire.
  destruct (trig j); [|rewrite andb_false_r, app_nil_r; reflexivity]. rewrite andb_true_r.
  destruct (funct (timer s j)) as [h|] eqn:Eh.
  - destruct (triggered_ok s j Hs) as [O C]. set (s1 := s <| triggeredTimer := j |>) in *.
    destruct h as [|g]; cbn [invoke].
    + cbn [fst]. destruct (Z.eqb_spec j i) as [->|]; [congruence|]. symmetry. apply app_nil_r.
    + pose proof (call_log g (this_ptr (timer s1 j)) w s1) as L.
      destruct (call g (this_ptr (timer s1 j)) w s1) as [w' s2]. cbn [fst] in *.
      unfold calls. rewrite L, filter_app. cbn [filter snd]. change (triggeredTimer s1) with j.
      rewrite time_ticks_clock, C by (apply O || lia).
      destruct (Z.eqb_spec j i) as [->|]; reflexivity.
  - cbn [fst]. destruct (Z.eqb_spec j i) as [->|]; [congruence|]. symmetry. apply app_nil_r.
Qed.

Lemma fires_calls trig l : forall w s, sys_ok s -> clock s < LIMIT -> armed s ->
  calls (fst (fold_left (fire call trig) l (w, s))) =
  calls w ++ map (fun j => (clock s, j)) (filter (fun j => (j =? i) && trig j) l).
Proof.
  induction l as [|j l IH]; intros w s Hs Hc Ha; cbn [fold_left filter map]; [symmetry; apply app_nil_r|].
  pose proof (fire_calls trig w s j Hs Hc Ha) as F.
  pose proof (fire_ok call i call_spares trig w s j Hs Hc) as G.
  destruct (fire call trig (w, s) j) as [w1 s1]. cbn [fst] in F. destruct G as (O1 & C1 & T1).
  rewrite IH; [|exact O1|lia|].
  2: { unfold armed in *. rewrite T1 by apply Ha. exact Ha. }
  rewrite F, C1, <- app_assoc. f_equal.
  destruct (Z.eqb_spec j i) as [->|]; cbn [andb]; [|reflexivity]. destruct (trig i); reflexivity.
Qed.

(** An event calls timer [i] exactly when it is due. *)
Lemma event_calls w s : sys_ok0 s -> currCountdown s = 0 -> clock s < LIMIT -> armed s ->
  calls (fst (countdownEvent call (w, s))) =
  calls w ++ (if due (clock s) (timer s i) then [(clock s, i)] else []).
Proof.
  intros Hs Hz Hc Ha. rewrite countdownEvent_eq by assumption. cbv zeta.
  destruct (event_start_ok s Hs Hz Hc) as (O & C & N & Tm & Tr & Sp & _).
  set (c := scan_timers (clock s) (s <| ticksTotal := clock s |>)) in *.
  rewrite fires_calls; [|exact O|lia|].
  2: { destruct Ha as (U & f & Ef). unfold armed. rewrite Tm. unfold advance.
       destruct (due _ _); [destruct (continuous (timer s i))|]; split; eauto. }
  f_equal. rewrite C.
  assert (E : forall l, filter (fun j => (j =? i) && triggered c j) l =
                   if triggered c i then filter (fun j => j =? i) l else []).
  { induction l as [|j l IH]; cbn [filter]; [destruct (triggered c i); reflexivity|].
    rewrite IH. destruct (Z.eqb_spec j i) as [->|]; cbn [andb]; [|reflexivity].
    destruct (triggered c i); reflexivity. }
  rewrite E, <- Tr. destruct (triggered c i) eqn:D; [|reflexivity].
  rewrite filter_NoDup_eq by apply span_NoDup.
  assert (X : existsb (Z.eqb i) (span (first c) (last c)) = true).
  { apply existsb_exists. exists i. split; [apply span_in, Sp, D | apply Z.eqb_refl]. }
  rewrite X. reflexivity.
Qed.

(** The calls of a timer of period [p] that is due at [t]: [m] of them. *)
Definition firings (t p : Z) (m : nat) : list (Z * Z) := map (fun k => (t + k * p, i)) (zrange m).

Lemma firings_S t p m : firings t p (S m) = (t, i) :: firings (t + p) p m.
Proof.
  unfold firings, zrange. rewrite <- cons_seq, <- seq_shift. cbn [map].
  rewrite !map_map. f_equal; [f_equal; lia|]. apply map_ext. intros k. f_equal. lia.
Qed.

(** One round of [tickn]: the clock moves to the deadline and the event runs. *)
Lemma tick_round w s : sys_ok s -> deadline s < LIMIT -> armed s ->
  let (w', s') := countdownEvent call (w, s <| currCountdown := 0 |>) in
  sys_ok s' /\ clock s' = deadline s /\ timer s' i = advance (deadline s) (timer s i) /\
  calls w' = calls w ++ (if due (deadline s) (timer s i) then [(deadline s, i)] else []).
Proof.
  intros Hs Hd Ha. destruct (reach_deadline s Hs) as (O1 & Z1 & C1).
  set (s1 := s <| currCountdown := 0 |>) in *.
  pose proof (event_ok call i call_spares w s1 O1 Z1 ltac:(lia)) as Ev.
  pose proof (event_calls w s1 O1 Z1 ltac:(lia) Ha) as Lg.
  destruct (countdownEvent call (w, s1)) as [w2 s2]. destruct Ev as (O2 & C2 & T2). cbn [fst] in Lg.
  rewrite C1 in *. change (timer s1 i) with (timer s i) in *. specialize (T2 (proj1 Ha)). auto.
Qed.

(** [tickn] unfolded once. *)
Lemma tickn_cases fuel n w s : sys_ok s -> 0 <= n < 2 ^ 32 -> clock s + n < LIMIT -> armed s ->
  (currCountdown s <= n /\ exists w2 s2,
     tickn call (S fuel) n (w, s) = tickn call fuel (n - currCountdown s) (w2, s2) /\
     sys_ok s2 /\ clock s2 = clock s + currCountdown s /\
     timer s2 i = advance (clock s2) (timer s i) /\
     calls w2 = calls w ++ (if due (clock s2) (timer s i) then [(clock s2, i)] else [])) \/
  (n < currCountdown s /\ exists s2, tickn call (S fuel) n (w, s) = Some (w, s2) /\ timer s2 i = timer s i).
Proof.
  intros Hs Hn Hl Ha. cbn [tickn]. rewrite Z.geb_leb. pose proof Hs as [[T H1 H2 H3] Hc].
  assert (D : deadline s = clock s + currCountdown s) by (unfold deadline, clock; lia).
  destruct (Z.leb_spec (currCountdown s) n) as [L|L]; [left | right].
  - split; [exact L|]. pose proof (tick_round w s Hs ltac:(lia) Ha) as R.
    rewrite (wrap_id 32) by (unfold fits; lia).
    destruct (countdownEvent call (w, s <| currCountdown := 0 |>)) as [w2 s2].
    destruct R as (O & C & Tm & Lg). exists w2, s2. rewrite C, <- D. auto.
  - split; [exact L|]. eexists. split; reflexivity.
Qed.

Lemma due_iff now (t : bx_timer Fn) : active t = true -> due now t = (now =? timeToFire t).
Proof. intros A. unfold due. rewrite A. reflexivity. Qed.

(** ** Periodic timers *)

Lemma advance_periodic now s : sys_ok s -> clock s < LIMIT -> inUse (timer s i) = true ->
  active (timer s i) = true -> continuous (timer s i) = true ->
  advance now (timer s i) = (timer s i) <| timeToFire := timeToFire (timer s i) +
    (if due now (timer s i) then period (timer s i) else 0) |>.
Proof.
  intros [[T H1 H2 H3] Hc] Hl U A K. unfold advance. rewrite K.
  destruct (due now (timer s i)).
  - destruct (tab_timer _ _ _ _ T i) as [P Q]. specialize (P U). destruct (Q A).
    rewrite wrap_id; [reflexivity|]. unfold fits, LIMIT, clock, deadline in *. lia.
  - rewrite Z.add_0_r. destruct (timer s i). reflexivity.
Qed.

Lemma tickn_periodic fuel : forall n w s, sys_ok s -> 0 <= n < 2 ^ 32 -> n < Z.of_nat fuel ->
  clock s + n < LIMIT -> armed s -> active (timer s i) = true -> continuous (timer s i) = true ->
  exists w' s' m, tickn call fuel n (w, s) = Some (w', s') /\
    calls w' = calls w ++ firings (timeToFire (timer s i)) (period (timer s i)) m /\
    timer s' i = (timer s i) <| timeToFire := timeToFire (timer s i) + Z.of_nat m * period (timer s i) |>.
Proof.
  induction fuel as [|fuel IH]; intros n w s Hs Hn Hf Hl Ha Hact Hcont; [lia|].
  destruct (tickn_cases fuel n w s Hs Hn Hl Ha) as [(L & w2 & s2 & E & O & C & Tm & Lg)|(L & s2 & E & Tm)].
  - pose proof Hs as [[_ H1 H2 H3] Hc]. rewrite advance_periodic in Tm by (try apply Ha; auto; lia).
    set (d := due (clock s2) (timer s i)) in *.
    assert (A2 : armed s2 /\ active (timer s2 i) = true /\ continuous (timer s2 i) = true /\
                 period (timer s2 i) = period (timer s i)).
    { unfold armed. rewrite Tm. destruct Ha as (U & f & Ef). repeat split; eauto. }
    destruct A2 as (A2 & B2 & K2 & P2).
    destruct (IH (n - currCountdown s) w2 s2 O ltac:(lia) ltac:(lia) ltac:(lia) A2 B2 K2)
      as (w3 & s3 & m & E3 & L3 & T3).
    rewrite P2, Lg in L3. rewrite P2 in T3. rewrite Tm in L3, T3.
    cbn [set_field inUse period timeToFire active continuous funct this_ptr param] in L3, T3.
    exists w3, s3, ((if d then 1 else 0) + m)%nat. rewrite E.
    split; [exact E3|]. rewrite L3, T3, <- app_assoc. destruct d eqn:Ed; cbn [Nat.add].
    + unfold d in Ed. rewrite due_iff in Ed by exact Hact. apply Z.eqb_eq in Ed.
      rewrite firings_S, Ed. split; [reflexivity|].
      cbn [set_field inUse period timeToFire active continuous funct this_ptr param]. f_equal. lia.
    + rewrite Z.add_0_r. split; reflexivity.
  - exists w, s2, 0%nat. split; [exact E|]. unfold firings. cbn [zrange map seq].
    rewrite app_nil_r, Tm. split; [reflexivity|]. destruct (timer s i). cbn. f_equal. lia.
Qed.

(** ** One-shot timers *)

Lemma tickn_idle fuel : forall n w s, sys_ok s -> 0 <= n < 2 ^ 32 -> n < Z.of_nat fuel ->
  clock s + n < LIMIT -> armed s -> active (timer s i) = false ->
  exists w' s', tickn call fuel n (w, s) = Some (w', s') /\ calls w' = calls w /\
    timer s' i = timer s i.
Proof.
  induction fuel as [|fuel IH]; intros n w s Hs Hn Hf Hl Ha Hact; [lia|].
  destruct (tickn_cases fuel n w s Hs Hn Hl Ha) as [(L & w2 & s2 & E & O & C & Tm & Lg)|(L & s2 & E & Tm)].
  - pose proof Hs as [[_ H1 H2 H3] Hc]. unfold advance, due in *. rewrite Hact in *. cbn [andb] in *.
    rewrite app_nil_r in Lg. assert (A2 : armed s2) by (unfold armed; rewrite Tm; exact Ha).
    destruct (IH (n - currCountdown s) w2 s2 O ltac:(lia) ltac:(lia) ltac:(lia) A2 ltac:(congruence))
      as (w3 & s3 & E3 & L3 & T3).
    exists w3, s3. rewrite E, L3, T3. auto.
  - exists w, s2. auto.
Qed.

Lemma tickn_one_shot fuel : forall n w s, sys_ok s -> 0 <= n < 2 ^ 32 -> n < Z.of_nat fuel ->
  clock s + n < LIMIT -> armed s -> active (timer s i) = true -> continuous (timer s i) = false ->
  let t := timer s i in
  exists w' s', tickn call fuel n (w, s) = Some (w', s') /\
    (if clock s + n <? timeToFire t then calls w' = calls w /\ timer s' i = t
     else calls w' = calls w ++ [(timeToFire t, i)] /\ timer s' i = t <| active := false |>).
Proof.
  induction fuel as [|fuel IH]; intros n w s Hs Hn Hf Hl Ha Hact Hcont t; [lia|]. subst t.
  pose proof Hs as [[T H1 H2 H3] Hc].
  pose proof (proj2 (tab_timer _ _ _ _ T i) Hact) as [U R].
  assert (D : deadline s = clock s + currCountdown s) by (unfold deadline, clock; lia).
  destruct (tickn_cases fuel n w s Hs Hn Hl Ha) as [(L & w2 & s2 & E & O & C & Tm & Lg)|(L & s2 & E & Tm)].
  - unfold advance in Tm. rewrite Hcont, due_iff in Tm by exact Hact. rewrite due_iff in Lg by exact Hact.
    destruct (Z.eqb_spec (clock s2) (timeToFire (timer s i))) as [Et|Nt].
    + assert (A2 : armed s2).
      { unfold armed. rewrite Tm. destruct Ha as (_ & f & Ef). split; [exact U | exists f; exact Ef]. }
      destruct (tickn_idle fuel (n - currCountdown s) w2 s2 O ltac:(lia) ltac:(lia) ltac:(lia) A2)
        as (w3 & s3 & E3 & L3 & T3); [rewrite Tm; reflexivity|].
      exists w3, s3. rewrite E, L3, T3, Tm, Lg, Et.
      destruct (Z.ltb_spec (clock s + n) (timeToFire (timer s i))); [lia | auto].
    + rewrite app_nil_r in Lg. assert (A2 : armed s2) by (unfold armed; rewrite Tm; exact Ha).
      destruct (IH (n - currCountdown s) w2 s2 O ltac:(lia) ltac:(lia) ltac:(lia) A2)
        as (w3 & s3 & E3 & L3); [congruence | congruence |].
      exists w3, s3. rewrite E. split; [exact E3|].
      rewrite Tm, Lg, C in L3. replace (clock s + currCountdown s + (n - currCountdown s)) with (clock s + n) in L3 by lia.
      exact L3.
  - exists w, s2. split; [exact E|].
    destruct (Z.ltb_spec (clock s + n) (timeToFire (timer s i))); [auto | lia].
Qed.

End Schedule.
