(* ===== verification/Timers.v ===== *)
(** * Correctness of the PC system's timers

    The theorems of the component, and a concrete PC system they are run on. *)

From Stdlib Require Import ZArith Lia List Bool.
From S2P Require Import Prelude PcSystem PcSystemInv PcSystemProps TimerSchedule.
Import ListNotations.
Open Scope Z_scope.

Section Claims.
Context {Fn W : Type}.
Abbreviation sys := (bx_pc_system_c Fn).
Implicit Types (s : sys) (w : W).

(** C12: the constructor and [initialize] establish the timer invariant; every
    public method called as the debug build demands keeps it, does not move the
    clock, and changes no registered timer but the one it names. *)
Theorem timer_invariant :
  sys_ok (initialize (constructed (Fn := Fn))) /\
  forall c s, sys_ok s -> clock s < LIMIT -> api_legal c s ->
    sys_ok (api_run c s) /\ clock (api_run c s) = clock s /\
    forall k, names c <> Some k -> inUse (timer s k) = true -> timer (api_run c s) k = timer s k.
Proof.
  split; [|exact api_run_ok].
  split; [|reflexivity]. split; try (cbn; unfold NullTimerInterval; lia). split.
  - cbn. unfold BX_MAX_TIMERS. lia.
  - cbn. repeat split.
  - intros i. cbn. destruct (Z.eqb_spec i 0); [lia | discriminate].
  - intros i. unfold timer_ok, LIMIT. cbn. unfold NullTimerInterval.
    destruct (i =? 0); cbn; split; try discriminate; intros _; [lia | split; [reflexivity | lia]].
Qed.

(** Registration never takes a slot in use: it fails, changing nothing, only
    when [numTimers] is at its maximum, and otherwise sets up a free slot with
    the expiry [ticks] from now and leaves every other timer alone. *)
Theorem register_takes_free_slot s this f ticks cont act :
  sys_ok s -> clock s < LIMIT -> ticks <= LIMIT ->
  let (i, s') := register_timer_ticks this f ticks cont act s in
  (i = -1 /\ s' = s /\ numTimers s = BX_MAX_TIMERS) \/
  (1 <= i < BX_MAX_TIMERS /\ inUse (timer s i) = false /\ sys_ok s' /\
   timer s' i = Timer true (Z.max 1 ticks) (clock s + Z.max 1 ticks) act cont
                  (option_map device f) this 0 /\
   (forall k, k <> i -> timer s' k = timer s k)).
Proof.
  intros Hs Hc Ht. pose proof (register_ok s this f ticks cont act Hs Hc Ht) as R.
  destruct (register_timer_ticks this f ticks cont act s) as [i s'].
  destruct R as [R|(B & U & O & _ & T & F & N)]; [left; exact R | right].
  pose proof (tab_count _ _ _ _ (ok_table _ (proj1 O))). split; [lia | auto].
Qed.

Section Handlers.
Variable call : Fn -> Z -> W -> sys -> W * sys.
Variable log : W -> list (Z * Z).
Hypothesis call_log : forall f p w s,
  log (fst (call f p w s)) = log w ++ [(time_ticks s, triggeredTimer s)].
Variable i : Z.
Hypothesis call_spares : handlers_spare call i.

(** C14: [tickn] terminates, whatever the handlers do to the timers through the
    public methods: [n + 1] rounds suffice, the clock advances by exactly [n],
    and no active timer is left behind. *)
Theorem tickn_terminates n w s : sys_ok s -> 0 <= n < 2 ^ 32 -> clock s + n < LIMIT ->
  exists w' s', tickn call (Z.to_nat n + 1) n (w, s) = Some (w', s') /\ sys_ok s' /\
    clock s' = clock s + n /\
    (forall k, active (timer s' k) = true -> clock s' < timeToFire (timer s' k)).
Proof.
  intros Hs Hn Hl.
  destruct (tickn_ok call i call_spares (Z.to_nat n + 1) n w s Hs Hn ltac:(lia) Hl)
    as (w' & s' & E & O & C).
  exists w', s'. split; [exact E|]. split; [exact O|]. split; [exact C|]. intros k A.
  destruct O as [[T _ _ _] Hc]. destruct (proj2 (tab_timer _ _ _ _ T k) A) as [_ R].
  unfold clock, deadline in *. lia.
Qed.

(** C10: a periodic timer that no handler reschedules is called at exactly
    [timeToFire + k * period], for every such tick up to the current one: it
    neither drifts nor misses nor repeats a call. *)
Theorem periodic_timer_on_time n w s :
  sys_ok s -> 0 <= n < 2 ^ 32 -> clock s + n < LIMIT ->
  armed i s -> active (timer s i) = true -> continuous (timer s i) = true ->
  let t := timeToFire (timer s i) in let p := period (timer s i) in
  exists w' s' m, tickn call (Z.to_nat n + 1) n (w, s) = Some (w', s') /\
    calls log i w' = calls log i w ++ map (fun k => (t + k * p, i)) (zrange m) /\
    t + (Z.of_nat m - 1) * p <= clock s + n < t + Z.of_nat m * p.
Proof.
  intros Hs Hn Hl Ha Hact Hcont t p.
  destruct (tickn_periodic call log call_log i call_spares (Z.to_nat n + 1) n w s Hs Hn ltac:(lia) Hl
              Ha Hact Hcont) as (w' & s' & m & E & L & T).
  destruct (tickn_ok call i call_spares (Z.to_nat n + 1) n w s Hs Hn ltac:(lia) Hl)
    as (w2 & s2 & E2 & O & C).
  rewrite E in E2. injection E2 as <- <-. exists w', s', m. split; [exact E|]. split; [exact L|].
  destruct O as [[Tb _ _ _] Hc].
  assert (A : active (timer s' i) = true) by (rewrite T; exact Hact).
  destruct (proj2 (tab_timer _ _ _ _ Tb i) A) as [_ R]. rewrite T in R.
  cbn [set_field timeToFire period] in R. unfold clock, deadline in *. subst t p. lia.
Qed.

(** A timer activated for one shot in [ticks] ticks is called once, at that
    tick, and is inactive afterwards; before that it is not called. *)
Theorem one_shot_timer_fires_once n ticks w s :
  sys_ok s -> 0 <= n < 2 ^ 32 -> clock s + n < LIMIT ->
  i <> 0 -> armed i s -> ticks <= LIMIT ->
  exists w' s', tickn call (Z.to_nat n + 1) n (w, activate_timer_ticks i ticks false s) = Some (w', s') /\
    active (timer s' i) = (n <? Z.max 1 ticks) /\
    calls log i w' = calls log i w ++
      (if n <? Z.max 1 ticks then [] else [(clock s + Z.max 1 ticks, i)]).
Proof.
  intros Hs Hn Hl Hi Ha Ht.
  destruct (activate_ticks_ok s i ticks false Hs ltac:(lia) Hi (proj1 Ha) Ht) as (O & C & Tm & _).
  set (s1 := activate_timer_ticks i ticks false s) in *.
  assert (A1 : armed i s1).
  { unfold armed. rewrite Tm. destruct Ha as (U & f & Ef). split; [exact U | exists f; exact Ef]. }
  destruct (tickn_one_shot call log call_log i call_spares (Z.to_nat n + 1) n w s1 O Hn ltac:(lia)
              ltac:(lia) A1) as (w' & s' & E & R); [rewrite Tm; reflexivity | rewrite Tm; reflexivity |].
  exists w', s'. split; [exact E|]. rewrite Tm in R. cbn [set_field timeToFire] in R. rewrite C in R.
  destruct (Z.ltb_spec n (Z.max 1 ticks)), (Z.ltb_spec (clock s + n) (clock s + Z.max 1 ticks));
    try lia; destruct R as [R1 R2]; rewrite R1, R2.
  - split; [reflexivity | symmetry; apply app_nil_r].
  - split; reflexivity.
Qed.

End Handlers.

Lemma time_usec_step (usec : Z -> Z) s (t := usec (time_ticks s)) :
  0 <= lastTimeUsec s <= t -> 0 <= usecSinceLast s -> t + usecSinceLast s + 1 < 2 ^ 64 ->
  let (u, s1) := time_usec_sequential usec s in
  lastTimeUsec s1 = t /\ u = t + usecSinceLast s1 /\
  1 <= usecSinceLast s1 <= usecSinceLast s + 1 /\ lastTimeUsec s + usecSinceLast s < u.
Proof.
  intros L C B. unfold time_usec_sequential. fold t. rewrite Z.geb_leb.
  assert (D : forall x, 0 <= x < 2 ^ 64 -> u64 x = x) by (intros; apply wrap_id; assumption).
  destruct (Z.eqb_spec t (lastTimeUsec s)) as [E|N]; cbn [negb].
  - cbn [set_field lastTimeUsec usecSinceLast]. rewrite !D by (rewrite ?D; lia). lia.
  - cbn [set_field lastTimeUsec usecSinceLast]. rewrite (D (t - _)) by lia.
    destruct (Z.leb_spec (usecSinceLast s) (t - lastTimeUsec s));
      cbn [set_field lastTimeUsec usecSinceLast].
    + rewrite !D by (rewrite ?D; lia). lia.
    + rewrite (D (usecSinceLast s - _)) by lia. rewrite !D by (rewrite ?D; lia). lia.
Qed.

(** Times read with [time_usec_sequential] are strictly increasing as long as
    the microsecond clock does not run backwards, even when it stands still. *)
Theorem time_usec_sequential_increases (usec : Z -> Z) s s' :
  let (u, s1) := time_usec_sequential usec s in
  0 <= lastTimeUsec s <= usec (time_ticks s) -> 0 <= usecSinceLast s ->
  usec (time_ticks s) <= usec (time_ticks s') ->
  usec (time_ticks s') + usecSinceLast s + 2 < 2 ^ 64 ->
  lastTimeUsec s' = lastTimeUsec s1 -> usecSinceLast s' = usecSinceLast s1 ->
  u < fst (time_usec_sequential usec s').
Proof.
  pose proof (time_usec_step usec s) as S1. destruct (time_usec_sequential usec s) as [u s1].
  intros L C M B El Ec. destruct S1 as (E1 & -> & R1 & _); [lia | lia | lia |].
  pose proof (time_usec_step usec s') as S2. rewrite El, Ec, E1 in S2.
  destruct (time_usec_sequential usec s') as [u' s2]. cbn [fst]. apply S2; lia.
Qed.

(** With A20 disabled an address loses exactly bit 20, so addresses one
    megabyte apart alias; enabled, addresses pass unchanged.  The TLBs are
    flushed exactly when the setting changes. *)
Theorem a20_line value s x : fits 64 x ->
  let s' := set_enable_a20 value s in
  A20ADDR s' x = (if value then x else clear_bit x 20) /\
  enable_a20 s' = value /\
  tlb_flushes s' = (tlb_flushes s + if eqb (enable_a20 s) value then 0 else 1)%nat.
Proof.
  intros Hx. unfold set_enable_a20, A20ADDR.
  assert (A : Z.land x 0xffffffffffffffff = x).
  { change 0xffffffffffffffff with (Z.ones 64). rewrite Z.land_ones by lia. apply Z.mod_small, Hx. }
  assert (B : Z.land x 0xffffffffffefffff = clear_bit x 20).
  { rewrite <- A at 2. unfold clear_bit. rewrite <- Z.land_assoc. reflexivity. }
  destruct value, (enable_a20 s); cbn; rewrite ?A, ?B, ?Nat.add_0_r, ?Nat.add_1_r; auto.
Qed.

End Claims.

(** ** A concrete PC system

    Handler 0 only records its call.  Handler 1 also unregisters timer 2 and
    registers a one-shot timer with handler 3, due 1000 ticks later. *)
Section Concrete.

Definition journal := list (Z * Z).

Definition recorder (f p : Z) (w : journal) (s : bx_pc_system_c Z) : journal * bx_pc_system_c Z :=
  (w ++ [(time_ticks s, triggeredTimer s)], s).

Definition booted : bx_pc_system_c Z := initialize constructed.

(** A periodic timer of 10 ticks and a one-shot timer of 25. *)
Definition two_timers : bx_pc_system_c Z :=
  let s := snd (register_timer_ticks 0 (Some 0) 10 true true booted) in
  snd (register_timer_ticks 0 (Some 0) 25 false true s).

Lemma two_timers_ok : sys_ok two_timers.
Proof.
  destruct (@timer_invariant Z) as [B _].
  assert (K : forall this f ticks cont act (s : bx_pc_system_c Z), sys_ok s -> clock s < LIMIT -> ticks <= LIMIT ->
    sys_ok (snd (register_timer_ticks this f ticks cont act s)) /\
    clock (snd (register_timer_ticks this f ticks cont act s)) = clock s).
  { intros this f ticks cont act s Hs Hc Ht.
    destruct (api_run_ok (RegisterTimer this f ticks cont act) s Hs Hc (conj I Ht)) as (O & C & _).
    exact (conj O C). }
  destruct (K 0 (Some 0) 10 true true booted B) as [O C]; [reflexivity | discriminate |].
  apply K; [exact O | rewrite C; reflexivity | discriminate].
Qed.

Lemma recorder_spares i : handlers_spare recorder i.
Proof. intros f p w s _ _. exists []. split; [exact I|]. split; [intros c [] | reflexivity]. Qed.

Lemma recorder_log f p w s : fst (recorder f p w s) = w ++ [(time_ticks s, triggeredTimer s)].
Proof. reflexivity. Qed.

Definition journal_after (n : Z) (s : bx_pc_system_c Z) : option journal :=
  option_map fst (tickn recorder (Z.to_nat n + 1) n ([], s)).

Lemma timer_invariant_witness :
  sys_ok (api_run (ActivateTicks 1 7 false) two_timers) /\
  timer (api_run (ActivateTicks 1 7 false) two_timers) 2 = timer two_timers 2.
Proof.
  destruct (@timer_invariant Z) as [_ K].
  destruct (K (ActivateTicks 1 7 false) two_timers two_timers_ok) as (O & _ & F);
    [reflexivity | split; [split; [discriminate | reflexivity] | discriminate] |].
  split; [exact O | apply F; [discriminate | reflexivity]].
Defined.

Lemma register_takes_free_slot_witness :
  let (i, s') := register_timer_ticks 5 (Some 0) 0 false true two_timers in
  i = 3 /\ sys_ok s' /\ timeToFire (timer s' 3) = 1.
Proof.
  pose proof (register_takes_free_slot two_timers 5 (Some 0) 0 false true two_timers_ok) as R.
  destruct (register_timer_ticks 5 (Some 0) 0 false true two_timers) as [i s'] eqn:E.
  assert (Ei : i = 3) by (apply (f_equal fst) in E; vm_compute in E; congruence). subst i.
  destruct R as [(X & _)|(_ & _ & O & T & _)]; [reflexivity | discriminate | discriminate |].
  split; [reflexivity|]. split; [exact O|]. rewrite T. reflexivity.
Defined.

Lemma tickn_terminates_witness :
  (exists w' s', tickn recorder 36 35 ([], two_timers) = Some (w', s') /\ clock s' = 35) /\
  journal_after 35 two_timers = Some [(10, 1); (20, 1); (25, 2); (30, 1)].
Proof.
  split; [|vm_compute; reflexivity].
  destruct (tickn_terminates recorder 1 (recorder_spares 1) 35 [] two_timers two_timers_ok)
    as (w' & s' & E & _ & C & _); [lia | vm_compute; reflexivity |].
  exists w', s'. split; [exact E | exact C].
Defined.

Lemma periodic_timer_on_time_witness :
  exists w' s' m, tickn recorder 36 35 ([], two_timers) = Some (w', s') /\
    calls (fun w => w) 1 w' = map (fun k => (10 + k * 10, 1)) (zrange m) /\ m = 3%nat.
Proof.
  destruct (periodic_timer_on_time recorder (fun w => w) recorder_log 1 (recorder_spares 1) 35 []
              two_timers two_timers_ok) as (w' & s' & m & E & L & B);
    [lia | vm_compute; reflexivity | split; [reflexivity | exists 0; reflexivity]
    | reflexivity | reflexivity |].
  exists w', s', m. split; [exact E|]. split; [exact L|].
  change (10 + (Z.of_nat m - 1) * 10 <= 35 < 10 + Z.of_nat m * 10) in B. lia.
Defined.

Lemma one_shot_timer_fires_once_witness :
  exists w' s', tickn recorder 36 35 ([], activate_timer_ticks 2 30 false two_timers) = Some (w', s') /\
    active (timer s' 2) = false /\ calls (fun w => w) 2 w' = [(30, 2)].
Proof.
  destruct (one_shot_timer_fires_once recorder (fun w => w) recorder_log 2 (recorder_spares 2) 35 30 []
              two_timers two_timers_ok) as (w' & s' & E & A & L);
    [lia | vm_compute; reflexivity | discriminate | split; [reflexivity | exists 0; reflexivity]
    | discriminate |].
  exists w', s'. split; [exact E|]. split; [exact A | exact L].
Defined.

Lemma time_usec_sequential_increases_witness :
  let (u, s1) := time_usec_sequential (fun t => t / 4) two_timers in
  u < fst (time_usec_sequential (fun t => t / 4) s1).
Proof.
  pose proof (time_usec_sequential_increases (fun t => t / 4) two_timers
    (snd (time_usec_sequential (fun t => t / 4) two_timers))) as R.
  destruct (time_usec_sequential (fun t => t / 4) two_timers) as [u s1] eqn:E. cbn [snd] in R.
  assert (Es : s1 = snd (time_usec_sequential (fun t => t / 4) two_timers)) by (rewrite E; reflexivity).
  apply R; try reflexivity; rewrite ?Es; vm_compute; try split; discriminate || reflexivity.
Defined.

Lemma a20_line_witness :
  A20ADDR (set_enable_a20 false two_timers) 0x10ffef = 0xffef /\
  A20ADDR (set_enable_a20 true two_timers) 0x10ffef = 0x10ffef.
Proof.
  pose proof (a20_line false two_timers 0x10ffef) as F.
  pose proof (a20_line true two_timers 0x10ffef) as T. cbv zeta in F, T.
  destruct F as [F _]; [unfold fits; lia|]. destruct T as [T _]; [unfold fits; lia|].
  split; [rewrite F; reflexivity | exact T].
Defined.

(** Handler 1 replaces timer 2 by a new one. *)
Definition replacing (f p : Z) (w : journal) (s : bx_pc_system_c Z) : journal * bx_pc_system_c Z :=
  let w := w ++ [(time_ticks s, f)] in
  if f =? 1 then
    (w, snd (register_timer_ticks 0 (Some 3) 1000 false true (snd (unregisterTimer 2 s))))
  else (w, s).

Definition clash : bx_pc_system_c Z :=
  let s := snd (register_timer_ticks 0 (Some 1) 10 false true booted) in
  snd (register_timer_ticks 0 (Some 2) 10 false true s).

(** A timer can be called before it is due.  Timers 1 and 2 fall due
    together, and the handler of timer 1 replaces timer 2 by a new one: the
    [triggered] flag of slot 2, set before the handlers ran, is still up, so the
    handler of the new timer is called at once, 1000 ticks early. *)
Lemma stale_trigger :
  match tickn replacing 11 10 ([], clash) with
  | Some (w, s) => w = [(10, 1); (10, 3)] /\ timeToFire (timer s 2) = 1010 /\ active (timer s 2) = true
  | None => False
  end.
Proof. vm_compute. repeat split. Qed.

End Concrete.
