(* ===== verification/Pit82c54.v ===== *)
(** * The 82C54 interval timer (iodev/pit82c54.h, iodev/pit82c54.cc)

    Three counters.  [clock] is one clock of a counter; [clock_multiple] runs
    many at once, jumping to the next change with [next_change_time].  The call
    of an OUT handler is recorded in [out_calls], newest last; the BX_ERROR
    messages, and [seen_problems], which only limits them, are left out. *)

From Stdlib Require Import ZArith Lia List Bool.
From S2P Require Import Prelude.
Import ListNotations.
Open Scope Z_scope.

(** The constructors' values are their bits: bit 0 the most significant byte is
    next, bit 1 both bytes are transferred. *)
Inductive rw_status := LSByte | MSByte | LSByte_multiple | MSByte_multiple.

Definition rw_value (s : rw_status) : Z :=
  match s with LSByte => 0 | MSByte => 1 | LSByte_multiple => 2 | MSByte_multiple => 3 end.

Definition is_MSB_multiple (s : rw_status) : bool :=
  match s with MSByte_multiple => true | _ => false end.
Definition is_LSB_multiple (s : rw_status) : bool :=
  match s with LSByte_multiple => true | _ => false end.

Record counter_type := Counter {
  GATE : bool;
  OUTpin : bool;
  count : Z;              (* Bit32u *)
  outlatch : Z;           (* Bit16u *)
  inlatch : Z;            (* Bit16u *)
  status_latch : Z;       (* Bit8u *)
  rw_mode : Z;
  mode : Z;
  bcd_mode : bool;
  null_count : bool;
  count_LSB_latched : bool;
  count_MSB_latched : bool;
  status_latched : bool;
  count_binary : Z;       (* Bit32u *)
  triggerGATE : bool;
  write_state : rw_status;
  read_state : rw_status;
  count_written : bool;
  first_pass : bool;
  state_bit_1 : bool;
  state_bit_2 : bool;
  next_change_time : Z;   (* Bit32u; 0 means never *)
  out_handler : bool;     (* a handler is installed *)
  out_calls : list bool;  (* the values it was called with *)
}.

#[export] Instance counter_eta : Eta counter_type := fun c =>
  Counter (GATE c) (OUTpin c) (count c) (outlatch c) (inlatch c) (status_latch c) (rw_mode c)
    (mode c) (bcd_mode c) (null_count c) (count_LSB_latched c) (count_MSB_latched c)
    (status_latched c) (count_binary c) (triggerGATE c) (write_state c) (read_state c)
    (count_written c) (first_pass c) (state_bit_1 c) (state_bit_2 c) (next_change_time c)
    (out_handler c) (out_calls c).

Definition latch_counter (c : counter_type) : counter_type :=
  if count_LSB_latched c || count_MSB_latched c then c
  else
    match read_state c with
    | MSByte => c <| outlatch := Z.land (count c) 0xFFFF |> <| count_MSB_latched := true |>
    | LSByte => c <| outlatch := Z.land (count c) 0xFFFF |> <| count_LSB_latched := true |>
    | LSByte_multiple =>
        c <| outlatch := Z.land (count c) 0xFFFF |>
          <| count_LSB_latched := true |> <| count_MSB_latched := true |>
    | MSByte_multiple =>
        c <| read_state := LSByte_multiple |> <| outlatch := Z.land (count c) 0xFFFF |>
          <| count_LSB_latched := true |> <| count_MSB_latched := true |>
    end.

Definition set_OUT (data : bool) (c : counter_type) : counter_type :=
  if negb (eqb (OUTpin c) data) then
    let c := c <| OUTpin := data |> in
    if out_handler c then c <| out_calls := out_calls c ++ [data] |> else c
  else c.

Definition set_binary_to_count (c : counter_type) : counter_type :=
  if bcd_mode c then
    c <| count_binary := 1 * Z.land (Z.shiftr (count c) 0) 0xF + 10 * Z.land (Z.shiftr (count c) 4) 0xF +
                         100 * Z.land (Z.shiftr (count c) 8) 0xF +
                         1000 * Z.land (Z.shiftr (count c) 12) 0xF |>
  else c <| count_binary := count c |>.

Definition set_count (data : Z) (c : counter_type) : counter_type :=
  set_binary_to_count (c <| count := Z.land data 0xFFFF |>).

Definition set_count_to_binary (c : counter_type) : counter_type :=
  if bcd_mode c then
    let b := count_binary c in
    c <| count := Z.lor (Z.lor (Z.lor (Z.shiftl ((b / 1) mod 10) 0) (Z.shiftl ((b / 10) mod 10) 4))
                               (Z.shiftl ((b / 100) mod 10) 8))
                        (Z.shiftl ((b / 1000) mod 10) 12) |>
  else c <| count := count_binary c |>.

Definition decrement (c : counter_type) : counter_type :=
  if count c =? 0 then
    if bcd_mode c then c <| count := 0x9999 |> <| count_binary := 9999 |>
    else c <| count := 0xFFFF |> <| count_binary := 0xFFFF |>
  else set_count_to_binary (c <| count_binary := u32 (count_binary c - 1) |>).

(** [while (cycles > 0)]; [fuel] bounds the iterations. *)
Fixpoint decrement_multiple_loop (fuel : nat) (cycles : Z) (c : counter_type) : counter_type :=
  match fuel with
  | O => c
  | S fuel =>
      if cycles >? 0 then
        if cycles <=? count_binary c then
          let c := c <| count_binary := u32 (count_binary c - cycles) |> in
          decrement_multiple_loop fuel 0 (set_count_to_binary c)
        else
          let cycles := u32 (cycles - u32 (count_binary c + 1)) in
          let c := c <| count_binary := 0 |> in
          decrement_multiple_loop fuel cycles (decrement (set_count_to_binary c))
      else c
  end.

Definition decrement_multiple (cycles : Z) (c : counter_type) : counter_type :=
  decrement_multiple_loop (S (Z.to_nat cycles)) cycles c.

(** ** One clock, by mode *)

Definition set_next (t : Z) (c : counter_type) : counter_type := c <| next_change_time := t |>.

(** [if (x == 0) next_change_time = 1; else next_change_time = x & 0xFFFF] *)
Definition set_next_nz (x : Z) (c : counter_type) : counter_type :=
  if x =? 0 then set_next 1 c else set_next (Z.land x 0xFFFF) c.

Definition clock_mode0 (c : counter_type) : counter_type :=
  if count_written c then
    if null_count c then
      let c := set_count (inlatch c) c in
      let c := if GATE c then set_next_nz (count_binary c) c else set_next 0 c in
      c <| null_count := false |>
    else if GATE c && negb (is_MSB_multiple (write_state c)) then
      let c := decrement c in
      if negb (OUTpin c) then
        let c := set_next (Z.land (count_binary c) 0xFFFF) c in
        if count c =? 0 then set_OUT true c else c
      else set_next 0 c
    else set_next 0 c
  else set_next 0 c.

Definition clock_mode1 (c : counter_type) : counter_type :=
  if count_written c then
    if triggerGATE c then
      let c := set_count (inlatch c) c in
      let c := set_next_nz (count_binary c) c in
      set_OUT false (c <| null_count := false |>)
    else
      let c := decrement c in
      if negb (OUTpin c) then
        let c := set_next_nz (count_binary c) c in
        if count c =? 0 then set_OUT true c else c
      else set_next 0 c
  else set_next 0 c.

Definition clock_mode2 (c : counter_type) : counter_type :=
  if count_written c then
    if triggerGATE c || first_pass c then
      let c := set_count (inlatch c) c in
      let c := set_next (Z.land (u32 (count_binary c - 1)) 0xFFFF) c in
      let c := c <| null_count := false |> in
      let c := if negb (OUTpin c) then set_OUT true c else c in
      c <| first_pass := false |>
    else if GATE c then
      let c := decrement c in
      let c := set_next (Z.land (u32 (count_binary c - 1)) 0xFFFF) c in
      if count c =? 1 then (set_OUT false (set_next 1 c)) <| first_pass := true |> else c
    else set_next 0 c
  else set_next 0 c.

Definition clock_mode3 (c : counter_type) : counter_type :=
  if count_written c then
    if (triggerGATE c || first_pass c || state_bit_2 c) && GATE c then
      let c := set_count (Z.land (inlatch c) 0xFFFE) c in
      let c := c <| state_bit_1 := negb (Z.land (inlatch c) 0x1 =? 0) |> in
      let c := if negb (OUTpin c) || negb (state_bit_1 c)
               then set_next_nz (u32 (count_binary c / 2 - 1)) c
               else set_next_nz (count_binary c / 2) c in
      let c := c <| null_count := false |> in
      let c := if negb (OUTpin c) then set_OUT true c
               else if OUTpin c && negb (first_pass c) then set_OUT false c else c in
      c <| state_bit_2 := false |> <| first_pass := false |>
    else if GATE c then
      let c := decrement c in
      let c := decrement c in
      let c := if negb (OUTpin c) || negb (state_bit_1 c)
               then set_next (Z.land (u32 (count_binary c / 2 - 1)) 0xFFFF) c
               else set_next (Z.land (count_binary c / 2) 0xFFFF) c in
      let c := if count c =? 0 then set_next 1 (c <| state_bit_2 := true |>) else c in
      if (count c =? 2) && (negb (OUTpin c) || negb (state_bit_1 c))
      then set_next 1 (c <| state_bit_2 := true |>) else c
    else set_next 0 c
  else set_next 0 c.

Definition clock_mode4 (c : counter_type) : counter_type :=
  if count_written c then
    let c := if negb (OUTpin c) then set_OUT true c else c in
    if null_count c then
      let c := set_count (inlatch c) c in
      let c := if GATE c then set_next_nz (count_binary c) c else set_next 0 c in
      c <| null_count := false |> <| first_pass := true |>
    else if GATE c then
      let c := decrement c in
      if first_pass c then
        let c := set_next (Z.land (count_binary c) 0xFFFF) c in
        if count c =? 0 then (set_next 1 (set_OUT false c)) <| first_pass := false |> else c
      else set_next 0 c
    else set_next 0 c
  else set_next 0 c.

Definition clock_mode5 (c : counter_type) : counter_type :=
  if count_written c then
    let c := if negb (OUTpin c) then set_OUT true c else c in
    if triggerGATE c then
      let c := set_count (inlatch c) c in
      let c := set_next_nz (count_binary c) c in
      c <| null_count := false |> <| first_pass := true |>
    else
      let c := decrement c in
      if first_pass c then
        let c := set_next (Z.land (count_binary c) 0xFFFF) c in
        if count c =? 0 then (set_next 1 (set_OUT false c)) <| first_pass := false |> else c
      else set_next 0 c
  else set_next 0 c.

(** The body of [clock] on a counter. *)
Definition clock_counter (c : counter_type) : counter_type :=
  let c :=
    if mode c =? 0 then clock_mode0 c
    else if mode c =? 1 then clock_mode1 c
    else if mode c =? 2 then clock_mode2 c
    else if mode c =? 3 then clock_mode3 c
    else if mode c =? 4 then clock_mode4 c
    else if mode c =? 5 then clock_mode5 c
    else set_next 0 c in
  c <| triggerGATE := false |>.

(** [next_change_time == 0]: nothing but the count changes. *)
Definition clock_never (cycles : Z) (c : counter_type) : counter_type :=
  if count_written c then
    if mode c =? 0 then
      if GATE c && negb (is_MSB_multiple (write_state c)) then decrement_multiple cycles c else c
    else if mode c =? 1 then decrement_multiple cycles c
    else if mode c =? 2 then
      if negb (first_pass c) && GATE c then decrement_multiple cycles c else c
    else if mode c =? 3 then
      if negb (first_pass c) && GATE c then decrement_multiple (u32 (2 * cycles)) c else c
    else if mode c =? 4 then
      if GATE c then decrement_multiple cycles c else c
    else if mode c =? 5 then decrement_multiple cycles c
    else c
  else c.

(** The loop of [clock_multiple] on a counter; each round but the last uses up
    at least one cycle. *)
Fixpoint clock_multiple_loop (fuel : nat) (cycles : Z) (c : counter_type) : counter_type :=
  match fuel with
  | O => c
  | S fuel =>
      if cycles >? 0 then
        let t := next_change_time c in
        if t =? 0 then clock_multiple_loop fuel 0 (clock_never cycles c)
        else if (mode c =? 0) || (mode c =? 1) || (mode c =? 2) || (mode c =? 4) || (mode c =? 5) then
          if t >? cycles then
            let c := decrement_multiple cycles c in
            clock_multiple_loop fuel 0 (c <| next_change_time := u32 (t - cycles) |>)
          else
            let c := decrement_multiple (u32 (t - 1)) c in
            clock_multiple_loop fuel (u32 (cycles - t)) (clock_counter c)
        else if mode c =? 3 then
          if t >? cycles then
            let c := decrement_multiple (u32 (cycles * 2)) c in
            clock_multiple_loop fuel 0 (c <| next_change_time := u32 (t - cycles) |>)
          else
            let c := decrement_multiple (u32 (u32 (t - 1) * 2)) c in
            clock_multiple_loop fuel (u32 (cycles - t)) (clock_counter c)
        else clock_multiple_loop fuel 0 c
      else c
  end.

Definition clock_multiple_counter (cycles : Z) (c : counter_type) : counter_type :=
  clock_multiple_loop (S (Z.to_nat cycles)) cycles c.

(** ** Programming *)

(** Reading a counter port: the value and the counter. *)
Definition read_counter (c : counter_type) : Z * counter_type :=
  if status_latched c then
    if count_MSB_latched c && is_MSB_multiple (read_state c) then (0, c)
    else (status_latch c, c <| status_latched := false |>)
  else if count_LSB_latched c then
    let c := if is_LSB_multiple (read_state c) then c <| read_state := MSByte_multiple |> else c in
    let c := c <| count_LSB_latched := false |> in
    (Z.land (outlatch c) 0xFF, c)
  else if count_MSB_latched c then
    let c := if is_MSB_multiple (read_state c) then c <| read_state := LSByte_multiple |> else c in
    let c := c <| count_MSB_latched := false |> in
    (Z.land (Z.shiftr (outlatch c) 8) 0xFF, c)
  else if Z.land (rw_value (read_state c)) 0x1 =? 0 then
    let c := if is_LSB_multiple (read_state c) then c <| read_state := MSByte_multiple |> else c in
    (u8 (Z.land (count c) 0xFF), c)
  else
    let c := if is_MSB_multiple (read_state c) then c <| read_state := LSByte_multiple |> else c in
    (u8 (Z.land (Z.shiftr (count c) 8) 0xFF), c).

(** [READ_BACK] on a selected counter. *)
Definition latch_status (c : counter_type) : counter_type :=
  if status_latched c then c
  else
    c <| status_latch := u8 (Z.lor (Z.lor (Z.lor (Z.lor
           (Z.shiftl (Z.land (Z.b2z (OUTpin c)) 0x1) 7) (Z.shiftl (Z.land (Z.b2z (null_count c)) 0x1) 6))
           (Z.shiftl (Z.land (rw_mode c) 0x3) 4)) (Z.shiftl (Z.land (mode c) 0x7) 1))
           (Z.land (Z.b2z (bcd_mode c)) 0x1)) |>
      <| status_latched := true |>.

Definition read_back (controlword : Z) (c : counter_type) : counter_type :=
  let c := if Z.land (Z.shiftr controlword 5) 1 =? 0 then latch_counter c else c in
  if Z.land (Z.shiftr controlword 4) 1 =? 0 then latch_status c else c.

(** The counter program command. *)
Definition program_counter (RW M BCD : Z) (c : counter_type) : counter_type :=
  let c := c <| null_count := true |> <| count_LSB_latched := false |> <| count_MSB_latched := false |>
             <| status_latched := false |> <| inlatch := 0 |> <| count_written := false |>
             <| first_pass := true |> <| rw_mode := RW |> <| bcd_mode := BCD >? 0 |> <| mode := M |> in
  let c :=
    if RW =? 1 then c <| read_state := LSByte |> <| write_state := LSByte |>
    else if RW =? 2 then c <| read_state := MSByte |> <| write_state := MSByte |>
    else if RW =? 3 then c <| read_state := LSByte_multiple |> <| write_state := LSByte_multiple |>
    else c in
  let c := if negb (M =? 0) then set_OUT true c else set_OUT false c in
  set_next 0 c.

(** Writing an initial count. *)
Definition write_counter (data : Z) (c : counter_type) : counter_type :=
  let c :=
    match write_state c with
    | LSByte_multiple => c <| inlatch := data |> <| write_state := MSByte_multiple |>
    | LSByte => c <| inlatch := data |> <| count_written := true |>
    | MSByte_multiple =>
        c <| write_state := LSByte_multiple |> <| inlatch := u16 (Z.lor (inlatch c) (Z.shiftl data 8)) |>
          <| count_written := true |>
    | MSByte => c <| inlatch := u16 (Z.shiftl data 8) |> <| count_written := true |>
    end in
  let c := if count_written c && negb (is_MSB_multiple (write_state c))
           then set_count (inlatch c) (c <| null_count := true |>) else c in
  if mode c =? 0 then
    let c := if is_MSB_multiple (write_state c) then set_OUT false c else c in
    set_next 1 c
  else if mode c =? 1 then if triggerGATE c then set_next 1 c else c
  else if (mode c =? 6) || (mode c =? 2) then set_next 1 c
  else if (mode c =? 7) || (mode c =? 3) then set_next 1 c
  else if mode c =? 4 then set_next 1 c
  else if mode c =? 5 then if triggerGATE c then set_next 1 c else c
  else c.

Definition set_GATE_counter (data : bool) (c : counter_type) : counter_type :=
  if negb ((GATE c && data) || negb (GATE c || data)) then
    let c := c <| GATE := data |> in
    let c := if GATE c then c <| triggerGATE := true |> else c in
    if mode c =? 0 then
      if data && count_written c then
        if null_count c then set_next 1 c
        else if negb (OUTpin c) && negb (is_MSB_multiple (write_state c))
        then set_next_nz (count_binary c) c
        else set_next 0 c
      else if null_count c then set_next 1 c else set_next 0 c
    else if mode c =? 1 then
      if data && count_written c then set_next 1 c else c
    else if mode c =? 2 then
      if negb data then set_next 0 (set_OUT true c)
      else if count_written c then set_next 1 c else set_next 0 c
    else if mode c =? 3 then
      if negb data then set_next 0 ((set_OUT true c) <| first_pass := true |>)
      else if count_written c then set_next 1 c else set_next 0 c
    else if mode c =? 4 then
      if negb (OUTpin c) || null_count c then set_next 1 c
      else if data && count_written c then
        if first_pass c then set_next_nz (count_binary c) c else set_next 0 c
      else set_next 0 c
    else if mode c =? 5 then
      if data && count_written c then set_next 1 c else c
    else c
  else c.

(** ** The chip *)

Definition MAX_COUNTER := 2.
Definition MAX_ADDRESS := 3.
Definition CONTROL_ADDRESS := 3.

Record pit_82C54 := Pit { counter : Z -> counter_type; controlword : Z }.

#[export] Instance pit_eta : Eta pit_82C54 := fun p => Pit (counter p) (controlword p).

Definition on_counter (k : Z) (f : counter_type -> counter_type) (p : pit_82C54) : pit_82C54 :=
  p <| counter := fun j => if j =? k then f (counter p k) else counter p j |>.

(** [init] leaves the latches and the control word as they are. *)
Definition init_counter (c : counter_type) : counter_type :=
  c <| read_state := LSByte |> <| write_state := LSByte |> <| GATE := true |> <| OUTpin := true |>
    <| triggerGATE := false |> <| mode := 4 |> <| first_pass := false |> <| bcd_mode := false |>
    <| count := 0 |> <| count_binary := 0 |> <| state_bit_1 := false |> <| state_bit_2 := false |>
    <| null_count := false |> <| rw_mode := 1 |> <| count_written := true |>
    <| count_LSB_latched := false |> <| count_MSB_latched := false |> <| status_latched := false |>
    <| next_change_time := 0 |> <| out_handler := false |>.

Definition init (p : pit_82C54) : pit_82C54 :=
  on_counter 2 init_counter (on_counter 1 init_counter (on_counter 0 init_counter p)).

Definition clock (cnum : Z) (p : pit_82C54) : pit_82C54 :=
  if cnum >? MAX_COUNTER then p else on_counter cnum clock_counter p.

Definition clock_multiple (cnum cycles : Z) (p : pit_82C54) : pit_82C54 :=
  if cnum >? MAX_COUNTER then p else on_counter cnum (clock_multiple_counter cycles) p.

Definition clock_all (cycles : Z) (p : pit_82C54) : pit_82C54 :=
  clock_multiple 2 cycles (clock_multiple 1 cycles (clock_multiple 0 cycles p)).

Definition read (address : Z) (p : pit_82C54) : Z * pit_82C54 :=
  if address >? MAX_ADDRESS then (0, p)
  else if address =? CONTROL_ADDRESS then (0, p)
  else
    let '(v, c) := read_counter (counter p address) in
    (v, on_counter address (fun _ => c) p).

Definition write (address data : Z) (p : pit_82C54) : pit_82C54 :=
  if address >? MAX_ADDRESS then p
  else if address =? CONTROL_ADDRESS then
    let p := p <| controlword := data |> in
    let SC := Z.land (Z.shiftr data 6) 0x3 in
    let RW := Z.land (Z.shiftr data 4) 0x3 in
    let M := Z.land (Z.shiftr data 1) 0x7 in
    let BCD := Z.land data 0x1 in
    if SC =? 3 then
      fold_left (fun p i => if negb (Z.land (Z.shiftr M i) 0x1 =? 0)
                            then on_counter i (read_back data) p else p) [0; 1; 2] p
    else if RW =? 0 then on_counter SC latch_counter p
    else on_counter SC (program_counter RW M BCD) p
  else on_counter address (write_counter data) p.

Definition set_GATE (cnum : Z) (data : bool) (p : pit_82C54) : pit_82C54 :=
  if cnum >? MAX_COUNTER then p else on_counter cnum (set_GATE_counter data) p.

Definition read_OUT (cnum : Z) (p : pit_82C54) : bool :=
  if cnum >? MAX_COUNTER then false else OUTpin (counter p cnum).

Definition read_GATE (cnum : Z) (p : pit_82C54) : bool :=
  if cnum >? MAX_COUNTER then false else GATE (counter p cnum).

Definition get_clock_event_time (cnum : Z) (p : pit_82C54) : Z :=
  if cnum >? MAX_COUNTER then 0 else next_change_time (counter p cnum).

Definition get_next_event_time (p : pit_82C54) : Z :=
  let time0 := get_clock_event_time 0 p in
  let time1 := get_clock_event_time 1 p in
  let time2 := get_clock_event_time 2 p in
  let out := time0 in
  let out := if negb (time1 =? 0) && (time1 <? out) then time1 else out in
  if negb (time2 =? 0) && (time2 <? out) then time2 else out.

Definition get_inlatch (counternum : Z) (p : pit_82C54) : Z := inlatch (counter p counternum).
Definition new_count_ready (countnum : Z) (p : pit_82C54) : bool :=
  negb (is_MSB_multiple (write_state (counter p countnum))).
Definition get_mode (countnum : Z) (p : pit_82C54) : Z := mode (counter p countnum).
Definition set_OUT_handler (counternum : Z) (h : bool) (p : pit_82C54) : pit_82C54 :=
  on_counter counternum (fun c => c <| out_handler := h |>) p.
