(* ===== verification/PitRun.v ===== *)
(** * Counting and running: jumping is stepping

    First counting, binary and BCD: [count] holds the count the way it is read
    (four BCD digits in BCD mode) and
    [count_binary] its value; both wrap at the modulus of the mode.  A jump over
    many clocks is proved to be that many decrements. *)

From Stdlib Require Import ZArith Lia List Bool.
From S2P Require Import Prelude Pit82c54.
Import ListNotations.
Open Scope Z_scope.

Definition modulus (c : counter_type) : Z := if bcd_mode c then 10000 else 65536.

(** Four decimal digits. *)
Definition to_bcd (b : Z) : Z :=
  Z.lor (Z.lor (Z.lor (Z.shiftl ((b / 1) mod 10) 0) (Z.shiftl ((b / 10) mod 10) 4))
               (Z.shiftl ((b / 100) mod 10) 8)) (Z.shiftl ((b / 1000) mod 10) 12).

Definition of_bcd (x : Z) : Z :=
  1 * Z.land (Z.shiftr x 0) 0xF + 10 * Z.land (Z.shiftr x 4) 0xF +
  100 * Z.land (Z.shiftr x 8) 0xF + 1000 * Z.land (Z.shiftr x 12) 0xF.

(** The count as read, for the value [b]. *)
Definition encode (c : counter_type) (b : Z) : Z := if bcd_mode c then to_bcd b else b.

Definition synced (c : counter_type) : Prop :=
  0 <= count_binary c < modulus c /\ count c = encode c (count_binary c).

Definition with_binary (b : Z) (c : counter_type) : counter_type :=
  c <| count := encode c b |> <| count_binary := b |>.

Lemma bcd_facts b : 0 <= b < 10000 ->
  of_bcd (to_bcd b) = b /\ 0 <= to_bcd b < 65536 /\ (to_bcd b = 0 -> b = 0) /\
  (to_bcd b = 1 -> b = 1) /\ (to_bcd b = 2 -> b = 2).
Proof.
  intros H.
  assert (C : forallb (fun b => (of_bcd (to_bcd b) =? b) && (0 <=? to_bcd b) && (to_bcd b <? 65536) &&
     (negb (to_bcd b =? 0) || (b =? 0)) && (negb (to_bcd b =? 1) || (b =? 1)) &&
     (negb (to_bcd b =? 2) || (b =? 2))) (zrange (Z.to_nat 10000)) = true) by (vm_compute; reflexivity).
  pose proof (zrange_forall (Z.to_nat 10000) _ C b ltac:(lia)) as K. cbv beta in K.
  repeat (apply andb_true_iff in K; destruct K as [K ?]). bool_hyps.
  repeat match goal with X : _ || _ = true |- _ => apply orb_true_iff in X end.
  repeat match goal with X : (_ =? _) = true |- _ => apply Z.eqb_eq in X end.
  repeat match goal with X : (_ <=? _) = true |- _ => apply Z.leb_le in X end.
  repeat match goal with X : (_ <? _) = true |- _ => apply Z.ltb_lt in X end.
  assert (N : forall x y, negb (x =? y) = true \/ b = y -> x = y -> b = y).
  { intros x y [X|X] E; [apply negb_true_iff, Z.eqb_neq in X; lia | exact X]. }
  repeat match goal with X : _ \/ (_ =? _) = true |- _ => rewrite Z.eqb_eq in X end.
  repeat split; eauto; lia.
Qed.

Lemma encode_small c b k : 0 <= b < modulus c -> 0 <= k <= 2 -> encode c b = k <-> b = k.
Proof.
  intros Hb Hk. unfold encode, modulus in *. destruct (bcd_mode c); [|reflexivity].
  destruct (bcd_facts b Hb) as (_ & _ & A & B & C). split.
  - intros E. assert (k = 0 \/ k = 1 \/ k = 2) as [-> | [-> | ->]] by lia; auto.
  - intros ->. assert (k = 0 \/ k = 1 \/ k = 2) as [-> | [-> | ->]] by lia; reflexivity.
Qed.

Lemma encode_fits c b : 0 <= b < modulus c -> 0 <= encode c b < 65536.
Proof.
  intros Hb. unfold encode, modulus in *. destruct (bcd_mode c); [|exact Hb].
  apply bcd_facts, Hb.
Qed.

Lemma with_binary_self c : synced c -> with_binary (count_binary c) c = c.
Proof. intros [_ E]. unfold with_binary. rewrite <- E. destruct c. reflexivity. Qed.

Lemma with_binary_twice a b c : with_binary a (with_binary b c) = with_binary a c.
Proof. reflexivity. Qed.

Lemma with_binary_synced b c : 0 <= b < modulus c -> synced (with_binary b c).
Proof. intros H. split; [exact H | reflexivity]. Qed.

Lemma sync_to_binary b c : set_count_to_binary (c <| count_binary := b |>) = with_binary b c.
Proof.
  unfold set_count_to_binary, with_binary, encode. cbn [set_field bcd_mode count_binary].
  destruct (bcd_mode c) eqn:E; reflexivity.
Qed.

Lemma modulus_pos c : 1000 < modulus c <= 65536.
Proof. unfold modulus. destruct (bcd_mode c); lia. Qed.

(** A decrement counts down modulo the modulus. *)
Lemma decrement_eq c : synced c ->
  decrement c = with_binary ((count_binary c - 1) mod modulus c) c.
Proof.
  intros [B E]. unfold decrement. pose proof (modulus_pos c).
  pose proof (encode_small c (count_binary c) 0 B ltac:(lia)) as Z0. rewrite E.
  destruct (Z.eqb_spec (encode c (count_binary c)) 0) as [X|X].
  - apply Z0 in X. rewrite X.
    replace ((0 - 1) mod modulus c) with (modulus c - 1) by (apply Z.mod_unique with (-1); lia).
    unfold with_binary, encode, modulus. destruct (bcd_mode c); reflexivity.
  - rewrite sync_to_binary. assert (count_binary c <> 0) by (intros Y; apply X, Z0, Y).
    rewrite (Z.mod_small (count_binary c - 1)) by lia. rewrite wrap_id; [reflexivity|].
    unfold fits. lia.
Qed.

Lemma iter_decrement c n : synced c ->
  Nat.iter n decrement c = with_binary ((count_binary c - Z.of_nat n) mod modulus c) c.
Proof.
  intros Sy. pose proof (modulus_pos c). induction n as [|n IH].
  - rewrite Z.sub_0_r, Z.mod_small by apply Sy. symmetry. apply with_binary_self, Sy.
  - change (Nat.iter (S n) decrement c) with (decrement (Nat.iter n decrement c)).
    rewrite IH, decrement_eq.
    2: { apply with_binary_synced, Z.mod_pos_bound. lia. }
    rewrite with_binary_twice. unfold with_binary at 1. cbn [set_field count_binary].
    change (modulus (with_binary ((count_binary c - Z.of_nat n) mod modulus c) c)) with (modulus c).
    change (count_binary (with_binary ((count_binary c - Z.of_nat n) mod modulus c) c))
      with ((count_binary c - Z.of_nat n) mod modulus c).
    rewrite Zminus_mod_idemp_l. replace (count_binary c - Z.of_nat (S n)) with (count_binary c - Z.of_nat n - 1) by lia.
    reflexivity.
Qed.

(** The jump: any fuel above [cycles] is enough. *)
Lemma decrement_multiple_loop_eq fuel : forall cycles c, synced c -> 0 <= cycles < 2 ^ 32 ->
  cycles < Z.of_nat fuel ->
  decrement_multiple_loop fuel cycles c = with_binary ((count_binary c - cycles) mod modulus c) c.
Proof.
  induction fuel as [|fuel IH]; intros cycles c S Hc Hf; [lia|]. cbn [decrement_multiple_loop].
  rewrite Z.gtb_ltb. pose proof (modulus_pos c). pose proof S as [B E].
  destruct (Z.ltb_spec 0 cycles) as [P|P].
  2: { replace cycles with 0 by lia. rewrite Z.sub_0_r, Z.mod_small by lia. symmetry.
       apply with_binary_self, S. }
  destruct (Z.leb_spec cycles (count_binary c)) as [L|L].
  - rewrite sync_to_binary, (wrap_id 32) by (unfold fits; lia).
    rewrite (Z.mod_small (count_binary c - cycles)) by lia.
    set (c' := with_binary (count_binary c - cycles) c).
    assert (S' : synced c') by (apply with_binary_synced; lia).
    destruct fuel as [|fuel]; [reflexivity|].
    rewrite IH by (exact S' || lia). rewrite Z.sub_0_r, Z.mod_small by apply S'.
    apply with_binary_self, S'.
  - rewrite sync_to_binary. set (c0 := with_binary 0 c).
    assert (S0 : synced c0) by (apply with_binary_synced; lia).
    rewrite decrement_eq by exact S0.
    change (modulus c0) with (modulus c). change (count_binary c0) with 0.
    replace ((0 - 1) mod modulus c) with (modulus c - 1) by (apply Z.mod_unique with (-1); lia).
    rewrite (wrap_id 32 (count_binary c + 1)), (wrap_id 32) by (unfold fits; lia).
    rewrite IH; [| apply with_binary_synced; change (modulus c0) with (modulus c); lia | lia | lia].
    change (modulus (with_binary (modulus c - 1) c0)) with (modulus c).
    change (count_binary (with_binary (modulus c - 1) c0)) with (modulus c - 1).
    set (r := (modulus c - 1 - (cycles - (count_binary c + 1))) mod modulus c).
    assert (R : r = (count_binary c - cycles) mod modulus c).
    { subst r. replace (modulus c - 1 - (cycles - (count_binary c + 1)))
        with (count_binary c - cycles + 1 * modulus c) by lia. apply Z.mod_add. lia. }
    rewrite R. reflexivity.
Qed.

Lemma decrement_multiple_eq cycles c : synced c -> 0 <= cycles < 2 ^ 32 ->
  decrement_multiple cycles c = with_binary ((count_binary c - cycles) mod modulus c) c.
Proof. intros. apply decrement_multiple_loop_eq; auto; lia. Qed.

(** [decrement_multiple] is that many single decrements, in binary and in BCD,
    through any number of wrap-arounds; its loop ends within [cycles] rounds, so a
    larger bound gives the same result. *)
Theorem decrement_multiple_is_iteration c cycles fuel :
  synced c -> 0 <= cycles < 2 ^ 32 -> cycles < Z.of_nat fuel ->
  decrement_multiple cycles c = Nat.iter (Z.to_nat cycles) decrement c /\
  decrement_multiple_loop fuel cycles c = decrement_multiple cycles c.
Proof.
  intros S Hc Hf. rewrite decrement_multiple_eq, decrement_multiple_loop_eq, iter_decrement by assumption.
  rewrite Z2Nat.id by lia. split; reflexivity.
Qed.

(** A counter as [init] leaves it, the latches zeroed. *)
Definition power_up : counter_type :=
  init_counter (Counter false false 0 0 0 0 0 0 false false false false false 0 false LSByte LSByte
    false false false false 0 false []).

Definition power_up_handled : counter_type := power_up <| out_handler := true |>.

(** 25000 decrements of a BCD counter wrap twice. *)
Lemma decrement_multiple_is_iteration_witness :
  let c := power_up <| bcd_mode := true |> <| count := 0x1234 |> <| count_binary := 1234 |> in
  decrement_multiple 25000 c = Nat.iter (Z.to_nat 25000) decrement c /\
  decrement_multiple_loop (Z.to_nat 30000) 25000 c = decrement_multiple 25000 c /\
  count (decrement_multiple 25000 c) = 0x6234.
Proof.
  intros c. assert (C : count (decrement_multiple 25000 c) = 0x6234) by (vm_compute; reflexivity).
  rewrite <- and_assoc. split; [|exact C].
  apply (decrement_multiple_is_iteration c 25000 (Z.to_nat 30000)); [|lia|lia].
  split; [vm_compute; split; congruence | reflexivity].
Defined.

(** ** Running counters: jumping is stepping

    [clock_multiple] jumps from one change to the next with [next_change_time].
    A counter is [scheduled] when, up to that change, single clocks do nothing
    but count; for an invariant that keeps counters scheduled, the jump is
    exactly the iteration of [clock].  The invariants of the interrupt on
    terminal count (mode 0), the rate generator (mode 2) and the square wave
    generator with an even count (mode 3) follow. *)

Ltac ctr := cbn [set_field set_next GATE OUTpin count outlatch inlatch status_latch rw_mode mode
  bcd_mode null_count count_LSB_latched count_MSB_latched status_latched count_binary triggerGATE
  write_state read_state count_written first_pass state_bit_1 state_bit_2 next_change_time
  out_handler out_calls] in *.

Definition steps (n : Z) (c : counter_type) : counter_type := Nat.iter (Z.to_nat n) clock_counter c.

Lemma steps_0 c : steps 0 c = c.
Proof. reflexivity. Qed.

Lemma steps_add n m c : 0 <= n -> 0 <= m -> steps (n + m) c = steps n (steps m c).
Proof. intros. unfold steps. rewrite Z2Nat.inj_add, iter_add by lia. reflexivity. Qed.

Lemma steps_1 c : steps 1 c = clock_counter c.
Proof. reflexivity. Qed.

Lemma steps_succ n c : 0 <= n -> steps (n + 1) c = clock_counter (steps n c).
Proof. intros. rewrite Z.add_comm, steps_add, steps_1 by lia. reflexivity. Qed.

(** ** Jumps *)

(** Decrements per clock. *)
Definition speed (c : counter_type) : Z := if mode c =? 3 then 2 else 1.

Definition scheduled (c : counter_type) : Prop :=
  let t := next_change_time c in
  0 <= mode c <= 5 /\ 0 <= t < 2 ^ 16 /\
  if t =? 0 then forall k, 0 <= k < 2 ^ 31 -> steps k c = clock_never k c
  else (forall k, 0 <= k < t ->
          steps k c = (decrement_multiple (speed c * k) c) <| next_change_time := t - k |>) /\
       steps t c = clock_counter (decrement_multiple (speed c * (t - 1)) c).

Lemma clock_multiple_zero fuel c : clock_multiple_loop fuel 0 c = c.
Proof. destruct fuel; reflexivity. Qed.

Lemma inv_steps (Inv : counter_type -> Prop) n c : 
  (forall c, Inv c -> Inv (clock_counter c)) -> Inv c -> Inv (steps n c).
Proof. intros H Hc. unfold steps. apply iter_ind; auto. Qed.

(** One round of the loop. *)
Lemma multiple_round fuel n c : scheduled c -> 0 < n < 2 ^ 31 ->
  let t := next_change_time c in
  clock_multiple_loop (S fuel) n c =
  if (t =? 0) || (n <? t) then steps n c else clock_multiple_loop fuel (n - t) (steps t c).
Proof.
  intros (Hm & Ht & S) Hn t. cbn [clock_multiple_loop]. fold t in S, Ht |- *. unfold speed in S.
  rewrite !Z.gtb_ltb. destruct (Z.ltb_spec 0 n); [|lia].
  destruct (Z.eqb_spec t 0) as [E|E]; cbn [orb].
  - rewrite clock_multiple_zero. symmetry. apply S. lia.
  - destruct S as [S1 S2].
    assert (M : mode c = 3 \/ (mode c =? 3) = false /\
      ((mode c =? 0) || (mode c =? 1) || (mode c =? 2) || (mode c =? 4) || (mode c =? 5)) = true).
    { assert (mode c = 0 \/ mode c = 1 \/ mode c = 2 \/ mode c = 3 \/ mode c = 4 \/ mode c = 5)
        as [X|[X|[X|[X|[X|X]]]]] by lia; rewrite X; auto. }
    destruct M as [M|[M3 M]]; [rewrite M in *|rewrite M, M3 in *]; cbn [Z.eqb Pos.eqb orb] in *;
      destruct (Z.ltb_spec n t); rewrite ?clock_multiple_zero, ?S1, ?S2 by lia.
    + rewrite !(wrap_id 32) by (unfold fits; lia). do 2 f_equal; lia.
    + rewrite !(wrap_id 32) by (try rewrite wrap_id; unfold fits; lia).
      do 3 f_equal; lia.
    + rewrite !(wrap_id 32) by (unfold fits; lia). do 2 f_equal; lia.
    + rewrite !(wrap_id 32) by (unfold fits; lia). do 3 f_equal; lia.
Qed.

Section Jump.
Variable Inv : counter_type -> Prop.
Hypothesis Inv_scheduled : forall c, Inv c -> scheduled c.
Hypothesis Inv_clock : forall c, Inv c -> Inv (clock_counter c).

Lemma multiple_steps fuel : forall n c, Inv c -> 0 <= n < 2 ^ 31 -> n < Z.of_nat fuel ->
  clock_multiple_loop fuel n c = steps n c.
Proof.
  induction fuel as [|fuel IH]; intros n c Hc Hn Hf; [lia|].
  destruct (Z.eq_dec n 0) as [->|N]; [apply clock_multiple_zero|].
  rewrite multiple_round by (auto || lia). pose proof (Inv_scheduled c Hc) as (_ & Ht & _).
  destruct (Z.eqb_spec (next_change_time c) 0) as [E|E]; cbn [orb]; [reflexivity|].
  destruct (Z.ltb_spec n (next_change_time c)); [reflexivity|].
  rewrite IH by (try apply inv_steps; auto; lia). rewrite <- steps_add by lia. f_equal. lia.
Qed.

Lemma jump_steps n c : Inv c -> 0 <= n < 2 ^ 31 -> clock_multiple_counter n c = steps n c.
Proof. intros. apply multiple_steps; auto. lia. Qed.

End Jump.

(** ** Loading the count *)

(** The value of the count register [x] in the mode of [c]. *)
Definition decode (c : counter_type) (x : Z) : Z := if bcd_mode c then of_bcd x else x.

(** [x] is a count of the mode: in BCD its digits are decimal. *)
Definition valid_count (c : counter_type) (x : Z) : Prop :=
  0 <= x < 65536 /\ 0 <= decode c x < modulus c /\ encode c (decode c x) = x.

Lemma set_count_eq c x : valid_count c x -> set_count x c = with_binary (decode c x) c.
Proof.
  intros (Hx & Hd & He). unfold set_count, set_binary_to_count, with_binary. rewrite He.
  unfold decode. change 0xFFFF with (Z.ones 16). rewrite Z.land_ones, Z.mod_small by lia. ctr.
  unfold of_bcd. destruct (bcd_mode c) eqn:B; ctr; reflexivity.
Qed.

Lemma trigger_clear c : triggerGATE c = false -> c <| triggerGATE := false |> = c.
Proof. intros H. rewrite <- H. destruct c. reflexivity. Qed.

Lemma next_self t c : next_change_time c = t -> c <| next_change_time := t |> = c.
Proof. intros <-. destruct c. reflexivity. Qed.

(** ** [next_change_time] is only an output of a clock *)

Definition renext (x : Z) (c : counter_type) : counter_type := c <| next_change_time := x |>.
Lemma renext_out x v c : set_OUT v (renext x c) = renext x (set_OUT v c).
Proof. unfold set_OUT, renext. ctr. destruct (negb _), (out_handler c); reflexivity. Qed.
Lemma renext_count x d c : set_count d (renext x c) = renext x (set_count d c).
Proof. unfold set_count, set_binary_to_count, renext. ctr. destruct (bcd_mode c); reflexivity. Qed.
Lemma renext_dec x c : decrement (renext x c) = renext x (decrement c).
Proof. unfold decrement, set_count_to_binary, renext. ctr. destruct (count c =? 0), (bcd_mode c); reflexivity. Qed.
Lemma renext_next x t c : set_next t (renext x c) = set_next t c.
Proof. reflexivity. Qed.
Lemma renext_nz x t c : set_next_nz t (renext x c) = set_next_nz t c.
Proof. reflexivity. Qed.

(** Reads of the other fields. *)
Ltac peel x c := 
    change (count_written (renext x c)) with (count_written c);
    change (null_count (renext x c)) with (null_count c);
    change (OUTpin (renext x c)) with (OUTpin c);
    change (write_state (renext x c)) with (write_state c);
    change (GATE (renext x c)) with (GATE c);
    change (triggerGATE (renext x c)) with (triggerGATE c);
    change (first_pass (renext x c)) with (first_pass c);
    change (state_bit_2 (renext x c)) with (state_bit_2 c);
    change (inlatch (renext x c)) with (inlatch c).

Lemma clock_next x c : clock_counter (renext x c) = clock_counter c.
Proof.
  unfold clock_counter. change (mode (renext x c)) with (mode c).
  assert (clock_mode0 (renext x c) = clock_mode0 c).
  { unfold clock_mode0. peel x c. rewrite renext_dec, !renext_count. 
   destruct (count_written c), (null_count c), (GATE c); try reflexivity. }
  assert (clock_mode1 (renext x c) = clock_mode1 c).
  { unfold clock_mode1. peel x c. rewrite renext_dec, !renext_count. 
   destruct (count_written c), (triggerGATE c); try reflexivity. }
  assert (clock_mode2 (renext x c) = clock_mode2 c).
  { unfold clock_mode2. peel x c. rewrite renext_dec, !renext_count. 
   reflexivity. }
  assert (clock_mode3 (renext x c) = clock_mode3 c).
  { unfold clock_mode3. peel x c. rewrite !renext_dec, !renext_count. 
   reflexivity. }
  assert (clock_mode4 (renext x c) = clock_mode4 c).
  { unfold clock_mode4. peel x c. destruct (count_written c); [|reflexivity]. rewrite renext_out.
    destruct (OUTpin c); cbv iota beta delta [negb]; [generalize c | generalize (set_OUT true c)]; intros c1; cbv beta zeta;
    peel x c1; rewrite renext_dec, renext_count; reflexivity. }
  assert (clock_mode5 (renext x c) = clock_mode5 c).
  { unfold clock_mode5. peel x c. destruct (count_written c); [|reflexivity]. rewrite renext_out.
    destruct (OUTpin c); cbv iota beta delta [negb]; [generalize c | generalize (set_OUT true c)]; intros c1; cbv beta zeta;
    peel x c1; rewrite renext_dec, renext_count; reflexivity. }
  repeat match goal with H : _ = _ |- _ => rewrite H; clear H end. reflexivity. Qed.

(** ** Counting phases *)

(** The counter [k] counting clocks later. *)
Definition ahead (k : Z) (c : counter_type) : counter_type :=
  renext (next_change_time c - k) (with_binary ((count_binary c - speed c * k) mod modulus c) c).

Lemma ahead_0 c : synced c -> ahead 0 c = c.
Proof.
  intros S. unfold ahead. rewrite Z.mul_0_r, !Z.sub_0_r, Z.mod_small by apply S.
  rewrite with_binary_self by exact S. apply next_self. reflexivity.
Qed.

Lemma scheduled_counting c : synced c -> 0 <= mode c <= 5 -> 0 < next_change_time c < 2 ^ 16 ->
  (forall k, 0 <= k < next_change_time c - 1 -> clock_counter (ahead k c) = ahead (k + 1) c) ->
  scheduled c.
Proof.
  intros S M T H. assert (Sp : 0 <= speed c <= 2) by (unfold speed; destruct (mode c =? 3); lia).
  assert (A : forall k, 0 <= k < next_change_time c -> steps k c = ahead k c).
  { intros k [K1 K2]. revert K2. pattern k. apply natlike_ind; [|clear k K1; intros k K IH K2|exact K1].
    - intros _. rewrite ahead_0 by exact S. apply steps_0.
    - change (Z.succ k) with (k + 1) in *. rewrite steps_succ, IH by lia. apply H. lia. }
  assert (D : forall k, 0 <= k < next_change_time c ->
    decrement_multiple (speed c * k) c = with_binary ((count_binary c - speed c * k) mod modulus c) c).
  { intros k K. apply decrement_multiple_eq; [exact S | nia]. }
  split; [exact M|]. split; [lia|]. destruct (Z.eqb_spec (next_change_time c) 0); [lia|]. split.
  - intros k K. rewrite A, D by lia. reflexivity.
  - replace (next_change_time c) with (next_change_time c - 1 + 1) at 1 by lia.
    rewrite steps_succ, A, D by lia. apply clock_next.
Qed.

Lemma scheduled_one c : 0 <= mode c <= 5 -> next_change_time c = 1 -> scheduled c.
Proof.
  intros M T. unfold scheduled. rewrite T. split; [exact M|]. split; [lia|]. split.
  - intros k K. replace k with 0 by lia. rewrite Z.mul_0_r. symmetry. apply next_self. exact T.
  - change (1 - 1) with 0. rewrite Z.mul_0_r. reflexivity.
Qed.

Lemma scheduled_never c : 0 <= mode c <= 5 -> next_change_time c = 0 ->
  (forall k, 0 <= k < 2 ^ 31 -> steps k c = clock_never k c) -> scheduled c.
Proof. intros M T H. unfold scheduled. rewrite T. split; [exact M|]. split; [lia | exact H]. Qed.

Lemma set_OUT_same v c : OUTpin c = v -> set_OUT v c = c.
Proof. intros <-. unfold set_OUT. rewrite eqb_reflx. reflexivity. Qed.

Lemma set_OUT_if v c : (if negb (eqb (OUTpin c) v) then set_OUT v c else c) = set_OUT v c.
Proof. unfold set_OUT. destruct (negb _); reflexivity. Qed.

(** ** Programming a counter *)

(** The control word and the two bytes of the count, as the guest writes them. *)
Definition start (M BCD lo hi : Z) (c : counter_type) : counter_type :=
  write_counter hi (write_counter lo (program_counter 3 M BCD c)).

(** The count [x] stands for the modulus when it is 0. *)
Definition effective (c : counter_type) (x : Z) : Z := if x =? 0 then modulus c else decode c x.

Lemma effective_range c x : valid_count c x ->
  0 < effective c x <= modulus c /\ decode c x = effective c x mod modulus c.
Proof.
  intros (Hx & Hd & He). pose proof (modulus_pos c). unfold effective. destruct (Z.eqb_spec x 0) as [->|N].
  - split; [lia|]. rewrite Z.mod_same by lia. unfold decode. destruct (bcd_mode c); reflexivity.
  - rewrite Z.mod_small by exact Hd. split; [|reflexivity]. split; [|lia].
    assert (decode c x <> 0); [|lia]. intros E. rewrite E in He. apply N. rewrite <- He.
    unfold encode. destruct (bcd_mode c); reflexivity.
Qed.

Lemma inlatch_bytes lo hi : 0 <= lo < 256 -> 0 <= hi < 256 ->
  u16 (Z.lor lo (Z.shiftl hi 8)) = lo + 256 * hi.
Proof.
  intros Hl Hh. rewrite Z.lor_comm, lor_shiftl_add, wrap_id by (unfold fits; lia). lia.
Qed.

(** What programming leaves in a mode without a trigger. *)
Record started (M BCD x : Z) (c c0 : counter_type) : Prop := {
  st_mode : mode c0 = M;
  st_inlatch : inlatch c0 = x;
  st_gate : GATE c0 = GATE c;
  st_trigger : triggerGATE c0 = triggerGATE c;
  st_bcd : bcd_mode c0 = (BCD >? 0);
  st_written : count_written c0 = true;
  st_first : first_pass c0 = true;
  st_null : null_count c0 = true;
  st_write : write_state c0 = LSByte_multiple;
  st_OUT : OUTpin c0 = negb (M =? 0);
  st_next : next_change_time c0 = 1;
}.

Lemma start_started M BCD lo hi c : 0 <= lo < 256 -> 0 <= hi < 256 -> M = 0 \/ M = 2 \/ M = 3 ->
  started M BCD (lo + 256 * hi) c (start M BCD lo hi c).
Proof.
  intros Hl Hh HM. rewrite <- (inlatch_bytes lo hi Hl Hh). unfold start, program_counter.
  destruct (BCD >? 0) eqn:B, HM as [ -> | [ -> | ->]], c, OUTpin, out_handler;
    split; cbv -[wrap Z.lor Z.shiftl Z.land Z.mul Z.add Z.shiftr Z.gtb]; (reflexivity || (symmetry; exact B)).
Qed.

(** ** Helpers of the modes *)

Lemma land_u16 x : 0 <= x < 65536 -> Z.land (u32 x) 0xFFFF = x.
Proof.
  intros H. change 0xFFFF with (Z.ones 16). rewrite wrap_id by (unfold fits; lia).
  rewrite Z.land_ones, Z.mod_small; lia.
Qed.

(** Compute a field of an updated counter. *)
Ltac field_goal := unfold renext, with_binary; cbn [set_field GATE OUTpin count inlatch mode bcd_mode
  null_count triggerGATE write_state count_written state_bit_1 state_bit_2 out_handler out_calls
  count_binary first_pass next_change_time].

Lemma set_OUT_change v c : OUTpin c = negb v ->
  set_OUT v c = c <| OUTpin := v |> <| out_calls := if out_handler c then out_calls c ++ [v] else out_calls c |>.
Proof.
  intros H. unfold set_OUT. rewrite H. destruct c. ctr. subst. destruct v, out_handler; reflexivity.
Qed.

Lemma set_OUT_eq v c : exists l, set_OUT v c = c <| OUTpin := v |> <| out_calls := l |>.
Proof.
  unfold set_OUT. destruct c. ctr. destruct OUTpin, v, out_handler; eexists; reflexivity.
Qed.
