(* ===== verification/PitRate.v ===== *)
(** * The rate generator (mode 2)

    From the programming of the counter on: OUT is low during one clock in [N],
    the count read is the distance to the next reload, and the event-driven
    [clock_multiple] agrees with single clocks. *)

From Stdlib Require Import ZArith Lia List Bool.
From S2P Require Import Prelude Pit82c54 PitRun.
Import ListNotations.
Open Scope Z_scope.

(** A mode 2 counter with a count [N], past its first load: [N - j] is left. *)
Record rate (N j : Z) (c : counter_type) : Prop := {
  rate_mode : mode c = 2;
  rate_gate : GATE c = true;
  rate_written : count_written c = true;
  rate_trigger : triggerGATE c = false;
  rate_valid : valid_count c (inlatch c);
  rate_count : decode c (inlatch c) = N mod modulus c;
  rate_N : 2 <= N <= modulus c /\ (bcd_mode c = true -> N < modulus c);
  rate_j : 0 <= j < N;
  rate_sync : synced c;
  rate_binary : count_binary c = (N - j) mod modulus c;
  rate_first : first_pass c = (j =? N - 1);
  rate_OUT : OUTpin c = negb (j =? N - 1);
  rate_next : next_change_time c = Z.max 1 (N - 1 - j);
}.

(** Programmed and waiting for its first clock. *)
Record rate_pending (N : Z) (c : counter_type) : Prop := {
  pend_mode : mode c = 2;
  pend_gate : GATE c = true;
  pend_written : count_written c = true;
  pend_trigger : triggerGATE c = false;
  pend_valid : valid_count c (inlatch c);
  pend_count : decode c (inlatch c) = N mod modulus c;
  pend_N : 2 <= N <= modulus c /\ (bcd_mode c = true -> N < modulus c);
  pend_first : first_pass c = true;
  pend_next : next_change_time c = 1;
}.

Lemma clock2_count c : mode c = 2 -> count_written c = true -> triggerGATE c = false ->
  first_pass c = false -> GATE c = true -> synced c ->
  clock_counter c =
  let b := (count_binary c - 1) mod modulus c in
  if b =? 1 then (set_OUT false (renext 1 (with_binary b c))) <| first_pass := true |>
  else renext (Z.land (u32 (b - 1)) 0xFFFF) (with_binary b c).
Proof.
  intros M W T F G S. unfold clock_counter. rewrite M. unfold clock_mode2. cbn [Z.eqb Pos.eqb].
  rewrite W, T, F, G, decrement_eq by exact S. cbn [orb]. cbv zeta.
  set (b := (count_binary c - 1) mod modulus c).
  assert (B : 0 <= b < modulus c) by (apply Z.mod_pos_bound; pose proof (modulus_pos c); lia).
  change (count (set_next _ (with_binary b c))) with (encode c b).
  replace (encode c b =? 1) with (b =? 1).
  2: { apply eq_true_iff_eq. rewrite !Z.eqb_eq. symmetry. apply encode_small; lia. }
  destruct (b =? 1).
  - unfold set_OUT, renext, with_binary. generalize (encode c b). intros e. destruct c; ctr.
    rewrite T. destruct (negb _), out_handler; reflexivity.
  - destruct c; ctr. rewrite T. reflexivity.
Qed.

Lemma clock2_load c : mode c = 2 -> count_written c = true -> triggerGATE c = false ->
  first_pass c = true -> valid_count c (inlatch c) ->
  clock_counter c =
  let b := decode c (inlatch c) in
  (set_OUT true (renext (Z.land (u32 (b - 1)) 0xFFFF) (with_binary b c)))
    <| null_count := false |> <| first_pass := false |>.
Proof.
  intros M W T F V. unfold clock_counter. rewrite M. unfold clock_mode2. cbn [Z.eqb Pos.eqb].
  rewrite W, T, F, set_count_eq by exact V. cbn [orb]. cbv zeta.
  set (b := decode c (inlatch c)). 
  unfold set_OUT. destruct c; ctr. rewrite T. destruct OUTpin, out_handler; reflexivity.
Qed.

(** The distance to the next change of a freshly loaded count. *)
Lemma reload_next N m : 2 <= N <= m -> m <= 65536 -> (m < 65536 -> N < m) ->
  Z.land (u32 (N mod m - 1)) 0xFFFF = N - 1.
Proof.
  intros H Hm Hb. destruct (Z.eq_dec N m) as [->|E].
  - rewrite Z.mod_same by lia. replace m with 65536 by lia. reflexivity.
  - rewrite Z.mod_small by lia. apply land_u16. lia.
Qed.

Lemma rate_load N c : rate_pending N c -> rate N 0 (clock_counter c).
Proof.
  intros [M G W T V E HN F X]. rewrite clock2_load by assumption. cbv zeta. rewrite E.
  pose proof (modulus_pos c) as Hm.
  assert (B : 0 <= N mod modulus c < modulus c) by (apply Z.mod_pos_bound; lia).
  assert (R : Z.land (u32 (N mod modulus c - 1)) 0xFFFF = N - 1).
  { apply reload_next; try tauto. unfold modulus in *. destruct HN as [_ HN].
    destruct (bcd_mode c); [auto | lia]. }
  assert (Z0 : (0 =? N - 1) = false) by (apply Z.eqb_neq; lia).
  rewrite R. unfold set_OUT. case_bool; [case_bool|];
  (split; try assumption;
   [lia | apply (with_binary_synced (N mod modulus c) c); exact B | rewrite Z.sub_0_r; reflexivity
   | rewrite Z0; reflexivity | rewrite Z0 | field_goal; lia]); try reflexivity.
  field_goal. change (OUTpin (renext (N - 1) (with_binary (N mod modulus c) c))) with (OUTpin c) in E0.
  destruct (OUTpin c); [reflexivity | discriminate].
Qed.

Lemma rate_step N j c : rate N j c -> rate N ((j + 1) mod N) (clock_counter c).
Proof.
  intros [M G W T V E HN J S B F O X]. destruct (Z.eq_dec j (N - 1)) as [EJ|EJ].
  { replace ((j + 1) mod N) with 0 by (replace (j + 1) with N by lia; symmetry; apply Z.mod_same; lia).
    apply rate_load. split; try assumption; [rewrite F; apply Z.eqb_eq, EJ | lia]. }
  rewrite (Z.mod_small (j + 1)) by lia. pose proof (modulus_pos c) as Hm.
  replace (j =? N - 1) with false in F, O by (symmetry; apply Z.eqb_neq; lia).
  rewrite clock2_count by assumption. cbv zeta. rewrite B, Zminus_mod_idemp_l.
  replace (N - j - 1) with (N - (j + 1)) by lia. rewrite (Z.mod_small (N - (j + 1))) by lia.
  assert (B' : with_binary (N - (j + 1)) c = with_binary ((N - (j + 1)) mod modulus c) c)
    by (rewrite Z.mod_small by lia; reflexivity).
  assert (S' : synced (with_binary (N - (j + 1)) c)) by (apply with_binary_synced; lia).
  destruct (Z.eqb_spec (N - (j + 1)) 1) as [K|K].
  - unfold set_OUT. change (OUTpin (renext 1 (with_binary (N - (j + 1)) c))) with (OUTpin c).
    rewrite O. case_bool; [|discriminate]. case_bool;
    (split; try assumption; [lia | rewrite B'; reflexivity | field_goal | field_goal | field_goal; lia]);
    replace (j + 1 =? N - 1) with true by (symmetry; apply Z.eqb_eq; lia); reflexivity.
  - rewrite land_u16 by lia.
    split; try assumption; [lia | rewrite B'; reflexivity | field_goal | field_goal | field_goal; lia];
    replace (j + 1 =? N - 1) with false by (symmetry; apply Z.eqb_neq; lia); assumption.
Qed.

Lemma rate_scheduled N j c : rate N j c -> scheduled c.
Proof.
  intros R. pose proof R as [M G W T V E HN J S B F O X]. pose proof (modulus_pos c) as Hm.
  destruct (Z.eq_dec (next_change_time c) 1) as [E1|E1]; [apply scheduled_one; lia|].
  apply scheduled_counting; [exact S | lia | lia|]. intros k K.
  assert (J' : j + k + 2 < N) by lia.
  replace (j =? N - 1) with false in F by (symmetry; apply Z.eqb_neq; lia).
  assert (Sp : speed c = 1) by (unfold speed; rewrite M; reflexivity).
  assert (S' : synced (ahead k c)) by (apply (with_binary_synced _ c), Z.mod_pos_bound; lia).
  rewrite clock2_count by assumption. cbv zeta. change (modulus (ahead k c)) with (modulus c).
  change (count_binary (ahead k c)) with ((count_binary c - speed c * k) mod modulus c).
  rewrite Zminus_mod_idemp_l, B, Sp.
  assert (EQ : ((N - j) mod modulus c - 1 * k - 1) mod modulus c = N - (j + k + 1)).
  { replace ((N - j) mod modulus c - 1 * k - 1) with ((N - j) mod modulus c - (k + 1)) by lia.
    rewrite Zminus_mod_idemp_l, Z.mod_small; lia. }
  rewrite EQ. destruct (Z.eqb_spec (N - (j + k + 1)) 1); [lia|].
  rewrite land_u16 by lia. unfold ahead. rewrite Sp, B, X, !Zminus_mod_idemp_l.
  rewrite (Z.mod_small (N - j - 1 * (k + 1))) by lia.
  replace (N - j - 1 * (k + 1)) with (N - (j + k + 1)) by lia.
  replace (Z.max 1 (N - 1 - j) - (k + 1)) with (N - (j + k + 1) - 1) by lia. reflexivity.
Qed.

Lemma rate_steps N c n : rate_pending N c -> 0 <= n -> rate N (n mod N) (steps (n + 1) c).
Proof.
  intros P H. assert (HN : 2 <= N) by apply P. rewrite steps_add, steps_1 by lia. pattern n.
  apply natlike_ind; [rewrite Z.mod_0_l by lia; apply rate_load, P | | exact H].
  intros x Hx IH. change (Z.succ x) with (x + 1). rewrite steps_succ by exact Hx.
  rewrite <- Zplus_mod_idemp_l. apply rate_step, IH.
Qed.

(** Some mode 2 counter with the count [N], before or after its first load. *)
Definition rating (N : Z) (c : counter_type) : Prop := rate_pending N c \/ exists j, rate N j c.

Lemma rating_scheduled N c : rating N c -> scheduled c.
Proof.
  intros [P|[j R]]; [|eapply rate_scheduled; eassumption].
  apply scheduled_one; destruct P as [M]; [rewrite M; lia | assumption].
Qed.

Lemma rating_clock N c : rating N c -> rating N (clock_counter c).
Proof.
  intros [P|[j R]]; right; [exists 0; apply rate_load, P | eexists; apply rate_step, R].
Qed.

Lemma rating_jump N c n : rating N c -> 0 <= n < 2 ^ 31 -> clock_multiple_counter n c = steps n c.
Proof. apply jump_steps; [apply rating_scheduled | apply rating_clock]. Qed.

(** ** From the programming on *)

Lemma rate_started BCD x c c0 : GATE c = true -> triggerGATE c = false -> started 2 BCD x c c0 ->
  valid_count c0 x -> 2 <= effective c0 x -> (0 < BCD -> effective c0 x <> 10000) ->
  rate_pending (effective c0 x) c0.
Proof.
  intros G T [F1 F2 F3 F4 F5 F6 F7 F8 F9 F10 F11] V HN HB. destruct (effective_range c0 x V) as [R1 R2].
  split; try congruence. split; [lia|]. intros B. unfold modulus in *.
  rewrite B in *.
  assert (effective c0 x <> 10000) by (apply HB; symmetry in F5; destruct (Z.gtb_spec BCD 0); [lia | discriminate]).
  lia.
Qed.

(** A counter programmed as a rate generator, in binary or BCD, with the count
    [N >= 2] (0 standing for 65536): from its first clock on, OUT is low
    exactly during the last of every [N] clocks, the count read is the distance to
    the next reload, and [clock_multiple] does what that many single clocks do. *)
Theorem rate_generator BCD lo hi c n : GATE c = true -> triggerGATE c = false -> 0 <= lo < 256 -> 0 <= hi < 256 ->
  let c0 := start 2 BCD lo hi c in
  let N := effective c0 (lo + 256 * hi) in
  valid_count c0 (lo + 256 * hi) -> 2 <= N -> (0 < BCD -> N <> 10000) -> 0 <= n < 2 ^ 31 - 1 ->
  let c' := clock_multiple_counter (n + 1) c0 in
  c' = steps (n + 1) c0 /\
  OUTpin c' = negb (n mod N =? N - 1) /\
  count c' = encode c' ((N - n mod N) mod modulus c').
Proof.
  intros G T Hl Hh c0 N V HN HB Hn c'. pose proof (rate_started BCD (lo + 256 * hi) c c0 G T
    (start_started 2 BCD lo hi c Hl Hh ltac:(auto)) V HN HB) as P. fold N in P.
  assert (E : c' = steps (n + 1) c0) by (apply rating_jump with N; [left; exact P | lia]).
  pose proof (rate_steps N c0 n P ltac:(lia)) as R. rewrite <- E in R.
  split; [exact E|]. split; [apply R|]. rewrite <- (rate_binary _ _ _ R). apply (rate_sync _ _ _ R).
Qed.

(** Divisor 5, binary: after 13 clocks of counting OUT is high and 2 is left; and
    BCD 0012. *)
Lemma rate_generator_witness :
  (OUTpin (clock_multiple_counter (13 + 1) (start 2 0 5 0 power_up)) = negb (13 mod 5 =? 4) /\
   count (clock_multiple_counter (13 + 1) (start 2 0 5 0 power_up)) = 2) /\
  OUTpin (clock_multiple_counter (35 + 1) (start 2 1 0x12 0 power_up)) = false.
Proof.
  assert (V : valid_count (start 2 0 5 0 power_up) (5 + 256 * 0)) by (vm_compute; repeat split; congruence).
  assert (V' : valid_count (start 2 1 0x12 0 power_up) (0x12 + 256 * 0)) by (vm_compute; repeat split; congruence).
  assert (N : 2 <= effective (start 2 0 5 0 power_up) (5 + 256 * 0)) by (vm_compute; congruence).
  assert (N' : 2 <= effective (start 2 1 0x12 0 power_up) (0x12 + 256 * 0)) by (vm_compute; congruence).
  split.
  - destruct (rate_generator 0 5 0 power_up 13 eq_refl eq_refl ltac:(lia) ltac:(lia) V N ltac:(lia) ltac:(lia))
      as (_ & A & B).
    split; [exact A | rewrite B; vm_compute; reflexivity].
  - assert (B : 0 < 1 -> effective (start 2 1 0x12 0 power_up) (0x12 + 256 * 0) <> 10000) by (intros _; vm_compute; congruence).
    destruct (rate_generator 1 0x12 0 power_up 35 eq_refl eq_refl ltac:(lia) ltac:(lia) V' N' B ltac:(lia))
      as (_ & A & _).
    rewrite A. vm_compute. reflexivity.
Defined.
