(* ===== verification/PitTerminal.v ===== *)
(** * Interrupt on terminal count (mode 0)

    OUT falls when the counter is programmed and rises, once, [N] clocks after the
    count was loaded; counting goes on, modulo the modulus, with no event. *)

From Stdlib Require Import ZArith Lia List Bool.
From S2P Require Import Prelude Pit82c54 PitRun.
Import ListNotations.
Open Scope Z_scope.

(** A mode 0 counter [j] clocks after its count [N] was loaded; [calls] are the
    OUT handler's calls before. *)
Record terminal (N j : Z) (calls : list bool) (c : counter_type) : Prop := {
  term_mode : mode c = 0;
  term_gate : GATE c = true;
  term_written : count_written c = true;
  term_null : null_count c = false;
  term_write : write_state c = LSByte_multiple;
  term_trigger : triggerGATE c = false;
  term_N : 0 < N <= modulus c;
  term_j : 0 <= j;
  term_sync : synced c;
  term_binary : count_binary c = (N - j) mod modulus c;
  term_OUT : OUTpin c = (N <=? j);
  term_next : next_change_time c = if N <=? j then 0 else if N - j =? modulus c then 1 else N - j;
  term_calls : out_calls c = calls ++ (if out_handler c && (N <=? j) then [true] else []);
}.

Record terminal_pending (N : Z) (calls : list bool) (c : counter_type) : Prop := {
  tp_mode : mode c = 0;
  tp_gate : GATE c = true;
  tp_written : count_written c = true;
  tp_null : null_count c = true;
  tp_write : write_state c = LSByte_multiple;
  tp_trigger : triggerGATE c = false;
  tp_valid : valid_count c (inlatch c);
  tp_count : decode c (inlatch c) = N mod modulus c;
  tp_N : 0 < N <= modulus c;
  tp_OUT : OUTpin c = false;
  tp_next : next_change_time c = 1;
  tp_calls : out_calls c = calls;
}.

Lemma clock0_count c : mode c = 0 -> count_written c = true -> null_count c = false ->
  GATE c = true -> write_state c = LSByte_multiple -> triggerGATE c = false -> synced c ->
  clock_counter c =
  let b := (count_binary c - 1) mod modulus c in
  if OUTpin c then renext 0 (with_binary b c)
  else if b =? 0 then set_OUT true (renext 0 (with_binary b c))
  else renext (Z.land b 0xFFFF) (with_binary b c).
Proof.
  intros M W L G R T S. unfold clock_counter. rewrite M. unfold clock_mode0. cbn [Z.eqb Pos.eqb].
  rewrite W, L, G, R, decrement_eq by exact S. cbn [andb negb is_MSB_multiple]. cbv zeta.
  set (b := (count_binary c - 1) mod modulus c).
  assert (B : 0 <= b < modulus c) by (apply Z.mod_pos_bound; pose proof (modulus_pos c); lia).
  change (count (set_next _ (with_binary b c))) with (encode c b).
  change (OUTpin (with_binary b c)) with (OUTpin c).
  replace (encode c b =? 0) with (b =? 0).
  2: { apply eq_true_iff_eq. rewrite !Z.eqb_eq. symmetry. apply encode_small; lia. }
  unfold set_OUT, renext, with_binary. generalize (encode c b). intros e.
  destruct (OUTpin c) eqn:O; cbn [negb].
  - destruct c; ctr. rewrite T. reflexivity.
  - destruct (Z.eqb_spec b 0) as [->|]; destruct c; ctr; rewrite O, T; [destruct out_handler|]; reflexivity.
Qed.

Lemma clock0_load c : mode c = 0 -> count_written c = true -> null_count c = true ->
  GATE c = true -> triggerGATE c = false -> valid_count c (inlatch c) ->
  clock_counter c =
  let b := decode c (inlatch c) in
  (renext (if b =? 0 then 1 else Z.land b 0xFFFF) (with_binary b c)) <| null_count := false |>.
Proof.
  intros M W L G T V. unfold clock_counter. rewrite M. unfold clock_mode0. cbn [Z.eqb Pos.eqb].
  rewrite W, L, set_count_eq by exact V. cbv zeta.
  set (b := decode c (inlatch c)). change (GATE (with_binary b c)) with (GATE c). rewrite G.
  unfold set_next_nz. change (count_binary (with_binary b c)) with b.
  destruct c; ctr; rewrite T; destruct (b =? 0); reflexivity.
Qed.

Lemma terminal_load N calls c : terminal_pending N calls c -> terminal N 0 calls (clock_counter c).
Proof.
  intros [M G W L R T V E HN O X C]. rewrite clock0_load by assumption. cbv zeta. rewrite E.
  pose proof (modulus_pos c) as Hm.
  assert (B : 0 <= N mod modulus c < modulus c) by (apply Z.mod_pos_bound; lia).
  assert (Z0 : (N <=? 0) = false) by (apply Z.leb_gt; lia).
  split; try assumption; try reflexivity; rewrite ?Z0; try assumption.
  - apply (with_binary_synced (N mod modulus c) c); exact B.
  - rewrite Z.sub_0_r. reflexivity.
  - field_goal. rewrite Z.sub_0_r. change 0xFFFF with (Z.ones 16). rewrite Z.land_ones by lia.
    change (modulus _) with (modulus c). destruct (Z.eqb_spec N (modulus c)) as [->|K].
    + rewrite Z.mod_same by lia. reflexivity.
    + rewrite (Z.mod_small N) by lia. destruct (Z.eqb_spec N 0); [lia|]. apply Z.mod_small. lia.
  - field_goal. rewrite andb_false_r, app_nil_r. exact C.
Qed.

Lemma terminal_step N j calls c : terminal N j calls c -> terminal N (j + 1) calls (clock_counter c).
Proof.
  intros [M G W L R T HN HJ S B O X C]. rewrite clock0_count by assumption. cbv zeta.
  pose proof (modulus_pos c) as Hm. rewrite B, O, Zminus_mod_idemp_l.
  replace (N - j - 1) with (N - (j + 1)) by lia.
  assert (R' : 0 <= (N - (j + 1)) mod modulus c < modulus c) by (apply Z.mod_pos_bound; lia).
  assert (S' := with_binary_synced _ c R').
  destruct (Z.leb_spec N j) as [K|K].
  - assert (K' : (N <=? j + 1) = true) by (apply Z.leb_le; lia).
    split; rewrite ?K'; try assumption; try reflexivity; lia.
  - destruct (Z.eqb_spec ((N - (j + 1)) mod modulus c) 0) as [Q|Q].
    + assert (N = j + 1) as ->. { rewrite Z.mod_small in Q; lia. }
      assert (K' : (j + 1 <=? j + 1) = true) by (apply Z.leb_le; lia).
      rewrite set_OUT_change by exact O.
      split; rewrite ?K'; try assumption; try reflexivity; try lia.
      field_goal. rewrite C, andb_false_r, andb_true_r, app_nil_r.
      destruct (out_handler c); [|rewrite app_nil_r]; reflexivity.
    + rewrite Z.mod_small in Q by lia.
      assert (K' : (N <=? j + 1) = false) by (apply Z.leb_gt; lia).
      split; rewrite ?K'; try assumption; try reflexivity; try lia.
      field_goal. rewrite (Z.mod_small (N - (j + 1))) by lia. change 0xFFFF with (Z.ones 16).
      rewrite Z.land_ones, Z.mod_small by lia. change (modulus _) with (modulus c).
      destruct (Z.eqb_spec (N - (j + 1)) (modulus c)); [lia | reflexivity].
Qed.

(** Past the terminal count only the count moves. *)
Lemma expired_steps N j calls c k : terminal N j calls c -> N <= j -> 0 <= k ->
  steps k c = with_binary ((count_binary c - k) mod modulus c) c.
Proof.
  intros [M G W L R T HN HJ S B O X C] K Hk. pattern k. pose proof (modulus_pos c) as Hm.
  assert (K' : (N <=? j) = true) by (apply Z.leb_le; lia). rewrite K' in *.
  apply natlike_ind; [| clear k Hk; intros k Hk IH | exact Hk].
  - rewrite Z.sub_0_r, Z.mod_small by apply S. symmetry. apply with_binary_self, S.
  - change (Z.succ k) with (k + 1). rewrite steps_succ, IH by exact Hk.
    assert (S' := with_binary_synced _ c (Z.mod_pos_bound (count_binary c - k) (modulus c) ltac:(lia))).
    rewrite clock0_count by assumption. cbv zeta.
    change (OUTpin (with_binary _ c)) with (OUTpin c). rewrite O.
    change (modulus (with_binary _ c)) with (modulus c).
    change (count_binary (with_binary ?x c)) with x. rewrite Zminus_mod_idemp_l.
    replace (count_binary c - k - 1) with (count_binary c - (k + 1)) by lia.
    apply next_self. exact X.
Qed.

Lemma terminal_scheduled N j calls c : terminal N j calls c -> scheduled c.
Proof.
  intros R0. pose proof R0 as [M G W L R T HN HJ S B O X C]. pose proof (modulus_pos c) as Hm.
  revert O X. destruct (Z.leb_spec N j) as [K|K]; intros O X.
  { apply scheduled_never; [lia | exact X|]. intros k Hk.
    rewrite (expired_steps N j calls c k R0) by lia. unfold clock_never. rewrite W, M, G, R. cbn.
    symmetry. apply decrement_multiple_eq; [exact S | lia]. }
  revert X. destruct (Z.eqb_spec (N - j) (modulus c)) as [E|E]; intros X; [apply scheduled_one; lia|].
  apply scheduled_counting; [exact S | lia | lia|]. intros k Hk.
  assert (Sp : speed c = 1) by (unfold speed; rewrite M; reflexivity).
  assert (S' : synced (ahead k c)) by (apply (with_binary_synced _ c), Z.mod_pos_bound; lia).
  rewrite clock0_count by assumption. cbv zeta. change (modulus (ahead k c)) with (modulus c).
  change (count_binary (ahead k c)) with ((count_binary c - speed c * k) mod modulus c).
  change (OUTpin (ahead k c)) with (OUTpin c).
  rewrite Zminus_mod_idemp_l, B, Sp, O.
  assert (EQ : ((N - j) mod modulus c - 1 * k - 1) mod modulus c = N - (j + k + 1)).
  { replace ((N - j) mod modulus c - 1 * k - 1) with ((N - j) mod modulus c - (k + 1)) by lia.
    rewrite Zminus_mod_idemp_l, Z.mod_small; lia. }
  rewrite EQ. destruct (Z.eqb_spec (N - (j + k + 1)) 0); [lia|].
  change 0xFFFF with (Z.ones 16). rewrite Z.land_ones, (Z.mod_small _ (2 ^ 16)) by lia.
  unfold ahead. rewrite Sp, B, X, !Zminus_mod_idemp_l, (Z.mod_small (N - j - 1 * (k + 1))) by lia.
  replace (N - j - 1 * (k + 1)) with (N - (j + k + 1)) by lia.
  replace (N - j - (k + 1)) with (N - (j + k + 1)) by lia. reflexivity.
Qed.

Definition to_terminal (N : Z) (calls : list bool) (c : counter_type) : Prop :=
  terminal_pending N calls c \/ exists j, terminal N j calls c.

Lemma to_terminal_jump N calls c n : to_terminal N calls c -> 0 <= n < 2 ^ 31 ->
  clock_multiple_counter n c = steps n c.
Proof.
  apply jump_steps; clear c n; intros c [P|[j R]].
  - apply scheduled_one; destruct P as [M]; [rewrite M; lia | assumption].
  - eapply terminal_scheduled; eassumption.
  - right. exists 0. apply terminal_load, P.
  - right. eexists. apply terminal_step, R.
Qed.

Lemma terminal_steps N calls c n : terminal_pending N calls c -> 0 <= n ->
  terminal N n calls (steps (n + 1) c).
Proof.
  intros P H. rewrite steps_add, steps_1 by lia. pattern n.
  apply natlike_ind; [apply terminal_load, P | | exact H].
  intros x Hx IH. change (Z.succ x) with (x + 1). rewrite steps_succ by exact Hx. apply terminal_step, IH.
Qed.

Lemma terminal_started BCD x c c0 : GATE c = true -> triggerGATE c = false -> started 0 BCD x c c0 ->
  valid_count c0 x -> terminal_pending (effective c0 x) (out_calls c0) c0.
Proof.
  intros G T [F1 F2 F3 F4 F5 F6 F7 F8 F9 F10 F11] V. destruct (effective_range c0 x V) as [R1 R2].
  split; solve [congruence | exact R1 | exact F10 | reflexivity].
Qed.

(** A counter programmed to interrupt on terminal count, in binary or BCD, with
    the count [N] (0 standing for the modulus): OUT is low until exactly [N] clocks
    after the first one and stays high, its handler is called once, at that
    clock, the count keeps running, and [clock_multiple] does what that many
    single clocks do. *)
Theorem terminal_count BCD lo hi c n : GATE c = true -> triggerGATE c = false -> 0 <= lo < 256 -> 0 <= hi < 256 ->
  let c0 := start 0 BCD lo hi c in
  let N := effective c0 (lo + 256 * hi) in
  valid_count c0 (lo + 256 * hi) -> 0 <= n < 2 ^ 31 - 1 ->
  let c' := clock_multiple_counter (n + 1) c0 in
  c' = steps (n + 1) c0 /\
  OUTpin c' = (N <=? n) /\
  count c' = encode c' ((N - n) mod modulus c') /\
  out_calls c' = out_calls c0 ++ (if out_handler c' && (N <=? n) then [true] else []).
Proof.
  intros G T Hl Hh c0 N V Hn c'. pose proof (terminal_started BCD (lo + 256 * hi) c c0 G T
    (start_started 0 BCD lo hi c Hl Hh ltac:(auto)) V) as P. fold N in P.
  assert (E : c' = steps (n + 1) c0) by (eapply to_terminal_jump; [left; exact P | lia]).
  pose proof (terminal_steps N _ c0 n P ltac:(lia)) as R. rewrite <- E in R.
  split; [exact E|]. split; [apply R|]. split; [|apply R].
  rewrite <- (term_binary _ _ _ _ R). apply (term_sync _ _ _ _ R).
Qed.

(** Count 0 stands for 65536; the interrupt arrives then and only then. *)
Lemma terminal_count_witness :
  let c0 := start 0 0 0 0 power_up_handled in
  OUTpin (clock_multiple_counter (65535 + 1) c0) = false /\
  out_calls (clock_multiple_counter (70000 + 1) c0) = [false; true].
Proof.
  intros c0.
  assert (V : valid_count c0 (0 + 256 * 0)) by (vm_compute; repeat split; congruence).
  split.
  - destruct (terminal_count 0 0 0 power_up_handled 65535 ltac:(reflexivity) ltac:(reflexivity)
      ltac:(lia) ltac:(lia) V ltac:(lia)) as (_ & A & _). unfold c0. rewrite A. vm_compute. reflexivity.
  - destruct (terminal_count 0 0 0 power_up_handled 70000 ltac:(reflexivity) ltac:(reflexivity)
      ltac:(lia) ltac:(lia) V ltac:(lia)) as (_ & _ & _ & A). unfold c0. rewrite A. vm_compute. reflexivity.
Defined.
