(* ===== verification/PitSquare.v ===== *)
(** * The square wave generator (mode 3), with an even count

    From its first clock on, OUT of a counter programmed with an even count [N]
    of at least 4 is high for [N / 2] clocks and low for [N / 2] clocks.  An odd
    count is where the event-driven execution and single clocks part. *)

From Stdlib Require Import ZArith Lia List Bool.
From S2P Require Import Prelude Pit82c54 PitRun.
Import ListNotations.
Open Scope Z_scope.

(** A mode 3 counter with the even count [2 h], [n] clocks after its first load. *)
Record square (h n : Z) (c : counter_type) : Prop := {
  sq_mode : mode c = 3;
  sq_gate : GATE c = true;
  sq_written : count_written c = true;
  sq_trigger : triggerGATE c = false;
  sq_valid : valid_count c (inlatch c);
  sq_count : decode c (inlatch c) = 2 * h;
  sq_even : Z.even (inlatch c) = true;
  sq_h : 2 <= h /\ 2 * h < modulus c;
  sq_n : 0 <= n;
  sq_sync : synced c;
  sq_binary : count_binary c = 2 * h - 2 * (n mod h);
  sq_first : first_pass c = false;
  sq_bit1 : state_bit_1 c = false;
  sq_bit2 : state_bit_2 c = (n mod h =? h - 1);
  sq_OUT : OUTpin c = Z.even (n / h);
  sq_next : next_change_time c = Z.max 1 (h - 1 - n mod h);
}.

Record square_pending (h : Z) (c : counter_type) : Prop := {
  sp_mode : mode c = 3;
  sp_gate : GATE c = true;
  sp_written : count_written c = true;
  sp_trigger : triggerGATE c = false;
  sp_valid : valid_count c (inlatch c);
  sp_count : decode c (inlatch c) = 2 * h;
  sp_even : Z.even (inlatch c) = true;
  sp_h : 2 <= h /\ 2 * h < modulus c;
  sp_first : first_pass c = true;
  sp_OUT : OUTpin c = true;
  sp_next : next_change_time c = 1;
}.

Lemma even_masks x : 0 <= x < 65536 -> Z.even x = true -> Z.land x 0xFFFE = x /\ Z.land x 1 = 0.
Proof.
  intros Hx Ev. apply Zeven_bool_iff in Ev. destruct (Zeven_ex x Ev) as [y ->]. split.
  - replace (2 * y) with (Z.shiftl y 1) by (rewrite Z.shiftl_mul_pow2; lia).
    change 0xFFFE with (Z.shiftl (Z.ones 15) 1). rewrite <- Z.shiftl_land, Z.land_ones, Z.mod_small; lia.
  - change 1 with (Z.ones 1). rewrite Z.land_ones, Z.mul_comm, Z.mod_mul; lia.
Qed.

Lemma two_decrements c : synced c ->
  decrement (decrement c) = with_binary ((count_binary c - 2) mod modulus c) c.
Proof. intros S. apply (iter_decrement c 2 S). Qed.

Lemma clock3_count c : mode c = 3 -> count_written c = true -> triggerGATE c = false ->
  first_pass c = false -> state_bit_2 c = false -> GATE c = true -> state_bit_1 c = false -> synced c ->
  clock_counter c =
  let b := (count_binary c - 2) mod modulus c in
  if (b =? 0) || (b =? 2) then (renext 1 (with_binary b c)) <| state_bit_2 := true |>
  else renext (Z.land (u32 (b / 2 - 1)) 0xFFFF) (with_binary b c).
Proof.
  intros M W T F B2 G B1 S. unfold clock_counter. rewrite M. unfold clock_mode3. cbn [Z.eqb Pos.eqb].
  rewrite W, T, F, B2, G, two_decrements by exact S. cbn [orb andb]. cbv zeta.
  set (b := (count_binary c - 2) mod modulus c).
  assert (B : 0 <= b < modulus c) by (apply Z.mod_pos_bound; pose proof (modulus_pos c); lia).
  assert (K : forall k, 0 <= k <= 2 -> (encode c b =? k) = (b =? k)).
  { intros k Hk. apply eq_true_iff_eq. rewrite !Z.eqb_eq. apply encode_small; assumption. }
  pose proof (K 0 ltac:(lia)) as K0. pose proof (K 2 ltac:(lia)) as K2. clear K.
  change (state_bit_1 (with_binary b c)) with (state_bit_1 c). rewrite B1. cbn [negb].
  rewrite orb_true_r. set (w := set_next (Z.land (u32 (count_binary (with_binary b c) / 2 - 1)) 65535) (with_binary b c)).
  assert (D : forall d, (renext d (with_binary b c)) <| triggerGATE := false |> = renext d (with_binary b c)).
  { intros d. apply trigger_clear. exact T. }
  assert (D' : forall c', c' = (renext 1 (with_binary b c)) <| triggerGATE := false |> <| state_bit_2 := true |> ->
     c' = (renext 1 (with_binary b c)) <| state_bit_2 := true |>).
  { intros c' ->. rewrite D. reflexivity. }
  change (count w) with (encode c b). rewrite K0.
  destruct (b =? 0); cbn [orb].
  - apply D'. destruct (_ && _); reflexivity.
  - change (count w) with (encode c b). change (state_bit_1 w) with (state_bit_1 c).
    rewrite K2, B1, orb_true_r, andb_true_r. destruct (b =? 2); [apply D'; reflexivity | apply D].
Qed.

Lemma clock3_load c : mode c = 3 -> count_written c = true -> triggerGATE c = false ->
  first_pass c || state_bit_2 c = true -> GATE c = true -> valid_count c (inlatch c) ->
  Z.even (inlatch c) = true ->
  clock_counter c =
  let b := decode c (inlatch c) in
  let v := u32 (b / 2 - 1) in
  (set_OUT (first_pass c || negb (OUTpin c))
     ((renext (if v =? 0 then 1 else Z.land v 0xFFFF) (with_binary b c))
        <| state_bit_1 := false |> <| null_count := false |>)) <| state_bit_2 := false |> <| first_pass := false |>.
Proof.
  intros M W T F G V Ev. destruct (even_masks (inlatch c) ltac:(apply V) Ev) as [L1 L2].
  unfold clock_counter. rewrite M. unfold clock_mode3. cbn [Z.eqb Pos.eqb].
  rewrite W, T, G. cbn [orb]. rewrite F, L1, set_count_eq by exact V. cbn [andb]. cbv zeta.
  set (b := decode c (inlatch c)). change (inlatch (with_binary b c)) with (inlatch c). rewrite L2.
  set (w := with_binary b c). cbn [Z.eqb negb].
  change (state_bit_1 (w <| state_bit_1 := false |>)) with false. cbn [negb].
  rewrite orb_true_r. unfold set_next_nz.
  change (count_binary (w <| state_bit_1 := false |>)) with b.
  set (v := u32 (b / 2 - 1)). set (t := if v =? 0 then 1 else Z.land v 0xFFFF).
  replace (if v =? 0 then set_next 1 (w <| state_bit_1 := false |>)
           else set_next (Z.land v 0xFFFF) (w <| state_bit_1 := false |>))
    with (set_next t (w <| state_bit_1 := false |>)) by (subst t; destruct (v =? 0); reflexivity).
  set (w' := (set_next t (w <| state_bit_1 := false |>)) <| null_count := false |>).
  change (renext t w <| state_bit_1 := false |> <| null_count := false |>) with w'.
  change (OUTpin w') with (OUTpin c). change (first_pass w') with (first_pass c).
  assert (T' : triggerGATE w' = false) by exact T. assert (O : OUTpin w' = OUTpin c) by reflexivity.
  assert (D : forall o, (set_OUT o w') <| state_bit_2 := false |> <| first_pass := false |> <| triggerGATE := false |> =
    (set_OUT o w') <| state_bit_2 := false |> <| first_pass := false |>).
  { intros o. destruct (set_OUT_eq o w') as [l ->]. apply trigger_clear. exact T. }
  destruct (OUTpin c), (first_pass c); cbn [negb andb orb];
    refine (eq_trans _ (D _)); rewrite ?(set_OUT_same true w') by exact O; reflexivity.
Qed.

(** A load starts the half period numbered [q]. *)
Lemma square_load h q c : mode c = 3 -> count_written c = true -> triggerGATE c = false ->
  first_pass c || state_bit_2 c = true -> GATE c = true -> valid_count c (inlatch c) ->
  Z.even (inlatch c) = true -> decode c (inlatch c) = 2 * h -> 2 <= h /\ 2 * h < modulus c ->
  0 <= q -> Z.even q = first_pass c || negb (OUTpin c) -> square h (q * h) (clock_counter c).
Proof.
  intros M W T F G V Ev E Hh Hq Q. rewrite clock3_load by assumption. cbv zeta. rewrite E, <- Q.
  pose proof (modulus_pos c) as Hm.
  replace (2 * h / 2) with h by (rewrite Z.mul_comm, Z.div_mul; lia).
  assert (V0 : (u32 (h - 1) =? 0) = false) by (rewrite wrap_id by (unfold fits; lia); apply Z.eqb_neq; lia).
  rewrite V0, land_u16 by lia.
  assert (M0 : q * h mod h = 0) by (apply Z.mod_mul; lia).
  assert (D0 : q * h / h = q) by (apply Z.div_mul; lia).
  assert (Z0 : (0 =? h - 1) = false) by (apply Z.eqb_neq; lia).
  assert (S' : synced (with_binary (2 * h) c)) by (apply with_binary_synced; lia).
  match goal with |- context [set_OUT ?v ?w] => destruct (set_OUT_eq v w) as [l ->] end.
  split; rewrite ?M0, ?D0, ?Z0; solve [assumption | exact S' | reflexivity | nia | field_goal; lia].
Qed.

Lemma phase h n : 2 <= h -> 0 <= n -> n mod h <> h - 1 ->
  (n + 1) mod h = n mod h + 1 /\ (n + 1) / h = n / h.
Proof.
  intros Hh Hn K. pose proof (Z.mod_pos_bound n h ltac:(lia)). pose proof (Z.div_mod n h ltac:(lia)).
  split; [symmetry; apply Z.mod_unique with (n / h); lia | symmetry; apply Z.div_unique with (n mod h + 1); lia].
Qed.

Lemma square_step h n c : square h n c -> square h (n + 1) (clock_counter c).
Proof.
  intros [M G W T V E Ev Hh Hn S B F B1 B2 O X]. pose proof (modulus_pos c) as Hm.
  pose proof (Z.mod_pos_bound n h ltac:(lia)) as P.
  destruct (Z.eq_dec (n mod h) (h - 1)) as [K|K].
  - replace (n + 1) with ((n / h + 1) * h) by (pose proof (Z.div_mod n h ltac:(lia)); nia).
    apply square_load; try assumption.
    + rewrite F, B2, K. apply Z.eqb_refl.
    + pose proof (Z.div_pos n h ltac:(lia) ltac:(lia)). lia.
    + rewrite F, O. cbn [orb]. rewrite Z.even_add. destruct (Z.even (n / h)); reflexivity.
  - destruct (phase h n ltac:(lia) Hn K) as [E1 E2].
    replace (n mod h =? h - 1) with false in B2 by (symmetry; apply Z.eqb_neq; exact K).
    rewrite clock3_count by assumption. cbv zeta. rewrite B.
    replace (2 * h - 2 * (n mod h) - 2) with (2 * h - 2 * (n mod h + 1)) by lia.
    rewrite Z.mod_small by lia.
    assert (S' : synced (with_binary (2 * h - 2 * (n mod h + 1)) c)) by (apply with_binary_synced; lia).
    destruct (Z.eqb_spec (2 * h - 2 * (n mod h + 1)) 0) as [?|_]; [lia|]. cbn [orb].
    destruct (Z.eqb_spec (2 * h - 2 * (n mod h + 1)) 2) as [Q|Q].
    + assert (Z1 : (n mod h + 1 =? h - 1) = true) by (apply Z.eqb_eq; lia).
      split; rewrite ?E1, ?E2, ?Z1; try assumption; try reflexivity; try (field_goal; lia).
    + assert (Z1 : (n mod h + 1 =? h - 1) = false) by (apply Z.eqb_neq; lia).
      replace ((2 * h - 2 * (n mod h + 1)) / 2) with (h - (n mod h + 1))
        by (replace (2 * h - 2 * (n mod h + 1)) with ((h - (n mod h + 1)) * 2) by lia; symmetry; apply Z.div_mul; lia).
      rewrite land_u16 by lia.
      split; rewrite ?E1, ?E2, ?Z1; try assumption; try reflexivity; try (field_goal; lia).
Qed.

Lemma square_scheduled h n c : square h n c -> scheduled c.
Proof.
  intros [M G W T V E Ev Hh Hn S B F B1 B2 O X]. pose proof (modulus_pos c) as Hm.
  pose proof (Z.mod_pos_bound n h ltac:(lia)) as P. set (i := n mod h) in *.
  destruct (Z.eq_dec (next_change_time c) 1) as [E1|E1]; [apply scheduled_one; lia|].
  apply scheduled_counting; [exact S | lia | lia|]. intros k K.
  assert (J' : i + k + 2 < h) by lia.
  replace (i =? h - 1) with false in B2 by (symmetry; apply Z.eqb_neq; lia).
  assert (Sp : speed c = 2) by (unfold speed; rewrite M; reflexivity).
  assert (S' : synced (ahead k c)) by (apply (with_binary_synced _ c), Z.mod_pos_bound; lia).
  rewrite clock3_count by assumption. cbv zeta. change (modulus (ahead k c)) with (modulus c).
  change (count_binary (ahead k c)) with ((count_binary c - speed c * k) mod modulus c).
  rewrite Sp, B.
  assert (EQ : forall d, 0 <= d <= k + 1 -> (2 * h - 2 * i - 2 * d) mod modulus c = 2 * h - 2 * i - 2 * d)
    by (intros; apply Z.mod_small; lia).
  rewrite (EQ k) by lia. replace (2 * h - 2 * i - 2 * k - 2) with (2 * h - 2 * i - 2 * (k + 1)) by lia.
  rewrite (EQ (k + 1)) by lia.
  destruct (Z.eqb_spec (2 * h - 2 * i - 2 * (k + 1)) 0); [lia|].
  destruct (Z.eqb_spec (2 * h - 2 * i - 2 * (k + 1)) 2); [lia|]. cbn [orb].
  replace ((2 * h - 2 * i - 2 * (k + 1)) / 2) with (h - i - (k + 1))
    by (replace (2 * h - 2 * i - 2 * (k + 1)) with ((h - i - (k + 1)) * 2) by lia; symmetry; apply Z.div_mul; lia).
  rewrite land_u16 by lia. unfold ahead. rewrite Sp, B, X, (EQ (k + 1)) by lia.
  replace (Z.max 1 (h - 1 - i) - (k + 1)) with (h - i - (k + 1) - 1) by lia. reflexivity.
Qed.

Lemma square_first h c : square_pending h c -> square h 0 (clock_counter c).
Proof.
  intros [M G W T V E Ev Hh F O X]. replace 0 with (0 * h) by lia.
  apply square_load; try assumption; rewrite ?F; reflexivity || lia.
Qed.

Lemma square_steps h c n : square_pending h c -> 0 <= n -> square h n (steps (n + 1) c).
Proof.
  intros P H. rewrite steps_add, steps_1 by lia. pattern n.
  apply natlike_ind; [apply square_first, P | | exact H].
  intros x Hx IH. change (Z.succ x) with (x + 1). rewrite steps_succ by exact Hx. apply square_step, IH.
Qed.

Definition squaring (h : Z) (c : counter_type) : Prop := square_pending h c \/ exists n, square h n c.

Lemma squaring_scheduled h c : squaring h c -> scheduled c.
Proof.
  intros [P|[j R]]; [|eapply square_scheduled; eassumption].
  apply scheduled_one; destruct P as [M]; [rewrite M; lia | assumption].
Qed.

Lemma squaring_clock h c : squaring h c -> squaring h (clock_counter c).
Proof.
  intros [P|[j R]]; right; [exists 0; apply square_first, P | eexists; apply square_step, R].
Qed.

Lemma squaring_jump h c n : squaring h c -> 0 <= n < 2 ^ 31 -> clock_multiple_counter n c = steps n c.
Proof. apply jump_steps; [apply squaring_scheduled | apply squaring_clock]. Qed.

Lemma square_started BCD x c c0 h : GATE c = true -> triggerGATE c = false -> started 3 BCD x c c0 ->
  valid_count c0 x -> Z.even x = true -> decode c0 x = 2 * h -> 2 <= h -> square_pending h c0.
Proof.
  intros G T [F1 F2 F3 F4 F5 F6 F7 F8 F9 F10 F11] V Ev D Hh. pose proof V as (_ & R & _).
  split; solve [congruence | exact F10 | lia].
Qed.

(** C16: a counter programmed as a square wave generator with an even count [2 h] from
    4 to 65534 (in BCD to 9998), its GATE high: from its first clock on, OUT is high for [h] clocks and low
    for [h] clocks, the count read steps down by two from [2 h] in each half, and
    [clock_multiple] does what that many single clocks do. *)
Theorem square_wave BCD lo hi c h n : GATE c = true -> triggerGATE c = false -> 0 <= lo < 256 -> 0 <= hi < 256 ->
  let c0 := start 3 BCD lo hi c in
  valid_count c0 (lo + 256 * hi) -> Z.even (lo + 256 * hi) = true ->
  decode c0 (lo + 256 * hi) = 2 * h -> 2 <= h -> 0 <= n < 2 ^ 31 - 1 ->
  let c' := clock_multiple_counter (n + 1) c0 in
  c' = steps (n + 1) c0 /\
  OUTpin c' = Z.even (n / h) /\
  count c' = encode c' (2 * h - 2 * (n mod h)).
Proof.
  intros G T Hl Hh c0 V Ev D H2 Hn c'. pose proof (square_started BCD (lo + 256 * hi) c c0 h G T
    (start_started 3 BCD lo hi c Hl Hh ltac:(auto)) V Ev D H2) as P.
  assert (E : c' = steps (n + 1) c0) by (eapply squaring_jump; [left; exact P | lia]).
  pose proof (square_steps h c0 n P ltac:(lia)) as R. rewrite <- E in R.
  split; [exact E|]. split; [apply R|]. rewrite <- (sq_binary _ _ _ R). apply (sq_sync _ _ _ R).
Qed.

Lemma square_wave_witness :
  OUTpin (clock_multiple_counter (11 + 1) (start 3 0 6 0 power_up)) = false /\
  count (clock_multiple_counter (11 + 1) (start 3 0 6 0 power_up)) = 2.
Proof.
  assert (V : valid_count (start 3 0 6 0 power_up) (6 + 256 * 0)) by (vm_compute; repeat split; congruence).
  destruct (square_wave 0 6 0 power_up 3 11 eq_refl eq_refl ltac:(lia) ltac:(lia) V eq_refl eq_refl
    ltac:(lia) ltac:(lia)) as (_ & A & B).
  split; [exact A | rewrite B; vm_compute; reflexivity].
Defined.

(** ** Odd counts *)

(** The clocks after the first one at which a handler would be called, of a run by
    single clocks and of a run that jumps from one event to the next, as
    [handle_timer] does with [get_next_event_time]. *)
Definition stepped (n : Z) (c : counter_type) : list bool :=
  map (fun k => OUTpin (steps (k + 1) c)) (zrange (Z.to_nat n)).
Definition jumped (n : Z) (c : counter_type) : list bool :=
  map (fun k => OUTpin (clock_multiple_counter (k + 1) c)) (zrange (Z.to_nat n)).

(** An odd count breaks the jump.  With the count 5, single clocks keep OUT high
    for 3 clocks and low for 2, a period of 5; [clock_multiple] takes 3 and 3, a
    period of 6: the time of the next change is computed from the level OUT had
    before it toggled. *)
Theorem odd_count_period_drifts :
  let c0 := start 3 0 5 0 power_up in
  stepped 15 c0 = flat_map (fun _ => [true; true; true; false; false]) [1; 2; 3] /\
  jumped 18 c0 = flat_map (fun _ => [true; true; true; false; false; false]) [1; 2; 3].
Proof. split; vm_compute; reflexivity. Qed.
