(* ===== verification/PitInv.v ===== *)
(** * What every operation of the 82C54 preserves

    The operations are built from a handful of primitive updates; a property
    closed under the primitives ([Closed]) is preserved by every operation.  It
    is used for the well-formedness of a counter, for the agreement of the OUT
    handler's calls with the pin, and for the latches, which clocks leave alone. *)

From Stdlib Require Import ZArith Lia List Bool.
From S2P Require Import Prelude Pit82c54 PitRun.
Import ListNotations.
Open Scope Z_scope.

Definition u16_range (t : Z) : Prop := 0 <= t < 65536.

(** Closed under the updates a clock makes. *)
Class Closed (P : counter_type -> Prop) : Prop := {
  cl_range : forall c, P c -> u16_range (next_change_time c);
  cl_next : forall t c, u16_range t -> P c -> P (set_next t c);
  cl_next' : forall t c, u16_range t -> P c -> P (c <| next_change_time := t |>);
  cl_OUT : forall v c, P c -> P (set_OUT v c);
  cl_count : forall d c, P c -> P (set_count d c);
  cl_dec : forall c, P c -> P (decrement c);
  cl_mult : forall n c, 0 <= n -> P c -> P (decrement_multiple n c);
  cl_null : forall v c, P c -> P (c <| null_count := v |>);
  cl_trigger : forall v c, P c -> P (c <| triggerGATE := v |>);
  cl_first : forall v c, P c -> P (c <| first_pass := v |>);
  cl_bit1 : forall v c, P c -> P (c <| state_bit_1 := v |>);
  cl_bit2 : forall v c, P c -> P (c <| state_bit_2 := v |>);
}.

Lemma range_land x : u16_range (Z.land x 0xFFFF).
Proof.
  unfold u16_range. change 0xFFFF with (Z.ones 16). rewrite Z.land_ones by lia. apply Z.mod_pos_bound. lia.
Qed.

Lemma range_0 : u16_range 0. Proof. unfold u16_range. lia. Qed.
Lemma range_1 : u16_range 1. Proof. unfold u16_range. lia. Qed.

Create HintDb closed discriminated.
#[export] Hint Resolve range_land range_0 range_1 : closed.

(** Closed under the updates of the programming, too. *)
Class ClosedIO (P : counter_type -> Prop) : Prop := {
  io_closed :: Closed P;
  io_inlatch_range : forall c, P c -> u16_range (inlatch c);
  io_GATE : forall v c, P c -> P (c <| GATE := v |>);
  io_read_state : forall v c, P c -> P (c <| read_state := v |>);
  io_write_state : forall v c, P c -> P (c <| write_state := v |>);
  io_status_latched : forall v c, P c -> P (c <| status_latched := v |>);
  io_LSB : forall v c, P c -> P (c <| count_LSB_latched := v |>);
  io_MSB : forall v c, P c -> P (c <| count_MSB_latched := v |>);
  io_written : forall v c, P c -> P (c <| count_written := v |>);
  io_bcd : forall v c, P c -> P (c <| bcd_mode := v |>);
  io_outlatch : forall v c, u16_range v -> P c -> P (c <| outlatch := v |>);
  io_inlatch : forall v c, u16_range v -> P c -> P (c <| inlatch := v |>);
  io_status_latch : forall v c, 0 <= v < 256 -> P c -> P (c <| status_latch := v |>);
  io_rw_mode : forall v c, 0 <= v <= 3 -> P c -> P (c <| rw_mode := v |>);
  io_mode : forall v c, 0 <= v <= 7 -> P c -> P (c <| mode := v |>);
}.

Lemma if_P (P : counter_type -> Prop) (b : bool) x y : P x -> P y -> P (if b then x else y).
Proof. destruct b; auto. Qed.

Lemma closed_nz (P : counter_type -> Prop) `{!Closed P} x c : P c -> P (set_next_nz x c).
Proof. intros. unfold set_next_nz. apply if_P; apply cl_next; auto with closed. Qed.

(** Descend through the updates. *)
Ltac close :=
  repeat lazymatch goal with
  | |- ?P (if _ then _ else _) => apply if_P
  | |- ?P (set_next _ _) => apply cl_next
  | |- ?P (set_field next_change_time _ _) => apply cl_next'
  | |- ?P (set_next_nz _ _) => apply (closed_nz P)
  | |- ?P (set_OUT _ _) => apply cl_OUT
  | |- ?P (set_count _ _) => apply cl_count
  | |- ?P (decrement _) => apply cl_dec
  | |- ?P (set_field null_count _ _) => apply cl_null
  | |- ?P (set_field triggerGATE _ _) => apply cl_trigger
  | |- ?P (set_field first_pass _ _) => apply cl_first
  | |- ?P (set_field state_bit_1 _ _) => apply cl_bit1
  | |- ?P (set_field state_bit_2 _ _) => apply cl_bit2
  | |- ?P (set_field GATE _ _) => apply io_GATE
  | |- ?P (set_field read_state _ _) => apply io_read_state
  | |- ?P (set_field write_state _ _) => apply io_write_state
  | |- ?P (set_field status_latched _ _) => apply io_status_latched
  | |- ?P (set_field count_LSB_latched _ _) => apply io_LSB
  | |- ?P (set_field count_MSB_latched _ _) => apply io_MSB
  | |- ?P (set_field count_written _ _) => apply io_written
  | |- ?P (set_field bcd_mode _ _) => apply io_bcd
  | |- ?P (set_field outlatch _ _) => apply io_outlatch
  | |- ?P (set_field inlatch _ _) => apply io_inlatch
  | |- ?P (set_field status_latch _ _) => apply io_status_latch
  | |- ?P (set_field rw_mode _ _) => apply io_rw_mode
  | |- ?P (set_field mode _ _) => apply io_mode
  | |- Closed _ => solve [assumption | apply io_closed]
  | |- u16_range _ => solve [auto with closed]
  | |- _ => assumption
  end.

Section Operations.
Variable P : counter_type -> Prop.
Context {CP : Closed P}.

Lemma closed_clock c : P c -> P (clock_counter c).
Proof.
  intros H. unfold clock_counter. apply cl_trigger.
  repeat apply if_P;
    unfold clock_mode0, clock_mode1, clock_mode2, clock_mode3, clock_mode4, clock_mode5;
    cbv zeta; close.
Qed.

Lemma closed_steps n c : P c -> P (steps n c).
Proof. intros H. unfold steps. apply iter_ind; auto using closed_clock. Qed.

Lemma closed_never n c : 0 <= n -> P c -> P (clock_never n c).
Proof.
  intros Hn H. assert (0 <= u32 (2 * n)) by (apply (wrap_fits 32); lia).
  unfold clock_never. repeat apply if_P; auto; apply cl_mult; auto.
Qed.

Lemma closed_multiple_loop fuel : forall n c, 0 <= n -> P c -> P (clock_multiple_loop fuel n c).
Proof.
  induction fuel as [|fuel IH]; intros n c Hn H; [exact H|]. cbn [clock_multiple_loop]. cbv zeta.
  assert (W : forall x, 0 <= u32 x) by (intros; apply (wrap_fits 32); lia).
  pose proof (cl_range c H) as T. unfold u16_range in T.
  assert (U : (next_change_time c >? n) = true -> u16_range (u32 (next_change_time c - n))).
  { intros G. rewrite Z.gtb_ltb in G. apply Z.ltb_lt in G. unfold u16_range.
    rewrite wrap_id by (unfold fits; lia). lia. }
  apply if_P; [|exact H]. apply if_P; [apply IH; auto using closed_never; lia|].
  destruct (next_change_time c >? n);
    repeat apply if_P; (apply IH; [auto; lia|]);
    repeat first [apply closed_clock | apply cl_next' | apply cl_mult]; auto.
Qed.
Lemma closed_multiple n c : 0 <= n -> P c -> P (clock_multiple_counter n c).
Proof. apply closed_multiple_loop. Qed.

End Operations.

Section Programming.
Variable P : counter_type -> Prop.
Context {CP : ClosedIO P}.

Lemma closed_latch c : P c -> P (latch_counter c).
Proof.
  intros H. unfold latch_counter. apply if_P; [exact H|]. destruct (read_state c); close.
Qed.

Lemma closed_status c : P c -> P (latch_status c).
Proof.
  intros H. unfold latch_status. apply if_P; [exact H|]. close. apply (wrap_fits 8). lia.
Qed.

Lemma closed_read_back cw c : P c -> P (read_back cw c).
Proof.
  intros H. unfold read_back. cbv zeta. apply if_P; [apply closed_status|]; apply if_P; auto using closed_latch.
Qed.

Lemma closed_program RW M BCD c : 0 <= RW <= 3 -> 0 <= M <= 7 -> P c -> P (program_counter RW M BCD c).
Proof.
  intros HR HM H. unfold program_counter. cbv zeta.
  assert (P (c <| null_count := true |> <| count_LSB_latched := false |> <| count_MSB_latched := false |>
             <| status_latched := false |> <| inlatch := 0 |> <| count_written := false |>
             <| first_pass := true |> <| rw_mode := RW |> <| bcd_mode := BCD >? 0 |> <| mode := M |>)) by (close; assumption).
  generalize dependent (c <| null_count := true |> <| count_LSB_latched := false |> <| count_MSB_latched := false |>
             <| status_latched := false |> <| inlatch := 0 |> <| count_written := false |>
             <| first_pass := true |> <| rw_mode := RW |> <| bcd_mode := BCD >? 0 |> <| mode := M |>).
  intros c1 H1. close.
Qed.

Lemma closed_write data c : 0 <= data < 256 -> P c -> P (write_counter data c).
Proof.
  intros Hd H. assert (Rd : u16_range data) by (unfold u16_range; lia).
  assert (Rw : forall x, u16_range (u16 x)) by (intros; apply (wrap_fits 16); lia).
  unfold write_counter. cbv zeta.
  set (c1 := match write_state c with
    | LSByte_multiple => c <| inlatch := data |> <| write_state := MSByte_multiple |>
    | LSByte => c <| inlatch := data |> <| count_written := true |>
    | MSByte_multiple =>
        c <| write_state := LSByte_multiple |> <| inlatch := u16 (Z.lor (inlatch c) (Z.shiftl data 8)) |>
          <| count_written := true |>
    | MSByte => c <| inlatch := u16 (Z.shiftl data 8) |> <| count_written := true |>
    end).
  assert (H1 : P c1) by (subst c1; destruct (write_state c); close; auto). clearbody c1.
  set (c2 := if count_written c1 && negb (is_MSB_multiple (write_state c1))
             then set_count (inlatch c1) (c1 <| null_count := true |>) else c1).
  assert (H2 : P c2) by (subst c2; close). clearbody c2. close.
Qed.

Lemma closed_GATE data c : P c -> P (set_GATE_counter data c).
Proof.
  intros H. unfold set_GATE_counter. cbv zeta. apply if_P; [|exact H].
  set (c1 := if GATE (c <| GATE := data |>) then c <| GATE := data |> <| triggerGATE := true |>
             else c <| GATE := data |>).
  assert (H1 : P c1) by (subst c1; close). clearbody c1. close.
Qed.

Lemma closed_read c : P c -> P (snd (read_counter c)).
Proof.
  intros H. unfold read_counter. cbv zeta.
  repeat match goal with |- P (snd (if ?b then _ else _)) => destruct b end; cbn [snd]; close.
Qed.

End Programming.

(** ** Well-formed counters

    Every field fits its C type, and [count_binary] is 0 only when [count] is, so
    that [decrement] never underflows. *)
Record counter_ok (c : counter_type) : Prop := {
  ok_count : u16_range (count c);
  ok_outlatch : u16_range (outlatch c);
  ok_inlatch : u16_range (inlatch c);
  ok_status : 0 <= status_latch c < 256;
  ok_rw : 0 <= rw_mode c <= 3;
  ok_mode : 0 <= mode c <= 7;
  ok_binary : u16_range (count_binary c);
  ok_zero : count_binary c = 0 -> count c = 0;
  ok_next : u16_range (next_change_time c);
}.

Lemma ok_OUT v c : counter_ok c -> counter_ok (set_OUT v c).
Proof. intros []. destruct (set_OUT_eq v c) as [l ->]. split; assumption. Qed.

Lemma of_bcd_range x : u16_range x -> u16_range (of_bcd x) /\ (of_bcd x = 0 -> x = 0).
Proof.
  unfold u16_range, of_bcd. intros H. change 0xF with (Z.ones 4).
  rewrite !Z.land_ones, !Z.shiftr_div_pow2 by lia. Z.to_euclidean_division_equations. lia.
Qed.

Lemma to_bcd_range b : u16_range (to_bcd b).
Proof.
  assert (D : forall x k, 0 <= k <= 12 -> fits 16 (Z.shiftl (x mod 10) k)).
  { intros x k Hk. pose proof (Z.mod_pos_bound x 10 ltac:(lia)). rewrite Z.shiftl_mul_pow2 by lia.
    pose proof (Z.pow_le_mono_r 2 k 12 ltac:(lia) ltac:(lia)). unfold fits. nia. }
  change (u16_range (to_bcd b)) with (fits 16 (to_bcd b)). unfold to_bcd.
  repeat apply fits_lor; try lia; apply D; lia.
Qed.

Lemma encode_range c b : u16_range b -> u16_range (encode c b) /\ (b = 0 -> encode c b = 0).
Proof.
  intros H. unfold encode. destruct (bcd_mode c); (split; [|intros ->; reflexivity]);
    [apply to_bcd_range | exact H].
Qed.

Lemma ok_with_binary b c : u16_range b -> counter_ok c -> counter_ok (with_binary b c).
Proof. intros H []. destruct (encode_range c b H). split; assumption. Qed.

Lemma ok_set_count d c : counter_ok c -> counter_ok (set_count d c).
Proof.
  intros []. pose proof (range_land d) as R. destruct (of_bcd_range _ R) as [R1 R2].
  replace (set_count d c) with (c <| count := Z.land d 0xFFFF |>
    <| count_binary := if bcd_mode c then of_bcd (Z.land d 0xFFFF) else Z.land d 0xFFFF |>).
  - destruct (bcd_mode c); (split; try assumption). auto.
  - unfold set_count, set_binary_to_count, of_bcd. destruct c; ctr. destruct bcd_mode; reflexivity.
Qed.

Lemma ok_decrement c : counter_ok c -> counter_ok (decrement c).
Proof.
  intros H. pose proof H as []. unfold decrement. destruct (Z.eqb_spec (count c) 0).
  - destruct (bcd_mode c); (split; try assumption; unfold u16_range; ctr; lia).
  - rewrite sync_to_binary. apply ok_with_binary; [|exact H].
    unfold u16_range in *. rewrite wrap_id by (unfold fits; lia). lia.
Qed.

Lemma ok_multiple_loop fuel : forall n c, 0 <= n -> counter_ok c -> counter_ok (decrement_multiple_loop fuel n c).
Proof.
  induction fuel as [|fuel IH]; intros n c Hn H; [exact H|]. cbn [decrement_multiple_loop].
  apply if_P; [|exact H]. pose proof (ok_binary c H) as B. unfold u16_range in B.
  destruct (Z.leb_spec n (count_binary c)); rewrite sync_to_binary.
  - apply IH; [lia|]. apply ok_with_binary; [|exact H]. unfold u16_range.
    rewrite wrap_id by (unfold fits; lia). lia.
  - apply IH; [apply (wrap_fits 32); lia|]. apply ok_decrement, ok_with_binary; auto using range_0.
Qed.

#[export] Instance ok_closed : Closed counter_ok.
Proof.
  split; try (intros; destruct H; split; assumption);
    try (intros; match goal with K : counter_ok _ |- _ => destruct K end; split; assumption).
  - intros c []. assumption.
  - apply ok_OUT.
  - apply ok_set_count.
  - apply ok_decrement.
  - intros n c. apply ok_multiple_loop.
Qed.

#[export] Instance ok_closedIO : ClosedIO counter_ok.
Proof.
  split; [exact _ | intros c []; assumption | ..];
    intros; match goal with K : counter_ok _ |- _ => destruct K end; split; assumption.
Qed.
