(* ===== verification/PitChip.v ===== *)
(** * The chip: well-formedness, the OUT handlers, latched reads

    The invariant lifted to the three counters and every operation of the chip;
    the OUT handler is called at exactly the edges of the pin; a count and a
    status latched by the read-back command are read unharmed while the counter
    goes on. *)

From Stdlib Require Import ZArith Lia List Bool.
From S2P Require Import Prelude Pit82c54 PitRun PitInv.
Import ListNotations.
Open Scope Z_scope.

(** ** What counting leaves alone *)

Lemma set_count_frame d c : exists x y, set_count d c = c <| count := x |> <| count_binary := y |>.
Proof.
  unfold set_count, set_binary_to_count. destruct c. ctr. destruct bcd_mode; do 2 eexists; reflexivity.
Qed.

Lemma decrement_frame c : exists x y, decrement c = c <| count := x |> <| count_binary := y |>.
Proof.
  unfold decrement, set_count_to_binary. destruct c. ctr.
  destruct (count =? 0), bcd_mode; do 2 eexists; reflexivity.
Qed.

Lemma multiple_frame n c : exists x y, decrement_multiple n c = c <| count := x |> <| count_binary := y |>.
Proof.
  unfold decrement_multiple. generalize (S (Z.to_nat n)). intros fuel. revert n c.
  assert (R : forall c, exists x y, c = c <| count := x |> <| count_binary := y |>)
    by (intros []; do 2 eexists; reflexivity).
  induction fuel as [|fuel IH]; intros n c; [apply R|]. cbn [decrement_multiple_loop].
  destruct (n >? 0); [|apply R]. destruct (_ <=? _); cbv zeta; rewrite sync_to_binary.
  - destruct (IH 0 (with_binary (u32 (count_binary c - n)) c)) as (x & y & ->). do 2 eexists. reflexivity.
  - destruct (IH (u32 (n - u32 (count_binary c + 1))) (decrement (with_binary 0 c))) as (x & y & ->).
    destruct (decrement_frame (with_binary 0 c)) as (x' & y' & ->). do 2 eexists. reflexivity.
Qed.

(** ** The OUT handler *)

(** [k] edges after [v0]: the calls since [l0] are the alternating values. *)
Definition heard (l0 : list bool) (v0 : bool) (c : counter_type) : Prop :=
  out_handler c = true /\
  exists k, out_calls c = l0 ++ map (fun i => xorb v0 (Nat.even i)) (seq 0 k) /\
            OUTpin c = xorb v0 (Nat.odd k).

Lemma heard_OUT l0 v0 v c : heard l0 v0 c -> heard l0 v0 (set_OUT v c).
Proof.
  intros [H (k & E & O)]. destruct (bool_dec (OUTpin c) v) as [D|D].
  { rewrite set_OUT_same by exact D. split; [exact H | exists k; auto]. }
  rewrite set_OUT_change by (revert D; destruct v, (OUTpin c); cbn; congruence).
  split; [exact H|]. exists (S k). rewrite H. split.
  - ctr. rewrite E, <- app_assoc, seq_S, map_app. cbn [map plus].
    enough (v = xorb v0 (Nat.even k)) as -> by reflexivity.
    rewrite <- Nat.negb_odd. revert O D. destruct v, v0, (Nat.odd k), (OUTpin c); cbn; congruence.
  - ctr. rewrite Nat.odd_succ, <- Nat.negb_odd. revert O D.
    destruct v, v0, (Nat.odd k), (OUTpin c); cbn; congruence.
Qed.

Definition hears (l0 : list bool) (v0 : bool) (c : counter_type) : Prop := counter_ok c /\ heard l0 v0 c.

#[export] Instance hears_closed l0 v0 : Closed (hears l0 v0).
Proof.
  split; try (intros; match goal with K : hears _ _ _ |- _ => destruct K as [K1 K2] end;
    split; [close; assumption | exact K2]).
  - intros c [[] _]. assumption.
  - intros v c [K1 K2]. split; [close | apply heard_OUT, K2].
  - intros d c [K1 K2]. split; [close | destruct (set_count_frame d c) as (? & ? & ->); exact K2].
  - intros c [K1 K2]. split; [close | destruct (decrement_frame c) as (? & ? & ->); exact K2].
  - intros n c Hn [K1 K2]. split; [apply cl_mult; auto | destruct (multiple_frame n c) as (? & ? & ->); exact K2].
Qed.

#[export] Instance hears_closedIO l0 v0 : ClosedIO (hears l0 v0).
Proof.
  split; [exact _ | intros c [[] _]; assumption | ..];
    intros; match goal with K : hears _ _ _ |- _ => destruct K as [K1 K2] end;
    (split; [close; assumption | exact K2]).
Qed.

(** ** The latches *)

Record latched (c0 c : counter_type) : Prop := {
  la_ok : counter_ok c;
  la_out : outlatch c = outlatch c0;
  la_status : status_latch c = status_latch c0;
  la_LSB : count_LSB_latched c = count_LSB_latched c0;
  la_MSB : count_MSB_latched c = count_MSB_latched c0;
  la_st : status_latched c = status_latched c0;
  la_read : read_state c = read_state c0;
}.

#[export] Instance latched_closed c0 : Closed (latched c0).
Proof.
  split; try (intros; match goal with K : latched _ _ |- _ => destruct K end;
    split; [close; assumption | assumption..]).
  - intros c [[]]. assumption.
  - intros v c []. split; [close|..]; destruct (set_OUT_eq v c) as [l ->]; assumption.
  - intros d c []. split; [close|..]; destruct (set_count_frame d c) as (? & ? & ->); assumption.
  - intros c []. split; [close|..]; destruct (decrement_frame c) as (? & ? & ->); assumption.
  - intros n c Hn []. split; [apply cl_mult; auto|..];
      destruct (multiple_frame n c) as (? & ? & ->); assumption.
Qed.

Lemma latched_gate c0 : forall v c, latched c0 c -> latched c0 (c <| GATE := v |>).
Proof. intros v c []. split; [close|..]; assumption. Qed.

(** What goes on while the guest reads the latches. *)
Inductive activity := Tick | Jump (cycles : Z) | Gate (data : bool).

Definition act (a : activity) (c : counter_type) : counter_type :=
  match a with
  | Tick => clock_counter c
  | Jump n => clock_multiple_counter n c
  | Gate b => set_GATE_counter b c
  end.

Definition legal (a : activity) : Prop := match a with Jump n => 0 <= n < 2 ^ 32 | _ => True end.

Definition acts (l : list activity) (c : counter_type) : counter_type := fold_left (fun c a => act a c) l c.

Lemma latched_act c0 a c : legal a -> latched c0 c -> latched c0 (act a c).
Proof.
  intros L H. destruct a; cbn [act].
  - apply (closed_clock (latched c0)), H.
  - apply (closed_multiple (latched c0)); [apply L | exact H].
  - unfold set_GATE_counter. cbv zeta. apply if_P; [|exact H].
    set (c1 := if GATE (c <| GATE := data |>) then c <| GATE := data |> <| triggerGATE := true |>
               else c <| GATE := data |>).
    assert (H1 : latched c0 c1) by (subst c1; close; apply latched_gate, H). clearbody c1. close.
Qed.

Lemma latched_acts c0 l : forall c, Forall legal l -> latched c0 c -> latched c0 (acts l c).
Proof.
  induction l as [|a l IH]; intros c L H; [exact H|]. inversion L; subst.
  apply IH; [assumption | apply latched_act; assumption].
Qed.

(** The status byte of a counter: OUT, null count, read/write mode, mode, BCD. *)
Definition status_fields (s : Z) (c : counter_type) : Prop :=
  Z.testbit s 7 = OUTpin c /\ Z.testbit s 6 = null_count c /\
  Z.land (Z.shiftr s 4) 3 = rw_mode c /\ Z.land (Z.shiftr s 1) 7 = mode c /\ Z.testbit s 0 = bcd_mode c.

Lemma latch_status_fields c : counter_ok c -> status_latched c = false ->
  status_fields (status_latch (latch_status c)) c.
Proof.
  intros [? ? ? ? R M ? ? ?] L. unfold latch_status. rewrite L. unfold status_fields. ctr.
  assert (rw_mode c = 0 \/ rw_mode c = 1 \/ rw_mode c = 2 \/ rw_mode c = 3) as E by lia.
  assert (mode c = 0 \/ mode c = 1 \/ mode c = 2 \/ mode c = 3 \/ mode c = 4 \/ mode c = 5 \/ mode c = 6 \/ mode c = 7)
    as E' by lia.
  destruct E as [->|[->|[->| ->]]], E' as [->|[->|[->|[->|[->|[->|[->| ->]]]]]]],
    (OUTpin c), (null_count c), (bcd_mode c); vm_compute; repeat split.
Qed.

Lemma latched_refl c : counter_ok c -> latched c c.
Proof. intros H. split; [exact H | reflexivity..]. Qed.

(** Reading the three latched bytes of a two-byte counter. *)
Lemma read_status c : status_latched c = true -> read_state c = LSByte_multiple ->
  read_counter c = (status_latch c, c <| status_latched := false |>).
Proof. intros S R. unfold read_counter. rewrite S, R, andb_false_r. reflexivity. Qed.

Lemma read_low c : status_latched c = false -> count_LSB_latched c = true -> read_state c = LSByte_multiple ->
  read_counter c = (Z.land (outlatch c) 0xFF, c <| read_state := MSByte_multiple |> <| count_LSB_latched := false |>).
Proof. intros S L R. unfold read_counter. rewrite S, L, R. reflexivity. Qed.

Lemma read_high c : status_latched c = false -> count_LSB_latched c = false -> count_MSB_latched c = true ->
  read_state c = MSByte_multiple ->
  read_counter c = (Z.land (Z.shiftr (outlatch c) 8) 0xFF,
                    c <| read_state := LSByte_multiple |> <| count_MSB_latched := false |>).
Proof. intros S L M R. unfold read_counter. rewrite S, L, M, R. reflexivity. Qed.

Lemma two_bytes x : u16_range x -> Z.land x 0xFF + 256 * Z.land (Z.shiftr x 8) 0xFF = x.
Proof.
  unfold u16_range. intros H. change 0xFF with (Z.ones 8).
  rewrite !Z.land_ones, Z.shiftr_div_pow2 by lia. Z.to_euclidean_division_equations. lia.
Qed.

(** The two bytes of a latched count. *)
Lemma read_count_bytes c l1 l2 : counter_ok c -> u16_range (outlatch c) -> read_state c = LSByte_multiple ->
  status_latched c = false -> count_LSB_latched c = true -> count_MSB_latched c = true ->
  Forall legal l1 -> Forall legal l2 ->
  let '(lo, c1) := read_counter (acts l1 c) in
  let '(hi, c2) := read_counter (acts l2 c1) in
  lo + 256 * hi = outlatch c /\ counter_ok c2 /\
  status_latched c2 = false /\ count_LSB_latched c2 = false /\ count_MSB_latched c2 = false /\
  read_state c2 = LSByte_multiple.
Proof.
  intros O W R S L M H1 H2.
  pose proof (latched_acts c l1 c H1 (latched_refl c O)) as [O1 A1 A2 A3 A4 A5 A6].
  rewrite read_low by congruence. clear H1 O R.
  set (c1 := (acts l1 c) <| read_state := MSByte_multiple |> <| count_LSB_latched := false |>).
  assert (F : outlatch c1 = outlatch c /\ status_latched c1 = false /\ count_LSB_latched c1 = false /\
    count_MSB_latched c1 = true /\ read_state c1 = MSByte_multiple /\ counter_ok c1).
  { split; [exact A1|]. split; [exact (eq_trans A5 S)|]. split; [reflexivity|].
    split; [exact (eq_trans A4 M)|]. split; [reflexivity | subst c1; close]. }
  rewrite A1. clearbody c1. clear - W F H2. destruct F as (F1 & F2 & F3 & F4 & F5 & O).
  pose proof (latched_acts c1 l2 c1 H2 (latched_refl c1 O)) as [O1 A1 A2 A3 A4 A5 A6].
  rewrite read_high by congruence. rewrite A1, F1, two_bytes by exact W.
  split; [reflexivity|]. split; [close|]. repeat split; ctr; congruence.
Qed.

(** C18: a read-back command latches the status and the count of a two-byte
    counter: whatever clocks, jumps and gate changes happen in between, the
    guest's next three reads return the status byte and the two bytes of the
    count as they were at the command, and leave no latch behind. *)
Theorem read_back_roundtrip cw c l1 l2 l3 :
  counter_ok c -> Z.land (Z.shiftr cw 5) 1 = 0 -> Z.land (Z.shiftr cw 4) 1 = 0 ->
  read_state c = LSByte_multiple ->
  status_latched c = false -> count_LSB_latched c = false -> count_MSB_latched c = false ->
  Forall legal l1 -> Forall legal l2 -> Forall legal l3 ->
  let '(s, c1) := read_counter (acts l1 (read_back cw c)) in
  let '(lo, c2) := read_counter (acts l2 c1) in
  let '(hi, c3) := read_counter (acts l3 c2) in
  status_fields s c /\ lo + 256 * hi = count c /\ counter_ok c3 /\
  status_latched c3 = false /\ count_LSB_latched c3 = false /\ count_MSB_latched c3 = false /\
  read_state c3 = LSByte_multiple.
Proof.
  intros H C1 C2 R S L M H1 H2 H3. set (c0 := read_back cw c).
  set (w := c <| outlatch := Z.land (count c) 0xFFFF |> <| count_LSB_latched := true |> <| count_MSB_latched := true |>).
  assert (E0 : c0 = latch_status w).
  { unfold c0, read_back, latch_counter. rewrite C1, C2, R, L, M. reflexivity. }
  assert (SF : status_fields (status_latch c0) c).
  { rewrite E0. apply (latch_status_fields w); [|exact S].
    apply (closed_latch counter_ok) in H. unfold latch_counter in H. rewrite R, L, M in H. exact H. }
  assert (F : outlatch c0 = count c /\ count_LSB_latched c0 = true /\ count_MSB_latched c0 = true /\
    status_latched c0 = true /\ read_state c0 = LSByte_multiple).
  { rewrite E0. unfold latch_status. change (status_latched w) with (status_latched c). rewrite S.
    repeat split; [|exact R]. change (Z.land (count c) 0xFFFF = count c). change 0xFFFF with (Z.ones 16).
    rewrite Z.land_ones by lia. apply Z.mod_small, H. }
  assert (O : counter_ok c0) by (apply (closed_read_back counter_ok), H).
  assert (W : u16_range (count c)) by apply H.
  clearbody c0. clear E0 w H R S L M. destruct F as (F1 & F2 & F3 & F4 & F5).
  pose proof (latched_acts c0 l1 c0 H1 (latched_refl c0 O)) as [O1 A1 A2 A3 A4 A5 A6].
  rewrite read_status by congruence. rewrite A2.
  set (c1 := (acts l1 c0) <| status_latched := false |>).
  assert (O' : counter_ok c1) by (subst c1; close).
  assert (E : outlatch c1 = count c) by exact (eq_trans A1 F1).
  pose proof (read_count_bytes c1 l2 l3 O' ltac:(rewrite E; exact W) (eq_trans A6 F5) eq_refl
    (eq_trans A3 F2) (eq_trans A4 F3) H2 H3) as B. rewrite E in B. clearbody c1. clear - B SF.
  destruct (read_counter (acts l2 c1)) as [lo c2]. destruct (read_counter (acts l3 c2)) as [hi c3]. auto.
Qed.

(** ** The chip's operations *)

Inductive pit_op :=
  | Init | Clock (cnum : Z) | ClockMultiple (cnum cycles : Z) | ClockAll (cycles : Z)
  | ReadPort (address : Z) | WritePort (address data : Z) | SetGate (cnum : Z) (data : bool)
  | SetHandler (counternum : Z) (h : bool).

Definition pit_step (o : pit_op) (p : pit_82C54) : pit_82C54 :=
  match o with
  | Init => init p
  | Clock k => clock k p
  | ClockMultiple k n => clock_multiple k n p
  | ClockAll n => clock_all n p
  | ReadPort a => snd (read a p)
  | WritePort a d => write a d p
  | SetGate k b => set_GATE k b p
  | SetHandler k h => set_OUT_handler k h p
  end.

(** The arguments' C types; the caller of [set_OUT_handler] names a counter. *)
Definition pit_legal (o : pit_op) : Prop :=
  match o with
  | Init => True
  | Clock k => 0 <= k
  | ClockMultiple k n => 0 <= k /\ 0 <= n < 2 ^ 32
  | ClockAll n => 0 <= n < 2 ^ 32
  | ReadPort a => 0 <= a < 256
  | WritePort a d => 0 <= a < 256 /\ 0 <= d < 256
  | SetGate k b => 0 <= k
  | SetHandler k h => 0 <= k <= MAX_COUNTER
  end.

Lemma on_counter_P (P : counter_type -> Prop) j f p k :
  (P (counter p k) -> P (f (counter p k))) -> P (counter p k) -> P (counter (on_counter j f p) k).
Proof.
  intros Hf H. unfold on_counter. cbn [set_field counter]. destruct (Z.eqb_spec k j) as [->|]; auto.
Qed.

Definition quiet (o : pit_op) : Prop :=
  match o with Init | SetHandler _ _ => False | _ => True end.

(** A closed property of a counter holds after every operation but a reset or a
    change of handlers. *)
Lemma step_lift (P : counter_type -> Prop) `{!ClosedIO P} o p k :
  pit_legal o -> quiet o -> P (counter p k) -> P (counter (pit_step o p) k).
Proof.
  intros L Q H. destruct o; try contradiction; cbn [pit_step pit_legal] in *.
  - unfold clock. destruct (_ >? _); [exact H|]. apply on_counter_P; auto. apply (closed_clock P).
  - unfold clock_multiple. destruct (_ >? _); [exact H|]. apply on_counter_P; auto.
    apply (closed_multiple P), L.
  - unfold clock_all, clock_multiple. cbn [Z.gtb Z.compare MAX_COUNTER Pos.compare Pos.compare_cont].
    do 3 (apply on_counter_P; [apply (closed_multiple P), L|]). exact H.
  - unfold read. destruct (_ >? _); [exact H|]. destruct (_ =? _); [exact H|].
    destruct (read_counter (counter p address)) as [v c] eqn:E. cbn [snd].
    unfold on_counter. cbn [set_field counter]. destruct (Z.eqb_spec k address) as [->|]; [|exact H].
    replace c with (snd (read_counter (counter p address))) by (rewrite E; reflexivity).
    apply (closed_read P), H.
  - unfold write. destruct (_ >? _); [exact H|]. destruct (_ =? _).
    + cbv zeta. set (p1 := p <| controlword := data |>). assert (H1 : P (counter p1 k)) by exact H.
      clearbody p1. destruct (_ =? 3).
      * cbn [fold_left].
        repeat match goal with |- context [if ?b then _ else _] => destruct b end;
          repeat (apply on_counter_P; [apply (closed_read_back P)|]); exact H1.
      * destruct (_ =? 0); apply on_counter_P; auto; [apply (closed_latch P)|].
        change 3 with (Z.ones 2). change 7 with (Z.ones 3). rewrite !Z.land_ones by lia.
        apply (closed_program P).
        -- pose proof (Z.mod_pos_bound (Z.shiftr data 4) (2 ^ 2) ltac:(lia)). lia.
        -- pose proof (Z.mod_pos_bound (Z.shiftr data 1) (2 ^ 3) ltac:(lia)). lia.
    + apply on_counter_P; auto. apply (closed_write P), L.
  - unfold set_GATE. destruct (_ >? _); [exact H|]. apply on_counter_P; auto. apply (closed_GATE P).
Qed.

Definition pit_ok (p : pit_82C54) : Prop := forall k, 0 <= k <= MAX_COUNTER -> counter_ok (counter p k).

(** Before [init], only the C types are known. *)
Definition latches_typed (c : counter_type) : Prop :=
  u16_range (outlatch c) /\ u16_range (inlatch c) /\ 0 <= status_latch c < 256.

Lemma init_counter_ok c : latches_typed c -> counter_ok (init_counter c).
Proof.
  intros (A & B & C). split; try assumption; unfold u16_range; cbn; try lia. 
Qed.

Lemma ok_handler h c : counter_ok c -> counter_ok (c <| out_handler := h |>).
Proof. intros []. split; assumption. Qed.

Lemma ok_latches c : counter_ok c -> latches_typed c.
Proof. intros []. split; [|split]; assumption. Qed.

Lemma chip_init_ok p : (forall k, 0 <= k <= MAX_COUNTER -> latches_typed (counter p k)) -> pit_ok (init p).
Proof.
  intros T k Hk. unfold init, on_counter. cbn [set_field counter].
  assert (k = 0 \/ k = 1 \/ k = 2) as [->|[->| ->]] by (unfold MAX_COUNTER in Hk; lia); cbn;
    apply init_counter_ok, T; unfold MAX_COUNTER; lia.
Qed.

(** C17: whatever memory the object is built in, [init] leaves a well-formed chip, and
    every operation keeps it well formed: each field of each counter fits its C
    type, modes and read/write modes are those of the control word, and a zero
    binary count is a zero count, so that no decrement underflows. *)
Theorem pit_well_formed p : (forall k, 0 <= k <= MAX_COUNTER -> latches_typed (counter p k)) ->
  pit_ok (init p) /\ forall o q, pit_ok q -> pit_legal o -> pit_ok (pit_step o q).
Proof.
  pose proof chip_init_ok as I.
  intros T. split; [apply I, T|]. intros o q H L.
  destruct o; try (intros k Hk; apply step_lift; [exact _ | exact L | exact Logic.I | apply H, Hk]).
  - apply I. intros k Hk. apply ok_latches, H, Hk.
  - intros k Hk. cbn [pit_step]. unfold set_OUT_handler. apply on_counter_P; [apply ok_handler | apply H, Hk].
Qed.

Definition pit_run (l : list pit_op) (p : pit_82C54) : pit_82C54 := fold_left (fun p o => pit_step o p) l p.

(** Once a handler is installed on a counter's OUT pin, it is called at every edge
    of the pin and at no other time, with the new level: over any sequence of
    operations the calls alternate, beginning with the complement of the level
    at the start and ending with the level at the end. *)
Theorem handler_sees_every_edge l p k : counter_ok (counter p k) -> out_handler (counter p k) = true ->
  Forall pit_legal l -> Forall quiet l ->
  let c := counter p k in
  let c' := counter (pit_run l p) k in
  exists n, out_calls c' = out_calls c ++ map (fun i => xorb (OUTpin c) (Nat.even i)) (seq 0 n) /\
            OUTpin c' = xorb (OUTpin c) (Nat.odd n).
Proof.
  intros H O L Q c c'.
  assert (K : hears (out_calls c) (OUTpin c) c').
  { assert (K0 : hears (out_calls c) (OUTpin c) c).
    { split; [exact H|]. split; [exact O|]. exists 0%nat. cbn. rewrite app_nil_r. split; [reflexivity|].
      destruct (OUTpin c); reflexivity. }
    unfold c'. generalize dependent K0. unfold c at 3. generalize (out_calls c) (OUTpin c). clear c c' H O.
    revert p. induction l as [|o l IH]; intros p l0 v0 K0; [exact K0|]. inversion L; inversion Q; subst.
    apply IH; auto. apply step_lift; auto. exact _. }
  destruct K as [_ [_ K]]. exact K.
Qed.

(** ** Witnesses *)

Definition blank_chip : pit_82C54 := Pit (fun _ => power_up) 0.

Lemma power_up_ok : counter_ok power_up.
Proof. split; vm_compute; try (split; congruence); auto. Qed.

(** Counter 0 as a running rate generator; the guest latches it and reads it while
    100 clocks pass between the reads. *)
Lemma read_back_roundtrip_witness :
  let c := clock_multiple_counter 1000 (start 2 0 0x34 0x12 power_up) in
  let '(s, c1) := read_counter (acts [Jump 100] (read_back 0xC2 c)) in
  let '(lo, c2) := read_counter (acts [Gate false; Tick; Gate true] c1) in
  let '(hi, c3) := read_counter (acts [Jump 100] c2) in
  status_fields s c /\ lo + 256 * hi = count c /\ counter_ok c3 /\
  status_latched c3 = false /\ count_LSB_latched c3 = false /\ count_MSB_latched c3 = false /\
  read_state c3 = LSByte_multiple.
Proof.
  intros c.
  assert (O : counter_ok c) by (split; vm_compute; try (split; congruence); congruence).
  assert (R : read_state c = LSByte_multiple /\ status_latched c = false /\ count_LSB_latched c = false /\
    count_MSB_latched c = false) by (vm_compute; auto).
  assert (L1 : Forall legal [Jump 100]) by (repeat constructor; vm_compute; congruence).
  assert (L2 : Forall legal [Gate false; Tick; Gate true]) by (repeat constructor).
  assert (C : Z.land (Z.shiftr 0xC2 5) 1 = 0 /\ Z.land (Z.shiftr 0xC2 4) 1 = 0) by (split; reflexivity).
  clearbody c. destruct C as [C1 C2], R as (R1 & R2 & R3 & R4).
  exact (read_back_roundtrip 0xC2 c _ _ _ O C1 C2 R1 R2 R3 R4 L1 L2 L1).
Defined.

Lemma pit_well_formed_witness : pit_ok (init blank_chip).
Proof.
  apply (pit_well_formed blank_chip). intros k _. apply ok_latches. exact power_up_ok.
Defined.

(** The timer interrupt of a PC: mode 2 with the divisor 4, three periods. *)
Lemma handler_sees_every_edge_witness :
  let p := set_OUT_handler 0 true (init blank_chip) in
  let l := [WritePort 3 0x34; WritePort 0 4; WritePort 0 0; ClockAll 5; Clock 0; ClockAll 7] in
  (exists n, out_calls (counter (pit_run l p) 0) = out_calls (counter p 0) ++
               map (fun i => xorb (OUTpin (counter p 0)) (Nat.even i)) (seq 0 n) /\
             OUTpin (counter (pit_run l p) 0) = xorb (OUTpin (counter p 0)) (Nat.odd n)) /\
  out_calls (counter (pit_run l p) 0) = [false; true; false; true; false; true].
Proof.
  intros p l. split; [|vm_compute; reflexivity].
  apply (handler_sees_every_edge l p 0); (repeat constructor; vm_compute; congruence).
Defined.
