(* ===== verification/Pit.v ===== *)
(** * The timer device: 82C54, IRQ 0 and speaker (iodev/pit.h, iodev/pit.cc)

    [bx_pit_c] drives the 82C54 by the passing of virtual time and connects the
    OUT pins of counter 0 and 2 to IRQ 0 and to the speaker.  The interrupt lines
    are an interface, [IrqLines].  The speaker and the device's own virtual timer
    are outside: the calls to them are logged.  The time, which the virtual
    timers tell, is an argument of the operations.  [time_usec] may first run
    timers that are due, this device's among them; that is one [handle_timer]
    before the operation. *)

From Stdlib Require Import ZArith Lia List Bool.
From S2P Require Import Prelude Pit82c54.
Import ListNotations.
Open Scope Z_scope.

(** What devices see of the interrupt controllers. *)
Class IrqLines (W : Type) := {
  DEV_pic_raise_irq : Z -> W -> W;
  DEV_pic_lower_irq : Z -> W -> W;
}.

Definition USEC_PER_SECOND := 1000000.
Definition TICKS_PER_SECOND := 1193181.

(** The macros compute in the type of their argument: [TICKS_TO_USEC] is applied to
    a Bit32u, whose product wraps, [USEC_TO_TICKS] to a Bit64u. *)
Definition TICKS_TO_USEC (a : Z) : Z := u32 (a * USEC_PER_SECOND) / TICKS_PER_SECOND.
Definition USEC_TO_TICKS (a : Z) : Z := u64 (a * TICKS_PER_SECOND) / USEC_PER_SECOND.

Inductive pit_call :=
| SpeakerBeepOn (divisor : Z)          (* frequency 1193180.0 / divisor *)
| SpeakerBeepOff
| SpeakerSetLine (level : bool)
| TimerDeactivate
| TimerActivate (usec : Z)
| PanicRead (address : Z)
| PanicWrite (address : Z).

Record s_type := S_type {
  timer : pit_82C54;
  speaker_data_on : bool;
  speaker_active : bool;
  speaker_level : bool;
  last_usec : Z;             (* Bit64u *)
  last_next_event_time : Z;  (* Bit32u *)
  total_ticks : Z;           (* Bit64u *)
  total_usec : Z;
  irq_enabled : bool;
}.

#[export] Instance s_type_eta : Eta s_type := fun s =>
  S_type (timer s) (speaker_data_on s) (speaker_active s) (speaker_level s) (last_usec s)
    (last_next_event_time s) (total_ticks s) (total_usec s) (irq_enabled s).

Section Device.
Context {W : Type} {lines : IrqLines W}.

Record bx_pit_c := PitDev { s : s_type; irqs : W; calls : list pit_call }.

#[export] Instance bx_pit_eta : Eta bx_pit_c := fun d => PitDev (s d) (irqs d) (calls d).

Definition on_s (f : s_type -> s_type) (d : bx_pit_c) : bx_pit_c := d <| s := f (s d) |>.
Definition call (e : pit_call) (d : bx_pit_c) : bx_pit_c := d <| calls := calls d ++ [e] |>.

Definition irq_handler (value : bool) (d : bx_pit_c) : bx_pit_c :=
  if irq_enabled (s d) then
    if value then d <| irqs := DEV_pic_raise_irq 0 (irqs d) |> else d <| irqs := DEV_pic_lower_irq 0 (irqs d) |>
  else d.

Definition speaker_handler (value : bool) (d : bx_pit_c) : bx_pit_c :=
  if negb (get_mode 2 (timer (s d)) =? 3) then call (SpeakerSetLine (value && speaker_data_on (s d))) d else d.

(** The calls of a counter's OUT handler during an operation of the chip. *)
Definition new_calls (k : Z) (t t' : pit_82C54) : list bool :=
  skipn (length (out_calls (counter t k))) (out_calls (counter t' k)).

(** An operation of the chip and the handlers it calls: counter 0 is connected to
    [irq_handler], counter 2 to [speaker_handler].  No operation of the chip
    changes what they read after it called them. *)
Definition chip (f : pit_82C54 -> pit_82C54) (d : bx_pit_c) : bx_pit_c :=
  let t := timer (s d) in
  let t' := f t in
  let d := on_s (fun s => s <| timer := t' |>) d in
  let d := fold_left (fun d v => irq_handler v d) (new_calls 0 t t') d in
  fold_left (fun d v => speaker_handler v d) (new_calls 2 t t') d.

(** ** Time *)

(** [while ((total_ticks >= TICKS_PER_SECOND) && (total_usec >= USEC_PER_SECOND))] *)
Fixpoint renormalize (fuel : nat) (s : s_type) : s_type :=
  match fuel with
  | O => s
  | S fuel =>
      if (total_ticks s >=? TICKS_PER_SECOND) && (total_usec s >=? USEC_PER_SECOND) then
        renormalize fuel (s <| total_ticks := u64 (total_ticks s - TICKS_PER_SECOND) |>
                            <| total_usec := u64 (total_usec s - USEC_PER_SECOND) |>)
      else s
  end.

(** [while (ticks_delta > 0)]; every round passes at least one tick. *)
Fixpoint pass_ticks (fuel : nat) (ticks_delta : Z) (d : bx_pit_c) : bx_pit_c :=
  match fuel with
  | O => d
  | S fuel =>
      if ticks_delta >? 0 then
        let maxchange := get_next_event_time (timer (s d)) in
        let timedelta := if (maxchange =? 0) || (maxchange >? ticks_delta) then ticks_delta else maxchange in
        pass_ticks fuel (u32 (ticks_delta - timedelta)) (chip (clock_all timedelta) d)
      else d
  end.

Definition periodic (usec_delta : Z) (d : bx_pit_c) : bx_pit_c :=
  let usec := u64 (total_usec (s d) + usec_delta) in
  let ticks_delta := u32 (USEC_TO_TICKS usec - total_ticks (s d)) in
  let d := on_s (fun s => s <| total_usec := usec |> <| total_ticks := u64 (total_ticks s + ticks_delta) |>) d in
  let d := on_s (renormalize (S (Z.to_nat (usec / USEC_PER_SECOND)))) d in
  pass_ticks (S (Z.to_nat ticks_delta)) ticks_delta d.

(** The tail shared by [handle_timer] and [write]: arm the virtual timer. *)
Definition reset_timer (time_passed : Z) (d : bx_pit_c) : bx_pit_c :=
  let next := get_next_event_time (timer (s d)) in
  if negb (time_passed =? 0) || negb (last_next_event_time (s d) =? next) then
    let d := call TimerDeactivate d in
    let d := if negb (next =? 0) then call (TimerActivate (u32 (Z.max 1 (TICKS_TO_USEC next)))) d else d in
    on_s (fun s => s <| last_next_event_time := next |>) d
  else d.

(** Let the time since [last_usec] pass; the result is that time. *)
Definition catch_up (my_time_usec : Z) (d : bx_pit_c) : Z * bx_pit_c :=
  let time_passed := u64 (my_time_usec - last_usec (s d)) in
  let time_passed32 := u32 time_passed in
  let d := if negb (time_passed32 =? 0) then periodic time_passed32 d else d in
  (time_passed, on_s (fun s => s <| last_usec := u64 (last_usec s + time_passed) |>) d).

Definition handle_timer (my_time_usec : Z) (d : bx_pit_c) : bx_pit_c :=
  let '(time_passed, d) := catch_up my_time_usec d in reset_timer time_passed d.

(** ** Ports *)

Definition get_timer (Timer : Z) (d : bx_pit_c) : Z := get_inlatch Timer (timer (s d)).
Definition new_timer_count (Timer : Z) (d : bx_pit_c) : bool := new_count_ready Timer (timer (s d)).

Definition beep_divisor (d : bx_pit_c) : Z :=
  let value32 := get_timer 2 d in if value32 =? 0 then 0x10000 else value32.

(** Reading a port of the chip has no effect on the OUT pins. *)
Definition read_chip (address : Z) (d : bx_pit_c) : Z * bx_pit_c :=
  let '(v, t) := Pit82c54.read address (timer (s d)) in (v, on_s (fun s => s <| timer := t |>) d).

(** [refresh_usec] is the time read for the refresh bit of port 61h. *)
Definition read (address my_time_usec refresh_usec : Z) (d : bx_pit_c) : Z * bx_pit_c :=
  let d := handle_timer my_time_usec d in
  if address =? 0x40 then read_chip 0 d
  else if address =? 0x41 then read_chip 1 d
  else if address =? 0x42 then read_chip 2 d
  else if address =? 0x43 then read_chip 3 d
  else if address =? 0x61 then
    let refresh_clock_div2 := Z.land (refresh_usec / 15) 1 in
    (u8 (Z.lor (Z.lor (Z.lor (Z.shiftl (Z.b2z (read_OUT 2 (timer (s d)))) 5) (Z.shiftl refresh_clock_div2 4))
                      (Z.shiftl (Z.b2z (speaker_data_on (s d))) 1))
               (Z.b2z (read_GATE 2 (timer (s d))))), d)
  else (0, call (PanicRead address) d).

Definition write_61 (value : Z) (d : bx_pit_c) : bx_pit_c :=
  let d := chip (set_GATE 2 (negb (Z.land value 0x01 =? 0))) d in
  let d := on_s (fun s => s <| speaker_data_on := negb (Z.land (Z.shiftr value 1) 0x01 =? 0) |>) d in
  let new_speaker_active := Z.land value 3 =? 3 in
  if get_mode 2 (timer (s d)) =? 3 then
    if negb (eqb (speaker_active (s d)) new_speaker_active) then
      let d := if new_speaker_active then call (SpeakerBeepOn (beep_divisor d)) d else call SpeakerBeepOff d in
      on_s (fun s => s <| speaker_active := new_speaker_active |>) d
    else d
  else
    let new_speaker_level := speaker_data_on (s d) && read_OUT 2 (timer (s d)) in
    if negb (eqb (speaker_level (s d)) new_speaker_level) then
      on_s (fun s => s <| speaker_level := new_speaker_level |>) (call (SpeakerSetLine new_speaker_level) d)
    else d.

Definition write_port (address value : Z) (d : bx_pit_c) : bx_pit_c :=
  if address =? 0x40 then chip (Pit82c54.write 0 value) d
  else if address =? 0x41 then chip (Pit82c54.write 1 value) d
  else if address =? 0x42 then
    let d := chip (Pit82c54.write 2 value) d in
    if speaker_active (s d) && (get_mode 2 (timer (s d)) =? 3) && new_timer_count 2 d
    then call (SpeakerBeepOn (beep_divisor d)) d else d
  else if address =? 0x43 then chip (Pit82c54.write 3 value) d
  else if address =? 0x61 then write_61 value d
  else call (PanicWrite address) d.

Definition write (address dvalue my_time_usec : Z) (d : bx_pit_c) : bx_pit_c :=
  let '(time_passed, d) := catch_up my_time_usec d in
  reset_timer time_passed (write_port address (u8 dvalue) d).

(** ** Initialisation *)

(** [init]; the registration of the virtual timer and of the ports is left out. *)
Definition init (my_time_usec : Z) (d : bx_pit_c) : bx_pit_c :=
  let d := on_s (fun s => s <| irq_enabled := true |> <| speaker_data_on := false |> <| speaker_active := false |>
                            <| speaker_level := false |>) d in
  let d := on_s (fun s => s <| timer := set_OUT_handler 2 true (set_OUT_handler 0 true (Pit82c54.init (timer s))) |>) d in
  let d := call TimerDeactivate d in
  let next := get_next_event_time (timer (s d)) in
  let d := if negb (next =? 0) then call (TimerActivate (u32 (Z.max 1 (TICKS_TO_USEC next)))) d else d in
  on_s (fun s => s <| last_next_event_time := next |> <| last_usec := my_time_usec |> <| total_ticks := 0 |>
                   <| total_usec := 0 |>) d.

Definition enable_irq (enabled : bool) (d : bx_pit_c) : bx_pit_c := on_s (fun s => s <| irq_enabled := enabled |>) d.

(** [after_restore_state] *)
Definition after_restore_state (d : bx_pit_c) : bx_pit_c :=
  if speaker_active (s d) && (get_mode 2 (timer (s d)) =? 3) then call (SpeakerBeepOn (beep_divisor d)) d else d.

End Device.
