(* ===== verification/PitDevice.v ===== *)
(** * The timer device: no drift, and IRQ 0 follows the pin

    The device calls the chip with the ticks since the last call; rounded down
    every time, they add up to the ticks of the whole time.  The line of IRQ 0
    follows OUT of counter 0, and its edge reaches the processor. *)

From Stdlib Require Import ZArith Lia List Bool Sorted.
From S2P Require Import Prelude Pic PicSpec PicProps Pit82c54 PitRun PitRate PitSquare PitInv PitChip Pit.
Import ListNotations.
Open Scope Z_scope.

(** ** Microseconds and ticks *)

Lemma ticks_floor u : 0 <= u < 10 ^ 13 -> USEC_TO_TICKS u = u * 1193181 / 1000000.
Proof. intros H. unfold USEC_TO_TICKS, TICKS_PER_SECOND, USEC_PER_SECOND. rewrite wrap_id by (unfold fits; lia). reflexivity. Qed.

Definition ticks (e : Z) : Z := e * 1193181 / 1000000.

Lemma ticks_mono a b : a <= b -> ticks a <= ticks b.
Proof. intros H. apply Z.div_le_mono; lia. Qed.

Lemma ticks_second e : ticks (e + 1000000) = ticks e + 1193181.
Proof. unfold ticks. rewrite Z.mul_add_distr_r, (Z.mul_comm 1000000), Z.div_add by lia. reflexivity. Qed.

Lemma ticks_diff a b : 0 <= b -> b * 1193181 / 1000000 <= ticks (a + b) - ticks a <= b * 1193181 / 1000000 + 1.
Proof. intros H. unfold ticks. Z.to_euclidean_division_equations. lia. Qed.

(** The product wraps from 4295 ticks on: the timer is armed too early, and the
    device wakes up more often than it has to. *)
Lemma ticks_to_usec_wraps : TICKS_TO_USEC 4294 = 3598 /\ TICKS_TO_USEC 4295 = 0.
Proof. split; reflexivity. Qed.

(** But never too late: no event is passed by, except that the least delay of 1
    microsecond may take 2 ticks. *)
Lemma armed_in_time e n : 0 <= n < 65536 -> ticks (e + Z.max 1 (TICKS_TO_USEC n)) - ticks e <= Z.max 2 n.
Proof.
  intros H. assert (T : 0 <= TICKS_TO_USEC n <= n * 1000000 / 1193181).
  { unfold TICKS_TO_USEC, TICKS_PER_SECOND, USEC_PER_SECOND. 
    pose proof (Z.mod_le (n * 1000000) (2 ^ 32) ltac:(lia) ltac:(lia)).
    split; [apply Z.div_pos; [apply (wrap_fits 32); lia | lia] | apply Z.div_le_mono; [lia|]].
    unfold wrap. rewrite ?Z.land_ones by lia. assumption. }
  pose proof (ticks_diff e (Z.max 1 (TICKS_TO_USEC n)) ltac:(lia)). Z.to_euclidean_division_equations. lia.
Qed.

Section Device.
Context {W : Type} {lines : IrqLines W}.
Implicit Types d : bx_pit_c (W := W).

(** ** The chip inside the device *)

Lemma irq_handler_s v d : s (irq_handler v d) = s d.
Proof. unfold irq_handler. destruct (irq_enabled (s d)), v; reflexivity. Qed.

Lemma speaker_handler_s v d : s (speaker_handler v d) = s d.
Proof. unfold speaker_handler. destruct (negb _); reflexivity. Qed.

Lemma fold_s (h : bool -> bx_pit_c -> bx_pit_c) : (forall v d, s (h v d) = s d) ->
  forall l d, s (fold_left (fun d v => h v d) l d) = s d.
Proof. intros H. induction l as [|v l IH]; intros d; [reflexivity|]. cbn [fold_left]. rewrite IH. apply H. Qed.

Lemma chip_s f d : s (chip f d) = (s d) <| timer := f (timer (s d)) |>.
Proof.
  unfold chip. rewrite !fold_s by (apply irq_handler_s || apply speaker_handler_s). reflexivity.
Qed.

Lemma chip_timer f d : timer (s (chip f d)) = f (timer (s d)).
Proof. rewrite chip_s. reflexivity. Qed.

(** ** Passing ticks *)

Definition chip_ok d : Prop := pit_ok (timer (s d)).

Lemma event_time_range p : pit_ok p -> 0 <= get_next_event_time p < 65536.
Proof.
  intros H. assert (T : forall k, 0 <= k <= 2 -> 0 <= next_change_time (counter p k) < 65536)
    by (intros k Hk; apply (ok_next _ (H k Hk))).
  pose proof (T 0 ltac:(lia)). pose proof (T 1 ltac:(lia)). pose proof (T 2 ltac:(lia)).
  unfold get_next_event_time, get_clock_event_time, MAX_COUNTER.
  repeat destruct (_ && _); assumption.
Qed.

Lemma clock_all_ok n p : 0 <= n < 2 ^ 32 -> pit_ok p -> pit_ok (clock_all n p).
Proof. intros Hn H k Hk. apply (step_lift counter_ok (ClockAll n)); [exact Hn | exact Logic.I | apply H, Hk]. Qed.

Lemma clock_all_counter n p k : 0 <= k <= 2 -> counter (clock_all n p) k = clock_multiple_counter n (counter p k).
Proof.
  intros Hk. assert (k = 0 \/ k = 1 \/ k = 2) as [->|[->| ->]] by lia; reflexivity.
Qed.

Section Counting.
Variables (k : Z) (Inv : counter_type -> Prop).
Hypothesis Hk : 0 <= k <= 2.
Hypothesis Inv_scheduled : forall c, Inv c -> scheduled c.
Hypothesis Inv_clock : forall c, Inv c -> Inv (clock_counter c).

Definition the_counter d : counter_type := counter (timer (s d)) k.

(** The device [n] ticks later. *)
Record ticked (n : Z) d d' : Prop := {
  tk_ok : chip_ok d';
  tk_counter : the_counter d' = steps n (the_counter d);
  tk_rest : s d' = (s d) <| timer := timer (s d') |>;
}.

Lemma pass_ticks_steps fuel : forall n d, chip_ok d -> Inv (the_counter d) ->
  0 <= n < 2 ^ 31 -> n < Z.of_nat fuel -> ticked n d (pass_ticks fuel n d).
Proof.
  induction fuel as [|fuel IH]; intros n d O I Hn Hf; [lia|]. cbn [pass_ticks].
  destruct (Z.gtb_spec n 0).
  2: { replace n with 0 by lia. split; [exact O | reflexivity | destruct (s d); reflexivity]. }
  cbv zeta. pose proof (event_time_range _ O) as E.
  set (m := if (get_next_event_time (timer (s d)) =? 0) || _ then n else _).
  assert (Hm : 0 < m <= n).
  { subst m. destruct (Z.eqb_spec (get_next_event_time (timer (s d))) 0); cbn [orb]; [lia|].
    destruct (Z.gtb_spec (get_next_event_time (timer (s d))) n); lia. }
  clearbody m. rewrite wrap_id by (unfold fits; lia).
  assert (C : the_counter (chip (clock_all m) d) = steps m (the_counter d)).
  { unfold the_counter. rewrite chip_timer, clock_all_counter by exact Hk. apply jump_steps with Inv; auto. lia. }
  destruct (IH (n - m) (chip (clock_all m) d)) as [R1 R2 R3]; try lia.
  - unfold chip_ok. rewrite chip_timer. apply clock_all_ok; [lia | exact O].
  - rewrite C. apply inv_steps; assumption.
  - split; [exact R1 | | rewrite R3, chip_s; reflexivity].
    rewrite R2, C, <- steps_add by lia. f_equal. lia.
Qed.

(** ** Microseconds *)

Lemma renormalize_floor fuel : forall t, 0 <= total_usec t < 10 ^ 12 -> total_ticks t = ticks (total_usec t) ->
  total_usec t / 1000000 < Z.of_nat fuel ->
  renormalize fuel t = t <| total_usec := total_usec t mod 1000000 |> <| total_ticks := ticks (total_usec t mod 1000000) |>.
Proof.
  induction fuel as [|fuel IH]; intros t Hu Ht Hf.
  { pose proof (Z.div_pos (total_usec t) 1000000 ltac:(lia) ltac:(lia)). lia. }
  cbn [renormalize]. rewrite !Z.geb_leb. unfold TICKS_PER_SECOND, USEC_PER_SECOND in *.
  destruct (Z.leb_spec 1000000 (total_usec t)).
  - pose proof (ticks_second (total_usec t - 1000000)) as T. rewrite Z.sub_add in T.
    assert (0 <= ticks (total_usec t - 1000000) < 2 ^ 63) by (unfold ticks; Z.to_euclidean_division_equations; lia).
    destruct (Z.leb_spec 1193181 (total_ticks t)); [|lia]. cbn [andb].
    rewrite !(wrap_id 64) by (unfold fits; lia).
    assert (D : (total_usec t - 1000000) mod 1000000 = total_usec t mod 1000000).
    { replace (total_usec t - 1000000) with (total_usec t + -1 * 1000000) by lia. apply Z.mod_add. lia. }
    rewrite IH; cbn [set_field total_usec total_ticks]; [rewrite D; reflexivity | lia | lia |].
    replace (total_usec t - 1000000) with (total_usec t + -1 * 1000000) by lia. rewrite Z.div_add; lia.
  - rewrite andb_false_r, !Z.mod_small, <- Ht by lia. destruct t; reflexivity.
Qed.

(** [e] microseconds have passed since [t0]; the counter was [c0] at tick [b]. *)
Record on_time (b t0 e : Z) (c0 : counter_type) d : Prop := {
  ot_base : 0 <= b <= ticks e;
  ot_ok : chip_ok d;
  ot_usec : total_usec (s d) = e mod 1000000;
  ot_ticks : total_ticks (s d) = ticks (e mod 1000000);
  ot_last : last_usec (s d) = t0 + e;
  ot_inv : Inv (the_counter d);
  ot_counter : the_counter d = steps (ticks e - b) c0;
}.

Lemma ticks_mod e : ticks e = ticks (e mod 1000000) + 1193181 * (e / 1000000).
Proof.
  rewrite (Z.div_mod e 1000000) at 1 by lia. unfold ticks.
  replace ((1000000 * (e / 1000000) + e mod 1000000) * 1193181) with
    (e mod 1000000 * 1193181 + 1193181 * (e / 1000000) * 1000000) by lia.
  apply Z.div_add. lia.
Qed.

Lemma periodic_on_time b t0 e c0 delta d : 0 <= e -> 0 <= delta <= 10 ^ 9 -> on_time b t0 e c0 d ->
  let d' := periodic delta d in
  chip_ok d' /\ the_counter d' = steps (ticks (e + delta) - b) c0 /\ Inv (the_counter d') /\
  total_usec (s d') = (e + delta) mod 1000000 /\ total_ticks (s d') = ticks ((e + delta) mod 1000000) /\
  last_usec (s d') = last_usec (s d).
Proof.
  intros He Hd [B O U T L I C] d'. subst d'. unfold periodic. rewrite U, T.
  set (u := e mod 1000000). assert (Hu : 0 <= u < 1000000) by (apply Z.mod_pos_bound; lia).
  rewrite (wrap_id 64 (u + delta)) by (unfold fits; lia). rewrite ticks_floor by lia.
  fold (ticks (u + delta)). pose proof (ticks_diff u delta ltac:(lia)) as D. set (n := ticks (u + delta) - ticks u) in *.
  assert (N : 0 <= n < 2 ^ 31) by (Z.to_euclidean_division_equations; lia).
  rewrite (wrap_id 32 n) by (unfold fits; lia).
  assert (Tu : 0 <= ticks u < 2 ^ 31) by (unfold ticks; Z.to_euclidean_division_equations; lia).
  cbv zeta. set (d1 := on_s (renormalize _) _).
  assert (E1 : s d1 = (s d) <| total_usec := (u + delta) mod 1000000 |>
                            <| total_ticks := ticks ((u + delta) mod 1000000) |>).
  { subst d1. unfold on_s. cbn [set_field s]. rewrite T. fold u. rewrite (wrap_id 64) by (unfold fits; lia).
    replace (ticks u + n) with (ticks (u + delta)) by lia.
    rewrite renormalize_floor; cbn [set_field total_usec total_ticks];
      [reflexivity | lia | reflexivity | unfold USEC_PER_SECOND].
    rewrite Nat2Z.inj_succ, Z2Nat.id by (apply Z.div_pos; lia). lia. }
  assert (Ok1 : chip_ok d1) by (unfold chip_ok; rewrite E1; exact O).
  assert (C1 : the_counter d1 = the_counter d) by (unfold the_counter; rewrite E1; reflexivity).
  clearbody d1.
  destruct (pass_ticks_steps (S (Z.to_nat n)) n d1) as [R1 R2 R3]; try assumption; try lia;
    [rewrite C1; exact I|].
  assert (M : (u + delta) mod 1000000 = (e + delta) mod 1000000) by (subst u; apply Zplus_mod_idemp_l).
  rewrite R3, E1. cbn [set_field total_usec total_ticks last_usec]. rewrite M.
  split; [exact R1|]. rewrite R2, C1, C, <- steps_add.
  2, 3: lia.
  split; [|split; [|auto]].
  - f_equal. subst n u. rewrite (ticks_mod (e + delta)), (ticks_mod e), <- M.
    rewrite (ticks_mod (e mod 1000000 + delta)).
    assert ((e + delta) / 1000000 = e / 1000000 + (e mod 1000000 + delta) / 1000000); [|lia].
    Z.to_euclidean_division_equations. lia.
  - rewrite steps_add by lia. rewrite <- C. apply inv_steps; assumption.
Qed.

End Counting.

(** ** Operations of the device *)

Inductive dev_op :=
  | Timer (t : Z)                       (* the virtual timer fires *)
  | Read (address t refresh : Z)
  | Write (address value t : Z).

Definition dev_step (o : dev_op) d : bx_pit_c :=
  match o with
  | Timer t => handle_timer t d
  | Read a t r => snd (read a t r d)
  | Write a v t => write a v t d
  end.

Definition dev_time (o : dev_op) : Z := match o with Timer t | Read _ t _ | Write _ _ t => t end.

Definition dev_run (l : list dev_op) d : bx_pit_c := fold_left (fun d o => dev_step o d) l d.

Lemma reset_timer_s x d : exists n, s (reset_timer x d) = (s d) <| last_next_event_time := n |>.
Proof.
  unfold reset_timer. destruct (_ || _).
  - exists (get_next_event_time (timer (s d))). unfold on_s, call. cbn [set_field s].
    destruct (negb (_ =? 0)); reflexivity.
  - exists (last_next_event_time (s d)). destruct (s d). reflexivity.
Qed.

(** The operations that leave counter 0 to itself. *)
Definition elsewhere (o : dev_op) : Prop :=
  match o with
  | Timer _ => True
  | Read a _ _ => a <> 0x40
  | Write a v _ => a = 0x41 \/ a = 0x42 \/ a = 0x61
  end.

(** What [on_time] looks at, for counter 0. *)
Record undisturbed d d' : Prop := {
  un_ok : chip_ok d -> chip_ok d';
  un_usec : total_usec (s d') = total_usec (s d);
  un_ticks : total_ticks (s d') = total_ticks (s d);
  un_last : last_usec (s d') = last_usec (s d);
  un_counter : the_counter 0 d' = the_counter 0 d;
}.

Lemma undisturbed_refl d : undisturbed d d.
Proof. split; auto. Qed.

Lemma undisturbed_trans d1 d2 d3 : undisturbed d1 d2 -> undisturbed d2 d3 -> undisturbed d1 d3.
Proof. intros [] []. split; try congruence; auto. Qed.

Lemma undisturbed_on_time Inv b t0 e c0 d d' : undisturbed d d' -> on_time 0 Inv b t0 e c0 d -> on_time 0 Inv b t0 e c0 d'.
Proof. intros [] []. split; try congruence; auto. Qed.

Lemma undisturbed_s d d' : s d' = s d -> undisturbed d d'.
Proof. intros E. split; unfold chip_ok, the_counter; rewrite E; auto. Qed.

Lemma reset_undisturbed x d : undisturbed d (reset_timer x d).
Proof.
  destruct (reset_timer_s x d) as [n E]. split; unfold chip_ok, the_counter; rewrite E; auto.
Qed.

(** A legal operation of the chip that does not name counter 0. *)
Lemma chip_undisturbed o d : pit_legal o -> quiet o ->
  counter (pit_step o (timer (s d))) 0 = counter (timer (s d)) 0 -> undisturbed d (chip (pit_step o) d).
Proof.
  intros L Q E. split; unfold chip_ok, the_counter; rewrite chip_s; cbn [set_field timer total_usec total_ticks last_usec]; auto.
  intros O k Hk. apply (step_lift counter_ok); auto.
Qed.

Lemma u8_range x : 0 <= u8 x < 256.
Proof. apply (wrap_fits 8). lia. Qed.

Lemma write_port_undisturbed a v d : a = 0x41 \/ a = 0x42 \/ a = 0x61 -> undisturbed d (write_port a (u8 v) d).
Proof.
  pose proof (u8_range v) as V.
  intros [->|[->| ->]]; unfold write_port; cbn [Z.eqb Pos.eqb].
  - apply (chip_undisturbed (WritePort 1 (u8 v))); [split; [lia | exact V] | exact I | reflexivity].
  - eapply undisturbed_trans.
    { apply (chip_undisturbed (WritePort 2 (u8 v))); [split; [lia | exact V] | exact I | reflexivity]. }
    destruct (_ && _); [apply undisturbed_s; reflexivity | apply undisturbed_refl].
  - unfold write_61. eapply undisturbed_trans.
    { apply (chip_undisturbed (SetGate 2 (negb (Z.land (u8 v) 0x01 =? 0)))); [cbn; lia | exact I | reflexivity]. }
    cbv zeta. change (set_GATE 2 ?b) with (pit_step (SetGate 2 b)). generalize (chip (pit_step (SetGate 2 (negb (Z.land (u8 v) 0x01 =? 0)))) d). intros d1.
    destruct (get_mode 2 _ =? 3); [destruct (negb (eqb (speaker_active _) _)); [destruct (Z.land _ _ =? 3)|]
                                  |destruct (negb (eqb (speaker_level _) _))]; split; auto.
Qed.

Lemma read_undisturbed a t r d : a <> 0x40 -> undisturbed (handle_timer t d) (snd (read a t r d)).
Proof.
  intros H. unfold read. destruct (Z.eqb_spec a 0x40); [contradiction|]. set (d1 := handle_timer t d). clearbody d1.
  assert (R : forall k, k = 1 \/ k = 2 \/ k = 3 -> undisturbed d1 (snd (read_chip k d1))).
  { intros k Hk. unfold read_chip. destruct (Pit82c54.read k (timer (s d1))) as [x p] eqn:E. cbn [snd].
    assert (P : p = pit_step (ReadPort k) (timer (s d1))) by (cbn [pit_step]; rewrite E; reflexivity).
    split; unfold chip_ok, the_counter, on_s; cbn [set_field s timer]; auto.
    - intros O j Hj. rewrite P. apply (step_lift counter_ok); [cbn; lia | exact I | apply O, Hj].
    - clear P. unfold Pit82c54.read in E. destruct (Z.gtb_spec k MAX_ADDRESS); [injection E as <- <-; reflexivity|].
      destruct (k =? CONTROL_ADDRESS); [injection E as <- <-; reflexivity|].
      destruct (read_counter _) as [y c]. injection E as <- <-. unfold on_counter. cbn [set_field counter].
      destruct (Z.eqb_spec 0 k); [lia | reflexivity]. }
  repeat destruct (a =? _); cbn [snd]; try (apply R; auto; fail); apply undisturbed_s; reflexivity.
Qed.

Section Follow.
Variable Inv : counter_type -> Prop.
Hypothesis Inv_scheduled : forall c, Inv c -> scheduled c.
Hypothesis Inv_clock : forall c, Inv c -> Inv (clock_counter c).

Lemma catch_up_on_time b t0 e e' c0 d : 0 <= t0 -> 0 <= e <= e' -> e' <= e + 10 ^ 9 -> t0 + e' < 2 ^ 64 ->
  on_time 0 Inv b t0 e c0 d -> on_time 0 Inv b t0 e' c0 (snd (catch_up (t0 + e') d)).
Proof.
  intros Ht He Hd Hw T. pose proof T as [B O U K L I C]. unfold catch_up. rewrite L.
  replace (t0 + e' - (t0 + e)) with (e' - e) by lia.
  rewrite (wrap_id 64 (e' - e)), (wrap_id 32) by (unfold fits; lia).
  destruct (Z.eqb_spec (e' - e) 0) as [E|E]; cbn [negb snd].
  - assert (e' = e) as -> by lia. split; try assumption. cbn [set_field s last_usec on_s].
    rewrite L, wrap_id by (unfold fits; lia). lia.
  - destruct (periodic_on_time 0 Inv ltac:(lia) Inv_scheduled Inv_clock b t0 e c0 (e' - e) d ltac:(lia) ltac:(lia) T)
      as (P1 & P2 & P3 & P4 & P5 & P6).
    replace (e + (e' - e)) with e' in * by lia.
    pose proof (ticks_mono e e' ltac:(lia)).
    split; try assumption; [lia|]. cbn [set_field s last_usec on_s]. rewrite P6, L, wrap_id by (unfold fits; lia). lia.
Qed.

Lemma step_on_time b t0 e e' c0 o d : 0 <= t0 -> 0 <= e <= e' -> e' <= e + 10 ^ 9 -> t0 + e' < 2 ^ 64 ->
  dev_time o = t0 + e' -> elsewhere o -> on_time 0 Inv b t0 e c0 d -> on_time 0 Inv b t0 e' c0 (dev_step o d).
Proof.
  intros Ht He Hd Hw Ho E T. pose proof (catch_up_on_time b t0 e e' c0 d Ht He Hd Hw T) as T'.
  assert (H : on_time 0 Inv b t0 e' c0 (handle_timer (t0 + e') d)).
  { unfold handle_timer. destruct (catch_up _ d) as [x d1]. eapply undisturbed_on_time; [apply reset_undisturbed | exact T']. }
  destruct o; cbn [dev_time dev_step elsewhere] in *; subst.
  - exact H.
  - eapply undisturbed_on_time; [apply read_undisturbed, E | exact H].
  - unfold write. destruct (catch_up _ d) as [x d1]. eapply undisturbed_on_time; [apply reset_undisturbed|].
    eapply undisturbed_on_time; [apply write_port_undisturbed, E | exact T'].
Qed.

(** The operations come in the order of time, no more than 1000 s apart. *)
Fixpoint paced (t : Z) (l : list dev_op) : Prop :=
  match l with [] => True | o :: l => t <= dev_time o <= t + 10 ^ 9 /\ dev_time o < 2 ^ 64 /\ paced (dev_time o) l end.

Definition end_time (t : Z) (l : list dev_op) : Z := fold_left (fun _ o => dev_time o) l t.

Lemma run_on_time b t0 c0 : 0 <= t0 -> forall l e d, 0 <= e -> paced (t0 + e) l -> Forall elsewhere l ->
  on_time 0 Inv b t0 e c0 d -> on_time 0 Inv b t0 (end_time (t0 + e) l - t0) c0 (dev_run l d).
Proof.
  intros Ht. induction l as [|o l IH]; intros e d He P E T.
  { cbn. replace (t0 + e - t0) with e by lia. exact T. }
  destruct P as (P1 & P2 & P3). inversion E; subst. cbn [end_time fold_left dev_run].
  replace (dev_time o) with (t0 + (dev_time o - t0)) in * by lia.
  apply IH; auto; [lia|]. apply step_on_time with e; auto; lia.
Qed.

End Follow.

(** The device's clock: since [init] at [t0] the totals are those of the time
    passed, less whole seconds. *)
Record punctual (t0 : Z) d : Prop := {
  pu_start : 0 <= t0 <= last_usec (s d);
  pu_usec : total_usec (s d) = (last_usec (s d) - t0) mod 1000000;
  pu_ticks : total_ticks (s d) = ticks ((last_usec (s d) - t0) mod 1000000);
  pu_ok : chip_ok d;
}.

Lemma punctual_on_time Inv t0 d : punctual t0 d -> Inv (the_counter 0 d) ->
  on_time 0 Inv (ticks (last_usec (s d) - t0)) t0 (last_usec (s d) - t0) (the_counter 0 d) d.
Proof.
  intros [S U T O] H. split; auto; [|lia|rewrite Z.sub_diag; reflexivity].
  split; [apply Z.div_pos|]; lia.
Qed.

Lemma counter_follows (Inv : counter_type -> Prop) l t0 d : (forall c, Inv c -> scheduled c) -> (forall c, Inv c -> Inv (clock_counter c)) ->
  punctual t0 d -> Inv (the_counter 0 d) ->
  let t := last_usec (s d) in
  paced t l -> Forall elsewhere l ->
  the_counter 0 (dev_run l d) = steps (ticks (end_time t l - t0) - ticks (t - t0)) (the_counter 0 d).
Proof.
  intros IS IC P R t Hl E. pose proof (pu_start t0 d P) as S. fold t in S.
  pose proof (run_on_time Inv IS IC (ticks (t - t0)) t0 (the_counter 0 d) ltac:(lia) l (t - t0) d ltac:(lia)) as T.
  replace (t0 + (t - t0)) with t in T by lia.
  exact (ot_counter _ _ _ _ _ _ _ (T Hl E (punctual_on_time _ _ _ P R))).
Qed.

Lemma counter_after N l t0 d : punctual t0 d -> rating N (the_counter 0 d) ->
  let t := last_usec (s d) in
  paced t l -> Forall elsewhere l ->
  the_counter 0 (dev_run l d) = steps (ticks (end_time t l - t0) - ticks (t - t0)) (the_counter 0 d).
Proof. apply counter_follows; [apply rating_scheduled | apply rating_clock]. Qed.


Lemma pit_ok_handler k h p : pit_ok p -> pit_ok (set_OUT_handler k h p).
Proof. intros O j Hj. apply (on_counter_P counter_ok); [apply ok_handler | apply O, Hj]. Qed.

(** [init] starts the clock. *)
Lemma init_s t0 d : exists n, s (Pit.init t0 d) =
  (s d) <| irq_enabled := true |> <| speaker_data_on := false |> <| speaker_active := false |> <| speaker_level := false |>
        <| timer := set_OUT_handler 2 true (set_OUT_handler 0 true (Pit82c54.init (timer (s d)))) |>
        <| last_next_event_time := n |> <| last_usec := t0 |> <| total_ticks := 0 |> <| total_usec := 0 |>.
Proof.
  assert (E : forall (b : bool) e (x : bx_pit_c (W := W)), s (if b then call e x else x) = s x) by (intros []; reflexivity).
  assert (F : forall f (x : bx_pit_c (W := W)), s (on_s f x) = f (s x)) by reflexivity.
  unfold Pit.init. cbv zeta. rewrite F, E. generalize (get_next_event_time (timer (s (call TimerDeactivate
    (on_s (fun s => s <| timer := set_OUT_handler 2 true (set_OUT_handler 0 true (Pit82c54.init (timer s))) |>)
    (on_s (fun s => s <| irq_enabled := true |> <| speaker_data_on := false |> <| speaker_active := false |>
                      <| speaker_level := false |>) d)))))).
  intros n. exists n. change (s (call ?e ?x)) with (s x). rewrite !F. destruct (s d). reflexivity.
Qed.

Lemma init_punctual t0 d : 0 <= t0 -> (forall k, 0 <= k <= MAX_COUNTER -> latches_typed (counter (timer (s d)) k)) ->
  punctual t0 (Pit.init t0 d).
Proof.
  intros Ht L. destruct (init_s t0 d) as [n E].
  split; unfold chip_ok; rewrite E; cbn [set_field last_usec total_usec total_ticks timer];
    [lia | rewrite Z.sub_diag; reflexivity.. |].
  apply (pit_ok_handler 2), (pit_ok_handler 0), chip_init_ok, L.
Qed.
End Device.
