(* ===== verification/PitIrq.v ===== *)
(** * The timer device: IRQ 0 follows the pin, and reaches the processor

    Every edge of OUT of counter 0 becomes a call to the interrupt controllers,
    in order and without a gap, whatever operation of the device makes it; so the
    line's level is that of the pin.  With the 8259s connected, the rising edge
    of a rate generator is an interrupt request. *)

From Stdlib Require Import ZArith Lia List Bool.
From S2P Require Import Prelude Pic PicSpec PicProps Pit82c54 PitRun PitRate PitInv PitChip Pit PitDevice.
Import ListNotations.
Open Scope Z_scope.

(** [l] is the new levels of a line at its edges from [v] to [v']. *)
Fixpoint edges (v : bool) (l : list bool) (v' : bool) : Prop :=
  match l with [] => v = v' | x :: l => x = negb v /\ edges x l v' end.

Lemma edges_app l1 : forall v v' l2 v'', edges v l1 v' -> edges v' l2 v'' -> edges v (l1 ++ l2) v''.
Proof.
  induction l1 as [|x l1 IH]; intros v v' l2 v'' H1 H2; cbn in *; [subst; exact H2|].
  destruct H1 as [-> H1]. split; [reflexivity | eapply IH; eassumption].
Qed.

Lemma edges_alternate n : forall v k,
  edges (xorb v (Nat.odd k)) (map (fun i => xorb v (Nat.even i)) (seq k n)) (xorb v (Nat.odd (k + n))).
Proof.
  induction n as [|n IH]; intros v k; cbn [seq map edges].
  - rewrite Nat.add_0_r. reflexivity.
  - rewrite <- Nat.negb_odd. split; [destruct v, (Nat.odd k); reflexivity|].
    replace (xorb v (negb (Nat.odd k))) with (xorb v (Nat.odd (S k))) by (rewrite Nat.odd_succ, <- Nat.negb_odd; reflexivity).
    replace (k + S n)%nat with (S k + n)%nat by lia. apply IH.
Qed.

(** The level of a line of edges is known once it had one. *)
Lemma edges_last dflt l : forall v v', edges v l v' -> l <> [] -> last l dflt = v'.
Proof.
  induction l as [|x [|y l] IH]; intros v v' H N; [congruence | |].
  - destruct H as [_ H]. exact H.
  - destruct H as [_ H]. apply (IH x v' H). discriminate.
Qed.

Section Device.
Context {W : Type} {lines : IrqLines W}.
Implicit Types d : bx_pit_c (W := W).

Definition drive (v : bool) (w : W) : W := if v then DEV_pic_raise_irq 0 w else DEV_pic_lower_irq 0 w.

Definition OUT0 d : bool := OUTpin (the_counter 0 d).

(** The device is connected: interrupts enabled, handler installed. *)
Record connected d : Prop := {
  cn_ok : chip_ok d;
  cn_enabled : irq_enabled (s d) = true;
  cn_handler : out_handler (the_counter 0 d) = true;
}.

(** From [d] to [d'] the controllers were driven with the edges [l] of the pin. *)
Record driven (l : list bool) d d' : Prop := {
  dr_connected : connected d';
  dr_edges : edges (OUT0 d) l (OUT0 d');
  dr_calls : out_calls (the_counter 0 d') = out_calls (the_counter 0 d) ++ l;
  dr_irqs : irqs d' = fold_left (fun w v => drive v w) l (irqs d);
}.

Lemma driven_trans l1 l2 d1 d2 d3 : driven l1 d1 d2 -> driven l2 d2 d3 -> driven (l1 ++ l2) d1 d3.
Proof.
  intros [C1 E1 K1 I1] [C2 E2 K2 I2]. split; [exact C2 | eapply edges_app; eassumption | | ].
  - rewrite K2, K1, app_assoc. reflexivity.
  - rewrite I2, I1, fold_left_app. reflexivity.
Qed.

Lemma driven_quiet d d' : connected d -> (chip_ok d -> chip_ok d') -> irq_enabled (s d') = irq_enabled (s d) ->
  OUT0 d' = OUT0 d -> out_handler (the_counter 0 d') = out_handler (the_counter 0 d) ->
  out_calls (the_counter 0 d') = out_calls (the_counter 0 d) -> irqs d' = irqs d -> driven [] d d'.
Proof.
  intros [] H E O Hh K I. split; [split; auto; congruence | symmetry; exact O | rewrite app_nil_r; exact K | exact I].
Qed.

Lemma speaker_irqs v d : irqs (speaker_handler v d) = irqs d.
Proof. unfold speaker_handler. destruct (negb _); reflexivity. Qed.

Lemma fold_irqs l : forall d, irqs (fold_left (fun d v => speaker_handler v d) l d) = irqs d.
Proof. induction l as [|v l IH]; intros d; [reflexivity|]. cbn [fold_left]. rewrite IH. apply speaker_irqs. Qed.

Lemma fold_drive l : forall d, irq_enabled (s d) = true ->
  irqs (fold_left (fun d v => irq_handler v d) l d) = fold_left (fun w v => drive v w) l (irqs d).
Proof.
  induction l as [|v l IH]; intros d E; [reflexivity|]. cbn [fold_left]. rewrite IH.
  - f_equal. unfold irq_handler, drive. rewrite E. destruct v; reflexivity.
  - rewrite irq_handler_s. exact E.
Qed.

Lemma chip_irqs f d : irq_enabled (s d) = true ->
  irqs (chip f d) = fold_left (fun w v => drive v w) (new_calls 0 (timer (s d)) (f (timer (s d)))) (irqs d).
Proof. intros E. unfold chip. rewrite fold_irqs, fold_drive by exact E. reflexivity. Qed.

(** An operation of the chip drives the line with the edges it makes. *)
Lemma chip_driven o d : pit_legal o -> quiet o -> connected d ->
  exists l, driven l d (chip (pit_step o) d).
Proof.
  intros L Q [O E H].
  set (c := the_counter 0 d). set (c' := counter (pit_step o (timer (s d))) 0).
  assert (K : hears (out_calls c) (OUTpin c) c').
  { apply step_lift; [exact _ | exact L | exact Q|]. split; [apply O; unfold MAX_COUNTER; lia|].
    split; [exact H|]. exists 0%nat. cbn. rewrite app_nil_r. split; [reflexivity | symmetry; apply xorb_false_r]. }
  destruct K as [_ [H' (n & K1 & K2)]].
  exists (map (fun i => xorb (OUTpin c) (Nat.even i)) (seq 0 n)).
  assert (C : the_counter 0 (chip (pit_step o) d) = c') by (unfold the_counter; rewrite chip_timer; reflexivity).
  split.
  - split; [|rewrite chip_s; exact E | rewrite C; exact H'].
    unfold chip_ok. rewrite chip_timer. intros k Hk. apply (step_lift counter_ok); auto.
  - unfold OUT0. rewrite C, K2. pose proof (edges_alternate n (OUTpin c) 0) as A. cbn [Nat.odd] in A.
    rewrite Nat.add_0_l, xorb_false_r in A. exact A.
  - rewrite C. exact K1.
  - rewrite chip_irqs by exact E. f_equal. unfold new_calls. fold c'. rewrite K1.
    change (counter (timer (s d)) 0) with c. rewrite skipn_app, skipn_all, Nat.sub_diag. reflexivity.
Qed.

(** Some edges, of which nobody is interested in the number. *)
Definition follows d d' : Prop := exists l, driven l d d'.

Lemma follows_trans d1 d2 d3 : follows d1 d2 -> follows d2 d3 -> follows d1 d3.
Proof. intros [l1 H1] [l2 H2]. exists (l1 ++ l2). eapply driven_trans; eassumption. Qed.

Lemma follows_connected d d' : follows d d' -> connected d'.
Proof. intros [l []]. assumption. Qed.

Lemma follows_quiet d d' : connected d -> irq_enabled (s d') = irq_enabled (s d) ->
  timer (s d') = timer (s d) -> irqs d' = irqs d -> follows d d'.
Proof.
  intros C E T I. exists []. apply driven_quiet; auto; unfold chip_ok, OUT0, the_counter; rewrite T; auto.
Qed.

Lemma follows_refl d : connected d -> follows d d.
Proof. intros C. apply follows_quiet; auto. Qed.

Lemma pass_ticks_follows fuel : forall n d, connected d -> 0 <= n < 2 ^ 32 -> follows d (pass_ticks fuel n d).
Proof.
  induction fuel as [|fuel IH]; intros n d C Hn; [apply follows_refl, C|]. cbn [pass_ticks].
  destruct (Z.gtb_spec n 0); [|apply follows_refl, C]. cbv zeta.
  pose proof (event_time_range _ (cn_ok d C)) as E.
  set (m := if (get_next_event_time (timer (s d)) =? 0) || _ then n else _).
  assert (Hm : 0 <= m < 2 ^ 32).
  { subst m. destruct (get_next_event_time (timer (s d)) =? 0); cbn [orb]; [lia|].
    destruct (get_next_event_time (timer (s d)) >? n); lia. }
  clearbody m.
  assert (F : follows d (chip (clock_all m) d)) by (apply (chip_driven (ClockAll m)); auto; exact Logic.I).
  eapply follows_trans; [exact F|]. apply IH; [eapply follows_connected, F | apply (wrap_fits 32); lia].
Qed.

Lemma renormalize_frame fuel : forall t, timer (renormalize fuel t) = timer t /\ irq_enabled (renormalize fuel t) = irq_enabled t.
Proof.
  induction fuel as [|fuel IH]; intros t; [auto|]. cbn [renormalize]. destruct (_ && _); [|auto].
  rewrite !(proj1 (IH _)), !(proj2 (IH _)). auto.
Qed.

Lemma periodic_follows x d : connected d -> follows d (periodic x d).
Proof.
  intros C. unfold periodic. cbv zeta.
  match goal with |- follows _ (pass_ticks _ _ ?d1) => set (d2 := d1); assert (F : follows d d2) end.
  { subst d2. apply follows_quiet; auto; unfold on_s; cbn [set_field s irqs];
      rewrite ?(proj1 (renormalize_frame _ _)), ?(proj2 (renormalize_frame _ _)); reflexivity. }
  eapply follows_trans; [exact F|]. apply pass_ticks_follows; [eapply follows_connected, F | apply (wrap_fits 32); lia].
Qed.

Lemma catch_up_follows t d : connected d -> follows d (snd (catch_up t d)).
Proof.
  intros C. unfold catch_up. cbn [snd].
  match goal with |- context [if ?b then _ else _] => set (z := b) end. clearbody z.
  set (d1 := if z then _ else d).
  assert (F : follows d d1) by (subst d1; destruct z; [apply periodic_follows, C | apply follows_refl, C]).
  eapply follows_trans; [exact F|]. apply follows_quiet; try reflexivity. eapply follows_connected, F.
Qed.

Lemma reset_timer_follows x d : connected d -> follows d (reset_timer x d).
Proof.
  intros C. destruct (reset_timer_s x d) as [n E]. apply follows_quiet; auto; try (rewrite E; reflexivity).
  unfold reset_timer. destruct (_ || _); [|reflexivity]. destruct (negb (_ =? 0)); reflexivity.
Qed.

Lemma handle_timer_follows t d : connected d -> follows d (handle_timer t d).
Proof.
  intros C. pose proof (catch_up_follows t d C) as F. unfold handle_timer. destruct (catch_up t d) as [x d1].
  eapply follows_trans; [exact F|]. apply reset_timer_follows. eapply follows_connected, F.
Qed.

Lemma read_chip_follows k d : 0 <= k <= 3 -> connected d -> follows d (snd (read_chip k d)).
Proof.
  intros Hk C. unfold read_chip. destruct (Pit82c54.read k (timer (s d))) as [x p] eqn:E. cbn [snd].
  assert (P : p = pit_step (ReadPort k) (timer (s d))) by (cbn [pit_step]; rewrite E; reflexivity).
  assert (F : forall h, counter p h = counter (timer (s d)) h \/
     counter p h = snd (read_counter (counter (timer (s d)) h))).
  { intros h. clear P. unfold Pit82c54.read in E. destruct (k >? MAX_ADDRESS); [injection E as <- <-; auto|].
    destruct (k =? CONTROL_ADDRESS); [injection E as <- <-; auto|].
    destruct (read_counter (counter (timer (s d)) k)) as [y c] eqn:R. injection E as <- <-.
    unfold on_counter. cbn [set_field counter]. destruct (Z.eqb_spec h k) as [->|]; [rewrite R|]; auto. }
  assert (R : forall c, OUTpin (snd (read_counter c)) = OUTpin c /\ out_handler (snd (read_counter c)) = out_handler c /\
     out_calls (snd (read_counter c)) = out_calls c).
  { intros c. unfold read_counter. cbv zeta.
    repeat match goal with |- context [if ?b then _ else _] => destruct b end; auto. }
  exists []. apply driven_quiet; auto; unfold OUT0, the_counter, chip_ok, on_s; cbn [set_field s timer].
  - intros O h Hh. rewrite P. apply (step_lift counter_ok); [cbn; lia | exact Logic.I | apply O, Hh].
  - destruct (F 0) as [->| ->]; [|rewrite (proj1 (R _))]; reflexivity.
  - destruct (F 0) as [->| ->]; [|rewrite (proj1 (proj2 (R _)))]; reflexivity.
  - destruct (F 0) as [->| ->]; [|rewrite (proj2 (proj2 (R _)))]; reflexivity.
Qed.

Lemma write_port_follows a v d : 0 <= v < 256 -> connected d -> follows d (write_port a v d).
Proof.
  intros V C.
  assert (P : forall k, 0 <= k < 256 -> follows d (chip (Pit82c54.write k v) d))
    by (intros k Hk; apply (chip_driven (WritePort k v)); [split; [exact Hk | exact V] | exact Logic.I | exact C]).
  unfold write_port. repeat match goal with |- follows _ (if a =? _ then _ else _) => destruct (a =? _) end;
    try (apply P; lia).
  - eapply follows_trans; [apply (P 2); lia|]. pose proof (follows_connected _ _ (P 2 ltac:(lia))) as C2.
    destruct (_ && _); [apply follows_quiet; auto | apply follows_refl; exact C2].
  - unfold write_61. cbv zeta.
    assert (F : follows d (chip (set_GATE 2 (negb (Z.land v 0x01 =? 0))) d))
      by (apply (chip_driven (SetGate 2 _)); [cbn; lia | exact Logic.I | exact C]).
    eapply follows_trans; [exact F|]. apply follows_connected in F. revert F.
    generalize (chip (set_GATE 2 (negb (Z.land v 0x01 =? 0))) d). intros d1 C1.
    destruct (get_mode 2 _ =? 3); [destruct (negb (eqb (speaker_active _) _)); [destruct (Z.land _ _ =? 3)|]
                                  |destruct (negb (eqb (speaker_level _) _))]; apply follows_quiet; auto.
  - apply follows_quiet; auto.
Qed.

Lemma step_follows o d : connected d -> follows d (dev_step o d).
Proof.
  intros C. destruct o as [t | a t r | a v t]; cbn [dev_step].
  - apply handle_timer_follows, C.
  - unfold read. pose proof (handle_timer_follows t d C) as F. cbv zeta.
    eapply follows_trans; [exact F|]. apply follows_connected in F.
    repeat match goal with |- follows _ (snd (if a =? _ then _ else _)) => destruct (a =? _) end; cbn [snd];
      try (apply read_chip_follows; [lia | exact F]); apply follows_quiet; auto.
  - unfold write. pose proof (catch_up_follows t d C) as F. destruct (catch_up t d) as [x d1]. cbn [snd] in F.
    eapply follows_trans; [exact F|]. apply follows_connected in F.
    pose proof (write_port_follows a (u8 v) d1 (u8_range v) F) as F2.
    eapply follows_trans; [exact F2|]. apply reset_timer_follows. eapply follows_connected, F2.
Qed.

Lemma run_follows l : forall d, connected d -> follows d (dev_run l d).
Proof.
  induction l as [|o l IH]; intros d C; [apply follows_refl, C|]. cbn [dev_run fold_left].
  pose proof (step_follows o d C) as F. eapply follows_trans; [exact F|]. apply IH. eapply follows_connected, F.
Qed.

End Device.

(** ** Controllers whose inputs have a level *)

(** What the device relies on: raising and lowering line 0 sets its level. *)
Class IrqLevel (W : Type) {lines : IrqLines W} := {
  level0 : W -> bool;
  level0_raise : forall w, level0 (DEV_pic_raise_irq 0 w) = true;
  level0_lower : forall w, level0 (DEV_pic_lower_irq 0 w) = false;
}.

Section Level.
Context {W : Type} {lines : IrqLines W} {levels : IrqLevel W}.

Lemma drive_level v (w : W) : level0 (drive v w) = v.
Proof. destruct v; [apply level0_raise | apply level0_lower]. Qed.

Lemma drives_level l (w : W) : l <> [] -> level0 (fold_left (fun w v => drive v w) l w) = last l false.
Proof.
  intros N. destruct (exists_last N) as (l' & x & ->). rewrite fold_left_app, last_last. apply drive_level.
Qed.

(** C13: IRQ 0 is the OUT pin of counter 0: whatever the guest reads and writes and however
    time passes, either the pin had no edge and the interrupt controllers were
    not called, or the level of the line is that of the pin; and once they
    agree they always do. *)
Theorem irq0_follows_OUT l (d : bx_pit_c (W := W)) : connected d ->
  let d' := dev_run l d in
  (out_calls (the_counter 0 d') = out_calls (the_counter 0 d) /\ irqs d' = irqs d \/ level0 (irqs d') = OUT0 d') /\
  (level0 (irqs d) = OUT0 d -> level0 (irqs d') = OUT0 d').
Proof.
  intros C d'. destruct (run_follows l d C) as [[|v vs] [_ E K I]]; fold d' in E, K, I.
  - rewrite app_nil_r in K. cbn in E, I. split; [left; auto|]. rewrite I, <- E. auto.
  - assert (level0 (irqs d') = OUT0 d')
      by (rewrite I, drives_level by discriminate; eapply edges_last; [exact E | discriminate]).
    split; auto.
Qed.
End Level.

(** ** The 8259s *)

#[export] Instance pic_lines {B} `{IrqForward B} : IrqLines (Pic.bx_pic_c * B) := {
  DEV_pic_raise_irq := raise_irq;
  DEV_pic_lower_irq := lower_irq;
}.

Lemma service_master_pins w : IRQ_in (master_pic (service_master w)) = IRQ_in (master_pic w).
Proof.
  unfold service_master, pic_service_body. cbn [deref].
  repeat match goal with
  | |- context [match ?x with Some _ => _ | None => _ end] => destruct x
  | |- context [if ?b then _ else _] => destruct b
  end; reflexivity.
Qed.

#[export, refine] Instance pic_level {B} `{IrqForward B} : IrqLevel (Pic.bx_pic_c * B) := {
  level0 := fun w => Z.testbit (IRQ_in (master_pic (fst w))) 0;
}.
Proof.
  - intros w. cbn [DEV_pic_raise_irq pic_lines]. unfold raise_irq. destruct (forward 0 true w) as [p b]. cbn [fst].
    unfold raise_irq_pins. cbn [Z.leb Z.compare deref]. change (Z.land 0 7) with 0.
    cbv zeta. rewrite land_bitmask_zero by lia. destruct (Z.testbit (IRQ_in (master_pic p)) 0) eqn:T; cbn [negb]; [exact T|].
    cbn [pic_service]. rewrite service_master_pins. cbn [store set_field master_pic IRQ_in].
    unfold set_bit. rewrite Z.lor_spec. apply orb_true_r.
  - intros w. cbn [DEV_pic_lower_irq pic_lines]. unfold lower_irq. destruct (forward 0 false w) as [p b]. cbn [fst].
    unfold lower_irq_pins. cbn [Z.leb Z.compare deref]. change (Z.land 0 7) with 0. cbv zeta.
    rewrite land_bitmask_zero by lia. destruct (Z.testbit (IRQ_in (master_pic p)) 0) eqn:T; cbn [negb]; [|exact T].
    cbn [store set_field master_pic IRQ_in]. rewrite clear_bit_testbit by lia. apply andb_false_r.
Defined.

(** ** The rising edge of a rate generator *)

Lemma set_OUT_calls v c1 : out_handler c1 = true ->
  out_calls (set_OUT v c1) = out_calls c1 ++ (if eqb (OUTpin c1) v then [] else [v]) /\ OUTpin (set_OUT v c1) = v /\
  out_handler (set_OUT v c1) = true.
Proof.
  intros H. unfold set_OUT. destruct (eqb (OUTpin c1) v) eqn:E; cbn [negb].
  - apply eqb_prop in E. rewrite app_nil_r. auto.
  - cbn [set_field out_calls OUTpin out_handler]. rewrite H. auto.
Qed.

(** A clock calls the handler when it changes the pin, and only then. *)
Definition calls_edge (c : counter_type) : Prop :=
  out_calls (clock_counter c) =
  out_calls c ++ (if eqb (OUTpin c) (OUTpin (clock_counter c)) then [] else [OUTpin (clock_counter c)]) /\
  out_handler (clock_counter c) = true.

Lemma load_calls c : out_handler c = true -> mode c = 2 -> count_written c = true -> triggerGATE c = false ->
  first_pass c = true -> valid_count c (inlatch c) -> calls_edge c.
Proof.
  intros H M W T F V. unfold calls_edge. rewrite clock2_load by assumption. cbv zeta.
  cbn [set_field out_calls OUTpin out_handler].
  destruct (set_OUT_calls true (renext (Z.land (u32 (decode c (inlatch c) - 1)) 0xFFFF) (with_binary (decode c (inlatch c)) c)) H)
    as (-> & -> & ->). split; reflexivity.
Qed.

Lemma rating_calls N c : rating N c -> out_handler c = true -> calls_edge c.
Proof.
  intros [P|[j P]] H; [apply load_calls; try assumption; apply P|].
  destruct (first_pass c) eqn:F; [apply load_calls; try assumption; apply P|].
  unfold calls_edge. rewrite clock2_count by (apply P || assumption). cbv zeta.
  set (b := (count_binary c - 1) mod modulus c). destruct (b =? 1); cbn [set_field out_calls OUTpin out_handler].
  - destruct (set_OUT_calls false (renext 1 (with_binary b c)) H) as (-> & -> & ->). split; reflexivity.
  - change (OUTpin (renext _ _)) with (OUTpin c). rewrite eqb_reflx, app_nil_r. split; [reflexivity | exact H].
Qed.

(** From the low clock on, [n] clocks of the next period. *)
Lemma rate_rise N c n : rate N (N - 1) c -> out_handler c = true -> (n < Z.to_nat (N - 1))%nat ->
  let c' := steps (Z.of_nat (S n)) c in
  rate N (Z.of_nat n) c' /\ out_handler c' = true /\ out_calls c' = out_calls c ++ [true].
Proof.
  intros R H. cbv zeta. induction n as [|n IH]; intros Hn.
  - change (steps _ c) with (clock_counter c).
    destruct (rating_calls N c ltac:(right; eauto) H) as [A B].
    pose proof (rate_step N (N - 1) c R) as S1. replace ((N - 1 + 1) mod N) with 0 in S1
      by (rewrite Z.sub_add; symmetry; apply Z.mod_same; lia).
    split; [exact S1|]. split; [exact B|]. rewrite A, (rate_OUT _ _ _ S1), (rate_OUT _ _ _ R), Z.eqb_refl.
    destruct (Z.eqb_spec 0 (N - 1)); [lia | reflexivity].
  - destruct IH as (R1 & H1 & K1); [lia|]. replace (Z.of_nat (S (S n))) with (Z.of_nat (S n) + 1) by lia.
    rewrite steps_succ by lia. destruct (rating_calls N _ ltac:(right; eauto) H1) as [A B].
    pose proof (rate_step N _ _ R1) as S1. rewrite Z.mod_small in S1 by lia.
    replace (Z.of_nat (S n)) with (Z.of_nat n + 1) at 1 by lia.
    split; [exact S1|]. split; [exact B|]. rewrite A, K1, (rate_OUT _ _ _ S1), (rate_OUT _ _ _ R1).
    destruct (Z.eqb_spec (Z.of_nat n) (N - 1)), (Z.eqb_spec (Z.of_nat n + 1) (N - 1)); try lia. apply app_nil_r.
Qed.

(** C11: the timer interrupt, from the oscillator to the processor: with the device
    connected to idle 8259s that let line 0 pass, and OUT in its low clock, the
    firing of the virtual timer that lets between 1 and [N - 1] ticks pass
    asserts INTR, and the acknowledge that follows yields the vector the guest
    programmed for line 0. *)
Theorem timer_interrupt N t0 x (d : bx_pit_c (W := Pic.bx_pic_c * unit)) : connected d -> punctual t0 d ->
  let t := last_usec (s d) in
  0 <= x <= 10 ^ 9 -> t + x < 2 ^ 64 -> rate N (N - 1) (the_counter 0 d) ->
  1 <= ticks (t + x - t0) - ticks (t - t0) < N ->
  idle (fst (irqs d)) -> line_ready 0 (fst (irqs d)) ->
  let w := fst (irqs (handle_timer (t + x) d)) in
  intr w = true /\ fst (IAC w) = line_vector 0 (fst (irqs d)).
Proof.
  intros C P t Hx Hw R Hn Id Ready w. set (n := ticks (t + x - t0) - ticks (t - t0)) in *.
  destruct (run_follows [Timer (t + x)] d C) as [l [_ _ K I]]. cbn [dev_run fold_left dev_step] in K, I.
  pose proof (counter_after N [Timer (t + x)] t0 d P ltac:(right; eauto) ltac:(cbn; fold t; lia) ltac:(repeat constructor)) as E.
  cbn [dev_run fold_left dev_step end_time dev_time] in E. fold t n in E. rewrite E in K.
  destruct (rate_rise N _ (Z.to_nat (n - 1)) R (cn_handler d C) ltac:(lia)) as (_ & _ & K').
  replace (Z.of_nat (S (Z.to_nat (n - 1)))) with n in K' by lia. rewrite K' in K. apply app_inv_head in K. subst l.
  cbn [fold_left drive DEV_pic_raise_irq pic_lines] in I. subst w. rewrite I. clear - Id Ready.
  destruct (irqs d) as [p []]. cbn [fst] in *. change (fst (raise_irq 0 (p, tt))) with (raise_irq_pins pic_service 0 p).
  destruct (raise_master 0 p Id ltac:(lia) Ready) as [-> Hu].
  rewrite IAC_direct; [split; reflexivity | exact Hu | discriminate].
Qed.

(** ** Witnesses *)

(** The device of a PC: the 8259s let IRQ 0 pass, the guest programs counter 0
    with the divisor 4 in mode 2. *)
Definition new_device : bx_pit_c (W := Pic.bx_pic_c * unit) :=
  PitDev (S_type blank_chip false false false 0 0 0 0 false) (Pic.write 0x21 0xFE pic_c_init, tt) [].

Definition programmed : bx_pit_c (W := Pic.bx_pic_c * unit) :=
  dev_run [Write 0x43 0x34 1000; Write 0x40 4 1000; Write 0x40 0 1000] (Pit.init 1000 new_device).

Ltac counters_ok :=
  let k := fresh in intros k ?; assert (k = 0 \/ k = 1 \/ k = 2) as [->|[->| ->]]
    by (unfold MAX_COUNTER in *; lia); split; vm_compute; try (split; congruence); congruence.


(** Three periods; the line follows. *)
Lemma irq0_follows_OUT_witness :
  let d' := dev_run [Timer 1004; Write 0x42 7 1005; Timer 1014] programmed in
  level0 (irqs d') = OUT0 d' /\ out_calls (the_counter 0 d') = [false; true; false; true; false; true; false].
Proof.
  assert (C : connected programmed) by (split; [counters_ok | reflexivity..]).
  destruct (irq0_follows_OUT [Timer 1004; Write 0x42 7 1005; Timer 1014] programmed C) as [[[H _]|H] _].
  - exfalso. vm_compute in H. discriminate.
  - split; [exact H | vm_compute; reflexivity].
Defined.

(** The first interrupt, 2 microseconds after the low clock at 1004. *)
Lemma timer_interrupt_witness :
  let d := handle_timer 1004 programmed in
  let w := fst (irqs (handle_timer (1004 + 2) d)) in
  intr w = true /\ fst (IAC w) = 0x08.
Proof.
  assert (C : connected (handle_timer 1004 programmed)) by (split; [counters_ok | vm_compute; reflexivity..]).
  assert (P : punctual 1000 (handle_timer 1004 programmed))
    by (split; [vm_compute; split; congruence | vm_compute; reflexivity.. | counters_ok]).
  assert (L : last_usec (s (handle_timer 1004 programmed)) = 1004) by (vm_compute; reflexivity).
  assert (R : rate 4 (4 - 1) (the_counter 0 (handle_timer 1004 programmed)))
    by (split; vm_compute; repeat split; congruence).
  assert (I : idle (fst (irqs (handle_timer 1004 programmed)))).
  { split; [|vm_compute; reflexivity..].
    split; try (vm_compute; reflexivity); (split; try (vm_compute; reflexivity)); vm_compute; split; congruence. }
  assert (Y : line_ready 0 (fst (irqs (handle_timer 1004 programmed)))) by (vm_compute; split; reflexivity).
  assert (V : line_vector 0 (fst (irqs (handle_timer 1004 programmed))) = 8) by (vm_compute; reflexivity).
  revert C P L R I Y V. generalize (handle_timer 1004 programmed). intros d C P L R I Y V.
  pose proof (timer_interrupt 4 1000 2 d C P) as T. cbv zeta in T. rewrite L, V in T.
  apply T; try assumption; try lia. vm_compute. split; congruence.
Defined.
