(* ===== verification/Lapic.v ===== *)
(** * The local APIC and the APIC bus (cpu/apic.h, cpu/apic.cc)

    One [bx_local_apic_c] is the registers, the timers' state and what the class
    does to its processor: the pending LAPIC interrupt ([signal_event] and
    [clear_event] of BX_EVENT_PENDING_LAPIC_INTR) and a log of the other messages.
    The timers of pc_system are outside: the calls to them are logged, and
    [bx_pc_system.time_ticks()] is an argument [now].  The bus is the list of all
    local APICs; a message may come back to its sender. *)

From Stdlib Require Import ZArith Lia List Bool.
From S2P Require Import Prelude ScalarArith.
Import ListNotations.
Open Scope Z_scope.

Definition APIC_EDGE_TRIGGERED := 0.
Definition APIC_LEVEL_TRIGGERED := 1.
Definition BX_LAPIC_BASE_ADDR := 0xfee00000.
Definition BX_APIC_GLOBALLY_DISABLED := 0.
Definition BX_APIC_XAPIC_MODE := 2.
Definition BX_APIC_X2APIC_MODE := 3.
Definition BX_XAPIC_EXT_SUPPORT_IER := 1.
Definition BX_XAPIC_EXT_SUPPORT_SEOI := 2.

Definition BX_LAPIC_ID := 0x020.
Definition BX_LAPIC_VERSION := 0x030.
Definition BX_LAPIC_TPR := 0x080.
Definition BX_LAPIC_ARBITRATION_PRIORITY := 0x090.
Definition BX_LAPIC_PPR := 0x0A0.
Definition BX_LAPIC_EOI := 0x0B0.
Definition BX_LAPIC_RRD := 0x0C0.
Definition BX_LAPIC_LDR := 0x0D0.
Definition BX_LAPIC_DESTINATION_FORMAT := 0x0E0.
Definition BX_LAPIC_SPURIOUS_VECTOR := 0x0F0.
Definition BX_LAPIC_ISR1 := 0x100.
Definition BX_LAPIC_TMR1 := 0x180.
Definition BX_LAPIC_IRR1 := 0x200.
Definition BX_LAPIC_ESR := 0x280.
Definition BX_LAPIC_LVT_CMCI := 0x2F0.
Definition BX_LAPIC_ICR_LO := 0x300.
Definition BX_LAPIC_ICR_HI := 0x310.
Definition BX_LAPIC_LVT_TIMER := 0x320.
Definition BX_LAPIC_LVT_ERROR := 0x370.
Definition BX_LAPIC_TIMER_INITIAL_COUNT := 0x380.
Definition BX_LAPIC_TIMER_CURRENT_COUNT := 0x390.
Definition BX_LAPIC_TIMER_DIVIDE_CFG := 0x3E0.
Definition BX_LAPIC_SELF_IPI := 0x3F0.
Definition BX_LAPIC_EXT_APIC_FEATURE := 0x400.
Definition BX_LAPIC_EXT_APIC_CONTROL := 0x410.
Definition BX_LAPIC_SPECIFIC_EOI := 0x420.
Definition BX_LAPIC_IER1 := 0x480.

Definition APIC_DM_FIXED := 0.
Definition APIC_DM_LOWPRI := 1.
Definition APIC_DM_SMI := 2.
Definition APIC_DM_NMI := 4.
Definition APIC_DM_INIT := 5.
Definition APIC_DM_SIPI := 6.
Definition APIC_DM_EXTINT := 7.

Definition APIC_LVT_TIMER := 0.
Definition APIC_LVT_CMCI := 6.
Definition APIC_LVT_ENTRIES := 7.

Definition APIC_ERR_ILLEGAL_ADDR := 0x80.
Definition APIC_ERR_RX_ILLEGAL_VEC := 0x40.
Definition APIC_ERR_TX_ACCEPT_ERR := 0x04.

Definition BX_LAPIC_FIRST_VECTOR := 0x10.

Inductive lapic_timer := LapicTimer | VmxTimer | MwaitxTimer.

(** Calls to pc_system; a handle is one of the three registered timers.
    [ActivateHandle h] is the call with the number [h] for a handle. *)
Inductive timer_call :=
| Activate (handle : lapic_timer) (ticks : Z)
| ActivateHandle (handle : Z) (ticks : Z)
| Deactivate (handle : lapic_timer).

(** Messages to the processor and the I/O APIC, and panics. *)
Inductive lapic_event :=
| DeliverSMI | DeliverNMI | DeliverINIT | DeliverSIPI (vector : Z)
| VmxPreemptionTimerExpired | WakeupMonitor
| IoapicEOI (vector : Z)
| PanicAckWithoutINTR | PanicTimerCount.

(** An array [Bit32u[8]] or [Bit32u[APIC_LVT_ENTRIES]]. *)
Definition regs := Z -> Z.
Definition set_reg (k v : Z) (r : regs) : regs := fun j => if j =? k then v else r j.

(** The fields for the timers. *)
Record apic_timers := Timers {
  timer_initial : Z;
  timer_current : Z;
  ticksInitial : Z;              (* Bit64u *)
  timer_divconf : Z;
  timer_divide_factor : Z;
  timer_active : bool;
  vmx_preemption_timer_value : Z;
  vmx_preemption_timer_initial : Z;
  vmx_preemption_timer_fire : Z;
  vmx_preemption_timer_rate : Z;
  vmx_timer_active : bool;
  mwaitx_timer_active : bool;
}.

(** [cpu]: its pending interrupt, the extensions it supports, what was sent to it. *)
Record apic_cpu := Cpu {
  LAPIC_INTR : bool;
  BX_ISA_XAPIC_EXT : bool;
  BX_ISA_TSC_DEADLINE : bool;
  events : list lapic_event;
  timer_calls : list timer_call;
}.

Record bx_local_apic_c := Lapic {
  base_addr : Z;
  mode : Z;
  xapic : bool;
  xapic_ext : Z;
  apic_id : Z;
  apic_version_id : Z;
  software_enabled : bool;
  spurious_vector : Z;
  focus_disable : bool;
  task_priority : Z;
  ldr : Z;
  dest_format : Z;
  isr : regs;
  tmr : regs;
  irr : regs;
  ier : regs;
  error_status : Z;
  shadow_error_status : Z;
  icr_hi : Z;
  icr_lo : Z;
  lvt : regs;
  timers : apic_timers;
  cpu : apic_cpu;
}.

#[export] Instance timers_eta : Eta apic_timers := fun t =>
  Timers (timer_initial t) (timer_current t) (ticksInitial t) (timer_divconf t) (timer_divide_factor t)
    (timer_active t) (vmx_preemption_timer_value t) (vmx_preemption_timer_initial t)
    (vmx_preemption_timer_fire t) (vmx_preemption_timer_rate t) (vmx_timer_active t) (mwaitx_timer_active t).

#[export] Instance cpu_eta : Eta apic_cpu := fun c =>
  Cpu (LAPIC_INTR c) (BX_ISA_XAPIC_EXT c) (BX_ISA_TSC_DEADLINE c) (events c) (timer_calls c).

#[export] Instance lapic_eta : Eta bx_local_apic_c := fun a =>
  Lapic (base_addr a) (mode a) (xapic a) (xapic_ext a) (apic_id a) (apic_version_id a) (software_enabled a)
    (spurious_vector a) (focus_disable a) (task_priority a) (ldr a) (dest_format a) (isr a) (tmr a) (irr a) (ier a)
    (error_status a) (shadow_error_status a) (icr_hi a) (icr_lo a) (lvt a) (timers a) (cpu a).

Definition on_cpu (f : apic_cpu -> apic_cpu) (a : bx_local_apic_c) : bx_local_apic_c := a <| cpu := f (cpu a) |>.
Definition on_timers (f : apic_timers -> apic_timers) (a : bx_local_apic_c) : bx_local_apic_c :=
  a <| timers := f (timers a) |>.
Definition set_INTR (v : bool) : bx_local_apic_c -> bx_local_apic_c := on_cpu (fun c => c <| LAPIC_INTR := v |>).
Definition event (e : lapic_event) : bx_local_apic_c -> bx_local_apic_c :=
  on_cpu (fun c => c <| events := events c ++ [e] |>).
Definition pc_system (t : timer_call) : bx_local_apic_c -> bx_local_apic_c :=
  on_cpu (fun c => c <| timer_calls := timer_calls c ++ [t] |>).
Definition INTR (a : bx_local_apic_c) : bool := LAPIC_INTR (cpu a).

(** ** Vectors *)

Definition get_vector (reg : regs) (vector : Z) : bool :=
  negb (Z.land (Z.shiftr (reg (vector / 32)) (vector mod 32)) 0x1 =? 0).
Definition set_vector (reg : regs) (vector : Z) : regs :=
  set_reg (vector / 32) (set_bit (reg (vector / 32)) (vector mod 32)) reg.
Definition clear_vector (reg : regs) (vector : Z) : regs :=
  set_reg (vector / 32) (clear_bit (reg (vector / 32)) (vector mod 32)) reg.

(** The body for one register of the loop [for (reg=7; reg>=0; reg--)]. *)
Definition first_in (a : bx_local_apic_c) (array : regs) (reg : Z) : option Z :=
  let tmp := Z.land (array reg) (ier a reg) in
  if negb (tmp =? 0) then Some (reg * 32 + (31 - lzcntd tmp)) else None.

Definition highest_priority_int (a : bx_local_apic_c) (array : regs) : Z :=
  fold_right (fun reg below => match first_in a array reg with Some vector => vector | None => below end)
    (-1) [7; 6; 5; 4; 3; 2; 1; 0].

(** ** Interrupts *)

Definition service_local_apic (a : bx_local_apic_c) : bx_local_apic_c :=
  if INTR a then a
  else
    let first_irr := highest_priority_int a (irr a) in
    if first_irr <? 0 then a
    else
      let first_isr := highest_priority_int a (isr a) in
      if (first_isr >=? 0) && (first_irr <=? first_isr) then a
      else if Z.land first_irr 0xf0 <=? Z.land (task_priority a) 0xf0 then a
      else set_INTR true a.

Definition trigger_irq (vector trigger_mode : Z) (bypass_irr_isr : bool) (a : bx_local_apic_c) : bx_local_apic_c :=
  if vector <? BX_LAPIC_FIRST_VECTOR then
    a <| shadow_error_status := Z.lor (shadow_error_status a) APIC_ERR_RX_ILLEGAL_VEC |>
  else if negb bypass_irr_isr && get_vector (irr a) vector then a
  else
    let a := a <| irr := set_vector (irr a) vector |> in
    let a := a <| tmr := if negb (trigger_mode =? 0) then set_vector (tmr a) vector else clear_vector (tmr a) vector |> in
    service_local_apic a.

Definition untrigger_irq (vector : Z) (a : bx_local_apic_c) : bx_local_apic_c :=
  a <| irr := clear_vector (irr a) vector |>.

(** Bit8u: the result of [highest_priority_int] is below 256. *)
Definition get_ppr (a : bx_local_apic_c) : Z :=
  let ppr := highest_priority_int a (isr a) in
  u8 (if (ppr <? 0) || (Z.land (task_priority a) 0xF0 >=? Z.land ppr 0xF0) then task_priority a else Z.land ppr 0xF0).

Definition acknowledge_int (a : bx_local_apic_c) : Z * bx_local_apic_c :=
  let a := if negb (INTR a) then event PanicAckWithoutINTR a else a in
  let vector := highest_priority_int a (irr a) in
  if (vector <? 0) || (Z.land vector 0xf0 <=? get_ppr a) then (spurious_vector a, set_INTR false a)
  else
    let a := a <| irr := clear_vector (irr a) vector |> in
    let a := a <| isr := set_vector (isr a) vector |> in
    (u8 vector, service_local_apic (set_INTR false a)).

(** The part of [receive_EOI] and [receive_SEOI] for a vector in service. *)
Definition end_of_interrupt (vec : Z) (a : bx_local_apic_c) : bx_local_apic_c :=
  let a := a <| isr := clear_vector (isr a) vec |> in
  let a := if get_vector (tmr a) vec
           then event (IoapicEOI vec) a <| tmr := clear_vector (tmr a) vec |> else a in
  service_local_apic a.

Definition receive_EOI (a : bx_local_apic_c) : bx_local_apic_c :=
  let vec := highest_priority_int a (isr a) in
  if vec <? 0 then a
  else if negb (vec =? spurious_vector a) then end_of_interrupt vec a
  else a.

Definition receive_SEOI (vec : Z) (a : bx_local_apic_c) : bx_local_apic_c :=
  if Z.land (xapic_ext a) BX_XAPIC_EXT_SUPPORT_SEOI =? 0 then a
  else if get_vector (isr a) vec then end_of_interrupt vec a
  else a.

Definition set_tpr (priority : Z) (a : bx_local_apic_c) : bx_local_apic_c :=
  if priority <? task_priority a then service_local_apic (a <| task_priority := priority |>)
  else a <| task_priority := priority |>.

Definition get_apr (a : bx_local_apic_c) : Z :=
  let tpr := Z.land (Z.shiftr (task_priority a) 4) 0xf in
  let first_isr := Z.max 0 (highest_priority_int a (isr a)) in
  let first_irr := Z.max 0 (highest_priority_int a (irr a)) in
  let isrv := Z.land (Z.shiftr first_isr 4) 0xf in
  let irrv := Z.land (Z.shiftr first_irr 4) 0xf in
  if (tpr >=? irrv) && (tpr >? isrv) then Z.land (task_priority a) 0xff
  else u8 (Z.shiftl (if Z.land tpr isrv >? irrv then Z.land tpr isrv else irrv) 4).

Definition is_focus (vector : Z) (a : bx_local_apic_c) : bool :=
  if focus_disable a then false else get_vector (irr a) vector || get_vector (isr a) vector.

(** A panic of the unsupported format is not a message; it leaves the state. *)
Definition match_logical_addr (address : Z) (a : bx_local_apic_c) : bool :=
  if mode a =? BX_APIC_X2APIC_MODE then
    if address =? 0xffffffff then true
    else if Z.land address 0xffff0000 =? Z.land (ldr a) 0xffff0000
         then negb (Z.land (Z.land address (ldr a)) 0x0000ffff =? 0) else false
  else if dest_format a =? 0xf then negb (Z.land address (ldr a) =? 0)
  else if dest_format a =? 0 then
    if address =? 0xff then true
    else if Z.land address 0xf0 =? Z.land (ldr a) 0xf0
         then negb (Z.land (Z.land address (ldr a)) 0x0f =? 0) else false
  else false.

(** The result is ignored by every caller. *)
Definition deliver (vector delivery_mode trig_mode : Z) (a : bx_local_apic_c) : bx_local_apic_c :=
  if (delivery_mode =? APIC_DM_FIXED) || (delivery_mode =? APIC_DM_LOWPRI) then trigger_irq vector trig_mode false a
  else if delivery_mode =? APIC_DM_SMI then event DeliverSMI a
  else if delivery_mode =? APIC_DM_NMI then event DeliverNMI a
  else if delivery_mode =? APIC_DM_INIT then event DeliverINIT a
  else if delivery_mode =? APIC_DM_SIPI then event (DeliverSIPI vector) a
  else if delivery_mode =? APIC_DM_EXTINT then trigger_irq vector trig_mode true a
  else a.

(** ** Timers *)

Definition deactivate_if_active (a : bx_local_apic_c) : bx_local_apic_c :=
  if timer_active (timers a) then on_timers (fun t => t <| timer_active := false |>) (pc_system (Deactivate LapicTimer) a)
  else a.

Definition periodic (now : Z) (a : bx_local_apic_c) : bx_local_apic_c :=
  if negb (timer_active (timers a)) then a
  else
    let timervec := lvt a APIC_LVT_TIMER in
    let a := if Z.land timervec 0x10000 =? 0
             then trigger_irq (Z.land timervec 0xff) APIC_EDGE_TRIGGERED false a else a in
    if negb (Z.land timervec 0x20000 =? 0) then
      let a := on_timers (fun t => t <| timer_current := timer_initial t |> <| timer_active := true |>
                                     <| ticksInitial := now |>) a in
      pc_system (Activate LapicTimer (u64 (timer_initial (timers a) * timer_divide_factor (timers a)))) a
    else
      pc_system (Deactivate LapicTimer) (on_timers (fun t => t <| timer_current := 0 |> <| timer_active := false |>) a).

(** The argument is masked by the caller: [value == (value & 0x0b)]. *)
Definition set_divide_configuration (value : Z) (a : bx_local_apic_c) : bx_local_apic_c :=
  let value := Z.lor (Z.shiftr (Z.land value 8) 1) (Z.land value 3) in
  on_timers (fun t => t <| timer_divide_factor := if value =? 7 then 1 else Z.shiftl 2 value |>) a.

Definition set_initial_timer_count (value now : Z) (a : bx_local_apic_c) : bx_local_apic_c :=
  if negb (Z.land (lvt a APIC_LVT_TIMER) 0x40000 =? 0) then a
  else
    let a := deactivate_if_active a in
    let a := on_timers (fun t => t <| timer_initial := value |> <| timer_current := 0 |>) a in
    if negb (value =? 0) then
      let a := on_timers (fun t => t <| timer_current := timer_initial t |> <| timer_active := true |>
                                     <| ticksInitial := now |>) a in
      pc_system (Activate LapicTimer (u64 (timer_initial (timers a) * timer_divide_factor (timers a)))) a
    else a.

Definition get_current_timer_count (now : Z) (a : bx_local_apic_c) : Z * bx_local_apic_c :=
  if negb (Z.land (lvt a APIC_LVT_TIMER) 0x40000 =? 0) then (0, a)
  else if negb (timer_active (timers a)) then (timer_current (timers a), a)
  else
    let delta64 := u64 (now - ticksInitial (timers a)) / timer_divide_factor (timers a) in
    let delta32 := u32 delta64 in
    let a := if delta32 >? timer_initial (timers a) then event PanicTimerCount a else a in
    let a := on_timers (fun t => t <| timer_current := u32 (timer_initial t - delta32) |>) a in
    (timer_current (timers a), a).

Definition set_tsc_deadline (deadline now : Z) (a : bx_local_apic_c) : bx_local_apic_c :=
  if Z.land (lvt a APIC_LVT_TIMER) 0x40000 =? 0 then a
  else
    let a := deactivate_if_active a in
    let a := on_timers (fun t => t <| ticksInitial := deadline |>) a in
    if negb (deadline =? 0) then
      pc_system (Activate LapicTimer (if deadline >? now then deadline - now else 1))
        (on_timers (fun t => t <| timer_active := true |>) a)
    else a.

Definition get_tsc_deadline (a : bx_local_apic_c) : Z :=
  if Z.land (lvt a APIC_LVT_TIMER) 0x40000 =? 0 then 0 else ticksInitial (timers a).

Definition read_vmx_preemption_timer (now : Z) (a : bx_local_apic_c) : Z :=
  let t := timers a in
  let diff := u64 (Z.shiftr now (vmx_preemption_timer_rate t) - Z.shiftr (vmx_preemption_timer_initial t) (vmx_preemption_timer_rate t)) in
  if vmx_preemption_timer_value t <? diff then 0 else u32 (vmx_preemption_timer_value t - diff).

Definition set_vmx_preemption_timer (value now : Z) (a : bx_local_apic_c) : bx_local_apic_c :=
  let a := on_timers (fun t => t <| vmx_preemption_timer_value := value |> <| vmx_preemption_timer_initial := now |>) a in
  let a := on_timers (fun t => t <| vmx_preemption_timer_fire :=
    u64 (Z.shiftl (u64 (Z.shiftr (vmx_preemption_timer_initial t) (vmx_preemption_timer_rate t) + value)) (vmx_preemption_timer_rate t)) |>) a in
  let a := pc_system (Activate VmxTimer (u64 (vmx_preemption_timer_fire (timers a) - vmx_preemption_timer_initial (timers a)))) a in
  on_timers (fun t => t <| vmx_timer_active := true |>) a.

Definition deactivate_vmx_preemption_timer (a : bx_local_apic_c) : bx_local_apic_c :=
  if negb (vmx_timer_active (timers a)) then a
  else on_timers (fun t => t <| vmx_timer_active := false |>) (pc_system (Deactivate VmxTimer) a).

Definition vmx_preemption_timer_expired (a : bx_local_apic_c) : bx_local_apic_c :=
  deactivate_vmx_preemption_timer (event VmxPreemptionTimerExpired a).

(** The timer activated is the one with the number [mwaitx_timer_active], as in the
    code. *)
Definition set_mwaitx_timer (value : Z) (a : bx_local_apic_c) : bx_local_apic_c :=
  let a := pc_system (ActivateHandle (Z.b2z (mwaitx_timer_active (timers a))) value) a in
  on_timers (fun t => t <| mwaitx_timer_active := true |>) a.

Definition deactivate_mwaitx_timer (a : bx_local_apic_c) : bx_local_apic_c :=
  if negb (mwaitx_timer_active (timers a)) then a
  else on_timers (fun t => t <| mwaitx_timer_active := false |>) (pc_system (Deactivate MwaitxTimer) a).

Definition mwaitx_timer_expired (a : bx_local_apic_c) : bx_local_apic_c :=
  deactivate_mwaitx_timer (event WakeupMonitor a).

(** ** Configuration *)

Definition mask_lvt (a : bx_local_apic_c) : bx_local_apic_c :=
  a <| lvt := fun i => if (0 <=? i) && (i <? APIC_LVT_ENTRIES) then Z.lor (lvt a i) 0x10000 else lvt a i |>.

Definition write_spurious_interrupt_register (value : Z) (a : bx_local_apic_c) : bx_local_apic_c :=
  let a := a <| spurious_vector := if xapic a then Z.land value 0xff else Z.lor (Z.land value 0xf0) 0xf |> in
  let a := a <| software_enabled := negb (Z.land (Z.shiftr value 8) 1 =? 0) |>
             <| focus_disable := negb (Z.land (Z.shiftr value 9) 1 =? 0) |> in
  if negb (software_enabled a) then mask_lvt a else a.

Definition lvt_mask : list Z := [0x000710ff; 0x000117ff; 0x000117ff; 0x0001f7ff; 0x0001f7ff; 0x000110ff; 0x000117ff].

Definition set_lvt_entry (apic_reg value : Z) (a : bx_local_apic_c) : bx_local_apic_c :=
  let lvt_entry := if apic_reg =? BX_LAPIC_LVT_CMCI then APIC_LVT_CMCI else Z.shiftr (apic_reg - BX_LAPIC_LVT_TIMER) 4 in
  let timer := apic_reg =? BX_LAPIC_LVT_TIMER in
  let value' := if timer && negb (BX_ISA_TSC_DEADLINE (cpu a)) then Z.land value (Z.lnot 0x40000) else value in
  let a := if timer && BX_ISA_TSC_DEADLINE (cpu a) && negb (Z.land (Z.lxor value (lvt a lvt_entry)) 0x40000 =? 0)
           then deactivate_if_active a else a in
  let v := Z.land value' (nth (Z.to_nat lvt_entry) lvt_mask 0) in
  a <| lvt := set_reg lvt_entry (if negb (software_enabled a) then Z.lor v 0x10000 else v) (lvt a) |>.

Definition reset_timers (t : apic_timers) : apic_timers :=
  t <| timer_divconf := 0 |> <| timer_divide_factor := 1 |> <| timer_initial := 0 |> <| timer_current := 0 |>
    <| ticksInitial := 0 |>.

Definition reset (a : bx_local_apic_c) : bx_local_apic_c :=
  let a := a <| base_addr := BX_LAPIC_BASE_ADDR |> <| shadow_error_status := 0 |> <| error_status := 0 |> <| ldr := 0 |>
             <| dest_format := 0xf |> <| icr_hi := 0 |> <| icr_lo := 0 |> <| task_priority := 0 |>
             <| irr := fun _ => 0 |> <| isr := fun _ => 0 |> <| tmr := fun _ => 0 |> <| ier := fun _ => 0xFFFFFFFF |> in
  let a := deactivate_if_active (on_timers reset_timers a) in
  let a := deactivate_mwaitx_timer (deactivate_vmx_preemption_timer a) in
  a <| lvt := fun _ => 0x10000 |> <| spurious_vector := 0xff |> <| software_enabled := false |> <| focus_disable := false |>
    <| mode := BX_APIC_XAPIC_MODE |> <| apic_version_id := if xapic a then 0x00050014 else 0x00030010 |> <| xapic_ext := 0 |>.

Definition enable_xapic_extensions (a : bx_local_apic_c) : bx_local_apic_c :=
  a <| apic_version_id := Z.lor (apic_version_id a) 0x80000000 |>
    <| xapic_ext := Z.lor BX_XAPIC_EXT_SUPPORT_IER BX_XAPIC_EXT_SUPPORT_SEOI |>.

Definition set_base (newbase : Z) (a : bx_local_apic_c) : bx_local_apic_c :=
  let a := if mode a =? BX_APIC_X2APIC_MODE
           then a <| ldr := u32 (Z.lor (Z.shiftl (Z.land (apic_id a) 0xfffffff0) 16) (Z.shiftl 1 (Z.land (apic_id a) 0xf))) |> else a in
  let a := a <| mode := Z.land (Z.shiftr newbase 10) 3 |> <| base_addr := Z.land newbase (Z.lnot 0xfff) |> in
  if mode a =? BX_APIC_GLOBALLY_DISABLED then write_spurious_interrupt_register 0xff a else a.

Definition is_selected (addr : Z) (a : bx_local_apic_c) : bool :=
  if negb (mode a =? BX_APIC_XAPIC_MODE) then false else Z.land addr (Z.lnot 0xfff) =? base_addr a.

(** ** The bus *)

Section Bus.
Variable apic_id_mask : Z.   (* 0xFF with xAPIC, else 0xF *)

Definition apics := list bx_local_apic_c.

Fixpoint on_apic (i : nat) (f : bx_local_apic_c -> bx_local_apic_c) (l : apics) {struct l} : apics :=
  match l, i with
  | [], _ => []
  | a :: l, O => f a :: l
  | a :: l, S i => a :: on_apic i f l
  end.

(** The first index that satisfies the test: [for (...) if (...) { ...; return }]. *)
Fixpoint find_apic (f : bx_local_apic_c -> bool) (i : nat) (l : apics) : option nat :=
  match l with
  | [] => None
  | a :: l => if f a then Some i else find_apic f (S i) l
  end.

(** [lowest_priority] and the agent that has it. *)
Fixpoint lowest_agent (eligible : bx_local_apic_c -> bool) (i : nat) (lowest : Z) (agent : option nat) (l : apics)
  : option nat :=
  match l with
  | [] => agent
  | a :: l =>
      let priority := if xapic a then u8 (task_priority a) else get_apr a in
      if eligible a && (priority <? lowest) then lowest_agent eligible (S i) priority (Some i) l
      else lowest_agent eligible (S i) lowest agent l
  end.

Definition apic_bus_deliver_lowest_priority (vector dest trig_mode : Z) (broadcast : bool) (l : apics) : bool * apics :=
  let focus := match l with
               | a :: _ => if negb (xapic a) then find_apic (is_focus vector) 0 l else None
               | [] => None
               end in
  match focus with
  | Some i => (true, on_apic i (deliver vector APIC_DM_LOWPRI trig_mode) l)
  | None =>
      match lowest_agent (fun a => broadcast || match_logical_addr dest a) 0 0x100 None l with
      | Some i => (true, on_apic i (deliver vector APIC_DM_LOWPRI trig_mode) l)
      | None => (false, l)
      end
  end.

Fixpoint deliver_all_but (exclude_cpu : Z) (vector delivery_mode trig_mode : Z) (i : Z) (l : apics) : apics :=
  match l with
  | [] => []
  | a :: l => (if i =? exclude_cpu then a else deliver vector delivery_mode trig_mode a)
              :: deliver_all_but exclude_cpu vector delivery_mode trig_mode (i + 1) l
  end.

Definition apic_bus_broadcast_interrupt (vector delivery_mode trig_mode exclude_cpu : Z) (l : apics) : bool * apics :=
  if delivery_mode =? APIC_DM_LOWPRI then apic_bus_deliver_lowest_priority vector 0 trig_mode true l
  else (true, deliver_all_but exclude_cpu vector delivery_mode trig_mode 0 l).

(** The argument [level] is not used. *)
Definition apic_bus_deliver_interrupt (vector dest delivery_mode : Z) (logical_dest : bool) (trig_mode : Z) (l : apics)
  : bool * apics :=
  if delivery_mode =? APIC_DM_LOWPRI then
    if negb logical_dest then (false, l)
    else apic_bus_deliver_lowest_priority vector dest trig_mode false l
  else if negb logical_dest then
    if Z.land dest apic_id_mask =? apic_id_mask
    then apic_bus_broadcast_interrupt vector delivery_mode trig_mode apic_id_mask l
    else match find_apic (fun a => apic_id a =? dest) 0 l with
         | Some i => (true, on_apic i (deliver vector delivery_mode trig_mode) l)
         | None => (false, l)
         end
  else if dest =? 0 then (false, l)
  else (existsb (match_logical_addr dest) l,
        map (fun a => if match_logical_addr dest a then deliver vector delivery_mode trig_mode a else a) l).

(** The sender is the APIC with index [i]. *)
Definition send_ipi (i : nat) (dest lo_cmd : Z) (l : apics) : apics :=
  let dest_shorthand := Z.land (Z.shiftr lo_cmd 18) 3 in
  let trig_mode := Z.land (Z.shiftr lo_cmd 15) 1 in
  let level := Z.land (Z.shiftr lo_cmd 14) 1 in
  let logical_dest := Z.land (Z.shiftr lo_cmd 11) 1 in
  let delivery_mode := Z.land (Z.shiftr lo_cmd 8) 7 in
  let vector := Z.land lo_cmd 0xff in
  if (delivery_mode =? APIC_DM_INIT) && (level =? 0) && (trig_mode =? 1) then l
  else
    let '(accepted, l) :=
      if dest_shorthand =? 0 then
        apic_bus_deliver_interrupt vector dest delivery_mode (negb (logical_dest =? 0)) trig_mode l
      else if dest_shorthand =? 1 then (true, on_apic i (trigger_irq vector trig_mode false) l)
      else if dest_shorthand =? 2 then apic_bus_broadcast_interrupt vector delivery_mode trig_mode apic_id_mask l
      else apic_bus_broadcast_interrupt vector delivery_mode trig_mode
             (match nth_error l i with Some a => apic_id a | None => 0 end) l in
    if accepted then l
    else on_apic i (fun a => a <| shadow_error_status := Z.lor (shadow_error_status a) APIC_ERR_TX_ACCEPT_ERR |>) l.

(** ** Registers *)

(** One of the 8 registers of an array that starts at [first]. *)
Definition in_array (first apic_reg : Z) : bool :=
  (first <=? apic_reg) && (apic_reg <=? first + 0x70) && (Z.land apic_reg 0xf =? 0).
Definition array_index (first apic_reg : Z) : Z := Z.shiftr (apic_reg - first) 4.
Definition is_lvt (apic_reg : Z) : bool := (BX_LAPIC_LVT_TIMER <=? apic_reg) && (apic_reg <=? BX_LAPIC_LVT_ERROR) && (Z.land apic_reg 0xf =? 0).

(** The register a 16-byte aligned address selects. *)
Definition register_of (addr : Z) (a : bx_local_apic_c) : Z :=
  let apic_reg := Z.land addr 0xff0 in
  if (apic_reg >=? 0x400) && negb (BX_ISA_XAPIC_EXT (cpu a)) then 0xffffffff else apic_reg.

Definition illegal_register (a : bx_local_apic_c) : bx_local_apic_c :=
  a <| shadow_error_status := Z.lor (shadow_error_status a) APIC_ERR_ILLEGAL_ADDR |>.

Definition read_aligned (addr now : Z) (a : bx_local_apic_c) : Z * bx_local_apic_c :=
  let apic_reg := register_of addr a in
  if apic_reg =? BX_LAPIC_ID then (u32 (Z.shiftl (apic_id a) 24), a)
  else if apic_reg =? BX_LAPIC_VERSION then (apic_version_id a, a)
  else if apic_reg =? BX_LAPIC_TPR then (Z.land (task_priority a) 0xff, a)
  else if apic_reg =? BX_LAPIC_ARBITRATION_PRIORITY then (get_apr a, a)
  else if apic_reg =? BX_LAPIC_PPR then (get_ppr a, a)
  else if apic_reg =? BX_LAPIC_EOI then (0, a)
  else if apic_reg =? BX_LAPIC_LDR then (u32 (Z.shiftl (Z.land (ldr a) apic_id_mask) 24), a)
  else if apic_reg =? BX_LAPIC_DESTINATION_FORMAT then (Z.lor (Z.shiftl (Z.land (dest_format a) 0xf) 28) 0x0fffffff, a)
  else if apic_reg =? BX_LAPIC_SPURIOUS_VECTOR then
    let reg := spurious_vector a in
    let reg := if software_enabled a then Z.lor reg 0x100 else reg in
    (if focus_disable a then Z.lor reg 0x200 else reg, a)
  else if in_array BX_LAPIC_ISR1 apic_reg then (isr a (array_index BX_LAPIC_ISR1 apic_reg), a)
  else if in_array BX_LAPIC_TMR1 apic_reg then (tmr a (array_index BX_LAPIC_TMR1 apic_reg), a)
  else if in_array BX_LAPIC_IRR1 apic_reg then (irr a (array_index BX_LAPIC_IRR1 apic_reg), a)
  else if apic_reg =? BX_LAPIC_ESR then (error_status a, a)
  else if apic_reg =? BX_LAPIC_ICR_LO then (icr_lo a, a)
  else if apic_reg =? BX_LAPIC_ICR_HI then (icr_hi a, a)
  else if is_lvt apic_reg then (lvt a (array_index BX_LAPIC_LVT_TIMER apic_reg), a)
  else if apic_reg =? BX_LAPIC_LVT_CMCI then (lvt a APIC_LVT_CMCI, a)
  else if apic_reg =? BX_LAPIC_TIMER_INITIAL_COUNT then (timer_initial (timers a), a)
  else if apic_reg =? BX_LAPIC_TIMER_CURRENT_COUNT then get_current_timer_count now a
  else if apic_reg =? BX_LAPIC_TIMER_DIVIDE_CFG then (timer_divconf (timers a), a)
  else if apic_reg =? BX_LAPIC_EXT_APIC_FEATURE then (Z.lor BX_XAPIC_EXT_SUPPORT_IER BX_XAPIC_EXT_SUPPORT_SEOI, a)
  else if apic_reg =? BX_LAPIC_EXT_APIC_CONTROL then (xapic_ext a, a)
  else if apic_reg =? BX_LAPIC_SPECIFIC_EOI then (0, a)
  else if in_array BX_LAPIC_IER1 apic_reg then (ier a (array_index BX_LAPIC_IER1 apic_reg), a)
  else (0, illegal_register a).

Definition read_only (apic_reg : Z) : bool :=
  existsb (Z.eqb apic_reg) [BX_LAPIC_ID; BX_LAPIC_VERSION; BX_LAPIC_ARBITRATION_PRIORITY; BX_LAPIC_RRD; BX_LAPIC_PPR;
    BX_LAPIC_TIMER_CURRENT_COUNT; BX_LAPIC_EXT_APIC_FEATURE] ||
  in_array BX_LAPIC_ISR1 apic_reg || in_array BX_LAPIC_TMR1 apic_reg || in_array BX_LAPIC_IRR1 apic_reg.

(** The writes that concern only the APIC itself. *)
Definition write_register (apic_reg value now : Z) (a : bx_local_apic_c) : bx_local_apic_c :=
  if apic_reg =? BX_LAPIC_TPR then set_tpr (Z.land value 0xff) a
  else if apic_reg =? BX_LAPIC_EOI then receive_EOI a
  else if apic_reg =? BX_LAPIC_LDR then a <| ldr := Z.land (Z.shiftr value 24) apic_id_mask |>
  else if apic_reg =? BX_LAPIC_DESTINATION_FORMAT then a <| dest_format := Z.land (Z.shiftr value 28) 0xf |>
  else if apic_reg =? BX_LAPIC_SPURIOUS_VECTOR then write_spurious_interrupt_register value a
  else if apic_reg =? BX_LAPIC_ESR then a <| error_status := shadow_error_status a |> <| shadow_error_status := 0 |>
  else if apic_reg =? BX_LAPIC_ICR_HI then a <| icr_hi := Z.land value 0xff000000 |>
  else if is_lvt apic_reg || (apic_reg =? BX_LAPIC_LVT_CMCI) then set_lvt_entry apic_reg value a
  else if apic_reg =? BX_LAPIC_TIMER_INITIAL_COUNT then set_initial_timer_count value now a
  else if apic_reg =? BX_LAPIC_TIMER_DIVIDE_CFG then
    set_divide_configuration (Z.land value 0xb) (on_timers (fun t => t <| timer_divconf := Z.land value 0xb |>) a)
  else if read_only apic_reg then a
  else if apic_reg =? BX_LAPIC_EXT_APIC_CONTROL then
    a <| xapic_ext := Z.land value (Z.lor BX_XAPIC_EXT_SUPPORT_IER BX_XAPIC_EXT_SUPPORT_SEOI) |>
  else if apic_reg =? BX_LAPIC_SPECIFIC_EOI then receive_SEOI (Z.land value 0xff) a
  else if in_array BX_LAPIC_IER1 apic_reg then
    if Z.land (xapic_ext a) BX_XAPIC_EXT_SUPPORT_IER =? 0 then a
    else a <| ier := set_reg (array_index BX_LAPIC_IER1 apic_reg) value (ier a) |>
  else illegal_register a.

Definition write_aligned (i : nat) (addr value now : Z) (l : apics) : apics :=
  match nth_error l i with
  | None => l
  | Some a =>
      let apic_reg := register_of addr a in
      if apic_reg =? BX_LAPIC_ICR_LO then
        let lo := Z.land value (Z.lnot (Z.shiftl 1 12)) in
        send_ipi i (Z.land (Z.shiftr (icr_hi a) 24) 0xff) lo (on_apic i (fun a => a <| icr_lo := lo |>) l)
      else on_apic i (write_register apic_reg value now) l
  end.

(** ** The x2APIC registers *)

(** [None]: the MSR access faults. *)
Definition read_x2apic (index now : Z) (a : bx_local_apic_c) : option (Z * bx_local_apic_c) :=
  let index := u32 (Z.shiftl (index - 0x800) 4) in
  if index =? BX_LAPIC_ID then Some (apic_id a, a)
  else if index =? BX_LAPIC_LDR then Some (ldr a, a)
  else if index =? BX_LAPIC_ICR_LO then Some (Z.lor (icr_lo a) (Z.shiftl (icr_hi a) 32), a)
  else if existsb (Z.eqb index) [BX_LAPIC_ARBITRATION_PRIORITY; BX_LAPIC_DESTINATION_FORMAT; BX_LAPIC_ICR_HI;
                                 BX_LAPIC_EOI; BX_LAPIC_SELF_IPI] then None
  else if existsb (Z.eqb index) [BX_LAPIC_VERSION; BX_LAPIC_TPR; BX_LAPIC_PPR; BX_LAPIC_SPURIOUS_VECTOR; BX_LAPIC_ESR;
                                 BX_LAPIC_LVT_CMCI; BX_LAPIC_TIMER_INITIAL_COUNT; BX_LAPIC_TIMER_CURRENT_COUNT;
                                 BX_LAPIC_TIMER_DIVIDE_CFG] ||
          in_array BX_LAPIC_ISR1 index || in_array BX_LAPIC_TMR1 index || in_array BX_LAPIC_IRR1 index || is_lvt index
  then Some (read_aligned index now a)
  else None.

(** The checks of the value written, [true] if the write goes on to [write_aligned]. *)
Definition x2apic_writable (index value : Z) : bool :=
  if index =? BX_LAPIC_TPR then Z.land value 0xffffff00 =? 0
  else if index =? BX_LAPIC_SPURIOUS_VECTOR then Z.land value 0xfffffe00 =? 0
  else if (index =? BX_LAPIC_EOI) || (index =? BX_LAPIC_ESR) then value =? 0
  else is_lvt index || existsb (Z.eqb index) [BX_LAPIC_LVT_CMCI; BX_LAPIC_TIMER_INITIAL_COUNT; BX_LAPIC_TIMER_DIVIDE_CFG].

Definition write_x2apic (i : nat) (index val32_hi val32_lo now : Z) (l : apics) : option apics :=
  let index := u32 (Z.shiftl (index - 0x800) 4) in
  if negb (index =? BX_LAPIC_ICR_LO) && negb (val32_hi =? 0) then None
  else if index =? BX_LAPIC_SELF_IPI then Some (on_apic i (trigger_irq (Z.land val32_lo 0xff) APIC_EDGE_TRIGGERED false) l)
  else if index =? BX_LAPIC_ICR_LO then Some (send_ipi i val32_hi val32_lo l)
  else if x2apic_writable index val32_lo then Some (write_aligned i index val32_lo now l)
  else None.

End Bus.
