(* ===== verification/LapicProps.v ===== *)
(** * The local APIC: priorities, no lost interrupt, acknowledge

    What [highest_priority_int] computes; the invariant that an interrupt above
    the processor priority is always signalled, through every message of the bus
    and every register write; the acknowledge and the end of interrupt. *)

From Stdlib Require Import ZArith Lia List Bool.
From S2P Require Import Prelude ScalarArith Lapic.
Import ListNotations.
Open Scope Z_scope.

(** ** Vectors *)

Definition vector (v : Z) : Prop := 0 <= v < 256.
Definition vbit (r : regs) (v : Z) : bool := Z.testbit (r (v / 32)) (v mod 32).
Definition regs_ok (r : regs) : Prop := forall k, fits 32 (r k).

Lemma mod_range v : 0 <= v mod 32 < 32.
Proof. apply Z.mod_pos_bound. lia. Qed.

Lemma get_vector_eq r v : get_vector r v = vbit r v.
Proof.
  unfold get_vector, vbit. rewrite shiftr_land_1 by apply mod_range. destruct (Z.testbit _ _); reflexivity.
Qed.

Lemma same_vector v w : (v / 32 = w / 32 /\ v mod 32 = w mod 32) <-> v = w.
Proof.
  split; [|intros ->; auto]. intros [D M]. rewrite (Z.div_mod v 32), (Z.div_mod w 32), D, M by lia. reflexivity.
Qed.

Lemma set_vector_bit r v w : vbit (set_vector r v) w = (v =? w) || vbit r w.
Proof.
  unfold vbit, set_vector, set_reg. pose proof (mod_range v). pose proof (same_vector v w) as S.
  destruct (Z.eqb_spec (w / 32) (v / 32)) as [D|D].
  - rewrite set_bit_testbit by lia. rewrite D. rewrite orb_comm. f_equal.
    apply eq_true_iff_eq. rewrite !Z.eqb_eq. split; [intros M; apply S; auto | intros ->; reflexivity].
  - destruct (Z.eqb_spec v w) as [->|]; [contradiction | reflexivity].
Qed.

Lemma clear_vector_bit r v w : vbit (clear_vector r v) w = negb (v =? w) && vbit r w.
Proof.
  unfold vbit, clear_vector, set_reg. pose proof (mod_range v). pose proof (same_vector v w) as S.
  destruct (Z.eqb_spec (w / 32) (v / 32)) as [D|D].
  - rewrite clear_bit_testbit by lia. rewrite D, andb_comm. do 2 f_equal.
    apply eq_true_iff_eq. rewrite !Z.eqb_eq. split; [intros M; apply S; auto | intros ->; reflexivity].
  - destruct (Z.eqb_spec v w) as [->|]; [contradiction | reflexivity].
Qed.

Lemma set_vector_ok r v : regs_ok r -> regs_ok (set_vector r v).
Proof.
  intros H k. unfold set_vector, set_reg. destruct (k =? v / 32); [|apply H].
  apply set_bit_fits; [apply mod_range | apply H].
Qed.

Lemma clear_vector_ok r v : regs_ok r -> regs_ok (clear_vector r v).
Proof.
  intros H k. unfold clear_vector, set_reg. destruct (k =? v / 32); [|apply H].
  apply clear_bit_fits; [lia | apply H].
Qed.

(** ** The highest vector *)

(** [h] is the highest vector of [f], or -1. *)
Definition highest (f : Z -> bool) (n h : Z) : Prop :=
  (h = -1 /\ forall v, 0 <= v < n -> f v = false) \/
  (0 <= h < n /\ f h = true /\ forall v, h < v < n -> f v = false).

Definition enabled_in (a : bx_local_apic_c) (r : regs) (v : Z) : bool := vbit r v && vbit (ier a) v.

Lemma vbit_reg k i r : 0 <= i < 32 -> vbit r (k * 32 + i) = Z.testbit (r k) i.
Proof.
  intros H. unfold vbit. rewrite Z.div_add_l, Z.div_small, Z.add_0_r by lia.
  rewrite Z.add_comm, Z.mod_add, Z.mod_small by lia. reflexivity.
Qed.

Lemma first_in_spec a r k : regs_ok r -> 0 <= k ->
  match first_in a r k with
  | Some h => k * 32 <= h < k * 32 + 32 /\ enabled_in a r h = true /\
              forall v, h < v < k * 32 + 32 -> enabled_in a r v = false
  | None => forall v, k * 32 <= v < k * 32 + 32 -> enabled_in a r v = false
  end.
Proof.
  intros H Hk. unfold first_in. set (t := Z.land (r k) (ier a k)).
  assert (F : fits 32 t) by (apply fits_land_l; [lia | apply H]).
  assert (B : forall v, k * 32 <= v < k * 32 + 32 -> enabled_in a r v = Z.testbit t (v - k * 32)).
  { intros v Hv. replace v with (k * 32 + (v - k * 32)) at 1 by lia. unfold enabled_in.
    rewrite !vbit_reg by lia. symmetry. apply Z.land_spec. }
  destruct (Z.eqb_spec t 0) as [E|E]; cbn [negb].
  - intros v Hv. rewrite B, E by exact Hv. apply Z.testbit_0_l.
  - rewrite lzcntd_spec by exact F. unfold leading_zeros. destruct (Z.eqb_spec t 0); [contradiction|].
    assert (P : 0 < t) by (destruct F; lia). pose proof (Z.log2_nonneg t). pose proof (Z.log2_lt_pow2 t 32 P) as L.
    destruct L as [L _]. specialize (L (proj2 F)).
    replace (31 - (32 - 1 - Z.log2 t)) with (Z.log2 t) by lia.
    split; [lia|]. split.
    + rewrite B by lia. replace (k * 32 + Z.log2 t - k * 32) with (Z.log2 t) by lia. apply Z.bit_log2, P.
    + intros v Hv. rewrite B by lia. apply Z.bits_above_log2; lia.
Qed.

(** The registers from [n - 1] downwards. *)
Fixpoint descending (n : nat) : list Z := match n with O => [] | S n => Z.of_nat n :: descending n end.

Lemma highest_descending a r n : regs_ok r ->
  highest (enabled_in a r) (32 * Z.of_nat n)
    (fold_right (fun reg below => match first_in a r reg with Some vector => vector | None => below end)
      (-1) (descending n)).
Proof.
  intros H. induction n as [|n IH]; [left; split; [reflexivity | lia]|]. cbn [descending fold_right].
  pose proof (first_in_spec a r (Z.of_nat n) H ltac:(lia)) as F.
  destruct (first_in a r (Z.of_nat n)) as [h|].
  - destruct F as (F1 & F2 & F3). right. split; [lia|]. split; [exact F2|]. intros v Hv. apply F3. lia.
  - destruct IH as [[I1 I2]|(I1 & I2 & I3)]; [left | right].
    + split; [exact I1|]. intros v Hv. destruct (Z.lt_ge_cases v (32 * Z.of_nat n)); [apply I2 | apply F]; lia.
    + split; [lia|]. split; [exact I2|]. intros v Hv.
      destruct (Z.lt_ge_cases v (32 * Z.of_nat n)); [apply I3 | apply F]; lia.
Qed.

Lemma highest_priority_int_spec a r : regs_ok r -> highest (enabled_in a r) 256 (highest_priority_int a r).
Proof. intros H. exact (highest_descending a r 8 H). Qed.

Lemma highest_unique f n h h' : highest f n h -> highest f n h' -> h = h'.
Proof.
  intros [[A B]|(A & B & C)] [[A' B']|(A' & B' & C')].
  - congruence.
  - rewrite B in B' by exact A'. discriminate.
  - rewrite B' in B by exact A. discriminate.
  - destruct (Z.lt_trichotomy h h') as [L|[->|L]]; [|reflexivity|].
    + rewrite C in B' by lia. discriminate.
    + rewrite C' in B by lia. discriminate.
Qed.

Lemma highest_bound a r : regs_ok r -> -1 <= highest_priority_int a r < 256.
Proof. intros H. destruct (highest_priority_int_spec a r H) as [[-> _]|(A & _)]; lia. Qed.

(** ** The invariant *)

(** The registers fit their types. *)
Record lapic_ok (a : bx_local_apic_c) : Prop := {
  ok_irr : regs_ok (irr a);
  ok_isr : regs_ok (isr a);
  ok_tpr : fits 8 (task_priority a);
}.

(** The highest request that is enabled is of a higher class than the processor
    priority: the processor should be interrupted. *)
Definition deliverable (a : bx_local_apic_c) : Prop :=
  let v := highest_priority_int a (irr a) in 0 <= v /\ get_ppr a < Z.land v 0xf0.

Definition lapic_inv (a : bx_local_apic_c) : Prop := lapic_ok a /\ (deliverable a -> INTR a = true).

Lemma land_f0 x : 0 <= x < 256 -> Z.land x 0xf0 = 16 * (x / 16).
Proof.
  intros H. apply Z.eqb_eq. revert x H. apply (zrange_forall 256 (fun x => Z.land x 0xf0 =? 16 * (x / 16))).
  vm_compute. reflexivity.
Qed.

Lemma class_mono x y : 0 <= x <= y -> y < 256 -> Z.land x 0xf0 <= Z.land y 0xf0.
Proof. intros. rewrite !land_f0 by lia. Z.to_euclidean_division_equations. lia. Qed.

Lemma class_le x : 0 <= x < 256 -> 0 <= Z.land x 0xf0 <= x.
Proof. intros. rewrite land_f0 by lia. Z.to_euclidean_division_equations. lia. Qed.

(** The processor priority covers the task and the interrupt in service. *)
Lemma ppr_covers a : lapic_ok a ->
  Z.land (task_priority a) 0xf0 <= get_ppr a /\
  (0 <= highest_priority_int a (isr a) -> Z.land (highest_priority_int a (isr a)) 0xf0 <= get_ppr a).
Proof.
  intros [_ H T]. pose proof (highest_bound a (isr a) H) as B. unfold get_ppr. unfold fits in T.
  set (h := highest_priority_int a (isr a)) in *. rewrite Z.geb_leb.
  pose proof (class_le (task_priority a) T) as CT.
  destruct (Z.ltb_spec h 0) as [N|N]; cbn [orb].
  - rewrite wrap_id by exact T. split; [apply CT | lia].
  - pose proof (class_le h ltac:(lia)) as CH.
    destruct (Z.leb_spec (Z.land h 0xF0) (Z.land (task_priority a) 0xF0)); rewrite wrap_id by (unfold fits; lia); lia.
Qed.

(** A function of the fields the interrupt logic looks at. *)
Record same_core (a b : bx_local_apic_c) : Prop := {
  sc_isr : isr b = isr a;
  sc_irr : irr b = irr a;
  sc_ier : ier b = ier a;
  sc_tpr : task_priority b = task_priority a;
  sc_INTR : INTR b = INTR a;
}.

Lemma highest_core a b r : ier b = ier a -> highest_priority_int b r = highest_priority_int a r.
Proof. intros E. unfold highest_priority_int, first_in. rewrite E. reflexivity. Qed.

Lemma same_core_inv a b : same_core a b -> lapic_inv a -> lapic_inv b.
Proof.
  intros [I1 I2 I3 I4 I5] [[O1 O2 O3] D]. split; [split; rewrite ?I1, ?I2, ?I4; assumption|].
  unfold deliverable, get_ppr in *. rewrite I5, I1, I2, I4, !(highest_core a b) by exact I3. exact D.
Qed.

(** [service_local_apic] establishes it. *)
Lemma service_inv a : lapic_ok a -> lapic_inv (service_local_apic a).
Proof.
  intros O. destruct (ppr_covers a O) as [P1 P2]. unfold service_local_apic.
  destruct (INTR a) eqn:E; [split; auto|].
  destruct (Z.ltb_spec (highest_priority_int a (irr a)) 0).
  { split; [exact O|]. intros [D _]. lia. }
  destruct (Z.geb_spec (highest_priority_int a (isr a)) 0); cbn [andb].
  1: destruct (Z.leb_spec (highest_priority_int a (irr a)) (highest_priority_int a (isr a))).
  { split; [exact O|]. intros [_ D]. exfalso. specialize (P2 ltac:(lia)).
    pose proof (highest_bound a (irr a) (ok_irr a O)). pose proof (highest_bound a (isr a) (ok_isr a O)).
    pose proof (class_mono (highest_priority_int a (irr a)) (highest_priority_int a (isr a)) ltac:(lia) ltac:(lia)). lia. }
  all: destruct (Z.leb_spec (Z.land (highest_priority_int a (irr a)) 0xf0) (Z.land (task_priority a) 0xf0));
    [split; [exact O | intros [_ D]; lia] | split; [destruct O; split; assumption | reflexivity]].
Qed.

(** ** It is preserved *)

Lemma core_inv f a : same_core a (f a) -> lapic_inv a -> lapic_inv (f a).
Proof. intros S. apply same_core_inv, S. Qed.

Ltac same_core_tac := split; reflexivity.

Lemma trigger_inv v tm by_ a : lapic_inv a -> lapic_inv (trigger_irq v tm by_ a).
Proof.
  intros H. unfold trigger_irq. destruct (_ <? _); [revert H; apply same_core_inv; same_core_tac|].
  destruct (_ && _); [exact H|]. destruct H as [[O1 O2 O3] _]. cbv zeta. apply service_inv.
  split; [apply set_vector_ok|..]; assumption.
Qed.

Lemma deliver_inv v dm tm a : lapic_inv a -> lapic_inv (deliver v dm tm a).
Proof.
  intros H. unfold deliver. repeat case_bool; try (apply trigger_inv; exact H); try exact H;
    (revert H; apply same_core_inv; same_core_tac).
Qed.

(** Fewer requests, or a higher task priority, and less is deliverable. *)
Lemma highest_le a r h n : regs_ok r -> 0 <= h < 256 -> enabled_in a r h = true -> n = highest_priority_int a r -> h <= n.
Proof.
  intros H Hh E ->. destruct (highest_priority_int_spec a r H) as [[-> B]|(A & _ & C)].
  - rewrite B in E by exact Hh. discriminate.
  - destruct (Z.le_gt_cases h (highest_priority_int a r)); [assumption|]. rewrite C in E by lia. discriminate.
Qed.

Lemma untrigger_inv v a : lapic_inv a -> lapic_inv (untrigger_irq v a).
Proof.
  intros [[O1 O2 O3] D]. split; [split; [apply clear_vector_ok|..]; assumption|].
  intros [N C]. apply D. clear D.
  change (get_ppr (untrigger_irq v a)) with (get_ppr a) in C.
  change (highest_priority_int (untrigger_irq v a) (irr (untrigger_irq v a)))
    with (highest_priority_int a (clear_vector (irr a) v)) in N, C.
  destruct (highest_priority_int_spec a (clear_vector (irr a) v) (clear_vector_ok _ _ O1)) as [[E _]|(B & E & _)]; [lia|].
  unfold enabled_in in E. rewrite clear_vector_bit in E.
  assert (enabled_in a (irr a) (highest_priority_int a (clear_vector (irr a) v)) = true) as E'.
  { unfold enabled_in. destruct (vbit (irr a) _); [|rewrite andb_false_r in E; discriminate].
    rewrite andb_true_r in E. apply andb_true_iff in E. apply E. }
  pose proof (highest_le a (irr a) _ _ O1 B E' eq_refl) as L. pose proof (highest_bound a (irr a) O1).
  split; [lia|]. eapply Z.lt_le_trans; [exact C|]. apply class_mono; lia.
Qed.

Lemma acknowledge_inv a : lapic_inv a -> lapic_inv (snd (acknowledge_int a)).
Proof.
  intros H. unfold acknowledge_int. set (b := if negb (INTR a) then _ else a).
  assert (Hb : lapic_inv b) by (subst b; destruct (negb (INTR a)); [revert H; apply same_core_inv; same_core_tac | exact H]).
  clearbody b. destruct Hb as [[O1 O2 O3] _]. cbv zeta. cbn [snd].
  destruct (Z.ltb_spec (highest_priority_int b (irr b)) 0) as [N|N]; cbn [orb].
  1: { cbn [snd]. split; [split; assumption|]. intros [D _]. exfalso. clear - N D.
       change (highest_priority_int (set_INTR false b) (irr (set_INTR false b))) with (highest_priority_int b (irr b)) in D. lia. }
  destruct (Z.leb_spec (Z.land (highest_priority_int b (irr b)) 0xf0) (get_ppr b)) as [L|L].
  1: { cbn [snd]. split; [split; assumption|]. intros [_ D]. exfalso. clear - L D.
       change (highest_priority_int (set_INTR false b) (irr (set_INTR false b))) with (highest_priority_int b (irr b)) in D.
       change (get_ppr (set_INTR false b)) with (get_ppr b) in D. lia. }
  apply service_inv. split; [apply clear_vector_ok | apply set_vector_ok |]; assumption.
Qed.

Lemma end_of_interrupt_inv v a : lapic_inv a -> lapic_inv (end_of_interrupt v a).
Proof.
  intros [[O1 O2 O3] _]. unfold end_of_interrupt. cbv zeta. apply service_inv.
  destruct (get_vector _ v); (split; [| apply clear_vector_ok |]; assumption).
Qed.

Lemma receive_EOI_inv a : lapic_inv a -> lapic_inv (receive_EOI a).
Proof.
  intros H. unfold receive_EOI. cbv zeta. repeat case_bool; try exact H. apply end_of_interrupt_inv, H.
Qed.

Lemma receive_SEOI_inv v a : lapic_inv a -> lapic_inv (receive_SEOI v a).
Proof. intros H. unfold receive_SEOI. repeat case_bool; try exact H. apply end_of_interrupt_inv, H. Qed.

Lemma set_tpr_inv p a : fits 8 p -> lapic_inv a -> lapic_inv (set_tpr p a).
Proof.
  intros F [[O1 O2 O3] D]. unfold set_tpr. destruct (Z.ltb_spec p (task_priority a)) as [L|L].
  { apply service_inv. split; assumption. }
  split; [split; assumption|]. set (b := a <| task_priority := p |>). intros [N C]. apply D. split; [exact N|].
  change (highest_priority_int b (irr b)) with (highest_priority_int a (irr a)) in C.
  enough (get_ppr a <= get_ppr b) by lia. clear N C D.
  unfold get_ppr. change (highest_priority_int b (isr b)) with (highest_priority_int a (isr a)).
  change (task_priority b) with p. pose proof (highest_bound a (isr a) O2) as B.
  set (h := highest_priority_int a (isr a)) in *. unfold fits in F, O3.
  pose proof (class_mono (task_priority a) p ltac:(lia) ltac:(lia)). pose proof (class_le p F). pose proof (class_le _ O3).
  rewrite !Z.geb_leb. destruct (Z.ltb_spec h 0); cbn [orb]; [rewrite !wrap_id by (unfold fits; lia); lia|].
  pose proof (class_le h ltac:(lia)).
  destruct (Z.leb_spec (Z.land h 0xF0) (Z.land (task_priority a) 0xF0)), (Z.leb_spec (Z.land h 0xF0) (Z.land p 0xF0));
    rewrite !wrap_id by (unfold fits; lia); lia.
Qed.

Lemma deactivate_core a : same_core a (deactivate_if_active a).
Proof. unfold deactivate_if_active. destruct (timer_active _); same_core_tac. Qed.

Lemma same_core_trans a b c : same_core a b -> same_core b c -> same_core a c.
Proof. intros [] []. split; congruence. Qed.

Lemma initial_count_core v now a : same_core a (set_initial_timer_count v now a).
Proof.
  unfold set_initial_timer_count. destruct (negb _); [same_core_tac|]. cbv zeta.
  eapply same_core_trans; [apply deactivate_core|]. destruct (negb _); same_core_tac.
Qed.

Lemma lvt_core r v a : same_core a (set_lvt_entry r v a).
Proof.
  unfold set_lvt_entry. cbv zeta.
  match goal with |- same_core a (set_field lvt _ ?x) => apply (same_core_trans a x); [|same_core_tac] end.
  destruct (_ && _); [apply deactivate_core | same_core_tac].
Qed.

Lemma spurious_core v a : same_core a (write_spurious_interrupt_register v a).
Proof. unfold write_spurious_interrupt_register. cbv zeta. destruct (negb (software_enabled _)); same_core_tac. Qed.

(** Every register but the interrupt enables. *)
Lemma write_register_inv mask r v now a : in_array BX_LAPIC_IER1 r = false -> lapic_inv a ->
  lapic_inv (write_register mask r v now a).
Proof.
  intros NE H. unfold write_register.
  repeat match goal with |- lapic_inv (if ?b then _ else _) => destruct b eqn:?E end; try discriminate;
    try (revert H; apply same_core_inv; first [apply initial_count_core | apply lvt_core | apply spurious_core | same_core_tac]; fail).
  - apply set_tpr_inv; [|exact H]. apply fits_land_r; [lia | unfold fits; lia].
  - apply receive_EOI_inv, H.
  - apply receive_SEOI_inv, H.
Qed.

Lemma periodic_inv now a : lapic_inv a -> lapic_inv (periodic now a).
Proof.
  intros H. unfold periodic. destruct (negb (timer_active (timers a))); [exact H|]. cbv zeta.
  set (b := if Z.land (lvt a APIC_LVT_TIMER) 0x10000 =? 0 then _ else a).
  assert (Hb : lapic_inv b) by (subst b; destruct (_ =? 0); [apply trigger_inv, H | exact H]). clearbody b. clear H.
  destruct (negb _); (revert Hb; apply same_core_inv; same_core_tac).
Qed.

Lemma reset_inv a : lapic_inv (reset a).
Proof.
  unfold reset. cbv zeta.
  match goal with |- context [deactivate_if_active ?x] => set (b := x) end.
  set (c := deactivate_mwaitx_timer (deactivate_vmx_preemption_timer (deactivate_if_active b))).
  assert (S : same_core b c).
  { subst c. eapply same_core_trans; [apply deactivate_core|].
    unfold deactivate_mwaitx_timer, deactivate_vmx_preemption_timer.
    destruct (negb (vmx_timer_active _)), (negb (mwaitx_timer_active _)); same_core_tac. }
  assert (Z0 : regs_ok (fun _ => 0)) by (intros k; unfold fits; lia).
  assert (Hb : lapic_inv b).
  { split; [split; [exact Z0 | exact Z0 | split; cbn; lia]|]. intros [N _]. exfalso.
    destruct (highest_priority_int_spec b (irr b) Z0) as [[E _]|(A & B & _)]; [lia|].
    unfold enabled_in, vbit in B. change (irr b) with (fun _ : Z => 0) in B. rewrite Z.testbit_0_l in B. discriminate. }
  clearbody c b. apply (same_core_inv c); [same_core_tac|]. revert Hb. apply same_core_inv, S.
Qed.

Lemma set_base_inv base a : lapic_inv a -> lapic_inv (set_base base a).
Proof.
  apply same_core_inv. unfold set_base. cbv zeta.
  match goal with |- same_core a (if _ then _ else ?x) => apply (same_core_trans a x) end;
    [|destruct (_ =? BX_APIC_GLOBALLY_DISABLED); [apply spurious_core | same_core_tac]].
  destruct (_ =? _); same_core_tac.
Qed.
