(* ===== verification/LapicBus.v ===== *)
(** * The APIC bus: no interrupt is lost, and the life of an interrupt

    The invariant of LapicProps.v through every operation on the local APICs of a
    machine; the acknowledge and the end of interrupt; what goes wrong. *)

From Stdlib Require Import ZArith Lia List Bool.
From S2P Require Import Prelude ScalarArith Lapic LapicProps.
Import ListNotations.
Open Scope Z_scope.

(** ** Operations on a machine's APICs *)

Inductive apic_op :=
| ReadReg (i : nat) (addr now : Z)
| WriteReg (i : nat) (addr value now : Z)
| ReadMsr (i : nat) (index now : Z)
| WriteMsr (i : nat) (index hi lo now : Z)
| Message (vector dest delivery_mode : Z) (logical_dest : bool) (trig_mode : Z)   (* from the I/O APIC *)
| Acknowledge (i : nat)
| Untrigger (i : nat) (vector : Z)
| TimerFires (i : nat) (now : Z)
| WriteCR8 (i : nat) (tpr : Z)
| TscDeadline (i : nat) (deadline now : Z)
| SetBase (i : nat) (base : Z)
| Reset (i : nat)
| EnableExtensions (i : nat).

Definition apic_step (mask : Z) (o : apic_op) (l : apics) : apics :=
  match o with
  | ReadReg i addr now => on_apic i (fun a => snd (read_aligned mask addr now a)) l
  | WriteReg i addr value now => write_aligned mask i addr value now l
  | ReadMsr i index now =>
      on_apic i (fun a => match read_x2apic mask index now a with Some (_, a') => a' | None => a end) l
  | WriteMsr i index hi lo now => match write_x2apic mask i index hi lo now l with Some l' => l' | None => l end
  | Message v dest dm lg tm => snd (apic_bus_deliver_interrupt mask v dest dm lg tm l)
  | Acknowledge i => on_apic i (fun a => snd (acknowledge_int a)) l
  | Untrigger i v => on_apic i (untrigger_irq v) l
  | TimerFires i now => on_apic i (periodic now) l
  | WriteCR8 i tpr => on_apic i (set_tpr (u8 tpr)) l
  | TscDeadline i d now => on_apic i (set_tsc_deadline d now) l
  | SetBase i base => on_apic i (set_base base) l
  | Reset i => on_apic i reset l
  | EnableExtensions i => on_apic i enable_xapic_extensions l
  end.

Definition apic_run (mask : Z) (ops : list apic_op) (l : apics) : apics :=
  fold_left (fun l o => apic_step mask o l) ops l.

(** A write of [value] to the interrupt enable register [k] of the extended APIC
    enables no vector that is already requested and disables none that is in
    service; without the feature the write is ignored.  The handler stores the
    register and does not look for a request the write makes deliverable
    ([enabling_strands_request]). *)
Definition enables_safely (k value : Z) (a : bx_local_apic_c) : bool :=
  (Z.land (xapic_ext a) BX_XAPIC_EXT_SUPPORT_IER =? 0) ||
  ((Z.land (Z.land value (Z.lnot (ier a k))) (irr a k) =? 0) &&
   (Z.land (Z.land (ier a k) (Z.lnot value)) (isr a k) =? 0)).

(** Every operation is legal in every state, but for such a write. *)
Definition op_legal (o : apic_op) (l : apics) : bool :=
  match o with
  | WriteReg i addr value _ =>
      match nth_error l i with
      | Some a => negb (in_array BX_LAPIC_IER1 (register_of addr a)) ||
                  enables_safely (array_index BX_LAPIC_IER1 (register_of addr a)) value a
      | None => true
      end
  | _ => true
  end.

(** Each operation of a run is legal where it happens. *)
Fixpoint run_legal (mask : Z) (ops : list apic_op) (l : apics) : bool :=
  match ops with
  | [] => true
  | o :: ops => op_legal o l && run_legal mask ops (apic_step mask o l)
  end.

(** ** The invariant on the bus *)

Lemma on_apic_Forall (P : bx_local_apic_c -> Prop) i f l : (forall a, P a -> P (f a)) -> Forall P l -> Forall P (on_apic i f l).
Proof.
  intros Hf. revert i. induction l as [|a l IH]; intros i H; [exact H|]. inversion H; subst.
  destruct i; constructor; auto.
Qed.

Lemma lowest_priority_inv v dest tm b l : Forall lapic_inv l -> Forall lapic_inv (snd (apic_bus_deliver_lowest_priority v dest tm b l)).
Proof.
  intros H. unfold apic_bus_deliver_lowest_priority. cbv zeta.
  destruct (match l with [] => None | a :: _ => _ end); [apply on_apic_Forall; auto using deliver_inv|].
  destruct (lowest_agent _ _ _ _ _); [apply on_apic_Forall; auto using deliver_inv | exact H].
Qed.

Lemma broadcast_inv v dm tm ex l : Forall lapic_inv l -> Forall lapic_inv (snd (apic_bus_broadcast_interrupt v dm tm ex l)).
Proof.
  intros H. unfold apic_bus_broadcast_interrupt. destruct (_ =? _); [apply lowest_priority_inv, H|]. cbn [snd].
  generalize 0. induction H; intros i; constructor; auto. destruct (i =? ex); auto using deliver_inv.
Qed.

Lemma bus_deliver_inv mask v dest dm lg tm l : Forall lapic_inv l ->
  Forall lapic_inv (snd (apic_bus_deliver_interrupt mask v dest dm lg tm l)).
Proof.
  intros H. unfold apic_bus_deliver_interrupt.
  destruct (dm =? APIC_DM_LOWPRI); [destruct lg; [apply lowest_priority_inv, H | exact H]|].
  destruct lg; cbn [negb].
  - destruct (dest =? 0); [exact H|]. cbn [snd]. apply Forall_map. eapply Forall_impl; [|exact H].
    intros a Ha. cbv beta. destruct (match_logical_addr _ _); auto using deliver_inv.
  - destruct (_ =? mask); [apply broadcast_inv, H|].
    destruct (find_apic _ _ _); [apply on_apic_Forall; auto using deliver_inv | exact H].
Qed.

Lemma send_ipi_inv mask i dest cmd l : Forall lapic_inv l -> Forall lapic_inv (send_ipi mask i dest cmd l).
Proof.
  intros H. unfold send_ipi. cbv zeta. destruct (_ && _); [exact H|].
  match goal with |- context [let '(_, _) := ?x in _] => assert (Hx : Forall lapic_inv (snd x)); [|destruct x as [b l']] end.
  { destruct (_ =? 0); [apply bus_deliver_inv, H|]. destruct (_ =? 1); [apply on_apic_Forall; auto using trigger_inv|].
    destruct (_ =? 2); apply broadcast_inv, H. }
  cbn [snd] in Hx. destruct b; [exact Hx|]. apply on_apic_Forall; [|exact Hx].
  intros a. apply same_core_inv. split; reflexivity.
Qed.

Lemma land_zero_bit x y i : Z.land x y = 0 -> Z.testbit x i = true -> Z.testbit y i = false.
Proof. intros H X. pose proof (Z.land_spec x y i) as S. rewrite H, Z.testbit_0_l, X in S. auto. Qed.

(** A task priority of a lower class is below the class. *)
Lemma class_jump t h : 0 <= t < 256 -> 0 <= h < 256 -> Z.land t 0xf0 < Z.land h 0xf0 -> t < Z.land h 0xf0.
Proof. intros T H. rewrite !land_f0 by lia. intros L. Z.to_euclidean_division_equations. lia. Qed.

(** The processor priority grows with the highest vector in service. *)
Lemma ppr_mono t h h' : 0 <= t < 256 -> -1 <= h <= h' -> h' < 256 ->
  u8 (if (h <? 0) || (Z.land t 0xF0 >=? Z.land h 0xF0) then t else Z.land h 0xF0) <=
  u8 (if (h' <? 0) || (Z.land t 0xF0 >=? Z.land h' 0xF0) then t else Z.land h' 0xF0).
Proof.
  intros T H H'. rewrite !Z.geb_leb. pose proof (class_jump t h' T) as J.
  assert (M : 0 <= h -> 0 <= Z.land h 0xf0 <= Z.land h' 0xf0 /\ Z.land h' 0xf0 < 256).
  { intros P. pose proof (class_mono h h' ltac:(lia) H'). pose proof (class_le h ltac:(lia)).
    pose proof (class_le h' ltac:(lia)). lia. }
  pose proof (class_le h') as C'.
  set (ch := Z.land h 0xf0) in *. set (ch' := Z.land h' 0xf0) in *. set (ct := Z.land t 0xf0) in *. clearbody ch ch' ct.
  destruct (Z.ltb_spec h 0), (Z.ltb_spec h' 0), (Z.leb_spec ch ct), (Z.leb_spec ch' ct); cbn [orb]; try lia;
    rewrite !wrap_id by (unfold fits; lia); lia.
Qed.

(** Fewer enabled requests and no fewer enabled interrupts in service: less is
    deliverable. *)
Lemma enables_less a e : lapic_inv a ->
  (forall v, vbit (irr a) v = true -> vbit e v = true -> vbit (ier a) v = true) ->
  (forall v, vbit (isr a) v = true -> vbit (ier a) v = true -> vbit e v = true) ->
  lapic_inv (a <| ier := e |>).
Proof.
  intros [O D] HR HS. pose proof O as [O1 O2 O3]. unfold fits in O3. set (b := a <| ier := e |>).
  assert (O' : lapic_ok b) by (split; assumption). split; [exact O'|].
  intros [N C]. apply D. clear D.
  pose proof (highest_bound b (irr b) O1) as BR. pose proof (highest_bound a (irr a) O1) as BA.
  destruct (highest_priority_int_spec b (irr b) O1) as [[E _]|(H1 & H2 & _)]; [lia|].
  assert (LR : highest_priority_int b (irr b) <= highest_priority_int a (irr a)).
  { apply (highest_le a (irr a) _ _ O1 H1); [|reflexivity].
    unfold enabled_in in *. change (irr b) with (irr a) in *. change (ier b) with e in H2.
    apply andb_true_iff in H2. destruct H2 as [H2 H3]. rewrite (HR _ H2 H3), H2. reflexivity. }
  split; [lia|]. apply Z.le_lt_trans with (get_ppr b).
  2: { apply Z.lt_le_trans with (1 := C). apply class_mono; lia. }
  clear C. apply ppr_mono; [exact O3| |apply (highest_bound b (isr a) O2)].
  pose proof (highest_bound b (isr a) O2) as BB. change (isr b) with (isr a).
  destruct (highest_priority_int_spec a (isr a) O2) as [[E _]|(S1 & S2 & _)]; [lia|].
  split; [lia|]. apply (highest_le b (isr a) _ _ O2 S1); [|reflexivity].
  unfold enabled_in in *. apply andb_true_iff in S2. destruct S2 as [S2 S3].
  change (ier b) with e. rewrite (HS _ S2 S3), S2. reflexivity.
Qed.

Lemma write_enables mask r value now a : in_array BX_LAPIC_IER1 r = true ->
  write_register mask r value now a =
  if Z.land (xapic_ext a) BX_XAPIC_EXT_SUPPORT_IER =? 0 then a
  else a <| ier := set_reg (array_index BX_LAPIC_IER1 r) value (ier a) |>.
Proof.
  intros A. assert (C : In r [0x480; 0x490; 0x4a0; 0x4b0; 0x4c0; 0x4d0; 0x4e0; 0x4f0]).
  { unfold in_array, BX_LAPIC_IER1 in A. bool_hyps.
    match goal with H : Z.land r 15 = 0 |- _ => change 15 with (Z.ones 4) in H; rewrite Z.land_ones in H by lia end.
    change (2 ^ 4) with 16 in *.
    match goal with H : r mod 16 = 0 |- _ => apply Z.mod_divide in H; [destruct H as [q ->] | discriminate] end.
    assert (72 <= q < 80) by lia. cbn [In]. lia. }
  cbn [In] in C. repeat destruct C as [<-|C]; try contradiction; reflexivity.
Qed.

Lemma write_enables_inv mask r value now a : in_array BX_LAPIC_IER1 r = true ->
  enables_safely (array_index BX_LAPIC_IER1 r) value a = true ->
  lapic_inv a -> lapic_inv (write_register mask r value now a).
Proof.
  intros A L H. rewrite write_enables by exact A.
  unfold enables_safely in L. destruct (_ =? 0) eqn:X; [exact H|]. cbn [orb] in L. bool_hyps.
  set (k := array_index BX_LAPIC_IER1 r) in *.
  match goal with H1 : Z.land _ (irr a k) = 0, H2 : Z.land _ (isr a k) = 0 |- _ => rename H1 into L1; rename H2 into L2 end.
  apply enables_less; [exact H| |]; intros v B1 B2; unfold vbit, set_reg in *;
    (destruct (Z.eqb_spec (v / 32) k) as [D|D]; [|exact B2]); rewrite D in *.
  - destruct (Z.testbit (ier a k) (v mod 32)) eqn:B; [reflexivity|].
    rewrite (land_zero_bit _ _ (v mod 32) L1) in B1; [discriminate|].
    rewrite Z.land_spec, Z.lnot_spec, B2, B by apply mod_range. reflexivity.
  - destruct (Z.testbit value (v mod 32)) eqn:B; [reflexivity|].
    rewrite (land_zero_bit _ _ (v mod 32) L2) in B1; [discriminate|].
    rewrite Z.land_spec, Z.lnot_spec, B2, B by apply mod_range. reflexivity.
Qed.

Lemma on_apic_Forall_at (P : bx_local_apic_c -> Prop) i f l :
  (forall a, nth_error l i = Some a -> P a -> P (f a)) -> Forall P l -> Forall P (on_apic i f l).
Proof.
  revert i. induction l as [|a l IH]; intros i Hf H; [exact H|]. inversion H; subst.
  destruct i; constructor; auto.
Qed.

Lemma write_aligned_inv mask i addr value now l : op_legal (WriteReg i addr value now) l = true ->
  Forall lapic_inv l -> Forall lapic_inv (write_aligned mask i addr value now l).
Proof.
  cbn [op_legal]. intros N H. unfold write_aligned. destruct (nth_error l i) as [a|] eqn:E; [|exact H]. cbv zeta.
  destruct (_ =? BX_LAPIC_ICR_LO).
  - apply send_ipi_inv, on_apic_Forall; [|exact H]. intros b. apply same_core_inv. split; reflexivity.
  - apply on_apic_Forall_at; [|exact H]. intros b Eb. rewrite E in Eb. injection Eb as <-.
    destruct (in_array BX_LAPIC_IER1 (register_of addr a)) eqn:A;
      [apply write_enables_inv; assumption | apply write_register_inv, A].
Qed.

Lemma not_enables_legal i addr value now l : in_array BX_LAPIC_IER1 (Z.land addr 0xff0) = false ->
  op_legal (WriteReg i addr value now) l = true.
Proof.
  intros N. cbn [op_legal]. destruct (nth_error l i) as [a|]; [|reflexivity].
  unfold register_of. destruct (_ && _); [reflexivity|]. rewrite N. reflexivity.
Qed.

Lemma x2apic_not_enables index v : x2apic_writable index v = true -> in_array BX_LAPIC_IER1 (Z.land index 0xff0) = false.
Proof.
  assert (L : is_lvt index = true -> in_array BX_LAPIC_IER1 (Z.land index 0xff0) = false).
  { intros E. assert (R : 0 <= index < 896) by (unfold is_lvt, BX_LAPIC_LVT_ERROR, BX_LAPIC_LVT_TIMER in E; bool_hyps; lia).
    assert (C : negb (is_lvt index) || negb (in_array BX_LAPIC_IER1 (Z.land index 0xff0)) = true).
    { revert index R E. enough (X : forall i, 0 <= i < Z.of_nat 896 -> negb (is_lvt i) || negb (in_array BX_LAPIC_IER1 (Z.land i 0xff0)) = true)
        by (intros; apply X; assumption).
      apply (zrange_forall 896). vm_compute. reflexivity. }
    rewrite E in C. apply negb_true_iff, C. }
  unfold x2apic_writable. intros E.
  repeat match type of E with (if ?i =? ?r then _ else _) = _ => destruct (Z.eqb_spec i r) as [->|]; [reflexivity|] end.
  destruct (_ || _) eqn:O in E.
  - apply orb_true_iff in O. destruct O as [O|O]; apply Z.eqb_eq in O; subst; reflexivity.
  - apply orb_true_iff in E. destruct E as [E|E]; [apply L, E|].
    cbn in E. repeat (apply orb_true_iff in E; destruct E as [E|E]); try discriminate; apply Z.eqb_eq in E; subst; reflexivity.
Qed.

Lemma read_core mask addr now a : same_core a (snd (read_aligned mask addr now a)).
Proof.
  unfold read_aligned, get_current_timer_count. cbv zeta.
  repeat match goal with |- same_core a (snd (if ?b then _ else _)) => destruct b end; try (split; reflexivity).
  destruct (_ >? _); split; reflexivity.
Qed.

Lemma step_inv mask o l : op_legal o l = true -> Forall lapic_inv l -> Forall lapic_inv (apic_step mask o l).
Proof.
  intros K H. destruct o; cbn [apic_step] in *.
  - apply on_apic_Forall; [|exact H]. intros a. apply same_core_inv, read_core.
  - apply write_aligned_inv; assumption.
  - apply on_apic_Forall; [|exact H]. intros a. apply same_core_inv. unfold read_x2apic.
    repeat match goal with |- context [if ?b then _ else _] => destruct b end; try (split; reflexivity).
    pose proof (read_core mask (u32 (Z.shiftl (index - 2048) 4)) now a) as R. destruct (read_aligned _ _ _ _). exact R.
  - unfold write_x2apic. cbv zeta. destruct (_ && _); [exact H|].
    destruct (_ =? BX_LAPIC_SELF_IPI); [apply on_apic_Forall; auto using trigger_inv|].
    destruct (_ =? BX_LAPIC_ICR_LO); [apply send_ipi_inv, H|].
    destruct (x2apic_writable _ _) eqn:E; [|exact H]. apply write_aligned_inv; [apply not_enables_legal; eapply x2apic_not_enables, E | exact H].
  - apply bus_deliver_inv, H.
  - apply on_apic_Forall; auto using acknowledge_inv.
  - apply on_apic_Forall; auto using untrigger_inv.
  - apply on_apic_Forall; auto using periodic_inv.
  - apply on_apic_Forall; [|exact H]. intros a. apply set_tpr_inv, wrap_fits. lia.
  - apply on_apic_Forall; [|exact H]. intros a. apply same_core_inv. unfold set_tsc_deadline.
    destruct (_ =? 0); [split; reflexivity|]. cbv zeta. eapply same_core_trans; [apply deactivate_core|].
    destruct (negb _); split; reflexivity.
  - apply on_apic_Forall; auto using set_base_inv.
  - apply on_apic_Forall; auto using reset_inv.
  - apply on_apic_Forall; [|exact H]. intros a. apply same_core_inv. split; reflexivity.
Qed.

Lemma run_inv mask ops : forall l, run_legal mask ops l = true -> Forall lapic_inv l -> Forall lapic_inv (apic_run mask ops l).
Proof.
  induction ops as [|o ops IH]; intros l K H; [exact H|]. cbn [run_legal] in K. apply andb_true_iff in K.
  destruct K. apply IH; auto using step_inv.
Qed.

(** A request above the task priority and everything in service is deliverable. *)
Lemma above_deliverable a v : lapic_ok a -> vector v -> enabled_in a (irr a) v = true ->
  Z.land (task_priority a) 0xf0 < Z.land v 0xf0 ->
  (forall w, vector w -> enabled_in a (isr a) w = true -> Z.land w 0xf0 < Z.land v 0xf0) -> deliverable a.
Proof.
  intros [O1 O2 O3] V E T S. unfold vector, fits in *. pose proof (highest_le a (irr a) v _ O1 V E eq_refl) as L.
  pose proof (highest_bound a (irr a) O1) as B. split; [lia|].
  apply Z.lt_le_trans with (Z.land v 0xf0); [|apply class_mono; lia].
  unfold get_ppr. rewrite (land_f0 v) by lia. rewrite !land_f0 in T by lia.
  destruct (highest_priority_int_spec a (isr a) O2) as [[H _]|(H & H' & _)].
  - rewrite H. cbn [Z.ltb Z.compare orb]. rewrite wrap_id by exact O3. Z.to_euclidean_division_equations. lia.
  - specialize (S _ H H'). set (h := highest_priority_int a (isr a)) in *. clearbody h. rewrite !land_f0 in S by lia. rewrite !land_f0 by lia.
    rewrite Z.geb_leb. destruct (Z.ltb_spec h 0); [lia|]. cbn [orb].
    destruct (Z.leb_spec (16 * (h / 16)) (16 * (task_priority a / 16)));
      rewrite wrap_id by (unfold fits; Z.to_euclidean_division_equations; lia); Z.to_euclidean_division_equations; lia.
Qed.

(** C6: no interrupt is lost: from a reset of any APICs on, over any sequence of
    register and MSR accesses, messages, IPIs, timer events, acknowledges and
    resets, an enabled request whose class is above the task priority and above
    every enabled interrupt in service is signalled to its processor.  The only
    accesses left out, by [run_legal], are the writes to an interrupt enable
    register of the extended APIC that enable a vector already requested or
    disable one in service: the handler does not look at the requests then. *)
Theorem lapic_loses_no_interrupt mask ops l0 a v : run_legal mask ops (map reset l0) = true -> In a (apic_run mask ops (map reset l0)) ->
  vector v -> enabled_in a (irr a) v = true -> Z.land (task_priority a) 0xf0 < Z.land v 0xf0 ->
  (forall w, vector w -> enabled_in a (isr a) w = true -> Z.land w 0xf0 < Z.land v 0xf0) ->
  INTR a = true.
Proof.
  intros K I V E T S.
  assert (R : Forall lapic_inv (apic_run mask ops (map reset l0))).
  { apply run_inv; [exact K|]. apply Forall_map, Forall_forall. intros b _. apply reset_inv. }
  rewrite Forall_forall in R. destruct (R a I) as [O D]. apply D. eapply above_deliverable; eassumption.
Qed.

(** ** The life of an interrupt *)

(** [v] may interrupt [a]: it is above everything requested, in service and the task. *)
Record above_all (a : bx_local_apic_c) (v : Z) : Prop := {
  ab_range : 16 <= v < 256;
  ab_enabled : vbit (ier a) v = true;
  ab_irr : forall w, vector w -> enabled_in a (irr a) w = true -> w < v;
  ab_isr : forall w, vector w -> enabled_in a (isr a) w = true -> Z.land w 0xf0 < Z.land v 0xf0;
  ab_tpr : Z.land (task_priority a) 0xf0 < Z.land v 0xf0;
}.

(** The highest vector of [r] with [v] added. *)
Lemma highest_with a b r v : regs_ok r -> 0 <= v < 256 -> ier b = ier a -> vbit (ier a) v = true ->
  (forall w, vector w -> enabled_in a r w = true -> w < v) ->
  highest_priority_int b (set_vector r v) = v.
Proof.
  intros H V E EV A. apply (highest_unique (enabled_in b (set_vector r v)) 256); [apply highest_priority_int_spec, set_vector_ok, H|].
  right. unfold enabled_in. rewrite E. split; [exact V|]. split.
  - rewrite set_vector_bit, Z.eqb_refl, EV. reflexivity.
  - intros w Hw. rewrite set_vector_bit. destruct (Z.eqb_spec v w); [lia|]. cbn [orb].
    destruct (vbit r w && vbit (ier a) w) eqn:B; [|reflexivity]. assert (w < v); [apply A; [unfold vector; lia | exact B] | lia].
Qed.

Lemma class_lt_below v w : 0 <= v < 256 -> 0 <= w < 256 -> Z.land w 0xf0 < Z.land v 0xf0 -> w < v.
Proof. intros. rewrite !land_f0 in * by lia. Z.to_euclidean_division_equations. lia. Qed.

Lemma ppr_below a v : lapic_ok a -> above_all a v -> get_ppr a < Z.land v 0xf0.
Proof.
  intros O [V _ _ S T].
  destruct O as [O1 O2 O3]. unfold fits in O3. unfold get_ppr.
  pose proof (highest_priority_int_spec a (isr a) O2) as HS. set (h := highest_priority_int a (isr a)) in *.
  assert (P : task_priority a < Z.land v 0xf0).
  { rewrite (land_f0 v) by lia. rewrite !land_f0 in T by lia. Z.to_euclidean_division_equations. lia. }
  destruct HS as [[-> _]|(B & E & _)].
  - cbn [Z.ltb Z.compare orb]. rewrite wrap_id by exact O3. exact P.
  - specialize (S _ B E). pose proof (class_le h B). pose proof (class_le v ltac:(lia)).
    destruct (_ || _); rewrite wrap_id by (unfold fits; lia); assumption.
Qed.

(** The signal of a request above all. *)
Lemma trigger_signals a v tm : lapic_ok a -> above_all a v -> INTR a = false ->
  trigger_irq v tm false a =
  set_INTR true (a <| irr := set_vector (irr a) v |>
                   <| tmr := if negb (tm =? 0) then set_vector (tmr a) v else clear_vector (tmr a) v |>).
Proof.
  intros O A N. pose proof A as [V E I S T]. pose proof O as [O1 O2 O3]. unfold trigger_irq, BX_LAPIC_FIRST_VECTOR.
  destruct (Z.ltb_spec v 16); [lia|]. rewrite get_vector_eq. cbn [negb andb].
  destruct (vbit (irr a) v) eqn:B.
  { assert (v < v); [|lia]. apply I; [unfold vector; lia|]. unfold enabled_in. rewrite B, E. reflexivity. }
  cbv zeta. set (b := _ <| tmr := _ |>).
  assert (HP : highest_priority_int b (irr b) = v) by (apply (highest_with a b (irr a)); auto; lia).
  unfold service_local_apic. change (INTR b) with (INTR a). rewrite N, HP. cbn [negb].
  destruct (Z.ltb_spec v 0); [lia|].
  change (highest_priority_int b (isr b)) with (highest_priority_int a (isr a)).
  destruct (highest_priority_int_spec a (isr a) O2) as [[-> _]|(D & F & _)].
  - cbn [Z.geb Z.compare andb]. change (task_priority b) with (task_priority a).
    destruct (Z.leb_spec (Z.land v 0xf0) (Z.land (task_priority a) 0xf0)); [lia | reflexivity].
  - pose proof (class_lt_below v _ ltac:(lia) D (S _ D F)).
    destruct (Z.leb_spec v (highest_priority_int a (isr a))); [lia|]. rewrite andb_false_r.
    change (task_priority b) with (task_priority a).
    destruct (Z.leb_spec (Z.land v 0xf0) (Z.land (task_priority a) 0xf0)); [lia | reflexivity].
Qed.

Lemma service_frame a : exists b, service_local_apic a = set_INTR b a.
Proof.
  unfold service_local_apic.
  assert (R : a = set_INTR (INTR a) a) by (destruct a as [? ? ? ? ? ? ? ? ? ? ? ? ? ? ? ? ? ? ? ? ? ? []]; reflexivity).
  repeat case_bool; eauto.
Qed.

Lemma acknowledge_above a v tm : lapic_ok a -> above_all a v -> INTR a = false ->
  INTR (trigger_irq v tm false a) = true /\ fst (acknowledge_int (trigger_irq v tm false a)) = v.
Proof.
  intros O A N. pose proof A as [V E I _ _]. rewrite trigger_signals by assumption.
  set (a1 := set_INTR true _). split; [reflexivity|].
  assert (HP : highest_priority_int a1 (irr a1) = v) by (apply (highest_with a a1 (irr a)); auto; [apply O | lia]).
  pose proof (ppr_below a v O A) as P. change (get_ppr a) with (get_ppr a1) in P.
  unfold acknowledge_int. change (INTR a1) with true. cbn [negb]. cbv zeta. rewrite HP.
  destruct (Z.ltb_spec v 0); [lia|]. destruct (Z.leb_spec (Z.land v 0xf0) (get_ppr a1)); [lia|].
  apply wrap_id. unfold fits. lia.
Qed.

(** The life of an interrupt: a request above everything requested, in service
    and the task priority interrupts the processor, which acknowledges exactly
    this vector; then it is in service and no longer requested; its EOI leaves the
    requests and the interrupts in service as they were before the request, and
    tells the I/O APIC exactly if the interrupt is level triggered. *)
Theorem interrupt_life a v tm : lapic_ok a -> above_all a v -> INTR a = false -> v <> spurious_vector a ->
  let a1 := trigger_irq v tm false a in
  let a2 := snd (acknowledge_int a1) in
  let a3 := receive_EOI a2 in
  INTR a1 = true /\ fst (acknowledge_int a1) = v /\
  (forall w, vbit (irr a2) w = vbit (irr a) w /\ vbit (isr a2) w = (v =? w) || vbit (isr a) w) /\
  (forall w, vbit (irr a3) w = vbit (irr a) w /\ vbit (isr a3) w = vbit (isr a) w) /\
  events (cpu a3) = events (cpu a) ++ (if negb (tm =? 0) then [IoapicEOI v] else []).
Proof.
  intros O A N Sp a1 a2 a3. subst a3 a2 a1. pose proof A as [V E I S T]. pose proof O as [O1 O2 O3].
  rewrite trigger_signals by assumption.
  set (t := if negb (tm =? 0) then set_vector (tmr a) v else clear_vector (tmr a) v).
  set (a1 := set_INTR true _). assert (B : vbit (irr a) v = false /\ vbit (isr a) v = false).
  { split; [destruct (vbit (irr a) v) eqn:B | destruct (vbit (isr a) v) eqn:B]; try reflexivity.
    - assert (v < v); [|lia]. apply I; [unfold vector; lia|]. unfold enabled_in. rewrite B, E. reflexivity.
    - assert (Z.land v 0xf0 < Z.land v 0xf0); [|lia]. apply S; [unfold vector; lia|]. unfold enabled_in. rewrite B, E. reflexivity. }
  destruct B as [B1 B2].
  assert (HP : highest_priority_int a1 (irr a1) = v) by (apply (highest_with a a1 (irr a)); auto; lia).
  pose proof (ppr_below a v O A) as P. change (get_ppr a) with (get_ppr a1) in P.
  split; [reflexivity|].
  unfold acknowledge_int. change (INTR a1) with true. cbn [negb]. cbv zeta. rewrite HP.
  destruct (Z.ltb_spec v 0); [lia|]. destruct (Z.leb_spec (Z.land v 0xf0) (get_ppr a1)); [lia|]. cbn [orb fst snd].
  split; [apply wrap_id; unfold fits; lia|].
  match goal with |- context [service_local_apic ?x] => destruct (service_frame x) as [i1 ->]; set (y := x) end.
  set (a2 := set_INTR i1 y).
  assert (R2 : irr a2 = clear_vector (set_vector (irr a) v) v /\ isr a2 = set_vector (isr a) v) by (split; reflexivity).
  assert (I2 : forall w, vbit (irr a2) w = vbit (irr a) w /\ vbit (isr a2) w = (v =? w) || vbit (isr a) w).
  { intros w. destruct R2 as [-> ->]. rewrite clear_vector_bit, !set_vector_bit.
    destruct (Z.eqb_spec v w) as [<-|]; cbn [negb andb orb]; auto. }
  split; [exact I2|].
  assert (H2 : highest_priority_int a2 (isr a2) = v).
  { apply (highest_with a a2 (isr a)); auto; [lia|]. intros w W F. apply class_lt_below; auto; lia. }
  unfold receive_EOI. cbv zeta. rewrite H2. destruct (Z.ltb_spec v 0); [lia|].
  change (spurious_vector a2) with (spurious_vector a). destruct (Z.eqb_spec v (spurious_vector a)); [contradiction|]. cbn [negb].
  unfold end_of_interrupt. cbv zeta. rewrite get_vector_eq.
  change (tmr (a2 <| isr := _ |>)) with t.
  assert (Tv : vbit t v = negb (tm =? 0)).
  { subst t. destruct (negb (tm =? 0)); [rewrite set_vector_bit, Z.eqb_refl | rewrite clear_vector_bit, Z.eqb_refl]; reflexivity. }
  rewrite Tv. match goal with |- context [service_local_apic ?x] => destruct (service_frame x) as [i2 ->] end.
  split.
  - intros w. destruct (I2 w) as [J1 J2]. destruct (negb (tm =? 0)); (split; [exact J1|]);
      change (vbit (clear_vector (isr a2) v) w = vbit (isr a) w); rewrite clear_vector_bit, J2;
      (destruct (Z.eqb_spec v w) as [<-|]; cbn [negb andb orb]; auto).
  - destruct (negb (tm =? 0)); [reflexivity | symmetry; apply app_nil_r].
Qed.

(** ** What goes wrong *)

(** A request of the same class as the interrupt in service, with a higher
    vector, is signalled, since [service_local_apic] compares vectors, but
    [acknowledge_int] compares classes: the processor is interrupted with the
    spurious vector, and the request stays. *)
Theorem same_class_request_is_spurious a v w tm : lapic_ok a -> INTR a = false ->
  16 <= v < 256 -> vbit (ier a) v = true -> (forall u, vector u -> enabled_in a (irr a) u = true -> u < v) ->
  w = highest_priority_int a (isr a) -> 0 <= w < v -> Z.land w 0xf0 = Z.land v 0xf0 ->
  Z.land (task_priority a) 0xf0 < Z.land v 0xf0 ->
  let a1 := trigger_irq v tm false a in
  let '(x, a2) := acknowledge_int a1 in
  INTR a1 = true /\ x = spurious_vector a /\ INTR a2 = false /\ vbit (irr a2) v = true /\
  forall u, vbit (isr a2) u = vbit (isr a) u.
Proof.
  intros O N V E I HW Hw C T a1. subst a1. pose proof O as [O1 O2 O3]. unfold trigger_irq, BX_LAPIC_FIRST_VECTOR.
  destruct (Z.ltb_spec v 16); [lia|]. rewrite get_vector_eq. cbn [negb andb].
  destruct (vbit (irr a) v) eqn:B.
  { assert (v < v); [|lia]. apply I; [unfold vector; lia|]. unfold enabled_in. rewrite B, E. reflexivity. }
  cbv zeta. set (b := _ <| tmr := _ |>).
  assert (HP : highest_priority_int b (irr b) = v) by (apply (highest_with a b (irr a)); auto; lia).
  assert (SV : service_local_apic b = set_INTR true b).
  { unfold service_local_apic. change (INTR b) with (INTR a). rewrite N, HP.
    change (highest_priority_int b (isr b)) with (highest_priority_int a (isr a)). rewrite <- HW.
    change (task_priority b) with (task_priority a).
    destruct (Z.ltb_spec v 0); [lia|]. destruct (Z.leb_spec v w); [lia|]. rewrite andb_false_r.
    destruct (Z.leb_spec (Z.land v 0xf0) (Z.land (task_priority a) 0xf0)); [lia | reflexivity]. }
  rewrite SV. unfold acknowledge_int. change (INTR (set_INTR true b)) with true. cbn [negb]. cbv zeta.
  change (highest_priority_int (set_INTR true b) (irr (set_INTR true b))) with (highest_priority_int b (irr b)). rewrite HP.
  assert (P : Z.land v 0xf0 <= get_ppr (set_INTR true b)).
  { change (get_ppr (set_INTR true b)) with (get_ppr a). rewrite <- C. unfold get_ppr. rewrite <- HW.
    pose proof (class_le w ltac:(lia)) as CW. pose proof O3 as O3'. unfold fits in O3'. pose proof (class_le _ O3').
    rewrite Z.geb_leb. destruct (Z.ltb_spec w 0); [lia|]. cbn [orb].
    destruct (Z.leb_spec (Z.land w 0xF0) (Z.land (task_priority a) 0xF0)); rewrite wrap_id by (unfold fits; lia); lia. }
  destruct (Z.leb_spec (Z.land v 0xf0) (get_ppr (set_INTR true b))); [|lia]. rewrite orb_true_r.
  repeat split; try reflexivity. change (vbit (set_vector (irr a) v) v = true). rewrite set_vector_bit, Z.eqb_refl. reflexivity.
Qed.

(** An APIC after reset, with the features of a recent processor. *)
Definition new_apic (id : Z) : bx_local_apic_c :=
  reset (Lapic 0 0 true 0 id 0 false 0 false 0 0 0 (fun _ => 0) (fun _ => 0) (fun _ => 0) (fun _ => 0) 0 0 0 0 (fun _ => 0)
    (Timers 0 0 0 0 0 false 0 0 0 0 false false) (Cpu false true true [] [])).

(** Enabling a vector through its IER bit does not signal the waiting request. *)
Lemma enabling_strands_request :
  let l := apic_run 0xff [EnableExtensions 0; WriteReg 0 (BX_LAPIC_IER1 + 0x10) 0 0; Message 0x31 0 APIC_DM_FIXED false 0;
                          WriteReg 0 (BX_LAPIC_IER1 + 0x10) 0xffffffff 0] [new_apic 0] in
  map INTR l = [false] /\ map (fun a => highest_priority_int a (irr a)) l = [0x31].
Proof. vm_compute. auto. Qed.

(** The x2APIC ICR does not read back, and LDR is not derived on entry to the mode. *)
Lemma x2apic_registers_go_wrong :
  let l := apic_run 0xff [SetBase 0 0xfee00c00; WriteMsr 0 0x830 0 0x400 0] [new_apic 5] in
  map (read_x2apic 0xff 0x830 0) l <> [] /\
  map (fun a => match read_x2apic 0xff 0x830 0 a with Some (v, _) => v | None => -1 end) l = [0] /\
  map (fun a => match read_x2apic 0xff 0x80d 0 a with Some (v, _) => v | None => -1 end) l = [0].
Proof. vm_compute. split; [discriminate | auto]. Qed.

(** ** Witnesses *)

(** Two processors: a fixed interrupt to the second, with a timer interrupt of its
    own pending at a lower priority. *)
Lemma lapic_loses_no_interrupt_witness :
  let ops := [SetBase 0 0xfee00800; EnableExtensions 1; WriteReg 1 (BX_LAPIC_IER1 + 0x10) 0xfffd0000 0; WriteReg 1 BX_LAPIC_TPR 0x20 0; WriteReg 1 BX_LAPIC_SPURIOUS_VECTOR 0x1ff 0;
              WriteReg 1 BX_LAPIC_LVT_TIMER 0x31 0; WriteReg 1 BX_LAPIC_TIMER_INITIAL_COUNT 100 0; TimerFires 1 100;
              Acknowledge 1; WriteReg 0 BX_LAPIC_ICR_HI 0x01000000 0; WriteReg 0 BX_LAPIC_ICR_LO 0x4041 0] in
  exists a, nth_error (apic_run 0xff ops (map reset [new_apic 0; new_apic 1])) 1 = Some a /\ INTR a = true.
Proof.
  intros ops. destruct (nth_error (apic_run 0xff ops (map reset [new_apic 0; new_apic 1])) 1) as [a|] eqn:E;
    [|vm_compute in E; discriminate].
  exists a. split; [reflexivity|].
  assert (V : vector 0x41) by (unfold vector; lia).
  assert (C : enabled_in a (irr a) 0x41 = true /\ task_priority a = 0x20 /\
    forallb (fun w => negb (enabled_in a (isr a) w) || (Z.land w 0xf0 <? 0x40)) (zrange 256) = true)
    by (vm_compute in E; injection E as <-; vm_compute; auto).
  destruct C as (C1 & C2 & C3).
  apply (lapic_loses_no_interrupt 0xff ops [new_apic 0; new_apic 1] a 0x41); auto.
  - eapply nth_error_In, E.
  - rewrite C2. reflexivity.
  - intros w Hw Ew. pose proof (zrange_forall 256 _ C3 w Hw) as F. cbv beta in F. rewrite Ew in F. apply Z.ltb_lt. exact F.
Defined.

Lemma above_all_new v id : 16 <= v < 256 -> 0 < Z.land v 0xf0 -> above_all (new_apic id) v.
Proof.
  intros H C.
  assert (Z0 : forall w, enabled_in (new_apic id) (fun _ => 0) w = false) by (intros w; unfold enabled_in, vbit; rewrite Z.testbit_0_l; reflexivity).
  split; [exact H | | | | exact C].
  - change (vbit (ier (new_apic id)) v) with (Z.testbit 0xFFFFFFFF (v mod 32)). pose proof (mod_range v).
    change 0xFFFFFFFF with (Z.ones 32). rewrite Z.testbit_ones by lia. destruct (Z.leb_spec 0 (v mod 32)), (Z.ltb_spec (v mod 32) 32); lia || reflexivity.
  - intros w _ E. change (irr (new_apic id)) with (fun _ : Z => 0) in E. rewrite Z0 in E. discriminate.
  - intros w _ E. change (isr (new_apic id)) with (fun _ : Z => 0) in E. rewrite Z0 in E. discriminate.
Qed.

Lemma new_apic_ok id : lapic_ok (new_apic id).
Proof. split; try (intros k; cbn; unfold fits; lia). cbn. unfold fits. lia. Qed.

Lemma interrupt_life_witness :
  let a1 := trigger_irq 0x45 1 false (new_apic 0) in
  INTR a1 = true /\ fst (acknowledge_int a1) = 0x45 /\
  events (cpu (receive_EOI (snd (acknowledge_int a1)))) = [IoapicEOI 0x45].
Proof.
  destruct (interrupt_life (new_apic 0) 0x45 1 (new_apic_ok 0) (above_all_new 0x45 0 ltac:(lia) ltac:(reflexivity)) eq_refl
    ltac:(discriminate)) as (A & B & _ & _ & C).
  split; [exact A|]. split; [exact B | exact C].
Defined.

Lemma same_class_request_is_spurious_witness :
  let a := snd (acknowledge_int (trigger_irq 0x31 0 false (new_apic 0))) in
  fst (acknowledge_int (trigger_irq 0x35 0 false a)) = 0xff.
Proof.
  intros a.
  assert (O : lapic_ok a) by (pose proof (acknowledge_inv (trigger_irq 0x31 0 false (new_apic 0))
    (trigger_inv 0x31 0 false _ (reset_inv _))) as [H _]; exact H).
  assert (I : forall u, vector u -> enabled_in a (irr a) u = true -> u < 0x35).
  { intros u U E. assert (C : forallb (fun u => negb (enabled_in a (irr a) u)) (zrange 256) = true) by (vm_compute; reflexivity).
    pose proof (zrange_forall 256 _ C u U) as F. cbv beta in F. rewrite E in F. discriminate. }
  assert (F : INTR a = false /\ vbit (ier a) 0x35 = true /\ 0x31 = highest_priority_int a (isr a) /\
    Z.land (task_priority a) 0xf0 < Z.land 0x35 0xf0 /\ spurious_vector a = 0xff) by (vm_compute; auto).
  clearbody a. destruct F as (F1 & F2 & F3 & F4 & F5).
  pose proof (same_class_request_is_spurious a 0x35 0x31 0 O F1 ltac:(lia) F2 I F3 ltac:(lia) eq_refl F4) as T.
  cbv zeta in T. rewrite F5 in T. destruct (acknowledge_int _) as [x a2]. cbn [fst]. exact (proj1 (proj2 T)).
Defined.
