(* ===== verification/Ioapic.v ===== *)
(** * The I/O APIC (iodev/ioapic.h, iodev/ioapic.cc)

    [bx_ioapic_c] with its redirection table.  It delivers to the APIC bus of
    Lapic.v and, for entries in ExtINT mode, acknowledges the 8259s of Pic.v; with
    both it is the [IrqForward] the 8259s forward their lines to.  Memory handler
    registrations and panics are logged. *)

From Stdlib Require Import ZArith Lia List Bool.
From S2P Require Import Prelude Pic Lapic.
Import ListNotations.
Open Scope Z_scope.

Definition BX_IOAPIC_NUM_PINS := 0x18.
Definition BX_IOAPIC_VERSION_ID := Z.lor (Z.shiftl (BX_IOAPIC_NUM_PINS - 1) 16) 0x11.
Definition BX_IOAPIC_BASE_ADDR := 0xfec00000.

(** ** Redirection entries *)

Record bx_io_redirect_entry_t := Entry { hi : Z; lo : Z }.

#[export] Instance entry_eta : Eta bx_io_redirect_entry_t := fun e => Entry (hi e) (lo e).

Definition destination (e : bx_io_redirect_entry_t) : Z := u8 (Z.shiftr (hi e) 24).
Definition is_masked (e : bx_io_redirect_entry_t) : bool := negb (Z.land (Z.shiftr (lo e) 16) 1 =? 0).
Definition trigger_mode (e : bx_io_redirect_entry_t) : Z := Z.land (Z.shiftr (lo e) 15) 1.
Definition remote_irr (e : bx_io_redirect_entry_t) : bool := negb (Z.land (Z.shiftr (lo e) 14) 1 =? 0).
Definition pin_polarity (e : bx_io_redirect_entry_t) : Z := Z.land (Z.shiftr (lo e) 13) 1.
Definition delivery_status (e : bx_io_redirect_entry_t) : bool := negb (Z.land (Z.shiftr (lo e) 12) 1 =? 0).
Definition destination_mode (e : bx_io_redirect_entry_t) : Z := Z.land (Z.shiftr (lo e) 11) 1.
Definition delivery_mode (e : bx_io_redirect_entry_t) : Z := Z.land (Z.shiftr (lo e) 8) 7.
Definition entry_vector (e : bx_io_redirect_entry_t) : Z := Z.land (lo e) 0xff.

Definition set_delivery_status (e : bx_io_redirect_entry_t) := e <| lo := set_bit (lo e) 12 |>.
Definition clear_delivery_status (e : bx_io_redirect_entry_t) := e <| lo := clear_bit (lo e) 12 |>.
Definition set_lo_part (val_lo_part : Z) (e : bx_io_redirect_entry_t) := e <| lo := Z.land val_lo_part 0xffffafff |>.
Definition set_hi_part (val_hi_part : Z) (e : bx_io_redirect_entry_t) := e <| hi := val_hi_part |>.

(** ** State *)

Inductive ioapic_event :=
| RegisterHandlers (base : Z)
| UnregisterHandlers (base : Z)
| PanicIoapicRead | PanicIoapicWrite | PanicUndefinedRegister (ioregsel : Z)
| PanicSpans | PanicUnaligned | PanicLength (len : Z).

Record bx_ioapic_c := Ioapic {
  enabled : bool;
  io_base : Z;               (* base_addr *)
  id : Z;
  ioregsel : Z;
  intin : Z;
  io_irr : Z;                (* irr *)
  ioredtbl : Z -> bx_io_redirect_entry_t;
  io_events : list ioapic_event;
}.

#[export] Instance ioapic_eta : Eta bx_ioapic_c := fun a =>
  Ioapic (enabled a) (io_base a) (id a) (ioregsel a) (intin a) (io_irr a) (ioredtbl a) (io_events a).

(** What the 8259s forward their lines to: the I/O APIC, the bus and its id mask. *)
Record apic_system := ApicSystem { ioapic : bx_ioapic_c; bus : apics; apic_id_mask : Z }.

#[export] Instance apic_system_eta : Eta apic_system := fun m => ApicSystem (ioapic m) (bus m) (apic_id_mask m).

Definition io_event (e : ioapic_event) (a : bx_ioapic_c) : bx_ioapic_c := a <| io_events := io_events a ++ [e] |>.
Definition on_entry (i : Z) (f : bx_io_redirect_entry_t -> bx_io_redirect_entry_t) (a : bx_ioapic_c) : bx_ioapic_c :=
  a <| ioredtbl := fun j => if j =? i then f (ioredtbl a i) else ioredtbl a j |>.

(** ** Interrupts *)

Definition world := (bx_pic_c * apic_system)%type.
Definition on_ioapic (f : bx_ioapic_c -> bx_ioapic_c) (w : world) : world := (fst w, (snd w) <| ioapic := f (ioapic (snd w)) |>).

(** The body of the loop of [service_ioapic]; [stuck] only counts for a message. *)
Definition service_pin (w : world) (bit : Z) : world :=
  let io := ioapic (snd w) in
  if negb (Z.land (io_irr io) (Z.shiftl 1 bit) =? 0) then
    let entry := ioredtbl io bit in
    if negb (is_masked entry) then
      let '(vector, pic) := if delivery_mode entry =? 7 then IAC (fst w) else (entry_vector entry, fst w) in
      let '(done, l) := apic_bus_deliver_interrupt (apic_id_mask (snd w)) vector (destination entry) (delivery_mode entry)
                          (negb (destination_mode entry =? 0)) (trigger_mode entry) (bus (snd w)) in
      let w := (pic, (snd w) <| bus := l |>) in
      if done then
        let w := if trigger_mode entry =? 0 then on_ioapic (fun io => io <| io_irr := clear_bit (io_irr io) bit |>) w else w in
        on_ioapic (on_entry bit clear_delivery_status) w
      else on_ioapic (on_entry bit set_delivery_status) w
    else w
  else w.

Definition service_ioapic (w : world) : world := fold_left service_pin (zrange 24) w.

Definition set_irq_level (int_in : Z) (level : bool) (w : world) : world :=
  let int_in := if int_in =? 0 then 2 else int_in in
  if int_in <? BX_IOAPIC_NUM_PINS then
    let io := ioapic (snd w) in
    let bit := Z.shiftl 1 int_in in
    if negb (Z.shiftl (Z.b2z level) int_in =? Z.land (intin io) bit) then
      let entry := ioredtbl io int_in in
      let up io := io <| intin := Z.lor (intin io) bit |> in
      let down io := io <| intin := Z.land (intin io) (Z.lnot bit) |> in
      let request io := io <| io_irr := Z.lor (io_irr io) bit |> in
      if negb (trigger_mode entry =? 0) then
        if level then service_ioapic (on_ioapic request (on_ioapic up w))
        else on_ioapic (fun io => io <| io_irr := Z.land (io_irr io) (Z.lnot bit) |>) (on_ioapic down w)
      else
        if level then
          let w := on_ioapic up w in
          if negb (is_masked entry) then service_ioapic (on_ioapic request w) else w
        else on_ioapic down w
    else w
  else w.

(** Nothing but a message. *)
Definition io_receive_eoi (vector : Z) (w : world) : world := w.

(** ** Registers *)

Definition table_index (sel : Z) : option Z :=
  let index := Z.shiftr (sel - 0x10) 1 in
  if (index >=? 0) && (index <? BX_IOAPIC_NUM_PINS) then Some index else None.

(** After a panic the code goes on. *)
Definition io_read_aligned (address : Z) (m : apic_system) : Z * apic_system :=
  let address := Z.land address 0xff in
  let on f m := m <| ioapic := f (ioapic m) |> in
  if address =? 0x00 then (ioregsel (ioapic m), m)
  else
    let m := if negb (address =? 0x10) then on (io_event PanicIoapicRead) m else m in
    let io := ioapic m in
    if ioregsel io =? 0x00 then (u32 (Z.shiftl (Z.land (id io) (apic_id_mask m)) 24), m)
    else if ioregsel io =? 0x01 then (BX_IOAPIC_VERSION_ID, m)
    else if ioregsel io =? 0x02 then (0, m)
    else match table_index (ioregsel io) with
         | Some index => (if negb (Z.land (ioregsel io) 1 =? 0) then hi (ioredtbl io index) else lo (ioredtbl io index), m)
         | None => (0, on (io_event (PanicUndefinedRegister (ioregsel io))) m)
         end.

Definition io_write_aligned (address value : Z) (w : world) : world :=
  let address := Z.land address 0xff in
  if address =? 0x00 then on_ioapic (fun io => io <| ioregsel := value |>) w
  else
    let w := if negb (address =? 0x10) then on_ioapic (io_event PanicIoapicWrite) w else w in
    let io := ioapic (snd w) in
    if ioregsel io =? 0x00 then
      on_ioapic (fun io => io <| id := u8 (Z.land (Z.shiftr value 24) (apic_id_mask (snd w))) |>) w
    else if (ioregsel io =? 0x01) || (ioregsel io =? 0x02) then w
    else match table_index (ioregsel io) with
         | Some index =>
             service_ioapic (on_ioapic (on_entry index (if negb (Z.land (ioregsel io) 1 =? 0) then set_hi_part value
                                                        else set_lo_part value)) w)
         | None => on_ioapic (io_event (PanicUndefinedRegister (ioregsel io))) w
         end.

(** [ioapic_read] and [ioapic_write], the memory handlers.  The value read is
    [None] when nothing is stored to [data]. *)
Definition ioapic_read (a20addr len : Z) (m : apic_system) : option Z * apic_system :=
  if negb (Z.land a20addr (Z.lnot 0x3) =? Z.land (a20addr + len - 1) (Z.lnot 0x3)) then
    (None, m <| ioapic := io_event PanicSpans (ioapic m) |>)
  else
    let '(value, m) := io_read_aligned (Z.land a20addr (Z.lnot 0x3)) m in
    if len =? 4 then (Some value, m)
    else
      let value := Z.shiftr value (Z.land a20addr 3 * 8) in
      if len =? 1 then (Some (Z.land value 0xff), m)
      else if len =? 2 then (Some (Z.land value 0xffff), m)
      else (None, m <| ioapic := io_event (PanicLength len) (ioapic m) |>).

(** [data] holds [len] bytes. *)
Definition ioapic_write (a20addr len data : Z) (w : world) : world :=
  if negb (Z.land a20addr 0xf =? 0) then on_ioapic (io_event PanicUnaligned) w
  else if len =? 4 then io_write_aligned a20addr data w
  else
    let w := if negb (Z.land a20addr 0xff =? 0) then on_ioapic (io_event (PanicLength len)) w else w in
    if len =? 2 then io_write_aligned a20addr (u16 data) w
    else if len =? 1 then io_write_aligned a20addr (u8 data) w
    else on_ioapic (io_event (PanicLength len)) w.

(** ** Configuration *)

Definition reset (a : bx_ioapic_c) : bx_ioapic_c :=
  a <| ioredtbl := fun i => if (0 <=? i) && (i <? BX_IOAPIC_NUM_PINS)
                            then set_hi_part 0 (set_lo_part 0x00010000 (ioredtbl a i)) else ioredtbl a i |>
    <| intin := 0 |> <| io_irr := 0 |> <| ioregsel := 0 |>.

Definition set_enabled (en : bool) (base_offset : Z) (a : bx_ioapic_c) : bx_ioapic_c :=
  let base := Z.lor BX_IOAPIC_BASE_ADDR base_offset in
  if negb (eqb en (enabled a)) then
    let a := if en then io_event (RegisterHandlers base) (a <| io_base := base |>)
             else io_event (UnregisterHandlers (io_base a)) a in
    a <| enabled := en |>
  else if enabled a && negb (base_offset =? Z.land (io_base a) 0xffff) then
    let a := io_event (UnregisterHandlers (io_base a)) a in
    io_event (RegisterHandlers base) (a <| io_base := base |>)
  else a.

(** The constructor with its table of masked entries, and [init]. *)
Definition new_ioapic (default_id : Z) : bx_ioapic_c :=
  Ioapic false BX_IOAPIC_BASE_ADDR default_id 0 0 0 (fun _ => Entry 0 0x10000) [].
Definition init (a : bx_ioapic_c) : bx_ioapic_c := set_enabled true 0 a.

(** ** What the 8259s see *)

#[export] Instance ioapic_forward : IrqForward apic_system := {
  ioapic_present := fun _ => true;
  ioapic_set_irq_level := set_irq_level;
}.
