(* ===== verification/IoapicProps.v ===== *)
(** * 8259s, I/O APIC and local APICs together

    The I/O APIC keeps the invariants of the 8259s and of the local APICs, and
    takes an interrupt from a device's line to the acknowledge of the processor
    its redirection entry names. *)

From Stdlib Require Import ZArith Lia List Bool.
From Stdlib Require Import Finite.
From S2P Require Import Prelude Pic PicSpec Lapic LapicProps LapicBus Ioapic.
Import ListNotations.
Open Scope Z_scope.

Definition system_inv (w : world) : Prop := pic_inv (fst w) /\ Forall lapic_inv (bus (snd w)).

Lemma service_pin_inv w bit : system_inv w -> system_inv (service_pin w bit).
Proof.
  intros [P L]. unfold service_pin. destruct (negb (Z.land (io_irr _) _ =? 0)); [|split; assumption]. cbv zeta.
  destruct (negb (is_masked _)); [|split; assumption].
  set (x := if delivery_mode _ =? 7 then IAC (fst w) else _).
  assert (X : pic_inv (snd x)) by (subst x; destruct (_ =? 7); [apply IAC_inv, P | exact P]).
  destruct x as [v pic]. cbn [snd] in X.
  match goal with |- context [apic_bus_deliver_interrupt ?m ?v ?d ?dm ?lg ?tm ?l] =>
    pose proof (bus_deliver_inv m v d dm lg tm l L) as D; destruct (apic_bus_deliver_interrupt m v d dm lg tm l) as [done l'] end.
  cbn [snd] in D. destruct done; [|split; assumption].
  destruct (trigger_mode _ =? 0); split; assumption.
Qed.

Lemma service_ioapic_inv w : system_inv w -> system_inv (service_ioapic w).
Proof.
  unfold service_ioapic. generalize (zrange 24). intros l. revert w.
  induction l as [|b l IH]; intros w H; [exact H|]. apply IH, service_pin_inv, H.
Qed.

Lemma set_irq_level_inv n level w : system_inv w -> system_inv (set_irq_level n level w).
Proof.
  intros H. unfold set_irq_level. cbv zeta. repeat case_bool; try exact H; apply service_ioapic_inv; exact H.
Qed.

#[export] Instance ioapic_forward_ok : IrqForwardOk (B := apic_system).
Proof.
  split. intros n level w P. cbn [ioapic_set_irq_level ioapic_forward].
  (* the 8259s alone *)
  assert (K : forall w bit, pic_inv (fst w) -> pic_inv (fst (service_pin w bit))).
  { clear. intros w bit P. unfold service_pin. destruct (negb (Z.land (io_irr _) _ =? 0)); [|exact P]. cbv zeta.
    destruct (negb (is_masked _)); [|exact P].
    set (x := if delivery_mode _ =? 7 then IAC (fst w) else _).
    assert (X : pic_inv (snd x)) by (subst x; destruct (_ =? 7); [apply IAC_inv, P | exact P]).
    destruct x as [v pic]. cbn [snd] in X. destruct (apic_bus_deliver_interrupt _ _ _ _ _ _ _) as [done l'].
    destruct done; [|exact X]. destruct (trigger_mode _ =? 0); exact X. }
  assert (S : forall w, pic_inv (fst w) -> pic_inv (fst (service_ioapic w))).
  { intros w'. unfold service_ioapic. generalize (zrange 24). intros l. revert w'.
    induction l as [|b l IH]; intros w' Q; [exact Q|]. apply IH, K, Q. }
  unfold set_irq_level. cbv zeta. repeat case_bool; try exact P; apply S; exact P.
Qed.

(** ** The whole interrupt system *)

Inductive system_op :=
| OnPic (o : pic_op)
| OnApics (o : apic_op)
| MmioRead (a20addr len : Z)
| MmioWrite (a20addr len data : Z)
| IoapicReset.

Definition system_step (o : system_op) (w : world) : world :=
  match o with
  | OnPic o => exec o w
  | OnApics o => (fst w, (snd w) <| bus := apic_step (apic_id_mask (snd w)) o (bus (snd w)) |>)
  | MmioRead a n => (fst w, snd (ioapic_read a n (snd w)))
  | MmioWrite a n d => ioapic_write a n d w
  | IoapicReset => on_ioapic Ioapic.reset w
  end.

(** Devices do not drive line 2, the cascade of the 8259s; a write to an
    interrupt enable register neither enables a vector already requested nor
    disables one in service ([op_legal]). *)
Definition system_op_ok (o : system_op) (w : world) : Prop :=
  match o with OnPic o => op_ok o | OnApics o => op_legal o (bus (snd w)) = true | _ => True end.

(** Each operation of a run is allowed where it happens. *)
Fixpoint system_run_ok (ops : list system_op) (w : world) : Prop :=
  match ops with
  | [] => True
  | o :: ops => system_op_ok o w /\ system_run_ok ops (system_step o w)
  end.

Definition system_run (ops : list system_op) (w : world) : world := fold_left (fun w o => system_step o w) ops w.

Lemma io_read_bus a m : bus (snd (io_read_aligned a m)) = bus m.
Proof.
  unfold io_read_aligned. cbv zeta. destruct (_ =? 0); [reflexivity|]. destruct (negb _);
    repeat match goal with |- context [if ?b then _ else _] => destruct b end; try reflexivity;
    destruct (table_index _); reflexivity.
Qed.

Lemma ioapic_read_bus a n m : bus (snd (ioapic_read a n m)) = bus m.
Proof.
  unfold ioapic_read. destruct (negb _); [reflexivity|].
  pose proof (io_read_bus (Z.land a (Z.lnot 3)) m) as R. destruct (io_read_aligned _ m) as [v m']. cbn [snd] in R.
  repeat match goal with |- context [if ?b then _ else _] => destruct b end; exact R.
Qed.

Lemma io_write_inv a v w : system_inv w -> system_inv (io_write_aligned a v w).
Proof.
  intros H. unfold io_write_aligned. cbv zeta. destruct (_ =? 0); [exact H|].
  set (w1 := if negb _ then _ else w). assert (H1 : system_inv w1) by (subst w1; destruct (negb _); exact H).
  clearbody w1. clear H. destruct (_ =? 0); [exact H1|]. destruct (_ || _); [exact H1|].
  destruct (table_index _); [apply service_ioapic_inv|]; exact H1.
Qed.

Lemma ioapic_write_inv a n d w : system_inv w -> system_inv (ioapic_write a n d w).
Proof.
  intros H. unfold ioapic_write. destruct (negb _); [exact H|]. destruct (n =? 4); [apply io_write_inv, H|]. cbv zeta.
  set (w1 := if negb _ then _ else w). assert (H1 : system_inv w1) by (subst w1; destruct (negb _); exact H).
  clearbody w1. repeat case_bool; try (apply io_write_inv, H1). exact H1.
Qed.

Lemma forward_system_inv n level w : system_inv w -> system_inv (forward n level w).
Proof. intros H. unfold forward. case_bool; [apply set_irq_level_inv|]; exact H. Qed.

Lemma system_step_inv o w : system_op_ok o w -> system_inv w -> system_inv (system_step o w).
Proof.
  intros K H. pose proof H as [P L]. destruct o as [o|o|a n|a n d|]; cbn [system_step system_op_ok] in *.
  - split; [apply (exec_inv (B := apic_system)); assumption|].
    assert (F : forall n level, Forall lapic_inv (bus (snd (forward n level w)))) by (intros; apply forward_system_inv, H).
    destruct o; cbn [exec snd]; try exact L.
    + unfold raise_irq. specialize (F n true). destruct (forward n true w). exact F.
    + unfold lower_irq. specialize (F n false). destruct (forward n false w). exact F.
  - split; [exact P|]. apply step_inv; assumption.
  - split; [exact P|]. cbn [snd]. rewrite ioapic_read_bus. exact L.
  - apply ioapic_write_inv, H.
  - split; assumption.
Qed.

(** C4: in every state the interrupt system of a multiprocessor can reach from power-on,
    by port, memory and register accesses, device lines, acknowledges by the
    processors, IPIs and ExtINT acknowledges by the I/O APIC: the 8259s satisfy
    their invariant, and no local APIC holds back an interrupt it should signal.
    Two things the run may not do ([system_op_ok]): a device does not drive line
    2, and no write to an interrupt enable register of the extended APIC enables
    a vector already requested or disables one in service. *)
Theorem interrupt_system_invariant ops l0 mask default_id :
  let w0 := (pic_c_init, ApicSystem (Ioapic.init (new_ioapic default_id)) (map Lapic.reset l0) mask) in
  system_run_ok ops w0 ->
  let w := system_run ops w0 in
  pic_inv (fst w) /\ Forall (fun a => deliverable a -> INTR a = true) (bus (snd w)).
Proof.
  intros w0 K. cbv zeta.
  assert (H : system_inv w0).
  { split; [apply init_inv|]. apply Forall_map, Forall_forall. intros a _. apply reset_inv. }
  assert (R : forall ops w, system_run_ok ops w -> system_inv w -> system_inv (system_run ops w)).
  { clear. induction ops as [|o ops IH]; intros w K H; [exact H|]. destruct K. apply IH; auto using system_step_inv. }
  destruct (R ops w0 K H) as [P L]. split; [exact P|]. eapply Forall_impl; [|exact L]. intros a [_ D]. exact D.
Qed.

(** ** One interrupt *)

(** Pin [b] has nothing to deliver. *)
Definition silent (w : world) (b : Z) : Prop :=
  Z.testbit (io_irr (ioapic (snd w))) b = false \/ is_masked (ioredtbl (ioapic (snd w)) b) = true.

Lemma pin_bit x b : 0 <= b -> negb (Z.land x (Z.shiftl 1 b) =? 0) = Z.testbit x b.
Proof. intros H. change (Z.shiftl 1 b) with (bitmask b). rewrite land_bitmask_zero, negb_involutive by exact H. reflexivity. Qed.

Lemma silent_pin w b : 0 <= b -> silent w b -> service_pin w b = w.
Proof.
  intros H [S|S]; unfold service_pin; rewrite pin_bit by exact H; [rewrite S; reflexivity|].
  destruct (Z.testbit _ b); [|reflexivity]. cbv zeta. rewrite S. reflexivity.
Qed.

Lemma silent_pins l : forall w, (forall b, In b l -> 0 <= b /\ silent w b) -> fold_left service_pin l w = w.
Proof.
  induction l as [|b l IH]; intros w H; [reflexivity|]. cbn [fold_left].
  destruct (H b) as [H1 H2]; [left; reflexivity|]. rewrite silent_pin by assumption. apply IH. intros c Hc. apply H. right. exact Hc.
Qed.

(** Servicing one pin among silent ones. *)
Lemma service_one n w : 0 <= n < 24 -> (forall b, 0 <= b < 24 -> b <> n -> silent w b) ->
  (forall b, b <> n -> silent w b -> silent (service_pin w n) b) -> service_ioapic w = service_pin w n.
Proof.
  intros Hn Q K. unfold service_ioapic.
  assert (I : In n (zrange 24)) by (apply zrange_in; lia).
  destruct (in_split _ _ I) as (l1 & l2 & E).
  assert (ND : NoDup (l1 ++ n :: l2)).
  { rewrite <- E. unfold zrange. apply Injective_map_NoDup; [intros x y; apply Nat2Z.inj | apply seq_NoDup]. }
  apply NoDup_remove_2 in ND. rewrite in_app_iff in ND.
  assert (R : forall b, In b l1 \/ In b l2 -> 0 <= b < 24 /\ b <> n).
  { intros b Hb. split.
    - apply (zrange_in 24). rewrite E. apply in_or_app. destruct Hb; [left | right; right]; assumption.
    - intros ->. apply ND, Hb. }
  rewrite E, fold_left_app. cbn [fold_left]. rewrite (silent_pins l1).
  - apply silent_pins. intros b Hb. destruct (R b (or_intror Hb)). split; [lia|]. apply K, Q; auto.
  - intros b Hb. destruct (R b (or_introl Hb)). split; [lia|]. apply Q; auto.
Qed.

Lemma on_apic_nth i f l j : nth_error (on_apic i f l) j =
  if (j =? i)%nat then option_map f (nth_error l j) else nth_error l j.
Proof.
  revert i j. induction l as [|a l IH]; intros i j.
  - cbn. destruct j; destruct (_ =? _)%nat; reflexivity.
  - destruct i, j; cbn; try reflexivity. apply IH.
Qed.

Lemma find_apic_first f l i a : forall k, nth_error l i = Some a -> f a = true ->
  (forall j b, (j < i)%nat -> nth_error l j = Some b -> f b = false) -> find_apic f k l = Some (k + i)%nat.
Proof.
  revert i. induction l as [|b l IH]; intros i k N F O; [destruct i; discriminate|]. cbn [find_apic].
  destruct i as [|i].
  - injection N as ->. rewrite F, Nat.add_0_r. reflexivity.
  - rewrite (O 0%nat b) by (lia || reflexivity). rewrite (IH i (S k)).
    + f_equal. lia.
    + exact N.
    + exact F.
    + intros j c Hj Hc. apply (O (S j)); [lia | exact Hc].
Qed.

(** The pin an input is connected to: the timer is on pin 2. *)
Definition pin_of (n : Z) : Z := if n =? 0 then 2 else n.

(** An unmasked entry that sends a fixed interrupt to the local APIC with index
    [i] by its physical id. *)
Record sends (m : apic_system) (p : Z) (i : nat) (a : bx_local_apic_c) : Prop := {
  se_unmasked : is_masked (ioredtbl (ioapic m) p) = false;
  se_fixed : delivery_mode (ioredtbl (ioapic m) p) = APIC_DM_FIXED;
  se_physical : destination_mode (ioredtbl (ioapic m) p) = 0;
  se_single : Z.land (destination (ioredtbl (ioapic m) p)) (apic_id_mask m) <> apic_id_mask m;
  se_apic : nth_error (bus m) i = Some a;
  se_id : apic_id a = destination (ioredtbl (ioapic m) p);
  se_first : forall j b, (j < i)%nat -> nth_error (bus m) j = Some b -> apic_id b <> apic_id a;
}.

(** Such an entry that is edge triggered. *)
Record routes (m : apic_system) (p : Z) (i : nat) (a : bx_local_apic_c) : Prop := {
  ro_edge : trigger_mode (ioredtbl (ioapic m) p) = 0;
  ro_unmasked : is_masked (ioredtbl (ioapic m) p) = false;
  ro_fixed : delivery_mode (ioredtbl (ioapic m) p) = APIC_DM_FIXED;
  ro_physical : destination_mode (ioredtbl (ioapic m) p) = 0;
  ro_single : Z.land (destination (ioredtbl (ioapic m) p)) (apic_id_mask m) <> apic_id_mask m;
  ro_apic : nth_error (bus m) i = Some a;
  ro_id : apic_id a = destination (ioredtbl (ioapic m) p);
  ro_first : forall j b, (j < i)%nat -> nth_error (bus m) j = Some b -> apic_id b <> apic_id a;
}.

Lemma routes_sends m p i a : routes m p i a -> sends m p i a.
Proof. intros []. split; assumption. Qed.

(** Pin [p] goes high and is latched as a request. *)
Definition pin_up (p : Z) (w : world) : world :=
  on_ioapic (fun io => io <| intin := Z.lor (intin io) (Z.shiftl 1 p) |>) w.
Definition latched (p : Z) (w : world) : world :=
  on_ioapic (fun io => io <| io_irr := Z.lor (io_irr io) (Z.shiftl 1 p) |>) (pin_up p w).

(** What a rising line does, by the kind of its entry. *)
Lemma rising_line n p w : 0 <= n -> pin_of n = p -> 0 <= p < 24 -> Z.testbit (intin (ioapic (snd w))) p = false ->
  set_irq_level n true w =
  if (trigger_mode (ioredtbl (ioapic (snd w)) p) =? 0) && is_masked (ioredtbl (ioapic (snd w)) p) then pin_up p w
  else service_ioapic (latched p w).
Proof.
  intros Hn Hp Rp Low. unfold set_irq_level. fold (pin_of n). rewrite Hp. cbv zeta.
  unfold BX_IOAPIC_NUM_PINS. destruct (Z.ltb_spec p 24); [|lia].
  assert (Z.land (intin (ioapic (snd w))) (Z.shiftl 1 p) = 0) as ->.
  { apply Z.eqb_eq. change (Z.shiftl 1 p) with (bitmask p). rewrite land_bitmask_zero, Low by lia. reflexivity. }
  change (Z.shiftl (Z.b2z true) p) with (bitmask p).
  assert (bitmask p <> 0) by (rewrite bitmask_pow2 by lia; pose proof (Z.pow_pos_nonneg 2 p ltac:(lia) ltac:(lia)); lia).
  destruct (Z.eqb_spec (bitmask p) 0); [contradiction|]. cbn [negb].
  destruct (trigger_mode _ =? 0); cbn [negb andb]; [|reflexivity]. destruct (is_masked _); reflexivity.
Qed.

(** A rising line stays where it is. *)
Lemma line_high n p w : 0 <= n -> pin_of n = p -> 0 <= p < 24 -> Z.testbit (intin (ioapic (snd w))) p = true ->
  set_irq_level n true w = w.
Proof.
  intros Hn Hp Rp High. unfold set_irq_level. fold (pin_of n). rewrite Hp. cbv zeta.
  unfold BX_IOAPIC_NUM_PINS. destruct (Z.ltb_spec p 24); [|lia].
  assert (Z.land (intin (ioapic (snd w))) (Z.shiftl 1 p) = Z.shiftl 1 p) as ->.
  { change (Z.shiftl 1 p) with (bitmask p). apply Z.bits_inj'. intros k Hk.
    rewrite Z.land_spec, bitmask_pow2, Z.pow2_bits_eqb by lia.
    destruct (Z.eqb_spec p k) as [<-|]; [rewrite High; reflexivity | apply andb_false_r]. }
  change (Z.shiftl (Z.b2z true) p) with (Z.shiftl 1 p). rewrite Z.eqb_refl. reflexivity.
Qed.

(** The service of one latched pin among silent ones. *)
Lemma service_latched p i a w : 0 <= p < 24 -> sends (snd w) p i a ->
  (forall b, 0 <= b < 24 -> b <> p -> silent w b) ->
  let e := ioredtbl (ioapic (snd w)) p in
  exists io, service_ioapic (latched p w) =
    (fst w, ApicSystem io (on_apic i (trigger_irq (entry_vector e) (trigger_mode e) false) (bus (snd w))) (apic_id_mask (snd w))) /\
    Z.testbit (intin io) p = true /\ ioredtbl io p = clear_delivery_status e.
Proof.
  intros Rp R Q e. subst e.
  set (w1 := latched p w).
  assert (T1 : ioredtbl (ioapic (snd w1)) = ioredtbl (ioapic (snd w)) /\ bus (snd w1) = bus (snd w) /\
    apic_id_mask (snd w1) = apic_id_mask (snd w) /\ fst w1 = fst w) by (repeat split).
  assert (I1 : forall b, 0 <= b -> Z.testbit (io_irr (ioapic (snd w1))) b = Z.testbit (io_irr (ioapic (snd w))) b || (p =? b)).
  { intros b Hb. exact (set_bit_testbit (io_irr (ioapic (snd w))) p b ltac:(lia)). }
  assert (U1 : Z.testbit (intin (ioapic (snd w1))) p = true).
  { pose proof (set_bit_testbit (intin (ioapic (snd w))) p p ltac:(lia)) as X. rewrite Z.eqb_refl, orb_true_r in X. exact X. }
  clearbody w1. destruct T1 as (T1 & T2 & T3 & T4).
  assert (SP : exists io, service_pin w1 p = (fst w, ApicSystem io
      (on_apic i (trigger_irq (entry_vector (ioredtbl (ioapic (snd w)) p)) (trigger_mode (ioredtbl (ioapic (snd w)) p)) false)
        (bus (snd w))) (apic_id_mask (snd w))) /\
      (forall b, 0 <= b -> b <> p -> Z.testbit (io_irr io) b = Z.testbit (io_irr (ioapic (snd w1))) b) /\
      (forall b, b <> p -> ioredtbl io b = ioredtbl (ioapic (snd w)) b) /\
      Z.testbit (intin io) p = true /\ ioredtbl io p = clear_delivery_status (ioredtbl (ioapic (snd w)) p)).
  { destruct w1 as [pc [io1 bs mk]]. cbn [fst snd ioapic bus apic_id_mask] in T1, T2, T3, T4, I1, U1 |- *. subst pc bs mk.
    unfold service_pin. cbn [fst snd ioapic bus apic_id_mask].
    rewrite pin_bit, I1, Z.eqb_refl, orb_true_r by lia. cbv zeta. rewrite T1, (se_unmasked _ _ _ _ R). cbn [negb].
    rewrite (se_fixed _ _ _ _ R), (se_physical _ _ _ _ R). cbn [Z.eqb negb APIC_DM_FIXED].
    unfold apic_bus_deliver_interrupt. cbn [Z.eqb negb APIC_DM_LOWPRI].
    destruct (Z.eqb_spec (Z.land (destination (ioredtbl (ioapic (snd w)) p)) (apic_id_mask (snd w))) (apic_id_mask (snd w)));
      [destruct (se_single _ _ _ _ R); assumption|].
    rewrite (find_apic_first _ _ i a).
    - cbn [Nat.add]. destruct (trigger_mode _ =? 0); (eexists; split; [reflexivity|]); (split; [|split; [|split]]).
      + intros b Hb N. cbn. rewrite clear_bit_testbit by lia. destruct (Z.eqb_spec p b); [congruence|]. apply andb_true_r.
      + intros b N. cbn. rewrite T1. destruct (Z.eqb_spec b p); [contradiction | reflexivity].
      + exact U1.
      + cbn. rewrite T1, Z.eqb_refl. reflexivity.
      + reflexivity.
      + intros b N. cbn. rewrite T1. destruct (Z.eqb_spec b p); [contradiction | reflexivity].
      + exact U1.
      + cbn. rewrite T1, Z.eqb_refl. reflexivity.
    - exact (se_apic _ _ _ _ R).
    - apply Z.eqb_eq, (se_id _ _ _ _ R).
    - intros j b Hj Hb. apply Z.eqb_neq. rewrite <- (se_id _ _ _ _ R). apply (se_first _ _ _ _ R j b Hj Hb). }
  destruct SP as (io & SP & K1 & K2 & K3 & K4).
  assert (S1 : forall b, 0 <= b < 24 -> b <> p -> silent w1 b).
  { intros b Hb N. destruct (Q b Hb N) as [S|S]; [left | right; rewrite T1; exact S].
    rewrite I1, S by lia. apply Z.eqb_neq. congruence. }
  rewrite (service_one p w1 ltac:(lia) S1), SP; [exists io; auto|].
  intros b N [S|S]; [|right; rewrite SP; cbn [snd ioapic]; rewrite K2, <- T1 by exact N; exact S].
  destruct (Z.lt_ge_cases b 0); [left; apply Z.testbit_neg_r; assumption|].
  left. rewrite SP. cbn [snd ioapic]. rewrite K1 by assumption. exact S.
Qed.

Lemma edge_to_lapic n p i a w : 0 <= n -> pin_of n = p -> 0 <= p < 24 -> routes (snd w) p i a ->
  Z.testbit (intin (ioapic (snd w))) p = false ->
  (forall b, 0 <= b < 24 -> b <> p -> silent w b) ->
  let w' := set_irq_level n true w in
  bus (snd w') = on_apic i (trigger_irq (entry_vector (ioredtbl (ioapic (snd w)) p)) 0 false) (bus (snd w)) /\ fst w' = fst w.
Proof.
  intros Hn Hp Rp R Low Q. cbv zeta. rewrite (rising_line n p) by assumption.
  rewrite (ro_unmasked _ _ _ _ R), andb_false_r.
  destruct (service_latched p i a w Rp (routes_sends _ _ _ _ R) Q) as (io & -> & _).
  rewrite (ro_edge _ _ _ _ R). split; reflexivity.
Qed.

(** C5: from the device to the processor: when a device raises a line whose redirection
    entry is edge triggered, unmasked and names a local APIC by its physical id,
    and no other unmasked pin waits, that processor is interrupted and the
    acknowledge returns the vector of the entry; the other processors are not
    touched.  The timer's line 0 arrives at pin 2. *)
Theorem line_reaches_processor n i a (w : world) : 0 <= n < 24 -> n <> 2 ->
  let p := pin_of n in
  let v := entry_vector (ioredtbl (ioapic (snd w)) p) in
  routes (snd w) p i a -> Z.testbit (intin (ioapic (snd w))) p = false ->
  (forall b, 0 <= b < 24 -> b <> p -> silent w b) ->
  lapic_ok a -> INTR a = false -> above_all a v ->
  let l := bus (snd (raise_irq n w)) in
  (exists a', nth_error l i = Some a' /\ INTR a' = true /\ fst (acknowledge_int a') = v) /\
  (forall j, j <> i -> nth_error l j = nth_error (bus (snd w)) j).
Proof.
  intros Hn N2 p v R Low Q O N A l.
  assert (E : l = on_apic i (trigger_irq v 0 false) (bus (snd w))).
  { subst l. unfold raise_irq, forward. cbn [ioapic_present ioapic_set_irq_level ioapic_forward andb].
    destruct (Z.eqb_spec n 2); [contradiction|]. cbn [negb].
    assert (Hp : 0 <= p < 24) by (subst p; unfold pin_of; destruct (n =? 0); lia).
    destruct (edge_to_lapic n p i a w ltac:(lia) eq_refl Hp R Low Q) as [B _].
    destruct (set_irq_level n true w) as [s m]. exact B. }
  rewrite E. split.
  - exists (trigger_irq v 0 false a). rewrite on_apic_nth, Nat.eqb_refl, (ro_apic _ _ _ _ R).
    split; [reflexivity | apply acknowledge_above; assumption].
  - intros j Hj. rewrite on_apic_nth. destruct (Nat.eqb_spec j i); [contradiction | reflexivity].
Qed.

(** ** What goes wrong *)

(** A system with two processors whose pin 4 goes to the second with vector 41h;
    [mode] are the other bits of the entry. *)
Definition two_cpus (mode : Z) : world :=
  system_run [MmioWrite 0xfec00000 4 0x19; MmioWrite 0xfec00010 4 0x01000000; MmioWrite 0xfec00000 4 0x18;
              MmioWrite 0xfec00010 4 (Z.lor mode 0x41)]
    (pic_c_init, ApicSystem (Ioapic.init (new_ioapic 2)) (map Lapic.reset [new_apic 0; new_apic 1]) 0xff).

Lemma raise_irq_system n w : n <> 2 -> snd (raise_irq n w) = snd (set_irq_level n true w).
Proof.
  intros N2. unfold raise_irq, forward. cbn [ioapic_present ioapic_set_irq_level ioapic_forward andb].
  destruct (Z.eqb_spec n 2); [contradiction|]. cbn [negb]. destruct (set_irq_level n true w). reflexivity.
Qed.

(** The life of a level-triggered interrupt whose device keeps its line high. *)
Lemma level_interrupt_life n p i a now w : 0 <= n -> n <> 2 -> pin_of n = p -> 0 <= p < 24 ->
  let e := ioredtbl (ioapic (snd w)) p in
  let v := entry_vector e in
  Z.testbit (intin (ioapic (snd w))) p = false ->
  (forall b, 0 <= b < 24 -> b <> p -> silent w b) ->
  sends (snd w) p i a -> trigger_mode e <> 0 ->
  lapic_ok a -> INTR a = false -> above_all a v -> v <> spurious_vector a ->
  let w1 := raise_irq n w in
  let w3 := system_run [OnApics (Acknowledge i); OnApics (WriteReg i BX_LAPIC_EOI 0 now)] w1 in
  exists io a1 a3,
    nth_error (bus (snd w1)) i = Some a1 /\ INTR a1 = true /\ fst (acknowledge_int a1) = v /\
    nth_error (bus (snd w3)) i = Some a3 /\ events (cpu a3) = events (cpu a) ++ [IoapicEOI v] /\
    (forall u, vbit (irr a3) u = vbit (irr a) u) /\
    ioapic (snd w3) = io /\ Z.testbit (intin io) p = true /\ ioredtbl io p = clear_delivery_status e.
Proof.
  intros Hn N2 Hp Rp e v Low Q R L O N A Sp w1 w3.
  destruct (service_latched p i a w Rp R Q) as (io & E & I1 & I2). fold e in E, I2. fold v in E.
  assert (E1 : snd w1 = ApicSystem io (on_apic i (trigger_irq v (trigger_mode e) false) (bus (snd w))) (apic_id_mask (snd w))).
  { subst w1. rewrite raise_irq_system, (rising_line n p) by assumption. fold e.
    destruct (Z.eqb_spec (trigger_mode e) 0); [contradiction|]. cbn [andb]. rewrite E. reflexivity. }
  destruct (interrupt_life a v (trigger_mode e) O A N Sp) as (L1 & L2 & _ & L3 & L4).
  destruct (Z.eqb_spec (trigger_mode e) 0) as [|_]; [contradiction|]. cbn [negb] in L4.
  exists io, (trigger_irq v (trigger_mode e) false a),
    (receive_EOI (snd (acknowledge_int (trigger_irq v (trigger_mode e) false a)))).
  assert (B1 : nth_error (bus (snd w1)) i = Some (trigger_irq v (trigger_mode e) false a)).
  { rewrite E1. cbn [bus]. rewrite on_apic_nth, Nat.eqb_refl, (se_apic _ _ _ _ R). reflexivity. }
  set (l2 := on_apic i (fun a => snd (acknowledge_int a)) (bus (snd w1))).
  assert (B2 : nth_error l2 i = Some (snd (acknowledge_int (trigger_irq v (trigger_mode e) false a)))).
  { subst l2. rewrite on_apic_nth, Nat.eqb_refl, B1. reflexivity. }
  assert (B3 : bus (snd w3) = write_aligned (apic_id_mask (snd w1)) i BX_LAPIC_EOI 0 now l2) by reflexivity.
  assert (W : write_aligned (apic_id_mask (snd w1)) i BX_LAPIC_EOI 0 now l2 = on_apic i receive_EOI l2).
  { unfold write_aligned. rewrite B2. reflexivity. }
  rewrite B3, W, on_apic_nth, Nat.eqb_refl, B2.
  split; [exact B1|]. split; [exact L1|]. split; [exact L2|]. split; [reflexivity|]. split; [exact L4|].
  split; [apply L3|]. split; [|split; assumption].
  change (ioapic (snd w3)) with (ioapic (snd w1)). rewrite E1. reflexivity.
Qed.

Lemma testbit_masked e : is_masked e = Z.testbit (lo e) 16.
Proof. unfold is_masked. rewrite shiftr_land_1 by lia. destruct (Z.testbit _ _); reflexivity. Qed.

(** An edge on a masked pin, then the write that unmasks the pin. *)
Lemma masked_edge_dropped n p value w : 0 <= n -> n <> 2 -> pin_of n = p -> 0 <= p < 24 ->
  let e := ioredtbl (ioapic (snd w)) p in
  Z.testbit (intin (ioapic (snd w))) p = false ->
  (forall b, 0 <= b < 24 -> b <> p -> silent w b) ->
  trigger_mode e = 0 -> is_masked e = true -> Z.testbit (io_irr (ioapic (snd w))) p = false ->
  Z.testbit value 16 = false ->
  let w' := system_run [OnPic (OpRaise n); MmioWrite 0xfec00000 4 (0x10 + 2 * p); MmioWrite 0xfec00010 4 value] w in
  bus (snd w') = bus (snd w) /\ Z.testbit (intin (ioapic (snd w'))) p = true /\
  is_masked (ioredtbl (ioapic (snd w')) p) = false.
Proof.
  intros Hn N2 Hp Rp e Low Q L K I V w'.
  assert (E1 : snd (raise_irq n w) = snd (pin_up p w)).
  { rewrite raise_irq_system, (rising_line n p) by assumption. fold e. rewrite L, K. reflexivity. }
  set (w2 := on_ioapic (on_entry p (set_lo_part value)) (on_ioapic (fun io => io <| ioregsel := 0x10 + 2 * p |>) (raise_irq n w))).
  assert (E : w' = service_ioapic w2).
  { subst w'. unfold system_run. cbn [fold_left system_step exec]. 
    change (ioapic_write 0xfec00000 4 (0x10 + 2 * p) (raise_irq n w))
      with (on_ioapic (fun io => io <| ioregsel := 0x10 + 2 * p |>) (raise_irq n w)).
    set (w1 := on_ioapic _ (raise_irq n w)). change (ioapic_write 0xfec00010 4 value w1) with (io_write_aligned 0xfec00010 value w1).
    unfold io_write_aligned. change (Z.land 0xfec00010 0xff =? 0) with false. change (negb (Z.land 0xfec00010 0xff =? 0x10)) with false.
    cbv zeta iota. change (ioregsel (ioapic (snd w1))) with (0x10 + 2 * p).
    destruct (Z.eqb_spec (0x10 + 2 * p) 0), (Z.eqb_spec (0x10 + 2 * p) 1), (Z.eqb_spec (0x10 + 2 * p) 2); try lia. cbn [orb].
    assert (table_index (0x10 + 2 * p) = Some p) as ->.
    { unfold table_index, BX_IOAPIC_NUM_PINS. replace (0x10 + 2 * p - 0x10) with (p * 2) by lia.
      rewrite Z.shiftr_div_pow2, Z.div_mul by lia. destruct (Z.geb_spec p 0), (Z.ltb_spec p 24); try lia. reflexivity. }
    change 1 with (Z.ones 1) at 1. rewrite Z.land_ones by lia. change (2 ^ 1) with 2.
    replace (0x10 + 2 * p) with ((8 + p) * 2) by lia. rewrite Z.mod_mul by lia. subst w1 w2.
    replace ((8 + p) * 2) with (0x10 + 2 * p) by lia. reflexivity. }
  assert (F : ioapic (snd w2) = on_entry p (set_lo_part value) ((ioapic (snd (raise_irq n w))) <| ioregsel := 0x10 + 2 * p |>) /\
              bus (snd w2) = bus (snd w)).
  { split; [reflexivity|]. change (bus (snd w2)) with (bus (snd (raise_irq n w))). rewrite E1. reflexivity. }
  destruct F as [F1 F2]. rewrite E1 in F1.
  assert (S : forall b, 0 <= b < 24 -> silent w2 b).
  { intros b Hb. destruct (Z.eq_dec b p) as [->|N].
    - left. rewrite F1. exact I.
    - destruct (Q b Hb N) as [S|S]; [left | right]; rewrite F1; [exact S|].
      cbn. destruct (Z.eqb_spec b p); [contradiction | exact S]. }
  assert (service_ioapic w2 = w2) as E2.
  { apply silent_pins. intros b Hb. apply zrange_in in Hb. split; [lia | apply S; exact Hb]. }
  rewrite E, E2. split; [exact F2|]. rewrite F1. split.
  - pose proof (set_bit_testbit (intin (ioapic (snd w))) p p ltac:(lia)) as X. rewrite Z.eqb_refl, orb_true_r in X. exact X.
  - rewrite testbit_masked. cbn [on_entry set_field ioredtbl]. unfold on_entry. cbn [ioredtbl].
    change (Z.testbit (lo (if p =? p then set_lo_part value e else e)) 16 = false). rewrite Z.eqb_refl.
    change (Z.testbit (Z.land value 0xffffafff) 16 = false). rewrite Z.land_spec, V. reflexivity.
Qed.


(** A redirection write delivers the level-triggered interrupt again. *)
Lemma level_interrupt_again :
  let w := system_run [OnPic (OpRaise 4); OnApics (Acknowledge 1); OnApics (WriteReg 1 BX_LAPIC_EOI 0 0)] (two_cpus 0x8000) in
  let again := system_run [MmioWrite 0xfec00000 4 0x10; MmioWrite 0xfec00010 4 0x10000] w in
  map INTR (bus (snd w)) = [false; false] /\ map INTR (bus (snd again)) = [false; true].
Proof. vm_compute. repeat split. Qed.

(** ** Witnesses *)

Lemma interrupt_system_invariant_witness :
  let w := system_run [OnPic (OpWrite 0x21 0xEF); OnApics (EnableExtensions 1);
                       OnApics (WriteReg 1 (BX_LAPIC_IER1 + 0x10) 0xfffd0000 0); OnPic (OpRaise 4);
                       OnPic OpIAC; OnPic (OpLower 4)]
    (pic_c_init, ApicSystem (Ioapic.init (new_ioapic 2)) (map Lapic.reset [new_apic 0; new_apic 1]) 0xff) in
  pic_inv (fst w).
Proof.
  apply (interrupt_system_invariant [OnPic (OpWrite 0x21 0xEF); OnApics (EnableExtensions 1);
    OnApics (WriteReg 1 (BX_LAPIC_IER1 + 0x10) 0xfffd0000 0); OnPic (OpRaise 4); OnPic OpIAC; OnPic (OpLower 4)]
    [new_apic 0; new_apic 1] 0xff 2).
  cbn [system_run_ok system_op_ok op_ok]. repeat split; try lia; vm_compute; reflexivity.
Defined.

Lemma line_reaches_processor_witness :
  let l := bus (snd (raise_irq 4 (two_cpus 0))) in
  map INTR l = [false; true] /\
  exists a', nth_error l 1 = Some a' /\ fst (acknowledge_int a') = 0x41.
Proof.
  assert (R : routes (snd (two_cpus 0)) 4 1 (new_apic 1)).
  { split; try (vm_compute; (reflexivity || congruence)). intros [|j] b Hj Hb; [|lia]. vm_compute in Hb. injection Hb as <-. vm_compute. congruence. }
  assert (S : forall b, 0 <= b < 24 -> b <> 4 -> silent (two_cpus 0) b).
  { intros b _ _. left. change (io_irr (ioapic (snd (two_cpus 0)))) with 0. apply Z.testbit_0_l. }
  assert (V : entry_vector (ioredtbl (ioapic (snd (two_cpus 0))) 4) = 0x41) by (vm_compute; reflexivity).
  pose proof (line_reaches_processor 4 1 (new_apic 1) (two_cpus 0) ltac:(lia) ltac:(lia)) as T.
  cbv zeta in T. change (pin_of 4) with 4 in T. rewrite V in T.
  specialize (T R ltac:(vm_compute; reflexivity) S (new_apic_ok 1) ltac:(vm_compute; reflexivity)
    (above_all_new 0x41 1 ltac:(lia) ltac:(vm_compute; reflexivity))).
  split; [vm_compute; reflexivity|]. destruct T as [(a' & T1 & _ & T2) _]. exists a'. split; [exact T1 | exact T2].
Defined.

