(* ===== verification/Dma.v ===== *)
(** * The 8237 DMA controllers (iodev/dma.h, iodev/dma.cc)

    [bx_dma_c] with both controllers; [bx_pc_system.set_HRQ] drives two things
    outside, the HRQ line and the processor's [async_event], which are part of
    the modelled machine, as are the panics reported (the code goes on after
    BX_PANIC unless it returns).  The handlers that devices register are the
    parameters of [raise_HLDA]; a handler may call [set_DRQ].  Physical memory is
    reached page by page through the memory object's two DMA functions, which
    are parameters, too. *)

From Stdlib Require Import ZArith Lia List Bool.
From S2P Require Import Prelude.
Import ListNotations.
Open Scope Z_scope.

Definition DMA_MODE_DEMAND := 0.
Definition DMA_MODE_SINGLE := 1.
Definition DMA_MODE_BLOCK := 2.
Definition DMA_MODE_CASCADE := 3.

Definition BX_DMA_BUFFER_SIZE := 512.

Record dma_mode := Mode {
  mode_type : Z;
  address_decrement : bool;
  autoinit_enable : bool;
  transfer_type : Z;
}.

Record dma_chan := Chan {
  mode : dma_mode;
  base_address : Z;       (* Bit16u *)
  current_address : Z;
  base_count : Z;
  current_count : Z;
  page_reg : Z;           (* Bit8u *)
  used : bool;
}.

(** One controller; arrays of four are functions of the channel. *)
Record dma_ctrl := Ctrl {
  DRQ : Z -> bool;
  DACK : Z -> bool;
  mask : Z -> bool;
  flip_flop : bool;
  status_reg : Z;         (* Bit8u: requests above, terminal counts below *)
  command_reg : Z;
  ctrl_disabled : bool;
  chan : Z -> dma_chan;
}.

(** Which handlers of a channel are installed. *)
Record dma_handlers := Handlers {
  dmaRead8 : bool; dmaWrite8 : bool; dmaRead16 : bool; dmaWrite16 : bool;
}.

Inductive dma_panic :=
| PanicInvalidChannel (channel : Z)
| PanicChannelInUse (channel : Z)
| PanicDRQChannel
| PanicNotConnected (channel : Z)
| PanicModeType (mode_type : Z)
| PanicBoundary
| PanicNoHandler (channel : Z)
| PanicTransferType.

Record bx_dma_c := Dma {
  s : Z -> dma_ctrl;      (* 0: DMA-1 (channels 0-3), 1: DMA-2 (channels 4-7) *)
  HLDA : bool;
  TC : bool;
  ext_page_reg : Z -> Z;
  h : Z -> dma_handlers;
  HRQ : bool;             (* bx_pc_system.HRQ *)
  async_event : bool;     (* BX_CPU(0)->async_event *)
  panics : list dma_panic;
}.

#[export] Instance dma_mode_eta : Eta dma_mode := fun m =>
  Mode (mode_type m) (address_decrement m) (autoinit_enable m) (transfer_type m).
#[export] Instance dma_chan_eta : Eta dma_chan := fun c =>
  Chan (mode c) (base_address c) (current_address c) (base_count c) (current_count c) (page_reg c) (used c).
#[export] Instance dma_ctrl_eta : Eta dma_ctrl := fun c =>
  Ctrl (DRQ c) (DACK c) (mask c) (flip_flop c) (status_reg c) (command_reg c) (ctrl_disabled c) (chan c).
#[export] Instance dma_handlers_eta : Eta dma_handlers := fun c =>
  Handlers (dmaRead8 c) (dmaWrite8 c) (dmaRead16 c) (dmaWrite16 c).
#[export] Instance bx_dma_eta : Eta bx_dma_c := fun d =>
  Dma (s d) (HLDA d) (TC d) (ext_page_reg d) (h d) (HRQ d) (async_event d) (panics d).

(** Assignment to an array element. *)
Definition upd {A} (k : Z) (v : A) (f : Z -> A) : Z -> A := fun j => if j =? k then v else f j.

Definition on_ctrl (ma_sl : Z) (f : dma_ctrl -> dma_ctrl) (d : bx_dma_c) : bx_dma_c :=
  d <| s := upd ma_sl (f (s d ma_sl)) (s d) |>.
Definition on_chan (channel : Z) (f : dma_chan -> dma_chan) (c : dma_ctrl) : dma_ctrl :=
  c <| chan := upd channel (f (chan c channel)) (chan c) |>.
Definition set_mask (channel : Z) (b : bool) (c : dma_ctrl) : dma_ctrl :=
  c <| mask := upd channel b (mask c) |>.
Definition BX_PANIC (e : dma_panic) (d : bx_dma_c) : bx_dma_c := d <| panics := panics d ++ [e] |>.

Definition set_HRQ (val : bool) (d : bx_dma_c) : bx_dma_c :=
  let d := d <| HRQ := val |> in
  if val then d <| async_event := true |> else d.

(** ** Registration *)

Definition registerDMA8Channel (channel : Z) (dmaRead dmaWrite : bool) (d : bx_dma_c) : Z * bx_dma_c :=
  if channel >? 3 then (0, BX_PANIC (PanicInvalidChannel channel) d)
  else if used (chan (s d 0) channel) then (0, BX_PANIC (PanicChannelInUse channel) d)
  else
    let d := d <| h := upd channel ((h d channel) <| dmaRead8 := dmaRead |> <| dmaWrite8 := dmaWrite |>) (h d) |> in
    (1, on_ctrl 0 (on_chan channel (fun c => c <| used := true |>)) d).

Definition registerDMA16Channel (channel : Z) (dmaRead dmaWrite : bool) (d : bx_dma_c) : Z * bx_dma_c :=
  if (channel <? 4) || (channel >? 7) then (0, BX_PANIC (PanicInvalidChannel channel) d)
  else if used (chan (s d 1) (Z.land channel 0x03)) then (0, BX_PANIC (PanicChannelInUse channel) d)
  else
    let channel := Z.land channel 0x03 in
    let d := d <| h := upd channel ((h d channel) <| dmaRead16 := dmaRead |> <| dmaWrite16 := dmaWrite |>) (h d) |> in
    (1, on_ctrl 1 (on_chan channel (fun c => c <| used := true |>)) d).

Definition unregisterDMAChannel (channel : Z) (d : bx_dma_c) : Z * bx_dma_c :=
  (1, on_ctrl (if channel >? 3 then 1 else 0) (on_chan (Z.land channel 0x03) (fun c => c <| used := false |>)) d).

Definition get_TC (d : bx_dma_c) : bool := TC d.

(** ** Initialisation *)

Definition init_chan : dma_chan := {|
  mode := {| mode_type := 0; address_decrement := false; autoinit_enable := false; transfer_type := 0 |};
  base_address := 0; current_address := 0; base_count := 0; current_count := 0; page_reg := 0; used := false |}.

(** The loops over channels 0 to 3. *)
Definition four {A} (v : A) (f : Z -> A) : Z -> A := upd 3 v (upd 2 v (upd 1 v (upd 0 v f))).

Definition init (d : bx_dma_c) : bx_dma_c :=
  let clear c := c <| DRQ := four false (DRQ c) |> <| DACK := four false (DACK c) |> in
  let d := on_ctrl 1 clear (on_ctrl 0 clear d) in
  let d := d <| HLDA := false |> <| TC := false |> in
  let reset_chans c := c <| chan := four init_chan (chan c) |> in
  let d := on_ctrl 1 reset_chans (on_ctrl 0 reset_chans d) in
  let d := d <| ext_page_reg := fun j => if (0 <=? j) && (j <? 16) then 0 else ext_page_reg d j |> in
  on_ctrl 1 (on_chan 0 (fun c => c <| used := true |>)) d.

Definition reset_ctrl (c : dma_ctrl) : dma_ctrl :=
  c <| mask := four true (mask c) |> <| ctrl_disabled := false |> <| command_reg := 0 |>
    <| status_reg := 0 |> <| flip_flop := false |>.

Definition reset_controller (num : Z) (d : bx_dma_c) : bx_dma_c := on_ctrl num reset_ctrl d.

Definition reset (d : bx_dma_c) : bx_dma_c := reset_controller 1 (reset_controller 0 d).

(** ** Requests

    [set_DRQ] and [control_HRQ] call each other; the recursion ends at DMA-2,
    whose [control_HRQ] does not call [set_DRQ].  Each body takes the function it
    calls, and the two are tied level by level. *)

Definition pending (c : dma_ctrl) (channel : Z) : bool :=
  negb (Z.land (status_reg c) (Z.shiftl 1 (channel + 4)) =? 0) && negb (mask c channel).

(** The search for the highest priority channel; 4 when the loop runs out. *)
Fixpoint find_channel (n : nat) (channel : Z) (c : dma_ctrl) : Z :=
  match n with
  | O => channel
  | S n => if pending c channel then channel else find_channel n (channel + 1) c
  end.

Definition highest_channel (c : dma_ctrl) : Z := find_channel 4 0 c.

Definition control_HRQ_body (set_DRQ4 : bool -> bx_dma_c -> bx_dma_c) (ma_sl : Z) (d : bx_dma_c) : bx_dma_c :=
  let c := s d ma_sl in
  if ctrl_disabled c then d
  else if Z.land (status_reg c) 0xf0 =? 0 then
    if negb (ma_sl =? 0) then set_HRQ false d else set_DRQ4 false d
  else if highest_channel c <? 4 then
    if negb (ma_sl =? 0) then set_HRQ true d else set_DRQ4 true d
  else d.

Definition out_of_boundary (ma_sl : Z) (c : dma_chan) : bool :=
  let dma_base := u32 (Z.lor (Z.shiftl (page_reg c) 16) (Z.shiftl (base_address c) ma_sl)) in
  let dma_roof := if negb (address_decrement (mode c))
                  then u32 (dma_base + Z.shiftl (base_count c) ma_sl)
                  else u32 (dma_base - Z.shiftl (base_count c) ma_sl) in
  let m := u32 (Z.shiftl 0x7fff0000 ma_sl) in
  negb (Z.land dma_base m =? Z.land dma_roof m).

Definition set_DRQ_body (control : Z -> bx_dma_c -> bx_dma_c) (channel : Z) (val : bool) (d : bx_dma_c) : bx_dma_c :=
  if channel >? 7 then BX_PANIC PanicDRQChannel d
  else
    let ma_sl := if channel >? 3 then 1 else 0 in
    let k := Z.land channel 0x03 in
    let d := on_ctrl ma_sl (fun c => c <| DRQ := upd k val (DRQ c) |>) d in
    if negb (used (chan (s d ma_sl) k)) then BX_PANIC (PanicNotConnected channel) d
    else if negb val then
      control ma_sl (on_ctrl ma_sl (fun c => c <| status_reg := Z.ldiff (status_reg c) (Z.shiftl 1 (k + 4)) |>) d)
    else
      let d := on_ctrl ma_sl (fun c => c <| status_reg := u8 (Z.lor (status_reg c) (Z.shiftl 1 (k + 4))) |>) d in
      let c := chan (s d ma_sl) k in
      let d := if negb (mode_type (mode c) =? DMA_MODE_SINGLE) && negb (mode_type (mode c) =? DMA_MODE_DEMAND) &&
                  negb (mode_type (mode c) =? DMA_MODE_CASCADE)
               then BX_PANIC (PanicModeType (mode_type (mode c))) d else d in
      let d := if out_of_boundary ma_sl c then BX_PANIC PanicBoundary d else d in
      control ma_sl d.

Definition control_HRQ_DMA2 : bx_dma_c -> bx_dma_c := control_HRQ_body (fun _ d => d) 1.
Definition set_DRQ4 : bool -> bx_dma_c -> bx_dma_c := set_DRQ_body (fun _ => control_HRQ_DMA2) 4.
Definition control_HRQ (ma_sl : Z) (d : bx_dma_c) : bx_dma_c := control_HRQ_body set_DRQ4 ma_sl d.
Definition set_DRQ (channel : Z) (val : bool) (d : bx_dma_c) : bx_dma_c := set_DRQ_body control_HRQ channel val d.

(** The knot: the mutually recursive equations of the code. *)
Lemma control_HRQ_eq ma_sl d : control_HRQ ma_sl d = control_HRQ_body (set_DRQ 4) ma_sl d.
Proof. reflexivity. Qed.

Lemma set_DRQ_eq channel val d : set_DRQ channel val d = set_DRQ_body control_HRQ channel val d.
Proof. reflexivity. Qed.

(** ** Ports *)

(** [channelindex] *)
Definition channelindex (i : Z) : Z :=
  if i =? 0 then 2 else if i =? 1 then 3 else if i =? 2 then 1 else 0.

Definition one_of (x : Z) (l : list Z) : bool := existsb (Z.eqb x) l.

Definition address_ports : list Z := [0x00; 0x02; 0x04; 0x06; 0xc0; 0xc4; 0xc8; 0xcc].
Definition count_ports : list Z := [0x01; 0x03; 0x05; 0x07; 0xc2; 0xc6; 0xca; 0xce].
Definition extra_pages : list Z := [0x80; 0x84; 0x85; 0x86; 0x88; 0x8c; 0x8d; 0x8e].

Definition toggle (ma_sl : Z) (d : bx_dma_c) : bx_dma_c :=
  on_ctrl ma_sl (fun c => c <| flip_flop := negb (flip_flop c) |>) d.

Definition read (address : Z) (d : bx_dma_c) : Z * bx_dma_c :=
  let ma_sl := if address >=? 0xc0 then 1 else 0 in
  let c := s d ma_sl in
  if one_of address address_ports then
    let channel := Z.land (Z.shiftr address (1 + ma_sl)) 0x03 in
    if negb (flip_flop c)
    then (Z.land (current_address (chan c channel)) 0xff, toggle ma_sl d)
    else (Z.shiftr (current_address (chan c channel)) 8, toggle ma_sl d)
  else if one_of address count_ports then
    let channel := Z.land (Z.shiftr address (1 + ma_sl)) 0x03 in
    if negb (flip_flop c)
    then (Z.land (current_count (chan c channel)) 0xff, toggle ma_sl d)
    else (Z.shiftr (current_count (chan c channel)) 8, toggle ma_sl d)
  else if one_of address [0x08; 0xd0] then
    (status_reg c, on_ctrl ma_sl (fun c => c <| status_reg := Z.land (status_reg c) 0xf0 |>) d)
  else if one_of address [0x0d; 0xda] then (0, d)
  else if one_of address [0x81; 0x82; 0x83; 0x87] then
    (page_reg (chan (s d 0) (channelindex (address - 0x81))), d)
  else if one_of address [0x89; 0x8a; 0x8b; 0x8f] then
    (page_reg (chan (s d 1) (channelindex (address - 0x89))), d)
  else if one_of address extra_pages then (ext_page_reg d (Z.land address 0x0f), d)
  else if one_of address [0x0f; 0xde] then
    let b k := Z.b2z (mask c k) in
    let retval := Z.lor (Z.lor (Z.lor (b 0) (Z.shiftl (b 1) 1)) (Z.shiftl (b 2) 2)) (Z.shiftl (b 3) 3) in
    (Z.lor 0xf0 retval, d)
  else (0, d).

(** One byte of a base and current register. *)
Definition write_address (channel value : Z) (c : dma_ctrl) : dma_ctrl :=
  let c' := on_chan channel (fun r =>
    if negb (flip_flop c)
    then r <| base_address := u16 value |> <| current_address := u16 value |>
    else r <| base_address := u16 (Z.lor (base_address r) (Z.shiftl value 8)) |>
           <| current_address := u16 (Z.lor (current_address r) (Z.shiftl value 8)) |>) c in
  c' <| flip_flop := negb (flip_flop c) |>.

Definition write_count (channel value : Z) (c : dma_ctrl) : dma_ctrl :=
  let c' := on_chan channel (fun r =>
    if negb (flip_flop c)
    then r <| base_count := u16 value |> <| current_count := u16 value |>
    else r <| base_count := u16 (Z.lor (base_count r) (Z.shiftl value 8)) |>
           <| current_count := u16 (Z.lor (current_count r) (Z.shiftl value 8)) |>) c in
  c' <| flip_flop := negb (flip_flop c) |>.

Definition bit (n x : Z) : bool := negb (Z.land (Z.shiftr x n) 0x01 =? 0).

Definition decode_mode (value : Z) : dma_mode := {|
  mode_type := Z.land (Z.shiftr value 6) 0x03;
  address_decrement := bit 5 value;
  autoinit_enable := bit 4 value;
  transfer_type := Z.land (Z.shiftr value 2) 0x03 |}.

(** A write of one byte. *)
Definition write1 (address value : Z) (d : bx_dma_c) : bx_dma_c :=
  let ma_sl := if address >=? 0xc0 then 1 else 0 in
  if one_of address address_ports then
    on_ctrl ma_sl (write_address (Z.land (Z.shiftr address (1 + ma_sl)) 0x03) value) d
  else if one_of address count_ports then
    on_ctrl ma_sl (write_count (Z.land (Z.shiftr address (1 + ma_sl)) 0x03) value) d
  else if one_of address [0x08; 0xd0] then
    control_HRQ ma_sl (on_ctrl ma_sl (fun c => c <| command_reg := u8 value |> <| ctrl_disabled := bit 2 value |>) d)
  else if one_of address [0x09; 0xd2] then
    let channel := Z.land value 0x03 in
    let d := on_ctrl ma_sl (fun c =>
      if negb (Z.land value 0x04 =? 0)
      then c <| status_reg := u8 (Z.lor (status_reg c) (Z.shiftl 1 (channel + 4))) |>
      else c <| status_reg := Z.ldiff (status_reg c) (Z.shiftl 1 (channel + 4)) |>) d in
    control_HRQ ma_sl d
  else if one_of address [0x0a; 0xd4] then
    let set_mask_bit := Z.land value 0x04 in
    control_HRQ ma_sl (on_ctrl ma_sl (set_mask (Z.land value 0x03) (set_mask_bit >? 0)) d)
  else if one_of address [0x0b; 0xd6] then
    on_ctrl ma_sl (on_chan (Z.land value 0x03) (fun c => c <| mode := decode_mode value |>)) d
  else if one_of address [0x0c; 0xd8] then on_ctrl ma_sl (fun c => c <| flip_flop := false |>) d
  else if one_of address [0x0d; 0xda] then reset_controller ma_sl d
  else if one_of address [0x0e; 0xdc] then
    control_HRQ ma_sl (on_ctrl ma_sl (fun c => c <| mask := four false (mask c) |>) d)
  else if one_of address [0x0f; 0xde] then
    control_HRQ ma_sl (on_ctrl ma_sl (fun c =>
      set_mask 3 (bit 3 value) (set_mask 2 (bit 2 value) (set_mask 1 (bit 1 value) (set_mask 0 (bit 0 value) c)))) d)
  else if one_of address [0x81; 0x82; 0x83; 0x87] then
    on_ctrl 0 (on_chan (channelindex (address - 0x81)) (fun c => c <| page_reg := u8 value |>)) d
  else if one_of address [0x89; 0x8a; 0x8b; 0x8f] then
    on_ctrl 1 (on_chan (channelindex (address - 0x89)) (fun c => c <| page_reg := u8 value |>)) d
  else if one_of address extra_pages then
    d <| ext_page_reg := upd (Z.land address 0x0f) (u8 value) (ext_page_reg d) |>
  else d.

Definition write (address value io_len : Z) (d : bx_dma_c) : bx_dma_c :=
  if io_len >? 1 then
    if (io_len =? 2) && (address =? 0x0b)
    then write1 (address + 1) (Z.shiftr value 8) (write1 address (Z.land value 0xff) d)
    else d
  else write1 address value d.

(** ** Transfers *)

(** What a handler did: the number of units it moved, the buffer it leaves, its
    device's new state, the [set_DRQ] calls it made. *)
Record reply (D : Type) := Reply {
  r_len : Z; r_buffer : list Z; r_device : D; r_drqs : list (Z * bool)
}.
Arguments Reply {D}.
Arguments r_len {D}.
Arguments r_buffer {D}.
Arguments r_device {D}.
Arguments r_drqs {D}.

Section Transfers.
(** [M] is the state of the memory object, [D] that of the devices. *)
Variables M D : Type.
Variable dmaReadPhysicalPage : Z -> Z -> M -> list Z.
Variable dmaWritePhysicalPage : Z -> list Z -> M -> M.
(** The registered handlers, by width, channel, buffer, [maxlen] and TC line. *)
Variable dev_write : bool -> Z -> list Z -> Z -> bool -> D -> reply D.
Variable dev_read : bool -> Z -> list Z -> Z -> bool -> D -> reply D.
(** The contents of [raise_HLDA]'s buffer, which it does not initialise. *)
Variable junk : list Z.

(** The page by page loops; every round moves at least one byte. *)
Fixpoint write_pages (fuel : nat) (phy_addr len : Z) (ptr : list Z) (m : M) : M :=
  match fuel with
  | O => m
  | S fuel =>
      if len >? 0 then
        let remainingInPage := 0x1000 - Z.land phy_addr 0xfff in
        let remainingInPage := if len <? remainingInPage then len else remainingInPage in
        let n := Z.to_nat remainingInPage in
        write_pages fuel (phy_addr + remainingInPage) (len - remainingInPage) (skipn n ptr)
          (dmaWritePhysicalPage phy_addr (firstn n ptr) m)
      else m
  end.

Definition DEV_MEM_WRITE_PHYSICAL_DMA (phy_addr len : Z) (ptr : list Z) (m : M) : M :=
  write_pages (S (Z.to_nat len)) phy_addr len ptr m.

Fixpoint read_pages (fuel : nat) (phy_addr len : Z) (m : M) : list Z :=
  match fuel with
  | O => []
  | S fuel =>
      if len >? 0 then
        let remainingInPage := 0x1000 - Z.land phy_addr 0xfff in
        let remainingInPage := if len <? remainingInPage then len else remainingInPage in
        dmaReadPhysicalPage phy_addr remainingInPage m ++
        read_pages fuel (phy_addr + remainingInPage) (len - remainingInPage) m
      else []
  end.

(** The read fills the front of the buffer. *)
Definition DEV_MEM_READ_PHYSICAL_DMA (phy_addr len : Z) (ptr : list Z) (m : M) : list Z :=
  let data := read_pages (S (Z.to_nat len)) phy_addr len m in
  data ++ skipn (length data) ptr.

Definition run_drqs (l : list (Z * bool)) (d : bx_dma_c) : bx_dma_c :=
  fold_left (fun d '(channel, val) => set_DRQ channel val d) l d.

(** The transfer proper; the result is [len]. *)
Definition transfer (ma_sl channel phy_addr maxlen : Z) (d : bx_dma_c) (m : M) (dev : D) : Z * bx_dma_c * M * D :=
  let wide := negb (ma_sl =? 0) in
  let tt := transfer_type (mode (chan (s d ma_sl) channel)) in
  let installed8 (f : dma_handlers -> bool) (f16 : dma_handlers -> bool) :=
    if wide then f16 (h d channel) else f (h d channel) in
  let units n := if wide then n / 2 else n in
  if tt =? 1 then
    let '(len, buffer, d, dev) :=
      if installed8 dmaWrite8 dmaWrite16 then
        let r := dev_write wide channel junk (units maxlen) (TC d) dev in
        (r_len r, r_buffer r, run_drqs (r_drqs r) d, r_device r)
      else (1, junk, BX_PANIC (PanicNoHandler channel) d, dev) in
    (len, d, DEV_MEM_WRITE_PHYSICAL_DMA phy_addr len buffer m, dev)
  else if tt =? 2 then
    let buffer := DEV_MEM_READ_PHYSICAL_DMA phy_addr maxlen junk m in
    if installed8 dmaRead8 dmaRead16 then
      let r := dev_read wide channel buffer (units maxlen) (TC d) dev in
      (r_len r, run_drqs (r_drqs r) d, m, r_device r)
    else (1, d, m, dev)
  else if tt =? 0 then
    if installed8 dmaWrite8 dmaWrite16 then
      let r := dev_write wide channel junk 1 (TC d) dev in
      (r_len r, run_drqs (r_drqs r) d, m, r_device r)
    else (1, BX_PANIC (PanicNoHandler channel) d, m, dev)
  else (1, BX_PANIC PanicTransferType d, m, dev).

Definition set_chan (ma_sl channel : Z) (f : dma_chan -> dma_chan) (d : bx_dma_c) : bx_dma_c :=
  on_ctrl ma_sl (on_chan channel f) d.

(** The update of the address and the count. *)
Definition advance (ma_sl channel len : Z) (d : bx_dma_c) : bx_dma_c :=
  let d := on_ctrl ma_sl (fun c => c <| DACK := upd channel true (DACK c) |>) d in
  let d := set_chan ma_sl channel (fun c =>
    if negb (address_decrement (mode c))
    then c <| current_address := u16 (current_address c + len) |>
    else c <| current_address := u16 (current_address c - 1) |>) d in
  set_chan ma_sl channel (fun c => c <| current_count := u16 (current_count c - len) |>) d.

(** The count expired. *)
Definition expire (ma_sl channel : Z) (d : bx_dma_c) : bx_dma_c :=
  let d := on_ctrl ma_sl (fun c => c <| status_reg := u8 (Z.lor (status_reg c) (Z.shiftl 1 channel)) |>) d in
  let d :=
    if negb (autoinit_enable (mode (chan (s d ma_sl) channel))) then on_ctrl ma_sl (set_mask channel true) d
    else set_chan ma_sl channel (fun c =>
           c <| current_address := base_address c |> <| current_count := base_count c |>) d in
  let d := d <| TC := false |> <| HLDA := false |> in
  let d := set_HRQ false d in
  let d := on_ctrl ma_sl (fun c => c <| DACK := upd channel false (DACK c) |>) d in
  if ma_sl =? 0 then
    let d := set_DRQ 4 false d in
    on_ctrl 1 (fun c => c <| DACK := upd 0 false (DACK c) |>) d
  else d.

Definition finish (ma_sl channel len : Z) (d : bx_dma_c) : bx_dma_c :=
  let d := advance ma_sl channel len d in
  if current_count (chan (s d ma_sl) channel) =? 0xffff then expire ma_sl channel d else d.

(** Serving the selected channel. *)
Definition serve (ma_sl channel : Z) (d : bx_dma_c) (m : M) (dev : D) : bx_dma_c * M * D :=
  let c := chan (s d ma_sl) channel in
  let phy_addr := Z.lor (Z.shiftl (page_reg c) 16) (Z.shiftl (current_address c) ma_sl) in
  let '(maxlen, d) :=
    if negb (address_decrement (mode c)) then
      let maxlen := u16 (Z.shiftl (current_count c + 1) ma_sl) in
      let d := d <| TC := maxlen <=? BX_DMA_BUFFER_SIZE |> in
      ((if maxlen >? BX_DMA_BUFFER_SIZE then BX_DMA_BUFFER_SIZE else maxlen), d)
    else (u16 (Z.shiftl 1 ma_sl), d <| TC := current_count c =? 0 |>) in
  let '(len, d, m, dev) := transfer ma_sl channel phy_addr maxlen d m dev in
  (finish ma_sl channel len d, m, dev).

Definition raise_HLDA (d : bx_dma_c) (m : M) (dev : D) : bx_dma_c * M * D :=
  let d := d <| HLDA := true |> in
  let channel := highest_channel (s d 1) in
  if channel =? 0 then
    let d := on_ctrl 1 (fun c => c <| DACK := upd 0 true (DACK c) |>) d in
    let channel := highest_channel (s d 0) in
    if channel >=? 4 then (d, m, dev) else serve 0 channel d m dev
  else if channel >=? 4 then (d, m, dev)
  else serve 1 channel d m dev.

End Transfers.
