(* ===== verification/DmaRequests.v ===== *)
(** * DMA requests are not lost

    The HRQ line follows the requests: while a controller is enabled and one of
    its channels has an unmasked request, DMA-1 requests from DMA-2 and DMA-2
    holds HRQ.  Register accesses, DRQ changes and registrations keep this; the
    end of a transfer, and the accesses that withdraw the cascade request by hand,
    keep it when nobody is waiting behind them. *)

From Stdlib Require Import ZArith Lia List Bool.
From S2P Require Import Prelude Dma.
Import ListNotations.
Open Scope Z_scope.

(** The request bit of a channel. *)
Definition req (c : dma_ctrl) (k : Z) : bool := Z.testbit (status_reg c) (k + 4).

Lemma pending_eq c k : 0 <= k -> pending c k = req c k && negb (mask c k).
Proof.
  intros H. unfold pending, req. change (Z.shiftl 1 (k + 4)) with (bitmask (k + 4)).
  rewrite land_bitmask_zero, negb_involutive by lia. reflexivity.
Qed.

Lemma no_requests c : (Z.land (status_reg c) 0xf0 =? 0) = true -> forall k, 0 <= k < 4 -> req c k = false.
Proof.
  intros H k Hk. apply Z.eqb_eq in H. unfold req.
  assert (T : Z.testbit (Z.land (status_reg c) 0xf0) (k + 4) = false) by (rewrite H; apply Z.testbit_0_l).
  rewrite Z.land_spec in T.
  assert (E : Z.testbit 0xf0 (k + 4) = true).
  { assert (k = 0 \/ k = 1 \/ k = 2 \/ k = 3) as [->|[->|[->| ->]]] by lia; reflexivity. }
  rewrite E, andb_true_r in T. exact T.
Qed.

Lemma find_channel_spec n : forall k c, 0 <= k ->
  let j := find_channel n k c in
  k <= j <= k + Z.of_nat n /\ (forall i, k <= i < j -> pending c i = false) /\
  (j < k + Z.of_nat n -> pending c j = true).
Proof.
  induction n as [|n IH]; intros k c Hk; cbn [find_channel].
  - split; [lia|]. split; intros; lia.
  - destruct (pending c k) eqn:P.
    + split; [lia|]. split; [intros; lia | intros; exact P].
    + destruct (IH (k + 1) c ltac:(lia)) as (B & N & F). split; [lia|]. split.
      * intros i Hi. destruct (Z.eq_dec i k) as [->|]; [exact P | apply N; lia].
      * intros H. apply F. lia.
Qed.

Lemma highest_spec c : 0 <= highest_channel c <= 4 /\
  (forall i, 0 <= i < highest_channel c -> pending c i = false) /\
  (highest_channel c < 4 -> pending c (highest_channel c) = true).
Proof. apply (find_channel_spec 4 0 c). lia. Qed.

Lemma highest_lt c k : 0 <= k < 4 -> pending c k = true -> highest_channel c < 4.
Proof.
  intros Hk P. destruct (highest_spec c) as (B & N & _). destruct (Z.ltb_spec (highest_channel c) 4); [lia|].
  rewrite N in P by lia. discriminate.
Qed.

Lemma dma_upd_same {A} k (v : A) f : upd k v f k = v.
Proof. unfold upd. rewrite Z.eqb_refl. reflexivity. Qed.

Lemma dma_upd_other {A} k j (v : A) f : j <> k -> upd k v f j = f j.
Proof. intros H. unfold upd. destruct (Z.eqb_spec j k); [contradiction | reflexivity]. Qed.

Lemma on_ctrl_same m f d : s (on_ctrl m f d) m = f (s d m).
Proof. apply dma_upd_same. Qed.

Lemma on_ctrl_other m j f d : j <> m -> s (on_ctrl m f d) j = s d j.
Proof. apply dma_upd_other. Qed.

(** ** The invariant *)

Definition hrq_ok (d : bx_dma_c) : Prop :=
  ctrl_disabled (s d 1) = false -> forall k, 0 <= k < 4 -> pending (s d 1) k = true -> HRQ d = true.

Definition cascade_ok (d : bx_dma_c) : Prop :=
  ctrl_disabled (s d 0) = false -> forall k, 0 <= k < 4 -> pending (s d 0) k = true -> req (s d 1) 0 = true.

Definition no_request_lost (d : bx_dma_c) : Prop :=
  used (chan (s d 1) 0) = true /\ hrq_ok d /\ cascade_ok d.

Lemma control_1 d : hrq_ok (control_HRQ 1 d) /\ s (control_HRQ 1 d) = s d.
Proof.
  unfold control_HRQ, control_HRQ_body. cbv zeta. change (negb (1 =? 0)) with true. cbv iota.
  destruct (ctrl_disabled (s d 1)) eqn:C.
  { split; [|reflexivity]. intros H. congruence. }
  destruct (Z.land (status_reg (s d 1)) 0xf0 =? 0) eqn:Z0.
  { split; [|reflexivity]. intros _ k Hk P. cbn [s set_HRQ set_field] in P.
    rewrite pending_eq, (no_requests _ Z0) in P by lia. discriminate. }
  destruct (Z.ltb_spec (highest_channel (s d 1)) 4) as [L|L].
  { split; [|reflexivity]. intros _ k Hk P. reflexivity. }
  split; [|reflexivity]. intros _ k Hk P. pose proof (highest_lt _ k Hk P). lia.
Qed.

Lemma set_DRQ4_ok v d : used (chan (s d 1) 0) = true ->
  hrq_ok (set_DRQ4 v d) /\ s (set_DRQ4 v d) 0 = s d 0 /\ req (s (set_DRQ4 v d) 1) 0 = v /\
  used (chan (s (set_DRQ4 v d) 1) 0) = true.
Proof.
  intros U. unfold set_DRQ4, set_DRQ_body. change (4 >? 7) with false. change (4 >? 3) with true.
  change (Z.land 4 0x03) with 0. cbv iota zeta. set (d1 := on_ctrl 1 _ d).
  assert (E0 : s d1 0 = s d 0) by (apply on_ctrl_other; lia).
  assert (U1 : used (chan (s d1 1) 0) = true) by (unfold d1; rewrite on_ctrl_same; exact U).
  clearbody d1. rewrite U1. cbn [negb]. destruct v; cbn [negb].
  - set (d2 := on_ctrl 1 _ d1).
    assert (R : req (s d2 1) 0 = true).
    { unfold req, d2. rewrite on_ctrl_same. cbn [set_field status_reg].
      rewrite wrap_bit, Z.lor_spec by lia. change (Z.shiftl 1 (0 + 4)) with (bitmask 4).
      rewrite bitmask_testbit by lia. apply orb_true_r. }
    assert (E2 : s d2 0 = s d 0) by (unfold d2; rewrite on_ctrl_other by lia; exact E0).
    assert (U2 : used (chan (s d2 1) 0) = true) by (unfold d2; rewrite on_ctrl_same; exact U1).
    clearbody d2. set (d3 := if negb (mode_type _ =? _) && _ && _ then _ else _).
    assert (E3 : s d3 = s d2) by (subst d3; destruct (_ && _); reflexivity). clearbody d3.
    set (d4 := if out_of_boundary _ _ then _ else _).
    assert (E4 : s d4 = s d2) by (subst d4; destruct (out_of_boundary _ _); exact E3). clearbody d4.
    destruct (control_1 d4) as [K1 K2]. change control_HRQ_DMA2 with (control_HRQ 1).
    rewrite K2, E4. auto.
  - set (d2 := on_ctrl 1 _ d1).
    assert (R : req (s d2 1) 0 = false).
    { unfold req, d2. rewrite on_ctrl_same. cbn [set_field status_reg].
      rewrite Z.ldiff_spec. change (Z.shiftl 1 (0 + 4)) with (bitmask 4).
      rewrite bitmask_testbit by lia. apply andb_false_r. }
    assert (E2 : s d2 0 = s d 0) by (unfold d2; rewrite on_ctrl_other by lia; exact E0).
    assert (U2 : used (chan (s d2 1) 0) = true) by (unfold d2; rewrite on_ctrl_same; exact U1).
    clearbody d2. destruct (control_1 d2) as [K1 K2]. change control_HRQ_DMA2 with (control_HRQ 1).
    rewrite K2. auto.
Qed.

Lemma control_0 d : used (chan (s d 1) 0) = true -> hrq_ok d -> no_request_lost (control_HRQ 0 d).
Proof.
  intros U A. unfold control_HRQ, control_HRQ_body. change (negb (0 =? 0)) with false. cbv iota zeta.
  destruct (ctrl_disabled (s d 0)) eqn:C.
  { split; [exact U|]. split; [exact A|]. intros H. congruence. }
  destruct (Z.land (status_reg (s d 0)) 0xf0 =? 0) eqn:Z0.
  { destruct (set_DRQ4_ok false d U) as (K1 & K2 & K3 & K4). split; [exact K4|]. split; [exact K1|].
    intros _ k Hk P. rewrite K2, pending_eq, (no_requests _ Z0) in P by lia. discriminate. }
  destruct (Z.ltb_spec (highest_channel (s d 0)) 4) as [L|L].
  { destruct (set_DRQ4_ok true d U) as (K1 & K2 & K3 & K4). split; [exact K4|]. split; [exact K1|].
    intros _ k Hk P. exact K3. }
  split; [exact U|]. split; [exact A|]. intros _ k Hk P. pose proof (highest_lt _ k Hk P). lia.
Qed.

(** ** Updates *)

(** The updates of a controller that leave its requests alone. *)
Definition quiet (f : dma_ctrl -> dma_ctrl) : Prop := forall c,
  ctrl_disabled (f c) = ctrl_disabled c /\ (forall k, 0 <= k < 4 -> req (f c) k = req c k) /\
  (forall k, mask (f c) k = mask c k) /\ used (chan (f c) 0) = used (chan c 0).

Lemma quiet_pending f c k : quiet f -> 0 <= k < 4 -> pending (f c) k = pending c k.
Proof. intros Q Hk. destruct (Q c) as (_ & R & M & _). rewrite !pending_eq, R, M by lia. reflexivity. Qed.

Lemma quiet_update m f d : m = 0 \/ m = 1 -> quiet f -> no_request_lost d -> no_request_lost (on_ctrl m f d).
Proof.
  intros Hm Q (U & A & B). destruct (Q (s d m)) as (D & R & M & U').
  destruct Hm as [-> | ->]; unfold no_request_lost, hrq_ok, cascade_ok;
    rewrite on_ctrl_same, on_ctrl_other by lia.
  - split; [exact U|]. split; [exact A|]. rewrite D. intros H k Hk. rewrite quiet_pending by assumption. apply B; assumption.
  - rewrite U', D, R by lia. split; [exact U|]. split; [|exact B].
    intros H k Hk. rewrite quiet_pending by assumption. apply A; assumption.
Qed.

(** Outside the controllers, only HRQ counts. *)
Lemma outer_update d d' : s d' = s d -> HRQ d' = HRQ d -> no_request_lost d -> no_request_lost d'.
Proof. intros E H. unfold no_request_lost, hrq_ok, cascade_ok. rewrite E, H. auto. Qed.

(** Any update of DMA-1 followed by [control_HRQ]. *)
Lemma update_0 f d : no_request_lost d -> no_request_lost (control_HRQ 0 (on_ctrl 0 f d)).
Proof.
  intros (U & A & B). apply control_0; [rewrite on_ctrl_other by lia; exact U|].
  unfold hrq_ok. rewrite on_ctrl_other by lia. exact A.
Qed.

(** An update of DMA-2 that does not withdraw the cascade request. *)
Lemma update_1 f d : used (chan (f (s d 1)) 0) = used (chan (s d 1) 0) ->
  (req (s d 1) 0 = true -> req (f (s d 1)) 0 = true) ->
  no_request_lost d -> no_request_lost (control_HRQ 1 (on_ctrl 1 f d)).
Proof.
  intros U' R (U & A & B). destruct (control_1 (on_ctrl 1 f d)) as [K1 K2].
  unfold no_request_lost, cascade_ok. rewrite K2, on_ctrl_same, on_ctrl_other, U' by lia.
  split; [exact U|]. split; [exact K1|]. intros H k Hk P. apply R, (B H k Hk P).
Qed.

Lemma low_set_req c j k : 0 <= j < 4 -> 0 <= k < 4 ->
  Z.testbit (u8 (Z.lor (status_reg c) (Z.shiftl 1 (j + 4)))) (k + 4) = req c k || (j =? k).
Proof.
  intros Hj Hk. rewrite wrap_bit, Z.lor_spec by lia. change (Z.shiftl 1 (j + 4)) with (bitmask (j + 4)).
  rewrite bitmask_testbit by lia. unfold req. destruct (Z.ltb_spec (k + 4) 8); [|lia]. cbn [andb].
  f_equal. apply eq_true_iff_eq. rewrite !Z.eqb_eq. lia.
Qed.

Lemma low_clear_req c j k : 0 <= j < 4 -> 0 <= k < 4 ->
  Z.testbit (Z.ldiff (status_reg c) (Z.shiftl 1 (j + 4))) (k + 4) = req c k && negb (j =? k).
Proof.
  intros Hj Hk. rewrite Z.ldiff_spec. change (Z.shiftl 1 (j + 4)) with (bitmask (j + 4)).
  rewrite bitmask_testbit by lia. unfold req. do 2 f_equal. apply eq_true_iff_eq. rewrite !Z.eqb_eq. lia.
Qed.

(** ** The operations *)

Lemma land_3 x : 0 <= Z.land x 3 < 4.
Proof. change 3 with (Z.ones 2). rewrite Z.land_ones by lia. apply Z.mod_pos_bound. lia. Qed.

Lemma drq_quiet k v : quiet (fun c => c <| DRQ := upd k v (DRQ c) |>).
Proof. intros c. repeat split. Qed.

Lemma set_DRQ_keeps channel val d : 0 <= channel -> channel <> 4 ->
  no_request_lost d -> no_request_lost (set_DRQ channel val d).
Proof.
  intros Hc N H. unfold set_DRQ, set_DRQ_body. destruct (Z.gtb_spec channel 7).
  { eapply outer_update; [..|exact H]; reflexivity. }
  cbv zeta. set (m := if channel >? 3 then 1 else 0). set (k := Z.land channel 3).
  assert (Hm : m = 0 \/ m = 1) by (subst m; destruct (channel >? 3); auto).
  assert (Hk : 0 <= k < 4) by apply land_3.
  assert (Hmk : m = 1 -> k <> 0).
  { subst m k. destruct (Z.gtb_spec channel 3); [intros _|lia].
    assert (channel = 5 \/ channel = 6 \/ channel = 7) as [->|[->| ->]] by lia; cbn; lia. }
  clearbody m k. set (d1 := on_ctrl m _ d).
  assert (H1 : no_request_lost d1) by (apply quiet_update; auto using drq_quiet). clearbody d1. clear H d.
  destruct (negb (used _)). { eapply outer_update; [..|exact H1]; reflexivity. }
  destruct (negb val).
  - destruct Hm as [-> | ->]; [apply update_0, H1 | apply update_1; auto].
    intros R. unfold req. cbn [set_field status_reg]. rewrite (low_clear_req _ k 0) by lia. rewrite R.
    destruct (Z.eqb_spec k 0); [exfalso; apply Hmk; auto | reflexivity].
  - set (f := fun c : dma_ctrl => c <| status_reg := u8 (Z.lor (status_reg c) (Z.shiftl 1 (k + 4))) |>).
    set (d2 := on_ctrl m f d1). set (c := chan (s d2 m) k).
    set (d3 := if _ && _ && _ then BX_PANIC _ d2 else d2).
    set (d4 := if out_of_boundary m c then BX_PANIC PanicBoundary d3 else d3).
    assert (E : d4 = on_ctrl m f (d1 <| panics := panics d4 |>)).
    { subst d4 d3 d2. clearbody c. destruct (out_of_boundary m c), (_ && _ && _), d1; reflexivity. }
    rewrite E. generalize (panics d4). intros l. clear E d4 d3 c d2.
    assert (H2 : no_request_lost (d1 <| panics := l |>)) by exact H1.
    destruct Hm as [-> | ->]; [apply update_0, H2 | apply update_1; auto].
    intros R. unfold f, req. cbn [set_field status_reg]. rewrite (low_set_req _ k 0) by lia. apply orb_true_iff. left. exact R.
Qed.

(** The writes that withdraw the cascade request by hand: the master clear of
    DMA-2 and clearing its channel 0 in the request register. *)
Definition withdraws_cascade (address value : Z) : bool :=
  (address =? 0xda) || ((address =? 0xd2) && (Z.land value 7 =? 0)).

Lemma one_of_In x l : one_of x l = true <-> In x l.
Proof.
  unfold one_of. rewrite existsb_exists. split.
  - intros (y & I & E). apply Z.eqb_eq in E. subst. exact I.
  - intros I. exists x. split; [exact I | apply Z.eqb_refl].
Qed.

Lemma chan_quiet k g : (forall c, used (g c) = used c) -> quiet (on_chan k g).
Proof.
  intros G c. split; [reflexivity|]. split; [reflexivity|]. split; [reflexivity|].
  unfold on_chan. cbn [set_field chan]. unfold upd. destruct (Z.eqb_spec 0 k) as [<-|]; [apply G | reflexivity].
Qed.

Lemma address_quiet k value : quiet (write_address k value).
Proof.
  intros c. unfold write_address. split; [reflexivity|]. split; [reflexivity|]. split; [reflexivity|].
  apply chan_quiet. intros r. destruct (negb _); reflexivity.
Qed.

Lemma count_quiet k value : quiet (write_count k value).
Proof.
  intros c. unfold write_count. split; [reflexivity|]. split; [reflexivity|]. split; [reflexivity|].
  apply chan_quiet. intros r. destruct (negb _); reflexivity.
Qed.

(** Nobody waits behind the cascade: DMA-1 is disabled or has no unmasked request. *)
Definition nobody_waits (d : bx_dma_c) : Prop :=
  ctrl_disabled (s d 0) = false -> forall k, 0 <= k < 4 -> pending (s d 0) k = false.

Lemma nobody_waits_cascade d : nobody_waits d -> cascade_ok d.
Proof. intros N E k Hk P. rewrite (N E k Hk) in P. discriminate. Qed.

Lemma reset_keeps m d : m = 0 \/ m = 1 -> (m = 1 -> nobody_waits d) -> no_request_lost d -> no_request_lost (reset_controller m d).
Proof.
  intros [-> | ->] N (U & A & B); unfold reset_controller, no_request_lost, hrq_ok, cascade_ok;
    rewrite on_ctrl_same, !on_ctrl_other by lia.
  - split; [exact U|]. split; [exact A|].
    intros _ k Hk. rewrite pending_eq by lia. unfold req. cbn [reset_ctrl set_field status_reg].
    rewrite Z.testbit_0_l. discriminate.
  - split; [exact U|]. split.
    + intros _ k Hk. rewrite pending_eq by lia. unfold req. cbn [reset_ctrl set_field status_reg].
      rewrite Z.testbit_0_l. discriminate.
    + intros E k Hk P. rewrite (N eq_refl E k Hk) in P. discriminate.
Qed.

(** Setting or clearing a request; clearing the cascade's when nobody waits. *)
Lemma request_keeps address value m k d : (m = 0 \/ m = 1) -> k = Z.land value 3 ->
  (m = 1 -> address = 0xd2) -> (withdraws_cascade address value = true -> nobody_waits d) -> no_request_lost d ->
  no_request_lost (control_HRQ m (on_ctrl m (fun c =>
      if negb (Z.land value 0x04 =? 0)
      then c <| status_reg := u8 (Z.lor (status_reg c) (Z.shiftl 1 (k + 4))) |>
      else c <| status_reg := Z.ldiff (status_reg c) (Z.shiftl 1 (k + 4)) |>) d)).
Proof.
  intros Hm Ek Ha W H. pose proof (land_3 value) as K. rewrite <- Ek in K.
  destruct Hm as [-> | ->]; [apply update_0, H|]. set (f := fun c : dma_ctrl => if negb _ then _ else _).
  assert (F : chan (f (s d 1)) = chan (s d 1)) by (subst f; cbv beta; destruct (negb _); reflexivity).
  destruct (withdraws_cascade address value) eqn:V.
  - destruct H as (U & A & B). specialize (W eq_refl).
    destruct (control_1 (on_ctrl 1 f d)) as [C1 C2]. unfold no_request_lost. split; [|split; [exact C1|]].
    + rewrite C2, on_ctrl_same, F. exact U.
    + apply nobody_waits_cascade. unfold nobody_waits. rewrite C2, on_ctrl_other by lia. exact W.
  - apply update_1; auto; [rewrite F; reflexivity|]. subst f. cbv beta. clear F.
    intros R. destruct (negb (Z.land value 4 =? 0)) eqn:T; unfold req; cbn [set_field status_reg].
    + rewrite (low_set_req _ k 0) by lia. rewrite R. reflexivity.
    + rewrite (low_clear_req _ k 0) by lia. rewrite R. destruct (Z.eqb_spec k 0) as [E|]; [exfalso|reflexivity].
      rewrite (Ha eq_refl) in V. unfold withdraws_cascade in V. cbn [Z.eqb Pos.eqb orb andb] in V.
      apply Z.eqb_neq in V. apply V. apply negb_false_iff, Z.eqb_eq in T. subst k.
      change 7 with (Z.lor 3 4). rewrite Z.land_lor_distr_r, E, T. reflexivity.
Qed.

Lemma write1_keeps address value d : (withdraws_cascade address value = true -> nobody_waits d) ->
  no_request_lost d -> no_request_lost (write1 address value d).
Proof.
  intros W H. unfold write1. set (m := if address >=? 0xc0 then 1 else 0).
  assert (Hm : m = 0 \/ m = 1) by (subst m; destruct (address >=? 0xc0); auto).
  assert (Keep : forall f, used (chan (f (s d 1)) 0) = used (chan (s d 1) 0) ->
    (forall k, req (f (s d 1)) k = req (s d 1) k) -> no_request_lost (control_HRQ m (on_ctrl m f d))).
  { intros f U R. destruct Hm as [-> | ->]; [apply update_0, H | apply update_1; auto]. intros. rewrite R. auto. }
  destruct (one_of address address_ports); [apply quiet_update; auto using address_quiet|].
  destruct (one_of address count_ports); [apply quiet_update; auto using count_quiet|].
  destruct (one_of address [0x08; 0xd0]); [apply Keep; reflexivity|].
  destruct (one_of address [0x09; 0xd2]) eqn:P9.
  { apply (request_keeps address); auto. intros E. apply one_of_In in P9.
    destruct P9 as [<-|[<-|[]]]; [discriminate | reflexivity]. }
  destruct (one_of address [0x0a; 0xd4]); [apply Keep; reflexivity|].
  destruct (one_of address [0x0b; 0xd6]); [apply quiet_update; auto; apply chan_quiet; reflexivity|].
  destruct (one_of address [0x0c; 0xd8]); [apply quiet_update; auto; intros c; repeat split|].
  destruct (one_of address [0x0d; 0xda]) eqn:PD.
  { apply one_of_In in PD. apply reset_keeps; auto. intros E.
    destruct PD as [<-|[<-|[]]]; [discriminate | apply W; reflexivity]. }
  destruct (one_of address [0x0e; 0xdc]); [apply Keep; reflexivity|].
  destruct (one_of address [0x0f; 0xde]); [apply Keep; reflexivity|].
  destruct (one_of address [0x81; 0x82; 0x83; 0x87]); [apply quiet_update; auto; apply chan_quiet; reflexivity|].
  destruct (one_of address [0x89; 0x8a; 0x8b; 0x8f]); [apply quiet_update; auto; apply chan_quiet; reflexivity|].
  destruct (one_of address extra_pages); [|exact H].
  eapply outer_update; [..|exact H]; reflexivity.
Qed.

Lemma write_keeps address value io_len d : (withdraws_cascade address value = true -> nobody_waits d) ->
  no_request_lost d -> no_request_lost (write address value io_len d).
Proof.
  intros W H. unfold write. destruct (io_len >? 1); [|apply write1_keeps; assumption].
  destruct ((io_len =? 2) && (address =? 0x0b)) eqn:E; [|exact H].
  bool_hyps. subst. apply write1_keeps; [discriminate|]. apply write1_keeps; [discriminate | exact H].
Qed.

Lemma toggle_keeps m d : m = 0 \/ m = 1 -> no_request_lost d -> no_request_lost (toggle m d).
Proof. intros Hm. apply quiet_update; [exact Hm|]. intros c. repeat split. Qed.

Lemma read_keeps address d : no_request_lost d -> no_request_lost (snd (read address d)).
Proof.
  intros H. unfold read. set (m := if address >=? 0xc0 then 1 else 0).
  assert (Hm : m = 0 \/ m = 1) by (subst m; destruct (address >=? 0xc0); auto).
  repeat match goal with |- no_request_lost (snd (if ?b then _ else _)) => destruct b end;
    cbn [snd]; auto using toggle_keeps.
  apply quiet_update; [exact Hm | | exact H]. intros c. split; [reflexivity|].
  split; [|split; reflexivity]. intros k Hk. unfold req. cbn [set_field status_reg].
  rewrite Z.land_spec. assert (k = 0 \/ k = 1 \/ k = 2 \/ k = 3) as [->|[->|[->| ->]]] by lia; apply andb_true_r.
Qed.

(** ** The end of a transfer drops HLDA *)

Lemma control_HRQ_HLDA_1 d : HLDA (control_HRQ 1 d) = HLDA d.
Proof.
  unfold control_HRQ, control_HRQ_body. cbv zeta. change (negb (1 =? 0)) with true.
  repeat case_bool; reflexivity.
Qed.

Lemma set_DRQ4_HLDA v d : HLDA (set_DRQ4 v d) = HLDA d.
Proof.
  unfold set_DRQ4, set_DRQ_body. change (4 >? 7) with false. cbv iota zeta.
  destruct (negb (used _)); [reflexivity|]. change control_HRQ_DMA2 with (control_HRQ 1).
  destruct (negb v); rewrite control_HRQ_HLDA_1; [reflexivity|].
  repeat case_bool; reflexivity.
Qed.

Section Transfers.
Variables M D : Type.
Variable dmaReadPhysicalPage : Z -> Z -> M -> list Z.
Variable dmaWritePhysicalPage : Z -> list Z -> M -> M.
Variable dev_write dev_read : bool -> Z -> list Z -> Z -> bool -> D -> reply D.
Variable junk : list Z.

(** Devices are attached to channels other than the cascade. *)
Definition drqs_legal (l : list (Z * bool)) : Prop := Forall (fun '(c, _) => 0 <= c /\ c <> 4) l.
Hypothesis write_legal : forall w c b n t dev, drqs_legal (r_drqs (dev_write w c b n t dev)).
Hypothesis read_legal : forall w c b n t dev, drqs_legal (r_drqs (dev_read w c b n t dev)).

Lemma run_drqs_keeps l : forall d, drqs_legal l -> no_request_lost d -> no_request_lost (run_drqs l d).
Proof.
  induction l as [|[c v] l IH]; intros d L H; [exact H|]. pose proof (Forall_inv L) as C.
  apply IH; [exact (Forall_inv_tail L)|]. destruct C as [C1 C2]. apply set_DRQ_keeps; assumption.
Qed.

Lemma transfer_keeps m k a n d mem dev : no_request_lost d ->
  no_request_lost (snd (fst (fst (transfer M D dmaReadPhysicalPage dmaWritePhysicalPage dev_write dev_read junk
    m k a n d mem dev)))).
Proof.
  intros H. unfold transfer. cbv zeta.
  assert (P : forall e, no_request_lost (BX_PANIC e d)) by (intros; eapply outer_update; [..|exact H]; reflexivity).
  destruct (_ =? 1); [|destruct (_ =? 2); [|destruct (_ =? 0)]].
  4: apply P.
  all: destruct (if negb (m =? 0) then _ else _); cbn [fst snd]; auto using run_drqs_keeps.
Qed.

Lemma expire_HLDA m k d : HLDA (expire m k d) = false.
Proof.
  unfold expire. cbv zeta. set (d4 := on_ctrl m _ d). set (d5 := if negb (autoinit_enable _) then _ else _).
  clearbody d5. destruct (m =? 0); [|reflexivity].
  cbn [set_field on_ctrl HLDA]. change (set_DRQ 4) with set_DRQ4. rewrite set_DRQ4_HLDA. reflexivity.
Qed.

Lemma advance_keeps m k len d : m = 0 \/ m = 1 -> no_request_lost d -> no_request_lost (advance m k len d).
Proof.
  intros Hm H. unfold advance, set_chan. repeat (apply quiet_update; [exact Hm | |]); try exact H;
    try (apply chan_quiet; intros c; try destruct (negb _); reflexivity). intros c. repeat split.
Qed.

Lemma finish_keeps m k len d : m = 0 \/ m = 1 -> HLDA (finish m k len d) = true ->
  no_request_lost d -> no_request_lost (finish m k len d).
Proof.
  intros Hm. unfold finish. cbv zeta. destruct (_ =? 0xffff); [rewrite expire_HLDA; discriminate|].
  intros _. apply advance_keeps, Hm.
Qed.

Lemma serve_keeps m k d mem dev : m = 0 \/ m = 1 -> no_request_lost d ->
  let d' := fst (fst (serve M D dmaReadPhysicalPage dmaWritePhysicalPage dev_write dev_read junk m k d mem dev)) in
  HLDA d' = true -> no_request_lost d'.
Proof.
  intros Hm H. unfold serve. cbv zeta.
  assert (T : forall t, no_request_lost (d <| TC := t |>)) by (intros; eapply outer_update; [..|exact H]; reflexivity).
  match goal with |- context [if negb ?b then _ else _] => destruct (negb b) end;
    match goal with |- context [transfer _ _ _ _ _ _ _ ?m ?k ?a ?n ?d0 ?mem ?dev] =>
      pose proof (transfer_keeps m k a n d0 mem dev (T _)) as K;
      destruct (transfer _ _ _ _ _ _ _ m k a n d0 mem dev) as [[[len d1] mem1] dev1] end;
    cbn [fst snd] in *; intros L; apply finish_keeps; assumption.
Qed.

Lemma raise_HLDA_keeps d mem dev :
  let d' := fst (fst (raise_HLDA M D dmaReadPhysicalPage dmaWritePhysicalPage dev_write dev_read junk d mem dev)) in
  HLDA d' = true -> no_request_lost d -> no_request_lost d'.
Proof.
  cbv zeta. unfold raise_HLDA. set (d0 := d <| HLDA := true |>). intros HH H.
  assert (H0 : no_request_lost d0) by (eapply outer_update; [..|exact H]; reflexivity).
  clearbody d0. clear H. revert HH. cbv zeta.
  set (d1 := on_ctrl 1 (fun c => c <| DACK := upd 0 true (DACK c) |>) d0).
  assert (H1 : no_request_lost d1) by (apply quiet_update; auto; intros c; repeat split).
  destruct (highest_channel (s d0 1) =? 0).
  - destruct (_ >=? 4); [intros _; exact H1 | apply serve_keeps; auto].
  - destruct (_ >=? 4); [intros _; exact H0 | apply serve_keeps; auto].
Qed.

(** The cascade channel stays connected through the end of a transfer. *)
Lemma on_ctrl_used m f d : (forall c, used (chan (f c) 0) = used (chan c 0)) ->
  used (chan (s d 1) 0) = true -> used (chan (s (on_ctrl m f d) 1) 0) = true.
Proof.
  intros F U. destruct (Z.eq_dec 1 m) as [<-|N]; [rewrite on_ctrl_same, F | rewrite on_ctrl_other by exact N]; exact U.
Qed.

Lemma on_chan_used k g c : (forall r, used (g r) = used r) -> used (chan (on_chan k g c) 0) = used (chan c 0).
Proof. intros G. apply (chan_quiet k g G c). Qed.

Lemma finish_used m k len d : used (chan (s d 1) 0) = true -> used (chan (s (finish m k len d) 1) 0) = true.
Proof.
  intros U. unfold finish, advance, set_chan. cbv zeta.
  set (d' := on_ctrl m _ (on_ctrl m _ (on_ctrl m _ d))).
  assert (U' : used (chan (s d' 1) 0) = true).
  { repeat apply on_ctrl_used; try exact U; try reflexivity; intros c; apply on_chan_used; intros r;
      try destruct (negb _); reflexivity. }
  clearbody d'. destruct (_ =? 0xffff); [|exact U']. unfold expire. cbv zeta.
  set (d4 := on_ctrl m _ d'). assert (U4 : used (chan (s d4 1) 0) = true) by (apply on_ctrl_used; auto). clearbody d4.
  set (d5 := if negb (autoinit_enable _) then _ else _).
  assert (U5 : used (chan (s d5 1) 0) = true).
  { subst d5. destruct (negb _); [apply on_ctrl_used; auto | apply on_ctrl_used; [intros c; apply on_chan_used|]; auto]. }
  clearbody d5. set (d6 := on_ctrl m _ (set_HRQ _ _)).
  assert (U6 : used (chan (s d6 1) 0) = true) by (apply on_ctrl_used; [reflexivity | exact U5]). clearbody d6.
  destruct (m =? 0); [|exact U6]. change (set_DRQ 4) with set_DRQ4.
  apply on_ctrl_used; [reflexivity | apply set_DRQ4_ok, U6].
Qed.

Lemma serve_used m k d mem dev : no_request_lost d ->
  used (chan (s (fst (fst (serve M D dmaReadPhysicalPage dmaWritePhysicalPage dev_write dev_read junk m k d mem dev))) 1) 0) = true.
Proof.
  intros H. unfold serve. cbv zeta.
  assert (T : forall t, no_request_lost (d <| TC := t |>)) by (intros; eapply outer_update; [..|exact H]; reflexivity).
  match goal with |- context [if negb ?b then _ else _] => destruct (negb b) end;
    match goal with |- context [transfer _ _ _ _ _ _ _ ?m ?k ?a ?n ?d0 ?mem ?dev] =>
      pose proof (transfer_keeps m k a n d0 mem dev (T _)) as K;
      destruct (transfer _ _ _ _ _ _ _ m k a n d0 mem dev) as [[[len d1] mem1] dev1] end;
    cbn [fst snd] in *; apply finish_used, K.
Qed.

Lemma raise_HLDA_used d mem dev : no_request_lost d ->
  used (chan (s (fst (fst (raise_HLDA M D dmaReadPhysicalPage dmaWritePhysicalPage dev_write dev_read junk d mem dev))) 1) 0) = true.
Proof.
  intros H. unfold raise_HLDA. set (d0 := d <| HLDA := true |>). cbv zeta.
  assert (H0 : no_request_lost d0) by (eapply outer_update; [..|exact H]; reflexivity). clearbody d0.
  set (d1 := on_ctrl 1 (fun c => c <| DACK := upd 0 true (DACK c) |>) d0).
  assert (H1 : no_request_lost d1) by (apply quiet_update; auto; intros c; repeat split).
  destruct (highest_channel (s d0 1) =? 0).
  - destruct (_ >=? 4); [apply H1 | apply serve_used, H1].
  - destruct (_ >=? 4); [apply H0 | apply serve_used, H0].
Qed.

(** ** The operations of the chip *)

Inductive dma_op :=
  | Write (address value io_len : Z) | Read (address : Z) | SetDRQ (channel : Z) (val : bool)
  | Register8 (channel : Z) (r w : bool) | Register16 (channel : Z) (r w : bool) | Unregister (channel : Z)
  | Hold.

(** The machine: the chip, memory and the devices. *)
Definition dma_step (o : dma_op) (st : bx_dma_c * M * D) : bx_dma_c * M * D :=
  let '(d, m, dev) := st in
  match o with
  | Write a v n => (write a v n d, m, dev)
  | Read a => (snd (read a d), m, dev)
  | SetDRQ c v => (set_DRQ c v d, m, dev)
  | Register8 c r w => (snd (registerDMA8Channel c r w d), m, dev)
  | Register16 c r w => (snd (registerDMA16Channel c r w d), m, dev)
  | Unregister c => (snd (unregisterDMAChannel c d), m, dev)
  | Hold => raise_HLDA M D dmaReadPhysicalPage dmaWritePhysicalPage dev_write dev_read junk d m dev
  end.

(** What an operation may not do.  No device is attached to channel 4, the cascade:
    nobody changes its DRQ or unregisters it.  The writes that withdraw its
    request by hand are made when nobody waits behind it; and a hold cycle that
    ends its transfer leaves no unmasked request behind, at either controller. *)
Definition step_legal (o : dma_op) (st : bx_dma_c * M * D) : Prop :=
  match o with
  | Write a v n => withdraws_cascade a v = true -> nobody_waits (fst (fst st))
  | Read _ => True
  | SetDRQ c _ => 0 <= c /\ c <> 4
  | Register8 c _ _ => 0 <= c
  | Register16 _ _ _ => True
  | Unregister c => 0 <= c <= 7 /\ c <> 4
  | Hold => let d := fst (fst (dma_step o st)) in
            HLDA d = false -> forall m k, m = 0 \/ m = 1 -> 0 <= k < 4 -> pending (s d m) k = false
  end.

Inductive dma_run : bx_dma_c * M * D -> bx_dma_c * M * D -> Prop :=
  | run_nil st : dma_run st st
  | run_step st st' o : dma_run st st' -> step_legal o st' -> dma_run st (dma_step o st').

Fixpoint all_legal (l : list dma_op) (st : bx_dma_c * M * D) : Prop :=
  match l with [] => True | o :: l => step_legal o st /\ all_legal l (dma_step o st) end.

Lemma dma_run_list l : forall st0 st, dma_run st0 st -> all_legal l st ->
  dma_run st0 (fold_left (fun st o => dma_step o st) l st).
Proof.
  induction l as [|o l IH]; intros st0 st R L; [exact R|]. destruct L as [L1 L2].
  apply IH; [apply run_step; assumption | exact L2].
Qed.

Lemma used_update m k v d : m = 0 \/ m = 1 -> (m = 1 -> k <> 0 \/ v = true) ->
  no_request_lost d -> no_request_lost (on_ctrl m (on_chan k (fun c => c <| used := v |>)) d).
Proof.
  intros Hm Hk (U & A & B). unfold no_request_lost, hrq_ok, cascade_ok.
  destruct Hm as [-> | ->]; rewrite on_ctrl_same, on_ctrl_other by lia; (split; [|split; assumption]);
    [exact U|]. unfold on_chan. cbn [set_field chan]. unfold upd.
  destruct (Z.eqb_spec 0 k) as [<-|]; [|exact U]. destruct (Hk eq_refl); [contradiction | assumption].
Qed.

Lemma step_keeps o st : step_legal o st -> no_request_lost (fst (fst st)) ->
  no_request_lost (fst (fst (dma_step o st))).
Proof.
  destruct st as [[d m] dev]. intros L H. destruct o; cbn [dma_step fst snd step_legal] in *.
  - apply write_keeps; assumption.
  - apply read_keeps, H.
  - apply set_DRQ_keeps; tauto.
  - unfold registerDMA8Channel. repeat case_bool; cbn [snd];
      try (eapply outer_update; [..|exact H]; reflexivity).
    apply used_update; [auto | intros [=] | eapply outer_update; [..|exact H]; reflexivity].
  - unfold registerDMA16Channel. repeat case_bool; cbn [snd];
      try (eapply outer_update; [..|exact H]; reflexivity).
    apply used_update; [auto | auto | eapply outer_update; [..|exact H]; reflexivity].
  - unfold unregisterDMAChannel. cbn [snd]. destruct L as [L1 L2].
    apply used_update; [destruct (_ >? 3); auto | | exact H].
    destruct (Z.gtb_spec channel 3); [|intros [=]]. intros _. left.
    assert (channel = 5 \/ channel = 6 \/ channel = 7) as [->|[->| ->]] by lia; discriminate.
  - destruct (HLDA (fst (fst (raise_HLDA M D dmaReadPhysicalPage dmaWritePhysicalPage dev_write dev_read junk d m dev)))) eqn:E;
      [apply raise_HLDA_keeps; assumption|]. specialize (L eq_refl).
    split; [apply raise_HLDA_used, H|]. split.
    + intros _ k Hk P. rewrite L in P by auto. discriminate.
    + apply nobody_waits_cascade. intros _ k Hk. apply L; auto.
Qed.

(** C9: a request is not lost.  Over any run of register accesses, DRQ changes,
    registrations and hold cycles, in any order and with devices that change
    their DRQs while they are served, every unmasked request of an enabled DMA-2
    keeps HRQ asserted and every unmasked request of an enabled DMA-1 keeps the
    cascade request.  Left out of the runs, by [step_legal]: DRQ changes and the
    unregistration of channel 4; a master clear of DMA-2 or a clearing of channel
    4's request through port D2h while an enabled DMA-1 has an unmasked request;
    and a hold cycle that ends its transfer while another request waits, which
    the code drops ([DmaProps.terminal_count_strands_requests]). *)
Theorem requests_reach_the_processor st st' : dma_run st st' -> no_request_lost (fst (fst st)) ->
  no_request_lost (fst (fst st')).
Proof. induction 1 as [|st st' o R IH L]; intros H; [exact H | apply step_keeps; auto]. Qed.

End Transfers.

Lemma reset_no_request_lost d : no_request_lost (reset (init d)).
Proof.
  split; [reflexivity|]. split.
  - intros _ k Hk. rewrite pending_eq by lia. unfold req.
    change (status_reg (s (reset (init d)) 1)) with 0. rewrite Z.testbit_0_l. discriminate.
  - intros _ k Hk. rewrite pending_eq by lia. unfold req.
    change (status_reg (s (reset (init d)) 0)) with 0. rewrite Z.testbit_0_l. discriminate.
Qed.
