(* ===== verification/DmaTransfer.v ===== *)
(** * A block transfer from a device to memory

    The processor grants the bus while HRQ is asserted.  A channel programmed for
    a block of [n + 1] bytes moves exactly the next [n + 1] bytes of its device to
    consecutive addresses, whatever portions the device chooses, and ends with
    the terminal count and the channel masked. *)

From Stdlib Require Import ZArith Lia List Bool.
From S2P Require Import Prelude Dma DmaRequests.
Import ListNotations.
Open Scope Z_scope.

(** ** What a change of a request leaves alone *)

Record kept (d d' : bx_dma_c) : Prop := {
  kp_chan : forall m, chan (s d' m) = chan (s d m);
  kp_mask : forall m, mask (s d' m) = mask (s d m);
  kp_disabled : forall m, ctrl_disabled (s d' m) = ctrl_disabled (s d m);
  kp_h : h d' = h d;
}.

Lemma kept_refl d : kept d d.
Proof. split; reflexivity. Qed.

Lemma kept_trans d1 d2 d3 : kept d1 d2 -> kept d2 d3 -> kept d1 d3.
Proof. intros [] []. split; congruence. Qed.

Lemma on_ctrl_kept m f d : (forall c, chan (f c) = chan c /\ mask (f c) = mask c /\ ctrl_disabled (f c) = ctrl_disabled c) ->
  kept d (on_ctrl m f d).
Proof.
  intros F. destruct (F (s d m)) as (F1 & F2 & F3).
  split; try reflexivity; intros j; (destruct (Z.eq_dec j m) as [->|N];
    [rewrite on_ctrl_same | rewrite on_ctrl_other by exact N]); auto.
Qed.

Lemma control_HRQ_kept (f : bool -> bx_dma_c -> bx_dma_c) m d : (forall v d, kept d (f v d)) -> kept d (control_HRQ_body f m d).
Proof.
  intros F. unfold control_HRQ_body. cbv zeta. repeat case_bool; try apply F; try apply kept_refl; split; reflexivity.
Qed.

Lemma set_DRQ_body_kept f k v d : (forall m d, kept d (f m d)) -> kept d (set_DRQ_body f k v d).
Proof.
  intros F. unfold set_DRQ_body. case_bool; [split; reflexivity|]. cbv zeta.
  set (m := if k >? 3 then 1 else 0). set (d1 := on_ctrl m _ d).
  assert (K1 : kept d d1) by (apply on_ctrl_kept; auto). clearbody d1.
  apply (kept_trans _ d1); [exact K1|]. case_bool; [split; reflexivity|]. destruct v; cbn [negb].
  - set (d2 := on_ctrl m _ d1). assert (K2 : kept d1 d2) by (apply on_ctrl_kept; auto). clearbody d2.
    apply (kept_trans _ d2); [exact K2|]. set (d3 := if _ && _ && _ then _ else d2).
    assert (K3 : kept d2 d3) by (subst d3; case_bool; split; reflexivity). clearbody d3.
    apply (kept_trans _ d3); [exact K3|]. eapply kept_trans; [|apply F]. case_bool; split; reflexivity.
  - eapply kept_trans; [|apply F]. apply on_ctrl_kept. auto.
Qed.

Lemma set_DRQ4_kept v d : kept d (set_DRQ4 v d).
Proof. apply set_DRQ_body_kept. intros _ d'. apply control_HRQ_kept. intros; apply kept_refl. Qed.

Lemma set_DRQ_kept k v d : kept d (set_DRQ k v d).
Proof. apply set_DRQ_body_kept. intros m d'. apply control_HRQ_kept, set_DRQ4_kept. Qed.

Lemma run_drqs_kept l : forall d, kept d (run_drqs l d).
Proof.
  induction l as [|[k v] l IH]; intros d; [apply kept_refl|].
  exact (kept_trans _ _ _ (set_DRQ_kept k v d) (IH _)).
Qed.

(** The request status of a controller after one channel's request has changed. *)
Definition asking (v : bool) (k : Z) (c : dma_ctrl) : dma_ctrl :=
  c <| status_reg := if v then u8 (Z.lor (status_reg c) (Z.shiftl 1 (k + 4))) else Z.ldiff (status_reg c) (Z.shiftl 1 (k + 4)) |>.

Lemma asking_req v k j c : 0 <= k < 4 -> 0 <= j < 4 -> req (asking v k c) j = if j =? k then v else req c j.
Proof.
  intros Hk Hj. unfold req, asking. cbn [set_field status_reg]. destruct v;
    [rewrite (low_set_req c k j) by assumption | rewrite (low_clear_req c k j) by assumption];
    rewrite (Z.eqb_sym k j); destruct (j =? k); rewrite ?orb_true_r, ?orb_false_r, ?andb_true_r, ?andb_false_r; reflexivity.
Qed.

(** [set_DRQ] of a connected channel is the change of its status bit, then
    [control_HRQ]; what else it sets does not bear on the requests. *)
Lemma set_DRQ_body_asks f k v d : k <= 7 ->
  let m := if k >? 3 then 1 else 0 in
  used (chan (s d m) (Z.land k 3)) = true ->
  exists d', set_DRQ_body f k v d = f m d' /\ kept d d' /\ HRQ d' = HRQ d /\ HLDA d' = HLDA d /\
    (forall j, j <> m -> s d' j = s d j) /\
    status_reg (s d' m) = status_reg (asking v (Z.land k 3) (s d m)).
Proof.
  intros Hk m U. unfold set_DRQ_body. destruct (Z.gtb_spec k 7); [lia|]. fold m. cbv zeta.
  set (i := Z.land k 3) in *. set (d1 := on_ctrl m _ d).
  assert (K1 : kept d d1) by (apply on_ctrl_kept; auto).
  assert (E1 : (forall j, j <> m -> s d1 j = s d j) /\ status_reg (s d1 m) = status_reg (s d m) /\
               HRQ d1 = HRQ d /\ HLDA d1 = HLDA d).
  { split; [intros; apply on_ctrl_other; assumption|]. unfold d1. rewrite on_ctrl_same. repeat split. }
  clearbody d1. rewrite (kp_chan _ _ K1), U. cbn [negb]. destruct E1 as (O1 & S1 & H1 & L1).
  set (d2 := on_ctrl m (asking v i) d1).
  assert (K2 : kept d d2) by (apply (kept_trans _ d1); [exact K1 | apply on_ctrl_kept; auto]).
  assert (E2 : (forall j, j <> m -> s d2 j = s d j) /\ status_reg (s d2 m) = status_reg (asking v i (s d m)) /\
               HRQ d2 = HRQ d /\ HLDA d2 = HLDA d).
  { split; [intros; unfold d2; rewrite on_ctrl_other by assumption; auto|]. unfold d2. rewrite on_ctrl_same.
    unfold asking. cbn [set_field status_reg]. rewrite S1. auto. }
  destruct v; cbn [negb].
  - change (on_ctrl m (fun c => c <| status_reg := u8 (Z.lor (status_reg c) (Z.shiftl 1 (i + 4))) |>) d1) with d2.
    clearbody d2. destruct E2 as (O2 & S2 & H2 & L2).
    set (d3 := if out_of_boundary _ _ then _ else _). exists d3. split; [reflexivity|].
    assert (E3 : exists l, d3 = d2 <| panics := l |>).
    { subst d3. destruct (out_of_boundary _ _), (_ && _ && _); try (eexists; reflexivity).
      exists (panics d2). destruct d2; reflexivity. }
    clearbody d3. destruct E3 as [l ->].
    split; [apply (kept_trans _ d2); [exact K2 | split; reflexivity]|]. exact (conj H2 (conj L2 (conj O2 S2))).
  - exists d2. destruct E2 as (O2 & S2 & H2 & L2). split; [reflexivity|]. split; [exact K2|]. exact (conj H2 (conj L2 (conj O2 S2))).
Qed.

Lemma status_req c c' : status_reg c' = status_reg c -> forall k, req c' k = req c k.
Proof. intros E k. unfold req. rewrite E. reflexivity. Qed.

Lemma all_quiet c : (forall k, 0 <= k < 4 -> req c k = false) -> (Z.land (status_reg c) 0xf0 =? 0) = true.
Proof.
  intros H. apply Z.eqb_eq, Z.bits_inj'. intros i Hi. rewrite Z.land_spec, Z.testbit_0_l.
  destruct (Z.lt_ge_cases i 8).
  - destruct (Z.lt_ge_cases i 4).
    + assert (i = 0 \/ i = 1 \/ i = 2 \/ i = 3) as [->|[->|[->| ->]]] by lia; apply andb_false_r.
    + specialize (H (i - 4) ltac:(lia)). unfold req in H. replace (i - 4 + 4) with i in H by lia. rewrite H. reflexivity.
  - replace (Z.testbit 0xf0 i) with false by (symmetry; apply (fits_testbit 8); unfold fits; lia). apply andb_false_r.
Qed.

Lemma some_request c k : 0 <= k < 4 -> req c k = true -> (Z.land (status_reg c) 0xf0 =? 0) = false.
Proof.
  intros Hk R. destruct (_ =? 0) eqn:E; [|reflexivity]. rewrite (no_requests c E k Hk) in R. discriminate.
Qed.

Lemma highest_only c k : 0 <= k < 4 -> req c k = true -> mask c k = false ->
  (forall j, 0 <= j < 4 -> j <> k -> req c j = false) -> highest_channel c = k.
Proof.
  intros Hk R Mk O. destruct (highest_spec c) as (B & N & P).
  assert (Pk : pending c k = true) by (rewrite pending_eq, R, Mk by lia; reflexivity).
  pose proof (highest_lt c k Hk Pk) as L. specialize (P L).
  destruct (Z.eq_dec (highest_channel c) k) as [|E]; [assumption|].
  rewrite pending_eq, O in P by lia. discriminate.
Qed.

Lemma highest_none c : (forall j, 0 <= j < 4 -> pending c j = false) -> highest_channel c = 4.
Proof.
  intros N. destruct (highest_spec c) as (B & _ & P). destruct (Z.eq_dec (highest_channel c) 4); [assumption|].
  rewrite N in P by lia. discriminate P. lia.
Qed.

(** The cascade: with no other request at DMA-2, HRQ follows channel 4. *)
Lemma set_DRQ4_follows v d : used (chan (s d 1) 0) = true -> ctrl_disabled (s d 1) = false -> mask (s d 1) 0 = false ->
  (forall k, 1 <= k < 4 -> req (s d 1) k = false) ->
  let d' := set_DRQ4 v d in
  HRQ d' = v /\ HLDA d' = HLDA d /\ s d' 0 = s d 0 /\ req (s d' 1) 0 = v /\ forall k, 1 <= k < 4 -> req (s d' 1) k = false.
Proof.
  intros U En Mk O d'. destruct (set_DRQ_body_asks (fun _ => control_HRQ_DMA2) 4 v d ltac:(lia) U)
    as (d1 & E & K & _ & HL & O1 & S1).
  change (if 4 >? 3 then 1 else 0) with 1 in *. change (Z.land 4 3) with 0 in S1. cbv beta in E.
  subst d'. unfold set_DRQ4. rewrite E. clear E.
  assert (R : forall k, 0 <= k < 4 -> req (s d1 1) k = if k =? 0 then v else req (s d 1) k).
  { intros k Hk. rewrite (status_req _ _ S1). apply asking_req; lia. }
  change control_HRQ_DMA2 with (control_HRQ 1). destruct (control_1 d1) as [_ C].
  assert (R1 : forall k, 1 <= k < 4 -> req (s d1 1) k = false).
  { intros k Hk. rewrite R by lia. destruct (Z.eqb_spec k 0); [lia | apply O; lia]. }
  rewrite C, control_HRQ_HLDA_1. split; [|split; [exact HL|split; [apply O1; lia|split; [apply (R 0); lia | exact R1]]]].
  unfold control_HRQ, control_HRQ_body. change (negb (1 =? 0)) with true. cbv iota zeta.
  rewrite (kp_disabled _ _ K), En. destruct v.
  - rewrite (some_request _ 0) by (lia || apply (R 0); lia).
    rewrite (highest_only _ 0); [reflexivity | lia | apply (R 0); lia | rewrite (kp_mask _ _ K); exact Mk |].
    intros j Hj N. apply R1. lia.
  - rewrite all_quiet; [reflexivity|]. intros k Hk. destruct (Z.eq_dec k 0) as [->|]; [apply (R 0); lia | apply R1; lia].
Qed.

(** ** The state of a transfer *)

(** Channel [ch] of DMA-1 is programmed and unmasked, with [n + 1] bytes to go, at
    address [a] of page [p], device to memory, upwards, without reload; both
    controllers are enabled, the cascade is unmasked, and no other channel
    requests. *)
Record setup (ch p a n : Z) (d : bx_dma_c) : Prop := {
  su_cascade : used (chan (s d 1) 0) = true /\ mask (s d 1) 0 = false;
  su_enabled : ctrl_disabled (s d 0) = false /\ ctrl_disabled (s d 1) = false;
  su_channel : 0 <= ch < 4 /\ used (chan (s d 0) ch) = true /\ mask (s d 0) ch = false;
  su_others1 : forall k, 0 <= k < 4 -> k <> ch -> req (s d 0) k = false;
  su_others2 : forall k, 1 <= k < 4 -> req (s d 1) k = false;
  su_page : page_reg (chan (s d 0) ch) = p;
  su_address : current_address (chan (s d 0) ch) = a;
  su_count : current_count (chan (s d 0) ch) = n;
  su_mode : mode (chan (s d 0) ch) = {| mode_type := mode_type (mode (chan (s d 0) ch));
              address_decrement := false; autoinit_enable := false; transfer_type := 1 |};
  su_handler : dmaWrite8 (h d ch) = true;
  su_range : 0 <= p < 256 /\ 0 <= a /\ 0 <= n < 65535 /\ a + n < 65536;
}.

(** Whether the channel requests, and with it the cascade and HRQ. *)
Record requesting (v : bool) (ch : Z) (d : bx_dma_c) : Prop := {
  rq_channel : req (s d 0) ch = v;
  rq_cascade : req (s d 1) 0 = v;
  rq_HRQ : HRQ d = v;
}.

Definition active (ch p a n : Z) (d : bx_dma_c) : Prop := setup ch p a n d /\ exists v, requesting v ch d.

(** The transfer is over: the terminal count is held in the status register, the
    channel is masked, the bus is released, and nobody else asks for it. *)
Record done (ch : Z) (d : bx_dma_c) : Prop := {
  dn_HRQ : HRQ d = false;
  dn_HLDA : HLDA d = false;
  dn_TC : Z.testbit (status_reg (s d 0)) ch = true;
  dn_mask : mask (s d 0) ch = true;
  dn_count : current_count (chan (s d 0) ch) = 0xffff;
  dn_alone : forall k, 0 <= k < 4 -> k <> ch -> req (s d 0) k = false;
}.

(** ** The device's own requests *)

Lemma setup_kept ch p a n d d' : kept d d' ->
  (forall k, 0 <= k < 4 -> k <> ch -> req (s d' 0) k = false) -> (forall k, 1 <= k < 4 -> req (s d' 1) k = false) ->
  setup ch p a n d -> setup ch p a n d'.
Proof. intros [K1 K2 K3 K4] O1 O2 []. split; rewrite ?K1, ?K2, ?K3, ?K4; assumption. Qed.

Lemma own_request ch p a n v d : setup ch p a n d ->
  setup ch p a n (set_DRQ ch v d) /\ requesting v ch (set_DRQ ch v d).
Proof.
  intros S. pose proof S as [[U4 M4] [E0 E1] [Hc [Uc Mc]] O1 O2 _ _ _ _ _ _].
  assert (Lc : Z.land ch 3 = ch) by (change 3 with (Z.ones 2); rewrite Z.land_ones, Z.mod_small by lia; reflexivity).
  assert (Gc : (ch >? 3) = false) by (destruct (Z.gtb_spec ch 3); [lia | reflexivity]).
  pose proof (set_DRQ_body_asks control_HRQ ch v d ltac:(lia)) as X. rewrite Gc, Lc in X. cbv iota zeta in X.
  destruct (X Uc) as (d1 & E & K & _ & _ & OK & S1). clear X. change (set_DRQ_body control_HRQ) with set_DRQ in E. rewrite E.
  assert (R : forall k, 0 <= k < 4 -> req (s d1 0) k = if k =? ch then v else req (s d 0) k).
  { intros k Hk. rewrite (status_req _ _ S1). apply asking_req; lia. }
  assert (R0 : forall k, 0 <= k < 4 -> k <> ch -> req (s d1 0) k = false).
  { intros k Hk N. rewrite R by lia. destruct (Z.eqb_spec k ch); [contradiction | auto]. }
  assert (Rc : req (s d1 0) ch = v) by (rewrite R, Z.eqb_refl by lia; reflexivity).
  assert (C1 : s d1 1 = s d 1) by (apply OK; lia).
  assert (C : control_HRQ 0 d1 = set_DRQ4 v d1).
  { unfold control_HRQ, control_HRQ_body. change (negb (0 =? 0)) with false. cbv iota zeta.
    rewrite (kp_disabled _ _ K), E0. destruct v.
    - rewrite (some_request _ ch) by assumption.
      rewrite (highest_only _ ch); auto; [|rewrite (kp_mask _ _ K); exact Mc].
      destruct (Z.ltb_spec ch 4); [reflexivity | lia].
    - rewrite all_quiet; [reflexivity|]. intros k Hk. destruct (Z.eq_dec k ch) as [->|]; auto. }
  rewrite C. destruct (set_DRQ4_follows v d1) as (F1 & _ & F3 & F4 & F5); rewrite ?C1; auto.
  split.
  - apply (setup_kept ch p a n d); auto; [|rewrite F3; exact R0].
    apply (kept_trans _ d1); [exact K | apply set_DRQ4_kept].
  - split; rewrite ?F3; assumption.
Qed.

Definition own (ch : Z) (l : list (Z * bool)) : Prop := Forall (fun '(k, _) => k = ch) l.

Lemma own_requests ch p a n l : forall d, own ch l -> active ch p a n d -> active ch p a n (run_drqs l d).
Proof.
  induction l as [|[k v] l IH]; intros d O A; [exact A|]. apply Forall_cons_iff in O. destruct O as [-> O].
  apply IH; [exact O|]. destruct A as [S _]. destruct (own_request ch p a n v d S). split; [|exists v]; assumption.
Qed.

(** A channel that is masked may request: nothing comes of it. *)
Lemma done_request ch d : 0 <= ch < 4 -> done ch d -> done ch (set_DRQ ch true d).
Proof.
  intros Hc [H L T Mk Ct Al]. pose proof (set_DRQ_kept ch true d) as K.
  assert (Lc : Z.land ch 3 = ch) by (change 3 with (Z.ones 2); rewrite Z.land_ones, Z.mod_small by lia; reflexivity).
  assert (Gc : (ch >? 3) = false) by (destruct (Z.gtb_spec ch 3); [lia | reflexivity]).
  destruct (used (chan (s d 0) ch)) eqn:U.
  - pose proof (set_DRQ_body_asks control_HRQ ch true d ltac:(lia)) as X. rewrite Gc, Lc in X. cbv iota zeta in X.
    destruct (X U) as (d1 & E & K1 & HR & HL & _ & S1). clear X. change (set_DRQ_body control_HRQ) with set_DRQ in E.
    assert (C : control_HRQ 0 d1 = d1).
    { unfold control_HRQ, control_HRQ_body. change (negb (0 =? 0)) with false. cbv iota zeta.
      destruct (ctrl_disabled (s d1 0)); [reflexivity|].
      rewrite (some_request _ ch) by (assumption || rewrite (status_req _ _ S1), asking_req, Z.eqb_refl by lia; reflexivity).
      rewrite highest_none; [reflexivity|]. intros j Hj. rewrite pending_eq by lia.
      destruct (Z.eq_dec j ch) as [->|N]; [rewrite (kp_mask _ _ K1), Mk; apply andb_false_r|].
      rewrite (status_req _ _ S1), asking_req by lia. destruct (Z.eqb_spec j ch); [contradiction|].
      rewrite Al by assumption. reflexivity. }
    rewrite E, C in *. split; try congruence.
    + rewrite S1. unfold asking. cbn [set_field status_reg]. rewrite wrap_bit, Z.lor_spec, T by lia.
      destruct (Z.ltb_spec ch 8); [reflexivity | lia].
    + rewrite (kp_mask _ _ K). exact Mk.
    + rewrite (kp_chan _ _ K). exact Ct.
    + intros k Hk N. rewrite (status_req _ _ S1), asking_req by lia. destruct (Z.eqb_spec k ch); [contradiction | auto].
  - assert (E : exists f, set_DRQ ch true d = BX_PANIC (PanicNotConnected ch) (on_ctrl 0 f d) /\ forall c, status_reg (f c) = status_reg c).
    { unfold set_DRQ, set_DRQ_body. destruct (Z.gtb_spec ch 7); [lia|]. rewrite Gc, Lc. cbv iota zeta.
      rewrite on_ctrl_same. cbn [set_field chan]. rewrite U. eexists. split; [reflexivity|]. reflexivity. }
    destruct E as (f & E & F). rewrite E in *.
    assert (S1 : status_reg (s (BX_PANIC (PanicNotConnected ch) (on_ctrl 0 f d)) 0) = status_reg (s d 0)).
    { cbn [BX_PANIC set_field s]. rewrite on_ctrl_same. apply F. }
    split; try assumption; rewrite ?S1, ?(kp_mask _ _ K), ?(kp_chan _ _ K); try assumption.
    intros k Hk N. rewrite (status_req _ _ S1). auto.
Qed.

(** ** The end of a hold cycle *)

Lemma chan_on k f c : chan (on_chan k f c) k = f (chan c k).
Proof. apply dma_upd_same. Qed.

Lemma advance_chan m ch len d : address_decrement (mode (chan (s d m) ch)) = false ->
  chan (s (advance m ch len d) m) ch =
  (chan (s d m) ch) <| current_address := u16 (current_address (chan (s d m) ch) + len) |>
                    <| current_count := u16 (current_count (chan (s d m) ch) - len) |>.
Proof.
  intros Md. unfold advance, set_chan. cbv zeta.
  rewrite !on_ctrl_same, !chan_on. cbn [set_field chan]. rewrite Md. reflexivity.
Qed.

Lemma advance_frame m ch len d : (forall j, j <> m -> s (advance m ch len d) j = s d j) /\
  HRQ (advance m ch len d) = HRQ d /\ h (advance m ch len d) = h d /\
  status_reg (s (advance m ch len d) m) = status_reg (s d m) /\
  mask (s (advance m ch len d) m) = mask (s d m) /\ ctrl_disabled (s (advance m ch len d) m) = ctrl_disabled (s d m).
Proof.
  unfold advance, set_chan. cbv zeta. split; [intros j N; rewrite !on_ctrl_other by exact N; reflexivity|].
  rewrite !on_ctrl_same. repeat split.
Qed.

Lemma setup_mode ch p a n d : setup ch p a n d ->
  address_decrement (mode (chan (s d 0) ch)) = false.
Proof. intros S. pose proof (su_mode _ _ _ _ _ S) as Md. rewrite Md. reflexivity. Qed.

Lemma finish_more ch p a n d len : active ch p a n d -> 0 < len <= n -> active ch p (a + len) (n - len) (finish 0 ch len d).
Proof.
  intros [S [v [Q1 Q2 Q3]]] Hl. pose proof S as [[U4 M4] [E0 E1] [Hc [Uc Mc]] O1 O2 Pg Ad Ct Md Hd Rg].
  destruct (advance_frame 0 ch len d) as (F1 & F2 & F3 & F4 & F5 & F6). specialize (F1 1 ltac:(lia)).
  pose proof (advance_chan 0 ch len d (setup_mode _ _ _ _ _ S)) as C. rewrite Ad, Ct, !wrap_id in C by (unfold fits; lia).
  unfold finish. cbv zeta. set (d' := advance 0 ch len d) in *. clearbody d'. rewrite C.
  cbn [set_field current_count]. destruct (Z.eqb_spec (n - len) 0xffff); [lia|].
  assert (R0 : forall k, req (s d' 0) k = req (s d 0) k) by (apply status_req; exact F4).
  split.
  - split; rewrite ?F1, ?F3, ?F5, ?F6, ?C; cbn [set_field used page_reg current_address current_count mode];
      auto; [|lia]. intros k Hk N. rewrite R0. auto.
  - exists v. split; rewrite ?R0, ?F1, ?F2; assumption.
Qed.

(** The end of a transfer that is not to be repeated, up to the withdrawal of the
    cascade request. *)
Lemma expire_eq ch d : 0 <= ch < 4 -> autoinit_enable (mode (chan (s d 0) ch)) = false ->
  exists d', expire 0 ch d = on_ctrl 1 (fun c => c <| DACK := upd 0 false (DACK c) |>) (set_DRQ4 false d') /\
    (forall i, 0 <= i -> Z.testbit (status_reg (s d' 0)) i = (i <? 8) && (Z.testbit (status_reg (s d 0)) i || (ch =? i))) /\
    mask (s d' 0) ch = true /\ chan (s d' 0) = chan (s d 0) /\ s d' 1 = s d 1 /\ HLDA d' = false.
Proof.
  intros Hc Au. unfold expire. cbv zeta. change (0 =? 0) with true. cbv iota.
  set (d4 := on_ctrl 0 (fun c => c <| status_reg := u8 (Z.lor (status_reg c) (Z.shiftl 1 ch)) |>) d).
  assert (E4 : chan (s d4 0) = chan (s d 0) /\ s d4 1 = s d 1 /\
    status_reg (s d4 0) = u8 (Z.lor (status_reg (s d 0)) (Z.shiftl 1 ch))).
  { unfold d4. rewrite on_ctrl_same, on_ctrl_other by lia. repeat split. }
  clearbody d4. destruct E4 as (C4 & O4 & S4). rewrite C4, Au. cbn [negb].
  set (d6 := on_ctrl 0 (fun c => c <| DACK := upd ch false (DACK c) |>)
    (set_HRQ false ((on_ctrl 0 (set_mask ch true) d4) <| TC := false |> <| HLDA := false |>))).
  exists d6. split; [reflexivity|].
  assert (E6 : status_reg (s d6 0) = status_reg (s d4 0) /\ mask (s d6 0) ch = true /\
    chan (s d6 0) = chan (s d4 0) /\ s d6 1 = s d4 1 /\ HLDA d6 = false).
  { unfold d6. rewrite on_ctrl_same, on_ctrl_other by lia. cbn [set_HRQ set_field s].
    rewrite on_ctrl_same, on_ctrl_other by lia. repeat split. apply dma_upd_same. }
  destruct E6 as (S6 & M6 & C6 & O6 & L6). split; [|repeat split; congruence].
  intros i Hi. rewrite S6, S4, wrap_bit, Z.lor_spec by lia. change (Z.shiftl 1 ch) with (bitmask ch).
  rewrite bitmask_testbit by lia. reflexivity.
Qed.

Lemma expire_done ch d : 0 <= ch < 4 -> autoinit_enable (mode (chan (s d 0) ch)) = false ->
  current_count (chan (s d 0) ch) = 0xffff -> used (chan (s d 1) 0) = true -> ctrl_disabled (s d 1) = false ->
  mask (s d 1) 0 = false ->
  (forall k, 1 <= k < 4 -> req (s d 1) k = false) -> (forall k, 0 <= k < 4 -> k <> ch -> req (s d 0) k = false) ->
  done ch (expire 0 ch d).
Proof.
  intros Hc Au Ct U En M4 N Al. destruct (expire_eq ch d Hc Au) as (d6 & -> & ST & M6 & C6 & O6 & L6).
  destruct (set_DRQ4_follows false d6) as (KH & KL & K0 & _ & _); rewrite ?O6; auto.
  set (d7 := set_DRQ4 false d6) in *. clearbody d7.
  split; rewrite ?on_ctrl_other, ?K0 by lia; [exact KH | exact (eq_trans KL L6) | | exact M6 | rewrite C6; exact Ct |].
  - rewrite ST, Z.eqb_refl, orb_true_r by lia. destruct (Z.ltb_spec ch 8); [reflexivity | lia].
  - intros k Hk Nk. specialize (Al k Hk Nk). unfold req in *. rewrite ST, Al by lia.
    destruct (Z.eqb_spec ch (k + 4)); [lia|]. apply andb_false_r.
Qed.

Lemma expire_records ch d : 0 <= ch < 4 -> autoinit_enable (mode (chan (s d 0) ch)) = false -> used (chan (s d 1) 0) = true ->
  let d' := expire 0 ch d in
  HLDA d' = false /\ Z.testbit (status_reg (s d' 0)) ch = true /\ mask (s d' 0) ch = true /\ chan (s d' 0) = chan (s d 0).
Proof.
  intros Hc Au U. cbv zeta. destruct (expire_eq ch d Hc Au) as (d6 & -> & ST & M6 & C6 & O6 & L6).
  destruct (set_DRQ4_ok false d6) as (_ & K0 & _ & _); [rewrite O6; exact U|].
  rewrite !on_ctrl_other, K0 by lia. split; [exact (eq_trans (set_DRQ4_HLDA false d6) L6)|].
  split; [|split; assumption]. rewrite ST, Z.eqb_refl, orb_true_r by lia. destruct (Z.ltb_spec ch 8); [reflexivity | lia].
Qed.

(** The end of a transfer on DMA-2 leaves the channels' registers. *)
Lemma finish_chan_2 ch len d : address_decrement (mode (chan (s d 1) ch)) = false ->
  autoinit_enable (mode (chan (s d 1) ch)) = false ->
  chan (s (finish 1 ch len d) 1) ch =
  (chan (s d 1) ch) <| current_address := u16 (current_address (chan (s d 1) ch) + len) |>
                    <| current_count := u16 (current_count (chan (s d 1) ch) - len) |>.
Proof.
  intros Md Au. rewrite <- advance_chan by exact Md. unfold finish. cbv zeta.
  pose proof (advance_chan 1 ch len d Md) as C. set (d' := advance 1 ch len d) in *. clearbody d'.
  destruct (_ =? 0xffff); [|reflexivity]. unfold expire. cbv zeta. change (1 =? 0) with false. cbv iota.
  set (d4 := on_ctrl 1 _ d'). assert (C4 : chan (s d4 1) = chan (s d' 1)) by (unfold d4; rewrite on_ctrl_same; reflexivity).
  clearbody d4. assert (A4 : autoinit_enable (mode (chan (s d4 1) ch)) = false) by (rewrite C4, C; exact Au).
  rewrite A4. cbn [negb]. rewrite on_ctrl_same. cbn [set_HRQ set_field s chan]. rewrite on_ctrl_same.
  cbn [set_mask set_field chan]. rewrite C4. reflexivity.
Qed.

Lemma finish_last ch p a n d : setup ch p a n d -> done ch (finish 0 ch (n + 1) d).
Proof.
  intros S. pose proof S as [[U4 M4] [E0 E1] [Hc [Uc Mc]] O1 O2 Pg Ad Ct Md Hd Rg].
  destruct (advance_frame 0 ch (n + 1) d) as (F1 & F2 & F3 & F4 & F5 & F6). specialize (F1 1 ltac:(lia)).
  pose proof (advance_chan 0 ch (n + 1) d (setup_mode _ _ _ _ _ S)) as C.
  rewrite Ct in C. replace (u16 (n - (n + 1))) with 0xffff in C by (replace (n - (n + 1)) with (-1) by lia; reflexivity).
  unfold finish. cbv zeta. set (d' := advance 0 ch (n + 1) d) in *. clearbody d'.
  assert (C1 : current_count (chan (s d' 0) ch) = 0xffff) by (rewrite C; reflexivity). rewrite C1.
  change (0xffff =? 0xffff) with true. cbv iota. apply expire_done; rewrite ?F1; try assumption.
  - rewrite C. cbn [set_field mode]. rewrite Md. reflexivity.
  - intros k Hk N. rewrite (status_req _ _ F4). auto.
Qed.

Section Block.
Variables M D : Type.
Variable dmaReadPhysicalPage : Z -> Z -> M -> list Z.
Variable dmaWritePhysicalPage : Z -> list Z -> M -> M.
Variable dev_write dev_read : bool -> Z -> list Z -> Z -> bool -> D -> reply D.
Variable junk : list Z.

(** The bytes of memory, and the addresses that are plain memory. *)
Variable get : M -> Z -> Z.
Variable ram : Z -> Prop.

Definition stored (addr : Z) (data : list Z) (m : M) (a : Z) : Z :=
  if (addr <=? a) && (a <? addr + Z.of_nat (length data)) then nth (Z.to_nat (a - addr)) data 0 else get m a.

(** A page write stores its bytes, in plain memory and within one page. *)
Hypothesis page_write : forall addr data m, 0 <= addr -> data <> [] ->
  addr / 4096 = (addr + Z.of_nat (length data) - 1) / 4096 ->
  (forall a, addr <= a < addr + Z.of_nat (length data) -> ram a) ->
  forall a, get (dmaWritePhysicalPage addr data m) a = stored addr data m a.

(** ** The page loop *)

Lemma stored_app addr l1 l2 m m' a : (forall x, get m' x = stored addr l1 m x) ->
  stored (addr + Z.of_nat (length l1)) l2 m' a = stored addr (l1 ++ l2) m a.
Proof.
  intros H. unfold stored at 1. rewrite H. unfold stored. rewrite length_app.
  destruct (Z.leb_spec (addr + Z.of_nat (length l1)) a); destruct (Z.ltb_spec a (addr + Z.of_nat (length l1) + Z.of_nat (length l2)));
    destruct (Z.leb_spec addr a); destruct (Z.ltb_spec a (addr + Z.of_nat (length l1)));
    destruct (Z.ltb_spec a (addr + Z.of_nat (length l1 + length l2))); cbn [andb];
    try lia; try reflexivity;
    first [rewrite app_nth2 by lia; f_equal; lia | rewrite app_nth1 by lia; reflexivity].
Qed.

Lemma page_end addr k : 0 <= addr -> 0 < k <= 4096 - addr mod 4096 -> addr / 4096 = (addr + k - 1) / 4096.
Proof. intros Ha Hk. Z.to_euclidean_division_equations. lia. Qed.

Lemma write_pages_get fuel : forall addr len ptr m, 0 <= addr -> 0 <= len < Z.of_nat fuel ->
  len <= Z.of_nat (length ptr) -> (forall a, addr <= a < addr + len -> ram a) ->
  forall a, get (write_pages M dmaWritePhysicalPage fuel addr len ptr m) a = stored addr (firstn (Z.to_nat len) ptr) m a.
Proof.
  induction fuel as [|fuel IH]; intros addr len ptr m Ha Hl Hp R a; [lia|]. cbn [write_pages].
  rewrite Z.gtb_ltb. destruct (Z.ltb_spec 0 len) as [L|L].
  2: { replace len with 0 by lia. unfold stored. cbn [firstn Z.to_nat length Z.of_nat]. rewrite Z.add_0_r.
       destruct (Z.leb_spec addr a), (Z.ltb_spec a addr); try lia; reflexivity. }
  change 0xfff with (Z.ones 12). rewrite Z.land_ones by lia. change (2 ^ 12) with 4096.
  pose proof (Z.mod_pos_bound addr 4096 ltac:(lia)) as B.
  set (r := if len <? 0x1000 - addr mod 4096 then len else 0x1000 - addr mod 4096).
  assert (Hr : 0 < r <= len /\ r <= 4096 - addr mod 4096)
    by (subst r; destruct (Z.ltb_spec len (0x1000 - addr mod 4096)); lia).
  clearbody r. assert (Lr : Z.of_nat (length (firstn (Z.to_nat r) ptr)) = r) by (rewrite firstn_length_le; lia).
  rewrite IH; [| lia | lia | rewrite length_skipn; lia | intros; apply R; lia].
  replace (firstn (Z.to_nat len) ptr)
    with (firstn (Z.to_nat r) ptr ++ firstn (Z.to_nat (len - r)) (skipn (Z.to_nat r) ptr)).
  - rewrite <- Lr at 1. apply stored_app. intros x. apply page_write; rewrite ?Lr; auto.
    + intros E. rewrite E in Lr. cbn in Lr. lia.
    + apply page_end; lia.
    + intros; apply R; lia.
  - rewrite <- (firstn_skipn (Z.to_nat r) (firstn (Z.to_nat len) ptr)) at 1.
    rewrite firstn_firstn, skipn_firstn_comm. f_equal; f_equal; lia.
Qed.

Lemma dma_write_get addr len ptr m : 0 <= addr -> 0 <= len <= Z.of_nat (length ptr) ->
  (forall a, addr <= a < addr + len -> ram a) ->
  forall a, get (DEV_MEM_WRITE_PHYSICAL_DMA M dmaWritePhysicalPage addr len ptr m) a = stored addr (firstn (Z.to_nat len) ptr) m a.
Proof. intros. apply write_pages_get; auto; lia. Qed.

(** ** The device *)

(** The bytes the device will deliver. *)
Variable feed : D -> nat -> Z.

(** Asked over its channel [ch] for up to [maxlen] bytes, it delivers between one
    and [maxlen] of them; it may drop and raise its own DRQ as it does so. *)
Definition delivers (ch : Z) : Prop := forall maxlen tc dev, 0 < maxlen <= BX_DMA_BUFFER_SIZE ->
  let r := dev_write false ch junk maxlen tc dev in
  0 < r_len r <= maxlen /\ own ch (r_drqs r) /\ r_len r <= Z.of_nat (length (r_buffer r)) /\
  (forall i, (i < Z.to_nat (r_len r))%nat -> nth i (r_buffer r) 0 = feed dev i) /\
  (forall i, feed (r_device r) i = feed dev (Z.to_nat (r_len r) + i)).

(** The physical address of byte [a] of page [p]. *)
Definition phys (p a : Z) : Z := 65536 * p + a.

Lemma phys_addr p a : 0 <= a < 65536 -> Z.lor (Z.shiftl p 16) (Z.shiftl a 0) = phys p a.
Proof. intros H. rewrite Z.shiftl_0_r, lor_shiftl_add by (unfold fits; lia). reflexivity. Qed.

(** What [k] bytes of the device put at [x] leave in memory. *)
Definition filled (x k : Z) (dev : D) (m : M) (y : Z) : Z :=
  if (x <=? y) && (y <? x + k) then feed dev (Z.to_nat (y - x)) else get m y.

Lemma filled_step x k1 k2 dev dev' m m' y : 0 <= k1 -> 0 <= k2 ->
  (forall z, get m' z = filled x k1 dev m z) -> (forall i, feed dev' i = feed dev (Z.to_nat k1 + i)) ->
  filled (x + k1) k2 dev' m' y = filled x (k1 + k2) dev m y.
Proof.
  intros H1 H2 Hm Hd. unfold filled at 1. rewrite Hm, Hd. unfold filled.
  destruct (Z.leb_spec (x + k1) y), (Z.ltb_spec y (x + k1 + k2)), (Z.leb_spec x y), (Z.ltb_spec y (x + k1)),
    (Z.ltb_spec y (x + (k1 + k2))); cbn [andb]; try lia; try reflexivity. f_equal. lia.
Qed.

Definition st_ctl (st : bx_dma_c * M * D) : bx_dma_c := fst (fst st).
Definition st_mem (st : bx_dma_c * M * D) : M := snd (fst st).
Definition st_dev (st : bx_dma_c * M * D) : D := snd st.

Definition hold (d : bx_dma_c) (m : M) (dev : D) : bx_dma_c * M * D :=
  raise_HLDA M D dmaReadPhysicalPage dmaWritePhysicalPage dev_write dev_read junk d m dev.

(** The transfer done by one hold cycle, and the state [d'] its end starts from. *)
Lemma hold_serves ch p a n d m dev : setup ch p a n d -> requesting true ch d ->
  let maxlen := Z.min (n + 1) 512 in
  exists d', setup ch p a n d' /\ requesting true ch d' /\
    let r := dev_write false ch junk maxlen (TC d') dev in
    hold d m dev = (finish 0 ch (r_len r) (run_drqs (r_drqs r) d'),
      DEV_MEM_WRITE_PHYSICAL_DMA M dmaWritePhysicalPage (phys p a) (r_len r) (r_buffer r) m, r_device r).
Proof.
  intros S [Q1 Q2 Q3] maxlen. pose proof S as [[U4 M4] [E0 E1] [Hc [Uc Mc]] O1 O2 Pg Ad Ct Md Hd Rg].
  unfold hold, raise_HLDA. set (d0 := d <| HLDA := true |>). cbv zeta.
  assert (H0 : highest_channel (s d0 1) = 0).
  { apply (highest_only (s d 1)); auto; [lia|]. intros j Hj N. apply O2. lia. }
  rewrite H0. change (0 =? 0) with true. cbv iota.
  set (d1 := on_ctrl 1 (fun c => c <| DACK := upd 0 true (DACK c) |>) d0).
  assert (E : s d1 0 = s d 0) by (unfold d1; rewrite on_ctrl_other by lia; reflexivity).
  assert (R1 : forall t, setup ch p a n (d1 <| TC := t |>) /\ requesting true ch (d1 <| TC := t |>)).
  { intros t. split; split; auto; try assumption. }
  assert (Hi : highest_channel (s d1 0) = ch) by (rewrite E; apply highest_only; auto).
  rewrite Hi. destruct (Z.geb_spec ch 4); [lia|]. unfold serve. rewrite E, Md, Ct, Pg, Ad.
  cbn [address_decrement negb]. rewrite phys_addr, Z.shiftl_0_r, (wrap_id 16 (n + 1)) by (unfold fits; lia).
  change BX_DMA_BUFFER_SIZE with 512. cbv zeta.
  set (d2 := d1 <| TC := n + 1 <=? 512 |>).
  replace (if n + 1 >? 512 then 512 else n + 1) with maxlen
    by (subst maxlen; destruct (Z.gtb_spec (n + 1) 512); lia).
  exists d2. destruct (R1 (n + 1 <=? 512)) as [S2 T2]. fold d2 in S2, T2. split; [exact S2|]. split; [exact T2|]. clearbody d2.
  unfold transfer. cbv zeta. rewrite (su_mode _ _ _ _ _ S2). cbn [transfer_type]. change (1 =? 1) with true.
  change (negb (0 =? 0)) with false. cbv iota. rewrite (su_handler _ _ _ _ _ S2). reflexivity.
Qed.

Lemma hold_round ch p a n d m dev : delivers ch -> setup ch p a n d -> requesting true ch d ->
  (forall x, phys p a <= x <= phys p a + n -> ram x) ->
  exists len, 0 < len <= n + 1 /\
    (forall y, get (st_mem (hold d m dev)) y = filled (phys p a) len dev m y) /\
    (forall i, feed (st_dev (hold d m dev)) i = feed dev (Z.to_nat len + i)) /\
    (len = n + 1 -> done ch (st_ctl (hold d m dev))) /\
    (len <= n -> active ch p (a + len) (n - len) (st_ctl (hold d m dev))).
Proof.
  intros Dv S Q Rm. destruct (hold_serves ch p a n d m dev S Q) as (d' & S' & Q' & E). cbv zeta in E.
  pose proof (su_range _ _ _ _ _ S) as Rg.
  set (r := dev_write false ch junk (Z.min (n + 1) 512) (TC d') dev) in E.
  destruct (Dv (Z.min (n + 1) 512) (TC d') dev) as (D1 & D2 & D3 & D4 & D5);
    [unfold BX_DMA_BUFFER_SIZE; lia|]. fold r in D1, D2, D3, D4, D5. clearbody r.
  assert (A' : active ch p a n (run_drqs (r_drqs r) d')).
  { apply own_requests; [exact D2|]. split; [exact S' | exists true; exact Q']. }
  rewrite E. unfold st_mem, st_dev, st_ctl. cbn [fst snd].
  exists (r_len r). split; [lia|]. split; [|split; [exact D5 | split]].
  - intros y. rewrite dma_write_get; [| unfold phys; lia | lia | intros x Hx; apply Rm; lia].
    unfold stored, filled. rewrite firstn_length_le, Z2Nat.id by lia.
    destruct ((phys p a <=? y) && (y <? phys p a + r_len r)) eqn:B; [|reflexivity]. bool_hyps.
    rewrite <- D4 by lia.
    rewrite <- (firstn_skipn (Z.to_nat (r_len r)) (r_buffer r)) at 2. rewrite app_nth1; [reflexivity|].
    rewrite firstn_length_le by lia. lia.
  - intros ->. apply finish_last with p a. apply A'.
  - intros L. apply finish_more; [exact A' | lia].
Qed.

(** The processor grants the bus while HRQ is asserted. *)
Definition grant (st : bx_dma_c * M * D) : bx_dma_c * M * D :=
  let '(d, m, dev) := st in if HRQ d then hold d m dev else st.

(** When HRQ is not asserted, the device that waits raises its DRQ again. *)
Definition round (ch : Z) (st : bx_dma_c * M * D) : bx_dma_c * M * D :=
  let '(d, m, dev) := st in if HRQ d then grant st else (set_DRQ ch true d, m, dev).

Lemma round_done ch st : 0 <= ch < 4 -> done ch (st_ctl st) ->
  done ch (st_ctl (round ch st)) /\ st_mem (round ch st) = st_mem st /\ st_dev (round ch st) = st_dev st.
Proof.
  destruct st as [[d m] dev]. unfold round, st_ctl, st_mem, st_dev. cbn [fst snd]. intros Hc Dn.
  rewrite (dn_HRQ _ _ Dn). cbn [fst snd]. split; [apply done_request; assumption | auto].
Qed.

Lemma rounds_done ch k st : 0 <= ch < 4 -> done ch (st_ctl st) ->
  let st' := Nat.iter k (round ch) st in
  done ch (st_ctl st') /\ st_mem st' = st_mem st /\ st_dev st' = st_dev st.
Proof.
  intros Hc Dn. induction k as [|k (I1 & I2 & I3)]; [auto|]. cbv zeta. cbn [Nat.iter nat_rect].
  change (nat_rect _ _ _ k) with (Nat.iter k (round ch) st).
  destruct (round_done ch _ Hc I1) as (J1 & J2 & J3). rewrite J2, J3. auto.
Qed.

Lemma block_loop fuel : forall ch p a n d m dev v, delivers ch -> setup ch p a n d -> requesting v ch d ->
  2 * n + (if v then 1 else 2) <= Z.of_nat fuel ->
  (forall x, phys p a <= x <= phys p a + n -> ram x) ->
  let st := Nat.iter fuel (round ch) (d, m, dev) in
  done ch (st_ctl st) /\ (forall y, get (st_mem st) y = filled (phys p a) (n + 1) dev m y) /\
  (forall i, feed (st_dev st) i = feed dev (Z.to_nat (n + 1) + i)).
Proof.
  induction fuel as [|fuel IH]; intros ch p a n d m dev v Dv S Q Hf Rm; pose proof (su_range _ _ _ _ _ S) as Rg;
    [destruct v; lia|].
  cbv zeta. rewrite iter_succ_r. unfold round at 2 4 6. unfold grant. rewrite (rq_HRQ _ _ _ Q). destruct v.
  2: { destruct (own_request ch p a n true d S) as [S' Q']. apply (IH _ p a n _ _ _ true); auto. lia. }
  destruct (hold_round ch p a n d m dev Dv S Q Rm) as (len & L & G & F & Dn & Ac).
  destruct (hold d m dev) as [[d1 m1] dev1]. unfold st_ctl, st_mem, st_dev in G, F, Dn, Ac. cbn [fst snd] in *.
  destruct (Z.eq_dec len (n + 1)) as [->|Ne].
  - specialize (Dn eq_refl). destruct (su_channel _ _ _ _ _ S) as [Hc _].
    destruct (rounds_done ch fuel (d1, m1, dev1) Hc Dn) as (J1 & J2 & J3). rewrite J2, J3. auto.
  - destruct (Ac ltac:(lia)) as [S1 [v1 Q1]]. assert (P : phys p (a + len) = phys p a + len) by (unfold phys; lia).
    destruct (IH ch p (a + len) (n - len) d1 m1 dev1 v1 Dv S1 Q1) as (I1 & I2 & I3).
    { destruct v1; lia. }
    { intros x Hx. apply Rm. lia. }
    split; [exact I1|]. split.
    + intros y. rewrite I2, P, (filled_step _ len) with (dev := dev) (m := m) by (assumption || lia).
      f_equal. lia.
    + intros i. rewrite I3, F. f_equal. lia.
Qed.

(** C8: a block transfer completes.  A channel of DMA-1 is programmed for
    [n + 1 <= 65535] bytes within one 64K page, device to memory, upwards, without
    reload, and no other channel requests; its device delivers any portion of at
    least one byte each time it is asked, and may drop its DRQ whenever it likes,
    at the end of a sector or with the last byte, say, and raise it again when the
    bus is free.  Within [2 (n + 1)] rounds, each a hold cycle or a new request,
    memory holds the device's next [n + 1] bytes at consecutive addresses and is
    unchanged elsewhere, the device has given up exactly those bytes, the terminal
    count is recorded, the channel masked and the bus released; and all this
    stays so in every later round, even if the device requests on. *)
Theorem block_transfer_completes k ch p a n d m dev v : delivers ch -> setup ch p a n d -> requesting v ch d ->
  2 * (n + 1) <= Z.of_nat k ->
  (forall x, phys p a <= x <= phys p a + n -> ram x) ->
  let st := Nat.iter k (round ch) (d, m, dev) in
  done ch (st_ctl st) /\
  (forall y, get (st_mem st) y = filled (phys p a) (n + 1) dev m y) /\
  (forall i, feed (st_dev st) i = feed dev (Z.to_nat (n + 1) + i)).
Proof. intros Dv S Q Hk Rm. apply (block_loop k ch p a n d m dev v); auto. destruct v; lia. Qed.

(** ** Lengths go wrong *)

(** The length of the longest portion of a 16-bit channel, in bytes. *)
Definition wide_maxlen (count : Z) : Z := Z.min (u16 (2 * (count + 1))) BX_DMA_BUFFER_SIZE.

Lemma wide_hold ch d m dev : highest_channel (s d 1) = ch -> 1 <= ch < 4 ->
  let c := chan (s d 1) ch in
  transfer_type (mode c) = 1 -> address_decrement (mode c) = false -> dmaWrite16 (h d ch) = true ->
  let x := Z.lor (Z.shiftl (page_reg c) 16) (Z.shiftl (current_address c) 1) in
  let r := dev_write true ch junk (wide_maxlen (current_count c) / 2) (u16 (2 * (current_count c + 1)) <=? 512) dev in
  exists d', kept d d' /\
    hold d m dev = (finish 1 ch (r_len r) d', DEV_MEM_WRITE_PHYSICAL_DMA M dmaWritePhysicalPage x (r_len r) (r_buffer r) m, r_device r).
Proof.
  intros Hi Hc c Tt Md Hd x r. unfold hold, raise_HLDA. set (d0 := d <| HLDA := true |>). cbv zeta.
  change (s d0 1) with (s d 1). rewrite Hi. destruct (Z.eqb_spec ch 0); [lia|]. destruct (Z.geb_spec ch 4); [lia|].
  unfold serve. change (s d0 1) with (s d 1). fold c. rewrite Md. cbn [negb]. cbv zeta.
  replace (Z.shiftl (current_count c + 1) 1) with (2 * (current_count c + 1)) by (rewrite Z.shiftl_mul_pow2 by lia; lia).
  set (ml := u16 (2 * (current_count c + 1))). set (d1 := d0 <| TC := ml <=? BX_DMA_BUFFER_SIZE |>).
  assert (E1 : kept d d1) by (split; reflexivity).
  unfold transfer. change (s d1 1) with (s d 1). fold c. rewrite Tt. change (1 =? 1) with true. change (negb (1 =? 0)) with true.
  change (h d1 ch) with (h d ch). rewrite Hd. cbv zeta iota.
  change (TC d1) with (ml <=? BX_DMA_BUFFER_SIZE).
  replace (if ml >? BX_DMA_BUFFER_SIZE then BX_DMA_BUFFER_SIZE else ml) with (wide_maxlen (current_count c))
    by (unfold wide_maxlen; fold ml; destruct (Z.gtb_spec ml BX_DMA_BUFFER_SIZE); lia).
  exists (run_drqs (r_drqs r) d1). split; [exact (kept_trans _ _ _ E1 (run_drqs_kept _ _)) | reflexivity].
Qed.

Lemma full_hold ch d m dev : highest_channel (s d 1) = 0 -> highest_channel (s d 0) = ch -> 0 <= ch < 4 ->
  let c := chan (s d 0) ch in
  transfer_type (mode c) = 1 -> address_decrement (mode c) = false -> current_count c = 0xffff -> dmaWrite8 (h d ch) = true ->
  let r := dev_write false ch junk 0 true dev in
  r_len r = 0 ->
  exists d', kept d d' /\ hold d m dev = (finish 0 ch 0 d', m, r_device r).
Proof.
  intros H4 Hi Hc c Tt Md Ct Hd r Hr. unfold hold, raise_HLDA. set (d0 := d <| HLDA := true |>). cbv zeta.
  change (s d0 1) with (s d 1). rewrite H4. change (0 =? 0) with true. cbv iota.
  set (d1 := on_ctrl 1 (fun c => c <| DACK := upd 0 true (DACK c) |>) d0).
  assert (K1 : kept d d1) by (apply (kept_trans _ d0); [split; reflexivity | apply on_ctrl_kept; auto]).
  assert (E1 : s d1 0 = s d 0) by (unfold d1; rewrite on_ctrl_other by lia; reflexivity).
  rewrite E1, Hi. destruct (Z.geb_spec ch 4); [lia|]. unfold serve. rewrite E1. fold c. rewrite Md, Ct. cbn [negb].
  change (u16 (Z.shiftl (0xffff + 1) 0)) with 0. change (0 <=? BX_DMA_BUFFER_SIZE) with true.
  change (0 >? BX_DMA_BUFFER_SIZE) with false. cbv zeta iota. set (d2 := d1 <| TC := true |>).
  assert (K2 : kept d d2) by (apply (kept_trans _ d1); [exact K1 | split; reflexivity]).
  unfold transfer. rewrite (kp_chan _ _ K2). fold c. rewrite Tt. change (1 =? 1) with true. change (negb (0 =? 0)) with false.
  rewrite (kp_h _ _ K2), Hd. cbv zeta iota. change (TC d2) with true. fold r. rewrite Hr.
  exists (run_drqs (r_drqs r) d2). split; [exact (kept_trans _ _ _ K2 (run_drqs_kept _ _)) | reflexivity].
Qed.

(** C40: lengths go wrong at both ends, whatever the channel, the device and
    memory.  When a 16-bit channel of DMA-2 is granted the bus and its device
    delivers [len] words, in a buffer of [2 len] bytes, only the first [len] bytes
    of them are stored, and the [len] bytes after those keep their old values,
    while address and count advance by [len] words.  And a channel of DMA-1 with a
    full block of 65536 bytes to go ends at its first grant: the device is asked
    for no byte, because [current_count + 1] does not fit the 16 bits of
    [maxlen], memory is unchanged, and the terminal count is recorded and the
    channel masked as if the block had been moved. *)
Theorem transfer_lengths_go_wrong m dev :
  (forall ch d, highest_channel (s d 1) = ch -> 1 <= ch < 4 ->
    let c := chan (s d 1) ch in
    transfer_type (mode c) = 1 -> address_decrement (mode c) = false -> autoinit_enable (mode c) = false ->
    dmaWrite16 (h d ch) = true ->
    let x := Z.lor (Z.shiftl (page_reg c) 16) (Z.shiftl (current_address c) 1) in
    let r := dev_write true ch junk (wide_maxlen (current_count c) / 2) (u16 (2 * (current_count c + 1)) <=? 512) dev in
    let len := r_len r in
    0 <= x -> 0 <= len -> Z.of_nat (length (r_buffer r)) = 2 * len -> (forall y, x <= y < x + 2 * len -> ram y) ->
    let st := hold d m dev in
    (forall i, 0 <= i < len -> get (st_mem st) (x + i) = nth (Z.to_nat i) (r_buffer r) 0) /\
    (forall i, len <= i < 2 * len -> get (st_mem st) (x + i) = get m (x + i)) /\
    current_address (chan (s (st_ctl st) 1) ch) = u16 (current_address c + len) /\
    current_count (chan (s (st_ctl st) 1) ch) = u16 (current_count c - len) /\ st_dev st = r_device r) /\
  (forall ch d, highest_channel (s d 1) = 0 -> highest_channel (s d 0) = ch -> 0 <= ch < 4 -> used (chan (s d 1) 0) = true ->
    let c := chan (s d 0) ch in
    transfer_type (mode c) = 1 -> address_decrement (mode c) = false -> autoinit_enable (mode c) = false ->
    current_count c = 0xffff -> dmaWrite8 (h d ch) = true ->
    let r := dev_write false ch junk 0 true dev in
    r_len r = 0 ->
    let st := hold d m dev in
    st_mem st = m /\ st_dev st = r_device r /\ HLDA (st_ctl st) = false /\
    Z.testbit (status_reg (s (st_ctl st) 0)) ch = true /\ mask (s (st_ctl st) 0) ch = true).
Proof.
  split.
  - intros ch d Hi Hc c Tt Md Au Hd x r len Hx Hl Hb Rm st.
    destruct (wide_hold ch d m dev Hi Hc Tt Md Hd) as (d' & K & E). fold c x r len in E. subst st. rewrite E.
    unfold st_mem, st_ctl, st_dev. cbn [fst snd].
    assert (G : forall y, get (DEV_MEM_WRITE_PHYSICAL_DMA M dmaWritePhysicalPage x len (r_buffer r) m) y =
                          stored x (firstn (Z.to_nat len) (r_buffer r)) m y)
      by (apply dma_write_get; [exact Hx | lia | intros y Hy; apply Rm; lia]).
    rewrite finish_chan_2 by (rewrite (kp_chan _ _ K); assumption). rewrite (kp_chan _ _ K). fold c.
    split; [|split; [|repeat split]].
    + intros i Hi'. rewrite G. unfold stored. rewrite firstn_length_le, Z2Nat.id by lia.
      destruct (Z.leb_spec x (x + i)), (Z.ltb_spec (x + i) (x + len)); try lia. cbn [andb].
      replace (x + i - x) with i by lia.
      rewrite <- (firstn_skipn (Z.to_nat len) (r_buffer r)) at 2. rewrite app_nth1; [reflexivity|].
      rewrite firstn_length_le by lia. lia.
    + intros i Hi'. rewrite G. unfold stored. rewrite firstn_length_le, Z2Nat.id by lia.
      destruct (Z.ltb_spec (x + i) (x + len)); [lia|]. rewrite andb_false_r. reflexivity.
  - intros ch d H4 Hi Hc U c Tt Md Au Ct Hd r Hr st.
    destruct (full_hold ch d m dev H4 Hi Hc Tt Md Ct Hd Hr) as (d' & K & E). fold r in E. subst st. rewrite E.
    unfold st_mem, st_ctl, st_dev. cbn [fst snd]. split; [reflexivity|]. split; [reflexivity|].
    assert (C : chan (s (advance 0 ch 0 d') 0) ch = c <| current_address := u16 (current_address c + 0) |> <| current_count := 0xffff |>).
    { rewrite advance_chan by (rewrite (kp_chan _ _ K); exact Md). rewrite (kp_chan _ _ K). fold c. rewrite Ct. reflexivity. }
    destruct (advance_frame 0 ch 0 d') as (F1 & _). specialize (F1 1 ltac:(lia)).
    unfold finish. cbv zeta. set (d2 := advance 0 ch 0 d') in *. clearbody d2. rewrite C.
    cbn [set_field current_count]. change (0xffff =? 0xffff) with true. cbv iota.
    destruct (expire_records ch d2 Hc) as (X1 & X2 & X3 & _); [rewrite C; exact Au | rewrite F1, (kp_chan _ _ K); exact U |].
    auto.
Qed.

End Block.
