(* ===== verification/DmaProps.v ===== *)
(** * The DMA registers, and concrete runs

    The 16-bit registers behind the 8-bit ports; the witnesses, on a machine
    programmed through the ports as firmware does it; and the run of a request
    that is lost. *)

From Stdlib Require Import ZArith Lia List Bool.
From S2P Require Import Prelude Dma DmaRequests DmaTransfer.
Import ListNotations.
Open Scope Z_scope.

(** ** Two bytes behind one port *)

Definition controller (port : Z) : Z := if port >=? 0xc0 then 1 else 0.
Definition channel (port : Z) : Z := Z.land (Z.shiftr port (1 + controller port)) 0x03.

Lemma lo_hi lo hi : 0 <= lo < 256 -> 0 <= hi < 256 ->
  u16 (Z.lor (u16 lo) (Z.shiftl hi 8)) = lo + 256 * hi /\
  Z.land (lo + 256 * hi) 0xff = lo /\ Z.shiftr (lo + 256 * hi) 8 = hi.
Proof.
  intros Hl Hh. rewrite (wrap_id 16 lo) by (unfold fits; lia).
  rewrite Z.lor_comm, lor_shiftl_add by (unfold fits; lia). change (2 ^ 8 * hi) with (256 * hi).
  rewrite wrap_id by (unfold fits; lia). change 0xff with (Z.ones 8).
  rewrite Z.land_ones, Z.shiftr_div_pow2 by lia. Z.to_euclidean_division_equations. lia.
Qed.

Lemma address_pair k lo hi c : 0 <= lo < 256 -> 0 <= hi < 256 -> flip_flop c = false ->
  let c' := write_address k hi (write_address k lo c) in
  flip_flop c' = false /\
  chan c' k = (chan c k) <| base_address := lo + 256 * hi |> <| current_address := lo + 256 * hi |>.
Proof.
  intros Hl Hh F. destruct (lo_hi lo hi Hl Hh) as (W & _ & _). unfold write_address. rewrite F.
  unfold on_chan. cbn [set_field flip_flop chan negb]. split; [reflexivity|].
  rewrite !dma_upd_same. cbn [set_field base_address current_address]. rewrite W. reflexivity.
Qed.

Lemma count_pair k lo hi c : 0 <= lo < 256 -> 0 <= hi < 256 -> flip_flop c = false ->
  let c' := write_count k hi (write_count k lo c) in
  flip_flop c' = false /\
  chan c' k = (chan c k) <| base_count := lo + 256 * hi |> <| current_count := lo + 256 * hi |>.
Proof.
  intros Hl Hh F. destruct (lo_hi lo hi Hl Hh) as (W & _ & _). unfold write_count. rewrite F.
  unfold on_chan. cbn [set_field flip_flop chan negb]. split; [reflexivity|].
  rewrite !dma_upd_same. cbn [set_field base_count current_count]. rewrite W. reflexivity.
Qed.

Lemma on_ctrl_twice m f g d : s (on_ctrl m f (on_ctrl m g d)) m = f (g (s d m)).
Proof. rewrite !on_ctrl_same. reflexivity. Qed.

(** The address and count registers of all eight channels: two bytes written to a
    port, low byte first, set the base and the current register, and the next
    two reads of the port return them; the flip-flop is back where it was. *)
Theorem register_roundtrip port lo hi d : In port (address_ports ++ count_ports) ->
  0 <= lo < 256 -> 0 <= hi < 256 -> flip_flop (s d (controller port)) = false ->
  let d1 := write port hi 1 (write port lo 1 d) in
  let '(v1, d2) := read port d1 in
  let '(v2, d3) := read port d2 in
  v1 = lo /\ v2 = hi /\ flip_flop (s d3 (controller port)) = false /\
  let c := chan (s d3 (controller port)) (channel port) in
  if one_of port address_ports
  then base_address c = lo + 256 * hi /\ current_address c = lo + 256 * hi
  else base_count c = lo + 256 * hi /\ current_count c = lo + 256 * hi.
Proof.
  intros I Hl Hh F. destruct (lo_hi lo hi Hl Hh) as (_ & L & H).
  unfold write. change (1 >? 1) with false. cbv iota zeta.
  unfold write1, read. fold (controller port). fold (channel port).
  destruct (one_of port address_ports) eqn:A; [|destruct (one_of port count_ports) eqn:B].
  - clear I A. generalize (channel port). intros k. rewrite on_ctrl_twice.
    destruct (address_pair k lo hi (s d (controller port)) Hl Hh F) as [P1 P2]. revert P1 P2.
    generalize (controller port). intros m.
    set (d1 := on_ctrl m (write_address k hi) _). set (c := write_address k hi _).
    assert (E : s d1 m = c) by apply on_ctrl_twice. clearbody c d1. intros P1 P2.
    rewrite P1, P2. cbn [negb set_field current_address]. unfold toggle. rewrite !on_ctrl_same, E.
    cbn [set_field flip_flop chan]. rewrite P1, P2. cbn [negb set_field flip_flop chan base_address current_address].
    rewrite !on_ctrl_same, E. cbn [set_field flip_flop chan]. rewrite P1, P2.
    cbn [negb set_field base_address current_address]. rewrite L, H. auto.
  - clear I A B. generalize (channel port). intros k. rewrite on_ctrl_twice.
    destruct (count_pair k lo hi (s d (controller port)) Hl Hh F) as [P1 P2]. revert P1 P2.
    generalize (controller port). intros m.
    set (d1 := on_ctrl m (write_count k hi) _). set (c := write_count k hi _).
    assert (E : s d1 m = c) by apply on_ctrl_twice. clearbody c d1. intros P1 P2.
    rewrite P1, P2. cbn [negb set_field current_count]. unfold toggle. rewrite !on_ctrl_same, E.
    cbn [set_field flip_flop chan]. rewrite P1, P2. cbn [negb set_field flip_flop chan base_count current_count].
    rewrite !on_ctrl_same, E. cbn [set_field flip_flop chan]. rewrite P1, P2.
    cbn [negb set_field base_count current_count]. rewrite L, H. auto.
  - exfalso. apply in_app_or in I. rewrite <- !one_of_In in I. destruct I; congruence.
Qed.

(** ** A concrete machine

    Memory is a function; the device on every channel delivers the numbers from
    its state on, at most seven units at a time, a word low byte first. *)

Definition mem := Z -> Z.
Definition read_page (addr len : Z) (m : mem) : list Z := map (fun i => m (addr + i)) (zrange (Z.to_nat len)).
Definition write_page (addr : Z) (data : list Z) (m : mem) : mem := fun a =>
  if (addr <=? a) && (a <? addr + Z.of_nat (length data)) then nth (Z.to_nat (a - addr)) data 0 else m a.

Definition counter_write (wide : bool) (ch : Z) (buf : list Z) (maxlen : Z) (tc : bool) (n : Z) : reply Z :=
  let len := Z.min maxlen 7 in
  Reply len (if wide then flat_map (fun i => [(n + i) mod 256; (n + i) / 256]) (zrange (Z.to_nat len))
             else map (fun i => n + i) (zrange (Z.to_nat len))) (n + len) [].
Definition counter_read (wide : bool) (ch : Z) (buf : list Z) (maxlen : Z) (tc : bool) (n : Z) : reply Z :=
  Reply (Z.min maxlen 7) buf n [].

(** A disk with sectors of 8 bytes: it drops its DRQ at the end of each sector and
    with the last byte of the block. *)
Definition sector_write (wide : bool) (ch : Z) (buf : list Z) (maxlen : Z) (tc : bool) (n : Z) : reply Z :=
  let len := Z.min maxlen (8 - n mod 8) in
  Reply len (map (fun i => n + i) (zrange (Z.to_nat len))) (n + len)
    (if ((n + len) mod 8 =? 0) || (tc && (len =? maxlen)) then [(ch, false)] else []).

Definition run (k : nat) (ch : Z) (d : bx_dma_c) (dev : Z) : bx_dma_c * mem * Z :=
  Nat.iter k (round mem Z read_page write_page sector_write counter_read [] ch) (d, fun _ => 255, dev).

(** The chip after reset, with devices on the channels 2, 3 and 5. *)
Definition blank : bx_dma_c :=
  let c := Ctrl (fun _ => false) (fun _ => false) (fun _ => false) false 0 0 false (fun _ => init_chan) in
  Dma (fun _ => c) false false (fun _ => 0) (fun _ => Handlers false false false false) false false [].
Definition connected : bx_dma_c :=
  let d := reset (init blank) in
  let d := snd (registerDMA8Channel 2 true true d) in
  let d := snd (registerDMA8Channel 3 true true d) in
  snd (registerDMA16Channel 5 true true d).

Definition outs (l : list (Z * Z)) (d : bx_dma_c) : bx_dma_c :=
  fold_left (fun d '(port, value) => write port value 1 d) l d.

(** Channel 2: 20 bytes to 0x12FF8, a single transfer from the device to memory;
    the cascade is unmasked. *)
Definition program_2 : list (Z * Z) :=
  [(0x0c, 0); (0x0b, 0x46); (0x04, 0xF8); (0x04, 0x2F); (0x81, 0x01); (0x05, 19); (0x05, 0); (0xd4, 0); (0x0a, 2)].

Definition programmed : bx_dma_c := set_DRQ 2 true (outs program_2 connected).

Lemma below_4 (P : Z -> Prop) : P 0 -> P 1 -> P 2 -> P 3 -> forall k, 0 <= k < 4 -> P k.
Proof. intros P0 P1 P2 P3 k Hk. assert (k = 0 \/ k = 1 \/ k = 2 \/ k = 3) as [->|[->|[->| ->]]] by lia; assumption. Qed.

Lemma programmed_setup : setup 2 1 0x2FF8 19 programmed /\ requesting true 2 programmed.
Proof.
  split; split; try reflexivity; try lia; try (split; reflexivity).
  - split; [lia | split; reflexivity].
  - apply (below_4 (fun k => k <> 2 -> req (s programmed 0) k = false)); try reflexivity. intros []; reflexivity.
  - intros k Hk. assert (k = 1 \/ k = 2 \/ k = 3) as [->|[->| ->]] by lia; reflexivity.
Qed.

Lemma write_page_spec addr data (m : mem) : 0 <= addr -> data <> [] ->
  addr / 4096 = (addr + Z.of_nat (length data) - 1) / 4096 ->
  (forall a, addr <= a < addr + Z.of_nat (length data) -> True) ->
  forall a, write_page addr data m a = stored mem (fun m => m) addr data m a.
Proof. reflexivity. Qed.

Definition counter_feed (n : Z) (i : nat) : Z := n + Z.of_nat i.

Lemma length_zrange n : length (zrange n) = n.
Proof. unfold zrange. rewrite length_map. apply length_seq. Qed.

Lemma nth_numbers n k i : (i < k)%nat -> nth i (map (fun j => n + j) (zrange k)) 0 = n + Z.of_nat i.
Proof.
  intros H. unfold zrange. rewrite map_map.
  rewrite (nth_indep _ 0 (n + Z.of_nat 0)) by (rewrite length_map, length_seq; exact H).
  rewrite (map_nth (fun x => n + Z.of_nat x)), seq_nth by exact H. reflexivity.
Qed.

Lemma sector_delivers : delivers Z sector_write [] counter_feed 2.
Proof.
  intros maxlen tc n H. unfold sector_write. set (len := Z.min maxlen (8 - n mod 8)). cbv zeta.
  cbn [r_len r_drqs r_buffer r_device].
  assert (L : 0 < len <= maxlen) by (pose proof (Z.mod_pos_bound n 8 ltac:(lia)); lia). clearbody len.
  split; [exact L|]. split; [destruct (_ || _); repeat constructor|].
  rewrite length_map, length_zrange. split; [lia|]. split.
  - intros i Hi. apply nth_numbers, Hi.
  - intros i. unfold counter_feed. lia.
Qed.

(** The block crosses a page: 0x12FF8 to 0x1300B; the disk pauses at the end of
    each of its sectors. *)
Lemma block_transfer_completes_witness :
  let st := run 40 2 programmed 100 in
  done 2 (st_ctl mem Z st) /\
  map (st_mem mem Z st) [0x12FF7; 0x12FF8; 0x12FFF; 0x13000; 0x1300B; 0x1300C] = [255; 100; 107; 108; 119; 255].
Proof.
  destruct programmed_setup as [S Q].
  destruct (block_transfer_completes mem Z read_page write_page sector_write counter_read [] (fun m => m)
    (fun _ => True) write_page_spec counter_feed 40 2 1 0x2FF8 19 programmed (fun _ => 255) 100 true
    sector_delivers S Q ltac:(lia) (fun _ _ => I)) as (A & B & _).
  unfold run. cbv zeta. split; [exact A|]. cbn [map]. rewrite !B. vm_compute. reflexivity.
Defined.

Lemma register_roundtrip_witness :
  let d1 := write 0xc6 0x12 1 (write 0xc6 0x34 1 connected) in
  fst (read 0xc6 d1) = 0x34 /\ base_count (chan (s d1 1) 1) = 0x1234.
Proof.
  intros d1.
  pose proof (register_roundtrip 0xc6 0x34 0x12 connected ltac:(cbn; tauto) ltac:(lia) ltac:(lia) eq_refl) as H.
  cbv zeta in H. fold d1 in H. destruct (read 0xc6 d1) as [v1 d2]. destruct (read 0xc6 d2) as [v2 d3].
  destruct H as (-> & _). split; reflexivity.
Defined.

(** DMA-2 is cleared while nobody waits; channels 2 and 3 are programmed and
    requested in turn, one hold cycle runs. *)
Lemma requests_reach_the_processor_witness :
  let l := map (fun '(p, v) => Write p v 1) ((0xda, 0) :: program_2 ++ [(0x0a, 3)]) ++ [SetDRQ 3 true; SetDRQ 2 true; Hold; SetDRQ 3 false] in
  let st := fold_left (fun st o => dma_step mem Z read_page write_page counter_write counter_read [] o st) l
              (connected, (fun _ => 255), 100) in
  no_request_lost (fst (fst st)) /\ HRQ (fst (fst st)) = true.
Proof.
  intros l st. split; [|vm_compute; reflexivity].
  apply (requests_reach_the_processor mem Z read_page write_page counter_write counter_read []
    ltac:(intros; constructor) ltac:(intros; constructor) (connected, (fun _ => 255), 100)).
  - apply dma_run_list; [constructor|]. vm_compute. repeat split; discriminate.
  - split; [reflexivity|]. split; intros _ k Hk.
    + assert (k = 0 \/ k = 1 \/ k = 2 \/ k = 3) as [->|[->|[->| ->]]] by lia; discriminate.
    + assert (k = 0 \/ k = 1 \/ k = 2 \/ k = 3) as [->|[->|[->| ->]]] by lia; discriminate.
Defined.

(** ** Where the controllers go wrong *)

(** Only the processor's grants, to a device that keeps its DRQ. *)
Definition grants (k : nat) (d : bx_dma_c) (dev : Z) : bx_dma_c * mem * Z :=
  Nat.iter k (grant mem Z read_page write_page counter_write counter_read []) (d, fun _ => 255, dev).

(** The end of a transfer strands other requests.  Channels 2 and 3 both request
    and are unmasked; when the block of channel 2 ends, HRQ and the cascade
    request are dropped although channel 3 still waits. *)
Theorem terminal_count_strands_requests :
  let d := set_DRQ 3 true (set_DRQ 2 true (outs (program_2 ++ [(0x0a, 3)]) connected)) in
  let d' := st_ctl mem Z (grants 20 d 100) in
  HRQ d = true /\ pending (s d 0) 3 = true /\
  pending (s d' 0) 3 = true /\ ctrl_disabled (s d' 0) = false /\ HRQ d' = false.
Proof. repeat split; vm_compute; reflexivity. Qed.

(** Channel 5, 16 bits: 4 words to 0x22000. *)
Definition program_5 : list (Z * Z) :=
  [(0xd8, 0); (0xd6, 0x45); (0xc4, 0x00); (0xc4, 0x10); (0x8b, 0x02); (0xc6, 3); (0xc6, 0); (0xd4, 1)].

(** Channel 2 with a count of 0xffff, 65536 bytes. *)
Definition program_full : list (Z * Z) :=
  [(0x0c, 0); (0x0b, 0x46); (0x04, 0); (0x04, 0); (0x81, 0x01); (0x05, 0xff); (0x05, 0xff); (0xd4, 0); (0x0a, 2)].

(** Four words from channel 5, of which two are stored; a full block on channel 2. *)
Lemma transfer_lengths_go_wrong_witness :
  let st := grants 1 (set_DRQ 5 true (outs program_5 connected)) 0x1234 in
  let full := grants 1 (set_DRQ 2 true (outs program_full connected)) 100 in
  map (st_mem mem Z st) [0x22000; 0x22001; 0x22002; 0x22003; 0x22004; 0x22005; 0x22006; 0x22007] =
    [0x34; 0x12; 0x35; 0x12; 255; 255; 255; 255] /\
  st_mem mem Z full 0x10000 = 255 /\ st_dev mem Z full = 100 /\ HLDA (st_ctl mem Z full) = false.
Proof.
  destruct (transfer_lengths_go_wrong mem Z read_page write_page counter_write counter_read [] (fun m => m)
    (fun _ => True) write_page_spec (fun _ => 255) 0x1234) as [T _].
  destruct (transfer_lengths_go_wrong mem Z read_page write_page counter_write counter_read [] (fun m => m)
    (fun _ => True) write_page_spec (fun _ => 255) 100) as [_ U].
  set (d5 := set_DRQ 5 true (outs program_5 connected)).
  destruct (T 1 d5) as (T1 & T2 & _); try reflexivity; try lia; try (vm_compute; congruence).
  set (d2 := set_DRQ 2 true (outs program_full connected)).
  destruct (U 2 d2) as (U1 & U2 & U3 & _); try reflexivity; try lia. clear T U.
  split; [|split; [exact (f_equal (fun m => m 0x10000) U1) | split; [exact U2 | exact U3]]].
  change (grants 1 d5 0x1234) with (hold mem Z read_page write_page counter_write counter_read [] d5 (fun _ => 255) 0x1234).
  cbn [map]. repeat apply (f_equal2 (@cons Z)).
  - exact (T1 0 ltac:(vm_compute; split; congruence)).
  - exact (T1 1 ltac:(vm_compute; split; congruence)).
  - exact (T1 2 ltac:(vm_compute; split; congruence)).
  - exact (T1 3 ltac:(vm_compute; split; congruence)).
  - exact (T2 4 ltac:(vm_compute; split; congruence)).
  - exact (T2 5 ltac:(vm_compute; split; congruence)).
  - exact (T2 6 ltac:(vm_compute; split; congruence)).
  - exact (T2 7 ltac:(vm_compute; split; congruence)).
  - reflexivity.
Defined.
